(* ===== verification/_CoqProject ===== *)
-Q . S2P
Prelude.v
RustStr.v
Proto.v
Concrete.v
TaskHelpers.v
TaskStore.v
TaskEdits.v
TaskMachine.v
TaskEffects.v
TaskForest.v
TaskLifecycle.v
TaskRollup.v
TaskPersist.v
TaskExamples.v
Queue.v
Memory.v
SharedValues.v
History.v
PureDecisions.v
Registry.v
Wake.v
SessionManager.v
Daemon.v
Handlers.v
Server.v
ServerFacts.v
HandlerFacts.v
ComponentExamples.v
ServerExamples.v
Paths.v
RustText.v
Act.v
ConfigSchema.v
AtomicFile.v
Tmux.v
Artifacts.v
ConfigTree.v
ConfigFacts.v
WorkspaceManager.v
Reconcile.v
ReconcileFacts.v
CodexFiles.v
CodexFacts.v
Dispatch.v
DispatchFacts.v
ErrorText.v
GitStatus.v
SessionWorld.v
TeamReconfigure.v
TeamFacts.v
WorkspaceExamples.v
Usage.v
UsageFacts.v
UsageHistory.v
UsageHistoryFacts.v
UsageTrends.v
UsageExamples.v
TeamHandlers.v
McpScope.v
McpPlanner.v
McpClient.v
McpHost.v
Agent.v
AgentFacts.v
McpTools.v
McpToolFacts.v
McpExamples.v
TeamExamples.v
TuiData.v
TuiApp.v
TuiLoop.v
CliArgs.v
CliTasks.v
CliRun.v
CliFacts.v
TuiFacts.v
TuiQueue.v
TuiShown.v
TuiExamples.v
CliExamples.v
