(* ===== verification/Prelude.v ===== *)
(** * ax: a verification of the ax daemon and of what it runs

    ax runs a team of coding agents in tmux sessions.  Its daemon
    (src/crates/ax-daemon) keeps the shared state of the team and serves agents over a
    Unix socket: they register a workspace, exchange messages, create, claim and
    finish tasks, and store memories and shared values.  Background loops wake idle
    agents, put unused sessions to sleep and repair tasks whose agent died.  Which
    workspaces there are comes from a tree of configuration files (ax-config), which
    agents may change through the daemon (team_reconfigure.rs); ax-workspace brings the
    tmux sessions and the generated files in line with it, through ax-tmux.  An agent
    reaches the daemon through the tools of ax-mcp-server, a person through the command
    line of ax-cli and the terminal interface of ax-tui, which read the daemon's files and
    ask it over the socket.  ax-agent launches the runtimes and reports on them.

    ** Parts and files: the daemon

    - [Prelude]: results, record update, 64-bit integers, time, ordered maps,
      automation.  [RustStr], [RustText]: the operations of Rust's [str] on UTF-8 bytes.
      [Proto]: the wire types of ax-proto/src/types.rs and the status title.  [Concrete]:
      instances of the parameters, for the examples.
    - [TaskHelpers], [PureDecisions]: task_helpers.rs and pure_decisions.rs.
    - [TaskStore]: task_store.rs.  Its state is the record [TaskStore] (file path, map
      of tasks, bytes on disk); one definition per method.  [TaskMachine] gathers the
      mutations into [store_op] and defines [reachable].  [TaskEdits], [TaskEffects]
      are the frame library; [TaskForest], [TaskLifecycle], [TaskRollup],
      [TaskPersist] hold the theorems, [TaskExamples] their instances.
    - [Queue], [Memory], [SharedValues], [History], [Registry]: the files of the same
      name, each with its state record, its operations and its theorems.
    - [Wake]: wake_scheduler.rs and the prompt of daemonutil.rs, against the interface
      [WakeEnv].  [SessionManager]: session_manager.rs, against [SessionBackend].
    - [AtomicFile]: atomicfile.rs as the sequence of its file-system calls; [fs_prim] is
      what one call may do, [sys_step] interleaves writers.  [GitStatus]: git_status.rs
      over [GitHost].
    - [Daemon], [Handlers]: handlers.rs.  [Daemon] is the state shared by all
      connections; a handler is a computation in a state-and-error monad.
    - [Server]: handle_envelope, startup, connections and background loops of
      server.rs; [server_step] is the labelled transition system of the whole daemon
      and [daemon_wake_env] discharges [WakeEnv].  [ServerFacts] proves that every
      step is a sequence of component operations and lifts the component theorems,
      [HandlerFacts] describes single requests.  [ComponentExamples] and
      [ServerExamples] apply the theorems to concrete runs.
    - [TeamReconfigure]: team_reconfigure.rs and team_state_store.rs, a controller with
      leases and revisions over the configuration; [TeamFacts] and [TeamExamples].
      Requests are cut where the code gives a lock back: [begin_apply] plans without the
      lock of the leases and commits under it ([commit_plan]); [finish_apply] takes its
      lease ([take_lease]), then reads ([read_leased_team]) and writes ([put_state]) the
      store; [team_step] interleaves the pieces of any number of requests.
      [TeamHandlers]: the team requests of handlers.rs.

    ** Parts and files: configuration and sessions

    - [Paths]: std::path on strings and ax-config/src/paths.rs.  [ConfigSchema]:
      schema.rs and overlay.rs over the interfaces [FileSystem] and [YamlCodec].
      [ConfigTree]: tree.rs and validate.rs, the two traversals of the tree of projects.
      [ConfigFacts] holds their theorems and, for the examples, a file system in memory.
    - [Act]: the monad of computations that may fail and keep the state they reached,
      with its weakest-precondition rules and [moves], what a run leaves related.
    - [Tmux]: ax-tmux, every command as the argument list it hands to the interface
      [Tmux], the contract [TmuxOk] of the server behind it (a table of live sessions and
      a log of creations and kills) and the rules derived from it: what commands with the
      target of one name do whatever other sessions there are ([aimed]), and on names that
      no session extends ([clear]).
    - [Artifacts]: instructions.rs, mcp_config.rs and the runtimes of ax-agent, over
      [ArtifactFs], with their theorems.
    - [WorkspaceManager]: manager.rs, orchestrator.rs and the file of
      orchestrator_prompt.rs.  Its state [World] pairs files and tmux; the Codex home
      and the text of prompts are the interfaces [CodexHome] and [Prompts].
    - [Reconcile]: reconcile.rs.  [Dispatch]: dispatch.rs and lifecycle.rs.
      [ReconcileFacts] and [DispatchFacts] hold the theorems,
      [WorkspaceExamples] applies them, over a tmux server in memory ([MemTmux]), and
      shows runs outside their hypotheses.
    - [SessionWorld]: the real session backend of the daemon, that is [SessionBackend]
      answered by dispatch and lifecycle, and the agent-lifecycle request of handlers.rs
      on top of it, whose error texts are in [ErrorText], with their theorems;
      [WorkspaceExamples].
    - [CodexFiles]: the private home of a Codex agent (ax-agent/src/codex.rs) over the
      file-system interface [LinkFs], an instance of [CodexHome]; [CodexFacts], with
      examples in [WorkspaceExamples].
    - [Agent]: launch.rs, status.rs and shell.rs of ax-agent.  Processes and clocks are
      [LaunchHost], the directories of transcripts [AgentFs], their records [AgentJson];
      the reporter speaks to the daemon through [StatusMetricsClient].  [AgentFacts]: the
      theorems, against [EndingChild] where a program has to end, and their examples.

    ** Parts and files: token usage

    - [Usage]: the counters of ax-proto/src/usage.rs and, of ax-usage, the records of
      one transcript line (parse.rs, codex.rs) and the aggregator (aggregator.rs).
      [UsageFacts]: its theorems, over the class [I64Vec] of vectors of wrapping
      counters.
    - [UsageHistory]: the scans, buckets, roll-ups and the attribution of transcripts to
      workspaces (history.rs).  [UsageHistoryFacts].
    - [UsageTrends]: the query over all workspaces, the discovery of transcripts
      (claude.rs, codex.rs) and the daemon's request (usage_trends.rs), with their
      theorems; [UsageExamples].

    ** Parts and files: the agent's side (ax-mcp-server)

    - [McpScope]: memory_scope.rs.  [McpPlanner]: planner.rs, over the interface
      [SurveyFs].
    - [McpClient]: daemon_client.rs, one connection shared by concurrent requests.
      [Client] is the shared state, [client_step] interleaves its atomic pieces; the
      envelopes are decoded through [WireText].
    - [McpHost], [McpTools]: server.rs.  A tool is a computation over a state with a
      connection ([DaemonLink], with its clock [LinkClock]) and the machine's files and
      tmux ([Machine]); texts the libraries render are [ToolText].  A tool that would
      panic ends in [ToolPanic].
    - [McpToolFacts] holds the theorems, some of which compose the report tools with the
      task store of the daemon; [McpExamples] applies them.

    ** Parts and files: the terminal interface (ax-tui)

    - [TuiData]: the lists it shows, agents.rs, tasks.rs, stream.rs and captures.rs, and
      socket_path.rs of the daemon.
    - [TuiApp]: state.rs, actions.rs, input.rs.  [App] is the state, one definition per
      operation and key handler, and the two changes of render.rs to scroll positions.
    - [TuiLoop]: the blocking client of daemon.rs over [Socket] and [WatchWire], and the
      loop of app.rs: [run_turn] is one turn, [watching] the runs.
    - [TuiFacts]: the invariant [app_ok] and that every operation keeps it.  [TuiQueue]:
      what is queued for the daemon and when.  [TuiShown]: the lists against the stores
      of the daemon.  [TuiExamples].

    ** Parts and files: the command line (ax-cli)

    - [CliArgs]: the grammar of main.rs.  [scan] is the loop over arguments all parsers
      share, a step per parser says what one argument does, [parse_args] is the whole; also
      the pid file and the signals by which the daemon is found.
    - [CliTasks]: daemon_client.rs over [Socket] and [WatchWire], status.rs and tasks.rs
      with their texts (dates are [TimeText]).
    - [CliRun]: the commands of main.rs, workspace.rs, refresh.rs and init.rs, over
      [LaunchHost] and [CliHost] (terminal, signals, tmux).  [run_command] is one command,
      [cli_run] the program.
    - [CliFacts]: theorems that compose the command line with what it talks to: the task
      store, the sessions, the configuration, and the commands ax itself writes.
      [CliHostOk] says that the parts of a host do not disturb each other.  [CliExamples].

    ** What the theorems show

    - The whole server: in every reachable state the task graph is a forest with exact
      rollups, inboxes and history are bounded, memory links agree and wakes have
      attempts left; only a confirmed update from the assignee's connection completes a
      task; finished tasks stay finished; each step acts on a store only through that
      store's operations.
    - Tasks: causes of status changes, immutability of identity, removed tasks frozen,
      sound optimistic locking, refused operations change nothing, the file is an image
      of the store, recovery is complete.
    - Messages: FIFO inboxes with a cap, nothing lost when reading, a clean queue is on
      disk under any interleaving with the flusher, refills are complete, deliveries
      survive failed dispatches, finished tasks are cleaned up and announced.
    - The other stores: atomic and consistent memories, round trips of shared values
      and history, generations of connections, at most ten wakes per schedule, the
      exact idle-sleep condition, at most one nudge per workspace and pass.
    - Configuration: loading ends within the caps, the flat and the tree view agree, the
      orchestrators of a tree that loads have names of their own.
    - Teams: a live lease stays its team's under any interleaving and keeps the stored
      state but for reports that are late, a commit is one revision, a change has its
      effect on its entry alone, the plan is the exact difference.
    - Sessions, on names that tmux can tell apart: a reconcile pass spares attached, busy
      and protected sessions, starts everything desired, and settles; start, stop and
      restart refine the two-state machine of one session.  On any names: start, stop,
      restart, the idle pass and ax down create no other session and kill only sessions
      whose names begin with that of a target.  A target name means one thing; spawning
      respects the cap; what the user wrote in instruction files without markers and in
      .mcp.json survives; a lifecycle request refused has touched nothing; a Codex home is
      prepared without touching the user's own.
    - Usage: a request counts once however often its record is revised, the rows per
      model add up to the totals, a transcript's series goes to one workspace at most,
      roll-ups neither lose nor invent usage, and a request over at most 10^9 minutes is
      answered without a panic, with one trend per workspace in order.
    - Agent's side: a report is well formed and accepted for every open task of the
      caller, a lease taken by a tool is always given back, answers reach the requests
      they belong to under any interleaving, waiting for a reply ends, and memory scopes
      have the form the daemon stores.
    - Terminal interface: in every state it reaches cursors are on rows that are shown and
      tabs are valid; nothing stays queued, and a task action starts at once or waits behind
      a running one; destructive actions are queued only when confirmed; the task list is the daemon's store, the message list is the
      history the daemon would load, and every session has a row.
    - Files and git: readers of a file that writers of different clock readings replace
      see a whole version of it, a write ends and leaves nothing else changed; a git status
      counts every entry, once unless it is renamed in the work tree alone, and is at most
      five seconds old, its diffstat saturates.
    - Launcher: it returns when its program ends, after a last report; reports are
      accepted by the daemon as they are; the newest transcript is read; quoted arguments
      come back from a shell.
    - Command line: what the preview of a recovery suggests is understood and carried out;
      the commands ax writes mean what they were made from; down leaves no session of the
      project; init registers a project once and under its own key; the list shows every
      workspace; .gitignore gets its line once.

    ** Conventions

    Time is nanoseconds in [Z]; [i64] counters that can overflow wrap as in release
    builds.  [HashMap] and [BTreeMap] are [gmap]; iteration order is the byte order of
    the keys.  What the code takes from outside is an argument: the clock, fresh
    identifiers ([op_fresh] and [request_fresh] state what [Uuid::new_v4] gives), the
    hashes of names and texts ([short_team_hash], [hash_text]), the outcome of each file
    write in the daemon, and through type classes the regular expressions and Unicode
    tables ([TextOps]), serde ([JsonCodec], with [JsonCodecOk] and [JsonFileOk] for the
    round trips), YAML, the file system, tmux, and the transcripts ([TranscriptJson] for
    the JSON of a line, [TranscriptFs] for the directories), sockets and envelopes
    ([DaemonLink], [WireText], [Socket], [WatchWire]).  Every law is satisfied by
    an instance in the example files.  Where the usage code can panic (chrono durations
    out of range) the model has the value [Panic] of the type [Fault].

    Loops are folds over lists fixed when they start.  Of the recursions only the one
    through configuration files has fuel ([load_fuel]), the number of files on a path:
    [None] is a path longer than the fuel, and a fuel of the depth cap plus two never
    runs out ([loading_ends_within_the_caps]).  The upward search for a file has the
    length of the path as fuel.  Dispatch and lifecycle inherit the fuel of the loads.
    Two loops wait for others: polling for a reply has one unit of fuel per pass, and
    (timeout + 2) / 3 + 1 units are enough ([polling_ends]); the readers of the terminal
    interface, the launcher and the command line have one per line they skip, and theorems
    about them hold for every run that ends.  The launcher asks its program as often as
    [polls] says, which is enough when it exceeds the polls the program survives
    ([launcher_ends_with_its_child]); waiting for messages has one unit per question.
    The search for a free key among n children has n + 1 units, which always suffice.
    There every event takes one reading of each clock, and positions move in wrapping
    [i32] as in the code; the panic of [clamp] on a list of 2^31 rows is left out.

    Hypotheses on names: [named_children] and [countable_children] say that a project
    names its children and has fewer than 2^32 of them; [clear] says that the sessions a
    run deals with can be told apart by tmux (names without underscores, no live session
    whose name extends that of one of them, no white space in the names of sessions),
    [plain] that a name has only letters, digits, [-], [_] and [.], [separate] that a desired workspace does not reuse the name of
    an orchestrator.  The example files show what the code does without them.

    Mutexes are held for one operation of one store; a handler is one step of
    [server_step], and since each of its effects is an operation of one store, the
    invariants of single stores do not depend on that granularity, while the theorems of
    [HandlerFacts] describe a handler that is not interrupted.

    ** Not modelled

    JSON and YAML text, sockets, writer tasks and timers are I/O and come in as arguments;
    waiting for a fresh agent takes only time.  The text of the orchestrator prompts is
    the parameter [Prompts]: it is prose with names filled in, read by a model and by no
    code.  The router of the MCP protocol is a library, and widgets, layout and colours of
    the terminal interface (most of render.rs) are calls of one, without a state of their
    own but the scroll positions.  Of the command line the runtime around [ax daemon
    start], the stdio server of [ax mcp-server] and the agents that [ax init] launches are
    left out: they start tokio, a transport and a program, and [run_command] takes what
    they do as an argument.  The shutdown of the daemon's tasks is tokio's.  Panics on
    absurd timeouts and on clocks outside of their ranges are left out where not said
    otherwise. *)

From stdpp Require Import prelude gmap strings list fin_maps sorting pretty.

(** ** Results: Rust's [Result<A, E>]. *)

Inductive result (E A : Type) : Type :=
| Ok (a : A)
| Err (e : E).
Arguments Ok {E A} a.
Arguments Err {E A} e.

#[export] Instance result_ret {E} : MRet (result E) := fun A a => Ok a.
#[export] Instance result_bind {E} : MBind (result E) := fun A B f r =>
  match r with Ok a => f a | Err e => Err e end.
#[export] Instance result_fmap {E} : FMap (result E) := fun A B f r =>
  match r with Ok a => Ok (f a) | Err e => Err e end.

Definition is_ok {E A} (r : result E A) : bool :=
  match r with Ok _ => true | Err _ => false end.

Definition map_err {E F A} (f : E -> F) (r : result E A) : result F A :=
  match r with Ok a => Ok a | Err e => Err (f e) end.

(** ** Computations with state, errors and fuel.

    The state survives an error (what was done before it stays done); [None] is a lack
    of fuel and not a result of the code. *)

Definition Run (E S A : Type) : Type := S -> option (result E A * S).

#[export] Instance Run_ret {E S} : MRet (Run E S) := fun A a s => Some (Ok a, s).
#[export] Instance Run_bind {E S} : MBind (Run E S) := fun A B f m s =>
  match m s with
  | Some (Ok a, s) => f a s
  | Some (Err e, s) => Some (Err e, s)
  | None => None
  end.
Definition lift {E S A} (r : result E A) : Run E S A := fun s => Some (r, s).
Definition throw {E S A} (e : E) : Run E S A := lift (Err e).
(** [match f() { Ok(v) => .., Err(e) => .. }]: the error becomes a value. *)
Definition attempt {E S A} (m : Run E S A) : Run E S (result E A) := fun s =>
  match m s with
  | Some (r, s) => Some (Ok r, s)
  | None => None
  end.

(** Unfold the monad one layer. *)
Ltac run_step := unfold mbind, Run_bind, mret, Run_ret, attempt, throw, lift; cbv beta iota.

(** ** Functional record update.

    [r <| f := v |>] is the record [r] with field [f] replaced.  A record
    type opts in with an [Updatable] instance (its eta expansion); the setter
    of a field is then derived by abstracting the projection. *)

Declare Scope ax_scope.
Delimit Scope ax_scope with ax.

Class Updatable (R : Type) := eta_record : R -> R.
Class FieldSetter {R T : Type} (proj : R -> T) := set_field : (T -> T) -> R -> R.
Arguments set_field {R T} proj {FieldSetter} _ _ : simpl never.

Ltac derive_setter :=
  match goal with
  | |- @FieldSetter ?R ?T ?proj =>
      let eta := constr:(@eta_record R _) in
      let body := eval hnf in eta in
      match eval pattern proj in body with
      | ?abs _ => exact (fun g => abs (fun r => g (proj r)))
      end
  end.

#[export] Hint Extern 1 (FieldSetter _) => derive_setter : typeclass_instances.

Notation "r <| f := v |>" := (set_field f (fun _ => v) r)
  (at level 1, left associativity, f at next level, v at level 200,
   format "r  <| f  :=  v |>") : ax_scope.
#[global] Open Scope ax_scope.

(** Compute the projections of updated records, without unfolding the records. *)
Ltac fsimpl_step :=
  match goal with
  | |- context [?p (@set_field ?R ?T ?f ?S ?g ?r)] =>
      first [ change (p (@set_field R T f S g r)) with (p r)
            | change (p (@set_field R T f S g r)) with (g (p r)); cbv beta ]
  | H : context [?p (@set_field ?R ?T ?f ?S ?g ?r)] |- _ =>
      first [ change (p (@set_field R T f S g r)) with (p r) in H
            | change (p (@set_field R T f S g r)) with (g (p r)) in H; cbv beta in H ]
  end.
Ltac fsimpl := repeat fsimpl_step.

(** ** Signed 64-bit integers ([i64]): release builds wrap on overflow. *)

Definition i64_min : Z := - 2 ^ 63.
Definition i64_max : Z := 2 ^ 63 - 1.
Definition i64_wrap (z : Z) : Z := (z + 2 ^ 63) `mod` 2 ^ 64 - 2 ^ 63.
Definition i64_succ (z : Z) : Z := i64_wrap (z + 1).

Definition in_i64 (z : Z) : Prop := (i64_min <= z <= i64_max)%Z.

Lemma i64_wrap_small z : in_i64 z -> i64_wrap z = z.
Proof.
  unfold in_i64, i64_wrap, i64_min, i64_max. intros ?.
  rewrite Z.mod_small by lia. lia.
Qed.

Lemma i64_wrap_range z : in_i64 (i64_wrap z).
Proof.
  unfold in_i64, i64_wrap, i64_min, i64_max.
  pose proof (Z.mod_pos_bound (z + 2 ^ 63) (2 ^ 64) ltac:(lia)). lia.
Qed.

Lemma i64_succ_small z : (i64_min <= z < i64_max)%Z -> i64_succ z = (z + 1)%Z.
Proof. intros ?. apply i64_wrap_small. unfold in_i64. lia. Qed.

(** Sums may wrap where they like: only the last wrap counts. *)

Lemma i64_wrap_congr a b k : (a = b + k * 2 ^ 64)%Z -> i64_wrap a = i64_wrap b.
Proof.
  unfold i64_wrap. intros ->. f_equal.
  replace (b + k * 2 ^ 64 + 2 ^ 63)%Z with (b + 2 ^ 63 + k * 2 ^ 64)%Z by lia.
  by rewrite Z.mod_add.
Qed.

Lemma i64_wrap_off z : exists k, (i64_wrap z = z + k * 2 ^ 64)%Z.
Proof.
  exists (- ((z + 2 ^ 63) `div` 2 ^ 64))%Z. unfold i64_wrap.
  pose proof (Z.div_mod (z + 2 ^ 63) (2 ^ 64) ltac:(done)). lia.
Qed.

Lemma wrap_add_l a b : i64_wrap (i64_wrap a + b) = i64_wrap (a + b).
Proof. destruct (i64_wrap_off a) as [k ->]. apply (i64_wrap_congr _ _ k). lia. Qed.
Lemma wrap_add_r a b : i64_wrap (a + i64_wrap b) = i64_wrap (a + b).
Proof. rewrite !(Z.add_comm a). apply wrap_add_l. Qed.
Lemma wrap_sub_l a b : i64_wrap (i64_wrap a - b) = i64_wrap (a - b).
Proof. apply wrap_add_l. Qed.
Lemma wrap_sub_r a b : i64_wrap (a - i64_wrap b) = i64_wrap (a - b).
Proof. destruct (i64_wrap_off b) as [k ->]. apply (i64_wrap_congr _ _ (- k)). lia. Qed.
Lemma wrap_wrap a : i64_wrap (i64_wrap a) = i64_wrap a.
Proof. pose proof (wrap_add_l a 0) as Hw. by rewrite !Z.add_0_r in Hw. Qed.

Create Rewrite HintDb i64_norm.
#[export] Hint Rewrite wrap_add_l wrap_add_r wrap_sub_l wrap_sub_r wrap_wrap : i64_norm.
(** Equations between [i64] terms that differ in where they wrap. *)
Ltac i64_eq := autorewrite with i64_norm; f_equal; lia.

(** [i64::try_from(n).unwrap_or(i64::MAX)] on an unsigned count. *)
Definition i64_saturate (n : Z) : Z := Z.min n i64_max.

(** ** Time.

    [DateTime<Utc>] is a count of nanoseconds since the epoch;
    [timestamp()] is the number of whole seconds (rounded down). *)

Definition nanos : Z := 1000000000.
Definition secs (n : Z) : Z := n * nanos.
Definition timestamp (t : Z) : Z := t / nanos.

(** ** Ordered maps: Rust's [BTreeMap<String, V>].

    The map itself is a [gmap]; iteration visits the keys in the byte order
    of Rust's [str] comparison, which is [String.le]. *)

Definition key_le {V} (p q : string * V) : Prop := String.le p.1 q.1.

#[export] Instance key_le_dec {V} : RelDecision (@key_le V) :=
  fun p q => decide (String.le p.1 q.1).
#[export] Instance key_le_trans {V} : Transitive (@key_le V).
Proof. intros p q r. unfold key_le. apply transitivity. Qed.
#[export] Instance key_le_total {V} : Total (@key_le V).
Proof. intros p q. unfold key_le. apply (total String.le). Qed.

Definition btree_to_list {V} (m : gmap string V) : list (string * V) :=
  merge_sort key_le (map_to_list m).
Definition btree_keys {V} (m : gmap string V) : list string :=
  (btree_to_list m).*1.
Definition btree_values {V} (m : gmap string V) : list V :=
  (btree_to_list m).*2.

Section btree.
Context {V : Type}.
Implicit Types m : gmap string V.

Lemma btree_to_list_perm m : btree_to_list m ≡ₚ map_to_list m.
Proof. apply merge_sort_Permutation. Qed.

Lemma elem_of_btree_to_list m k v : (k, v) ∈ btree_to_list m <-> m !! k = Some v.
Proof. by rewrite btree_to_list_perm, elem_of_map_to_list. Qed.

Lemma elem_of_btree_values m v : v ∈ btree_values m <-> exists k, m !! k = Some v.
Proof.
  unfold btree_values. rewrite list_elem_of_fmap. split.
  - intros ([k v'] & -> & H). apply elem_of_btree_to_list in H. eauto.
  - intros [k H]. exists (k, v). by rewrite elem_of_btree_to_list.
Qed.

Lemma elem_of_btree_keys m k : k ∈ btree_keys m <-> is_Some (m !! k).
Proof.
  unfold btree_keys. rewrite list_elem_of_fmap. split.
  - intros ([k' v] & -> & H). apply elem_of_btree_to_list in H. eauto.
  - intros [v H]. exists (k, v). by rewrite elem_of_btree_to_list.
Qed.

Lemma btree_keys_NoDup m : NoDup (btree_keys m).
Proof.
  unfold btree_keys. rewrite btree_to_list_perm. apply NoDup_fst_map_to_list.
Qed.

Lemma btree_to_list_sorted m : StronglySorted key_le (btree_to_list m).
Proof. apply StronglySorted_merge_sort; apply _. Qed.

Lemma btree_to_list_to_map m : list_to_map (btree_to_list m) = m.
Proof.
  rewrite <-(list_to_map_to_list m) at 2.
  apply list_to_map_proper; [|apply btree_to_list_perm].
  change (NoDup (btree_keys m)). apply btree_keys_NoDup.
Qed.
End btree.

(** A loop over a map whose passes touch only their own key acts pointwise. *)
Lemma foldl_own_key {P V} (step : gmap string V -> string * P -> gmap string V)
    (f : P -> option V -> option V) :
  (forall m np k, step m np !! k = if decide (k = np.1) then f np.2 (m !! k) else m !! k) ->
  forall ps m k,
  foldl step m (btree_to_list ps) !! k
  = match ps !! k with Some p => f p (m !! k) | None => m !! k end.
Proof.
  intros Hstep ps m k. rewrite <-(btree_to_list_to_map ps) at 2.
  pose proof (btree_keys_NoDup ps) as Hnd. unfold btree_keys in Hnd.
  generalize dependent m. induction (btree_to_list ps) as [|[n p] l IH]; intros m; [done|].
  cbn [fmap list_fmap fst] in Hnd. apply NoDup_cons in Hnd as [Hn Hnd].
  cbn [foldl list_to_map foldr]. rewrite (IH Hnd), Hstep. cbn [fst snd].
  destruct (decide (k = n)) as [->|Hne].
  - rewrite not_elem_of_list_to_map_1 by done.
    change (uncurry insert (n, p) (foldr _ _ l)) with (<[n := p]> (list_to_map (M := gmap string P) l)).
    by rewrite lookup_insert_eq.
  - change (uncurry insert (n, p) (foldr _ _ l)) with (<[n := p]> (list_to_map (M := gmap string P) l)).
    by rewrite lookup_insert_ne.
Qed.

(** ** Small list facts shared by the components. *)

Lemma filter_nil_iff {A} (P : A -> Prop) `{!forall x, Decision (P x)} (l : list A) :
  filter P l = [] <-> forall x, x ∈ l -> ~ P x.
Proof.
  split.
  - intros Hnil x Hx HP.
    assert (x ∈ filter P l) as Hin by (by apply list_elem_of_filter).
    rewrite Hnil in Hin. by apply not_elem_of_nil in Hin.
  - intros Hno. induction l as [|a l IH]; [done|].
    rewrite filter_cons, decide_False by (apply Hno; set_solver).
    apply IH. set_solver.
Qed.

(** Rust's [Iterator::last] on a slice. *)
Definition last_of {A} (l : list A) : option A := last l.

(** ** Automation. *)

Create HintDb ax discriminated.
#[export] Hint Resolve elem_of_btree_values elem_of_btree_keys btree_keys_NoDup : ax.

(** Break one [match]/[if] of the goal or of a hypothesis, keeping the equation. *)
Ltac case_on_goal :=
  match goal with
  | |- context [match ?x with _ => _ end] =>
      lazymatch x with context [match _ with _ => _ end] => fail | _ => destruct x eqn:? end
  end.
Ltac case_on_hyp H :=
  match type of H with
  | context [match ?x with _ => _ end] =>
      lazymatch x with context [match _ with _ => _ end] => fail | _ => destruct x eqn:? end
  end.

(** Split the [match]es a hypothesis blocks on, discarding impossible branches. *)
Ltac inv_match H := repeat (case_on_hyp H; simplify_eq/=; try done).
