(* ===== verification/RustStr.v ===== *)
(** * The operations of Rust's [str] the daemon uses.

    A Rust string is a sequence of UTF-8 bytes; it is modelled by [string],
    whose characters are the bytes.  [trim] and [split_whitespace]-like code
    works on the Unicode [White_Space] property, so the white-space characters
    are recognised by their UTF-8 encodings (one, two or three bytes). *)

From Stdlib Require Import Ascii.
From stdpp Require Import prelude strings list pretty.
From S2P Require Import Prelude.

Definition bytes (s : string) : list ascii := String.list_ascii_of_string s.
Definition of_bytes (l : list ascii) : string := String.string_of_list_ascii l.

Lemma of_bytes_bytes s : of_bytes (bytes s) = s.
Proof. apply String.string_of_list_ascii_of_string. Qed.
Lemma bytes_of_bytes l : bytes (of_bytes l) = l.
Proof. apply String.list_ascii_of_string_of_list_ascii. Qed.
Lemma bytes_inj s1 s2 : bytes s1 = bytes s2 -> s1 = s2.
Proof. intros E. rewrite <-(of_bytes_bytes s1), E. apply of_bytes_bytes. Qed.

Definition code (a : ascii) : N := Ascii.N_of_ascii a.

(** ** White space: U+0009..000D, U+0020 | U+0085, U+00A0 | U+1680,
    U+2000..200A, U+2028, U+2029, U+202F, U+205F, U+3000. *)

Definition ws1 (a : ascii) : bool :=
  let n := code a in ((9 <=? n) && (n <=? 13) || (n =? 32))%N.

Definition ws2 (a b : ascii) : bool :=
  ((code a =? 194) && ((code b =? 133) || (code b =? 160)))%N.

Definition ws3 (a b c : ascii) : bool :=
  let x := code a in let y := code b in let z := code c in
  ((x =? 225) && (y =? 154) && (z =? 128)
   || (x =? 226) && (y =? 128)
        && ((128 <=? z) && (z <=? 138) || (z =? 168) || (z =? 169) || (z =? 175))
   || (x =? 226) && (y =? 129) && (z =? 159)
   || (x =? 227) && (y =? 128) && (z =? 128))%N.

(** ** Trimming. *)

Section drop_ws.
Context (w1 : ascii -> bool) (w2 : ascii -> ascii -> bool)
        (w3 : ascii -> ascii -> ascii -> bool).

(** Drop the white-space characters at the head of a byte list. *)
Fixpoint drop_ws (l : list ascii) : list ascii :=
  match l with
  | [] => []
  | a :: r =>
      if w1 a then drop_ws r else
      match r with
      | [] => l
      | b :: r2 =>
          if w2 a b then drop_ws r2 else
          match r2 with
          | [] => l
          | c :: r3 => if w3 a b c then drop_ws r3 else l
          end
      end
  end.

(** A white-space character stands at the head. *)
Definition head_ws (l : list ascii) : bool :=
  match l with
  | [] => false
  | [a] => w1 a
  | [a; b] => w1 a || w2 a b
  | a :: b :: c :: _ => w1 a || w2 a b || w3 a b c
  end.

Lemma drop_ws_spec l : head_ws (drop_ws l) = false /\ exists p, l = p ++ drop_ws l.
Proof.
  induction l as [l IH] using (induction_ltof1 _ length). unfold ltof in IH.
  destruct l as [|a [|b [|c r]]]; simpl in *.
  - split; [done|]. by exists [].
  - destruct (w1 a) eqn:E1; simpl; rewrite ?E1.
    + split; [done|]. by exists [a].
    + split; [done|]. by exists [].
  - destruct (w1 a) eqn:E1; simpl.
    { destruct (IH [b]) as [? [p Hp]]; [simpl; lia|]. split; [done|].
      exists (a :: p). simpl in *. by rewrite <-Hp. }
    destruct (w2 a b) eqn:E2; simpl; rewrite ?E1, ?E2; split; try done.
    + by exists [a; b].
    + by exists [].
  - destruct (w1 a) eqn:E1; simpl.
    { destruct (IH (b :: c :: r)) as [? [p Hp]]; [simpl; lia|]. split; [done|].
      exists (a :: p). simpl in *. by rewrite <-Hp. }
    destruct (w2 a b) eqn:E2; simpl.
    { destruct (IH (c :: r)) as [? [p Hp]]; [simpl; lia|]. split; [done|].
      exists (a :: b :: p). simpl in *. by rewrite <-Hp. }
    destruct (w3 a b c) eqn:E3; simpl; rewrite ?E1, ?E2, ?E3.
    { destruct (IH r) as [? [p Hp]]; [simpl; lia|]. split; [done|].
      exists (a :: b :: c :: p). simpl. by rewrite <-Hp. }
    split; [done|]. by exists [].
Qed.

Lemma drop_ws_id l : head_ws l = false -> drop_ws l = l.
Proof.
  destruct l as [|a [|b [|c r]]]; simpl; [done|by intros ->| |].
  - by intros [-> ->]%orb_false_iff.
  - by intros [[-> ->]%orb_false_iff ->]%orb_false_iff.
Qed.

Lemma head_ws_prefix l x : head_ws (l ++ x) = false -> head_ws l = false.
Proof.
  destruct l as [|a [|b [|c r]]]; simpl; [done| | |done].
  - destruct x as [|b [|c x]]; simpl; [done| |];
      repeat (rewrite orb_false_iff || intros [? ?]); by intuition.
  - destruct x as [|c x]; simpl; [done|].
    by intros [? ?]%orb_false_iff.
Qed.
End drop_ws.

Definition trim_start_bytes : list ascii -> list ascii := drop_ws ws1 ws2 ws3.
Definition trim_end_bytes (l : list ascii) : list ascii :=
  rev (drop_ws ws1 (fun b a => ws2 a b) (fun c b a => ws3 a b c) (rev l)).

(** [str::trim]. *)
Definition trim (s : string) : string :=
  of_bytes (trim_end_bytes (trim_start_bytes (bytes s))).

Lemma trim_end_prefix l : exists x, l = trim_end_bytes l ++ x.
Proof.
  unfold trim_end_bytes.
  destruct (drop_ws_spec ws1 (fun b a => ws2 a b) (fun c b a => ws3 a b c) (rev l))
    as [_ [p Hp]].
  exists (rev p). rewrite <-rev_app_distr, <-Hp. by rewrite rev_involutive.
Qed.

Lemma trim_idemp s : trim (trim s) = trim s.
Proof.
  unfold trim. rewrite bytes_of_bytes. f_equal.
  set (u := trim_start_bytes (bytes s)).
  destruct (drop_ws_spec ws1 ws2 ws3 (bytes s)) as [Hu _].
  fold trim_start_bytes in Hu. fold u in Hu.
  destruct (trim_end_prefix u) as [x Hx].
  assert (head_ws ws1 ws2 ws3 (trim_end_bytes u) = false) as Hv.
  { apply (head_ws_prefix _ _ _ _ x). by rewrite <-Hx. }
  unfold trim_start_bytes at 1. rewrite (drop_ws_id _ _ _ _ Hv).
  unfold trim_end_bytes at 1 2. rewrite rev_involutive.
  rewrite drop_ws_id; [done|]. apply drop_ws_spec.
Qed.

(** ** ASCII case, searching, splitting. *)

Definition ascii_lower (a : ascii) : ascii :=
  if ((65 <=? code a) && (code a <=? 90))%N
  then Ascii.ascii_of_N (code a + 32) else a.

(** [str::to_ascii_lowercase]. *)
Definition to_ascii_lowercase (s : string) : string :=
  of_bytes (ascii_lower <$> bytes s).

Definition eq_ignore_ascii_case (a b : string) : bool :=
  String.eqb (to_ascii_lowercase a) (to_ascii_lowercase b).

Definition is_empty (s : string) : bool := String.eqb s "".

Definition starts_with (s p : string) : bool := String.prefix p s.

(** [str::contains] on a string pattern. *)
Fixpoint contains (s p : string) : bool :=
  starts_with s p ||
  match s with "" => false | String _ r => contains r p end.

Fixpoint drop_bytes (n : nat) (s : string) : string :=
  match n, s with
  | S n, String _ r => drop_bytes n r
  | _, _ => s
  end.

(** [str::strip_prefix]. *)
Definition strip_prefix (s p : string) : option string :=
  if starts_with s p then Some (drop_bytes (String.length p) s) else None.

Definition ends_with (s p : string) : bool :=
  starts_with (of_bytes (rev (bytes s))) (of_bytes (rev (bytes p))).

(** The characters of a string, each as the bytes of its UTF-8 encoding. *)
Fixpoint chars_of (l : list ascii) : list (list ascii) :=
  match l with
  | [] => []
  | a :: r =>
      if (code a <? 192)%N then [a] :: chars_of r else
      match r with
      | [] => [[a]]
      | b :: r2 =>
          if (code a <? 224)%N then [a; b] :: chars_of r2 else
          match r2 with
          | [] => [[a; b]]
          | c :: r3 =>
              if (code a <? 240)%N then [a; b; c] :: chars_of r3 else
              match r3 with
              | [] => [[a; b; c]]
              | d :: r4 => [a; b; c; d] :: chars_of r4
              end
          end
      end
  end.
Definition chars (s : string) : list (list ascii) := chars_of (bytes s).

(** [char::is_whitespace]. *)
Definition is_whitespace (c : list ascii) : bool :=
  match c with
  | [a] => ws1 a
  | [a; b] => ws2 a b
  | [a; b; c] => ws3 a b c
  | _ => false
  end.

(** [n.to_string()] and the [{}] formatting of integers. *)
Definition show_Z (z : Z) : string := pretty z.

Lemma starts_with_app p s : starts_with (p +:+ s) p = true.
Proof.
  unfold starts_with. induction p as [|a p IH]; simpl; [by destruct s|].
  destruct (ascii_dec a a); [|done].
  change (String.prefix p (p +:+ s) = true). apply IH.
Qed.

Lemma is_empty_true s : is_empty s = true <-> s = "".
Proof. apply String.eqb_eq. Qed.
Lemma is_empty_false s : is_empty s = false <-> s <> "".
Proof. apply String.eqb_neq. Qed.
