(* ===== verification/Proto.v ===== *)
(** * Wire types shared by the daemon's components (crates/ax-proto/src/types.rs).

    Records keep the source's fields in the source's order; the names carry a
    prefix per record because Rocq has one name space for projections. *)

From Stdlib Require Import Floats.SpecFloat.
From stdpp Require Import prelude strings list gmap.
From S2P Require Import Prelude RustStr.

(** ** Tasks *)

Inductive TaskStatus :=
| Pending | InProgress | Blocked | Completed | Failed | Cancelled.

Inductive TaskStartMode := StartDefault | StartFresh.
Inductive TaskWorkflowMode := Parallel | Serial.
Inductive TaskPriority := Low | Normal | High | Urgent.
Inductive TaskSequenceState := WaitingTurn | Ready | Released | NotApplicable.

#[export] Instance TaskStatus_eq_dec : EqDecision TaskStatus.
Proof. solve_decision. Defined.
#[export] Instance TaskStartMode_eq_dec : EqDecision TaskStartMode.
Proof. solve_decision. Defined.
#[export] Instance TaskWorkflowMode_eq_dec : EqDecision TaskWorkflowMode.
Proof. solve_decision. Defined.
#[export] Instance TaskPriority_eq_dec : EqDecision TaskPriority.
Proof. solve_decision. Defined.
#[export] Instance TaskSequenceState_eq_dec : EqDecision TaskSequenceState.
Proof. solve_decision. Defined.

Record TaskLog := mkTaskLog {
  log_timestamp : Z;
  log_workspace : string;
  log_message : string;
}.

Record TaskRollup := mkTaskRollup {
  total_children : Z;
  pending_children : Z;
  in_progress_children : Z;
  blocked_children : Z;
  completed_children : Z;
  failed_children : Z;
  cancelled_children : Z;
  terminal_children : Z;
  active_children : Z;
  last_child_update_at : option Z;
  all_children_terminal : bool;
  needs_parent_reconciliation : bool;
  summary : string;
}.

#[export] Instance TaskRollup_eta : Updatable TaskRollup := fun r =>
  mkTaskRollup (total_children r) (pending_children r) (in_progress_children r)
    (blocked_children r) (completed_children r) (failed_children r)
    (cancelled_children r) (terminal_children r) (active_children r)
    (last_child_update_at r) (all_children_terminal r)
    (needs_parent_reconciliation r) (summary r).

Record TaskSequenceInfo := mkTaskSequenceInfo {
  seq_mode : option TaskWorkflowMode;
  seq_state : option TaskSequenceState;
  seq_position : Z;
  seq_waiting_on_task_id : string;
}.

Record TaskStaleInfo := mkTaskStaleInfo {
  is_stale : bool;
  stale_reason : string;
  recommended_action : string;
  last_progress_at : Z;
  age_seconds : Z;
  pending_messages : Z;
  last_message_at : option Z;
  wake_pending : bool;
  wake_attempts : Z;
  next_wake_retry_at : option Z;
  claim_state : string;
  claim_state_note : string;
  runnable : bool;
  runnable_reason : string;
  recovery_eligible : bool;
  state_divergence : bool;
  state_divergence_note : string;
}.

Record Task := mkTask {
  t_id : string;
  t_title : string;
  t_description : string;
  t_assignee : string;
  t_created_by : string;
  t_parent_task_id : string;
  t_child_task_ids : list string;
  t_version : Z;
  t_status : TaskStatus;
  t_start_mode : TaskStartMode;
  t_workflow_mode : option TaskWorkflowMode;
  t_priority : option TaskPriority;
  t_stale_after_seconds : Z;
  t_dispatch_message : string;
  t_dispatch_config_path : string;
  t_dispatch_count : Z;
  t_attempt_count : Z;
  t_last_dispatch_at : option Z;
  t_last_attempt_at : option Z;
  t_next_retry_at : option Z;
  t_claimed_at : option Z;
  t_claimed_by : string;
  t_claim_source : string;
  t_result : string;
  t_logs : list TaskLog;
  t_rollup : option TaskRollup;
  t_sequence : option TaskSequenceInfo;
  t_stale_info : option TaskStaleInfo;
  t_removed_at : option Z;
  t_removed_by : string;
  t_remove_reason : string;
  t_created_at : Z;
  t_updated_at : Z;
}.

#[export] Instance Task_eta : Updatable Task := fun t =>
  mkTask (t_id t) (t_title t) (t_description t) (t_assignee t) (t_created_by t)
    (t_parent_task_id t) (t_child_task_ids t) (t_version t) (t_status t)
    (t_start_mode t) (t_workflow_mode t) (t_priority t) (t_stale_after_seconds t)
    (t_dispatch_message t) (t_dispatch_config_path t) (t_dispatch_count t)
    (t_attempt_count t) (t_last_dispatch_at t) (t_last_attempt_at t)
    (t_next_retry_at t) (t_claimed_at t) (t_claimed_by t) (t_claim_source t)
    (t_result t) (t_logs t) (t_rollup t) (t_sequence t) (t_stale_info t)
    (t_removed_at t) (t_removed_by t) (t_remove_reason t) (t_created_at t)
    (t_updated_at t).

(** ** The git status of a workspace directory *)

Record WorkspaceGitStatus := mkWorkspaceGitStatus {
  gs_state : string;
  gs_modified : Z;
  gs_added : Z;
  gs_deleted : Z;
  gs_untracked : Z;
  gs_files_changed : Z;
  gs_insertions : Z;
  gs_deletions : Z;
  gs_message : string;
}.
#[export] Instance WorkspaceGitStatus_eta : Updatable WorkspaceGitStatus := fun g =>
  mkWorkspaceGitStatus (gs_state g) (gs_modified g) (gs_added g) (gs_deleted g)
    (gs_untracked g) (gs_files_changed g) (gs_insertions g) (gs_deletions g) (gs_message g).

(** ** Messages *)

Record Message := mkMessage {
  m_id : string;
  m_from : string;
  m_to : string;
  m_content : string;
  m_task_id : string;
  m_created_at : Z;
}.

#[export] Instance Message_eta : Updatable Message := fun m =>
  mkMessage (m_id m) (m_from m) (m_to m) (m_content m) (m_task_id m) (m_created_at m).

(** ** Durable memories *)

Record Memory := mkMemory {
  mem_id : string;
  mem_scope : string;
  mem_kind : string;
  mem_subject : string;
  mem_content : string;
  mem_tags : list string;
  mem_created_by : string;
  mem_supersedes : list string;
  mem_superseded_by : string;
  mem_superseded_at : option Z;
  mem_created_at : Z;
  mem_updated_at : Z;
}.

#[export] Instance Memory_eta : Updatable Memory := fun m =>
  mkMemory (mem_id m) (mem_scope m) (mem_kind m) (mem_subject m) (mem_content m)
    (mem_tags m) (mem_created_by m) (mem_supersedes m) (mem_superseded_by m)
    (mem_superseded_at m) (mem_created_at m) (mem_updated_at m).

(** ** Code the sources only call.

    [TextOps] collects what the daemon takes from the Unicode tables of the
    standard library and from the [regex] crate: the lower-casing of one
    non-ASCII character, the [{:?}] rendering of a string, and the matches of
    the four patterns of task_helpers.rs ([task_id_captures] is the first
    capture group of [TASK_ID_PATTERN]).

    [JsonCodec A] is [serde_json] at the persisted type [A]; [JsonCodecOk]
    states the documented round trip of derived implementations. *)

Class TextOps := {
  unicode_lower : list Ascii.ascii -> list Ascii.ascii;
  debug_str : string -> string;
  task_id_captures : string -> option string;
  duplicate_noop_is_match : string -> bool;
  evidence_path_is_match : string -> bool;
  evidence_command_is_match : string -> bool;
}.

Class JsonCodec (A : Type) := {
  to_vec : A -> option string;
  from_slice : string -> option A;
}.

Class JsonCodecOk (A : Type) `{!JsonCodec A} : Prop := {
  from_slice_to_vec a s : to_vec a = Some s -> from_slice s = Some a;
  to_vec_nonempty a s : to_vec a = Some s -> s <> "";
}.

(** ** Agent status metrics and their title line (crates/ax-proto/src/types.rs).

    [f64] values are IEEE 754 binary64 numbers in the executable format of
    [SpecFloat] (53 bits of precision, exponents up to 1024). *)

Inductive AgentStatus := Online | Offline | Disconnected.
Inductive AgentWorkState := WorkUnknown | Busy | Idle.
Inductive AgentStatusFreshness := FreshnessUnknown | Fresh | Stale.
Inductive AgentStatusSourceQuality := QualityUnknown | Runtime | Inferred.

#[export] Instance AgentStatus_eq_dec : EqDecision AgentStatus.
Proof. solve_decision. Defined.

Definition f64 : Type := spec_float.
Definition f64_prec : Z := 53.
Definition f64_emax : Z := 1024.
(** [n as f64]: round to nearest, ties to even. *)
Definition f64_of_i64 (n : Z) : f64 := binary_normalize f64_prec f64_emax n 0 false.
Definition f64_div : f64 -> f64 -> f64 := SFdiv f64_prec f64_emax.
Definition f64_mul : f64 -> f64 -> f64 := SFmul f64_prec f64_emax.
Definition is_finite (x : f64) : bool :=
  match x with S754_zero _ | S754_finite _ _ _ => true | _ => false end.
(** [x >= 0.0] ([-0.0 >= 0.0] holds). *)
Definition f64_nonneg (x : f64) : bool := SFleb (S754_zero false) x.

(** The integer [{:.0}] prints for [m * 2^e]: ties go to the even neighbour. *)
Definition round_half_even (m : positive) (e : Z) : Z :=
  if (0 <=? e)%Z then (Z.pos m * 2 ^ e)%Z else
  let d := (2 ^ (- e))%Z in
  let q := (Z.pos m / d)%Z in
  let r := (Z.pos m mod d)%Z in
  match (2 * r ?= d)%Z with
  | Lt => q
  | Gt => (q + 1)%Z
  | Eq => if Z.even q then q else (q + 1)%Z
  end.

Definition format_f64_0 (x : f64) : string :=
  match x with
  | S754_nan => "NaN"
  | S754_infinity s => (if s then "-" else "") +:+ "inf"
  | S754_zero s => (if s then "-" else "") +:+ "0"
  | S754_finite s m e => (if s then "-" else "") +:+ show_Z (round_half_even m e)
  end.

Record AgentStatusMetrics := mkAgentStatusMetrics {
  sm_workspace : string;
  sm_agent : string;
  sm_runtime_id : string;
  sm_runtime_name : string;
  sm_session_id : string;
  sm_context_tokens : option Z;
  sm_context_window : option Z;
  sm_usage_ratio : option f64;
  sm_last_activity_at : option Z;
  sm_work_state : AgentWorkState;
  sm_compact_eligible : option bool;
  sm_freshness : AgentStatusFreshness;
  sm_source_quality : AgentStatusSourceQuality;
  sm_updated_at : option Z;
  sm_status_title : string;
}.
#[export] Instance AgentStatusMetrics_eta : Updatable AgentStatusMetrics := fun m =>
  mkAgentStatusMetrics (sm_workspace m) (sm_agent m) (sm_runtime_id m) (sm_runtime_name m)
    (sm_session_id m) (sm_context_tokens m) (sm_context_window m) (sm_usage_ratio m)
    (sm_last_activity_at m) (sm_work_state m) (sm_compact_eligible m) (sm_freshness m)
    (sm_source_quality m) (sm_updated_at m) (sm_status_title m).

Definition as_status_label (s : AgentWorkState) : string :=
  match s with WorkUnknown => "unknown" | Busy => "busy" | Idle => "idle" end.

Definition non_empty_or (value fallback : string) : string :=
  if is_empty value then fallback else value.

Definition effective_usage_ratio (m : AgentStatusMetrics) : option f64 :=
  match sm_usage_ratio m with
  | Some ratio => if is_finite ratio then Some ratio else None
  | None =>
      match sm_context_tokens m, sm_context_window m with
      | Some tokens, Some window =>
          if (0 <=? tokens)%Z && (0 <? window)%Z
          then Some (f64_div (f64_of_i64 tokens) (f64_of_i64 window)) else None
      | _, _ => None
      end
  end.

(** [(n + 500) / 1000] on [i64]: the sum wraps in release builds and the
    division truncates. *)
Definition format_context_value (value : option Z) : string :=
  match value with
  | Some n =>
      if (1000 <=? n)%Z then show_Z (Z.quot (i64_wrap (n + 500)) 1000) +:+ "k"
      else if (0 <=? n)%Z then show_Z n else "?"
  | None => "?"
  end.

Definition f64_100 : f64 := f64_of_i64 100.

Definition format_usage_percent (ratio : option f64) : string :=
  match ratio with
  | Some r =>
      if is_finite r && f64_nonneg r then format_f64_0 (f64_mul r f64_100) +:+ "%" else "?%"
  | None => "?%"
  end.

Definition formatted_status_title (m : AgentStatusMetrics) : string :=
  let agent := non_empty_or (sm_agent m) (non_empty_or (sm_workspace m) "?") in
  let compact := match sm_compact_eligible m with
                 | Some true => "eligible"
                 | Some false => "ineligible"
                 | None => "?"
                 end in
  "ax:" +:+ agent +:+ " ctx=" +:+ format_context_value (sm_context_tokens m)
  +:+ "/" +:+ format_context_value (sm_context_window m)
  +:+ " " +:+ format_usage_percent (effective_usage_ratio m)
  +:+ " " +:+ as_status_label (sm_work_state m) +:+ " compact=" +:+ compact.

Definition metrics_default : AgentStatusMetrics :=
  mkAgentStatusMetrics "" "" "" "" "" None None None None WorkUnknown None
    FreshnessUnknown QualityUnknown None "".

Definition unknown_for_workspace (workspace : string) : AgentStatusMetrics :=
  let m := metrics_default <| sm_workspace := workspace |> <| sm_agent := workspace |> in
  m <| sm_status_title := formatted_status_title m |>.

Definition with_status_title (m : AgentStatusMetrics) : AgentStatusMetrics :=
  m <| sm_status_title := formatted_status_title m |>.

(** ** Rounding. *)

(** The thousands shown for a context size are the nearest to the true value:
    below the range where the addition overflows, the printed [k] count is within
    half a thousand of the tokens. *)
Theorem context_value_is_nearest n :
  (1000 <= n <= i64_max - 500)%Z ->
  exists k, format_context_value (Some n) = show_Z k +:+ "k"
    /\ (2 * Z.abs (n - 1000 * k) <= 1000)%Z.
Proof.
  intros Hn. unfold format_context_value. destruct (Z.leb_spec 1000 n); [|lia].
  rewrite i64_wrap_small by (unfold in_i64, i64_min, i64_max in *; lia).
  rewrite Z.quot_div_nonneg by lia. exists ((n + 500) / 1000)%Z. split; [done|].
  pose proof (Z.div_mod (n + 500) 1000 ltac:(lia)).
  pose proof (Z.mod_pos_bound (n + 500) 1000 ltac:(lia)). lia.
Qed.

(** Near [i64::MAX] the addition wraps and the count comes out negative. *)
Theorem context_value_wraps :
  format_context_value (Some i64_max) = "-9223372036854775k".
Proof. vm_compute. reflexivity. Qed.

Example title_example :
  formatted_status_title
    (metrics_default <| sm_agent := "worker" |> <| sm_context_tokens := Some 45600%Z |>
       <| sm_context_window := Some 200000%Z |> <| sm_work_state := Busy |>
       <| sm_compact_eligible := Some false |>)
  = "ax:worker ctx=46k/200k 23% busy compact=ineligible".
Proof. vm_compute. reflexivity. Qed.
