(* ===== verification/Concrete.v ===== *)
(** * Concrete instances of the parameters of the model.

    [DemoText] matches task ids as [TASK_ID_PATTERN] does and approximates the
    other patterns; [demo_codec] is a lossless text encoding of any countable
    type.  They instantiate the hypotheses of the theorems in the examples. *)

From Stdlib Require Import Ascii.
From stdpp Require Import prelude strings list gmap countable.
From S2P Require Import Prelude RustStr Proto.

(** ** Text *)

Definition is_hex (a : ascii) : bool :=
  let n := code (ascii_lower a) in
  ((48 <=? n) && (n <=? 57) || (97 <=? n) && (n <=? 102))%N.

(** Split [n] hexadecimal digits off. *)
Fixpoint hex_digits (n : nat) (l : list ascii) : option (list ascii * list ascii) :=
  match n, l with
  | 0, _ => Some ([], l)
  | S n, a :: r =>
      if is_hex a then '(d, r) ← hex_digits n r; Some (a :: d, r) else None
  | S _, [] => None
  end.

Definition hyphen : ascii := ascii_of_nat 45.

Fixpoint hex_groups (ns : list nat) (l : list ascii) : option (list ascii) :=
  match ns with
  | [] => Some []
  | [n] => '(d, _) ← hex_digits n l; Some d
  | n :: ns =>
      '(d, r) ← hex_digits n l;
      match r with
      | a :: r => if bool_decide (a = hyphen)
                  then rest ← hex_groups ns r; Some (d ++ a :: rest) else None
      | [] => None
      end
  end.

Definition match_here (s : string) : option string :=
  rest ← strip_prefix (to_ascii_lowercase s) "task id:";
  let original := bytes (drop_bytes 8 s) in
  of_bytes <$> hex_groups [8; 4; 4; 4; 12] (trim_start_bytes original).

Fixpoint search (s : string) : option string :=
  match match_here s with
  | Some m => Some m
  | None => match s with "" => None | String _ r => search r end
  end.

(** The escapes of [{:?}] for quotes, backslashes and the common control characters. *)
Definition escape_char (a : ascii) : list ascii :=
  let esc (c : nat) := [ascii_of_nat 92; ascii_of_nat c] in
  match nat_of_ascii a with
  | 34 => esc 34 | 92 => esc 92 | 10 => esc 110 | 13 => esc 114 | 9 => esc 116 | 0 => esc 48
  | _ => [a]
  end.

#[global] Instance DemoText : TextOps := {
  unicode_lower c := c;
  debug_str s := String (ascii_of_nat 34)
    (of_bytes (mjoin (escape_char <$> bytes s)) +:+ String (ascii_of_nat 34) "");
  task_id_captures := search;
  duplicate_noop_is_match s := contains s "ack" || contains s "status";
  evidence_path_is_match s := contains s ".rs";
  evidence_command_is_match s := contains s "cargo test";
}.

(** ** Encodings *)

Fixpoint pos_to_string (p : positive) : string :=
  match p with
  | xH => "1"
  | xO p => String (ascii_of_nat 48) (pos_to_string p)
  | xI p => String (ascii_of_nat 49) (pos_to_string p)
  end.

Fixpoint string_to_pos (s : string) : option positive :=
  match s with
  | "" => None
  | String a r =>
      match string_to_pos r with
      | Some p => Some (if bool_decide (a = ascii_of_nat 48) then xO p else xI p)
      | None => match r with "" => Some xH | _ => None end
      end
  end.

Lemma string_to_pos_to_string p : string_to_pos (pos_to_string p) = Some p.
Proof. induction p as [p IH|p IH|]; cbn [pos_to_string string_to_pos]; rewrite ?IH; done. Qed.

Definition demo_codec (A : Type) `{Countable A} : JsonCodec A := {|
  to_vec a := Some (pos_to_string (encode a));
  from_slice s := string_to_pos s ≫= decode;
|}.

Lemma demo_codec_ok (A : Type) `{Countable A} : @JsonCodecOk A (demo_codec A).
Proof.
  split; cbn [to_vec from_slice demo_codec]; intros a s [= <-].
  - rewrite string_to_pos_to_string. cbn. apply decode_encode.
  - by destruct (encode a).
Qed.

(** ** The persisted records are countable. *)

#[global] Instance TaskStatus_countable : Countable TaskStatus.
Proof.
  refine (inj_countable'
    (fun s => match s with Pending => 0 | InProgress => 1 | Blocked => 2 | Completed => 3
                         | Failed => 4 | Cancelled => 5 end)
    (fun n => match n with 0 => Pending | 1 => InProgress | 2 => Blocked | 3 => Completed
                         | 4 => Failed | _ => Cancelled end) _).
  by intros [].
Defined.

#[global] Instance TaskStartMode_countable : Countable TaskStartMode.
Proof.
  refine (inj_countable' (fun s => match s with StartDefault => true | StartFresh => false end)
    (fun b : bool => if b then StartDefault else StartFresh) _).
  by intros [].
Defined.

#[global] Instance TaskWorkflowMode_countable : Countable TaskWorkflowMode.
Proof.
  refine (inj_countable' (fun s => match s with Parallel => true | Serial => false end)
    (fun b : bool => if b then Parallel else Serial) _).
  by intros [].
Defined.

#[global] Instance TaskPriority_countable : Countable TaskPriority.
Proof.
  refine (inj_countable'
    (fun s => match s with Low => 0 | Normal => 1 | High => 2 | Urgent => 3 end)
    (fun n => match n with 0 => Low | 1 => Normal | 2 => High | _ => Urgent end) _).
  by intros [].
Defined.

#[global] Instance TaskSequenceState_countable : Countable TaskSequenceState.
Proof.
  refine (inj_countable'
    (fun s => match s with WaitingTurn => 0 | Ready => 1 | Released => 2 | NotApplicable => 3 end)
    (fun n => match n with 0 => WaitingTurn | 1 => Ready | 2 => Released
                         | _ => NotApplicable end) _).
  by intros [].
Defined.

#[global] Instance TaskLog_eq_dec : EqDecision TaskLog.
Proof. solve_decision. Defined.
#[global] Instance TaskLog_countable : Countable TaskLog.
Proof.
  refine (inj_countable' (fun l => (log_timestamp l, log_workspace l, log_message l))
    (fun '(a, b, c) => mkTaskLog a b c) _).
  by intros [].
Defined.

#[global] Instance TaskRollup_eq_dec : EqDecision TaskRollup.
Proof. solve_decision. Defined.
#[global] Instance TaskRollup_countable : Countable TaskRollup.
Proof.
  refine (inj_countable'
    (fun r => ((total_children r, pending_children r, in_progress_children r, blocked_children r),
               (completed_children r, failed_children r, cancelled_children r, terminal_children r),
               (active_children r, last_child_update_at r, all_children_terminal r),
               (needs_parent_reconciliation r, summary r)))
    (fun '((a, b, c, d), (e, f, g, h), (i, j, k), (l, m)) =>
       mkTaskRollup a b c d e f g h i j k l m) _).
  by intros [].
Defined.

#[global] Instance TaskSequenceInfo_eq_dec : EqDecision TaskSequenceInfo.
Proof. solve_decision. Defined.
#[global] Instance TaskSequenceInfo_countable : Countable TaskSequenceInfo.
Proof.
  refine (inj_countable'
    (fun s => (seq_mode s, seq_state s, seq_position s, seq_waiting_on_task_id s))
    (fun '(a, b, c, d) => mkTaskSequenceInfo a b c d) _).
  by intros [].
Defined.

#[global] Instance TaskStaleInfo_eq_dec : EqDecision TaskStaleInfo.
Proof. solve_decision. Defined.
#[global] Instance TaskStaleInfo_countable : Countable TaskStaleInfo.
Proof.
  refine (inj_countable'
    (fun s => ((is_stale s, stale_reason s, recommended_action s, last_progress_at s),
               (age_seconds s, pending_messages s, last_message_at s, wake_pending s),
               (wake_attempts s, next_wake_retry_at s, claim_state s, claim_state_note s),
               (runnable s, runnable_reason s, recovery_eligible s),
               (state_divergence s, state_divergence_note s)))
    (fun '((a, b, c, d), (e, f, g, h), (i, j, k, l), (m, n, o), (p, q)) =>
       mkTaskStaleInfo a b c d e f g h i j k l m n o p q) _).
  by intros [].
Defined.

#[global] Instance Task_eq_dec : EqDecision Task.
Proof. solve_decision. Defined.
#[global] Instance Task_countable : Countable Task.
Proof.
  refine (inj_countable'
    (fun t => ((t_id t, t_title t, t_description t, t_assignee t, t_created_by t),
               (t_parent_task_id t, t_child_task_ids t, t_version t, t_status t, t_start_mode t),
               (t_workflow_mode t, t_priority t, t_stale_after_seconds t, t_dispatch_message t),
               (t_dispatch_config_path t, t_dispatch_count t, t_attempt_count t),
               (t_last_dispatch_at t, t_last_attempt_at t, t_next_retry_at t, t_claimed_at t),
               (t_claimed_by t, t_claim_source t, t_result t, t_logs t, t_rollup t),
               (t_sequence t, t_stale_info t, t_removed_at t, t_removed_by t),
               (t_remove_reason t, t_created_at t, t_updated_at t)))
    (fun '((a1, a2, a3, a4, a5), (b1, b2, b3, b4, b5), (c1, c2, c3, c4), (d1, d2, d3),
           (e1, e2, e3, e4), (f1, f2, f3, f4, f5), (g1, g2, g3, g4), (h1, h2, h3)) =>
       mkTask a1 a2 a3 a4 a5 b1 b2 b3 b4 b5 c1 c2 c3 c4 d1 d2 d3 e1 e2 e3 e4
         f1 f2 f3 f4 f5 g1 g2 g3 g4 h1 h2 h3) _).
  by intros [].
Defined.

#[global] Instance DemoTaskCodec : JsonCodec (list Task) := demo_codec (list Task).
#[global] Instance DemoTaskCodecOk : JsonCodecOk (list Task) := demo_codec_ok (list Task).

(** A task id in the canonical form of [Uuid]. *)
Definition uuid_a : string := "11111111-2222-3333-4444-555555555555".
Definition uuid_b : string := "22222222-2222-3333-4444-555555555555".

Example captures_a :
  task_id_captures ("hello TASK ID:  " +:+ uuid_a +:+ " done") = Some uuid_a.
Proof. vm_compute. reflexivity. Qed.
