(* ===== verification/TaskHelpers.v ===== *)
(** * Helpers of the task and message paths (crates/ax-daemon/src/task_helpers.rs):
    task-id extraction, duplicate suppression, dispatch and reminder texts, and the
    parsing of lifecycle options. *)

From stdpp Require Import prelude strings list.
From S2P Require Import Prelude RustStr Proto.

Definition nl : string := String (Ascii.ascii_of_nat 10) "".

(** [DUPLICATE_SUPPRESSION_WINDOW], 15 seconds in nanoseconds. *)
Definition DUPLICATE_SUPPRESSION_WINDOW : Z := secs 15.

Definition OPERATOR_WORKSPACE_NAME : string := "_cli".

Section helpers.
Context `{!TextOps}.

Definition extract_task_id (content : string) : string :=
  match task_id_captures content with Some m => m | None => "" end.

(** [char::to_lowercase]: ASCII letters here, the Unicode table otherwise. *)
Definition char_to_lowercase (c : list Ascii.ascii) : list Ascii.ascii :=
  match c with
  | [a] => if (code a <? 128)%N then [ascii_lower a] else unicode_lower c
  | _ => unicode_lower c
  end.

(** The loop of [normalize_message_for_suppression]; [last_ws] is its flag. *)
Fixpoint normalize_chars (cs : list (list Ascii.ascii)) (last_ws : bool)
  : list Ascii.ascii :=
  match cs with
  | [] => []
  | ch :: rest =>
      if is_whitespace ch
      then if last_ws then normalize_chars rest true
           else Ascii.ascii_of_nat 32 :: normalize_chars rest true
      else char_to_lowercase ch ++ normalize_chars rest false
  end.

Definition normalize_message_for_suppression (content : string) : string :=
  let trimmed := trim content in
  if is_empty trimmed then "" else of_bytes (normalize_chars (chars trimmed) false).

Definition looks_like_noop_status_message (normalized : string) : bool :=
  if is_empty normalized then false else duplicate_noop_is_match normalized.

Definition has_concrete_evidence (result : string) : bool :=
  if is_empty (trim result) then false
  else evidence_path_is_match result || evidence_command_is_match result.

Definition format_task_dispatch_message (task_id message : string) : string :=
  "Task ID: " +:+ task_id +:+ nl +:+ nl +:+ trim message.

Inductive TaskDispatchError :=
| MessageRequired
| ContainsTaskId (id : string).

Definition normalize_task_dispatch_body (message : string)
  : result TaskDispatchError string :=
  let trimmed := trim message in
  if is_empty trimmed then Err MessageRequired else
  let existing := extract_task_id trimmed in
  if negb (is_empty existing) then Err (ContainsTaskId existing) else Ok trimmed.

Definition task_aware_message (from to content : string) (now : Z) : Message :=
  {| m_id := ""; m_from := from; m_to := to; m_content := content;
     m_task_id := extract_task_id content; m_created_at := now |}.
End helpers.

Definition status_label (status : TaskStatus) : string :=
  match status with
  | Pending => "pending"
  | InProgress => "in_progress"
  | Blocked => "blocked"
  | Completed => "completed"
  | Failed => "failed"
  | Cancelled => "cancelled"
  end.

Definition build_task_reminder_message (task : Task) (note : string) : string :=
  let title := trim (t_title task) in
  let description := trim (t_description task) in
  let status := status_label (t_status task) in
  let tail :=
    "The daemon task registry still shows this task as runnable. Call get_task for the latest structured context, then continue or report a blocker." in
  let base :=
    if is_empty description then
      "Task ID: " +:+ t_id task +:+ nl +:+ nl +:+ "Task: " +:+ title +:+ nl
      +:+ "Current task status: " +:+ status +:+ nl +:+ tail
    else
      "Task ID: " +:+ t_id task +:+ nl +:+ nl +:+ "Task: " +:+ title +:+ nl
      +:+ "Description: " +:+ description +:+ nl
      +:+ "Current task status: " +:+ status +:+ nl +:+ tail in
  if is_empty note then base
  else base +:+ nl +:+ nl +:+ "Operator note: " +:+ note.

Definition task_dispatch_content (task : Task) (note : string) : string :=
  if is_empty note && negb (is_empty (trim (t_dispatch_message task)))
  then t_dispatch_message task
  else build_task_reminder_message task note.

Inductive TaskLifecycleError :=
| LifecycleStartMode (s : string)
| LifecycleWorkflowMode (s : string)
| LifecyclePriority (s : string).

Definition parse_task_lifecycle_options (start_mode workflow_mode priority : string)
  : result TaskLifecycleError (TaskStartMode * TaskWorkflowMode * TaskPriority) :=
  start ← (let s := trim start_mode in
           if String.eqb s "" || String.eqb s "default" then Ok StartDefault
           else if String.eqb s "fresh" then Ok StartFresh
           else Err (LifecycleStartMode s));
  workflow ← (let s := trim workflow_mode in
              if String.eqb s "" || String.eqb s "parallel" then Ok Parallel
              else if String.eqb s "serial" then Ok Serial
              else Err (LifecycleWorkflowMode s));
  prio ← (let s := trim priority in
          if String.eqb s "" || String.eqb s "normal" then Ok Normal
          else if String.eqb s "low" then Ok Low
          else if String.eqb s "high" then Ok High
          else if String.eqb s "urgent" then Ok Urgent
          else Err (LifecyclePriority s));
  Ok (start, workflow, prio).
