(* ===== verification/TaskStore.v ===== *)
(** * The persistent task store (crates/ax-daemon/src/task_store.rs).

    Definitions only; the theorems are in [TaskEdits], [TaskMachine], [TaskEffects],
    [TaskForest], [TaskLifecycle], [TaskRollup] and [TaskPersist].  The store is a record of its file path, the in-memory map
    and the bytes of the file at that path.  Every mutation takes what the
    code obtains from outside: the clock reading [now] ([Utc::now()]), the
    fresh identifier ([Uuid::new_v4()]) and [fault], the outcome of
    [write_file_atomic] ([Some e] is the rendered I/O error). *)

From stdpp Require Import prelude strings list gmap sorting.
From S2P Require Import Prelude RustStr Proto TaskHelpers.

(** [Panicked] is the one constructor that is not in the source: it stands
    for an [expect] that fails ([no_operation_panics] shows none does). *)
Inductive TaskStoreError :=
| ParentNotFound (id : string)
| ParentRemoved (id : string)
| NotFound (id : string)
| Removed (id : string)
| UnauthorisedUpdate (workspace id : string)
| UnauthorisedResult (workspace id owner : string)
| UnauthorisedStatus (workspace id owner : string)
| InvalidTransition (current next : string)
| VersionMismatch (id : string) (have want : Z)
| UnauthorisedControl (workspace id : string)
| NotRetryable (id : string)
| AlreadyTerminal (id status : string)
| NotTerminalForRemove (id : string)
| MissingCompletionEvidence (id : string)
| CompletionRequiresConfirmation (id : string)
| ReadError (path source : string)
| DecodeError (path : string)
| EncodeError
| PersistError (e : string)
| Panicked.

Record TaskStore := mkTaskStore {
  file_path : option string;
  inner : gmap string Task;
  file : option string;
}.
#[export] Instance TaskStore_eta : Updatable TaskStore := fun s =>
  mkTaskStore (file_path s) (inner s) (file s).

Record CreateTaskInput := mkCreateTaskInput {
  ct_title : string;
  ct_description : string;
  ct_assignee : string;
  ct_created_by : string;
  ct_parent_task_id : string;
  ct_start_mode : TaskStartMode;
  ct_workflow_mode : TaskWorkflowMode;
  ct_priority : TaskPriority;
  ct_stale_after_seconds : Z;
  ct_dispatch_body : string;
  ct_dispatch_config_path : string;
}.

(** ** Task-level helpers *)

Definition is_terminal_status (status : TaskStatus) : bool :=
  match status with Completed | Failed | Cancelled => true | _ => false end.

Definition is_open_status (status : TaskStatus) : bool :=
  match status with Pending | InProgress | Blocked => true | _ => false end.

Definition is_allowed_transition (current next : TaskStatus) : bool :=
  if decide (current = next) then true else
  match current with
  | Pending =>
      match next with
      | InProgress | Blocked | Completed | Failed | Cancelled => true
      | _ => false
      end
  | InProgress =>
      match next with Blocked | Completed | Failed | Cancelled => true | _ => false end
  | Blocked =>
      match next with
      | Pending | InProgress | Completed | Failed | Cancelled => true
      | _ => false
      end
  | Completed | Failed | Cancelled => false
  end.

Definition status_label (status : TaskStatus) : string :=
  match status with
  | Pending => "pending"
  | InProgress => "in_progress"
  | Blocked => "blocked"
  | Completed => "completed"
  | Failed => "failed"
  | Cancelled => "cancelled"
  end.

(** [format!("{:?}", status)]. *)
Definition status_debug (status : TaskStatus) : string :=
  match status with
  | Pending => "Pending"
  | InProgress => "InProgress"
  | Blocked => "Blocked"
  | Completed => "Completed"
  | Failed => "Failed"
  | Cancelled => "Cancelled"
  end.

Definition MARKER : string := "remaining owned dirty files=".
Definition has_leftover_scope_declaration (result : string) : bool :=
  contains result MARKER.

Definition is_some {A} (o : option A) : bool :=
  match o with Some _ => true | None => false end.

Definition validate_task_update (task : Task) (status : option TaskStatus)
    (result : option string) (confirm : option bool) (workspace : string)
  : Prelude.result TaskStoreError unit :=
  if is_some (t_removed_at task) then Err (Removed (t_id task)) else
  if negb (String.eqb workspace (t_assignee task))
     && negb (String.eqb workspace (t_created_by task))
  then Err (UnauthorisedUpdate workspace (t_id task)) else
  if match result with
     | Some r => negb (is_empty (trim r)) && negb (String.eqb workspace (t_assignee task))
     | None => false
     end
  then Err (UnauthorisedResult workspace (t_id task) (t_assignee task)) else
  match status with
  | None => Ok tt
  | Some new_status =>
      if negb (String.eqb workspace (t_assignee task))
         && negb (bool_decide (new_status = t_status task))
      then Err (UnauthorisedStatus workspace (t_id task) (t_assignee task)) else
      if negb (is_allowed_transition (t_status task) new_status)
      then Err (InvalidTransition (status_label (t_status task)) (status_label new_status))
      else
      if bool_decide (new_status = Completed)
         && negb (bool_decide (t_status task = Completed))
      then
        let effective := match result with Some r => r | None => t_result task end in
        if negb (has_leftover_scope_declaration effective)
        then Err (MissingCompletionEvidence (t_id task)) else
        if negb (match confirm with Some b => b | None => false end)
        then Err (CompletionRequiresConfirmation (t_id task))
        else Ok tt
      else Ok tt
  end.

Definition validate_task_control (task : Task) (workspace : string)
    (expected_version : option Z) (allow_assignee : bool)
  : Prelude.result TaskStoreError unit :=
  if is_some (t_removed_at task) then Err (Removed (t_id task)) else
  match expected_version with
  | Some want =>
      if negb (t_version task =? want)%Z
      then Err (VersionMismatch (t_id task) (t_version task) want) else
      if String.eqb workspace OPERATOR_WORKSPACE_NAME
         || String.eqb workspace (t_created_by task)
      then Ok tt else
      if allow_assignee && String.eqb workspace (t_assignee task) then Ok tt
      else Err (UnauthorisedControl workspace (t_id task))
  | None =>
      if String.eqb workspace OPERATOR_WORKSPACE_NAME
         || String.eqb workspace (t_created_by task)
      then Ok tt else
      if allow_assignee && String.eqb workspace (t_assignee task) then Ok tt
      else Err (UnauthorisedControl workspace (t_id task))
  end.

Definition claim_source (status : option TaskStatus) (result log_msg : option string)
  : option string :=
  match status with
  | Some s => Some ("status:" +:+ status_label s)
  | None =>
      if is_some result then Some "result"
      else if is_some log_msg then Some "log" else None
  end.

(** The mutating helpers return the [bool] of the source and the new task. *)
Definition mark_task_claimed (task : Task) (workspace source : string) (now : Z)
  : bool * Task :=
  if is_some (t_claimed_at task) || negb (String.eqb workspace (t_assignee task))
  then (false, task)
  else (true,
    task <| t_claimed_at := Some now |>
         <| t_claimed_by := workspace |>
         <| t_claim_source := source |>
         <| t_attempt_count := i64_succ (t_attempt_count task) |>
         <| t_last_attempt_at := Some now |>
         <| t_next_retry_at := None |>).

Definition clear_task_claim (task : Task) : Task :=
  task <| t_claimed_at := None |> <| t_claimed_by := "" |> <| t_claim_source := "" |>.

Definition clear_task_retry_state (task : Task) : bool * Task :=
  if is_some (t_next_retry_at task) then (true, task <| t_next_retry_at := None |>)
  else (false, task).

Definition clear_derived_fields (task : Task) : Task :=
  task <| t_sequence := None |> <| t_stale_info := None |>.

Definition push_log (task : Task) (now : Z) (workspace message : string) : Task :=
  task <| t_logs := t_logs task ++ [mkTaskLog now workspace message] |>.

(** [task.version += 1]. *)
Definition bump_version (task : Task) : Task :=
  task <| t_version := i64_succ (t_version task) |>.

Section dup_log.
Context `{!TextOps}.

Definition is_duplicate_task_log (task : Task) (workspace log_msg : string) (now : Z)
  : bool :=
  let normalized := normalize_message_for_suppression log_msg in
  if is_empty normalized || negb (looks_like_noop_status_message normalized) then false
  else
    match last (t_logs task) with
    | None => false
    | Some lst =>
        if negb (String.eqb (log_workspace lst) workspace) then false else
        let elapsed := (now - log_timestamp lst)%Z in
        (* [to_std] fails on a negative duration *)
        if (elapsed <? 0)%Z || (elapsed >? DUPLICATE_SUPPRESSION_WINDOW)%Z then false
        else String.eqb (normalize_message_for_suppression (log_message lst)) normalized
    end.
End dup_log.

(** ** Parent rollups *)

(** One iteration of the counting loop of [summarize_task_rollup].  The
    counters are bounded by the number of children, far below [i64::MAX]. *)
Definition count_child (all : gmap string Task) (r : TaskRollup) (child_id : string)
  : TaskRollup :=
  match all !! child_id with
  | None => r
  | Some child =>
      let r :=
        match t_status child with
        | Pending => r <| pending_children := (pending_children r + 1)%Z |>
        | InProgress => r <| in_progress_children := (in_progress_children r + 1)%Z |>
        | Blocked => r <| blocked_children := (blocked_children r + 1)%Z |>
        | Completed =>
            r <| completed_children := (completed_children r + 1)%Z |>
              <| terminal_children := (terminal_children r + 1)%Z |>
        | Failed =>
            r <| failed_children := (failed_children r + 1)%Z |>
              <| terminal_children := (terminal_children r + 1)%Z |>
        | Cancelled =>
            r <| cancelled_children := (cancelled_children r + 1)%Z |>
              <| terminal_children := (terminal_children r + 1)%Z |>
        end in
      let r :=
        match t_status child with
        | Pending | InProgress => r <| active_children := (active_children r + 1)%Z |>
        | _ => r
        end in
      match last_child_update_at r with
      | None => r <| last_child_update_at := Some (t_updated_at child) |>
      | Some ts =>
          if (t_updated_at child >? ts)%Z
          then r <| last_child_update_at := Some (t_updated_at child) |> else r
      end
  end.

Definition rollup_zero (total : Z) : TaskRollup :=
  {| total_children := total; pending_children := 0; in_progress_children := 0;
     blocked_children := 0; completed_children := 0; failed_children := 0;
     cancelled_children := 0; terminal_children := 0; active_children := 0;
     last_child_update_at := None; all_children_terminal := false;
     needs_parent_reconciliation := false; summary := "" |}.

Definition format_rollup_summary (parent : Task) (r : TaskRollup) : string :=
  let base :=
    "Child rollup: total=" +:+ show_Z (total_children r)
    +:+ " active=" +:+ show_Z (active_children r)
    +:+ " completed=" +:+ show_Z (completed_children r)
    +:+ " failed=" +:+ show_Z (failed_children r)
    +:+ " cancelled=" +:+ show_Z (cancelled_children r)
    +:+ " pending=" +:+ show_Z (pending_children r)
    +:+ " in_progress=" +:+ show_Z (in_progress_children r)
    +:+ " blocked=" +:+ show_Z (blocked_children r) +:+ "." in
  if needs_parent_reconciliation r
  then base +:+ " All child tasks are terminal; parent reconciliation is still required."
  else if all_children_terminal r then base +:+ " All child tasks are terminal."
  else match t_status parent with
       | Pending => base +:+ " Parent is waiting on child progress."
       | _ => base +:+ " Parent remains open while child work is still active."
       end.

Definition summarize_task_rollup (parent : Task) (all : gmap string Task)
  : option TaskRollup :=
  match t_child_task_ids parent with
  | [] => None
  | _ =>
      let r := foldl (count_child all)
                 (rollup_zero (Z.of_nat (length (t_child_task_ids parent))))
                 (t_child_task_ids parent) in
      let r := r <| all_children_terminal :=
                   (total_children r >? 0)%Z
                   && (terminal_children r =? total_children r)%Z |> in
      let r := r <| needs_parent_reconciliation :=
                   all_children_terminal r && negb (is_terminal_status (t_status parent)) |> in
      Some (r <| summary := format_rollup_summary parent r |>)
  end.

Definition should_append_rollup_log (task : Task) (msg : string) : bool :=
  if is_empty msg then false else
  match last (t_logs task) with
  | None => true
  | Some lst => negb (String.eqb (log_message lst) msg)
  end.

Definition rollup_equal (a b : option TaskRollup) : bool :=
  match a, b with
  | None, None => true
  | None, Some _ | Some _, None => false
  | Some x, Some y =>
      (total_children x =? total_children y)%Z
      && (pending_children x =? pending_children y)%Z
      && (in_progress_children x =? in_progress_children y)%Z
      && (blocked_children x =? blocked_children y)%Z
      && (completed_children x =? completed_children y)%Z
      && (failed_children x =? failed_children y)%Z
      && (cancelled_children x =? cancelled_children y)%Z
      && (terminal_children x =? terminal_children y)%Z
      && (active_children x =? active_children y)%Z
      && Bool.eqb (all_children_terminal x) (all_children_terminal y)
      && Bool.eqb (needs_parent_reconciliation x) (needs_parent_reconciliation y)
      && String.eqb (summary x) (summary y)
      && bool_decide (last_child_update_at x = last_child_update_at y)
  end.

(** The in-place update of the parent by [refresh_parent_rollup]. *)
Definition refreshed_parent (parent : Task) (rollup : option TaskRollup) (now : Z) : Task :=
  let changed := negb (rollup_equal (t_rollup parent) rollup) in
  let parent := parent <| t_rollup := rollup |> in
  match t_rollup parent with
  | None =>
      if changed then bump_version parent <| t_updated_at := now |> else parent
  | Some r =>
      let '(parent, changed) :=
        if negb (is_empty (summary r)) && should_append_rollup_log parent (summary r)
        then (push_log parent now (t_assignee parent) (summary r), true)
        else (parent, changed) in
      if changed then bump_version parent <| t_updated_at := now |> else parent
  end.

Definition refresh_parent_rollup (m : gmap string Task) (parent_id : string) (now : Z)
  : gmap string Task :=
  let parent_id := trim parent_id in
  if is_empty parent_id then m else
  match m !! parent_id with
  | None => m
  | Some parent =>
      if is_some (t_removed_at parent) then m
      else <[parent_id := refreshed_parent parent (summarize_task_rollup parent m) now]> m
  end.

(** ** Persistence *)

Definition task_id_le (a b : Task) : Prop := String.le (t_id a) (t_id b).
#[export] Instance task_id_le_dec : RelDecision task_id_le :=
  fun a b => decide (String.le (t_id a) (t_id b)).

Section store.
Context `{!TextOps} `{!JsonCodec (list Task)}.

Definition persist_locked (fault : option string) (st : TaskStore)
  : Prelude.result TaskStoreError unit * TaskStore :=
  match file_path st with
  | None => (Ok tt, st)
  | Some _ =>
      let tasks := clear_derived_fields <$> btree_values (inner st) in
      let tasks := merge_sort task_id_le tasks in
      match to_vec tasks with
      | None => (Err EncodeError, st)
      | Some b =>
          match fault with
          | Some e => (Err (PersistError e), st)
          | None => (Ok tt, st <| file := Some b |>)
          end
      end
  end.

(** The common end of the mutations: store the map, persist it with [?], and
    return a copy of task [id] ([.expect("task existed above")]). *)
Definition commit (fault : option string) (st : TaskStore) (m : gmap string Task)
    (id : string) : Prelude.result TaskStoreError Task * TaskStore :=
  match persist_locked fault (st <| inner := m |>) with
  | (Err e, st') => (Err e, st')
  | (Ok _, st') =>
      match inner st' !! id with
      | Some t => (Ok t, st')
      | None => (Err Panicked, st')
      end
  end.

Definition in_memory : TaskStore :=
  {| file_path := None; inner := ∅; file := None |}.

(** [load]: the arguments are the two paths and what the file system has
    there ([None]: no such file; [Some (Err e)]: reading it fails). *)
Definition load (primary_path legacy_path : string)
    (primary legacy : option (Prelude.result string string))
  : Prelude.result TaskStoreError TaskStore :=
  let read path (content : Prelude.result string string) :=
    bytes ← match content with Ok b => Ok b | Err e => Err (ReadError path e) end;
    map ← (if is_empty bytes then Ok ∅ else
           match from_slice bytes with
           | None => Err (DecodeError path)
           | Some tasks =>
               Ok (foldl (fun m t => <[t_id t := clear_derived_fields t]> m) ∅ tasks)
           end);
    Ok {| file_path := Some primary_path; inner := map;
          file := match primary with Some (Ok b) => Some b | _ => None end |} in
  match primary, legacy with
  | Some c, _ => read primary_path c
  | None, Some c => read legacy_path c
  | None, None => Ok {| file_path := Some primary_path; inner := ∅; file := None |}
  end.

(** ** Mutations *)

Definition new_task (input : CreateTaskInput) (id : string) (now : Z) : Task :=
  {| t_id := id;
     t_title := ct_title input;
     t_description := ct_description input;
     t_assignee := ct_assignee input;
     t_created_by := ct_created_by input;
     t_parent_task_id := trim (ct_parent_task_id input);
     t_child_task_ids := [];
     t_version := 1;
     t_status := Pending;
     t_start_mode := ct_start_mode input;
     t_workflow_mode := Some (ct_workflow_mode input);
     t_priority := Some (ct_priority input);
     t_stale_after_seconds := ct_stale_after_seconds input;
     t_dispatch_message :=
       (let trimmed_body := trim (ct_dispatch_body input) in
        if is_empty trimmed_body then "" else format_task_dispatch_message id trimmed_body);
     t_dispatch_config_path := trim (ct_dispatch_config_path input);
     t_dispatch_count := 0;
     t_attempt_count := 0;
     t_last_dispatch_at := None;
     t_last_attempt_at := None;
     t_next_retry_at := None;
     t_claimed_at := None;
     t_claimed_by := "";
     t_claim_source := "";
     t_result := "";
     t_logs := [];
     t_rollup := None;
     t_sequence := None;
     t_stale_info := None;
     t_removed_at := None;
     t_removed_by := "";
     t_remove_reason := "";
     t_created_at := now;
     t_updated_at := now |}.

(** Attach a child to its parent unless it is already listed. *)
Definition link_child (parent : Task) (task_id : string) (now : Z) : Task :=
  if bool_decide (task_id ∈ t_child_task_ids parent) then parent
  else bump_version
         (parent <| t_child_task_ids := t_child_task_ids parent ++ [task_id] |>)
         <| t_updated_at := now |>.

Definition create (input : CreateTaskInput) (id : string) (now : Z)
    (fault : option string) (st : TaskStore)
  : Prelude.result TaskStoreError Task * TaskStore :=
  let task := new_task input id now in
  let parent_id := t_parent_task_id task in
  let m := <[id := task]> (inner st) in
  if is_empty parent_id then commit fault st m id else
  match m !! parent_id with
  | None => (Err (ParentNotFound parent_id), st <| inner := delete id m |>)
  | Some parent =>
      if is_some (t_removed_at parent)
      then (Err (ParentRemoved parent_id), st <| inner := delete id m |>)
      else
        let m := <[parent_id := link_child parent id now]> m in
        commit fault st (refresh_parent_rollup m parent_id now) id
  end.

Definition get (id : string) (st : TaskStore) : option Task := inner st !! id.

Definition get_for_intervention (id workspace : string) (expected_version : option Z)
    (st : TaskStore) : Prelude.result TaskStoreError Task :=
  match inner st !! id with
  | None => Err (NotFound id)
  | Some task =>
      _ ← validate_task_control task workspace expected_version true;
      if is_open_status (t_status task) then Ok task else Err (NotRetryable id)
  end.

Definition evidence_hint : string :=
  "evidence hint: completion result contains no file paths or tool-command fragments. Reviewers may want to spot-check — the Completion Reporting Contract suggests mentioning the files you touched or the command(s) that verified the change.".

(** The in-place edits of [update_with_confirm], one definition per paragraph
    of the source; each takes and returns the task and the [changed] flag. *)

Definition edit_claim (status : option TaskStatus) (result log_msg : option string)
    (workspace : string) (now : Z) (acc : Task * bool) : Task * bool :=
  let '(task, changed) := acc in
  match claim_source status result log_msg with
  | Some source =>
      if String.eqb workspace (t_assignee task) then
        let '(claimed, task') := mark_task_claimed task workspace source now in
        (task', if claimed then true else changed)
      else acc
  | None => acc
  end.

Definition edit_status (status : option TaskStatus) (acc : Task * bool) : Task * bool :=
  match status with
  | None => acc
  | Some new_status =>
      let '(task, changed) := acc in
      let '(task, changed) :=
        if bool_decide (t_status task = new_status) then (task, changed)
        else (task <| t_status := new_status |>, true) in
      if bool_decide (new_status = Blocked) || is_terminal_status new_status then
        let '(cleared, task') := clear_task_retry_state task in
        (task', if cleared then true else changed)
      else (task, changed)
  end.

Definition edit_result (result : option string) (acc : Task * bool) : Task * bool :=
  match result with
  | None => acc
  | Some new_result =>
      let '(task, changed) := acc in
      if String.eqb (t_result task) new_result then (task, changed)
      else (task <| t_result := new_result |>, true)
  end.

Definition edit_log (log_msg : option string) (workspace : string) (now : Z)
    (acc : Task * bool) : Task * bool :=
  match log_msg with
  | None => acc
  | Some message =>
      let '(task, changed) := acc in
      if is_duplicate_task_log task workspace message now then (task, changed)
      else (push_log task now workspace message, true)
  end.

Definition edit_evidence (prev_status : TaskStatus) (now : Z) (acc : Task * bool)
  : Task * bool :=
  let '(task, changed) := acc in
  if bool_decide (t_status task = Completed)
     && negb (bool_decide (prev_status = Completed))
     && negb (has_concrete_evidence (t_result task))
  then (push_log task now OPERATOR_WORKSPACE_NAME evidence_hint, true)
  else (task, changed).

Definition update_edits (task : Task) (status : option TaskStatus)
    (result log_msg : option string) (workspace : string) (now : Z) : Task * bool :=
  edit_evidence (t_status task) now
    (edit_log log_msg workspace now
      (edit_result result
        (edit_status status
          (edit_claim status result log_msg workspace now (task, false))))).

Definition update_with_confirm (id : string) (status : option TaskStatus)
    (result log_msg : option string) (confirm : option bool) (workspace : string)
    (now : Z) (fault : option string) (st : TaskStore)
  : Prelude.result TaskStoreError Task * TaskStore :=
  match inner st !! id with
  | None => (Err (NotFound id), st)
  | Some task =>
      match validate_task_update task status result confirm workspace with
      | Err e => (Err e, st)
      | Ok _ =>
          let '(task', changed) := update_edits task status result log_msg workspace now in
          let parent_id := t_parent_task_id task' in
          if changed then
            let task' := bump_version task' <| t_updated_at := now |> in
            commit fault st
              (refresh_parent_rollup (<[id := task']> (inner st)) parent_id now) id
          else
            let st' := st <| inner := <[id := task']> (inner st) |> in
            match inner st' !! id with
            | Some t => (Ok t, st')
            | None => (Err Panicked, st')
            end
      end
  end.

Definition update (id : string) (status : option TaskStatus) (result log_msg : option string)
    (workspace : string) (now : Z) (fault : option string) (st : TaskStore)
  : Prelude.result TaskStoreError Task * TaskStore :=
  update_with_confirm id status result log_msg None workspace now fault st.

Definition cancelled_task (task : Task) (reason workspace : string) (now : Z) : Task :=
  let trimmed := trim reason in
  let msg := if is_empty trimmed then "Cancelled by " +:+ workspace
             else "Cancelled by " +:+ workspace +:+ ": " +:+ trimmed in
  let task := if String.eqb workspace (t_assignee task)
              then snd (mark_task_claimed task workspace "cancel" now) else task in
  let task := task <| t_status := Cancelled |> <| t_result := msg |> in
  bump_version (push_log task now workspace msg) <| t_updated_at := now |>.

Definition cancel (id reason workspace : string) (expected_version : option Z)
    (now : Z) (fault : option string) (st : TaskStore)
  : Prelude.result TaskStoreError Task * TaskStore :=
  match inner st !! id with
  | None => (Err (NotFound id), st)
  | Some task =>
      match validate_task_control task workspace expected_version true with
      | Err e => (Err e, st)
      | Ok _ =>
          if is_terminal_status (t_status task)
          then (Err (AlreadyTerminal id (to_ascii_lowercase (status_debug (t_status task)))), st)
          else
            let task' := cancelled_task task reason workspace now in
            commit fault st
              (refresh_parent_rollup (<[id := task']> (inner st)) (t_parent_task_id task') now) id
      end
  end.

Definition removed_task (task : Task) (reason workspace : string) (now : Z) : Task :=
  bump_version
    (task <| t_removed_at := Some now |>
          <| t_removed_by := workspace |>
          <| t_remove_reason := trim reason |>).

Definition remove (id reason workspace : string) (expected_version : option Z)
    (now : Z) (fault : option string) (st : TaskStore)
  : Prelude.result TaskStoreError Task * TaskStore :=
  match inner st !! id with
  | None => (Err (NotFound id), st)
  | Some task =>
      match validate_task_control task workspace expected_version false with
      | Err e => (Err e, st)
      | Ok _ =>
          if is_some (t_removed_at task) then (Ok task, st) else
          if negb (is_terminal_status (t_status task))
          then (Err (NotTerminalForRemove id), st)
          else
            let task' := removed_task task reason workspace now in
            commit fault st
              (refresh_parent_rollup (<[id := task']> (inner st)) (t_parent_task_id task') now) id
      end
  end.

Definition retried_task (task : Task) (note workspace : string) (now : Z) : Task :=
  let task := task <| t_status := Pending |> <| t_result := "" |> in
  let task := snd (clear_task_retry_state (clear_task_claim task)) in
  let trimmed := trim note in
  let msg := if is_empty trimmed
             then "Recovery action: retry requested by " +:+ workspace
             else "Recovery action: retry requested by " +:+ workspace +:+ ": " +:+ trimmed in
  bump_version (push_log task now workspace msg) <| t_updated_at := now |>.

Definition retry (id note workspace : string) (expected_version : option Z)
    (now : Z) (fault : option string) (st : TaskStore)
  : Prelude.result TaskStoreError Task * TaskStore :=
  match inner st !! id with
  | None => (Err (NotFound id), st)
  | Some task =>
      match validate_task_control task workspace expected_version true with
      | Err e => (Err e, st)
      | Ok _ =>
          if negb (is_open_status (t_status task)) then (Err (NotRetryable id), st)
          else
            let task' := retried_task task note workspace now in
            commit fault st
              (refresh_parent_rollup (<[id := task']> (inner st)) (t_parent_task_id task') now) id
      end
  end.

(** [stamp]: the caller's timestamp unless it is the epoch second. *)
Definition stamp (when now : Z) : Z := if (timestamp when =? 0)%Z then now else when.

Definition mark_tool_activity (id by_ : string) (when now : Z) (fault : option string)
    (st : TaskStore) : option Task * TaskStore :=
  match inner st !! id with
  | None => (None, st)
  | Some task =>
      if is_some (t_removed_at task)
         || negb (bool_decide (t_status task = InProgress))
         || negb (String.eqb (t_assignee task) by_)
      then (None, st)
      else
        let task' := bump_version (task <| t_updated_at := stamp when now |>) in
        (Some task', snd (persist_locked fault (st <| inner := <[id := task']> (inner st) |>)))
  end.

Definition record_dispatch (id to : string) (when now : Z) (fault : option string)
    (st : TaskStore) : option Task * TaskStore :=
  match inner st !! id with
  | None => (None, st)
  | Some task =>
      if is_some (t_removed_at task) || negb (String.eqb (t_assignee task) to)
      then (None, st)
      else
        let task' :=
          bump_version
            (task <| t_dispatch_count := i64_succ (t_dispatch_count task) |>
                  <| t_last_dispatch_at := Some (stamp when now) |>
                  <| t_updated_at := stamp when now |>) in
        (Some task', snd (persist_locked fault (st <| inner := <[id := task']> (inner st) |>)))
  end.

(** ** Recovery of stranded tasks *)

Definition stranded (is_session_live : string -> bool) (t : Task) : bool :=
  negb (is_some (t_removed_at t))
  && bool_decide (t_status t = InProgress)
  && negb (is_empty (t_assignee t))
  && negb (is_session_live (t_assignee t)).

Definition recovered_task (task : Task) (now : Z) : Task :=
  let assignee := t_assignee task in
  let task := task <| t_status := Pending |> in
  let task := snd (clear_task_retry_state (clear_task_claim task)) in
  let task := push_log task now OPERATOR_WORKSPACE_NAME
    ("Recovery on startup: assignee session " +:+ debug_str assignee
     +:+ " not found; reset in_progress -> pending") in
  bump_version task <| t_updated_at := now |>.

(** One iteration over [candidate_ids]: the map and the parents collected. *)
Definition recover_one (now : Z) (acc : gmap string Task * list string) (id : string)
  : gmap string Task * list string :=
  let '(m, parent_ids) := acc in
  match m !! id with
  | None => (m, parent_ids)
  | Some task =>
      let task' := recovered_task task now in
      (<[id := task']> m,
       if is_empty (t_parent_task_id task') then parent_ids
       else parent_ids ++ [t_parent_task_id task'])
  end.

(** [Vec::dedup]: drop consecutive repetitions. *)
Fixpoint dedup (l : list string) : list string :=
  match l with
  | a :: ((b :: _) as r) => if String.eqb a b then dedup r else a :: dedup r
  | _ => l
  end.

Definition recover_stale_in_progress (is_session_live : string -> bool) (now : Z)
    (fault : option string) (st : TaskStore) : list string * TaskStore :=
  let candidate_ids :=
    t_id <$> List.filter (stranded is_session_live) (btree_values (inner st)) in
  match candidate_ids with
  | [] => ([], st)
  | _ =>
      let '(m, parent_ids) := foldl (recover_one now) (inner st, []) candidate_ids in
      let parent_ids := dedup (merge_sort String.le parent_ids) in
      let m := foldl (fun m p => refresh_parent_rollup m p now) m parent_ids in
      (candidate_ids, snd (persist_locked fault (st <| inner := m |>)))
  end.

(** ** Queries *)

Definition list_matches (assignee created_by : string) (status : option TaskStatus)
    (task : Task) : bool :=
  if is_some (t_removed_at task) then false else
  if negb (is_empty assignee) && negb (String.eqb (t_assignee task) assignee) then false else
  if negb (is_empty created_by) && negb (String.eqb (t_created_by task) created_by)
  then false else
  match status with
  | Some want => bool_decide (t_status task = want)
  | None => true
  end.

Definition list_tasks (assignee created_by : string) (status : option TaskStatus)
    (st : TaskStore) : list Task :=
  List.filter (list_matches assignee created_by status) (btree_values (inner st)).

Definition list_silent_in_progress (now stale_threshold : Z) (st : TaskStore) : list Task :=
  List.filter (fun task =>
    if is_some (t_removed_at task)
       || negb (bool_decide (t_status task = InProgress))
       || is_empty (t_assignee task)
    then false
    else (stale_threshold <=? now - t_updated_at task)%Z) (btree_values (inner st)).

Definition count_open_for_assignee (assignee : string) (st : TaskStore) : Z :=
  i64_saturate (Z.of_nat (length (List.filter (fun task =>
    negb (is_some (t_removed_at task))
    && String.eqb (t_assignee task) assignee
    && is_open_status (t_status task)) (btree_values (inner st))))).

(** [Iterator::max_by_key]: the last of the maximal elements. *)
Definition max_by_key {A} (key : A -> Z) (l : list A) : option A :=
  foldl (fun best x =>
    match best with
    | None => Some x
    | Some b => if (key b <=? key x)%Z then Some x else Some b
    end) None l.

Definition most_recent_in_progress_for_assignee (assignee : string) (st : TaskStore)
  : option Task :=
  max_by_key t_updated_at (List.filter (fun task =>
    negb (is_some (t_removed_at task))
    && String.eqb (t_assignee task) assignee
    && bool_decide (t_status task = InProgress)) (btree_values (inner st))).

Definition runnable_task (assignee : string) (now : Z) (task : Task) : bool :=
  if is_some (t_removed_at task) || negb (String.eqb (t_assignee task) assignee) then false
  else
  if negb (bool_decide (t_status task = Pending))
     || negb (is_some (t_last_dispatch_at task))
     || is_some (t_claimed_at task)
  then false
  else match t_next_retry_at task with
       | Some r => negb (r >? now)%Z
       | None => true
       end.

Definition runnable_by_assignee (assignee : string) (now : Z) (st : TaskStore) : list Task :=
  List.filter (runnable_task assignee now) (btree_values (inner st)).

Definition snapshot (st : TaskStore) : list Task := btree_values (inner st).
End store.

#[global] Arguments mark_task_claimed : simpl never.
#[global] Arguments clear_task_claim : simpl never.
#[global] Arguments clear_task_retry_state : simpl never.
#[global] Arguments clear_derived_fields : simpl never.
#[global] Arguments push_log : simpl never.
#[global] Arguments bump_version : simpl never.
#[global] Arguments refreshed_parent : simpl never.
#[global] Arguments refresh_parent_rollup : simpl never.
#[global] Arguments summarize_task_rollup : simpl never.
#[global] Arguments new_task : simpl never.
#[global] Arguments link_child : simpl never.
#[global] Arguments update_edits {_} _ _ _ _ _ _ : simpl never.
#[global] Arguments cancelled_task : simpl never.
#[global] Arguments removed_task : simpl never.
#[global] Arguments retried_task : simpl never.
#[global] Arguments recovered_task {_} _ _ : simpl never.
#[global] Arguments validate_task_update : simpl never.
#[global] Arguments validate_task_control : simpl never.
