(* ===== verification/TaskEdits.v ===== *)
(** * What the task-level edits of [TaskStore] preserve and change.

    The component's library of frame lemmas: [identity] is the part of a task
    that no operation writes, and each edit is described by the fields it
    sets.  The store-level proofs use these instead of unfolding the edits. *)

From stdpp Require Import prelude strings list gmap sorting.
From S2P Require Import Prelude RustStr Proto TaskHelpers TaskStore.

(** The fields fixed when the task is created. *)
Definition identity (t : Task) :=
  (t_id t, t_title t, t_description t, t_assignee t, t_created_by t,
   t_parent_task_id t, t_start_mode t, t_workflow_mode t, t_priority t,
   t_stale_after_seconds t, t_dispatch_message t, t_dispatch_config_path t,
   t_sequence t, t_stale_info t, t_created_at t).

(** The fields the store's own bookkeeping writes. *)
Definition bookkeeping (t : Task) :=
  (t_child_task_ids t, t_removed_at t, t_version t, t_rollup t, t_updated_at t).

Lemma identity_eq t t' :
  identity t' = identity t ->
  t_id t' = t_id t /\ t_assignee t' = t_assignee t /\ t_created_by t' = t_created_by t
  /\ t_parent_task_id t' = t_parent_task_id t.
Proof. unfold identity. intros H. by simplify_eq. Qed.

Lemma bookkeeping_eq t t' :
  bookkeeping t' = bookkeeping t ->
  t_child_task_ids t' = t_child_task_ids t /\ t_removed_at t' = t_removed_at t
  /\ t_version t' = t_version t /\ t_rollup t' = t_rollup t
  /\ t_updated_at t' = t_updated_at t.
Proof. unfold bookkeeping. intros H. by simplify_eq. Qed.

(** Setting a field to the value it has. *)
Lemma set_next_retry_id t :
  t_next_retry_at t = None -> t <| t_next_retry_at := None |> = t.
Proof. destruct t; cbn. intros ->. reflexivity. Qed.

Lemma clear_task_retry_state_snd t :
  snd (clear_task_retry_state t) = t <| t_next_retry_at := None |>.
Proof.
  unfold clear_task_retry_state. destruct (t_next_retry_at t) eqn:E; [reflexivity|].
  cbn [is_some snd]. symmetry. by apply set_next_retry_id.
Qed.

Lemma clear_task_retry_state_false t :
  fst (clear_task_retry_state t) = false -> snd (clear_task_retry_state t) = t.
Proof. unfold clear_task_retry_state. by destruct (is_some _). Qed.

(** ** The edits of [update_with_confirm]: frame, effect, and the flag. *)

Section edits.
Context `{!TextOps}.
Implicit Types (t : Task) (acc : Task * bool).

(** An edit keeps the identity and bookkeeping, and leaves the task alone
    unless it raises the flag. *)
Record edit_ok (acc acc' : Task * bool) : Prop := {
  edit_identity : identity acc'.1 = identity acc.1;
  edit_bookkeeping : bookkeeping acc'.1 = bookkeeping acc.1;
  edit_unchanged : acc'.2 = false -> acc' = acc;
}.

Lemma edit_ok_refl acc : edit_ok acc acc.
Proof. by split. Qed.

Lemma edit_ok_trans a b c : edit_ok a b -> edit_ok b c -> edit_ok a c.
Proof.
  intros [i1 b1 u1] [i2 b2 u2]. split; [congruence..|].
  intros E. pose proof (u2 E) as ->. auto.
Qed.

(** A raised flag stays raised, and the new task keeps the frame. *)
Lemma edit_ok_set t ch t' :
  identity t' = identity t -> bookkeeping t' = bookkeeping t ->
  edit_ok (t, ch) (t', true).
Proof. by split. Qed.

Hint Resolve edit_ok_refl edit_ok_set : ax.

Lemma edit_claim_ok s r l ws now acc : edit_ok acc (edit_claim s r l ws now acc).
Proof.
  destruct acc as [t ch]. unfold edit_claim, mark_task_claimed.
  destruct (claim_source s r l); [|auto with ax].
  destruct (String.eqb ws _); [|auto with ax].
  destruct (_ || _); [destruct ch; auto with ax|]. by apply edit_ok_set.
Qed.

Lemma edit_status_ok s acc : edit_ok acc (edit_status s acc).
Proof.
  destruct acc as [t ch], s as [s|]; unfold edit_status; [|auto with ax].
  unfold clear_task_retry_state.
  destruct (bool_decide (t_status t = s)), (_ || _);
    try destruct (is_some _); try destruct ch; auto with ax; by apply edit_ok_set.
Qed.

Lemma edit_result_ok r acc : edit_ok acc (edit_result r acc).
Proof.
  destruct acc as [t ch], r as [r|]; unfold edit_result; [|auto with ax].
  destruct (String.eqb _ _); [auto with ax|]. by apply edit_ok_set.
Qed.

Lemma edit_log_ok l ws now acc : edit_ok acc (edit_log l ws now acc).
Proof.
  destruct acc as [t ch], l as [l|]; unfold edit_log; [|auto with ax].
  destruct (is_duplicate_task_log _ _ _ _); [auto with ax|]. by apply edit_ok_set.
Qed.

Lemma edit_evidence_ok s now acc : edit_ok acc (edit_evidence s now acc).
Proof.
  destruct acc as [t ch]. unfold edit_evidence.
  destruct (_ && _); [|auto with ax]. by apply edit_ok_set.
Qed.

Lemma update_edits_ok t s r l ws now :
  edit_ok (t, false) (update_edits t s r l ws now).
Proof.
  unfold update_edits.
  eapply edit_ok_trans; [|apply edit_evidence_ok].
  eapply edit_ok_trans; [|apply edit_log_ok].
  eapply edit_ok_trans; [|apply edit_result_ok].
  eapply edit_ok_trans; [|apply edit_status_ok]. apply edit_claim_ok.
Qed.

(** The status, result and claim after the edits. *)
Lemma edit_claim_status s r l ws now acc :
  t_status (edit_claim s r l ws now acc).1 = t_status acc.1
  /\ t_result (edit_claim s r l ws now acc).1 = t_result acc.1.
Proof.
  destruct acc as [t ch]. unfold edit_claim, mark_task_claimed.
  destruct (claim_source s r l); [|done]. destruct (String.eqb ws _); [|done].
  by destruct (_ || _).
Qed.

Lemma edit_status_status s acc :
  t_status (edit_status s acc).1 = default (t_status acc.1) s
  /\ t_result (edit_status s acc).1 = t_result acc.1.
Proof.
  destruct acc as [t ch], s as [s|]; unfold edit_status; [|done].
  unfold clear_task_retry_state.
  destruct (bool_decide (t_status t = s)) eqn:E, (_ || _);
    try destruct (is_some _); cbn [fst default]; fsimpl; split; try done;
    by apply bool_decide_eq_true in E.
Qed.

Lemma edit_result_status r acc :
  t_status (edit_result r acc).1 = t_status acc.1
  /\ t_result (edit_result r acc).1 = default (t_result acc.1) r.
Proof.
  destruct acc as [t ch], r as [r|]; unfold edit_result; [|done].
  destruct (String.eqb _ _) eqn:E; cbn [fst default]; fsimpl; [|done].
  by apply String.eqb_eq in E.
Qed.

Lemma edit_log_status l ws now acc :
  t_status (edit_log l ws now acc).1 = t_status acc.1
  /\ t_result (edit_log l ws now acc).1 = t_result acc.1.
Proof.
  destruct acc as [t ch], l as [l|]; unfold edit_log; [|done].
  by destruct (is_duplicate_task_log _ _ _ _).
Qed.

Lemma edit_evidence_status s now acc :
  t_status (edit_evidence s now acc).1 = t_status acc.1
  /\ t_result (edit_evidence s now acc).1 = t_result acc.1.
Proof. destruct acc as [t ch]. unfold edit_evidence. by destruct (_ && _). Qed.

Lemma update_edits_status t s r l ws now :
  t_status (update_edits t s r l ws now).1 = default (t_status t) s
  /\ t_result (update_edits t s r l ws now).1 = default (t_result t) r.
Proof.
  unfold update_edits. split.
  - rewrite (proj1 (edit_evidence_status _ _ _)), (proj1 (edit_log_status _ _ _ _)),
      (proj1 (edit_result_status _ _)), (proj1 (edit_status_status _ _)).
    by rewrite (proj1 (edit_claim_status _ _ _ _ _ _)).
  - rewrite (proj2 (edit_evidence_status _ _ _)), (proj2 (edit_log_status _ _ _ _)),
      (proj2 (edit_result_status _ _)), (proj2 (edit_status_status _ _)).
    by rewrite (proj2 (edit_claim_status _ _ _ _ _ _)).
Qed.
End edits.

(** ** The guards, as decision tables. *)

(** The gate on the edge into [Completed]. *)
Definition completion_gate (t : Task) (r : option string) (c : option bool) : Prop :=
  has_leftover_scope_declaration (default (t_result t) r) = true /\ c = Some true.

(** What the requested status must satisfy. *)
Definition status_allowed (t : Task) (r : option string) (c : option bool)
    (ws : string) (n : TaskStatus) : Prop :=
  (ws = t_assignee t \/ n = t_status t)
  /\ is_allowed_transition (t_status t) n = true
  /\ (n = Completed -> t_status t <> Completed -> completion_gate t r c).

Definition update_allowed (t : Task) (s : option TaskStatus) (r : option string)
    (c : option bool) (ws : string) : Prop :=
  t_removed_at t = None
  /\ (ws = t_assignee t \/ ws = t_created_by t)
  /\ (forall x, r = Some x -> trim x = "" \/ ws = t_assignee t)
  /\ (forall n, s = Some n -> status_allowed t r c ws n).

Lemma is_some_false {A} (o : option A) : is_some o = false <-> o = None.
Proof. by destruct o. Qed.
Lemma is_some_true {A} (o : option A) : is_some o = true <-> o <> None.
Proof. by destruct o. Qed.

(** The status part of the guard. *)
Lemma validate_status_iff t r c ws n :
  (if negb (String.eqb ws (t_assignee t)) && negb (bool_decide (n = t_status t))
   then Err (UnauthorisedStatus ws (t_id t) (t_assignee t)) else
   if negb (is_allowed_transition (t_status t) n)
   then Err (InvalidTransition (status_label (t_status t)) (status_label n)) else
   if bool_decide (n = Completed) && negb (bool_decide (t_status t = Completed))
   then if negb (has_leftover_scope_declaration
                   (match r with Some r => r | None => t_result t end))
        then Err (MissingCompletionEvidence (t_id t))
        else if negb (match c with Some b => b | None => false end)
        then Err (CompletionRequiresConfirmation (t_id t)) else Ok tt
   else Ok tt) = Ok tt <-> status_allowed t r c ws n.
Proof.
  unfold status_allowed, completion_gate.
  change (match r with Some r => r | None => t_result t end) with (default (t_result t) r).
  destruct (String.eqb_spec ws (t_assignee t)); case_bool_decide;
    cbn [negb andb]; try (split; [done|naive_solver]).
  all: destruct (is_allowed_transition _ _); cbn [negb]; try (split; [done|naive_solver]).
  all: case_bool_decide; cbn [andb]; try (split; [naive_solver|done]).
  all: case_bool_decide; cbn [negb]; try (split; [naive_solver|done]).
  all: destruct (has_leftover_scope_declaration _); cbn [negb]; try (split; [done|naive_solver]).
  all: destruct c as [[]|]; cbn [negb]; split; naive_solver.
Qed.

Lemma validate_task_update_ok t s r c ws :
  validate_task_update t s r c ws = Ok tt <-> update_allowed t s r c ws.
Proof.
  unfold validate_task_update, update_allowed.
  destruct (t_removed_at t) as [z|]; cbn [is_some]; [split; [done|naive_solver]|].
  assert ((match r with Some r => negb (is_empty (trim r)) && negb (String.eqb ws (t_assignee t))
           | None => false end) = false
          <-> forall x, r = Some x -> trim x = "" \/ ws = t_assignee t) as Hr.
  { destruct r as [x|]; [|naive_solver].
    rewrite andb_false_iff, !negb_false_iff, is_empty_true, String.eqb_eq. naive_solver. }
  destruct (negb (String.eqb ws (t_assignee t)) && negb (String.eqb ws (t_created_by t))) eqn:Ew.
  { split; [done|]. intros (_ & Hw & _).
    rewrite andb_true_iff, !negb_true_iff, !String.eqb_neq in Ew. naive_solver. }
  rewrite andb_false_iff, !negb_false_iff, !String.eqb_eq in Ew.
  destruct (match r with Some _ => _ | None => _ end) eqn:Er.
  { split; [done|]. intros (_ & _ & H%Hr & _). congruence. }
  destruct s as [n|]; [|naive_solver].
  pose proof (validate_status_iff t r c ws n). naive_solver.
Qed.

Lemma validate_task_control_ok t ws ev b :
  validate_task_control t ws ev b = Ok tt <->
    t_removed_at t = None
    /\ (forall v, ev = Some v -> t_version t = v)
    /\ (ws = OPERATOR_WORKSPACE_NAME \/ ws = t_created_by t
        \/ (b = true /\ ws = t_assignee t)).
Proof.
  unfold validate_task_control.
  destruct (t_removed_at t) as [z|]; cbn [is_some]; [split; [done|naive_solver]|].
  assert ((if String.eqb ws OPERATOR_WORKSPACE_NAME || String.eqb ws (t_created_by t)
           then Ok tt else if b && String.eqb ws (t_assignee t) then Ok tt
           else Err (UnauthorisedControl ws (t_id t))) = Ok tt <->
          (ws = OPERATOR_WORKSPACE_NAME \/ ws = t_created_by t
           \/ (b = true /\ ws = t_assignee t))) as Hauth.
  { destruct (String.eqb_spec ws OPERATOR_WORKSPACE_NAME); [naive_solver|].
    destruct (String.eqb_spec ws (t_created_by t)); [naive_solver|]. cbn [orb].
    destruct b, (String.eqb_spec ws (t_assignee t)); cbn [andb]; naive_solver. }
  destruct ev as [v|]; [|naive_solver].
  destruct (Z.eqb_spec (t_version t) v); cbn [negb]; [naive_solver|].
  split; [done|naive_solver].
Qed.

Lemma is_ok_unit {E} (r : Prelude.result E unit) : is_ok r = true <-> r = Ok tt.
Proof. by destruct r as [[]|]. Qed.

(** ** The edits of the control operations, of recovery and of the parent. *)

Lemma rollup_equal_eq a b : rollup_equal a b = true <-> a = b.
Proof.
  destruct a as [[]|], b as [[]|]; cbn [rollup_equal]; try done. cbn.
  rewrite !andb_true_iff, !Z.eqb_eq, !Bool.eqb_true_iff, String.eqb_eq, bool_decide_eq_true.
  split; [intros; destruct_and!; congruence|by intros [=]; repeat split].
Qed.

Lemma set_rollup_id t : t <| t_rollup := t_rollup t |> = t.
Proof. by destruct t. Qed.

(** What [refreshed_parent] leaves alone: everything but the rollup, the log,
    the version and the timestamp. *)
Definition life (t : Task) :=
  (identity t, t_child_task_ids t, t_removed_at t, t_status t, t_result t,
   (t_claimed_at t, t_claimed_by t, t_next_retry_at t, t_last_dispatch_at t)).

Lemma life_eq t t' :
  life t' = life t ->
  identity t' = identity t /\ t_child_task_ids t' = t_child_task_ids t
  /\ t_removed_at t' = t_removed_at t /\ t_status t' = t_status t
  /\ t_result t' = t_result t.
Proof.
  intros H. split_and!;
    [exact (f_equal (fun p => p.1.1.1.1.1) H) | exact (f_equal (fun p => p.1.1.1.1.2) H)
    |exact (f_equal (fun p => p.1.1.1.2) H) | exact (f_equal (fun p => p.1.1.2) H)
    |exact (f_equal (fun p => p.1.2) H)].
Qed.

Lemma refreshed_parent_life t r now : life (refreshed_parent t r now) = life t.
Proof.
  unfold refreshed_parent. cbv zeta. fsimpl.
  destruct (rollup_equal _ _); cbn [negb]; destruct r; try destruct (_ && _); reflexivity.
Qed.

Lemma refreshed_parent_rollup t r now : t_rollup (refreshed_parent t r now) = r.
Proof.
  unfold refreshed_parent. cbv zeta. fsimpl.
  destruct (rollup_equal _ _); cbn [negb]; destruct r; try destruct (_ && _); reflexivity.
Qed.

(** The refresh is silent or bumps the version once. *)
Lemma refreshed_parent_version t r now :
  refreshed_parent t r now = t
  \/ t_version (refreshed_parent t r now) = i64_succ (t_version t).
Proof.
  unfold refreshed_parent. cbv zeta. fsimpl.
  destruct (rollup_equal (t_rollup t) r) eqn:E; cbn [negb].
  - apply rollup_equal_eq in E. subst r.
    destruct (t_rollup t) eqn:Er; try destruct (_ && _); try (by right); left;
      rewrite <- Er; apply set_rollup_id.
  - right. destruct r; try destruct (_ && _); reflexivity.
Qed.

Lemma cancelled_task_facts t reason ws now :
  let t' := cancelled_task t reason ws now in
  identity t' = identity t /\ t_child_task_ids t' = t_child_task_ids t
  /\ t_removed_at t' = t_removed_at t /\ t_status t' = Cancelled
  /\ t_version t' = i64_succ (t_version t) /\ t_rollup t' = t_rollup t.
Proof.
  cbv zeta. unfold cancelled_task, mark_task_claimed. cbv zeta.
  destruct (String.eqb ws _); [destruct (_ || _)|]; repeat split; reflexivity.
Qed.

Lemma removed_task_facts t reason ws now :
  let t' := removed_task t reason ws now in
  identity t' = identity t /\ t_child_task_ids t' = t_child_task_ids t
  /\ t_removed_at t' = Some now /\ t_status t' = t_status t
  /\ t_version t' = i64_succ (t_version t) /\ t_rollup t' = t_rollup t.
Proof. repeat split; reflexivity. Qed.

Lemma retried_task_facts t note ws now :
  let t' := retried_task t note ws now in
  identity t' = identity t /\ t_child_task_ids t' = t_child_task_ids t
  /\ t_removed_at t' = t_removed_at t /\ t_status t' = Pending
  /\ t_version t' = i64_succ (t_version t) /\ t_rollup t' = t_rollup t.
Proof.
  cbv zeta. unfold retried_task. cbv zeta. rewrite clear_task_retry_state_snd.
  repeat split; reflexivity.
Qed.

Lemma recovered_task_facts `{!TextOps} t now :
  let t' := recovered_task t now in
  identity t' = identity t /\ t_child_task_ids t' = t_child_task_ids t
  /\ t_removed_at t' = t_removed_at t /\ t_status t' = Pending
  /\ t_version t' = i64_succ (t_version t) /\ t_rollup t' = t_rollup t
  /\ t_claimed_at t' = None /\ t_next_retry_at t' = None.
Proof.
  cbv zeta. unfold recovered_task. cbv zeta. rewrite clear_task_retry_state_snd.
  repeat split; reflexivity.
Qed.

Lemma link_child_facts t c now :
  let t' := link_child t c now in
  identity t' = identity t /\ t_removed_at t' = t_removed_at t
  /\ t_status t' = t_status t /\ t_rollup t' = t_rollup t
  /\ (c ∉ t_child_task_ids t ->
        t_child_task_ids t' = t_child_task_ids t ++ [c]
        /\ t_version t' = i64_succ (t_version t)).
Proof.
  cbv zeta. unfold link_child. case_bool_decide; repeat split; try done.
Qed.
