(* ===== verification/TaskMachine.v ===== *)
(** * The task store as a state machine.

    The mutations of [TaskStore] are gathered into one type of operations;
    [run_op] executes one of them and [reachable] is the set of stores the
    daemon can produce.  [edit_map] gives the in-memory effect of an operation on
    one task, without persistence. *)

From stdpp Require Import prelude strings list gmap sorting.
From S2P Require Import Prelude RustStr Proto TaskHelpers TaskStore.

Inductive store_op :=
| OpCreate (input : CreateTaskInput) (id : string)
| OpUpdate (id : string) (status : option TaskStatus) (result log_msg : option string)
    (confirm : option bool) (workspace : string)
| OpCancel (id reason workspace : string) (expected_version : option Z)
| OpRemove (id reason workspace : string) (expected_version : option Z)
| OpRetry (id note workspace : string) (expected_version : option Z)
| OpToolActivity (id by_ : string) (when : Z)
| OpDispatch (id to : string) (when : Z)
| OpRecover (is_session_live : string -> bool).

Section machine.
Context `{!TextOps} `{!JsonCodec (list Task)}.
Implicit Types (st : TaskStore) (op : store_op) (m : gmap string Task) (t : Task).

Definition run_op (op : store_op) (now : Z) (fault : option string) (st : TaskStore)
  : TaskStore :=
  match op with
  | OpCreate input id => snd (create input id now fault st)
  | OpUpdate id s r l c ws => snd (update_with_confirm id s r l c ws now fault st)
  | OpCancel id reason ws ev => snd (cancel id reason ws ev now fault st)
  | OpRemove id reason ws ev => snd (remove id reason ws ev now fault st)
  | OpRetry id note ws ev => snd (retry id note ws ev now fault st)
  | OpToolActivity id by_ when => snd (mark_tool_activity id by_ when now fault st)
  | OpDispatch id to when => snd (record_dispatch id to when now fault st)
  | OpRecover live => snd (recover_stale_in_progress live now fault st)
  end.

(** What [Uuid::new_v4] provides: an identifier in use neither as a key nor as
    the parent the caller names. *)
Definition op_fresh (op : store_op) (st : TaskStore) : Prop :=
  match op with
  | OpCreate input id =>
      inner st !! id = None /\ id <> "" /\ id <> trim (ct_parent_task_id input)
  | _ => True
  end.

Inductive reachable : TaskStore -> Prop :=
| reach_init fp f : reachable (mkTaskStore fp ∅ f)
| reach_step st op now fault :
    reachable st -> op_fresh op st -> reachable (run_op op now fault st).

(** ** The in-memory effect of an operation, without persistence.

    An operation on one task either leaves the map alone or replaces the task
    by [edited] and, when [refresh] is set, refreshes the rollup of its parent. *)

Definition op_target (op : store_op) : option string :=
  match op with
  | OpUpdate id _ _ _ _ _ | OpCancel id _ _ _ | OpRemove id _ _ _ | OpRetry id _ _ _
  | OpToolActivity id _ _ | OpDispatch id _ _ => Some id
  | OpCreate _ _ | OpRecover _ => None
  end.

Definition op_edit (op : store_op) (now : Z) (t : Task) : option (Task * bool) :=
  match op with
  | OpUpdate _ s r l c ws =>
      if is_ok (validate_task_update t s r c ws) then
        let '(t', changed) := update_edits t s r l ws now in
        if changed then Some (bump_version t' <| t_updated_at := now |>, true)
        else Some (t', false)
      else None
  | OpCancel _ reason ws ev =>
      if is_ok (validate_task_control t ws ev true) && negb (is_terminal_status (t_status t))
      then Some (cancelled_task t reason ws now, true) else None
  | OpRemove _ reason ws ev =>
      if is_ok (validate_task_control t ws ev false) && negb (is_some (t_removed_at t))
         && is_terminal_status (t_status t)
      then Some (removed_task t reason ws now, true) else None
  | OpRetry _ note ws ev =>
      if is_ok (validate_task_control t ws ev true) && is_open_status (t_status t)
      then Some (retried_task t note ws now, true) else None
  | OpToolActivity _ by_ when =>
      if is_some (t_removed_at t) || negb (bool_decide (t_status t = InProgress))
         || negb (String.eqb (t_assignee t) by_)
      then None else Some (bump_version (t <| t_updated_at := stamp when now |>), false)
  | OpDispatch _ to when =>
      if is_some (t_removed_at t) || negb (String.eqb (t_assignee t) to) then None
      else Some (bump_version
                   (t <| t_dispatch_count := i64_succ (t_dispatch_count t) |>
                      <| t_last_dispatch_at := Some (stamp when now) |>
                      <| t_updated_at := stamp when now |>), false)
  | OpCreate _ _ | OpRecover _ => None
  end.

Definition edit_map (op : store_op) (now : Z) (id : string) (m : gmap string Task)
  : gmap string Task :=
  match m !! id with
  | None => m
  | Some t =>
      match op_edit op now t with
      | None => m
      | Some (t', refresh) =>
          let m' := <[id := t']> m in
          if refresh then refresh_parent_rollup m' (t_parent_task_id t') now else m'
      end
  end.

Lemma inner_persist fault st : inner (snd (persist_locked fault st)) = inner st.
Proof. unfold persist_locked. by repeat case_match. Qed.

Lemma inner_commit fault st m id : inner (snd (commit fault st m id)) = m.
Proof.
  unfold commit. pose proof (inner_persist fault (st <| inner := m |>)) as E.
  destruct (persist_locked _ _) as [[?|?] st'] eqn:?; simpl in *; [|done].
  by destruct (inner st' !! id).
Qed.

Lemma inner_run_op_target op now fault st id :
  op_target op = Some id -> inner (run_op op now fault st) = edit_map op now id (inner st).
Proof.
  destruct op; cbn [op_target]; intros ?; simplify_eq; unfold edit_map;
    cbn [run_op op_edit].
  - unfold update_with_confirm. destruct (inner st !! id) as [t|] eqn:E; [|reflexivity].
    destruct (validate_task_update _ _ _ _ _); cbn [is_ok]; [|reflexivity].
    destruct (update_edits _ _ _ _ _ _) as [t' []]; cbv zeta.
    + by rewrite inner_commit.
    + fsimpl. by rewrite lookup_insert_eq.
  - unfold cancel. destruct (inner st !! id) as [t|] eqn:E; [|reflexivity].
    destruct (validate_task_control _ _ _ _); cbn [is_ok]; [|reflexivity].
    destruct (is_terminal_status _); cbn [andb negb]; [reflexivity|]. cbv zeta.
    by rewrite inner_commit.
  - unfold remove. destruct (inner st !! id) as [t|] eqn:E; [|reflexivity].
    destruct (validate_task_control _ _ _ _); cbn [is_ok]; [|reflexivity].
    destruct (is_some _); cbn [andb negb]; [reflexivity|].
    destruct (is_terminal_status _); cbn [andb negb]; [|reflexivity]. cbv zeta.
    by rewrite inner_commit.
  - unfold retry. destruct (inner st !! id) as [t|] eqn:E; [|reflexivity].
    destruct (validate_task_control _ _ _ _); cbn [is_ok]; [|reflexivity].
    destruct (is_open_status _); cbn [andb negb]; [|reflexivity]. cbv zeta.
    by rewrite inner_commit.
  - unfold mark_tool_activity. destruct (inner st !! id) as [t|] eqn:E; [|reflexivity].
    destruct (_ || _); [reflexivity|]. cbv zeta. cbn [snd]. by rewrite inner_persist.
  - unfold record_dispatch. destruct (inner st !! id) as [t|] eqn:E; [|reflexivity].
    destruct (_ || _); [reflexivity|]. cbv zeta. cbn [snd]. by rewrite inner_persist.
Qed.
End machine.
