(* ===== verification/TaskEffects.v ===== *)
(** * The effect of one store operation on one task.

    Every mutation of the store factors, task by task, into an optional edit
    of the task followed by an optional refresh of its rollup
    ([run_op_factor]).  The invariants of [TaskForest] and the lifecycle
    theorems of [TaskLifecycle] are read off this factorisation. *)

From stdpp Require Import prelude strings list gmap sorting.
From S2P Require Import Prelude RustStr Proto TaskHelpers TaskStore TaskEdits TaskMachine.

(** ** [Vec::sort] followed by [Vec::dedup]. *)

Lemma dedup_cons2 a b r :
  dedup (a :: b :: r) = if String.eqb a b then dedup (b :: r) else a :: dedup (b :: r).
Proof. reflexivity. Qed.

Lemma elem_of_dedup l x : x ∈ dedup l <-> x ∈ l.
Proof.
  induction l as [|a [|b r] IH]; [done..|].
  rewrite dedup_cons2. destruct (String.eqb_spec a b) as [->|]; set_solver.
Qed.

Lemma dedup_NoDup l : StronglySorted String.le l -> NoDup (dedup l).
Proof.
  induction l as [|a [|b r] IH]; intros Hs.
  - apply NoDup_nil_2.
  - apply NoDup_singleton.
  - apply StronglySorted_inv in Hs as [Hs Ha]. rewrite dedup_cons2.
    destruct (String.eqb_spec a b); [by apply IH|].
    apply NoDup_cons. split; [|by apply IH]. rewrite elem_of_dedup. intros Hin.
    apply Forall_cons in Ha as [Hab _].
    apply StronglySorted_inv in Hs as [_ Hb]. rewrite Forall_forall in Hb.
    apply elem_of_cons in Hin as [|Hin]; [done|].
    by assert (a = b) by (apply (anti_symm String.le); auto).
Qed.

Lemma sort_dedup_NoDup l : NoDup (dedup (merge_sort String.le l)).
Proof. apply dedup_NoDup, StronglySorted_merge_sort; apply _. Qed.

Lemma elem_of_sort_dedup l x : x ∈ dedup (merge_sort String.le l) <-> x ∈ l.
Proof. by rewrite elem_of_dedup, merge_sort_Permutation. Qed.

(** ** Refreshing parents. *)

Definition refreshed (now : Z) (t t' : Task) : Prop :=
  t' = t \/ (t_removed_at t = None /\ exists r, t' = refreshed_parent t r now).

Lemma refreshed_life now t t' : refreshed now t t' -> life t' = life t.
Proof. intros [->|(_ & r & ->)]; [done|]. apply refreshed_parent_life. Qed.

Lemma refresh_lookup m p now k :
  match m !! k, refresh_parent_rollup m p now !! k with
  | Some t, Some t' => refreshed now t t' /\ (trim p <> k -> t' = t)
  | None, None => True
  | _, _ => False
  end.
Proof.
  unfold refresh_parent_rollup. cbv zeta.
  assert (match m !! k, m !! k with
    | Some t, Some t' => refreshed now t t' /\ (trim p <> k -> t' = t)
    | None, None => True | _, _ => False end) as Hid.
  { destruct (m !! k); [|done]. split; [by left|done]. }
  destruct (is_empty _); [done|].
  destruct (m !! trim p) as [t|] eqn:E; [|done].
  destruct (t_removed_at t) eqn:Er; cbn [is_some]; [done|].
  destruct (decide (trim p = k)) as [<-|Hne].
  - rewrite E, lookup_insert_eq. split; [|done]. right. eauto.
  - by rewrite lookup_insert_ne.
Qed.

Lemma refresh_lookup_Some m p now k t :
  m !! k = Some t ->
  exists t', refresh_parent_rollup m p now !! k = Some t'
    /\ refreshed now t t' /\ (trim p <> k -> t' = t).
Proof.
  intros E. pose proof (refresh_lookup m p now k) as H. rewrite E in H.
  destruct (refresh_parent_rollup m p now !! k); [eauto|done].
Qed.

(** Lookups in the refreshed map that only concern [life]. *)
Lemma refresh_map_life m p now : life <$> refresh_parent_rollup m p now = life <$> m.
Proof.
  apply map_eq. intros k. rewrite !lookup_fmap.
  pose proof (refresh_lookup m p now k) as H.
  destruct (m !! k), (refresh_parent_rollup m p now !! k); try done.
  cbn. f_equal. destruct H as [H _]. by apply refreshed_life in H.
Qed.

Definition refresh_all (ps : list string) (now : Z) (m : gmap string Task)
  : gmap string Task := foldl (fun m p => refresh_parent_rollup m p now) m ps.

Lemma refresh_all_life ps now m : life <$> refresh_all ps now m = life <$> m.
Proof.
  unfold refresh_all. revert m. induction ps as [|p ps IH]; intros m; [done|].
  cbn [foldl]. rewrite IH. apply refresh_map_life.
Qed.

Lemma refresh_all_lookup ps now m k t :
  NoDup ps -> (forall p, p ∈ ps -> trim p = p) -> m !! k = Some t ->
  exists t', refresh_all ps now m !! k = Some t' /\ refreshed now t t'
    /\ (k ∉ ps -> t' = t).
Proof.
  unfold refresh_all. revert m t.
  induction ps as [|p ps IH]; intros m t Hnd Htrim E.
  { exists t. split_and!; [done|by left|done]. }
  cbn [foldl]. apply NoDup_cons in Hnd as [Hp Hnd].
  destruct (refresh_lookup_Some m p now k t E) as (t1 & E1 & R1 & U1).
  destruct (IH _ t1 Hnd ltac:(set_solver) E1) as (t' & E' & R' & U').
  rewrite (Htrim p) in U1 by set_solver.
  exists t'. split; [done|]. destruct (decide (p = k)) as [->|Hne].
  - rewrite (U' Hp). split; [done|set_solver].
  - rewrite (U1 Hne) in *. split; [done|set_solver].
Qed.

(** ** Recovery: the loop over the candidates. *)

Section recover.
Context `{!TextOps}.

Lemma recover_fold_lookup ids m ps now k :
  NoDup ids ->
  fst (foldl (recover_one now) (m, ps) ids) !! k
  = if decide (k ∈ ids) then (fun t => recovered_task t now) <$> m !! k else m !! k.
Proof.
  revert m ps. induction ids as [|i ids IH]; intros m ps Hnd; [done|].
  apply NoDup_cons in Hnd as [Hi Hnd]. cbn [foldl].
  unfold recover_one at 2. destruct (m !! i) as [t|] eqn:E; cbv zeta; rewrite IH by done.
  - destruct (decide (k = i)) as [->|Hne].
    + rewrite decide_False, lookup_insert_eq, decide_True, E by set_solver. done.
    + rewrite lookup_insert_ne by done. by repeat case_decide; set_solver.
  - destruct (decide (k = i)) as [->|Hne].
    + rewrite decide_False, decide_True, E by set_solver. done.
    + by repeat case_decide; set_solver.
Qed.

Lemma recover_fold_parents ids m ps now p :
  p ∈ snd (foldl (recover_one now) (m, ps) ids) ->
  p ∈ ps \/ exists k t, m !! k = Some t /\ p = t_parent_task_id t.
Proof.
  revert m ps. induction ids as [|i ids IH]; intros m ps Hp; [by left|].
  cbn [foldl] in Hp. unfold recover_one at 2 in Hp.
  destruct (m !! i) as [t|] eqn:E; cbv zeta in Hp; [|by apply IH].
  pose proof (identity_eq _ _ (proj1 (recovered_task_facts t now))) as (_ & _ & _ & Hpar).
  apply IH in Hp as [Hp|(k & t' & Hk & ->)].
  - destruct (is_empty _); [by left|]. rewrite Hpar in Hp.
    apply elem_of_app in Hp as [?|Hp]; [by left|]. right. exists i, t. set_solver.
  - right. apply lookup_insert_Some in Hk as [[<- <-]|[_ Hk]]; eauto.
Qed.
End recover.

(** ** Well-formed stores: the tasks form a forest. *)

Record forest (m : gmap string Task) : Prop := {
  forest_key k t : m !! k = Some t -> t_id t = k /\ k <> "";
  forest_trimmed k t : m !! k = Some t -> trim (t_parent_task_id t) = t_parent_task_id t;
  forest_nodup k t : m !! k = Some t -> NoDup (t_child_task_ids t);
  forest_child k t c :
    m !! k = Some t -> c ∈ t_child_task_ids t ->
    exists tc, m !! c = Some tc /\ t_parent_task_id tc = k;
  forest_parent c tc :
    m !! c = Some tc -> t_parent_task_id tc <> "" ->
    exists t, m !! t_parent_task_id tc = Some t /\ c ∈ t_child_task_ids t;
  forest_acyclic : exists rank : string -> nat, forall c tc,
    m !! c = Some tc -> t_parent_task_id tc <> "" ->
    rank (t_parent_task_id tc) < rank c;
}.

(** The in-memory effect of [create] and of [recover_stale_in_progress]. *)
Definition create_map (input : CreateTaskInput) (id : string) (now : Z)
    (m : gmap string Task) : gmap string Task :=
  let parent_id := trim (ct_parent_task_id input) in
  let m1 := <[id := new_task input id now]> m in
  if is_empty parent_id then m1 else
  match m !! parent_id with
  | None => m
  | Some parent =>
      if is_some (t_removed_at parent) then m
      else refresh_parent_rollup (<[parent_id := link_child parent id now]> m1) parent_id now
  end.

Section factor.
Context `{!TextOps} `{!JsonCodec (list Task)}.
Implicit Types (st : TaskStore) (op : store_op) (m : gmap string Task) (t : Task).

Lemma inner_create input id now fault st :
  inner st !! id = None -> id <> trim (ct_parent_task_id input) ->
  inner (run_op (OpCreate input id) now fault st) = create_map input id now (inner st).
Proof.
  intros Hid Hne. cbn [run_op]. unfold create, create_map. cbv zeta.
  change (t_parent_task_id (new_task input id now)) with (trim (ct_parent_task_id input)).
  destruct (is_empty _); [by rewrite inner_commit|].
  rewrite lookup_insert_ne by done.
  destruct (inner st !! trim _) as [parent|] eqn:E.
  - destruct (is_some _); [|by rewrite inner_commit].
    cbn [snd]. fsimpl. by rewrite delete_insert_id.
  - cbn [snd]. fsimpl. by rewrite delete_insert_id.
Qed.

Definition candidates (live : string -> bool) (m : gmap string Task) : list string :=
  t_id <$> List.filter (stranded live) (btree_values m).

Definition recover_map (live : string -> bool) (now : Z) (m : gmap string Task)
  : gmap string Task :=
  let acc := foldl (recover_one now) (m, []) (candidates live m) in
  refresh_all (dedup (merge_sort String.le acc.2)) now acc.1.

Lemma inner_recover live now fault st :
  inner (run_op (OpRecover live) now fault st) = recover_map live now (inner st).
Proof.
  cbn [run_op]. unfold recover_stale_in_progress, recover_map.
  fold (candidates live (inner st)). cbv zeta.
  destruct (candidates live (inner st)) as [|i ids] eqn:E; [reflexivity|].
  destruct (foldl _ _ _) as [m ps]. cbn [snd fst].
  by rewrite inner_persist.
Qed.

Lemma elem_of_candidates live m k :
  (forall k t, m !! k = Some t -> t_id t = k) ->
  k ∈ candidates live m <-> exists t, m !! k = Some t /\ stranded live t = true.
Proof.
  intros Hkey. unfold candidates. rewrite list_elem_of_fmap. split.
  - intros (t & -> & Ht). apply list_elem_of_In, List.filter_In in Ht as [Ht Hs].
    apply list_elem_of_In, elem_of_btree_values in Ht as [k Hk].
    rewrite (Hkey _ _ Hk). eauto.
  - intros (t & Hk & Hs). exists t. split; [by rewrite (Hkey _ _ Hk)|].
    apply list_elem_of_In, List.filter_In. split; [|done].
    apply list_elem_of_In, elem_of_btree_values. eauto.
Qed.

Lemma candidates_NoDup live m :
  (forall k t, m !! k = Some t -> t_id t = k) -> NoDup (candidates live m).
Proof.
  intros Hkey. unfold candidates, btree_values.
  assert (forall kv, kv ∈ btree_to_list m -> t_id kv.2 = kv.1) as Hk.
  { intros [k t] Hin. by apply Hkey, elem_of_btree_to_list. }
  pose proof (btree_keys_NoDup m) as Hnd. unfold btree_keys in Hnd.
  induction (btree_to_list m) as [|[k t] l IH]; [apply NoDup_nil_2|].
  cbn [fmap list_fmap List.filter snd]. cbn [fmap list_fmap fst] in Hnd.
  apply NoDup_cons in Hnd as [Hn Hnd]. specialize (IH ltac:(set_solver) Hnd).
  destruct (stranded live t); [|done]. cbn [fmap list_fmap].
  apply NoDup_cons. split; [|done]. intros Hin. apply Hn.
  apply list_elem_of_fmap in Hin as (t' & Heq & Ht').
  apply list_elem_of_In, List.filter_In in Ht' as [Ht' _].
  apply list_elem_of_In, list_elem_of_fmap in Ht' as ([k' ?] & -> & Hin).
  pose proof (Hk (k', t0) ltac:(set_solver)) as E1. pose proof (Hk (k, t) ltac:(set_solver)) as E2.
  cbn in *. apply list_elem_of_fmap. exists (k', t0). cbn. split; [congruence|done].
Qed.

(** The edit an operation performs on task [t], before any rollup refresh. *)
Inductive edited (op : store_op) (now : Z) (t : Task) : Task -> Prop :=
| edited_none : edited op now t t
| edited_target t' b :
    op_target op = Some (t_id t) -> op_edit op now t = Some (t', b) -> edited op now t t'
| edited_recover live :
    op = OpRecover live -> stranded live t = true -> edited op now t (recovered_task t now)
| edited_link input id :
    op = OpCreate input id -> t_removed_at t = None ->
    t_id t = trim (ct_parent_task_id input) -> id ∉ t_child_task_ids t ->
    edited op now t (link_child t id now).

Definition factors op now (m m' : gmap string Task) : Prop :=
  forall k t, m !! k = Some t ->
  exists t1 t', m' !! k = Some t' /\ edited op now t t1 /\ refreshed now t1 t'.

Lemma factors_target op now m id :
  (forall k t, m !! k = Some t -> t_id t = k) -> op_target op = Some id ->
  factors op now m (edit_map op now id m).
Proof.
  intros Hkey Hop k t E. unfold edit_map.
  destruct (m !! id) as [u|] eqn:Eu; [|exists t, t; split_and!; [done|constructor|by left]].
  destruct (op_edit op now u) as [[u' b]|] eqn:Eo;
    [|exists t, t; split_and!; [done|constructor|by left]].
  assert (exists t1, <[id:=u']> m !! k = Some t1 /\ edited op now t t1) as (t1 & E1 & Hed).
  { destruct (decide (id = k)) as [->|Hne].
    - rewrite lookup_insert_eq. simplify_eq. eexists. split; [done|].
      eapply edited_target; [|done]. by rewrite (Hkey _ _ E).
    - rewrite lookup_insert_ne by done. exists t. split; [done|constructor]. }
  cbv zeta. destruct b; [|exists t1, t1; split_and!; [done..|by left]].
  destruct (refresh_lookup_Some _ (t_parent_task_id u') now k t1 E1) as (t' & ? & ? & _).
  eauto.
Qed.

Lemma factors_recover live now m :
  forest m -> factors (OpRecover live) now m (recover_map live now m).
Proof.
  intros Hf k t E. unfold recover_map. cbv zeta.
  pose proof (fun k t H => proj1 (forest_key _ Hf k t H)) as Hkey.
  pose proof (candidates_NoDup live m Hkey) as Hnd.
  pose proof (recover_fold_lookup _ m [] now k Hnd) as Hl.
  pose proof (recover_fold_parents (candidates live m) m [] now) as Hps.
  destruct (foldl _ _ _) as [m1 ps]. cbn [fst snd] in *. rewrite E in Hl.
  assert (exists t1, m1 !! k = Some t1 /\ edited (OpRecover live) now t t1) as (t1 & E1 & Hed).
  { destruct (decide _) as [Hin|_]; [|exists t; split; [done|constructor]].
    apply (elem_of_candidates live m k Hkey) in Hin as (? & ? & ?). simplify_eq.
    eexists. split; [exact Hl|]. by eapply edited_recover. }
  destruct (refresh_all_lookup (dedup (merge_sort String.le ps)) now m1 k t1)
    as (t' & E' & R' & _); [apply sort_dedup_NoDup| |done|eauto].
  intros p Hp%elem_of_sort_dedup%Hps. destruct Hp as [Hp|(? & ? & ? & ->)]; [set_solver|].
  by eapply forest_trimmed.
Qed.

Lemma factors_create input id now m :
  forest m -> m !! id = None -> id <> trim (ct_parent_task_id input) ->
  factors (OpCreate input id) now m (create_map input id now m).
Proof.
  intros Hf Hid Hne k t E. unfold create_map. cbv zeta.
  assert (k <> id) by congruence.
  assert (exists t1 t', <[id:=new_task input id now]> m !! k = Some t'
    /\ edited (OpCreate input id) now t t1 /\ refreshed now t1 t') as Hsame.
  { exists t, t. rewrite lookup_insert_ne by done. split_and!; [done|constructor|by left]. }
  destruct (is_empty _); [done|].
  destruct (m !! trim _) as [p|] eqn:Ep;
    [|exists t, t; split_and!; [done|constructor|by left]].
  destruct (t_removed_at p) eqn:Er; cbn [is_some];
    [exists t, t; split_and!; [done|constructor|by left]|].
  set (m1 := <[_ := _]> (<[_ := _]> m)).
  assert (exists t1, m1 !! k = Some t1 /\ edited (OpCreate input id) now t t1)
    as (t1 & E1 & Hed).
  { unfold m1. destruct (decide (trim (ct_parent_task_id input) = k)) as [<-|Hk].
    - rewrite lookup_insert_eq. simplify_eq. eexists. split; [done|].
      eapply edited_link; [done..| |].
      + by apply (forest_key _ Hf) in E as [-> _].
      + intros Hc. destruct (forest_child _ Hf _ _ _ E Hc) as (? & ? & _). congruence.
    - rewrite !lookup_insert_ne by done. exists t. split; [done|constructor]. }
  destruct (refresh_lookup_Some m1 (trim (ct_parent_task_id input)) now k t1 E1)
    as (t' & ? & ? & _). eauto.
Qed.

Lemma run_op_factor op now fault st :
  forest (inner st) -> op_fresh op st ->
  factors op now (inner st) (inner (run_op op now fault st)).
Proof.
  intros Hf Hop. pose proof (fun k t H => proj1 (forest_key _ Hf k t H)) as Hkey.
  destruct op; try (erewrite inner_run_op_target by reflexivity; by apply factors_target).
  - destruct Hop as (Hid & _ & Hne). rewrite inner_create by done. by apply factors_create.
  - rewrite inner_recover. by apply factors_recover.
Qed.
End factor.
