(* ===== verification/TaskForest.v ===== *)
(** * Structural invariants of reachable task stores.

    Identity of tasks is immutable, and the parent/child links of every
    reachable store form a forest: links agree in both directions, child lists
    have no repetition and no task is its own ancestor. *)

From stdpp Require Import prelude strings list gmap sorting.
From S2P Require Import Prelude RustStr Proto TaskHelpers TaskStore TaskEdits TaskMachine.
From S2P Require Import TaskEffects.

(** ** What an edit keeps. *)

Section edited.
Context `{!TextOps} `{!JsonCodec (list Task)}.
Implicit Types (st : TaskStore) (op : store_op) (m : gmap string Task) (t : Task).

(** The caller of the control operations. *)
Definition control_authority (t : Task) (ws : string) : Prop :=
  ws = OPERATOR_WORKSPACE_NAME \/ ws = t_created_by t \/ ws = t_assignee t.

(** The four ways in which the status of a task changes. *)
Inductive status_cause (op : store_op) (t : Task) : TaskStatus -> Prop :=
| cause_update n r l c :
    op = OpUpdate (t_id t) (Some n) r l c (t_assignee t) ->
    is_allowed_transition (t_status t) n = true ->
    (n = Completed -> completion_gate t r c) ->
    status_cause op t n
| cause_cancel reason ws ev :
    op = OpCancel (t_id t) reason ws ev -> control_authority t ws ->
    is_open_status (t_status t) = true ->
    status_cause op t Cancelled
| cause_retry note ws ev :
    op = OpRetry (t_id t) note ws ev -> control_authority t ws ->
    is_open_status (t_status t) = true ->
    status_cause op t Pending
| cause_recover live :
    op = OpRecover live -> live (t_assignee t) = false -> t_status t = InProgress ->
    status_cause op t Pending.

Record edit_effect (op : store_op) (t t' : Task) : Prop := {
  ee_identity : identity t' = identity t;
  ee_rollup : t_rollup t' = t_rollup t;
  ee_version : t' = t \/ t_version t' = i64_succ (t_version t);
  ee_live : t' = t \/ t_removed_at t = None;
  ee_status : t_status t' = t_status t \/ status_cause op t (t_status t');
  ee_removed : is_some (t_removed_at t') = is_some (t_removed_at t)
               \/ is_terminal_status (t_status t) = true;
  ee_children : t_child_task_ids t' = t_child_task_ids t
    \/ exists input id, op = OpCreate input id /\ t_id t = trim (ct_parent_task_id input)
         /\ t_child_task_ids t' = t_child_task_ids t ++ [id];
}.

Lemma edit_effect_refl op t : edit_effect op t t.
Proof. split; auto. Qed.

Lemma open_not_terminal s : is_open_status s = negb (is_terminal_status s).
Proof. by destruct s. Qed.

Lemma edit_effect_update t s r l c now t' b ws :
  op_edit (OpUpdate (t_id t) s r l c ws) now t = Some (t', b) ->
  edit_effect (OpUpdate (t_id t) s r l c ws) t t'.
Proof.
  cbn [op_edit]. destruct (is_ok _) eqn:Hok; [|done].
  apply is_ok_unit, validate_task_update_ok in Hok as (Hrem & _ & _ & Hst).
  pose proof (update_edits_ok t s r l ws now) as [Hi Hb Hu].
  pose proof (proj1 (update_edits_status t s r l ws now)) as Hs.
  destruct (update_edits _ _ _ _ _ _) as [u ch]; cbn [fst snd] in *.
  apply bookkeeping_eq in Hb as (Hc & Hr & Hv & Hro & _).
  assert (t_status u = t_status t \/
          status_cause (OpUpdate (t_id t) s r l c ws) t (t_status u)) as Hcause.
  { destruct s as [n|]; [|by left]. cbn in Hs. rewrite Hs.
    destruct (decide (n = t_status t)) as [->|Hn]; [by left|]. right.
    destruct (Hst n eq_refl) as ([->| ?] & Ha & Hg); [|done].
    eapply cause_update; [done..|]. intros ->. by apply Hg. }
  destruct ch; intros [= <- <-].
  - split; fsimpl;
      [exact Hi|exact Hro|right; rewrite <-Hv; reflexivity|by right|exact Hcause
      |left; rewrite <-Hr; reflexivity|left; exact Hc].
  - specialize (Hu eq_refl) as [= ->]. apply edit_effect_refl.
Qed.

Lemma edit_effect_control t ws ev b :
  is_ok (validate_task_control t ws ev b) = true ->
  t_removed_at t = None /\ control_authority t ws.
Proof.
  intros (Hr0 & _ & Hw)%is_ok_unit%validate_task_control_ok. split; [done|].
  unfold control_authority. tauto.
Qed.

Lemma edit_effect_target op now t t' b :
  op_target op = Some (t_id t) -> op_edit op now t = Some (t', b) -> edit_effect op t t'.
Proof.
  destruct op; cbn [op_target]; intros ? Hed; simplify_eq;
    [by eapply edit_effect_update|..]; cbn [op_edit] in Hed.
  - destruct (is_ok _) eqn:Hok, (is_terminal_status _) eqn:Ht; try done.
    injection Hed as <- _. apply edit_effect_control in Hok as [Hr Ha].
    destruct (cancelled_task_facts t reason workspace now) as (? & ? & Hrem & Hs & ? & ?).
    split; try (by left); try (by right); try done.
    + right. rewrite Hs. eapply cause_cancel; [done..|]. by rewrite open_not_terminal, Ht.
    + left. by rewrite Hrem.
  - destruct (is_ok _) eqn:Hok, (is_some _) eqn:Hrem, (is_terminal_status _) eqn:Ht;
      try done.
    injection Hed as <- _. apply is_some_false in Hrem.
    destruct (removed_task_facts t reason workspace now) as (? & ? & ? & ? & ? & ?).
    by split; auto.
  - destruct (is_ok _) eqn:Hok, (is_open_status _) eqn:Ht; try done.
    injection Hed as <- _. apply edit_effect_control in Hok as [Hr Ha].
    destruct (retried_task_facts t note workspace now) as (? & ? & Hrem & Hs & ? & ?).
    split; try (by left); try (by right); try done.
    + right. rewrite Hs. by eapply cause_retry.
    + left. by rewrite Hrem.
  - destruct (t_removed_at t) eqn:Hr; [done|]. destruct (_ || _); [done|].
    injection Hed as <- _. split; auto.
  - destruct (t_removed_at t) eqn:Hr; [done|]. destruct (_ || _); [done|].
    injection Hed as <- _. split; auto.
Qed.

Lemma edited_effect op now t t' : edited op now t t' -> edit_effect op t t'.
Proof.
  destruct 1 as [|t' b Hop Hed|live -> Hs|input id -> Hr Hid Hc].
  - apply edit_effect_refl.
  - by eapply edit_effect_target.
  - unfold stranded in Hs. rewrite !andb_true_iff, !negb_true_iff in Hs.
    destruct Hs as [[[Hr Hp] _] Hlive].
    apply bool_decide_eq_true in Hp. apply is_some_false in Hr.
    destruct (recovered_task_facts t now) as (? & ? & Hrem & Hst & ? & ? & _).
    split; auto; [|left; by rewrite Hrem].
    right. rewrite Hst. by eapply cause_recover.
  - destruct (link_child_facts t id now) as (? & Hrem & ? & ? & Hl).
    destruct (Hl Hc) as [Hch Hv]. split; auto; [left; by rewrite Hrem|]. right. eauto.
Qed.

Lemma edited_removed op now t t' z :
  edited op now t t' -> t_removed_at t = Some z -> t' = t.
Proof. intros [] % edited_effect Hr. destruct ee_live0; congruence. Qed.

Lemma refreshed_removed now t t' z :
  refreshed now t t' -> t_removed_at t = Some z -> t' = t.
Proof. intros [?|[? _]] ?; [done|congruence]. Qed.
End edited.

(** ** Identity and the forest. *)

Section forest.
Context `{!TextOps} `{!JsonCodec (list Task)}.
Implicit Types (st : TaskStore) (op : store_op) (m : gmap string Task) (t : Task).

(** The links of a task. *)
Definition links (t : Task) : string * string * list string :=
  (t_id t, t_parent_task_id t, t_child_task_ids t).

Lemma links_eq t t' :
  links t' = links t ->
  t_id t' = t_id t /\ t_parent_task_id t' = t_parent_task_id t
  /\ t_child_task_ids t' = t_child_task_ids t.
Proof. unfold links. by intros [= -> -> ->]. Qed.

Lemma fmap_lookup_eq {B} (f : Task -> B) m m' k t :
  f <$> m' = f <$> m -> m !! k = Some t -> exists t', m' !! k = Some t' /\ f t' = f t.
Proof.
  intros Heq E. pose proof (f_equal (lookup k) Heq) as Hk.
  rewrite !lookup_fmap, E in Hk. destruct (m' !! k) as [t'|]; [|done].
  exists t'. split; [done|]. by apply (inj Some) in Hk.
Qed.

(** Being a forest depends on the links only. *)
Lemma forest_links m m' : links <$> m' = links <$> m -> forest m -> forest m'.
Proof.
  intros Heq Hf.
  assert (forall k t', m' !! k = Some t' -> exists t, m !! k = Some t
    /\ t_id t' = t_id t /\ t_parent_task_id t' = t_parent_task_id t
    /\ t_child_task_ids t' = t_child_task_ids t) as Hback.
  { intros k t' E. destruct (fmap_lookup_eq links m' m k t' (eq_sym Heq) E) as (t & Et & Hl).
    exists t. by apply eq_sym, links_eq in Hl. }
  assert (forall k t, m !! k = Some t -> exists t', m' !! k = Some t'
    /\ t_id t' = t_id t /\ t_parent_task_id t' = t_parent_task_id t
    /\ t_child_task_ids t' = t_child_task_ids t) as Hfwd.
  { intros k t E. destruct (fmap_lookup_eq links m m' k t Heq E) as (t' & Et & Hl).
    exists t'. by apply links_eq in Hl. }
  split.
  - intros k t' (t & E & -> & _)%Hback. by apply (forest_key _ Hf).
  - intros k t' (t & E & _ & -> & _)%Hback. by eapply (forest_trimmed _ Hf).
  - intros k t' (t & E & _ & _ & ->)%Hback. by eapply (forest_nodup _ Hf).
  - intros k t' c (t & E & _ & _ & ->)%Hback Hc.
    destruct (forest_child _ Hf _ _ _ E Hc) as (tc & Ec & Hp).
    apply Hfwd in Ec as (tc' & Ec & _ & ? & _). exists tc'. split; congruence.
  - intros c tc' (tc & E & _ & -> & _)%Hback Hp.
    destruct (forest_parent _ Hf _ _ E Hp) as (t & Et & Hc).
    apply Hfwd in Et as (t' & Et & _ & _ & ?). exists t'. split; congruence.
  - destruct (forest_acyclic _ Hf) as [rank Hrank]. exists rank.
    intros c tc' (tc & E & _ & -> & _)%Hback Hp. eauto.
Qed.

Lemma life_links t t' : life t' = life t -> links t' = links t.
Proof.
  intros (Hi & Hc & _)%life_eq. apply identity_eq in Hi as (? & _ & _ & ?).
  unfold links. congruence.
Qed.

Lemma fmap_life_links m m' : life <$> m' = life <$> m -> links <$> m' = links <$> m.
Proof.
  intros Heq. apply map_eq. intros k. apply (f_equal (lookup k)) in Heq.
  rewrite !lookup_fmap in *. destruct (m' !! k), (m !! k); try done.
  apply (inj Some), life_links in Heq. cbn. by rewrite Heq.
Qed.

(** A new root: no task names it as a parent. *)
Lemma forest_insert_root m id t :
  forest m -> m !! id = None -> id <> "" -> t_id t = id ->
  t_parent_task_id t = "" -> t_child_task_ids t = [] -> forest (<[id := t]> m).
Proof.
  intros Hf Hid Hne Ht Hp Hc. split.
  - intros k u [[<- <-]|[_ Hk]]%lookup_insert_Some; [done|]. by apply (forest_key _ Hf).
  - intros k u [[<- <-]|[_ Hk]]%lookup_insert_Some; [by rewrite Hp|].
    by eapply (forest_trimmed _ Hf).
  - intros k u [[<- <-]|[_ Hk]]%lookup_insert_Some; [by rewrite Hc; apply NoDup_nil_2|].
    by eapply (forest_nodup _ Hf).
  - intros k u c [[<- <-]|[_ Hk]]%lookup_insert_Some Hin; [rewrite Hc in Hin; set_solver|].
    destruct (forest_child _ Hf _ _ _ Hk Hin) as (tc & Ec & ?).
    exists tc. rewrite lookup_insert_ne by congruence. done.
  - intros c u [[<- <-]|[_ Hk]]%lookup_insert_Some Hu; [done|].
    destruct (forest_parent _ Hf _ _ Hk Hu) as (p & Ep & ?).
    exists p. rewrite lookup_insert_ne by congruence. done.
  - destruct (forest_acyclic _ Hf) as [rank Hrank]. exists rank.
    intros c u [[<- <-]|[_ Hk]]%lookup_insert_Some Hu; [done|]. eauto.
Qed.

(** A new leaf under an existing parent. *)
Section leaf.
Context (m : gmap string Task) (id : string) (t parent parent' : Task).
Let p := t_parent_task_id t.
Let m' := <[p := parent']> (<[id := t]> m).
Context (Hf : forest m) (Hid : m !! id = None) (Ep : m !! p = Some parent)
  (Hc : t_child_task_ids t = [])
  (Hp' : t_parent_task_id parent' = t_parent_task_id parent)
  (Hc' : t_child_task_ids parent' = t_child_task_ids parent ++ [id]).

Lemma leaf_not_parent : p <> id.
Proof. congruence. Qed.

Lemma leaf_lookup_inv k u :
  m' !! k = Some u ->
  (k = id /\ u = t) \/ (k = p /\ u = parent') \/ (k <> p /\ k <> id /\ m !! k = Some u).
Proof.
  intros [[<- <-]|[? Hk]]%lookup_insert_Some; [by right; left|].
  apply lookup_insert_Some in Hk as [[<- <-]|[? Hk]]; [by left|by right; right].
Qed.

Lemma leaf_lookup_keep k u :
  m !! k = Some u ->
  exists u', m' !! k = Some u' /\ t_parent_task_id u' = t_parent_task_id u
    /\ forall c, c ∈ t_child_task_ids u -> c ∈ t_child_task_ids u'.
Proof.
  intros Hk. unfold m'. destruct (decide (k = p)) as [->|Hkp].
  - simplify_eq. exists parent'. rewrite lookup_insert_eq, Hc'. set_solver.
  - exists u. rewrite !lookup_insert_ne by congruence. done.
Qed.

Lemma leaf_child k u c :
  m' !! k = Some u -> c ∈ t_child_task_ids u ->
  exists tc, m' !! c = Some tc /\ t_parent_task_id tc = k.
Proof.
  intros Hk Hin. pose proof leaf_not_parent as Hpid.
  destruct (decide (c = id)) as [->|Hcid].
  - exists t. unfold m'. rewrite lookup_insert_ne, lookup_insert_eq by done.
    split; [done|].
    destruct (leaf_lookup_inv _ _ Hk) as [[-> ->]|[[-> ->]|(_ & _ & Hk')]];
      [rewrite Hc in Hin; set_solver|done|].
    destruct (forest_child _ Hf _ _ _ Hk' Hin) as (? & ? & _). congruence.
  - assert (exists u0, m !! k = Some u0 /\ c ∈ t_child_task_ids u0) as (u0 & Hk0 & Hin0).
    { destruct (leaf_lookup_inv _ _ Hk) as [[-> ->]|[[-> ->]|(_ & _ & Hk')]];
        [rewrite Hc in Hin; set_solver| |eauto].
      exists parent. split; [done|]. rewrite Hc' in Hin. set_solver. }
    destruct (forest_child _ Hf _ _ _ Hk0 Hin0) as (tc & Ec & <-).
    destruct (leaf_lookup_keep _ _ Ec) as (tc' & ? & ? & _). eauto.
Qed.

Lemma leaf_parent c u :
  m' !! c = Some u -> t_parent_task_id u <> "" ->
  exists q, m' !! t_parent_task_id u = Some q /\ c ∈ t_child_task_ids q.
Proof.
  intros [[-> ->]|[[-> ->]|(_ & _ & Hk)]]%leaf_lookup_inv Hu.
  - exists parent'. unfold m'. fold p. rewrite lookup_insert_eq, Hc'. set_solver.
  - rewrite Hp' in *. destruct (forest_parent _ Hf _ _ Ep Hu) as (q & Eq & ?).
    destruct (leaf_lookup_keep _ _ Eq) as (q' & ? & _ & ?). eauto.
  - destruct (forest_parent _ Hf _ _ Hk Hu) as (q & Eq & ?).
    destruct (leaf_lookup_keep _ _ Eq) as (q' & ? & _ & ?). eauto.
Qed.

Lemma leaf_acyclic :
  exists rank : string -> nat, forall c u,
    m' !! c = Some u -> t_parent_task_id u <> "" -> rank (t_parent_task_id u) < rank c.
Proof.
  destruct (forest_acyclic _ Hf) as [rank Hrank]. pose proof leaf_not_parent as Hpid.
  exists (fun k => if decide (k = id) then S (rank p) else rank k).
  intros c u [[-> ->]|[[-> ->]|(_ & ? & Hk)]]%leaf_lookup_inv Hu.
  - fold p. rewrite decide_False, decide_True by done. lia.
  - rewrite Hp' in *. destruct (forest_parent _ Hf _ _ Ep Hu) as (q & Eq & ?).
    rewrite !decide_False by congruence. by eapply Hrank.
  - destruct (forest_parent _ Hf _ _ Hk Hu) as (q & Eq & ?).
    rewrite !decide_False by congruence. by eapply Hrank.
Qed.

Lemma forest_insert_leaf :
  id <> "" -> t_id t = id -> trim p = p -> t_id parent' = t_id parent -> forest m'.
Proof.
  intros Hne Ht Htr Hi'. split;
    [| | |exact leaf_child|exact leaf_parent|exact leaf_acyclic].
  - intros k u [[-> ->]|[[-> ->]|(_ & _ & Hk)]]%leaf_lookup_inv;
      [done| |by apply (forest_key _ Hf)].
    rewrite Hi'. by apply (forest_key _ Hf).
  - intros k u [[-> ->]|[[-> ->]|(_ & _ & Hk)]]%leaf_lookup_inv; [done| |];
      [rewrite Hp'|]; by eapply (forest_trimmed _ Hf).
  - intros k u [[-> ->]|[[-> ->]|(_ & _ & Hk)]]%leaf_lookup_inv;
      [by rewrite Hc; apply NoDup_nil_2| |by eapply (forest_nodup _ Hf)].
    rewrite Hc'. apply NoDup_app.
    split_and!; [by eapply (forest_nodup _ Hf)| |apply NoDup_singleton].
    intros c Hin Heq. apply list_elem_of_singleton in Heq as ->.
    destruct (forest_child _ Hf _ _ _ Ep Hin) as (? & ? & _). congruence.
Qed.
End leaf.

(** ** Preservation. *)

Lemma edited_links op now t t' :
  (forall input id, op <> OpCreate input id) -> edited op now t t' -> links t' = links t.
Proof.
  intros Hop [Hi _ _ _ _ _ Hc]%edited_effect.
  apply identity_eq in Hi as (? & _ & _ & ?). unfold links.
  destruct Hc as [->|(input & id & -> & _)]; [congruence|]. by destruct (Hop input id).
Qed.

Lemma run_op_dom op now fault st k :
  (forall input id, op <> OpCreate input id) -> forest (inner st) ->
  inner st !! k = None -> inner (run_op op now fault st) !! k = None.
Proof.
  intros Hop Hf E. destruct (op_target op) as [i|] eqn:Ht.
  - rewrite (inner_run_op_target _ _ _ _ _ Ht). unfold edit_map.
    destruct (inner st !! i) as [t|] eqn:Ei; [|done].
    destruct (op_edit op now t) as [[t' []]|]; [| |done]; cbv zeta.
    + pose proof (refresh_lookup (<[i := t']> (inner st)) (t_parent_task_id t') now k) as Hr.
      rewrite lookup_insert_ne, E in Hr by congruence.
      by destruct (refresh_parent_rollup _ _ _ !! k).
    + by rewrite lookup_insert_ne by congruence.
  - destruct op; try done; [by destruct (Hop input id)|].
    rewrite inner_recover. unfold recover_map. cbv zeta.
    pose proof (fun k t H => proj1 (forest_key _ Hf k t H)) as Hkey.
    pose proof (recover_fold_lookup _ (inner st) [] now k
                  (candidates_NoDup is_session_live _ Hkey)) as Hl.
    destruct (foldl _ _ _) as [m1 ps]. cbn [fst snd] in *. rewrite E in Hl.
    apply eq_None_not_Some. intros [t' E'].
    destruct (fmap_lookup_eq life _ m1 k t' (eq_sym (refresh_all_life _ _ _)) E')
      as (u & Eu & _).
    rewrite Eu in Hl. by destruct (decide _).
Qed.

Lemma run_op_links op now fault st :
  (forall input id, op <> OpCreate input id) -> forest (inner st) ->
  links <$> inner (run_op op now fault st) = links <$> inner st.
Proof.
  intros Hop Hf. apply map_eq. intros k. rewrite !lookup_fmap.
  destruct (inner st !! k) as [t|] eqn:E.
  - assert (op_fresh op st) as Hfr by (destruct op; try done; by destruct (Hop input id)).
    destruct (run_op_factor op now fault st Hf Hfr k t E) as (t1 & t' & -> & Hed & Href).
    cbn. f_equal. rewrite <-(edited_links op now t t1 Hop Hed).
    apply life_links. by eapply refreshed_life.
  - by rewrite run_op_dom.
Qed.

Lemma forest_create input id now m :
  forest m -> m !! id = None -> id <> "" -> forest (create_map input id now m).
Proof.
  intros Hf Hid Hne. unfold create_map. cbv zeta.
  destruct (is_empty _) eqn:He.
  { apply is_empty_true in He. by apply forest_insert_root. }
  destruct (m !! trim _) as [parent|] eqn:Ep; [|done].
  destruct (is_some _); [done|].
  destruct (link_child_facts parent id now) as (Hi & _ & _ & _ & Hl).
  destruct Hl as [Hch _].
  { intros Hin. destruct (forest_child _ Hf _ _ _ Ep Hin) as (? & ? & _). congruence. }
  apply identity_eq in Hi as (? & _ & _ & ?).
  eapply forest_links; [apply fmap_life_links, refresh_map_life|].
  eapply (forest_insert_leaf m id (new_task input id now) parent); try done.
  apply trim_idemp.
Qed.

Lemma forest_run_op op now fault st :
  forest (inner st) -> op_fresh op st -> forest (inner (run_op op now fault st)).
Proof.
  intros Hf Hop. destruct op;
    try (eapply forest_links; [by apply run_op_links|done]).
  destruct Hop as (? & ? & ?). rewrite inner_create by done. by apply forest_create.
Qed.

Lemma reachable_is_forest st : reachable st -> forest (inner st).
Proof.
  induction 1 as [fp f|st op now fault Hr IH Hop]; [|by apply forest_run_op].
  cbn [inner]. split; try (intros *; by rewrite lookup_empty).
  exists (fun _ => 0). intros *. by rewrite lookup_empty.
Qed.
End forest.
