(* ===== verification/TaskLifecycle.v ===== *)
(** * The task lifecycle: what sequences of store operations can do to a task.

    [task_step] collects what one operation may do to one task; the theorems lift it
    to sequences: causes of status changes, absorbing statuses, frozen removed tasks,
    immutable identity and sound version checks. *)

From stdpp Require Import prelude strings list gmap sorting relations.
From S2P Require Import Prelude RustStr Proto TaskHelpers TaskStore TaskEdits TaskMachine.
From S2P Require Import TaskEffects TaskForest.

Section lifecycle.
Context `{!TextOps} `{!JsonCodec (list Task)}.
Implicit Types (st : TaskStore) (op : store_op) (m : gmap string Task) (t : Task).

(** One operation, whatever its outcome and whatever the disk does. *)
Definition step st st' : Prop :=
  exists op now fault, op_fresh op st /\ st' = run_op op now fault st.

Lemma reachable_steps st st' : reachable st -> rtc step st st' -> reachable st'.
Proof.
  intros Hr Hs. induction Hs as [|st1 st2 st3 (op & now & fault & Hop & ->) _ IH]; [done|].
  by apply IH, reach_step.
Qed.

(** ** One step: the combined effect of edit and refresh. *)

(** [bumped n t t']: between zero and [n] version increments, and none only
    if nothing changed. *)
Definition bumped (n : nat) t t' : Prop :=
  exists i, i <= n /\ t_version t' = Nat.iter i i64_succ (t_version t) /\ (i = 0 -> t' = t).

Record task_step op t t' : Prop := {
  ts_identity : identity t' = identity t;
  ts_status : t_status t' = t_status t \/ status_cause op t (t_status t');
  ts_frozen z : t_removed_at t = Some z -> t' = t;
  ts_children c : c ∈ t_child_task_ids t -> c ∈ t_child_task_ids t';
  ts_bumped : bumped 2 t t';
}.

Lemma bumped_refl n t : bumped n t t.
Proof. exists 0. split_and!; [lia|done|done]. Qed.

Lemma bumped_one t t' : t' = t \/ t_version t' = i64_succ (t_version t) -> bumped 1 t t'.
Proof.
  intros [->|H1]; [apply bumped_refl|]. exists 1. split_and!; [lia|done|done].
Qed.

Lemma bumped_trans n1 n2 t t1 t' : bumped n1 t t1 -> bumped n2 t1 t' -> bumped (n1 + n2) t t'.
Proof.
  intros (i & Hi & Vi & Ei) (j & Hj & Vj & Ej). exists (j + i).
  split_and!; [lia|by rewrite Vj, Vi, Nat.iter_add|].
  intros H0. rewrite Ej, Ei by lia. done.
Qed.

Lemma refreshed_bumped now t t' : refreshed now t t' -> bumped 1 t t'.
Proof.
  intros [->|(_ & r & ->)]; [apply bumped_refl|]. apply bumped_one, refreshed_parent_version.
Qed.

Lemma run_op_task_step op now fault st k t :
  forest (inner st) -> op_fresh op st -> inner st !! k = Some t ->
  exists t', inner (run_op op now fault st) !! k = Some t' /\ task_step op t t'.
Proof.
  intros Hf Hop E.
  destruct (run_op_factor op now fault st Hf Hop k t E) as (t1 & t' & E' & Hed & Href).
  exists t'. split; [done|].
  destruct (edited_effect _ _ _ _ Hed) as [Hi _ Hv _ Hs _ Hc].
  destruct (life_eq _ _ (refreshed_life _ _ _ Href)) as (Hi' & Hc' & Hr' & Hs' & _).
  split.
  - by rewrite Hi'.
  - by rewrite Hs'.
  - intros z Hz. pose proof (edited_removed _ _ _ _ _ Hed Hz) as ->.
    by eapply refreshed_removed.
  - intros c Hin. rewrite Hc'. destruct Hc as [->|(? & ? & _ & _ & ->)]; set_solver.
  - eapply (bumped_trans 1 1); [by apply bumped_one|by eapply refreshed_bumped].
Qed.

(** ** Sequences of operations. *)

Lemma steps_task_inv (P : Task -> Task -> Prop) :
  (forall t, P t t) ->
  (forall op t t1 t2, P t t1 -> task_step op t1 t2 -> P t t2) ->
  forall st st' k t, reachable st -> rtc step st st' -> inner st !! k = Some t ->
  exists t', inner st' !! k = Some t' /\ P t t'.
Proof.
  intros Hrefl Hstep st st' k t Hr Hs E.
  assert (forall t0, P t0 t -> exists t', inner st' !! k = Some t' /\ P t0 t') as Hgen;
    [|by apply Hgen].
  revert t E. induction Hs as [|st1 st2 st3 (op & now & fault & Hop & ->) _ IH];
    intros t E t0 HP; [eauto|].
  destruct (run_op_task_step op now fault st1 k t (reachable_is_forest _ Hr) Hop E)
    as (t1 & E1 & Hts).
  eapply IH; [by apply reach_step|exact E1|eauto].
Qed.

Lemma terminal_no_cause op t n :
  is_terminal_status (t_status t) = true -> status_cause op t n -> n = t_status t.
Proof.
  intros Hterm Hc.
  destruct Hc as [n r l c _ Ha _|? ? ? _ _ Ho|? ? ? _ _ Ho|? _ _ Hs].
  - unfold is_allowed_transition in Ha. case_decide; [done|].
    by destruct (t_status t).
  - by rewrite open_not_terminal, Hterm in Ho.
  - by rewrite open_not_terminal, Hterm in Ho.
  - by rewrite Hs in Hterm.
Qed.

(** Version counters never repeat before [i64::MAX]. *)
Lemma iter_succ_small i v :
  (i64_min <= v)%Z -> (v + Z.of_nat i <= i64_max)%Z -> Nat.iter i i64_succ v = (v + Z.of_nat i)%Z.
Proof.
  intros Hlo. induction i as [|i IH]; intros Hhi; [simpl; lia|]. rewrite Nat.iter_succ.
  rewrite IH by lia. rewrite i64_succ_small by lia. lia.
Qed.

Lemma bumped_same n t t' :
  (i64_min <= t_version t)%Z -> (t_version t + Z.of_nat n <= i64_max)%Z ->
  bumped n t t' -> t_version t' = t_version t -> t' = t.
Proof.
  intros Hlo Hhi (i & Hi & Hv & Hz) Heq. apply Hz.
  rewrite iter_succ_small in Hv by lia. lia.
Qed.

Lemma nsteps_bumped n st st' k t :
  reachable st -> nsteps step n st st' -> inner st !! k = Some t ->
  exists t', inner st' !! k = Some t' /\ bumped (2 * n) t t'.
Proof.
  revert st st' k t. induction n as [|n IH]; intros st st' k t Hr Hs E.
  { inversion Hs; subst. exists t. split; [done|apply bumped_refl]. }
  inversion Hs as [|? ? st1 ? (op & now & fault & Hop & ->) Hs']; subst.
  pose proof (reachable_is_forest _ Hr) as Hf.
  destruct (run_op_task_step op now fault st k t Hf Hop E) as (t1 & E1 & Hts).
  destruct (IH _ _ _ _ (reach_step _ _ _ _ Hr Hop) Hs' E1) as (t' & E' & Hb).
  exists t'. split; [done|]. replace (2 * S n) with (2 + 2 * n) by lia.
  eapply bumped_trans; [by apply ts_bumped in Hts|done].
Qed.

(** A finished task keeps its status. *)
Lemma steps_terminal st st' k t :
  reachable st -> rtc step st st' -> inner st !! k = Some t ->
  is_terminal_status (t_status t) = true ->
  exists t', inner st' !! k = Some t' /\ t_status t' = t_status t.
Proof.
  intros Hr Hs E Ht.
  destruct (steps_task_inv (fun a b => is_terminal_status (t_status a) = true ->
    t_status b = t_status a)) with (4 := Hs) (5 := E) as (t' & E' & HP); eauto.
  intros op a b c IH Hts Ha. specialize (IH Ha).
  destruct Hts as [_ [->|Hcause] _ _ _]; [done|].
  rewrite <-IH in Ha. by rewrite (terminal_no_cause _ _ _ Ha Hcause).
Qed.

(** The identity of a task never changes. *)
Lemma steps_identity st st' k t :
  reachable st -> rtc step st st' -> inner st !! k = Some t ->
  exists t', inner st' !! k = Some t' /\ identity t' = identity t
    /\ forall c, c ∈ t_child_task_ids t -> c ∈ t_child_task_ids t'.
Proof.
  intros Hr Hs E.
  apply (steps_task_inv (fun a b => identity b = identity a
    /\ forall c, c ∈ t_child_task_ids a -> c ∈ t_child_task_ids b)) with (st := st); auto.
  intros op a b c [IH1 IH2] [Hi _ _ Hc _]. rewrite Hi. auto.
Qed.

(** ** The properties *)

(** The parent and child links of every store the daemon can reach form a
    forest: keys are the task ids, links agree in both directions, child
    lists have no repetition, and no task is its own ancestor. *)
Theorem reachable_forest st : reachable st -> forest (inner st).
Proof. apply reachable_is_forest. Qed.

(** C5: the only ways the status of a task changes are an update by its
    assignee along the transition matrix (completion needing the leftover-scope
    declaration and the confirmation), a cancel or retry of an open task by the
    operator, creator or assignee, and the recovery of an in-progress task whose
    assignee has no live session. *)
Theorem status_changes_have_a_cause op now fault st k t t' :
  reachable st -> op_fresh op st ->
  inner st !! k = Some t -> inner (run_op op now fault st) !! k = Some t' ->
  t_status t' <> t_status t -> status_cause op t (t_status t').
Proof.
  intros Hr%reachable_is_forest Hop E E' Hne.
  destruct (run_op_task_step op now fault st k t Hr Hop E) as (? & ? & [_ [?|?] _ _ _]);
    by simplify_eq.
Qed.

(** Terminal statuses are absorbing: once completed, failed or cancelled, a
    task keeps that status under any sequence of operations. *)
Theorem terminal_is_absorbing st st' k t :
  reachable st -> rtc step st st' -> inner st !! k = Some t ->
  is_terminal_status (t_status t) = true ->
  exists t', inner st' !! k = Some t' /\ t_status t' = t_status t.
Proof. apply steps_terminal. Qed.

(** A removed task never changes again: no operation touches any of its
    fields, whoever calls it. *)
Theorem removed_is_frozen st st' k t z :
  reachable st -> rtc step st st' -> inner st !! k = Some t -> t_removed_at t = Some z ->
  inner st' !! k = Some t.
Proof.
  intros Hr Hs E Ht.
  destruct (steps_task_inv (fun a b => t_removed_at a = Some z -> b = a))
    with (4 := Hs) (5 := E) as (t' & E' & HP); eauto.
  - intros op a b c IH Hts Ha. rewrite (IH Ha) in *. by eapply ts_frozen.
  - by rewrite (HP Ht) in E'.
Qed.

(** Tasks are never lost and their identity (id, title, description,
    assignee, creator, parent, dispatch message, ...) never changes; children
    are only ever added. *)
Theorem identity_is_immutable st st' k t :
  reachable st -> rtc step st st' -> inner st !! k = Some t ->
  exists t', inner st' !! k = Some t' /\ identity t' = identity t
    /\ forall c, c ∈ t_child_task_ids t -> c ∈ t_child_task_ids t'.
Proof. apply steps_identity. Qed.

(** Optimistic concurrency is sound: if a caller read task [t] and, [n]
    operations later, an intervention guarded by [t]'s version is accepted, then
    the task is still exactly the [t] that was read (versions below [i64::MAX]). *)
Theorem expected_version_is_sound n st st' k t ws :
  reachable st -> nsteps step n st st' -> inner st !! k = Some t ->
  (i64_min <= t_version t)%Z -> (t_version t + 2 * Z.of_nat n <= i64_max)%Z ->
  forall t', get_for_intervention k ws (Some (t_version t)) st' = Ok t' ->
  t' = t /\ inner st' !! k = Some t.
Proof.
  intros Hr Hs E Hlo Hhi t' Hget.
  destruct (nsteps_bumped n st st' k t Hr Hs E) as (u & Eu & Hb).
  unfold get_for_intervention in Hget. rewrite Eu in Hget.
  destruct (validate_task_control _ _ _ _) as [[]|] eqn:Hok; [|done].
  apply validate_task_control_ok in Hok as (_ & Hv & _).
  specialize (Hv _ eq_refl). cbn in Hget. destruct (is_open_status _); [|done].
  simplify_eq. pose proof (bumped_same (2 * n) t t' Hlo ltac:(lia) Hb Hv). by subst.
Qed.
End lifecycle.
