(* ===== verification/TaskRollup.v ===== *)
(** * Parent rollups are exact.

    [summarize_task_rollup] counts the children of a parent by status.  The
    store refreshes the rollup of a parent whenever it changes a child, and
    the theorem [reachable_rollup_exact] shows that this is enough: in every
    reachable store the counters of every parent equal the reference counts
    [count_children] over the current statuses of its children. *)

From stdpp Require Import prelude strings list gmap sorting.
From S2P Require Import Prelude RustStr Proto TaskHelpers TaskStore TaskEdits TaskMachine.
From S2P Require Import TaskEffects TaskForest.

Implicit Types (m : gmap string Task) (t : Task) (r : TaskRollup).

(** ** Reference definition. *)

Definition child_is m (f : TaskStatus -> bool) (c : string) : bool :=
  match m !! c with Some t => f (t_status t) | None => false end.
Definition count_children m (f : TaskStatus -> bool) (l : list string) : Z :=
  Z.of_nat (length (List.filter (child_is m f) l)).
Definition is_status (s s' : TaskStatus) : bool := bool_decide (s' = s).
Definition is_active (s : TaskStatus) : bool :=
  match s with Pending | InProgress => true | _ => false end.

(** The counters of a rollup. *)
Definition counters r : list Z * bool :=
  ([total_children r; pending_children r; in_progress_children r; blocked_children r;
    completed_children r; failed_children r; cancelled_children r; terminal_children r;
    active_children r], all_children_terminal r).

Definition reference_counters m (l : list string) : list Z * bool :=
  let n := Z.of_nat (length l) in
  let count f := count_children m f l in
  ([n; count (is_status Pending); count (is_status InProgress); count (is_status Blocked);
    count (is_status Completed); count (is_status Failed); count (is_status Cancelled);
    count is_terminal_status; count is_active],
   (n >? 0)%Z && (count is_terminal_status =? n)%Z).

(** ** The counting loop. *)

Lemma count_child_field (proj : TaskRollup -> Z) (f : TaskStatus -> bool) m :
  (forall r c, proj (count_child m r c) = proj r + Z.b2z (child_is m f c))%Z ->
  forall l r, proj (foldl (count_child m) r l) = (proj r + count_children m f l)%Z.
Proof.
  intros Hstep l. unfold count_children. induction l as [|c l IH]; intros r.
  - cbn. lia.
  - cbn [foldl List.filter]. rewrite IH, Hstep.
    destruct (child_is m f c); cbn [Z.b2z length]; lia.
Qed.

Ltac count_field :=
  intros r c; unfold count_child, child_is; destruct (_ !! c) as [u|]; [|cbn; lia];
  cbv zeta; destruct (t_status u), (last_child_update_at r) eqn:El;
  fsimpl; rewrite ?El; cbv beta iota; try (destruct (_ >? _)%Z); fsimpl;
  match goal with
  | |- context [Z.b2z ?b] => let v := eval vm_compute in b in change b with v
  end; cbn [Z.b2z]; lia.

Lemma count_pending m : forall r c,
  (pending_children (count_child m r c)
   = pending_children r + Z.b2z (child_is m (is_status Pending) c))%Z.
Proof. count_field. Qed.
Lemma count_in_progress m : forall r c,
  (in_progress_children (count_child m r c)
   = in_progress_children r + Z.b2z (child_is m (is_status InProgress) c))%Z.
Proof. count_field. Qed.
Lemma count_blocked m : forall r c,
  (blocked_children (count_child m r c)
   = blocked_children r + Z.b2z (child_is m (is_status Blocked) c))%Z.
Proof. count_field. Qed.
Lemma count_completed m : forall r c,
  (completed_children (count_child m r c)
   = completed_children r + Z.b2z (child_is m (is_status Completed) c))%Z.
Proof. count_field. Qed.
Lemma count_failed m : forall r c,
  (failed_children (count_child m r c)
   = failed_children r + Z.b2z (child_is m (is_status Failed) c))%Z.
Proof. count_field. Qed.
Lemma count_cancelled m : forall r c,
  (cancelled_children (count_child m r c)
   = cancelled_children r + Z.b2z (child_is m (is_status Cancelled) c))%Z.
Proof. count_field. Qed.
Lemma count_terminal m : forall r c,
  (terminal_children (count_child m r c)
   = terminal_children r + Z.b2z (child_is m is_terminal_status c))%Z.
Proof. count_field. Qed.
Lemma count_active m : forall r c,
  (active_children (count_child m r c)
   = active_children r + Z.b2z (child_is m is_active c))%Z.
Proof. count_field. Qed.
Lemma count_total m : forall r c,
  (total_children (count_child m r c)
   = total_children r + Z.b2z (child_is m (fun _ => false) c))%Z.
Proof. count_field. Qed.

Lemma count_children_false m l : count_children m (fun _ => false) l = 0%Z.
Proof.
  unfold count_children. induction l as [|c l IH]; [done|].
  cbn [List.filter]. unfold child_is at 1. by destruct (m !! c).
Qed.

Lemma summarize_counters t m :
  counters <$> summarize_task_rollup t m
  = match t_child_task_ids t with [] => None | l => Some (reference_counters m l) end.
Proof.
  unfold summarize_task_rollup. destruct (t_child_task_ids t) as [|c0 l0]; [done|].
  set (l := c0 :: l0). cbv zeta. cbn [fmap option_fmap option_map].
  set (R := foldl _ _ _). f_equal. unfold counters, reference_counters. fsimpl. cbv zeta.
  unfold R.
  rewrite (count_child_field _ _ m (count_pending m)), (count_child_field _ _ m (count_in_progress m)),
    (count_child_field _ _ m (count_blocked m)), (count_child_field _ _ m (count_completed m)),
    (count_child_field _ _ m (count_failed m)), (count_child_field _ _ m (count_cancelled m)),
    (count_child_field _ _ m (count_terminal m)), (count_child_field _ _ m (count_active m)),
    (count_child_field _ _ m (count_total m)), count_children_false.
  cbn [rollup_zero total_children pending_children in_progress_children blocked_children
    completed_children failed_children cancelled_children terminal_children active_children].
  by rewrite Z.add_0_r, !Z.add_0_l.
Qed.

(** ** The invariant. *)

Definition rollup_exact m t : Prop :=
  counters <$> t_rollup t
  = match t_child_task_ids t with [] => None | l => Some (reference_counters m l) end.

Definition rollups_exact m : Prop :=
  forall k t, m !! k = Some t -> t_removed_at t = None -> rollup_exact m t.

Lemma count_children_ext m m' f l :
  (forall c, c ∈ l -> t_status <$> m !! c = t_status <$> m' !! c) ->
  count_children m f l = count_children m' f l.
Proof.
  intros Heq. unfold count_children. do 2 f_equal. apply List.filter_ext_in.
  intros c Hc%list_elem_of_In. unfold child_is. specialize (Heq c Hc).
  destruct (m !! c), (m' !! c); try done. apply (inj Some) in Heq. by rewrite Heq.
Qed.

Lemma rollup_exact_ext m m' t t' :
  t_rollup t' = t_rollup t -> t_child_task_ids t' = t_child_task_ids t ->
  (forall c, c ∈ t_child_task_ids t -> t_status <$> m !! c = t_status <$> m' !! c) ->
  rollup_exact m t -> rollup_exact m' t'.
Proof.
  unfold rollup_exact. intros -> -> Heq ->.
  destruct (t_child_task_ids t) as [|c l]; [done|]. unfold reference_counters. cbv zeta.
  by rewrite !(count_children_ext m m').
Qed.

Lemma life_status_lookup m m' c :
  life <$> m' = life <$> m -> t_status <$> m !! c = t_status <$> m' !! c.
Proof.
  intros Heq%(f_equal (lookup c)). rewrite !lookup_fmap in Heq.
  destruct (m !! c), (m' !! c); try done.
  apply (inj Some), life_eq in Heq as (_ & _ & _ & Heq & _). cbn. by rewrite Heq.
Qed.

(** A refreshed parent is exact. *)
Lemma refresh_exact m p now t :
  trim p = p -> p <> "" -> refresh_parent_rollup m p now !! p = Some t ->
  t_removed_at t = None -> rollup_exact m t.
Proof.
  intros Htr Hne. unfold refresh_parent_rollup. cbv zeta. rewrite Htr.
  rewrite (proj2 (is_empty_false p) Hne).
  destruct (m !! p) as [t0|] eqn:E; [|congruence].
  destruct (t_removed_at t0) eqn:Er; cbn [is_some]; [congruence|].
  rewrite lookup_insert_eq. intros [= <-] _. unfold rollup_exact.
  rewrite refreshed_parent_rollup, summarize_counters.
  by destruct (life_eq _ _ (refreshed_parent_life t0 (summarize_task_rollup t0 m) now))
    as (_ & -> & _).
Qed.

Lemma refresh_all_exact ps now m k t :
  NoDup ps -> (forall p, p ∈ ps -> trim p = p) -> k ∈ ps -> k <> "" ->
  refresh_all ps now m !! k = Some t -> t_removed_at t = None -> rollup_exact m t.
Proof.
  revert m. induction ps as [|p ps IH]; intros m Hnd Htr Hk Hne E Hrem; [set_solver|].
  apply NoDup_cons in Hnd as [Hp Hnd]. unfold refresh_all in E. cbn [foldl] in E.
  fold (refresh_all ps now (refresh_parent_rollup m p now)) in E.
  destruct (decide (k = p)) as [->|Hkp].
  - destruct (refresh_parent_rollup m p now !! p) as [t1|] eqn:E1.
    + destruct (refresh_all_lookup ps now _ p t1 Hnd ltac:(set_solver) E1) as (t' & E' & _ & U).
      rewrite (U Hp) in E'. simplify_eq. eapply refresh_exact; eauto.
    + destruct (fmap_lookup_eq life _ (refresh_parent_rollup m p now) p t
        (eq_sym (refresh_all_life _ _ _)) E) as (? & ? & _). congruence.
  - eapply rollup_exact_ext; [done|done| |eapply (IH (refresh_parent_rollup m p now));
      eauto; set_solver].
    intros c _. apply life_status_lookup, eq_sym, refresh_map_life.
Qed.

Lemma rollups_exact_refresh ps now m :
  NoDup ps -> (forall p, p ∈ ps -> trim p = p) -> m !! "" = None ->
  (forall k t, m !! k = Some t -> t_removed_at t = None -> k ∉ ps -> rollup_exact m t) ->
  rollups_exact (refresh_all ps now m).
Proof.
  intros Hnd Htr H0 Hout k t E Hrem.
  destruct (fmap_lookup_eq life _ m k t (eq_sym (refresh_all_life ps now m)) E)
    as (t0 & E0 & Hl).
  assert (k <> "") by congruence.
  eapply rollup_exact_ext; [done|done|intros c _; by apply life_status_lookup, refresh_all_life|].
  destruct (decide (k ∈ ps)) as [Hin|Hin].
  - by eapply refresh_all_exact.
  - destruct (refresh_all_lookup ps now m k t0 Hnd Htr E0) as (t' & E' & _ & U).
    rewrite (U Hin) in E'. simplify_eq. eauto.
Qed.

(** ** Every operation refreshes the parents whose counters it invalidates. *)

Section preserve.
Context `{!TextOps} `{!JsonCodec (list Task)}.
Implicit Types (st : TaskStore) (op : store_op).

Lemma forest_no_empty m : forest m -> m !! "" = None.
Proof.
  intros Hf. destruct (m !! "") as [t|] eqn:E; [|done].
  by apply (forest_key _ Hf) in E as [_ ?].
Qed.

Lemma forest_child_parent m k t c tc :
  forest m -> m !! k = Some t -> c ∈ t_child_task_ids t -> m !! c = Some tc ->
  t_parent_task_id tc = k.
Proof.
  intros Hf E Hc Ec. destruct (forest_child _ Hf _ _ _ E Hc) as (? & ? & ?). by simplify_eq.
Qed.

Lemma forest_not_own_parent m k t :
  forest m -> m !! k = Some t -> t_parent_task_id t <> k.
Proof.
  intros Hf E Hp. destruct (forest_acyclic _ Hf) as [rank Hrank].
  assert (k <> "") as Hk by (by apply (forest_key _ Hf) in E as [_ ?]).
  specialize (Hrank k t E ltac:(congruence)). rewrite Hp in Hrank. lia.
Qed.

Lemma op_edit_no_refresh op now t t' :
  op_edit op now t = Some (t', false) -> t_status t' = t_status t.
Proof.
  destruct op; cbn [op_edit]; try done.
  - destruct (is_ok _); [|done].
    pose proof (edit_unchanged _ _ (update_edits_ok t status result log_msg workspace now)) as Hu.
    destruct (update_edits _ _ _ _ _ _) as [u []]; intros [= <-].
    by specialize (Hu eq_refl) as [= ->].
  - by destruct (_ && _).
  - by destruct (_ && _).
  - by destruct (_ && _).
  - destruct (_ || _); intros [= <-]. reflexivity.
  - destruct (_ || _); intros [= <-]. reflexivity.
Qed.

Lemma rollups_exact_target op now m id :
  forest m -> rollups_exact m -> op_target op = Some id ->
  rollups_exact (edit_map op now id m).
Proof.
  intros Hf Hex Hop. unfold edit_map. destruct (m !! id) as [t|] eqn:E; [|done].
  destruct (op_edit op now t) as [[t' b]|] eqn:Eo; [|done]. cbv zeta.
  destruct (edit_effect_target op now t t' b) as [Hi Hro _ Hlive _ _ Hch]; [|done|].
  { by apply (forest_key _ Hf) in E as [-> _]. }
  destruct Hch as [Hch|(? & ? & -> & _)]; [|done].
  apply identity_eq in Hi as (_ & _ & _ & Hpar).
  assert ((if b then refresh_parent_rollup (<[id:=t']> m) (t_parent_task_id t') now
           else <[id:=t']> m)
          = refresh_all (if b then [t_parent_task_id t] else []) now (<[id:=t']> m)) as ->.
  { rewrite Hpar. by destruct b. }
  assert (id <> "") by (by apply (forest_key _ Hf) in E as [_ ?]).
  apply rollups_exact_refresh.
  - destruct b; [apply NoDup_singleton|apply NoDup_nil_2].
  - intros p Hp. assert (p = t_parent_task_id t) as -> by (destruct b; set_solver).
    by eapply (forest_trimmed _ Hf).
  - rewrite lookup_insert_ne by done. by apply forest_no_empty.
  - intros k u Hk Hrem Hnin.
    assert (exists u0, m !! k = Some u0 /\ t_removed_at u0 = None /\ t_rollup u = t_rollup u0
      /\ t_child_task_ids u = t_child_task_ids u0) as (u0 & Ek & Hr0 & Hro0 & Hc0).
    { apply lookup_insert_Some in Hk as [[<- <-]|[_ Hk]]; [|by exists u].
      exists t. split_and!; [done| |done|done]. destruct Hlive; congruence. }
    eapply rollup_exact_ext; [done|done| |by eapply (Hex k)].
    intros c Hc. destruct (decide (c = id)) as [->|]; [|by rewrite lookup_insert_ne].
    pose proof (forest_child_parent _ _ _ _ _ Hf Ek Hc E) as Hp.
    rewrite lookup_insert_eq, E. destruct b; [set_solver|].
    cbn. by rewrite (op_edit_no_refresh _ _ _ _ Eo).
Qed.

Lemma rollups_exact_create input id now m :
  forest m -> rollups_exact m -> m !! id = None -> id <> "" ->
  rollups_exact (create_map input id now m).
Proof.
  intros Hf Hex Hid Hne.
  assert (forall k t, m !! k = Some t -> id ∉ t_child_task_ids t) as Hnew.
  { intros k t E Hin. destruct (forest_child _ Hf _ _ _ E Hin) as (? & ? & _). congruence. }
  assert (forall k t m', m !! k = Some t -> t_removed_at t = None ->
    (forall c, c <> id -> t_status <$> m !! c = t_status <$> m' !! c) ->
    rollup_exact m' t) as Hold.
  { intros k t m' E Hr Heq. eapply rollup_exact_ext; [done|done| |by eapply Hex].
    intros c Hc. apply Heq. intros ->. by eapply Hnew. }
  unfold create_map. cbv zeta. destruct (is_empty _) eqn:He.
  { intros k t [[<- <-]|[Hk E]]%lookup_insert_Some Hr; [done|].
    eapply Hold; [done..|]. intros c Hc. by rewrite lookup_insert_ne. }
  destruct (m !! trim _) as [parent|] eqn:Ep; [|done].
  destruct (t_removed_at parent) eqn:Erp; cbn [is_some]; [done|].
  set (p := trim _) in *. set (m1 := <[p := _]> _).
  change (refresh_parent_rollup m1 p now) with (refresh_all [p] now m1).
  apply is_empty_false in He. apply rollups_exact_refresh.
  - apply NoDup_singleton.
  - intros q ->%list_elem_of_singleton. apply trim_idemp.
  - unfold m1. rewrite !lookup_insert_ne by done. by apply forest_no_empty.
  - intros k t Hk Hr Hkp. apply not_elem_of_cons in Hkp as [Hkp _].
    unfold m1 in Hk. rewrite lookup_insert_ne in Hk by done.
    apply lookup_insert_Some in Hk as [[<- <-]|[Hk E]]; [done|].
    eapply Hold; [done..|]. intros c Hc. unfold m1.
    destruct (decide (c = p)) as [->|]; [|by rewrite !lookup_insert_ne].
    rewrite lookup_insert_eq, Ep. cbn.
    destruct (link_child_facts parent id now) as (_ & _ & -> & _). done.
Qed.

Lemma recover_fold_complete ids m ps now i t :
  i ∈ ids -> m !! i = Some t -> t_parent_task_id t <> "" ->
  t_parent_task_id t ∈ snd (foldl (recover_one now) (m, ps) ids).
Proof.
  assert (forall ids m ps p, p ∈ ps -> p ∈ snd (foldl (recover_one now) (m, ps) ids)) as Hmono.
  { clear. intros ids. induction ids as [|j ids IH]; intros m ps p Hp; [done|].
    cbn [foldl]. unfold recover_one at 2. destruct (m !! j); cbv zeta; [|by apply IH].
    apply IH. destruct (is_empty _); set_solver. }
  assert (forall u, t_parent_task_id (recovered_task u now) = t_parent_task_id u) as Hpar.
  { intros u. by apply identity_eq, recovered_task_facts. }
  revert m ps t. induction ids as [|j ids IH]; intros m ps t Hi E Hp; [set_solver|].
  cbn [foldl]. unfold recover_one at 2.
  destruct (decide (i = j)) as [->|Hij].
  - rewrite E. cbv zeta. apply Hmono. rewrite Hpar.
    rewrite (proj2 (is_empty_false _) Hp). set_solver.
  - apply elem_of_cons in Hi as [|Hi]; [done|].
    destruct (m !! j) as [u|]; cbv zeta; [|by apply IH].
    apply IH; [done|by rewrite lookup_insert_ne|done].
Qed.

Lemma rollups_exact_recover live now m :
  forest m -> rollups_exact m -> rollups_exact (recover_map live now m).
Proof.
  intros Hf Hex. unfold recover_map. cbv zeta.
  pose proof (fun k t H => proj1 (forest_key _ Hf k t H)) as Hkey.
  pose proof (fun k => recover_fold_lookup _ m [] now k (candidates_NoDup live m Hkey)) as Hl.
  pose proof (recover_fold_parents (candidates live m) m [] now) as Hps.
  pose proof (recover_fold_complete (candidates live m) m [] now) as Hcomp.
  destruct (foldl _ _ _) as [m1 ps]. cbn [fst snd] in *.
  apply rollups_exact_refresh.
  - apply sort_dedup_NoDup.
  - intros p Hp%elem_of_sort_dedup%Hps. destruct Hp as [Hp|(? & ? & ? & ->)]; [set_solver|].
    by eapply forest_trimmed.
  - rewrite Hl, forest_no_empty by done. by destruct (decide _).
  - intros k u Hk Hrem Hnin. rewrite elem_of_sort_dedup in Hnin. rewrite Hl in Hk.
    assert (exists u0, m !! k = Some u0 /\ t_removed_at u0 = None /\ t_rollup u = t_rollup u0
      /\ t_child_task_ids u = t_child_task_ids u0) as (u0 & Ek & Hr0 & Hro0 & Hc0).
    { destruct (decide _); [|by exists u].
      destruct (m !! k) as [u0|]; [|done]. injection Hk as <-. exists u0.
      destruct (recovered_task_facts u0 now) as (_ & ? & ? & _ & _ & ? & _).
      split_and!; congruence. }
    eapply rollup_exact_ext; [done|done| |by eapply (Hex k)].
    intros c Hc. rewrite Hl. destruct (decide (c ∈ _)) as [Hcand|]; [|done].
    exfalso. apply Hnin.
    destruct (forest_child _ Hf _ _ _ Ek Hc) as (tc & Ec & Hpc). rewrite <-Hpc.
    apply (Hcomp c tc Hcand Ec). rewrite Hpc. by apply (forest_key _ Hf) in Ek as [_ ?].
Qed.

Lemma rollups_exact_run_op op now fault st :
  forest (inner st) -> op_fresh op st -> rollups_exact (inner st) ->
  rollups_exact (inner (run_op op now fault st)).
Proof.
  intros Hf Hop Hex.
  destruct op; try (erewrite inner_run_op_target by reflexivity; by apply rollups_exact_target).
  - destruct Hop as (? & ? & ?). rewrite inner_create by done. by apply rollups_exact_create.
  - rewrite inner_recover. by apply rollups_exact_recover.
Qed.

Lemma reachable_rollups_exact st : reachable st -> rollups_exact (inner st).
Proof.
  induction 1 as [fp f|st op now fault Hr IH Hop].
  { intros k t. cbn [inner]. by rewrite lookup_empty. }
  by apply rollups_exact_run_op; [apply reachable_is_forest|..].
Qed.

(** C4: in every reachable store the rollup of a live task is exact: it is absent
    iff the task has no children, and otherwise each counter is the number of
    children that currently have that status, and [all_children_terminal] says
    whether they are all terminal. *)
Theorem reachable_rollup_exact st k t :
  reachable st -> inner st !! k = Some t -> t_removed_at t = None ->
  counters <$> t_rollup t
  = match t_child_task_ids t with
    | [] => None
    | l => Some (reference_counters (inner st) l)
    end.
Proof. intros Hr. by apply reachable_rollups_exact. Qed.
End preserve.
