(* ===== verification/TaskPersist.v ===== *)
(** * Outcomes and persistence of the task store.

    Rejected operations change nothing; without I/O faults the file always
    holds the store, so [load] after a crash rebuilds it exactly. *)

From stdpp Require Import prelude strings list gmap sorting.
From S2P Require Import Prelude RustStr Proto TaskHelpers TaskStore TaskEdits TaskMachine.
From S2P Require Import TaskEffects TaskForest.

Section persist.
Context `{!TextOps} `{!JsonCodec (list Task)}.
Implicit Types (st : TaskStore) (op : store_op) (m : gmap string Task) (t : Task).

(** ** Outcomes *)

Definition error_of {A} (r : Prelude.result TaskStoreError A) : option TaskStoreError :=
  match r with Ok _ => None | Err e => Some e end.

(** The error an operation returns to its caller ([mark_tool_activity],
    [record_dispatch] and recovery return none). *)
Definition op_error op now fault st : option TaskStoreError :=
  match op with
  | OpCreate input id => error_of (create input id now fault st).1
  | OpUpdate id s r l c ws => error_of (update_with_confirm id s r l c ws now fault st).1
  | OpCancel id reason ws ev => error_of (cancel id reason ws ev now fault st).1
  | OpRemove id reason ws ev => error_of (remove id reason ws ev now fault st).1
  | OpRetry id note ws ev => error_of (retry id note ws ev now fault st).1
  | OpToolActivity _ _ _ | OpDispatch _ _ _ | OpRecover _ => None
  end.

(** The errors of [persist_locked]. *)
Definition is_persist_error (e : TaskStoreError) : bool :=
  match e with EncodeError | PersistError _ => true | _ => false end.

Lemma commit_outcome fault st m id t :
  m !! id = Some t ->
  (commit fault st m id).2 = (persist_locked fault (st <| inner := m |>)).2
  /\ match (commit fault st m id).1 with
     | Ok t' => t' = t
     | Err e => is_persist_error e = true
     end.
Proof.
  intros E. unfold commit. pose proof (inner_persist fault (st <| inner := m |>)) as Hi.
  destruct (persist_locked fault (st <| inner := m |>)) as [[u|e] st'] eqn:Hp;
    cbn [fst snd] in *.
  - rewrite Hi. fsimpl. rewrite E. done.
  - split; [done|]. unfold persist_locked in Hp. by repeat case_match; simplify_eq.
Qed.

Lemma refresh_insert_lookup m id t p now :
  exists t', refresh_parent_rollup (<[id := t]> m) p now !! id = Some t'.
Proof.
  destruct (refresh_lookup_Some (<[id := t]> m) p now id t) as (t' & ? & _); eauto.
  apply lookup_insert_eq.
Qed.

(** The end state of an operation: unchanged, or the persisted image of the
    map it leaves in memory; rejections leave the store unchanged. *)
Record outcome (st st' : TaskStore) (fault : option string) (err : option TaskStoreError)
  : Prop := {
  oc_state : st' = st \/ exists m, st' = (persist_locked fault (st <| inner := m |>)).2;
  oc_error e : err = Some e -> is_persist_error e = true \/ (st' = st /\ e <> Panicked);
}.

Lemma outcome_reject st fault e : e <> Panicked -> outcome st st fault (Some e).
Proof. intros He. split; [by left|]. intros ? [= <-]. by right. Qed.

Lemma outcome_commit fault st m id t :
  m !! id = Some t ->
  outcome st (commit fault st m id).2 fault (error_of (commit fault st m id).1).
Proof.
  intros E. destruct (commit_outcome fault st m id t E) as [Hs Hr]. split.
  - right. by exists m.
  - intros e. destruct (commit fault st m id).1; cbn; [done|]. intros [= <-]. by left.
Qed.

Lemma set_inner_id st : st <| inner := inner st |> = st.
Proof. by destruct st. Qed.

(** The end of the operations that edit one task and refresh its parent. *)
Lemma outcome_edit fault st id t p now :
  let r := commit fault st (refresh_parent_rollup (<[id := t]> (inner st)) p now) id in
  outcome st r.2 fault (error_of r.1).
Proof.
  cbv zeta. destruct (refresh_insert_lookup (inner st) id t p now) as [t' E].
  by eapply outcome_commit.
Qed.

Lemma outcome_update id s r l c ws now fault st :
  let o := update_with_confirm id s r l c ws now fault st in
  outcome st o.2 fault (error_of o.1).
Proof.
  cbv zeta. unfold update_with_confirm.
  destruct (inner st !! id) as [t|] eqn:E; [|by apply outcome_reject].
  destruct (validate_task_update _ _ _ _ _) as [|e] eqn:Hv.
  - pose proof (edit_unchanged _ _ (update_edits_ok t s r l ws now)) as Hu.
    destruct (update_edits _ _ _ _ _ _) as [t' []]; cbv zeta; [by apply outcome_edit|].
    specialize (Hu eq_refl) as [= ->]. rewrite insert_id by done. rewrite set_inner_id, E.
    split; [by left|done].
  - apply outcome_reject. unfold validate_task_update in Hv. by repeat case_match; simplify_eq.
Qed.

Lemma validate_task_control_error t ws ev b e :
  validate_task_control t ws ev b = Err e -> e <> Panicked.
Proof. unfold validate_task_control. intros ?. by repeat case_match; simplify_eq. Qed.

Lemma outcome_create input id now fault st :
  inner st !! id = None -> id <> trim (ct_parent_task_id input) ->
  let o := create input id now fault st in outcome st o.2 fault (error_of o.1).
Proof.
  intros Hid Hne. cbv zeta. unfold create. cbv zeta.
  change (t_parent_task_id (new_task input id now)) with (trim (ct_parent_task_id input)).
  destruct (is_empty _); [eapply outcome_commit, lookup_insert_eq|].
  rewrite lookup_insert_ne by done.
  destruct (inner st !! trim _) as [parent|] eqn:E;
    [destruct (is_some _)|]; rewrite ?delete_insert_id, ?set_inner_id by done;
    [by apply outcome_reject| |by apply outcome_reject].
  edestruct (refresh_lookup_Some (<[trim (ct_parent_task_id input) := link_child parent id now]>
    (<[id := new_task input id now]> (inner st))) (trim (ct_parent_task_id input)) now id)
    as (t' & Et & _); [|by eapply outcome_commit].
  rewrite lookup_insert_ne by done. apply lookup_insert_eq.
Qed.

Lemma run_op_outcome op now fault st :
  op_fresh op st -> outcome st (run_op op now fault st) fault (op_error op now fault st).
Proof.
  intros Hop. destruct op; cbn [run_op op_error].
  - destruct Hop as (? & ? & ?). by apply outcome_create.
  - apply outcome_update.
  - unfold cancel. destruct (inner st !! id); [|by apply outcome_reject].
    destruct (validate_task_control _ _ _ _) as [|e] eqn:Hv;
      [|by eapply outcome_reject, validate_task_control_error].
    destruct (is_terminal_status _); [by apply outcome_reject|]. cbv zeta. apply outcome_edit.
  - unfold remove. destruct (inner st !! id); [|by apply outcome_reject].
    destruct (validate_task_control _ _ _ _) as [|e] eqn:Hv;
      [|by eapply outcome_reject, validate_task_control_error].
    destruct (is_some _); [by split; [left|]|].
    destruct (negb _); [by apply outcome_reject|]. cbv zeta. apply outcome_edit.
  - unfold retry. destruct (inner st !! id); [|by apply outcome_reject].
    destruct (validate_task_control _ _ _ _) as [|e] eqn:Hv;
      [|by eapply outcome_reject, validate_task_control_error].
    destruct (negb _); [by apply outcome_reject|]. cbv zeta. apply outcome_edit.
  - unfold mark_tool_activity. destruct (inner st !! id); [|by split; [left|]].
    destruct (_ || _); [by split; [left|]|]. cbv zeta. split; [right; by eexists|done].
  - unfold record_dispatch. destruct (inner st !! id); [|by split; [left|]].
    destruct (_ || _); [by split; [left|]|]. cbv zeta. split; [right; by eexists|done].
  - unfold recover_stale_in_progress. cbv zeta.
    destruct (t_id <$> _) as [|i ids]; [by split; [left|]|].
    destruct (foldl _ _ _) as [m ps]. split; [right; by eexists|done].
Qed.

(** C7: an operation that is refused for any reason other than a failed write
    leaves the whole store untouched, and no operation hits an internal
    [expect]. *)
Theorem rejected_operations_change_nothing op now fault st e :
  op_fresh op st -> op_error op now fault st = Some e ->
  is_persist_error e = true \/ (run_op op now fault st = st /\ e <> Panicked).
Proof. intros Hop. apply (oc_error _ _ _ _ (run_op_outcome op now fault st Hop)). Qed.

(** ** The file *)

(** What the file must hold for a restart to rebuild the store. *)
Definition persisted_tasks m : list Task :=
  merge_sort task_id_le (clear_derived_fields <$> btree_values m).

(** The store a restart builds from what is on disk. *)
Definition reload (path : string) (st : TaskStore) : Prelude.result TaskStoreError TaskStore :=
  load path path (Ok <$> file st) None.

Lemma clear_derived_id t : t_sequence t = None -> t_stale_info t = None ->
  clear_derived_fields t = t.
Proof. destruct t; cbn. intros -> ->. reflexivity. Qed.

Lemma load_fold_lookup l m0 k :
  NoDup (t_id <$> l) ->
  foldl (fun m t => <[t_id t := clear_derived_fields t]> m) m0 l !! k
  = match list_find (fun t => t_id t = k) l with
    | Some (_, t) => Some (clear_derived_fields t)
    | None => m0 !! k
    end.
Proof.
  revert m0. induction l as [|t l IH]; intros m0 Hnd; [done|].
  cbn [fmap list_fmap] in Hnd. apply NoDup_cons in Hnd as [Ht Hnd].
  cbn [foldl list_find]. rewrite IH by done.
  destruct (decide (t_id t = k)) as [<-|Hne].
  - assert (list_find (fun u => t_id u = t_id t) l = None) as ->; [|by rewrite lookup_insert_eq].
    apply list_find_None, Forall_forall. intros u Hu Heq. apply Ht, list_elem_of_fmap. eauto.
  - rewrite lookup_insert_ne by done.
    by destruct (list_find _ l) as [[]|].
Qed.

Lemma list_find_unique (l : list Task) k t :
  NoDup (t_id <$> l) -> t ∈ l -> t_id t = k ->
  exists i, list_find (fun t => t_id t = k) l = Some (i, t).
Proof.
  induction l as [|u l IH]; intros Hnd Hin Hk; [by apply not_elem_of_nil in Hin|].
  cbn [fmap list_fmap] in Hnd. apply NoDup_cons in Hnd as [Hu Hnd]. cbn [list_find].
  destruct (decide (t_id u = k)) as [Huk|Huk].
  - exists 0. apply elem_of_cons in Hin as [->|Hin]; [done|].
    exfalso. apply Hu, list_elem_of_fmap. exists t. split; congruence.
  - apply elem_of_cons in Hin as [->|Hin]; [done|].
    destruct (IH Hnd Hin Hk) as [i ->]. by exists (S i).
Qed.

(** Tasks in memory carry no derived fields. *)
Definition underived m : Prop :=
  forall k t, m !! k = Some t -> t_sequence t = None /\ t_stale_info t = None.

Lemma btree_values_ids m :
  (forall k t, m !! k = Some t -> t_id t = k) -> t_id <$> btree_values m = btree_keys m.
Proof.
  intros Hkey. unfold btree_values, btree_keys. rewrite <-list_fmap_compose.
  apply list_fmap_ext. intros i [k t] Hi. cbn. apply Hkey, elem_of_btree_to_list.
  by eapply list_elem_of_lookup_2.
Qed.

Lemma load_persisted m :
  (forall k t, m !! k = Some t -> t_id t = k) -> underived m ->
  foldl (fun m t => <[t_id t := clear_derived_fields t]> m) ∅ (persisted_tasks m) = m.
Proof.
  intros Hkey Hund. unfold persisted_tasks.
  assert (clear_derived_fields <$> btree_values m = btree_values m) as ->.
  { rewrite <-(list_fmap_id (btree_values m)) at 2. apply list_fmap_ext.
    intros i t [k Hk]%list_elem_of_lookup_2%elem_of_btree_values.
    destruct (Hund _ _ Hk). by apply clear_derived_id. }
  assert (NoDup (t_id <$> merge_sort task_id_le (btree_values m))) as Hnd.
  { rewrite merge_sort_Permutation, btree_values_ids by done. apply btree_keys_NoDup. }
  apply map_eq. intros k. rewrite load_fold_lookup by done.
  destruct (list_find _ _) as [[i t]|] eqn:Hfind.
  - apply list_find_Some in Hfind as (Hi & Hk & _).
    apply list_elem_of_lookup_2 in Hi. rewrite merge_sort_Permutation in Hi.
    apply elem_of_btree_values in Hi as [k' Hk'].
    destruct (Hund _ _ Hk'). rewrite clear_derived_id by done.
    rewrite <-Hk, (Hkey _ _ Hk'). done.
  - rewrite lookup_empty. destruct (m !! k) as [t|] eqn:E; [|done].
    destruct (list_find_unique (merge_sort task_id_le (btree_values m)) k t Hnd)
      as [i Hi]; [|by eapply Hkey|congruence].
    rewrite merge_sort_Permutation. apply elem_of_btree_values. eauto.
Qed.

Context `{!JsonCodecOk (list Task)}.

Lemma reload_persist path st st' :
  (forall k t, inner st !! k = Some t -> t_id t = k) -> underived (inner st) ->
  file_path st = Some path -> persist_locked None st = (Ok tt, st') -> reload path st' = Ok st'.
Proof.
  intros Hkey Hund Hp. unfold persist_locked. rewrite Hp. cbv zeta.
  fold (persisted_tasks (inner st)).
  destruct (to_vec _) as [b|] eqn:Eb; [|done]. intros [= <-].
  unfold reload, load. fsimpl. cbn [fmap option_fmap option_map].
  cbn [mbind result_bind]. rewrite (proj2 (is_empty_false b) (to_vec_nonempty _ _ Eb)).
  rewrite (from_slice_to_vec _ _ Eb). cbn. rewrite load_persisted by done.
  destruct st; cbn in *. by rewrite Hp.
Qed.

Lemma identity_derived t t' :
  identity t' = identity t ->
  t_sequence t' = t_sequence t /\ t_stale_info t' = t_stale_info t.
Proof. unfold identity. intros Heq. by simplify_eq. Qed.

Lemma run_op_underived op now fault st :
  forest (inner st) -> op_fresh op st -> underived (inner st) ->
  underived (inner (run_op op now fault st)).
Proof.
  intros Hf Hop Hund k t' E'.
  destruct (inner st !! k) as [t|] eqn:E.
  - destruct (run_op_factor op now fault st Hf Hop k t E) as (t1 & u & Eu & Hed & Href).
    simplify_eq. apply edited_effect in Hed as [Hi _ _ _ _ _ _].
    apply refreshed_life, life_eq in Href as [Hi' _]. rewrite Hi in Hi'.
    destruct (Hund _ _ E). apply identity_derived in Hi' as [-> ->]. done.
  - destruct op;
      try (rewrite (run_op_dom _ now fault st k) in E' by done; discriminate E').
    destruct Hop as (Hid & _ & Hne). rewrite inner_create in E' by done.
    unfold create_map in E'. cbv zeta in E'.
    assert (forall m, m !! k = Some t' -> m = <[id:=new_task input id now]> (inner st) ->
      t_sequence t' = None /\ t_stale_info t' = None) as Hnew.
    { intros m Hm ->. apply lookup_insert_Some in Hm as [[_ <-]|[_ ?]]; [done|congruence]. }
    destruct (is_empty _); [by eapply Hnew|].
    destruct (inner st !! trim _) as [p|] eqn:Ep; [|congruence].
    destruct (is_some _); [congruence|].
    set (m1 := <[_ := _]> (<[_ := _]> _)) in *.
    destruct (fmap_lookup_eq life _ m1 k t' (eq_sym (refresh_map_life _ _ _)) E')
      as (u & Eu & Hl).
    apply life_eq in Hl as [[Hs1 Hs2]%identity_derived _]. rewrite <-Hs1, <-Hs2.
    unfold m1 in Eu. rewrite lookup_insert_ne in Eu by congruence.
    apply lookup_insert_Some in Eu as [[_ <-]|[_ ?]]; [done|congruence].
Qed.

Lemma file_path_persist fault st : file_path (persist_locked fault st).2 = file_path st.
Proof. unfold persist_locked. by repeat case_match. Qed.

(** A history in which every write succeeds. *)
Inductive reachable_clean (path : string) : TaskStore -> Prop :=
| clean_init : reachable_clean path (mkTaskStore (Some path) ∅ None)
| clean_step st op now :
    reachable_clean path st -> op_fresh op st ->
    reachable_clean path (run_op op now None st).

Lemma clean_reachable path st : reachable_clean path st -> reachable st.
Proof. induction 1; by constructor. Qed.

Lemma clean_invariant path st :
  (forall l : list Task, is_Some (to_vec l)) -> reachable_clean path st ->
  file_path st = Some path /\ underived (inner st) /\ reload path st = Ok st.
Proof.
  intros Henc Hr. induction Hr as [|st op now Hr (Hp & Hund & Hre) Hop].
  { split_and!; [done| |done]. intros k t. cbn [inner]. by rewrite lookup_empty. }
  pose proof (reachable_is_forest _ (clean_reachable _ _ Hr)) as Hf.
  pose proof (run_op_underived op now None st Hf Hop Hund) as Hund'.
  pose proof (forest_run_op op now None st Hf Hop) as Hf'.
  destruct (oc_state _ _ _ _ (run_op_outcome op now None st Hop)) as [->|[m Hm]]; [done|].
  rewrite Hm in *. rewrite file_path_persist. rewrite inner_persist in *.
  split_and!; [done|done|].
  eapply (reload_persist _ (st <| inner := m |>)); [|done|done|].
  - intros k t E. by apply (forest_key _ Hf') in E as [? _].
  - unfold persist_locked. fsimpl. rewrite Hp. cbv zeta.
    destruct (Henc (merge_sort task_id_le (clear_derived_fields <$> btree_values m))) as [b ->].
    done.
Qed.

(** C6: as long as writes succeed, the file is always a complete image of the
    store: a daemon that crashes after any operation and loads the file gets back
    exactly the store it had. *)
Theorem restart_restores_the_store path st :
  (forall l : list Task, is_Some (to_vec l)) -> reachable_clean path st ->
  reload path st = Ok st.
Proof. intros Henc Hr. by destruct (clean_invariant path st Henc Hr) as (_ & _ & ?). Qed.
End persist.

(** ** Recovery of stranded tasks: [recover_stale_in_progress] resets exactly the
    in-progress tasks whose assignee has no session, and a second pass finds none. *)

Section recovery.
Context `{!TextOps} `{!JsonCodec (list Task)}.
Implicit Types (st : TaskStore) (m : gmap string Task) (t : Task).

Lemma recover_returns live now fault st :
  (recover_stale_in_progress live now fault st).1 = candidates live (inner st).
Proof.
  unfold recover_stale_in_progress. fold (candidates live (inner st)). cbv zeta.
  destruct (candidates live (inner st)); [done|]. by destruct (foldl _ _ _).
Qed.

(** The effect of recovery on the parts of a task outside its rollup. *)
Lemma recover_life live now m k t' :
  forest m -> recover_map live now m !! k = Some t' ->
  exists t, m !! k = Some t
    /\ life t' = life (if stranded live t then recovered_task t now else t).
Proof.
  intros Hf. unfold recover_map. cbv zeta.
  pose proof (fun k t H => proj1 (forest_key _ Hf k t H)) as Hkey.
  pose proof (recover_fold_lookup _ m [] now k (candidates_NoDup live m Hkey)) as Hl.
  destruct (foldl _ _ _) as [m1 ps]. cbn [fst snd] in *. intros E'.
  destruct (fmap_lookup_eq life _ m1 k t' (eq_sym (refresh_all_life _ _ _)) E')
    as (u & Eu & Hlife).
  rewrite Eu in Hl. pose proof (elem_of_candidates live m k Hkey) as Hc.
  destruct (decide (k ∈ candidates live m)) as [Hin|Hin].
  - apply Hc in Hin as (t & Et & Hs). exists t. split; [done|]. rewrite Hs, Et in *.
    cbn in Hl. injection Hl as ->. done.
  - exists u. split; [done|]. destruct (stranded live u) eqn:Hs; [|done].
    exfalso. apply Hin, Hc. eauto.
Qed.

Lemma stranded_life live t t' :
  t_status t' = t_status t -> t_removed_at t' = t_removed_at t ->
  identity t' = identity t -> stranded live t' = stranded live t.
Proof.
  intros Hs Hr (_ & Ha & _)%identity_eq. unfold stranded. by rewrite Hs, Hr, Ha.
Qed.

Lemma recover_none_stranded live now m k t' :
  forest m -> recover_map live now m !! k = Some t' -> stranded live t' = false.
Proof.
  intros Hf E'. destruct (recover_life live now m k t' Hf E') as (t & E & Hl).
  apply life_eq in Hl as (Hi & _ & Hr & Hs & _).
  rewrite (stranded_life live _ _ Hs Hr Hi).
  destruct (stranded live t) eqn:Est; [|done].
  destruct (recovered_task_facts t now) as (_ & _ & _ & Hst & _).
  unfold stranded. rewrite Hst. by rewrite andb_false_r.
Qed.

(** Recovery returns exactly the live in-progress tasks whose assignee has no
    session; afterwards those are pending, unclaimed and unscheduled, every other
    task keeps its status, result and claim, nothing is left to recover, and a
    second recovery does nothing. *)
Theorem recovery_is_complete live now fault st :
  reachable st ->
  let ids := (recover_stale_in_progress live now fault st).1 in
  let st' := (recover_stale_in_progress live now fault st).2 in
  (forall k, k ∈ ids <-> exists t, inner st !! k = Some t /\ stranded live t = true)
  /\ (forall k t', inner st' !! k = Some t' ->
        exists t, inner st !! k = Some t /\
        if bool_decide (k ∈ ids)
        then t_status t' = Pending /\ t_claimed_at t' = None /\ t_next_retry_at t' = None
        else life t' = life t)
  /\ forall now' fault', recover_stale_in_progress live now' fault' st' = ([], st').
Proof.
  intros Hr%reachable_is_forest. cbv zeta. rewrite recover_returns.
  pose proof (inner_recover live now fault st) as Hin. cbn [run_op] in Hin.
  set (st' := snd (recover_stale_in_progress live now fault st)) in *.
  pose proof (fun k t H => proj1 (forest_key _ Hr k t H)) as Hkey. split_and!.
  - intros k. by apply elem_of_candidates.
  - intros k t' E'. rewrite Hin in E'.
    destruct (recover_life live now _ k t' Hr E') as (t & E & Hl).
    exists t. split; [done|]. case_bool_decide as Hc.
    + apply elem_of_candidates in Hc as (t0 & E0 & Hs); [|done].
      rewrite E in E0. injection E0 as <-. rewrite Hs in Hl.
      destruct (recovered_task_facts t now) as (_ & _ & _ & Hst & _ & _ & Hcl & Hn).
      split_and!; [rewrite <-Hst; exact (f_equal (fun p => p.1.1.2) Hl)
        |rewrite <-Hcl; exact (f_equal (fun p => p.2.1.1.1) Hl)
        |rewrite <-Hn; exact (f_equal (fun p => p.2.1.2) Hl)].
    + rewrite elem_of_candidates in Hc by done.
      destruct (stranded live t) eqn:Hs; [|done]. destruct Hc. eauto.
  - intros now' fault'. unfold recover_stale_in_progress.
    fold (candidates live (inner st')). cbv zeta.
    assert (candidates live (inner st') = []) as ->; [|done].
    unfold candidates. rewrite (elem_of_nil_inv (List.filter _ _)); [done|].
    intros t' [[k E']%list_elem_of_In%elem_of_btree_values Hs]%list_elem_of_In%List.filter_In.
    rewrite Hin in E'. by rewrite (recover_none_stranded live now _ k t' Hr E') in Hs.
Qed.
End recovery.
