(* ===== verification/TaskExamples.v ===== *)
(** * The task-store theorems at concrete stores.

    A parent task and a child assigned to another workspace, carried through
    dispatch, claim, completion and removal; each lemma applies one theorem to
    it.  The last section shows four behaviours of the store that its comments
    do not announce. *)

From stdpp Require Import prelude strings list gmap sorting relations.
From S2P Require Import Prelude RustStr Proto Concrete TaskHelpers TaskStore TaskEdits.
From S2P Require Import TaskMachine TaskEffects TaskForest TaskLifecycle TaskRollup TaskPersist.

Definition demo_input (parent assignee : string) : CreateTaskInput :=
  mkCreateTaskInput "title" "description" assignee "boss" parent StartDefault Parallel Normal
    0 "do it" "/ax.yaml".

Definition at_ (n : Z) : Z := secs (1000 + n).

(** The operations of the example. *)
Definition op_parent : store_op := OpCreate (demo_input "" "lead") uuid_a.
Definition op_child : store_op := OpCreate (demo_input uuid_a "worker") uuid_b.
Definition op_claim : store_op := OpUpdate uuid_b (Some InProgress) None None None "worker".
Definition op_done : store_op :=
  OpUpdate uuid_b (Some Completed) (Some "src/lib.rs; remaining owned dirty files=none")
    None (Some true) "worker".
Definition op_remove : store_op := OpRemove uuid_b "archived" "boss" None.

Definition demo0 : TaskStore := in_memory.
Definition demo1 : TaskStore := run_op op_parent (at_ 1) None demo0.
Definition demo2 : TaskStore := run_op op_child (at_ 2) None demo1.
Definition demo3 : TaskStore := run_op op_claim (at_ 3) None demo2.
Definition demo4 : TaskStore := run_op op_done (at_ 4) None demo3.
Definition demo5 : TaskStore := run_op op_remove (at_ 5) None demo4.

Definition task_in (st : TaskStore) (id : string) : Task :=
  default (new_task (demo_input "" "") "" 0) (inner st !! id).

Ltac fresh_op := split_and!; vm_compute; (reflexivity || discriminate).

Lemma demo2_reachable : reachable demo2.
Proof.
  unfold demo2, demo1. apply reach_step; [apply reach_step|]; [constructor|fresh_op..].
Qed.
Lemma demo3_reachable : reachable demo3.
Proof. apply reach_step; [apply demo2_reachable|done]. Qed.
Lemma demo4_reachable : reachable demo4.
Proof. apply reach_step; [apply demo3_reachable|done]. Qed.
Lemma demo5_reachable : reachable demo5.
Proof. apply reach_step; [apply demo4_reachable|done]. Qed.

Lemma step_op op now fault st : op_fresh op st -> step st (run_op op now fault st).
Proof. intros Hop. by exists op, now, fault. Qed.

(** ** Witnesses *)

Lemma reachable_forest_witness : forest (inner demo5).
Proof. apply (reachable_forest demo5). apply demo5_reachable. Defined.

Lemma status_changes_have_a_cause_witness :
  t_status (task_in demo4 uuid_b) = Completed
  /\ status_cause op_done (task_in demo3 uuid_b) (t_status (task_in demo4 uuid_b)).
Proof.
  split; [vm_compute; reflexivity|].
  apply (status_changes_have_a_cause op_done (at_ 4) None demo3 uuid_b);
    [apply demo3_reachable|exact I|vm_compute; reflexivity|vm_compute; reflexivity|].
  vm_compute. discriminate.
Defined.

Lemma terminal_is_absorbing_witness :
  exists t', inner demo5 !! uuid_b = Some t' /\ t_status t' = t_status (task_in demo4 uuid_b).
Proof.
  apply (terminal_is_absorbing demo4 demo5 uuid_b (task_in demo4 uuid_b));
    [apply demo4_reachable|apply rtc_once, step_op; exact I|vm_compute; reflexivity..].
Defined.

Definition op_retry_removed : store_op := OpRetry uuid_b "again" "boss" None.

Lemma removed_is_frozen_witness :
  t_removed_at (task_in demo5 uuid_b) = Some (at_ 5)
  /\ inner (run_op op_retry_removed (at_ 6) None demo5) !! uuid_b = Some (task_in demo5 uuid_b).
Proof.
  split; [vm_compute; reflexivity|].
  apply (removed_is_frozen demo5 (run_op op_retry_removed (at_ 6) None demo5) uuid_b
    (task_in demo5 uuid_b) (at_ 5));
    [apply demo5_reachable|apply rtc_once, step_op; exact I|vm_compute; reflexivity..].
Defined.

Lemma identity_is_immutable_witness :
  exists t', inner demo4 !! uuid_a = Some t'
    /\ identity t' = identity (task_in demo3 uuid_a)
    /\ forall c, c ∈ t_child_task_ids (task_in demo3 uuid_a) -> c ∈ t_child_task_ids t'.
Proof.
  apply (identity_is_immutable demo3 demo4 uuid_a (task_in demo3 uuid_a));
    [apply demo3_reachable|apply rtc_once, step_op; exact I|vm_compute; reflexivity].
Defined.

(** Between the read and the intervention an unrelated update is refused. *)
Definition op_refused : store_op := OpUpdate uuid_b (Some Failed) None None None "stranger".

Lemma expected_version_is_sound_witness :
  is_ok (get_for_intervention uuid_b "boss" (Some (t_version (task_in demo3 uuid_b)))
           (run_op op_refused (at_ 4) None demo3)) = true
  /\ inner (run_op op_refused (at_ 4) None demo3) !! uuid_b = Some (task_in demo3 uuid_b).
Proof.
  split; [vm_compute; reflexivity|].
  eapply (expected_version_is_sound 1 demo3 (run_op op_refused (at_ 4) None demo3) uuid_b
    (task_in demo3 uuid_b) "boss").
  - apply demo3_reachable.
  - apply nsteps_once, step_op. exact I.
  - vm_compute. reflexivity.
  - vm_compute. discriminate.
  - vm_compute. discriminate.
  - vm_compute. reflexivity.
Defined.

Lemma reachable_rollup_exact_witness :
  counters <$> t_rollup (task_in demo4 uuid_a)
  = Some (reference_counters (inner demo4) [uuid_b]).
Proof.
  apply (reachable_rollup_exact demo4 uuid_a (task_in demo4 uuid_a));
    [apply demo4_reachable|vm_compute; reflexivity..].
Defined.

Lemma rejected_operations_change_nothing_witness :
  op_error op_refused (at_ 4) None demo3 = Some (UnauthorisedUpdate "stranger" uuid_b)
  /\ run_op op_refused (at_ 4) None demo3 = demo3.
Proof.
  split; [vm_compute; reflexivity|].
  destruct (rejected_operations_change_nothing op_refused (at_ 4) None demo3
    (UnauthorisedUpdate "stranger" uuid_b)) as [Hp|[Heq _]];
    [exact I|vm_compute; reflexivity|discriminate Hp|exact Heq].
Defined.

Definition disk0 : TaskStore := mkTaskStore (Some "/tasks.json") ∅ None.
Definition disk1 : TaskStore := run_op op_parent (at_ 1) None disk0.

Lemma restart_restores_the_store_witness : reload "/tasks.json" disk1 = Ok disk1.
Proof.
  apply (restart_restores_the_store "/tasks.json" disk1); [by intros l; eexists|].
  apply clean_step; [constructor|fresh_op].
Defined.

Lemma recovery_is_complete_witness :
  (recover_stale_in_progress (fun _ => false) (at_ 9) None demo3).1 = [uuid_b]
  /\ forall now' fault',
     recover_stale_in_progress (fun _ => false) now' fault'
       (recover_stale_in_progress (fun _ => false) (at_ 9) None demo3).2
     = ([], (recover_stale_in_progress (fun _ => false) (at_ 9) None demo3).2).
Proof.
  split; [vm_compute; reflexivity|].
  apply (recovery_is_complete (fun _ => false) (at_ 9) None demo3). apply demo3_reachable.
Defined.

(** ** Behaviours worth knowing. *)

(** A second [remove] of a task is refused by the control check, so the branch
    of [remove] that would return the removed task is never taken. *)
Theorem remove_is_not_idempotent `{!TextOps} `{!JsonCodec (list Task)} id t z reason ws ev now
    fault st :
  inner st !! id = Some t -> t_removed_at t = Some z ->
  remove id reason ws ev now fault st = (Err (Removed (t_id t)), st).
Proof.
  intros E Hr. unfold remove. rewrite E. unfold validate_task_control. by rewrite Hr.
Qed.

(** The completion contract is checked on the edge into [Completed] only: a later
    update by the assignee replaces the result without the declaration. *)
Definition op_rewrite : store_op := OpUpdate uuid_b None (Some "oops") None None "worker".

Theorem completion_declaration_can_be_lost :
  let before := task_in demo4 uuid_b in
  let after := task_in (run_op op_rewrite (at_ 5) None demo4) uuid_b in
  has_leftover_scope_declaration (t_result before) = true
  /\ t_status after = Completed /\ t_result after = "oops"
  /\ has_leftover_scope_declaration (t_result after) = false.
Proof. vm_compute. repeat split. Qed.

(** A parent's own completion does not refresh its rollup, which goes on asking
    for a reconciliation that has happened. *)
Definition op_parent_done : store_op :=
  OpUpdate uuid_a (Some Completed) (Some "src/lib.rs; remaining owned dirty files=none")
    None (Some true) "lead".

Theorem reconciliation_flag_goes_stale :
  let st := run_op op_parent_done (at_ 5) None demo4 in
  let parent := task_in st uuid_a in
  t_status parent = Completed
  /\ needs_parent_reconciliation <$> t_rollup parent = Some true
  /\ needs_parent_reconciliation <$> summarize_task_rollup parent (inner st) = Some false.
Proof. vm_compute. repeat split. Qed.

(** Only the assignee may write a result, but a blank one is let through: the
    creator can erase the result of a completed task. *)
Definition op_erase : store_op := OpUpdate uuid_b None (Some " ") None None "boss".

Theorem creator_can_erase_a_result :
  let after := task_in (run_op op_erase (at_ 5) None demo4) uuid_b in
  op_error op_erase (at_ 5) None demo4 = None
  /\ t_status after = Completed /\ t_result after = " ".
Proof. vm_compute. repeat split. Qed.
