(* ===== verification/Queue.v ===== *)
(** * The per-workspace message queue (crates/ax-daemon/src/queue.rs).

    The state is the record [MessageQueue]; [disk] is the content of
    [queue.json].  [flush] releases the queue's lock between taking the
    snapshot and writing it, so its two halves are separate definitions and
    [qstep] interleaves them with the other operations. *)

From stdpp Require Import prelude strings list gmap.
From S2P Require Import Prelude RustStr Proto TaskHelpers.

Definition DEFAULT_MAX_QUEUE_PER_WORKSPACE : nat := 1000.

Inductive QueueError :=
| QRead (path source : string)
| QDecode (path : string)
| QEncode
| QPersist (e : string).

Record MessageQueue := mkMessageQueue {
  q_file_path : option string;
  max_size : nat;
  by_workspace : gmap string (list Message);
  dirty : bool;
}.
#[export] Instance MessageQueue_eta : Updatable MessageQueue := fun q =>
  mkMessageQueue (q_file_path q) (max_size q) (by_workspace q) (dirty q).

Definition queue_new : MessageQueue :=
  mkMessageQueue None DEFAULT_MAX_QUEUE_PER_WORKSPACE ∅ false.

Definition set_max_size (n : nat) (q : MessageQueue) : MessageQueue :=
  q <| max_size := n |>.

(** The inbox of a workspace. *)
Definition inbox (q : MessageQueue) (ws : string) : list Message :=
  default [] (by_workspace q !! ws).

(** [enqueue]: [uuid] is the fresh identifier, [now] the clock. *)
Definition finalise (msg : Message) (uuid : string) (now : Z) : Message :=
  let msg := if is_empty (m_id msg) then msg <| m_id := "msg-" +:+ uuid |> else msg in
  if (timestamp (m_created_at msg) =? 0)%Z then msg <| m_created_at := now |> else msg.

Definition enqueue (msg : Message) (uuid : string) (now : Z) (q : MessageQueue)
  : Message * MessageQueue :=
  let msg := finalise msg uuid now in
  let to := m_to msg in
  let queue := default [] (by_workspace q !! to) ++ [msg] in
  let queue :=
    if (0 <? max_size q) && (max_size q <? length queue)
    then drop (length queue - max_size q) queue else queue in
  (msg, q <| by_workspace := <[to := queue]> (by_workspace q) |> <| dirty := true |>).

(** One iteration of the loop of [dequeue]: [out] and [kept] so far. *)
Definition dequeue_one (limit : nat) (from : option string)
    (acc : list Message * list Message) (msg : Message) : list Message * list Message :=
  let '(out, kept) := acc in
  if limit <=? length out then (out, kept ++ [msg]) else
  let keep := match from with
              | Some sender => negb (String.eqb (m_from msg) sender)
              | None => false
              end in
  if keep then (out, kept ++ [msg]) else (out ++ [msg], kept).

Definition dequeue (workspace : string) (limit : nat) (from : option string)
    (q : MessageQueue) : list Message * MessageQueue :=
  match by_workspace q !! workspace with
  | None => ([], q)
  | Some queue =>
      let '(out, kept) := foldl (dequeue_one limit from) ([], []) queue in
      let q := q <| by_workspace := <[workspace := kept]> (by_workspace q) |> in
      (out, match out with [] => q | _ => q <| dirty := true |> end)
  end.

Definition pending_count (workspace : string) (q : MessageQueue) : nat :=
  match by_workspace q !! workspace with Some queue => length queue | None => 0 end.

Section task_messages.
Context `{!TextOps}.

Definition message_task_id (msg : Message) : string :=
  let trimmed := trim (m_task_id msg) in
  if negb (is_empty trimmed) then trimmed else extract_task_id (m_content msg).

Definition remove_task_messages (workspace task_id : string) (q : MessageQueue)
  : nat * MessageQueue :=
  let task_id := trim task_id in
  if is_empty task_id then (0, q) else
  match by_workspace q !! workspace with
  | None => (0, q)
  | Some queue =>
      let retained := List.filter (fun msg => negb (String.eqb (message_task_id msg) task_id))
                        queue in
      let removed := length queue - length retained in
      let q := q <| by_workspace := <[workspace := retained]> (by_workspace q) |> in
      (removed, if 0 <? removed then q <| dirty := true |> else q)
  end.

Definition has_task_message (workspace task_id : string) (q : MessageQueue) : bool :=
  let task_id := trim task_id in
  if is_empty task_id then false else
  match by_workspace q !! workspace with
  | None => false
  | Some queue => existsb (fun msg => String.eqb (message_task_id msg) task_id) queue
  end.
End task_messages.

(** ** Persistence *)

Section flush.
Context `{!JsonCodec (gmap string (list Message))}
        `{!JsonCodec (gmap string (option (list Message)))}.

(** [load]: [content] is what the file system has at the path. *)
Definition queue_load (path : string) (content : option (result string string))
  : result QueueError MessageQueue :=
  pending ← match content with
            | None => Ok ∅
            | Some (Err e) => Err (QRead path e)
            | Some (Ok bytes) =>
                if is_empty bytes then Ok ∅ else
                match from_slice (A := gmap string (option (list Message))) bytes with
                | None => Err (QDecode path)
                | Some raw => Ok ((fun v : option (list Message) => default [] v) <$> raw)
                end
            end;
  Ok (mkMessageQueue (Some path) DEFAULT_MAX_QUEUE_PER_WORKSPACE pending false).

(** The first half of [flush], under the queue's lock. *)
Definition flush_snapshot (q : MessageQueue)
  : option (gmap string (list Message)) * MessageQueue :=
  match q_file_path q with
  | None => (None, q)
  | Some _ => if dirty q then (Some (by_workspace q), q <| dirty := false |>) else (None, q)
  end.

(** The second half: encode and write; [fault] is the outcome of the write. *)
Definition flush_write (snapshot : gmap string (list Message)) (fault : option string)
    (q : MessageQueue) (disk : option string)
  : result QueueError unit * MessageQueue * option string :=
  match to_vec snapshot with
  | None => (Err QEncode, q, disk)
  | Some bytes =>
      match fault with
      | Some e => (Err (QPersist e), q <| dirty := true |>, disk)
      | None => (Ok tt, q, Some bytes)
      end
  end.

Definition flush (fault : option string) (q : MessageQueue) (disk : option string)
  : result QueueError unit * MessageQueue * option string :=
  match flush_snapshot q with
  | (None, q) => (Ok tt, q, disk)
  | (Some snapshot, q) => flush_write snapshot fault q disk
  end.
End flush.

#[global] Arguments finalise : simpl never.
#[global] Arguments enqueue : simpl never.
#[global] Arguments dequeue : simpl never.

(** ** Dequeue: the loop against a reference definition. *)

(** The messages a reader asks for. *)
Definition wanted (from : option string) (msg : Message) : bool :=
  match from with Some sender => String.eqb (m_from msg) sender | None => true end.

(** Reference: take the first [n] wanted messages, keep the others in place. *)
Fixpoint extract (n : nat) (from : option string) (l : list Message)
  : list Message * list Message :=
  match l with
  | [] => ([], [])
  | msg :: l =>
      match n with
      | 0 => ([], msg :: l)
      | S n' =>
          if wanted from msg
          then let '(out, kept) := extract n' from l in (msg :: out, kept)
          else let '(out, kept) := extract n from l in (out, msg :: kept)
      end
  end.

Lemma extract_zero from l : extract 0 from l = ([], l).
Proof. by destruct l. Qed.

Lemma dequeue_loop limit from l out kept :
  foldl (dequeue_one limit from) (out, kept) l
  = let '(o, k) := extract (limit - length out) from l in (out ++ o, kept ++ k).
Proof.
  revert out kept. induction l as [|msg l IH]; intros out kept; cbn [foldl extract].
  { by rewrite !app_nil_r. }
  unfold dequeue_one at 2. destruct (Nat.leb_spec limit (length out)).
  - rewrite IH. replace (limit - length out) with 0 by lia.
    rewrite extract_zero. by rewrite <-app_assoc.
  - replace (match from with Some sender => negb (String.eqb (m_from msg) sender)
             | None => false end) with (negb (wanted from msg)) by (by destruct from).
    destruct (limit - length out) as [|n] eqn:En; [lia|].
    destruct (wanted from msg); cbn [negb]; rewrite IH.
    + rewrite length_app. cbn [length]. replace (limit - (length out + 1)) with n by lia.
      destruct (extract n from l). by rewrite <-app_assoc.
    + rewrite En. destruct (extract (S n) from l). by rewrite <-app_assoc.
Qed.

Lemma extract_out n from l : (extract n from l).1 = take n (List.filter (wanted from) l).
Proof.
  revert n. induction l as [|msg l IH]; intros n; [by destruct n|]. cbn [extract List.filter].
  destruct n as [|n]; [by destruct (wanted from msg)|].
  destruct (wanted from msg).
  - specialize (IH n). destruct (extract n from l). cbn in *. by rewrite IH.
  - specialize (IH (S n)). by destruct (extract (S n) from l).
Qed.

Lemma extract_kept n from l :
  List.filter (wanted from) (extract n from l).2 = drop n (List.filter (wanted from) l)
  /\ List.filter (fun x => negb (wanted from x)) (extract n from l).2
     = List.filter (fun x => negb (wanted from x)) l.
Proof.
  revert n. induction l as [|msg l IH]; intros n; [by destruct n|]. cbn [extract].
  destruct n as [|n]; [done|]. destruct (wanted from msg) eqn:E.
  - destruct (IH n) as [IH1 IH2]. destruct (extract n from l) as [o k]. cbn [fst snd] in *.
    cbn [List.filter]. by rewrite E.
  - destruct (IH (S n)) as [IH1 IH2]. destruct (extract (S n) from l) as [o k].
    cbn [fst snd] in *. cbn [List.filter]. rewrite E. cbn [negb]. by rewrite IH1, IH2.
Qed.

Lemma extract_perm n from l : (extract n from l).1 ++ (extract n from l).2 ≡ₚ l.
Proof.
  revert n. induction l as [|msg l IH]; intros n; [done|]. cbn [extract].
  destruct n as [|n]; [done|]. destruct (wanted from msg).
  - specialize (IH n). destruct (extract n from l). cbn in *. by rewrite IH.
  - specialize (IH (S n)). destruct (extract (S n) from l) as [o k]. cbn in *.
    by rewrite <-Permutation_middle, IH.
Qed.

Lemma dequeue_extract ws limit from q :
  (dequeue ws limit from q).1 = (extract limit from (inbox q ws)).1
  /\ inbox (dequeue ws limit from q).2 ws = (extract limit from (inbox q ws)).2
  /\ forall ws', ws' <> ws -> inbox (dequeue ws limit from q).2 ws' = inbox q ws'.
Proof.
  unfold dequeue, inbox. destruct (by_workspace q !! ws) as [l|] eqn:E.
  - rewrite dequeue_loop. cbn [length]. rewrite Nat.sub_0_r.
    change (default [] (Some l)) with l.
    destruct (extract limit from l) as [[|x o] k]; cbn [fst snd app]; fsimpl;
      (split_and!; [done|by rewrite lookup_insert_eq|]); intros ws' ?;
      by rewrite lookup_insert_ne.
  - cbn [fst snd default]. by rewrite E.
Qed.

(** A read returns the oldest [limit] messages of the requested sender in
    arrival order, keeps every other message of that inbox in order, loses and
    invents none, and leaves the other inboxes alone. *)
Theorem dequeue_is_fifo ws limit from q :
  let out := (dequeue ws limit from q).1 in
  let q' := (dequeue ws limit from q).2 in
  out = take limit (List.filter (wanted from) (inbox q ws))
  /\ List.filter (wanted from) (inbox q' ws)
     = drop limit (List.filter (wanted from) (inbox q ws))
  /\ List.filter (fun m => negb (wanted from m)) (inbox q' ws)
     = List.filter (fun m => negb (wanted from m)) (inbox q ws)
  /\ out ++ inbox q' ws ≡ₚ inbox q ws
  /\ forall ws', ws' <> ws -> inbox q' ws' = inbox q ws'.
Proof.
  cbv zeta. destruct (dequeue_extract ws limit from q) as (-> & -> & Hothers).
  destruct (extract_kept limit from (inbox q ws)) as [-> ->].
  rewrite extract_out. split_and!; [done..| |done].
  rewrite <-(extract_out limit from). apply extract_perm.
Qed.

(** ** Enqueue: FIFO with a cap. *)

Lemma finalise_to msg uuid now : m_to (finalise msg uuid now) = m_to msg.
Proof. unfold finalise. cbv zeta. by destruct (is_empty _), (_ =? _)%Z. Qed.

Lemma enqueue_inbox msg uuid now q ws :
  inbox (enqueue msg uuid now q).2 ws
  = if decide (ws = m_to msg) then
      let l := inbox q ws ++ [finalise msg uuid now] in
      if (0 <? max_size q) && (max_size q <? length l)
      then drop (length l - max_size q) l else l
    else inbox q ws.
Proof.
  unfold enqueue, inbox. cbv zeta. cbn [snd]. fsimpl. rewrite finalise_to.
  destruct (decide (ws = m_to msg)) as [->|Hne].
  - by rewrite lookup_insert_eq.
  - by rewrite lookup_insert_ne.
Qed.

(** Inboxes respect the cap. *)
Definition capped (q : MessageQueue) : Prop :=
  0 < max_size q -> forall ws, length (inbox q ws) <= max_size q.

Lemma enqueue_max_size msg uuid now q : max_size (enqueue msg uuid now q).2 = max_size q.
Proof. reflexivity. Qed.

Lemma dequeue_max_size ws limit from q : max_size (dequeue ws limit from q).2 = max_size q.
Proof.
  unfold dequeue. destruct (_ !! _); [|done]. destruct (foldl _ _ _) as [[] ]; reflexivity.
Qed.

Lemma enqueue_capped msg uuid now q : capped q -> capped (enqueue msg uuid now q).2.
Proof.
  intros Hc Hpos ws. rewrite enqueue_max_size in *. rewrite enqueue_inbox.
  destruct (decide _); [|by apply Hc]. cbv zeta.
  destruct (Nat.ltb_spec 0 (max_size q)); [|lia].
  destruct (Nat.ltb_spec (max_size q) (length (inbox q ws ++ [finalise msg uuid now]))) as [Hl|];
    cbn [andb]; [|done]. rewrite length_drop. lia.
Qed.

(** An accepted message is the newest of its recipient's inbox, everything
    older keeps its order, only the oldest messages are dropped and only when the
    cap is exceeded, and no other inbox changes. *)
Theorem enqueue_is_fifo msg uuid now q :
  capped q ->
  let sent := (enqueue msg uuid now q).1 in
  let q' := (enqueue msg uuid now q).2 in
  m_to sent = m_to msg /\ m_content sent = m_content msg
  /\ (exists dropped kept,
        inbox q (m_to msg) = dropped ++ kept
        /\ inbox q' (m_to msg) = kept ++ [sent]
        /\ length dropped <= 1
        /\ (dropped <> [] -> length (inbox q (m_to msg)) = max_size q))
  /\ (forall ws, ws <> m_to msg -> inbox q' ws = inbox q ws)
  /\ capped q' /\ dirty q' = true.
Proof.
  intros Hc. cbv zeta. split_and!.
  - apply finalise_to.
  - cbn [enqueue fst]. unfold enqueue, finalise. cbv zeta.
    by destruct (is_empty _), (_ =? _)%Z.
  - rewrite enqueue_inbox, decide_True by done. cbv zeta. rewrite length_app. cbn [length].
    change (enqueue msg uuid now q).1 with (finalise msg uuid now).
    destruct (Nat.ltb_spec 0 (max_size q)) as [Hpos|]; cbn [andb];
      [|exists [], (inbox q (m_to msg)); split_and!; [done|done|cbn; lia|done]].
    pose proof (Hc Hpos (m_to msg)).
    destruct (Nat.ltb_spec (max_size q) (length (inbox q (m_to msg)) + 1));
      [|exists [], (inbox q (m_to msg)); split_and!; [done|done|cbn; lia|done]].
    replace (length (inbox q (m_to msg)) + 1 - max_size q) with 1 by lia.
    exists (take 1 (inbox q (m_to msg))), (drop 1 (inbox q (m_to msg))).
    split_and!; [by rewrite take_drop| |rewrite length_take; lia|intros _; lia].
    destruct (inbox q (m_to msg)); [cbn in *; lia|done].
  - intros ws Hne. by rewrite enqueue_inbox, decide_False.
  - by apply enqueue_capped.
  - reflexivity.
Qed.

(** ** Task-tagged messages. *)

Section task_messages_facts.
Context `{!TextOps}.

Lemma filter_length_id {A} (f : A -> bool) (l : list A) :
  length l - length (List.filter f l) = 0 -> List.filter f l = l.
Proof.
  induction l as [|a l IH]; [done|]. cbn [List.filter length].
  pose proof (List.filter_length_le f l). destruct (f a); cbn [length]; intros ?.
  - f_equal. apply IH. lia.
  - lia.
Qed.

Lemma filter_negb_length {A} (f : A -> bool) (l : list A) :
  length l - length (List.filter (fun x => negb (f x)) l) = length (List.filter f l).
Proof.
  induction l as [|a l IH]; [done|]. cbn [List.filter length].
  pose proof (List.filter_length_le (fun x => negb (f x)) l).
  destruct (f a); cbn [length negb]; lia.
Qed.

Lemma remove_task_messages_effect ws id q :
  trim id <> "" ->
  let n := (remove_task_messages ws id q).1 in
  let q' := (remove_task_messages ws id q).2 in
  let tagged m := String.eqb (message_task_id m) (trim id) in
  has_task_message ws id q' = false
  /\ inbox q' ws = List.filter (fun m => negb (tagged m)) (inbox q ws)
  /\ n = length (List.filter tagged (inbox q ws))
  /\ (forall ws', ws' <> ws -> inbox q' ws' = inbox q ws')
  /\ (0 < n -> dirty q' = true) /\ (n = 0 -> q' = q).
Proof.
  intros Hid%is_empty_false. cbv zeta. unfold remove_task_messages, has_task_message, inbox.
  cbv zeta. rewrite Hid. destruct (by_workspace q !! ws) as [l|] eqn:E; [|cbn [fst snd]; rewrite E; split_and!; try done; lia].
  cbn [fst snd]. change (default [] (Some l)) with l.
  set (tagged := fun m => String.eqb (message_task_id m) (trim id)).
  fold (tagged). change (fun msg => negb (String.eqb (message_task_id msg) (trim id)))
    with (fun m => negb (tagged m)).
  set (q1 := q <| by_workspace := _ |>).
  assert (by_workspace (if 0 <? length l - length (List.filter (fun m => negb (tagged m)) l)
    then q1 <| dirty := true |> else q1)
    = <[ws := List.filter (fun m => negb (tagged m)) l]> (by_workspace q)) as ->
    by (by destruct (_ <? _)).
  rewrite lookup_insert_eq. split_and!.
  - apply not_true_is_false. intros (m & [_ Hm]%List.filter_In & Ht)%existsb_exists.
    cbv beta in Hm. change (tagged m = true) in Ht. by rewrite Ht in Hm.
  - done.
  - apply filter_negb_length.
  - intros ws' ?. by rewrite lookup_insert_ne.
  - intros Hn. apply Nat.ltb_lt in Hn. by rewrite Hn.
  - intros Hn. rewrite Hn. cbn [Nat.ltb Nat.leb]. unfold q1.
    rewrite (filter_length_id _ _ Hn), insert_id by done. by destruct q.
Qed.
(** Removing the messages of a task from an inbox leaves none of them, keeps
    all the others in order, and reports how many were removed. *)
Theorem remove_task_messages_spec ws id q :
  trim id <> "" ->
  let n := (remove_task_messages ws id q).1 in
  let q' := (remove_task_messages ws id q).2 in
  let tagged m := String.eqb (message_task_id m) (trim id) in
  has_task_message ws id q' = false
  /\ inbox q' ws = List.filter (fun m => negb (tagged m)) (inbox q ws)
  /\ n = length (List.filter tagged (inbox q ws))
  /\ (forall ws', ws' <> ws -> inbox q' ws' = inbox q ws')
  /\ (0 < n -> dirty q' = true) /\ (n = 0 -> q' = q).
Proof. apply remove_task_messages_effect. Qed.
End task_messages_facts.

(** ** The flusher, interleaved with the other operations. *)

(** What serde documents for the snapshot: a map written as [VecDeque]s is read
    back as a map of [Some] queues. *)
Class SnapshotCodecOk `{!JsonCodec (gmap string (list Message))}
    `{!JsonCodec (gmap string (option (list Message)))} : Prop := {
  snapshot_encodes (m : gmap string (list Message)) : is_Some (to_vec m);
  snapshot_reads (m : gmap string (list Message)) s :
    to_vec m = Some s ->
    s <> "" /\ from_slice (A := gmap string (option (list Message))) s = Some (Some <$> m);
}.

Record qstate := mkQstate {
  qs_queue : MessageQueue;
  qs_disk : option string;
  qs_inflight : option (gmap string (list Message));
}.

Section flusher.
Context `{!TextOps} `{!JsonCodec (gmap string (list Message))}
        `{!JsonCodec (gmap string (option (list Message)))} `{!SnapshotCodecOk}.

(** [flush] holds [persist_lock] throughout, so at most one is in flight; the
    queue's own lock is free between its two halves. *)
Inductive qstep : qstate -> qstate -> Prop :=
| qstep_enqueue q d i msg uuid now :
    qstep (mkQstate q d i) (mkQstate (enqueue msg uuid now q).2 d i)
| qstep_dequeue q d i ws limit from :
    qstep (mkQstate q d i) (mkQstate (dequeue ws limit from q).2 d i)
| qstep_remove q d i ws id :
    qstep (mkQstate q d i) (mkQstate (remove_task_messages ws id q).2 d i)
| qstep_max_size q d i n :
    qstep (mkQstate q d i) (mkQstate (set_max_size n q) d i)
| qstep_flush_begin q d snapshot q' :
    flush_snapshot q = (Some snapshot, q') ->
    qstep (mkQstate q d None) (mkQstate q' d (Some snapshot))
| qstep_flush_end q d snapshot fault r q' d' :
    flush_write snapshot fault q d = (r, q', d') ->
    qstep (mkQstate q d (Some snapshot)) (mkQstate q' d' None).

Inductive qreachable (path : string) : qstate -> Prop :=
| qreach_load content q :
    queue_load path (Ok <$> content) = Ok q -> qreachable path (mkQstate q content None)
| qreach_step s s' : qreachable path s -> qstep s s' -> qreachable path s'.

(** The queue's content is what a restart would load. *)
Definition disk_image (path : string) (d : option string) (m : gmap string (list Message))
  : Prop := exists q, queue_load path (Ok <$> d) = Ok q /\ by_workspace q = m.

Definition flusher_inv (path : string) (s : qstate) : Prop :=
  q_file_path (qs_queue s) = Some path /\
  (dirty (qs_queue s) = false ->
   match qs_inflight s with
   | None => disk_image path (qs_disk s) (by_workspace (qs_queue s))
   | Some snapshot => snapshot = by_workspace (qs_queue s)
   end).

(** An operation that leaves the queue clean has not changed the inboxes. *)
Definition clean_means_same (q q' : MessageQueue) : Prop :=
  q_file_path q' = q_file_path q /\
  (dirty q' = false -> dirty q = false /\ by_workspace q' = by_workspace q).

Lemma flusher_inv_op path q q' d i :
  clean_means_same q q' -> flusher_inv path (mkQstate q d i) ->
  flusher_inv path (mkQstate q' d i).
Proof.
  intros [Hp Hc] [Hf Hi]. split; [cbn in *; congruence|]. intros Hd.
  destruct (Hc Hd) as [Hq Hw]. specialize (Hi Hq). cbn in *. by rewrite Hw.
Qed.

Lemma extract_nothing n from l : (extract n from l).1 = [] -> (extract n from l).2 = l.
Proof.
  revert n. induction l as [|msg l IH]; intros n; [done|]. cbn [extract].
  destruct n as [|n]; [done|]. destruct (wanted from msg).
  - by destruct (extract n from l).
  - specialize (IH (S n)). destruct (extract (S n) from l). cbn in *. intros ?. by rewrite IH.
Qed.

Lemma clean_dequeue ws limit from q : clean_means_same q (dequeue ws limit from q).2.
Proof.
  unfold dequeue. destruct (by_workspace q !! ws) as [l|] eqn:E; [|done].
  rewrite dequeue_loop. cbn [length]. rewrite Nat.sub_0_r.
  pose proof (extract_nothing limit from l) as Hn.
  destruct (extract limit from l) as [[|x o] k]; cbn [fst snd app] in *.
  - specialize (Hn eq_refl) as ->. rewrite insert_id by done. by destruct q.
  - split; [done|]. by intros [=].
Qed.

Lemma clean_remove ws id q : clean_means_same q (remove_task_messages ws id q).2.
Proof.
  destruct (decide (trim id = "")) as [He|Hne].
  { unfold remove_task_messages. by rewrite (proj2 (is_empty_true _) He). }
  pose proof (remove_task_messages_effect ws id q Hne) as (_ & _ & _ & _ & Hd & Hz).
  destruct (remove_task_messages ws id q) as [n q'] eqn:E. cbn [fst snd] in *.
  destruct n as [|n]; [by rewrite (Hz eq_refl)|].
  split; [|intros Hf; specialize (Hd ltac:(lia)); congruence].
  unfold remove_task_messages in E. cbv zeta in E.
  destruct (is_empty _); [done|]. destruct (_ !! _); [|done].
  injection E as _ <-. by destruct (_ <? _).
Qed.

Lemma flush_end_image path snapshot q d d' r q' fault :
  flush_write snapshot fault q d = (r, q', d') ->
  q_file_path q' = q_file_path q
  /\ (dirty q' = false -> q' = q /\ disk_image path d' snapshot).
Proof.
  unfold flush_write. destruct (snapshot_encodes snapshot) as [b Hb]. rewrite Hb.
  destruct fault; intros [= <- <- <-]; [by split; [|intros [=]]|].
  split; [done|]. intros _. split; [done|].
  destruct (snapshot_reads snapshot b Hb) as [Hne Hr].
  eexists. unfold queue_load. cbn [fmap option_fmap option_map].
  rewrite (proj2 (is_empty_false b) Hne), Hr. split; [reflexivity|]. cbn [by_workspace].
  rewrite <-map_fmap_compose. apply map_fmap_id.
Qed.

Lemma flusher_inv_step path s s' : qstep s s' -> flusher_inv path s -> flusher_inv path s'.
Proof.
  destruct 1 as [q d i msg uuid now|q d i ws limit from|q d i ws id|q d i n
    |q d snapshot q' Hs|q d snapshot fault r q' d' Hw].
  - apply flusher_inv_op. by split; [|intros [=]].
  - apply flusher_inv_op, clean_dequeue.
  - apply flusher_inv_op, clean_remove.
  - by apply flusher_inv_op.
  - intros [Hf _]. unfold flush_snapshot in Hs. cbn [qs_queue] in Hf. rewrite Hf in Hs.
    destruct (dirty q); [|done]. injection Hs as <- <-. by split.
  - intros [Hf Hi]. destruct (flush_end_image path _ _ _ _ _ _ _ Hw) as [Hp Hd].
    split; [cbn in *; congruence|]. cbn [qs_queue qs_inflight qs_disk] in *.
    intros Hclean. destruct (Hd Hclean) as [-> Himg]. by rewrite <-(Hi Hclean).
Qed.

Lemma queue_load_path path c q : queue_load path c = Ok q -> q_file_path q = Some path.
Proof.
  unfold queue_load, mbind, result_bind. intros Hl. by repeat case_match; simplify_eq.
Qed.

Lemma qreachable_inv path s : qreachable path s -> flusher_inv path s.
Proof.
  induction 1 as [content q Hl|s s' _ IH Hs]; [|by eapply flusher_inv_step].
  split.
  - by eapply queue_load_path.
  - intros _. cbn. by exists q.
Qed.

(** C9: whatever the interleaving of writers with the background flusher and
    whatever writes fail, a queue that is not dirty and has no flush in flight is
    exactly what a restart loads from disk; nothing is lost silently. *)
Theorem clean_queue_is_on_disk path s :
  qreachable path s -> dirty (qs_queue s) = false -> qs_inflight s = None ->
  exists q, queue_load path (Ok <$> qs_disk s) = Ok q
    /\ by_workspace q = by_workspace (qs_queue s).
Proof.
  intros Hr Hd Hi. destruct (qreachable_inv path s Hr) as [_ Hinv].
  specialize (Hinv Hd). by rewrite Hi in Hinv.
Qed.
End flusher.
