(* ===== verification/Memory.v ===== *)
(** * The durable-memory store (crates/ax-daemon/src/memory.rs).

    The store is a record of its path, the in-memory map and the bytes on disk.
    [remember] writes, and undoes its edits when the write fails; [mem_list] filters,
    sorts and truncates. *)

From stdpp Require Import prelude strings list gmap sorting.
From S2P Require Import Prelude RustStr Proto.

Definition DEFAULT_KIND : string := "fact".
Definition DEFAULT_LIMIT : Z := 10.

Record SupersedeSnapshot := mkSupersedeSnapshot {
  ss_superseded_at : option Z;
  ss_superseded_by : string;
  ss_updated_at : Z;
}.

Record Query := mkQuery {
  scopes : list string;
  kind : string;
  tags : list string;
  include_superseded : bool;
  limit : Z;
}.

Inductive MemoryError :=
| ScopeRequired
| ContentRequired
| CreatedByRequired
| MemNotFound (id : string)
| AlreadySuperseded (id : string)
| MemRead (path source : string)
| MemDecode (path : string)
| MemEncode
| MemPersist (e : string).

Record Store := mkStore {
  mem_file_path : option string;
  memories : gmap string Memory;
  mem_file : option string;
}.
#[export] Instance Store_eta : Updatable Store := fun s =>
  mkStore (mem_file_path s) (memories s) (mem_file s).

(** ** Normalisation *)

Definition normalize_kind (kind : string) : string :=
  let trimmed := to_ascii_lowercase (trim kind) in
  if is_empty trimmed then DEFAULT_KIND else trimmed.

(** The loop over the known prefixes; [None] when none matches. *)
Fixpoint scope_with_prefix (prefixes : list string) (trimmed : string) : option string :=
  match prefixes with
  | [] => None
  | prefix :: rest =>
      if starts_with (to_ascii_lowercase trimmed) prefix then
        let value := trim (drop_bytes (String.length prefix) trimmed) in
        if String.eqb prefix "project:"
        then Some ("project:" +:+ (if is_empty value then "root" else value))
        else if is_empty value then Some "" else Some (prefix +:+ value)
      else scope_with_prefix rest trimmed
  end.

Definition normalize_scope (scope : string) : string :=
  let trimmed := trim scope in
  if is_empty trimmed then "" else
  if eq_ignore_ascii_case trimmed "global" then "global" else
  match scope_with_prefix ["project:"; "workspace:"; "task:"] trimmed with
  | Some s => s
  | None => trimmed
  end.

(** The shared shape of [normalize_scopes], [normalize_tags] and
    [normalize_ids]: map, drop empty results and repetitions, sort. *)
Definition push_new (f : string -> string) (out : list string) (s : string) : list string :=
  let v := f s in
  if is_empty v || bool_decide (v ∈ out) then out else out ++ [v].
Definition normalize_list (f : string -> string) (l : list string) : list string :=
  merge_sort String.le (foldl (push_new f) [] l).

Definition normalize_scopes : list string -> list string := normalize_list normalize_scope.
Definition normalize_tags : list string -> list string :=
  normalize_list (fun t => to_ascii_lowercase (trim t)).
Definition normalize_ids : list string -> list string := normalize_list trim.

Definition has_any_tag (haystack needles : list string) : bool :=
  existsb (fun h => existsb (String.eqb h) needles) haystack.

(** ** Persistence *)

Definition created_le (a b : Memory) : Prop :=
  (mem_created_at a < mem_created_at b)%Z
  \/ (mem_created_at a = mem_created_at b /\ String.le (mem_id a) (mem_id b)).
#[export] Instance created_le_dec : RelDecision created_le.
Proof. intros a b. unfold created_le. apply _. Defined.

Section store.
Context `{!JsonCodec (list Memory)}.

Definition mem_persist_locked (fault : option string) (map : gmap string Memory) (st : Store)
  : result MemoryError unit * Store :=
  match mem_file_path st with
  | None => (Ok tt, st)
  | Some _ =>
      let entries := merge_sort created_le (btree_values map) in
      match to_vec entries with
      | None => (Err MemEncode, st)
      | Some b =>
          match fault with
          | Some e => (Err (MemPersist e), st)
          | None => (Ok tt, st <| mem_file := Some b |>)
          end
      end
  end.

Definition mem_in_memory : Store := mkStore None ∅ None.

Definition mem_load (path : string) (content : option (result string string))
  : result MemoryError Store :=
  map ← match content with
        | None => Ok ∅
        | Some (Err e) => Err (MemRead path e)
        | Some (Ok bytes) =>
            if is_empty bytes then Ok ∅ else
            match from_slice (A := list Memory) bytes with
            | None => Err (MemDecode path)
            | Some entries => Ok (foldl (fun m e => <[mem_id e := e]> m) ∅ entries)
            end
        end;
  Ok (mkStore (Some path) map (match content with Some (Ok b) => Some b | _ => None end)).

(** ** [remember] *)

(** The validation loop: the snapshots for a rollback, or the first error. *)
Fixpoint check_supersedes (m : gmap string Memory) (ids : list string)
    (snapshots : gmap string SupersedeSnapshot)
  : result MemoryError (gmap string SupersedeSnapshot) :=
  match ids with
  | [] => Ok snapshots
  | id :: ids =>
      match m !! id with
      | None => Err (MemNotFound id)
      | Some target =>
          match mem_superseded_at target with
          | Some _ => Err (AlreadySuperseded id)
          | None =>
              check_supersedes m ids
                (<[id := mkSupersedeSnapshot (mem_superseded_at target)
                           (mem_superseded_by target) (mem_updated_at target)]> snapshots)
          end
      end
  end.

Definition supersede (entry_id : string) (now : Z) (m : gmap string Memory) (id : string)
  : gmap string Memory :=
  match m !! id with
  | None => m
  | Some target =>
      <[id := target <| mem_superseded_at := Some now |>
                     <| mem_superseded_by := entry_id |>
                     <| mem_updated_at := now |>]> m
  end.

Definition restore (m : gmap string Memory) (s : string * SupersedeSnapshot)
  : gmap string Memory :=
  let '(id, snap) := s in
  match m !! id with
  | None => m
  | Some target =>
      <[id := target <| mem_superseded_at := ss_superseded_at snap |>
                     <| mem_superseded_by := ss_superseded_by snap |>
                     <| mem_updated_at := ss_updated_at snap |>]> m
  end.

Definition remember (scope kind subject content : string) (tags : list string)
    (created_by : string) (supersedes : list string) (uuid : string) (now : Z)
    (fault : option string) (st : Store) : result MemoryError Memory * Store :=
  let scope := normalize_scope scope in
  let kind := normalize_kind kind in
  let subject := trim subject in
  let content := trim content in
  let created_by := trim created_by in
  let tags := normalize_tags tags in
  let supersedes := normalize_ids supersedes in
  if is_empty scope then (Err ScopeRequired, st) else
  if is_empty content then (Err ContentRequired, st) else
  if is_empty created_by then (Err CreatedByRequired, st) else
  let entry := mkMemory uuid scope kind subject content tags created_by supersedes
                 "" None now now in
  match check_supersedes (memories st) supersedes ∅ with
  | Err e => (Err e, st)
  | Ok snapshots =>
      let m := foldl (supersede uuid now) (memories st) supersedes in
      let m := <[uuid := entry]> m in
      match mem_persist_locked fault m (st <| memories := m |>) with
      | (Err e, st') =>
          let m := delete uuid (memories st') in
          (Err e, st' <| memories := foldl restore m (btree_to_list snapshots) |>)
      | (Ok _, st') => (Ok entry, st')
      end
  end.

(** ** [list] *)

Definition memory_matches (query : Query) (entry : Memory) : bool :=
  let scopes := normalize_scopes (scopes query) in
  let use_kind := negb (is_empty (trim (kind query))) in
  let kind := normalize_kind (kind query) in
  let tags := normalize_tags (tags query) in
  if negb (include_superseded query) && bool_decide (mem_superseded_at entry <> None)
  then false else
  if negb (bool_decide (scopes = [])) && negb (bool_decide (mem_scope entry ∈ scopes))
  then false else
  if use_kind && negb (String.eqb (mem_kind entry) kind) then false else
  if negb (bool_decide (tags = [])) && negb (has_any_tag (mem_tags entry) tags) then false
  else true.

(** The comparator: active entries first, then most recent first, then by id. *)
Definition recall_le (a b : Memory) : Prop :=
  let a_active := bool_decide (mem_superseded_at a = None) in
  let b_active := bool_decide (mem_superseded_at b = None) in
  if eqb a_active b_active then
    (mem_updated_at b < mem_updated_at a)%Z \/
    (mem_updated_at a = mem_updated_at b /\
     ((mem_created_at b < mem_created_at a)%Z \/
      (mem_created_at a = mem_created_at b /\ String.le (mem_id a) (mem_id b))))
  else a_active = true.
#[export] Instance recall_le_dec : RelDecision recall_le.
Proof. intros a b. unfold recall_le. cbv zeta. destruct (eqb _ _); apply _. Defined.

Definition mem_list (query : Query) (st : Store) : list Memory :=
  let limit := if (limit query <=? 0)%Z then DEFAULT_LIMIT else limit query in
  let result := List.filter (memory_matches query) (btree_values (memories st)) in
  let result := merge_sort recall_le result in
  if (limit >? 0)%Z && (Z.of_nat (length result) >? limit)%Z
  then take (Z.to_nat limit) result else result.
End store.

#[global] Arguments supersede : simpl never.
#[global] Arguments restore : simpl never.

(** ** Facts about normalisation. *)

Lemma push_new_fold f l out :
  NoDup out -> "" ∉ out ->
  NoDup (foldl (push_new f) out l) /\ "" ∉ foldl (push_new f) out l.
Proof.
  revert out. induction l as [|s l IH]; intros out Hnd Hne; [done|]. cbn [foldl].
  unfold push_new at 2 4. cbv zeta. destruct (is_empty (f s)) eqn:He; [by apply IH|].
  apply is_empty_false in He. case_bool_decide; cbn [orb]; [by apply IH|].
  apply IH; [|set_solver]. apply NoDup_app. split_and!; [done|set_solver|apply NoDup_singleton].
Qed.

Lemma normalize_list_NoDup f l : NoDup (normalize_list f l).
Proof.
  unfold normalize_list. rewrite merge_sort_Permutation.
  apply push_new_fold; [apply NoDup_nil_2|set_solver].
Qed.

(** ** The three loops of [remember]. *)

Definition superseded (entry_id : string) (now : Z) (e : Memory) : Memory :=
  e <| mem_superseded_at := Some now |> <| mem_superseded_by := entry_id |>
    <| mem_updated_at := now |>.
Definition restored (snap : SupersedeSnapshot) (e : Memory) : Memory :=
  e <| mem_superseded_at := ss_superseded_at snap |>
    <| mem_superseded_by := ss_superseded_by snap |>
    <| mem_updated_at := ss_updated_at snap |>.
Definition snapshot_of (e : Memory) : SupersedeSnapshot :=
  mkSupersedeSnapshot (mem_superseded_at e) (mem_superseded_by e) (mem_updated_at e).

Lemma restored_superseded id now e : restored (snapshot_of e) (superseded id now e) = e.
Proof. by destruct e. Qed.

Lemma supersede_fold uuid now ids m k :
  NoDup ids ->
  foldl (supersede uuid now) m ids !! k
  = if decide (k ∈ ids) then superseded uuid now <$> m !! k else m !! k.
Proof.
  revert m. induction ids as [|i ids IH]; intros m Hnd; [done|].
  apply NoDup_cons in Hnd as [Hi Hnd]. cbn [foldl]. rewrite IH by done.
  unfold supersede. destruct (m !! i) as [e|] eqn:E; destruct (decide (k = i)) as [->|Hne].
  - rewrite decide_False, lookup_insert_eq, decide_True, E by set_solver. done.
  - rewrite lookup_insert_ne by done. by repeat case_decide; set_solver.
  - rewrite decide_False, decide_True, E by set_solver. done.
  - by repeat case_decide; set_solver.
Qed.

Lemma check_supersedes_ok m ids s0 snaps :
  check_supersedes m ids s0 = Ok snaps ->
  (forall i, i ∈ ids -> exists e, m !! i = Some e /\ mem_superseded_at e = None)
  /\ forall k, snaps !! k = if decide (k ∈ ids) then snapshot_of <$> m !! k else s0 !! k.
Proof.
  revert s0. induction ids as [|i ids IH]; intros s0; cbn [check_supersedes].
  { intros [= <-]. split; [set_solver|done]. }
  destruct (m !! i) as [e|] eqn:E; [|done].
  destruct (mem_superseded_at e) eqn:Es; [done|]. intros Hok.
  destruct (IH _ Hok) as [Hall Hl]. split.
  - intros j [->|Hj]%elem_of_cons; eauto.
  - intros k. rewrite Hl. destruct (decide (k ∈ ids)).
    + rewrite decide_True by set_solver. done.
    + destruct (decide (k = i)) as [->|].
      * rewrite lookup_insert_eq, decide_True, E by set_solver.
        unfold snapshot_of. cbn. by rewrite Es.
      * rewrite lookup_insert_ne, decide_False by set_solver. done.
Qed.

Lemma restore_fold l m k :
  NoDup l.*1 ->
  foldl restore m l !! k
  = match (list_to_map l : gmap string SupersedeSnapshot) !! k with
    | Some snap => restored snap <$> m !! k
    | None => m !! k
    end.
Proof.
  revert m. induction l as [|[i snap] l IH]; intros m Hnd; cbn [foldl].
  { by rewrite list_to_map_nil, lookup_empty. }
  cbn [fmap list_fmap fst] in Hnd. apply NoDup_cons in Hnd as [Hi Hnd].
  rewrite IH by done. rewrite list_to_map_cons. unfold restore.
  apply not_elem_of_list_to_map in Hi.
  destruct (m !! i) as [e|] eqn:E; destruct (decide (k = i)) as [->|Hne];
    rewrite ?Hi, ?lookup_insert_eq, ?(lookup_insert_ne _ i k) by done; rewrite ?E; try done.
Qed.

(** Undoing the edits gives the store back. *)
Lemma rollback_restores m uuid entry now ids snaps :
  NoDup ids -> m !! uuid = None -> check_supersedes m ids ∅ = Ok snaps ->
  foldl restore (delete uuid (<[uuid := entry]> (foldl (supersede uuid now) m ids)))
    (btree_to_list snaps) = m.
Proof.
  intros Hnd Hu Hok. destruct (check_supersedes_ok _ _ _ _ Hok) as [Hall Hl].
  apply map_eq. intros k. rewrite restore_fold by apply btree_keys_NoDup.
  rewrite btree_to_list_to_map, Hl, delete_insert_eq.
  destruct (decide (k = uuid)) as [->|Hne].
  - rewrite lookup_delete_eq, decide_False, lookup_empty, Hu; [done|].
    intros Hin. destruct (Hall _ Hin) as (? & ? & _). congruence.
  - rewrite lookup_delete_ne, supersede_fold by done.
    destruct (decide (k ∈ ids)) as [Hin|Hin]; [|by rewrite lookup_empty].
    destruct (Hall _ Hin) as (e & -> & _). cbn. by rewrite restored_superseded.
Qed.

Section facts.
Context `{!JsonCodec (list Memory)}.

Lemma mem_persist_error fault m st e st' :
  mem_persist_locked fault m st = (Err e, st') -> st' = st.
Proof. unfold mem_persist_locked. intros ?. by repeat case_match; simplify_eq. Qed.

Lemma mem_persist_memories fault m st :
  memories (mem_persist_locked fault m st).2 = memories st.
Proof. unfold mem_persist_locked. by repeat case_match. Qed.

Lemma set_memories_id st m :
  memories st = m -> st <| memories := m |> = st.
Proof. destruct st. cbn. by intros ->. Qed.

(** [remember] is atomic: whatever the error (bad input, unknown or already
    superseded target, failed write), the store in memory and on disk is exactly
    what it was. *)
Theorem remember_is_atomic sc kd sj ct tg cb sup uuid now fault st e st' :
  memories st !! uuid = None ->
  remember sc kd sj ct tg cb sup uuid now fault st = (Err e, st') -> st' = st.
Proof.
  intros Hu. unfold remember. cbv zeta.
  destruct (is_empty (normalize_scope sc)); [congruence|].
  destruct (is_empty (trim ct)); [congruence|].
  destruct (is_empty (trim cb)); [congruence|].
  destruct (check_supersedes _ _ _) as [snaps|] eqn:Hc; [|congruence].
  set (m := <[uuid := _]> _).
  destruct (mem_persist_locked _ _ _) as [[]] eqn:Hp; [congruence|].
  apply mem_persist_error in Hp. subst s. intros [= _ <-]. fsimpl. unfold m.
  rewrite rollback_restores; [|apply normalize_list_NoDup|done|done]. by destruct st.
Qed.

(** ** Supersession links. *)

Record links_ok (m : gmap string Memory) : Prop := {
  lo_key k e : m !! k = Some e -> mem_id e = k;
  lo_active k e : m !! k = Some e -> mem_superseded_at e = None -> mem_superseded_by e = "";
  lo_successor k e : m !! k = Some e -> mem_superseded_at e <> None ->
    exists e', m !! mem_superseded_by e = Some e' /\ k ∈ mem_supersedes e';
  lo_targets k e i : m !! k = Some e -> i ∈ mem_supersedes e ->
    exists t, m !! i = Some t /\ mem_superseded_by t = k /\ mem_superseded_at t <> None;
}.

Lemma links_ok_remember m uuid entry now ids :
  links_ok m -> m !! uuid = None -> NoDup ids ->
  (forall i, i ∈ ids -> exists e, m !! i = Some e /\ mem_superseded_at e = None) ->
  mem_id entry = uuid -> mem_supersedes entry = ids ->
  mem_superseded_at entry = None -> mem_superseded_by entry = "" ->
  links_ok (<[uuid := entry]> (foldl (supersede uuid now) m ids)).
Proof.
  intros Hlo Hu Hnd Hall Hid Hsup Hat Hby.
  set (m' := <[uuid := entry]> _).
  assert (forall k e, m' !! k = Some e ->
    (k = uuid /\ e = entry) \/ (exists e0,
    m !! k = Some e0 /\ k <> uuid /\
    ((k ∈ ids /\ e = superseded uuid now e0) \/ ((k ∉ ids) /\ e = e0)))) as Hinv.
  { intros k e [[<- <-]|[Hne Hk]]%lookup_insert_Some; [by left|right].
    rewrite supersede_fold in Hk by done. destruct (decide (k ∈ ids)).
    - destruct (m !! k) as [u|]; [|done]. injection Hk as <-. exists u. auto.
    - exists e. auto. }
  assert (forall k e0, m !! k = Some e0 -> m' !! k
    = Some (if decide (k ∈ ids) then superseded uuid now e0 else e0)) as Hfwd.
  { intros k e0 Hk. unfold m'. rewrite lookup_insert_ne, supersede_fold, Hk by congruence.
    by destruct (decide (k ∈ ids)). }
  split.
  - intros k e [[-> ->]|(e0 & Hk & _ & [[_ ->]|[_ ->]])]%Hinv; [done|..];
      by apply (lo_key _ Hlo) in Hk.
  - intros k e [[-> ->]|(e0 & Hk & _ & [[_ ->]|[_ ->]])]%Hinv; [done|done|].
    by eapply (lo_active _ Hlo).
  - intros k e [[-> ->]|(e0 & Hk & _ & [[Hin ->]|[Hin ->]])]%Hinv Hs; [done|..].
    + exists entry. cbn. unfold m'. by rewrite lookup_insert_eq, Hsup.
    + destruct (lo_successor _ Hlo _ _ Hk Hs) as (e' & He' & Hin').
      rewrite (Hfwd _ _ He'). eexists. split; [done|]. by destruct (decide _).
  - intros k e i Hk Hi.
    destruct (Hinv _ _ Hk) as [[-> ->]|(e0 & Hk0 & _ & He)].
    + rewrite Hsup in Hi. destruct (Hall _ Hi) as (t & Ht & _).
      rewrite (Hfwd _ _ Ht), decide_True by done. by eexists.
    + assert (i ∈ mem_supersedes e0) as Hi0 by (by destruct He as [[_ ->]|[_ ->]]).
      destruct (lo_targets _ Hlo _ _ _ Hk0 Hi0) as (t & Ht & Hby' & Hat').
      rewrite (Hfwd _ _ Ht), decide_False; [by eexists|].
      intros Hin. destruct (Hall _ Hin) as (t' & Ht' & ?). congruence.
Qed.

(** The stores [remember] builds from an empty one. *)
Inductive mem_reachable : Store -> Prop :=
| mem_reach_init fp f : mem_reachable (mkStore fp ∅ f)
| mem_reach_remember st sc kd sj ct tg cb sup uuid now fault :
    mem_reachable st -> memories st !! uuid = None ->
    mem_reachable (remember sc kd sj ct tg cb sup uuid now fault st).2.

Lemma remember_links sc kd sj ct tg cb sup uuid now fault st :
  links_ok (memories st) -> memories st !! uuid = None ->
  links_ok (memories (remember sc kd sj ct tg cb sup uuid now fault st).2).
Proof.
  intros Hlo Hu. unfold remember. cbv zeta.
  destruct (is_empty (normalize_scope sc)); [done|].
  destruct (is_empty (trim ct)); [done|]. destruct (is_empty (trim cb)); [done|].
  destruct (check_supersedes _ _ _) as [snaps|] eqn:Hc; [|done].
  pose proof (check_supersedes_ok _ _ _ _ Hc) as [Hall _].
  set (m := <[uuid := _]> _).
  pose proof (mem_persist_memories fault m (st <| memories := m |>)) as Hm.
  destruct (mem_persist_locked _ _ _) as [[] st'] eqn:Hp; cbn [snd] in *.
  - rewrite Hm. fsimpl. by apply links_ok_remember; [..|apply normalize_list_NoDup| | | | | ].
  - apply mem_persist_error in Hp. subst st'. fsimpl. unfold m.
    by rewrite rollback_restores; [|apply normalize_list_NoDup|..].
Qed.

(** Supersession is consistent in every store: an entry is superseded iff it
    names a successor that exists and lists it, every target of an entry exists
    and points back, so no memory is ever superseded twice. *)
Theorem supersession_is_consistent st : mem_reachable st -> links_ok (memories st).
Proof.
  induction 1 as [fp f|]; [|by apply remember_links].
  cbn [memories]. split; intros *; by rewrite lookup_empty.
Qed.
End facts.

(** ** Recall. *)

#[export] Instance recall_le_total : Total recall_le.
Proof.
  intros a b. unfold recall_le. cbv zeta.
  case_bool_decide; case_bool_decide; cbn [eqb]; auto.
  all: destruct (Z.lt_trichotomy (mem_updated_at a) (mem_updated_at b)) as [?|[Hu|?]]; auto.
  all: destruct (Z.lt_trichotomy (mem_created_at a) (mem_created_at b)) as [?|[Hc|?]]; auto.
  all: destruct (total String.le (mem_id a) (mem_id b)); auto 7.
Qed.

#[export] Instance recall_le_trans : Transitive recall_le.
Proof.
  intros a b c. unfold recall_le. cbv zeta.
  repeat case_bool_decide; cbn [eqb]; try done; intros Hab Hbc;
    destruct Hab as [|[? [|[? Hab]]]], Hbc as [|[? [|[? Hbc]]]];
    try (left; lia); right; (split; [lia|]); try (left; lia).
  all: right; split; [lia|]; by etrans.
Qed.

(** The number of entries a query may return. *)
Definition effective_limit (q : Query) : Z :=
  if (limit q <=? 0)%Z then DEFAULT_LIMIT else limit q.

Lemma sorted_take_drop (l : list Memory) n x y :
  StronglySorted recall_le l -> x ∈ take n l -> y ∈ drop n l -> recall_le x y.
Proof.
  intros Hs. rewrite <-(take_drop n l) in Hs. revert x y.
  induction (take n l) as [|a t IH]; intros x y Hx Hy; [by apply not_elem_of_nil in Hx|].
  apply StronglySorted_inv in Hs as [Hs Ha]. rewrite Forall_forall in Ha.
  apply elem_of_cons in Hx as [->|Hx]; [|by apply IH].
  apply Ha, elem_of_app. by right.
Qed.

(** A recall returns matching entries only, active before superseded and most
    recent first, at most as many as asked for, and what it leaves out ranks after
    everything it returns. *)
Theorem recall_returns_the_best q st :
  let r := mem_list q st in
  (forall e, e ∈ r -> memory_matches q e = true /\ exists k, memories st !! k = Some e)
  /\ StronglySorted recall_le r
  /\ (Z.of_nat (length r) <= effective_limit q)%Z
  /\ (forall k e, memories st !! k = Some e -> memory_matches q e = true -> e ∉ r ->
        Z.of_nat (length r) = effective_limit q /\ forall e', e' ∈ r -> recall_le e' e).
Proof.
  cbv zeta. unfold mem_list. fold (effective_limit q). cbv zeta.
  set (l := merge_sort recall_le _).
  assert (StronglySorted recall_le l) as Hs by (apply StronglySorted_merge_sort; apply _).
  assert (forall e, e ∈ l <->
    memory_matches q e = true /\ exists k, memories st !! k = Some e) as Hl.
  { intros e. unfold l. rewrite merge_sort_Permutation, list_elem_of_In, List.filter_In.
    rewrite <-list_elem_of_In, elem_of_btree_values. tauto. }
  assert (0 < effective_limit q)%Z as Hpos.
  { unfold effective_limit, DEFAULT_LIMIT. destruct (Z.leb_spec (limit q) 0); lia. }
  rewrite (proj2 (Z.gtb_lt _ _) Hpos). cbn [andb].
  destruct (Z.of_nat (length l) >? effective_limit q)%Z eqn:Hlen.
  - apply Z.gtb_lt in Hlen. split_and!.
    + intros e (i & Hi & _)%elem_of_take. by apply Hl, (list_elem_of_lookup_2 _ i).
    + clear -Hs. rewrite <-(take_drop (Z.to_nat (effective_limit q)) l) in Hs.
      by eapply StronglySorted_app_1_l.
    + rewrite length_take. lia.
    + intros k e Hk Hm Hnin. split; [rewrite length_take; lia|].
      intros e' He'. eapply sorted_take_drop; [done|done|].
      assert (e ∈ l) as He by (apply Hl; eauto).
      rewrite <-(take_drop (Z.to_nat (effective_limit q)) l) in He.
      apply elem_of_app in He as [|]; done.
  - rewrite Z.gtb_ltb, Z.ltb_ge in Hlen. split_and!; [by intros e ?%Hl|done|lia|].
    intros k e Hk Hm []. apply Hl. eauto.
Qed.
