(* ===== verification/SharedValues.v ===== *)
(** * Shared key/value store (crates/ax-daemon/src/shared_values.rs): the map, its file
    and the round trip through a restart. *)

From stdpp Require Import prelude strings list gmap sorting.
From S2P Require Import Prelude RustStr.
From S2P Require Import Proto.

Inductive SharedError :=
| SharedRead (path source : string)
| SharedDecode (path : string)
| SharedEncode
| SharedPersist (e : string).

Record SharedValues := mkSharedValues {
  sv_path : option string;
  values : gmap string string;
  sv_file : option string;
}.
#[export] Instance SharedValues_eta : Updatable SharedValues := fun s =>
  mkSharedValues (sv_path s) (values s) (sv_file s).

Section shared.
Context `{!JsonCodec (gmap string string)}.

Definition shared_in_memory : SharedValues := mkSharedValues None ∅ None.

Definition shared_load (path : string) (content : option (result string string))
  : result SharedError SharedValues :=
  initial ← match content with
            | None => Ok ∅
            | Some (Err e) => Err (SharedRead path e)
            | Some (Ok bytes) =>
                if is_empty bytes then Ok ∅ else
                match from_slice (A := gmap string string) bytes with
                | None => Err (SharedDecode path)
                | Some m => Ok m
                end
            end;
  Ok (mkSharedValues (Some path) initial
        (match content with Some (Ok b) => Some b | _ => None end)).

(** [set] inserts first; an error is reported after the map has changed. *)
Definition shared_set (key value : string) (fault : option string) (sv : SharedValues)
  : result SharedError unit * SharedValues :=
  let sv := sv <| values := <[key := value]> (values sv) |> in
  match sv_path sv with
  | None => (Ok tt, sv)
  | Some _ =>
      match to_vec (values sv) with
      | None => (Err SharedEncode, sv)
      | Some bytes =>
          match fault with
          | Some e => (Err (SharedPersist e), sv)
          | None => (Ok tt, sv <| sv_file := Some bytes |>)
          end
      end
  end.

Definition shared_get (key : string) (sv : SharedValues) : option string := values sv !! key.
Definition shared_list (sv : SharedValues) : list (string * string) :=
  btree_to_list (values sv).

Context `{!JsonCodecOk (gmap string string)}.

(** A value that was set is what every later read and listing shows, other keys are
    untouched, and when [set] succeeds on a persistent store a restart loads
    exactly the current values. *)
Theorem shared_set_then_get key value fault sv :
  let r := (shared_set key value fault sv).1 in
  let sv' := (shared_set key value fault sv).2 in
  shared_get key sv' = Some value
  /\ (forall k, k <> key -> shared_get k sv' = shared_get k sv)
  /\ (forall k v, (k, v) ∈ shared_list sv' <-> shared_get k sv' = Some v)
  /\ StronglySorted String.le (shared_list sv').*1
  /\ (forall path, sv_path sv = Some path -> r = Ok tt ->
        shared_load path (Ok <$> sv_file sv') = Ok sv').
Proof.
  cbv zeta.
  assert (values (shared_set key value fault sv).2 = <[key := value]> (values sv)) as Hv.
  { unfold shared_set. cbv zeta. by repeat case_match. }
  unfold shared_get, shared_list. rewrite Hv. split_and!.
  - apply lookup_insert_eq.
  - intros k Hk. by rewrite lookup_insert_ne.
  - intros k v. apply elem_of_btree_to_list.
  - pose proof (btree_to_list_sorted (<[key := value]> (values sv))) as Hs.
    induction Hs as [|[k v] l Hs IH Hall]; cbn [fmap list_fmap]; constructor; [done|].
    rewrite Forall_forall in Hall. apply Forall_forall. intros k' ([k'' v'] & -> & Hin)%list_elem_of_fmap.
    by apply (Hall (k'', v')).
  - intros path Hp. unfold shared_set in *. cbv zeta. fsimpl. rewrite Hp.
    destruct (to_vec _) as [b|] eqn:Eb; [|done]. destruct fault; [done|]. intros _.
    cbn [snd]. unfold shared_load. fsimpl. cbn [fmap option_fmap option_map].
    rewrite (proj2 (is_empty_false b) (to_vec_nonempty _ _ Eb)), (from_slice_to_vec _ _ Eb).
    cbn. by destruct sv; cbn in *; rewrite Hp.
Qed.
End shared.
