(* ===== verification/History.v ===== *)
(** * Message history (crates/ax-daemon/src/history.rs).

    The ring buffer in memory and the lines of the JSONL file.  The file is a
    list of lines; [append_ok] says whether one append to it succeeded. *)

From stdpp Require Import prelude strings list.
From S2P Require Import Prelude RustStr Proto.

Record HistoryEntry := mkHistoryEntry {
  h_timestamp : Z;
  h_from : string;
  h_to : string;
  h_content : string;
  h_task_id : string;
}.

Inductive HistoryError :=
| HRead (path source : string)
| HDecode (path : string)
| HAppend (path source : string)
| HEncode.

Record History := mkHistory {
  h_file_path : option string;
  h_max_size : nat;
  h_buffer : list HistoryEntry;
  h_lines : list string;
}.
#[export] Instance History_eta : Updatable History := fun h =>
  mkHistory (h_file_path h) (h_max_size h) (h_buffer h) (h_lines h).

(** [if len >= max { pop_front }; push_back]. *)
Definition ring_push (max_size : nat) (buf : list HistoryEntry) (e : HistoryEntry)
  : list HistoryEntry :=
  (if max_size <=? length buf then tail buf else buf) ++ [e].

Section history.
Context `{!JsonCodec HistoryEntry}.

Definition history_in_memory (max_size : nat) : History :=
  mkHistory None (Nat.max max_size 1) [] [].

(** The loop of [load] over the lines of the file. *)
Fixpoint load_lines (path : string) (max_size : nat) (lines : list string)
    (buf : list HistoryEntry) : result HistoryError (list HistoryEntry) :=
  match lines with
  | [] => Ok buf
  | line :: rest =>
      if is_empty line then load_lines path max_size rest buf else
      match from_slice line with
      | None => Err (HDecode path)
      | Some e => load_lines path max_size rest (ring_push max_size buf e)
      end
  end.

Definition history_load (path : string) (max_size : nat)
    (content : option (result string (list string))) : result HistoryError History :=
  let max_size := Nat.max max_size 1 in
  match content with
  | None => Ok (mkHistory (Some path) max_size [] [])
  | Some (Err e) => Err (HRead path e)
  | Some (Ok lines) =>
      buf ← load_lines path max_size lines [];
      Ok (mkHistory (Some path) max_size buf lines)
  end.

(** [append]: the file is written after the buffer; failures are swallowed. *)
Definition history_append (e : HistoryEntry) (append_ok : bool) (h : History) : History :=
  let h := h <| h_buffer := ring_push (h_max_size h) (h_buffer h) e |> in
  match h_file_path h with
  | None => h
  | Some _ =>
      match to_vec e with
      | Some line => if append_ok then h <| h_lines := h_lines h ++ [line] |> else h
      | None => h
      end
  end.

Definition append_message (m : Message) (now : Z) (append_ok : bool) (h : History) : History :=
  history_append (mkHistoryEntry now (m_from m) (m_to m) (m_content m) (m_task_id m))
    append_ok h.

Definition recent (n : nat) (h : History) : list HistoryEntry :=
  if n =? 0 then [] else drop (length (h_buffer h) - n) (h_buffer h).

(** The loop of [recent_matching], newest first. *)
Fixpoint collect_matching (n : nat) (matches : HistoryEntry -> bool)
    (l out : list HistoryEntry) : list HistoryEntry :=
  match l with
  | [] => out
  | e :: rest =>
      if matches e then
        let out := out ++ [e] in
        if length out =? n then out else collect_matching n matches rest out
      else collect_matching n matches rest out
  end.

Definition recent_matching (n : nat) (matches : HistoryEntry -> bool) (h : History)
  : list HistoryEntry :=
  if n =? 0 then [] else collect_matching n matches (rev (h_buffer h)) [].

(** ** The buffer is the tail of everything appended. *)

Definition last_n (n : nat) (l : list HistoryEntry) : list HistoryEntry :=
  drop (length l - n) l.

Lemma ring_push_last n all e :
  0 < n -> ring_push n (last_n n all) e = last_n n (all ++ [e]).
Proof.
  intros Hn. unfold ring_push, last_n. rewrite length_drop, length_app. cbn [length].
  destruct (Nat.leb_spec n (length all - (length all - n))).
  - replace (length all + 1 - n) with (1 + (length all - n)) by lia.
    rewrite (drop_app_le all) by lia. f_equal.
    rewrite (Nat.add_comm 1), <-drop_drop. by destruct (drop (length all - n) all).
  - replace (length all + 1 - n) with 0 by lia. replace (length all - n) with 0 by lia. done.
Qed.

Lemma collect_matching_spec n f l out :
  length out < n ->
  collect_matching n f l out = out ++ take (n - length out) (List.filter f l).
Proof.
  revert out. induction l as [|e l IH]; intros out Hlt; cbn [collect_matching List.filter].
  { by rewrite take_nil, app_nil_r. }
  destruct (f e); [|by apply IH]. cbv zeta. rewrite length_app. cbn [length].
  destruct (n - length out) as [|k] eqn:Ek; [lia|]. cbn [take].
  destruct (Nat.eqb_spec (length out + 1) n).
  - replace k with 0 by lia. by rewrite take_0.
  - rewrite IH by (rewrite length_app; cbn; lia). rewrite length_app. cbn [length].
    replace (n - (length out + 1)) with k by lia. by rewrite <-app_assoc.
Qed.

Definition history_appends (es : list (HistoryEntry * bool)) (h : History) : History :=
  foldl (fun h p => history_append p.1 p.2 h) h es.

Lemma history_append_fields e ok h :
  h_max_size (history_append e ok h) = h_max_size h
  /\ h_buffer (history_append e ok h) = ring_push (h_max_size h) (h_buffer h) e.
Proof. unfold history_append. cbv zeta. by repeat case_match. Qed.

Lemma history_appends_buffer es all h :
  0 < h_max_size h -> h_buffer h = last_n (h_max_size h) all ->
  h_max_size (history_appends es h) = h_max_size h
  /\ h_buffer (history_appends es h) = last_n (h_max_size h) (all ++ es.*1).
Proof.
  revert all h. induction es as [|[e ok] es IH]; intros all h Hn Hb.
  { cbn. by rewrite app_nil_r. }
  destruct (history_append_fields e ok h) as [Hm Hbuf]. unfold history_appends.
  cbn [foldl fst snd fmap list_fmap]. fold (history_appends es (history_append e ok h)).
  rewrite <-Hm in *. destruct (IH (all ++ [e]) (history_append e ok h)) as [IH1 IH2].
  - done.
  - rewrite Hbuf, Hb, Hm. by apply ring_push_last; rewrite <-Hm.
  - rewrite IH1, IH2. by rewrite <-app_assoc.
Qed.

(** Whatever was appended and whether or not the disk accepted it, the history
    holds exactly the last [max_size] entries, [recent] returns the last of them in
    order and [recent_matching] the newest matches first. *)
Theorem history_keeps_the_tail es n f k :
  let h := history_appends es (history_in_memory n) in
  let all := es.*1 in
  let tail := last_n (Nat.max n 1) all in
  h_buffer h = tail
  /\ length (h_buffer h) <= Nat.max n 1
  /\ recent k h = last_n k tail
  /\ recent_matching k f h = take k (List.filter f (rev tail)).
Proof.
  cbv zeta.
  destruct (history_appends_buffer es [] (history_in_memory n)) as [_ Hb]; [cbn; lia|done|].
  rewrite app_nil_l in Hb. cbn [history_in_memory h_max_size] in Hb. rewrite Hb. split_and!.
  - done.
  - unfold last_n. rewrite length_drop. lia.
  - unfold recent, last_n at 1. rewrite Hb. destruct (Nat.eqb_spec k 0) as [->|]; [|done].
    rewrite Nat.sub_0_r. by rewrite drop_ge.
  - unfold recent_matching. rewrite Hb. destruct (Nat.eqb_spec k 0) as [->|]; [done|].
    rewrite collect_matching_spec by (cbn; lia). by rewrite Nat.sub_0_r.
Qed.

(** A restart reads the file back into the same window. *)
Lemma load_lines_spec path n lines es :
  0 < n -> Forall2 (fun line e => line <> "" /\ from_slice line = Some e) lines es ->
  forall all, load_lines path n lines (last_n n all) = Ok (last_n n (all ++ es)).
Proof.
  intros Hn. induction 1 as [|line e lines es [Hne Hf] _ IH]; intros all; cbn [load_lines].
  { by rewrite app_nil_r. }
  rewrite (proj2 (is_empty_false line) Hne), Hf, ring_push_last by done.
  by rewrite IH, <-app_assoc.
Qed.

Context `{!JsonCodecOk HistoryEntry}.

Lemma history_appends_lines path es h es0 :
  (forall e : HistoryEntry, is_Some (to_vec e)) -> h_file_path h = Some path ->
  Forall2 (fun line e => line <> "" /\ from_slice line = Some e) (h_lines h) es0 ->
  let h' := history_appends ((fun e => (e, true)) <$> es) h in
  h_file_path h' = Some path
  /\ Forall2 (fun line e => line <> "" /\ from_slice line = Some e) (h_lines h') (es0 ++ es).
Proof.
  intros Henc. revert h es0. induction es as [|e es IH]; intros h es0 Hp Hl; cbv zeta.
  { by rewrite app_nil_r. }
  unfold history_appends. cbn [fmap list_fmap foldl fst snd].
  fold (history_appends ((fun e => (e, true)) <$> es) (history_append e true h)).
  replace (es0 ++ e :: es) with ((es0 ++ [e]) ++ es) by (by rewrite <-app_assoc).
  destruct (Henc e) as [line Hline].
  assert (h_file_path (history_append e true h) = Some path
    /\ h_lines (history_append e true h) = h_lines h ++ [line]) as [Hp' Hl'].
  { unfold history_append. cbv zeta. fsimpl. rewrite Hp, Hline. fsimpl. done. }
  apply IH; [done|]. rewrite Hl'. apply Forall2_app; [done|].
  constructor; [|constructor].
  eauto using to_vec_nonempty, from_slice_to_vec.
Qed.

(** A persistent history whose appends reach the disk is rebuilt exactly by a
    restart. *)
Theorem history_survives_restart path n es :
  (forall e : HistoryEntry, is_Some (to_vec e)) ->
  let h := history_appends ((fun e => (e, true)) <$> es)
             (mkHistory (Some path) (Nat.max n 1) [] []) in
  history_load path n (Some (Ok (h_lines h))) = Ok h.
Proof.
  intros Henc. cbv zeta. set (h0 := mkHistory _ _ _ _).
  destruct (history_appends_lines path es h0 [] Henc) as [Hp Hl]; [done|constructor|].
  destruct (history_appends_buffer ((fun e => (e, true)) <$> es) [] h0) as [Hm Hb];
    [cbn; lia|done|].
  set (h := history_appends _ h0) in *. rewrite app_nil_l in *.
  unfold history_load. cbv zeta. change (@nil HistoryEntry) with (last_n (Nat.max n 1) []).
  rewrite (load_lines_spec _ _ _ es) by (done || lia). rewrite app_nil_l. cbn.
  destruct h as [fp mx bf ln]. cbn in *. subst. f_equal. f_equal.
  rewrite <-list_fmap_compose. symmetry. f_equal. apply list_fmap_id.
Qed.
End history.
