(* ===== verification/PureDecisions.v ===== *)
(** * Decisions of the task handlers (crates/ax-daemon/src/pure_decisions.rs): the plan
    types and the planners the handlers carry out. *)

From stdpp Require Import prelude strings list gmap.
From S2P Require Import Prelude RustStr Proto TaskHelpers TaskStore.

Inductive InterventionPlan := IWake | IInterrupt | IRetry | IInvalid (action : string).

Definition plan_intervention (action : string) : InterventionPlan :=
  let a := to_ascii_lowercase (trim action) in
  if String.eqb a "wake" then IWake
  else if String.eqb a "interrupt" then IInterrupt
  else if String.eqb a "retry" then IRetry
  else IInvalid action.

Inductive WakePlan :=
| EnsureRunnable (config_path assignee : string)
| DirectWake (assignee : string)
| SessionMissing (assignee : string).

Definition plan_task_wake (task : Task) (session_exists : string -> bool) : WakePlan :=
  let config_path := trim (t_dispatch_config_path task) in
  if negb (is_empty config_path) then EnsureRunnable config_path (t_assignee task)
  else if session_exists (t_assignee task) then DirectWake (t_assignee task)
  else SessionMissing (t_assignee task).

Inductive SendMessagePlan :=
| Reject (reason : string)
| Enqueue
| EnqueueAndEnsureRunnable (config_path : string).

Definition plan_send_message (sender to config_path : string) : SendMessagePlan :=
  if is_empty (trim to) then Reject "missing recipient" else
  if String.eqb to sender then Reject "cannot send message to self" else
  let config_path := trim config_path in
  if is_empty config_path then Enqueue else EnqueueAndEnsureRunnable config_path.

Inductive TaskStartDispatchPlan :=
| WaitingForInput
| QueueDispatch (assignee : string) (config_path : option string)
| Skip (reason : string).

Inductive TaskStateFollowupPlan :=
| FollowupNone
| CleanupTerminal (assignee task_id : string).

Definition plan_task_state_followup (task : Task) : TaskStateFollowupPlan :=
  match t_status task with
  | Completed | Failed | Cancelled | Blocked => CleanupTerminal (t_assignee task) (t_id task)
  | Pending | InProgress => FollowupNone
  end.

Definition plan_task_start_dispatch (task : Task) : TaskStartDispatchPlan :=
  match t_status task with
  | Pending | InProgress =>
      if is_empty (trim (t_dispatch_message task)) then WaitingForInput else
      let config_path := trim (t_dispatch_config_path task) in
      QueueDispatch (t_assignee task)
        (if negb (is_empty config_path) then Some config_path else None)
  | other => Skip ("task already in terminal state " +:+ status_debug other)
  end.
