(* ===== verification/Registry.v ===== *)
(** * The workspace registry (crates/ax-daemon/src/registry.rs).

    An [Entry] is the source's record without the sending half of its outbox
    channel, which is identified by the connection id.  [Duration]s are
    nanosecond counts. *)

From stdpp Require Import prelude strings list gmap.
From S2P Require Import Prelude RustStr Proto.

Record WorkspaceInfo := mkWorkspaceInfo {
  wi_name : string;
  wi_dir : string;
  wi_description : string;
  wi_status : AgentStatus;
  wi_status_text : string;
  wi_status_metrics : option AgentStatusMetrics;
  wi_git_status : option WorkspaceGitStatus;
  wi_connected_at : option Z;
  wi_last_activity_at : option Z;
  wi_active_task_count : Z;
  wi_current_task_id : option string;
  wi_connection_generation : Z;
  wi_idle_timeout_seconds : Z;
}.
#[export] Instance WorkspaceInfo_eta : Updatable WorkspaceInfo := fun i =>
  mkWorkspaceInfo (wi_name i) (wi_dir i) (wi_description i) (wi_status i) (wi_status_text i)
    (wi_status_metrics i) (wi_git_status i) (wi_connected_at i) (wi_last_activity_at i)
    (wi_active_task_count i) (wi_current_task_id i) (wi_connection_generation i)
    (wi_idle_timeout_seconds i).

Record Entry := mkEntry {
  e_id : Z;
  e_info : WorkspaceInfo;
  e_config_path : string;
  e_idle_timeout : Z;
  e_last_active_at : Z;
}.
#[export] Instance Entry_eta : Updatable Entry := fun e =>
  mkEntry (e_id e) (e_info e) (e_config_path e) (e_idle_timeout e) (e_last_active_at e).

Record RegisteredWorkspace := mkRegisteredWorkspace {
  rw_info : WorkspaceInfo;
  rw_config_path : string;
  rw_idle_timeout : Z;
  rw_last_active_at : Z;
}.

Record Registry := mkRegistry {
  next_id : Z;
  entries : gmap string Entry;
}.
#[export] Instance Registry_eta : Updatable Registry := fun r =>
  mkRegistry (next_id r) (entries r).

Definition registry_new : Registry := mkRegistry 0 ∅.

(** [next_id += 1] on [u64]. *)
Definition u64_succ (n : Z) : Z := (n + 1) `mod` 2 ^ 64.

(** [i64::try_from(timeout.as_secs()).unwrap_or(i64::MAX)]. *)
Definition timeout_seconds (timeout : Z) : Z := i64_saturate (timeout / nanos).

(** Returns the new entry and the evicted one. *)
Definition register_with_idle (workspace dir description config_path : string)
    (idle_timeout now : Z) (r : Registry) : (Entry * option Entry) * Registry :=
  let id := u64_succ (next_id r) in
  let previous_info := e_info <$> entries r !! workspace in
  let status_text := match previous_info with Some i => wi_status_text i | None => "" end in
  let status_metrics := previous_info ≫= wi_status_metrics in
  let info := mkWorkspaceInfo workspace dir description Online status_text status_metrics
                None (Some now) (Some now) 0 None id (timeout_seconds idle_timeout) in
  let entry := mkEntry id info config_path idle_timeout now in
  ((entry, entries r !! workspace),
   r <| next_id := id |> <| entries := <[workspace := entry]> (entries r) |>).

Definition register (workspace dir description config_path : string) (now : Z)
    (r : Registry) : (Entry * option Entry) * Registry :=
  register_with_idle workspace dir description config_path 0 now r.

Definition registry_snapshot (r : Registry) : list RegisteredWorkspace :=
  (fun e => mkRegisteredWorkspace (e_info e) (e_config_path e) (e_idle_timeout e)
              (e_last_active_at e)) <$> btree_values (entries r).

Definition unregister_if (workspace : string) (id : Z) (r : Registry) : bool * Registry :=
  match entries r !! workspace with
  | Some e =>
      if (e_id e =? id)%Z then (true, r <| entries := delete workspace (entries r) |>)
      else (false, r)
  | None => (false, r)
  end.

Definition unregister (workspace : string) (r : Registry) : Registry :=
  r <| entries := delete workspace (entries r) |>.

Definition registry_get (workspace : string) (r : Registry) : option Entry :=
  entries r !! workspace.

Definition registry_list (r : Registry) : list WorkspaceInfo :=
  (fun e => (e_info e) <| wi_last_activity_at := Some (e_last_active_at e) |>
              <| wi_connection_generation := e_id e |>
              <| wi_idle_timeout_seconds := timeout_seconds (e_idle_timeout e) |>)
  <$> btree_values (entries r).

Definition set_status_text_at (workspace text : string) (now : Z) (r : Registry)
  : bool * Registry :=
  match entries r !! workspace with
  | Some e =>
      let e := e <| e_info := (e_info e) <| wi_status_text := text |> |>
                 <| e_last_active_at := now |> in
      (true, r <| entries := <[workspace := e]> (entries r) |>)
  | None => (false, r)
  end.

Definition update_status_metrics_at (workspace : string) (metrics : AgentStatusMetrics)
    (now : Z) (r : Registry) : option AgentStatusMetrics * Registry :=
  match entries r !! workspace with
  | None => (None, r)
  | Some e =>
      let metrics := metrics <| sm_workspace := workspace |> in
      let metrics := if is_empty (sm_agent metrics)
                     then metrics <| sm_agent := workspace |> else metrics in
      let metrics := metrics <| sm_updated_at := Some now |> in
      let metrics := metrics <| sm_status_title := formatted_status_title metrics |> in
      let info := (e_info e) <| wi_status_text := sm_status_title metrics |>
                           <| wi_status_metrics := Some metrics |> in
      let e := e <| e_info := info |> <| e_last_active_at := now |> in
      (Some metrics, r <| entries := <[workspace := e]> (entries r) |>)
  end.

Definition status_metrics_for_entry (e : Entry) : AgentStatusMetrics * bool :=
  match wi_status_metrics (e_info e) with
  | Some metrics =>
      let metrics := metrics <| sm_workspace := wi_name (e_info e) |> in
      (metrics <| sm_status_title := formatted_status_title metrics |>, true)
  | None =>
      let metrics := unknown_for_workspace (wi_name (e_info e)) in
      let metrics := metrics <| sm_last_activity_at := Some (e_last_active_at e) |> in
      (metrics <| sm_status_title := formatted_status_title metrics |>, false)
  end.

Definition get_status_metrics (workspace : string) (r : Registry)
  : option (AgentStatusMetrics * bool) :=
  status_metrics_for_entry <$> entries r !! workspace.

Definition list_status_metrics (r : Registry) : list AgentStatusMetrics :=
  (fun e => (status_metrics_for_entry e).1) <$> btree_values (entries r).

Definition touch (workspace : string) (now : Z) (r : Registry) : Registry :=
  match entries r !! workspace with
  | Some e => r <| entries := <[workspace := e <| e_last_active_at := now |>]> (entries r) |>
  | None => r
  end.

(** ** Connection generations. *)

Inductive reg_op :=
| RRegister (ws dir desc cfg : string) (idle now : Z)
| RUnregisterIf (ws : string) (id : Z)
| RUnregister (ws : string)
| RStatusText (ws text : string) (now : Z)
| RMetrics (ws : string) (m : AgentStatusMetrics) (now : Z)
| RTouch (ws : string) (now : Z).

Definition run_reg (op : reg_op) (r : Registry) : Registry :=
  match op with
  | RRegister ws dir desc cfg idle now => (register_with_idle ws dir desc cfg idle now r).2
  | RUnregisterIf ws id => (unregister_if ws id r).2
  | RUnregister ws => unregister ws r
  | RStatusText ws text now => (set_status_text_at ws text now r).2
  | RMetrics ws m now => (update_status_metrics_at ws m now r).2
  | RTouch ws now => touch ws now r
  end.
Definition run_regs (ops : list reg_op) (r : Registry) : Registry :=
  foldl (fun r op => run_reg op r) r ops.

(** Entries are keyed by their name, carry their generation, and every id in use
    was handed out, to one workspace only. *)
Record registry_ok (r : Registry) : Prop := {
  ro_next : (0 <= next_id r)%Z;
  ro_name ws e : entries r !! ws = Some e ->
    wi_name (e_info e) = ws /\ wi_connection_generation (e_info e) = e_id e;
  ro_id ws e : entries r !! ws = Some e -> (0 < e_id e <= next_id r)%Z;
  ro_unique ws ws' e e' : entries r !! ws = Some e -> entries r !! ws' = Some e' ->
    e_id e = e_id e' -> ws = ws';
}.

(** [kept e0 e]: the same connection, possibly with a newer status. *)
Definition kept (e0 e : Entry) : Prop :=
  e_id e = e_id e0 /\ wi_name (e_info e) = wi_name (e_info e0)
  /\ wi_connection_generation (e_info e) = wi_connection_generation (e_info e0).

(** An operation without a registration only drops or refreshes entries. *)
Lemma run_reg_other op r ws e :
  (forall w a b c d f, op <> RRegister w a b c d f) ->
  entries (run_reg op r) !! ws = Some e ->
  next_id (run_reg op r) = next_id r
  /\ exists e0, entries r !! ws = Some e0 /\ kept e0 e.
Proof.
  intros Hop. assert (kept e e) as Hrefl by done.
  destruct op; cbn [run_reg].
  - by edestruct Hop.
  - unfold unregister_if. destruct (entries r !! ws0) as [e1|]; [|by eauto].
    destruct (_ =? _)%Z; cbn [snd]; [|by eauto]. fsimpl.
    intros [_ ?]%lookup_delete_Some. eauto.
  - unfold unregister. fsimpl. intros [_ ?]%lookup_delete_Some. eauto.
  - unfold set_status_text_at. destruct (entries r !! ws0) as [e1|] eqn:E1; [|by eauto].
    cbv zeta. cbn [snd]. fsimpl. intros [[<- <-]|[_ ?]]%lookup_insert_Some; eauto.
  - unfold update_status_metrics_at. destruct (entries r !! ws0) as [e1|] eqn:E1; [|by eauto].
    cbv zeta. cbn [snd]. fsimpl. intros [[<- <-]|[_ ?]]%lookup_insert_Some; eauto.
  - unfold touch. destruct (entries r !! ws0) as [e1|] eqn:E1; [|by eauto].
    fsimpl. intros [[<- <-]|[_ ?]]%lookup_insert_Some; eauto.
Qed.

Lemma run_reg_next op r :
  next_id (run_reg op r)
  = match op with RRegister _ _ _ _ _ _ => u64_succ (next_id r) | _ => next_id r end.
Proof.
  destruct op; cbn [run_reg]; unfold unregister_if, set_status_text_at,
    update_status_metrics_at, touch; cbv zeta; repeat case_match; reflexivity.
Qed.

Lemma u64_succ_small n : (0 <= n < 2 ^ 64 - 1)%Z -> u64_succ n = (n + 1)%Z.
Proof. intros ?. unfold u64_succ. apply Z.mod_small. lia. Qed.

Lemma registry_ok_step op r :
  registry_ok r -> (next_id r < 2 ^ 64 - 1)%Z -> registry_ok (run_reg op r).
Proof.
  intros Hok Hmax. pose proof (ro_next _ Hok) as Hn.
  assert ((exists w a b c d f, op = RRegister w a b c d f)
    \/ (forall w a b c d f, op <> RRegister w a b c d f))
    as [(ws & a & b & c & d & f & ->)|Hop]
    by (destruct op; [left; by repeat eexists|right; done..]).
  - cbn [run_reg]. unfold register_with_idle. cbv zeta. cbn [snd].
    rewrite u64_succ_small by lia. split; fsimpl.
    + lia.
    + intros w e [[<- <-]|[_ He]]%lookup_insert_Some; [done|]. by apply (ro_name _ Hok).
    + intros w e [[<- <-]|[_ He]]%lookup_insert_Some; [cbn; lia|].
      pose proof (ro_id _ Hok _ _ He). lia.
    + intros w w' e e' [[<- <-]|[_ He]]%lookup_insert_Some
        [[<- <-]|[_ He']]%lookup_insert_Some Hid; [done|..]; cbn [e_id] in Hid.
      * pose proof (ro_id _ Hok _ _ He'). lia.
      * pose proof (ro_id _ Hok _ _ He). lia.
      * by eapply (ro_unique _ Hok).
  - assert (next_id (run_reg op r) = next_id r) as Hnext.
    { rewrite run_reg_next. destruct op; [by edestruct Hop|done..]. }
    split; rewrite ?Hnext; [done|..].
    + intros w e He. destruct (run_reg_other op r w e Hop He) as (_ & e0 & He0 & ? & ? & ?).
      destruct (ro_name _ Hok _ _ He0). split; congruence.
    + intros w e He. destruct (run_reg_other op r w e Hop He) as (_ & e0 & He0 & -> & _).
      by apply (ro_id _ Hok w).
    + intros w w' e e' He He' Hid.
      destruct (run_reg_other op r w e Hop He) as (_ & e0 & He0 & Hi & _).
      destruct (run_reg_other op r w' e' Hop He') as (_ & e0' & He0' & Hi' & _).
      eapply (ro_unique _ Hok); [done..|congruence].
Qed.

Lemma next_id_bound ops r :
  (0 <= next_id r)%Z -> (next_id r + Z.of_nat (length ops) < 2 ^ 64)%Z ->
  (next_id r <= next_id (run_regs ops r) <= next_id r + Z.of_nat (length ops))%Z.
Proof.
  unfold run_regs. revert r. induction ops as [|op ops IH]; intros r Hn Hb; [cbn; lia|].
  cbn [foldl length] in *.
  assert (next_id r <= next_id (run_reg op r) <= next_id r + 1)%Z as Hs.
  { rewrite run_reg_next. destruct op; rewrite ?u64_succ_small by lia; lia. }
  specialize (IH (run_reg op r) ltac:(lia) ltac:(lia)). lia.
Qed.

Lemma registry_ok_run ops r :
  registry_ok r -> (next_id r + Z.of_nat (length ops) < 2 ^ 64)%Z ->
  registry_ok (run_regs ops r).
Proof.
  unfold run_regs. revert r. induction ops as [|op ops IH]; intros r Hok Hb; [done|].
  cbn [foldl length] in *. pose proof (ro_next _ Hok).
  apply IH; [apply registry_ok_step; [done|lia]|].
  rewrite run_reg_next. destruct op; rewrite ?u64_succ_small by lia; lia.
Qed.

(** [retired ws id r]: the generation [id] is past and not [ws]'s connection. *)
Definition retired (ws : string) (id : Z) (r : Registry) : Prop :=
  (id <= next_id r)%Z /\ forall e, entries r !! ws = Some e -> e_id e <> id.

Lemma retired_step ws id op r :
  (0 <= next_id r < 2 ^ 64 - 1)%Z -> retired ws id r -> retired ws id (run_reg op r).
Proof.
  intros Hb [Hid Hne]. split.
  { rewrite run_reg_next. destruct op; rewrite ?u64_succ_small by lia; lia. }
  intros e He.
  assert ((exists w a b c d f, op = RRegister w a b c d f)
    \/ (forall w a b c d f, op <> RRegister w a b c d f))
    as [(w & a & b & c & d & f & ->)|Hop]
    by (destruct op; [left; by repeat eexists|right; done..]).
  - cbn [run_reg] in He. unfold register_with_idle in He. cbv zeta in He. cbn [snd] in He.
    fsimpl. apply lookup_insert_Some in He as [[<- <-]|[_ He]]; [|by apply Hne].
    cbn [e_id]. rewrite u64_succ_small by lia. lia.
  - destruct (run_reg_other op r ws e Hop He) as (_ & e0 & He0 & -> & _). by apply Hne.
Qed.

Lemma retired_run ws id ops r :
  (0 <= next_id r)%Z -> (next_id r + Z.of_nat (length ops) < 2 ^ 64)%Z ->
  retired ws id r -> retired ws id (run_regs ops r).
Proof.
  unfold run_regs. revert r. induction ops as [|op ops IH]; intros r Hn Hb Hr; [done|].
  cbn [foldl length] in *.
  assert (next_id r <= next_id (run_reg op r) <= next_id r + 1)%Z.
  { rewrite run_reg_next. destruct op; rewrite ?u64_succ_small by lia; lia. }
  apply IH; [lia|lia|]. apply retired_step; [lia|done].
Qed.

(** After any sequence of registry operations, entries are keyed by workspace
    name, their published generation is their connection id, and no connection id
    is shared or still to be handed out. *)
Theorem registry_is_consistent ops :
  (Z.of_nat (length ops) < 2 ^ 64)%Z -> registry_ok (run_regs ops registry_new).
Proof.
  intros Hb. apply registry_ok_run; [|cbn; lia]. split; cbn [registry_new next_id entries].
  - lia.
  - intros *. by rewrite lookup_empty.
  - intros *. by rewrite lookup_empty.
  - intros *. by rewrite lookup_empty.
Qed.

(** Once a workspace has registered again, the disconnect of its old connection
    never removes it: whatever happens in between, [unregister_if] with the old
    generation is refused. *)
Theorem stale_disconnect_is_harmless r ws dir desc cfg idle now old ops :
  registry_ok r -> entries r !! ws = Some old ->
  (next_id r + 1 + Z.of_nat (length ops) < 2 ^ 64)%Z ->
  let r2 := run_regs ops (register_with_idle ws dir desc cfg idle now r).2 in
  unregister_if ws (e_id old) r2 = (false, r2).
Proof.
  intros Hok Hold Hb. cbv zeta.
  set (r1 := (register_with_idle ws dir desc cfg idle now r).2).
  pose proof (ro_next _ Hok). pose proof (ro_id _ Hok _ _ Hold).
  assert (next_id r1 = next_id r + 1)%Z as Hn1 by (cbn; apply u64_succ_small; lia).
  assert (retired ws (e_id old) r1) as Hret.
  { split; [lia|]. intros e. unfold r1, register_with_idle. cbv zeta. cbn [snd]. fsimpl.
    rewrite lookup_insert_eq. intros [= <-]. cbn [e_id]. rewrite u64_succ_small by lia. lia. }
  destruct (retired_run ws (e_id old) ops r1) as [_ Hne]; [lia|lia|done|].
  unfold unregister_if.
  destruct (entries (run_regs ops r1) !! ws) as [e|] eqn:E; [|done].
  destruct (Z.eqb_spec (e_id e) (e_id old)) as [Heq|]; [|done]. by destruct (Hne e).
Qed.
