(* ===== verification/Wake.v ===== *)
(** * The wake scheduler (crates/ax-daemon/src/wake_scheduler.rs, daemonutil.rs).

    The scheduler owns the map of pending wakes.  What it reaches through its
    collaborators (the tmux backend, the queue, the refill, session and retry
    hooks) is the interface [WakeEnv], over a world [W] that the rest of the
    daemon instantiates.  The hooks run under the scheduler's lock, so they
    cannot touch the pending map. *)

From stdpp Require Import prelude strings list gmap.
From S2P Require Import Prelude RustStr Proto.

Definition WAKE_CHECK_INTERVAL : Z := secs 3.
Definition WAKE_MAX_ATTEMPTS : nat := 10.

Definition wake_backoff (attempt : nat) : Z :=
  match attempt with
  | 0 => secs 5
  | 1 => secs 10
  | 2 => secs 20
  | 3 => secs 40
  | _ => secs 60
  end.

Definition dquote : string := String (Ascii.ascii_of_nat 34) "".

Definition wake_prompt (sender : string) (fresh : bool) : string :=
  let task_check := "`read_messages`가 비어 있어도 현재 워크스페이스에 할당된 daemon task를 `list_tasks(assignee=<self>, status=pending)` 및 `list_tasks(assignee=<self>, status=in_progress)`로 확인하고, runnable task는 `get_task`로 구조화된 문맥을 확인한 뒤 처리하세요." in
  let reply :=
    if String.eqb (trim sender) "_cli"
    then "`_cli`로의 직접 `send_message`가 지원되는지 확실할 때만 해당 reply path를 사용하고, 그렇지 않으면 현재 최종 응답에 결과를 보고하세요."
    else "회신이 필요하면 `send_message(to=" +:+ dquote +:+ sender +:+ dquote
         +:+ ")`로 결과를 보내주세요." in
  let base := "대기 중인 메시지가 있습니다. `read_messages`로 확인하고 요청된 작업을 수행해 주세요. "
              +:+ task_check +:+ " " +:+ reply in
  if negb fresh then base
  else base +:+ " 이번 dispatch는 fresh-context 시작이 요청된 task입니다. 메시지에 `Task ID:`가 있으면 먼저 `get_task`로 해당 task를 확인하고, 이전 대화 문맥을 이어받았다고 가정하지 말고 현재 메시지와 task 정보만으로 다시 시작해 주세요.".

Record PendingWake := mkPendingWake {
  pw_workspace : string;
  pw_sender : string;
  pw_attempts : nat;
  pw_next_retry : Z;
}.
#[export] Instance PendingWake_eta : Updatable PendingWake := fun p =>
  mkPendingWake (pw_workspace p) (pw_sender p) (pw_attempts p) (pw_next_retry p).

(** What the scheduler needs from the rest of the daemon. *)
Class WakeEnv (W : Type) := {
  (* MessageQueue::pending_count *)
  env_pending_count : string -> W -> nat;
  (* the WakeBackend trait *)
  env_session_exists : string -> W -> bool;
  env_is_idle : string -> W -> bool;
  env_wake_workspace : string -> string -> W -> bool * W;
  (* the optional hooks *)
  env_refill : option (string -> string -> W -> nat * W);
  env_ensure_session : option (string -> string -> W -> bool * W);
  env_retry_after_successful : option (string -> W -> bool);
}.

(** [pending] and the world; [wakes] is a log of the keystrokes sent, newest
    first, which the code does not keep. *)
Record wake_state (W : Type) := mkWakeState {
  pending : gmap string PendingWake;
  world : W;
  wakes : list string;
}.
Arguments mkWakeState {W}.
Arguments pending {W}.
Arguments world {W}.
Arguments wakes {W}.

Section wake.
Context {W : Type} `{!WakeEnv W}.
Implicit Types (s : wake_state W) (p : gmap string PendingWake).

Definition schedule (workspace sender : string) (now : Z) p : gmap string PendingWake :=
  <[workspace := mkPendingWake workspace sender 0 (now + secs 5)]> p.

Definition wake_cancel (workspace : string) p : gmap string PendingWake := delete workspace p.

(** [state], as the pending wake itself ([WakeState] has the same fields). *)
Definition wake_state_of (workspace : string) p : option PendingWake := p !! workspace.

(** [advance_attempt]: [None] when the session was just ensured, otherwise whether
    the wake succeeded. *)
Definition advance_attempt (workspace : string) (wake_result : option bool) (now : Z)
    (w : W) p : gmap string PendingWake :=
  match p !! workspace with
  | None => p
  | Some entry =>
      let attempts := S (pw_attempts entry) in
      let wake_failed := bool_decide (wake_result = Some false) in
      let keep_retrying :=
        if wake_failed then true
        else match env_retry_after_successful with
             | Some hook => hook workspace w
             | None => true
             end in
      let max_reached := WAKE_MAX_ATTEMPTS <=? attempts in
      if wake_failed || max_reached || negb keep_retrying then delete workspace p
      else <[workspace := entry <| pw_attempts := attempts |>
                                <| pw_next_retry := (now + wake_backoff attempts)%Z |>]> p
  end.

(** Step 1 of an iteration: try to refill an empty inbox. *)
Definition refill_if_empty (ws sender : string) (w : W) : W :=
  if env_pending_count ws w =? 0
  then match env_refill with
       | Some refill => (refill ws sender w).2
       | None => w
       end
  else w.

(** One iteration of [process]; [now] is the clock at that point. *)
Definition process_one (now : Z) s (pw : PendingWake) : wake_state W :=
  let ws := pw_workspace pw in
  let w := refill_if_empty ws (pw_sender pw) (world s) in
  if env_pending_count ws w =? 0
  then mkWakeState (wake_cancel ws (pending s)) w (wakes s) else
  if negb (env_session_exists ws w) then
    let '(ensured, w) := match env_ensure_session with
                         | Some f => f ws (pw_sender pw) w
                         | None => (false, w)
                         end in
    if negb ensured then mkWakeState (wake_cancel ws (pending s)) w (wakes s)
    else mkWakeState (advance_attempt ws None now w (pending s)) w (wakes s)
  else
  if negb (env_is_idle ws w) then
    mkWakeState (match pending s !! ws with
                 | Some entry =>
                     <[ws := entry <| pw_next_retry := (now + WAKE_CHECK_INTERVAL)%Z |>]>
                       (pending s)
                 | None => pending s
                 end) w (wakes s)
  else
    let '(ok, w) := env_wake_workspace ws (wake_prompt (pw_sender pw) false) w in
    mkWakeState (advance_attempt ws (Some ok) now w (pending s)) w (ws :: wakes s).

(** [process]: [clock ws] is the reading while [ws] is handled. *)
Definition process (now : Z) (clock : string -> Z) s : wake_state W :=
  let ready := List.filter (fun pw => (pw_next_retry pw <=? now)%Z)
                 (btree_values (pending s)) in
  foldl (fun s pw => process_one (clock (pw_workspace pw)) s pw) s ready.

(** ** Invariant and frame. *)

(** Entries are keyed by workspace and have attempts left. *)
Definition pending_ok p : Prop :=
  forall ws e, p !! ws = Some e -> pw_workspace e = ws /\ pw_attempts e < WAKE_MAX_ATTEMPTS.

Lemma schedule_ok ws sender now p : pending_ok p -> pending_ok (schedule ws sender now p).
Proof.
  unfold schedule. intros Hok w e [[<- <-]|[_ He]]%lookup_insert_Some; [|by apply Hok].
  split; [done|]. cbn. unfold WAKE_MAX_ATTEMPTS. lia.
Qed.

Lemma advance_attempt_frame ws r now w p k :
  k <> ws -> advance_attempt ws r now w p !! k = p !! k.
Proof.
  intros Hne. unfold advance_attempt. destruct (p !! ws); [|done]. cbv zeta.
  destruct (_ || _); [by rewrite lookup_delete_ne|by rewrite lookup_insert_ne].
Qed.

(** The outcome of an attempt for its own workspace. *)
Lemma advance_attempt_self ws r now w p e e' :
  p !! ws = Some e -> advance_attempt ws r now w p !! ws = Some e' ->
  pw_workspace e' = pw_workspace e /\ pw_sender e' = pw_sender e
  /\ pw_attempts e' = S (pw_attempts e) /\ pw_attempts e' < WAKE_MAX_ATTEMPTS
  /\ pw_next_retry e' = (now + wake_backoff (pw_attempts e'))%Z /\ r <> Some false.
Proof.
  intros He. unfold advance_attempt. rewrite He. cbv zeta.
  case_bool_decide as Hr; cbn [orb]; [by rewrite lookup_delete_eq|].
  destruct (Nat.leb_spec WAKE_MAX_ATTEMPTS (S (pw_attempts e))); cbn [orb];
    [by rewrite lookup_delete_eq|].
  destruct (negb _); [by rewrite lookup_delete_eq|].
  rewrite lookup_insert_eq. intros [= <-]. split_and!; try done.
Qed.

Lemma advance_attempt_ok ws r now w p :
  pending_ok p -> pending_ok (advance_attempt ws r now w p).
Proof.
  intros Hok k e' He'. destruct (decide (k = ws)) as [->|Hne].
  - destruct (p !! ws) as [e|] eqn:He.
    + destruct (advance_attempt_self _ _ _ _ _ _ _ He He') as (-> & _ & _ & ? & _).
      by destruct (Hok _ _ He).
    + unfold advance_attempt in He'. rewrite He in He'. congruence.
  - rewrite advance_attempt_frame in He' by done. by apply Hok.
Qed.

(** [process_one] in terms of the pending map: four possible effects. *)
Inductive wake_effect (now : Z) (ws : string) p : gmap string PendingWake -> bool -> Prop :=
| we_cancelled : wake_effect now ws p (wake_cancel ws p) false
| we_ensured w : wake_effect now ws p (advance_attempt ws None now w p) false
| we_busy entry :
    p !! ws = Some entry ->
    wake_effect now ws p
      (<[ws := entry <| pw_next_retry := (now + WAKE_CHECK_INTERVAL)%Z |>]> p) false
| we_absent : p !! ws = None -> wake_effect now ws p p false
| we_woken ok w : wake_effect now ws p (advance_attempt ws (Some ok) now w p) true.

Lemma process_one_effect now s pw :
  exists woken, wake_effect now (pw_workspace pw) (pending s)
    (pending (process_one now s pw)) woken
    /\ wakes (process_one now s pw)
       = if woken then pw_workspace pw :: wakes s else wakes s.
Proof.
  unfold process_one. cbv zeta. set (w := refill_if_empty _ _ _).
  destruct (env_pending_count _ w =? 0); [eexists; split; [apply we_cancelled|done]|].
  destruct (env_session_exists _ w); cbn [negb].
  - destruct (env_is_idle _ w); cbn [negb].
    + destruct (env_wake_workspace _ _ w) as [ok w'].
      eexists. split; [apply we_woken|done].
    + destruct (pending s !! pw_workspace pw) eqn:E; exists false; cbn [pending wakes];
        (split; [|done]); [by apply we_busy|by apply we_absent].
  - destruct (match env_ensure_session with Some _ => _ | None => _ end) as [[] w'];
      cbn [negb]; exists false; (split; [|done]); [apply we_ensured|apply we_cancelled].
Qed.

Lemma wake_effect_frame now ws p p' b k :
  wake_effect now ws p p' b -> k <> ws -> p' !! k = p !! k.
Proof.
  intros [] Hne; [by apply lookup_delete_ne|by apply advance_attempt_frame
    |by rewrite lookup_insert_ne|done|by apply advance_attempt_frame].
Qed.

Lemma wake_effect_ok now ws p p' b : wake_effect now ws p p' b -> pending_ok p -> pending_ok p'.
Proof.
  intros [|w|entry He0| |ok w] Hok;
    [|by apply advance_attempt_ok| |done|by apply advance_attempt_ok].
  - unfold wake_cancel. intros k e [_ He]%lookup_delete_Some. by apply Hok.
  - intros k e [[<- <-]|[_ He]]%lookup_insert_Some; [|by apply Hok].
    by destruct (Hok _ _ He0).
Qed.

(** ** Potential: the wakes a workspace can still cost. *)

Definition remaining (ws : string) p : nat :=
  match p !! ws with Some e => WAKE_MAX_ATTEMPTS - pw_attempts e | None => 0 end.
Definition count_wakes (ws : string) (l : list string) : nat :=
  length (List.filter (String.eqb ws) l).
Definition potential (ws : string) s : nat :=
  count_wakes ws (wakes s) + remaining ws (pending s).

Lemma advance_attempt_remaining ws r now w p e :
  pending_ok p -> p !! ws = Some e ->
  remaining ws (advance_attempt ws r now w p) + 1 <= remaining ws p.
Proof.
  intros Hok He. destruct (Hok _ _ He) as [_ Hlt]. unfold remaining. rewrite He.
  destruct (advance_attempt ws r now w p !! ws) as [e'|] eqn:He'; [|lia].
  destruct (advance_attempt_self _ _ _ _ _ _ _ He He') as (_ & _ & -> & _). lia.
Qed.

Lemma wake_effect_remaining now ws p p' b e :
  pending_ok p -> p !! ws = Some e -> wake_effect now ws p p' b ->
  remaining ws p' + (if b then 1 else 0) <= remaining ws p.
Proof.
  intros Hok He Hw. destruct Hw as [|w|entry Hentry|Hn|ok w].
  - unfold remaining, wake_cancel. rewrite lookup_delete_eq. lia.
  - pose proof (advance_attempt_remaining ws None now w p e Hok He). lia.
  - unfold remaining. rewrite lookup_insert_eq, Hentry. fsimpl. lia.
  - congruence.
  - by apply (advance_attempt_remaining ws _ now w p e).
Qed.

Lemma process_one_potential now s pw k :
  pending_ok (pending s) -> is_Some (pending s !! pw_workspace pw) ->
  potential k (process_one now s pw) <= potential k s.
Proof.
  intros Hok [e He]. destruct (process_one_effect now s pw) as (b & Hw & Hl).
  unfold potential. rewrite Hl. destruct (decide (k = pw_workspace pw)) as [->|Hne].
  - pose proof (wake_effect_remaining _ _ _ _ _ _ Hok He Hw) as Hr.
    destruct b; unfold count_wakes; cbn [List.filter]; rewrite ?String.eqb_refl;
      cbn [length]; lia.
  - unfold remaining. rewrite (wake_effect_frame _ _ _ _ _ _ Hw Hne).
    destruct b; [|lia]. unfold count_wakes. cbn [List.filter].
    by rewrite (proj2 (String.eqb_neq _ _) Hne).
Qed.

Lemma process_fold (f : PendingWake -> Z) ready s :
  pending_ok (pending s) -> NoDup (pw_workspace <$> ready) ->
  (forall pw, pw ∈ ready -> is_Some (pending s !! pw_workspace pw)) ->
  let s' := foldl (fun s pw => process_one (f pw) s pw) s ready in
  pending_ok (pending s')
  /\ (forall k, potential k s' <= potential k s)
  /\ (forall k, k ∉ pw_workspace <$> ready -> pending s' !! k = pending s !! k).
Proof.
  revert s. induction ready as [|pw ready IH]; intros s Hok Hnd Hin; cbv zeta; [done|].
  cbn [foldl fmap list_fmap] in *. apply NoDup_cons in Hnd as [Hpw Hnd].
  destruct (process_one_effect (f pw) s pw) as (b & Hw & _).
  assert (forall k, k <> pw_workspace pw ->
    pending (process_one (f pw) s pw) !! k = pending s !! k) as Hframe
    by (intros k; by eapply wake_effect_frame).
  destruct (IH (process_one (f pw) s pw)) as (Hok' & Hpot & Hf); [|done| |].
  - by eapply wake_effect_ok.
  - intros pw' Hpw'. rewrite Hframe; [apply Hin; set_solver|].
    intros Heq. apply Hpw. rewrite <-Heq. by apply list_elem_of_fmap_2.
  - split_and!; [done| |].
    + intros k. etrans; [apply Hpot|]. apply process_one_potential; [done|].
      apply Hin. set_solver.
    + intros k Hk. rewrite Hf by set_solver. apply Hframe. set_solver.
Qed.

Lemma ready_NoDup p (due : PendingWake -> bool) :
  pending_ok p -> NoDup (pw_workspace <$> List.filter due (btree_values p)).
Proof.
  intros Hok. unfold btree_values.
  assert (forall kv, kv ∈ btree_to_list p -> pw_workspace kv.2 = kv.1) as Hk.
  { intros [k e] He%elem_of_btree_to_list. by apply Hok in He as [? _]. }
  pose proof (btree_keys_NoDup p) as Hnd. unfold btree_keys in Hnd.
  induction (btree_to_list p) as [|[k e] l IH]; [apply NoDup_nil_2|].
  cbn [fmap list_fmap List.filter snd] in *. cbn [fst] in Hnd.
  apply NoDup_cons in Hnd as [Hn Hnd]. specialize (IH ltac:(set_solver) Hnd).
  destruct (due e); [|done]. cbn [fmap list_fmap].
  apply NoDup_cons. split; [|done]. intros Hin. apply Hn.
  apply list_elem_of_fmap in Hin as (e' & Heq & He').
  apply list_elem_of_In, List.filter_In in He' as [He' _].
  apply list_elem_of_In, list_elem_of_fmap in He' as ([k' e''] & -> & Hin).
  pose proof (Hk (k, e) ltac:(set_solver)). pose proof (Hk (k', e'') ltac:(set_solver)).
  apply list_elem_of_fmap. exists (k', e''). split; [cbn in *; congruence|done].
Qed.

Lemma process_facts now clock s :
  pending_ok (pending s) ->
  pending_ok (pending (process now clock s))
  /\ (forall k, potential k (process now clock s) <= potential k s)
  /\ (forall k e, pending s !! k = Some e -> (now < pw_next_retry e)%Z ->
        pending (process now clock s) !! k = Some e).
Proof.
  intros Hok. unfold process. cbv zeta. set (ready := List.filter _ _).
  assert (forall pw, pw ∈ ready -> pending s !! pw_workspace pw = Some pw
    /\ (pw_next_retry pw <= now)%Z) as Hready.
  { intros pw [Hin Hdue]%list_elem_of_In%List.filter_In.
    apply list_elem_of_In, elem_of_btree_values in Hin as [k Hk].
    destruct (Hok _ _ Hk) as [<- _]. split; [done|lia]. }
  destruct (process_fold (fun pw => clock (pw_workspace pw)) ready s) as (H1 & H2 & H3).
  - done.
  - by apply ready_NoDup.
  - intros pw Hpw. destruct (Hready _ Hpw). by eexists.
  - split_and!; [done|done|]. intros k e Hk Hlater. rewrite H3; [done|].
    intros (pw & -> & Hpw)%list_elem_of_fmap. destruct (Hready _ Hpw). simplify_eq. lia.
Qed.

(** ** Runs of the scheduler. *)

Inductive wake_op :=
| WSchedule (ws sender : string) (now : Z)
| WCancel (ws : string)
| WProcess (now : Z) (clock : string -> Z)
| WWorld (f : W -> W).

Definition run_wake (op : wake_op) s : wake_state W :=
  match op with
  | WSchedule ws sender now => mkWakeState (schedule ws sender now (pending s)) (world s) (wakes s)
  | WCancel ws => mkWakeState (wake_cancel ws (pending s)) (world s) (wakes s)
  | WProcess now clock => process now clock s
  | WWorld f => mkWakeState (pending s) (f (world s)) (wakes s)
  end.
Definition run_wakes (ops : list wake_op) s : wake_state W :=
  foldl (fun s op => run_wake op s) s ops.

Definition schedules (ws : string) (op : wake_op) : bool :=
  match op with WSchedule ws' _ _ => String.eqb ws ws' | _ => false end.

Lemma run_wake_ok op s : pending_ok (pending s) -> pending_ok (pending (run_wake op s)).
Proof.
  intros Hok. destruct op; cbn [run_wake pending]; [by apply schedule_ok| | |done].
  - unfold wake_cancel. intros k e [_ He]%lookup_delete_Some. by apply Hok.
  - by apply process_facts.
Qed.

Lemma run_wake_potential op s k :
  pending_ok (pending s) -> schedules k op = false ->
  potential k (run_wake op s) <= potential k s.
Proof.
  intros Hok Hs. destruct op; cbn [run_wake].
  - apply String.eqb_neq in Hs. unfold potential, remaining, schedule. cbn [pending wakes].
    by rewrite lookup_insert_ne.
  - unfold potential, remaining, wake_cancel. cbn [pending wakes].
    destruct (decide (ws = k)) as [->|]; [rewrite lookup_delete_eq; lia|].
    by rewrite lookup_delete_ne.
  - by apply process_facts.
  - done.
Qed.

Lemma run_wakes_potential ops s k :
  pending_ok (pending s) -> forallb (fun op => negb (schedules k op)) ops = true ->
  potential k (run_wakes ops s) <= potential k s.
Proof.
  unfold run_wakes. revert s. induction ops as [|op ops IH]; intros s Hok Hops; [done|].
  cbn [foldl forallb] in *. apply andb_true_iff in Hops as [Hop Hops].
  apply negb_true_iff in Hop.
  etrans; [by apply IH, Hops; apply run_wake_ok|by apply run_wake_potential].
Qed.

(** C40: a scheduled wake costs at most ten keystroke deliveries: between two
    schedules of a workspace, however often the loop runs and whatever the sessions
    and the queue do, it is woken at most [WAKE_MAX_ATTEMPTS] times. *)
Theorem wakes_are_bounded ops s ws sender now :
  pending_ok (pending s) -> forallb (fun op => negb (schedules ws op)) ops = true ->
  let s0 := run_wake (WSchedule ws sender now) s in
  count_wakes ws (wakes (run_wakes ops s0)) <= count_wakes ws (wakes s) + WAKE_MAX_ATTEMPTS.
Proof.
  intros Hok Hops. cbv zeta. set (s0 := run_wake _ s).
  assert (potential ws s0 = count_wakes ws (wakes s) + WAKE_MAX_ATTEMPTS) as <-.
  { unfold s0, potential, remaining. cbn [run_wake pending wakes]. unfold schedule.
    rewrite lookup_insert_eq. cbn [pw_attempts]. lia. }
  etrans; [|apply run_wakes_potential; [by apply run_wake_ok|done]].
  unfold potential. lia.
Qed.

(** What one pass does with a due wake, by cases: with an empty inbox (after
    the refill hook) it is dropped; with no session it is dropped unless the session
    is ensured; while the agent is busy it is postponed three seconds at no cost;
    otherwise the agent is woken.  An attempt that is not the last is rescheduled
    with the backoff 10, 20, 40, 60 s; a failed wake or the tenth attempt drops it. *)
Theorem due_wake_is_handled now s pw e :
  pending s !! pw_workspace pw = Some e ->
  let ws := pw_workspace pw in
  let w := refill_if_empty ws (pw_sender pw) (world s) in
  let s' := process_one now s pw in
  if env_pending_count ws w =? 0
  then pending s' !! ws = None /\ wakes s' = wakes s
  else if env_session_exists ws w
  then if env_is_idle ws w
       then wakes s' = ws :: wakes s
            /\ forall e', pending s' !! ws = Some e' ->
                 (env_wake_workspace ws (wake_prompt (pw_sender pw) false) w).1 = true
                 /\ pw_attempts e' = S (pw_attempts e) /\ pw_attempts e' < WAKE_MAX_ATTEMPTS
                 /\ pw_next_retry e' = (now + wake_backoff (pw_attempts e'))%Z
       else wakes s' = wakes s
            /\ pending s' !! ws
               = Some (e <| pw_next_retry := (now + WAKE_CHECK_INTERVAL)%Z |>)
  else wakes s' = wakes s
       /\ forall e', pending s' !! ws = Some e' ->
            pw_attempts e' = S (pw_attempts e) /\ pw_attempts e' < WAKE_MAX_ATTEMPTS
            /\ pw_next_retry e' = (now + wake_backoff (pw_attempts e'))%Z.
Proof.
  intros He. cbv zeta. unfold process_one. cbv zeta.
  set (ws := pw_workspace pw) in *. set (w := refill_if_empty _ _ _).
  destruct (env_pending_count ws w =? 0); [split; [apply lookup_delete_eq|done]|].
  destruct (env_session_exists ws w); cbn [negb].
  - destruct (env_is_idle ws w); cbn [negb].
    + destruct (env_wake_workspace _ _ w) as [ok w']. cbn [pending wakes fst]. split; [done|].
      intros e' He'. destruct (advance_attempt_self _ _ _ _ _ _ _ He He')
        as (_ & _ & ? & ? & ? & Hok). destruct ok; [done|]. by destruct Hok.
    + cbn [pending wakes]. rewrite He. split; [done|]. by rewrite lookup_insert_eq.
  - destruct (match env_ensure_session with Some _ => _ | None => _ end) as [[] w'];
      cbn [negb pending wakes]; (split; [done|]); intros e' He'.
    + by destruct (advance_attempt_self _ _ _ _ _ _ _ He He') as (_ & _ & ? & ? & ? & _).
    + unfold wake_cancel in He'. by rewrite lookup_delete_eq in He'.
Qed.

(** The reachable pending maps satisfy the invariant. *)
Lemma run_wakes_ok ops w l : pending_ok (pending (run_wakes ops (mkWakeState ∅ w l))).
Proof.
  unfold run_wakes. assert (pending_ok (pending (mkWakeState ∅ w l))) as Hok.
  { intros k e. cbn [pending]. by rewrite lookup_empty. }
  revert Hok. generalize (mkWakeState ∅ w l).
  induction ops as [|op ops IH]; intros s Hok; [done|]. by apply IH, run_wake_ok.
Qed.
End wake.
