(* ===== verification/SessionManager.v ===== *)
(** * The session manager (crates/ax-daemon/src/session_manager.rs).

    [SessionBackend] is the interface to the ax-workspace and ax-tmux crates:
    probing, waking and interrupting sessions, dispatching runnable work and
    controlling named targets, over the state [T] of the sessions.  [SessionWorld]
    implements it. *)

From stdpp Require Import prelude strings list gmap.
From S2P Require Import Prelude RustStr Proto TaskHelpers TaskStore Queue Registry Wake.

Inductive LifecycleAction := Start | Stop | Restart.
Inductive LifecycleTargetKind := TargetWorkspace | TargetOrchestrator.
Record LifecycleTarget := mkLifecycleTarget {
  lt_name : string;
  lt_kind : LifecycleTargetKind;
  lt_managed_session : bool;
}.

(** The answer to an agent-lifecycle request. *)
Record AgentLifecycleResponse := mkAgentLifecycleResponse {
  al_name : string;
  al_action : string;
  al_target_kind : string;
  al_managed_session : bool;
  al_exact_match : bool;
  al_status : string;
  al_session_exists_before : bool;
  al_session_exists_after : bool;
}.

Class SessionBackend (T : Type) := {
  tmux_session_exists : string -> T -> bool;
  tmux_is_idle : string -> T -> bool;
  tmux_wake_workspace : string -> string -> T -> result string unit * T;
  tmux_interrupt_workspace : string -> T -> result string unit * T;
  dispatch_runnable_work : string -> string -> string -> bool -> T -> result string unit * T;
  start_named_target : string -> string -> T -> result string LifecycleTarget * T;
  stop_named_target : string -> string -> T -> result string LifecycleTarget * T;
  restart_named_target : string -> string -> T -> result string LifecycleTarget * T;
  agent_lifecycle :
    string -> string -> LifecycleAction -> T -> result string AgentLifecycleResponse * T;
}.

Section session_manager.
Context {T : Type} `{!SessionBackend T}.

Definition ensure_runnable (config_path target sender : string) (fresh : bool) (w : T)
  : result string unit * T :=
  dispatch_runnable_work config_path target sender fresh w.

Definition control (config_path target_name : string) (action : LifecycleAction) (w : T)
  : result string LifecycleTarget * T :=
  match action with
  | Start => start_named_target config_path target_name w
  | Stop => stop_named_target config_path target_name w
  | Restart => restart_named_target config_path target_name w
  end.

Definition has_open_assigned_tasks (assignee : string) (tasks : TaskStore) : bool :=
  existsb (fun task => match t_status task with
                       | Pending | InProgress | Blocked => true
                       | _ => false
                       end) (list_tasks assignee "" None tasks).

(** The loop of [pending_wake_dispatch_config]. *)
Fixpoint first_dispatch_config (tasks : list Task) : option (string * bool) :=
  match tasks with
  | [] => None
  | task :: rest =>
      let config_path := trim (t_dispatch_config_path task) in
      if is_empty config_path then first_dispatch_config rest
      else Some (config_path, bool_decide (t_start_mode task = StartFresh))
  end.

Definition pending_wake_dispatch_config (workspace : string) (now : Z) (tasks : TaskStore)
  : option (string * bool) :=
  first_dispatch_config (runnable_by_assignee workspace now tasks).

Definition ensure_pending_wake_target (workspace sender : string) (now : Z)
    (tasks : TaskStore) (w : T) : bool * T :=
  let workspace := trim workspace in
  if is_empty workspace then (false, w) else
  if tmux_session_exists workspace w then (true, w) else
  match pending_wake_dispatch_config workspace now tasks with
  | None => (false, w)
  | Some (config_path, fresh) =>
      match ensure_runnable config_path workspace sender fresh w with
      | (Ok _, w) => (true, w)
      | (Err _, w) => (false, w)
      end
  end.

Definition is_always_on_target (name : string) : bool :=
  let trimmed := trim name in
  String.eqb trimmed "orchestrator" || ends_with trimmed ".orchestrator".

(** [wakes] is [None] when no scheduler is attached. *)
Definition should_sleep (registered : RegisteredWorkspace) (now : Z) (queue : MessageQueue)
    (wakes : option (gmap string PendingWake)) (tasks : TaskStore) (w : T) : bool :=
  let name := trim (wi_name (rw_info registered)) in
  if is_empty name || is_always_on_target name then false else
  if negb (bool_decide (wi_status (rw_info registered) = Online)) then false else
  if is_empty (trim (rw_config_path registered)) then false else
  if (rw_idle_timeout registered =? 0)%Z then false else
  let elapsed := Z.max 0 (now - rw_last_active_at registered) in
  if (elapsed <? rw_idle_timeout registered)%Z then false else
  if negb (tmux_session_exists name w) || negb (tmux_is_idle name w) then false else
  if 0 <? pending_count name queue then false else
  if match wakes with
     | Some p => match wake_state_of name p with Some _ => true | None => false end
     | None => false
     end
  then false else
  negb (has_open_assigned_tasks name tasks).

(** One iteration of [stop_idle]; [clock] is the reading of [touch]. *)
Definition stop_idle_one (now clock : Z) (queue : MessageQueue)
    (wakes : option (gmap string PendingWake)) (tasks : TaskStore)
    (acc : nat * Registry * T) (registered : RegisteredWorkspace) : nat * Registry * T :=
  let '(stopped, registry, w) := acc in
  if negb (should_sleep registered now queue wakes tasks w) then acc else
  match control (rw_config_path registered) (wi_name (rw_info registered)) Stop w with
  | (Ok _, w) =>
      (S stopped, touch (wi_name (rw_info registered)) clock registry, w)
  | (Err _, w) => (stopped, touch (wi_name (rw_info registered)) clock registry, w)
  end.

Definition stop_idle (now clock : Z) (queue : MessageQueue)
    (wakes : option (gmap string PendingWake)) (tasks : TaskStore) (registry : Registry) (w : T)
  : nat * Registry * T :=
  foldl (stop_idle_one now clock queue wakes tasks) (0, registry, w)
    (registry_snapshot registry).

(** ** The guard. *)

Lemma open_assigned_tasks name tasks :
  name <> "" ->
  has_open_assigned_tasks name tasks = false <->
  forall k t, inner tasks !! k = Some t -> t_assignee t = name -> t_removed_at t = None ->
    is_open_status (t_status t) = false.
Proof.
  intros Hne. unfold has_open_assigned_tasks, list_tasks.
  rewrite <-not_true_iff_false, existsb_exists. split.
  - intros Hno k t Hk Ha Hr. apply not_true_iff_false. intros Ho. apply Hno. exists t.
    rewrite List.filter_In. split_and!; [|..|by destruct (t_status t)].
    + apply list_elem_of_In, elem_of_btree_values. eauto.
    + unfold list_matches. rewrite Hr, Ha. cbn [is_some].
      by rewrite String.eqb_refl, andb_false_r.
  - intros Hall (t & [Hin Hm]%List.filter_In & Ho).
    apply list_elem_of_In, elem_of_btree_values in Hin as [k Hk].
    unfold list_matches in Hm. destruct (t_removed_at t) eqn:Hr; [done|]. cbn [is_some] in Hm.
    rewrite (proj2 (is_empty_false name) Hne) in Hm. cbn [negb andb] in Hm.
    destruct (String.eqb_spec (t_assignee t) name) as [Ha|]; [|done].
    specialize (Hall k t Hk Ha Hr). by destruct (t_status t).
Qed.

(** A workspace that may sleep has nothing left to do. *)
Definition nothing_to_do (name : string) (queue : MessageQueue)
    (wakes : option (gmap string PendingWake)) (tasks : TaskStore) : Prop :=
  is_always_on_target name = false /\ inbox queue name = []
  /\ (forall p, wakes = Some p -> p !! name = None)
  /\ (forall k t, inner tasks !! k = Some t -> t_assignee t = name ->
        t_removed_at t = None -> is_open_status (t_status t) = false).

Lemma should_sleep_quiet registered now queue wakes tasks w :
  should_sleep registered now queue wakes tasks w = true ->
  let name := trim (wi_name (rw_info registered)) in
  name <> "" /\ nothing_to_do name queue wakes tasks.
Proof.
  cbv zeta. unfold should_sleep. cbv zeta. set (name := trim (wi_name _)).
  destruct (is_empty name) eqn:En; cbn [orb]; [done|]. apply is_empty_false in En.
  unfold nothing_to_do. rewrite <-(open_assigned_tasks name tasks En).
  destruct (is_always_on_target name); [done|].
  destruct (negb (bool_decide _)); [done|]. destruct (is_empty (trim _)); [done|].
  destruct (rw_idle_timeout registered =? 0)%Z; [done|].
  destruct (_ <? rw_idle_timeout registered)%Z; [done|].
  destruct (negb _ || negb _); [done|].
  destruct (Nat.ltb_spec 0 (pending_count name queue)) as [|Hq]; [done|].
  assert (inbox queue name = []) as Hi.
  { revert Hq. unfold pending_count, inbox. destruct (by_workspace queue !! name) as [[]|]; cbn; [done|lia|done]. }
  unfold wake_state_of. destruct wakes as [p|].
  - destruct (p !! name) eqn:Ep; [done|]. intros Ho%negb_true_iff. split_and!; [done..| |done].
    by intros ? [= <-].
  - by intros Ho%negb_true_iff.
Qed.

(** A workspace is put to sleep exactly when every documented condition holds:
    a named user session, online, with a config path and a positive idle timeout that
    has elapsed, whose session exists and is idle, with an empty inbox, no pending
    wake and no open task assigned to it. *)
Theorem sleeps_iff_nothing_left registered now queue wakes tasks w :
  (0 <= rw_idle_timeout registered)%Z ->
  let name := trim (wi_name (rw_info registered)) in
  should_sleep registered now queue wakes tasks w = true <->
    name <> "" /\ is_always_on_target name = false
    /\ wi_status (rw_info registered) = Online
    /\ trim (rw_config_path registered) <> ""
    /\ (0 < rw_idle_timeout registered <= now - rw_last_active_at registered)%Z
    /\ tmux_session_exists name w = true /\ tmux_is_idle name w = true
    /\ inbox queue name = []
    /\ (forall p, wakes = Some p -> p !! name = None)
    /\ (forall k t, inner tasks !! k = Some t -> t_assignee t = name ->
          t_removed_at t = None -> is_open_status (t_status t) = false).
Proof.
  intros Hto. cbv zeta. unfold should_sleep. cbv zeta.
  set (name := trim (wi_name _)).
  destruct (is_empty name) eqn:En; cbn [orb].
  { apply is_empty_true in En. split; [done|]. by intros [? _]. }
  apply is_empty_false in En.
  assert (pending_count name queue = length (inbox queue name)) as ->.
  { unfold pending_count, inbox. by destruct (by_workspace queue !! name). }
  rewrite <-(open_assigned_tasks name tasks En).
  destruct (is_always_on_target name); [split; [done|naive_solver]|].
  case_bool_decide; cbn [negb]; [|split; [done|naive_solver]].
  destruct (is_empty (trim _)) eqn:Ec;
    [apply is_empty_true in Ec; split; [done|naive_solver]|apply is_empty_false in Ec].
  destruct (Z.eqb_spec (rw_idle_timeout registered) 0);
    [split; [done|]; intros (_ & _ & _ & _ & ? & _); lia|].
  destruct (Z.ltb_spec (Z.max 0 (now - rw_last_active_at registered))
    (rw_idle_timeout registered)); [split; [done|]; intros (_ & _ & _ & _ & ? & _); lia|].
  destruct (tmux_session_exists name w), (tmux_is_idle name w); cbn [negb orb];
    try (split; [done|naive_solver]).
  destruct (inbox queue name) eqn:Ei; cbn [length Nat.ltb Nat.leb];
    [|split; [done|naive_solver]].
  assert ((match wakes with
     | Some p => match wake_state_of name p with Some _ => true | None => false end
     | None => false end) = false <-> (forall p, wakes = Some p -> p !! name = None)) as Hw.
  { unfold wake_state_of. destruct wakes as [p|]; [|naive_solver].
    destruct (p !! name) eqn:Ep; split; naive_solver. }
  destruct (match wakes with Some _ => _ | None => _ end).
  { split; [done|]. intros (_ & _ & _ & _ & _ & _ & _ & _ & Hn & _). by apply Hw in Hn. }
  destruct (has_open_assigned_tasks name tasks); cbn [negb]; split; try done.
  - naive_solver.
  - intros _. split_and!; try done; try lia. by apply Hw.
Qed.
End session_manager.
