(* ===== verification/Daemon.v ===== *)
(** * The daemon's shared state and the helpers of its handlers
    (crates/ax-daemon/src/handlers.rs and server.rs).

    [Daemon] gathers the stores that [HandlerCtx] shares between connections.
    A handler runs in the state-and-error monad [M]; [Inputs] carries what one
    request takes from outside: the clock, fresh identifiers and the outcome of
    file writes.  [d_jobs] holds the background wakes spawned on their own threads
    (config path, assignee, sender) that have not run yet.  Pushes to connected
    clients are recorded as pairs of a connection id and a message ([try_send]'s
    result is ignored by the code). *)

From stdpp Require Import prelude strings list gmap.
From S2P Require Import Prelude RustStr Proto TaskHelpers TaskStore Queue Memory SharedValues.
From S2P Require Import History PureDecisions Registry Wake SessionManager.

(** ** Error messages *)

Section display.
Context `{!TextOps}.

Definition task_store_error_to_string (e : TaskStoreError) : string :=
  match e with
  | ParentNotFound id => "parent task " +:+ debug_str id +:+ " not found"
  | ParentRemoved id => "parent task " +:+ debug_str id +:+ " has been removed"
  | NotFound id => "task " +:+ debug_str id +:+ " not found"
  | Removed id => "task " +:+ debug_str id +:+ " has been removed"
  | UnauthorisedUpdate ws id =>
      "workspace " +:+ debug_str ws +:+ " cannot update task " +:+ debug_str id
  | UnauthorisedResult ws id owner =>
      "workspace " +:+ debug_str ws +:+ " cannot set result for task " +:+ debug_str id
      +:+ " owned by " +:+ debug_str owner
  | UnauthorisedStatus ws id owner =>
      "workspace " +:+ debug_str ws +:+ " cannot change status for task " +:+ debug_str id
      +:+ " owned by " +:+ debug_str owner
  | InvalidTransition a b =>
      "invalid task status transition " +:+ debug_str a +:+ " -> " +:+ debug_str b
  | VersionMismatch id have want =>
      "task " +:+ debug_str id +:+ " version mismatch: have " +:+ show_Z have
      +:+ " want " +:+ show_Z want
  | UnauthorisedControl ws id =>
      "workspace " +:+ debug_str ws +:+ " cannot manage task " +:+ debug_str id
  | NotRetryable id => "task " +:+ debug_str id +:+ " is not pending/in_progress/blocked"
  | AlreadyTerminal id s =>
      "task " +:+ debug_str id +:+ " is already terminal (" +:+ debug_str s +:+ ")"
  | NotTerminalForRemove id =>
      "task " +:+ debug_str id +:+ " must be completed, failed, or cancelled before remove"
  | MissingCompletionEvidence id =>
      "task " +:+ debug_str id +:+ " cannot be marked completed without a leftover-scope declaration. Call update_task again with result containing either `remaining owned dirty files=<none>` (nothing left) or `remaining owned dirty files=<paths>; residual scope=<why work remains>` (more to do). See the Completion Reporting Contract in this workspace's instructions."
  | CompletionRequiresConfirmation id =>
      "task " +:+ debug_str id +:+ " requires explicit self-verification before being marked completed. Re-read the Completion Reporting Contract checklist: (1) every file you said you'd change is saved and committed where it belongs; (2) tests / build pass if applicable, or you've called out why they don't; (3) `result` already contains the `remaining owned dirty files=` marker in the correct shape; (4) no TODO, skipped branch, or unresolved blocker remains inside this task's scope. Once you've walked through the checklist, call update_task again with `confirm=true`. Do not set `confirm=true` by reflex — the point of this gate is that a human reading your transcript can see you paused to self-verify."
  | ReadError path source => "read " +:+ debug_str path +:+ ": " +:+ source
  | DecodeError path => "decode " +:+ debug_str path
  | EncodeError => "encode tasks"
  | PersistError e => "persist tasks: " +:+ e
  | Panicked => "panicked"
  end.

(** The errors of serde are not modelled, so their text is missing here. *)

Definition shared_error_to_string (e : SharedError) : string :=
  match e with
  | SharedRead path source => "read " +:+ debug_str path +:+ ": " +:+ source
  | SharedDecode path => "decode " +:+ debug_str path
  | SharedEncode => "encode"
  | SharedPersist e => "persist: " +:+ e
  end.

Definition memory_error_to_string (e : MemoryError) : string :=
  match e with
  | ScopeRequired => "memory scope is required"
  | ContentRequired => "memory content is required"
  | CreatedByRequired => "memory created_by is required"
  | MemNotFound id => "memory " +:+ debug_str id +:+ " not found"
  | AlreadySuperseded id => "memory " +:+ debug_str id +:+ " is already superseded"
  | MemRead path source => "read " +:+ debug_str path +:+ ": " +:+ source
  | MemDecode path => "decode " +:+ debug_str path
  | MemEncode => "encode memory store"
  | MemPersist e => "persist memory store: " +:+ e
  end.

Definition dispatch_error_to_string (e : TaskDispatchError) : string :=
  match e with
  | MessageRequired => "message is required"
  | ContainsTaskId id => "message must not include Task ID " +:+ debug_str id
      +:+ "; start_task injects the new task ID automatically"
  end.

Definition lifecycle_error_to_string (e : TaskLifecycleError) : string :=
  match e with
  | LifecycleStartMode s => "invalid task start mode " +:+ debug_str s
  | LifecycleWorkflowMode s => "invalid task workflow mode " +:+ debug_str s
  | LifecyclePriority s => "invalid task priority " +:+ debug_str s
  end.
End display.

(** [HandlerError::Logic] with its message; payloads are already decoded. *)
Inductive HandlerError := Logic (message : string).

Section daemon.
Context {T : Type}.

Record Daemon := mkDaemon {
  d_registry : Registry;
  d_queue : MessageQueue;
  d_shared : SharedValues;
  d_memory : Store;
  d_tasks : TaskStore;
  d_history : History;
  d_wakes : gmap string PendingWake;
  d_tmux : T;
  d_jobs : list (string * string * string);
  d_pushed : list (Z * Message);
}.
#[export] Instance Daemon_eta : Updatable Daemon := fun d =>
  mkDaemon (d_registry d) (d_queue d) (d_shared d) (d_memory d) (d_tasks d) (d_history d)
    (d_wakes d) (d_tmux d) (d_jobs d) (d_pushed d).

Record Inputs := mkInputs {
  i_now : Z;
  i_uuid : string -> string;
  i_task_fault : option string;
  i_shared_fault : option string;
  i_memory_fault : option string;
  i_history_ok : bool;
  i_spawn_fault : option string;
  i_exe_fault : option string;
}.

(** ** The monad *)

Definition M (A : Type) : Type := Daemon -> result HandlerError A * Daemon.
#[export] Instance M_ret : MRet M := fun A a d => (Ok a, d).
#[export] Instance M_bind : MBind M := fun A B f x d =>
  match x d with
  | (Ok a, d') => f a d'
  | (Err e, d') => (Err e, d')
  end.
Definition fail {A} (msg : string) : M A := fun d => (Err (Logic msg), d).
Definition with_state {A} (f : Daemon -> result HandlerError A * Daemon) : M A := f.
Definition gets {A} (f : Daemon -> A) : M A := fun d => (Ok (f d), d).
Definition modify (f : Daemon -> Daemon) : M unit := fun d => (Ok tt, f d).
Definition lift {A} (r : result string A) : M A :=
  match r with Ok a => mret a | Err e => fail e end.

Context `{!TextOps} `{!JsonCodec (list Task)} `{!JsonCodec HistoryEntry}
        `{!JsonCodec (list Memory)} `{!JsonCodec (gmap string string)} `{!SessionBackend T}.

(** ** Helpers shared by the handlers *)

Definition current_ax_bin (inp : Inputs) : M unit :=
  match i_exe_fault inp with
  | None => mret tt
  | Some e => fail ("resolve current executable: " +:+ e)
  end.

Definition touch_ws (ws : string) (now : Z) (d : Daemon) : Daemon :=
  d <| d_registry := touch ws now (d_registry d) |>.

Definition enqueue_msg (msg : Message) (uuid : string) (now : Z) (d : Daemon)
  : Message * Daemon :=
  let '(msg, q) := enqueue msg uuid now (d_queue d) in (msg, d <| d_queue := q |>).

Definition append_history (inp : Inputs) (msg : Message) (d : Daemon) : Daemon :=
  d <| d_history := append_message msg (i_now inp) (i_history_ok inp) (d_history d) |>.

Definition push_if_registered (target : string) (msg : Message) (d : Daemon) : Daemon :=
  match registry_get target (d_registry d) with
  | Some entry => d <| d_pushed := d_pushed d ++ [(e_id entry, msg)] |>
  | None => d
  end.

Definition schedule_wake (ws sender : string) (now : Z) (d : Daemon) : Daemon :=
  d <| d_wakes := schedule ws sender now (d_wakes d) |>.
Definition cancel_wake (ws : string) (d : Daemon) : Daemon :=
  d <| d_wakes := wake_cancel ws (d_wakes d) |>.

Definition require_registered (workspace : string) : M unit :=
  if is_empty workspace then fail "not registered" else mret tt.

(** [uuid] is the identifier drawn by [MessageQueue::enqueue]. *)
Definition enqueue_task_message (inp : Inputs) (uuid : string) (task : Task)
    (from content : string) (d : Daemon) : Message * Daemon :=
  let msg := task_aware_message from (t_assignee task) content (i_now inp) in
  let '(msg, d) := enqueue_msg msg uuid (i_now inp) d in
  let d := d <| d_tasks := snd (record_dispatch (t_id task) (m_to msg) (m_created_at msg)
                                  (i_now inp) (i_task_fault inp) (d_tasks d)) |> in
  (msg, append_history inp msg d).

(** One iteration of [refill_runnable_task_messages]. *)
Definition refill_one (inp : Inputs) (workspace sender : string) (acc : nat * Daemon)
    (task : Task) : nat * Daemon :=
  let '(count, d) := acc in
  if has_task_message workspace (t_id task) (d_queue d) then (count, d) else
  let content := task_dispatch_content task "" in
  let '(_, d) := enqueue_task_message inp (i_uuid inp (t_id task)) task sender content d in
  (S count, d).

Definition refill_runnable_task_messages (inp : Inputs) (workspace sender : string)
    (d : Daemon) : nat * Daemon :=
  foldl (refill_one inp workspace sender) (0, d)
    (runnable_by_assignee workspace (i_now inp) (d_tasks d)).

Definition dispatch_config_path_for_workspace (workspace : string) (d : Daemon) : string :=
  match registry_get (trim workspace) (d_registry d) with
  | Some entry => trim (e_config_path entry)
  | None => ""
  end.

(** A session operation of the backend, run on the daemon's sessions. *)
Definition on_tmux {A} (f : T -> result string A * T) (wrap : string -> string) : M A :=
  fun d => match f (d_tmux d) with
           | (Ok a, w) => (Ok a, d <| d_tmux := w |>)
           | (Err e, w) => (Err (Logic (wrap e)), d <| d_tmux := w |>)
           end.

Definition run_task_op {A} (f : TaskStore -> Prelude.result TaskStoreError A * TaskStore)
  : M A := fun d =>
  match f (d_tasks d) with
  | (Ok a, ts) => (Ok a, d <| d_tasks := ts |>)
  | (Err e, ts) => (Err (Logic (task_store_error_to_string e)), d <| d_tasks := ts |>)
  end.

(** ** Notifying the creator of a finished task *)

Definition em_dash : string := " — ".

(** [is_char_boundary] at byte [n] of a UTF-8 string. *)
Definition is_char_boundary (s : string) (n : nat) : bool :=
  if n =? 0 then true else
  match drop n (bytes s) with
  | [] => n =? String.length s
  | b :: _ => negb ((128 <=? code b)%N && (code b <? 192)%N)
  end.

(** [while !is_char_boundary(cut) && cut > 0 { cut -= 1 }]. *)
Fixpoint cut_boundary (s : string) (cut : nat) : nat :=
  match cut with
  | 0 => 0
  | S c => if is_char_boundary s cut then cut else cut_boundary s c
  end.

Definition MAX_SNIPPET : nat := 240.

Definition result_snippet (result : string) : string :=
  let result_trim := trim result in
  if is_empty result_trim then "" else
  if MAX_SNIPPET <? String.length result_trim
  then em_dash +:+ of_bytes (take (cut_boundary result_trim MAX_SNIPPET) (bytes result_trim))
       +:+ "…"
  else em_dash +:+ result_trim.

Definition terminal_label (s : TaskStatus) : option string :=
  match s with
  | Completed => Some "completed"
  | Failed => Some "failed"
  | Cancelled => Some "cancelled"
  | Blocked => Some "blocked"
  | _ => None
  end.

Definition notify_creator_of_terminal_status (inp : Inputs) (task : Task) (d : Daemon)
  : Daemon :=
  let creator := trim (t_created_by task) in
  if is_empty creator || String.eqb creator (t_assignee task) then d else
  match terminal_label (t_status task) with
  | None => d
  | Some label =>
      let content := "[task-" +:+ label +:+ "] Task ID: " +:+ t_id task +:+ em_dash
                     +:+ "assignee=" +:+ t_assignee task +:+ result_snippet (t_result task) in
      let msg := task_aware_message (t_assignee task) creator content (i_now inp) in
      let '(msg, d) := enqueue_msg msg (i_uuid inp creator) (i_now inp) d in
      let d := append_history inp msg d in
      let d := push_if_registered creator msg d in
      schedule_wake creator (t_assignee task) (i_now inp) d
  end.

(** Purge an assignee's messages about a task, and its wake if nothing is left. *)
Definition purge_task_messages (assignee task_id : string) (d : Daemon) : Daemon :=
  let d := d <| d_queue := snd (remove_task_messages assignee task_id (d_queue d)) |> in
  if pending_count assignee (d_queue d) =? 0 then cancel_wake assignee d else d.

Definition apply_task_state_followup (inp : Inputs) (task : Task) (d : Daemon) : Daemon :=
  match plan_task_state_followup task with
  | FollowupNone => d
  | CleanupTerminal assignee task_id =>
      notify_creator_of_terminal_status inp task (purge_task_messages assignee task_id d)
  end.

Definition enqueue_completion_contract_reminder (inp : Inputs) (workspace task_id : string)
    (err : TaskStoreError) (d : Daemon) : Daemon :=
  let content := "[task-completion-rejected] Task ID: " +:+ task_id +:+ em_dash
                 +:+ "your last update_task was refused. " +:+ task_store_error_to_string err in
  let msg := task_aware_message "ax-daemon" workspace content (i_now inp) in
  let '(msg, d) := enqueue_msg msg (i_uuid inp workspace) (i_now inp) d in
  let d := append_history inp msg d in
  push_if_registered workspace msg d.
End daemon.
Arguments Daemon : clear implicits.
Arguments M : clear implicits.
