(* ===== verification/Handlers.v ===== *)
(** * The request handlers (crates/ax-daemon/src/handlers.rs).

    One definition per handler, over decoded payloads; [Request] and [Response]
    gather what they take and return.  The dispatch on the request is in [Server].
    The usage-trend request is in [UsageTrends] and the agent-lifecycle request in
    [SessionWorld], the team requests are in [TeamHandlers]. *)

From Stdlib Require Import Floats.SpecFloat.
From stdpp Require Import prelude strings list gmap.
From S2P Require Import Prelude RustStr Proto TaskHelpers TaskStore Queue Memory SharedValues.
From S2P Require Import History PureDecisions Registry Wake SessionManager Daemon.

Definition MCP_ACTIVITY_TARGET : string := "ax.daemon".
Definition MCP_ACTIVITY_FIELD_LIMIT : nat := 240.

Inductive McpToolActivityStatus := ActivityOk | ActivityError.

Record CreateTaskPayload := mkCreateTaskPayload {
  cp_title : string;
  cp_description : string;
  cp_assignee : string;
  cp_parent_task_id : string;
  cp_start_mode : string;
  cp_workflow_mode : string;
  cp_priority : string;
  cp_stale_after_seconds : Z;
}.

(** The requests, with the fields of their payloads. *)
Inductive Request :=
| Register (workspace dir description config_path : string) (idle_timeout_seconds : Z)
| Unregister
| ListWorkspaces
| SetStatus (status : string)
| UpdateAgentStatusMetrics (metrics : AgentStatusMetrics)
| GetAgentStatusMetrics (workspace : string)
| ListAgentStatusMetrics
| RecordMcpToolActivity (tool task_id : string) (status : McpToolActivityStatus)
    (error_kind : string) (duration_ms : Z)
| ControlLifecycle (config_path name : string) (action : LifecycleAction)
| AgentLifecycle (config_path name : string) (action : LifecycleAction)
| SendMessage (to message config_path : string)
| Broadcast (message config_path : string)
| ReadMessages (limit : Z) (from : string)
| SetShared (key value : string)
| GetShared (key : string)
| ListShared
| RememberMemory (scope kind subject content : string) (tags supersedes : list string)
| RecallMemories (query : Query)
| CreateTask (payload : CreateTaskPayload)
| StartTask (payload : CreateTaskPayload) (message : string)
| UpdateTask (id : string) (status : option TaskStatus) (result log : option string)
    (confirm : option bool)
| GetTask (id : string)
| ListTasks (assignee created_by : string) (status : option TaskStatus)
| CancelTask (id reason : string) (expected_version : option Z)
| RemoveTask (id reason : string) (expected_version : option Z)
| InterveneTask (id action note : string) (expected_version : option Z).

Inductive Response :=
| RStatus (status : string)
| RRegistered (entry : Entry) (previous : option Entry)
| RWorkspaces (workspaces : list WorkspaceInfo)
| RMetrics (metrics : AgentStatusMetrics) (found : bool)
| RMetricsList (metrics : list AgentStatusMetrics)
| RControl (target : LifecycleTarget) (running : bool) (action : LifecycleAction)
| RAgentLifecycle (response : AgentLifecycleResponse)
| RSent (message_id status : string)
| RBroadcast (recipients : list string) (count : Z)
| RMessages (messages : list Message)
| RShared (key value : string) (found : bool)
| RSharedList (values : list (string * string))
| RMemory (memory : Memory)
| RMemories (memories : list Memory)
| RTask (task : Task)
| RStarted (task : Task) (message_id status : string)
| RTasks (tasks : list Task)
| RIntervened (task : Task) (action status message_id : string).

(** ** Pure helpers *)

Definition replace_newlines (s : string) : string :=
  of_bytes ((fun a => if ((code a =? 10) || (code a =? 13))%N then Ascii.ascii_of_nat 32 else a)
            <$> bytes s).

Definition sanitize_mcp_activity_field (raw : string) : string :=
  let compact := replace_newlines (trim raw) in
  if length (chars compact) <=? MCP_ACTIVITY_FIELD_LIMIT then compact
  else of_bytes (mjoin (take MCP_ACTIVITY_FIELD_LIMIT (chars compact))) +:+ "...".

Definition format_mcp_tool_activity (tool : string) (status : McpToolActivityStatus)
    (duration_ms : Z) (error_kind : string) : string :=
  let label := match status with ActivityOk => "ok" | ActivityError => "error" end in
  let duration := if (duration_ms >? 0)%Z
                  then " duration_ms=" +:+ show_Z duration_ms else "" in
  let error := match status with
               | ActivityError =>
                   let kind := sanitize_mcp_activity_field error_kind in
                   if negb (is_empty kind) then " error_kind=" +:+ kind else ""
               | ActivityOk => ""
               end in
  "mcp tool " +:+ tool +:+ " " +:+ label +:+ duration +:+ error.

Definition f64_one : f64 := f64_of_i64 1.

Definition validate_agent_status_metrics_payload (p : AgentStatusMetrics)
  : result string unit :=
  if match sm_context_tokens p with Some t => (t <? 0)%Z | None => false end
  then Err "context_tokens must be non-negative" else
  if match sm_context_window p with Some w => (w <=? 0)%Z | None => false end
  then Err "context_window must be greater than zero when present" else
  match sm_usage_ratio p with
  | Some ratio =>
      if negb (is_finite ratio) || negb (f64_nonneg ratio && SFleb ratio f64_one)
      then Err "usage_ratio must be between 0.0 and 1.0" else Ok tt
  | None => Ok tt
  end.

Definition should_dispatch_operator_created_task (task : Task) : bool :=
  String.eqb (t_created_by task) OPERATOR_WORKSPACE_NAME
  && negb (is_empty (trim (t_assignee task)))
  && negb (String.eqb (t_assignee task) OPERATOR_WORKSPACE_NAME).

Section handlers.
Context {T : Type} `{!TextOps} `{!JsonCodec (list Task)} `{!JsonCodec HistoryEntry}
        `{!JsonCodec (list Memory)} `{!JsonCodec (gmap string string)} `{!SessionBackend T}.
Abbreviation M := (Daemon.M T).
Implicit Types (inp : Inputs) (workspace : string).

Definition status_metrics_target_workspace (payload_workspace caller : string)
  : result string string :=
  let target := trim payload_workspace in
  if is_empty target then Ok caller else
  if negb (String.eqb target caller)
  then Err ("workspace must match registered caller " +:+ debug_str caller) else Ok target.

(** ** Registration and status *)

Definition handle_register inp (ws dir description config_path : string)
    (idle_timeout_seconds : Z) : M Response := fun d =>
  let idle_timeout := if (idle_timeout_seconds <? 0)%Z then 0%Z else secs idle_timeout_seconds in
  let '((entry, previous), r) :=
    register_with_idle ws dir description config_path idle_timeout (i_now inp)
      (d_registry d) in
  (Ok (RRegistered entry previous), d <| d_registry := r |>).

Definition handle_unregister workspace : M Response := fun d =>
  (Ok (RStatus "unregistered"),
   if negb (is_empty workspace)
   then d <| d_registry := unregister workspace (d_registry d) |> else d).

Definition handle_list_workspaces (git_status : string -> WorkspaceGitStatus) : M Response :=
  gets (fun d => RWorkspaces ((fun w =>
    w <| wi_git_status := Some (git_status (wi_dir w)) |>
      <| wi_active_task_count := count_open_for_assignee (wi_name w) (d_tasks d) |>
      <| wi_current_task_id :=
           t_id <$> most_recent_in_progress_for_assignee (wi_name w) (d_tasks d) |>)
    <$> registry_list (d_registry d))).

Definition handle_set_status inp workspace (status : string) : M Response :=
  _ ← require_registered workspace;
  _ ← modify (fun d => d <| d_registry :=
        snd (set_status_text_at workspace status (i_now inp) (d_registry d)) |>);
  mret (RStatus "ok").

Definition handle_update_agent_status_metrics inp workspace (p : AgentStatusMetrics)
  : M Response :=
  _ ← require_registered workspace;
  _ ← lift (validate_agent_status_metrics_payload p);
  target ← lift (status_metrics_target_workspace (sm_workspace p) workspace);
  let metrics := p <| sm_workspace := target |> <| sm_agent := trim (sm_agent p) |>
                   <| sm_runtime_id := trim (sm_runtime_id p) |>
                   <| sm_runtime_name := trim (sm_runtime_name p) |>
                   <| sm_session_id := trim (sm_session_id p) |>
                   <| sm_updated_at := None |> <| sm_status_title := "" |> in
  with_state (fun d => match update_status_metrics_at target metrics (i_now inp) (d_registry d) with
           | (Some m, r) => (Ok (RMetrics m true), d <| d_registry := r |>)
           | (None, _) =>
               (Err (Logic ("workspace " +:+ debug_str target +:+ " is not registered")), d)
           end).

Definition handle_get_agent_status_metrics workspace (payload_workspace : string)
  : M Response :=
  _ ← require_registered workspace;
  let target := if is_empty (trim payload_workspace) then workspace
                else trim payload_workspace in
  with_state (fun d => match get_status_metrics target (d_registry d) with
           | Some (m, found) => (Ok (RMetrics m found), d)
           | None =>
               (Err (Logic ("workspace " +:+ debug_str target +:+ " is not registered")), d)
           end).

Definition handle_list_agent_status_metrics workspace : M Response :=
  _ ← require_registered workspace;
  gets (fun d => RMetricsList (list_status_metrics (d_registry d))).

Definition handle_record_mcp_tool_activity inp workspace (tool task_id : string)
    (status : McpToolActivityStatus) (error_kind : string) (duration_ms : Z) : M Response :=
  _ ← require_registered workspace;
  let tool := sanitize_mcp_activity_field tool in
  if is_empty tool then fail "tool is required" else
  if (duration_ms <? 0)%Z then fail "duration_ms must be non-negative" else
  let task_id := trim task_id in
  let entry := mkHistoryEntry (i_now inp) workspace MCP_ACTIVITY_TARGET
                 (format_mcp_tool_activity tool status duration_ms error_kind) task_id in
  _ ← modify (fun d => d <| d_history := history_append entry (i_history_ok inp) (d_history d) |>);
  _ ← modify (touch_ws workspace (i_now inp));
  _ ← modify (fun d =>
        if negb (is_empty task_id)
        then d <| d_tasks := snd (mark_tool_activity task_id workspace (i_now inp) (i_now inp)
                                    (i_task_fault inp) (d_tasks d)) |>
        else d);
  mret (RStatus "recorded").

Definition control_lifecycle_target (config_path target_name : string)
    (action : LifecycleAction) : M LifecycleTarget :=
  on_tmux (match action with
           | Start => start_named_target config_path target_name
           | Stop => stop_named_target config_path target_name
           | Restart => restart_named_target config_path target_name
           end) id.

Definition handle_control_lifecycle inp workspace (config_path name : string)
    (action : LifecycleAction) : M Response :=
  _ ← current_ax_bin inp;
  _ ← require_registered workspace;
  let config_path := trim config_path in
  if is_empty config_path then fail "config_path is required" else
  let target_name := trim name in
  if is_empty target_name then fail "name is required" else
  target ← control_lifecycle_target config_path target_name action;
  _ ← modify (touch_ws workspace (i_now inp));
  mret (RControl target (match action with Stop => false | _ => true end) action).

Definition handle_agent_lifecycle inp workspace (config_path name : string)
    (action : LifecycleAction) : M Response :=
  _ ← current_ax_bin inp;
  _ ← require_registered workspace;
  let config_path := trim config_path in
  if is_empty config_path then fail "config_path is required" else
  result ← on_tmux (agent_lifecycle config_path name action) id;
  _ ← modify (touch_ws workspace (i_now inp));
  mret (RAgentLifecycle result).

(** ** Messages *)

Definition handle_send_message inp workspace (to message config_path : string) : M Response :=
  _ ← current_ax_bin inp;
  _ ← require_registered workspace;
  let deliver :=
    let msg := mkMessage ("msg-" +:+ i_uuid inp to) workspace to message "" (i_now inp) in
    with_state (fun d =>
      let '(msg, d) := enqueue_msg msg (i_uuid inp to) (i_now inp) d in
      let d := append_history inp msg d in
      let d := touch_ws workspace (m_created_at msg) d in
      let d := push_if_registered to msg d in
      (Ok msg, schedule_wake to workspace (i_now inp) d)) in
  match plan_send_message workspace to config_path with
  | Reject reason => fail reason
  | Enqueue => msg ← deliver; mret (RSent (m_id msg) "sent")
  | EnqueueAndEnsureRunnable config_path =>
      msg ← deliver;
      _ ← on_tmux (dispatch_runnable_work config_path to workspace false)
            (fun e => "dispatch " +:+ workspace +:+ " -> " +:+ to +:+ ": " +:+ e);
      mret (RSent (m_id msg) "sent")
  end.

(** One recipient of a broadcast. *)
Definition broadcast_one inp workspace (message : string) (d : Daemon T) (name : string)
  : Daemon T :=
  let msg := mkMessage ("msg-" +:+ i_uuid inp name) workspace name message "" (i_now inp) in
  let '(msg, d) := enqueue_msg msg (i_uuid inp name) (i_now inp) d in
  let d := append_history inp msg d in
  let d := push_if_registered name msg d in
  schedule_wake name workspace (i_now inp) d.

Fixpoint broadcast_dispatch (config_path : string) workspace (recipients : list string)
  : M unit :=
  match recipients with
  | [] => mret tt
  | recipient :: rest =>
      _ ← on_tmux (dispatch_runnable_work config_path recipient workspace false)
            (fun e => "broadcast dispatch " +:+ workspace +:+ " -> " +:+ recipient
                      +:+ ": " +:+ e);
      broadcast_dispatch config_path workspace rest
  end.

Definition handle_broadcast inp workspace (message config_path : string) : M Response :=
  _ ← current_ax_bin inp;
  _ ← require_registered workspace;
  recipients ← gets (fun d => List.filter (fun n => negb (String.eqb n workspace))
                                (wi_name <$> registry_list (d_registry d)));
  _ ← modify (fun d => foldl (broadcast_one inp workspace message) d recipients);
  _ ← modify (touch_ws workspace (i_now inp));
  let config_path := trim config_path in
  _ ← (if negb (is_empty config_path) then broadcast_dispatch config_path workspace recipients
       else mret tt);
  mret (RBroadcast recipients (i64_saturate (Z.of_nat (length recipients)))).

Definition handle_read_messages inp workspace (limit : Z) (from : string) : M Response :=
  _ ← require_registered workspace;
  let limit := if (limit <=? 0)%Z then 10 else Z.to_nat limit in
  _ ← modify (fun d =>
        if pending_count workspace (d_queue d) =? 0 then
          match wake_state_of workspace (d_wakes d) with
          | Some wake => snd (refill_runnable_task_messages inp workspace (pw_sender wake) d)
          | None => d
          end
        else d);
  let from := if negb (is_empty from) then Some from else None in
  messages ← with_state (fun d => let '(out, q) := dequeue workspace limit from (d_queue d) in
                       (Ok out, d <| d_queue := q |>));
  _ ← modify (touch_ws workspace (i_now inp));
  _ ← modify (fun d => if pending_count workspace (d_queue d) =? 0
                       then cancel_wake workspace d else d);
  mret (RMessages messages).

(** ** Shared values and memories *)

Definition handle_set_shared inp (key value : string) : M Response := fun d =>
  match shared_set key value (i_shared_fault inp) (d_shared d) with
  | (Ok _, sv) => (Ok (RStatus "stored"), d <| d_shared := sv |>)
  | (Err e, sv) => (Err (Logic ("persist shared values: " +:+ shared_error_to_string e)),
                    d <| d_shared := sv |>)
  end.

Definition handle_get_shared (key : string) : M Response :=
  gets (fun d => match shared_get key (d_shared d) with
                 | Some v => RShared key v true
                 | None => RShared key "" false
                 end).

Definition handle_list_shared : M Response :=
  gets (fun d => RSharedList (shared_list (d_shared d))).

Definition handle_remember_memory inp workspace (scope kind subject content : string)
    (tags supersedes : list string) : M Response :=
  _ ← require_registered workspace;
  memory ← with_state (fun d =>
    match remember scope kind subject content tags workspace supersedes
            (i_uuid inp "memory") (i_now inp) (i_memory_fault inp) (d_memory d) with
    | (Ok m, st) => (Ok m, d <| d_memory := st |>)
    | (Err e, st) => (Err (Logic (memory_error_to_string e)), d <| d_memory := st |>)
    end);
  _ ← modify (touch_ws workspace (i_now inp));
  mret (RMemory memory).

Definition handle_recall_memories inp workspace (query : Query) : M Response :=
  _ ← require_registered workspace;
  memories ← gets (fun d => mem_list query (d_memory d));
  _ ← modify (touch_ws workspace (i_now inp));
  mret (RMemories memories).

(** ** Tasks *)

Definition create_input workspace (p : CreateTaskPayload)
    (modes : TaskStartMode * TaskWorkflowMode * TaskPriority)
    (dispatch_body dispatch_config_path : string) : CreateTaskInput :=
  let '(start_mode, workflow_mode, priority) := modes in
  mkCreateTaskInput (cp_title p) (cp_description p) (cp_assignee p) workspace
    (cp_parent_task_id p) start_mode workflow_mode priority (cp_stale_after_seconds p)
    dispatch_body dispatch_config_path.

Definition parse_modes (p : CreateTaskPayload)
  : M (TaskStartMode * TaskWorkflowMode * TaskPriority) :=
  match parse_task_lifecycle_options (cp_start_mode p) (cp_workflow_mode p) (cp_priority p) with
  | Ok m => mret m
  | Err e => fail (lifecycle_error_to_string e)
  end.

(** [TaskDispatch { message_id, status }]. *)
Definition dispatch_task_start inp (task : Task) : M (string * string) :=
  match plan_task_start_dispatch task with
  | WaitingForInput => mret ("", "waiting_for_input")
  | Skip reason => fail ("task " +:+ t_id task +:+ " cannot be dispatched: " +:+ reason)
  | QueueDispatch _ config_path =>
      msg ← with_state (fun d =>
        let '(msg, d) := enqueue_task_message inp (i_uuid inp (t_id task)) task
                           (t_created_by task) (t_dispatch_message task) d in
        let d := push_if_registered (t_assignee task) msg d in
        (Ok msg, schedule_wake (t_assignee task) (t_created_by task) (i_now inp) d));
      _ ← match config_path with
          | Some config_path =>
              on_tmux (ensure_runnable config_path (t_assignee task) (t_created_by task) false)
                (fun e => "dispatch task " +:+ t_id task +:+ " -> " +:+ t_assignee task
                          +:+ ": " +:+ e)
          | None => mret tt
          end;
      mret (m_id msg, "queued")
  end.

Definition handle_start_task inp workspace (p : CreateTaskPayload) (message : string)
  : M Response :=
  _ ← require_registered workspace;
  modes ← parse_modes p;
  body ← match normalize_task_dispatch_body message with
         | Ok b => mret b
         | Err e => fail (dispatch_error_to_string e)
         end;
  config_path ← gets (dispatch_config_path_for_workspace workspace);
  task ← run_task_op (create (create_input workspace p modes body config_path)
                        (i_uuid inp "task") (i_now inp) (i_task_fault inp));
  dispatch ← dispatch_task_start inp task;
  _ ← modify (touch_ws workspace (i_now inp));
  refreshed ← gets (fun d => default task (get (t_id task) (d_tasks d)));
  mret (RStarted refreshed dispatch.1 dispatch.2).

Definition ensure_task_wake_message inp (task : Task) (sender : string) : M string := fun d =>
  if has_task_message (t_assignee task) (t_id task) (d_queue d) then (Ok "", d) else
  let reminder := build_task_reminder_message task "wake requested" in
  let '(msg, d) := enqueue_task_message inp (i_uuid inp (t_id task)) task sender reminder d in
  (Ok (m_id msg), push_if_registered (t_assignee task) msg d).

Definition spawn_background_task_wake inp (config_path assignee sender : string) : M unit :=
  match i_spawn_fault inp with
  | None => modify (fun d => d <| d_jobs := d_jobs d ++ [(config_path, assignee, sender)] |>)
  | Some e => fail ("spawn background task wake: " +:+ e)
  end.

(** [WakeTaskDispatch { status, message_id }]. *)
Definition dispatch_task_wake inp (task : Task) (sender : string) : M (string * string) :=
  fun d =>
  let session_exists ws := tmux_session_exists ws (d_tmux d) in
  (match plan_task_wake task session_exists with
   | EnsureRunnable config_path assignee =>
       if session_exists assignee then
         _ ← on_tmux (tmux_wake_workspace assignee (wake_prompt sender false)) id;
         mret ("woken", "")
       else
         message_id ← ensure_task_wake_message inp task sender;
         _ ← modify (schedule_wake assignee sender (i_now inp));
         _ ← spawn_background_task_wake inp config_path assignee sender;
         mret ("queued", message_id)
   | DirectWake assignee =>
       _ ← on_tmux (tmux_wake_workspace assignee (wake_prompt sender false)) id;
       mret ("woken", "")
   | SessionMissing assignee =>
       fail ("workspace " +:+ debug_str assignee +:+ " is not running")
   end) d.

Definition intervene_retry inp workspace (task : Task) (note : string)
    (expected_version : option Z) : M (Task * string) :=
  retried ← run_task_op (retry (t_id task) note workspace expected_version (i_now inp)
                           (i_task_fault inp));
  _ ← modify (fun d => d <| d_queue :=
        snd (remove_task_messages (t_assignee task) (t_id task) (d_queue d)) |>);
  let reminder := build_task_reminder_message retried (trim note) in
  msg ← with_state (fun d =>
    let '(msg, d) := enqueue_task_message inp (i_uuid inp (t_id task)) retried workspace
                       reminder d in
    let d := push_if_registered (t_assignee task) msg d in
    (Ok msg, schedule_wake (t_assignee task) workspace (i_now inp) d));
  let config_path := trim (t_dispatch_config_path retried) in
  _ ← (if negb (is_empty config_path)
       then on_tmux (ensure_runnable config_path (t_assignee task) workspace false)
              (fun e => "retry dispatch task " +:+ t_id task +:+ ": " +:+ e)
       else mret tt);
  refreshed ← gets (fun d => default retried (get (t_id task) (d_tasks d)));
  mret (refreshed, m_id msg).

Definition handle_intervene_task inp workspace (id action note : string)
    (expected_version : option Z) : M Response :=
  _ ← require_registered workspace;
  task ← with_state (fun d => match get_for_intervention id workspace expected_version (d_tasks d) with
                   | Ok t => (Ok t, d)
                   | Err e => (Err (Logic (task_store_error_to_string e)), d)
                   end);
  resp ← match plan_intervention action with
         | IWake =>
             dispatch ← dispatch_task_wake inp task workspace;
             refreshed ← gets (fun d => default task (get (t_id task) (d_tasks d)));
             mret (RIntervened refreshed action dispatch.1 dispatch.2)
         | IInterrupt =>
             live ← gets (fun d => tmux_session_exists (t_assignee task) (d_tmux d));
             if negb live
             then fail ("workspace " +:+ debug_str (t_assignee task) +:+ " is not running")
             else
               _ ← on_tmux (tmux_interrupt_workspace (t_assignee task)) (fun e => e);
               mret (RIntervened task action "interrupted" "")
         | IRetry =>
             r ← intervene_retry inp workspace task note expected_version;
             mret (RIntervened r.1 action "queued" r.2)
         | IInvalid other => fail ("invalid intervene_task action " +:+ debug_str other)
         end;
  _ ← modify (touch_ws workspace (i_now inp));
  mret resp.

Definition handle_create_task inp workspace (p : CreateTaskPayload) : M Response :=
  _ ← require_registered workspace;
  modes ← parse_modes p;
  task ← run_task_op (create (create_input workspace p modes "" "")
                        (i_uuid inp "task") (i_now inp) (i_task_fault inp));
  task ← (if should_dispatch_operator_created_task task then
            with_state (fun d =>
              let reminder := build_task_reminder_message task "" in
              let '(msg, d) := enqueue_task_message inp (i_uuid inp (t_id task)) task
                                 (t_created_by task) reminder d in
              let d := push_if_registered (t_assignee task) msg d in
              let d := schedule_wake (t_assignee task) (t_created_by task) (i_now inp) d in
              (Ok (default task (get (t_id task) (d_tasks d))), d))
          else mret task);
  _ ← modify (touch_ws workspace (i_now inp));
  mret (RTask task).

Definition handle_get_task (id : string) : M Response := fun d =>
  match get id (d_tasks d) with
  | Some t => (Ok (RTask t), d)
  | None => (Err (Logic ("task " +:+ debug_str id +:+ " not found")), d)
  end.

Definition handle_list_tasks (assignee created_by : string) (status : option TaskStatus)
  : M Response := gets (fun d => RTasks (list_tasks assignee created_by status (d_tasks d))).

(** Errors of the completion contract are mirrored into the caller's inbox. *)
Definition is_completion_contract_error (e : TaskStoreError) : bool :=
  match e with
  | MissingCompletionEvidence _ | CompletionRequiresConfirmation _ => true
  | _ => false
  end.

Definition handle_update_task inp workspace (id : string) (status : option TaskStatus)
    (result log : option string) (confirm : option bool) : M Response :=
  _ ← require_registered workspace;
  task ← with_state (fun d =>
    match update_with_confirm id status result log confirm workspace (i_now inp)
            (i_task_fault inp) (d_tasks d) with
    | (Ok t, ts) => (Ok t, d <| d_tasks := ts |>)
    | (Err e, ts) =>
        let d := d <| d_tasks := ts |> in
        (Err (Logic (task_store_error_to_string e)),
         if is_completion_contract_error e
         then enqueue_completion_contract_reminder inp workspace id e d else d)
    end);
  _ ← modify (touch_ws workspace (i_now inp));
  _ ← modify (apply_task_state_followup inp task);
  mret (RTask task).

Definition handle_cancel_task inp workspace (id reason : string) (expected_version : option Z)
  : M Response :=
  _ ← require_registered workspace;
  task ← run_task_op (cancel id reason workspace expected_version (i_now inp)
                        (i_task_fault inp));
  _ ← modify (touch_ws workspace (i_now inp));
  _ ← modify (apply_task_state_followup inp task);
  mret (RTask task).

Definition handle_remove_task inp workspace (id reason : string) (expected_version : option Z)
  : M Response :=
  _ ← require_registered workspace;
  task ← run_task_op (remove id reason workspace expected_version (i_now inp)
                        (i_task_fault inp));
  _ ← modify (touch_ws workspace (i_now inp));
  _ ← modify (purge_task_messages (t_assignee task) (t_id task));
  mret (RTask task).
End handlers.
