(* ===== verification/Server.v ===== *)
(** * Connections and background loops (crates/ax-daemon/src/server.rs, and
    [handle_envelope] of handlers.rs).

    [handle_envelope] dispatches one decoded request on a connection;
    [close_connection] is the end of [handle_connection].  The background loops
    are one definition per tick: [wake_tick], [idle_tick], [reconcile_once], and
    [run_job] for a background wake thread.  [server_step] interleaves them all;
    [server_reachable] starts from [with_state_dir] on an empty state directory.
    A handler runs as one step. *)

From stdpp Require Import prelude strings list gmap relations.
From S2P Require Import Prelude RustStr Proto TaskHelpers TaskStore Queue Memory SharedValues.
From S2P Require Import History PureDecisions Registry Wake SessionManager Daemon.
From S2P Require Import Handlers.

Definition SILENT_TASK_STALE_THRESHOLD_SECS : Z := 180.
Definition SILENT_TASK_NUDGE_CAP : Z := 5.
Definition SILENT_TASK_NUDGE_NOTE : string := "Assignee looks idle but the task is still `in_progress`. Call one of the task-lifecycle MCP tools instead of leaving it open: `report_task_progress` (heartbeat with a note), `report_task_completion` (done — supply `dirty_files` and optional `residual_scope`), `report_task_failed` (hard error with `reason`), or `report_task_blocked` (need external help — optional `needs_help_from`).".

Definition DEFAULT_HISTORY_MAX_SIZE : nat := 500.

(** The locals of [handle_connection]. *)
Record Conn := mkConn {
  c_workspace : string;
  c_id : option Z;
}.
#[export] Instance Conn_eta : Updatable Conn := fun c => mkConn (c_workspace c) (c_id c).
Definition conn_new : Conn := mkConn "" None.

(** [LoadState], with the store whose file could not be loaded. *)
Inductive DaemonError :=
| LoadShared (e : SharedError)
| LoadMemory (e : MemoryError)
| LoadTasks (e : TaskStoreError)
| LoadQueue (e : QueueError)
| LoadHistory (e : HistoryError).

(** What the file system has at the paths of the state directory. *)
Record StateFiles := mkStateFiles {
  f_shared : option (result string string);
  f_memory : option (result string string);
  f_tasks : option (result string string);
  f_tasks_legacy : option (result string string);
  f_queue : option (result string string);
  f_history : option (result string (list string));
}.
Definition no_files : StateFiles := mkStateFiles None None None None None None.

(** [Path::join] with a relative file name. *)
Definition path_join (dir file : string) : string :=
  if is_empty dir then file
  else if ends_with dir "/" then dir +:+ file else dir +:+ "/" +:+ file.

Section server.
Context {T : Type} `{!TextOps} `{!JsonCodec (list Task)} `{!JsonCodec HistoryEntry}
        `{!JsonCodec (list Memory)} `{!JsonCodec (gmap string string)}
        `{!JsonCodec (gmap string (list Message))}
        `{!JsonCodec (gmap string (option (list Message)))} `{!SessionBackend T}.
Implicit Types (inp : Inputs) (d : Daemon T) (c : Conn).

(** [Daemon::new]: everything in memory. *)
Definition daemon_new (tmux : T) : Daemon T :=
  mkDaemon registry_new queue_new shared_in_memory mem_in_memory TaskStore.in_memory
    (history_in_memory DEFAULT_HISTORY_MAX_SIZE) ∅ tmux [] [].

(** [Daemon::with_state_dir], less the team store. *)
Definition with_state_dir (state_dir : string) (files : StateFiles) inp d
  : result DaemonError (Daemon T) :=
  shared ← map_err LoadShared (shared_load (path_join state_dir "shared_values.json")
                                 (f_shared files));
  memory ← map_err LoadMemory (mem_load (path_join state_dir "memories.json")
                                 (f_memory files));
  tasks ← map_err LoadTasks (load (path_join state_dir "tasks-state.json")
                               (path_join state_dir "tasks.json")
                               (f_tasks files) (f_tasks_legacy files));
  let '(_, tasks) := recover_stale_in_progress (fun ws => tmux_session_exists ws (d_tmux d))
                       (i_now inp) (i_task_fault inp) tasks in
  queue ← map_err LoadQueue (queue_load (path_join state_dir "queue.json") (f_queue files));
  history ← map_err LoadHistory (history_load (path_join state_dir "message_history.jsonl")
                                   DEFAULT_HISTORY_MAX_SIZE (f_history files));
  Ok (d <| d_shared := shared |> <| d_memory := memory |> <| d_tasks := tasks |>
        <| d_queue := queue |> <| d_history := history |> <| d_wakes := ∅ |>).

(** The handler of every request except [Register] and [Unregister], which also
    change the connection. *)
Definition handle_request inp (git_status : string -> WorkspaceGitStatus) (workspace : string)
    (req : Request) : M T Response :=
  match req with
  | Register ws dir description config_path idle =>
      handle_register inp ws dir description config_path idle
  | Unregister => handle_unregister workspace
  | ListWorkspaces => handle_list_workspaces git_status
  | SetStatus status => handle_set_status inp workspace status
  | UpdateAgentStatusMetrics p => handle_update_agent_status_metrics inp workspace p
  | GetAgentStatusMetrics ws => handle_get_agent_status_metrics workspace ws
  | ListAgentStatusMetrics => handle_list_agent_status_metrics workspace
  | RecordMcpToolActivity tool task_id status error_kind duration_ms =>
      handle_record_mcp_tool_activity inp workspace tool task_id status error_kind duration_ms
  | ControlLifecycle config_path name action =>
      handle_control_lifecycle inp workspace config_path name action
  | AgentLifecycle config_path name action =>
      handle_agent_lifecycle inp workspace config_path name action
  | SendMessage to message config_path =>
      handle_send_message inp workspace to message config_path
  | Broadcast message config_path => handle_broadcast inp workspace message config_path
  | ReadMessages limit from => handle_read_messages inp workspace limit from
  | SetShared key value => handle_set_shared inp key value
  | GetShared key => handle_get_shared key
  | ListShared => handle_list_shared
  | RememberMemory scope kind subject content tags supersedes =>
      handle_remember_memory inp workspace scope kind subject content tags supersedes
  | RecallMemories query => handle_recall_memories inp workspace query
  | CreateTask p => handle_create_task inp workspace p
  | StartTask p message => handle_start_task inp workspace p message
  | UpdateTask id status result log confirm =>
      handle_update_task inp workspace id status result log confirm
  | GetTask id => handle_get_task id
  | ListTasks assignee created_by status => handle_list_tasks assignee created_by status
  | CancelTask id reason ev => handle_cancel_task inp workspace id reason ev
  | RemoveTask id reason ev => handle_remove_task inp workspace id reason ev
  | InterveneTask id action note ev => handle_intervene_task inp workspace id action note ev
  end.

Definition handle_envelope inp (git_status : string -> WorkspaceGitStatus) (req : Request) c d
  : result HandlerError Response * Conn * Daemon T :=
  let '(r, d) := handle_request inp git_status (c_workspace c) req d in
  let c := match req, r with
           | Register _ _ _ _ _, Ok (RRegistered entry _) =>
               mkConn (wi_name (e_info entry)) (Some (e_id entry))
           | Unregister, _ => conn_new
           | _, _ => c
           end in
  (r, c, d).

(** The end of [handle_connection]. *)
Definition close_connection c d : Daemon T :=
  match c_id c with
  | Some id => d <| d_registry := (unregister_if (c_workspace c) id (d_registry d)).2 |>
  | None => d
  end.

(** ** Background loops *)

(** The hooks of [attach_session_manager] and [attach_task_queue_refiller]; no
    retry hook is installed. *)
Definition daemon_wake_env inp : WakeEnv (Daemon T) := {|
  env_pending_count ws d := pending_count ws (d_queue d);
  env_session_exists ws d := tmux_session_exists ws (d_tmux d);
  env_is_idle ws d := tmux_is_idle ws (d_tmux d);
  env_wake_workspace ws prompt d :=
    let '(r, w) := tmux_wake_workspace ws prompt (d_tmux d) in
    (is_ok r, d <| d_tmux := w |>);
  env_refill := Some (fun ws sender d => refill_runnable_task_messages inp ws sender d);
  env_ensure_session := Some (fun ws sender d =>
    let '(ok, w) := ensure_pending_wake_target ws sender (i_now inp) (d_tasks d) (d_tmux d) in
    (ok, d <| d_tmux := w |>));
  env_retry_after_successful := None;
|}.

(** A tick of the wake loop, which owns the map of pending wakes. *)
Definition wake_tick inp (clock : string -> Z) d : Daemon T :=
  let s := process (WakeEnv0 := daemon_wake_env inp) (i_now inp) clock
             (mkWakeState (d_wakes d) d []) in
  (world s) <| d_wakes := pending s |>.

Definition idle_tick inp d : Daemon T :=
  let '(_, registry, w) := stop_idle (i_now inp) (i_now inp) (d_queue d) (Some (d_wakes d))
                             (d_tasks d) (d_registry d) (d_tmux d) in
  d <| d_registry := registry |> <| d_tmux := w |>.

(** One iteration of the nudge loop of [reconcile_once]. *)
Definition nudge_one inp d (task : Task) : Daemon T :=
  if (SILENT_TASK_NUDGE_CAP <=? t_dispatch_count task)%Z then d else
  if negb (tmux_session_exists (t_assignee task) (d_tmux d)) then d else
  if negb (tmux_is_idle (t_assignee task) (d_tmux d)) then d else
  if 0 <? pending_count (t_assignee task) (d_queue d) then d else
  let body := build_task_reminder_message task SILENT_TASK_NUDGE_NOTE in
  let msg := task_aware_message "reconciler" (t_assignee task) body (i_now inp) in
  let '(_, d) := enqueue_msg msg (i_uuid inp (t_id task)) (i_now inp) d in
  let d := d <| d_tasks := (record_dispatch (t_id task) (t_assignee task) (i_now inp)
                              (i_now inp) (i_task_fault inp) (d_tasks d)).2 |> in
  schedule_wake (t_assignee task) "reconciler" (i_now inp) d.

Definition reconcile_once inp d : Daemon T :=
  let '(_, ts) := recover_stale_in_progress (fun ws => tmux_session_exists ws (d_tmux d))
                    (i_now inp) (i_task_fault inp) (d_tasks d) in
  let d := d <| d_tasks := ts |> in
  foldl (nudge_one inp) d
    (list_silent_in_progress (i_now inp) (secs SILENT_TASK_STALE_THRESHOLD_SECS) (d_tasks d)).

(** The body of a thread spawned by [spawn_background_task_wake]. *)
Definition run_job (job : string * string * string) (d : Daemon T) : Daemon T :=
  let '(config_path, assignee, sender) := job in
  d <| d_tmux := (ensure_runnable config_path assignee sender false (d_tmux d)).2 |>.

(** ** Interleavings *)

(** What the server owns beside the shared stores: one [Conn] per open socket. *)
Record Server := mkServer {
  sv_daemon : Daemon T;
  sv_conns : gmap nat Conn;
}.

(** What [Uuid::new_v4] provides to the requests that create something. *)
Definition request_fresh inp (req : Request) d : Prop :=
  match req with
  | CreateTask p | StartTask p _ =>
      inner (d_tasks d) !! i_uuid inp "task" = None /\ i_uuid inp "task" <> ""
      /\ i_uuid inp "task" <> trim (cp_parent_task_id p)
  | RememberMemory _ _ _ _ _ _ => memories (d_memory d) !! i_uuid inp "memory" = None
  | _ => True
  end.

(** What can happen next: traffic on connection [n], or a background loop. *)
Inductive event :=
| EAccept (n : nat)
| ERequest (n : nat) (inp : Inputs) (git_status : string -> WorkspaceGitStatus) (req : Request)
| EClose (n : nat)
| EWake (inp : Inputs) (clock : string -> Z)
| EIdle (inp : Inputs)
| EReconcile (inp : Inputs)
| EJob (before after : list (string * string * string)) (job : string * string * string)
| EFlush (fault disk : option string).

Inductive server_step : event -> Server -> Server -> Prop :=
| ss_accept d cs n :
    cs !! n = None ->
    server_step (EAccept n) (mkServer d cs) (mkServer d (<[n := conn_new]> cs))
| ss_request d cs n c inp git_status req r c' d' :
    cs !! n = Some c -> request_fresh inp req d ->
    handle_envelope inp git_status req c d = (r, c', d') ->
    server_step (ERequest n inp git_status req) (mkServer d cs) (mkServer d' (<[n := c']> cs))
| ss_close d cs n c :
    cs !! n = Some c ->
    server_step (EClose n) (mkServer d cs) (mkServer (close_connection c d) (delete n cs))
| ss_wake d cs inp clock :
    server_step (EWake inp clock) (mkServer d cs) (mkServer (wake_tick inp clock d) cs)
| ss_idle d cs inp :
    server_step (EIdle inp) (mkServer d cs) (mkServer (idle_tick inp d) cs)
| ss_reconcile d cs inp :
    server_step (EReconcile inp) (mkServer d cs) (mkServer (reconcile_once inp d) cs)
| ss_job d cs before job after :
    d_jobs d = before ++ job :: after ->
    server_step (EJob before after job) (mkServer d cs)
      (mkServer (run_job job (d <| d_jobs := before ++ after |>)) cs)
| ss_flush d cs fault disk r q disk' :
    flush fault (d_queue d) disk = (r, q, disk') ->
    server_step (EFlush fault disk) (mkServer d cs) (mkServer (d <| d_queue := q |>) cs).

(** A server on a new state directory. *)
Inductive server_reachable : Server -> Prop :=
| sr_boot state_dir inp tmux d :
    with_state_dir state_dir no_files inp (daemon_new tmux) = Ok d ->
    server_reachable (mkServer d ∅)
| sr_step ev s s' : server_reachable s -> server_step ev s s' -> server_reachable s'.
End server.
Arguments Server : clear implicits.
