(* ===== verification/ServerFacts.v ===== *)
(** * Every step of the server is a sequence of component operations.

    [evolves d d'] says that each store of [d'] is obtained from that of [d] by
    operations of its own component.  It is closed under sequencing, so the
    handlers are shown to respect it by following their structure ([keeps]); the
    invariants proved of the components then hold of the whole server. *)

From stdpp Require Import prelude strings list gmap relations.
From S2P Require Import Prelude RustStr Proto TaskHelpers TaskStore TaskEdits TaskMachine TaskEffects.
From S2P Require Import TaskForest TaskLifecycle TaskRollup Queue Memory SharedValues History.
From S2P Require Import PureDecisions Registry Wake SessionManager Daemon Handlers Server.

Create HintDb keeps discriminated.

(** The task operations a request may perform, beside recording dispatches; a
    connection that has not registered may perform none. *)
Definition request_op (inp : Inputs) (ws : string) (req : Request) (op : store_op) : Prop :=
  ws <> "" /\
  match req with
  | UpdateTask id s r l c => op = OpUpdate id s r l c ws
  | CancelTask id reason ev => op = OpCancel id reason ws ev
  | RemoveTask id reason ev => op = OpRemove id reason ws ev
  | InterveneTask _ _ note ev => exists id, op = OpRetry id note ws ev
  | CreateTask _ | StartTask _ _ =>
      exists input id, op = OpCreate input id /\ ct_created_by input = ws
  | RecordMcpToolActivity _ id _ _ _ => op = OpToolActivity (trim id) ws (i_now inp)
  | _ => False
  end.

Section facts.
Context {T : Type} `{!TextOps} `{!JsonCodec (list Task)} `{!JsonCodec HistoryEntry}
        `{!JsonCodec (list Memory)} `{!JsonCodec (gmap string string)}
        `{!JsonCodec (gmap string (list Message))}
        `{!JsonCodec (gmap string (option (list Message)))} `{!SessionBackend T}.
Implicit Types (inp : Inputs) (d : Daemon T) (c : Conn).

(** ** Component steps *)

(** The task operations a piece of code may use; every one of them may record
    dispatches. *)
Context (allowed : store_op -> Prop).
Context (allow_dispatch : forall id to when, allowed (OpDispatch id to when)).

Definition task_step_in (st st' : TaskStore) : Prop :=
  exists op now fault, allowed op /\ op_fresh op st /\ st' = run_op op now fault st.

Inductive queue_step : MessageQueue -> MessageQueue -> Prop :=
| queue_step_enqueue q msg uuid now : queue_step q (enqueue msg uuid now q).2
| queue_step_dequeue q ws limit from : queue_step q (dequeue ws limit from q).2
| queue_step_remove q ws id : queue_step q (remove_task_messages ws id q).2
| queue_step_flush q fault disk : queue_step q (flush fault q disk).1.2.

Inductive memory_step : Store -> Store -> Prop :=
| memory_step_remember st sc kd sj ct tg cb sup uuid now fault :
    memories st !! uuid = None ->
    memory_step st (remember sc kd sj ct tg cb sup uuid now fault st).2.

Inductive shared_step : SharedValues -> SharedValues -> Prop :=
| shared_step_set key value fault sv : shared_step sv (shared_set key value fault sv).2.

Record evolves d d' : Prop := mkEvolves {
  ev_tasks : rtc task_step_in (d_tasks d) (d_tasks d');
  ev_queue : rtc queue_step (d_queue d) (d_queue d');
  ev_registry : exists ops, d_registry d' = run_regs ops (d_registry d);
  ev_history : exists es, d_history d' = history_appends es (d_history d);
  ev_memory : rtc memory_step (d_memory d) (d_memory d');
  ev_shared : rtc shared_step (d_shared d) (d_shared d');
  ev_wakes : pending_ok (d_wakes d) -> pending_ok (d_wakes d');
}.

#[local] Instance evolves_refl : Reflexive evolves.
Proof. intros d. split; try done; by exists []. Qed.

#[local] Instance evolves_trans : Transitive evolves.
Proof.
  intros d1 d2 d3 [t1 q1 [o1 r1] [e1 h1] m1 s1 w1] [t2 q2 [o2 r2] [e2 h2] m2 s2 w2].
  split; try (by etrans); try (by eauto).
  - exists (o1 ++ o2). unfold run_regs in *. by rewrite foldl_app, <-r1.
  - exists (e1 ++ e2). unfold history_appends in *. by rewrite foldl_app, <-h1.
Qed.

(** A change confined to one store. *)
Lemma evolves_tasks d ts : rtc task_step_in (d_tasks d) ts -> evolves d (d <| d_tasks := ts |>).
Proof. split; fsimpl; try done; by exists []. Qed.
Lemma evolves_queue d q : rtc queue_step (d_queue d) q -> evolves d (d <| d_queue := q |>).
Proof. split; fsimpl; try done; by exists []. Qed.
Lemma evolves_registry d ops r :
  r = run_regs ops (d_registry d) -> evolves d (d <| d_registry := r |>).
Proof. split; fsimpl; try done; [by exists ops|by exists []]. Qed.
Lemma evolves_history d es h :
  h = history_appends es (d_history d) -> evolves d (d <| d_history := h |>).
Proof. split; fsimpl; try done; [by exists []|by exists es]. Qed.
Lemma evolves_memory d m : rtc memory_step (d_memory d) m -> evolves d (d <| d_memory := m |>).
Proof. split; fsimpl; try done; by exists []. Qed.
Lemma evolves_shared d s : rtc shared_step (d_shared d) s -> evolves d (d <| d_shared := s |>).
Proof. split; fsimpl; try done; by exists []. Qed.
Lemma evolves_wakes d p :
  (pending_ok (d_wakes d) -> pending_ok p) -> evolves d (d <| d_wakes := p |>).
Proof. split; fsimpl; try done; by exists []. Qed.
Lemma evolves_tmux d w : evolves d (d <| d_tmux := w |>).
Proof. split; fsimpl; try done; by exists []. Qed.
Lemma evolves_jobs d l : evolves d (d <| d_jobs := l |>).
Proof. split; fsimpl; try done; by exists []. Qed.
Lemma evolves_pushed d l : evolves d (d <| d_pushed := l |>).
Proof. split; fsimpl; try done; by exists []. Qed.

Lemma run_op_step op now fault st :
  allowed op -> op_fresh op st -> rtc task_step_in st (run_op op now fault st).
Proof. intros Ha Hop. apply rtc_once. by exists op, now, fault. Qed.

(** ** The helpers *)

Lemma touch_ws_evolves ws now d : evolves d (touch_ws ws now d).
Proof. by apply (evolves_registry d [RTouch ws now]). Qed.

Lemma enqueue_msg_evolves msg uuid now d : evolves d (enqueue_msg msg uuid now d).2.
Proof.
  unfold enqueue_msg. pose proof (queue_step_enqueue (d_queue d) msg uuid now) as Hq.
  destruct (enqueue _ _ _ _). by apply evolves_queue, rtc_once.
Qed.

Lemma append_history_evolves inp msg d : evolves d (append_history inp msg d).
Proof.
  unfold append_history, append_message.
  by eapply (evolves_history d [(_, i_history_ok inp)]).
Qed.

Lemma push_if_registered_evolves target msg d : evolves d (push_if_registered target msg d).
Proof. unfold push_if_registered. destruct (registry_get _ _); [apply evolves_pushed|done]. Qed.

Lemma schedule_wake_evolves ws sender now d : evolves d (schedule_wake ws sender now d).
Proof. apply evolves_wakes. apply schedule_ok. Qed.

Lemma cancel_wake_evolves ws d : evolves d (cancel_wake ws d).
Proof.
  apply evolves_wakes. intros Hok k e. unfold wake_cancel.
  intros [_ He]%lookup_delete_Some. by apply Hok.
Qed.

Lemma record_dispatch_evolves id to when inp d :
  evolves d (d <| d_tasks := (record_dispatch id to when (i_now inp) (i_task_fault inp)
                                (d_tasks d)).2 |>).
Proof. by apply evolves_tasks, (run_op_step (OpDispatch id to when)). Qed.

Lemma enqueue_task_message_evolves inp uuid task from content d :
  evolves d (enqueue_task_message inp uuid task from content d).2.
Proof.
  unfold enqueue_task_message. cbv zeta.
  set (msg0 := task_aware_message _ _ _ _).
  pose proof (enqueue_msg_evolves msg0 uuid (i_now inp) d) as Hq.
  destruct (enqueue_msg msg0 uuid (i_now inp) d) as [msg d1]. cbn [snd] in *.
  etrans; [apply Hq|]. etrans; [apply record_dispatch_evolves|apply append_history_evolves].
Qed.

Lemma foldl_evolves {A} (f : Daemon T -> A -> Daemon T) l d :
  (forall d a, evolves d (f d a)) -> evolves d (foldl f d l).
Proof.
  intros Hf. revert d. induction l as [|a l IH]; intros d; [done|]. etrans; [apply Hf|apply IH].
Qed.

Lemma refill_evolves inp ws sender d : evolves d (refill_runnable_task_messages inp ws sender d).2.
Proof.
  unfold refill_runnable_task_messages. generalize 0.
  generalize (runnable_by_assignee ws (i_now inp) (d_tasks d)). intros l. revert d.
  induction l as [|t l IH]; intros d n; [done|]. cbn [foldl].
  unfold refill_one at 2. destruct (has_task_message _ _ _); [apply IH|].
  pose proof (enqueue_task_message_evolves inp (i_uuid inp (t_id t)) t sender
    (task_dispatch_content t "") d) as He.
  destruct (enqueue_task_message _ _ _ _ _ _) as [m d1]. etrans; [apply He|apply IH].
Qed.

Lemma purge_evolves assignee id d : evolves d (purge_task_messages assignee id d).
Proof.
  unfold purge_task_messages. cbv zeta.
  etrans; [apply evolves_queue, rtc_once, queue_step_remove|].
  destruct (_ =? 0); [apply cancel_wake_evolves|done].
Qed.

(** The common tail of a delivery. *)
Lemma deliver_evolves inp msg uuid target d :
  let '(msg', d1) := enqueue_msg msg uuid (i_now inp) d in
  evolves d (push_if_registered target msg' (append_history inp msg' d1)).
Proof.
  pose proof (enqueue_msg_evolves msg uuid (i_now inp) d) as Hq.
  destruct (enqueue_msg _ _ _ _) as [msg' d1].
  etrans; [apply Hq|]. etrans; [apply append_history_evolves|apply push_if_registered_evolves].
Qed.

Lemma notify_evolves inp task d : evolves d (notify_creator_of_terminal_status inp task d).
Proof.
  unfold notify_creator_of_terminal_status. cbv zeta. destruct (_ || _); [done|].
  destruct (terminal_label _); [|done].
  match goal with |- context [enqueue_msg ?m ?u _ _] =>
    pose proof (deliver_evolves inp m u (trim (t_created_by task)) d) as Hd;
    destruct (enqueue_msg m u (i_now inp) d) as [msg d1]
  end.
  etrans; [apply Hd|apply schedule_wake_evolves].
Qed.

Lemma followup_evolves inp task d : evolves d (apply_task_state_followup inp task d).
Proof.
  unfold apply_task_state_followup. destruct (plan_task_state_followup task); [done|].
  etrans; [apply purge_evolves|apply notify_evolves].
Qed.

Lemma reminder_evolves inp ws id err d :
  evolves d (enqueue_completion_contract_reminder inp ws id err d).
Proof.
  unfold enqueue_completion_contract_reminder. cbv zeta.
  match goal with |- context [enqueue_msg ?m ?u _ _] =>
    pose proof (deliver_evolves inp m u ws d) as Hd;
    by destruct (enqueue_msg m u (i_now inp) d)
  end.
Qed.

(** ** The monad *)

Definition keeps {A} (x : M T A) : Prop := forall d, evolves d (x d).2.

Lemma keeps_ret {A} (a : A) : keeps (mret a).
Proof. by intros d. Qed.
Lemma keeps_fail {A} msg : keeps (fail (A := A) msg).
Proof. by intros d. Qed.
Lemma keeps_gets {A} (f : Daemon T -> A) : keeps (gets f).
Proof. by intros d. Qed.
Lemma keeps_modify f : (forall d, evolves d (f d)) -> keeps (modify f).
Proof. intros Hf d. apply Hf. Qed.
Lemma keeps_bind {A B} (x : M T A) (f : A -> M T B) :
  keeps x -> (forall a, keeps (f a)) -> keeps (x ≫= f).
Proof.
  intros Hx Hf d. unfold mbind, M_bind. specialize (Hx d).
  destruct (x d) as [[a|e] d1]; cbn [snd] in *; [|done]. etrans; [apply Hx|apply Hf].
Qed.
Lemma keeps_lift {A} (r : result string A) : keeps (lift r).
Proof. destruct r; [apply keeps_ret|apply keeps_fail]. Qed.
Lemma keeps_require ws : keeps (require_registered ws).
Proof. unfold require_registered. destruct (is_empty ws); [apply keeps_fail|apply keeps_ret]. Qed.
Lemma keeps_ax_bin inp : keeps (current_ax_bin inp).
Proof. unfold current_ax_bin. destruct (i_exe_fault inp); [apply keeps_fail|apply keeps_ret]. Qed.
Lemma keeps_on_tmux {A} (f : T -> result string A * T) wrap : keeps (on_tmux f wrap).
Proof.
  intros d. unfold on_tmux. destruct (f (d_tmux d)) as [[] w]; apply evolves_tmux.
Qed.
Lemma keeps_run_task_op {A} (f : TaskStore -> result TaskStoreError A * TaskStore) :
  (forall st, rtc task_step_in st (f st).2) -> keeps (run_task_op f).
Proof.
  intros Hf d. unfold run_task_op. specialize (Hf (d_tasks d)).
  destruct (f (d_tasks d)) as [[] ts]; by apply evolves_tasks.
Qed.
Lemma keeps_touch ws now : keeps (modify (touch_ws ws now)).
Proof. apply keeps_modify. apply touch_ws_evolves. Qed.

#[local] Hint Resolve keeps_ret keeps_fail keeps_gets keeps_lift keeps_require keeps_ax_bin keeps_on_tmux
  keeps_touch : keeps.

(** Follow the structure of a handler, splitting its branches. *)
Ltac keeps_step :=
  first
    [ solve [auto 2 with keeps nocore]
    | apply keeps_bind; [|intros ?]
    | match goal with
      | |- keeps (match ?x with _ => _ end) => destruct x
      | |- keeps (let '(_, _) := ?x in _) => destruct x
      end ].
Ltac keeps_auto := cbv zeta; repeat (keeps_step; cbv zeta).

Lemma keeps_register inp ws dir desc cfg idle : keeps (handle_register inp ws dir desc cfg idle).
Proof.
  intros d. unfold handle_register. cbv zeta.
  set (idle' := if (idle <? 0)%Z then _ else _).
  destruct (register_with_idle _ _ _ _ _ _ _) as [[e p] r] eqn:E. cbn [snd].
  apply (evolves_registry d [RRegister ws dir desc cfg idle' (i_now inp)]).
  cbn [run_regs foldl run_reg]. by rewrite E.
Qed.

Lemma keeps_unregister ws : keeps (handle_unregister ws).
Proof.
  intros d. unfold handle_unregister. destruct (is_empty ws); [done|].
  by apply (evolves_registry d [RUnregister ws]).
Qed.

Lemma keeps_set_status inp ws status : keeps (handle_set_status inp ws status).
Proof.
  unfold handle_set_status. keeps_auto. apply keeps_modify. intros d.
  by apply (evolves_registry d [RStatusText ws status (i_now inp)]).
Qed.

Lemma keeps_update_metrics inp ws p : keeps (handle_update_agent_status_metrics inp ws p).
Proof.
  unfold handle_update_agent_status_metrics. keeps_auto. intros d. unfold with_state.
  match goal with |- context [update_status_metrics_at ?t ?m ?n ?r] =>
    pose proof (evolves_registry d [Registry.RMetrics t m n]
      (update_status_metrics_at t m n r).2 eq_refl) as Hr;
    by destruct (update_status_metrics_at t m n r) as [[|] ?]
  end.
Qed.

Lemma keeps_get_metrics ws p : keeps (handle_get_agent_status_metrics ws p).
Proof.
  unfold handle_get_agent_status_metrics. keeps_auto. intros d. unfold with_state.
  by destruct (get_status_metrics _ _) as [[]|].
Qed.

Lemma keeps_tool_activity inp ws tool id st ek dur :
  allowed (OpToolActivity (trim id) ws (i_now inp)) ->
  keeps (handle_record_mcp_tool_activity inp ws tool id st ek dur).
Proof.
  intros Ha. unfold handle_record_mcp_tool_activity. keeps_auto; apply keeps_modify; intros d.
  - by eapply (evolves_history d [(_, i_history_ok inp)]).
  - destruct (is_empty _); [done|].
    by apply evolves_tasks, (run_op_step (OpToolActivity (trim id) ws (i_now inp))).
Qed.

Lemma keeps_control inp ws cfg name action :
  keeps (handle_control_lifecycle inp ws cfg name action).
Proof. unfold handle_control_lifecycle, control_lifecycle_target. keeps_auto. Qed.
Lemma keeps_agent_lifecycle inp ws cfg name action :
  keeps (handle_agent_lifecycle inp ws cfg name action).
Proof. unfold handle_agent_lifecycle. keeps_auto. Qed.

Lemma keeps_send inp ws to message cfg : keeps (handle_send_message inp ws to message cfg).
Proof.
  unfold handle_send_message. cbv zeta.
  match goal with |- context [with_state ?f] => assert (keeps (with_state f)) as Hd end.
  { intros d. unfold with_state.
    match goal with |- context [enqueue_msg ?m ?u ?n d] =>
      pose proof (enqueue_msg_evolves m u n d) as Hq; destruct (enqueue_msg m u n d) as [msg d1]
    end. cbn [snd] in *.
    etrans; [apply Hq|]. etrans; [apply append_history_evolves|].
    etrans; [apply touch_ws_evolves|]. etrans; [apply push_if_registered_evolves|].
    apply schedule_wake_evolves. }
  keeps_auto.
Qed.

Lemma broadcast_one_evolves inp ws message d name :
  evolves d (broadcast_one inp ws message d name).
Proof.
  unfold broadcast_one. cbv zeta.
  match goal with |- context [enqueue_msg ?m ?u _ d] =>
    pose proof (deliver_evolves inp m u name d) as Hd; destruct (enqueue_msg m u (i_now inp) d)
  end. etrans; [apply Hd|apply schedule_wake_evolves].
Qed.

Lemma keeps_broadcast_dispatch cfg ws l : keeps (broadcast_dispatch cfg ws l).
Proof.
  induction l as [|r l IH]; cbn [broadcast_dispatch]; keeps_auto.
Qed.
#[local] Hint Resolve keeps_broadcast_dispatch : keeps.

Lemma keeps_broadcast inp ws message cfg : keeps (handle_broadcast inp ws message cfg).
Proof.
  unfold handle_broadcast. keeps_auto.
  apply keeps_modify. intros d. apply foldl_evolves. apply broadcast_one_evolves.
Qed.

Lemma keeps_read inp ws limit from : keeps (handle_read_messages inp ws limit from).
Proof.
  unfold handle_read_messages. keeps_auto.
  - apply keeps_modify. intros d. destruct (_ =? 0); [|done].
    destruct (wake_state_of _ _); [apply refill_evolves|done].
  - intros d. unfold with_state. set (from' := if negb (is_empty from) then _ else _).
    match goal with |- context [dequeue ws ?l from' ?q] =>
      pose proof (queue_step_dequeue q ws l from') as Hq; destruct (dequeue ws l from' q)
    end. by apply evolves_queue, rtc_once.
  - apply keeps_modify. intros d. destruct (_ =? 0); [apply cancel_wake_evolves|done].
Qed.

Lemma keeps_set_shared inp key value : keeps (handle_set_shared inp key value).
Proof.
  intros d. unfold handle_set_shared.
  pose proof (shared_step_set key value (i_shared_fault inp) (d_shared d)) as Hs.
  destruct (shared_set _ _ _ _) as [[] ?]; by apply evolves_shared, rtc_once.
Qed.

Lemma keeps_update inp ws id s r l cf :
  allowed (OpUpdate id s r l cf ws) -> keeps (handle_update_task inp ws id s r l cf).
Proof.
  intros Ha. unfold handle_update_task. keeps_auto; [|apply keeps_modify; apply followup_evolves].
  intros d. unfold with_state.
  pose proof (run_op_step (OpUpdate id s r l cf ws) (i_now inp) (i_task_fault inp) (d_tasks d) Ha I)
    as Hs. cbn [run_op] in Hs.
  destruct (update_with_confirm _ _ _ _ _ _ _ _ _) as [[t|e] ts]; cbn [snd] in *.
  - by apply evolves_tasks.
  - destruct (is_completion_contract_error e); [|by apply evolves_tasks].
    etrans; [by apply evolves_tasks|apply reminder_evolves].
Qed.

Lemma keeps_cancel inp ws id reason ev :
  allowed (OpCancel id reason ws ev) -> keeps (handle_cancel_task inp ws id reason ev).
Proof.
  intros Ha. unfold handle_cancel_task. keeps_auto; [|apply keeps_modify; apply followup_evolves].
  apply keeps_run_task_op. intros st. by apply (run_op_step (OpCancel id reason ws ev)).
Qed.

Lemma keeps_remove inp ws id reason ev :
  allowed (OpRemove id reason ws ev) -> keeps (handle_remove_task inp ws id reason ev).
Proof.
  intros Ha. unfold handle_remove_task. keeps_auto; [|apply keeps_modify; intros; apply purge_evolves].
  apply keeps_run_task_op. intros st. by apply (run_op_step (OpRemove id reason ws ev)).
Qed.

Lemma keeps_task_wake_message inp task sender : keeps (ensure_task_wake_message inp task sender).
Proof.
  intros d. unfold ensure_task_wake_message. destruct (has_task_message _ _ _); [done|].
  cbv zeta. match goal with |- context [enqueue_task_message inp ?u ?t ?f ?c d] =>
    pose proof (enqueue_task_message_evolves inp u t f c d) as Hq;
    destruct (enqueue_task_message inp u t f c d) as [msg d1]
  end. cbn [snd] in *. etrans; [apply Hq|apply push_if_registered_evolves].
Qed.

Lemma keeps_spawn inp cfg assignee sender :
  keeps (spawn_background_task_wake inp cfg assignee sender).
Proof.
  unfold spawn_background_task_wake. keeps_auto. apply keeps_modify. intros d.
  apply evolves_jobs.
Qed.
#[local] Hint Resolve keeps_task_wake_message keeps_spawn : keeps.

Lemma keeps_dispatch_wake inp task sender : keeps (dispatch_task_wake inp task sender).
Proof.
  intros d. unfold dispatch_task_wake. cbv zeta.
  match goal with |- evolves d ((?x) d).2 => assert (keeps x) as Hk; [|apply Hk] end.
  keeps_auto. apply keeps_modify. intros; apply schedule_wake_evolves.
Qed.

(** Queueing a task's message, pushing it and scheduling the assignee's wake. *)
Lemma task_delivery_evolves inp uuid task from content target sender d :
  let '(msg, d1) := enqueue_task_message inp uuid task from content d in
  evolves d (schedule_wake target sender (i_now inp) (push_if_registered target msg d1)).
Proof.
  pose proof (enqueue_task_message_evolves inp uuid task from content d) as Hq.
  destruct (enqueue_task_message _ _ _ _ _ _) as [msg d1].
  etrans; [apply Hq|]. etrans; [apply push_if_registered_evolves|apply schedule_wake_evolves].
Qed.

Lemma keeps_intervene_retry inp ws task note ev :
  allowed (OpRetry (t_id task) note ws ev) -> keeps (intervene_retry inp ws task note ev).
Proof.
  intros Ha. unfold intervene_retry. keeps_auto.
  - apply keeps_run_task_op. intros st. by apply (run_op_step (OpRetry (t_id task) note ws ev)).
  - apply keeps_modify. intros d. apply evolves_queue, rtc_once, queue_step_remove.
  - intros d. unfold with_state. cbv zeta.
    match goal with |- context [enqueue_task_message inp ?u ?t ?f ?c d] =>
      pose proof (task_delivery_evolves inp u t f c (t_assignee task) ws d) as Hq;
      by destruct (enqueue_task_message inp u t f c d)
    end.
Qed.
#[local] Hint Resolve keeps_dispatch_wake keeps_intervene_retry : keeps.

Lemma keeps_intervene inp ws id action note ev :
  (forall id', allowed (OpRetry id' note ws ev)) ->
  keeps (handle_intervene_task inp ws id action note ev).
Proof.
  intros Ha. unfold handle_intervene_task. keeps_auto.
  intros d. unfold with_state. by destruct (get_for_intervention _ _ _ _).
Qed.

Lemma keeps_dispatch_start inp task : keeps (dispatch_task_start inp task).
Proof.
  unfold dispatch_task_start. keeps_auto. intros d. unfold with_state.
  pose proof (task_delivery_evolves inp (i_uuid inp (t_id task)) task (t_created_by task)
    (t_dispatch_message task) (t_assignee task) (t_created_by task) d) as Hq.
  by destruct (enqueue_task_message _ _ _ _ _ _).
Qed.
#[local] Hint Resolve keeps_dispatch_start : keeps.

(** ** Requests that draw a fresh identifier *)

(** A computation that only reads the stores. *)
Definition reads {A} (x : M T A) : Prop := forall d, (x d).2 = d.

Lemma evolves_bind_read {A B} (x : M T A) (f : A -> M T B) d :
  reads x -> (forall a, evolves d (f a d).2) -> evolves d ((x ≫= f) d).2.
Proof.
  intros Hx Hf. unfold mbind, M_bind. specialize (Hx d).
  destruct (x d) as [[a|e] d1]; cbn [snd] in *; subst; done.
Qed.

Lemma evolves_bind {A B} (x : M T A) (f : A -> M T B) d :
  evolves d (x d).2 -> (forall a, keeps (f a)) -> evolves d ((x ≫= f) d).2.
Proof.
  intros Hx Hf. unfold mbind, M_bind.
  destruct (x d) as [[a|e] d1]; cbn [snd] in *; [|done]. etrans; [apply Hx|apply Hf].
Qed.

Lemma reads_require ws : reads (require_registered ws).
Proof. intros d. unfold require_registered. by destruct (is_empty ws). Qed.
Lemma reads_parse_modes p : reads (parse_modes p).
Proof. intros d. unfold parse_modes. by destruct (parse_task_lifecycle_options _ _ _). Qed.
Lemma reads_gets {A} (f : Daemon T -> A) : reads (gets f).
Proof. by intros d. Qed.

Lemma create_evolves inp ws p modes body cfg d :
  inner (d_tasks d) !! i_uuid inp "task" = None -> i_uuid inp "task" <> "" ->
  i_uuid inp "task" <> trim (cp_parent_task_id p) ->
  (forall input id, ct_created_by input = ws -> allowed (OpCreate input id)) ->
  evolves d (run_task_op (create (create_input ws p modes body cfg) (i_uuid inp "task")
                            (i_now inp) (i_task_fault inp)) d).2.
Proof.
  intros Hn Hne Hp Ha. unfold run_task_op.
  set (input := create_input ws p modes body cfg).
  assert (op_fresh (OpCreate input (i_uuid inp "task")) (d_tasks d)) as Hop.
  { unfold input, create_input. by destruct modes as [[? ?] ?]. }
  assert (allowed (OpCreate input (i_uuid inp "task"))) as Hal.
  { apply Ha. unfold input, create_input. by destruct modes as [[? ?] ?]. }
  pose proof (run_op_step _ (i_now inp) (i_task_fault inp) _ Hal Hop) as Hs. cbn [run_op] in Hs.
  destruct (create _ _ _ _ _) as [[] ts]; by apply evolves_tasks.
Qed.

Lemma create_task_evolves inp ws p d :
  request_fresh inp (CreateTask p) d ->
  (forall input id, ct_created_by input = ws -> allowed (OpCreate input id)) ->
  evolves d (handle_create_task inp ws p d).2.
Proof.
  intros (Hn & Hne & Hp) Ha. unfold handle_create_task.
  apply evolves_bind_read; [apply reads_require|intros _].
  apply evolves_bind_read; [apply reads_parse_modes|intros modes].
  apply evolves_bind; [by apply create_evolves|intros task]. keeps_auto.
  intros d1. unfold with_state. cbv zeta.
  match goal with |- context [enqueue_task_message inp ?u ?t ?f ?c d1] =>
    pose proof (task_delivery_evolves inp u t f c (t_assignee task) (t_created_by task) d1) as Hq;
    by destruct (enqueue_task_message inp u t f c d1)
  end.
Qed.

Lemma start_task_evolves inp ws p message d :
  request_fresh inp (StartTask p message) d ->
  (forall input id, ct_created_by input = ws -> allowed (OpCreate input id)) ->
  evolves d (handle_start_task inp ws p message d).2.
Proof.
  intros (Hn & Hne & Hp) Ha. unfold handle_start_task.
  apply evolves_bind_read; [apply reads_require|intros _].
  apply evolves_bind_read; [apply reads_parse_modes|intros modes].
  apply evolves_bind_read; [intros ?; by destruct (normalize_task_dispatch_body _)|intros body].
  apply evolves_bind_read; [apply reads_gets|intros cfg].
  apply evolves_bind; [by apply create_evolves|intros task]. keeps_auto.
Qed.

Lemma remember_evolves inp ws sc kd sj ct tg sup d :
  request_fresh inp (RememberMemory sc kd sj ct tg sup) d ->
  evolves d (handle_remember_memory inp ws sc kd sj ct tg sup d).2.
Proof.
  intros Hn. unfold handle_remember_memory.
  apply evolves_bind_read; [apply reads_require|intros _].
  apply evolves_bind; [|intros m; keeps_auto]. unfold with_state.
  pose proof (memory_step_remember (d_memory d) sc kd sj ct tg ws sup (i_uuid inp "memory")
    (i_now inp) (i_memory_fault inp) Hn) as Hs.
  destruct (remember _ _ _ _ _ _ _ _ _ _ _) as [[] ?]; by apply evolves_memory, rtc_once.
Qed.

Lemma request_evolves inp git_status ws req d :
  request_fresh inp req d -> (forall op, request_op inp ws req op -> allowed op) ->
  evolves d (handle_request inp git_status ws req d).2.
Proof.
  intros Hf Ha. destruct (decide (ws = "")) as [->|Hws].
  { destruct req; cbn [handle_request];
      first [ done | apply keeps_register | apply keeps_unregister | apply keeps_gets
            | apply keeps_control | apply keeps_agent_lifecycle | apply keeps_send | apply keeps_broadcast
            | apply keeps_set_shared | unfold handle_get_task; by destruct (get _ _) ]. }
  unfold request_op in Ha. destruct req; cbn [handle_request] in *;
    first [ by apply create_task_evolves; [done|intros; apply Ha; eauto 10]
          | by eapply start_task_evolves; [done|intros; apply Ha; eauto 10]
          | by apply remember_evolves
          | apply keeps_register | apply keeps_unregister | apply keeps_gets
          | apply keeps_set_status | apply keeps_update_metrics | apply keeps_get_metrics
          | apply keeps_tool_activity; by auto | apply keeps_control | apply keeps_agent_lifecycle | apply keeps_send
          | apply keeps_broadcast | apply keeps_read | apply keeps_set_shared
          | apply keeps_update; by auto | apply keeps_cancel; by auto
          | apply keeps_remove; by auto
          | apply keeps_intervene; intros; apply Ha; by eauto 10 | idtac ].
  - apply keeps_bind; auto with keeps.
  - apply keeps_bind; [apply keeps_require|intros _]. keeps_auto.
  - unfold handle_get_task. by destruct (get _ _).
Qed.

(** ** Background loops *)

Lemma world_process (P : Daemon T -> Daemon T -> Prop) `{!PreOrder P} (env : WakeEnv (Daemon T))
    now clock s :
  (forall f ws sender d, env_refill = Some f -> P d (f ws sender d).2) ->
  (forall f ws sender d, env_ensure_session = Some f -> P d (f ws sender d).2) ->
  (forall ws prompt d, P d (env_wake_workspace ws prompt d).2) ->
  P (world s) (world (process now clock s)).
Proof.
  intros Hr He Hw. unfold process. cbv zeta. generalize (List.filter
    (fun pw => (pw_next_retry pw <=? now)%Z) (btree_values (pending s))).
  intros l. revert s. induction l as [|pw l IH]; intros s; [done|]. cbn [foldl].
  etrans; [|apply IH]. unfold process_one. cbv zeta.
  assert (P (world s) (refill_if_empty (pw_workspace pw) (pw_sender pw) (world s))) as H1.
  { unfold refill_if_empty. destruct (_ =? 0); [|done].
    destruct env_refill as [f|] eqn:E; [by apply Hr|done]. }
  set (w := refill_if_empty _ _ _) in *.
  destruct (_ =? 0); [done|]. destruct (env_session_exists _ w); cbn [negb].
  - destruct (env_is_idle _ w); cbn [negb]; [|done].
    pose proof (Hw (pw_workspace pw) (wake_prompt (pw_sender pw) false) w) as H2.
    destruct (env_wake_workspace _ _ w) as [ok w']. cbn [world snd] in *. by etrans.
  - destruct env_ensure_session as [f|] eqn:E; [|done].
    pose proof (He f (pw_workspace pw) (pw_sender pw) w eq_refl) as H2.
    destruct (f _ _ w) as [[] w']; cbn [negb world snd] in *; by etrans.
Qed.

#[local] Instance evolves_preorder : PreOrder evolves.
Proof. split; apply _. Qed.

Lemma wake_tick_evolves inp clock d : evolves d (wake_tick inp clock d).
Proof.
  unfold wake_tick. cbv zeta. set (s := mkWakeState (d_wakes d) d []).
  pose proof (process_facts (WakeEnv0 := daemon_wake_env inp) (i_now inp) clock s) as Hp.
  destruct (world_process evolves (daemon_wake_env inp) (i_now inp) clock s) as [].
  - cbn [daemon_wake_env env_refill]. intros f ws sender d' [= <-]. apply refill_evolves.
  - cbn [daemon_wake_env env_ensure_session]. intros f ws sender d' [= <-].
    destruct (ensure_pending_wake_target _ _ _ _ _). apply evolves_tmux.
  - intros ws prompt d'. cbn [daemon_wake_env env_wake_workspace].
    destruct (tmux_wake_workspace _ _ _). apply evolves_tmux.
  - split; fsimpl; try done. intros Hok. by apply Hp.
Qed.

Lemma idle_tick_evolves inp d : evolves d (idle_tick inp d).
Proof.
  unfold idle_tick, stop_idle.
  assert (forall l acc, (exists ops, acc.1.2 = run_regs ops (d_registry d)) ->
    exists ops, (foldl (stop_idle_one (i_now inp) (i_now inp) (d_queue d) (Some (d_wakes d))
      (d_tasks d)) acc l).1.2 = run_regs ops (d_registry d)) as Hfold.
  { induction l as [|rw l IH]; intros acc Hacc; [done|]. apply IH.
    destruct acc as [[n r] w], Hacc as [ops Hr]. cbn [fst snd] in Hr. subst r. unfold stop_idle_one.
    destruct (should_sleep _ _ _ _ _ _); cbn [negb]; [|by exists ops].
    destruct (control _ _ _ w) as [[] w']; exists (ops ++ [RTouch (wi_name (rw_info rw)) (i_now inp)]);
      unfold run_regs; by rewrite foldl_app. }
  destruct (Hfold (registry_snapshot (d_registry d)) (0, d_registry d, d_tmux d)) as [ops Ho];
    [by exists []|].
  destruct (foldl _ _ _) as [[n r] w]. cbn [fst snd] in Ho.
  etrans; [by apply (evolves_registry d ops)|apply evolves_tmux].
Qed.

Lemma nudge_one_evolves inp d task : evolves d (nudge_one inp d task).
Proof.
  unfold nudge_one. cbv zeta. destruct (_ <=? _)%Z; [done|].
  destruct (negb _); [done|]. destruct (negb _); [done|]. destruct (0 <? _); [done|].
  match goal with |- context [enqueue_msg ?m ?u ?n d] =>
    pose proof (enqueue_msg_evolves m u n d) as Hq; destruct (enqueue_msg m u n d) as [msg d1]
  end. cbn [snd] in *. etrans; [apply Hq|].
  etrans; [apply record_dispatch_evolves|apply schedule_wake_evolves].
Qed.

Lemma reconcile_evolves inp d :
  allowed (OpRecover (fun ws => tmux_session_exists ws (d_tmux d))) -> evolves d (reconcile_once inp d).
Proof.
  intros Ha. unfold reconcile_once.
  pose proof (run_op_step (OpRecover (fun ws => tmux_session_exists ws (d_tmux d))) (i_now inp)
    (i_task_fault inp) (d_tasks d) Ha I) as Hs. cbn [run_op] in Hs.
  destruct (recover_stale_in_progress _ _ _ _) as [ids ts]. cbv zeta.
  etrans; [by apply evolves_tasks|]. apply foldl_evolves. apply nudge_one_evolves.
Qed.

(** The task operations of an event. *)
Definition event_op (s : Server T) (ev : event) (op : store_op) : Prop :=
  match ev with
  | ERequest n inp _ req =>
      exists c, sv_conns s !! n = Some c /\ request_op inp (c_workspace c) req op
  | EReconcile _ => op = OpRecover (fun ws => tmux_session_exists ws (d_tmux (sv_daemon s)))
  | _ => False
  end.

Lemma step_evolves ev s s' :
  server_step ev s s' -> (forall op, event_op s ev op -> allowed op) ->
  evolves (sv_daemon s) (sv_daemon s').
Proof.
  destruct 1 as [| d cs n c inp gs req r c' d' Hn Hf He | d cs n c _ | | |
    |d cs before [[cfg a] sn] after Hj|d cs fault disk r q disk' Hq];
    cbn [sv_daemon sv_conns event_op]; intros Ha; [done|..].
  - unfold handle_envelope in He.
    pose proof (request_evolves inp gs (c_workspace c) req d Hf ltac:(eauto)).
    destruct (handle_request _ _ _ _ d) as [r1 d1]. by simplify_eq.
  - unfold close_connection. destruct (c_id c) as [id|]; [|done].
    by apply (evolves_registry d [RUnregisterIf (c_workspace c) id]).
  - apply wake_tick_evolves.
  - apply idle_tick_evolves.
  - apply reconcile_evolves. auto.
  - etrans; [apply evolves_jobs|apply evolves_tmux].
  - apply evolves_queue, rtc_once. pose proof (queue_step_flush (d_queue d) fault disk) as Hs.
    by rewrite Hq in Hs.
Qed.
End facts.

(** ** End-to-end properties of the server.

    The component theorems, lifted to every interleaving of requests, disconnects
    and background loops through [evolves]. *)

Section server_inv.
Context {T : Type} `{!TextOps} `{!JsonCodec (list Task)} `{!JsonCodec HistoryEntry}
        `{!JsonCodec (list Memory)} `{!JsonCodec (gmap string string)}
        `{!JsonCodec (gmap string (list Message))}
        `{!JsonCodec (gmap string (option (list Message)))} `{!SessionBackend T}.
Implicit Types (inp : Inputs) (d : Daemon T) (s : Server T).

Definition is_dispatch (op : store_op) : Prop :=
  match op with OpDispatch _ _ _ => True | _ => False end.

(** The operations of an event, dispatches included. *)
Definition event_ops s ev (op : store_op) : Prop := event_op s ev op \/ is_dispatch op.

Lemma step_evolves_ops ev s s' :
  server_step ev s s' -> evolves (event_ops s ev) (sv_daemon s) (sv_daemon s').
Proof.
  intros Hs. eapply step_evolves; [|exact Hs|].
  - intros *. by right.
  - intros op Hop. by left.
Qed.

Lemma task_step_in_step A st st' : task_step_in A st st' -> step st st'.
Proof. intros (op & now & fault & _ & ? & ?). by exists op, now, fault. Qed.

Lemma task_steps_in_steps A st st' : rtc (task_step_in A) st st' -> rtc step st st'.
Proof. apply rtc_subrel. apply task_step_in_step. Qed.

(** ** Component invariants *)

(** No inbox grows. *)
Definition shrinks (q q' : MessageQueue) : Prop :=
  max_size q' = max_size q /\ forall ws, length (inbox q' ws) <= length (inbox q ws).

Lemma shrinks_capped q q' : shrinks q q' -> capped q -> capped q' /\ max_size q' = max_size q.
Proof.
  intros [Hm Hl] Hc. split; [|done]. intros Hpos ws. rewrite Hm in *. etrans; [apply Hl|auto].
Qed.

Lemma dequeue_shrinks ws limit from q : shrinks q (dequeue ws limit from q).2.
Proof.
  split; [apply dequeue_max_size|]. intros ws'.
  destruct (dequeue_extract ws limit from q) as (_ & Hi & Ho).
  destruct (decide (ws' = ws)) as [->|Hne]; [|by rewrite Ho].
  rewrite Hi. pose proof (Permutation_length (extract_perm limit from (inbox q ws))) as Hl.
  rewrite length_app in Hl. lia.
Qed.

Lemma remove_shrinks ws id q : shrinks q (remove_task_messages ws id q).2.
Proof.
  unfold remove_task_messages. cbv zeta. destruct (is_empty _); [done|].
  destruct (by_workspace q !! ws) as [l|] eqn:E; [|done]. cbn [snd].
  set (l' := List.filter _ l).
  assert (shrinks q (q <| by_workspace := <[ws := l']> (by_workspace q) |>)) as [Hm Hl].
  { split; [done|]. intros ws'. unfold inbox. fsimpl.
    destruct (decide (ws' = ws)) as [->|Hne]; [|by rewrite lookup_insert_ne].
    rewrite lookup_insert_eq, E. cbn [default]. apply List.filter_length_le. }
  by destruct (0 <? _).
Qed.

Lemma flush_shrinks fault q disk : shrinks q (flush fault q disk).1.2.
Proof.
  unfold flush, flush_snapshot, flush_write.
  destruct (q_file_path q); [|done]. destruct (dirty q); [|done].
  destruct (to_vec _); [|done]. by destruct fault.
Qed.

Lemma queue_step_capped q q' :
  queue_step q q' -> capped q -> capped q' /\ max_size q' = max_size q.
Proof.
  intros Hs. destruct Hs.
  - intros Hc. split; [by apply enqueue_capped|done].
  - apply shrinks_capped, dequeue_shrinks.
  - apply shrinks_capped, remove_shrinks.
  - apply shrinks_capped, flush_shrinks.
Qed.

(** What holds of the shared stores at every point of a run. *)
Record stores_ok d : Prop := {
  so_tasks : reachable (d_tasks d);
  so_queue : capped (d_queue d) /\ max_size (d_queue d) = DEFAULT_MAX_QUEUE_PER_WORKSPACE;
  so_registry : exists ops, d_registry d = run_regs ops registry_new;
  so_history : exists all, h_max_size (d_history d) = DEFAULT_HISTORY_MAX_SIZE
    /\ h_buffer (d_history d) = last_n DEFAULT_HISTORY_MAX_SIZE all;
  so_memory : links_ok (memories (d_memory d));
  so_wakes : pending_ok (d_wakes d);
}.

Lemma evolves_stores_ok A d d' : evolves A d d' -> stores_ok d -> stores_ok d'.
Proof.
  intros [Ht Hq [ops Hr] [es Hh] Hm _ Hw] [ot [oc os] [ops0 or] (all & om & ob) ol ow]. split.
  - eapply reachable_steps; [done|by eapply task_steps_in_steps].
  - revert oc os. clear -Hq. induction Hq as [|q1 q2 q3 Hs _ IH]; [done|]. intros Hc Hm.
    destruct (queue_step_capped _ _ Hs Hc) as [Hc' Hm']. apply IH; [done|congruence].
  - exists (ops0 ++ ops). rewrite Hr, or. unfold run_regs. by rewrite foldl_app.
  - exists (all ++ es.*1). rewrite Hh, <-om. apply history_appends_buffer; [|by rewrite om].
    rewrite om. unfold DEFAULT_HISTORY_MAX_SIZE. lia.
  - revert ol. clear -Hm. induction Hm as [|m1 m2 m3 Hs _ IH]; [done|]. intros Hl. apply IH.
    destruct Hs. by apply remember_links.
  - auto.
Qed.

Lemma boot_stores_ok state_dir inp tmux d :
  with_state_dir state_dir no_files inp (daemon_new tmux) = Ok d -> stores_ok d.
Proof.
  unfold with_state_dir. cbn [shared_load mem_load load queue_load history_load no_files f_shared
    f_memory f_tasks f_tasks_legacy f_queue f_history mbind result_bind map_err].
  set (st0 := {| file_path := _ |}).
  pose proof (reach_step _ (OpRecover (fun ws => tmux_session_exists ws tmux)) (i_now inp)
    (i_task_fault inp) (reach_init (Some (path_join state_dir "tasks-state.json")) None) I) as Hr.
  cbn [run_op] in Hr. cbn [daemon_new d_tmux]. fold st0 in Hr.
  destruct (recover_stale_in_progress _ _ _ st0) as [ids ts]. intros [= <-]. split; fsimpl.
  - done.
  - split; [|done]. intros _ ws. unfold inbox. cbn. rewrite lookup_empty. cbn. lia.
  - by exists [].
  - by exists [].
  - cbn [memories]. split; intros *; by rewrite lookup_empty.
  - intros k e. change (d_wakes _) with (∅ : gmap string PendingWake); by rewrite lookup_empty.
Qed.

Lemma server_stores_ok s : server_reachable s -> stores_ok (sv_daemon s).
Proof.
  induction 1 as [|ev s s' _ IH Hs]; [by eapply boot_stores_ok|].
  eapply evolves_stores_ok; [by apply step_evolves_ops|done].
Qed.

(** ** Causes of status changes *)

Lemma last_status_change A st st' k t t' :
  reachable st -> rtc (task_step_in A) st st' ->
  inner st !! k = Some t -> inner st' !! k = Some t' -> t_status t' <> t_status t ->
  exists op u, A op /\ identity u = identity t /\ status_cause op u (t_status t').
Proof.
  intros Hr Hs E. revert t'.
  refine (rtc_ind_r (fun st' => forall t', inner st' !! k = Some t' -> _ -> _) st _ _ st' Hs);
    clear st' Hs; [intros; congruence|].
  intros st1 st2 Hs (op & now & fault & Ha & Hop & ->) IH t' E' Hne.
  assert (rtc step st st1) as Hs1 by (by eapply task_steps_in_steps).
  destruct (steps_identity st st1 k t Hr Hs1 E) as (u & Eu & Hid & _).
  pose proof (reachable_steps _ _ Hr Hs1) as Hr1.
  destruct (run_op_task_step op now fault st1 k u (reachable_is_forest _ Hr1) Hop Eu)
    as (t'' & E'' & Hts). rewrite E' in E''. injection E'' as <-.
  destruct (ts_status _ _ _ Hts) as [Heq|Hc]; [|by exists op, u].
  rewrite Heq. apply IH; [done|congruence].
Qed.

Lemma dispatch_no_cause op t n : is_dispatch op -> ~ status_cause op t n.
Proof. intros Hd Hc. destruct Hc; by subst. Qed.

Lemma server_status_cause ev s s' k t t' :
  server_reachable s -> server_step ev s s' ->
  inner (d_tasks (sv_daemon s)) !! k = Some t ->
  inner (d_tasks (sv_daemon s')) !! k = Some t' -> t_status t' <> t_status t ->
  exists op u, event_op s ev op /\ identity u = identity t /\ status_cause op u (t_status t').
Proof.
  intros Hr Hs E E' Hne. pose proof (so_tasks _ (server_stores_ok _ Hr)) as Ht.
  pose proof (ev_tasks _ _ _ (step_evolves_ops _ _ _ Hs)) as Hts.
  destruct (last_status_change _ _ _ _ _ _ Ht Hts E E' Hne) as (op & u & [Hop|Hd] & Hi & Hc);
    [by exists op, u|]. by apply dispatch_no_cause in Hc.
Qed.

Lemma identity_fields t u :
  identity u = identity t ->
  t_id u = t_id t /\ t_assignee u = t_assignee t /\ t_created_by u = t_created_by t.
Proof. unfold identity. by intros [= -> _ _ -> -> _ _ _ _ _ _ _ _ _ _]. Qed.

(** ** The properties *)

(** C3: one request, disconnect or background tick changes each store only through
    that store's own operations: the tasks by the operations the event is entitled
    to and by recording dispatches, the queue, registry, history, memories and
    shared values by theirs, and the pending wakes stay well formed. *)
Theorem server_refines_components ev s s' :
  server_step ev s s' -> evolves (event_ops s ev) (sv_daemon s) (sv_daemon s').
Proof. apply step_evolves_ops. Qed.

(** C1: in every state a server can reach, under any interleaving of connections and
    background loops and any failures of the disk and of tmux: the task graph is a
    forest whose rollups are exact, no inbox holds more than 1000 messages, the
    history no more than 500, memory supersession is consistent and every pending
    wake has attempts left. *)
Theorem server_invariant s :
  server_reachable s ->
  let d := sv_daemon s in
  forest (inner (d_tasks d))
  /\ rollups_exact (inner (d_tasks d))
  /\ (forall ws, length (inbox (d_queue d) ws) <= 1000)
  /\ length (h_buffer (d_history d)) <= 500
  /\ links_ok (memories (d_memory d))
  /\ (forall ws e, d_wakes d !! ws = Some e -> pw_workspace e = ws /\ pw_attempts e < 10).
Proof.
  intros Hr. cbv zeta. destruct (server_stores_ok _ Hr) as [Ht [Hc Hm] _ (all & Hms & Hb) Hl Hw].
  split_and!.
  - by apply reachable_is_forest.
  - by apply reachable_rollups_exact.
  - intros ws. etrans; [apply Hc; rewrite Hm; unfold DEFAULT_MAX_QUEUE_PER_WORKSPACE; lia|].
    by rewrite Hm.
  - rewrite Hb. unfold last_n, DEFAULT_HISTORY_MAX_SIZE. rewrite length_drop. lia.
  - done.
  - apply Hw.
Qed.

(** C2: a task becomes completed only when the connection registered under its
    assignee's name sends an update asking for it with [confirm = true]: no other
    request, connection or background loop completes a task. *)
Theorem completion_requires_the_assignee ev s s' k t t' :
  server_reachable s -> server_step ev s s' ->
  inner (d_tasks (sv_daemon s)) !! k = Some t ->
  inner (d_tasks (sv_daemon s')) !! k = Some t' ->
  t_status t <> Completed -> t_status t' = Completed ->
  exists n c inp git_status result log,
    ev = ERequest n inp git_status (UpdateTask k (Some Completed) result log (Some true))
    /\ sv_conns s !! n = Some c /\ c_workspace c = t_assignee t /\ c_workspace c <> "".
Proof.
  intros Hr Hs E E' Hne Hc.
  destruct (server_status_cause ev s s' k t t') as (op & u & Hop & Hi & Hcause); [done..|congruence|].
  rewrite Hc in Hcause. destruct (identity_fields _ _ Hi) as (Hid & Ha & _).
  pose proof (so_tasks _ (server_stores_ok _ Hr)) as Ht.
  assert (t_id t = k) as Hk by (by eapply forest_key; [apply reachable_is_forest|]).
  inversion Hcause as [n r l cf -> _ Hg| | |]; subst.
  specialize (Hg eq_refl). destruct Hg as [Hg Hcf]. rewrite Hid, Ha in Hop.
  destruct ev as [|n inp gs req| | | | | |]; cbn [event_op] in Hop; try done.
  destruct Hop as (c & Hc' & Hws & Hreq).
  destruct req; try done; naive_solver.
Qed.

(** C8: whatever happens in the server, a finished task stays finished with the same
    outcome. *)
Theorem finished_tasks_stay_finished s s' k t :
  server_reachable s -> rtc (fun a b => exists ev, server_step ev a b) s s' ->
  inner (d_tasks (sv_daemon s)) !! k = Some t -> is_terminal_status (t_status t) = true ->
  exists t', inner (d_tasks (sv_daemon s')) !! k = Some t' /\ t_status t' = t_status t.
Proof.
  intros Hr Hs E Ht. eapply steps_terminal; [by apply so_tasks, server_stores_ok| |done|done].
  clear E Ht. induction Hs as [|s1 s2 s3 [ev Hs] _ IH]; [done|].
  etrans; [|by apply IH; eapply sr_step].
  eapply task_steps_in_steps, ev_tasks. by apply step_evolves_ops.
Qed.
End server_inv.
