(* ===== verification/HandlerFacts.v ===== *)
(** * What the handlers do, request by request.

    Registration, sending, the clean-up after a finished task, the reconciler's
    nudges, and refilling and reading an inbox. *)

From stdpp Require Import prelude strings list gmap relations.
From S2P Require Import Prelude RustStr Proto TaskHelpers TaskStore TaskEffects TaskPersist Queue.
From S2P Require Import Memory SharedValues History PureDecisions Registry Wake.
From S2P Require Import SessionManager Daemon Handlers Server.

(** ** Queue lemmas *)

Lemma last_drop_snoc {A} (l : list A) x k :
  k <= length l -> last (drop k (l ++ [x])) = Some x.
Proof. intros Hk. rewrite drop_app_le by lia. apply last_snoc. Qed.

(** The newest message of an inbox is the one just sent. *)
Lemma enqueue_last msg uuid now q :
  last (inbox (enqueue msg uuid now q).2 (m_to msg)) = Some (finalise msg uuid now).
Proof.
  rewrite enqueue_inbox, decide_True by done. cbv zeta.
  destruct (Nat.ltb_spec 0 (max_size q)); cbn [andb]; [|apply last_snoc].
  destruct (_ <? _); [|apply last_snoc]. apply last_drop_snoc. rewrite length_app. cbn. lia.
Qed.

Lemma enqueue_other msg uuid now q ws :
  ws <> m_to msg -> inbox (enqueue msg uuid now q).2 ws = inbox q ws.
Proof. intros Hne. by rewrite enqueue_inbox, decide_False. Qed.

Lemma pending_count_inbox ws q : pending_count ws q = length (inbox q ws).
Proof. unfold pending_count, inbox. by destruct (by_workspace q !! ws). Qed.

Lemma NoDup_fmap_filter {A B} (f : A -> B) (p : A -> bool) l :
  NoDup (f <$> l) -> NoDup (f <$> List.filter p l).
Proof.
  induction l as [|a l IH]; [done|]. cbn [fmap list_fmap List.filter].
  intros [Hn Hnd]%NoDup_cons. destruct (p a); [|auto]. cbn [fmap list_fmap].
  apply NoDup_cons. split; [|auto]. intros (b & Hb & Hin)%list_elem_of_fmap. apply Hn.
  apply list_elem_of_In, List.filter_In in Hin as [Hin _]. rewrite Hb.
  by apply list_elem_of_fmap_2, list_elem_of_In.
Qed.

Section handler_facts.
Context {T : Type} `{!TextOps} `{!JsonCodec (list Task)} `{!JsonCodec HistoryEntry}
        `{!JsonCodec (list Memory)} `{!JsonCodec (gmap string string)}
        `{!JsonCodec (gmap string (list Message))}
        `{!JsonCodec (gmap string (option (list Message)))} `{!SessionBackend T}.
Implicit Types (inp : Inputs) (d : Daemon T) (c : Conn).

(** ** Registration *)

(** The requests whose handler starts with [require_registered]. *)
Definition needs_registration (req : Request) : bool :=
  match req with
  | Register _ _ _ _ _ | Unregister | ListWorkspaces | SetShared _ _ | GetShared _ | ListShared
  | GetTask _ | ListTasks _ _ _ => false
  | _ => true
  end.

(** A connection that has not registered is refused, and changes nothing, on every
    request that acts on behalf of a workspace; the requests open to it leave
    everything but the registry (by registering) and the shared values alone. *)
Theorem unregistered_changes_nothing inp git_status req c d :
  c_workspace c = "" ->
  let '(r, c', d') := handle_envelope inp git_status req c d in
  if needs_registration req
  then c' = c /\ d' = d /\ exists e, r = Err (Logic e)
         /\ (i_exe_fault inp = None -> e = "not registered")
  else d' <| d_registry := d_registry d |> <| d_shared := d_shared d |> = d
       /\ (c' = c \/ c' = conn_new \/ exists ws dir desc cfg idle,
             req = Register ws dir desc cfg idle).
Proof.
  intros Hws. unfold handle_envelope. rewrite Hws.
  destruct req; cbn [needs_registration];
    try (split_and!; [reflexivity|reflexivity|]; eexists; split; [reflexivity|done]);
    cbn [handle_request].
  all: try (unfold handle_control_lifecycle, handle_agent_lifecycle, handle_send_message, handle_broadcast,
    current_ax_bin; destruct (i_exe_fault inp);
    (split_and!; [reflexivity|reflexivity|]; eexists; split; [reflexivity|done])).
  - unfold handle_register. destruct (register_with_idle _ _ _ _ _ _ _) as [[e p] r].
    split; [by destruct d|]. right. right. eauto 10.
  - split; [by destruct d|auto].
  - split; [by destruct d|auto].
  - unfold handle_set_shared. destruct (shared_set _ _ _ _) as [[] sv]; split; auto; by destruct d.
  - split; [by destruct d|auto].
  - split; [by destruct d|auto].
  - unfold handle_get_task. destruct (get _ _); split; auto; by destruct d.
  - split; [by destruct d|auto].
Qed.

(** ** Sending *)

(** [msg] has reached the inbox of [to], on behalf of [from]. *)
Record delivered inp (from to : string) (msg : Message) d d' : Prop := {
  de_from : m_from msg = from;
  de_to : m_to msg = to;
  de_newest : last (inbox (d_queue d') to) = Some msg;
  de_others ws : ws <> to -> inbox (d_queue d') ws = inbox (d_queue d) ws;
  de_wake : d_wakes d' !! to = Some (mkPendingWake to from 0 (i_now inp + secs 5));
  de_wakes ws : ws <> to -> d_wakes d' !! ws = d_wakes d !! ws;
  de_pushed e : registry_get to (d_registry d) = Some e -> (e_id e, msg) ∈ d_pushed d';
}.

(** Enqueue, append to the history, push and schedule, as every delivery does. *)
Lemma delivery inp msg uuid d :
  let '(sent, d1) := enqueue_msg msg uuid (i_now inp) d in
  let d2 := schedule_wake (m_to msg) (m_from msg) (i_now inp)
      (push_if_registered (m_to msg) sent (append_history inp sent d1)) in
  delivered inp (m_from msg) (m_to msg) sent d d2
  /\ m_content sent = m_content msg /\ d_tasks d2 = d_tasks d.
Proof.
  unfold enqueue_msg. pose proof (enqueue_last msg uuid (i_now inp) (d_queue d)) as Hl.
  pose proof (fun ws => enqueue_other msg uuid (i_now inp) (d_queue d) ws) as Ho.
  assert ((enqueue msg uuid (i_now inp) (d_queue d)).1 = finalise msg uuid (i_now inp)) as Hf
    by reflexivity.
  destruct (enqueue _ _ _ _) as [sent q]. cbn [fst snd] in *. subst sent.
  assert (m_from (finalise msg uuid (i_now inp)) = m_from msg
    /\ m_content (finalise msg uuid (i_now inp)) = m_content msg) as [Hfrom Hcont].
  { unfold finalise. cbv zeta. by destruct (is_empty _), (_ =? _)%Z. }
  cbv zeta. split; [|split; [done|]; unfold schedule_wake, push_if_registered; fsimpl;
    by destruct (registry_get _ _)].
  assert (forall d0 : Daemon T, d_queue (push_if_registered (m_to msg)
    (finalise msg uuid (i_now inp)) d0) = d_queue d0
    /\ d_wakes (push_if_registered (m_to msg) (finalise msg uuid (i_now inp)) d0) = d_wakes d0)
    as Hpush by (intros d0; unfold push_if_registered; by destruct (registry_get _ _)).
  unfold schedule_wake, schedule. split; fsimpl.
  - done.
  - apply finalise_to.
  - by rewrite (proj1 (Hpush _)).
  - intros ws Hne. rewrite (proj1 (Hpush _)). by apply Ho.
  - by rewrite lookup_insert_eq.
  - intros ws Hne. rewrite lookup_insert_ne by done. by rewrite (proj2 (Hpush _)).
  - intros e He. unfold push_if_registered, append_history. fsimpl. rewrite He. fsimpl.
    set_solver.
Qed.

(** The delivery of a handler that touches its caller before pushing. *)
Lemma push_touch target ws now sent d :
  target <> ws ->
  push_if_registered target sent (touch_ws ws now d)
  = touch_ws ws now (push_if_registered target sent d).
Proof.
  intros Hne. unfold push_if_registered, touch_ws, registry_get. fsimpl.
  assert (entries (touch ws now (d_registry d)) !! target = entries (d_registry d) !! target)
    as ->.
  { unfold touch. destruct (entries (d_registry d) !! ws); [|done]. fsimpl.
    by rewrite lookup_insert_ne. }
  by destruct (entries (d_registry d) !! target).
Qed.

(** [delivered] looks at the queue, the wakes and the pushes only. *)
Lemma delivered_ext inp from to msg d d1 d2 :
  d_queue d2 = d_queue d1 -> d_wakes d2 = d_wakes d1 -> d_pushed d2 = d_pushed d1 ->
  delivered inp from to msg d d1 -> delivered inp from to msg d d2.
Proof. intros Hq Hw Hp []. split; rewrite ?Hq, ?Hw, ?Hp; auto. Qed.

(** A message to another workspace is delivered whatever the dispatch of its session
    then does: it is the newest of the recipient's inbox, no other inbox changes,
    the recipient is due to be woken five seconds later with a full budget of attempts,
    and a connected recipient gets it pushed.  The reply carries its id exactly when
    the dispatch, if asked for, succeeds. *)
Theorem send_message_delivers inp ws to message cfg d :
  i_exe_fault inp = None -> ws <> "" -> trim to <> "" -> to <> ws ->
  let '(r, d') := handle_send_message inp ws to message cfg d in
  exists msg,
    m_content msg = message /\ delivered inp ws to msg d d' /\ d_tasks d' = d_tasks d
    /\ (is_ok r = true -> r = Ok (RSent (m_id msg) "sent"))
    /\ (trim cfg = "" -> is_ok r = true).
Proof.
  intros Hexe Hws Hto Hne.
  unfold handle_send_message, current_ax_bin, require_registered, plan_send_message.
  rewrite Hexe, (proj2 (is_empty_false ws) Hws), (proj2 (is_empty_false _) Hto),
    (proj2 (String.eqb_neq to ws) Hne). cbv zeta.
  set (msg0 := mkMessage _ ws to message "" (i_now inp)).
  pose proof (delivery inp msg0 (i_uuid inp to) d) as Hd.
  destruct (is_empty (trim cfg)) eqn:Hcfg; unfold mbind, M_bind, mret, M_ret, with_state;
    destruct (enqueue_msg msg0 (i_uuid inp to) (i_now inp) d) as [msg d1] eqn:Eq;
    destruct Hd as (Hd & Hc & Ht); rewrite push_touch by done;
    [|destruct (on_tmux _ _ _) as [[] d2] eqn:Et]; exists msg; (split; [done|]).
  - split_and!; [by eapply delivered_ext; [..|exact Hd]|exact Ht|done|done].
  - unfold on_tmux in Et. destruct (dispatch_runnable_work _ _ _ _ _) as [[] w]; [|done].
    injection Et as _ <-. split_and!; [by eapply delivered_ext; [..|exact Hd]|exact Ht|done|done].
  - unfold on_tmux in Et. destruct (dispatch_runnable_work _ _ _ _ _) as [[] w]; [done|].
    injection Et as <- <-. apply is_empty_false in Hcfg.
    split_and!; [by eapply delivered_ext; [..|exact Hd]|exact Ht|done|done].
Qed.

(** ** Finished tasks *)

Lemma has_task_message_inbox ws id q :
  has_task_message ws id q
  = if is_empty (trim id) then false
    else existsb (fun msg => String.eqb (message_task_id msg) (trim id)) (inbox q ws).
Proof.
  unfold has_task_message, inbox. cbv zeta. destruct (is_empty _); [done|].
  by destruct (by_workspace q !! ws).
Qed.

Lemma purge_facts assignee id d :
  trim id <> "" ->
  let d' := purge_task_messages assignee id d in
  has_task_message assignee id (d_queue d') = false
  /\ (inbox (d_queue d') assignee = [] -> d_wakes d' !! assignee = None).
Proof.
  intros Hid. cbv zeta. unfold purge_task_messages. cbv zeta. fsimpl.
  pose proof (remove_task_messages_effect assignee id (d_queue d) Hid) as (Hno & _).
  rewrite pending_count_inbox. destruct (Nat.eqb_spec (length (inbox
    (remove_task_messages assignee id (d_queue d)).2 assignee)) 0) as [He|Hne].
  - split; [done|]. intros _. unfold cancel_wake, wake_cancel. fsimpl. apply lookup_delete_eq.
  - split; [done|]. fsimpl. intros Hn. by rewrite Hn in Hne.
Qed.

(** The creator of a finished or blocked task, when someone else works on it. *)
Definition other_creator (t : Task) (creator : string) : Prop :=
  creator = trim (t_created_by t) /\ creator <> "" /\ creator <> t_assignee t.

Lemma notify_facts inp t d :
  is_Some (terminal_label (t_status t)) ->
  let d' := notify_creator_of_terminal_status inp t d in
  (forall creator, other_creator t creator ->
     exists msg, delivered inp (t_assignee t) creator msg d d')
  /\ inbox (d_queue d') (t_assignee t) = inbox (d_queue d) (t_assignee t)
  /\ d_wakes d' !! t_assignee t = d_wakes d !! t_assignee t.
Proof.
  intros [label Hlabel]. cbv zeta. unfold notify_creator_of_terminal_status. cbv zeta.
  rewrite Hlabel. destruct (is_empty (trim (t_created_by t))) eqn:He; cbn [orb].
  { apply is_empty_true in He. split; [|done]. intros ? (-> & ? & ?). done. }
  destruct (String.eqb_spec (trim (t_created_by t)) (t_assignee t)) as [Heq|Hne].
  { split; [|done]. intros ? (-> & ? & ?). done. }
  match goal with |- context [enqueue_msg ?m ?u _ d] =>
    pose proof (delivery inp m u d) as Hd; destruct (enqueue_msg m u (i_now inp) d) as [msg d1]
  end.
  cbv zeta in Hd. destruct Hd as (Hd & _ & _). cbn [m_to m_from task_aware_message] in Hd.
  split; [|by split; [apply (de_others _ _ _ _ _ _ Hd)|apply (de_wakes _ _ _ _ _ _ Hd)]].
  intros ? (-> & _). by exists msg.
Qed.

Lemma followup_facts inp t d :
  is_Some (terminal_label (t_status t)) -> trim (t_id t) <> "" ->
  let d' := apply_task_state_followup inp t d in
  has_task_message (t_assignee t) (t_id t) (d_queue d') = false
  /\ (inbox (d_queue d') (t_assignee t) = [] -> d_wakes d' !! t_assignee t = None)
  /\ (forall creator, other_creator t creator ->
        exists msg, last (inbox (d_queue d') creator) = Some msg /\ m_from msg = t_assignee t
          /\ d_wakes d' !! creator
             = Some (mkPendingWake creator (t_assignee t) 0 (i_now inp + secs 5))).
Proof.
  intros Hl Hid. cbv zeta. unfold apply_task_state_followup.
  assert (plan_task_state_followup t = CleanupTerminal (t_assignee t) (t_id t)) as ->.
  { unfold plan_task_state_followup. by destruct (t_status t), Hl. }
  destruct (purge_facts (t_assignee t) (t_id t) d Hid) as [Hno Hw]. cbv zeta in *.
  destruct (notify_facts inp t (purge_task_messages (t_assignee t) (t_id t) d) Hl)
    as (Hc & Hi & Hk). cbv zeta in *. rewrite !has_task_message_inbox, Hi, Hk in *.
  split_and!; [done|done|]. intros creator Ho. destruct (Hc creator Ho) as [msg Hd].
  exists msg. split_and!; [apply (de_newest _ _ _ _ _ _ Hd)|apply (de_from _ _ _ _ _ _ Hd)
    |apply (de_wake _ _ _ _ _ _ Hd)].
Qed.

Definition updates_or_cancels (req : Request) : bool :=
  match req with UpdateTask _ _ _ _ _ | CancelTask _ _ _ => true | _ => false end.

(** An accepted update or cancel ends with the follow-up of the task it returns. *)
Lemma bind_ok {A B} (x : M T A) (f : A -> M T B) d b d' :
  (x ≫= f) d = (Ok b, d') -> exists a d1, x d = (Ok a, d1) /\ f a d1 = (Ok b, d').
Proof. unfold mbind, M_bind. destruct (x d) as [[a|e] d1]; [eauto|done]. Qed.

Lemma accepted_followup inp gs ws req d t d' :
  updates_or_cancels req = true -> handle_request inp gs ws req d = (Ok (RTask t), d') ->
  exists d0, d' = apply_task_state_followup inp t d0.
Proof.
  intros Hreq Hok. destruct req; try done; cbn [handle_request] in Hok;
    apply bind_ok in Hok as (? & ? & _ & Hok); apply bind_ok in Hok as (task & ? & _ & Hok);
    apply bind_ok in Hok as (? & d2 & _ & Hok); apply bind_ok in Hok as (? & d3 & H3 & Hok);
    unfold modify in H3; injection H3 as _ <-; injection Hok as <- <-; by eexists.
Qed.

(** When an update or a cancel leaves a task finished or blocked, its assignee's
    inbox holds no message about it any more, the assignee's wake is dropped if nothing
    else is waiting, and a creator who is not the assignee finds the news as the newest
    message of its inbox and is scheduled to be woken. *)
Theorem finished_task_is_cleaned_up inp gs ws req d t d' :
  updates_or_cancels req = true -> handle_request inp gs ws req d = (Ok (RTask t), d') ->
  is_Some (terminal_label (t_status t)) -> trim (t_id t) <> "" ->
  has_task_message (t_assignee t) (t_id t) (d_queue d') = false
  /\ (inbox (d_queue d') (t_assignee t) = [] -> d_wakes d' !! t_assignee t = None)
  /\ (forall creator, other_creator t creator ->
        exists msg, last (inbox (d_queue d') creator) = Some msg /\ m_from msg = t_assignee t
          /\ d_wakes d' !! creator
             = Some (mkPendingWake creator (t_assignee t) 0 (i_now inp + secs 5))).
Proof.
  intros Hreq Hok Hl Hid. destruct (accepted_followup _ _ _ _ _ _ _ Hreq Hok) as [d0 ->].
  by apply followup_facts.
Qed.

(** ** The reconciler *)

(** One nudge: the reconciler found the inbox empty and the agent idle. *)
Record nudged inp (t : Task) d d' : Prop := {
  nu_cap : (t_dispatch_count t < SILENT_TASK_NUDGE_CAP)%Z;
  nu_live : tmux_session_exists (t_assignee t) (d_tmux d) = true;
  nu_idle : tmux_is_idle (t_assignee t) (d_tmux d) = true;
  nu_before : inbox (d_queue d) (t_assignee t) = [];
  nu_after : exists msg, inbox (d_queue d') (t_assignee t) = [msg]
    /\ m_from msg = "reconciler"
    /\ m_content msg = build_task_reminder_message t SILENT_TASK_NUDGE_NOTE;
  nu_wake : d_wakes d' !! t_assignee t
    = Some (mkPendingWake (t_assignee t) "reconciler" 0 (i_now inp + secs 5));
}.

Lemma nudge_one_facts inp d t :
  d_tmux (nudge_one inp d t) = d_tmux d
  /\ (forall ws, ws <> t_assignee t ->
        inbox (d_queue (nudge_one inp d t)) ws = inbox (d_queue d) ws
        /\ d_wakes (nudge_one inp d t) !! ws = d_wakes d !! ws)
  /\ ((inbox (d_queue (nudge_one inp d t)) (t_assignee t) = inbox (d_queue d) (t_assignee t)
       /\ d_wakes (nudge_one inp d t) !! t_assignee t = d_wakes d !! t_assignee t)
      \/ nudged inp t d (nudge_one inp d t)).
Proof.
  unfold nudge_one.
  destruct (Z.leb_spec SILENT_TASK_NUDGE_CAP (t_dispatch_count t)); [by auto|].
  destruct (tmux_session_exists _ _) eqn:Hlive; cbn [negb]; [|by auto].
  destruct (tmux_is_idle _ _) eqn:Hidle; cbn [negb]; [|by auto].
  rewrite pending_count_inbox.
  destruct (inbox (d_queue d) (t_assignee t)) eqn:Hbox; cbn [length Nat.ltb Nat.leb]; [|by auto].
  cbv zeta. set (msg := task_aware_message _ _ _ _).
  unfold enqueue_msg. pose proof (enqueue_inbox msg (i_uuid inp (t_id t)) (i_now inp) (d_queue d))
    as Hq. pose proof (finalise_to msg (i_uuid inp (t_id t)) (i_now inp)).
  destruct (enqueue msg (i_uuid inp (t_id t)) (i_now inp) (d_queue d)) as [sent q].
  cbn [snd] in Hq. unfold schedule_wake, schedule. fsimpl.
  assert (m_to msg = t_assignee t) as Hto by reflexivity. rewrite Hto in *.
  split; [done|]. split.
  { intros ws Hne. rewrite Hq, decide_False by done. split; [done|]. by rewrite lookup_insert_ne. }
  right. split; fsimpl; try done; [|by rewrite lookup_insert_eq].
  rewrite Hq, decide_True, Hbox by done. cbn [app length]. eexists. split.
  - destruct (Nat.ltb_spec 0 (max_size (d_queue d))); [|done]. cbn [andb].
    destruct (Nat.ltb_spec (max_size (d_queue d)) 1); [lia|done].
  - unfold finalise. cbv zeta. by destruct (is_empty _), (_ =? _)%Z.
Qed.

(** The inbox and wake of [ws] are untouched. *)
Definition untouched (ws : string) d d' : Prop :=
  inbox (d_queue d') ws = inbox (d_queue d) ws /\ d_wakes d' !! ws = d_wakes d !! ws.

Lemma nudges_facts inp l d0 d :
  d_tmux d = d_tmux d0 ->
  (forall ws, untouched ws d0 d \/ inbox (d_queue d) ws <> []) ->
  let d' := foldl (nudge_one inp) d l in
  forall ws, untouched ws d d'
    \/ exists t, t ∈ l /\ t_assignee t = ws /\ nudged inp t d0 d'.
Proof.
  revert d. induction l as [|t l IH]; intros d Ht Hd; cbv zeta; intros ws; [by left|].
  cbn [foldl]. destruct (nudge_one_facts inp d t) as (Ht' & Hothers & Hself).
  set (d1 := nudge_one inp d t) in *.
  assert (forall w, untouched w d0 d1 \/ inbox (d_queue d1) w <> []) as Hd1.
  { intros w. destruct (decide (w = t_assignee t)) as [->|Hne].
    - destruct Hself as [[Hi Hw]|Hn]; [|right; by destruct (nu_after _ _ _ _ Hn) as (m & -> & _)].
      unfold untouched. rewrite Hi, Hw. apply Hd.
    - destruct (Hothers w Hne) as [Hi Hw]. unfold untouched. rewrite Hi, Hw. apply Hd. }
  destruct (IH d1 ltac:(congruence) Hd1 ws) as [Hun|(t' & Hin & Ha & Hn)];
    [|right; exists t'; split_and!; [set_solver|done|done]].
  destruct Hun as [Hi Hw].
  assert (untouched ws d d1 -> untouched ws d (foldl (nudge_one inp) d1 l)) as Hcase.
  { unfold untouched. rewrite Hi, Hw. auto. }
  destruct (decide (ws = t_assignee t)) as [->|Hne]; [|left; apply Hcase; by apply Hothers].
  destruct Hself as [Hun|[Hcap Hlive Hidle Hb Ha Hwk]]; [left; by apply Hcase|].
  right. exists t. split_and!; [set_solver|done|]. rewrite Ht in *.
  destruct (Hd (t_assignee t)) as [[Hi0 _]|]; [|done].
  split; try done; [by rewrite <-Hi0|by rewrite Hi|by rewrite Hw].
Qed.

(** One reconciler pass either leaves a workspace's inbox and wake alone or nudges it
    once: about one of its silent in-progress tasks that has not exhausted its five
    dispatches, when the inbox was empty and the agent alive and idle.  So at most one
    nudge per workspace and pass, and never on top of waiting messages. *)
Theorem reconciler_nudges_at_most_once inp d ws :
  let d' := reconcile_once inp d in
  untouched ws d d'
  \/ exists t ts, ts = (recover_stale_in_progress (fun w => tmux_session_exists w (d_tmux d))
                         (i_now inp) (i_task_fault inp) (d_tasks d)).2
     /\ t ∈ list_silent_in_progress (i_now inp) (secs 180) ts
     /\ t_assignee t = ws /\ nudged inp t d d'.
Proof.
  cbv zeta. unfold reconcile_once.
  destruct (recover_stale_in_progress _ _ _ _) as [ids ts]. cbn [snd]. cbv zeta. fsimpl.
  destruct (nudges_facts inp (list_silent_in_progress (i_now inp) (secs
    SILENT_TASK_STALE_THRESHOLD_SECS) ts) d (d <| d_tasks := ts |>)) with (ws := ws)
    as [Hun|(t & Hin & Ha & Hn)]; [done|by left| |].
  - by left.
  - right. by exists t, ts.
Qed.

(** ** Refilling and reading an inbox *)

(** The message [refill_runnable_task_messages] queues for a task. *)
Definition refill_message inp (sender : string) (t : Task) : Message :=
  finalise (task_aware_message sender (t_assignee t) (task_dispatch_content t "") (i_now inp))
    (i_uuid inp (t_id t)) (i_now inp).

(** What the task-id pattern finds in a task's dispatch message. *)
Definition id_in_content (t : Task) : Prop :=
  extract_task_id (task_dispatch_content t "") = t_id t /\ trim (t_id t) = t_id t
  /\ t_id t <> "".

Lemma refill_message_id inp sender t :
  id_in_content t -> message_task_id (refill_message inp sender t) = t_id t.
Proof.
  intros (He & Htr & Hne). unfold message_task_id, refill_message.
  assert (m_task_id (finalise (task_aware_message sender (t_assignee t)
    (task_dispatch_content t "") (i_now inp)) (i_uuid inp (t_id t)) (i_now inp)) = t_id t) as ->.
  { unfold finalise. cbv zeta. destruct (is_empty _), (_ =? _)%Z; exact He. }
  rewrite Htr. by rewrite (proj2 (is_empty_false _) Hne).
Qed.

Lemma enqueue_task_message_queue inp uuid t sender content d :
  d_queue (enqueue_task_message inp uuid t sender content d).2
  = (enqueue (task_aware_message sender (t_assignee t) content (i_now inp)) uuid (i_now inp)
       (d_queue d)).2.
Proof.
  unfold enqueue_task_message, enqueue_msg. cbv zeta.
  by destruct (enqueue _ _ _ _) as [m q].
Qed.

Lemma refill_fold inp ws sender l n d :
  Forall (fun t => t_assignee t = ws /\ id_in_content t) l -> NoDup (t_id <$> l) ->
  length (inbox (d_queue d) ws) + length l <= max_size (d_queue d) ->
  let missing := List.filter (fun t => negb (has_task_message ws (t_id t) (d_queue d))) l in
  let r := foldl (refill_one inp ws sender) (n, d) l in
  r.1 = n + length missing
  /\ inbox (d_queue r.2) ws = inbox (d_queue d) ws ++ (refill_message inp sender <$> missing).
Proof.
  revert n d. induction l as [|t l IH]; intros n d Hall Hnd Hroom; cbv zeta.
  { cbn. rewrite app_nil_r. split; [lia|done]. }
  apply Forall_cons in Hall as [[Ha Hid] Hall]. cbn [fmap list_fmap] in Hnd.
  apply NoDup_cons in Hnd as [Hnin Hnd]. cbn [length] in Hroom. cbn [foldl List.filter].
  unfold refill_one at 2 4. destruct (has_task_message ws (t_id t) (d_queue d)) eqn:Hm; cbn [negb].
  { apply IH; [done|done|lia]. }
  pose proof (enqueue_task_message_queue inp (i_uuid inp (t_id t)) t sender
    (task_dispatch_content t "") d) as Hq.
  destruct (enqueue_task_message _ _ _ _ _ _) as [m d1]. cbn [snd] in Hq.
  assert (inbox (d_queue d1) ws = inbox (d_queue d) ws ++ [refill_message inp sender t]) as Hi.
  { rewrite Hq, enqueue_inbox. cbn [task_aware_message m_to]. rewrite decide_True by done.
    cbv zeta. destruct (Nat.ltb_spec (max_size (d_queue d)) (length (inbox (d_queue d) ws ++
      [refill_message inp sender t]))) as [Hl|Hl]; [rewrite length_app in Hl; cbn in Hl; lia|].
    unfold refill_message in *. destruct (Nat.ltb_spec (max_size (d_queue d)) (length
      (inbox (d_queue d) ws ++ [finalise (task_aware_message sender (t_assignee t)
        (task_dispatch_content t "") (i_now inp)) (i_uuid inp (t_id t)) (i_now inp)]))); [lia|].
    by rewrite andb_false_r. }
  assert (max_size (d_queue d1) = max_size (d_queue d)) as Hms by (by rewrite Hq).
  destruct (IH (S n) d1) as [H1 H2]; [done|done|rewrite Hms, Hi, length_app; cbn; lia|].
  assert (List.filter (fun t0 => negb (has_task_message ws (t_id t0) (d_queue d1))) l
    = List.filter (fun t0 => negb (has_task_message ws (t_id t0) (d_queue d))) l) as Hf.
  { apply List.filter_ext_in. intros t0 Hin. f_equal. rewrite !has_task_message_inbox, Hi.
    destruct (is_empty _) eqn:He; [done|]. rewrite existsb_app. cbn [existsb].
    rewrite refill_message_id by done.
    rewrite Forall_forall in Hall. destruct (Hall t0) as [_ (_ & Htr & _)];
      [by apply list_elem_of_In|]. rewrite Htr.
    rewrite (proj2 (String.eqb_neq (t_id t) (t_id t0))); [by rewrite !orb_false_r|].
    intros Heq. apply Hnin. rewrite Heq. by apply list_elem_of_fmap_2, list_elem_of_In. }
  rewrite Hf in *. cbn [length fmap list_fmap]. rewrite H1, H2, Hi, <-app_assoc. split; [lia|done].
Qed.

Lemma runnable_NoDup ws now st :
  forest (inner st) -> NoDup (t_id <$> runnable_by_assignee ws now st).
Proof.
  intros Hf. apply NoDup_fmap_filter. rewrite btree_values_ids; [apply btree_keys_NoDup|].
  intros k t Hk. by apply (forest_key _ Hf).
Qed.

(** When the inbox has room, a refill gives every runnable task of the workspace that
    has no message in the inbox exactly one, at the end and in task order, leaves the
    waiting messages alone and reports how many it queued. *)
Theorem refill_is_complete inp ws sender d :
  let runnable := runnable_by_assignee ws (i_now inp) (d_tasks d) in
  forest (inner (d_tasks d)) -> Forall id_in_content runnable ->
  length (inbox (d_queue d) ws) + length runnable <= max_size (d_queue d) ->
  let '(n, d') := refill_runnable_task_messages inp ws sender d in
  let missing := List.filter (fun t => negb (has_task_message ws (t_id t) (d_queue d))) runnable in
  n = length missing
  /\ inbox (d_queue d') ws = inbox (d_queue d) ws ++ (refill_message inp sender <$> missing)
  /\ Forall (fun t => has_task_message ws (t_id t) (d_queue d') = true) runnable.
Proof.
  cbv zeta. intros Hf Hids Hroom. unfold refill_runnable_task_messages.
  set (l := runnable_by_assignee ws (i_now inp) (d_tasks d)) in *.
  assert (Forall (fun t => t_assignee t = ws /\ id_in_content t) l) as Hall.
  { apply Forall_forall. intros t Hin. rewrite Forall_forall in Hids. split; [|auto].
    apply list_elem_of_In, List.filter_In in Hin as [_ Hr]. unfold runnable_task in Hr.
    destruct (String.eqb_spec (t_assignee t) ws); [done|]. by rewrite orb_true_r in Hr. }
  pose proof (refill_fold inp ws sender l 0 d Hall (runnable_NoDup _ _ _ Hf) Hroom) as Hr.
  cbv zeta in Hr. destruct (foldl _ _ _) as [n d']. cbn [fst snd] in Hr.
  destruct Hr as [Hn Hi]. split_and!; [done|done|].
  apply Forall_forall. intros t Hin. rewrite has_task_message_inbox, Hi.
  rewrite Forall_forall in Hids. destruct (Hids t Hin) as (He & Htr & Hne). rewrite Htr.
  rewrite (proj2 (is_empty_false _) Hne), existsb_app.
  destruct (has_task_message ws (t_id t) (d_queue d)) eqn:Hm.
  { rewrite has_task_message_inbox, Htr, (proj2 (is_empty_false _) Hne) in Hm. by rewrite Hm. }
  apply orb_true_iff. right. apply existsb_exists. exists (refill_message inp sender t). split.
  - apply list_elem_of_In, list_elem_of_fmap_2, list_elem_of_In, List.filter_In.
    split; [by apply list_elem_of_In|]. by rewrite Hm.
  - rewrite refill_message_id by (by split_and!). apply String.eqb_refl.
Qed.

(** Reading takes the oldest messages, loses none, and drops the caller's pending wake
    exactly when nothing is left; an empty inbox with a pending wake is refilled from
    the task store first. *)
Theorem reading_loses_nothing inp ws limit from d :
  ws <> "" ->
  let d0 := if decide (inbox (d_queue d) ws = []) then
              match d_wakes d !! ws with
              | Some wake => (refill_runnable_task_messages inp ws (pw_sender wake) d).2
              | None => d
              end else d in
  let sender := if is_empty from then None else Some from in
  let n := if (limit <=? 0)%Z then 10 else Z.to_nat limit in
  let '(r, d') := handle_read_messages inp ws limit from d in
  exists out, r = Ok (RMessages out)
  /\ out = take n (List.filter (wanted sender) (inbox (d_queue d0) ws))
  /\ out ++ inbox (d_queue d') ws ≡ₚ inbox (d_queue d0) ws
  /\ (forall ws', ws' <> ws -> inbox (d_queue d') ws' = inbox (d_queue d0) ws')
  /\ d_wakes d' = (if decide (inbox (d_queue d') ws = []) then delete ws (d_wakes d0)
                   else d_wakes d0)
  /\ d_tasks d' = d_tasks d0.
Proof.
  intros Hws. cbv zeta. unfold handle_read_messages, require_registered.
  rewrite (proj2 (is_empty_false ws) Hws).
  unfold mbind, M_bind, mret, M_ret, modify, with_state. rewrite pending_count_inbox.
  set (d0 := if decide _ then _ else _).
  assert ((if length (inbox (d_queue d) ws) =? 0 then
     match wake_state_of ws (d_wakes d) with
     | Some wake => (refill_runnable_task_messages inp ws (pw_sender wake) d).2
     | None => d end else d) = d0) as ->.
  { unfold d0, wake_state_of. destruct (inbox (d_queue d) ws); [by rewrite decide_True|by rewrite decide_False]. }
  assert ((if negb (is_empty from) then Some from else None)
    = if is_empty from then None else Some from) as -> by (by destruct (is_empty from)).
  set (sender := if is_empty from then None else Some from).
  set (n := if (limit <=? 0)%Z then 10 else Z.to_nat limit).
  destruct (dequeue_extract ws n sender (d_queue d0)) as (Ho & Hi & Hothers).
  destruct (dequeue ws n sender (d_queue d0)) as [out q]. cbn [fst snd] in *.
  exists out. unfold touch_ws. fsimpl. rewrite pending_count_inbox.
  assert (forall d1 : Daemon T, d_queue (if length (inbox q ws) =? 0 then cancel_wake ws d1 else d1)
    = d_queue d1 /\ d_tasks (if length (inbox q ws) =? 0 then cancel_wake ws d1 else d1)
    = d_tasks d1 /\ d_wakes (if length (inbox q ws) =? 0 then cancel_wake ws d1 else d1)
    = if decide (inbox q ws = []) then delete ws (d_wakes d1) else d_wakes d1) as Hc.
  { intros d1. destruct (inbox q ws); [by rewrite decide_True|by rewrite decide_False]. }
  destruct (Hc ((d0 <| d_queue := q |>) <| d_registry := touch ws (i_now inp) (d_registry d0) |>))
    as (Hq & Ht & Hw). rewrite Hq, Ht, Hw. fsimpl. rewrite Ho, Hi.
  split_and!; [by rewrite <-Ho|apply extract_out|apply extract_perm|done|done|done].
Qed.
End handler_facts.
