(* ===== verification/ComponentExamples.v ===== *)
(** * The theorems about the queue, the memories, the shared values, the history,
    the metrics, the registry, the wake scheduler and the session manager, applied
    at concrete states. *)

From stdpp Require Import prelude strings list gmap sorting.
From S2P Require Import Prelude RustStr Proto Concrete TaskHelpers TaskStore Queue Memory.
From S2P Require Import SharedValues History Registry Wake SessionManager.

(** ** Queue *)

Definition note (from to content : string) : Message := mkMessage "" from to content "" 0.

Definition queue1 : MessageQueue := (enqueue (note "alice" "bob" "hi") "1" (secs 1) queue_new).2.
Definition queue2 : MessageQueue :=
  (enqueue (note "carol" "bob" ("Task ID: " +:+ uuid_a)) "2" (secs 2) queue1).2.

Lemma queue_new_capped : capped queue_new.
Proof. intros _ ws. unfold inbox. cbn. rewrite lookup_empty. cbn. lia. Qed.

Lemma enqueue_is_fifo_witness :
  capped queue1 /\ dirty (enqueue (note "carol" "bob" "yo") "2" (secs 2) queue1).2 = true.
Proof.
  assert (capped queue1) as Hc by (apply enqueue_capped, queue_new_capped).
  split; [exact Hc|].
  apply (enqueue_is_fifo (note "carol" "bob" "yo") "2" (secs 2) queue1 Hc).
Defined.

Lemma remove_task_messages_spec_witness :
  has_task_message "bob" uuid_a queue2 = true
  /\ has_task_message "bob" uuid_a (remove_task_messages "bob" uuid_a queue2).2 = false.
Proof.
  split; [vm_compute; reflexivity|].
  apply (remove_task_messages_spec "bob" uuid_a queue2). vm_compute. discriminate.
Defined.

#[global] Instance Message_eq_dec : EqDecision Message.
Proof. solve_decision. Defined.
#[global] Instance Message_countable : Countable Message.
Proof.
  refine (inj_countable'
    (fun m => (m_id m, m_from m, m_to m, m_content m, m_task_id m, m_created_at m))
    (fun '(a, b, c, d, e, f) => mkMessage a b c d e f) _).
  by intros [].
Defined.

(** The snapshot is written as a list of queues and read back as optional ones. *)
#[global] Instance DemoSnapshotWrite : JsonCodec (gmap string (list Message)) := {|
  to_vec m := Some (pos_to_string (encode (map_to_list m)));
  from_slice s := list_to_map <$> (string_to_pos s ≫= decode);
|}.
#[global] Instance DemoSnapshotRead : JsonCodec (gmap string (option (list Message))) := {|
  to_vec _ := None;
  from_slice s := (fun l : list (string * list Message) =>
    Some <$> (list_to_map l : gmap string (list Message))) <$> (string_to_pos s ≫= decode);
|}.
#[global] Instance DemoSnapshotOk : SnapshotCodecOk.
Proof.
  split; [intros m; by eexists|]. intros m s [= <-]. split.
  - by destruct (encode (map_to_list m)).
  - cbn [from_slice DemoSnapshotRead]. rewrite string_to_pos_to_string. cbn.
    rewrite decode_encode. cbn. by rewrite list_to_map_to_list.
Qed.

Definition disk_queue : MessageQueue :=
  mkMessageQueue (Some "/q.json") DEFAULT_MAX_QUEUE_PER_WORKSPACE ∅ false.
Definition disk_queue1 : MessageQueue :=
  (enqueue (note "alice" "bob" "hi") "1" (secs 1) disk_queue).2.

(** A message is queued and flushed. *)
Lemma clean_queue_is_on_disk_witness :
  exists bytes q, flush None disk_queue1 None
      = (Ok tt, disk_queue1 <| dirty := false |>, Some bytes)
    /\ queue_load "/q.json" (Some (Ok bytes)) = Ok q
    /\ by_workspace q = by_workspace disk_queue1.
Proof.
  eexists.
  pose (s := mkQstate (disk_queue1 <| dirty := false |>)
    (Some (pos_to_string (encode (map_to_list (by_workspace disk_queue1))))) None).
  destruct (clean_queue_is_on_disk "/q.json" s) as (q & Hq & Hb).
  - eapply qreach_step; [eapply qreach_step; [eapply qreach_step|]|].
    + by apply (qreach_load _ None disk_queue).
    + apply (qstep_enqueue _ _ _ (note "alice" "bob" "hi") "1" (secs 1)).
    + apply qstep_flush_begin. reflexivity.
    + eapply qstep_flush_end with (fault := None). reflexivity.
  - reflexivity.
  - reflexivity.
  - exists q. split; [reflexivity|]. split; [exact Hq|exact Hb].
Defined.

(** ** Memories *)

#[local] Instance QuickMemoryCodec : JsonCodec (list Memory) :=
  {| to_vec _ := Some "[]"; from_slice _ := None |}.

Definition memory1 : Store :=
  (remember "global" "" "subject" "first" [] "alice" [] "m1" (secs 1) None mem_in_memory).2.
Definition memory2 : Store :=
  (remember "global" "" "subject" "second" [] "alice" ["m1"] "m2" (secs 2) None memory1).2.

Lemma remember_is_atomic_witness :
  (remember "global" "" "s" "third" [] "alice" ["m2"; "m1"] "m3" (secs 3) None memory2).2
  = memory2.
Proof.
  apply (remember_is_atomic "global" "" "s" "third" [] "alice" ["m2"; "m1"] "m3" (secs 3) None
    memory2 (AlreadySuperseded "m1")); vm_compute; reflexivity.
Defined.

Lemma supersession_is_consistent_witness :
  links_ok (memories memory2)
  /\ mem_superseded_by <$> (memories memory2 !! "m1") = Some "m2".
Proof.
  split; [|vm_compute; reflexivity].
  apply (supersession_is_consistent memory2). unfold memory2, memory1.
  apply mem_reach_remember; [apply mem_reach_remember|]; [constructor|vm_compute; reflexivity..].
Defined.

(** ** Shared values and history *)

#[global] Instance DemoSharedCodec : JsonCodec (gmap string string) := {|
  to_vec m := Some (pos_to_string (encode (map_to_list m)));
  from_slice s := list_to_map <$> (string_to_pos s ≫= decode);
|}.
#[global] Instance DemoSharedCodecOk : JsonCodecOk (gmap string string).
Proof.
  split; cbn [to_vec from_slice DemoSharedCodec]; intros m s [= <-].
  - rewrite string_to_pos_to_string. cbn. rewrite decode_encode. cbn.
    by rewrite list_to_map_to_list.
  - by destruct (encode (map_to_list m)).
Qed.

Definition shared0 : SharedValues := mkSharedValues (Some "/s.json") ∅ None.

Lemma shared_set_then_get_witness :
  shared_get "k" (shared_set "k" "v" None shared0).2 = Some "v"
  /\ shared_load "/s.json" (Ok <$> sv_file (shared_set "k" "v" None shared0).2)
     = Ok (shared_set "k" "v" None shared0).2.
Proof.
  destruct (shared_set_then_get "k" "v" None shared0) as (Hg & _ & _ & _ & Hl).
  split; [exact Hg|]. apply (Hl "/s.json"); reflexivity.
Defined.

#[global] Instance HistoryEntry_eq_dec : EqDecision HistoryEntry.
Proof. solve_decision. Defined.
#[global] Instance HistoryEntry_countable : Countable HistoryEntry.
Proof.
  refine (inj_countable'
    (fun h => (h_timestamp h, h_from h, h_to h, h_content h, h_task_id h))
    (fun '(a, b, c, d, e) => mkHistoryEntry a b c d e) _).
  by intros [].
Defined.
#[global] Instance DemoHistoryCodec : JsonCodec HistoryEntry := demo_codec HistoryEntry.
#[global] Instance DemoHistoryCodecOk : JsonCodecOk HistoryEntry := demo_codec_ok HistoryEntry.

Definition entry_a : HistoryEntry := mkHistoryEntry 1 "alice" "bob" "hi" "".
Definition entry_b : HistoryEntry := mkHistoryEntry 2 "bob" "alice" "hello" "".

Lemma history_survives_restart_witness :
  let h := history_appends [(entry_a, true); (entry_b, true)]
             (mkHistory (Some "/h.jsonl") 1 [] []) in
  history_load "/h.jsonl" 1 (Some (Ok (h_lines h))) = Ok h.
Proof. apply (history_survives_restart "/h.jsonl" 1 [entry_a; entry_b]). by eexists. Defined.

(** ** Metrics *)

Lemma context_value_is_nearest_witness :
  exists k, format_context_value (Some 45600%Z) = show_Z k +:+ "k"
    /\ (2 * Z.abs (45600 - 1000 * k) <= 1000)%Z.
Proof. apply (context_value_is_nearest 45600). unfold i64_max. lia. Defined.

(** ** Registry *)

Definition reg_ops : list reg_op :=
  [RRegister "bob" "/b" "" "" 0 (secs 1); RTouch "bob" (secs 2);
   RRegister "amy" "/a" "" "" 0 (secs 3); RUnregisterIf "amy" 7].

Lemma registry_is_consistent_witness : registry_ok (run_regs reg_ops registry_new).
Proof. apply (registry_is_consistent reg_ops). vm_compute. reflexivity. Defined.

Definition registry1 : Registry :=
  (register_with_idle "bob" "/b" "" "" 0 (secs 1) registry_new).2.
Definition bob1 : Entry := (register_with_idle "bob" "/b" "" "" 0 (secs 1) registry_new).1.1.

Lemma registry1_ok : registry_ok registry1.
Proof.
  apply (registry_ok_run [RRegister "bob" "/b" "" "" 0 (secs 1)] registry_new); [|cbn; lia].
  split; cbn [registry_new next_id entries]; try lia; intros *; by rewrite lookup_empty.
Qed.

Lemma stale_disconnect_is_harmless_witness :
  let r2 := run_regs [RTouch "bob" (secs 3)]
              (register_with_idle "bob" "/b2" "" "" 0 (secs 2) registry1).2 in
  unregister_if "bob" 1 r2 = (false, r2).
Proof.
  apply (stale_disconnect_is_harmless registry1 "bob" "/b2" "" "" 0 (secs 2) bob1
    [RTouch "bob" (secs 3)]); [apply registry1_ok|reflexivity|vm_compute; reflexivity].
Defined.

(** ** Wake scheduler *)

(** A world of inbox sizes where every session is live and idle. *)
#[local] Instance DemoWakeEnv : WakeEnv (gmap string nat) := {|
  env_pending_count ws w := default 0 (w !! ws);
  env_session_exists _ _ := true;
  env_is_idle _ _ := true;
  env_wake_workspace _ _ w := (true, w);
  env_refill := None;
  env_ensure_session := None;
  env_retry_after_successful := None;
|}.

Definition wake0 : wake_state (gmap string nat) := mkWakeState ∅ {[ "bob" := 2 ]} [].

Definition wake_ops : list (wake_op (W := gmap string nat)) :=
  (fun i => WProcess (secs (Z.of_nat i * 60)) (fun _ => secs (Z.of_nat i * 60))) <$> seq 1 30.

Lemma wakes_are_bounded_witness :
  count_wakes "bob" (wakes (run_wakes wake_ops (run_wake (WSchedule "bob" "amy" 0) wake0))) = 10
  /\ count_wakes "bob" (wakes (run_wakes wake_ops (run_wake (WSchedule "bob" "amy" 0) wake0)))
     <= count_wakes "bob" (wakes wake0) + WAKE_MAX_ATTEMPTS.
Proof.
  split; [vm_compute; reflexivity|].
  apply (wakes_are_bounded wake_ops wake0 "bob" "amy" 0); [|vm_compute; reflexivity].
  intros k e. cbn [wake0 pending]. by rewrite lookup_empty.
Defined.

Definition bob_wake : PendingWake := mkPendingWake "bob" "amy" 0 (secs 5).

Lemma due_wake_is_handled_witness :
  let s := mkWakeState {[ "bob" := bob_wake ]} (world wake0) [] in
  wakes (process_one (secs 6) s bob_wake) = ["bob"].
Proof.
  cbv zeta. pose proof (due_wake_is_handled (secs 6)
    (mkWakeState {[ "bob" := bob_wake ]} (world wake0) []) bob_wake bob_wake eq_refl) as Hd.
  destruct Hd as [Hw _]. exact Hw.
Defined.

(** ** Session manager *)

(** Every session is live, and idle unless its name is listed. *)
#[global] Instance DemoSessions : SessionBackend (list string) := {|
  tmux_session_exists _ _ := true;
  tmux_is_idle ws busy := negb (existsb (String.eqb ws) busy);
  tmux_wake_workspace _ _ w := (Ok tt, w);
  tmux_interrupt_workspace _ w := (Ok tt, w);
  dispatch_runnable_work _ _ _ _ w := (Ok tt, w);
  start_named_target _ name w := (Ok (mkLifecycleTarget name TargetWorkspace true), w);
  stop_named_target _ name w := (Ok (mkLifecycleTarget name TargetWorkspace true), w);
  restart_named_target _ name w := (Ok (mkLifecycleTarget name TargetWorkspace true), w);
  agent_lifecycle _ name action w :=
    (Ok (mkAgentLifecycleResponse name "" "workspace" true true "" true true), w);
|}.

Definition idle_bob : RegisteredWorkspace :=
  mkRegisteredWorkspace (e_info bob1) "/ax.yaml" (secs 60) (secs 1).

Lemma sleeps_iff_nothing_left_witness :
  should_sleep idle_bob (secs 100) queue_new None TaskStore.in_memory [] = true
  /\ inbox queue_new "bob" = [].
Proof.
  split; [vm_compute; reflexivity|].
  pose proof (sleeps_iff_nothing_left idle_bob (secs 100) queue_new None TaskStore.in_memory
    ([] : list string) ltac:(vm_compute; discriminate)) as [Hs _].
  destruct (Hs ltac:(vm_compute; reflexivity)) as (_ & _ & _ & _ & _ & _ & _ & Hi & _).
  exact Hi.
Defined.
