(* ===== verification/ServerExamples.v ===== *)
(** * The server's theorems on a concrete run.

    Two agents connect; [amy] creates a task for [bob], who claims and completes
    it.  The last section shows two behaviours of the handlers that their comments
    do not announce. *)

From stdpp Require Import prelude strings list gmap sorting relations.
From S2P Require Import Prelude RustStr Proto Concrete TaskHelpers TaskStore TaskMachine.
From S2P Require Import TaskEffects TaskForest TaskLifecycle Queue Memory SharedValues History.
From S2P Require Import PureDecisions Registry Wake SessionManager Daemon Handlers Server.
From S2P Require Import ServerFacts HandlerFacts ComponentExamples.

#[local] Instance QuickTasks : JsonCodec (list Task) :=
  {| to_vec _ := Some "[]"; from_slice _ := None |}.
#[local] Instance QuickMemories : JsonCodec (list Memory) :=
  {| to_vec _ := Some "[]"; from_slice _ := None |}.
#[local] Instance QuickHistory : JsonCodec HistoryEntry :=
  {| to_vec _ := Some "{}"; from_slice _ := None |}.

Abbreviation demo_server := (Server (list string)).

(** Inputs at second [n]: no failures, fixed identifiers. *)
Definition demo_inputs (n : Z) : Inputs :=
  mkInputs (secs n) (fun what => if String.eqb what "task" then uuid_a else what)
    None None None true None None.
Definition no_git : string -> WorkspaceGitStatus := fun _ => mkWorkspaceGitStatus "non_git" 0 0 0 0 0 0 0 "".

Definition boot : demo_server :=
  match with_state_dir "/state" no_files (demo_inputs 1) (daemon_new []) with
  | Ok d => mkServer d ∅
  | Err _ => mkServer (daemon_new []) ∅
  end.

Definition accept (n : nat) (s : demo_server) : demo_server :=
  mkServer (sv_daemon s) (<[n := conn_new]> (sv_conns s)).
Definition request (n : nat) (now : Z) (req : Request) (s : demo_server) : demo_server :=
  match sv_conns s !! n with
  | Some c => let '(_, c', d') := handle_envelope (demo_inputs now) no_git req c (sv_daemon s) in
              mkServer d' (<[n := c']> (sv_conns s))
  | None => s
  end.

Definition register_as (ws : string) : Request := Register ws ("/" +:+ ws) "" "" 0.
Definition task_for_bob : Request :=
  CreateTask (mkCreateTaskPayload "title" "" "bob" "" "" "" "" 0).
Definition claim : Request := UpdateTask uuid_a (Some InProgress) None None None.
Definition finish : Request :=
  UpdateTask uuid_a (Some Completed) (Some "src/lib.rs; remaining owned dirty files=<none>")
    None (Some true).

Definition run1 : demo_server := accept 1 (accept 0 boot).
Definition run2 : demo_server := request 1 3 (register_as "bob") (request 0 2 (register_as "amy") run1).
Definition run3 : demo_server := request 0 4 task_for_bob run2.
Definition run4 : demo_server := request 1 5 claim run3.
Definition run5 : demo_server := request 1 6 finish run4.

Definition task_of (s : demo_server) : Task :=
  default (new_task (mkCreateTaskInput "" "" "" "" "" StartDefault Parallel Normal 0 "" "") "" 0)
    (inner (d_tasks (sv_daemon s)) !! uuid_a).

Lemma accept_step n s : sv_conns s !! n = None -> server_step (EAccept n) s (accept n s).
Proof. destruct s. apply ss_accept. Qed.

Lemma request_step n now req s c :
  sv_conns s !! n = Some c -> request_fresh (demo_inputs now) req (sv_daemon s) ->
  server_step (ERequest n (demo_inputs now) no_git req) s (request n now req s).
Proof.
  intros Hn Hf. unfold request. rewrite Hn. destruct s as [d cs]. cbn [sv_daemon sv_conns] in *.
  destruct (handle_envelope _ _ _ _ _) as [[r c'] d'] eqn:E. by eapply ss_request.
Qed.

Ltac req_step n := eapply (request_step n); [vm_compute; reflexivity|try exact I].

Lemma run3_reachable : server_reachable run3.
Proof.
  assert (server_reachable boot) as H0.
  { eapply (sr_boot "/state" (demo_inputs 1) []). reflexivity. }
  assert (server_reachable (accept 0 boot)) as H1
    by (eapply sr_step; [exact H0|apply accept_step; reflexivity]).
  assert (server_reachable run1) as H2
    by (eapply sr_step; [exact H1|apply accept_step; vm_compute; reflexivity]).
  assert (server_reachable (request 0 2 (register_as "amy") run1)) as H3
    by (eapply sr_step; [exact H2|req_step 0]).
  assert (server_reachable run2) as H4 by (eapply sr_step; [exact H3|req_step 1]).
  eapply sr_step; [exact H4|req_step 0].
  split_and!; [vm_compute; reflexivity|vm_compute; discriminate|vm_compute; discriminate].
Qed.

Lemma claim_step : server_step (ERequest 1 (demo_inputs 5) no_git claim) run3 run4.
Proof. req_step 1. Qed.
Lemma finish_step : server_step (ERequest 1 (demo_inputs 6) no_git finish) run4 run5.
Proof. req_step 1. Qed.
Lemma run4_reachable : server_reachable run4.
Proof. eapply sr_step; [apply run3_reachable|apply claim_step]. Qed.
Lemma run5_reachable : server_reachable run5.
Proof. eapply sr_step; [apply run4_reachable|apply finish_step]. Qed.

(** ** Witnesses *)

Lemma server_refines_components_witness :
  evolves (event_ops run4 (ERequest 1 (demo_inputs 6) no_git finish))
    (sv_daemon run4) (sv_daemon run5).
Proof. apply (server_refines_components _ run4 run5). apply finish_step. Defined.

Lemma server_invariant_witness :
  t_status (task_of run5) = Completed /\ forest (inner (d_tasks (sv_daemon run5))).
Proof.
  split; [vm_compute; reflexivity|]. apply (server_invariant run5). apply run5_reachable.
Defined.

Lemma completion_requires_the_assignee_witness :
  exists n c inp git_status result log,
    ERequest 1 (demo_inputs 6) no_git finish
    = ERequest n inp git_status (UpdateTask uuid_a (Some Completed) result log (Some true))
    /\ sv_conns run4 !! n = Some c /\ c_workspace c = t_assignee (task_of run4)
    /\ c_workspace c <> "".
Proof.
  apply (completion_requires_the_assignee (ERequest 1 (demo_inputs 6) no_git finish) run4 run5
    uuid_a (task_of run4) (task_of run5));
    [apply run4_reachable|apply finish_step|vm_compute; reflexivity|vm_compute; reflexivity
    |vm_compute; discriminate|vm_compute; reflexivity].
Defined.

Definition run6 : demo_server := request 1 7 (UpdateTask uuid_a (Some Failed) None None None) run5.

Lemma finished_tasks_stay_finished_witness :
  exists t', inner (d_tasks (sv_daemon run6)) !! uuid_a = Some t'
    /\ t_status t' = t_status (task_of run5).
Proof.
  apply (finished_tasks_stay_finished run5 run6 uuid_a (task_of run5));
    [apply run5_reachable| |vm_compute; reflexivity|vm_compute; reflexivity].
  apply rtc_once. eexists. req_step 1.
Defined.

Lemma unregistered_changes_nothing_witness :
  handle_envelope (demo_inputs 7) no_git task_for_bob conn_new (sv_daemon run5)
  = (Err (Logic "not registered"), conn_new, sv_daemon run5).
Proof.
  pose proof (unregistered_changes_nothing (demo_inputs 7) no_git task_for_bob conn_new
    (sv_daemon run5) eq_refl) as Hn.
  destruct (handle_envelope _ _ _ _ _) as [[r c'] d'].
  destruct Hn as (-> & -> & e & -> & He). rewrite (He eq_refl). reflexivity.
Defined.

Lemma send_message_delivers_witness :
  exists msg, m_content msg = "hello"
    /\ last (inbox (d_queue (handle_send_message (demo_inputs 7) "amy" "bob" "hello" ""
                               (sv_daemon run5)).2) "bob") = Some msg.
Proof.
  pose proof (send_message_delivers (demo_inputs 7) "amy" "bob" "hello" "" (sv_daemon run5)
    eq_refl ltac:(discriminate) ltac:(vm_compute; discriminate) ltac:(discriminate)) as Hs.
  destruct (handle_send_message _ _ _ _ _ _) as [r d']. destruct Hs as (msg & Hc & Hd & _).
  exists msg. split; [exact Hc|apply (de_newest _ _ _ _ _ _ Hd)].
Defined.

Lemma finished_task_is_cleaned_up_witness :
  let out := handle_request (demo_inputs 6) no_git "bob" finish (sv_daemon run4) in
  has_task_message "bob" uuid_a (d_queue out.2) = false.
Proof.
  cbv zeta.
  destruct (finished_task_is_cleaned_up (demo_inputs 6) no_git "bob" finish (sv_daemon run4)
    (task_of run5) (sv_daemon run5)) as (Hno & _);
    [reflexivity|vm_compute; reflexivity|vm_compute; eexists; reflexivity
    |vm_compute; discriminate|].
  revert Hno. vm_compute. exact id.
Defined.

(** A dispatched task whose message has been read and lost. *)
Definition dispatched : Daemon (list string) :=
  (sv_daemon run3) <| d_tasks := run_op (OpDispatch uuid_a "bob" (secs 5)) (secs 5) None
                                    (d_tasks (sv_daemon run3)) |>
                   <| d_queue := queue_new |>.

Lemma dispatched_forest : forest (inner (d_tasks dispatched)).
Proof.
  unfold dispatched. fsimpl. apply reachable_is_forest. apply reach_step; [|exact I].
  apply (so_tasks _ (server_stores_ok _ run3_reachable)).
Qed.

Lemma refill_is_complete_witness :
  length (runnable_by_assignee "bob" (secs 6) (d_tasks dispatched)) = 1
  /\ (refill_runnable_task_messages (demo_inputs 6) "bob" "amy" dispatched).1 = 1.
Proof.
  split; [vm_compute; reflexivity|].
  pose proof (refill_is_complete (demo_inputs 6) "bob" "amy" dispatched dispatched_forest) as Hr.
  destruct (refill_runnable_task_messages _ _ _ _) as [n d'].
  destruct Hr as (Hn & _ & _).
  - change (i_now (demo_inputs 6)) with (secs 6).
    assert (runnable_by_assignee "bob" (secs 6) (d_tasks dispatched)
      = [task_of (mkServer dispatched ∅)]) as -> by (vm_compute; reflexivity).
    repeat constructor; vm_compute; (reflexivity || discriminate).
  - apply Nat.leb_le. vm_compute. reflexivity.
  - rewrite Hn. vm_compute. reflexivity.
Defined.

Lemma reading_loses_nothing_witness :
  exists out, (handle_read_messages (demo_inputs 7) "amy" 0 "" (sv_daemon run5)).1
      = Ok (RMessages out)
    /\ length out = 1.
Proof.
  pose proof (reading_loses_nothing (demo_inputs 7) "amy" 0 "" (sv_daemon run5)
    ltac:(discriminate)) as Hr. cbv zeta in Hr.
  destruct (handle_read_messages _ _ _ _ _) as [r d'] eqn:E.
  destruct Hr as (out & -> & Hout & _). exists out. split; [reflexivity|].
  rewrite Hout. vm_compute. reflexivity.
Defined.

(** ** Behaviours worth knowing. *)

(** The creator is notified again by every later update of a finished task: a log
    line added after completion queues a second completion notice. *)
Definition run7 : demo_server :=
  request 1 8 (UpdateTask uuid_a None None (Some "wrote the changelog in src/log.rs") None) run5.

Theorem creator_is_notified_again :
  t_status (task_of run5) = Completed /\ t_status (task_of run7) = Completed
  /\ length (inbox (d_queue (sv_daemon run5)) "amy") = 1
  /\ length (inbox (d_queue (sv_daemon run7)) "amy") = 2.
Proof. vm_compute. repeat split. Qed.

(** A connection that registers under a second name and disconnects leaves its first
    registration behind: only the last name is unregistered. *)
Definition run8 : demo_server := request 1 8 (register_as "bob2") run5.
Definition run9 : Daemon (list string) :=
  match sv_conns run8 !! 1 with
  | Some c => close_connection c (sv_daemon run8)
  | None => sv_daemon run8
  end.

Theorem second_registration_leaks_the_first :
  is_some (registry_get "bob2" (d_registry run9)) = false
  /\ is_some (registry_get "bob" (d_registry run9)) = true.
Proof. vm_compute. split; reflexivity. Qed.
