(* ===== verification/Paths.v ===== *)
(** * Unix paths as [std::path] reads them, and ax-config/src/paths.rs.

    A path is its byte string ([display] is the identity on UTF-8).  [parent] and
    [file_name] work on the reversed bytes, skipping trailing separators and
    [.] components as [Components] does. *)

From stdpp Require Import prelude strings list.
From S2P Require Import Prelude RustStr.

Definition slash : Ascii.ascii := Ascii.ascii_of_nat 47.
Definition dot : Ascii.ascii := Ascii.ascii_of_nat 46.

Definition is_absolute (p : string) : bool := starts_with p "/".

(** [Path::join]. *)
Definition join (dir p : string) : string :=
  if is_absolute p then p
  else if is_empty dir then p
  else if ends_with dir "/" then dir +:+ p else dir +:+ "/" +:+ p.

(** Drop trailing separators and [.] components; the root and a leading [.] stay. *)
Fixpoint trim_back (r : list Ascii.ascii) : list Ascii.ascii :=
  match r with
  | [] => []
  | a :: r' =>
      match r' with
      | [] => r
      | b :: _ =>
          if decide (a = slash) then trim_back r'
          else if decide (a = dot /\ b = slash) then trim_back r'
          else r
      end
  end.

Fixpoint last_component (r : list Ascii.ascii) : list Ascii.ascii * list Ascii.ascii :=
  match r with
  | [] => ([], [])
  | a :: r' =>
      if decide (a = slash) then ([], r)
      else let '(c, rest) := last_component r' in (a :: c, rest)
  end.

Definition parent (p : string) : option string :=
  let r := trim_back (reverse (bytes p)) in
  if decide (r = [] \/ r = [slash]) then None
  else Some (of_bytes (reverse (trim_back (last_component r).2))).

Definition file_name (p : string) : option string :=
  let c := of_bytes (reverse (last_component (trim_back (reverse (bytes p)))).1) in
  if is_empty c || String.eqb c "." || String.eqb c ".." then None else Some c.

(** The components of a path, by which [Path] is compared: empty and [.] components
    are skipped, except a leading [.] of a relative path. *)
Fixpoint split_slash (l : list Ascii.ascii) : list (list Ascii.ascii) :=
  match l with
  | [] => [[]]
  | a :: r =>
      if decide (a = slash) then [] :: split_slash r
      else match split_slash r with
           | [] => [[a]]
           | c :: cs => (a :: c) :: cs
           end
  end.

Definition kept (c : string) : bool := negb (is_empty c || String.eqb c ".").
Definition raw_components (p : string) : list string := of_bytes <$> split_slash (bytes p).
Definition normal_components (p : string) : list string :=
  List.filter kept (raw_components p).
Definition components (p : string) : list string :=
  if is_absolute p then "/" :: normal_components p
  else match raw_components p with
       | "." :: _ => "." :: normal_components p
       | _ => normal_components p
       end.

(** [std::path::absolute] on Unix, for a non-empty path. *)
Definition absolute {E} (cwd : result E string) (p : string) : result E string :=
  start ← (if is_absolute p
           then Ok (if starts_with p "//" && negb (starts_with p "///") then "//" else "/")
           else cwd);
  let full := foldl join start (normal_components p) in
  Ok (if ends_with p "/" then join full "" else full).

(** ** ax-config/src/paths.rs *)

Definition DEFAULT_CONFIG_DIR : string := ".ax".
Definition DEFAULT_CONFIG_FILE : string := "config.yaml".
Definition LEGACY_CONFIG_FILE : string := "ax.yaml".

Definition default_config_path (dir : string) : string :=
  join (join dir DEFAULT_CONFIG_DIR) DEFAULT_CONFIG_FILE.
Definition legacy_config_path (dir : string) : string := join dir LEGACY_CONFIG_FILE.

(** [ConfigRoot::from_config_path]. *)
Definition from_config_path (path : string) : string :=
  let dir := default "." (parent path) in
  if String.eqb (default "" (file_name dir)) DEFAULT_CONFIG_DIR
  then default "." (parent dir) else dir.

Section lookup.
Context (is_file : string -> bool).

Definition config_path_in_dir (dir : string) : option string :=
  let preferred := default_config_path dir in
  if is_file preferred then Some preferred
  else let legacy := legacy_config_path dir in
       if is_file legacy then Some legacy else None.

(** The loop of [find_config_file]: one pass per ancestor. *)
Fixpoint find_upward (fuel : nat) (current : string) (topmost : option string)
  : option (option string) :=
  match fuel with
  | O => None
  | S fuel =>
      let topmost := match config_path_in_dir current with
                     | Some path => Some path
                     | None => topmost
                     end in
      match parent current with
      | Some up => if decide (components up = components current) then Some topmost
                   else find_upward fuel up topmost
      | None => Some topmost
      end
  end.

Definition find_config_file (home : option string) (fuel : nat) (start : string)
  : option (option string) :=
  topmost ← find_upward fuel start None;
  Some (match home with
        | Some home => match config_path_in_dir home with
                       | Some path => Some path
                       | None => topmost
                       end
        | None => topmost
        end).
End lookup.

Example root_of_dotdir : from_config_path "/home/u/proj/.ax/config.yaml" = "/home/u/proj".
Proof. vm_compute. reflexivity. Qed.
Example root_of_legacy : from_config_path "/home/u/proj//ax.yaml" = "/home/u/proj".
Proof. vm_compute. reflexivity. Qed.
Example parent_examples :
  (parent "/a/./b/", parent "/a", parent "/", parent "a", file_name "a/..")
  = (Some "/a", Some "/", None, Some "", None).
Proof. vm_compute. reflexivity. Qed.
Example absolute_examples :
  (absolute (E := string) (Ok "/w") "./a//b/./c", absolute (E := string) (Ok "/w") "/a/../b/", components "./a/./b//c")
  = (Ok "/w/a/b/c", Ok "/a/../b/", [".";"a"; "b"; "c"]).
Proof. vm_compute. reflexivity. Qed.

(** ** Absolute paths stay absolute. *)

Lemma is_absolute_spec p : is_absolute p = true <-> exists l, bytes p = slash :: l.
Proof.
  unfold is_absolute, starts_with. destruct p as [|a p].
  - split; [done|]. by intros [l [=]].
  - change (String.prefix "/" (String a p))
      with (if Ascii.ascii_dec slash a then String.prefix "" p else false).
    change (bytes (String a p)) with (a :: bytes p).
    destruct (Ascii.ascii_dec slash a) as [<-|Hne].
    + split; [intros _; by eexists|]. by destruct p.
    + split; [done|]. intros [l [= E _]]. by subst.
Qed.

Lemma is_absolute_last p : is_absolute p = true <-> last (reverse (bytes p)) = Some slash.
Proof.
  rewrite is_absolute_spec, last_reverse. destruct (bytes p) as [|a l]; cbn [head].
  - split; [by intros [? [=]]|]. discriminate.
  - split.
    + intros [l' E]. apply (f_equal head) in E. done.
    + intros E. exists l. by injection E as ->.
Qed.

Lemma bytes_app s t : bytes (s +:+ t) = bytes s ++ bytes t.
Proof.
  induction s as [|a s IH]; [done|].
  change (a :: bytes (s +:+ t) = a :: (bytes s ++ bytes t)). by rewrite IH.
Qed.

Lemma is_absolute_app s t : is_absolute s = true -> is_absolute (s +:+ t) = true.
Proof.
  rewrite !is_absolute_spec. intros [l E]. exists (l ++ bytes t). by rewrite bytes_app, E.
Qed.

Lemma join_absolute dir p : is_absolute dir = true -> is_absolute (join dir p) = true.
Proof.
  intros Hd. unfold join. destruct (is_absolute p) eqn:Ep; [done|].
  destruct (is_empty dir) eqn:Ee; [by apply is_empty_true in Ee as ->|].
  destruct (ends_with dir "/"); by apply is_absolute_app.
Qed.

Lemma trim_back_cons a b r :
  trim_back (a :: b :: r)
  = if decide (a = slash) then trim_back (b :: r)
    else if decide (a = dot /\ b = slash) then trim_back (b :: r) else a :: b :: r.
Proof. reflexivity. Qed.

Lemma last_trim_back r : last (trim_back r) = last r.
Proof.
  induction r as [|a [|b r] IH]; [done..|]. rewrite trim_back_cons.
  repeat case_decide; rewrite ?IH; done.
Qed.

Lemma trim_back_length r : length (trim_back r) <= length r.
Proof.
  induction r as [|a [|b r] IH]; [done..|]. rewrite trim_back_cons.
  repeat case_decide; cbn [length] in *; lia.
Qed.

Lemma last_component_app r : r = (last_component r).1 ++ (last_component r).2.
Proof.
  induction r as [|a r IH]; [done|]. cbn. case_decide; [done|].
  destruct (last_component r) as [c rest]. cbn in *. by rewrite IH at 1.
Qed.

Lemma last_component_no_slash r : slash ∉ (last_component r).1.
Proof.
  induction r as [|a r IH]; cbn; [set_solver|]. case_decide; [set_solver|].
  destruct (last_component r) as [c rest]. cbn in *. set_solver.
Qed.

Lemma last_component_last r :
  last r = Some slash -> last (last_component r).2 = Some slash.
Proof.
  intros Hl. pose proof (last_component_app r) as E. rewrite E, last_app in Hl.
  destruct (last (last_component r).2) as [a|] eqn:El; [done|].
  apply last_Some_elem_of in Hl. by apply last_component_no_slash in Hl.
Qed.

Lemma parent_absolute p d : parent p = Some d -> is_absolute p = true -> is_absolute d = true.
Proof.
  unfold parent. intros Hp Ha%is_absolute_last. case_decide; [done|]. injection Hp as <-.
  apply is_absolute_last. rewrite bytes_of_bytes, reverse_involutive, last_trim_back.
  apply last_component_last. by rewrite last_trim_back.
Qed.

(** A parent is strictly shorter, so that the walk to the root ends. *)
Lemma parent_shorter p d : parent p = Some d -> length (bytes d) < length (bytes p).
Proof.
  unfold parent. case_decide as Hr; [done|]. intros [= <-].
  rewrite bytes_of_bytes, length_reverse.
  set (r := trim_back (reverse (bytes p))) in *.
  assert (length r <= length (bytes p)) as Hlen.
  { unfold r. rewrite <-(length_reverse (bytes p)). apply trim_back_length. }
  pose proof (trim_back_length (last_component r).2) as Ht.
  enough (length (trim_back (last_component r).2) < length r) by lia.
  pose proof (last_component_app r) as E.
  assert (length r = length (last_component r).1 + length (last_component r).2) as El.
  { rewrite E at 1. apply length_app. }
  destruct (last_component r).1 as [|a c] eqn:Ec; [|cbn in *; lia].
  (* the last component of a trimmed path is empty only for the root *)
  exfalso. apply Hr. destruct r as [|a [|b r']] eqn:Er; [by left| |].
  - right. cbn in Ec. case_decide; [by subst|done].
  - cbn in Ec. case_decide as Ha; [|by destruct (decide (b = slash)), (last_component r')].
    exfalso. subst a. clear -Er.
    assert (forall l, trim_back l <> slash :: b :: r') as Hno; [|by apply Hno in Er].
    induction l as [|a [|c l] IH]; [done..|]. rewrite trim_back_cons.
    repeat case_decide; try done. intros [= -> ->]. naive_solver.
Qed.

Lemma parent_some p l a :
  bytes p = l ++ [a] -> a <> slash -> a <> dot -> is_Some (parent p).
Proof.
  intros E Hs Hd. unfold parent. rewrite E, reverse_app. cbn [reverse rev_append app].
  assert (trim_back (a :: reverse l) = a :: reverse l) as ->.
  { destruct (reverse l) as [|b r]; [done|]. rewrite trim_back_cons.
    by rewrite decide_False, decide_False by naive_solver. }
  case_decide as Hc; [|by eexists]. destruct Hc as [Hc|Hc]; [done|].
  injection Hc as Ha _. by destruct Hs.
Qed.

Lemma join_tail dir p l a :
  bytes p = l ++ [a] -> exists l', bytes (join dir p) = l' ++ [a].
Proof.
  intros E. unfold join. destruct (is_absolute p); [by eauto|].
  destruct (is_empty dir); [by eauto|].
  destruct (ends_with dir "/"); rewrite ?bytes_app, E, ?app_assoc; by eauto.
Qed.

Definition letter_l : Ascii.ascii := Ascii.ascii_of_nat 108.

(** Every path [config_path_in_dir] returns has a parent. *)
Lemma config_path_in_dir_parent is_file dir p :
  config_path_in_dir is_file dir = Some p -> is_Some (parent p).
Proof.
  unfold config_path_in_dir, default_config_path, legacy_config_path.
  repeat case_match; intros [= <-].
  - destruct (join_tail (join dir DEFAULT_CONFIG_DIR) DEFAULT_CONFIG_FILE
                (bytes "config.yam") letter_l eq_refl) as [l E].
    by apply (parent_some _ _ _ E); vm_compute; discriminate.
  - destruct (join_tail dir LEGACY_CONFIG_FILE (bytes "ax.yam") letter_l eq_refl) as [l E].
    by apply (parent_some _ _ _ E); vm_compute; discriminate.
Qed.

Lemma config_path_in_dir_absolute is_file dir p :
  config_path_in_dir is_file dir = Some p -> is_absolute dir = true -> is_absolute p = true.
Proof.
  unfold config_path_in_dir, default_config_path, legacy_config_path.
  repeat case_match; intros [= <-] ?; by repeat apply join_absolute.
Qed.

Lemma file_name_parent p n : file_name p = Some n -> is_Some (parent p).
Proof.
  unfold file_name, parent. case_decide as Hr; [|by eexists].
  destruct Hr as [-> | ->]; by vm_compute.
Qed.

Lemma from_config_path_absolute p :
  is_Some (parent p) -> is_absolute p = true -> is_absolute (from_config_path p) = true.
Proof.
  intros [d Hd] Ha. unfold from_config_path. rewrite Hd.
  cbv zeta. change (default "." (Some d)) with d.
  pose proof (parent_absolute _ _ Hd Ha) as Hda.
  destruct (String.eqb _ _) eqn:E; [|done]. apply String.eqb_eq in E.
  destruct (file_name d) as [n|] eqn:Ef; [|vm_compute in E; discriminate].
  destruct (file_name_parent _ _ Ef) as [d' Hd']. rewrite Hd'. cbn.
  by apply (parent_absolute _ _ Hd').
Qed.

(** ** [find_config_file] ends and returns the topmost config, unless the home has one. *)

(** The directories the walk visits, from the start towards the root. *)
Fixpoint ancestors (fuel : nat) (p : string) : list string :=
  match fuel with
  | O => []
  | S fuel =>
      p :: match parent p with
           | Some up => if decide (components up = components p) then []
                        else ancestors fuel up
           | None => []
           end
  end.

Lemma find_upward_spec is_file fuel p top :
  length (bytes p) < fuel ->
  find_upward is_file fuel p top
  = Some (match last (omap (config_path_in_dir is_file) (ancestors fuel p)) with
          | Some path => Some path
          | None => top
          end).
Proof.
  revert p top. induction fuel as [|fuel IH]; intros p top Hf; [lia|].
  cbn [find_upward ancestors].
  destruct (parent p) as [up|] eqn:Ep.
  2: { cbn. by destruct (config_path_in_dir is_file p). }
  case_decide; [cbn; by destruct (config_path_in_dir is_file p)|].
  rewrite IH by (pose proof (parent_shorter _ _ Ep); lia).
  cbn. destruct (config_path_in_dir is_file p) as [c|]; [|done].
  cbn. by destruct (omap _ _) as [|x l] using rev_ind; rewrite ?last_cons, ?last_snoc.
Qed.
