(* ===== verification/RustText.v ===== *)
(** * Lines, words and searches of Rust's [str].

    The text functions the agent-side crates use: [lines], [split_whitespace],
    [replace] of one ASCII character, [find], [trim_end_matches('\n')] and
    [parse::<u32>()].  Strings are byte lists, as in [RustStr]. *)

From Stdlib Require Import Ascii.
From stdpp Require Import prelude strings list pretty.
From S2P Require Import Prelude RustStr.

Definition nl : ascii := Ascii.ascii_of_nat 10.
Definition cr : ascii := Ascii.ascii_of_nat 13.
Definition sp : ascii := Ascii.ascii_of_nat 32.
Definition newline : string := String nl "".

(** [str::lines]: a line ends with [\n] or [\r\n], the last one may end with the text. *)
Fixpoint lines_of (l : list ascii) : list (list ascii) :=
  match l with
  | [] => []
  | a :: r =>
      if decide (a = nl) then [] :: lines_of r
      else if decide (a = cr /\ head r = Some nl) then lines_of r
      else match lines_of r with
           | [] => [[a]]
           | c :: cs => (a :: c) :: cs
           end
  end.
Definition lines (s : string) : list string := of_bytes <$> lines_of (bytes s).

(** [str::split_whitespace], on characters. *)
Definition flush_word (cur : list ascii) : list string :=
  match cur with [] => [] | _ => [of_bytes cur] end.
Fixpoint words_of (cs : list (list ascii)) (cur : list ascii) : list string :=
  match cs with
  | [] => flush_word cur
  | c :: cs => if is_whitespace c then flush_word cur ++ words_of cs [] else words_of cs (cur ++ c)
  end.
Definition split_whitespace (s : string) : list string := words_of (chars s) [].

(** [str::replace] of one ASCII character by another. *)
Definition replace_char (a b : ascii) (s : string) : string :=
  of_bytes ((fun c => if decide (c = a) then b else c) <$> bytes s).

(** [str::find]: the offset of the first occurrence. *)
Fixpoint find (s p : string) : option nat :=
  if starts_with s p then Some 0 else
  match s with
  | "" => None
  | String _ r => S <$> find r p
  end.

Definition take_bytes (n : nat) (s : string) : string := of_bytes (take n (bytes s)).

(** [trim_start_matches('\n')] and [trim_end_matches('\n')]. *)
Fixpoint drop_nl (l : list ascii) : list ascii :=
  match l with
  | a :: r => if decide (a = nl) then drop_nl r else l
  | [] => []
  end.
Definition trim_start_nl (s : string) : string := of_bytes (drop_nl (bytes s)).
Definition trim_end_nl (s : string) : string := of_bytes (rev (drop_nl (rev (bytes s)))).

(** [str::parse::<u32>]: an optional [+], then digits, below [2^32]. *)
Definition digit (a : ascii) : option Z :=
  if ((48 <=? code a) && (code a <=? 57))%N then Some (Z.of_N (code a) - 48)%Z else None.
Fixpoint parse_digits (l : list ascii) (acc : Z) : option Z :=
  match l with
  | [] => Some acc
  | a :: r =>
      d ← digit a;
      let acc := (acc * 10 + d)%Z in
      if (acc <? 2 ^ 32)%Z then parse_digits r acc else None
  end.
Definition parse_u32 (s : string) : option Z :=
  match bytes s with
  | [] => None
  | a :: r =>
      if decide (a = Ascii.ascii_of_nat 43)
      then match r with [] => None | _ => parse_digits r 0 end
      else parse_digits (a :: r) 0
  end.

Example text_examples :
  (lines ("a" +:+ newline +:+ newline +:+ "b" +:+ newline),
   split_whitespace "  one two  ", find "abcabc" "ca", parse_u32 "42", parse_u32 "4294967296")
  = (["a"; ""; "b"], ["one"; "two"], Some 2, Some 42%Z, None).
Proof. vm_compute. reflexivity. Qed.

(** ** Byte lists of concatenations *)

Lemma bytes_cat s t : bytes (s +:+ t) = bytes s ++ bytes t.
Proof.
  induction s as [|a s IH]; [done|].
  change (a :: bytes (s +:+ t) = a :: (bytes s ++ bytes t)). by rewrite IH.
Qed.
Lemma of_bytes_cat l k : of_bytes (l ++ k) = of_bytes l +:+ of_bytes k.
Proof. apply bytes_inj. by rewrite bytes_cat, !bytes_of_bytes. Qed.

Lemma starts_with_spec s p : starts_with s p = true <-> exists r, s = p +:+ r.
Proof.
  split; [|intros [r ->]; apply starts_with_app].
  unfold starts_with. revert s. induction p as [|a p IH]; intros s Hp; [by exists s|].
  destruct s as [|b s]; [done|]. cbn in Hp. destruct (Ascii.ascii_dec a b) as [->|]; [|done].
  destruct (IH s Hp) as [r ->]. by exists r.
Qed.

Lemma drop_bytes_cat p s : drop_bytes (String.length p) (p +:+ s) = s.
Proof. induction p as [|a p IH]; [by destruct s|]. exact IH. Qed.

Lemma strip_prefix_cat p s : strip_prefix (p +:+ s) p = Some s.
Proof. unfold strip_prefix. by rewrite starts_with_app, drop_bytes_cat. Qed.

Lemma strip_prefix_Some s p r : strip_prefix s p = Some r <-> s = p +:+ r.
Proof.
  split; [|intros ->; apply strip_prefix_cat]. unfold strip_prefix.
  destruct (starts_with s p) eqn:E; [|done]. apply starts_with_spec in E as [r' ->].
  rewrite drop_bytes_cat. by intros [= ->].
Qed.

(** ** Text made of visible ASCII characters *)

Definition graphic (a : ascii) : Prop := (33 <= code a <= 126)%N.
#[export] Instance graphic_dec a : Decision (graphic a).
Proof. unfold graphic. apply _. Defined.
Definition visible (s : string) : Prop := s <> "" /\ Forall graphic (bytes s).

Lemma graphic_ws1 a : graphic a -> ws1 a = false.
Proof.
  unfold graphic, ws1. intros Ha. apply orb_false_iff. split.
  - apply andb_false_iff. right. apply N.leb_gt. lia.
  - apply N.eqb_neq. lia.
Qed.
Lemma graphic_ws2 a b : graphic a -> ws2 a b = false.
Proof. unfold graphic, ws2. intros Ha. apply andb_false_iff. left. apply N.eqb_neq. lia. Qed.
Lemma graphic_ws2_r a b : graphic b -> ws2 a b = false.
Proof.
  unfold graphic, ws2. intros Hb. apply andb_false_iff. right. apply orb_false_iff.
  split; apply N.eqb_neq; lia.
Qed.
Lemma graphic_ws3 a b c : graphic a -> ws3 a b c = false.
Proof.
  unfold graphic, ws3. intros Ha.
  rewrite !(proj2 (N.eqb_neq (code a) _)) by lia. done.
Qed.
Lemma graphic_ws3_r a b c : graphic c -> ws3 a b c = false.
Proof.
  unfold graphic, ws3. intros Hc.
  rewrite !(proj2 (N.eqb_neq (code c) _)) by lia.
  rewrite (proj2 (N.leb_gt 128 (code c))) by lia.
  by rewrite !andb_false_r.
Qed.
Lemma not_graphic a : (33 <=? code a)%N = false -> ~ graphic a.
Proof. unfold graphic. intros ?%N.leb_gt. lia. Qed.
Lemma graphic_ne a b : graphic a -> (33 <=? code b)%N = false -> a <> b.
Proof. intros Ha Hb ->. by apply not_graphic in Hb. Qed.

Lemma chars_of_ascii l k :
  Forall (fun a => (code a < 128)%N) l -> chars_of (l ++ k) = ((fun a => [a]) <$> l) ++ chars_of k.
Proof.
  induction 1 as [|a l Ha Hl IH]; [done|]. cbn.
  rewrite (proj2 (N.ltb_lt (code a) 192)) by lia. by rewrite IH.
Qed.

Lemma words_graphic l cs cur :
  Forall graphic l -> words_of (((fun a => [a]) <$> l) ++ cs) cur = words_of cs (cur ++ l).
Proof.
  intros Hl. revert cur. induction Hl as [|a l Ha Hl IH]; intros cur; cbn; [by rewrite app_nil_r|].
  rewrite (graphic_ws1 _ Ha), IH. by rewrite <-app_assoc.
Qed.

Lemma graphic_ascii l : Forall graphic l -> Forall (fun a => (code a < 128)%N) l.
Proof. intros Hl. apply (Forall_impl _ _ _ Hl). intros a [_ Ha]. cbv beta. lia. Qed.

Lemma split_whitespace_visible s : visible s -> split_whitespace s = [s].
Proof.
  intros [Hne Hg]. unfold split_whitespace, chars.
  rewrite <-(app_nil_r (bytes s)), (chars_of_ascii _ []) by (by apply graphic_ascii).
  rewrite words_graphic by done. cbn [words_of app].
  destruct (bytes s) as [|a l] eqn:E; [by destruct s|].
  cbn [flush_word chars_of words_of]. by rewrite <-E, of_bytes_bytes.
Qed.

Lemma split_whitespace_cons s t :
  visible s -> split_whitespace (s +:+ String sp t) = s :: split_whitespace t.
Proof.
  intros [Hne Hg]. unfold split_whitespace, chars.
  rewrite bytes_cat, chars_of_ascii by (by apply graphic_ascii).
  rewrite words_graphic by done. cbn [app].
  change (bytes (String sp t)) with (sp :: bytes t).
  change (chars_of (sp :: bytes t)) with ([sp] :: chars_of (bytes t)). cbn [words_of].
  change (is_whitespace [sp]) with true. cbv iota.
  destruct (bytes s) as [|a l] eqn:E; [by destruct s|].
  cbn [flush_word app]. by rewrite <-E, of_bytes_bytes.
Qed.

Definition row_char (a : ascii) : Prop := graphic a \/ a = sp.
Lemma row_char_line a : row_char a -> a <> nl /\ a <> cr.
Proof.
  intros [Ha | ->]; [|done]. split; by apply (graphic_ne _ _ Ha).
Qed.

Lemma lines_of_row l k :
  Forall row_char l -> lines_of (l ++ nl :: k) = l :: lines_of k.
Proof.
  induction 1 as [|a l Ha Hl IH]; [done|]. apply row_char_line in Ha as [H1 H2].
  change ((a :: l) ++ nl :: k) with (a :: (l ++ nl :: k)). cbn [lines_of].
  rewrite decide_False by done. rewrite decide_False by (by intros [? _]).
  by rewrite IH.
Qed.
Lemma lines_of_last l : Forall row_char l -> l <> [] -> lines_of l = [l].
Proof.
  induction 1 as [|a l Ha Hl IH]; [done|]. intros _. apply row_char_line in Ha as [H1 H2].
  cbn [lines_of]. rewrite decide_False by done. rewrite decide_False by (by intros [? _]).
  destruct l as [|b l]; [done|]. by rewrite IH.
Qed.

(** ** Numbers are printed with digits *)

Lemma pretty_N_go_graphic x s :
  Forall graphic (bytes s) -> Forall graphic (bytes (pretty_N_go x s)).
Proof.
  revert s. induction (N.lt_wf_0 x) as [x _ IH]; intros s Hs.
  assert (x = 0 \/ 0 < x)%N as [->|Hx] by lia; [done|].
  rewrite pretty_N_go_step by done. apply IH; [by apply N.div_lt|].
  change (bytes (String ?a s)) with (a :: bytes s). constructor; [|done].
  unfold pretty_N_char. repeat case_match; by vm_compute.
Qed.

Lemma pretty_N_visible (x : N) : visible (pretty x).
Proof.
  unfold pretty, pretty_N. destruct (decide (x = 0)%N) as [|Hx].
  { split; [done|]. repeat constructor; by vm_compute. }
  split; [|by apply pretty_N_go_graphic; constructor].
  rewrite pretty_N_go_step by lia.
  assert (forall y s, s <> "" -> pretty_N_go y s <> "") as Hne; [|by apply Hne].
  intros y. induction (N.lt_wf_0 y) as [y _ IH]; intros s Hs.
  assert (y = 0 \/ 0 < y)%N as [->|Hy] by lia; [done|].
  rewrite pretty_N_go_step by done. apply IH; [by apply N.div_lt|done].
Qed.

(** ** Trimming a table *)

Lemma head_ws_graphic a l : graphic a -> head_ws ws1 ws2 ws3 (a :: l) = false.
Proof.
  intros Ha. destruct l as [|b [|c l]]; cbn;
    by rewrite ?(graphic_ws1 _ Ha), ?(graphic_ws2 _ _ Ha), ?(graphic_ws3 _ _ _ Ha).
Qed.
Lemma trim_start_graphic a l : graphic a -> trim_start_bytes (a :: l) = a :: l.
Proof. intros Ha. apply drop_ws_id. by apply head_ws_graphic. Qed.

Lemma trim_end_nl_bytes l a :
  graphic a -> trim_end_bytes (l ++ [a; nl]) = l ++ [a].
Proof.
  intros Ha. unfold trim_end_bytes.
  rewrite rev_app_distr. cbn [rev app].
  change (rev (nl :: [a])) with [nl; a].
  assert (head_ws ws1 (fun b a0 => ws2 a0 b) (fun c b a0 => ws3 a0 b c) (a :: rev l) = false) as Hh.
  { destruct (rev l) as [|b [|c k]]; cbn;
      by rewrite ?(graphic_ws1 _ Ha), ?(graphic_ws2_r _ _ Ha), ?(graphic_ws3_r _ _ _ Ha). }
  change (drop_ws ?w1 ?w2 ?w3 (nl :: ?k)) with (drop_ws w1 w2 w3 k).
  rewrite (drop_ws_id _ _ _ (a :: rev l) Hh). cbn [rev]. by rewrite rev_involutive.
Qed.

(** ** [str::parse] at the other integer types *)

(** The value of a non-empty row of digits; whether it fits is checked at the end, which is
    where checking every step leads as the value only grows. *)
Definition digits_value (l : list ascii) : option Z :=
  match l with
  | [] => None
  | _ => foldl (fun acc a => v ← acc; d ← digit a; Some (v * 10 + d)%Z) (Some 0%Z) l
  end.
Definition plus_sign : ascii := Ascii.ascii_of_nat 43.
Definition minus_sign : ascii := Ascii.ascii_of_nat 45.

Definition within (lo hi : Z) (v : option Z) : option Z :=
  v ← v; if ((lo <=? v) && (v <=? hi))%Z then Some v else None.

(** [parse::<i64>]: an optional sign, then digits. *)
Definition parse_i64 (s : string) : option Z :=
  within i64_min i64_max
    (match bytes s with
     | [] => None
     | a :: r =>
         if decide (a = plus_sign) then digits_value r
         else if decide (a = minus_sign) then Z.opp <$> digits_value r
         else digits_value (a :: r)
     end).

(** [parse::<u64>] and [parse::<usize>] (64-bit targets): no minus sign. *)
Definition u64_max : Z := 2 ^ 64 - 1.
Definition parse_u64 (s : string) : option Z :=
  within 0 u64_max
    (match bytes s with
     | [] => None
     | a :: r => if decide (a = plus_sign) then digits_value r else digits_value (a :: r)
     end).

Example parse_examples :
  (parse_i64 "-9223372036854775808", parse_i64 "9223372036854775808", parse_i64 "+7",
   parse_i64 "-", parse_u64 "-0", parse_u64 "18446744073709551615")
  = (Some i64_min, None, Some 7%Z, None, None, Some u64_max).
Proof. vm_compute. reflexivity. Qed.

Lemma parse_i64_range s z : parse_i64 s = Some z -> in_i64 z.
Proof.
  unfold parse_i64, within. intros Hz. apply bind_Some in Hz as (v & _ & Hv).
  destruct ((i64_min <=? v) && (v <=? i64_max))%Z eqn:E; [|done]. injection Hv as <-.
  apply andb_true_iff in E as [H1%Z.leb_le H2%Z.leb_le]. split; lia.
Qed.

(** The parts of a text between the occurrences of one character; never empty. *)
Fixpoint split_on (sep : ascii) (l : list ascii) : list (list ascii) :=
  match l with
  | [] => [[]]
  | a :: r =>
      match split_on sep r with
      | p :: ps => if decide (a = sep) then [] :: p :: ps else (a :: p) :: ps
      | [] => [[a]]
      end
  end.
Definition split_char (sep : ascii) (s : string) : list string := of_bytes <$> split_on sep (bytes s).
