(* ===== verification/Act.v ===== *)
(** * Actions: computations that change a state and may fail.

    [Act E S A] is the monad of the agent-side crates: a function of the world that
    returns a [Result] and the world it leaves behind, also when it fails.  [wp] is its
    program logic, with one rule per operation. *)

From stdpp Require Import prelude list.
From S2P Require Import Prelude.

Definition Act (E S A : Type) : Type := S -> result E A * S.

#[export] Instance Act_ret {E S} : MRet (Act E S) := fun A a s => (Ok a, s).
#[export] Instance Act_bind {E S} : MBind (Act E S) := fun A B f m s =>
  match m s with
  | (Ok a, s) => f a s
  | (Err e, s) => (Err e, s)
  end.

Definition act_lift {E S A} (r : result E A) : Act E S A := fun s => (r, s).
Definition act_throw {E S A} (e : E) : Act E S A := fun s => (Err e, s).
(** The error becomes a value. *)
Definition act_try {E S A} (m : Act E S A) : Act E S (result E A) := fun s =>
  let '(r, s) := m s in (Ok r, s).
Definition act_map_err {E E' S A} (f : E -> E') (m : Act E S A) : Act E' S A := fun s =>
  let '(r, s) := m s in (map_err f r, s).
Definition gets {E S A} (f : S -> A) : Act E S A := fun s => (Ok (f s), s).

(** An action on a part of the state. *)
Definition act_on {E S P A} (get : S -> P) (put : P -> S -> S) (m : Act E P A) : Act E S A :=
  fun s => let '(r, p) := m (get s) in (r, put p s).

(** A loop over a list that stops at the first error. *)
Fixpoint act_each {E S X} (f : X -> Act E S unit) (xs : list X) : Act E S unit :=
  match xs with
  | [] => mret tt
  | x :: xs => _ ← f x; act_each f xs
  end.
(** The same with a value carried from pass to pass. *)
Fixpoint act_fold {E S X A} (f : A -> X -> Act E S A) (a : A) (xs : list X) : Act E S A :=
  match xs with
  | [] => mret a
  | x :: xs => a ← f a x; act_fold f a xs
  end.

(** ** Program logic *)

Definition wp {E S A} (m : Act E S A) (Q : result E A -> S -> Prop) (s : S) : Prop :=
  Q (m s).1 (m s).2.

(** A postcondition of successful runs; [R] relates the states however the run ends. *)
Definition on_ok {E S A} (Q : A -> S -> Prop) (R : S -> Prop) (r : result E A) (s : S) : Prop :=
  R s /\ match r with Ok a => Q a s | Err _ => True end.

Section rules.
Context {E S : Type}.

Lemma wp_mono {A} (m : Act E S A) (Q Q' : result E A -> S -> Prop) s :
  wp m Q s -> (forall r s', Q r s' -> Q' r s') -> wp m Q' s.
Proof. unfold wp. auto. Qed.

Lemma wp_ret {A} (a : A) (Q : result E A -> S -> Prop) s : Q (Ok a) s -> wp (mret a) Q s.
Proof. done. Qed.

Lemma wp_bind {A B} (m : Act E S A) (f : A -> Act E S B) Q s :
  wp m (fun r s' => match r with Ok a => wp (f a) Q s' | Err e => Q (Err e) s' end) s ->
  wp (m ≫= f) Q s.
Proof. unfold wp, mbind, Act_bind. destruct (m s) as [[a|e] s']; auto. Qed.

Lemma wp_throw {A} (e : E) (Q : result E A -> S -> Prop) s : Q (Err e) s -> wp (act_throw e) Q s.
Proof. done. Qed.

Lemma wp_lift {A} (r : result E A) (Q : result E A -> S -> Prop) s : Q r s -> wp (act_lift r) Q s.
Proof. done. Qed.

Lemma wp_gets {A} (f : S -> A) (Q : result E A -> S -> Prop) s : Q (Ok (f s)) s -> wp (gets f) Q s.
Proof. done. Qed.

Lemma wp_try {A} (m : Act E S A) (Q : result E (result E A) -> S -> Prop) s :
  wp m (fun r s' => Q (Ok r) s') s -> wp (act_try m) Q s.
Proof. unfold wp, act_try. by destruct (m s). Qed.

Lemma wp_map_err {E' A} (f : E' -> E) (m : Act E' S A) (Q : result E A -> S -> Prop) s :
  wp m (fun r s' => Q (map_err f r) s') s -> wp (act_map_err f m) Q s.
Proof. unfold wp, act_map_err. by destruct (m s). Qed.

Lemma wp_on {P A} (get : S -> P) (put : P -> S -> S) (m : Act E P A) Q s :
  wp m (fun r p => Q r (put p s)) (get s) -> wp (act_on get put m) Q s.
Proof. unfold wp, act_on. by destruct (m (get s)). Qed.

(** A loop keeps an invariant of the remaining and the finished passes. *)
Lemma wp_fold {X A} (f : A -> X -> Act E S A) (I : list X -> A -> S -> Prop) (R : S -> Prop) xs a s :
  (forall x done_ todo a s, xs = done_ ++ x :: todo -> I (x :: todo) a s ->
     wp (f a x) (on_ok (I todo) R) s) ->
  I xs a s -> R s -> wp (act_fold f a xs) (on_ok (I []) R) s.
Proof.
  intros Hf. enough (forall todo done_ a s, xs = done_ ++ todo -> I todo a s -> R s ->
    wp (act_fold f a todo) (on_ok (I []) R) s) as H by (intros; by apply (H xs [])).
  induction todo as [|x todo IH]; intros done_ a' s' Hx HI HR; [by apply wp_ret|].
  cbn [act_fold]. apply wp_bind. eapply wp_mono; [by eapply Hf|].
  intros [a''|e] s'' [HR' HQ]; [|by split].
  apply (IH (done_ ++ [x])); [|done..]. by rewrite <-app_assoc.
Qed.

Lemma wp_each {X} (f : X -> Act E S unit) (I : list X -> S -> Prop) (R : S -> Prop) xs s :
  (forall x done_ todo s, xs = done_ ++ x :: todo -> I (x :: todo) s ->
     wp (f x) (on_ok (fun _ => I todo) R) s) ->
  I xs s -> R s -> wp (act_each f xs) (on_ok (fun _ => I []) R) s.
Proof.
  intros Hf. enough (forall todo done_ s, xs = done_ ++ todo -> I todo s -> R s ->
    wp (act_each f todo) (on_ok (fun _ => I []) R) s) as H by (intros; by apply (H xs [])).
  induction todo as [|x todo IH]; intros done_ s' Hx HI HR; [by apply wp_ret|].
  cbn [act_each]. apply wp_bind. eapply wp_mono; [by eapply Hf|].
  intros [[]|e] s'' [HR' HQ]; [|by split].
  apply (IH (done_ ++ [x])); [|done..]. by rewrite <-app_assoc.
Qed.
End rules.

(** ** What a run moves

    [moves R m]: however [m] ends, it leaves the state in relation [R]. *)

Definition moves {E S A} (R : S -> S -> Prop) (m : Act E S A) : Prop := forall s, R s (m s).2.

Section moves.
Context {E S : Type} (R : S -> S -> Prop) `{!PreOrder R}.

Lemma moves_ret {A} (a : A) : moves R (mret a : Act E S A).
Proof. by intros s. Qed.
Lemma moves_throw {A} (e : E) : moves R (act_throw e : Act E S A).
Proof. by intros s. Qed.
Lemma moves_lift {A} (r : result E A) : moves R (act_lift r : Act E S A).
Proof. by intros s. Qed.
Lemma moves_gets {A} (f : S -> A) : moves R (gets f : Act E S A).
Proof. by intros s. Qed.
Lemma moves_try {A} (m : Act E S A) : moves R m -> moves R (act_try m : Act E S _).
Proof. intros H s. specialize (H s). unfold act_try. by destruct (m s). Qed.
Lemma moves_map_err {E' A} (f : E' -> E) (m : Act E' S A) : moves R m -> moves R (act_map_err f m).
Proof. intros H s. specialize (H s). unfold act_map_err. by destruct (m s). Qed.
Lemma moves_bind {A B} (m : Act E S A) (f : A -> Act E S B) :
  moves R m -> (forall a, moves R (f a)) -> moves R (m ≫= f).
Proof.
  intros Hm Hf s. specialize (Hm s). unfold mbind, Act_bind. destruct (m s) as [[a|e] s1]; [|done].
  cbn [snd] in Hm. etrans; [exact Hm|apply Hf].
Qed.
Lemma moves_on {P A} (get : S -> P) (put : P -> S -> S) (R' : P -> P -> Prop) (m : Act E P A) :
  (forall s p, R' (get s) p -> R s (put p s)) -> moves R' m -> moves R (act_on get put m).
Proof.
  intros HR Hm s. specialize (Hm (get s)). unfold act_on. destruct (m (get s)) as [r p]. by apply HR.
Qed.
End moves.

Create HintDb moves.
#[export] Hint Resolve moves_ret moves_throw moves_lift moves_gets : moves.
Ltac moves_step :=
  first
  [ assumption
  | progress (eauto with moves typeclass_instances)
  | apply moves_bind; [apply _| |intros ?]
  | apply moves_try
  | apply moves_map_err
  | match goal with |- moves _ (match ?x with _ => _ end) => destruct x end ].
Ltac moves_tac := repeat moves_step.

(** One step of symbolic execution. *)
Ltac wp_step :=
  lazymatch goal with
  | |- wp (mret _) _ _ => apply wp_ret
  | |- wp (_ ≫= _) _ _ => apply wp_bind
  | |- wp (act_throw _) _ _ => apply wp_throw
  | |- wp (act_lift _) _ _ => apply wp_lift
  | |- wp (gets _) _ _ => apply wp_gets
  | |- wp (act_try _) _ _ => apply wp_try
  | |- wp (act_map_err _ _) _ _ => apply wp_map_err
  | |- wp (act_on _ _ _) _ _ => apply wp_on
  end; cbn [map_err].
Ltac wp_steps := repeat wp_step.
