(* ===== verification/ConfigSchema.v ===== *)
(** * The configuration file (crates/ax-config/src/schema.rs and overlay.rs).

    [Config] and its parts, reading and writing one file, and the machine-managed
    overlay with the way it patches a config.  The file system ([FileSystem]) and the
    YAML text ([YamlCodec]) are interfaces; [Env] is what the process takes from its
    environment. *)

From stdpp Require Import prelude strings list gmap fin_maps.
From S2P Require Import Prelude RustStr Paths.

(** ** The outside world *)

(** [std::io::Error]: only the kind [NotFound] is ever inspected. *)
Inductive IoError := IoNotFound | IoOther (msg : string).

Class FileSystem (F : Type) := {
  fs_read : F -> string -> result IoError string;
  fs_is_file : F -> string -> bool;
  fs_create_dir_all : F -> string -> result IoError F;
  fs_write : F -> string -> string -> result IoError F;
}.

(** What a successful [std::fs::write] promises: the file reads back. *)
Class FileSystemOk (F : Type) `{!FileSystem F} : Prop := {
  fs_read_write fs path text fs' :
    fs_write fs path text = Ok fs' -> fs_read fs' path = Ok text;
}.

(** [serde_yml] at one type. *)
Class YamlCodec (A : Type) := {
  to_yaml : A -> result string string;
  from_yaml : string -> result string A;
}.
Class YamlCodecOk (A : Type) `{!YamlCodec A} : Prop := {
  from_yaml_to_yaml a s : to_yaml a = Ok s -> from_yaml s = Ok a;
}.

Record Env := mkEnv {
  home : option string;
  cwd : result IoError string;
}.

(** ** schema.rs *)

Definition DEFAULT_CODEX_REASONING_EFFORT : string := "xhigh".
Definition DEFAULT_IDLE_TIMEOUT_MINUTES : Z := 15.
Definition DEFAULT_MAX_ORCHESTRATOR_DEPTH : Z := 3.
Definition DEFAULT_MAX_CHILDREN_PER_NODE : Z := 6.
Definition DEFAULT_MAX_CONCURRENT_AGENTS : Z := 8.

Inductive LoadError :=
| LoadRead (path : string) (source : IoError)
| LoadParse (path source : string)
| LoadSerialize (source : string)
| LoadWrite (path : string) (source : IoError).

Record AgentProvider := mkAgentProvider {
  ap_runtime : string;
  ap_model : string;
  ap_base_url : string;
  ap_env_key : string;
  ap_wire_api : string;
  ap_web_search : string;
}.

Record Child := mkChild {
  ch_dir : string;
  ch_prefix : string;
}.
#[export] Instance Child_eta : Updatable Child := fun c => mkChild (ch_dir c) (ch_prefix c).
Definition default_child : Child := mkChild "" "".

Record Workspace := mkWorkspace {
  w_dir : string;
  w_description : string;
  w_shell : string;
  w_runtime : string;
  w_agent_provider : string;
  w_codex_model_reasoning_effort : string;
  w_agent : string;
  w_instructions : string;
  w_env : gmap string string;
}.
#[export] Instance Workspace_eta : Updatable Workspace := fun w =>
  mkWorkspace (w_dir w) (w_description w) (w_shell w) (w_runtime w) (w_agent_provider w)
    (w_codex_model_reasoning_effort w) (w_agent w) (w_instructions w) (w_env w).
Definition default_workspace : Workspace := mkWorkspace "" "" "" "" "" "" "" "" ∅.

Record Config := mkConfig {
  project : string;
  orchestrator_runtime : string;
  default_agent_provider : string;
  disable_root_orchestrator : bool;
  experimental_mcp_team_reconfigure : bool;
  codex_model_reasoning_effort : string;
  idle_timeout_minutes : Z;
  max_orchestrator_depth : Z;
  max_children_per_node : Z;
  max_concurrent_agents : Z;
  agent_providers : gmap string AgentProvider;
  children : gmap string Child;
  workspaces : gmap string Workspace;
}.
#[export] Instance Config_eta : Updatable Config := fun c =>
  mkConfig (project c) (orchestrator_runtime c) (default_agent_provider c)
    (disable_root_orchestrator c) (experimental_mcp_team_reconfigure c)
    (codex_model_reasoning_effort c) (idle_timeout_minutes c) (max_orchestrator_depth c)
    (max_children_per_node c) (max_concurrent_agents c) (agent_providers c)
    (children c) (workspaces c).

Definition default_config : Config :=
  mkConfig "" "" "" false false "" 0 DEFAULT_MAX_ORCHESTRATOR_DEPTH
    DEFAULT_MAX_CHILDREN_PER_NODE DEFAULT_MAX_CONCURRENT_AGENTS ∅ ∅ ∅.

Definition idle_timeout_minutes_or_default (c : Config) : Z :=
  if (idle_timeout_minutes c >? 0)%Z then idle_timeout_minutes c
  else DEFAULT_IDLE_TIMEOUT_MINUTES.

Definition default_for_runtime (project_name runtime : string) : Config :=
  default_config
    <| project := project_name |>
    <| orchestrator_runtime := runtime |>
    <| codex_model_reasoning_effort := DEFAULT_CODEX_REASONING_EFFORT |>
    <| idle_timeout_minutes := DEFAULT_IDLE_TIMEOUT_MINUTES |>
    <| workspaces :=
         {[ "main" := default_workspace
              <| w_dir := "." |>
              <| w_description := "Main workspace" |>
              <| w_runtime := runtime |>
              <| w_codex_model_reasoning_effort := DEFAULT_CODEX_REASONING_EFFORT |> ]} |>.

(** ** overlay.rs *)

Definition MANAGED_OVERLAY_FILE : string := "managed_overlay.yaml".

Record ManagedPolicyOverlay := mkManagedPolicyOverlay {
  po_orchestrator_runtime : option string;
  po_default_agent_provider : option string;
  po_disable_root_orchestrator : option bool;
}.

Record ManagedWorkspacePatch := mkManagedWorkspacePatch {
  wp_delete : bool;
  wp_enabled : option bool;
  wp_dir : option string;
  wp_description : option string;
  wp_runtime : option string;
  wp_agent_provider : option string;
  wp_shell : option string;
  wp_agent : option string;
}.

Record ManagedChildPatch := mkManagedChildPatch {
  cp_delete : bool;
  cp_enabled : option bool;
  cp_dir : option string;
  cp_prefix : option string;
}.

Record ManagedOverlay := mkManagedOverlay {
  policies : ManagedPolicyOverlay;
  mo_workspaces : gmap string ManagedWorkspacePatch;
  mo_children : gmap string ManagedChildPatch;
}.
Definition default_overlay : ManagedOverlay :=
  mkManagedOverlay (mkManagedPolicyOverlay None None None) ∅ ∅.

Definition is_disabled (enabled : option bool) : bool :=
  match enabled with Some false => true | _ => false end.

(** [if let Some(v) = patch { field.clone_from(v) }]. *)
Definition patched {A} (patch : option A) (old : A) : A := default old patch.

Definition patch_workspace (p : ManagedWorkspacePatch) (entry : Workspace) : Workspace :=
  entry
    <| w_dir := patched (wp_dir p) (w_dir entry) |>
    <| w_description := patched (wp_description p) (w_description entry) |>
    <| w_runtime := patched (wp_runtime p) (w_runtime entry) |>
    <| w_agent_provider := patched (wp_agent_provider p) (w_agent_provider entry) |>
    <| w_shell := patched (wp_shell p) (w_shell entry) |>
    <| w_agent := patched (wp_agent p) (w_agent entry) |>.

Definition patch_child (p : ManagedChildPatch) (entry : Child) : Child :=
  entry
    <| ch_dir := patched (cp_dir p) (ch_dir entry) |>
    <| ch_prefix := patched (cp_prefix p) (ch_prefix entry) |>.

Definition workspace_dropped (p : ManagedWorkspacePatch) : bool :=
  wp_delete p || is_disabled (wp_enabled p).
Definition child_dropped (p : ManagedChildPatch) : bool :=
  cp_delete p || is_disabled (cp_enabled p).

(** One pass of the loops of [apply_to]: remove the entry, or patch it, creating it
    when it is missing ([entry(name).or_default()]). *)
Definition apply_patch {P V} (dropped : P -> bool) (patch : P -> V -> V) (fresh : V)
    (m : gmap string V) (np : string * P) : gmap string V :=
  if dropped np.2 then delete np.1 m
  else <[np.1 := patch np.2 (default fresh (m !! np.1))]> m.

Definition apply_to (o : ManagedOverlay) (cfg : Config) : Config :=
  cfg
    <| orchestrator_runtime :=
         patched (po_orchestrator_runtime (policies o)) (orchestrator_runtime cfg) |>
    <| default_agent_provider :=
         patched (po_default_agent_provider (policies o)) (default_agent_provider cfg) |>
    <| disable_root_orchestrator :=
         patched (po_disable_root_orchestrator (policies o)) (disable_root_orchestrator cfg) |>
    <| workspaces :=
         foldl (apply_patch workspace_dropped patch_workspace default_workspace)
           (workspaces cfg) (btree_to_list (mo_workspaces o)) |>
    <| children :=
         foldl (apply_patch child_dropped patch_child default_child)
           (children cfg) (btree_to_list (mo_children o)) |>.

(** ** Files *)

Section files.
Context {F : Type} `{!FileSystem F} `{!YamlCodec Config} `{!YamlCodec ManagedOverlay}.
Context (env : Env).

Definition read_local (fs : F) (path : string) : result LoadError Config :=
  data ← map_err (LoadRead path) (fs_read fs path);
  map_err (LoadParse path) (from_yaml data).

(** Writing [data] under freshly created parent directories, as both [save]s do. *)
Definition write_with_parents (path data : string) (fs : F) : result LoadError F :=
  fs ← match parent path with
       | Some up => map_err (LoadWrite path) (fs_create_dir_all fs up)
       | None => Ok fs
       end;
  map_err (LoadWrite path) (fs_write fs path data).

Definition save (cfg : Config) (path : string) (fs : F) : result LoadError F :=
  data ← map_err LoadSerialize (to_yaml cfg);
  write_with_parents path data fs.

(** [absolutize] of overlay.rs: an unknown working directory leaves the path as it is. *)
Definition overlay_absolutize (path : string) : string :=
  if is_absolute path then path
  else match cwd env with Ok d => join d path | Err _ => path end.

Definition managed_overlay_path (config_path : string) : string :=
  join (join (from_config_path (overlay_absolutize config_path)) DEFAULT_CONFIG_DIR)
    MANAGED_OVERLAY_FILE.

Definition load_for (fs : F) (config_path : string) : result LoadError ManagedOverlay :=
  let path := managed_overlay_path config_path in
  match fs_read fs path with
  | Ok data => map_err (LoadParse path) (from_yaml data)
  | Err IoNotFound => Ok default_overlay
  | Err e => Err (LoadRead path e)
  end.

Definition save_for (o : ManagedOverlay) (config_path : string) (fs : F)
  : result LoadError F :=
  data ← map_err LoadSerialize (to_yaml o);
  write_with_parents (managed_overlay_path config_path) data fs.
End files.

(** ** What the overlay does to each entry. *)

Lemma foldl_apply_patch {P V} (dropped : P -> bool) (patch : P -> V -> V) (fresh : V) ps m k :
  foldl (apply_patch dropped patch fresh) m (btree_to_list ps) !! k
  = match ps !! k with
    | Some p => if dropped p then None else Some (patch p (default fresh (m !! k)))
    | None => m !! k
    end.
Proof.
  apply (foldl_own_key _ (fun p old =>
    if dropped p then None else Some (patch p (default fresh old)))).
  intros m' [n p] k'. unfold apply_patch. cbn [fst snd].
  destruct (dropped p), (decide (k' = n)) as [->|]; by simplify_map_eq.
Qed.

Lemma patched_idemp {A} (p : option A) old : patched p (patched p old) = patched p old.
Proof. by destruct p. Qed.

Lemma patch_workspace_idemp p w : patch_workspace p (patch_workspace p w) = patch_workspace p w.
Proof. unfold patch_workspace. fsimpl. rewrite !patched_idemp. by destruct w. Qed.
Lemma patch_child_idemp p c : patch_child p (patch_child p c) = patch_child p c.
Proof. unfold patch_child. fsimpl. rewrite !patched_idemp. by destruct c. Qed.

Lemma foldl_apply_patch_idemp {P V} (dropped : P -> bool) (patch : P -> V -> V) fresh ps m :
  (forall p v, patch p (patch p v) = patch p v) ->
  let go m := foldl (apply_patch dropped patch fresh) m (btree_to_list ps) in
  go (go m) = go m.
Proof.
  intros Hp go. apply map_eq. intros k. unfold go. rewrite !foldl_apply_patch.
  destruct (ps !! k) as [p|]; [|done]. destruct (dropped p); [done|]. cbn. by rewrite Hp.
Qed.

(** The managed overlay acts on each entry by its own patch alone: a deleted or disabled
    entry is gone, a patched one exists (created empty if need be) and has exactly the
    patched fields replaced, every other entry is as the user wrote it; and applying the
    overlay twice is applying it once. *)
Theorem overlay_is_pointwise o cfg :
  (forall n, workspaces (apply_to o cfg) !! n
     = match mo_workspaces o !! n with
       | Some p => if workspace_dropped p then None
                   else Some (patch_workspace p (default default_workspace (workspaces cfg !! n)))
       | None => workspaces cfg !! n
       end)
  /\ (forall n, children (apply_to o cfg) !! n
     = match mo_children o !! n with
       | Some p => if child_dropped p then None
                   else Some (patch_child p (default default_child (children cfg !! n)))
       | None => children cfg !! n
       end)
  /\ apply_to o (apply_to o cfg) = apply_to o cfg.
Proof.
  split_and!.
  - intros n. apply foldl_apply_patch.
  - intros n. apply foldl_apply_patch.
  - unfold apply_to. fsimpl. rewrite !patched_idemp.
    rewrite !foldl_apply_patch_idemp by (apply patch_workspace_idemp || apply patch_child_idemp).
    by destruct cfg.
Qed.

Section files_facts.
Context {F : Type} `{!FileSystem F} `{!FileSystemOk F}.
Context `{!YamlCodec Config} `{!YamlCodec ManagedOverlay}.
Context `{!YamlCodecOk Config} `{!YamlCodecOk ManagedOverlay}.

Lemma write_with_parents_reads path data (fs fs' : F) :
  write_with_parents path data fs = Ok fs' -> fs_read fs' path = Ok data.
Proof.
  unfold write_with_parents. intros Hw.
  destruct (parent path) as [up|]; cbn in Hw; [destruct (fs_create_dir_all fs up) as [fs1|]; [|done]; cbn in Hw|];
    (destruct (fs_write _ path data) as [fs2|] eqn:E; [|done]; injection Hw as <-;
     by apply fs_read_write in E).
Qed.

Lemma save_read_local cfg path (fs fs' : F) :
  save cfg path fs = Ok fs' -> read_local fs' path = Ok cfg.
Proof.
  unfold save, read_local. destruct (to_yaml cfg) as [data|] eqn:Ey; [|done]. cbn.
  intros ->%write_with_parents_reads. cbn. by rewrite (from_yaml_to_yaml _ _ Ey).
Qed.

Lemma save_for_load_for env o path (fs fs' : F) :
  save_for env o path fs = Ok fs' -> load_for env fs' path = Ok o.
Proof.
  unfold save_for, load_for. destruct (to_yaml o) as [data|] eqn:Ey; [|done]. cbn.
  intros ->%write_with_parents_reads. by rewrite (from_yaml_to_yaml _ _ Ey).
Qed.
End files_facts.
