(* ===== verification/AtomicFile.v ===== *)
(** * Atomic writes (crates/ax-daemon/src/atomicfile.rs).

    Every store of the daemon keeps its file through [write_file_atomic].  Here it is the
    sequence of file-system calls it makes, a [Prog]; [fs_prim] says what one call may do to
    a disk, including failing, and [sys_step] interleaves any number of writers.  A file
    carries whether its bytes have reached the device ([f_synced]): a machine that stops may
    lose the bytes of a file that is not synced.  Directories are not kept, and a path
    names one file (no links). *)

From Stdlib Require Import Ascii.
From stdpp Require Import prelude strings list gmap relations.
From S2P Require Import Prelude RustStr RustText Paths ConfigSchema.

(** ** The calls and the disk *)

Record File := mkFile {
  f_bytes : list ascii;
  f_synced : bool;
}.
Abbreviation Disk := (gmap string File).

Inductive FsOp :=
| CreateDirAll (dir : string)
| CreateFile (p : string)
| WriteAll (p : string) (data : list ascii)
| SyncAll (p : string)
| RenameFile (p q : string)
| RemoveFile (p : string).

(** A program of calls, each continued with its outcome. *)
Inductive Prog (A : Type) :=
| Done (a : A)
| Do (op : FsOp) (k : result IoError unit -> Prog A).
Arguments Done {A} a.
Arguments Do {A} op k.

(** One call on a disk: it fails, ends, or (for [write_all]) has more to do.  A failed call
    leaves the disk as it is; [write_all] may fail after any number of its bytes. *)
Inductive fs_prim : FsOp -> Disk -> FsOp + result IoError unit -> Disk -> Prop :=
| prim_fail op d e : fs_prim op d (inr (Err e)) d
| prim_dir dir d : fs_prim (CreateDirAll dir) d (inr (Ok tt)) d
| prim_create p d : fs_prim (CreateFile p) d (inr (Ok tt)) (<[p := mkFile [] false]> d)
| prim_write p chunk rest f d :
    chunk <> [] -> d !! p = Some f ->
    fs_prim (WriteAll p (chunk ++ rest)) d (inl (WriteAll p rest))
      (<[p := mkFile (f_bytes f ++ chunk) false]> d)
| prim_written p d : fs_prim (WriteAll p []) d (inr (Ok tt)) d
| prim_sync p f d :
    d !! p = Some f -> fs_prim (SyncAll p) d (inr (Ok tt)) (<[p := mkFile (f_bytes f) true]> d)
| prim_rename p q f d :
    d !! p = Some f -> fs_prim (RenameFile p q) d (inr (Ok tt)) (<[q := f]> (delete p d))
| prim_remove p f d : d !! p = Some f -> fs_prim (RemoveFile p) d (inr (Ok tt)) (delete p d).

Definition resume {A} (k : result IoError unit -> Prog A) (r : FsOp + result IoError unit)
    : Prog A :=
  match r with inl op => Do op k | inr r => k r end.

(** Writers take turns, one call or one part of a write at a time. *)
Inductive sys_step {A} : list (Prog A) * Disk -> list (Prog A) * Disk -> Prop :=
| sys_call ts i op k d r d' :
    ts !! i = Some (Do op k) -> fs_prim op d r d' ->
    sys_step (ts, d) (<[i := resume k r]> ts, d').

(** ** write_file_atomic *)

Inductive AtomicFileError :=
| EmptyPath
| EnsureDir (path : string) (source : IoError)
| CreateTemp (path : string) (source : IoError)
| WriteTemp (source : IoError)
| SyncTemp (source : IoError)
| RenameTemp (path : string) (source : IoError).

(** [{:x}] of a [u64]: 16 digits are enough. *)
Definition hex_digit (n : N) : ascii :=
  Ascii.ascii_of_N (if n <? 10 then 48 + n else 87 + n)%N.
Fixpoint hex_go (fuel : nat) (n : N) (acc : list ascii) : list ascii :=
  match fuel with
  | O => acc
  | S fuel =>
      let acc := hex_digit (n mod 16)%N :: acc in
      if (n / 16 =? 0)%N then acc else hex_go fuel (n / 16)%N acc
  end.
Definition hex (n : N) : string := of_bytes (hex_go 16 n []).

(** The nanoseconds since the epoch, as [u64], times an odd constant; a clock before the
    epoch counts as 0. *)
Definition SUFFIX_FACTOR : Z := 0x9E3779B97F4A7C15.
Definition temp_suffix (now : Z) : Z := (Z.max 0 now `mod` 2 ^ 64 * SUFFIX_FACTOR) `mod` 2 ^ 64.

Definition target_dir (path : string) : string :=
  match parent path with
  | Some p => if is_empty p then "." else p
  | None => "."
  end.
Definition temp_name (now : Z) (path : string) : string :=
  "." +:+ default "file" (file_name path) +:+ ".tmp-" +:+ hex (Z.to_N (temp_suffix now)).
Definition temp_path (now : Z) (path : string) : string :=
  join (target_dir path) (temp_name now path).

Definition Outcome : Type := result AtomicFileError unit.

(** Remove the temporary file, whatever comes of it, and report the error. *)
Definition cleanup (tmp : string) (e : AtomicFileError) : Prog Outcome :=
  Do (RemoveFile tmp) (fun _ => Done (Err e)).

Definition rename_into (tmp path : string) : Prog Outcome :=
  Do (RenameFile tmp path) (fun r =>
    match r with Ok _ => Done (Ok tt) | Err e => cleanup tmp (RenameTemp path e) end).

Definition after_write (tmp path : string) (r : result IoError unit) : Prog Outcome :=
  match r with
  | Err e => cleanup tmp (WriteTemp e)
  | Ok _ =>
      Do (SyncAll tmp) (fun r =>
        match r with Err e => cleanup tmp (SyncTemp e) | Ok _ => rename_into tmp path end)
  end.

Definition create_and_fill (tmp path data : string) : Prog Outcome :=
  Do (CreateFile tmp) (fun r =>
    match r with
    | Err e => Done (Err (CreateTemp (target_dir path) e))
    | Ok _ => Do (WriteAll tmp (bytes data)) (after_write tmp path)
    end).

Definition write_file_atomic (now : Z) (path data : string) : Prog Outcome :=
  if is_empty path then Done (Err EmptyPath) else
  Do (CreateDirAll (target_dir path)) (fun r =>
    match r with
    | Err e => Done (Err (EnsureDir (target_dir path) e))
    | Ok _ => create_and_fill (temp_path now path) path data
    end).

(** ** The name of the temporary file *)

Definition hex_value (l : list ascii) : N :=
  foldl (fun v a => v * 16 + (if code a <? 58 then code a - 48 else code a - 87))%N 0%N l.

Lemma hex_digit_cases n : (n < 16)%N -> n ∈ (N.of_nat <$> seq 0 16).
Proof.
  intros Hn. apply list_elem_of_fmap. exists (N.to_nat n). split; [lia|]. apply elem_of_seq. lia.
Qed.
Lemma hex_digit_value n v :
  (n < 16)%N ->
  (v * 16 + (if code (hex_digit n) <? 58 then code (hex_digit n) - 48
             else code (hex_digit n) - 87) = v * 16 + n)%N.
Proof.
  intros Hn%hex_digit_cases. f_equal. revert n Hn. apply Forall_forall, (bool_decide_unpack _). by vm_compute.
Qed.
(** Digits stand between [0] and [f]: none is a separator or a dot. *)
Lemma hex_digit_plain n : (n < 16)%N -> (48 <= code (hex_digit n))%N.
Proof. intros Hn%hex_digit_cases. revert n Hn. apply Forall_forall, (bool_decide_unpack _). by vm_compute. Qed.

Lemma hex_go_spec fuel n acc :
  exists l a, hex_go (S fuel) n acc = (l ++ [a]) ++ acc
  /\ Forall (fun a => (48 <= code a)%N) (l ++ [a])
  /\ ((n < 16 ^ N.of_nat (S fuel))%N -> hex_value (l ++ [a]) = n).
Proof.
  revert n acc. induction fuel as [|fuel IH]; intros n acc.
  - assert (n mod 16 < 16)%N by (by apply N.mod_lt).
    exists [], (hex_digit (n mod 16)). split; [cbn; by case_match|]. split.
    + constructor; [by apply (hex_digit_plain _)|constructor].
    + intros Hn. cbn in Hn. unfold hex_value. cbn. rewrite <-(N.mul_0_l 16) at 1.
      rewrite hex_digit_value by done. rewrite N.mod_small; lia.
  - assert (n mod 16 < 16)%N by (by apply N.mod_lt).
    change (hex_go (S (S fuel)) n acc) with
      (if (n / 16 =? 0)%N then hex_digit (n mod 16)%N :: acc
       else hex_go (S fuel) (n / 16)%N (hex_digit (n mod 16)%N :: acc)).
    pose proof (N.div_mod n 16 ltac:(done)) as Hdm.
    destruct (N.eqb_spec (n / 16) 0) as [Hz|Hz].
    + exists [], (hex_digit (n mod 16)). split; [done|]. split.
      * constructor; [by apply (hex_digit_plain _)|constructor].
      * intros _. unfold hex_value. cbn. rewrite <-(N.mul_0_l 16) at 1.
        rewrite hex_digit_value by done. lia.
    + destruct (IH (n / 16)%N (hex_digit (n mod 16)%N :: acc)) as (l & a & -> & Hp & Hv).
      exists (l ++ [a]), (hex_digit (n mod 16)). split; [by rewrite <-(app_assoc (l ++ [a]))|]. split.
      * apply Forall_app; split; [done|]. constructor; [by apply (hex_digit_plain _)|constructor].
      * intros Hn. unfold hex_value in *. rewrite foldl_app, Hv.
        -- cbn. rewrite hex_digit_value by done. lia.
        -- apply N.Div0.div_lt_upper_bound.
           rewrite Nat2N.inj_succ, N.pow_succ_r in Hn by lia. exact Hn.
Qed.

Lemma hex_inj n m : (n < 2 ^ 64)%N -> (m < 2 ^ 64)%N -> hex n = hex m -> n = m.
Proof.
  intros Hn Hm E. unfold hex in E.
  destruct (hex_go_spec 15 n []) as (l & a & El & _ & Hl).
  destruct (hex_go_spec 15 m []) as (k & b & Ek & _ & Hk).
  rewrite El, Ek, !app_nil_r in E. apply (f_equal bytes) in E. rewrite !bytes_of_bytes in E.
  rewrite <-Hl, <-Hk, E by done. done.
Qed.

(** The constant is odd, so different times give different suffixes. *)
Definition FACTOR_INVERSE : Z := 0xF1DE83E19937733D.
Lemma temp_suffix_inj s t :
  (0 <= s < 2 ^ 64)%Z -> (0 <= t < 2 ^ 64)%Z -> temp_suffix s = temp_suffix t -> s = t.
Proof.
  assert (forall z, (0 <= z < 2 ^ 64)%Z ->
    ((temp_suffix z * FACTOR_INVERSE) `mod` 2 ^ 64 = z)%Z) as Hinv.
  { intros z Hz. unfold temp_suffix. rewrite Z.max_r, (Z.mod_small z) by lia.
    rewrite Z.mul_mod_idemp_l by done. rewrite <-Z.mul_assoc, Z.mul_mod by done.
    replace ((SUFFIX_FACTOR * FACTOR_INVERSE) `mod` 2 ^ 64)%Z with 1%Z by (by vm_compute).
    rewrite Z.mul_1_r, Z.mod_mod by done. by apply Z.mod_small. }
  intros Hs Ht E. rewrite <-(Hinv s Hs), <-(Hinv t Ht). by rewrite E.
Qed.
Lemma temp_suffix_range t : (0 <= temp_suffix t < 2 ^ 64)%Z.
Proof. apply Z.mod_pos_bound. lia. Qed.

Lemma app_inv_prefix (p s t : string) : p +:+ s = p +:+ t -> s = t.
Proof. induction p as [|a p IH]; [done|]. intros [= E]. by apply IH. Qed.

(** [join] puts a relative name behind a prefix that is empty or ends the directory. *)
Lemma join_relative dir n :
  is_absolute n = false -> exists pre, join dir n = pre +:+ n /\ forall m,
  is_absolute m = false -> join dir m = pre +:+ m.
Proof.
  intros Hn. unfold join. destruct (is_empty dir) eqn:E.
  { exists "". rewrite Hn. split; [done|]. by intros m ->. }
  destruct (ends_with dir "/") eqn:E2; rewrite Hn.
  - exists dir. split; [done|]. by intros m ->.
  - assert (forall m, dir +:+ "/" +:+ m = (dir +:+ "/") +:+ m) as Ha.
    { intros m. apply bytes_inj. by rewrite !bytes_cat, app_assoc. }
    exists (dir +:+ "/"). split; [apply Ha|]. intros m ->. apply Ha.
Qed.
Lemma temp_name_relative now path : is_absolute (temp_name now path) = false.
Proof. done. Qed.

Lemma temp_path_inj path s t :
  (0 <= s < 2 ^ 64)%Z -> (0 <= t < 2 ^ 64)%Z ->
  temp_path s path = temp_path t path -> s = t.
Proof.
  intros Hs Ht E. unfold temp_path in E.
  destruct (join_relative (target_dir path) _ (temp_name_relative s path)) as (pre & E1 & E2).
  rewrite E1, (E2 _ (temp_name_relative t path)) in E. apply app_inv_prefix in E.
  unfold temp_name in E. do 3 apply app_inv_prefix in E.
  pose proof (temp_suffix_range s). pose proof (temp_suffix_range t).
  apply temp_suffix_inj; [done..|]. apply hex_inj in E; lia.
Qed.

Lemma trim_back_plain a r : a <> slash -> a <> dot -> trim_back (a :: r) = a :: r.
Proof.
  intros Hs Hd. destruct r as [|b r]; [done|]. rewrite trim_back_cons.
  by rewrite decide_False, decide_False by naive_solver.
Qed.
Lemma last_component_plain c r :
  slash ∉ c -> r = [] \/ head r = Some slash -> last_component (c ++ r) = (c, r).
Proof.
  intros Hc Hr. induction c as [|a c IH].
  - destruct r as [|b r]; [done|]. destruct Hr as [?|[= ->]]; [done|]. cbn. by rewrite decide_True.
  - apply not_elem_of_cons in Hc as [Ha Hc]. cbn. rewrite decide_False by done.
    by rewrite (IH Hc).
Qed.

(** The file name of a path that ends in a plain name. *)
Lemma file_name_tail p pre l a :
  bytes p = pre ++ l ++ [a] -> pre = [] \/ last pre = Some slash ->
  slash ∉ l ++ [a] -> a <> dot -> file_name p = Some (of_bytes (l ++ [a])).
Proof.
  intros E Hpre Hns Hd. unfold file_name. rewrite E, app_assoc, reverse_app.
  change (reverse [a]) with [a]. cbn [app].
  rewrite trim_back_plain by set_solver. rewrite reverse_app.
  change (a :: reverse l ++ reverse pre) with ((a :: reverse l) ++ reverse pre).
  rewrite last_component_plain.
  - cbn [fst]. rewrite reverse_cons, reverse_involutive.
    assert (forall s, last (bytes s) <> Some a -> String.eqb (of_bytes (l ++ [a])) s = false) as Hs.
    { intros s Hl. apply String.eqb_neq. intros <-. rewrite bytes_of_bytes, last_snoc in Hl. done. }
    unfold is_empty. rewrite !Hs; [done|cbn; intros [= <-]; by destruct Hd..|done].
  - intros Hin. apply Hns. rewrite elem_of_cons, elem_of_reverse in Hin. set_solver.
  - destruct Hpre as [->|Hl]; [by left|right]. by rewrite head_reverse.
Qed.

Lemma file_name_no_slash p n : file_name p = Some n -> slash ∉ bytes n.
Proof.
  unfold file_name. repeat case_match; intros [= <-].
  rewrite bytes_of_bytes, elem_of_reverse. apply last_component_no_slash.
Qed.

Lemma temp_name_tail now path :
  exists l a, bytes (temp_name now path) = (l ++ [a]) /\ (slash ∉ l ++ [a]) /\ a <> dot.
Proof.
  destruct (hex_go_spec 15 (Z.to_N (temp_suffix now)) []) as (l & a & E & Hp & _).
  exists (bytes ("." +:+ default "file" (file_name path) +:+ ".tmp-") ++ l), a.
  unfold temp_name, hex. rewrite E, app_nil_r, !bytes_cat, bytes_of_bytes.
  split; [by rewrite <-?app_assoc|]. split.
  - assert (forall s, bool_decide (slash ∈ bytes s) = false -> slash ∉ bytes s) as Hno.
    { intros s. by apply bool_decide_eq_false_1. }
    rewrite !elem_of_app. intros Hin. destruct_or! Hin.
    + by apply (Hno ".") in Hin.
    + destruct (file_name path) as [n|] eqn:En; cbn [default] in Hin.
      * by apply (file_name_no_slash _ _ En).
      * by apply (Hno "file") in Hin.
    + by apply (Hno ".tmp-") in Hin.
    + rewrite Forall_forall in Hp. by specialize (Hp slash ltac:(apply elem_of_app; tauto)).
    + rewrite Forall_forall in Hp. by specialize (Hp slash ltac:(apply elem_of_app; tauto)).
  - apply Forall_app in Hp as [_ Ha]. apply Forall_inv in Ha. by intros ->.
Qed.

Lemma file_name_temp_path now path :
  file_name (temp_path now path) = Some (temp_name now path).
Proof.
  destruct (temp_name_tail now path) as (l & a & E & Hs & Hd).
  rewrite <-(of_bytes_bytes (temp_name now path)), E. unfold temp_path, join.
  rewrite temp_name_relative.
  destruct (is_empty (target_dir path)) eqn:Ee.
  { apply (file_name_tail _ [] l a); [by rewrite E|by left|done..]. }
  destruct (ends_with (target_dir path) "/") eqn:Ed.
  - apply (file_name_tail _ (bytes (target_dir path)) l a); [by rewrite bytes_cat, E|right|done..].
    unfold ends_with in Ed. apply starts_with_spec in Ed as [r Er].
    apply (f_equal (fun s => rev (bytes s))) in Er. rewrite bytes_of_bytes, rev_involutive in Er.
    rewrite Er, bytes_cat, bytes_of_bytes, rev_app_distr. apply last_snoc.
  - apply (file_name_tail _ (bytes (target_dir path) ++ [slash]) l a); [|right; apply last_snoc|done..].
    rewrite !bytes_cat, E, <-!app_assoc. done.
Qed.

(** The temporary file is never the target itself. *)
Lemma temp_path_ne now path : temp_path now path <> path.
Proof.
  intros E. pose proof (file_name_temp_path now path) as Hf. rewrite E in Hf.
  unfold temp_name in Hf. rewrite Hf in Hf. injection Hf as Hf.
  apply (f_equal (fun s => length (bytes s))) in Hf. cbn [default] in Hf.
  revert Hf. generalize (temp_name now path). intros s. clear.
  rewrite !bytes_cat, !length_app. cbn. lia.
Qed.

(** ** Stages of a writer

    Where a writer stands and what its temporary file holds then; [n] bounds the calls and
    parts of writes still to come. *)

Inductive stage (tmp path data : string) : nat -> Prog Outcome -> option File -> Prop :=
| st_start now f :
    tmp = temp_path now path -> path <> "" ->
    stage tmp path data (length (bytes data) + 6) (write_file_atomic now path data) f
| st_create f : stage tmp path data (length (bytes data) + 5) (create_and_fill tmp path data) f
| st_write done_ rest b :
    bytes data = done_ ++ rest ->
    stage tmp path data (length rest + 4) (Do (WriteAll tmp rest) (after_write tmp path))
      (Some (mkFile done_ b))
| st_sync b :
    stage tmp path data 3 (after_write tmp path (Ok tt)) (Some (mkFile (bytes data) b))
| st_rename :
    stage tmp path data 2 (rename_into tmp path) (Some (mkFile (bytes data) true))
| st_cleanup e f : stage tmp path data 1 (cleanup tmp e) f
| st_failed e f : stage tmp path data 0 (Done (Err e)) f
| st_done f : stage tmp path data 0 (Done (Ok tt)) f.

Definition whole (data : string) : File := mkFile (bytes data) true.

(** What one call of a writer changes: its temporary file only, or at the end its target,
    in one piece and on the device. *)
Definition moves_in (tmp path data : string) (p : Prog Outcome) (d d' : Disk) : Prop :=
  match p with
  | Done (Ok _) => d' = <[path := whole data]> (delete tmp d)
  | _ => forall q, q <> tmp -> d' !! q = d !! q
  end.

Lemma stage_step tmp path data n op k d r d' :
  stage tmp path data n (Do op k) (d !! tmp) -> fs_prim op d r d' -> tmp <> path ->
  exists m, m < n /\ stage tmp path data m (resume k r) (d' !! tmp)
  /\ moves_in tmp path data (resume k r) d d'.
Proof.
  intros Hst Hp Hne.
  remember (Do op k) as p eqn:Ep. remember (d !! tmp) as f eqn:Ef. destruct Hst.
  - unfold write_file_atomic in Ep. rewrite (proj2 (is_empty_false path)) in Ep by done.
    simplify_eq. inversion Hp; subst; cbn [resume].
    + eexists 0. split; [lia|]. split; [constructor|done].
    + eexists. split; [|split; [constructor|done]]. lia.
  - unfold create_and_fill in Ep. simplify_eq. inversion Hp; subst; cbn [resume].
    + exists 0. split; [lia|]. split; [constructor|done].
    + eexists. split; [|split].
      2: { rewrite lookup_insert_eq. by apply (st_write _ _ _ []). }
      * lia.
      * intros q Hq. by rewrite lookup_insert_ne.
  - simplify_eq. inversion Hp; subst; cbn [resume].
    + exists 1. split; [lia|]. split; [constructor|done].
    + match goal with Hf : d !! tmp = Some ?f' |- _ => rewrite Hf in Ef; injection Ef as <- end.
      cbn [f_bytes]. rename H into Hb. exists (length rest0 + 4). split.
      { rewrite length_app. destruct chunk; [done|]. cbn [length]. lia. }
      split; [|intros q Hq; by rewrite lookup_insert_ne].
      rewrite lookup_insert_eq. constructor. by rewrite <-app_assoc.
    + exists 3. split; [cbn; lia|]. rewrite app_nil_r in H. subst done_. split; [|done].
      rewrite <-Ef. constructor.
  - unfold after_write in Ep. simplify_eq. inversion Hp; subst; cbn [resume].
    + exists 1. split; [lia|]. split; [constructor|done].
    + match goal with Hf : d !! tmp = Some ?f' |- _ => rewrite Hf in Ef; injection Ef as <- end.
      exists 2. split; [lia|]. split; [|intros q Hq; by rewrite lookup_insert_ne].
      rewrite lookup_insert_eq. constructor.
  - unfold rename_into in Ep. simplify_eq. inversion Hp; subst; cbn [resume].
    + exists 1. split; [lia|]. split; [constructor|done].
    + match goal with Hf : d !! tmp = Some ?f' |- _ => rewrite Hf in Ef; injection Ef as <- end.
      exists 0. split; [lia|]. split; [constructor|done].
  - unfold cleanup in Ep. simplify_eq.
    exists 0. split; [lia|].
    inversion Hp; subst; (split; [constructor|]); [done|].
    intros q Hq. by rewrite lookup_delete_ne.
  - done.
  - done.
Qed.

(** A writer that is not done can take a step. *)
Lemma stage_progress tmp path data n p f : stage tmp path data n p f -> n = 0 -> exists r, p = Done r.
Proof. destruct 1; intros ?; try lia; eauto. Qed.

(** ** One writer alone: the abstraction the stores use

    A store knows of its file only whether the write failed; on success the file is the new
    text and on failure the old one. *)
Section one_writer.
Context (now : Z) (path data : string) (d0 : Disk).
Let tmp := temp_path now path.

Definition result_of (p : Prog Outcome) (d : Disk) : Prop :=
  match p with
  | Done (Ok _) => d !! path = Some (whole data) /\ d !! tmp = None
                   /\ forall q, q <> tmp -> q <> path -> d !! q = d0 !! q
  | _ => forall q, q <> tmp -> d !! q = d0 !! q
  end.

Lemma one_writer_run n ts d :
  path <> "" ->
  nsteps sys_step n ([write_file_atomic now path data], d0) (ts, d) ->
  exists m p, ts = [p] /\ n + m <= length (bytes data) + 6
  /\ stage tmp path data m p (d !! tmp) /\ result_of p d.
Proof.
  intros Hpath Hrun. assert (tmp <> path) as Hne by apply temp_path_ne.
  revert ts d Hrun. induction n as [|n IH]; intros ts d Hrun.
  - inversion Hrun; subst. exists (length (bytes data) + 6), (write_file_atomic now path data).
    split; [done|]. split; [lia|]. split; [by econstructor|].
    unfold write_file_atomic. by rewrite (proj2 (is_empty_false path)).
  - apply nsteps_inv_r in Hrun as ([ts1 d1] & Hrun & Hstep).
    destruct (IH _ _ Hrun) as (m & p & -> & Hm & Hst & Hres).
    inversion Hstep as [ts' i op k d' r d'' Hi Hp]; subst.
    destruct i as [|i]; [|done]. injection Hi as ->.
    destruct (stage_step _ _ _ _ _ _ _ _ _ Hst Hp Hne) as (m' & Hlt & Hst' & Hmv).
    exists m', (resume k r). split; [done|]. split; [lia|]. split; [done|].
    destruct (resume k r) as [[[]|e]|op' k']; cbn [moves_in result_of] in *.
    + subst d. split; [by rewrite lookup_insert_eq|]. split.
      * by rewrite lookup_insert_ne, lookup_delete_eq by done.
      * intros q H1 H2. rewrite lookup_insert_ne, lookup_delete_ne by done. by apply Hres.
    + intros q Hq. rewrite Hmv by done. by apply Hres.
    + intros q Hq. rewrite Hmv by done. by apply Hres.
Qed.

(** C14: A write ends within [length data + 6] calls and parts of writes, however they turn
    out.  When it succeeds the target holds all the bytes, on the device, the temporary file
    is gone and every other file is as before; when it fails at any point the target and
    every file but the temporary one are as before. *)
Theorem atomic_write_is_all_or_nothing n ts d :
  path <> "" ->
  nsteps sys_step n ([write_file_atomic now path data], d0) (ts, d) ->
  n <= length (bytes data) + 6
  /\ (ts = [Done (Ok tt)] -> d !! path = Some (whole data) /\ d !! tmp = None
        /\ forall q, q <> tmp -> q <> path -> d !! q = d0 !! q)
  /\ (forall e, ts = [Done (Err e)] -> forall q, q <> tmp -> d !! q = d0 !! q)
  /\ (n = length (bytes data) + 6 -> exists r, ts = [Done r]).
Proof.
  intros Hpath Hrun. assert (tmp <> path) as Hne by apply temp_path_ne.
  destruct (one_writer_run n ts d Hpath Hrun) as (m & p & -> & Hm & Hst & Hres).
  split; [lia|]. split; [|split].
  - intros [= ->]. exact Hres.
  - intros e [= ->]. exact Hres.
  - intros ->. destruct (stage_progress _ _ _ _ _ _ Hst) as [r ->]; [lia|eauto].
Qed.
End one_writer.

(** ** Many writers of one file, and its readers *)

Section writers.
Context (path : string) (ws : list (Z * string)) (d0 : Disk).
Context (path_given : path <> "").
Context (times_differ : NoDup ws.*1) (times_u64 : Forall (fun t => (0 <= t < 2 ^ 64)%Z) ws.*1).

Definition writer (w : Z * string) : Prog Outcome := write_file_atomic w.1 path w.2.
Definition temp_of (w : Z * string) : string := temp_path w.1 path.

(** What the target may hold. *)
Definition old_or_whole (f : option File) : Prop :=
  f = d0 !! path \/ exists w, w ∈ ws /\ f = Some (whole w.2).

Definition writers_inv (s : list (Prog Outcome) * Disk) : Prop :=
  old_or_whole (s.2 !! path) /\
  forall i w, ws !! i = Some w -> exists n p, s.1 !! i = Some p
    /\ stage (temp_of w) path w.2 n p (s.2 !! temp_of w).

Lemma writers_start : writers_inv (writer <$> ws, d0).
Proof.
  split; [by left|]. intros i w Hw. exists (length (bytes w.2) + 6), (writer w).
  cbn. rewrite list_lookup_fmap, Hw. split; [done|]. by econstructor.
Qed.

Lemma temp_of_ne i j w v :
  ws !! i = Some w -> ws !! j = Some v -> i <> j -> temp_of w <> temp_of v.
Proof.
  intros Hi Hj Hne E. rewrite Forall_forall in times_u64.
  assert (w.1 = v.1) as Et.
  { apply (temp_path_inj path); [| |exact E];
      apply times_u64, list_elem_of_fmap_2; by eapply list_elem_of_lookup_2. }
  apply Hne, (NoDup_lookup _ _ _ w.1 times_differ); rewrite list_lookup_fmap.
  - by rewrite Hi.
  - by rewrite Hj, Et.
Qed.

Lemma writers_step s s' :
  length s.1 = length ws -> writers_inv s -> sys_step s s' ->
  writers_inv s' /\ length s'.1 = length ws.
Proof.
  intros Hlen [Hold Hall] Hstep. destruct Hstep as [ts i op k d r d' Hi Hp]. cbn [fst snd] in *.
  split; [|by rewrite length_insert].
  destruct (ws !! i) as [w|] eqn:Hw.
  2: { apply lookup_ge_None in Hw. apply lookup_lt_Some in Hi. lia. }
  destruct (Hall i w Hw) as (n & p & Hp' & Hst). rewrite Hi in Hp'. injection Hp' as <-.
  assert (temp_of w <> path) as Hne by apply temp_path_ne.
  destruct (stage_step _ _ _ _ _ _ _ _ _ Hst Hp Hne) as (m & _ & Hst' & Hmv).
  assert (forall q, q <> temp_of w -> q <> path -> d' !! q = d !! q) as Hother.
  { intros q H1 H2. destruct (resume k r) as [[[]|e]|op' k']; cbn [moves_in] in Hmv; [|by apply Hmv..].
    by rewrite Hmv, lookup_insert_ne, lookup_delete_ne by done. }
  split; cbn [fst snd].
  - destruct (resume k r) as [[[]|e]|op' k']; cbn [moves_in] in Hmv.
    + right. exists w. split; [by eapply list_elem_of_lookup_2|]. by rewrite Hmv, lookup_insert_eq.
    + by rewrite Hmv.
    + by rewrite Hmv.
  - intros j v Hv. destruct (decide (i = j)) as [<-|Hij].
    + rewrite Hw in Hv. injection Hv as <-. exists m, (resume k r).
      split; [|done]. apply list_lookup_insert_eq. by eapply lookup_lt_Some.
    + destruct (Hall j v Hv) as (n' & p & Hj & Hst''). exists n', p.
      rewrite list_lookup_insert_ne by done. split; [done|].
      rewrite Hother; [done| |apply temp_path_ne]. by apply (temp_of_ne j i).
Qed.

(** C13: Let any number of writers of one file start at clock readings that differ, counted in
    nanoseconds from the epoch and below 2^64 ([times_differ], [times_u64]: the temporary
    file is named after the reading, and writers of one reading share it, see
    [writers_of_one_tick_tear_the_file]).  Then, whatever the interleaving of their calls
    and wherever they fail or stop, a reader of the file (or a daemon started after a
    crash) finds what was there at first or all the bytes of one of the writers, and never
    a file whose bytes have not reached the device. *)
Theorem readers_see_whole_files s :
  rtc sys_step (writer <$> ws, d0) s -> old_or_whole (s.2 !! path).
Proof.
  intros Hrun.
  enough (writers_inv s /\ length s.1 = length ws) as [[Hold _] _] by exact Hold.
  revert s Hrun. apply (rtc_ind_r (fun s => writers_inv s /\ length s.1 = length ws)).
  - split; [apply writers_start|]. apply length_fmap.
  - intros s s' _ Hstep [Hinv Hlen]. by apply (writers_step s).
Qed.
End writers.

(** ** Runs that succeed *)

(** Calls that all succeed, the bytes written in one part. *)
Lemma writer_can_succeed now path data ts i d :
  path <> "" -> bytes data <> [] -> ts !! i = Some (write_file_atomic now path data) ->
  exists d', nsteps sys_step 6 (ts, d) (<[i := Done (Ok tt)]> ts, d').
Proof.
  intros Hpath Hdata Hi. set (tmp := temp_path now path).
  unfold write_file_atomic in Hi. rewrite (proj2 (is_empty_false path)) in Hi by done.
  assert (forall p, <[i := p]> ts !! i = Some p) as Hin.
  { intros p. apply list_lookup_insert_eq. by eapply lookup_lt_Some. }
  assert (forall (p : Prog Outcome) op k d1 r d2 n z, p = Do op k -> fs_prim op d1 r d2 ->
    nsteps sys_step n (<[i := resume k r]> ts, d2) z ->
    nsteps sys_step (S n) (<[i := p]> ts, d1) z) as Hcall.
  { intros p op k d1 r d2 n z -> Hp Hn. eapply nsteps_l; [eapply (sys_call _ i); [apply Hin|exact Hp]|].
    by rewrite list_insert_insert_eq. }
  eexists. eapply nsteps_l; [eapply sys_call; [exact Hi|apply prim_dir]|].
  eapply Hcall; [reflexivity|apply prim_create|].
  eapply Hcall; [reflexivity| |].
  { cbn [resume]. rewrite <-(app_nil_r (bytes data)) at 1.
    eapply prim_write; [done|apply lookup_insert_eq]. }
  eapply Hcall; [reflexivity|apply prim_written|].
  eapply Hcall; [reflexivity|eapply prim_sync, lookup_insert_eq|].
  eapply Hcall; [reflexivity|eapply prim_rename, lookup_insert_eq|].
  apply nsteps_O.
Qed.

Lemma atomic_write_is_all_or_nothing_witness :
  exists d, nsteps sys_step 6 ([write_file_atomic 1 "s/t.json" "new"], {["s/t.json" := whole "old"]})
              ([Done (Ok tt)], d)
  /\ d !! "s/t.json" = Some (whole "new").
Proof.
  destruct (writer_can_succeed 1 "s/t.json" "new" [write_file_atomic 1 "s/t.json" "new"] 0
              {["s/t.json" := whole "old"]}) as [d Hd]; [done..|].
  exists d. split; [exact Hd|].
  apply (atomic_write_is_all_or_nothing 1 "s/t.json" "new" {["s/t.json" := whole "old"]} 6
           [Done (Ok tt)] d); [done|exact Hd|done].
Defined.

(** The second writer finishes while the first has only created its temporary file. *)
Lemma readers_see_whole_files_witness :
  exists ts d,
  rtc sys_step (writer "s/t.json" <$> [(1%Z, "first"); (2%Z, "second")], {["s/t.json" := whole "old"]}) (ts, d)
  /\ ts !! 1 = Some (Done (Ok tt))
  /\ old_or_whole "s/t.json" [(1%Z, "first"); (2%Z, "second")] {["s/t.json" := whole "old"]} (d !! "s/t.json").
Proof.
  set (ws := [(1%Z, "first"); (2%Z, "second")]).
  set (ts0 := [create_and_fill (temp_path 1 "s/t.json") "s/t.json" "first";
               writer "s/t.json" (2%Z, "second")]).
  destruct (writer_can_succeed 2 "s/t.json" "second" ts0 1 {["s/t.json" := whole "old"]}) as [d Hd]; [done..|].
  exists (<[1 := Done (Ok tt)]> ts0), d.
  assert (rtc sys_step (writer "s/t.json" <$> ws, {["s/t.json" := whole "old"]})
            (<[1 := Done (Ok tt)]> ts0, d)) as Hrun.
  { eapply rtc_l; [|by eapply rtc_nsteps_2].
    exact (sys_call (writer "s/t.json" <$> ws) 0 _ _ _ (inr (Ok tt)) _ eq_refl (prim_dir _ _)). }
  split; [exact Hrun|]. split; [done|].
  apply (readers_see_whole_files "s/t.json" ws {["s/t.json" := whole "old"]} ltac:(done)
           ltac:(apply (bool_decide_unpack _); by vm_compute)
           ltac:(apply (bool_decide_unpack _); by vm_compute)
           (<[1 := Done (Ok tt)]> ts0, d) Hrun).
Defined.

(** ** Two writers of one clock reading

    The second creates the temporary file anew between the first one's sync and rename, and
    the reader of the target finds an empty file. *)
Example writers_of_one_tick_tear_the_file :
  exists ts d,
  rtc sys_step (writer "s/t.json" <$> [(1%Z, "first"); (1%Z, "second")],
                {["s/t.json" := whole "old"]}) (ts, d)
  /\ d !! "s/t.json" = Some (mkFile [] false).
Proof.
  set (tmp := temp_path 1 "s/t.json").
  assert (forall ts i op k r d d' z, ts !! i = Some (Do op k) -> fs_prim op d r d' ->
    rtc sys_step (<[i := resume k r]> ts, d') z -> rtc sys_step (A := list (Prog Outcome) * Disk) (ts, d) z) as Hcall.
  { intros ts i op k r d d' z Hi Hp Hr. eapply rtc_l; [|exact Hr]. by eapply sys_call. }
  eexists _, _. split.
  - eapply (Hcall _ 0); [reflexivity|apply prim_dir|].
    eapply (Hcall _ 0); [reflexivity|apply prim_create|].
    eapply (Hcall _ 0); [reflexivity| |].
    { cbn [resume]. rewrite <-(app_nil_r (bytes "first")) at 1.
      eapply prim_write; [done|apply lookup_insert_eq]. }
    eapply (Hcall _ 0); [reflexivity|apply prim_written|].
    eapply (Hcall _ 0); [reflexivity|eapply prim_sync, lookup_insert_eq|].
    eapply (Hcall _ 1); [reflexivity|apply prim_dir|].
    eapply (Hcall _ 1); [reflexivity|apply prim_create|].
    eapply (Hcall _ 0); [reflexivity|eapply prim_rename, lookup_insert_eq|].
    apply rtc_refl.
  - apply lookup_insert_eq.
Qed.
