(* ===== verification/Tmux.v ===== *)
(** * The tmux wrappers (crates/ax-tmux/src/sessions.rs, commands.rs and keys.rs).

    Every function runs the [tmux] program with an argument vector; the program is the
    interface [Tmux] over the state [T] of the tmux server: [tmux_query] runs a command
    that only reads ([has-session], [list-sessions], [capture-pane]), [tmux_run] one
    that may change the server.  [TmuxOk] states what the manual of tmux promises about
    these commands in terms of the table [live] of sessions.  Output is UTF-8, so that
    [from_utf8_lossy] is the identity. *)

From Stdlib Require Import Ascii.
From stdpp Require Import prelude strings list gmap fin_maps pretty.
From S2P Require Import Prelude Act RustStr RustText Paths ConfigSchema.

Record Output := mkOutput {
  out_success : bool;
  out_stdout : string;
  out_stderr : string;
}.

Class Tmux (T : Type) := {
  tmux_query : list string -> T -> result IoError Output;
  tmux_run : list string -> T -> result IoError Output * T;
}.

Inductive TmuxError :=
| TmuxCommand (op message : string)
| SessionNotFound (workspace : string)
| TmuxParse (message : string)
| TmuxIo (e : IoError).

(** ** sessions.rs *)

Definition SESSION_PREFIX : string := "ax-".
Definition underscore : ascii := Ascii.ascii_of_nat 95.

Definition encode_workspace_name (workspace : string) : string :=
  replace_char dot underscore workspace.
Definition decode_workspace_name (encoded : string) : string :=
  replace_char underscore dot encoded.
Definition session_name (workspace : string) : string :=
  SESSION_PREFIX +:+ encode_workspace_name workspace.

(** ** keys.rs *)

Inductive ResolvedKey := Special (key : string) | Literal (text : string).

Definition key_table : list (list string * string) :=
  [(["Enter"; "Return"], "Enter"); (["Escape"; "Esc"], "Escape"); (["Tab"], "Tab");
   (["Space"], "Space"); (["BSpace"; "Backspace"], "BSpace"); (["Delete"; "DC"], "DC");
   (["Up"], "Up"); (["Down"], "Down"); (["Left"], "Left"); (["Right"], "Right");
   (["Home"], "Home"); (["End"], "End"); (["PageUp"; "PPage"], "PPage");
   (["PageDown"; "NPage"], "NPage"); (["Ctrl-C"; "C-c"], "C-c"); (["Ctrl-D"; "C-d"], "C-d");
   (["Ctrl-U"; "C-u"], "C-u"); (["Ctrl-L"; "C-l"], "C-l"); (["Ctrl-A"; "C-a"], "C-a");
   (["Ctrl-Z"; "C-z"], "C-z"); (["Ctrl-R"; "C-r"], "C-r"); (["Ctrl-W"; "C-w"], "C-w");
   (["Ctrl-K"; "C-k"], "C-k"); (["Ctrl-E"; "C-e"], "C-e"); (["Ctrl-B"; "C-b"], "C-b");
   (["Ctrl-F"; "C-f"], "C-f"); (["Ctrl-P"; "C-p"], "C-p"); (["Ctrl-N"; "C-n"], "C-n")].

Definition resolve_key_token (key : string) : ResolvedKey :=
  match List.find (fun row => bool_decide (key ∈ row.1)) key_table with
  | Some row => Special row.2
  | None => Literal key
  end.

(** ** commands.rs *)

Definition IDLE_PROMPT_SUFFIXES : list string := ["❯"; "> "; "$ "; "# "; "claude>"].

Record SessionInfo := mkSessionInfo {
  si_name : string;
  si_workspace : string;
  si_attached : bool;
  si_windows : Z;
}.

Definition env_args (env : gmap string string) : list string :=
  concat ((fun kv => ["-e"; kv.1 +:+ "=" +:+ kv.2]) <$> btree_to_list env).

Definition command_with_env (argv : list string) (env : gmap string string) : list string :=
  if decide (env = ∅) then argv
  else ["env"] ++ ((fun kv => kv.1 +:+ "=" +:+ kv.2) <$> btree_to_list env) ++ argv.

(** One row of [tmux list-sessions]; rows of other programs' sessions are skipped. *)
Definition parse_session_row (line : string) : option SessionInfo :=
  match split_whitespace line with
  | [name; attached; windows] =>
      encoded ← strip_prefix name SESSION_PREFIX;
      Some (mkSessionInfo name (decode_workspace_name encoded) (String.eqb attached "1")
              (default 1%Z (parse_u32 windows)))
  | _ => None
  end.
Definition parse_list_sessions_stdout (stdout : string) : list SessionInfo :=
  omap parse_session_row (lines (trim stdout)).

Definition parse_list_sessions_result (out : Output) : result TmuxError (list SessionInfo) :=
  if out_success out then Ok (parse_list_sessions_stdout (out_stdout out)) else
  let combined := out_stdout out +:+ out_stderr out in
  if contains combined "no server running"
     || (contains combined "error connecting to"
         && contains combined "No such file or directory")
  then Ok []
  else Err (TmuxCommand "list-sessions" (trim combined)).

Definition pane_looks_idle (pane : string) : bool :=
  let last_line :=
    default "" (List.find (fun l => negb (is_empty l)) (trim <$> rev (lines (trim_end_nl pane)))) in
  if is_empty last_line then false else
  existsb (fun p => ends_with last_line p || String.eqb last_line (trim p)) IDLE_PROMPT_SUFFIXES
  || String.eqb last_line ">" || String.eqb last_line "❯".

Section commands.
Context {T : Type} `{!Tmux T}.

Definition run_combined (op : string) (args : list string) : Act TmuxError T string := fun t =>
  match tmux_run args t with
  | (Err e, t) => (Err (TmuxIo e), t)
  | (Ok out, t) =>
      if out_success out then (Ok (out_stdout out), t)
      else (Err (TmuxCommand op (trim (out_stdout out +:+ out_stderr out))), t)
  end.

(** A run whose result is dropped ([let _ = ..]). *)
Definition run_ignored (args : list string) : Act TmuxError T unit := fun t =>
  (Ok tt, (tmux_run args t).2).

Definition set_remain_on_exit (session : string) : Act TmuxError T unit :=
  r ← act_try (run_combined "set-option remain-on-exit"
                 ["set-option"; "-t"; session; "remain-on-exit"; "on"]);
  match r with
  | Ok _ => mret tt
  | Err e => _ ← run_ignored ["kill-session"; "-t"; session]; act_throw e
  end.

Definition new_session_args (name dir : string) : list string :=
  ["new-session"; "-d"; "-s"; name; "-c"; dir].

Definition create_session (workspace dir shell : string) (env : gmap string string)
  : Act TmuxError T unit :=
  _ ← run_combined "new-session"
        (new_session_args (session_name workspace) dir ++ env_args env
           ++ (if is_empty shell then [] else [shell]));
  mret tt.

Definition create_session_with_command (workspace dir command : string)
    (env : gmap string string) : Act TmuxError T unit :=
  let name := session_name workspace in
  _ ← run_combined "new-session"
        (new_session_args name dir ++ command_with_env ["sh"; "-c"; command] env);
  set_remain_on_exit name.

Definition create_ephemeral_session (workspace dir : string) (argv : list string)
  : Act TmuxError T unit :=
  _ ← run_combined "new-session" (new_session_args (session_name workspace) dir ++ argv);
  mret tt.

Definition create_session_with_args (workspace dir : string) (argv : list string)
    (env : gmap string string) : Act TmuxError T unit :=
  let name := session_name workspace in
  _ ← run_combined "new-session" (new_session_args name dir ++ command_with_env argv env);
  set_remain_on_exit name.

Definition destroy_session (workspace : string) : Act TmuxError T unit :=
  _ ← run_combined "kill-session" ["kill-session"; "-t"; session_name workspace];
  mret tt.

Definition list_sessions (t : T) : result TmuxError (list SessionInfo) :=
  match tmux_query ["list-sessions"; "-F";
                    "#{session_name} #{session_attached} #{session_windows}"] t with
  | Err e => Err (TmuxIo e)
  | Ok out => parse_list_sessions_result out
  end.

Definition session_exists (workspace : string) (t : T) : bool :=
  match tmux_query ["has-session"; "-t"; session_name workspace] t with
  | Ok out => out_success out
  | Err _ => false
  end.

Definition capture_pane (workspace : string) (with_escape : bool) (t : T)
  : result TmuxError string :=
  match tmux_query (["capture-pane"; "-t"; session_name workspace; "-p"]
                      ++ (if with_escape then ["-e"] else [])) t with
  | Err e => Err (TmuxIo e)
  | Ok out => if out_success out then Ok (out_stdout out)
              else Err (TmuxCommand "capture-pane" (trim (out_stderr out)))
  end.

Definition is_idle (workspace : string) (t : T) : bool :=
  match capture_pane workspace false t with
  | Ok pane => pane_looks_idle pane
  | Err _ => false
  end.

Definition send_keys_args (session : string) (keys : list string) : list string :=
  ["send-keys"; "-t"; session] ++ keys.

(** The loop of [send_keys]. *)
Fixpoint send_each (session : string) (keys : list string) : Act TmuxError T unit :=
  match keys with
  | [] => mret tt
  | k :: keys =>
      if is_empty k then send_each session keys else
      _ ← run_combined "send-keys"
            (send_keys_args session (match resolve_key_token k with
                                     | Special mapped => [mapped]
                                     | Literal text => ["-l"; text]
                                     end));
      send_each session keys
  end.

Definition send_keys (workspace : string) (keys : list string) : Act TmuxError T unit := fun t =>
  if negb (session_exists workspace t) then (Err (SessionNotFound workspace), t)
  else send_each (session_name workspace) keys t.

Definition send_special_key_to_session (session : string) (keys : list string)
  : Act TmuxError T unit :=
  _ ← run_combined "send-keys" (send_keys_args session keys); mret tt.
Definition send_special_keys (workspace : string) (keys : list string) : Act TmuxError T unit :=
  _ ← run_combined "send-keys" (send_keys_args (session_name workspace) keys); mret tt.
Definition send_raw_key (session key : string) : Act TmuxError T unit :=
  _ ← run_combined "send-keys" (send_keys_args session ["-l"; key]); mret tt.

Definition interrupt_workspace (workspace : string) : Act TmuxError T unit :=
  send_keys workspace ["Escape"].

Definition wake_workspace (workspace prompt : string) : Act TmuxError T unit :=
  let name := session_name workspace in
  _ ← run_combined "wake workspace (clear)" (send_keys_args name ["Escape"; "C-u"]);
  _ ← run_combined "wake workspace (type)" (send_keys_args name [prompt]);
  _ ← run_combined "wake workspace (submit)" (send_keys_args name ["Enter"]);
  mret tt.
End commands.

(** ** What tmux promises, and what the wrappers make of it.

    [TmuxOk] is the contract of the tmux program: which session a target names
    ([find_target], from the section COMMANDS of its manual), and how each command the
    code runs reads or changes the table of sessions.  The lemmas lift it to workspace
    names: they need names that survive the encoding of [session_name] ([ws_name]) and
    targets that no other session name extends ([clear]). *)

(** ** The contract of tmux *)

(** A session has a number of attached clients and of windows. *)
Record SessionRow := mkSessionRow {
  row_clients : N;
  row_windows : N;
}.

Definition row_body (nr : string * SessionRow) : string :=
  nr.1 +:+ " " +:+ pretty (row_clients nr.2) +:+ " " +:+ pretty (row_windows nr.2).
Definition rows_text (l : list (string * SessionRow)) : string :=
  foldr (fun nr text => row_body nr +:+ newline +:+ text) "" l.

(** Letters, digits, [-] and [_]: characters without meaning in a tmux target. *)
Definition plain_char (a : ascii) : Prop :=
  ((48 <= code a <= 57) \/ (65 <= code a <= 90) \/ (97 <= code a <= 122)
   \/ code a = 45 \/ code a = 95)%N.
#[export] Instance plain_char_dec a : Decision (plain_char a).
Proof. unfold plain_char. apply _. Defined.
Definition plain (s : string) : Prop := s <> "" /\ Forall plain_char (bytes s).

(** A target is a session name or, when there is none of that name, the start of
    exactly one. *)
Definition find_target (names : list string) (n : string) : option string :=
  if decide (n ∈ names) then Some n
  else match List.filter (fun s => starts_with s n) names with
       | [s] => Some s
       | _ => None
       end.

Definition ran (r : result IoError Output) : bool :=
  match r with Ok out => out_success out | Err _ => false end.
Definition no_server (out : Output) : bool :=
  let combined := out_stdout out +:+ out_stderr out in
  contains combined "no server running"
  || (contains combined "error connecting to" && contains combined "No such file or directory").

(** What happens to sessions. *)
Inductive Event := Created (session : string) | Killed (session : string).

(** [live] is the table of sessions; [log] is a history variable, the sessions created
    and killed so far. *)
Class TmuxOk (T : Type) `{!Tmux T} := {
  live : T -> gmap string SessionRow;
  log : T -> list Event;
  has_session_spec t n :
    plain n ->
    ran (tmux_query ["has-session"; "-t"; n] t)
    = bool_decide (is_Some (find_target (map_to_list (live t)).*1 n));
  list_sessions_spec t out :
    tmux_query ["list-sessions"; "-F";
                "#{session_name} #{session_attached} #{session_windows}"] t = Ok out ->
    if out_success out
    then exists l, l ≡ₚ map_to_list (live t) /\ out_stdout out = rows_text l
    else no_server out = true -> live t = ∅;
  new_session_spec t n dir rest r t' :
    plain n -> tmux_run (new_session_args n dir ++ rest) t = (r, t') ->
    if ran r
    then live t !! n = None /\ log t' = log t ++ [Created n]
         /\ exists w, live t' = <[n := mkSessionRow 0 w]> (live t)
    else live t' = live t /\ log t' = log t;
  kill_session_spec t n r t' :
    plain n -> tmux_run ["kill-session"; "-t"; n] t = (r, t') ->
    if ran r
    then exists s, find_target (map_to_list (live t)).*1 n = Some s
         /\ log t' = log t ++ [Killed s] /\ live t' = delete s (live t)
    else live t' = live t /\ log t' = log t;
  set_option_spec t n option value r t' :
    tmux_run ["set-option"; "-t"; n; option; value] t = (r, t') -> live t' = live t /\ log t' = log t;
  send_keys_spec t n keys r t' :
    tmux_run (send_keys_args n keys) t = (r, t') -> live t' = live t /\ log t' = log t;
}.

(** ** Names *)

(** A workspace name the encoding keeps apart from every other: no [_]. *)
Definition ws_char (a : ascii) : Prop :=
  ((48 <= code a <= 57) \/ (65 <= code a <= 90) \/ (97 <= code a <= 122)
   \/ code a = 45 \/ code a = 46)%N.
#[export] Instance ws_char_dec a : Decision (ws_char a).
Proof. unfold ws_char. apply _. Defined.
Definition ws_name (n : string) : Prop := n <> "" /\ Forall ws_char (bytes n).
#[export] Instance ws_name_dec n : Decision (ws_name n).
Proof. unfold ws_name. apply _. Defined.

Lemma replace_char_inv a b s :
  replace_char b a (replace_char a b s) = s <-> b ∉ bytes s \/ a = b.
Proof.
  unfold replace_char. rewrite bytes_of_bytes, <-list_fmap_compose.
  rewrite <-(of_bytes_bytes s) at 2. split.
  - intros E. apply (f_equal bytes) in E. rewrite !bytes_of_bytes in E.
    destruct (decide (a = b)) as [->|Hne]; [by right|left]. intros Hin.
    revert E. generalize dependent (bytes s). intros l. induction l as [|c l IH]; intros Hin E.
    { by apply not_elem_of_nil in Hin. }
    rewrite fmap_cons in E. injection E as Ec El.
    apply elem_of_cons in Hin as [<-|Hin]; [|by apply IH].
    unfold compose in Ec. rewrite (decide_False (P := b = a)) in Ec by done.
    by rewrite decide_True in Ec.
  - intros H. f_equal. destruct H as [Hb | ->].
    + revert Hb. generalize (bytes s). intros l Hb. induction l as [|c l IH]; [done|].
      rewrite fmap_cons, IH by set_solver. f_equal. unfold compose.
      assert (b <> c) by set_solver. destruct (decide (c = a)) as [->|]; [by rewrite decide_True|].
      by rewrite decide_False.
    + rewrite <-(list_fmap_id (bytes s)) at 2. apply list_fmap_ext. intros i c _.
      unfold compose. cbn. by repeat (case_decide; subst).
Qed.

(** The encoding loses exactly the names with an underscore. *)
Lemma decode_encode n :
  decode_workspace_name (encode_workspace_name n) = n <-> underscore ∉ bytes n.
Proof.
  unfold decode_workspace_name, encode_workspace_name. rewrite replace_char_inv.
  split; [|by left]. intros [|E]; [done|]. by vm_compute in E.
Qed.

Lemma ws_name_no_underscore n : ws_name n -> underscore ∉ bytes n.
Proof.
  intros [_ Hn] Hin. rewrite Forall_forall in Hn. specialize (Hn _ Hin).
  unfold ws_char in Hn. change (code underscore) with 95%N in Hn. lia.
Qed.

Lemma session_name_plain n : ws_name n -> plain (session_name n).
Proof.
  intros [Hne Hn]. split; [done|]. unfold session_name. rewrite bytes_cat. apply Forall_app. split.
  - apply (bool_decide_unpack _). vm_compute. exact I.
  - unfold encode_workspace_name, replace_char. rewrite bytes_of_bytes, Forall_fmap.
    eapply Forall_impl; [exact Hn|]. intros a Ha. unfold compose. case_decide as Hd.
    + unfold plain_char. change (code underscore) with 95%N. lia.
    + unfold ws_char, plain_char in *.
      assert (code a <> 46)%N; [|lia]. intros E. apply Hd.
      unfold code in E. apply (f_equal ascii_of_N) in E. by rewrite ascii_N_embedding in E.
Qed.

Lemma session_name_inj n m :
  ws_name n -> ws_name m -> session_name n = session_name m -> n = m.
Proof.
  intros Hn%ws_name_no_underscore Hm%ws_name_no_underscore E.
  assert (encode_workspace_name n = encode_workspace_name m) as Ee.
  { unfold session_name in E. apply (f_equal (fun s => strip_prefix s SESSION_PREFIX)) in E.
    rewrite !strip_prefix_cat in E. congruence. }
  apply decode_encode in Hn, Hm. congruence.
Qed.

Lemma plain_visible s : plain s -> visible s.
Proof.
  intros [? Hs]. split; [done|]. eapply Forall_impl; [exact Hs|].
  intros a. unfold plain_char, graphic. lia.
Qed.

(** ** Listing *)

Definition row_info (nr : string * SessionRow) : option SessionInfo :=
  encoded ← strip_prefix nr.1 SESSION_PREFIX;
  Some (mkSessionInfo nr.1 (decode_workspace_name encoded) (row_clients nr.2 =? 1)%N
          (default 1%Z (parse_u32 (pretty (row_windows nr.2))))).

Lemma graphic_row l : Forall graphic l -> Forall row_char l.
Proof. intros Hl. apply (Forall_impl _ _ _ Hl). intros a Ha. by left. Qed.

Lemma row_body_chars nr : visible nr.1 -> Forall row_char (bytes (row_body nr)).
Proof.
  intros [_ Hn]. unfold row_body. rewrite !bytes_cat, !Forall_app.
  pose proof (pretty_N_visible (row_clients nr.2)) as [_ Hc].
  pose proof (pretty_N_visible (row_windows nr.2)) as [_ Hw].
  split_and!; first [by apply graphic_row | apply (Forall_cons_2 row_char sp []); [by right|constructor]].
Qed.

Lemma parse_row nr : visible nr.1 -> parse_session_row (row_body nr) = row_info nr.
Proof.
  intros Hn. unfold parse_session_row, row_body, row_info.
  pose proof (pretty_N_visible (row_clients nr.2)) as Hc.
  pose proof (pretty_N_visible (row_windows nr.2)) as Hw.
  change (nr.1 +:+ " " +:+ ?x +:+ " " +:+ ?y) with (nr.1 +:+ String sp (x +:+ String sp y)).
  rewrite split_whitespace_cons by done. rewrite split_whitespace_cons by done.
  rewrite split_whitespace_visible by done.
  destruct (strip_prefix nr.1 SESSION_PREFIX); [|done]. cbn. do 2 f_equal.
  destruct (N.eqb_spec (row_clients nr.2) 1) as [->|Hne]; [done|].
  apply String.eqb_neq. intros E. apply Hne. change "1" with (pretty 1%N) in E.
  by apply (inj pretty) in E.
Qed.

Lemma lines_of_rows l nr :
  Forall (fun nr => visible nr.1) l -> visible nr.1 ->
  lines_of (bytes (rows_text l +:+ row_body nr)) = (bytes ∘ row_body <$> l) ++ [bytes (row_body nr)].
Proof.
  intros Hl Hnr. induction Hl as [|x l Hx Hl IH].
  - cbn [rows_text foldr fmap list_fmap app]. apply lines_of_last; [by apply row_body_chars|].
    destruct Hnr as [Hne _]. unfold row_body. rewrite bytes_cat. by destruct (nr.1).
  - cbn [rows_text foldr]. fold (rows_text l).
    rewrite fmap_cons. unfold compose at 1.
    assert (bytes (((row_body x +:+ newline +:+ rows_text l)) +:+ row_body nr)
      = bytes (row_body x) ++ nl :: bytes (rows_text l +:+ row_body nr)) as ->.
    { rewrite !bytes_cat. by rewrite <-!app_assoc. }
    rewrite lines_of_row by (by apply row_body_chars). by rewrite IH.
Qed.

Lemma row_body_last nr : exists l a, bytes (row_body nr) = l ++ [a] /\ graphic a.
Proof.
  unfold row_body. rewrite !bytes_cat.
  pose proof (pretty_N_visible (row_windows nr.2)) as [Hne Hw].
  destruct (exists_last (l := bytes (pretty (row_windows nr.2)))) as (l & a & El).
  { intros El. apply Hne. by apply bytes_inj. }
  rewrite El in Hw |- *. apply Forall_app in Hw as [_ [Hw _]%Forall_cons].
  exists (bytes nr.1 ++ bytes " " ++ bytes (pretty (row_clients nr.2)) ++ bytes " " ++ l), a.
  split; [|done]. by rewrite <-!app_assoc.
Qed.

Lemma trim_rows l nr :
  Forall (fun nr => visible nr.1) (l ++ [nr]) ->
  trim (rows_text (l ++ [nr])) = rows_text l +:+ row_body nr.
Proof.
  intros Hv. apply bytes_inj. unfold trim. rewrite bytes_of_bytes.
  assert (bytes (rows_text (l ++ [nr])) = bytes (rows_text l) ++ bytes (row_body nr) ++ [nl]) as E.
  { clear. induction l as [|x l IH]; cbn [app rows_text foldr].
    - by rewrite !bytes_cat.
    - fold (rows_text (l ++ [nr])) (rows_text l). rewrite !bytes_cat, IH. by rewrite <-!app_assoc. }
  assert (exists a k, bytes (rows_text (l ++ [nr])) = a :: k /\ graphic a) as (a & k & Ea & Ha).
  { destruct (l ++ [nr]) as [|x l'] eqn:El; [by destruct l|]. apply Forall_cons in Hv as [[Hne Hx] _].
    cbn [rows_text foldr]. unfold row_body. rewrite !bytes_cat.
    destruct x as [[|a n] row]; [done|]. change (bytes (String a n, row).1) with (a :: bytes n) in *.
    apply Forall_cons in Hx as [Hx _]. by eexists _, _. }
  rewrite Ea, trim_start_graphic, <-Ea, E by done.
  rewrite bytes_cat. destruct (row_body_last nr) as (l' & b & -> & Hb).
  rewrite <-app_assoc. change ([b] ++ [nl]) with [b; nl]. rewrite app_assoc, trim_end_nl_bytes by done.
  by rewrite app_assoc.
Qed.

(** Reading the table back gives one entry per session whose name starts with [ax-]. *)
Lemma parse_rows l :
  Forall (fun nr => visible nr.1) l ->
  parse_list_sessions_stdout (rows_text l) = omap row_info l.
Proof.
  intros Hv. unfold parse_list_sessions_stdout, lines.
  destruct l as [|nr l _] using rev_ind; [done|].
  rewrite trim_rows by done. apply Forall_app in Hv as [Hl [Hnr _]%Forall_cons].
  rewrite lines_of_rows by done.
  assert (forall k, Forall (fun nr : string * SessionRow => visible nr.1) k ->
    omap parse_session_row (of_bytes <$> (bytes ∘ row_body <$> k)) = omap row_info k) as Hk.
  { clear. induction 1 as [|x k Hx Hk IH]; [done|]. rewrite !fmap_cons.
    change (omap ?f (?x :: ?l)) with (match f x with Some y => y :: omap f l | None => omap f l end).
    unfold compose at 1. rewrite of_bytes_bytes, (parse_row x Hx), IH. done. }
  rewrite <-(Hk (l ++ [nr])) by (by apply Forall_app; split; [|apply Forall_singleton]).
  by rewrite (fmap_app (bytes ∘ row_body)).
Qed.

(** ** Sessions of workspaces *)

Section sessions.
Context {T : Type} `{!Tmux T} `{!TmuxOk T}.
Implicit Types (t : T) (names : gset string) (P : Event -> Prop).

(** tmux has no [.] in the names of sessions; white space would split the listing. *)
Definition tidy (s : string) : Prop := visible s /\ dot ∉ bytes s.

Definition session (n : string) t : option SessionRow := live t !! session_name n.

(** The names a run deals with can be told apart: each survives the encoding, and no
    session that lives or will be created extends the session name of another. *)
Definition clear names t : Prop :=
  (forall n, n ∈ names -> ws_name n)
  /\ (forall s, is_Some (live t !! s) -> tidy s)
  /\ (forall n s, n ∈ names -> is_Some (live t !! s) \/ (exists m, m ∈ names /\ s = session_name m) ->
        starts_with s (session_name n) = true -> s = session_name n).

Lemma plain_tidy s : plain s -> tidy s.
Proof.
  intros Hp. split; [by apply plain_visible|]. destruct Hp as [_ Hp]. intros Hin.
  rewrite Forall_forall in Hp. specialize (Hp _ Hin). unfold plain_char in Hp.
  change (code dot) with 46%N in Hp. lia.
Qed.

(** What a run did, event by event, with the table after each. *)
Inductive trace P : T -> T -> Prop :=
| trace_nil t t' : live t' = live t -> log t' = log t -> trace P t t'
| trace_new t t1 t' s w :
    P (Created s) -> live t !! s = None ->
    live t1 = <[s := mkSessionRow 0 w]> (live t) -> log t1 = log t ++ [Created s] ->
    trace P t1 t' -> trace P t t'
| trace_kill t t1 t' s :
    P (Killed s) -> is_Some (live t !! s) ->
    live t1 = delete s (live t) -> log t1 = log t ++ [Killed s] ->
    trace P t1 t' -> trace P t t'.

Lemma trace_refl P t : trace P t t.
Proof. by apply trace_nil. Qed.

Lemma trace_eq P t1 t2 t' :
  live t2 = live t1 -> log t2 = log t1 -> trace P t2 t' -> trace P t1 t'.
Proof.
  intros El Eg Ht. destruct Ht as [t t' E1 E2|t ta t' s w HP Hs E1 E2 Ht|t ta t' s HP Hs E1 E2 Ht].
  - apply trace_nil; congruence.
  - apply (trace_new _ _ ta _ s w); congruence.
  - apply (trace_kill _ _ ta _ s); try done; congruence.
Qed.

#[export] Instance trace_trans P : Transitive (trace P).
Proof.
  intros t1 t2 t3 H12 H23. revert H23.
  induction H12 as [t t' E1 E2|t ta t' s w HP Hs E1 E2 Ht IH|t ta t' s HP Hs E1 E2 Ht IH]; intros H23.
  - by apply (trace_eq _ _ t').
  - apply (trace_new _ _ ta _ s w); auto.
  - apply (trace_kill _ _ ta _ s); auto.
Qed.

Lemma trace_mono P (Q : Event -> Prop) t t' :
  (forall e, P e -> Q e) -> trace P t t' -> trace Q t t'.
Proof.
  intros HPQ. induction 1 as [t t' E1 E2|t ta t' s w HP Hs E1 E2 Ht IH|t ta t' s HP Hs E1 E2 Ht IH].
  - by apply trace_nil.
  - apply (trace_new _ _ ta _ s w); auto.
  - apply (trace_kill _ _ ta _ s); auto.
Qed.

(** The history of a trace: every event of it satisfies [P]. *)
Lemma trace_log P t t' : trace P t t' -> exists es, log t' = log t ++ es /\ Forall P es.
Proof.
  induction 1 as [t t' E1 E2|t ta t' s w HP Hs E1 E2 Ht (es & E & Hes)|t ta t' s HP Hs E1 E2 Ht (es & E & Hes)].
  - exists []. by rewrite app_nil_r.
  - exists (Created s :: es). rewrite E, E2, <-app_assoc. split; [done|]. by constructor.
  - exists (Killed s :: es). rewrite E, E2, <-app_assoc. split; [done|]. by constructor.
Qed.

(** A session that no event kills keeps its row; one that no event creates stays away. *)
Lemma trace_keeps P t t' s row :
  trace P t t' -> ~ P (Killed s) -> live t !! s = Some row -> live t' !! s = Some row.
Proof.
  intros Ht Hk. induction Ht as [t t' E1 E2|t ta t' s' w HP Hs E1 E2 Ht IH|t ta t' s' HP Hs E1 E2 Ht IH];
    intros Hl.
  - by rewrite E1.
  - apply IH. rewrite E1, lookup_insert_ne; [done|]. intros ->. congruence.
  - apply IH. rewrite E1, lookup_delete_ne; [done|]. by intros ->.
Qed.
Lemma trace_absent P t t' s :
  trace P t t' -> ~ P (Created s) -> live t !! s = None -> live t' !! s = None.
Proof.
  intros Ht Hk. induction Ht as [t t' E1 E2|t ta t' s' w HP Hs E1 E2 Ht IH|t ta t' s' HP Hs E1 E2 Ht IH];
    intros Hl.
  - by rewrite E1.
  - apply IH. rewrite E1, lookup_insert_ne; [done|]. by intros ->.
  - apply IH. rewrite E1. by apply lookup_delete_None; right.
Qed.

(** Events of the workspaces in [names]. *)
Definition among names (e : Event) : Prop :=
  match e with Created s | Killed s => exists n, n ∈ names /\ s = session_name n end.
Definition about (n : string) (e : Event) : Prop :=
  match e with Created s | Killed s => s = session_name n end.

Lemma about_among names n e : n ∈ names -> about n e -> among names e.
Proof. destruct e as [s|s]; cbn; eauto. Qed.

(** What commands with the target [session_name n] can do whatever other sessions there
    are: tmux takes a target that is no session's name for the start of one. *)
Definition aimed (n : string) (e : Event) : Prop :=
  match e with
  | Created s => s = session_name n
  | Killed s => starts_with s (session_name n) = true
  end.
Definition aimed_among names (e : Event) : Prop := exists n, n ∈ names /\ aimed n e.

Lemma starts_with_self s : starts_with s s = true.
Proof. unfold starts_with. induction s as [|a s IH]; cbn; [done|]. by destruct (ascii_dec a a). Qed.

Lemma clear_trace names t t' : trace (among names) t t' -> clear names t -> clear names t'.
Proof.
  induction 1 as [t t' E1 E2|t ta t' s w (m & Hm & ->) Hs E1 E2 Ht IH|t ta t' s HP Hs E1 E2 Ht IH];
    intros (Hn & Hv & Hc).
  - split_and!; [done|..].
    + intros s. rewrite E1. apply Hv.
    + intros n s. rewrite E1. apply Hc.
  - apply IH. split_and!; [done|..].
    + intros s. rewrite E1. destruct (decide (s = session_name m)) as [->|Hne].
      * intros _. by apply plain_tidy, session_name_plain, Hn.
      * rewrite lookup_insert_ne by done. apply Hv.
    + intros n s Hin Hs'. apply Hc; [done|]. destruct Hs' as [Hs'|?]; [|by right].
      rewrite E1 in Hs'. destruct (decide (s = session_name m)) as [->|Hne]; [right; eauto|].
      rewrite lookup_insert_ne in Hs' by done. by left.
  - apply IH. assert (forall x, is_Some (live ta !! x) -> is_Some (live t !! x)) as Hd.
    { intros x. rewrite E1. intros [row [_ Hr]%lookup_delete_Some]. by exists row. }
    split_and!; [done|..].
    + intros x Hx. by apply Hv, Hd.
    + intros n x Hin [Hx|Hx]; apply Hc; auto.
Qed.

(** On clear names they reach the sessions of the names alone. *)
Lemma aimed_clear names P t t' :
  (forall e, P e -> aimed_among names e) ->
  clear names t -> trace P t t' -> trace (fun e => P e /\ among names e) t t'.
Proof.
  intros HP Hc Ht. revert Hc.
  induction Ht as [t t' E1 E2|t ta t' s w He Hs E1 E2 Ht IH|t ta t' s He Hs E1 E2 Ht IH]; intros Hc.
  - by apply trace_nil.
  - destruct (HP _ He) as (n & Hn & ->).
    assert (among names (Created (session_name n))) as Ha by (by exists n).
    eapply trace_new; [by split|done..|]. apply IH.
    eapply clear_trace, Hc. eapply trace_new; [done..|apply trace_refl].
  - destruct (HP _ He) as (n & Hn & Hp). pose proof Hc as (_ & _ & Hx).
    assert (among names (Killed s)) as Ha by (exists n; split; [done|by apply Hx; [..|left|]]).
    eapply trace_kill; [by split|done..|]. apply IH.
    eapply clear_trace, Hc. eapply trace_kill; [done..|apply trace_refl].
Qed.

(** ** The wrappers on clear names *)

Lemma elem_of_live_names t s : s ∈ (map_to_list (live t)).*1 <-> is_Some (live t !! s).
Proof.
  rewrite list_elem_of_fmap. split.
  - intros ([s' row] & -> & Hin). apply elem_of_map_to_list in Hin. by exists row.
  - intros [row Hr]. exists (s, row). by rewrite elem_of_map_to_list.
Qed.

Lemma clear_target names t n :
  clear names t -> n ∈ names ->
  find_target (map_to_list (live t)).*1 (session_name n)
  = if decide (is_Some (session n t)) then Some (session_name n) else None.
Proof.
  intros (_ & _ & Hc) Hn. unfold find_target, session.
  destruct (decide (is_Some _)) as [Hs|Hs].
  - by rewrite decide_True by (by apply elem_of_live_names).
  - rewrite decide_False by (by rewrite elem_of_live_names).
    destruct (List.filter _ _) as [|s l] eqn:E; [done|]. exfalso.
    assert (In s (List.filter (fun s => starts_with s (session_name n)) (map_to_list (live t)).*1))
      as [Hin Hp]%List.filter_In by (rewrite E; by left).
    apply list_elem_of_In, elem_of_live_names in Hin.
    apply Hc in Hp; [|done|by left]. by subst.
Qed.

Lemma session_exists_clear names t n :
  clear names t -> n ∈ names -> session_exists n t = bool_decide (is_Some (session n t)).
Proof.
  intros Hc Hn. unfold session_exists.
  pose proof (has_session_spec t (session_name n)) as H.
  rewrite (clear_target names) in H by done.
  assert (plain (session_name n)) as Hp by (by apply session_name_plain, Hc).
  specialize (H Hp). unfold ran in H.
  rewrite (bool_decide_ext _ (is_Some (session n t))) in H
    by (case_decide; [by split|split; [by intros [? ?]|done]]).
  by destruct (tmux_query _ t) as [out|e].
Qed.

Lemma wp_run op args (Q : result TmuxError string -> T -> Prop) t :
  (forall r t', tmux_run args t = (r, t') ->
     if ran r then forall out, Q (Ok out) t' else forall e, Q (Err e) t') ->
  wp (run_combined op args) Q t.
Proof.
  intros H. unfold wp, run_combined. destruct (tmux_run args t) as [[out|e] t'];
    specialize (H _ _ eq_refl); cbn in H; [|apply H].
  destruct (out_success out); apply H.
Qed.

(** ** Commands with the target of one name *)

Abbreviation aims n := (moves (trace (aimed n))).

#[export] Instance trace_preorder P : PreOrder (trace P).
Proof. split; [intros t; apply trace_refl|apply _]. Qed.

Lemma find_target_prefix l n s : find_target l n = Some s -> starts_with s n = true.
Proof.
  unfold find_target. case_decide as Hin; [intros [= ->]; apply starts_with_self|].
  destruct (List.filter _ _) as [|x [|]] eqn:E; [done| |done]. intros [= ->].
  assert (In s (List.filter (fun s => starts_with s n) l)) as Hs by (rewrite E; by left).
  by apply List.filter_In in Hs as [_ ?].
Qed.

Lemma find_target_live t n s : find_target (map_to_list (live t)).*1 n = Some s -> is_Some (live t !! s).
Proof.
  intros Et. apply elem_of_live_names. revert Et. unfold find_target. case_decide; [by intros [= <-]|].
  destruct (List.filter _ _) as [|x [|]] eqn:Ef; [done| |done]. intros [= ->].
  assert (In s (List.filter (fun s => starts_with s n) (map_to_list (live t)).*1)) as Hin
    by (rewrite Ef; by left).
  apply List.filter_In in Hin as [Hin _]. by apply list_elem_of_In.
Qed.

Lemma kill_aimed n t r t' :
  plain (session_name n) -> tmux_run ["kill-session"; "-t"; session_name n] t = (r, t') ->
  trace (aimed n) t t'.
Proof.
  intros Hp E. apply kill_session_spec in E; [|done]. destruct (ran r).
  - destruct E as (s & Et & Eg & El).
    eapply trace_kill; [by eapply find_target_prefix|by eapply find_target_live|done..|apply trace_refl].
  - destruct E. by apply trace_nil.
Qed.

Lemma run_aims n op args :
  (forall t r t', tmux_run args t = (r, t') -> trace (aimed n) t t') -> aims n (run_combined op args).
Proof.
  intros H t. unfold run_combined. destruct (tmux_run args t) as [[out|e] t'] eqn:E; apply H in E; [|done].
  by destruct (out_success out).
Qed.
Lemma ignored_aims n args :
  (forall t r t', tmux_run args t = (r, t') -> trace (aimed n) t t') -> aims n (run_ignored args).
Proof. intros H t. unfold run_ignored. cbn. destruct (tmux_run args t) as [r t'] eqn:E. by eapply H. Qed.

Section aims.
Context (n : string) (named : plain (session_name n)).

Lemma aims_kill op : aims n (run_combined op ["kill-session"; "-t"; session_name n]).
Proof using named TmuxOk0. apply run_aims. intros t r t'. by apply kill_aimed. Qed.
Lemma aims_kill_ignored : aims n (run_ignored ["kill-session"; "-t"; session_name n]).
Proof using named TmuxOk0. apply ignored_aims. intros t r t'. by apply kill_aimed. Qed.
Lemma aims_new op dir rest : aims n (run_combined op (new_session_args (session_name n) dir ++ rest)).
Proof using named TmuxOk0.
  apply run_aims. intros t r t' E. apply new_session_spec in E; [|done]. destruct (ran r).
  - destruct E as (? & ? & w & ?). by eapply trace_new; [..|apply trace_refl].
  - destruct E. by apply trace_nil.
Qed.
Lemma aims_option op option value :
  aims n (run_combined op ["set-option"; "-t"; session_name n; option; value]).
Proof using TmuxOk0.
  apply run_aims. intros t r t' E. apply set_option_spec in E as []. by apply trace_nil.
Qed.
#[local] Hint Resolve aims_kill aims_kill_ignored aims_new aims_option : moves.

Lemma aims_set_remain : aims n (set_remain_on_exit (session_name n)).
Proof using named TmuxOk0. unfold set_remain_on_exit. moves_tac. Qed.
Lemma aims_destroy : aims n (destroy_session n).
Proof using named TmuxOk0. unfold destroy_session. moves_tac. Qed.
Lemma aims_create dir shell env : aims n (create_session n dir shell env).
Proof using named TmuxOk0. unfold create_session. moves_tac. Qed.
Lemma aims_create_with_command dir command env : aims n (create_session_with_command n dir command env).
Proof using named TmuxOk0.
  unfold create_session_with_command. cbv zeta. apply moves_bind; [apply _|apply aims_new|].
  intros _. apply aims_set_remain.
Qed.
Lemma aims_create_with_args dir argv env : aims n (create_session_with_args n dir argv env).
Proof using named TmuxOk0.
  unfold create_session_with_args. cbv zeta. apply moves_bind; [apply _|apply aims_new|].
  intros _. apply aims_set_remain.
Qed.
End aims.

(** A session that is there is the target; killing it or a longer one leaves it dead. *)
Lemma destroyed n t r t' :
  plain (session_name n) -> destroy_session n t = (r, t') -> is_ok r = true -> session n t' = None.
Proof.
  intros Hp. unfold destroy_session, mbind, Act_bind, run_combined.
  destruct (tmux_run _ t) as [r1 t1] eqn:E. apply kill_session_spec in E; [|done]. unfold ran in E.
  destruct r1 as [out|e]; [|by intros [= <- <-]]. destruct (out_success out); [|by intros [= <- <-]].
  destruct E as (s & Et & _ & El). intros [= <- <-] _. unfold session. rewrite El.
  destruct (decide (s = session_name n)) as [->|Hne]; [apply lookup_delete_eq|].
  rewrite lookup_delete_ne by done. apply eq_None_not_Some. intros Hs.
  unfold find_target in Et. rewrite decide_True in Et by (by apply elem_of_live_names). congruence.
Qed.
Lemma not_there n t : plain (session_name n) -> session_exists n t = false -> session n t = None.
Proof.
  intros Hp. unfold session_exists. pose proof (has_session_spec t (session_name n) Hp) as H. unfold ran in H.
  intros E. apply eq_None_not_Some. intros Hs.
  assert (is_Some (find_target (map_to_list (live t)).*1 (session_name n))) as Hf.
  { unfold find_target. rewrite decide_True by (by apply elem_of_live_names). by eexists. }
  rewrite bool_decide_eq_true_2 in H by done. destruct (tmux_query _ t); congruence.
Qed.

(** Creating: refused when the session exists; otherwise it exists after success, and
    after a failure it may have been created and killed again. *)
Definition creates {E A} n t (r : result E A) t' : Prop :=
  match session n t with
  | Some _ => is_ok r = false /\ live t' = live t /\ log t' = log t
  | None => trace (about n) t t' /\ (is_ok r = true -> is_Some (session n t'))
  end.

Lemma wp_new_session names op n dir rest (Q : result TmuxError string -> T -> Prop) t :
  clear names t -> n ∈ names ->
  (forall e t', live t' = live t -> log t' = log t -> Q (Err e) t') ->
  (forall out t' w, session n t = None -> live t' = <[session_name n := mkSessionRow 0 w]> (live t) ->
     log t' = log t ++ [Created (session_name n)] -> Q (Ok out) t') ->
  wp (run_combined op (new_session_args (session_name n) dir ++ rest)) Q t.
Proof.
  intros Hc Hn HE HO. apply wp_run. intros r t' E.
  apply new_session_spec in E; [|by apply session_name_plain, Hc].
  destruct (ran r); [|destruct E; eauto]. destruct E as (? & ? & w & ?). eauto.
Qed.

Lemma created_trace n t t' w :
  session n t = None -> live t' = <[session_name n := mkSessionRow 0 w]> (live t) ->
  log t' = log t ++ [Created (session_name n)] -> trace (about n) t t'.
Proof. intros. eapply trace_new; [done..|apply trace_refl]. Qed.

Lemma wp_set_remain n t (Q : result TmuxError unit -> T -> Prop) :
  ws_name n -> is_Some (session n t) ->
  (forall t', live t' = live t -> log t' = log t -> Q (Ok tt) t') ->
  (forall e t', trace (about n) t t' -> Q (Err e) t') ->
  wp (set_remain_on_exit (session_name n)) Q t.
Proof.
  intros Hn Hs HO HE. unfold set_remain_on_exit. apply wp_bind, wp_try, wp_run. intros r t1 E.
  apply set_option_spec in E as [El Eg].
  destruct (ran r); [intros _; by apply HO|]. intros e. apply wp_bind.
  unfold wp, run_ignored. cbn [fst snd]. apply HE.
  destruct (tmux_run _ t1) as [r2 t2] eqn:E2. cbn [snd act_throw].
  apply kill_session_spec in E2; [|by apply session_name_plain].
  destruct (ran r2).
  - destruct E2 as (s & Et & Eg2 & El2).
    unfold find_target in Et. rewrite decide_True in Et
      by (apply elem_of_live_names; by rewrite El). injection Et as <-.
    apply (trace_kill _ _ t2 _ (session_name n)); [done|done|..|apply trace_refl].
    + by rewrite El2, El.
    + by rewrite Eg2, Eg.
  - destruct E2 as [El2 Eg2]. apply trace_nil; congruence.
Qed.

Lemma wp_create_and_set names op n dir rest t :
  clear names t -> n ∈ names ->
  wp (_ ← run_combined op (new_session_args (session_name n) dir ++ rest);
      set_remain_on_exit (session_name n)) (creates n t) t.
Proof.
  intros Hc Hn. apply wp_bind. eapply wp_new_session; [done..| |].
  - intros e t' El Eg. unfold creates. case_match; [done|]. split; [by apply trace_nil|done].
  - intros _ t' w Hs El Eg. pose proof (created_trace _ _ _ _ Hs El Eg) as Ht.
    assert (is_Some (session n t')) as Hs'.
    { unfold session. rewrite El, lookup_insert_eq. by eexists. }
    apply wp_set_remain; [by apply Hc|done|..]; unfold creates; rewrite Hs.
    + intros t2 El2 Eg2. split; [etrans; [exact Ht|by apply trace_nil]|]. intros _.
      unfold session. by rewrite El2.
    + intros e t2 Ht2. split; [by etrans|done].
Qed.

Lemma wp_create_session names n dir shell env t :
  clear names t -> n ∈ names -> wp (create_session n dir shell env) (creates n t) t.
Proof.
  intros Hc Hn. apply wp_bind. eapply wp_new_session; [done..| |]; unfold creates.
  - intros e t' El Eg. case_match; [done|]. split; [by apply trace_nil|done].
  - intros _ t' w Hs El Eg. wp_steps. rewrite Hs. split; [by eapply created_trace|].
    intros _. unfold session. rewrite El, lookup_insert_eq. by eexists.
Qed.

Lemma wp_create_session_with_command names n dir cmd env t :
  clear names t -> n ∈ names -> wp (create_session_with_command n dir cmd env) (creates n t) t.
Proof. apply wp_create_and_set. Qed.
Lemma wp_create_session_with_args names n dir argv env t :
  clear names t -> n ∈ names -> wp (create_session_with_args n dir argv env) (creates n t) t.
Proof. apply wp_create_and_set. Qed.

Lemma wp_destroy_session names n t (Q : result TmuxError unit -> T -> Prop) :
  clear names t -> n ∈ names ->
  (forall e t', live t' = live t -> log t' = log t -> Q (Err e) t') ->
  (forall t', is_Some (session n t) -> live t' = delete (session_name n) (live t) ->
     log t' = log t ++ [Killed (session_name n)] -> Q (Ok tt) t') ->
  wp (destroy_session n) Q t.
Proof.
  intros Hc Hn HE HO. apply wp_bind, wp_run. intros r t' E.
  apply kill_session_spec in E; [|by apply session_name_plain, Hc].
  destruct (ran r); [|intros e; destruct E; by apply HE].
  destruct E as (s & Et & Eg & El). rewrite (clear_target names) in Et by done.
  case_decide; [|done]. injection Et as <-. intros _. by apply HO.
Qed.

(** [list_sessions]: one entry per [ax-] session. *)
Lemma list_sessions_rows t l :
  (forall s, is_Some (live t !! s) -> tidy s) -> list_sessions t = Ok l ->
  exists rows, rows ≡ₚ map_to_list (live t) /\ l = omap row_info rows.
Proof.
  intros Hv. unfold list_sessions. destruct (tmux_query _ t) as [out|] eqn:E; [|done].
  apply list_sessions_spec in E. unfold parse_list_sessions_result.
  destruct (out_success out).
  - destruct E as (rows & Hp & ->). intros [= <-]. exists rows. split; [done|].
    apply parse_rows. apply Forall_forall. intros [s row] Hin. apply Hv.
    rewrite Hp in Hin. apply elem_of_map_to_list in Hin. by exists row.
  - fold (no_server out). destruct (no_server out); [|done]. intros [= <-]. exists [].
    by rewrite E, map_to_list_empty.
Qed.

(** The entries of a listing are told apart by their workspace. *)
Lemma listed_workspace rows t n info :
  clear {[n]} t -> rows ≡ₚ map_to_list (live t) ->
  info ∈ omap row_info rows -> si_workspace info = n ->
  exists row, session n t = Some row /\ row_info (session_name n, row) = Some info.
Proof.
  intros (Hn & Hv & _) Hp Hin Hw. apply list_elem_of_omap in Hin as ([s row] & Hrow & Hi).
  rewrite Hp in Hrow. apply elem_of_map_to_list in Hrow.
  assert (s = session_name n) as ->; [|by exists row].
  unfold row_info in Hi. cbn [fst snd] in Hi.
  destruct (strip_prefix s SESSION_PREFIX) as [e|] eqn:Es; [|done].
  apply strip_prefix_Some in Es as ->. cbn in Hi. injection Hi as <-. cbn [si_workspace] in Hw.
  unfold session_name. f_equal. rewrite <-Hw.
  unfold encode_workspace_name, decode_workspace_name. symmetry. apply replace_char_inv. left.
  destruct (Hv _ (mk_is_Some _ _ Hrow)) as [_ Hd]. rewrite bytes_cat in Hd. set_solver.
Qed.

Lemma session_listed rows t n row :
  ws_name n -> rows ≡ₚ map_to_list (live t) -> session n t = Some row ->
  exists info, info ∈ omap row_info rows /\ si_workspace info = n
    /\ si_attached info = (row_clients row =? 1)%N.
Proof.
  intros Hn Hp Hs. unfold session in Hs.
  destruct (row_info (session_name n, row)) as [info|] eqn:Ei.
  2: { unfold row_info, session_name in Ei. cbn [fst] in Ei. by rewrite strip_prefix_cat in Ei. }
  exists info. split.
  - apply list_elem_of_omap. exists (session_name n, row). split; [|done].
    rewrite Hp. by apply elem_of_map_to_list.
  - unfold row_info, session_name in Ei. cbn [fst snd] in Ei. rewrite strip_prefix_cat in Ei.
    injection Ei as <-. split; [|done]. cbn. by apply decode_encode, ws_name_no_underscore.
Qed.
End sessions.
