(* ===== verification/Artifacts.v ===== *)
(** * Generated files of a workspace (crates/ax-workspace/src/mcp_config.rs and
    instructions.rs, crates/ax-agent/src/runtime.rs).

    The [ax] entry of [.mcp.json] is merged into the servers of the user, and the
    managed section of [CLAUDE.md] or [AGENTS.md] is spliced between two markers.
    [ArtifactFs] adds to [FileSystem] the operations these files need; an operation that
    fails leaves the files as they were. *)

From Stdlib Require Import Ascii.
From stdpp Require Import prelude strings list gmap fin_maps.
From S2P Require Import Prelude Act RustStr RustText Proto Paths ConfigSchema.

(** ** The contract sections of the instruction files
    (crates/ax-workspace/src/instructions.rs, the [*_instruction_contract] functions).

    The texts are verbatim; a double quote of the source is written [^], which does not
    occur in it, and [contract_lines] puts it back. *)

Definition caret : ascii := Ascii.ascii_of_nat 94.
Definition quote_char : ascii := Ascii.ascii_of_nat 34.

(** [[String]::join]. *)
Fixpoint join_with (sep : string) (parts : list string) : string :=
  match parts with
  | [] => ""
  | [p] => p
  | p :: parts => p +:+ sep +:+ join_with sep parts
  end.

Definition contract_lines (ls : list string) : string :=
  join_with newline (replace_char caret quote_char <$> ls).

Definition durable_memory_instruction_contract : string := contract_lines [
   "## Durable Memory Contract";
   "- 런타임 native memory나 resume 품질에만 의존하지 말고, 재시작 이후에도 유지돼야 할 사실은 `remember_memory`로 ax daemon에 기록하세요.";
   "- 세션이 fresh/restart 되었거나 컨텍스트가 비어 보이면 먼저 `recall_memories(scopes=[^global^,^project^,^workspace^])`로 durable memory를 복원하세요.";
   "- 현재 durable memory 상태를 점검하거나 감사할 때는 `list_memories`를 사용하고, 현재 작업에 필요한 working set만 가져올 때는 `recall_memories`를 사용하세요.";
   "- 팀 전체 공통 규칙은 `scope=^global^`, 현재 프로젝트 결정/제약/핸드오프는 `scope=^project^`, 현재 워크스페이스 로컬 운영 메모는 `scope=^workspace^`를 우선 사용하세요.";
   "- 이미 저장한 기억이 더 이상 유효하지 않으면 `supersede_memory`를 사용해 교체하세요. 필요하면 저수준 경로로 `remember_memory(..., supersedes_ids=[...])`를 직접 써도 됩니다.";
   "- 매 응답 전에 무조건 메모리를 읽을 필요는 없습니다. fresh start, owner handoff, 설계 결정 확인, 반복되는 사용자 선호 복원처럼 실제로 가치가 있을 때만 recall 하세요."].

Definition message_handling_instruction_contract : string := contract_lines [
   "## Message Handling Contract";
   "- 수신 작업을 처리할 때는 `read_messages`로 최신 메시지를 확인하고, 새 작업 요청, 명시적 질문, 새 사실, 요청한 증거가 있을 때만 회신하세요.";
   "- `read_messages`가 비어 있어도 할 일이 없다고 결론내리기 전에는 현재 워크스페이스에 할당된 daemon task를 `list_tasks(assignee=<self>, status=^pending^)` 및 `list_tasks(assignee=<self>, status=^in_progress^)`로 확인하고, runnable task는 `get_task`로 구조화된 문맥을 확인한 뒤 처리하세요.";
   "- 결과나 추가 정보가 필요할 때만 `send_message`로 회신하세요. 단순 ACK/수신 확인/감사/상태 핑만의 메시지는 보내지 마세요.";
   "- 진행 상태 공유가 필요하면 `send_message` 대신 `set_status`를 사용하세요.";
   "- 처리 결과는 현재 작업을 요청한 발신자에게만 보내고, 새 작업/새 사실/명시적 질문/요청한 증거가 없으면 침묵을 기본값으로 두세요.";
   "- `read_messages`에서 받은 최신 메시지가 이전에 처리한 메시지와 실질적으로 동일하거나, 지금 보내려는 응답이 이전 응답과 실질적으로 동일하면 회신하지 마세요.";
   "- `^no new work^`, `^nothing to do^`, `^대기 중^`, `^진행 상황 없음^`, `^확인했습니다^`, `^thanks^`, `^ok^` 같은 no-op 상태 메시지에는 회신하지 마세요.";
   "- `request` 툴의 반환값은 새 메시지가 아닙니다. 그 결과를 받았다고 다시 `send_message`를 보내지 마세요."].

Definition task_intake_instruction_contract : string := contract_lines [
   "## Task Intake Contract";
   "- 메시지에 `Task ID:`가 있으면, 전달되었거나 `read_messages`로 읽었다는 사실만으로 task를 claim한 것으로 간주하지 마세요.";
   "- 먼저 `get_task`로 task 문맥을 확인하세요.";
   "- 그 직후 첫 task-flow action은 정확히 다음 4가지 중 하나여야 합니다:";
   "  1. `update_task(..., status=^in_progress^, log=^mode=implementation|inspection; scope=<exact files/modules>; validation=<plan>^)`";
   "  2. exact blocker 또는 owner mismatch 보고";
   "  3. superseded/invalid/fail 명시 후 종료";
   "  4. structured evidence와 함께 completion";
   "- owner mismatch나 missing dependency가 보이면 fail fast 하세요. 다른 owner/API/file이 필요한지 구체적으로 적고 task를 오래 붙잡지 마세요.";
   "- 같은 `Task ID:`에 대해 substantive result를 이미 보냈다면, 그 뒤 도착한 concise current-status re-ask에는 같은 요약을 반복하지 말고 새 delta가 있을 때만 회신하세요."].

Definition task_lifecycle_tools_instruction_contract : string := contract_lines [
   "## Task Lifecycle Tools";
   "- task 상태 전환에는 아래 네 개 ergonomic MCP 툴을 **raw `update_task`보다 먼저** 사용하세요. Completion Reporting Contract 마커 포맷을 자동으로 구성하고, task creator에게 terminal 상태 변화를 즉시 알립니다. Claude/Codex 등 MCP를 말하는 어떤 런타임도 동일한 surface를 사용합니다.";
   "- `report_task_progress(id, note)`: 장시간 단위 작업 중 heartbeat. Pending이면 자동으로 in_progress로 승격되고, `updated_at`이 갱신되어 silent-exit 리컨실러가 잘못 깨우지 않습니다.";
   "- `report_task_completion(id, summary, dirty_files, residual_scope?)`: task 종료. clean이면 `dirty_files=[]`, 남은 게 있으면 경로들 + 반드시 `residual_scope` 문자열로 설명. 서버가 `remaining owned dirty files=` 마커를 정확한 shape으로 만들어서 붙이고 `confirm=true`로 전송합니다.";
   "- `report_task_failed(id, reason)`: 하드 실패. 무엇을 시도했고 왜 안 됐는지, 재시도가 유의미한지 적으세요. Completion 마커는 필요 없습니다.";
   "- `report_task_blocked(id, reason, needs_help_from?)`: 외부 입력이 없으면 진전이 불가능할 때. `needs_help_from`에 peer 워크스페이스를 지정하면 그쪽 inbox에 `[task-blocked-help]` 메시지도 같이 발송합니다.";
   "- 위 툴 중 하나가 에러를 돌려주면 그 즉시 버리지 말고 응답 본문을 읽으세요. daemon이 에러와 동시에 같은 요지의 reminder를 당신의 inbox에도 넣으므로, 다음 `read_messages`에서도 다시 나타납니다 — 두 신호가 같은 방향을 가리키면 호출 인자를 수정해서 재시도하세요.";
   "- raw `update_task`와 `Completion Reporting Contract` 규약은 여전히 유효하며, custom 도구/저수준 경로가 필요할 때 쓰세요. 일반적인 완료/실패/블록 시그널링에는 위 네 개가 기본값입니다."].

Definition completion_reporting_instruction_contract : string := contract_lines [
   "## Completion Reporting Contract";
   "- `update_task(..., status=^completed^, result=...)` 또는 completion 회신 전에는 현재 scope 기준으로 남은 owned dirty/uncommitted files가 있는지 확인하세요.";
   "- completion result에는 반드시 다음 둘 중 하나를 포함하세요: `remaining owned dirty files=<none>` 또는 `remaining owned dirty files=<paths>; residual scope=<why work remains>`.";
   "- commit/task slice만 끝났다면 전체 요청이 끝난 것처럼 쓰지 말고, 이번에 끝난 unit과 남은 owned work를 구분해서 적으세요.";
   "- leftover owned work가 남아 있는데 설명 없이 `completed`나 ^done^처럼 쓰지 마세요. 후속 unit, 범위 밖 항목, blocker 중 무엇인지 명시하세요.";
   "- `update_task(..., status=^completed^, ..., confirm=true)`로 호출해야 daemon이 수락합니다. `confirm=true`는 다음 self-check를 마쳤다는 **명시적 affirmation**입니다 — 반사적으로 붙이지 말고 정말 확인 후에만 true로 두세요:";
   "  1. 약속한 파일 변경이 전부 저장/커밋되었음.";
   "  2. 관련 테스트/빌드가 통과했거나, 통과하지 않는 이유가 result에 적혀 있음.";
   "  3. result에 `remaining owned dirty files=` 마커가 올바른 모양으로 들어가 있음.";
   "  4. 이 task scope 안에서 남은 TODO/미해결 blocker가 없음 (있다면 failed나 후속 unit으로 넘어감).";
   "- `confirm` 없이(또는 `confirm=false`) completion을 보내면 daemon이 `CompletionRequiresConfirmation` 에러로 거부하고 체크리스트를 돌려줍니다. 그 메시지를 읽고 실제로 점검한 뒤에 `confirm=true`로 재호출하세요.";
   "- result에는 가능하면 **구체 evidence** 한 조각 이상을 남기세요. 예: 수정한 파일 경로 (`src/foo.rs`, `greeter/hello.sh`), 실행한 검증 커맨드 (`cargo test`, `pytest`, `npm test`), 또는 관련 git 동작. 파일 경로/커맨드 흔적이 없는 completion은 daemon이 거부하진 않지만 task 로그에 `evidence hint` 경고를 남겨서 리뷰어가 spot-check 하도록 표시합니다."].

(** ** ax-agent/src/runtime.rs *)

Inductive Runtime := Claude | Codex.
#[export] Instance Runtime_eq_dec : EqDecision Runtime.
Proof. solve_decision. Defined.

Definition SUPPORTED_RUNTIMES : list Runtime := [Claude; Codex].
Definition as_str (r : Runtime) : string :=
  match r with Claude => "claude" | Codex => "codex" end.
Definition normalize (name : string) : option Runtime :=
  let n := to_ascii_lowercase (trim name) in
  if is_empty n || String.eqb n "claude" then Some Claude
  else if String.eqb n "codex" then Some Codex else None.
Definition instruction_file (r : Runtime) : string :=
  match r with Claude => "CLAUDE.md" | Codex => "AGENTS.md" end.

Lemma normalize_as_str r : normalize (as_str r) = Some r.
Proof. by destruct r. Qed.

(** ** Files *)

Class ArtifactFs (F : Type) := {
  fs_read_to_string : F -> string -> result IoError string;
  fs_remove_file : F -> string -> result IoError F;
  fs_remove_dir_all : F -> string -> result IoError F;
  fs_remove_dir : F -> string -> result IoError F;
  fs_read_dir_count : F -> string -> result IoError nat;
}.

(** A removed file is not found, nor is one that cannot be removed because it is
    missing, and a written one reads as the text it was given. *)
Class ArtifactFsOk (F : Type) `{!FileSystem F} `{!ArtifactFs F} : Prop := {
  fs_read_to_string_write fs path text fs' :
    fs_write fs path text = Ok fs' -> fs_read_to_string fs' path = Ok text;
  fs_read_removed fs path fs' :
    fs_remove_file fs path = Ok fs' ->
    fs_read fs' path = Err IoNotFound /\ fs_read_to_string fs' path = Err IoNotFound;
  fs_remove_missing fs path :
    fs_remove_file fs path = Err IoNotFound ->
    fs_read fs path = Err IoNotFound /\ fs_read_to_string fs path = Err IoNotFound;
}.

Definition file_act {E F} (wrap : IoError -> E) (op : F -> result IoError F) : Act E F unit :=
  fun fs => match op fs with
            | Ok fs => (Ok tt, fs)
            | Err e => (Err (wrap e), fs)
            end.

(** [match remove() { Err(NotFound) => Ok(()), .. }]. *)
Definition remove_if_present {E F} (wrap : IoError -> E) (op : F -> result IoError F)
  : Act E F unit :=
  fun fs => match op fs with
            | Ok fs => (Ok tt, fs)
            | Err IoNotFound => (Ok tt, fs)
            | Err e => (Err (wrap e), fs)
            end.

(** ** mcp_config.rs *)

Definition MCP_CONFIG_FILE : string := ".mcp.json".
Definition AX_SERVER_KEY : string := "ax".

Inductive McpConfigError :=
| McpRead (path : string) (e : IoError)
| McpWrite (path : string) (e : IoError)
| McpEncode.

Record McpServerEntry := mkMcpServerEntry {
  command : string;
  args : list string;
}.
(** [McpConfig]: the table [mcpServers]. *)
Record McpConfig := mkMcpConfig { mcp_servers : gmap string McpServerEntry }.

(** JSON with a newline after it reads the same. *)
Class JsonFileOk (A : Type) `{!JsonCodec A} : Prop := {
  from_slice_file a s : to_vec a = Some s -> from_slice (s +:+ newline) = Some a;
}.

Definition mcp_server_args (workspace socket_path : string) (config_path : option string)
  : list string :=
  ["mcp-server"; "--workspace"; workspace; "--socket"; socket_path]
  ++ match config_path with
     | Some cfg => if is_empty cfg then [] else ["--config"; cfg]
     | None => []
     end.

Section mcp.
Context {F : Type} `{!FileSystem F} `{!ArtifactFs F} `{!JsonCodec McpConfig}.

Definition write_json (path : string) (cfg : McpConfig) : Act McpConfigError F unit :=
  match to_vec cfg with
  | None => act_throw McpEncode
  | Some body => file_act (McpWrite path) (fun fs => fs_write fs path (body +:+ newline))
  end.

Definition write_mcp_config (dir workspace socket_path : string) (config_path : option string)
    (ax_bin : string) : Act McpConfigError F unit := fun fs =>
  let entry := mkMcpServerEntry ax_bin (mcp_server_args workspace socket_path config_path) in
  let path := join dir MCP_CONFIG_FILE in
  match match fs_read fs path with
        | Ok bytes => Ok (default (mkMcpConfig ∅) (from_slice bytes))
        | Err IoNotFound => Ok (mkMcpConfig ∅)
        | Err e => Err (McpRead path e)
        end with
  | Err e => (Err e, fs)
  | Ok cfg => write_json path (mkMcpConfig (<[AX_SERVER_KEY := entry]> (mcp_servers cfg))) fs
  end.

Definition remove_mcp_config (dir : string) : Act McpConfigError F unit := fun fs =>
  let path := join dir MCP_CONFIG_FILE in
  match fs_read fs path with
  | Err IoNotFound => (Ok tt, fs)
  | Err e => (Err (McpRead path e), fs)
  | Ok bytes =>
      match from_slice bytes with
      | None => (Ok tt, fs)
      | Some cfg =>
          let servers := delete AX_SERVER_KEY (mcp_servers cfg) in
          if decide (servers = ∅)
          then remove_if_present (McpWrite path) (fun fs => fs_remove_file fs path) fs
          else write_json path (mkMcpConfig servers) fs
      end
  end.
End mcp.

(** ** instructions.rs *)

Definition AX_MARKER_START : string := "<!-- ax:instructions:start -->".
Definition AX_MARKER_END : string := "<!-- ax:instructions:end -->".

Inductive InstructionsError :=
| UnknownRuntime (name : string)
| InstrRead (path : string) (e : IoError)
| InstrWrite (path : string) (e : IoError).

Definition managed_workspace_instructions (custom : string) : string :=
  let trimmed := trim custom in
  join_with (newline +:+ newline)
    ((if is_empty trimmed then [] else [trimmed])
     ++ [durable_memory_instruction_contract; message_handling_instruction_contract;
         task_intake_instruction_contract; task_lifecycle_tools_instruction_contract;
         completion_reporting_instruction_contract]).

Definition ax_section (workspace custom : string) : string :=
  AX_MARKER_START +:+ newline +:+ "## ax workspace: " +:+ workspace +:+ newline +:+ newline
  +:+ managed_workspace_instructions custom +:+ newline +:+ AX_MARKER_END.

Definition splice_managed_section (existing section : string) : string :=
  match find existing AX_MARKER_START, find existing AX_MARKER_END with
  | Some start, Some end_ =>
      take_bytes start existing +:+ section
      +:+ drop_bytes (end_ + String.length AX_MARKER_END) existing
  | _, _ => trim_end_nl existing +:+ newline +:+ newline +:+ section +:+ newline
  end.

(** What [strip_managed_section] does with a file it could read: leave it ([None]),
    remove it ([Some None]) or write the rest. *)
Definition stripped (content : string) : option (option string) :=
  start ← find content AX_MARKER_START;
  end_ ← find content AX_MARKER_END;
  let before := trim_end_nl (take_bytes start content) in
  let after := trim_start_nl (drop_bytes (end_ + String.length AX_MARKER_END) content) in
  Some (if is_empty before && is_empty after then None
        else Some (before
                   +:+ (if is_empty after then ""
                        else (if is_empty before then "" else newline +:+ newline) +:+ after)
                   +:+ newline)).

Section instructions.
Context {F : Type} `{!FileSystem F} `{!ArtifactFs F}.

Definition strip_managed_section (path : string) : Act InstructionsError F unit := fun fs =>
  match fs_read_to_string fs path with
  | Err IoNotFound => (Ok tt, fs)
  | Err e => (Err (InstrRead path e), fs)
  | Ok content =>
      match stripped content with
      | None => (Ok tt, fs)
      | Some None => remove_if_present (InstrWrite path) (fun fs => fs_remove_file fs path) fs
      | Some (Some out) => file_act (InstrWrite path) (fun fs => fs_write fs path out) fs
      end
  end.

Definition write_section (path section : string) : Act InstructionsError F unit := fun fs =>
  match match fs_read_to_string fs path with
        | Ok existing => Ok (splice_managed_section existing section)
        | Err IoNotFound => Ok (section +:+ newline)
        | Err e => Err (InstrRead path e)
        end with
  | Err e => (Err e, fs)
  | Ok content => file_act (InstrWrite path) (fun fs => fs_write fs path content) fs
  end.

Definition write_instructions (dir workspace runtime custom : string)
  : Act InstructionsError F unit :=
  match normalize runtime with
  | None => act_throw (UnknownRuntime runtime)
  | Some r =>
      _ ← act_each (fun other => if decide (other = r) then mret tt
                                 else strip_managed_section (join dir (instruction_file other)))
            SUPPORTED_RUNTIMES;
      write_section (join dir (instruction_file r)) (ax_section workspace custom)
  end.

Definition remove_instructions (dir : string) : Act InstructionsError F unit :=
  act_each (fun r => strip_managed_section (join dir (instruction_file r))) SUPPORTED_RUNTIMES.
End instructions.

(** ** The user's text and servers survive the generated files.

    Theorems about [Artifacts]: splicing and stripping the managed section, merging and
    removing the [ax] server. *)

(** ** Searching in concatenations *)

Lemma string_cat_assoc (a b c : string) : (a +:+ b) +:+ c = a +:+ (b +:+ c).
Proof. apply bytes_inj. by rewrite !bytes_cat, app_assoc. Qed.

Lemma find_unfold c r p :
  find (String c r) p = if starts_with (String c r) p then Some 0 else S <$> find r p.
Proof. reflexivity. Qed.

Lemma starts_with_cat u x p :
  starts_with (u +:+ x) p = true -> starts_with u p = true \/ exists q, q <> "" /\ p = u +:+ q /\ starts_with x q = true.
Proof.
  revert p. induction u as [|c u IH]; intros p Hp.
  - destruct p as [|a p]; [by left|]. right. by exists (String a p).
  - destruct p as [|a p]; [by left|]. change (String c u +:+ x) with (String c (u +:+ x)) in Hp.
    unfold starts_with in *. cbn [String.prefix] in *. destruct (Ascii.ascii_dec a c) as [->|]; [|done].
    destruct (IH p Hp) as [?|(q & ? & -> & ?)]; [by left|]. right. by exists q.
Qed.

Section search.
Context (a : ascii) (p' : string).
Abbreviation p := (String a p').

(** An occurrence cannot straddle the seam at a character that the pattern has at most
    in front. *)
Lemma find_skip u b w :
  b ∉ bytes p' -> find u p = None ->
  find (u +:+ String b w) p = (Nat.add (String.length u)) <$> find (String b w) p.
Proof.
  intros Hb. induction u as [|c u IH]; intros Hu.
  - change ("" +:+ String b w) with (String b w). by destruct (find (String b w) p).
  - change (String c u +:+ String b w) with (String c (u +:+ String b w)).
    rewrite find_unfold in Hu |- *.
    destruct (starts_with (String c u) p) eqn:E; [done|].
    destruct (starts_with (String c (u +:+ String b w)) p) eqn:E'.
    + exfalso. change (String c (u +:+ String b w)) with (String c u +:+ String b w) in E'.
      apply starts_with_cat in E' as [?|(q & Hne & Ep & Hq)]; [congruence|].
      destruct q as [|b' q]; [done|]. change (String c u +:+ String b' q) with (String c (u +:+ String b' q)) in Ep.
      injection Ep as -> ->. unfold starts_with in Hq. cbn in Hq.
      destruct (Ascii.ascii_dec b' b) as [->|]; [|done].
      apply Hb. rewrite bytes_cat. change (bytes (String b q)) with (b :: bytes q). set_solver.
    + destruct (find u p) eqn:Ef; [done|]. rewrite IH by done. by destruct (find (String b w) p).
Qed.

Lemma find_here w : find (p +:+ w) p = Some 0.
Proof.
  change (p +:+ w) with (String a (p' +:+ w)). rewrite find_unfold.
  by rewrite (starts_with_app p w : starts_with (String a (p' +:+ w)) p = true).
Qed.

Lemma find_pass u w : a ∉ bytes u -> find (u +:+ w) p = (Nat.add (String.length u)) <$> find w p.
Proof.
  induction u as [|c u IH]; intros Ha.
  - change ("" +:+ w) with w. by destruct (find w p).
  - change (String c u +:+ w) with (String c (u +:+ w)). rewrite find_unfold.
    change (bytes (String c u)) with (c :: bytes u) in Ha.
    assert (starts_with (String c (u +:+ w)) p = false) as ->.
    { unfold starts_with. cbn [String.prefix]. destruct (Ascii.ascii_dec a c) as [->|]; [set_solver|done]. }
    rewrite IH by set_solver. by destruct (find w p).
Qed.

Lemma find_prefix u v : find (u +:+ v) p = None -> find u p = None.
Proof.
  induction u as [|c u IH]; [done|]. change (String c u +:+ v) with (String c (u +:+ v)).
  rewrite !find_unfold. destruct (starts_with (String c u) p) eqn:E.
  - apply starts_with_spec in E as [r E]. change (String c (u +:+ v)) with (String c u +:+ v).
    rewrite E, string_cat_assoc, starts_with_app. done.
  - destruct (starts_with (String c (u +:+ v)) p); [done|].
    destruct (find (u +:+ v) p) eqn:Ef; [done|]. intros _. by rewrite IH.
Qed.
End search.

Lemma take_bytes_cat u v : take_bytes (String.length u) (u +:+ v) = u.
Proof.
  unfold take_bytes. rewrite bytes_cat.
  assert (String.length u = length (bytes u)) as -> by (induction u as [|c u IH]; [done|cbn; by rewrite IH]).
  by rewrite take_app_length, of_bytes_bytes.
Qed.
Lemma string_length_cat u v : String.length (u +:+ v) = String.length u + String.length v.
Proof. induction u as [|c u IH]; [done|]. change (S (String.length (u +:+ v)) = S (String.length u + String.length v)). by rewrite IH. Qed.
Lemma drop_bytes_at n u v : n = String.length u -> drop_bytes n (u +:+ v) = v.
Proof. intros ->. apply drop_bytes_cat. Qed.

(** ** Newlines at the end *)

Lemma drop_nl_spec l : exists k, l = k ++ drop_nl l /\ Forall (eq nl) k /\ head (drop_nl l) <> Some nl.
Proof.
  induction l as [|c l (k & E & Hk & Hh)]; [by exists []|]. cbn.
  destruct (decide (c = nl)) as [->|Hne].
  - exists (nl :: k). split_and!; [by rewrite <-app_comm_cons, <-E|by constructor|done].
  - exists []. split_and!; [done..|]. by intros [= ->].
Qed.
Lemma drop_nl_app k l : Forall (eq nl) k -> head l <> Some nl -> drop_nl (k ++ l) = l.
Proof.
  induction 1 as [|c k <- Hk IH]; intros Hl; [|by apply IH].
  destruct l as [|c l]; [done|]. cbn. rewrite decide_False; [done|]. by intros ->.
Qed.

Lemma trim_end_nl_prefix e : exists v, e = trim_end_nl e +:+ v.
Proof.
  destruct (drop_nl_spec (rev (bytes e))) as (k & E & _). exists (of_bytes (rev k)).
  apply bytes_inj. unfold trim_end_nl. rewrite bytes_cat, !bytes_of_bytes, <-rev_app_distr, <-E.
  by rewrite rev_involutive.
Qed.
Lemma trim_end_nl_cat e v :
  Forall (eq nl) (bytes v) -> trim_end_nl (trim_end_nl e +:+ v) = trim_end_nl e.
Proof.
  intros Hv. unfold trim_end_nl at 1. rewrite bytes_cat, rev_app_distr.
  destruct (drop_nl_spec (rev (bytes e))) as (k & E & _ & Hh).
  unfold trim_end_nl at 1. rewrite bytes_of_bytes, rev_involutive.
  rewrite drop_nl_app; [done| |done]. apply Forall_forall. intros x Hx.
  rewrite Forall_forall in Hv. apply Hv. apply list_elem_of_In, in_rev, list_elem_of_In. done.
Qed.

(** ** The managed section *)

Definition unmarked (s : string) : Prop :=
  find s AX_MARKER_START = None /\ find s AX_MARKER_END = None.

(** A section: the markers around a body that has no end marker. *)
Definition is_section (s : string) : Prop :=
  exists body, s = AX_MARKER_START +:+ body +:+ AX_MARKER_END /\ find body AX_MARKER_END = None.

(** The first character of [q] occurs in [p] at most in front. *)
Definition seam (p q : string) : bool :=
  match p, q with
  | String _ p', String b _ => bool_decide (b ∉ bytes p')
  | _, _ => false
  end.

Lemma find_seam p q u w :
  seam p q = true -> find u p = None ->
  find (u +:+ (q +:+ w)) p = (Nat.add (String.length u)) <$> find (q +:+ w) p.
Proof.
  destruct p as [|a p'], q as [|b q']; [done..|]. intros Hb%bool_decide_eq_true. by apply find_skip.
Qed.

Lemma start_seam : seam AX_MARKER_START AX_MARKER_START = true.
Proof. vm_compute. reflexivity. Qed.
Lemma end_start_seam : seam AX_MARKER_END AX_MARKER_START = true.
Proof. vm_compute. reflexivity. Qed.
Lemma end_seam : seam AX_MARKER_END AX_MARKER_END = true.
Proof. vm_compute. reflexivity. Qed.

Lemma find_end_after_start w :
  find (AX_MARKER_START +:+ w) AX_MARKER_END
  = (Nat.add (String.length AX_MARKER_START)) <$> find w AX_MARKER_END.
Proof.
  destruct AX_MARKER_START as [|c r] eqn:E; [done|].
  change (String c r +:+ w) with (String c (r +:+ w)). rewrite find_unfold.
  assert (starts_with (String c (r +:+ w)) AX_MARKER_END = false) as ->.
  { injection E as <- <-. reflexivity. }
  destruct AX_MARKER_END as [|a p'] eqn:E2; [done|].
  rewrite find_pass; [by destruct (find w (String a p'))|].
  injection E as _ <-. injection E2 as <- _. apply (bool_decide_unpack _). vm_compute. exact I.
Qed.

Lemma marker_positions u body v :
  unmarked u -> find body AX_MARKER_END = None ->
  let e := u +:+ (AX_MARKER_START +:+ body +:+ AX_MARKER_END) +:+ v in
  find e AX_MARKER_START = Some (String.length u)
  /\ find e AX_MARKER_END
     = Some (String.length u + (String.length AX_MARKER_START + String.length body)).
Proof.
  intros [Hs He] Hb e. unfold e. rewrite !string_cat_assoc. split.
  - rewrite find_seam by (apply start_seam || done).
    change (find (AX_MARKER_START +:+ ?w) AX_MARKER_START) with (find (AX_MARKER_START +:+ w) AX_MARKER_START).
    unfold AX_MARKER_START. rewrite find_here. cbn [fmap option_fmap option_map]. by rewrite Nat.add_0_r.
  - rewrite find_seam by (apply end_start_seam || done). rewrite find_end_after_start.
    rewrite find_seam by (apply end_seam || done).
    unfold AX_MARKER_END. rewrite find_here. cbn [fmap option_fmap option_map]. by rewrite Nat.add_0_r.
Qed.

(** Splicing replaces the section and keeps the text around it. *)
Lemma splice_marked u body v section :
  unmarked u -> find body AX_MARKER_END = None ->
  splice_managed_section (u +:+ (AX_MARKER_START +:+ body +:+ AX_MARKER_END) +:+ v) section
  = u +:+ section +:+ v.
Proof.
  intros Hu Hb. destruct (marker_positions u body v Hu Hb) as [Es Ee].
  unfold splice_managed_section. rewrite Es, Ee, take_bytes_cat.
  do 2 f_equal. rewrite !string_cat_assoc.
  rewrite <-!(string_cat_assoc u), <-!string_cat_assoc. apply drop_bytes_at.
  rewrite !string_length_cat. lia.
Qed.

Lemma stripped_marked u body v :
  unmarked u -> find body AX_MARKER_END = None ->
  stripped (u +:+ (AX_MARKER_START +:+ body +:+ AX_MARKER_END) +:+ v)
  = let before := trim_end_nl u in
    let after := trim_start_nl v in
    Some (if is_empty before && is_empty after then None
          else Some (before
                     +:+ (if is_empty after then ""
                          else (if is_empty before then "" else newline +:+ newline) +:+ after)
                     +:+ newline)).
Proof.
  intros Hu Hb. destruct (marker_positions u body v Hu Hb) as [Es Ee].
  unfold stripped. rewrite Es, Ee. cbn [mbind option_bind]. rewrite take_bytes_cat.
  assert (drop_bytes (String.length u + (String.length AX_MARKER_START + String.length body)
      + String.length AX_MARKER_END)
      (u +:+ (AX_MARKER_START +:+ body +:+ AX_MARKER_END) +:+ v) = v) as ->; [|done].
  rewrite <-!string_cat_assoc. apply drop_bytes_at. rewrite !string_length_cat. lia.
Qed.

Lemma unmarked_prefix u v : unmarked (u +:+ v) -> unmarked u.
Proof. intros [Hs He]. split; by apply (find_prefix _ _ u v). Qed.

Lemma unmarked_blank_end u : unmarked u -> unmarked (u +:+ newline +:+ newline).
Proof.
  intros [Hs He].
  split; (rewrite (find_seam _ newline) by (by vm_compute; reflexivity || done); by vm_compute).
Qed.

Lemma splice_unmarked e section :
  unmarked e ->
  splice_managed_section e section
  = (trim_end_nl e +:+ newline +:+ newline) +:+ section +:+ newline.
Proof.
  intros [Hs _]. unfold splice_managed_section. rewrite Hs. by rewrite !string_cat_assoc.
Qed.

Lemma unmarked_trimmed e : unmarked e -> unmarked (trim_end_nl e).
Proof. intros He. destruct (trim_end_nl_prefix e) as [v E]. rewrite E in He. by apply unmarked_prefix in He. Qed.

(** ** Files *)

Section files.
Context {F : Type} `{!FileSystem F} `{!FileSystemOk F} `{!ArtifactFs F} `{!ArtifactFsOk F}.
Context `{!JsonCodec McpConfig} `{!JsonFileOk McpConfig}.

Lemma file_act_ok {Er} (wrap : IoError -> Er) (op : F -> result IoError F) fs fs' :
  file_act wrap op fs = (Ok tt, fs') -> op fs = Ok fs'.
Proof. unfold file_act. destruct (op fs); by intros [= ->]. Qed.

Lemma removed_file {Er} (wrap : IoError -> Er) path (fs fs' : F) :
  remove_if_present wrap (fun fs => fs_remove_file fs path) fs = (Ok tt, fs') ->
  fs_read fs' path = Err IoNotFound /\ fs_read_to_string fs' path = Err IoNotFound.
Proof.
  unfold remove_if_present. destruct (fs_remove_file fs path) as [fs1|[|msg]] eqn:E; intros [= <-].
  - by apply fs_read_removed in E.
  - by apply fs_remove_missing in E.
Qed.

(** The text of an instruction file, empty when there is none. *)
Definition text_at (fs : F) (path : string) : string :=
  match fs_read_to_string fs path with Ok e => e | Err _ => "" end.
(** The file with a section put into it. *)
Definition with_section (fs : F) (path section : string) : string :=
  match fs_read_to_string fs path with
  | Ok e => splice_managed_section e section
  | Err _ => section +:+ newline
  end.

Lemma write_section_ok path section (fs fs' : F) :
  write_section path section fs = (Ok tt, fs') ->
  fs_read_to_string fs' path = Ok (with_section fs path section).
Proof.
  unfold write_section, with_section.
  destruct (fs_read_to_string fs path) as [e|[|msg]]; [| |done];
    intros E%file_act_ok; by apply fs_read_to_string_write in E.
Qed.

(** The user's part of a file that has the section in it. *)
Lemma with_section_marked (fs : F) path s :
  unmarked (text_at fs path) -> is_section s ->
  exists u v, with_section fs path s = u +:+ s +:+ v /\ unmarked u
    /\ trim_end_nl u = trim_end_nl (text_at fs path) /\ trim_start_nl v = ""
    /\ forall s', with_section fs path s' = u +:+ s' +:+ v.
Proof.
  unfold text_at, with_section. destruct (fs_read_to_string fs path) as [e|err]; intros Hu _.
  - exists (trim_end_nl e +:+ newline +:+ newline), newline. split_and!.
    + by apply splice_unmarked.
    + by apply unmarked_blank_end, unmarked_trimmed.
    + apply trim_end_nl_cat. by repeat constructor.
    + done.
    + intros s'. by apply splice_unmarked.
  - exists "", newline. split_and!; by try done.
Qed.

(** C39: An instruction file that holds neither marker, or is not there, keeps the user's
    text: writing a managed section and then another one leaves the file with the second
    alone, as if it had been written first; and stripping the section gives back the
    user's text with exactly one newline at its end, or removes a file that held nothing
    but newlines.  Of a text with markers of its own nothing is said: a stray start marker
    loses what follows it, and reversed markers make the file grow
    ([stray_start_marker_loses_text], [reversed_markers_grow]). *)
Theorem instructions_round_trip path s1 s2 (fs fs1 : F) :
  unmarked (text_at fs path) -> is_section s1 -> is_section s2 ->
  write_section path s1 fs = (Ok tt, fs1) ->
  (forall fs2, write_section path s2 fs1 = (Ok tt, fs2) ->
     fs_read_to_string fs2 path = Ok (with_section fs path s2))
  /\ (forall fs2, strip_managed_section path fs1 = (Ok tt, fs2) ->
     let user := trim_end_nl (text_at fs path) in
     fs_read_to_string fs2 path
     = if is_empty user then Err IoNotFound else Ok (user +:+ newline)).
Proof.
  intros Hu Hs1 Hs2 Hw. apply write_section_ok in Hw.
  destruct (with_section_marked fs path s1 Hu Hs1) as (u & v & E & Huu & Eu & Ev & Hany).
  destruct Hs1 as (body & -> & Hb). rewrite E in Hw. split; intros fs2 H2.
  - apply write_section_ok in H2. rewrite H2. unfold with_section at 1. rewrite Hw.
    rewrite splice_marked by done. by rewrite Hany.
  - unfold strip_managed_section in H2. rewrite Hw, stripped_marked in H2 by done.
    cbv zeta in H2 |- *. rewrite Eu, Ev in H2. destruct (is_empty (trim_end_nl (text_at fs path))).
    + by apply removed_file in H2 as [_ ?].
    + apply file_act_ok, fs_read_to_string_write in H2. by rewrite H2.
Qed.

(** ** Servers *)

(** The servers of [.mcp.json]: none when it is missing or not readable as a table. *)
Definition servers_of (fs : F) (dir : string) : gmap string McpServerEntry :=
  match fs_read fs (join dir MCP_CONFIG_FILE) with
  | Ok text => match from_slice text with Some cfg => mcp_servers cfg | None => ∅ end
  | Err _ => ∅
  end.

Lemma write_json_ok path cfg (fs fs' : F) :
  write_json path cfg fs = (Ok tt, fs') ->
  exists text, fs_read fs' path = Ok text /\ from_slice text = Some cfg.
Proof.
  unfold write_json. destruct (to_vec cfg) as [body|] eqn:E; [|done].
  intros Hw%file_act_ok. apply fs_read_write in Hw. exists (body +:+ newline).
  split; [done|]. by apply from_slice_file.
Qed.

(** The MCP servers of the user survive.  Writing sets the [ax] entry and keeps every
    other server; removing it again leaves exactly the user's servers, and no file when
    there were none. *)
Theorem mcp_servers_survive dir workspace socket_path config_path ax_bin (fs fs1 : F) :
  write_mcp_config dir workspace socket_path config_path ax_bin fs = (Ok tt, fs1) ->
  servers_of fs1 dir
  = <[AX_SERVER_KEY := mkMcpServerEntry ax_bin (mcp_server_args workspace socket_path config_path)]>
      (servers_of fs dir)
  /\ (forall fs2, remove_mcp_config dir fs1 = (Ok tt, fs2) ->
     servers_of fs2 dir = delete AX_SERVER_KEY (servers_of fs dir)
     /\ (servers_of fs2 dir = ∅ -> fs_read fs2 (join dir MCP_CONFIG_FILE) = Err IoNotFound)).
Proof.
  intros Hw. set (entry := mkMcpServerEntry _ _).
  assert (exists text, fs_read fs1 (join dir MCP_CONFIG_FILE) = Ok text
    /\ from_slice text = Some (mkMcpConfig (<[AX_SERVER_KEY := entry]> (servers_of fs dir))))
    as (text & Hr & Hp).
  { revert Hw. unfold write_mcp_config, servers_of. cbv zeta. fold entry.
    destruct (fs_read fs _) as [bytes|[|msg]]; [| |done]; intros (text & ? & ?)%write_json_ok;
      exists text; split; try done.
    by destruct (from_slice bytes). }
  split; [unfold servers_of at 1; by rewrite Hr, Hp|]. intros fs2 H2.
  unfold remove_mcp_config in H2. cbv zeta in H2. rewrite Hr, Hp in H2. cbn [mcp_servers] in H2.
  rewrite delete_insert_eq in H2. case_decide as Hd.
  - apply removed_file in H2 as [H2 _]. unfold servers_of at 1 3. rewrite H2. by rewrite Hd.
  - apply write_json_ok in H2 as (text2 & Hr2 & Hp2). unfold servers_of at 1 3. rewrite Hr2, Hp2. done.
Qed.
End files.
