(* ===== verification/ConfigTree.v ===== *)
(** * Loading a tree of projects (crates/ax-config/src/tree.rs and validate.rs).

    [load] flattens the workspaces of a project and of its children into one config,
    [load_tree] keeps the hierarchy, and both run [validate_tree] first.  The three
    traversals recurse into the config files of the children; [Run] is their monad:
    the state ([seen], and the claims of the validation) survives an error, and running
    out of fuel ([None]) is not a result of the code. *)

From stdpp Require Import prelude strings list gmap fin_maps.
From S2P Require Import Prelude RustStr Proto.
From S2P Require Import Paths ConfigSchema.

(** ** Claims and errors of validate.rs *)

Record ChildPrefixClaim := mkChildPrefixClaim {
  cpc_config_path : string;
  cpc_child_name : string;
  cpc_child_dir : string;
  cpc_prefix : string;
}.
Record WorkspaceClaim := mkWorkspaceClaim {
  wc_config_path : string;
  wc_name : string;
  wc_merged_name : string;
}.
Record OrchestratorClaim := mkOrchestratorClaim {
  oc_config_path : string;
  oc_child_name : string;
  oc_child_dir : string;
  oc_prefix : string;
  oc_session_name : string;
}.

Record ValidationState := mkValidationState {
  child_prefixes : gmap string ChildPrefixClaim;
  vs_workspaces : gmap string WorkspaceClaim;
  orchestrators : gmap string OrchestratorClaim;
  max_depth : Z;
  max_children : Z;
}.
#[export] Instance ValidationState_eta : Updatable ValidationState := fun s =>
  mkValidationState (child_prefixes s) (vs_workspaces s) (orchestrators s)
    (max_depth s) (max_children s).

Inductive ValidationError :=
| DuplicateChildPrefix
    (prefix first_name first_path first_dir second_name second_path second_dir : string)
| ReservedNameForWorkspace (merged name path existing : string)
| ReservedNameForChild (session child_name path child_dir prefix ws_name ws_path : string)
| OrchestratorDepthExceeded (depth cap : Z) (path : string)
| ChildrenPerNodeExceeded (count cap : Z) (path : string).

Inductive TreeError :=
| TreeLoad (e : LoadError)
| Cycle (path : string)
| ChildError (name dir : string) (source : TreeError)
| Validation (e : ValidationError).

(** ** The tree *)

Record WorkspaceRef := mkWorkspaceRef {
  wr_name : string;
  wr_merged_name : string;
  wr_runtime : string;
  wr_description : string;
  wr_instructions : string;
}.

Inductive ProjectNode := mkProjectNode {
  pn_name : string;
  pn_alias : string;
  pn_prefix : string;
  pn_dir : string;
  pn_orchestrator_runtime : string;
  pn_disable_root_orchestrator : bool;
  pn_workspaces : list WorkspaceRef;
  pn_children : list ProjectNode;
}.
#[export] Instance ProjectNode_eta : Updatable ProjectNode := fun n =>
  mkProjectNode (pn_name n) (pn_alias n) (pn_prefix n) (pn_dir n)
    (pn_orchestrator_runtime n) (pn_disable_root_orchestrator n) (pn_workspaces n)
    (pn_children n).

Definition display_name (n : ProjectNode) : string :=
  if is_empty (pn_alias n) || String.eqb (pn_alias n) (pn_name n) then pn_name n
  else pn_alias n +:+ " (" +:+ pn_name n +:+ ")".

(** ** The state of the traversals *)

(** The paths on the stack of the recursion, compared by components. *)
Definition Seen : Type := gset (list string).

Definition enter (abs : string) : Run TreeError Seen unit := fun seen =>
  if decide (components abs ∈ seen) then Some (Err (Cycle abs), seen)
  else Some (Ok tt, {[components abs]} ∪ seen).
Definition leave (abs : string) : Run TreeError Seen unit := fun seen =>
  Some (Ok tt, seen ∖ {[components abs]}).

(** ** Helpers *)

Definition qualify_name (prefix name : string) : string :=
  if is_empty prefix then name else prefix +:+ "." +:+ name.

Definition orchestrator_session_name (prefix : string) : string :=
  if is_empty prefix then "orchestrator" else prefix +:+ ".orchestrator".

Definition is_missing_file (e : TreeError) : bool :=
  match e with TreeLoad (LoadRead _ IoNotFound) => true | _ => false end.

Definition u32_wrap (z : Z) : Z := z `mod` 2 ^ 32.

(** [if contains_key { continue } insert]. *)
Definition insert_absent {V} (m : gmap string V) (kv : string * V) : gmap string V :=
  match m !! kv.1 with Some _ => m | None => <[kv.1 := kv.2]> m end.

Definition merge_child (cfg : Config) (prefix : string) (child_cfg : Config) : Config :=
  let cfg := cfg <| agent_providers :=
    foldl insert_absent (agent_providers cfg) (btree_to_list (agent_providers child_cfg)) |> in
  cfg <| workspaces :=
    foldl insert_absent (workspaces cfg)
      ((fun kv => (qualify_name prefix kv.1, kv.2)) <$> btree_to_list (workspaces child_cfg)) |>.

Section tree.
Context {F : Type} `{!FileSystem F} `{!YamlCodec Config} `{!YamlCodec ManagedOverlay}.
Context `{!TextOps}.
Context (env : Env) (fs : F).

Definition resolve_dir (base value : string) : string :=
  let value := if is_empty value then "." else value in
  match strip_prefix value "~/", home env with
  | Some rest, Some h => join h rest
  | _, _ => if is_absolute value then value else join base value
  end.

Definition absolutize (path : string) : result TreeError string :=
  if is_absolute path then Ok path
  else d ← map_err (fun e => TreeLoad (LoadRead path e)) (cwd env); Ok (join d path).

Definition initialize_local (cfg : Config) (path : string) : Config :=
  if is_empty (project cfg)
  then cfg <| project := default "" (file_name (from_config_path path)) |> else cfg.

Definition normalize_workspace (project_dir effort provider : string) (ws : Workspace)
  : Workspace :=
  let ws := ws <| w_dir := resolve_dir project_dir (w_dir ws) |> in
  let ws := if is_empty (trim (w_agent_provider ws))
            then ws <| w_agent_provider := provider |> else ws in
  if is_empty (trim (w_codex_model_reasoning_effort ws))
  then ws <| w_codex_model_reasoning_effort := effort |> else ws.

Definition normalize_child (project_dir name : string) (child : Child) : Child :=
  let child := child <| ch_dir := resolve_dir project_dir (ch_dir child) |> in
  if is_empty (ch_prefix child) then child <| ch_prefix := name |> else child.

Definition normalize_local (cfg : Config) (path : string) : Config :=
  let project_dir := from_config_path path in
  let effort := trim (codex_model_reasoning_effort cfg) in
  let provider := trim (default_agent_provider cfg) in
  cfg <| workspaces := normalize_workspace project_dir effort provider <$> workspaces cfg |>
      <| children := map_imap (fun name c => Some (normalize_child project_dir name c))
                       (children cfg) |>.

Definition load_local_config (abs : string) : result LoadError Config :=
  cfg ← read_local fs abs;
  let cfg := initialize_local cfg abs in
  cfg ← (if experimental_mcp_team_reconfigure cfg
         then overlay ← load_for env fs abs; Ok (apply_to overlay cfg)
         else Ok cfg);
  Ok (normalize_local cfg abs).

(** ** [load_recursive] *)

Section load_children.
Context (rec : string -> Run TreeError Seen Config).

Fixpoint load_children (names : list string) (cfg : Config) : Run TreeError Seen Config :=
  match names with
  | [] => mret cfg
  | name :: names =>
      let child := default default_child (children cfg !! name) in
      match config_path_in_dir (fs_is_file fs) (ch_dir child) with
      | None => load_children names cfg
      | Some child_path =>
          r ← attempt (rec child_path);
          match r with
          | Ok child_cfg => load_children names (merge_child cfg (ch_prefix child) child_cfg)
          | Err e => if is_missing_file e then load_children names cfg
                     else throw (ChildError name (ch_dir child) e)
          end
      end
  end.
End load_children.

Fixpoint load_recursive (fuel : nat) (path : string) : Run TreeError Seen Config :=
  match fuel with
  | O => fun _ => None
  | S fuel =>
      abs ← lift (absolutize path);
      _ ← enter abs;
      cfg ← lift (map_err TreeLoad (load_local_config abs));
      cfg ← load_children (load_recursive fuel) (btree_keys (children cfg)) cfg;
      _ ← leave abs;
      mret cfg
  end.

(** ** [load_tree_recursive] *)

Definition workspace_ref (prefix : string) (nw : string * Workspace) : WorkspaceRef :=
  let '(name, ws) := nw in
  mkWorkspaceRef name (qualify_name prefix name) (w_runtime ws) (w_description ws)
    (w_instructions ws).

Definition project_node (abs prefix : string) (cfg : Config) : ProjectNode :=
  mkProjectNode (project cfg) "" prefix (from_config_path abs) (orchestrator_runtime cfg)
    (is_empty prefix && disable_root_orchestrator cfg)
    (workspace_ref prefix <$> btree_to_list (workspaces cfg)) [].

Section load_tree_children.
Context (rec : string -> string -> Run TreeError Seen ProjectNode) (cfg : Config) (prefix : string).

Fixpoint load_tree_children (names : list string) (node : ProjectNode)
  : Run TreeError Seen ProjectNode :=
  match names with
  | [] => mret node
  | name :: names =>
      let child := default default_child (children cfg !! name) in
      let child_prefix := qualify_name prefix (ch_prefix child) in
      match config_path_in_dir (fs_is_file fs) (ch_dir child) with
      | None => load_tree_children names node
      | Some child_path =>
          r ← attempt (rec child_path child_prefix);
          match r with
          | Ok child_node =>
              let child_node := child_node <| pn_alias := name |> in
              load_tree_children names
                (node <| pn_children := pn_children node ++ [child_node] |>)
          | Err e => if is_missing_file e then load_tree_children names node
                     else throw (ChildError name (ch_dir child) e)
          end
      end
  end.
End load_tree_children.

Fixpoint load_tree_recursive (fuel : nat) (path prefix : string) : Run TreeError Seen ProjectNode :=
  match fuel with
  | O => fun _ => None
  | S fuel =>
      abs ← lift (absolutize path);
      _ ← enter abs;
      cfg ← lift (map_err TreeLoad (load_local_config abs));
      node ← load_tree_children (load_tree_recursive fuel) cfg prefix
               (btree_keys (children cfg)) (project_node abs prefix cfg);
      _ ← leave abs;
      mret node
  end.

(** ** validate.rs *)

(** Its own copy of [load_local_config]. *)
Definition load_validated_config (abs : string) : result LoadError Config :=
  cfg ← read_local fs abs;
  let cfg := if is_empty (project cfg)
             then cfg <| project := default "" (file_name (from_config_path abs)) |>
             else cfg in
  cfg ← (if experimental_mcp_team_reconfigure cfg
         then overlay ← load_for env fs abs; Ok (apply_to overlay cfg)
         else Ok cfg);
  let project_dir := from_config_path abs in
  let fallback_effort := trim (codex_model_reasoning_effort cfg) in
  let fallback_provider := trim (default_agent_provider cfg) in
  Ok (cfg <| workspaces :=
               normalize_workspace project_dir fallback_effort fallback_provider
                 <$> workspaces cfg |>
          <| children := map_imap (fun name c => Some (normalize_child project_dir name c))
                           (children cfg) |>).

Definition describe_orchestrator (claim : OrchestratorClaim) : string :=
  if is_empty (oc_child_name claim)
  then "the root orchestrator in " +:+ oc_config_path claim
  else "child " +:+ debug_str (oc_child_name claim) +:+ " in " +:+ oc_config_path claim
       +:+ " -> " +:+ oc_child_dir claim +:+ " (prefix " +:+ debug_str (oc_prefix claim)
       +:+ ", orchestrator " +:+ debug_str (oc_session_name claim) +:+ ")".

Definition on_seen {A} (m : Run TreeError Seen A) : Run TreeError (Seen * ValidationState) A := fun s =>
  match m s.1 with
  | Some (r, seen) => Some (r, (seen, s.2))
  | None => None
  end.
Definition get_claims : Run TreeError (Seen * ValidationState) ValidationState := fun s =>
  Some (Ok s.2, s).
Definition modify_claims (f : ValidationState -> ValidationState)
  : Run TreeError (Seen * ValidationState) unit := fun s => Some (Ok tt, (s.1, f s.2)).
Definition refuse {A} (e : ValidationError) : Run TreeError (Seen * ValidationState) A :=
  throw (Validation e).

Fixpoint claim_workspaces (abs prefix : string) (names : list string)
  : Run TreeError (Seen * ValidationState) unit :=
  match names with
  | [] => mret tt
  | name :: names =>
      let merged := qualify_name prefix name in
      state ← get_claims;
      match orchestrators state !! merged with
      | Some existing =>
          refuse (ReservedNameForWorkspace merged name abs (describe_orchestrator existing))
      | None =>
          _ ← modify_claims (fun state => state <| vs_workspaces :=
                insert_absent (vs_workspaces state)
                  (merged, mkWorkspaceClaim abs name merged) |>);
          claim_workspaces abs prefix names
      end
  end.

Section validate_children.
Context (rec : string -> string -> Run TreeError (Seen * ValidationState) unit).
Context (abs prefix project_dir : string) (cfg : Config).

Fixpoint validate_children (names : list string) : Run TreeError (Seen * ValidationState) unit :=
  match names with
  | [] => mret tt
  | name :: names =>
      let child := default default_child (children cfg !! name) in
      let child_dir := resolve_dir project_dir (ch_dir child) in
      let child_prefix := if is_empty (ch_prefix child) then name else ch_prefix child in
      match config_path_in_dir (fs_is_file fs) child_dir with
      | None => validate_children names
      | Some child_cfg_path =>
          let claim_prefix := qualify_name prefix child_prefix in
          let session := orchestrator_session_name claim_prefix in
          state ← get_claims;
          match child_prefixes state !! claim_prefix with
          | Some existing =>
              refuse (DuplicateChildPrefix claim_prefix (cpc_child_name existing)
                        (cpc_config_path existing) (cpc_child_dir existing)
                        name abs child_dir)
          | None =>
              match vs_workspaces state !! session with
              | Some existing =>
                  refuse (ReservedNameForChild session name abs child_dir claim_prefix
                            (wc_name existing) (wc_config_path existing))
              | None =>
                  _ ← modify_claims (fun state =>
                        state
                          <| child_prefixes := <[claim_prefix :=
                               mkChildPrefixClaim abs name child_dir claim_prefix]>
                                 (child_prefixes state) |>
                          <| orchestrators := <[session :=
                               mkOrchestratorClaim abs name child_dir claim_prefix session]>
                                 (orchestrators state) |>);
                  r ← attempt (rec child_cfg_path claim_prefix);
                  match r with
                  | Ok _ => validate_children names
                  | Err e =>
                      if is_missing_file e
                      then _ ← modify_claims (fun state =>
                                 state
                                   <| child_prefixes :=
                                        delete claim_prefix (child_prefixes state) |>
                                   <| orchestrators :=
                                        delete session (orchestrators state) |>);
                           validate_children names
                      else throw (ChildError name child_dir e)
                  end
              end
          end
      end
  end.
End validate_children.

Fixpoint validate_recursive (fuel : nat) (path prefix : string) (depth : Z)
  : Run TreeError (Seen * ValidationState) unit :=
  match fuel with
  | O => fun _ => None
  | S fuel =>
      abs ← lift (absolutize path);
      _ ← on_seen (enter abs);
      state ← get_claims;
      if negb (max_depth state =? 0)%Z && (depth >? max_depth state)%Z
      then refuse (OrchestratorDepthExceeded depth (max_depth state) abs)
      else
      cfg ← lift (map_err TreeLoad (load_validated_config abs));
      let count := u32_wrap (Z.of_nat (size (children cfg))) in
      if negb (max_children state =? 0)%Z && (count >? max_children state)%Z
      then refuse (ChildrenPerNodeExceeded count (max_children state) abs)
      else
      _ ← claim_workspaces abs prefix (btree_keys (workspaces cfg));
      _ ← validate_children
            (fun child_path claim_prefix =>
               validate_recursive fuel child_path claim_prefix (u32_wrap (depth + 1)))
            abs prefix (from_config_path abs) cfg (btree_keys (children cfg));
      on_seen (leave abs)
  end.

Definition initial_claims (abs : string) (root_cfg : Config) : ValidationState :=
  mkValidationState ∅ ∅
    (if disable_root_orchestrator root_cfg then ∅
     else {[ orchestrator_session_name "" :=
               mkOrchestratorClaim abs "" "" "" (orchestrator_session_name "") ]})
    (max_orchestrator_depth root_cfg) (max_children_per_node root_cfg).

(** [None] is only a lack of fuel. *)
Definition outcome {S A} (r : option (result TreeError A * S)) : option (result TreeError A) :=
  fst <$> r.

Definition validate_tree (fuel : nat) (path : string) : option (result TreeError unit) :=
  match (abs ← absolutize path;
         root_cfg ← map_err TreeLoad (load_validated_config abs);
         Ok (abs, root_cfg)) with
  | Err e => Some (Err e)
  | Ok (abs, root_cfg) =>
      outcome (validate_recursive fuel abs "" 0 (∅, initial_claims abs root_cfg))
  end.

(** [Config::load] and [Config::load_tree]. *)
Definition load (fuel : nat) (path : string) : option (result TreeError Config) :=
  match validate_tree fuel path with
  | Some (Ok _) => outcome (load_recursive fuel path ∅)
  | Some (Err e) => Some (Err e)
  | None => None
  end.

Definition load_tree (fuel : nat) (path : string) : option (result TreeError ProjectNode) :=
  match validate_tree fuel path with
  | Some (Ok _) => outcome (load_tree_recursive fuel path "" ∅)
  | Some (Err e) => Some (Err e)
  | None => None
  end.

(** Enough fuel for the depth cap of the root config. *)
Definition load_fuel (config_path : string) : nat :=
  match absolutize config_path with
  | Err _ => 2
  | Ok abs =>
      match load_local_config abs with
      | Ok cfg => Z.to_nat (max_orchestrator_depth cfg) + 2
      | Err _ => 2
      end
  end.
End tree.
