(* ===== verification/ConfigFacts.v ===== *)
(** * What the loaded configuration guarantees.

    The flat view and the tree view of a project agree; a project that passes the
    validation gives every session a name of its own; the traversals end. *)

From S2P Require Import Concrete.
From stdpp Require Import prelude strings list gmap fin_maps.
From S2P Require Import Prelude RustStr Proto.
From S2P Require Import Paths ConfigSchema ConfigTree.

(** The merged names of all workspaces of a tree, and the prefixes of all its projects
    below the root. *)
Fixpoint node_workspaces (n : ProjectNode) : list string :=
  match n with
  | mkProjectNode _ _ _ _ _ _ ws cs => (wr_merged_name <$> ws) ++ flat_map node_workspaces cs
  end.
Fixpoint node_prefixes (n : ProjectNode) : list string :=
  match n with
  | mkProjectNode _ _ _ _ _ _ _ cs => flat_map (fun c => pn_prefix c :: node_prefixes c) cs
  end.

(** The sessions of the orchestrators of a tree. *)
Definition node_orchestrators (n : ProjectNode) : list string :=
  (if pn_disable_root_orchestrator n then [] else [orchestrator_session_name ""])
  ++ (orchestrator_session_name <$> node_prefixes n).

Lemma node_workspaces_unfold n :
  node_workspaces n = (wr_merged_name <$> pn_workspaces n) ++ flat_map node_workspaces (pn_children n).
Proof. by destruct n. Qed.
Lemma node_prefixes_unfold n :
  node_prefixes n = flat_map (fun c => pn_prefix c :: node_prefixes c) (pn_children n).
Proof. by destruct n. Qed.

Lemma node_workspaces_alias n a : node_workspaces (n <| pn_alias := a |>) = node_workspaces n.
Proof. by destruct n. Qed.
Lemma node_prefixes_alias n a : node_prefixes (n <| pn_alias := a |>) = node_prefixes n.
Proof. by destruct n. Qed.

Lemma node_workspaces_snoc n c :
  node_workspaces (n <| pn_children := pn_children n ++ [c] |>)
  = node_workspaces n ++ node_workspaces c.
Proof.
  rewrite !node_workspaces_unfold. fsimpl. rewrite flat_map_app. cbn.
  by rewrite app_nil_r, <-!app_assoc, <-node_workspaces_unfold.
Qed.
Lemma node_prefixes_snoc n c :
  node_prefixes (n <| pn_children := pn_children n ++ [c] |>)
  = node_prefixes n ++ pn_prefix c :: node_prefixes c.
Proof.
  rewrite (node_prefixes_unfold n), (node_prefixes_unfold (_ <| _ := _ |>)). fsimpl.
  rewrite flat_map_app. cbn [flat_map app]. by rewrite app_nil_r.
Qed.

(** ** Names *)

Lemma string_app_assoc (a b c : string) : (a +:+ b) +:+ c = a +:+ b +:+ c.
Proof. apply bytes_inj. by rewrite !bytes_app, app_assoc. Qed.

Lemma string_app_nonempty_l (a b : string) : a <> "" -> a +:+ b <> "".
Proof. by destruct a. Qed.

Lemma qualify_name_nonempty prefix p : p <> "" -> qualify_name prefix p <> "".
Proof.
  intros Hp. unfold qualify_name. destruct (is_empty prefix) eqn:E; [done|].
  apply is_empty_false in E. by apply string_app_nonempty_l.
Qed.

Lemma qualify_name_assoc prefix p n :
  p <> "" ->
  qualify_name prefix (qualify_name p n) = qualify_name (qualify_name prefix p) n.
Proof.
  intros Hp. unfold qualify_name at 1 3 4. destruct (is_empty prefix) eqn:E; [done|].
  unfold qualify_name. rewrite (proj2 (is_empty_false p) Hp).
  rewrite (proj2 (is_empty_false _)).
  - by rewrite !string_app_assoc.
  - apply is_empty_false in E. by apply string_app_nonempty_l.
Qed.

Lemma string_app_inj_r (a b c : string) : a +:+ c = b +:+ c -> a = b.
Proof.
  intros E%(f_equal bytes). rewrite !bytes_app in E. apply app_inv_tail in E.
  by apply bytes_inj.
Qed.

Lemma orchestrator_session_name_inj p q :
  p <> "" -> q <> "" ->
  orchestrator_session_name p = orchestrator_session_name q -> p = q.
Proof.
  intros Hp Hq. unfold orchestrator_session_name.
  rewrite (proj2 (is_empty_false p) Hp), (proj2 (is_empty_false q) Hq).
  apply string_app_inj_r.
Qed.

Lemma orchestrator_session_name_root p :
  p <> "" -> orchestrator_session_name p <> orchestrator_session_name "".
Proof.
  intros Hp. unfold orchestrator_session_name at 1.
  rewrite (proj2 (is_empty_false p) Hp). intros E%(f_equal (fun s => length (bytes s))).
  rewrite bytes_app, length_app in E. vm_compute (length (bytes ".orchestrator")) in E.
  vm_compute (length (bytes (orchestrator_session_name _))) in E. lia.
Qed.

(** ** Merging *)

Lemma foldl_insert_absent {V} (l : list (string * V)) m k :
  is_Some (foldl insert_absent m l !! k) <-> is_Some (m !! k) \/ k ∈ l.*1.
Proof.
  revert m. induction l as [|[n v] l IH]; intros m; cbn.
  - split; [by left|]. intros [?|?%not_elem_of_nil]; done.
  - rewrite IH, elem_of_cons. unfold insert_absent. cbn [fst snd].
    destruct (m !! n) eqn:E.
    + destruct (decide (k = n)) as [->|]; [|naive_solver].
      split; [naive_solver|]. intros _. left. by eexists.
    + destruct (decide (k = n)) as [->|]; [|rewrite lookup_insert_ne by done; naive_solver].
      rewrite lookup_insert_eq. split; [naive_solver|]. intros _. left. by eexists.
Qed.

Lemma foldl_insert_absent_keeps {V} (l : list (string * V)) m k v :
  m !! k = Some v -> foldl insert_absent m l !! k = Some v.
Proof.
  revert m. induction l as [|[n v'] l IH]; intros m Hk; cbn; [done|].
  apply IH. unfold insert_absent. cbn. destruct (m !! n) eqn:E; [done|].
  rewrite lookup_insert_ne; [done|]. intros ->. congruence.
Qed.

Lemma merge_child_workspaces cfg p c k :
  is_Some (workspaces (merge_child cfg p c) !! k)
  <-> is_Some (workspaces cfg !! k)
      \/ exists k', is_Some (workspaces c !! k') /\ k = qualify_name p k'.
Proof.
  unfold merge_child. fsimpl. rewrite foldl_insert_absent.
  rewrite <-list_fmap_compose. cbn.
  assert (k ∈ (fst ∘ (fun kv : string * Workspace => (qualify_name p kv.1, kv.2)))
                <$> btree_to_list (workspaces c)
          <-> exists k', is_Some (workspaces c !! k') /\ k = qualify_name p k') as ->; [|done].
  rewrite list_elem_of_fmap. split.
  - intros ([k' w] & -> & Hin). apply elem_of_btree_to_list in Hin. by exists k'.
  - intros (k' & [w Hw] & ->). exists (k', w). by rewrite elem_of_btree_to_list.
Qed.

Section facts.
Context {F : Type} `{!FileSystem F} `{!YamlCodec Config} `{!YamlCodec ManagedOverlay}.
Context `{!TextOps}.
Context (env : Env) (fs : F).

(** Every child of every config file has a prefix once normalised: no child is keyed by
    the empty name. *)
Definition named_children : Prop :=
  forall abs cfg name child,
  load_local_config env fs abs = Ok cfg -> children cfg !! name = Some child ->
  ch_prefix child <> "".

(** No file declares 2^32 children. *)
Definition countable_children : Prop :=
  forall abs cfg, load_local_config env fs abs = Ok cfg ->
  (Z.of_nat (size (children cfg)) < 2 ^ 32)%Z.

(** ** The flat view and the tree view *)

(** The names of the tree are the keys of the flat map under the prefix. *)
Definition same_names (prefix : string) (cfg : Config) (node : ProjectNode) : Prop :=
  forall n, n ∈ node_workspaces node
  <-> exists k, is_Some (workspaces cfg !! k) /\ n = qualify_name prefix k.

Definition agrees (prefix : string) (r1 : option (result TreeError Config * Seen))
    (r2 : option (result TreeError ProjectNode * Seen)) : Prop :=
  match r1, r2 with
  | None, None => True
  | Some (Err e, s), Some (Err e', s') => e = e' /\ s = s'
  | Some (Ok cfg, s), Some (Ok node, s') =>
      s = s' /\ pn_prefix node = prefix /\ same_names prefix cfg node
  | _, _ => False
  end.

Lemma same_names_merge prefix cfg node p c child alias :
  p <> "" ->
  same_names prefix cfg node ->
  same_names (qualify_name prefix p) c child ->
  same_names prefix (merge_child cfg p c)
    (node <| pn_children := pn_children node ++ [child <| pn_alias := alias |>] |>).
Proof.
  unfold same_names. intros Hp H1 H2 n. rewrite node_workspaces_snoc, node_workspaces_alias, elem_of_app, H1, H2.
  split.
  - intros [(k & Hk & ->)|(k & Hk & ->)].
    + exists k. split; [|done]. apply merge_child_workspaces. by left.
    + exists (qualify_name p k). split; [|by rewrite qualify_name_assoc].
      apply merge_child_workspaces. right. by exists k.
  - intros (k & [Hk|(k' & Hk & ->)]%merge_child_workspaces & ->).
    + left. by exists k.
    + right. exists k'. by rewrite qualify_name_assoc.
Qed.

Lemma project_node_names abs prefix cfg :
  same_names prefix cfg (project_node abs prefix cfg).
Proof.
  intros n. unfold project_node, node_workspaces. cbn [flat_map]. rewrite app_nil_r.
  rewrite <-list_fmap_compose, list_elem_of_fmap. split.
  - intros ([k w] & -> & Hin%elem_of_btree_to_list). exists k. by split.
  - intros (k & [w Hw] & ->). exists (k, w). by rewrite elem_of_btree_to_list.
Qed.

Lemma children_agree rec1 rec2 cfg0 prefix names cfg node seen :
  (forall name child, children cfg0 !! name = Some child -> ch_prefix child <> "") ->
  (forall path prefix s, agrees prefix (rec1 path s) (rec2 path prefix s)) ->
  (forall n, n ∈ names -> is_Some (children cfg0 !! n)) ->
  children cfg = children cfg0 -> pn_prefix node = prefix -> same_names prefix cfg node ->
  agrees prefix (load_children fs rec1 names cfg seen)
    (load_tree_children fs rec2 cfg0 prefix names node seen).
Proof.
  intros Hpre Hrec. revert cfg node seen.
  induction names as [|name names IH]; intros cfg node seen Hin Hc Hp Hs; [done|].
  cbn [load_children load_tree_children]. rewrite Hc.
  destruct (Hin name) as [child Hch]; [set_solver|]. rewrite Hch. cbn [from_option id].
  assert (forall n, n ∈ names -> is_Some (children cfg0 !! n)) as Hin' by set_solver.
  destruct (config_path_in_dir _ _) as [path|]; [|by apply IH].
  run_step. specialize (Hrec path (qualify_name prefix (ch_prefix child)) seen).
  destruct (rec1 path seen) as [[[c|e] s]|], (rec2 path _ seen) as [[[n|e'] s']|];
    try done; cbn in Hrec.
  - destruct Hrec as (<- & _ & Hn). apply IH; try done.
    by apply same_names_merge; [apply (Hpre name)| |].
  - destruct Hrec as [<- <-]. destruct (is_missing_file e); [by apply IH|done].
Qed.

Lemma load_agrees fuel path prefix seen :
  named_children ->
  agrees prefix (load_recursive env fs fuel path seen)
    (load_tree_recursive env fs fuel path prefix seen).
Proof.
  intros Hnamed. revert path prefix seen.
  induction fuel as [|fuel IH]; intros path prefix seen; [done|].
  cbn [load_recursive load_tree_recursive]. run_step.
  destruct (absolutize env path) as [abs|e]; [|done].
  destruct (enter abs seen) as [[[[]|e] seen1]|]; [|done..].
  destruct (load_local_config env fs abs) as [cfg|e] eqn:El; [|done]. cbn [map_err].
  pose proof (children_agree (load_recursive env fs fuel) (load_tree_recursive env fs fuel)
    cfg prefix (btree_keys (children cfg)) cfg (project_node abs prefix cfg) seen1
    (fun name child => Hnamed abs cfg name child El) IH
    (fun n => proj1 (elem_of_btree_keys _ n)) eq_refl eq_refl
    (project_node_names abs prefix cfg)) as Hag.
  unfold agrees in Hag |- *. repeat case_match; simplify_eq/=; naive_solver.
Qed.

(** ** Directories *)

(** The home and working directories are absolute, as a login shell sets them. *)
Definition env_ok : Prop :=
  (forall h, home env = Some h -> is_absolute h = true)
  /\ (forall d, cwd env = Ok d -> is_absolute d = true).

Lemma resolve_dir_absolute base v :
  env_ok -> is_absolute base = true -> is_absolute (resolve_dir env base v) = true.
Proof.
  intros [Hh _] Hb. unfold resolve_dir. set (v' := if is_empty v then "." else v).
  destruct (strip_prefix v' "~/") as [rest|], (home env) as [h|] eqn:Eh;
    try (apply join_absolute; by apply Hh);
    (destruct (is_absolute v') eqn:Ev; [done|by apply join_absolute]).
Qed.

Lemma resolve_dir_id base v : is_absolute v = true -> resolve_dir env base v = v.
Proof.
  intros Ha. pose proof Ha as [l El]%is_absolute_spec.
  unfold resolve_dir. assert (is_empty v = false) as ->.
  { destruct v; [|done]. discriminate El. }
  assert (strip_prefix v "~/" = None) as ->; [|by rewrite Ha].
  destruct v as [|a v]; [discriminate El|].
  change (bytes (String a v)) with (a :: bytes v) in El.
  injection El as Ea _. subst a. reflexivity.
Qed.

Lemma absolutize_ok path abs :
  env_ok -> absolutize env path = Ok abs -> is_absolute abs = true.
Proof.
  intros [_ Hc]. unfold absolutize. destruct (is_absolute path) eqn:E; [by intros [= <-]|].
  destruct (cwd env) as [d|]; [|done]. cbn. intros [= <-]. apply join_absolute. by apply Hc.
Qed.

Lemma absolutize_id path : is_absolute path = true -> absolutize env path = Ok path.
Proof. unfold absolutize. by intros ->. Qed.

(** validate.rs keeps its own copy of the loader; the copies agree. *)
Lemma load_validated_config_eq abs :
  load_validated_config env fs abs = load_local_config env fs abs.
Proof. reflexivity. Qed.

Lemma local_child_dir abs cfg name child :
  env_ok -> is_absolute abs = true -> is_Some (parent abs) ->
  load_local_config env fs abs = Ok cfg -> children cfg !! name = Some child ->
  is_absolute (ch_dir child) = true.
Proof.
  intros Henv Ha Hp. unfold load_local_config.
  destruct (read_local fs abs) as [cfg0|]; [|done]. cbn [mbind result_bind].
  destruct (if experimental_mcp_team_reconfigure _ then _ else _) as [cfg1|]; [|done].
  cbn [mbind result_bind]. intros [= <-]. unfold normalize_local. fsimpl.
  rewrite map_lookup_imap. destruct (children cfg1 !! name) as [c|]; [|done]. cbn.
  intros [= <-]. unfold normalize_child.
  assert (is_absolute (resolve_dir env (from_config_path abs) (ch_dir c)) = true) as Hd.
  { apply resolve_dir_absolute; [done|]. by apply from_config_path_absolute. }
  by destruct (is_empty _).
Qed.

(** Conditions on the raw files that imply the two hypotheses on the loaded ones, for
    projects that do not use the managed overlay. *)
Lemma local_children_of_raw abs cfg :
  load_local_config env fs abs = Ok cfg ->
  exists raw, read_local fs abs = Ok raw
    /\ (experimental_mcp_team_reconfigure raw = false ->
        children cfg = map_imap (fun name c =>
          Some (normalize_child env (from_config_path abs) name c)) (children raw)).
Proof.
  unfold load_local_config. destruct (read_local fs abs) as [raw|]; [|done].
  cbn [mbind result_bind]. intros Hcfg. exists raw. split; [done|]. intros Hexp. revert Hcfg.
  assert (experimental_mcp_team_reconfigure (initialize_local raw abs) = false) as ->.
  { unfold initialize_local. by destruct (is_empty _). }
  cbn [mbind result_bind]. intros [= <-]. unfold normalize_local, initialize_local.
  destruct (is_empty _); by fsimpl.
Qed.

Lemma named_children_of_raw :
  (forall abs raw, read_local fs abs = Ok raw ->
     experimental_mcp_team_reconfigure raw = false
     /\ forall n, is_Some (children raw !! n) -> n <> "") ->
  named_children.
Proof.
  intros Hraw abs cfg name child (raw & Hr & Hc)%local_children_of_raw.
  destruct (Hraw _ _ Hr) as [Hexp Hne]. rewrite (Hc Hexp), map_lookup_imap.
  destruct (children raw !! name) as [c|] eqn:E; [|done]. cbn. intros [= <-].
  unfold normalize_child. destruct (is_empty _) eqn:Ee; fsimpl.
  - apply Hne. by rewrite E.
  - by apply is_empty_false in Ee.
Qed.

Lemma countable_children_of_raw :
  (forall abs raw, read_local fs abs = Ok raw ->
     experimental_mcp_team_reconfigure raw = false
     /\ (Z.of_nat (size (children raw)) < 2 ^ 32)%Z) ->
  countable_children.
Proof.
  intros Hraw abs cfg (raw & Hr & Hc)%local_children_of_raw.
  destruct (Hraw _ _ Hr) as [Hexp Hs]. rewrite (Hc Hexp).
  enough (size (map_imap (fun name c => Some (normalize_child env (from_config_path abs) name c))
            (children raw)) = size (children raw)) as -> by done.
  rewrite <-!size_dom. f_equal. apply dom_imap_L. intros i.
  rewrite elem_of_dom. unfold is_Some. naive_solver.
Qed.

(** ** The claims of the validation *)

Record claims_ok (st : ValidationState) : Prop := {
  co_disjoint s : is_Some (vs_workspaces st !! s) -> is_Some (orchestrators st !! s) -> False;
  co_claimed p : is_Some (child_prefixes st !! p) ->
    p <> "" /\ is_Some (orchestrators st !! orchestrator_session_name p);
  co_origin s : is_Some (orchestrators st !! s) ->
    s = orchestrator_session_name ""
    \/ exists p, is_Some (child_prefixes st !! p) /\ s = orchestrator_session_name p;
}.

(** [st'] claims, on top of [st], the workspaces [ws] and the fresh prefixes [ps]. *)
Record claims_grow (st st' : ValidationState) (ws ps : list string) : Prop := {
  cg_workspaces s :
    is_Some (vs_workspaces st' !! s) <-> is_Some (vs_workspaces st !! s) \/ s ∈ ws;
  cg_prefixes p :
    is_Some (child_prefixes st' !! p) <-> is_Some (child_prefixes st !! p) \/ p ∈ ps;
  cg_orchestrators s :
    is_Some (orchestrators st' !! s)
    <-> is_Some (orchestrators st !! s) \/ s ∈ orchestrator_session_name <$> ps;
  cg_caps : max_depth st' = max_depth st /\ max_children st' = max_children st;
  cg_nodup : NoDup ps;
  cg_fresh p : p ∈ ps -> ~ is_Some (child_prefixes st !! p);
}.

Lemma claims_grow_refl st : claims_grow st st [] [].
Proof. split; try set_solver. constructor. Qed.

Lemma claims_grow_trans st1 st2 st3 ws1 ws2 ps1 ps2 :
  claims_grow st1 st2 ws1 ps1 -> claims_grow st2 st3 ws2 ps2 ->
  claims_grow st1 st3 (ws1 ++ ws2) (ps1 ++ ps2).
Proof.
  intros [Hw Hp Ho [] Hn Hf] [Hw' Hp' Ho' [] Hn' Hf']. split.
  - intros s. rewrite Hw', Hw. set_solver.
  - intros s. rewrite Hp', Hp. set_solver.
  - intros s. rewrite Ho', Ho, fmap_app. set_solver.
  - split; congruence.
  - apply NoDup_app. split_and!; [done| |done]. intros p Hin1 Hin2.
    apply (Hf' p Hin2), Hp. by right.
  - intros p [Hin|Hin]%elem_of_app; [by apply Hf|].
    intros Hs. apply (Hf' p Hin), Hp. by left.
Qed.

Lemma claim_workspaces_spec abs prefix names seen st r s' :
  claims_ok st ->
  claim_workspaces abs prefix names (seen, st) = Some (r, s') ->
  match r with
  | Ok _ => s'.1 = seen /\ claims_ok s'.2
            /\ claims_grow st s'.2 (qualify_name prefix <$> names) []
  | Err e => is_missing_file e = false
  end.
Proof.
  revert st. induction names as [|name names IH]; intros st Hok.
  { intros [= <- <-]. split_and!; [done..|apply claims_grow_refl]. }
  cbn [claim_workspaces]. run_step. unfold get_claims, modify_claims, refuse. cbv beta iota.
  cbn [snd fst]. destruct (orchestrators st !! _) as [c|] eqn:Eo; [by intros [= <- <-]|].
  set (st1 := st <| vs_workspaces :=
    insert_absent (vs_workspaces st)
      (qualify_name prefix name, mkWorkspaceClaim abs name (qualify_name prefix name)) |>).
  assert (forall s, is_Some (vs_workspaces st1 !! s)
            <-> is_Some (vs_workspaces st !! s) \/ s ∈ [qualify_name prefix name]) as Hw.
  { intros s. unfold st1. fsimpl.
    apply (foldl_insert_absent [(qualify_name prefix name, _)]). }
  intros Hrun. assert (claims_ok st1) as Hok1.
  { split; unfold st1; fsimpl; [|apply Hok..]. fold st1. intros s [Hs|Hs]%Hw Ho.
    - by apply (co_disjoint _ Hok s).
    - apply list_elem_of_singleton in Hs as ->. rewrite Eo in Ho. by destruct Ho. }
  specialize (IH st1 Hok1 Hrun). destruct r as [u|e]; [|done].
  destruct IH as (H1 & H2 & Hg). split_and!; [done..|].
  apply (claims_grow_trans st st1 _ [qualify_name prefix name] _ [] []); [|done].
  split; unfold st1; fsimpl; try set_solver; try done; try constructor.
Qed.

(** The claim of one child, before its project is visited. *)
Definition claim_child (abs name dir p : string) (st : ValidationState) : ValidationState :=
  st <| child_prefixes := <[p := mkChildPrefixClaim abs name dir p]> (child_prefixes st) |>
     <| orchestrators := <[orchestrator_session_name p :=
          mkOrchestratorClaim abs name dir p (orchestrator_session_name p)]>
            (orchestrators st) |>.

Lemma fresh_session st p :
  claims_ok st -> p <> "" -> child_prefixes st !! p = None ->
  orchestrators st !! orchestrator_session_name p = None.
Proof.
  intros Hok Hp Hfresh. apply eq_None_not_Some. intros Hs.
  destruct (co_origin _ Hok _ Hs) as [E|(q & Hq & E)].
  - by apply orchestrator_session_name_root in E.
  - apply orchestrator_session_name_inj in E; [|done|by apply (co_claimed _ Hok)].
    subst q. rewrite Hfresh in Hq. by destruct Hq.
Qed.

Lemma claim_child_grows abs name dir p st :
  child_prefixes st !! p = None ->
  claims_grow st (claim_child abs name dir p st) [] [p].
Proof.
  intros Hfresh. unfold claim_child. split; fsimpl.
  - set_solver.
  - intros q. rewrite list_elem_of_singleton, lookup_insert_is_Some'. naive_solver.
  - intros s. cbn. rewrite list_elem_of_singleton, lookup_insert_is_Some'. naive_solver.
  - done.
  - apply NoDup_singleton.
  - intros q ->%list_elem_of_singleton. rewrite Hfresh. by intros [].
Qed.

Lemma claim_child_ok abs name dir p st :
  claims_ok st -> p <> "" -> vs_workspaces st !! orchestrator_session_name p = None ->
  claims_ok (claim_child abs name dir p st).
Proof.
  intros Hok Hp Hw. unfold claim_child. split; fsimpl.
  - intros s Hs [<-|Ho]%lookup_insert_is_Some'; [rewrite Hw in Hs; by destruct Hs|].
    by apply (co_disjoint _ Hok s).
  - intros q [<-|Hq]%lookup_insert_is_Some'.
    + split; [done|]. rewrite lookup_insert_eq. by eexists.
    + destruct (co_claimed _ Hok q Hq). split; [done|]. apply lookup_insert_is_Some'. by right.
  - intros s [<-|Hs]%lookup_insert_is_Some'.
    + right. exists p. split; [|done]. rewrite lookup_insert_eq. by eexists.
    + destruct (co_origin _ Hok s Hs) as [->|(q & Hq & ->)]; [by left|].
      right. exists q. split; [|done]. apply lookup_insert_is_Some'. by right.
Qed.

Lemma claim_child_undo abs name dir p st :
  child_prefixes st !! p = None -> orchestrators st !! orchestrator_session_name p = None ->
  (claim_child abs name dir p st)
    <| child_prefixes := delete p (child_prefixes (claim_child abs name dir p st)) |>
    <| orchestrators := delete (orchestrator_session_name p)
         (orchestrators (claim_child abs name dir p st)) |> = st.
Proof.
  intros Hp Ho. unfold claim_child. fsimpl. rewrite !delete_insert_id by done. by destruct st.
Qed.

Definition caps_of (st : ValidationState) : Z * Z := (max_depth st, max_children st).

Lemma claims_grow_caps st st' ws ps : claims_grow st st' ws ps -> caps_of st' = caps_of st.
Proof. intros Hg. destruct (cg_caps _ _ _ _ Hg). unfold caps_of. congruence. Qed.

(** What a visit of one project establishes: on success the tree loads with the names
    claimed; a missing file leaves no claim and is missing for the tree as well. *)
Definition visited (seen : Seen) (st : ValidationState) (r : result TreeError unit)
    (s' : Seen * ValidationState) (prefix : string) (fits : ProjectNode -> Prop)
    (tree : option (result TreeError ProjectNode * Seen)) : Prop :=
  match r with
  | Ok _ => exists node, tree = Some (Ok node, s'.1) /\ pn_prefix node = prefix
      /\ fits node /\ claims_ok s'.2 /\ claims_grow st s'.2 (node_workspaces node) (node_prefixes node)
  | Err e => is_missing_file e = true -> tree = Some (Err e, s'.1) /\ s'.2 = st
  end.

Lemma validate_children_spec recv rect (fits : ProjectNode -> Prop) caps abs prefix cfg names seen st r s' node :
  (forall name child, children cfg !! name = Some child ->
     ch_prefix child <> "" /\ is_absolute (ch_dir child) = true) ->
  (forall path p seen st r s', is_absolute path = true -> is_Some (parent path) ->
     claims_ok st -> caps_of st = caps -> recv path p (seen, st) = Some (r, s') ->
     visited seen st r s' p fits (rect path p seen)) ->
  (forall n a, fits n -> fits (n <| pn_alias := a |>)) ->
  (forall n, n ∈ names -> is_Some (children cfg !! n)) ->
  claims_ok st -> caps_of st = caps ->
  validate_children env fs recv abs prefix (from_config_path abs) cfg names (seen, st)
    = Some (r, s') ->
  match r with
  | Ok _ => exists cs,
      load_tree_children fs rect cfg prefix names node seen
        = Some (Ok (node <| pn_children := pn_children node ++ cs |>), s'.1)
      /\ Forall fits cs /\ length cs <= length names /\ claims_ok s'.2
      /\ claims_grow st s'.2 (flat_map node_workspaces cs)
           (flat_map (fun c => pn_prefix c :: node_prefixes c) cs)
  | Err e => is_missing_file e = false
  end.
Proof.
  intros Hcfg Hrec Halias. revert seen st node.
  induction names as [|name names IH]; intros seen st node Hin Hok Hcaps Hrun.
  { cbn in Hrun. injection Hrun as <- <-. exists []. cbn [load_tree_children].
    rewrite app_nil_r. split_and!; [by destruct node|done..|apply claims_grow_refl]. }
  cbn [validate_children] in Hrun. cbn [load_tree_children].
  destruct (Hin name) as [child Hch]; [set_solver|]. rewrite Hch in Hrun |- *.
  cbn [from_option id] in Hrun |- *. destruct (Hcfg _ _ Hch) as [Hpre Habs].
  rewrite (resolve_dir_id _ _ Habs), (proj2 (is_empty_false _) Hpre) in Hrun.
  assert (forall n, n ∈ names -> is_Some (children cfg !! n)) as Hin' by set_solver.
  destruct (config_path_in_dir _ _) as [path|] eqn:Epath.
  2: { specialize (IH seen st node Hin' Hok Hcaps Hrun). destruct r; [|done].
       destruct IH as (cs & ? & ? & ? & ?). exists cs. cbn [length]. naive_solver lia. }
  set (p := qualify_name prefix (ch_prefix child)) in *.
  revert Hrun. run_step. unfold get_claims, modify_claims, refuse. run_step. cbn [fst snd].
  destruct (child_prefixes st !! p) as [c|] eqn:Ep; [by intros [= <- <-]|].
  destruct (vs_workspaces st !! _) as [c|] eqn:Ew; [by intros [= <- <-]|].
  cbn [fst snd].
  match goal with
  | |- context [recv path p (seen, ?x)] => change x with (claim_child abs name (ch_dir child) p st)
  end.
  assert (p <> "") as Hp by by apply qualify_name_nonempty.
  set (st1 := claim_child abs name (ch_dir child) p st).
  destruct (recv path p (seen, st1)) as [[r1 [seen1 st2]]|] eqn:Erec; [|done].
  assert (visited seen st1 r1 (seen1, st2) p fits (rect path p seen)) as Hvis.
  { apply Hrec; [|by eapply config_path_in_dir_parent|by apply claim_child_ok|done..].
    by eapply config_path_in_dir_absolute. }
  destruct r1 as [[]|e]; cbn [visited fst snd] in Hvis.
  - destruct Hvis as (child_node & Ht & Hpn & Hfit & Hok2 & Hg). rewrite Ht. intros Hrun.
    assert (caps_of st2 = caps) as Hcaps2 by (by rewrite (claims_grow_caps _ _ _ _ Hg)).
    specialize (IH seen1 st2 (node <| pn_children :=
      pn_children node ++ [child_node <| pn_alias := name |>] |>) Hin' Hok2 Hcaps2 Hrun).
    destruct r as [u|e]; [|done]. destruct IH as (cs & Hload & Hfits & Hlen & Hok' & Hg').
    exists (child_node <| pn_alias := name |> :: cs).
    split_and!; [|constructor; [by apply Halias|done]|cbn; lia|done|].
    + rewrite Hload. fsimpl. rewrite <-app_assoc. by destruct node.
    + cbn [flat_map]. rewrite node_workspaces_alias, node_prefixes_alias. fsimpl.
      rewrite Hpn. apply (claims_grow_trans st st2 _ (node_workspaces child_node) _
        (p :: node_prefixes child_node)); [|done].
      by apply (claims_grow_trans st st1 _ [] _ [p]); [apply claim_child_grows|].
  - destruct (is_missing_file e) eqn:Em; [|by intros [= <- <-]].
    destruct Hvis as [Ht ->]; [done|]. rewrite Ht, Em. run_step. cbn [fst snd].
    unfold st1. rewrite claim_child_undo by (done || by apply fresh_session).
    intros Hrun. specialize (IH seen1 st node Hin' Hok Hcaps Hrun). destruct r; [|done].
    destruct IH as (cs & ? & ? & ? & ?). exists cs. cbn [length]. naive_solver lia.
Qed.

(** The tree respects the caps of the root config; zero disables a cap. *)
Inductive node_fits (cap_depth cap_children : Z) : Z -> ProjectNode -> Prop :=
| node_fits_intro depth n :
    (cap_depth <> 0%Z -> (depth <= cap_depth)%Z) ->
    (cap_children <> 0%Z -> (Z.of_nat (length (pn_children n)) <= cap_children)%Z) ->
    Forall (node_fits cap_depth cap_children (u32_wrap (depth + 1))) (pn_children n) ->
    node_fits cap_depth cap_children depth n.

Lemma node_fits_alias cd cc depth n a :
  node_fits cd cc depth n -> node_fits cd cc depth (n <| pn_alias := a |>).
Proof. intros Hf. inversion_clear Hf. by constructor. Qed.

Lemma project_node_workspaces abs prefix cfg :
  node_workspaces (project_node abs prefix cfg)
  = qualify_name prefix <$> btree_keys (workspaces cfg).
Proof.
  unfold project_node, node_workspaces, btree_keys. cbn [flat_map]. rewrite app_nil_r.
  rewrite <-!list_fmap_compose. apply list_fmap_ext. by intros i [k w].
Qed.

Lemma validate_recursive_spec fuel path prefix depth seen st r s' :
  env_ok -> named_children -> countable_children ->
  is_absolute path = true -> is_Some (parent path) -> claims_ok st ->
  validate_recursive env fs fuel path prefix depth (seen, st) = Some (r, s') ->
  visited seen st r s' prefix (node_fits (max_depth st) (max_children st) depth)
    (load_tree_recursive env fs fuel path prefix seen).
Proof.
  intros Henv Hnamed Hsize. revert path prefix depth seen st r s'.
  induction fuel as [|fuel IH]; intros path prefix depth seen st r s' Habs Hpar Hok; [done|].
  cbn [validate_recursive load_tree_recursive]. run_step.
  rewrite (absolutize_id path Habs). unfold on_seen, get_claims, refuse, enter. cbn [fst snd].
  case_decide as Hseen; [by intros [= <- <-]|]. run_step. cbn [fst snd].
  set (seen1 := {[components path]} ∪ seen).
  destruct (negb (max_depth st =? 0)%Z && _) eqn:Ed; [by intros [= <- <-]|]. run_step.
  rewrite load_validated_config_eq.
  destruct (load_local_config env fs path) as [cfg|e] eqn:El; cbn [map_err];
    [|by intros [= <- <-]].
  destruct (negb (max_children st =? 0)%Z && _) eqn:Ek; [by intros [= <- <-]|]. run_step.
  destruct (claim_workspaces path prefix _ (seen1, st)) as [[r1 [seen2 st1]]|] eqn:Ew; [|done].
  apply claim_workspaces_spec in Ew; [|done]. destruct r1 as [[]|e].
  2: { intros [= <- <-]. cbn. by rewrite Ew. }
  cbn [fst snd] in Ew. destruct Ew as (-> & Hok1 & Hg1).
  destruct (validate_children _ _ _ _ _ _ _ _ _) as [[r2 [seen3 st2]]|] eqn:Ec; [|done].
  eapply (validate_children_spec _ (load_tree_recursive env fs fuel)
            (node_fits (max_depth st) (max_children st) (u32_wrap (depth + 1)))
            (caps_of st) _ _ _ _ _ _ _ _ (project_node path prefix cfg)) in Ec.
  - destruct r2 as [[]|e]; [|intros [= <- <-]; cbn; by rewrite Ec].
    destruct Ec as (cs & Ht & Hfits & Hlen & Hok2 & Hg2). cbn [fst snd] in *.
    intros [= <- <-]. rewrite Ht. eexists. split_and!; [done|done| |done|]; cbn [fst snd].
    + apply node_fits_intro; [| |done]; fsimpl.
      * intros ?. apply andb_false_iff in Ed as [?|?]; lia.
      * intros ?. cbn [project_node pn_children app].
        unfold btree_keys, u32_wrap in *. specialize (Hsize _ _ El).
        rewrite length_fmap, (Permutation_length (btree_to_list_perm _)) in Hlen.
        rewrite length_map_to_list in Hlen.
        rewrite Z.mod_small in Ek by lia. apply andb_false_iff in Ek as [?|?]; lia.
    + rewrite node_workspaces_unfold, node_prefixes_unfold. fsimpl.
      change (pn_children (project_node path prefix cfg)) with (@nil ProjectNode). cbn [app].
      apply (claims_grow_trans st st1 st2 _ _ []); [|done].
      pose proof (project_node_workspaces path prefix cfg) as Hw.
      rewrite node_workspaces_unfold in Hw. cbn [project_node pn_children flat_map] in Hw.
      rewrite app_nil_r in Hw. by rewrite Hw.
  - intros name child Hch. split; [by eapply Hnamed|by eapply local_child_dir].
  - intros child_path p seen' st' r' s'' ??? Hcaps ?. injection Hcaps as <- <-. by eapply IH.
  - intros n a. apply node_fits_alias.
  - intros n. apply elem_of_btree_keys.
  - done.
  - by apply (claims_grow_caps _ _ _ _ Hg1).
Qed.

Lemma load_tree_children_root rec cfg prefix names node seen node' seen' :
  load_tree_children fs rec cfg prefix names node seen = Some (Ok node', seen') ->
  pn_disable_root_orchestrator node' = pn_disable_root_orchestrator node
  /\ pn_prefix node' = pn_prefix node.
Proof.
  revert node seen. induction names as [|name names IH]; intros node seen.
  { by intros [= <- _]. }
  cbn [load_tree_children]. destruct (config_path_in_dir _ _) as [path|]; [|apply IH].
  run_step. destruct (rec path _ seen) as [[[child|e] s]|]; [| |done].
  - by intros [-> ->]%IH.
  - destruct (is_missing_file e); [apply IH|done].
Qed.

Lemma load_tree_root fuel path abs prefix seen node seen' :
  absolutize env path = Ok abs ->
  load_tree_recursive env fs fuel path prefix seen = Some (Ok node, seen') ->
  exists cfg, load_local_config env fs abs = Ok cfg
    /\ pn_disable_root_orchestrator node = is_empty prefix && disable_root_orchestrator cfg.
Proof.
  intros Ha. destruct fuel as [|fuel]; [done|]. cbn [load_tree_recursive]. run_step.
  rewrite Ha. destruct (enter abs seen) as [[[[]|e] seen1]|]; [|done..].
  destruct (load_local_config env fs abs) as [cfg|e]; [|done]. cbn [map_err].
  destruct (load_tree_children _ _ _ _ _ _ _) as [[[n|e] s]|] eqn:E; [|done..].
  unfold leave. intros [= <- _]. exists cfg. split; [done|].
  apply load_tree_children_root in E as [-> _]. done.
Qed.

Lemma load_tree_prefix fuel path node :
  load_tree env fs fuel path = Some (Ok node) -> pn_prefix node = "".
Proof.
  unfold load_tree, outcome. destruct (validate_tree _ _ _ _) as [[u|e]|]; [|done..].
  destruct (load_tree_recursive _ _ _ _ _ _) as [[[n|e] seen']|] eqn:E; [|done..].
  intros [= <-]. revert E. destruct fuel as [|fuel]; [done|]. cbn [load_tree_recursive]. run_step.
  destruct (absolutize env path) as [abs|e]; [|done].
  destruct (enter abs ∅) as [[[[]|e] seen1]|]; [|done..].
  destruct (load_local_config env fs abs) as [cfg|e]; [|done]. cbn [map_err].
  destruct (load_tree_children _ _ _ _ _ _ _) as [[[n'|e] s]|] eqn:E; [|done..].
  unfold leave. intros [= <- _]. by apply load_tree_children_root in E as [_ ->].
Qed.

Lemma load_tree_recursive_abs fuel path abs prefix seen :
  absolutize env path = Ok abs -> is_absolute abs = true ->
  load_tree_recursive env fs fuel path prefix seen
  = load_tree_recursive env fs fuel abs prefix seen.
Proof.
  intros Ha Habs. destruct fuel; [done|]. cbn [load_tree_recursive]. run_step.
  by rewrite Ha, (absolutize_id abs Habs).
Qed.

Lemma initial_claims_ok abs cfg : claims_ok (initial_claims abs cfg).
Proof.
  unfold initial_claims. split; cbn [vs_workspaces orchestrators child_prefixes].
  - intros s [? Hs]. by rewrite lookup_empty in Hs.
  - intros p [? Hp]. by rewrite lookup_empty in Hp.
  - intros s. destruct (disable_root_orchestrator cfg); [intros [? Hs]; by rewrite lookup_empty in Hs|].
    rewrite lookup_singleton_is_Some. intros <-. by left.
Qed.

(** Unfolding [load_tree] on success: the claims at the end of the validation. *)
Lemma load_tree_claims fuel path abs node :
  env_ok -> named_children -> countable_children ->
  absolutize env path = Ok abs -> is_Some (parent abs) ->
  load_tree env fs fuel path = Some (Ok node) ->
  exists cfg st, load_local_config env fs abs = Ok cfg /\ claims_ok st
    /\ claims_grow (initial_claims abs cfg) st (node_workspaces node) (node_prefixes node)
    /\ node_fits (max_orchestrator_depth cfg) (max_children_per_node cfg) 0 node
    /\ pn_disable_root_orchestrator node = disable_root_orchestrator cfg.
Proof.
  intros Henv Hnamed Hsize Ha Hpar. pose proof (absolutize_ok _ _ Henv Ha) as Habs.
  unfold load_tree, validate_tree. rewrite Ha. cbn [mbind result_bind].
  rewrite load_validated_config_eq.
  destruct (load_local_config env fs abs) as [cfg|e] eqn:El; [|done]. cbn [mbind result_bind map_err].
  unfold outcome.
  destruct (validate_recursive _ _ _ _ _ _ _) as [[[[]|e] s']|] eqn:Ev; [|done..].
  eapply validate_recursive_spec in Ev; [|done..|apply initial_claims_ok].
  destruct Ev as (node' & Ht & _ & Hfit & Hok & Hg).
  change (fst <$> Some (Ok (), s')) with (Some (Ok (E := TreeError) ())). cbv iota.
  rewrite (load_tree_recursive_abs _ _ _ _ _ Ha Habs). rewrite Ht.
  change (fst <$> Some (Ok node', s'.1)) with (Some (Ok (E := TreeError) node')).
  intros [= <-]. exists cfg, s'.2. split_and!; [done..|].
  apply load_tree_root with (abs := abs) in Ht; [|by apply absolutize_id].
  destruct Ht as (cfg' & El' & ->). rewrite El in El'. by injection El' as <-.
Qed.

Lemma tree_sessions_unique fuel path abs node :
  env_ok -> named_children -> countable_children ->
  absolutize env path = Ok abs -> is_Some (parent abs) ->
  load_tree env fs fuel path = Some (Ok node) ->
  NoDup (node_orchestrators node)
  /\ forall n, n ∈ node_workspaces node -> n ∉ node_orchestrators node.
Proof.
  intros Henv Hnamed Hsize Ha Hpar Hload.
  destruct (load_tree_claims _ _ _ _ Henv Hnamed Hsize Ha Hpar Hload)
    as (cfg & st & _ & Hok & Hg & _ & Hd).
  assert (forall p, p ∈ node_prefixes node -> p <> "") as Hne.
  { intros p Hp. apply (co_claimed _ Hok), (cg_prefixes _ _ _ _ Hg). by right. }
  split.
  - unfold node_orchestrators. apply NoDup_app. split_and!.
    + destruct (pn_disable_root_orchestrator node); [constructor|apply NoDup_singleton].
    + intros s Hs (p & -> & Hp)%list_elem_of_fmap.
      destruct (pn_disable_root_orchestrator node); [set_solver|].
      apply list_elem_of_singleton in Hs. by apply orchestrator_session_name_root in Hs; [|apply Hne].
    + apply NoDup_fmap_2_strong; [|apply Hg].
      intros p q Hp Hq. by apply orchestrator_session_name_inj; apply Hne.
  - intros n Hn Ho. apply (co_disjoint _ Hok n).
    + apply (cg_workspaces _ _ _ _ Hg). by right.
    + apply (cg_orchestrators _ _ _ _ Hg). apply elem_of_app in Ho as [Ho|Ho]; [left|by right].
      rewrite Hd in Ho. unfold initial_claims. cbn [orchestrators].
      destruct (disable_root_orchestrator cfg); [set_solver|].
      apply list_elem_of_singleton in Ho as ->. rewrite lookup_singleton_eq. by eexists.
Qed.

(** C10: When a project tree loads, the orchestrators of its projects - the root's, unless it
    is disabled, and one per child project, however deep and however aliased - have
    pairwise different names, and no workspace of the tree has the merged name of one of
    them, provided no child is keyed by the empty name ([named_children]; an unnamed child
    takes the root's name: [unnamed_child_shares_the_root_session]) and no file declares
    2^32 children.  Workspaces are not kept apart from each other: two projects may give
    workspaces the same merged name ([workspaces_share_a_merged_name]). *)
Theorem orchestrator_names_are_unique fuel path abs node :
  env_ok -> named_children -> countable_children ->
  absolutize env path = Ok abs -> is_Some (parent abs) ->
  load_tree env fs fuel path = Some (Ok node) ->
  NoDup (node_orchestrators node)
  /\ forall n, n ∈ node_workspaces node -> n ∉ node_orchestrators node.
Proof. intros. by eapply tree_sessions_unique. Qed.

Lemma flat_and_tree fuel path :
  named_children ->
  match load env fs fuel path, load_tree env fs fuel path with
  | Some (Ok cfg), Some (Ok node) => same_names "" cfg node
  | Some (Err e), Some (Err e') => e = e'
  | None, None => True
  | _, _ => False
  end.
Proof.
  intros Hnamed. unfold load, load_tree.
  destruct (validate_tree _ _ _ _) as [[u|e]|]; [|done..].
  pose proof (load_agrees fuel path "" ∅ Hnamed) as Hag. unfold outcome, agrees in *.
  destruct (load_recursive _ _ _ _ _) as [[[cfg|e] s]|],
    (load_tree_recursive _ _ _ _ _ _) as [[[node|e'] s']|]; try done; cbn; by destruct_and?.
Qed.

(** C11: The two views of a project agree: [Config::load] and [Config::load_tree] fail with
    the same error or both succeed, and then the keys of the flat map of workspaces are
    exactly the merged names in the tree. *)
Theorem flat_and_tree_views_agree fuel path :
  named_children ->
  match load env fs fuel path, load_tree env fs fuel path with
  | Some (Ok cfg), Some (Ok node) =>
      forall n, is_Some (workspaces cfg !! n) <-> n ∈ node_workspaces node
  | Some (Err e), Some (Err e') => e = e'
  | None, None => True
  | _, _ => False
  end.
Proof.
  intros Hnamed. pose proof (flat_and_tree fuel path Hnamed) as Hag.
  repeat case_match; try done. intros n. rewrite (Hag n). naive_solver.
Qed.

(** ** Termination *)

(** [m] returns from every state with the depth cap [cap], and keeps the cap. *)
Definition returns (cap : Z) {A} (m : Run TreeError (Seen * ValidationState) A) : Prop :=
  forall s, max_depth s.2 = cap -> exists r s', m s = Some (r, s') /\ max_depth s'.2 = cap.

Lemma returns_bind cap {A B} (m : Run TreeError (Seen * ValidationState) A) (f : A -> Run TreeError _ B) :
  returns cap m -> (forall a, returns cap (f a)) -> returns cap (m ≫= f).
Proof.
  intros Hm Hf s Hs. destruct (Hm s Hs) as ([a|e] & s' & E & Hs'); run_step; rewrite E.
  - by apply Hf.
  - by eauto.
Qed.

Lemma returns_attempt cap {A} (m : Run TreeError (Seen * ValidationState) A) :
  returns cap m -> returns cap (attempt m).
Proof. intros Hm s Hs. destruct (Hm s Hs) as (r & s' & E & Hs'). unfold attempt. rewrite E. eauto. Qed.

Lemma returns_lift cap {A} (r : result TreeError A) : returns cap (lift r).
Proof. intros s Hs. unfold lift. eauto. Qed.

Lemma returns_get cap {A} (f : ValidationState -> Run TreeError (Seen * ValidationState) A) :
  (forall st, max_depth st = cap -> returns cap (f st)) -> returns cap (get_claims ≫= f).
Proof. intros Hf s Hs. by apply (Hf s.2 Hs). Qed.

Lemma returns_modify cap f :
  (forall st, max_depth (f st) = max_depth st) -> returns cap (modify_claims f).
Proof. intros Hf s Hs. unfold modify_claims. eexists _, _. split; [done|]. cbn. by rewrite Hf. Qed.

Lemma returns_on_seen cap {A} (m : Run TreeError Seen A) :
  (forall s, m s <> None) -> returns cap (on_seen m).
Proof.
  intros Hm s Hs. unfold on_seen. destruct (m s.1) as [[r seen]|] eqn:E; [by eauto|].
  by destruct (Hm s.1).
Qed.

Lemma claim_workspaces_returns cap abs prefix names :
  returns cap (claim_workspaces abs prefix names).
Proof.
  induction names as [|name names IH]; [apply returns_lift|]. cbn [claim_workspaces].
  apply returns_get. intros st _. case_match; [apply returns_lift|].
  apply returns_bind; [by apply returns_modify|done].
Qed.

Lemma validate_children_returns cap rec abs prefix dir cfg names :
  (forall path p, returns cap (rec path p)) ->
  returns cap (validate_children env fs rec abs prefix dir cfg names).
Proof.
  intros Hrec. induction names as [|name names IH]; [apply returns_lift|].
  cbn [validate_children]. destruct (config_path_in_dir _ _) as [path|]; [|done].
  apply returns_get. intros st _.
  destruct (child_prefixes st !! _); [apply returns_lift|].
  destruct (vs_workspaces st !! _); [apply returns_lift|].
  apply returns_bind; [by apply returns_modify|]. intros _.
  apply returns_bind; [by apply returns_attempt|]. intros [[]|e]; [done|].
  destruct (is_missing_file e); [|apply returns_lift].
  by apply returns_bind; [apply returns_modify|].
Qed.

Lemma validate_recursive_returns cap fuel path prefix depth :
  (0 < cap < 2 ^ 32 - 1)%Z -> (0 <= depth <= cap + 1)%Z -> (cap - depth + 1 < Z.of_nat fuel)%Z ->
  returns cap (validate_recursive env fs fuel path prefix depth).
Proof.
  intros Hcap. revert path prefix depth.
  induction fuel as [|fuel IH]; intros path prefix depth Hd Hf; [lia|].
  cbn [validate_recursive]. apply returns_bind; [apply returns_lift|]. intros abs.
  apply returns_bind.
  { apply returns_on_seen. intros s. unfold enter. by case_decide. }
  intros _. apply returns_get. intros st ->.
  destruct (negb (cap =? 0)%Z && (depth >? cap)%Z) eqn:E; [apply returns_lift|].
  assert (depth <= cap)%Z as Hle by (apply andb_false_iff in E as [?|?]; lia).
  apply returns_bind; [apply returns_lift|]. intros cfg.
  case_match; [apply returns_lift|].
  apply returns_bind; [apply claim_workspaces_returns|]. intros _. apply returns_bind.
  - apply validate_children_returns. intros child p.
    unfold u32_wrap. rewrite Z.mod_small by lia. apply IH; lia.
  - intros _. by apply returns_on_seen.
Qed.

(** C32: Loading ends: whatever the child references are (cycles, the same project under many
    spellings of its path, chains of any length), the recursion is at most as deep as the
    cap of the root config allows, and the tree that is returned respects both caps. *)
Theorem loading_ends_within_the_caps fuel path abs cfg :
  env_ok -> named_children -> countable_children ->
  absolutize env path = Ok abs -> is_Some (parent abs) ->
  load_local_config env fs abs = Ok cfg ->
  (0 < max_orchestrator_depth cfg < 2 ^ 32 - 1)%Z ->
  Z.to_nat (max_orchestrator_depth cfg) + 2 <= fuel ->
  (exists r, load env fs fuel path = Some r)
  /\ exists r, load_tree env fs fuel path = Some r
     /\ forall node, r = Ok node ->
        node_fits (max_orchestrator_depth cfg) (max_children_per_node cfg) 0 node.
Proof.
  intros Henv Hnamed Hsize Ha Hpar El Hcap Hfuel.
  pose proof (absolutize_ok _ _ Henv Ha) as Habs.
  assert (exists r, load_tree env fs fuel path = Some r) as [r Hr].
  { destruct (validate_recursive_returns (max_orchestrator_depth cfg) fuel abs "" 0
      Hcap ltac:(lia) ltac:(lia) (∅, initial_claims abs cfg) eq_refl) as (r & s' & Ev & _).
    unfold load_tree, validate_tree. rewrite Ha. cbn [mbind result_bind].
    rewrite load_validated_config_eq, El. cbn [mbind result_bind map_err]. unfold outcome.
    rewrite Ev. destruct r as [[]|e]; [|by eexists].
    change (fst <$> Some (Ok (), s')) with (Some (Ok (E := TreeError) ())). cbv iota.
    eapply validate_recursive_spec in Ev; [|done..|apply initial_claims_ok].
    destruct Ev as (node & Ht & _). rewrite (load_tree_recursive_abs _ _ _ _ _ Ha Habs), Ht.
    by eexists. }
  split.
  - pose proof (flat_and_tree fuel path Hnamed) as Hag. rewrite Hr in Hag.
    destruct (load env fs fuel path) as [r'|]; [by eexists|by destruct r].
  - exists r. split; [done|]. intros node ->.
    destruct (load_tree_claims _ _ _ _ Henv Hnamed Hsize Ha Hpar Hr)
      as (cfg' & st & El' & _ & _ & Hfit & _). rewrite El in El'. by injection El' as <-.
Qed.
End facts.

(** ** A project on a concrete file system: the theorems of [ConfigFacts] at work, and
    what an empty child name does. *)

(** ** A file system in memory, keyed by the components of a path *)

Abbreviation MemFs := (list (list string * string)).

Definition mem_lookup (fs : MemFs) (path : string) : option string :=
  snd <$> List.find (fun kv => bool_decide (kv.1 = components path)) fs.

#[global] Instance MemFs_ops : FileSystem MemFs := {
  fs_read fs path := match mem_lookup fs path with
                     | Some text => Ok text
                     | None => Err IoNotFound
                     end;
  fs_is_file fs path := bool_decide (is_Some (mem_lookup fs path));
  fs_create_dir_all fs _ := Ok fs;
  fs_write fs path text := Ok ((components path, text) :: fs);
}.

#[global] Instance MemFs_ok : FileSystemOk MemFs.
Proof.
  split. intros fs path text fs'. cbn [fs_write fs_read MemFs_ops]. intros [= <-].
  unfold mem_lookup. cbn [List.find fst]. by rewrite bool_decide_true.
Qed.

(** ** A project with one child project *)

Definition ws (dir : string) : Workspace := default_workspace <| w_dir := dir |>.

Definition root_config : Config :=
  default_config
    <| project := "demo" |>
    <| children := {[ "kid" := mkChild "./kid" "" ]} |>
    <| workspaces := {[ "alpha" := ws "./alpha"; "beta" := ws "./beta" ]} |>.
Definition kid_config : Config :=
  default_config
    <| project := "kid" |>
    <| children := {[ "gone" := mkChild "./gone" "" ]} |>
    <| workspaces := {[ "w" := ws "" ]} |>.
(** Its first workspace has the merged name of the child's. *)
Definition dotted_config : Config :=
  root_config <| workspaces := {[ "kid.w" := ws "./alpha" ]} |>.
Definition unnamed_config : Config := root_config <| children := {[ "" := mkChild "./kid" "" ]} |>.

(** The root config as the team overlay writes it, with other workspaces. *)
Definition managed_config (workspaces_ : gmap string Workspace) : Config :=
  root_config
    <| children := {[ "kid" := mkChild "/p/./kid" "" ]} |>
    <| workspaces := workspaces_ |>.
Definition gamma : Workspace := (ws "/p/./gamma") <| w_runtime := "claude" |>.

(** A configuration above a project, before and after the project is registered in it. *)
Definition top_config : Config :=
  default_config <| project := "top" |> <| children := {[ "old" := mkChild "./old" "" ]} |>.
Definition top_with_proj : Config := top_config <| children := {[ "proj" := mkChild "proj" "" ]} |>.

(** A configuration of the home directory, and with itself for a child. *)
Definition home_config : Config := default_config <| project := "u" |>.
Definition home_within_itself : Config := home_config <| children := {[ "u" := mkChild "." "" ]} |>.

(** ** A text for configs: the files of the examples by name *)

#[global] Instance AgentProvider_eq_dec : EqDecision AgentProvider.
Proof. solve_decision. Defined.
#[global] Instance Child_eq_dec : EqDecision Child.
Proof. solve_decision. Defined.
#[global] Instance Workspace_eq_dec : EqDecision Workspace.
Proof. solve_decision. Defined.
#[global] Instance Config_eq_dec : EqDecision Config.
Proof. solve_decision. Defined.

Definition config_table : list (string * Config) :=
  [("root", root_config); ("kid", kid_config); ("unnamed", unnamed_config);
   ("dotted", dotted_config);
   ("plus gamma", managed_config
      {[ "alpha" := ws "/p/./alpha"; "beta" := ws "/p/./beta"; "gamma" := gamma ]});
   ("less beta", managed_config {[ "alpha" := ws "/p/./alpha" ]});
   ("top", top_config); ("top with proj", top_with_proj);
   ("home", home_config); ("home in home", home_within_itself);
   ("gamma for beta", managed_config {[ "alpha" := ws "/p/./alpha"; "gamma" := gamma ]})].

Definition file_of (c : Config) : result string string :=
  match List.find (fun e => bool_decide (e.2 = c)) config_table with
  | Some e => Ok e.1
  | None => Err "unknown config"
  end.
Definition config_of (s : string) : result string Config :=
  match List.find (fun e => String.eqb e.1 s) config_table with
  | Some e => Ok e.2
  | None => Err "unknown file"
  end.
#[global] Instance DemoConfigYaml : YamlCodec Config :=
  {| to_yaml := file_of; from_yaml := config_of |}.

Lemma table_names : Forall (fun e => config_of e.1 = Ok e.2) config_table.
Proof. repeat constructor. Qed.

#[global] Instance DemoConfigYamlOk : YamlCodecOk Config.
Proof.
  split. intros c s Hs. change (file_of c = Ok s) in Hs. change (config_of s = Ok c).
  unfold file_of in Hs. destruct (List.find _ config_table) as [e|] eqn:E; [|discriminate Hs].
  injection Hs as <-. apply List.find_some in E as [Hin Hc]. apply bool_decide_eq_true in Hc as <-.
  pose proof table_names as Hall. rewrite Forall_forall in Hall. apply Hall. by apply list_elem_of_In.
Qed.
(** No project below has a managed overlay. *)
#[global] Instance DemoOverlayYaml : YamlCodec ManagedOverlay :=
  {| to_yaml _ := Err "unused"; from_yaml _ := Err "unused" |}.

Definition demo_env : Env := mkEnv (Some "/home/u") (Ok "/p").
Definition root_path : string := "/p/.ax/config.yaml".
Definition kid_path : string := "/p/kid/.ax/config.yaml".
Definition demo_fs : MemFs := [(components root_path, "root"); (components kid_path, "kid")].

Lemma demo_files abs raw :
  read_local demo_fs abs = Ok raw -> raw = root_config \/ raw = kid_config.
Proof.
  unfold read_local, fs_read, MemFs_ops, mem_lookup.
  destruct (List.find _ demo_fs) as [e|] eqn:E; [|done].
  apply List.find_some in E as [Hin _]. destruct Hin as [<-|[<-|[]]]; cbn [fmap option_fmap option_map snd map_err mbind result_bind].
  - intros [= <-]. by left.
  - intros [= <-]. by right.
Qed.

Lemma demo_env_ok : env_ok demo_env.
Proof. split; by intros ? [= <-]. Qed.
Lemma demo_named : named_children demo_env demo_fs.
Proof.
  apply named_children_of_raw. intros abs raw [-> | ->]%demo_files; (split; [done|]);
    intros n [c Hc]; unfold root_config, kid_config in Hc; fsimpl;
    apply lookup_singleton_Some in Hc as [<- _]; done.
Qed.
Lemma demo_countable : countable_children demo_env demo_fs.
Proof.
  apply countable_children_of_raw. intros abs raw [-> | ->]%demo_files; by vm_compute.
Qed.

Lemma orchestrator_names_are_unique_witness :
  exists node, load_tree demo_env demo_fs 5 root_path = Some (Ok node)
  /\ node_orchestrators node = ["orchestrator"; "kid.orchestrator"]
  /\ node_workspaces node = ["alpha"; "beta"; "kid.w"]
  /\ NoDup (node_orchestrators node)
  /\ (forall n, n ∈ node_workspaces node -> n ∉ node_orchestrators node).
Proof.
  eexists. split; [vm_compute; reflexivity|]. split; [vm_compute; reflexivity|].
  split; [vm_compute; reflexivity|].
  apply (orchestrator_names_are_unique demo_env demo_fs 5 root_path root_path);
    [apply demo_env_ok|apply demo_named|apply demo_countable|reflexivity|by eexists|].
  vm_compute. reflexivity.
Defined.

Lemma flat_and_tree_views_agree_witness :
  match load demo_env demo_fs 5 root_path, load_tree demo_env demo_fs 5 root_path with
  | Some (Ok cfg), Some (Ok node) =>
      forall n, is_Some (workspaces cfg !! n) <-> n ∈ node_workspaces node
  | Some (Err e), Some (Err e') => e = e'
  | None, None => True
  | _, _ => False
  end.
Proof. apply (flat_and_tree_views_agree demo_env demo_fs 5 root_path). apply demo_named. Defined.

Lemma loading_ends_within_the_caps_witness :
  (exists r, load demo_env demo_fs 5 root_path = Some r)
  /\ exists r, load_tree demo_env demo_fs 5 root_path = Some r
     /\ forall node, r = Ok node -> node_fits 3 6 0 node.
Proof.
  edestruct (loading_ends_within_the_caps demo_env demo_fs 5 root_path root_path)
    as [Hload Htree];
    [apply demo_env_ok|apply demo_named|apply demo_countable|reflexivity|by eexists
    |vm_compute; reflexivity|by vm_compute|by apply Nat.leb_le|].
  by split.
Defined.

(** ** A child keyed by the empty name

    Its prefix is empty, so its orchestrator takes the session name of the root's and the
    validation does not object. *)
Definition unnamed_fs : MemFs := [(components root_path, "unnamed"); (components kid_path, "kid")].

Example unnamed_child_shares_the_root_session :
  match load_tree demo_env unnamed_fs 5 root_path with
  | Some (Ok node) => node_orchestrators node = ["orchestrator"; "orchestrator"]
  | _ => False
  end.
Proof. vm_compute. reflexivity. Qed.

(** ** Workspaces of one merged name

    The validation keeps workspaces apart from orchestrators only: the root's [kid.w] and
    the [w] of its child [kid] are two workspaces of the tree and one of the flat view. *)
Definition dotted_fs : MemFs := [(components root_path, "dotted"); (components kid_path, "kid")].

Example workspaces_share_a_merged_name :
  match load_tree demo_env dotted_fs 5 root_path, load demo_env dotted_fs 5 root_path with
  | Some (Ok node), Some (Ok cfg) =>
      node_workspaces node = ["kid.w"; "kid.w"] /\ btree_keys (workspaces cfg) = ["kid.w"]
  | _, _ => False
  end.
Proof. vm_compute. by split. Qed.
