(* ===== verification/WorkspaceManager.v ===== *)
(** * Sessions and artifacts of workspaces and orchestrators
    (crates/ax-workspace/src/manager.rs, orchestrator.rs and the file operations of
    orchestrator_prompt.rs).

    The state is the [World]: the files and the tmux server.  The backend [B] of the
    source is [RealTmux], the wrappers of [Tmux].  What the agents' own files hold is
    behind two interfaces: [CodexHome] (ax-agent/src/codex.rs) and [Prompts] (the text of
    an orchestrator's instructions). *)

From stdpp Require Import prelude strings list gmap fin_maps.
From S2P Require Import Prelude Act RustStr RustText Proto Paths ConfigSchema ConfigTree.
From S2P Require Import Tmux Artifacts.

Record World (F T : Type) := mkWorld { files : F; tmux : T }.
Arguments mkWorld {F T} _ _.
Arguments files {F T} _.
Arguments tmux {F T} _.

Definition on_files {E F T A} (m : Act E F A) : Act E (World F T) A :=
  act_on files (fun f w => mkWorld f (tmux w)) m.
Definition on_tmux {E F T A} (m : Act E T A) : Act E (World F T) A :=
  act_on tmux (fun t w => mkWorld (files w) t) m.

Inductive CodexHomeError :=
| CodexHomeUnset
| CodexCreateDir (path : string) (e : IoError)
| CodexReadBaseConfig (path : string) (e : IoError)
| CodexLink (src dst : string) (e : IoError)
| CodexWriteConfig (path : string) (e : IoError)
| CodexRemove (path : string) (e : IoError).

Class CodexHome (F : Type) := {
  prepare_codex_home :
    string -> string -> string -> string -> option string -> Act CodexHomeError F string;
  remove_codex_home : string -> string -> Act CodexHomeError F unit;
}.

(** [prompt_text] is the prompt with the memories next to the daemon's socket. *)
Class Prompts (F : Type) := {
  orchestrator_prompt : ProjectNode -> string -> string -> string;
  prompt_text : F -> ProjectNode -> string -> string -> string -> string;
}.

(** ** manager.rs *)

Inductive WorkspaceError :=
| UnsupportedRuntime (name : string)
| WsCreateDir (path : string) (e : IoError)
| SessionExists (session : string)
| WsTmux (e : TmuxError)
| WsMcpConfig (e : McpConfigError)
| WsInstructions (e : InstructionsError)
| WsCodexHome (e : CodexHomeError).

Record Manager := mkManager {
  m_socket_path : string;
  m_config_path : option string;
  m_ax_bin : string;
}.

Definition runtime_for_name (name : string) : result WorkspaceError Runtime :=
  match normalize name with Some r => Ok r | None => Err (UnsupportedRuntime name) end.

Definition managed_run_agent_args (ax_bin : string) (runtime : Runtime)
    (workspace socket_path : string) (config_path : option string) (fresh : bool) : list string :=
  [ax_bin; "run-agent"; "--runtime"; as_str runtime; "--workspace"; workspace; "--socket"; socket_path]
  ++ match config_path with Some path => ["--config"; path] | None => [] end
  ++ (if fresh then ["--fresh"] else []).

(** ** orchestrator.rs and orchestrator_prompt.rs *)

Inductive OrchestratorPromptError :=
| PromptUnknownRuntime (name : string)
| RemoveStalePrompt (path : string) (e : IoError)
| WritePrompt (path : string) (e : IoError).

Inductive OrchestratorError :=
| HomeUnset
| NilProjectNode
| InvalidRuntime (name runtime : string)
| OrchCreateDir (path : string) (e : IoError)
| OrchCreateClaudeDir (path : string) (e : IoError)
| OrchMcpConfig (e : McpConfigError)
| OrchTmux (e : TmuxError)
| OrchCodexHome (e : CodexHomeError)
| OrchWritePrompt (e : OrchestratorPromptError)
| RemoveInstruction (path : string) (e : IoError)
| RemoveClaudeDir (path : string) (e : IoError)
| OrchReadDir (path : string) (e : IoError)
| RemoveDir (path : string) (e : IoError).

Definition orchestrator_name (prefix : string) : string :=
  if is_empty prefix then "orchestrator" else prefix +:+ ".orchestrator".

Definition root_orchestrator_dir (env : Env) : result OrchestratorError string :=
  match home env with
  | Some h => Ok (join (join h ".ax") "orchestrator")
  | None => Err HomeUnset
  end.

Definition orchestrator_dir_for_node (env : Env) (node : ProjectNode)
  : result OrchestratorError string :=
  if is_empty (pn_prefix node) then root_orchestrator_dir env
  else if is_empty (pn_dir node) then Err NilProjectNode
  else Ok (join (join (pn_dir node) ".ax")
             ("orchestrator-" +:+ replace_char dot underscore (pn_prefix node))).

Definition orchestrator_runtime_of (node : ProjectNode) : result OrchestratorError Runtime :=
  match normalize (pn_orchestrator_runtime node) with
  | Some r => Ok r
  | None => Err (InvalidRuntime (orchestrator_name (pn_prefix node)) (pn_orchestrator_runtime node))
  end.

Section manager.
Context {F T : Type} `{!FileSystem F} `{!ArtifactFs F} `{!JsonCodec McpConfig}.
Context `{!CodexHome F} `{!Prompts F} `{!Tmux T}.
Context (env : Env).

Definition ensure_artifacts (name : string) (ws : Workspace) (socket_path : string)
    (config_path : option string) (ax_bin : string) : Act WorkspaceError F unit :=
  runtime ← act_lift (runtime_for_name (w_runtime ws));
  _ ← file_act (WsCreateDir (w_dir ws)) (fun fs => fs_create_dir_all fs (w_dir ws));
  _ ← act_map_err WsMcpConfig (write_mcp_config (w_dir ws) name socket_path config_path ax_bin);
  _ ← act_map_err WsInstructions
        (write_instructions (w_dir ws) name (as_str runtime) (w_instructions ws));
  if decide (runtime = Codex)
  then _ ← act_map_err WsCodexHome
             (prepare_codex_home name (w_dir ws) socket_path ax_bin config_path);
       mret tt
  else mret tt.

Definition cleanup_workspace_artifacts (name dir : string) : Act WorkspaceError F unit :=
  if is_empty (trim dir) then mret tt else
  _ ← act_map_err WsMcpConfig (remove_mcp_config dir);
  _ ← act_map_err WsInstructions (remove_instructions dir);
  act_map_err WsCodexHome (remove_codex_home name dir).

(** [if tmux.session_exists(name) { tmux.destroy_session(name)?; }]. *)
Definition destroy_if_exists {E} (wrap : TmuxError -> E) (name : string) : Act E (World F T) unit :=
  running ← gets (fun w => session_exists name (tmux w));
  if running : bool then act_map_err wrap (on_tmux (destroy_session name)) else mret tt.

Definition cleanup_workspace_state (name dir : string) : Act WorkspaceError (World F T) unit :=
  _ ← destroy_if_exists WsTmux name;
  on_files (cleanup_workspace_artifacts name dir).

Definition create_inner (mgr : Manager) (name : string) (ws : Workspace) (fresh : bool)
  : Act WorkspaceError (World F T) unit :=
  runtime ← act_lift (runtime_for_name (w_runtime ws));
  _ ← on_files (ensure_artifacts name ws (m_socket_path mgr) (m_config_path mgr) (m_ax_bin mgr));
  running ← gets (fun w => session_exists name (tmux w));
  if running : bool then act_throw (SessionExists (session_name name)) else
  act_map_err WsTmux (on_tmux
    (if is_empty (w_agent ws)
     then create_session_with_args name (w_dir ws)
            (managed_run_agent_args (m_ax_bin mgr) runtime name (m_socket_path mgr)
               (m_config_path mgr) fresh) (w_env ws)
     else if String.eqb (w_agent ws) "none"
     then create_session name (w_dir ws) (w_shell ws) (w_env ws)
     else create_session_with_command name (w_dir ws) (w_agent ws) (w_env ws))).

Definition manager_create (mgr : Manager) (name : string) (ws : Workspace)
  : Act WorkspaceError (World F T) unit := create_inner mgr name ws false.

Definition manager_restart (mgr : Manager) (name : string) (ws : Workspace)
  : Act WorkspaceError (World F T) unit :=
  _ ← cleanup_workspace_state name (w_dir ws);
  create_inner mgr name ws true.

Definition manager_destroy (name dir : string) : Act WorkspaceError (World F T) unit :=
  _ ← destroy_if_exists WsTmux name;
  if is_empty (trim dir) then mret tt else
  on_files (_ ← act_map_err WsMcpConfig (remove_mcp_config dir);
            act_map_err WsInstructions (remove_instructions dir)).

(** ** Orchestrators *)

Definition write_orchestrator_prompt (orch_dir : string) (node : ProjectNode)
    (prefix parent_name runtime socket_path : string) : Act OrchestratorPromptError F unit :=
  match normalize runtime with
  | None => act_throw (PromptUnknownRuntime runtime)
  | Some r =>
      content ← gets (fun fs => prompt_text fs node prefix parent_name socket_path);
      _ ← act_each (fun other =>
            if decide (other = r) then mret tt else
            let path := join orch_dir (instruction_file other) in
            remove_if_present (RemoveStalePrompt path) (fun fs => fs_remove_file fs path))
            SUPPORTED_RUNTIMES;
      let target := join orch_dir (instruction_file r) in
      file_act (WritePrompt target) (fun fs => fs_write fs target content)
  end.

(** The part of [ensure_orchestrator] that writes files. *)
Definition orchestrator_files (node : ProjectNode) (parent_name socket_path : string)
    (config_path : option string) (ax_bin orch_dir : string) (runtime : Runtime)
  : Act OrchestratorError F unit :=
  let self_name := orchestrator_name (pn_prefix node) in
  let claude_dir := join orch_dir ".claude" in
  _ ← file_act (OrchCreateDir orch_dir) (fun fs => fs_create_dir_all fs orch_dir);
  _ ← file_act (OrchCreateClaudeDir claude_dir) (fun fs => fs_create_dir_all fs claude_dir);
  _ ← act_map_err OrchMcpConfig (write_mcp_config orch_dir self_name socket_path config_path ax_bin);
  _ ← (if decide (runtime = Codex)
       then _ ← act_map_err OrchCodexHome
                  (prepare_codex_home self_name orch_dir socket_path ax_bin config_path);
            mret tt
       else mret tt);
  act_map_err OrchWritePrompt
    (write_orchestrator_prompt orch_dir node (pn_prefix node) parent_name (as_str runtime) socket_path).

Definition ensure_orchestrator (node : ProjectNode) (parent_name socket_path : string)
    (config_path : option string) (ax_bin : string) (start_session : bool)
  : Act OrchestratorError (World F T) unit :=
  let self_name := orchestrator_name (pn_prefix node) in
  orch_dir ← act_lift (orchestrator_dir_for_node env node);
  runtime ← act_lift (orchestrator_runtime_of node);
  _ ← on_files (orchestrator_files node parent_name socket_path config_path ax_bin orch_dir runtime);
  running ← gets (fun w => session_exists self_name (tmux w));
  if negb (is_empty (pn_prefix node)) && start_session && negb running
  then act_map_err OrchTmux (on_tmux
         (create_session_with_args self_name orch_dir
            (managed_run_agent_args ax_bin runtime self_name socket_path config_path false) ∅))
  else mret tt.

(** [ensure_orchestrator_tree] with its recursion. *)
Fixpoint ensure_orchestrator_tree_node (node : ProjectNode) (parent_name socket_path : string)
    (config_path : option string) (ax_bin : string) (start_sessions skip_root : bool)
  : Act OrchestratorError (World F T) unit :=
  let self_name := orchestrator_name (pn_prefix node) in
  let skipped := is_empty (pn_prefix node) && skip_root in
  _ ← (if skipped then mret tt
       else ensure_orchestrator node parent_name socket_path config_path ax_bin start_sessions);
  let child_parent_name := if skipped then "" else self_name in
  act_each (fun child => ensure_orchestrator_tree_node child child_parent_name socket_path
                           config_path ax_bin start_sessions false) (pn_children node).

Definition ensure_orchestrator_tree (node : ProjectNode) (socket_path : string)
    (config_path : option string) (ax_bin : string) (start_sessions skip_root : bool)
  : Act OrchestratorError (World F T) unit :=
  ensure_orchestrator_tree_node node "" socket_path config_path ax_bin start_sessions skip_root.

(** The empty directory goes; one with other files stays. *)
Definition remove_empty_dir (orch_dir : string) : Act OrchestratorError F unit := fun fs =>
  match fs_read_dir_count fs orch_dir with
  | Err IoNotFound => (Ok tt, fs)
  | Err e => (Err (OrchReadDir orch_dir e), fs)
  | Ok 0 => remove_if_present (RemoveDir orch_dir) (fun fs => fs_remove_dir fs orch_dir) fs
  | Ok _ => (Ok tt, fs)
  end.

Definition cleanup_orchestrator_artifacts (orch_dir : string) : Act OrchestratorError F unit :=
  if is_empty orch_dir then mret tt else
  _ ← act_map_err OrchMcpConfig (remove_mcp_config orch_dir);
  _ ← act_each (fun r =>
        let path := join orch_dir (instruction_file r) in
        remove_if_present (RemoveInstruction path) (fun fs => fs_remove_file fs path))
        SUPPORTED_RUNTIMES;
  let claude_dir := join orch_dir ".claude" in
  _ ← remove_if_present (RemoveClaudeDir claude_dir) (fun fs => fs_remove_dir_all fs claude_dir);
  remove_empty_dir orch_dir.

Definition cleanup_orchestrator_state (name orch_dir : string)
  : Act OrchestratorError (World F T) unit :=
  _ ← destroy_if_exists OrchTmux name;
  on_files (_ ← cleanup_orchestrator_artifacts orch_dir;
            act_map_err OrchCodexHome (remove_codex_home name orch_dir)).
End manager.

(** ** What the session manager does to tmux.

    Rules of the program logic for the operations of [WorkspaceManager]: file operations
    leave the sessions alone; creating, stopping and restarting touch only the session of
    the named workspace. *)

Section facts.
Context {F T : Type} `{!FileSystem F} `{!ArtifactFs F} `{!JsonCodec McpConfig}.
Context `{!CodexHome F} `{!Prompts F} `{!Tmux T} `{!TmuxOk T}.
Context (env : Env).
Implicit Types (names : gset string) (w : World F T) (t : T).

Lemma wp_files {E A} (m : Act E F A) (Q : result E A -> World F T -> Prop) w :
  (forall r f, Q r (mkWorld f (tmux w))) -> wp (on_files m) Q w.
Proof. intros H. apply wp_on. unfold wp. apply H. Qed.

Lemma wp_tmux {E A} (m : Act E T A) (Q : result E A -> World F T -> Prop) w :
  wp m (fun r t => Q r (mkWorld (files w) t)) (tmux w) -> wp (on_tmux m) Q w.
Proof. intros H. by apply wp_on. Qed.

(** Stopping: nothing happens without a session; with one it is killed or, when tmux
    fails, kept. *)
Definition stops {E A} n t (r : result E A) t' : Prop :=
  match session n t with
  | None => live t' = live t /\ log t' = log t
  | Some _ =>
      (live t' = live t /\ log t' = log t /\ is_ok r = false)
      \/ (live t' = delete (session_name n) (live t) /\ log t' = log t ++ [Killed (session_name n)])
  end.

Lemma stops_stopped {E A} n t (r : result E A) t' :
  stops n t r t' -> is_ok r = true -> session n t' = None.
Proof.
  unfold stops, session. destruct (live t !! session_name n) eqn:Es.
  - intros [(_ & _ & ?)|[-> _]]; [congruence|]. intros _. apply lookup_delete_eq.
  - by intros [-> _] _.
Qed.

Lemma stops_trace {E A} n t (r : result E A) t' :
  stops n t r t' -> trace (fun e => e = Killed (session_name n) /\ is_Some (session n t)) t t'.
Proof.
  unfold stops. destruct (session n t) as [row|] eqn:Es.
  - intros [(? & ? & _)|[El Eg]]; [by apply trace_nil|].
    eapply trace_kill; [by split; [|eexists]|by exists row|done|done|apply trace_refl].
  - intros [? ?]. by apply trace_nil.
Qed.

Lemma wp_destroy_if_exists {E} (wrap : TmuxError -> E) names n w :
  clear names (tmux w) -> n ∈ names ->
  wp (destroy_if_exists wrap n) (fun r w' => files w' = files w /\ stops n (tmux w) r (tmux w')) w.
Proof.
  intros Hc Hn. unfold destroy_if_exists. apply wp_bind, wp_gets.
  rewrite (session_exists_clear names) by done. unfold stops. case_bool_decide as Hs.
  - destruct Hs as [row Hs]. rewrite Hs. apply wp_map_err, wp_tmux.
    apply (wp_destroy_session names); [done..| |].
    + intros e t' El Eg. split; [done|]. by left.
    + intros t' _ El Eg. split; [done|]. by right.
  - destruct (session n (tmux w)) eqn:Es; [by destruct Hs|]. apply wp_ret. done.
Qed.

(** A cleanup stops the session and then only works on files. *)
Lemma wp_stop_then_files {E A} (wrap : TmuxError -> E) (m : Act E F A) names n w :
  clear names (tmux w) -> n ∈ names ->
  wp (_ ← destroy_if_exists wrap n; on_files m) (fun r w' => stops n (tmux w) r (tmux w')) w.
Proof.
  intros Hc Hn. apply wp_bind. eapply wp_mono; [by apply (wp_destroy_if_exists _ names)|].
  intros r w' [_ Hs]. destruct r as [[]|e].
  - apply wp_files. intros r f. cbn [tmux]. unfold stops in *.
    destruct (session n (tmux w)); [|done]. by destruct Hs as [(_ & _ & ?)|?]; [|right].
  - unfold stops in *. by destruct (session n (tmux w)).
Qed.

Lemma wp_cleanup_workspace_state names n dir w :
  clear names (tmux w) -> n ∈ names ->
  wp (cleanup_workspace_state n dir) (fun r w' => stops n (tmux w) r (tmux w')) w.
Proof. apply wp_stop_then_files. Qed.
Lemma wp_cleanup_orchestrator_state names n dir w :
  clear names (tmux w) -> n ∈ names ->
  wp (cleanup_orchestrator_state n dir) (fun r w' => stops n (tmux w) r (tmux w')) w.
Proof. apply wp_stop_then_files. Qed.

Lemma creates_nothing {E A} n t (e : E) : creates (A := A) n t (Err e) t.
Proof. unfold creates. case_match; [done|]. split; [apply trace_refl|done]. Qed.

Lemma creates_err {E1 E2 A B} n t (r : result E1 A) (r' : result E2 B) t' :
  is_ok r = is_ok r' -> creates n t r t' -> creates n t r' t'.
Proof. unfold creates. by intros ->. Qed.

Lemma is_ok_map_err {E1 E2 A} (f : E1 -> E2) (r : result E1 A) : is_ok (map_err f r) = is_ok r.
Proof. by destruct r. Qed.

Lemma wp_create_inner mgr names n ws fresh w :
  clear names (tmux w) -> n ∈ names ->
  wp (create_inner mgr n ws fresh) (fun r w' => creates n (tmux w) r (tmux w')) w.
Proof.
  intros Hc Hn. unfold create_inner. apply wp_bind, wp_lift.
  destruct (runtime_for_name (w_runtime ws)) as [rt|e]; [|apply creates_nothing].
  apply wp_bind, wp_files. intros [[]|e] f; [|apply creates_nothing].
  apply wp_bind, wp_gets. cbn [tmux]. rewrite (session_exists_clear names) by done.
  case_bool_decide as Hs; [apply wp_throw, creates_nothing|].
  apply wp_map_err, wp_tmux. cbn [tmux files].
  assert (forall m : Act TmuxError T unit, wp m (creates n (tmux w)) (tmux w) ->
    wp m (fun r t => creates n (tmux w) (map_err WsTmux r) t) (tmux w)) as Hm.
  { intros m H. eapply wp_mono; [exact H|]. intros r t'. apply creates_err. by rewrite is_ok_map_err. }
  repeat case_match; apply Hm;
    [by apply (wp_create_session_with_args names)|by apply (wp_create_session names)
    |by apply (wp_create_session_with_command names)].
Qed.

Lemma wp_ensure_orchestrator names node parent_name socket_path config_path ax_bin start w :
  let n := orchestrator_name (pn_prefix node) in
  clear names (tmux w) -> n ∈ names ->
  wp (ensure_orchestrator env node parent_name socket_path config_path ax_bin start)
     (fun r w' =>
        if negb (is_empty (pn_prefix node)) && start && negb (bool_decide (is_Some (session n (tmux w))))
        then creates n (tmux w) r (tmux w')
        else live (tmux w') = live (tmux w) /\ log (tmux w') = log (tmux w)) w.
Proof.
  intros n Hc Hn.
  assert (forall e, if negb (is_empty (pn_prefix node)) && start
      && negb (bool_decide (is_Some (session n (tmux w))))
    then creates (A := unit) n (tmux w) (Err (e : OrchestratorError)) (tmux w)
    else live (tmux w) = live (tmux w) /\ log (tmux w) = log (tmux w)) as Herr.
  { intros e. case_match; [apply creates_nothing|done]. }
  unfold ensure_orchestrator. fold n.
  apply wp_bind, wp_lift. destruct (orchestrator_dir_for_node env node) as [dir|e]; [|apply Herr].
  apply wp_bind, wp_lift. destruct (orchestrator_runtime_of node) as [rt|e]; [|apply Herr].
  apply wp_bind, wp_files. intros [[]|e] f; [|apply Herr].
  apply wp_bind, wp_gets. cbn [tmux]. rewrite (session_exists_clear names) by done.
  destruct (negb (is_empty (pn_prefix node)) && start && _); [|by apply wp_ret].
  apply wp_map_err, wp_tmux. cbn [tmux]. eapply wp_mono; [by apply (wp_create_session_with_args names)|].
  intros r t'. apply creates_err. by rewrite is_ok_map_err.
Qed.

(** Creating touches only the named session. *)
Lemma creates_trace {E A} n t (r : result E A) t' :
  creates n t r t' -> trace (fun e => about n e /\ session n t = None) t t'.
Proof.
  unfold creates. destruct (session n t) eqn:Es.
  - intros (_ & ? & ?). by apply trace_nil.
  - intros [Ht _]. by eapply trace_mono, Ht.
Qed.

Lemma creates_created {E A} n t (r : result E A) t' :
  creates n t r t' -> is_ok r = true -> session n t = None /\ is_Some (session n t').
Proof. unfold creates. destruct (session n t); [intros (? & _); congruence|]. intros [_ ?]; auto. Qed.

(** Stopping and then creating touches only the named session, and leaves it alive. *)
Definition restarts {E A} n t (r : result E A) t' : Prop :=
  trace (about n) t t' /\ (is_ok r = true -> is_Some (session n t')).

Lemma creates_restarts {E A} n t (r : result E A) t' : creates n t r t' -> restarts n t r t'.
Proof.
  intros H. split.
  - eapply trace_mono; [|by eapply creates_trace]. by intros e [? _].
  - intros Hok. by eapply creates_created.
Qed.

Lemma stops_about {E A} n t (r : result E A) t' : stops n t r t' -> trace (about n) t t'.
Proof. intros H. eapply trace_mono; [|by eapply stops_trace]. by intros e [-> _]. Qed.

Lemma clear_about names n t t' : n ∈ names -> trace (about n) t t' -> clear names t -> clear names t'.
Proof. intros Hn Ht. apply clear_trace. eapply trace_mono, Ht. intros e. by apply about_among. Qed.

Lemma wp_manager_restart mgr names n ws w :
  clear names (tmux w) -> n ∈ names ->
  wp (manager_restart mgr n ws) (fun r w' => restarts n (tmux w) r (tmux w')) w.
Proof.
  intros Hc Hn. apply wp_bind. eapply wp_mono; [by apply (wp_cleanup_workspace_state names)|]; cbv beta.
  intros [[]|e] w1 H1%stops_about; [|by split].
  eapply wp_mono; [apply (wp_create_inner _ names); [by eapply clear_about|done]|]; cbv beta.
  intros r w2 [H2 Hok]%creates_restarts. split; [by etrans|done].
Qed.

Lemma wp_restart_orchestrator names node parent_name socket_path config_path ax_bin dir w :
  let n := orchestrator_name (pn_prefix node) in
  clear names (tmux w) -> n ∈ names -> is_empty (pn_prefix node) = false ->
  wp (_ ← cleanup_orchestrator_state n dir;
      ensure_orchestrator env node parent_name socket_path config_path ax_bin true)
     (fun r w' => restarts n (tmux w) r (tmux w')) w.
Proof.
  intros n Hc Hn Hp. apply wp_bind. eapply wp_mono; [by apply (wp_cleanup_orchestrator_state names)|]; cbv beta.
  intros [[]|e] w1 H1%stops_about; [|by split].
  eapply wp_mono; [apply (wp_ensure_orchestrator names); [by eapply clear_about|done]|]; cbv beta.
  rewrite Hp. cbn [negb andb]. intros r w2. fold n. case_bool_decide as Hs; cbn [negb].
  - intros [El Eg]. split; [etrans; [exact H1|by apply trace_nil]|]. intros _.
    unfold session. by rewrite El.
  - intros [H2 Hok]%creates_restarts. split; [by etrans|done].
Qed.

Lemma wp_start_managed names node parent_name socket_path config_path ax_bin w :
  let n := orchestrator_name (pn_prefix node) in
  clear names (tmux w) -> n ∈ names -> is_empty (pn_prefix node) = false ->
  wp (ensure_orchestrator env node parent_name socket_path config_path ax_bin true)
     (fun r w' => restarts n (tmux w) r (tmux w')) w.
Proof.
  intros n Hc Hn Hp.
  eapply wp_mono; [by apply (wp_ensure_orchestrator names)|]; cbv beta. fold n.
  rewrite Hp. cbn [negb andb]. intros r w2. case_bool_decide as Hs; cbn [negb].
  - intros [El Eg]. split; [by apply trace_nil|]. intros _. unfold session. by rewrite El.
  - apply creates_restarts.
Qed.

(** ** Whatever other sessions there are

    The operations on [n] create the session of [n] alone and kill sessions only whose
    names begin with its name. *)
Definition aimed_at n w w' : Prop := trace (aimed n) (tmux w) (tmux w').
#[export] Instance aimed_at_preorder n : PreOrder (aimed_at n).
Proof. split; [intros w; apply trace_refl|intros w1 w2 w3; unfold aimed_at; apply trace_trans]. Qed.

Lemma reaches_files n {E A} (m : Act E F A) : moves (aimed_at n) (on_files m).
Proof. intros w. unfold on_files, act_on. destruct (m (files w)) as [r f]. apply trace_refl. Qed.
Lemma reaches_tmux n {E A} (m : Act E T A) : moves (trace (aimed n)) m -> moves (aimed_at n) (on_tmux (F := F) m).
Proof. intros Hm. by eapply moves_on, Hm. Qed.

Section reaches.
Context (n : string) (named : plain (session_name n)).
#[local] Hint Resolve reaches_files reaches_tmux aims_destroy aims_create aims_create_with_command
  aims_create_with_args : moves.

Lemma reaches_destroy_if_exists {E} (wrap : TmuxError -> E) : moves (aimed_at n) (destroy_if_exists (F := F) wrap n).
Proof using named TmuxOk0. unfold destroy_if_exists. moves_tac. Qed.
#[local] Hint Resolve reaches_destroy_if_exists : moves.
Lemma reaches_cleanup_workspace dir : moves (aimed_at n) (cleanup_workspace_state n dir).
Proof using named TmuxOk0. unfold cleanup_workspace_state. moves_tac. Qed.
Lemma reaches_cleanup_orchestrator dir : moves (aimed_at n) (cleanup_orchestrator_state n dir).
Proof using named TmuxOk0. unfold cleanup_orchestrator_state. moves_tac. Qed.
Lemma reaches_create_inner mgr ws fresh : moves (aimed_at n) (create_inner mgr n ws fresh).
Proof using named TmuxOk0. unfold create_inner. moves_tac. apply reaches_tmux. moves_tac. Qed.
#[local] Hint Resolve reaches_cleanup_workspace reaches_cleanup_orchestrator reaches_create_inner : moves.
Lemma reaches_restart mgr ws : moves (aimed_at n) (manager_restart mgr n ws).
Proof using named TmuxOk0. unfold manager_restart. moves_tac. Qed.
Lemma reaches_ensure_orchestrator node parent_name socket_path config_path ax_bin start :
  orchestrator_name (pn_prefix node) = n ->
  moves (aimed_at n) (ensure_orchestrator env node parent_name socket_path config_path ax_bin start).
Proof using named TmuxOk0. intros <-. unfold ensure_orchestrator. cbv zeta. moves_tac. Qed.
End reaches.
End facts.
