(* ===== verification/Reconcile.v ===== *)
(** * The reconcile pass (crates/ax-workspace/src/reconcile.rs).

    [reconcile_desired_state] compares the desired workspaces and orchestrators with the
    records of the previous pass and with the live sessions, and creates, restarts,
    removes or blocks.  Its four loops are folds whose accumulator is the record of the
    next pass and the report; [hash_text] (SHA-1) is a parameter. *)

From stdpp Require Import prelude strings list gmap fin_maps.
From S2P Require Import Prelude Act RustStr RustText Proto Paths ConfigSchema ConfigTree.
From S2P Require Import Tmux Artifacts WorkspaceManager.

Definition RUNTIME_STATE_FILE : string := ".runtime-state.json".
Definition RUNTIME_STATE_VERSION : Z := 1.

(** ** Paths *)

Definition normalize_step (abs : bool) (out component : string) : string :=
  if String.eqb component "." then out
  else if String.eqb component ".."
  then match parent out with
       | Some up => up
       | None => if abs then out else join out ".."
       end
  else join out component.

Definition normalize_path (path : string) : string :=
  let abs := is_absolute path in
  let out := foldl (normalize_step abs) "" (components path) in
  if is_empty out then (if abs then "/" else ".") else out.

Definition clean_path_str (path : string) : string :=
  if is_empty (trim path) then "" else normalize_path path.

Example normalize_examples :
  (normalize_path ".", normalize_path "./a/../b", normalize_path "/a/../../b", normalize_path "../a")
  = (".", "b", "/b", "../a").
Proof. vm_compute. reflexivity. Qed.

Definition clean_runtime (runtime : string) : string :=
  let r := to_ascii_lowercase (trim runtime) in
  if is_empty r || String.eqb r "claude" then "claude"
  else if String.eqb r "codex" then "codex" else r.

(** ** Data *)

Record ReconcileOptions := mkReconcileOptions {
  daemon_running : bool;
  allow_disruptive_changes : bool;
}.

Record ReconcileAction := mkReconcileAction {
  ra_kind : string;
  ra_name : string;
  ra_operation : string;
  ra_details : string;
}.

Record ReconcileReport := mkReconcileReport {
  actions : list ReconcileAction;
  root_manual_restart_required : bool;
  root_manual_restart_reasons : list string;
}.
#[export] Instance ReconcileReport_eta : Updatable ReconcileReport := fun r =>
  mkReconcileReport (actions r) (root_manual_restart_required r) (root_manual_restart_reasons r).
Definition empty_report : ReconcileReport := mkReconcileReport [] false [].

Record DesiredWorkspace := mkDesiredWorkspace {
  dw_name : string;
  dw_workspace : Workspace;
}.
Record DesiredOrchestrator := mkDesiredOrchestrator {
  do_name : string;
  do_node : ProjectNode;
  do_parent_name : string;
  do_artifact_dir : string;
  do_runtime : string;
  do_root : bool;
  do_managed_session : bool;
  do_prompt_hash : string;
}.
Record DesiredState := mkDesiredState {
  ds_socket_path : string;
  ds_config_path : string;
  ds_workspaces : gmap string DesiredWorkspace;
  ds_orchestrators : gmap string DesiredOrchestrator;
  ds_agent_provider_hashes : gmap string string;
  ds_max_concurrent_agents : Z;
}.
#[export] Instance DesiredState_eta : Updatable DesiredState := fun d =>
  mkDesiredState (ds_socket_path d) (ds_config_path d) (ds_workspaces d) (ds_orchestrators d)
    (ds_agent_provider_hashes d) (ds_max_concurrent_agents d).

Record WorkspaceState := mkWorkspaceState {
  wst_name : string;
  wst_dir : string;
  wst_runtime : string;
  wst_agent_provider : string;
  wst_agent_provider_hash : string;
  wst_agent : string;
  wst_shell : string;
  wst_env : gmap string string;
  wst_instructions_hash : string;
}.
Record OrchestratorState := mkOrchestratorState {
  ost_name : string;
  ost_artifact_dir : string;
  ost_runtime : string;
  ost_parent_name : string;
  ost_prompt_hash : string;
  ost_managed_session : bool;
  ost_root : bool;
}.
#[export] Instance WorkspaceState_eq_dec : EqDecision WorkspaceState.
Proof. solve_decision. Defined.
#[export] Instance OrchestratorState_eq_dec : EqDecision OrchestratorState.
Proof. solve_decision. Defined.

Record RuntimeState := mkRuntimeState {
  version : Z;
  rs_socket_path : string;
  rs_config_path : string;
  rs_workspaces : gmap string WorkspaceState;
  rs_orchestrators : gmap string OrchestratorState;
}.
#[export] Instance RuntimeState_eta : Updatable RuntimeState := fun s =>
  mkRuntimeState (version s) (rs_socket_path s) (rs_config_path s) (rs_workspaces s)
    (rs_orchestrators s).
Definition new_runtime_state : RuntimeState := mkRuntimeState RUNTIME_STATE_VERSION "" "" ∅ ∅.

Record SessionSnapshot := mkSessionSnapshot {
  ss_exists : bool;
  ss_attached : bool;
  ss_idle : bool;
}.
Definition no_session : SessionSnapshot := mkSessionSnapshot false false false.

Inductive ReconcileError :=
| ReadState (path : string) (e : IoError)
| ParseState (path : string)
| EncodeState
| WriteState (path : string) (e : IoError)
| RecWorkspace (e : WorkspaceError)
| RecOrchestrator (e : OrchestratorError)
| RecTmux (e : TmuxError).

(** ** Reports *)

Definition add_action (kind name operation details : string) (r : ReconcileReport)
  : ReconcileReport :=
  r <| actions := actions r ++ [mkReconcileAction kind name operation details] |>.

Definition require_root_manual_restart (reason : string) (r : ReconcileReport) : ReconcileReport :=
  let r := r <| root_manual_restart_required := true |> in
  let trimmed := trim reason in
  if is_empty trimmed then r
  else if bool_decide (trimmed ∈ root_manual_restart_reasons r) then r
  else r <| root_manual_restart_reasons := root_manual_restart_reasons r ++ [trimmed] |>.

(** ** Comparing with the previous pass *)

Definition workspace_state_matches (a b : WorkspaceState) : bool :=
  String.eqb (wst_name a) (wst_name b) && String.eqb (wst_dir a) (wst_dir b)
  && String.eqb (wst_runtime a) (wst_runtime b)
  && String.eqb (wst_agent_provider a) (wst_agent_provider b)
  && String.eqb (wst_agent_provider_hash a) (wst_agent_provider_hash b)
  && String.eqb (wst_agent a) (wst_agent b) && String.eqb (wst_shell a) (wst_shell b)
  && String.eqb (wst_instructions_hash a) (wst_instructions_hash b)
  && bool_decide (wst_env a = wst_env b).

Definition orchestrator_state_matches (a b : OrchestratorState) : bool :=
  String.eqb (ost_name a) (ost_name b) && String.eqb (ost_artifact_dir a) (ost_artifact_dir b)
  && String.eqb (ost_runtime a) (ost_runtime b)
  && String.eqb (ost_parent_name a) (ost_parent_name b)
  && String.eqb (ost_prompt_hash a) (ost_prompt_hash b)
  && Bool.eqb (ost_managed_session a) (ost_managed_session b)
  && Bool.eqb (ost_root a) (ost_root b).

Definition disruption_block_reason (s : SessionSnapshot) : option string :=
  if ss_attached s then Some "tmux session is attached"
  else if negb (ss_idle s) then Some "tmux session is not idle" else None.

(** The two guards before a session is disrupted. *)
Definition blocked (opts : ReconcileOptions) (s : SessionSnapshot) : option string :=
  if negb (ss_exists s) then None
  else if negb (allow_disruptive_changes opts)
  then Some "reconcile mode forbids disrupting an existing session"
  else disruption_block_reason s.

Section desired.
Context {F : Type} `{!Prompts F}.
Context (hash_text : string -> string).

Definition non_empty (value : string) : option string :=
  let trimmed := trim value in if is_empty trimmed then None else Some trimmed.

Definition provider_fingerprint (config : Config) (provider_name : string) : string :=
  "id=" +:+ provider_name
  +:+ match agent_providers config !! provider_name with
      | None => ""
      | Some p =>
          newline +:+ "runtime=" +:+ trim (ap_runtime p)
          +:+ newline +:+ "model=" +:+ trim (ap_model p)
          +:+ newline +:+ "base_url=" +:+ trim (ap_base_url p)
          +:+ newline +:+ "env_key=" +:+ trim (ap_env_key p)
          +:+ newline +:+ "wire_api=" +:+ trim (ap_wire_api p)
          +:+ newline +:+ "web_search=" +:+ trim (ap_web_search p)
      end.

Definition agent_provider_hashes (config : Config) : gmap string string :=
  omap (fun ws =>
    let provider_name := default ""
      (match non_empty (w_agent_provider ws) with
       | Some p => Some p
       | None => non_empty (default_agent_provider config)
       end) in
    if is_empty provider_name then None
    else Some (hash_text (provider_fingerprint config provider_name))) (workspaces config).

Definition build_desired_state (config : Config) (socket_path config_path : string) : DesiredState :=
  mkDesiredState socket_path config_path
    (map_imap (fun name ws => Some (mkDesiredWorkspace name ws)) (workspaces config))
    ∅ (agent_provider_hashes config) (max_concurrent_agents config).

Definition desired_orchestrator (env : Env) (node : ProjectNode) (parent_name : string)
    (runtime : Runtime) : result OrchestratorError DesiredOrchestrator :=
  artifact_dir ← orchestrator_dir_for_node env node;
  Ok (mkDesiredOrchestrator (orchestrator_name (pn_prefix node)) node parent_name artifact_dir
        (as_str runtime) (is_empty (pn_prefix node)) (negb (is_empty (pn_prefix node)))
        (hash_text (orchestrator_prompt node (pn_prefix node) parent_name))).

Fixpoint append_desired_orchestrators (env : Env) (node : ProjectNode) (parent_name : string)
    (include_self : bool) (desired : DesiredState) : result OrchestratorError DesiredState :=
  let self_name := orchestrator_name (pn_prefix node) in
  runtime ← orchestrator_runtime_of node;
  desired ← (if include_self
             then entry ← desired_orchestrator env node parent_name runtime;
                  Ok (desired <| ds_orchestrators := <[self_name := entry]> (ds_orchestrators desired) |>)
             else Ok desired);
  let child_parent_name := if include_self then self_name else parent_name in
  (fix children (l : list ProjectNode) (desired : DesiredState) : result OrchestratorError DesiredState :=
     match l with
     | [] => Ok desired
     | child :: l =>
         desired ← append_desired_orchestrators env child child_parent_name true desired;
         children l desired
     end) (pn_children node) desired.

Definition build_desired_state_with_tree (env : Env) (config : Config) (tree : ProjectNode)
    (socket_path config_path : string) (include_root : bool) : result OrchestratorError DesiredState :=
  append_desired_orchestrators env tree "" include_root
    (build_desired_state config socket_path config_path).

Definition desired_workspace_state (entry : DesiredWorkspace) (desired : DesiredState)
  : WorkspaceState :=
  let ws := dw_workspace entry in
  mkWorkspaceState (dw_name entry) (clean_path_str (w_dir ws)) (clean_runtime (w_runtime ws))
    (trim (w_agent_provider ws)) (default "" (ds_agent_provider_hashes desired !! dw_name entry))
    (trim (w_agent ws)) (trim (w_shell ws)) (w_env ws) (hash_text (trim (w_instructions ws))).

Definition desired_orchestrator_state (entry : DesiredOrchestrator) : OrchestratorState :=
  mkOrchestratorState (do_name entry) (clean_path_str (do_artifact_dir entry)) (do_runtime entry)
    (do_parent_name entry) (do_prompt_hash entry) (do_managed_session entry) (do_root entry).
End desired.

(** ** The pass *)

Section reconcile.
Context {F T : Type} `{!FileSystem F} `{!ArtifactFs F} `{!JsonCodec McpConfig}.
Context `{!JsonCodec RuntimeState} `{!CodexHome F} `{!Prompts F} `{!Tmux T}.
Context (env : Env) (hash_text : string -> string).

Definition reconcile_state_path (config_path : string) : string :=
  let base := default "." (parent config_path) in
  join (if is_empty base then "." else base) RUNTIME_STATE_FILE.

Definition load_runtime_state (path : string) (fs : F) : result ReconcileError RuntimeState :=
  match fs_read fs path with
  | Ok data => match from_slice data with
               | Some state => Ok state
               | None => Err (ParseState path)
               end
  | Err IoNotFound => Ok new_runtime_state
  | Err e => Err (ReadState path e)
  end.

Definition save_runtime_state (path : string) (state : RuntimeState) : Act ReconcileError F unit :=
  _ ← match parent path with
      | Some up => file_act (WriteState path) (fun fs => fs_create_dir_all fs up)
      | None => mret tt
      end;
  match to_vec state with
  | None => act_throw EncodeState
  | Some body => file_act (WriteState path) (fun fs => fs_write fs path (body +:+ newline))
  end.

Definition desired_session_names (previous : RuntimeState) (desired : DesiredState) : gset string :=
  dom (rs_workspaces previous) ∪ dom (rs_orchestrators previous)
  ∪ dom (ds_workspaces desired) ∪ dom (ds_orchestrators desired).

Definition snapshot_of (by_name : gmap string SessionInfo) (t : T) (name : string)
  : option SessionSnapshot :=
  info ← by_name !! name;
  let idle := if si_attached info then false else is_idle name t in
  Some (mkSessionSnapshot true (si_attached info) idle).

Definition load_session_snapshots (names : gset string) (t : T)
  : result ReconcileError (gmap string SessionSnapshot) :=
  if decide (names = ∅) then Ok ∅ else
  listed ← map_err RecTmux (list_sessions t);
  let by_name := foldl (fun m s => <[si_workspace s := s]> m) (∅ : gmap string SessionInfo) listed in
  Ok (foldr (fun name m => match snapshot_of by_name t name with
                           | Some s => <[name := s]> m
                           | None => m
                           end) ∅ (elements names)).

Record Reconciler := mkReconciler {
  r_socket_path : string;
  r_config_path : string;
  r_ax_bin : string;
}.
Definition r_manager (r : Reconciler) : Manager :=
  mkManager (r_socket_path r) (Some (r_config_path r)) (r_ax_bin r).

Section pass.
Context (self : Reconciler) (desired : DesiredState) (opts : ReconcileOptions).
Context (previous : RuntimeState) (sessions : gmap string SessionSnapshot) (global_changed : bool).

Abbreviation Acc := (RuntimeState * ReconcileReport)%type.
Definition session_of (name : string) : SessionSnapshot := default no_session (sessions !! name).

Definition keep_workspace (name : string) (record : WorkspaceState) (next : RuntimeState)
  : RuntimeState := next <| rs_workspaces := <[name := record]> (rs_workspaces next) |>.
Definition keep_orchestrator (name : string) (record : OrchestratorState) (next : RuntimeState)
  : RuntimeState := next <| rs_orchestrators := <[name := record]> (rs_orchestrators next) |>.

Definition workspace_artifacts (name : string) (ws : Workspace) : Act ReconcileError (World F T) unit :=
  act_map_err RecWorkspace (on_files
    (ensure_artifacts name ws (r_socket_path self) (Some (r_config_path self)) (r_ax_bin self))).
Definition create_workspace (name : string) (ws : Workspace) : Act ReconcileError (World F T) unit :=
  act_map_err RecWorkspace (manager_create (r_manager self) name ws).

(** One desired workspace. *)
Definition reconcile_workspace (acc : Acc) (ne : string * DesiredWorkspace)
  : Act ReconcileError (World F T) Acc :=
  let '(next, report) := acc in
  let '(name, entry) := ne in
  let record := desired_workspace_state hash_text entry desired in
  let prev := rs_workspaces previous !! name in
  let session := session_of name in
  let matches := match prev with
                 | Some p => workspace_state_matches p record
                 | None => false
                 end && negb global_changed in
  if matches then
    _ ← workspace_artifacts name (dw_workspace entry);
    report ← (if daemon_running opts && negb (ss_exists session)
              then _ ← create_workspace name (dw_workspace entry);
                   mret (add_action "workspace" name "create"
                           "session was missing and has been started" report)
              else mret report);
    mret (keep_workspace name record next, report)
  else
  let action := match prev with Some _ => "restart" | None => "create" end in
  match blocked opts session with
  | Some reason =>
      mret (match prev with Some p => keep_workspace name p next | None => next end,
            add_action "workspace" name ("blocked_" +:+ action) reason report)
  | None =>
      let cleanup_dir := match prev with Some p => wst_dir p | None => wst_dir record end in
      _ ← act_map_err RecWorkspace (cleanup_workspace_state name cleanup_dir);
      _ ← workspace_artifacts name (dw_workspace entry);
      _ ← (if daemon_running opts then create_workspace name (dw_workspace entry) else mret tt);
      let details := if daemon_running opts
                     then "generated artifacts refreshed and session started"
                     else "generated artifacts refreshed" in
      mret (keep_workspace name record next, add_action "workspace" name action details report)
  end.

(** One workspace of the previous pass. *)
Definition remove_workspace (acc : Acc) (np : string * WorkspaceState)
  : Act ReconcileError (World F T) Acc :=
  let '(next, report) := acc in
  let '(name, prev) := np in
  match ds_workspaces desired !! name with
  | Some _ => mret acc
  | None =>
      match blocked opts (session_of name) with
      | Some reason =>
          mret (keep_workspace name prev next,
                add_action "workspace" name "blocked_remove" reason report)
      | None =>
          _ ← act_map_err RecWorkspace (cleanup_workspace_state name (wst_dir prev));
          mret (next, add_action "workspace" name "remove" "generated artifacts cleaned up" report)
      end
  end.

Definition start_orchestrator (entry : DesiredOrchestrator) (start : bool)
  : Act ReconcileError (World F T) unit :=
  act_map_err RecOrchestrator
    (ensure_orchestrator env (do_node entry) (do_parent_name entry) (r_socket_path self)
       (Some (r_config_path self)) (r_ax_bin self) start).

(** One desired orchestrator. *)
Definition reconcile_orchestrator (acc : Acc) (ne : string * DesiredOrchestrator)
  : Act ReconcileError (World F T) Acc :=
  let '(next, report) := acc in
  let '(name, entry) := ne in
  let record := desired_orchestrator_state entry in
  let prev := rs_orchestrators previous !! name in
  let session := session_of name in
  let matches := match prev with
                 | Some p => orchestrator_state_matches p record
                 | None => false
                 end && negb global_changed in
  if do_root entry then
    _ ← start_orchestrator entry false;
    let report :=
      if matches then report else
      let report := require_root_manual_restart
        "root orchestrator artifacts changed; manual relaunch is required" report in
      match prev with
      | Some _ => add_action "orchestrator" name "manual_restart_required"
                    "root foreground orchestrator is not hot-reloaded" report
      | None => add_action "orchestrator" name "create_artifacts"
                  "root orchestrator artifacts created" report
      end in
    mret (keep_orchestrator name record next, report)
  else if matches then
    _ ← start_orchestrator entry (daemon_running opts);
    mret (keep_orchestrator name record next,
          if daemon_running opts && negb (ss_exists session) && do_managed_session entry
          then add_action "orchestrator" name "create" "session was missing and has been started" report
          else report)
  else
  let action := match prev with Some _ => "restart" | None => "create" end in
  match blocked opts session with
  | Some reason =>
      mret (match prev with Some p => keep_orchestrator name p next | None => next end,
            add_action "orchestrator" name ("blocked_" +:+ action) reason report)
  | None =>
      let cleanup_dir := match prev with
                         | Some p => ost_artifact_dir p
                         | None => ost_artifact_dir record
                         end in
      _ ← act_map_err RecOrchestrator (cleanup_orchestrator_state name cleanup_dir);
      _ ← start_orchestrator entry (daemon_running opts);
      let details := if daemon_running opts && do_managed_session entry
                     then "generated artifacts refreshed and session started"
                     else "generated artifacts refreshed" in
      mret (keep_orchestrator name record next, add_action "orchestrator" name action details report)
  end.

(** One orchestrator of the previous pass. *)
Definition remove_orchestrator (acc : Acc) (np : string * OrchestratorState)
  : Act ReconcileError (World F T) Acc :=
  let '(next, report) := acc in
  let '(name, prev) := np in
  match ds_orchestrators desired !! name with
  | Some _ => mret acc
  | None =>
      match blocked opts (session_of name) with
      | Some reason =>
          mret (keep_orchestrator name prev next,
                add_action "orchestrator" name "blocked_remove" reason report)
      | None =>
          _ ← act_map_err RecOrchestrator (cleanup_orchestrator_state name (ost_artifact_dir prev));
          mret (next, add_action "orchestrator" name "remove" "generated artifacts cleaned up" report)
      end
  end.

(** The four loops, in the byte order of the names. *)
Definition run_pass (acc : Acc) : Act ReconcileError (World F T) Acc :=
  acc ← act_fold reconcile_workspace acc (btree_to_list (ds_workspaces desired));
  acc ← act_fold remove_workspace acc (btree_to_list (rs_workspaces previous));
  acc ← act_fold reconcile_orchestrator acc (btree_to_list (ds_orchestrators desired));
  act_fold remove_orchestrator acc (btree_to_list (rs_orchestrators previous)).
End pass.

Definition first_record (desired : DesiredState) : RuntimeState :=
  new_runtime_state
    <| rs_socket_path := clean_path_str (ds_socket_path desired) |>
    <| rs_config_path := clean_path_str (ds_config_path desired) |>.

Definition reconcile_desired_state (self : Reconciler) (desired : DesiredState)
    (opts : ReconcileOptions) : Act ReconcileError (World F T) ReconcileReport :=
  let state_path := reconcile_state_path (r_config_path self) in
  loaded ← gets (fun w => load_runtime_state state_path (files w));
  previous ← act_lift loaded;
  snapshots ← gets (fun w =>
    load_session_snapshots (desired_session_names previous desired) (tmux w));
  sessions ← act_lift snapshots;
  let next := first_record desired in
  let global_changed := negb (String.eqb (rs_socket_path previous) (rs_socket_path next))
                        || negb (String.eqb (rs_config_path previous) (rs_config_path next)) in
  out ← run_pass self desired opts previous sessions global_changed (next, empty_report);
  _ ← on_files (save_runtime_state state_path out.1);
  mret out.2.
End reconcile.
