(* ===== verification/ReconcileFacts.v ===== *)
(** * What a reconcile pass may and must do.

    Theorems about [Reconcile]: a pass kills only sessions that may be disrupted, starts
    every desired session, and settles: a second pass has nothing left to do. *)

From stdpp Require Import prelude strings list gmap fin_maps.
From S2P Require Import Prelude Act RustStr RustText Proto Paths ConfigSchema ConfigTree.
From S2P Require Import Tmux Artifacts WorkspaceManager Reconcile.

(** ** Generic lemmas *)

Lemma foldl_insert_by {V} (key : V -> string) (l : list V) (m : gmap string V) k v0 :
  (forall v, v ∈ l -> key v = k -> v = v0) ->
  foldl (fun m v => <[key v := v]> m) m l !! k
  = if existsb (fun v => String.eqb (key v) k) l then Some v0 else m !! k.
Proof.
  revert m. induction l as [|x l IH]; intros m Hv; [done|].
  cbn [foldl existsb]. rewrite IH by (intros; apply Hv; [by right|done]).
  destruct (String.eqb_spec (key x) k) as [Hk|Hk]; cbn [orb].
  - assert (x = v0) as -> by (apply Hv; [by left|done]).
    rewrite Hk, lookup_insert_eq. by destruct (existsb _ l).
  - by rewrite lookup_insert_ne.
Qed.

Lemma existsb_key {V} (key : V -> string) (l : list V) k :
  existsb (fun v => String.eqb (key v) k) l = true <-> exists v, v ∈ l /\ key v = k.
Proof.
  rewrite existsb_exists. split; intros (v & Hin & E); exists v; rewrite list_elem_of_In in *;
    split; try done; by apply String.eqb_eq.
Qed.

Lemma foldr_insert_opt {V} (f : string -> option V) (l : list string) k :
  foldr (fun n (m : gmap string V) => match f n with Some v => <[n := v]> m | None => m end) ∅ l !! k
  = if decide (k ∈ l) then f k else None.
Proof.
  induction l as [|n l IH]; [done|]. cbn [foldr].
  destruct (decide (k = n)) as [->|Hne].
  - rewrite (decide_True (P := n ∈ n :: l)) by (by left).
    destruct (f n) eqn:Ef; [by rewrite lookup_insert_eq|]. rewrite IH. by case_decide.
  - assert ((if decide (k ∈ n :: l) then f k else None) = (if decide (k ∈ l) then f k else None)) as ->.
    { destruct (decide (k ∈ l)); [rewrite decide_True by (by right); done|].
      rewrite decide_False; [done|]. by intros [?|?]%elem_of_cons. }
    destruct (f n); [by rewrite lookup_insert_ne|done].
Qed.

Lemma clear_subset {T} `{!Tmux T} `{!TmuxOk T} (M N : gset string) (t : T) :
  M ⊆ N -> clear N t -> clear M t.
Proof.
  intros HM (Hn & Hv & Hc). split_and!; [set_solver|done|].
  intros n s Hin Hs. apply Hc; [set_solver|]. destruct Hs as [?|(m & ? & ?)]; [by left|].
  right. exists m. set_solver.
Qed.

Section facts.
Context {F T : Type} `{!FileSystem F} `{!ArtifactFs F} `{!JsonCodec McpConfig}.
Context `{!JsonCodec RuntimeState} `{!CodexHome F} `{!Prompts F} `{!Tmux T} `{!TmuxOk T}.
Context (env : Env) (hash_text : string -> string).
Implicit Types (N : gset string) (w : World F T) (t : T).

(** ** Snapshots are exact *)

Definition row_snapshot t (n : string) (row : SessionRow) : SessionSnapshot :=
  let attached := (row_clients row =? 1)%N in
  mkSessionSnapshot true attached (if attached then false else is_idle n t).

Lemma load_session_snapshots_spec N t sessions n :
  clear N t -> n ∈ N -> load_session_snapshots N t = Ok sessions ->
  sessions !! n = row_snapshot t n <$> session n t.
Proof.
  intros Hc Hn. unfold load_session_snapshots.
  rewrite decide_False by set_solver.
  destruct (list_sessions t) as [l|] eqn:El; [|done]. cbn. intros [= <-].
  rewrite foldr_insert_opt, decide_True by (by apply elem_of_elements).
  apply list_sessions_rows in El as (rows & Hp & ->); [|apply Hc].
  assert (clear {[n]} t) as Hc1 by (apply (clear_subset _ N); set_solver).
  assert (ws_name n) as Hw by (by apply Hc).
  unfold snapshot_of. destruct (session n t) as [row|] eqn:Es.
  - destruct (session_listed rows t n row Hw Hp Es) as (info & Hin & Ew & Ea).
    rewrite (foldl_insert_by si_workspace _ _ n info).
    2: { intros v Hv Ev. destruct (listed_workspace rows t n v Hc1 Hp Hv Ev) as (row' & Es' & Ei').
         destruct (listed_workspace rows t n info Hc1 Hp Hin Ew) as (row'' & Es'' & Ei'').
         congruence. }
    rewrite (proj2 (existsb_key si_workspace _ _)) by (by exists info).
    cbn. unfold row_snapshot. by rewrite Ea.
  - rewrite (foldl_insert_by si_workspace _ _ n (mkSessionInfo "" "" false 0)).
    2: { intros v Hv Ev. destruct (listed_workspace rows t n v Hc1 Hp Hv Ev) as (row' & Es' & _).
         congruence. }
    destruct (existsb _ _) eqn:Ee; [|done]. apply existsb_key in Ee as (v & Hv & Ev).
    destruct (listed_workspace rows t n v Hc1 Hp Hv Ev) as (row' & Es' & _). congruence.
Qed.

(** ** Which sessions a pass may disrupt *)

(** Sessions that were away when the pass began, and with disruptive changes allowed
    those that were idle and not attached to one client. *)
Definition disruptable (opts : ReconcileOptions) t (n : string) : bool :=
  match session n t with
  | None => true
  | Some row => allow_disruptive_changes opts && negb (row_clients row =? 1)%N && is_idle n t
  end.

(** The names whose sessions a pass starts. *)
Definition wanted (desired : DesiredState) (n : string) : Prop :=
  is_Some (ds_workspaces desired !! n)
  \/ exists entry, ds_orchestrators desired !! n = Some entry /\ do_root entry = false.

Definition allowed N (opts : ReconcileOptions) (desired : DesiredState) t (e : Event) : Prop :=
  match e with
  | Created s => exists n, n ∈ N /\ s = session_name n /\ daemon_running opts = true /\ wanted desired n
  | Killed s => exists n, n ∈ N /\ s = session_name n /\ disruptable opts t n = true
  end.

(** The entries of [build_desired_state_with_tree] carry their own names. *)
Definition desired_ok (desired : DesiredState) : Prop :=
  forall n entry, ds_orchestrators desired !! n = Some entry ->
    orchestrator_name (pn_prefix (do_node entry)) = n
    /\ do_root entry = is_empty (pn_prefix (do_node entry))
    /\ do_managed_session entry = negb (do_root entry).

Lemma blocked_row opts t n row :
  blocked opts (row_snapshot t n row) = None ->
  allow_disruptive_changes opts && negb (row_clients row =? 1)%N && is_idle n t = true.
Proof.
  unfold blocked, row_snapshot, disruption_block_reason. cbn.
  destruct (allow_disruptive_changes opts); [cbn|done].
  destruct (row_clients row =? 1)%N; [done|]. cbn. by destruct (is_idle n t).
Qed.

Lemma blocked_none_disruptable opts t n (sessions : gmap string SessionSnapshot) :
  sessions !! n = row_snapshot t n <$> session n t ->
  blocked opts (session_of sessions n) = None -> disruptable opts t n = true.
Proof.
  unfold session_of, disruptable. intros ->. destruct (session n t) as [row|]; [|done].
  apply blocked_row.
Qed.

Lemma blocked_some_exists opts (s : SessionSnapshot) reason :
  blocked opts s = Some reason -> ss_exists s = true.
Proof. unfold blocked. by destruct (ss_exists s). Qed.

Lemma allowed_kill N opts desired t n :
  clear N t -> n ∈ N -> allowed N opts desired t (Killed (session_name n)) ->
  disruptable opts t n = true.
Proof.
  intros (Hw & _) Hn (m & Hm & E & Hd). apply session_name_inj in E; [by subst|by apply Hw..].
Qed.

(** ** The invariant of a pass *)

Section pass.
Context (self : Reconciler) (desired : DesiredState) (opts : ReconcileOptions).
Context (previous : RuntimeState) (sessions : gmap string SessionSnapshot) (global_changed : bool).
Context (N : gset string) (t0 : T).
Hypothesis Hclear : clear N t0.
Hypothesis Hnames : desired_session_names previous desired ⊆ N.
Hypothesis Hsessions : forall n, n ∈ N -> sessions !! n = row_snapshot t0 n <$> session n t0.
Hypothesis Hdesired : desired_ok desired.

Abbreviation may := (allowed N opts desired t0).
Definition invariant t : Prop := clear N t /\ trace may t0 t.

Lemma invariant_start : invariant t0.
Proof. split; [done|apply trace_refl]. Qed.

Lemma invariant_step t t' : invariant t -> trace may t t' -> invariant t'.
Proof.
  intros [Hc Ht] Ht'. split; [|by etrans]. eapply clear_trace, Hc.
  eapply trace_mono, Ht'. intros [s|s]; cbn; naive_solver.
Qed.

Lemma invariant_protected t n :
  invariant t -> n ∈ N -> disruptable opts t0 n = false ->
  session n t = session n t0 /\ is_Some (session n t0).
Proof.
  intros [Hc Ht] Hn Hd. destruct (session n t0) as [row|] eqn:Es.
  - split; [|by eexists]. eapply trace_keeps; [exact Ht| |exact Es].
    intros Hk. apply allowed_kill in Hk; [congruence|done..].
  - unfold disruptable in Hd. by rewrite Es in Hd.
Qed.

(** What one pass on [n] leaves: the invariant, with the other sessions untouched. *)
Definition steps_on n t t' : Prop := invariant t' /\ trace (about n) t t'.

Lemma steps_same n t t' : invariant t -> live t' = live t -> log t' = log t -> steps_on n t t'.
Proof. intros Hi El Eg. split; [|by apply trace_nil]. eapply invariant_step; [done|by apply trace_nil]. Qed.
Lemma steps_trans n t1 t2 t3 : steps_on n t1 t2 -> steps_on n t2 t3 -> steps_on n t1 t3.
Proof. intros [_ H1] [Hi H2]. split; [done|by etrans]. Qed.

Lemma steps_creates {E A} n t (r : result E A) t' :
  invariant t -> n ∈ N -> daemon_running opts = true -> wanted desired n ->
  creates n t r t' -> steps_on n t t'.
Proof.
  intros Hi Hn Hd Hw Hcr. apply creates_trace in Hcr. split.
  - eapply invariant_step; [done|]. eapply trace_mono, Hcr.
    intros [s|s] [-> Hs]; [by exists n|]. exists n. split_and!; [done..|].
    destruct (disruptable opts t0 n) eqn:Hdis; [done|].
    apply (invariant_protected t) in Hdis as [Hs0 [row Hr]]; [|done..]. congruence.
  - eapply trace_mono, Hcr. by intros e [? _].
Qed.

Lemma steps_stops {E A} n t (r : result E A) t' :
  invariant t -> n ∈ N -> disruptable opts t0 n = true -> stops n t r t' -> steps_on n t t'.
Proof.
  intros Hi Hn Hd Hst. apply stops_trace in Hst. split.
  - eapply invariant_step; [done|]. eapply trace_mono, Hst. intros e [-> _]. by exists n.
  - eapply trace_mono, Hst. by intros e [-> _].
Qed.

Lemma steps_other n m t t' :
  steps_on n t t' -> n ∈ N -> m ∈ N -> m <> n -> session m t' = session m t.
Proof.
  intros [_ Ht] Hn Hm Hne. unfold session.
  assert (session_name m <> session_name n) as Hs.
  { intros E. apply session_name_inj in E; [done|by apply Hclear..]. }
  destruct (live t !! session_name m) eqn:E.
  - eapply trace_keeps; [exact Ht|done|exact E].
  - eapply trace_absent; [exact Ht|done|exact E].
Qed.

Lemma in_names n :
  is_Some (ds_workspaces desired !! n) \/ is_Some (ds_orchestrators desired !! n)
  \/ is_Some (rs_workspaces previous !! n) \/ is_Some (rs_orchestrators previous !! n) -> n ∈ N.
Proof.
  intros H. apply Hnames. unfold desired_session_names. rewrite !elem_of_union, !elem_of_dom. tauto.
Qed.

Lemma session_of_spec n :
  n ∈ N -> session_of sessions n = default no_session (row_snapshot t0 n <$> session n t0).
Proof. intros Hn. unfold session_of. by rewrite Hsessions. Qed.

Lemma snapshot_exists n : n ∈ N -> ss_exists (session_of sessions n) = bool_decide (is_Some (session n t0)).
Proof.
  intros Hn. rewrite session_of_spec by done. destruct (session n t0) as [row|]; symmetry.
  - by apply bool_decide_eq_true; eexists.
  - apply bool_decide_eq_false. by intros [? ?].
Qed.

Lemma not_blocked n :
  n ∈ N -> blocked opts (session_of sessions n) = None -> disruptable opts t0 n = true.
Proof. intros Hn. apply blocked_none_disruptable. by apply Hsessions. Qed.

Lemma is_blocked n reason t :
  invariant t -> n ∈ N -> blocked opts (session_of sessions n) = Some reason -> is_Some (session n t).
Proof.
  intros Hi Hn Hb. pose proof (blocked_some_exists _ _ _ Hb) as He.
  rewrite snapshot_exists in He by done. apply bool_decide_eq_true in He as [row Hr].
  assert (disruptable opts t0 n = false) as Hd.
  { rewrite session_of_spec, Hr in Hb by done. unfold disruptable. rewrite Hr.
    unfold blocked, row_snapshot, disruption_block_reason in Hb. cbn in Hb.
    destruct (allow_disruptive_changes opts); [|done]. cbn in Hb.
    destruct (row_clients row =? 1)%N; [done|]. cbn in Hb. by destruct (is_idle n t0). }
  apply (invariant_protected t) in Hd as [-> ?]; done.
Qed.

(** ** The operations of a pass *)

Lemma wp_workspace_artifacts n ws w :
  wp (workspace_artifacts self n ws) (fun _ w' => tmux w' = tmux w) w.
Proof. apply wp_map_err, wp_files. done. Qed.

Lemma wp_create_workspace n ws w :
  invariant (tmux w) -> n ∈ N -> daemon_running opts = true -> wanted desired n ->
  wp (create_workspace self n ws)
     (fun r w' => steps_on n (tmux w) (tmux w') /\ (is_ok r = true -> is_Some (session n (tmux w')))) w.
Proof.
  intros Hi Hn Hd Hw. apply wp_map_err. unfold manager_create.
  eapply wp_mono; [apply (wp_create_inner _ N); [apply Hi|done]|]; cbv beta.
  intros r w' Hcr. split; [by eapply steps_creates|].
  rewrite is_ok_map_err. intros Hok. by eapply creates_created.
Qed.

Lemma wp_cleanup_workspace n dir w :
  invariant (tmux w) -> n ∈ N -> disruptable opts t0 n = true ->
  wp (act_map_err RecWorkspace (cleanup_workspace_state n dir))
     (fun _ w' => steps_on n (tmux w) (tmux w')) w.
Proof.
  intros Hi Hn Hd. apply wp_map_err. eapply wp_mono; [apply (wp_cleanup_workspace_state N); [apply Hi|done]|]; cbv beta.
  intros r w' Hst. by eapply steps_stops.
Qed.
Lemma wp_cleanup_orchestrator n dir w :
  invariant (tmux w) -> n ∈ N -> disruptable opts t0 n = true ->
  wp (act_map_err RecOrchestrator (cleanup_orchestrator_state n dir))
     (fun _ w' => steps_on n (tmux w) (tmux w')) w.
Proof.
  intros Hi Hn Hd. apply wp_map_err. eapply wp_mono; [apply (wp_cleanup_orchestrator_state N); [apply Hi|done]|]; cbv beta.
  intros r w' Hst. by eapply steps_stops.
Qed.

Lemma wp_start_orchestrator n entry start w :
  invariant (tmux w) -> ds_orchestrators desired !! n = Some entry ->
  (start = true -> daemon_running opts = true) ->
  wp (start_orchestrator env self entry start)
     (fun r w' =>
        steps_on n (tmux w) (tmux w')
        /\ (is_ok r = true -> start = true -> do_root entry = false -> is_Some (session n (tmux w')))
        /\ (is_Some (session n (tmux w)) \/ do_root entry = true \/ start = false ->
            live (tmux w') = live (tmux w) /\ log (tmux w') = log (tmux w))) w.
Proof.
  intros Hi He Hstart. destruct (Hdesired _ _ He) as (En & Er & _).
  assert (n ∈ N) as Hn by (apply in_names; right; left; by eexists).
  apply wp_map_err. eapply wp_mono; [apply (wp_ensure_orchestrator env N); [apply Hi|by rewrite En]|]; cbv beta.
  intros r w'. rewrite En, <-Er, is_ok_map_err. destruct (do_root entry) eqn:Eroot; cbn [negb andb].
  { intros [El Eg]. split_and!; [by apply steps_same|done|done]. }
  destruct start; cbn [andb].
  2: { intros [El Eg]. split_and!; [by apply steps_same|done|done]. }
  case_bool_decide as Hs; cbn [negb].
  - intros [El Eg]. split_and!; [by apply steps_same| |done].
    intros _ _ _. unfold session. by rewrite El.
  - intros Hcr. split_and!.
    + eapply steps_creates; [done..|by apply Hstart| |done]. right. by exists entry.
    + intros Hok _ _. by eapply creates_created.
    + intros [?|[?|?]]; done.
Qed.

Definition quiet (r : ReconcileReport) : Prop :=
  Forall (fun a => starts_with (ra_operation a) "blocked_" = false) (actions r).

Lemma quiet_add k n op d r :
  quiet (add_action k n op d r) -> starts_with op "blocked_" = false /\ quiet r.
Proof.
  unfold quiet, add_action. fsimpl. rewrite Forall_app. intros [? [? _]%Forall_cons]. done.
Qed.
Lemma quiet_not_blocked k n op d r : ~ quiet (add_action k n ("blocked_" +:+ op) d r).
Proof. intros [H _]%quiet_add. by rewrite starts_with_app in H. Qed.

Lemma wp_reconcile_workspace acc n entry w :
  invariant (tmux w) -> ds_workspaces desired !! n = Some entry ->
  wp (reconcile_workspace hash_text self desired opts previous sessions global_changed acc (n, entry))
     (fun r w' =>
        steps_on n (tmux w) (tmux w')
        /\ match r with
           | Err _ => True
           | Ok acc' =>
               (daemon_running opts = true -> session n (tmux w) = session n t0 ->
                  is_Some (session n (tmux w')))
               /\ (quiet acc'.2 -> quiet acc.2
                   /\ acc'.1 = keep_workspace n (desired_workspace_state hash_text entry desired) acc.1)
           end) w.
Proof.
  intros Hi He. assert (n ∈ N) as Hn by (apply in_names; left; by eexists).
  assert (wanted desired n) as Hw by (left; by eexists).
  destruct acc as [next report]. unfold reconcile_workspace. cbn [fst snd].
  destruct (match rs_workspaces previous !! n with Some _ => _ | None => _ end && _).
  - (* unchanged: refresh the artifacts, start a missing session *)
    apply wp_bind. eapply wp_mono; [apply wp_workspace_artifacts|]; cbv beta.
    intros [[]|e] w1 E1; [|split; [rewrite E1; by apply steps_same|done]].
    apply wp_bind. rewrite snapshot_exists by done.
    destruct (daemon_running opts) eqn:Hd; cbn [andb].
    2: { apply wp_ret, wp_ret. rewrite E1. split; [by apply steps_same|]. by split. }
    case_bool_decide as Hs; cbn [negb].
    { apply wp_ret, wp_ret. rewrite E1. split; [by apply steps_same|]. split; [|done].
      intros _ ->. done. }
    apply wp_bind. eapply wp_mono; [apply wp_create_workspace; rewrite ?E1; done|]; cbv beta.
    intros [[]|e] w2 [Hst Hok]; rewrite E1 in Hst; [|by split].
    apply wp_ret, wp_ret. split; [done|]. split; [auto|]. by intros [_ ?]%quiet_add.
  - destruct (blocked opts (session_of sessions n)) as [reason|] eqn:Hb.
    + apply wp_ret. split; [by apply steps_same|]. split.
      * intros _ _. by eapply is_blocked.
      * cbn [fst snd]. by intros ?%quiet_not_blocked.
    + apply not_blocked in Hb; [|done].
      apply wp_bind. eapply wp_mono; [by apply wp_cleanup_workspace|]; cbv beta.
      intros [[]|e] w1 H1; [|by split]. apply wp_bind. eapply wp_mono; [apply wp_workspace_artifacts|]; cbv beta.
      intros [[]|e] w2 E2; rewrite <-E2 in H1; [|by split]. apply wp_bind.
      destruct (daemon_running opts) eqn:Hd.
      * eapply wp_mono; [apply wp_create_workspace; [apply H1|done..]|]; cbv beta.
        intros [[]|e] w3 [H3 Hok].
        -- apply wp_ret. split; [by eapply steps_trans|]. split; [auto|]. by intros [_ ?]%quiet_add.
        -- split; [by eapply steps_trans|done].
      * apply wp_ret, wp_ret. split; [done|]. split; [done|]. by intros [_ ?]%quiet_add.
Qed.

Lemma wp_remove_workspace acc n prev w :
  invariant (tmux w) -> rs_workspaces previous !! n = Some prev ->
  wp (remove_workspace desired opts sessions acc (n, prev))
     (fun r w' =>
        steps_on n (tmux w) (tmux w') /\ (is_Some (ds_workspaces desired !! n) -> w' = w)
        /\ match r with
           | Err _ => True
           | Ok acc' => quiet acc'.2 -> quiet acc.2 /\ acc'.1 = acc.1
           end) w.
Proof.
  intros Hi He. assert (n ∈ N) as Hn by (apply in_names; right; right; left; by eexists).
  destruct acc as [next report]. unfold remove_workspace.
  destruct (ds_workspaces desired !! n) as [d|].
  { apply wp_ret. split_and!; [by apply steps_same|done..]. }
  destruct (blocked opts (session_of sessions n)) as [reason|] eqn:Hb.
  - apply wp_ret. split_and!; [by apply steps_same|by intros [? ?]|].
    cbn [fst snd]. by intros ?%(quiet_not_blocked _ _ "remove").
  - apply not_blocked in Hb; [|done].
    apply wp_bind. eapply wp_mono; [by apply wp_cleanup_workspace|]; cbv beta.
    intros [[]|e] w1 H1; [|split_and!; [done|by intros [? ?]|done]].
    apply wp_ret. split_and!; [done|by intros [? ?]|]. by intros [_ ?]%quiet_add.
Qed.

Lemma wp_remove_orchestrator acc n prev w :
  invariant (tmux w) -> rs_orchestrators previous !! n = Some prev ->
  wp (remove_orchestrator desired opts sessions acc (n, prev))
     (fun r w' =>
        steps_on n (tmux w) (tmux w') /\ (is_Some (ds_orchestrators desired !! n) -> w' = w)
        /\ match r with
           | Err _ => True
           | Ok acc' => quiet acc'.2 -> quiet acc.2 /\ acc'.1 = acc.1
           end) w.
Proof.
  intros Hi He. assert (n ∈ N) as Hn by (apply in_names; right; right; right; by eexists).
  destruct acc as [next report]. unfold remove_orchestrator.
  destruct (ds_orchestrators desired !! n) as [d|].
  { apply wp_ret. split_and!; [by apply steps_same|done..]. }
  destruct (blocked opts (session_of sessions n)) as [reason|] eqn:Hb.
  - apply wp_ret. split_and!; [by apply steps_same|by intros [? ?]|].
    cbn [fst snd]. by intros ?%(quiet_not_blocked _ _ "remove").
  - apply not_blocked in Hb; [|done].
    apply wp_bind. eapply wp_mono; [by apply wp_cleanup_orchestrator|]; cbv beta.
    intros [[]|e] w1 H1; [|split_and!; [done|by intros [? ?]|done]].
    apply wp_ret. split_and!; [done|by intros [? ?]|]. by intros [_ ?]%quiet_add.
Qed.

Lemma quiet_manual_restart reason r : quiet (require_root_manual_restart reason r) -> quiet r.
Proof. unfold quiet, require_root_manual_restart. by repeat case_match; fsimpl. Qed.

Lemma wp_reconcile_orchestrator acc n entry w :
  invariant (tmux w) -> ds_orchestrators desired !! n = Some entry ->
  wp (reconcile_orchestrator env self opts previous sessions global_changed acc (n, entry))
     (fun r w' =>
        steps_on n (tmux w) (tmux w')
        /\ match r with
           | Err _ => True
           | Ok acc' =>
               (daemon_running opts = true -> do_root entry = false -> is_Some (session n (tmux w')))
               /\ (quiet acc'.2 -> quiet acc.2
                   /\ acc'.1 = keep_orchestrator n (desired_orchestrator_state entry) acc.1)
           end) w.
Proof.
  intros Hi He. assert (n ∈ N) as Hn by (apply in_names; right; left; by eexists).
  destruct acc as [next report]. unfold reconcile_orchestrator. cbn [fst snd].
  set (same := match rs_orchestrators previous !! n with Some _ => _ | None => _ end && _).
  destruct (do_root entry) eqn:Hroot; [|destruct same].
  - apply wp_bind. eapply wp_mono; [by apply wp_start_orchestrator|]; cbv beta.
    intros [[]|e] w1 (H1 & _); [|by split]. apply wp_ret. split; [done|]. split; [done|].
    cbn [fst snd]. destruct same; [done|].
    destruct (rs_orchestrators previous !! n); by intros [_ ?%quiet_manual_restart]%quiet_add.
  - apply wp_bind. eapply wp_mono; [by apply wp_start_orchestrator|]; cbv beta.
    intros [[]|e] w1 (H1 & Hl & _); [|by split]. apply wp_ret. split; [done|]. split; [auto|].
    cbn [fst snd]. case_match; [|done]. by intros [_ ?]%quiet_add.
  - destruct (blocked opts (session_of sessions n)) as [reason|] eqn:Hb.
    + apply wp_ret. split; [by apply steps_same|]. split.
      * intros _ _. by eapply is_blocked.
      * cbn [fst snd]. by intros ?%quiet_not_blocked.
    + apply not_blocked in Hb; [|done].
      apply wp_bind. eapply wp_mono; [by apply wp_cleanup_orchestrator|]; cbv beta.
      intros [[]|e] w1 H1; [|by split]. apply wp_bind.
      eapply wp_mono; [by apply wp_start_orchestrator; [apply H1|..]|]; cbv beta.
      intros [[]|e] w2 (H2 & Hl & _); [|split; [by eapply steps_trans|done]].
      apply wp_ret. split; [by eapply steps_trans|]. split; [auto|].
      destruct (rs_orchestrators previous !! n); by intros [_ ?]%quiet_add.
Qed.

(** ** The loops *)

Definition keep_desired_workspace (next : RuntimeState) (ne : string * DesiredWorkspace) : RuntimeState :=
  keep_workspace ne.1 (desired_workspace_state hash_text ne.2 desired) next.
Definition keep_desired_orchestrator (next : RuntimeState) (ne : string * DesiredOrchestrator)
  : RuntimeState := keep_orchestrator ne.1 (desired_orchestrator_state ne.2) next.

Definition workspaces_alive t : Prop :=
  forall n, is_Some (ds_workspaces desired !! n) -> is_Some (session n t).
Definition orchestrators_alive t : Prop :=
  forall n entry, ds_orchestrators desired !! n = Some entry -> do_root entry = false ->
    is_Some (session n t).

Lemma elem_of_btree_split {V} (m : gmap string V) done_ n v todo :
  btree_to_list m = done_ ++ (n, v) :: todo ->
  m !! n = Some v /\ (n ∉ todo.*1) /\ (forall k, k ∈ todo.*1 -> is_Some (m !! k)).
Proof.
  intros E. split_and!.
  - apply elem_of_btree_to_list. rewrite E. set_solver.
  - pose proof (btree_keys_NoDup m) as Hnd. unfold btree_keys in Hnd. rewrite E in Hnd.
    rewrite fmap_app in Hnd. apply NoDup_app in Hnd as (_ & _ & Hnd). cbn in Hnd.
    by apply NoDup_cons in Hnd as [? _].
  - intros k Hk. apply elem_of_btree_keys. unfold btree_keys. rewrite E, fmap_app. cbn. set_solver.
Qed.

Lemma wp_workspace_loop acc w :
  tmux w = t0 ->
  wp (act_fold (reconcile_workspace hash_text self desired opts previous sessions global_changed)
        acc (btree_to_list (ds_workspaces desired)))
     (on_ok (fun acc' w' =>
               (daemon_running opts = true -> workspaces_alive (tmux w'))
               /\ (quiet acc'.2 -> quiet acc.2 /\ acc'.1
                     = foldl keep_desired_workspace acc.1 (btree_to_list (ds_workspaces desired))))
            (fun w' => invariant (tmux w'))) w.
Proof.
  intros Hw.
  set (all := btree_to_list (ds_workspaces desired)).
  eapply wp_mono; [apply (wp_fold _ (fun todo acc' w' =>
     invariant (tmux w')
     /\ (forall n, n ∈ todo.*1 -> session n (tmux w') = session n t0)
     /\ (daemon_running opts = true -> forall n, is_Some (ds_workspaces desired !! n) ->
           n ∉ todo.*1 -> is_Some (session n (tmux w')))
     /\ (quiet acc'.2 -> quiet acc.2
         /\ foldl keep_desired_workspace acc'.1 todo = foldl keep_desired_workspace acc.1 all))
     (fun w' => invariant (tmux w')))|]; cbv beta.
  - intros [n entry] done_ todo acc1 w1 E (Hi & Hsame & Hlive & Hq).
    destruct (elem_of_btree_split _ _ _ _ _ E) as (He & Hnt & Htodo).
    assert (n ∈ N) as Hn by (apply in_names; left; by eexists).
    eapply wp_mono; [by apply wp_reconcile_workspace|]; cbv beta.
    intros r w2 [Hst Hr]. split; [apply Hst|]. destruct r as [acc2|]; [|done].
    destruct Hr as [Ha Hq2]. split_and!; [apply Hst|..].
    + intros m Hm. rewrite (steps_other n m _ _ Hst); [|done|..].
      * apply Hsame. by right.
      * apply in_names. left. by apply Htodo.
      * intros ->. done.
    + intros Hd m Hm Hmt. destruct (decide (m = n)) as [->|Hne].
      { apply Ha; [done|]. apply Hsame. by left. }
      rewrite (steps_other n m _ _ Hst); [|done|apply in_names; by left|done].
      apply Hlive; [done..|]. cbn. intros [?|?]%elem_of_cons; done.
    + intros [Hq1 E2]%Hq2. apply Hq in Hq1 as [? <-]. split; [done|]. cbn [foldl]. by rewrite E2.
  - split_and!; [rewrite Hw; apply invariant_start|by rewrite Hw| |done].
    intros _ n Hn Hnot. exfalso. apply Hnot. by apply elem_of_btree_keys.
  - rewrite Hw. apply invariant_start.
  - intros r w' [Hi Hr]. split; [done|]. destruct r as [acc'|]; [|done].
    destruct Hr as (_ & _ & Hl & Hq). split; [|done]. intros Hd n Hn. apply Hl; [done..|].
    apply not_elem_of_nil.
Qed.

(** A removal loop keeps every session outside the names it removes. *)
Lemma wp_removal_loop {V} (prev : gmap string V)
    (body : RuntimeState * ReconcileReport -> string * V -> Act ReconcileError (World F T) _)
    (kept : string -> Prop) acc w :
  (forall acc n v w, invariant (tmux w) -> prev !! n = Some v ->
     wp (body acc (n, v)) (fun r w' =>
        steps_on n (tmux w) (tmux w') /\ (kept n -> w' = w)
        /\ match r with
           | Err _ => True
           | Ok acc' => quiet acc'.2 -> quiet acc.2 /\ acc'.1 = acc.1
           end) w) ->
  (forall n, is_Some (prev !! n) -> n ∈ N) ->
  invariant (tmux w) ->
  wp (act_fold body acc (btree_to_list prev))
     (on_ok (fun acc' w' =>
               (forall n, n ∈ N -> kept n \/ prev !! n = None ->
                  session n (tmux w') = session n (tmux w))
               /\ (quiet acc'.2 -> quiet acc.2 /\ acc'.1 = acc.1))
            (fun w' => invariant (tmux w'))) w.
Proof.
  intros Hbody Hprev Hi0.
  eapply wp_mono; [apply (wp_fold _ (fun todo acc' w' =>
     invariant (tmux w')
     /\ (forall n, n ∈ N -> kept n \/ prev !! n = None -> session n (tmux w') = session n (tmux w))
     /\ (quiet acc'.2 -> quiet acc.2 /\ acc'.1 = acc.1))
     (fun w' => invariant (tmux w')))|]; cbv beta.
  - intros [n v] done_ todo acc1 w1 E (Hi & Hsame & Hq).
    destruct (elem_of_btree_split _ _ _ _ _ E) as (He & _ & _).
    eapply wp_mono; [by apply Hbody|]; cbv beta.
    intros r w2 (Hst & Hkeep & Hr). split; [apply Hst|]. destruct r as [acc2|]; [|done].
    split_and!; [apply Hst|..].
    + intros m Hm Hk. rewrite <-Hsame by done. destruct (decide (m = n)) as [->|Hne].
      * destruct Hk as [Hk|Hk]; [|congruence]. by rewrite Hkeep.
      * apply (steps_other n m _ _ Hst); [|done..]. apply Hprev. by eexists.
    + intros [Hq1 E2]%Hr. apply Hq in Hq1 as [? <-]. done.
  - done.
  - done.
  - intros r w' [Hi Hr]. split; [done|]. destruct r as [acc'|]; [|done]. apply Hr.
Qed.

Lemma wp_orchestrator_loop acc w :
  invariant (tmux w) ->
  wp (act_fold (reconcile_orchestrator env self opts previous sessions global_changed)
        acc (btree_to_list (ds_orchestrators desired)))
     (on_ok (fun acc' w' =>
               (daemon_running opts = true -> orchestrators_alive (tmux w'))
               /\ (forall n, n ∈ N -> ds_orchestrators desired !! n = None ->
                    session n (tmux w') = session n (tmux w))
               /\ (quiet acc'.2 -> quiet acc.2 /\ acc'.1
                     = foldl keep_desired_orchestrator acc.1 (btree_to_list (ds_orchestrators desired))))
            (fun w' => invariant (tmux w'))) w.
Proof.
  intros Hi0. set (all := btree_to_list (ds_orchestrators desired)).
  eapply wp_mono; [apply (wp_fold _ (fun todo acc' w' =>
     invariant (tmux w')
     /\ (daemon_running opts = true -> forall n entry, ds_orchestrators desired !! n = Some entry ->
           do_root entry = false -> n ∉ todo.*1 -> is_Some (session n (tmux w')))
     /\ (forall n, n ∈ N -> ds_orchestrators desired !! n = None ->
          session n (tmux w') = session n (tmux w))
     /\ (quiet acc'.2 -> quiet acc.2
         /\ foldl keep_desired_orchestrator acc'.1 todo = foldl keep_desired_orchestrator acc.1 all))
     (fun w' => invariant (tmux w')))|]; cbv beta.
  - intros [n entry] done_ todo acc1 w1 E (Hi & Hlive & Hsame & Hq).
    destruct (elem_of_btree_split _ _ _ _ _ E) as (He & Hnt & Htodo).
    assert (n ∈ N) as Hn by (apply in_names; right; left; by eexists).
    eapply wp_mono; [by apply wp_reconcile_orchestrator|]; cbv beta.
    intros r w2 [Hst Hr]. split; [apply Hst|]. destruct r as [acc2|]; [|done].
    destruct Hr as [Ha Hq2]. split_and!; [apply Hst|..].
    + intros Hd m e Hm Hroot Hmt. destruct (decide (m = n)) as [->|Hne].
      { apply Ha; [done|]. congruence. }
      rewrite (steps_other n m _ _ Hst); [|done|apply in_names; right; left; by eexists|done].
      apply (Hlive Hd m e); [done..|]. cbn. intros [?|?]%elem_of_cons; done.
    + intros m Hm Hno. rewrite <-Hsame by done. apply (steps_other n m _ _ Hst); [done..|].
      intros ->. congruence.
    + intros [Hq1 E2]%Hq2. apply Hq in Hq1 as [? <-]. split; [done|]. cbn [foldl]. by rewrite E2.
  - split_and!; [done| |done|done].
    intros _ n e Hn _ Hnot. exfalso. apply Hnot. apply elem_of_btree_keys. by eexists.
  - done.
  - intros r w' [Hi Hr]. split; [done|]. destruct r as [acc'|]; [|done].
    destruct Hr as (_ & Hl & Hs & Hq). split_and!; [|done|done]. intros Hd n e Hn Hroot.
    apply (Hl Hd n e); [done..|]. apply not_elem_of_nil.
Qed.

(** The record a pass without blocks writes. *)
Definition settled : RuntimeState :=
  foldl keep_desired_orchestrator
    (foldl keep_desired_workspace (first_record desired) (btree_to_list (ds_workspaces desired)))
    (btree_to_list (ds_orchestrators desired)).

(** No workspace takes the name of an orchestrator. *)
Definition separate : Prop :=
  forall n, is_Some (ds_workspaces desired !! n) ->
    ds_orchestrators desired !! n = None /\ rs_orchestrators previous !! n = None.

Lemma wp_run_pass w :
  tmux w = t0 ->
  wp (run_pass env hash_text self desired opts previous sessions global_changed
        (first_record desired, empty_report))
     (on_ok (fun acc w' =>
               (daemon_running opts = true -> orchestrators_alive (tmux w')
                  /\ (separate -> workspaces_alive (tmux w')))
               /\ (quiet acc.2 -> acc.1 = settled))
            (fun w' => invariant (tmux w'))) w.
Proof.
  intros Hw. unfold run_pass. apply wp_bind. eapply wp_mono; [by apply wp_workspace_loop|]; cbv beta.
  intros [acc1|e] w1 [Hi1 H1]; [|by split]. destruct H1 as [Ha1 Hq1].
  apply wp_bind. eapply wp_mono; [apply (wp_removal_loop (rs_workspaces previous) _
      (fun n => is_Some (ds_workspaces desired !! n))); [|..|done]|]; cbv beta.
  { intros. by apply wp_remove_workspace. }
  { intros n Hn. apply in_names. tauto. }
  intros [acc2|e] w2 [Hi2 H2]; [|by split]. destruct H2 as [Hs2 Hq2].
  apply wp_bind. eapply wp_mono; [by apply wp_orchestrator_loop|]; cbv beta.
  intros [acc3|e] w3 [Hi3 H3]; [|by split]. destruct H3 as (Ha3 & Hs3 & Hq3).
  eapply wp_mono; [apply (wp_removal_loop (rs_orchestrators previous) _
      (fun n => is_Some (ds_orchestrators desired !! n))); [|..|done]|]; cbv beta.
  { intros. by apply wp_remove_orchestrator. }
  { intros n Hn. apply in_names. tauto. }
  intros r w4 [Hi4 H4]. split; [done|]. destruct r as [acc4|e]; [|done]. destruct H4 as [Hs4 Hq4].
  split.
  - intros Hd. split.
    + intros n entry He Hroot. rewrite Hs4; [by eapply Ha3|apply in_names; right; left; by eexists|].
      left. by eexists.
    + intros Hsep n Hn. assert (n ∈ N) by (apply in_names; by left). destruct (Hsep n Hn) as [Ho Hp].
      rewrite Hs4, Hs3, Hs2 by auto. by apply Ha1.
  - intros Hq. apply Hq4 in Hq as [Hq E4]. apply Hq3 in Hq as [Hq E3]. apply Hq2 in Hq as [Hq E2].
    apply Hq1 in Hq as [_ E1]. unfold settled. cbn [fst] in E1. by rewrite E4, E3, E2, E1.
Qed.

(** ** A pass that has nothing to do *)

Definition up_to_date : Prop :=
  global_changed = false
  /\ (forall n, rs_workspaces previous !! n
        = (fun e => desired_workspace_state hash_text e desired) <$> ds_workspaces desired !! n)
  /\ (forall n, rs_orchestrators previous !! n
        = desired_orchestrator_state <$> ds_orchestrators desired !! n)
  /\ (daemon_running opts = true -> workspaces_alive t0 /\ orchestrators_alive t0).

(** Sessions and report as they were. *)
Definition idle_step (report : ReconcileReport) (r : result ReconcileError (RuntimeState * ReconcileReport))
    t : Prop :=
  (live t = live t0 /\ log t = log t0) /\ match r with Ok acc => acc.2 = report | Err _ => True end.

Lemma workspace_state_matches_refl a : workspace_state_matches a a = true.
Proof. unfold workspace_state_matches. by rewrite !String.eqb_refl, bool_decide_true. Qed.
Lemma orchestrator_state_matches_refl a : orchestrator_state_matches a a = true.
Proof. unfold orchestrator_state_matches. by rewrite !String.eqb_refl, !eqb_reflx. Qed.

Lemma idle_workspace acc n entry w :
  up_to_date -> live (tmux w) = live t0 -> log (tmux w) = log t0 ->
  ds_workspaces desired !! n = Some entry ->
  wp (reconcile_workspace hash_text self desired opts previous sessions global_changed acc (n, entry))
     (fun r w' => idle_step acc.2 r (tmux w')) w.
Proof.
  intros (Hg & Hpw & _ & Ha) El Eg He. destruct acc as [next report].
  assert (n ∈ N) as Hn by (apply in_names; left; by eexists).
  unfold reconcile_workspace. rewrite Hpw, He. cbn [fmap option_fmap option_map].
  rewrite workspace_state_matches_refl, Hg. cbn [andb negb].
  apply wp_bind. eapply wp_mono; [apply wp_workspace_artifacts|]; cbv beta.
  intros [[]|e] w1 E1; [|by rewrite E1]. apply wp_bind. rewrite snapshot_exists by done.
  assert (daemon_running opts && negb (bool_decide (is_Some (session n t0))) = false) as ->.
  { destruct (daemon_running opts); [|done]. rewrite bool_decide_true; [done|].
    apply Ha; [done|]. by eexists. }
  apply wp_ret, wp_ret. by rewrite E1.
Qed.

Lemma idle_orchestrator acc n entry w :
  up_to_date -> live (tmux w) = live t0 -> log (tmux w) = log t0 ->
  ds_orchestrators desired !! n = Some entry ->
  wp (reconcile_orchestrator env self opts previous sessions global_changed acc (n, entry))
     (fun r w' => idle_step acc.2 r (tmux w')) w.
Proof.
  intros (Hg & _ & Hpo & Ha) El Eg He. destruct acc as [next report].
  assert (n ∈ N) as Hn by (apply in_names; right; left; by eexists).
  assert (invariant (tmux w)) as Hi.
  { eapply invariant_step; [apply invariant_start|by apply trace_nil]. }
  unfold reconcile_orchestrator. rewrite Hpo, He. cbn [fmap option_fmap option_map].
  rewrite orchestrator_state_matches_refl, Hg. cbn [andb negb].
  destruct (do_root entry) eqn:Hroot.
  - apply wp_bind. eapply wp_mono; [by apply wp_start_orchestrator|]; cbv beta.
    intros r w1 (_ & _ & Hsame). destruct Hsame as [El1 Eg1]; [tauto|].
    destruct r as [[]|e]; [apply wp_ret|]; split; [|done| |done]; split; congruence.
  - apply wp_bind. eapply wp_mono; [by apply wp_start_orchestrator|]; cbv beta.
    intros r w1 (_ & _ & Hsame). destruct Hsame as [El1 Eg1].
    { destruct (daemon_running opts) eqn:Hd; [left|tauto]. unfold session. rewrite El.
      by eapply (proj2 (Ha eq_refl)). }
    destruct r as [[]|e]; [apply wp_ret|]; (split; [split; congruence|]); [|done]. cbn [snd].
    rewrite snapshot_exists by done. destruct (daemon_running opts) eqn:Hd; [|done].
    rewrite bool_decide_true; [done|]. by eapply (proj2 (Ha eq_refl)).
Qed.

Lemma wp_idle_pass w next report :
  up_to_date -> tmux w = t0 ->
  wp (run_pass env hash_text self desired opts previous sessions global_changed (next, report))
     (fun r w' => idle_step report r (tmux w')) w.
Proof.
  intros Hup Hw.
  assert (forall V (m : gmap string V) body acc w, live (tmux w) = live t0 -> log (tmux w) = log t0 ->
    (forall acc n v w, live (tmux w) = live t0 -> log (tmux w) = log t0 -> m !! n = Some v ->
       wp (body acc (n, v)) (fun r w' => idle_step acc.2 r (tmux w')) w) ->
    wp (act_fold body acc (btree_to_list m)) (fun r w' => idle_step acc.2 r (tmux w')) w) as Hloop.
  { intros V m body acc1 w1 El Eg Hb.
    eapply wp_mono; [apply (wp_fold _ (fun _ acc' w' => (live (tmux w') = live t0 /\ log (tmux w') = log t0)
       /\ acc'.2 = acc1.2) (fun w' => live (tmux w') = live t0 /\ log (tmux w') = log t0))|]; cbv beta.
    - intros [n v] done_ todo acc2 w2 E [[El2 Eg2] Er].
      destruct (elem_of_btree_split _ _ _ _ _ E) as (He & _ & _).
      eapply wp_mono; [by apply Hb|]; cbv beta. intros r w3 [Hs Hr]. split; [done|].
      destruct r as [acc3|]; [|done]. split; [done|congruence].
    - done.
    - done.
    - intros r w2 [Hs Hr]. split; [done|]. destruct r as [acc2|]; [|done]. apply Hr. }
  pose proof Hup as (_ & Hpw & Hpo & _).
  unfold run_pass. apply wp_bind. eapply wp_mono; [apply Hloop; [by rewrite Hw..|]|]; cbv beta.
  { intros. by apply idle_workspace. }
  intros [acc1|e] w1 [[El1 Eg1] E1]; [|by split]. cbn [snd] in E1.
  apply wp_bind. eapply wp_mono; [apply Hloop; [done..|]|]; cbv beta.
  { intros acc n v w2 El Eg Hn. unfold remove_workspace. destruct acc as [a b].
    specialize (Hpw n). rewrite Hn in Hpw. destruct (ds_workspaces desired !! n); [|done].
    by apply wp_ret. }
  intros [acc2|e] w2 [[El2 Eg2] E2]; [|by split].
  apply wp_bind. eapply wp_mono; [apply Hloop; [done..|]|]; cbv beta.
  { intros. by apply idle_orchestrator. }
  intros [acc3|e] w3 [[El3 Eg3] E3]; [|by split].
  eapply wp_mono; [apply Hloop; [done..|]|]; cbv beta.
  { intros acc n v w4 El Eg Hn. unfold remove_orchestrator. destruct acc as [a b].
    specialize (Hpo n). rewrite Hn in Hpo. destruct (ds_orchestrators desired !! n); [|done].
    by apply wp_ret. }
  intros r w4 [Hs4 E4]. split; [done|]. destruct r as [acc4|]; [|done]. congruence.
Qed.

Lemma settled_up_to_date n :
  rs_workspaces settled !! n
  = (fun e => desired_workspace_state hash_text e desired) <$> ds_workspaces desired !! n
  /\ rs_orchestrators settled !! n = desired_orchestrator_state <$> ds_orchestrators desired !! n
  /\ rs_socket_path settled = rs_socket_path (first_record desired)
  /\ rs_config_path settled = rs_config_path (first_record desired).
Proof.
  assert (forall l s, rs_workspaces (foldl keep_desired_orchestrator s l) = rs_workspaces s
    /\ rs_socket_path (foldl keep_desired_orchestrator s l) = rs_socket_path s
    /\ rs_config_path (foldl keep_desired_orchestrator s l) = rs_config_path s
    /\ rs_orchestrators (foldl keep_desired_orchestrator s l)
       = foldl (fun m ne => <[ne.1 := desired_orchestrator_state ne.2]> m) (rs_orchestrators s) l) as Ho.
  { induction l as [|x l IH]; intros s; [done|]. cbn [foldl]. destruct (IH (keep_desired_orchestrator s x)) as (-> & -> & -> & ->).
    unfold keep_desired_orchestrator, keep_orchestrator. by fsimpl. }
  assert (forall l s, rs_orchestrators (foldl keep_desired_workspace s l) = rs_orchestrators s
    /\ rs_socket_path (foldl keep_desired_workspace s l) = rs_socket_path s
    /\ rs_config_path (foldl keep_desired_workspace s l) = rs_config_path s
    /\ rs_workspaces (foldl keep_desired_workspace s l)
       = foldl (fun m ne => <[ne.1 := desired_workspace_state hash_text ne.2 desired]> m) (rs_workspaces s) l) as Hws.
  { induction l as [|x l IH]; intros s; [done|]. cbn [foldl]. destruct (IH (keep_desired_workspace s x)) as (-> & -> & -> & ->).
    unfold keep_desired_workspace, keep_workspace. by fsimpl. }
  unfold settled.
  destruct (Ho (btree_to_list (ds_orchestrators desired))
    (foldl keep_desired_workspace (first_record desired) (btree_to_list (ds_workspaces desired)))) as (-> & -> & -> & ->).
  destruct (Hws (btree_to_list (ds_workspaces desired)) (first_record desired)) as (-> & -> & -> & ->).
  split_and!; [| |done|done].
  - rewrite (foldl_own_key _ (fun e _ => Some (desired_workspace_state hash_text e desired))).
    + by destruct (ds_workspaces desired !! n).
    + intros m [k e] k'. cbn [fst snd]. destruct (decide (k' = k)) as [->|]; by simplify_map_eq.
  - rewrite (foldl_own_key _ (fun e _ => Some (desired_orchestrator_state e))).
    + by destruct (ds_orchestrators desired !! n).
    + intros m [k e] k'. cbn [fst snd]. destruct (decide (k' = k)) as [->|]; by simplify_map_eq.
Qed.
End pass.

(** ** The theorems *)

Section theorems.
Context `{!FileSystemOk F} `{!JsonFileOk RuntimeState}.
Context (self : Reconciler) (desired : DesiredState) (opts : ReconcileOptions).

Abbreviation pass := (reconcile_desired_state env hash_text self desired opts).
Definition state_path : string := reconcile_state_path (r_config_path self).
Definition loaded w : result ReconcileError RuntimeState := load_runtime_state state_path (files w).

(** The whole pass around [run_pass]. *)
Lemma wp_pass previous w (Q : result ReconcileError ReconcileReport -> World F T -> Prop) :
  loaded w = Ok previous ->
  (forall e, Q (Err e) w) ->
  (forall sessions, load_session_snapshots (desired_session_names previous desired) (tmux w) = Ok sessions ->
     wp (run_pass env hash_text self desired opts previous sessions
           (negb (String.eqb (rs_socket_path previous) (rs_socket_path (first_record desired)))
            || negb (String.eqb (rs_config_path previous) (rs_config_path (first_record desired))))
           (first_record desired, empty_report))
        (fun r w' => match r with
                     | Ok acc =>
                         (forall e f, Q (Err e) (mkWorld f (tmux w')))
                         /\ forall f, save_runtime_state state_path acc.1 (files w') = (Ok tt, f) ->
                              Q (Ok acc.2) (mkWorld f (tmux w'))
                     | Err e => Q (Err e) w'
                     end) w) ->
  wp pass Q w.
Proof.
  intros Hl HE Hrun. unfold reconcile_desired_state. fold state_path.
  apply wp_bind, wp_gets. change (load_runtime_state state_path (files w)) with (loaded w). rewrite Hl.
  apply wp_bind, wp_lift. apply wp_bind, wp_gets, wp_bind, wp_lift.
  destruct (load_session_snapshots _ (tmux w)) as [sessions|e]; [|apply HE].
  apply wp_bind. eapply wp_mono; [by apply Hrun|]; cbv beta. intros [acc|e] w' HQ; [|done].
  destruct HQ as [HQE HQO]. apply wp_bind, wp_on. unfold wp.
  destruct (save_runtime_state state_path acc.1 (files w')) as [[[]|e] f] eqn:Es; cbn [fst snd].
  - by apply HQO.
  - apply HQE.
Qed.

Lemma snapshots_exact N w sessions :
  clear N (tmux w) -> load_session_snapshots N (tmux w) = Ok sessions ->
  forall n, n ∈ N -> sessions !! n = row_snapshot (tmux w) n <$> session n (tmux w).
Proof. intros Hc Hs n Hn. by eapply load_session_snapshots_spec. Qed.

(** A pass: what it does to the sessions, and what it leaves when it succeeds. *)
Lemma pass_spec previous w :
  let N := desired_session_names previous desired in
  loaded w = Ok previous -> clear N (tmux w) -> desired_ok desired ->
  wp pass (on_ok (fun report w' =>
             (daemon_running opts = true -> orchestrators_alive desired (tmux w')
                /\ (separate desired previous -> workspaces_alive desired (tmux w')))
             /\ (quiet report -> loaded w' = Ok (settled desired)))
           (fun w' => invariant desired opts N (tmux w) (tmux w'))) w.
Proof.
  intros N Hl Hc Hd.
  assert (invariant desired opts N (tmux w) (tmux w)) as Hi0 by (split; [done|apply trace_refl]).
  apply (wp_pass previous); [done|by split|].
  intros sessions Hs. pose proof (snapshots_exact N w sessions Hc Hs) as Hsess.
  eapply wp_mono; [by apply (wp_run_pass _ _ _ _ _ _ N (tmux w))|]; cbv beta.
  intros [acc|e] w' [Hi H]; [|by split]. split; [by split|]. intros f Hsave. split; [done|].
  destruct H as [Ha Hq]. cbn [tmux]. split; [done|]. intros Hquiet. apply Hq in Hquiet as <-.
  unfold loaded, load_runtime_state. cbn [files]. revert Hsave. unfold save_runtime_state.
  assert (forall g, (match to_vec acc.1 with
      | Some body => file_act (WriteState state_path) (fun fs => fs_write fs state_path (body +:+ newline))
      | None => act_throw EncodeState end) g = (Ok tt, f) ->
    match fs_read f state_path with
    | Ok data => match from_slice data with Some state => Ok state | None => Err (ParseState state_path) end
    | Err IoNotFound => Ok new_runtime_state
    | Err e => Err (ReadState state_path e) end = Ok acc.1) as Hw.
  { intros g. destruct (to_vec acc.1) as [body|] eqn:Ev; [|done]. unfold file_act.
    destruct (fs_write g state_path (body +:+ newline)) as [g'|] eqn:Ew; [|done]. intros [= <-].
    apply fs_read_write in Ew. rewrite Ew. by rewrite (from_slice_file _ _ Ev). }
  unfold mbind, Act_bind. destruct (parent state_path) as [up|].
  - unfold file_act at 1. destruct (fs_create_dir_all (files w') up) as [g|]; [|done]. apply Hw.
  - apply Hw.
Qed.

(** C34: A reconcile pass disrupts no session it may not.  Let the names it deals with, those
    of the desired and of the previous state, be free of [_], let no live session's name
    extend the session name of one of them, and let the names of live sessions have no
    white space ([clear]; [underscore_session_is_killed] shows a name with [_], under
    which the pass does not recognise its own session).  Then, whatever happens in the
    pass, also when it fails half way: it kills only sessions of these names that were
    away when it began or, if disruptive changes are allowed, were idle and not attached;
    it creates only desired sessions while the daemon runs; and a session that was
    attached or busy, or any session when disruption is forbidden, is still the same one
    afterwards.  Attached means, as in the code, that exactly one client is: a session
    with two clients counts as detached ([two_clients_count_as_detached]). *)
Theorem reconcile_spares_sessions previous w :
  let N := desired_session_names previous desired in
  loaded w = Ok previous -> clear N (tmux w) -> desired_ok desired ->
  let w' := (pass w).2 in
  (exists es, log (tmux w') = log (tmux w) ++ es /\ Forall (allowed N opts desired (tmux w)) es)
  /\ (forall n row, n ∈ N -> session n (tmux w) = Some row ->
        allow_disruptive_changes opts = false \/ row_clients row = 1%N \/ is_idle n (tmux w) = false ->
        session n (tmux w') = Some row).
Proof.
  intros N Hl Hc Hd w'. destruct (pass_spec previous w Hl Hc Hd) as [[Hc' Ht] _]. fold w' in Hc', Ht.
  split; [by apply trace_log|]. intros n row Hn Hs Hp.
  assert (disruptable opts (tmux w) n = false) as Hdis.
  { unfold disruptable. rewrite Hs. destruct Hp as [-> | [-> | ->]]; [done| |by rewrite andb_false_r].
    by rewrite N.eqb_refl, andb_false_r. }
  rewrite <-Hs.
  apply (invariant_protected desired opts N (tmux w) Hc (tmux w') n) in Hdis as [-> _]; done.
Qed.

(** C35: A reconcile pass that succeeds while the daemon runs leaves every desired session
    alive: each managed orchestrator, and each workspace, the latter if no desired
    workspace has the name of an orchestrator of this or the previous pass ([separate];
    otherwise [reused_name_ends_stopped]).  The names the pass deals with are as in
    [clear]: without [_], and none whose session name a live session's name extends. *)
Theorem reconcile_starts_everything previous w report w' :
  loaded w = Ok previous -> clear (desired_session_names previous desired) (tmux w) ->
  desired_ok desired -> daemon_running opts = true ->
  pass w = (Ok report, w') ->
  (forall n entry, ds_orchestrators desired !! n = Some entry -> do_managed_session entry = true ->
     is_Some (session n (tmux w')))
  /\ (separate desired previous ->
      forall n, is_Some (ds_workspaces desired !! n) -> is_Some (session n (tmux w'))).
Proof.
  intros Hl Hc Hd Hrun Hp. pose proof (pass_spec previous w Hl Hc Hd) as Hspec.
  unfold wp in Hspec. rewrite Hp in Hspec. destruct Hspec as [_ [Ha _]].
  destruct (Ha Hrun) as [Ho Hw]. split; [|done]. intros n entry He Hm. apply (Ho n entry He).
  destruct (Hd n entry He) as (_ & _ & Em). rewrite Hm in Em. by destruct (do_root entry).
Qed.

(** Reconciling settles.  After a pass that succeeded and blocked nothing, a second
    pass towards the same state creates and kills no session and, when it succeeds,
    reports no action and asks for no restart. *)
Theorem reconcile_settles previous w report w' :
  loaded w = Ok previous -> clear (desired_session_names previous desired) (tmux w) ->
  desired_ok desired -> separate desired previous ->
  pass w = (Ok report, w') -> quiet report ->
  let out := pass w' in
  live (tmux out.2) = live (tmux w') /\ log (tmux out.2) = log (tmux w')
  /\ (forall report2, out.1 = Ok report2 -> report2 = empty_report).
Proof.
  intros Hl Hc Hd Hsep Hp Hquiet. pose proof (pass_spec previous w Hl Hc Hd) as Hspec.
  unfold wp in Hspec. rewrite Hp in Hspec. destruct Hspec as [[Hc' _] [Ha Hset]]. cbn [fst snd] in *.
  apply Hset in Hquiet. set (N2 := desired_session_names (settled desired) desired).
  assert (clear N2 (tmux w')) as Hc2.
  { eapply clear_subset, Hc'. unfold N2, desired_session_names. intros n.
    rewrite !elem_of_union, !elem_of_dom.
    destruct (settled_up_to_date desired n) as (-> & -> & _). rewrite !fmap_is_Some. tauto. }
  enough (wp pass (fun r w2 => (live (tmux w2) = live (tmux w') /\ log (tmux w2) = log (tmux w'))
    /\ match r with Ok rep => rep = empty_report | Err _ => True end) w') as H.
  { unfold wp in H. destruct H as [[El Eg] Hr]. split_and!; [done..|]. intros r2 E. by rewrite E in Hr. }
  apply (wp_pass (settled desired)); [done|done|]. intros sessions Hs.
  pose proof (snapshots_exact N2 w' sessions Hc2 Hs) as Hsess.
  eapply wp_mono; [apply (wp_idle_pass self desired opts (settled desired) sessions _ N2 (tmux w'));
    [done..| |done]|]; cbv beta.
  - split_and!.
    + destruct (settled_up_to_date desired "") as (_ & _ & -> & ->). by rewrite !String.eqb_refl.
    + intros n. apply settled_up_to_date.
    + intros n. apply settled_up_to_date.
    + intros Hrun. destruct (Ha Hrun) as [Ho Hw]. split; [by apply Hw|done].
  - intros r w2 [Hs2 Hr]. destruct r as [acc|e]; [|done]. split; [done|]. intros f _. done.
Qed.
End theorems.
End facts.
