(* ===== verification/CodexFiles.v ===== *)
(** * The Codex home of a workspace (crates/ax-agent/src/codex.rs).

    A directory under [$HOME/.ax/codex] with a link to the user's credentials and a
    [config.toml]: the user's own file with the keys ax manages set line by line.
    [CodexFiles_home] implements the interface [CodexHome] of the workspace manager. *)

From stdpp Require Import prelude strings list gmap.
From S2P Require Import Prelude Act RustStr RustText Proto TaskHelpers.
From S2P Require Import Paths ConfigSchema ConfigTree Artifacts WorkspaceManager Reconcile.

(** ** Editing TOML by lines *)

Definition split_lines (content : string) : list string :=
  let trimmed := trim_end_nl content in
  if is_empty trimmed then [] else lines trimmed.

Definition is_table_header (line : string) : bool :=
  starts_with (trim line) "[" && ends_with (trim line) "]".
Definition sets_key (key line : string) : bool :=
  starts_with (trim line) (key +:+ " ") || starts_with (trim line) (key +:+ "=").

(** From a position up to the next header: replace the line that sets [key], or put the
    entry at the end of the table. *)
Fixpoint upsert_lines (key entry : string) (lines : list string) : list string :=
  match lines with
  | [] => [entry]
  | line :: rest =>
      if is_table_header line then entry :: line :: rest
      else if sets_key key line then entry :: rest
      else line :: upsert_lines key entry rest
  end.

Definition toml_entry (key value : string) : string := key +:+ " = " +:+ value.

Definition upsert_top_level_key (content key value : string) : string :=
  join_with newline (upsert_lines key (toml_entry key value) (split_lines content)).

(** The first table called [header]; [None] when there is none. *)
Fixpoint upsert_in_section (header key entry : string) (lines : list string) : option (list string) :=
  match lines with
  | [] => None
  | line :: rest =>
      if String.eqb (trim line) header then Some (line :: upsert_lines key entry rest)
      else (fun rest => line :: rest) <$> upsert_in_section header key entry rest
  end.

Definition upsert_key_in_section (content header key value : string) : string :=
  let lines := split_lines content in
  let entry := toml_entry key value in
  join_with newline
    (match upsert_in_section header key entry lines with
     | Some lines => lines
     | None =>
         lines
         ++ (match last lines with
             | Some line => if is_empty (trim line) then [] else [""]
             | None => []
             end)
         ++ [header; entry]
     end).

Definition ensure_trailing_newline (content : string) : string :=
  if is_empty content || ends_with content newline then content else content +:+ newline.

Record ResolvedAgentProvider := mkResolvedAgentProvider { rp_id : string; rp_provider : AgentProvider }.
Record ResolvedCodexConfig := mkResolvedCodexConfig {
  reasoning_effort : string;
  agent_provider : option ResolvedAgentProvider;
}.
Definition default_codex_config : ResolvedCodexConfig :=
  mkResolvedCodexConfig DEFAULT_CODEX_REASONING_EFFORT None.

Definition codex_reasoning_effort_for_workspace (cfg : Config) (workspace : string) : string :=
  match (ws ← workspaces cfg !! workspace; non_empty (w_codex_model_reasoning_effort ws)) with
  | Some effort => effort
  | None => default DEFAULT_CODEX_REASONING_EFFORT (non_empty (codex_model_reasoning_effort cfg))
  end.

Definition codex_agent_provider_for_workspace (cfg : Config) (workspace : string)
  : option ResolvedAgentProvider :=
  name ← match (ws ← workspaces cfg !! workspace; non_empty (w_agent_provider ws)) with
         | Some name => Some name
         | None => non_empty (default_agent_provider cfg)
         end;
  provider ← agent_providers cfg !! name;
  Some (mkResolvedAgentProvider name provider).

Section toml.
Context `{!TextOps}.

Definition toml_quote (value : string) : string := debug_str value.
Definition toml_array (values : list string) : string :=
  "[" +:+ join_with "," (toml_quote <$> values) +:+ "]".

Definition provider_display_name (resolved : ResolvedAgentProvider) : string := rp_id resolved.

Definition apply_agent_provider_config (content : string) (resolved : ResolvedAgentProvider) : string :=
  let p := rp_provider resolved in
  let runtime := to_ascii_lowercase (trim (ap_runtime p)) in
  if negb (is_empty runtime) && negb (String.eqb runtime "codex") then content else
  let content := upsert_top_level_key content "model_provider" (toml_quote (rp_id resolved)) in
  let content := match non_empty (ap_model p) with
                 | Some model => upsert_top_level_key content "model" (toml_quote model)
                 | None => content
                 end in
  match non_empty (ap_base_url p) with
  | None => content
  | Some base_url =>
      let header := "[model_providers." +:+ toml_quote (rp_id resolved) +:+ "]" in
      let content := upsert_key_in_section content header "name"
                       (toml_quote (provider_display_name resolved)) in
      let content := upsert_key_in_section content header "base_url" (toml_quote base_url) in
      let content := match non_empty (ap_env_key p) with
                     | Some env_key => upsert_key_in_section content header "env_key" (toml_quote env_key)
                     | None => content
                     end in
      let wire_api := default "responses" (non_empty (ap_wire_api p)) in
      let content := upsert_key_in_section content header "wire_api" (toml_quote wire_api) in
      let web_search := default "disabled" (non_empty (ap_web_search p)) in
      upsert_top_level_key content "web_search" (toml_quote web_search)
  end.

Definition TRUSTED : string := String quote_char ("trusted" +:+ String quote_char "").
Definition AX_TABLE : string := "[mcp_servers.ax]".

(** The text of [config.toml], from the user's own. *)
Definition codex_config_text (base : string) (resolved : ResolvedCodexConfig)
    (workspace dir socket_path ax_bin : string) (config_path : option string) : string :=
  let content := upsert_top_level_key base "model_reasoning_effort"
                   (toml_quote (reasoning_effort resolved)) in
  let content := match agent_provider resolved with
                 | Some provider => apply_agent_provider_config content provider
                 | None => content
                 end in
  let content := upsert_key_in_section content ("[projects." +:+ toml_quote dir +:+ "]")
                   "trust_level" TRUSTED in
  let content := upsert_key_in_section content AX_TABLE "command" (toml_quote ax_bin) in
  upsert_key_in_section content AX_TABLE "args"
    (toml_array (mcp_server_args workspace socket_path config_path)).
End toml.

(** ** Where it is *)

(** One component of the path: the root or not, and the names below it, last first. *)
Definition key_step (acc : bool * list string) (comp : string) : bool * list string :=
  let '(rooted, stack) := acc in
  if String.eqb comp "/" then (true, [])
  else if String.eqb comp "." then acc
  else if String.eqb comp ".." then (rooted, tail stack)
  else (rooted, comp :: stack).

(** [trim_end_matches('/')]. *)
Fixpoint drop_slash (l : list Ascii.ascii) : list Ascii.ascii :=
  match l with
  | a :: r => if decide (a = slash) then drop_slash r else l
  | [] => []
  end.
Definition trim_end_slash (s : string) : string := of_bytes (rev (drop_slash (rev (bytes s)))).

Section home.
Context (env : Env) (short_hash : string -> string).

Definition normalize_dir_for_key (dir : string) : string :=
  let abs := if is_absolute dir || is_empty dir then dir
             else match absolute (cwd env) dir with Ok p => p | Err _ => dir end in
  let '(rooted, stack) := foldl key_step (false, []) (components abs) in
  let rendered := foldl join (if rooted then "/" else "") (rev stack) in
  if 1 <? String.length rendered then trim_end_slash rendered else rendered.

Definition codex_home_key (workspace dir : string) : string :=
  workspace +:+ "-" +:+ short_hash (normalize_dir_for_key dir).

Definition resolve_home : result CodexHomeError string :=
  match home env with Some h => Ok h | None => Err CodexHomeUnset end.

Definition codex_homes_root : result CodexHomeError string :=
  h ← resolve_home; Ok (join (join h ".ax") "codex").

Definition codex_home_path (workspace dir : string) : result CodexHomeError string :=
  h ← resolve_home; Ok (join (join (join h ".ax") "codex") (codex_home_key workspace dir)).
End home.

(** ** What is in it *)

(** What [symlink_metadata] says of an entry. *)
Inductive EntryKind := IsDir | IsFile | IsLink.
Class LinkFs (F : Type) := {
  fs_symlink_metadata : F -> string -> option EntryKind;
  fs_read_link : F -> string -> option string;
  fs_symlink : F -> string -> string -> result IoError F;
}.

Section files.
Context {F : Type} `{!FileSystem F} `{!ArtifactFs F} `{!LinkFs F} `{!TextOps}.
Context `{!YamlCodec Config} `{!YamlCodec ManagedOverlay}.
Context (env : Env) (short_hash : string -> string).

Definition link_if_present (src dst : string) : Act CodexHomeError F unit := fun fs =>
  match fs_symlink_metadata fs src with
  | None | Some IsDir => (Ok tt, fs)
  | Some _ =>
      let link := file_act (CodexLink src dst) (fun fs => fs_symlink fs src dst) in
      let clear_with remove := _ ← file_act (CodexLink src dst) (fun fs => remove fs dst); link in
      match fs_symlink_metadata fs dst with
      | None => link fs
      | Some IsDir => clear_with fs_remove_dir_all fs
      | Some IsFile => clear_with fs_remove_file fs
      | Some IsLink =>
          if match fs_read_link fs dst with
             | Some target => bool_decide (components target = components src)
             | None => false
             end
          then (Ok tt, fs) else clear_with fs_remove_file fs
      end
  end.

Definition load_base_codex_config (path : string) (fs : F) : result CodexHomeError string :=
  match fs_read_to_string fs path with
  | Ok content => Ok content
  | Err IoNotFound => Ok ""
  | Err e => Err (CodexReadBaseConfig path e)
  end.

(** A config that does not load, or loads forever, counts as the default one. *)
Definition resolve_codex_config (config_path : option string) (workspace : string) (fs : F)
  : ResolvedCodexConfig :=
  match config_path with
  | None => default_codex_config
  | Some path =>
      if is_empty path then default_codex_config else
      match load env fs (load_fuel env fs path) path with
      | Some (Ok cfg) =>
          mkResolvedCodexConfig (codex_reasoning_effort_for_workspace cfg workspace)
            (codex_agent_provider_for_workspace cfg workspace)
      | _ => default_codex_config
      end
  end.

Definition prepare_home (workspace dir socket_path ax_bin : string) (config_path : option string)
  : Act CodexHomeError F string :=
  h ← act_lift (resolve_home env);
  codex_home ← act_lift (codex_home_path env short_hash workspace dir);
  _ ← file_act (CodexCreateDir codex_home) (fun fs => fs_create_dir_all fs codex_home);
  _ ← link_if_present (join (join h ".codex") "auth.json") (join codex_home "auth.json");
  base ← gets (load_base_codex_config (join (join h ".codex") "config.toml"));
  base_config ← act_lift base;
  resolved ← gets (resolve_codex_config config_path workspace);
  let content := codex_config_text base_config resolved workspace dir socket_path ax_bin config_path in
  let config_toml := join codex_home "config.toml" in
  _ ← file_act (CodexWriteConfig config_toml)
        (fun fs => fs_write fs config_toml (ensure_trailing_newline content));
  mret codex_home.

Definition remove_home (workspace dir : string) : Act CodexHomeError F unit :=
  path ← act_lift (codex_home_path env short_hash workspace dir);
  remove_if_present (CodexRemove path) (fun fs => fs_remove_dir_all fs path).

Definition prepare_home_for_launch (workspace dir socket_path ax_bin : string)
    (config_path : option string) (fresh : bool) : Act CodexHomeError F string :=
  _ ← (if fresh then remove_home workspace dir else mret tt);
  prepare_home workspace dir socket_path ax_bin config_path.

Definition CodexFiles_home : CodexHome F := {|
  prepare_codex_home := prepare_home;
  remove_codex_home := remove_home;
|}.
End files.
