(* ===== verification/CodexFacts.v ===== *)
(** * The Codex config keeps the user's settings.

    A line-oriented reading of TOML files: the lines that are not blank, trimmed, cut
    into tables by their headers.  On it the edits of [CodexFiles] obey the laws of a
    map of tables of keys, and the generated file is the user's with ax's keys set. *)

From Stdlib Require Import Ascii.
From stdpp Require Import prelude strings list gmap.
From S2P Require Import Prelude Act RustStr RustText Proto TaskHelpers.
From S2P Require Import Paths ConfigSchema ConfigTree Artifacts WorkspaceManager Reconcile CodexFiles RustText.

(** ** Lines, up to white space *)

(** What counts of a list of lines. *)
Definition significant (ls : list string) : list string :=
  List.filter (fun l => negb (is_empty l)) (trim <$> ls).
Definition toml_lines (content : string) : list string := significant (split_lines content).

Lemma significant_app l k : significant (l ++ k) = significant l ++ significant k.
Proof. unfold significant. by rewrite fmap_app, List.filter_app. Qed.
Lemma significant_cons l ls :
  significant (l :: ls) = (if is_empty (trim l) then [] else [trim l]) ++ significant ls.
Proof. unfold significant. cbn. by destruct (is_empty (trim l)). Qed.

Lemma drop_ws_snoc w1 w2 w3 l x :
  (forall a, w2 a x = false) -> (forall a b, w3 a b x = false) ->
  drop_ws w1 w2 w3 (l ++ [x])
  = match drop_ws w1 w2 w3 l with [] => drop_ws w1 w2 w3 [x] | k => k ++ [x] end.
Proof.
  intros H2 H3. induction l as [l IH] using (induction_ltof1 _ length). unfold ltof in IH.
  destruct l as [|a [|b [|c r]]]; cbn [app drop_ws] in *.
  - done.
  - by destruct (w1 a); rewrite ?H2.
  - destruct (w1 a); [exact (IH [b] ltac:(cbn; lia))|]. by destruct (w2 a b); rewrite ?H3.
  - destruct (w1 a); [exact (IH (b :: c :: r) ltac:(cbn; lia))|].
    destruct (w2 a b); [exact (IH (c :: r) ltac:(cbn; lia))|].
    destruct (w3 a b c); [exact (IH r ltac:(cbn; lia))|done].
Qed.

Lemma trim_snoc_cr l : trim (of_bytes (l ++ [cr])) = trim (of_bytes l).
Proof.
  unfold trim. rewrite !bytes_of_bytes. unfold trim_start_bytes. rewrite drop_ws_snoc.
  - destruct (drop_ws ws1 ws2 ws3 l) as [|a k] eqn:E; [done|].
    unfold trim_end_bytes. by rewrite rev_app_distr.
  - intros a. unfold ws2. by rewrite andb_false_r.
  - intros a b. unfold ws3. by rewrite !andb_false_r.
Qed.

(** A line as [lines] cuts it. *)
Definition no_nl (s : string) : Prop := nl ∉ bytes s.

Lemma lines_of_cut l k :
  nl ∉ l -> exists l', lines_of (l ++ nl :: k) = l' :: lines_of k
    /\ trim (of_bytes l') = trim (of_bytes l) /\ nl ∉ l'.
Proof.
  induction l as [|a l IH] using rev_ind; intros Hl.
  - exists []. by rewrite app_nil_l.
  - clear IH. assert (forall k', nl ∉ l -> a <> nl ->
      lines_of (l ++ a :: nl :: k') = (if decide (a = cr) then l else l ++ [a]) :: lines_of k') as H.
    { intros k' Hn Ha. induction l as [|b l IHl].
      - cbn [app lines_of]. rewrite decide_False by done. cbn [head].
        destruct (decide (a = cr)) as [->|Hne]; [by rewrite decide_True|].
        rewrite decide_False by (by intros [? _]). by rewrite decide_True.
      - cbn [app]. cbn [lines_of]. rewrite decide_False by set_solver.
        rewrite decide_False.
        + rewrite IHl by set_solver. by destruct (decide (a = cr)).
        + intros [_ Hh]. destruct l as [|c l]; cbn in Hh; [by injection Hh as ->|].
          injection Hh as ->. set_solver. }
    exists (if decide (a = cr) then l else l ++ [a]). rewrite <-app_assoc. cbn [app].
    rewrite H by set_solver. split_and!; [done| |].
    + destruct (decide (a = cr)) as [->|]; [|done]. by rewrite trim_snoc_cr.
    + case_decide; set_solver.
Qed.

Lemma lines_of_end l : nl ∉ l -> lines_of l = match l with [] => [] | _ => [l] end.
Proof.
  induction l as [|a l IH]; intros Hl; [done|]. cbn [lines_of]. rewrite decide_False by set_solver.
  rewrite decide_False; [rewrite IH by set_solver; by destruct l|].
  intros [_ Hh]. destruct l as [|b l]; [done|]. injection Hh as ->. set_solver.
Qed.

Lemma bytes_split (l : list ascii) : nl ∉ l \/ exists k r, l = k ++ nl :: r /\ nl ∉ k.
Proof.
  induction l as [|a l IH]; [left; set_solver|]. destruct (decide (a = nl)) as [->|Ha].
  { right. exists [], l. split; [done|set_solver]. }
  destruct IH as [Hl|(k & r & -> & Hk)]; [left; set_solver|].
  right. exists (a :: k), r. split; [done|set_solver].
Qed.

(** The lines of a text, whatever its line ends, one by one. *)
Lemma lines_ind (P : list ascii -> Prop) :
  (forall l, nl ∉ l -> P l) -> (forall k r, nl ∉ k -> P r -> P (k ++ nl :: r)) -> forall l, P l.
Proof.
  intros Hend Hcut l. induction l as [l IH] using (induction_ltof1 _ length). unfold ltof in IH.
  destruct (bytes_split l) as [Hl|(k & r & -> & Hk)]; [by apply Hend|].
  apply Hcut; [done|]. apply IH. rewrite length_app. cbn. lia.
Qed.

Lemma lines_no_nl s : Forall no_nl (lines s).
Proof.
  unfold lines. generalize (bytes s). intros l. pattern l. revert l. apply lines_ind.
  - intros l Hl. rewrite lines_of_end by done. destruct l; constructor; [|constructor].
    unfold no_nl. by rewrite bytes_of_bytes.
  - intros k r Hk IH. destruct (lines_of_cut k r Hk) as (k' & -> & _ & Hk').
    constructor; [|done]. unfold no_nl. by rewrite bytes_of_bytes.
Qed.

Lemma significant_end l :
  nl ∉ l -> significant (of_bytes <$> lines_of l) = significant [of_bytes l].
Proof. intros Hl. rewrite lines_of_end by done. by destruct l. Qed.

(** Newlines at the end do not count. *)
Lemma significant_snoc_nl l :
  significant (of_bytes <$> lines_of (l ++ [nl])) = significant (of_bytes <$> lines_of l).
Proof.
  pattern l. revert l. apply lines_ind.
  - intros l Hl. rewrite (significant_end l) by done. destruct (lines_of_cut l [] Hl) as (l' & -> & E & _).
    rewrite fmap_cons, !significant_cons. by rewrite E.
  - intros k r Hk IH. rewrite <-app_assoc. cbn [app].
    destruct (lines_of_cut k (r ++ [nl]) Hk) as (k1 & -> & E1 & _).
    destruct (lines_of_cut k r Hk) as (k2 & -> & E2 & _).
    rewrite !fmap_cons, !significant_cons, IH. by rewrite E1, E2.
Qed.

Lemma toml_lines_lines s : toml_lines s = significant (lines s).
Proof.
  assert (significant (lines (trim_end_nl s)) = significant (lines s)) as E.
  { unfold lines, trim_end_nl. rewrite bytes_of_bytes.
    assert (forall r, significant (of_bytes <$> lines_of (rev (drop_nl r)))
      = significant (of_bytes <$> lines_of (rev r))) as H.
    { induction r as [|a r IH]; [done|]. cbn [drop_nl]. destruct (decide (a = nl)) as [->|]; [|done].
      rewrite IH. cbn [rev]. by rewrite significant_snoc_nl. }
    rewrite H. by rewrite rev_involutive. }
  unfold toml_lines, split_lines. cbv zeta. destruct (is_empty (trim_end_nl s)) eqn:Ee; [|done].
  apply is_empty_true in Ee. rewrite Ee in E. rewrite <-E. done.
Qed.

(** Joining lines and cutting them again. *)
Lemma toml_lines_join ls : Forall no_nl ls -> toml_lines (join_with newline ls) = significant ls.
Proof.
  rewrite toml_lines_lines. unfold lines. induction ls as [|l ls IH]; intros Hls; [done|].
  apply Forall_cons in Hls as [Hl Hls]. destruct ls as [|l2 ls].
  - cbn [join_with]. rewrite significant_end by done. by rewrite of_bytes_bytes.
  - change (join_with newline (l :: l2 :: ls)) with (l +:+ newline +:+ join_with newline (l2 :: ls)).
    rewrite bytes_cat.
    change (bytes (newline +:+ ?x)) with (nl :: bytes x).
    destruct (lines_of_cut (bytes l) (bytes (join_with newline (l2 :: ls))) Hl) as (l' & -> & E & _).
    rewrite of_bytes_bytes in E. rewrite fmap_cons, significant_cons, E, (IH Hls).
    by rewrite (significant_cons l).
Qed.

Lemma split_lines_no_nl s : Forall no_nl (split_lines s).
Proof. unfold split_lines. case_match; [constructor|apply lines_no_nl]. Qed.

(** ** Tables *)

(** The keys of a table are the lines up to the next header; a line sets the first key
    it fits. *)
Fixpoint table_end (ls : list string) : list string :=
  match ls with
  | [] => []
  | l :: ls => if is_table_header l then [] else l :: table_end ls
  end.
Definition get_top (key : string) (ls : list string) : option string :=
  List.find (sets_key key) (table_end ls).
Fixpoint table (header : string) (ls : list string) : option (list string) :=
  match ls with
  | [] => None
  | l :: ls => if String.eqb (trim l) header then Some ls else table header ls
  end.
Definition get_in (header key : string) (ls : list string) : option string :=
  ls ← table header ls; get_top key ls.

Definition put_in (header key entry : string) (ls : list string) : list string :=
  default (ls ++ [header; entry]) (upsert_in_section header key entry ls).

(** A key as TOML writes it bare, and a line that sets it. *)
Definition bare (key : string) : Prop :=
  visible key /\ (Ascii.ascii_of_nat 61 ∉ bytes key) /\ (Ascii.ascii_of_nat 91 ∉ bytes key).
Definition is_entry (key entry : string) : Prop :=
  trim entry = entry /\ is_table_header entry = false /\ no_nl entry
  /\ sets_key key entry = true /\ forall key', bare key' -> key' <> key -> sets_key key' entry = false.
Definition is_header (header : string) : Prop :=
  trim header = header /\ is_table_header header = true /\ no_nl header.

Lemma cut_at (k1 k2 r1 r2 : list ascii) c1 c2 :
  k1 ++ c1 :: r1 = k2 ++ c2 :: r2 -> (forall c, c = c1 \/ c = c2 -> (c ∉ k1) /\ (c ∉ k2)) -> k1 = k2.
Proof.
  revert k2. induction k1 as [|a k1 IH]; intros [|b k2] E Hc; [done| | |].
  - injection E as -> _. destruct (Hc b) as [_ ?]; [by left|set_solver].
  - injection E as <- _. destruct (Hc a) as [? _]; [by right|set_solver].
  - injection E as <- E. f_equal. apply IH; [done|]. intros c H. destruct (Hc c H). set_solver.
Qed.

Lemma sets_key_spec key line :
  sets_key key line = true <->
  exists c r, (c = sp \/ c = Ascii.ascii_of_nat 61) /\ bytes (trim line) = bytes key ++ c :: r.
Proof.
  unfold sets_key. rewrite orb_true_iff, !starts_with_spec. split.
  - intros [[r E]|[r E]]; [exists sp, (bytes r)|exists (Ascii.ascii_of_nat 61), (bytes r)];
      (split; [by auto|]); rewrite E, !bytes_cat; by rewrite <-app_assoc.
  - intros (c & r & [-> | ->] & E); [left|right]; exists (of_bytes r); apply bytes_inj;
      rewrite E, !bytes_cat, bytes_of_bytes; by rewrite <-app_assoc.
Qed.

Lemma bare_cut key c : bare key -> c = sp \/ c = Ascii.ascii_of_nat 61 -> c ∉ bytes key.
Proof.
  intros ([_ Hv] & He & _) [-> | ->]; [|done]. intros Hin. rewrite Forall_forall in Hv.
  specialize (Hv _ Hin). unfold graphic in Hv. change (code sp) with 32%N in Hv. lia.
Qed.

(** A line sets at most one bare key. *)
Lemma sets_key_unique k1 k2 line :
  bare k1 -> bare k2 -> sets_key k1 line = true -> sets_key k2 line = true -> k1 = k2.
Proof.
  intros H1 H2 (c1 & r1 & Hc1 & E1)%sets_key_spec (c2 & r2 & Hc2 & E2)%sets_key_spec.
  apply bytes_inj. rewrite E1 in E2. eapply cut_at; [exact E2|].
  intros c Hc. assert (c = sp \/ c = Ascii.ascii_of_nat 61) by naive_solver.
  split; by apply bare_cut.
Qed.

(** ** The laws of the edits *)

Lemma get_put_top key entry ls :
  is_entry key entry -> get_top key (upsert_lines key entry ls) = Some entry.
Proof.
  intros (_ & Hh & _ & Hs & _). unfold get_top.
  assert (List.find (sets_key key) (table_end [entry]) = Some entry) as H1 by (cbn; by rewrite Hh; cbn; rewrite Hs).
  induction ls as [|l ls IH]; [exact H1|]. cbn [upsert_lines].
  destruct (is_table_header l) eqn:El; [cbn; rewrite Hh; cbn; by rewrite Hs|].
  destruct (sets_key key l) eqn:Es; [cbn; rewrite Hh; cbn; by rewrite Hs|].
  cbn [table_end]. rewrite El. cbn [List.find]. by rewrite Es.
Qed.

Lemma get_put_top_ne key key' entry ls :
  is_entry key entry -> bare key -> bare key' -> key' <> key ->
  get_top key' (upsert_lines key entry ls) = get_top key' ls.
Proof.
  intros (_ & Hh & _ & _ & Hne) Hb Hb' Hk. specialize (Hne key' Hb' Hk). unfold get_top.
  induction ls as [|l ls IH]; [cbn; rewrite Hh; cbn; by rewrite Hne|]. cbn [upsert_lines].
  destruct (is_table_header l) eqn:El; [cbn; rewrite Hh, El; cbn; by rewrite Hne|].
  destruct (sets_key key l) eqn:Es.
  - cbn [table_end]. rewrite Hh, El. cbn [List.find]. rewrite Hne.
    destruct (sets_key key' l) eqn:Es'; [|done]. exfalso. apply Hk. by eapply sets_key_unique.
  - cbn [table_end]. rewrite El. cbn [List.find]. by destruct (sets_key key' l).
Qed.

Lemma table_put_top header key entry ls :
  is_header header -> is_entry key entry -> table header (upsert_lines key entry ls) = table header ls.
Proof.
  intros (_ & Hhd & _) (Ht & Hh & _).
  assert (String.eqb (trim entry) header = false) as He.
  { apply String.eqb_neq. rewrite Ht. intros ->. congruence. }
  induction ls as [|l ls IH]; [cbn; by rewrite He|]. cbn [upsert_lines].
  destruct (is_table_header l) eqn:El; [cbn; by rewrite He|].
  assert (String.eqb (trim l) header = false) as Hl.
  { apply String.eqb_neq. intros E. rewrite <-E in Hhd. revert Hhd. unfold is_table_header in *.
    rewrite trim_idemp. congruence. }
  destruct (sets_key key l); cbn [table]; [by rewrite He, Hl|]. by rewrite Hl, IH.
Qed.

Lemma get_in_put_top header key' key entry ls :
  is_header header -> is_entry key entry ->
  get_in header key' (upsert_lines key entry ls) = get_in header key' ls.
Proof. intros Hh He. unfold get_in. by rewrite table_put_top. Qed.

Lemma put_in_cons header key entry l ls :
  put_in header key entry (l :: ls)
  = if String.eqb (trim l) header then l :: upsert_lines key entry ls
    else l :: put_in header key entry ls.
Proof.
  unfold put_in. cbn [upsert_in_section]. destruct (String.eqb (trim l) header); [done|].
  by destruct (upsert_in_section header key entry ls).
Qed.

Lemma header_line header line : is_header header -> trim line = header -> is_table_header line = true.
Proof. intros (_ & Hh & _) <-. revert Hh. unfold is_table_header. by rewrite trim_idemp. Qed.

(** The keys before the first header are not touched. *)
Lemma table_end_put_in header key entry ls :
  is_header header -> table_end (put_in header key entry ls) = table_end ls.
Proof.
  intros Hh. induction ls as [|l ls IH].
  - unfold put_in. cbn. by rewrite (proj1 (proj2 Hh)).
  - rewrite put_in_cons. destruct (String.eqb_spec (trim l) header) as [E|]; cbn [table_end].
    + by rewrite (header_line _ _ Hh E).
    + by rewrite IH.
Qed.

Lemma get_put_in header key entry ls :
  is_header header -> is_entry key entry -> get_in header key (put_in header key entry ls) = Some entry.
Proof.
  intros Hh He. unfold get_in. induction ls as [|l ls IH].
  - unfold put_in. cbn [upsert_in_section default app table]. rewrite (proj1 Hh), String.eqb_refl.
    exact (get_put_top key entry [] He).
  - rewrite put_in_cons. destruct (String.eqb (trim l) header) eqn:E; cbn [table]; rewrite E; [|done].
    by apply get_put_top.
Qed.

Lemma get_put_in_key header key key' entry ls :
  is_header header -> is_entry key entry -> bare key -> bare key' -> key' <> key ->
  get_in header key' (put_in header key entry ls) = get_in header key' ls.
Proof.
  intros Hh He Hb Hb' Hk. unfold get_in. induction ls as [|l ls IH].
  - unfold put_in. cbn [upsert_in_section default app table]. rewrite (proj1 Hh), String.eqb_refl.
    cbn [mbind option_bind]. exact (get_put_top_ne key key' entry [] He Hb Hb' Hk).
  - rewrite put_in_cons. destruct (String.eqb (trim l) header) eqn:E; cbn [table]; rewrite E; [|done].
    by apply get_put_top_ne.
Qed.

Lemma get_put_in_table header header' key key' entry ls :
  is_header header -> is_header header' -> is_entry key entry -> header' <> header ->
  get_in header' key' (put_in header key entry ls) = get_in header' key' ls.
Proof.
  intros Hh Hh' He Hne. unfold get_in. induction ls as [|l ls IH].
  - unfold put_in. cbn [upsert_in_section default app table].
    rewrite (proj1 Hh), (proj1 He). rewrite (proj2 (String.eqb_neq header header')) by congruence.
    rewrite (proj2 (String.eqb_neq entry header')); [done|]. intros ->.
    destruct Hh' as (_ & H1 & _), He as (_ & H2 & _). congruence.
  - rewrite put_in_cons. destruct (String.eqb_spec (trim l) header) as [E|E]; cbn [table];
      destruct (String.eqb_spec (trim l) header') as [E'|E']; try congruence.
    + by rewrite table_put_top.
    + cbn [mbind option_bind]. unfold get_top. by rewrite table_end_put_in.
Qed.

(** ** The edits on files *)

Lemma table_header_trim l : is_table_header (trim l) = is_table_header l.
Proof. unfold is_table_header. by rewrite trim_idemp. Qed.
Lemma sets_key_trim key l : sets_key key (trim l) = sets_key key l.
Proof. unfold sets_key. by rewrite trim_idemp. Qed.

Lemma entry_not_blank key entry : bare key -> is_entry key entry -> is_empty entry = false.
Proof.
  intros Hb (Ht & _ & _ & (c & r & _ & E)%sets_key_spec & _). apply is_empty_false. intros ->.
  rewrite Ht in E. by destruct (bytes key).
Qed.
Lemma header_not_blank header : is_header header -> is_empty header = false.
Proof.
  intros (Ht & Hh & _). apply is_empty_false. intros ->. done.
Qed.
Lemma blank_line l key : is_empty (trim l) = true -> is_table_header l = false /\ sets_key key l = false.
Proof.
  intros E%is_empty_true. unfold is_table_header, sets_key. rewrite E. split; [done|].
  by destruct key.
Qed.

Lemma significant_line l : is_empty l = false -> trim l = l -> significant [l] = [l].
Proof. intros Hl Ht. unfold significant. cbn. by rewrite Ht, Hl. Qed.

Lemma significant_entry key entry ls :
  bare key -> is_entry key entry -> significant (entry :: ls) = entry :: significant ls.
Proof.
  intros Hb He. rewrite significant_cons. rewrite (proj1 He). by rewrite (entry_not_blank key).
Qed.

Lemma significant_upsert key entry ls :
  bare key -> is_entry key entry ->
  significant (upsert_lines key entry ls) = upsert_lines key entry (significant ls).
Proof.
  intros Hb He. induction ls as [|l ls IH]; [cbn [upsert_lines]; by rewrite (significant_entry key)|]. cbn [upsert_lines].
  rewrite significant_cons. destruct (is_empty (trim l)) eqn:El.
  - destruct (blank_line l key El) as [-> ->]. rewrite significant_cons, El. exact IH.
  - cbn [app upsert_lines]. rewrite table_header_trim, sets_key_trim.
    destruct (is_table_header l), (sets_key key l);
      rewrite ?(significant_entry key entry _ Hb He), ?significant_cons, ?El, ?IH; done.
Qed.

Lemma significant_put_in header key entry ls blank :
  is_header header -> bare key -> is_entry key entry -> significant blank = [] ->
  significant (match upsert_in_section header key entry ls with
               | Some ls => ls
               | None => ls ++ blank ++ [header; entry]
               end) = put_in header key entry (significant ls).
Proof.
  intros Hh Hb He Hbl.
  assert (significant [header; entry] = [header; entry]) as Hend.
  { change [header; entry] with ([header] ++ [entry]). rewrite significant_app.
    rewrite significant_line; [|by apply header_not_blank|apply Hh].
    rewrite (significant_entry key); done. }
  assert (upsert_in_section header key entry ls = None ->
    put_in header key entry (significant ls) = significant ls ++ [header; entry]) as Hnone.
  { intros Hn. induction ls as [|l ls IH]; [done|].
    cbn [upsert_in_section] in Hn. destruct (String.eqb_spec (trim l) header) as [|Hl]; [done|].
    destruct (upsert_in_section header key entry ls); [done|]. specialize (IH eq_refl).
    rewrite significant_cons. destruct (is_empty (trim l)); [done|]. cbn [app].
    rewrite put_in_cons, trim_idemp. rewrite (proj2 (String.eqb_neq _ _) Hl). by rewrite IH. }
  destruct (upsert_in_section header key entry ls) as [ls'|] eqn:Eu.
  - clear Hnone. revert ls' Eu. induction ls as [|l ls IH]; intros ls' Eu; [done|].
    cbn [upsert_in_section] in Eu. rewrite significant_cons.
    destruct (String.eqb_spec (trim l) header) as [E|E].
    + injection Eu as <-. rewrite significant_cons, E, header_not_blank by done. cbn [app].
      rewrite put_in_cons. rewrite (proj1 Hh), String.eqb_refl. by rewrite significant_upsert.
    + destruct (upsert_in_section header key entry ls) as [ls1|]; [|done]. injection Eu as <-.
      rewrite significant_cons, (IH ls1 eq_refl). destruct (is_empty (trim l)); [done|].
      cbn [app]. rewrite put_in_cons, trim_idemp. by rewrite (proj2 (String.eqb_neq _ _) E).
  - rewrite !significant_app, Hbl, Hend. cbn [app]. symmetry. by apply Hnone.
Qed.

Lemma upsert_no_nl key entry ls :
  no_nl entry -> Forall no_nl ls -> Forall no_nl (upsert_lines key entry ls).
Proof.
  intros He. induction 1 as [|l ls Hl Hls IH]; cbn; [by repeat constructor|].
  repeat case_match; by repeat constructor.
Qed.
Lemma upsert_in_no_nl header key entry ls ls' :
  no_nl entry -> Forall no_nl ls -> upsert_in_section header key entry ls = Some ls' -> Forall no_nl ls'.
Proof.
  intros He Hls. revert ls'. induction Hls as [|l ls Hl Hls IH]; intros ls' E; [done|].
  cbn in E. case_match; [injection E as <-; constructor; [done|by apply upsert_no_nl]|].
  destruct (upsert_in_section header key entry ls); [|done]. injection E as <-. constructor; auto.
Qed.

(** Setting a key in a file is setting it in its tables. *)
Lemma toml_upsert_top content key value :
  bare key -> is_entry key (toml_entry key value) ->
  toml_lines (upsert_top_level_key content key value)
  = upsert_lines key (toml_entry key value) (toml_lines content).
Proof.
  intros Hb He. unfold upsert_top_level_key. rewrite toml_lines_join.
  - by apply significant_upsert.
  - apply upsert_no_nl; [apply He|apply split_lines_no_nl].
Qed.

Lemma toml_upsert_in content header key value :
  is_header header -> bare key -> is_entry key (toml_entry key value) ->
  toml_lines (upsert_key_in_section content header key value)
  = put_in header key (toml_entry key value) (toml_lines content).
Proof.
  intros Hh Hb He. unfold upsert_key_in_section. cbv zeta. rewrite toml_lines_join.
  - apply significant_put_in; [done..|]. destruct (last _) as [l|]; [|done]. by case_match.
  - pose proof (split_lines_no_nl content) as Hls.
    destruct (upsert_in_section _ _ _ _) as [ls'|] eqn:E; [eapply upsert_in_no_nl; [apply He|done|done]|].
    apply Forall_app. split; [done|]. apply Forall_app. split.
    + destruct (last _) as [l|]; [|done]. case_match; repeat constructor. unfold no_nl. set_solver.
    + constructor; [apply Hh|]. constructor; [apply He|constructor].
Qed.

Lemma toml_trailing content : toml_lines (ensure_trailing_newline content) = toml_lines content.
Proof.
  unfold ensure_trailing_newline. case_match; [done|]. rewrite !toml_lines_lines. unfold lines.
  rewrite bytes_cat. apply significant_snoc_nl.
Qed.

(** ** Slots *)

(** A place for a value: a key before the first table or in a table. *)
Inductive Slot := Top (key : string) | In (header key : string).
#[export] Instance Slot_eq_dec : EqDecision Slot.
Proof. solve_decision. Defined.

Definition slot_key (s : Slot) : string := match s with Top k | In _ k => k end.
Definition slot_ok (s : Slot) : Prop :=
  bare (slot_key s) /\ match s with Top _ => True | In h _ => is_header h end.
Definition value_ok (value : string) : Prop :=
  no_nl value /\ exists l a, bytes value = l ++ [a] /\ graphic a.

Definition get_slot (s : Slot) (ls : list string) : option string :=
  match s with Top key => get_top key ls | In header key => get_in header key ls end.
Definition set_slot (content : string) (edit : Slot * string) : string :=
  match edit.1 with
  | Top key => upsert_top_level_key content key edit.2
  | In header key => upsert_key_in_section content header key edit.2
  end.

(** The value the edits leave in a slot, if they set it. *)
Definition edited (s : Slot) (edits : list (Slot * string)) : option string :=
  foldl (fun v edit => if decide (edit.1 = s) then Some edit.2 else v) None edits.

Lemma trim_graphic_ends a l b : graphic a -> graphic b ->
  trim (of_bytes ((a :: l) ++ [b])) = of_bytes ((a :: l) ++ [b]).
Proof.
  intros Ha Hb. unfold trim. rewrite bytes_of_bytes. f_equal.
  cbn [app]. rewrite trim_start_graphic by done.
  change (a :: l ++ [b]) with ((a :: l) ++ [b]). unfold trim_end_bytes. rewrite rev_app_distr.
  change (rev [b] ++ rev (a :: l)) with (b :: rev (a :: l)). rewrite drop_ws_id.
  - cbn [rev]. rewrite rev_app_distr, rev_involutive. done.
  - destruct (rev (a :: l)) as [|x [|y k]]; cbn;
      by rewrite ?(graphic_ws1 _ Hb), ?(graphic_ws2_r _ _ Hb), ?(graphic_ws3_r _ _ _ Hb).
Qed.

Lemma entry_bytes key value :
  bytes (toml_entry key value) = bytes key ++ sp :: bytes ("= " +:+ value).
Proof. unfold toml_entry. by rewrite bytes_cat. Qed.

Lemma entry_ok key value : bare key -> value_ok value -> is_entry key (toml_entry key value).
Proof.
  intros Hb [Hn (l & b & El & Hgb)]. pose proof Hb as ([Hne Hv] & _ & Hbr).
  destruct key as [|a key]; [done|]. change (bytes (String a key)) with (a :: bytes key) in *.
  apply Forall_cons in Hv as [Hga Hv].
  assert (trim (toml_entry (String a key) value) = toml_entry (String a key) value) as Ht.
  { rewrite <-(of_bytes_bytes (toml_entry _ _)). rewrite entry_bytes, bytes_cat, El.
    change (bytes (String a key)) with (a :: bytes key).
    assert ((a :: bytes key) ++ sp :: bytes "= " ++ l ++ [b]
      = (a :: (bytes key ++ sp :: bytes "= " ++ l)) ++ [b]) as -> by (cbn; by rewrite <-!app_assoc).
    by apply trim_graphic_ends. }
  assert (sets_key (String a key) (toml_entry (String a key) value) = true) as Hs.
  { apply sets_key_spec. exists sp, (bytes ("= " +:+ value)). split; [by left|].
    by rewrite Ht, entry_bytes. }
  split_and!; [done| |..|done|].
  - unfold is_table_header. rewrite Ht. apply andb_false_iff. left.
    destruct (starts_with _ "[") eqn:Es; [|done]. exfalso. apply starts_with_spec in Es as [r Er].
    apply (f_equal bytes) in Er. rewrite entry_bytes in Er. injection Er as E _. apply Hbr. by rewrite E; left.
  - unfold no_nl. rewrite entry_bytes, bytes_cat.
    assert (nl ∉ a :: bytes key) as Hk.
    { intros Hin. assert (Forall graphic (a :: bytes key)) as Hall by (by constructor).
      rewrite Forall_forall in Hall. specialize (Hall _ Hin). unfold graphic in Hall.
      change (code nl) with 10%N in Hall. lia. }
    change (bytes (String a key)) with (a :: bytes key). unfold no_nl in Hn.
    intros [Hin|[Hin|[Hin|Hin]%elem_of_app]%elem_of_cons]%elem_of_app; [done|done| |done].
    apply (bool_decide_pack _) in Hin. by vm_compute in Hin.
  - intros key' Hb' Hk. apply not_true_iff_false. intros Hs'. apply Hk.
    by apply (sets_key_unique key' (String a key) (toml_entry (String a key) value)).
Qed.

Lemma get_set_slot s s' content value :
  slot_ok s -> slot_ok s' -> value_ok value ->
  get_slot s (toml_lines (set_slot content (s', value)))
  = if decide (s' = s) then Some (toml_entry (slot_key s) value) else get_slot s (toml_lines content).
Proof.
  intros [Hb Hs] [Hb' Hs'] Hv. pose proof (entry_ok _ _ Hb' Hv) as He.
  destruct s' as [k'|h' k']; cbn [set_slot fst snd slot_key] in *;
    rewrite ?toml_upsert_top, ?toml_upsert_in by done;
    destruct s as [k|h k]; cbn [get_slot slot_key] in *.
  - destruct (decide (Top k' = Top k)) as [[= ->]|Hne]; [by apply get_put_top|].
    apply get_put_top_ne; [done..|congruence].
  - rewrite decide_False by done. by apply get_in_put_top.
  - rewrite decide_False by done. unfold get_top. by rewrite table_end_put_in.
  - destruct (decide (In h' k' = In h k)) as [[= -> ->]|Hne]; [by apply get_put_in|].
    destruct (decide (h' = h)) as [->|Hh].
    + apply get_put_in_key; [done..|congruence].
    + apply get_put_in_table; [done..|congruence].
Qed.

Lemma get_set_slots s content edits :
  slot_ok s -> Forall (fun e => slot_ok e.1 /\ value_ok e.2) edits ->
  get_slot s (toml_lines (foldl set_slot content edits))
  = match edited s edits with
    | Some value => Some (toml_entry (slot_key s) value)
    | None => get_slot s (toml_lines content)
    end.
Proof.
  intros Hs He. induction edits as [|[s' value] edits IH] using rev_ind; [done|].
  apply Forall_app in He as [He [[Hs' Hv] _]%Forall_cons].
  unfold edited. rewrite !foldl_app. cbn [foldl fst snd]. fold (edited s edits).
  rewrite get_set_slot by done. destruct (decide (s' = s)); [done|]. by apply IH.
Qed.

(** ** The generated config *)

(** What [{:?}] promises for a string: quotes around it and no newline inside. *)
Class DebugOk `{!TextOps} : Prop := {
  debug_quotes s : exists body,
    bytes (debug_str s) = quote_char :: body ++ [quote_char] /\ nl ∉ body;
}.

Section config.
Context `{!TextOps} `{!DebugOk}.

(** The slots ax manages, in the order it sets them. *)
Definition provider_edits (resolved : ResolvedAgentProvider) : list (Slot * string) :=
  let p := rp_provider resolved in
  let runtime := to_ascii_lowercase (trim (ap_runtime p)) in
  if negb (is_empty runtime) && negb (String.eqb runtime "codex") then [] else
  [(Top "model_provider", toml_quote (rp_id resolved))]
  ++ match non_empty (ap_model p) with Some m => [(Top "model", toml_quote m)] | None => [] end
  ++ match non_empty (ap_base_url p) with
     | None => []
     | Some base_url =>
         let table := "[model_providers." +:+ toml_quote (rp_id resolved) +:+ "]" in
         [(In table "name", toml_quote (rp_id resolved)); (In table "base_url", toml_quote base_url)]
         ++ match non_empty (ap_env_key p) with
            | Some k => [(In table "env_key", toml_quote k)]
            | None => []
            end
         ++ [(In table "wire_api", toml_quote (default "responses" (non_empty (ap_wire_api p))));
             (Top "web_search", toml_quote (default "disabled" (non_empty (ap_web_search p))))]
     end.

Definition codex_edits (resolved : ResolvedCodexConfig) (workspace dir socket_path ax_bin : string)
    (config_path : option string) : list (Slot * string) :=
  [(Top "model_reasoning_effort", toml_quote (reasoning_effort resolved))]
  ++ match agent_provider resolved with Some p => provider_edits p | None => [] end
  ++ [(In ("[projects." +:+ toml_quote dir +:+ "]") "trust_level", TRUSTED);
      (In AX_TABLE "command", toml_quote ax_bin);
      (In AX_TABLE "args", toml_array (mcp_server_args workspace socket_path config_path))].

Lemma codex_config_edits base resolved workspace dir socket_path ax_bin config_path :
  codex_config_text base resolved workspace dir socket_path ax_bin config_path
  = foldl set_slot base (codex_edits resolved workspace dir socket_path ax_bin config_path).
Proof.
  assert (forall content p, apply_agent_provider_config content p = foldl set_slot content (provider_edits p)) as Hp.
  { intros content p. unfold apply_agent_provider_config, provider_edits. cbv zeta.
    destruct (negb (is_empty _) && negb (String.eqb _ _)); [done|].
    destruct (non_empty (ap_model (rp_provider p))), (non_empty (ap_base_url (rp_provider p))),
      (non_empty (ap_env_key (rp_provider p))); done. }
  unfold codex_config_text, codex_edits. rewrite !foldl_app. cbv zeta.
  destruct (agent_provider resolved) as [p|]; [by rewrite Hp|done].
Qed.

Lemma quote_graphic : graphic quote_char.
Proof. apply (bool_decide_unpack _). vm_compute. exact I. Qed.

Lemma quote_no_nl s : no_nl (toml_quote s).
Proof.
  destruct (debug_quotes s) as (body & E & Hb). unfold no_nl, toml_quote. rewrite E.
  intros [Hx|[Hx|Hx]%elem_of_app]%elem_of_cons; [done|done|]. by apply list_elem_of_singleton in Hx.
Qed.

Lemma quote_value s : value_ok (toml_quote s).
Proof.
  split; [apply quote_no_nl|]. destruct (debug_quotes s) as (body & E & _).
  exists (quote_char :: body), quote_char. split; [exact E|apply quote_graphic].
Qed.

Lemma array_value values : value_ok (toml_array values).
Proof.
  unfold toml_array. split.
  - assert (no_nl (join_with "," (toml_quote <$> values))) as Hj.
    { induction values as [|v vs IH]; [unfold no_nl; set_solver|]. cbn [fmap list_fmap].
      destruct vs as [|v2 vs]; [apply quote_no_nl|]. cbn [fmap list_fmap join_with] in *.
      unfold no_nl in *. rewrite !bytes_cat.
      intros [Hx|[Hx|Hx]%elem_of_app]%elem_of_app; [by apply quote_no_nl in Hx| |by apply IH in Hx].
      by apply list_elem_of_singleton in Hx. }
    unfold no_nl in *. rewrite !bytes_cat.
    intros [Hx|[Hx|Hx]%elem_of_app]%elem_of_app; [by apply list_elem_of_singleton in Hx|done|].
    by apply list_elem_of_singleton in Hx.
  - exists (bytes ("[" +:+ join_with "," (toml_quote <$> values))), (Ascii.ascii_of_nat 93).
    split; [rewrite !bytes_cat; by rewrite <-app_assoc|]. apply (bool_decide_unpack _). vm_compute. exact I.
Qed.

(** A table name built from a quoted string. *)
Lemma quoted_header prefix s :
  no_nl prefix -> is_header ("[" +:+ prefix +:+ toml_quote s +:+ "]").
Proof.
  intros Hp. set (h := "[" +:+ prefix +:+ toml_quote s +:+ "]").
  assert (bytes h = (Ascii.ascii_of_nat 91 :: bytes (prefix +:+ toml_quote s)) ++ [Ascii.ascii_of_nat 93]) as Eh.
  { unfold h. rewrite !bytes_cat. cbn [app]. by rewrite <-!app_assoc. }
  assert (trim h = h) as Ht.
  { rewrite <-(of_bytes_bytes h), Eh. apply trim_graphic_ends; apply (bool_decide_unpack _); vm_compute; exact I. }
  split_and!; [done| |].
  - unfold is_table_header. rewrite Ht. apply andb_true_iff. split; [apply starts_with_app|].
    unfold ends_with. rewrite Eh, rev_app_distr. apply starts_with_spec.
    exists (of_bytes (rev (Ascii.ascii_of_nat 91 :: bytes (prefix +:+ toml_quote s)))).
    by rewrite of_bytes_cat.
  - unfold no_nl. rewrite Eh, bytes_cat.
    intros [[Hx|[Hx|Hx]%elem_of_app]%elem_of_cons|Hx]%elem_of_app; [done|done|by apply quote_no_nl in Hx|].
    by apply list_elem_of_singleton in Hx.
Qed.

#[local] Instance bare_dec key : Decision (bare key).
Proof. unfold bare, visible. apply _. Defined.
Lemma bareb key : bool_decide (bare key) = true -> bare key.
Proof. apply bool_decide_eq_true. Qed.

Lemma top_ok key : bool_decide (bare key) = true -> slot_ok (Top key).
Proof. intros Hb%bareb. by split. Qed.
Lemma in_ok header key : is_header header -> bool_decide (bare key) = true -> slot_ok (In header key).
Proof. intros Hh Hb%bareb. by split. Qed.

Lemma projects_header dir : is_header ("[projects." +:+ toml_quote dir +:+ "]").
Proof. apply (quoted_header "projects."). unfold no_nl. apply (bool_decide_unpack _). vm_compute. exact I. Qed.
Lemma providers_header id : is_header ("[model_providers." +:+ toml_quote id +:+ "]").
Proof. apply (quoted_header "model_providers."). unfold no_nl. apply (bool_decide_unpack _). vm_compute. exact I. Qed.
Lemma ax_header : is_header AX_TABLE.
Proof. split_and!; [reflexivity|reflexivity|]. unfold no_nl. apply (bool_decide_unpack _). vm_compute. exact I. Qed.

Ltac slot_ok_tac :=
  lazymatch goal with
  | |- slot_ok (Top _) => apply top_ok; vm_compute; reflexivity
  | |- slot_ok (In AX_TABLE _) => apply in_ok; [apply ax_header|vm_compute; reflexivity]
  | |- slot_ok (In _ "trust_level") => apply in_ok; [apply projects_header|vm_compute; reflexivity]
  | |- slot_ok (In _ _) => apply in_ok; [apply providers_header|vm_compute; reflexivity]
  end.
Ltac edits_tac :=
  repeat lazymatch goal with
  | |- Forall _ (_ :: _) => apply Forall_cons; split;
      [split; cbn [fst snd]; [slot_ok_tac|first [assumption|apply quote_value|apply array_value]]|]
  end; try apply Forall_nil; exact I.

Lemma codex_edits_ok resolved workspace dir socket_path ax_bin config_path :
  Forall (fun e => slot_ok e.1 /\ value_ok e.2)
    (codex_edits resolved workspace dir socket_path ax_bin config_path).
Proof.
  assert (value_ok TRUSTED) as Ht.
  { split; [unfold no_nl; apply (bool_decide_unpack _); vm_compute; exact I|].
    exists (bytes (String quote_char "trusted")), quote_char. split; [reflexivity|apply quote_graphic]. }
  unfold codex_edits. rewrite !Forall_app. split_and!.
  - edits_tac.
  - destruct (agent_provider resolved) as [p|]; [|constructor]. unfold provider_edits. cbv zeta.
    destruct (negb (is_empty _) && negb (String.eqb _ _)); [constructor|].
    destruct (non_empty (ap_model (rp_provider p))), (non_empty (ap_base_url (rp_provider p))),
      (non_empty (ap_env_key (rp_provider p))); cbn [app]; edits_tac.
  - edits_tac.
Qed.

(** The generated [config.toml] is the user's own with ax's settings.  Read by lines, as
    TOML without multi-line values: every key of every table holds what ax sets there if
    it manages the key, and otherwise what the user's file says, or nothing if it says
    nothing. *)
Theorem codex_config_is_the_users base resolved workspace dir socket_path ax_bin config_path s :
  slot_ok s ->
  get_slot s (toml_lines (ensure_trailing_newline
    (codex_config_text base resolved workspace dir socket_path ax_bin config_path)))
  = match edited s (codex_edits resolved workspace dir socket_path ax_bin config_path) with
    | Some value => Some (toml_entry (slot_key s) value)
    | None => get_slot s (toml_lines base)
    end.
Proof.
  intros Hs. rewrite toml_trailing, codex_config_edits.
  apply get_set_slots; [done|apply codex_edits_ok].
Qed.
End config.

(** ** The Codex home of a workspace: its place and its config.

    The directory is named after the place of the workspace, however its path is spelled,
    and preparing it writes the config of [CodexFacts]. *)

(** ** Where a path leads, by its components *)

Definition resolve_step (stack : list string) (comp : string) : list string :=
  if String.eqb comp ".." then tail stack else comp :: stack.
(** The names below the root, first to last; [..] at the root stays there. *)
Definition place (dir : string) : list string :=
  rev (foldl resolve_step [] (normal_components dir)).

(** A file name: not empty and without a separator. *)
Definition name_ok (c : string) : Prop := c <> "" /\ slash ∉ bytes c.

Lemma split_slash_pieces l c : c ∈ split_slash l -> slash ∉ c.
Proof.
  revert c. induction l as [|a l IH]; intros c; cbn [split_slash].
  - intros ->%list_elem_of_singleton. set_solver.
  - destruct (decide (a = slash)) as [|Ha].
    + intros [->|Hc]%elem_of_cons; [set_solver|by apply IH].
    + destruct (split_slash l) as [|c' cs].
      * intros ->%list_elem_of_singleton. set_solver.
      * intros [->|Hc]%elem_of_cons; [|by apply IH; right].
        specialize (IH c' ltac:(by left)). set_solver.
Qed.

Lemma normal_components_ok dir : Forall (fun c => name_ok c /\ c <> ".") (normal_components dir).
Proof.
  apply Forall_forall. intros c Hc. unfold normal_components in Hc.
  apply list_elem_of_In, List.filter_In in Hc as [Hin Hk].
  apply list_elem_of_In in Hin. unfold raw_components in Hin.
  apply list_elem_of_fmap in Hin as (l & -> & Hl). unfold kept in Hk.
  apply negb_true_iff, orb_false_iff in Hk as [H1%is_empty_false H2%String.eqb_neq].
  split; [split; [done|]|done]. rewrite bytes_of_bytes. by eapply split_slash_pieces.
Qed.

Lemma key_steps stack comps :
  Forall (fun c => name_ok c /\ c <> ".") comps ->
  foldl key_step (true, stack) comps = (true, foldl resolve_step stack comps).
Proof.
  intros Hc. revert stack. induction Hc as [|c comps [[Hne Hs] Hd] Hcs IH]; intros stack; [done|].
  cbn [foldl]. rewrite <-IH. f_equal. unfold key_step, resolve_step.
  rewrite (proj2 (String.eqb_neq c "/")), (proj2 (String.eqb_neq c ".")) by
    (try done; intros ->; apply Hs; set_solver). by destruct (String.eqb c "..").
Qed.

(** ** The text of a place *)

Fixpoint rendered (names : list string) : list ascii :=
  match names with [] => [] | n :: ns => slash :: bytes n ++ rendered ns end.

Lemma ends_with_slash p : ends_with p "/" = true <-> exists l, bytes p = l ++ [slash].
Proof.
  unfold ends_with. rewrite starts_with_spec. split.
  - intros [r E]. apply (f_equal bytes) in E. rewrite bytes_of_bytes in E.
    apply (f_equal (@rev ascii)) in E. rewrite rev_involutive in E.
    exists (rev (bytes r)). rewrite E. reflexivity.
  - intros [l ->]. exists (of_bytes (rev l)). rewrite rev_app_distr. by apply bytes_inj.
Qed.

Lemma name_last n : name_ok n -> exists l a, bytes n = l ++ [a] /\ a <> slash.
Proof.
  intros [Hne Hs]. destruct (exists_last (l := bytes n)) as (l & a & E).
  { intros E. apply Hne. by apply bytes_inj. }
  exists l, a. split; [done|]. intros ->. apply Hs. rewrite E. set_solver.
Qed.

Lemma name_relative n : name_ok n -> is_absolute n = false.
Proof.
  intros [_ Hs]. apply not_true_iff_false. rewrite is_absolute_spec. intros [l E]. rewrite E in Hs. set_solver.
Qed.

Lemma bytes_join dir n :
  name_ok n -> dir = "/" \/ (dir <> "" /\ exists l a, bytes dir = l ++ [a] /\ a <> slash) ->
  bytes (join dir n) = (if String.eqb dir "/" then [] else bytes dir) ++ slash :: bytes n.
Proof.
  intros Hn Hd. unfold join. rewrite (name_relative n Hn). destruct Hd as [->|(Hne & l & a & E & Ha)].
  - cbn. done.
  - rewrite (proj2 (is_empty_false dir) Hne). rewrite (proj2 (String.eqb_neq dir "/")).
    2: { intros ->. change (bytes "/") with ([] ++ [slash]) in E. apply app_inj_tail in E as [_ <-]. done. }
    destruct (ends_with dir "/") eqn:Ee; [|by rewrite !bytes_cat].
    apply ends_with_slash in Ee as [l' E']. rewrite E in E'. by apply app_inj_tail in E' as [_ ?].
Qed.

Lemma rendered_last names n l a :
  bytes n = l ++ [a] -> exists k, rendered (names ++ [n]) = k ++ [a] /\ k <> [].
Proof.
  intros E. induction names as [|x names (k & Ek & _)]; cbn [app rendered].
  - rewrite E, app_nil_r. by exists (slash :: l).
  - rewrite Ek. exists (slash :: bytes x ++ k). split; [cbn; by rewrite <-app_assoc|done].
Qed.

Lemma bytes_render names :
  Forall name_ok names -> bytes (foldl join "/" names) = match names with [] => [slash] | _ => rendered names end.
Proof.
  induction names as [|n names IH] using rev_ind; [done|]. intros [Hns [Hn _]%Forall_cons]%Forall_app.
  specialize (IH Hns). rewrite foldl_app. cbn [foldl].
  assert (rendered (names ++ [n]) = rendered names ++ slash :: bytes n) as Er.
  { clear. induction names as [|m names IH]; [cbn; by rewrite app_nil_r|].
    cbn [app rendered]. rewrite IH. by rewrite <-app_assoc. }
  destruct names as [|m names _] using rev_ind.
  - rewrite bytes_join by (auto; done). cbn. by rewrite app_nil_r.
  - apply Forall_app in Hns as [Hns [Hm _]%Forall_cons].
    destruct (name_last m Hm) as (l & a & Em & Ha).
    assert (bytes (foldl join "/" (names ++ [m])) = rendered (names ++ [m])) as IH'.
    { rewrite IH. by destruct names. }
    destruct (rendered_last names m l a Em) as (k & Ek & Hk).
    rewrite bytes_join.
    + rewrite IH', Er. rewrite (proj2 (String.eqb_neq _ "/")).
      * by destruct names.
      * intros E. rewrite E in IH'. rewrite Ek in IH'. destruct k as [|x [|y k]]; done.
    + done.
    + right. split; [intros E; rewrite E in IH'; rewrite Ek in IH'; by destruct k|].
      exists k, a. by rewrite IH'.
Qed.

Lemma rendered_inj n1 n2 :
  Forall name_ok n1 -> Forall name_ok n2 -> rendered n1 = rendered n2 -> n1 = n2.
Proof.
  intros H1. revert n2. induction H1 as [|x n1 [Hx1 Hx] Hn1 IH]; intros [|y n2] H2 E; [done..|].
  apply Forall_cons in H2 as [[Hy1 Hy] H2]. injection E as E.
  assert (forall a b r1 r2, slash ∉ a -> slash ∉ b -> a ++ rendered r1 = b ++ rendered r2 ->
    a = b /\ rendered r1 = rendered r2) as Hcut.
  { clear. induction a as [|c a IH]; intros [|d b] r1 r2 Ha Hb Hab; [done| | |].
    - destruct r1; [done|]. injection Hab as <- _. set_solver.
    - destruct r2; [done|]. injection Hab as -> _. set_solver.
    - injection Hab as -> Hab. destruct (IH b r1 r2) as [-> ?]; [set_solver..|done|done]. }
  apply Hcut in E as [Exy Er]; [|done|done]. apply bytes_inj in Exy as ->. f_equal. by apply IH.
Qed.

Lemma render_inj n1 n2 :
  Forall name_ok n1 -> Forall name_ok n2 -> foldl join "/" n1 = foldl join "/" n2 -> n1 = n2.
Proof.
  intros H1 H2 E. apply (f_equal bytes) in E. rewrite !bytes_render in E by done.
  assert (forall x ns, Forall name_ok (x :: ns) -> rendered (x :: ns) <> [slash]) as Hno.
  { intros x ns [[Hx _] _]%Forall_cons. cbn. intros [= Ex]. apply Hx, bytes_inj.
    by destruct (bytes x). }
  destruct n1 as [|x n1], n2 as [|y n2]; [done| | |by apply rendered_inj].
  - by symmetry in E; apply Hno in E.
  - by apply Hno in E.
Qed.

Lemma trim_end_slash_id s l a : bytes s = l ++ [a] -> a <> slash -> trim_end_slash s = s.
Proof.
  intros E Ha. unfold trim_end_slash. rewrite E, rev_app_distr. cbn [rev app drop_slash].
  rewrite decide_False by done. cbn [rev]. rewrite rev_involutive, <-E. apply of_bytes_bytes.
Qed.

(** The components of the text are the names. *)
Lemma split_slash_name n r :
  slash ∉ n -> split_slash (n ++ slash :: r) = n :: split_slash r.
Proof.
  induction n as [|a n IH]; intros Hn; cbn [app split_slash]; [by rewrite decide_True|].
  rewrite decide_False by set_solver. by rewrite IH by set_solver.
Qed.
Lemma split_slash_end n : slash ∉ n -> split_slash n = [n].
Proof.
  induction n as [|a n IH]; intros Hn; cbn [split_slash]; [done|].
  rewrite decide_False by set_solver. by rewrite IH by set_solver.
Qed.
Lemma split_rendered names :
  Forall name_ok names -> of_bytes <$> split_slash (rendered names) = "" :: names.
Proof.
  induction 1 as [|n names [_ Hn] Hns IH]; [done|]. cbn [rendered split_slash].
  rewrite decide_True by done. rewrite fmap_cons. f_equal. destruct names as [|m names].
  - cbn [rendered]. rewrite app_nil_r, split_slash_end by done. cbn. by rewrite of_bytes_bytes.
  - cbn [rendered split_slash] in IH |- *. rewrite decide_True in IH by done.
    rewrite split_slash_name by done. rewrite fmap_cons in IH |- *. injection IH as IH.
    by rewrite of_bytes_bytes, IH.
Qed.

(** Names that are not [.] or [..]. *)
Definition plain_name (c : string) : Prop := name_ok c /\ c <> "." /\ c <> "..".

Lemma place_plain dir : Forall plain_name (place dir).
Proof.
  unfold place. rewrite rev_alt. apply Forall_reverse.
  pose proof (normal_components_ok dir) as H. revert H. generalize (normal_components dir).
  assert (Forall plain_name []) as H0 by constructor. revert H0. generalize (@nil string).
  intros stack Hs comps. revert stack Hs. induction comps as [|c comps IH]; intros stack Hs Hc; [done|].
  apply Forall_cons in Hc as [[Hc Hd] Hcs]. cbn [foldl]. apply IH; [|done]. unfold resolve_step.
  destruct (String.eqb_spec c ".."); [by destruct Hs|by constructor].
Qed.

Lemma place_ok dir : Forall name_ok (place dir).
Proof. eapply Forall_impl; [apply place_plain|]. by intros c [? _]. Qed.

Lemma place_render names : Forall plain_name names -> place (foldl join "/" names) = names.
Proof.
  intros Hp. assert (Forall name_ok names) as Hok.
  { eapply Forall_impl; [exact Hp|]. by intros c [? _]. }
  assert (normal_components (foldl join "/" names) = names) as En.
  { unfold normal_components, raw_components. rewrite bytes_render by done. destruct names as [|n ns]; [done|].
    rewrite split_rendered by done. change (List.filter kept (n :: ns) = n :: ns).
    clear Hok. revert Hp. generalize (n :: ns). induction 1 as [|c cs ([Hne _] & Hd & _) Hcs IH]; [done|]. cbn [List.filter].
    unfold kept at 1. rewrite (proj2 (is_empty_false c) Hne), (proj2 (String.eqb_neq c ".") Hd).
    cbn [orb negb]. by rewrite IH. }
  unfold place. rewrite En. clear Hok En. rewrite <-(rev_involutive names) at 2. f_equal.
  rewrite <-(app_nil_r (rev names)). generalize (@nil string).
  induction Hp as [|c cs (_ & _ & Hdd) Hcs IH]; intros stack; [done|]. cbn [foldl].
  unfold resolve_step at 2. rewrite (proj2 (String.eqb_neq c "..") Hdd), IH. cbn [rev].
  by rewrite <-app_assoc.
Qed.

Section key.
Context (env : Env) (short_hash : string -> string).

Lemma normalize_render dir :
  is_absolute dir = true -> normalize_dir_for_key env dir = foldl join "/" (place dir).
Proof.
  intros Ha. unfold normalize_dir_for_key. rewrite Ha. cbn [orb]. unfold components. rewrite Ha.
  cbn [foldl]. change (key_step (false, []) "/") with (true, @nil string).
  rewrite key_steps by apply normal_components_ok. fold (place dir).
  destruct (1 <? String.length (foldl join "/" (place dir))) eqn:El; [|done].
  pose proof (place_ok dir) as Hok. pose proof (bytes_render _ Hok) as Hb.
  destruct (place dir) as [|n ns _] using rev_ind; [done|].
  apply Forall_app in Hok as [_ [Hn _]%Forall_cons]. destruct (name_last n Hn) as (l & a & E & Hna).
  destruct (rendered_last ns n l a E) as (k & Ek & _).
  eapply trim_end_slash_id; [|exact Hna]. rewrite Hb, <-Ek. by destruct ns.
Qed.

(** The directory of a Codex home tells apart exactly the places that workspaces are at:
    two absolute paths are hashed alike if and only if they lead to the same place by
    their components, whatever separators, [.] and [..] they are spelled with; and the
    text that is hashed is itself a path to that place. *)
Theorem codex_key_names_the_place dir1 dir2 :
  is_absolute dir1 = true -> is_absolute dir2 = true ->
  (normalize_dir_for_key env dir1 = normalize_dir_for_key env dir2 <-> place dir1 = place dir2)
  /\ (place dir1 = place dir2 ->
      forall ws, codex_home_key env short_hash ws dir1 = codex_home_key env short_hash ws dir2)
  /\ place (normalize_dir_for_key env dir1) = place dir1.
Proof.
  intros H1 H2.
  assert (normalize_dir_for_key env dir1 = normalize_dir_for_key env dir2 <-> place dir1 = place dir2) as Hiff.
  { rewrite !normalize_render by done. split; [|by intros ->]. apply render_inj; apply place_ok. }
  split_and!; [done| |].
  - intros E ws. unfold codex_home_key. by rewrite (proj2 Hiff E).
  - rewrite normalize_render by done. apply place_render, place_plain.
Qed.
End key.

(** ** Preparing a home *)

Section prepare.
Context {F : Type} `{!FileSystem F} `{!ArtifactFs F} `{!ArtifactFsOk F} `{!LinkFs F}.
Context `{!TextOps} `{!DebugOk} `{!YamlCodec Config} `{!YamlCodec ManagedOverlay}.
Context (env : Env) (short_hash : string -> string).

(** The steps before the config is written. *)
Definition home_ready (h codex_home : string) (fs fs1 : F) : Prop :=
  (_ ← file_act (CodexCreateDir codex_home) (fun fs => fs_create_dir_all fs codex_home);
   link_if_present (join (join h ".codex") "auth.json") (join codex_home "auth.json")) fs = (Ok tt, fs1).

(** Preparing a Codex home leaves the user's config with ax's settings in it.  On success
    the home is the directory of the workspace's place; its [config.toml] holds, key by
    key, what ax sets there, and otherwise what the user's [~/.codex/config.toml] says. *)
Theorem prepared_home_keeps_the_config workspace dir socket_path ax_bin config_path fs fs' path :
  prepare_home env short_hash workspace dir socket_path ax_bin config_path fs = (Ok path, fs') ->
  exists h fs1 base text,
    home env = Some h
    /\ path = join (join (join h ".ax") "codex") (codex_home_key env short_hash workspace dir)
    /\ home_ready h path fs fs1
    /\ load_base_codex_config (join (join h ".codex") "config.toml") fs1 = Ok base
    /\ fs_read_to_string fs' (join path "config.toml") = Ok text
    /\ forall s, slot_ok s ->
       get_slot s (toml_lines text)
       = match edited s (codex_edits (resolve_codex_config env config_path workspace fs1)
                           workspace dir socket_path ax_bin config_path) with
         | Some value => Some (toml_entry (slot_key s) value)
         | None => get_slot s (toml_lines base)
         end.
Proof.
  unfold prepare_home, home_ready, resolve_home, codex_home_path, resolve_home.
  unfold mbind, Act_bind, act_lift, gets. destruct (home env) as [h|]; [|done]. cbn [result_bind].
  set (codex_home := join _ (codex_home_key _ _ _ _)).
  destruct (file_act (CodexCreateDir codex_home) _ fs) as [[[]|e] fs0] eqn:Ec; [|done].
  destruct (link_if_present _ _ fs0) as [[[]|e] fs1] eqn:El; [|done].
  destruct (load_base_codex_config _ fs1) as [base|e] eqn:Eb; [|done].
  destruct (file_act (CodexWriteConfig _) _ fs1) as [[[]|e] fs2] eqn:Ew; [|done].
  intros [= <- <-]. apply file_act_ok, fs_read_to_string_write in Ew.
  eexists h, fs1, base, _. split_and!; [done|done|by rewrite Ec|done|done|]. intros s Hs.
  rewrite toml_trailing, codex_config_edits. apply get_set_slots; [done|apply codex_edits_ok].
Qed.
End prepare.
