(* ===== verification/Dispatch.v ===== *)
(** * Dispatching work and controlling named targets
    (crates/ax-workspace/src/dispatch.rs and lifecycle.rs).

    Both load the configuration, build the desired state and act on one target.  Loading
    recurses through the files, so these operations are [Run] computations with fuel;
    everything else is an action.  An error of the configuration carries the error value
    instead of its text.  Waiting for a started agent only lets time pass and is left
    out, so that [dispatch_runnable_work_with_options] does not depend on its options. *)

From stdpp Require Import prelude strings list gmap fin_maps.
From S2P Require Import Prelude Act RustStr RustText Proto Wake SessionManager.
From S2P Require Import Paths ConfigSchema ConfigTree.
From S2P Require Import Tmux Artifacts WorkspaceManager Reconcile.

Definition run_act {E S A} (m : Act E S A) : Run E S A := fun s => Some (m s).

Inductive DispatchError :=
| DispatchTargetRequired
| SenderRequired
| LoadConfig (e : TreeError)
| LoadTree (e : TreeError)
| BuildDesired (e : OrchestratorError)
| DispatchTargetNotDefined (target config : string)
| FreshRestartUnsupported (target : string)
| UnmanagedTargetNotRunning (target : string)
| DispatchWorkspace (e : WorkspaceError)
| DispatchOrchestrator (e : OrchestratorError)
| DispatchWake (target : string) (e : TmuxError)
| ConcurrentCapReached (count cap : Z)
| CapacityQuery (e : TmuxError).

Inductive LifecycleError :=
| TargetRequired
| LifecycleDispatch (e : DispatchError)
| AmbiguousTarget (target config : string)
| TargetNotDefined (target config : string)
| AlreadyRunning (kind name : string)
| NotRunning (kind name : string)
| UnsupportedManagedSession (kind name action : string)
| DestroySession (e : TmuxError)
| LifecycleWorkspace (e : WorkspaceError)
| LifecycleOrchestrator (e : OrchestratorError).

Definition clean_path (path : string) : string :=
  if is_empty (trim path) then "" else normalize_path path.

Definition dispatch_wake_prompt (sender : string) (fresh : bool) : string :=
  let q := dquote in
  let base :=
    "대기 중인 메시지가 있습니다. `read_messages`로 확인하고 요청된 작업을 수행해 주세요. `read_messages`가 비어 있어도 현재 워크스페이스에 할당된 daemon task를 `list_tasks(assignee=<self>, status="
    +:+ q +:+ "pending" +:+ q +:+ ")` 및 `list_tasks(assignee=<self>, status=" +:+ q +:+ "in_progress" +:+ q
    +:+ ")`로 확인하고, runnable task는 `get_task`로 구조화된 문맥을 확인한 뒤 처리하세요. 회신이 필요하고 `"
    +:+ sender +:+ "`가 지원되는 `send_message` 대상임이 확실하면 `send_message(to=" +:+ q +:+ sender +:+ q
    +:+ ")`로 결과를 보내고, 그렇지 않으면 현재 최종 응답 또는 지원되는 상위 reply path로 결과를 보고하세요." in
  if negb fresh then base
  else base +:+ " 이번 dispatch는 fresh-context 시작이 요청된 task입니다. 메시지에 `Task ID:`가 있으면 먼저 `get_task`로 해당 task를 확인하고, 이전 대화 문맥을 이어받았다고 가정하지 말고 현재 메시지와 task 정보만으로 다시 시작해 주세요.".

Definition lifecycle_kind_name (k : LifecycleTargetKind) : string :=
  match k with TargetWorkspace => "workspace" | TargetOrchestrator => "orchestrator" end.
Definition lifecycle_action_name (a : LifecycleAction) : string :=
  match a with Start => "start" | Stop => "stop" | Restart => "restart" end.

Record ResolvedLifecycleTarget := mkResolvedLifecycleTarget {
  rl_target : LifecycleTarget;
  rl_entry : DesiredWorkspace + DesiredOrchestrator;
}.

Section dispatch.
Context {F T : Type} `{!FileSystem F} `{!ArtifactFs F} `{!JsonCodec McpConfig}.
Context `{!YamlCodec Config} `{!YamlCodec ManagedOverlay} `{!TextOps}.
Context `{!CodexHome F} `{!Prompts F} `{!Tmux T}.
Context (env : Env) (hash_text : string -> string) (fuel : nat).
Context (socket_path config_path ax_bin : string).

Definition manager : Manager := mkManager socket_path (Some config_path) ax_bin.

Definition enforce_capacity_cap (cap : Z) (t : T) : result DispatchError unit :=
  if (cap =? 0)%Z then Ok tt else
  match list_sessions t with
  | Err e => Err (CapacityQuery e)
  | Ok listed =>
      let count := u32_wrap (Z.of_nat (length listed)) in
      if (cap <=? count)%Z then Err (ConcurrentCapReached count cap) else Ok tt
  end.

Definition desired_state_of (cfg : Config) (tree : ProjectNode) : result DispatchError DesiredState :=
  map_err BuildDesired
    (build_desired_state_with_tree hash_text env cfg tree socket_path config_path
       (negb (pn_disable_root_orchestrator tree))).

Definition load_dispatch_desired_state : Run DispatchError (World F T) DesiredState := fun w =>
  match load env (files w) fuel config_path with
  | None => None
  | Some (Err e) => Some (Err (LoadConfig e), w)
  | Some (Ok cfg) =>
      match load_tree env (files w) fuel config_path with
      | None => None
      | Some (Err e) => Some (Err (LoadTree e), w)
      | Some (Ok tree) => Some (desired_state_of cfg tree, w)
      end
  end.

(** ** dispatch.rs *)

Definition ensure_workspace_dispatch_target (entry : DesiredWorkspace) (fresh : bool)
  : Act DispatchError (World F T) unit :=
  if fresh
  then act_map_err DispatchWorkspace (manager_restart manager (dw_name entry) (dw_workspace entry))
  else
  running ← gets (fun w => session_exists (dw_name entry) (tmux w));
  if running : bool then mret tt
  else act_map_err DispatchWorkspace (manager_create manager (dw_name entry) (dw_workspace entry)).

Definition ensure_orchestrator_dispatch_target (entry : DesiredOrchestrator) (fresh : bool)
  : Act DispatchError (World F T) unit :=
  if negb (do_managed_session entry) then
    if fresh then act_throw (FreshRestartUnsupported (do_name entry)) else
    running ← gets (fun w => session_exists (do_name entry) (tmux w));
    if running : bool then mret tt else act_throw (UnmanagedTargetNotRunning (do_name entry))
  else
  _ ← (if fresh
       then act_map_err DispatchOrchestrator
              (cleanup_orchestrator_state (do_name entry) (do_artifact_dir entry))
       else mret tt);
  running ← gets (fun w => session_exists (do_name entry) (tmux w));
  if running : bool then mret tt
  else act_map_err DispatchOrchestrator
         (ensure_orchestrator env (do_node entry) (do_parent_name entry) socket_path
            (Some config_path) ax_bin true).

(** [ensure_dispatch_target] once the desired state is loaded. *)
Definition ensure_desired_target (desired : DesiredState) (target : string) (fresh : bool)
  : Act DispatchError (World F T) unit :=
  cap ← gets (fun w => if session_exists target (tmux w) then Ok tt
                       else enforce_capacity_cap (ds_max_concurrent_agents desired) (tmux w));
  _ ← act_lift cap;
  match ds_workspaces desired !! target with
  | Some entry => ensure_workspace_dispatch_target entry fresh
  | None =>
      match ds_orchestrators desired !! target with
      | Some entry => ensure_orchestrator_dispatch_target entry fresh
      | None =>
          running ← gets (fun w => session_exists target (tmux w));
          if negb fresh && running then mret tt
          else act_throw (DispatchTargetNotDefined target (clean_path config_path))
      end
  end.

Definition ensure_dispatch_target (target : string) (fresh : bool)
  : Run DispatchError (World F T) unit :=
  let target := trim target in
  if is_empty target then throw DispatchTargetRequired else
  running ← run_act (gets (fun w => session_exists target (tmux w)));
  if negb fresh && (running : bool) then mret tt else
  desired ← load_dispatch_desired_state;
  run_act (ensure_desired_target desired target fresh).

Definition dispatch_runnable_work_with_options (target sender : string) (fresh : bool)
  : Run DispatchError (World F T) unit :=
  let target := trim target in
  if is_empty target then throw DispatchTargetRequired else
  let sender := trim sender in
  if is_empty sender then throw SenderRequired else
  _ ← ensure_dispatch_target target fresh;
  run_act (act_map_err (DispatchWake target)
             (on_tmux (wake_workspace target (dispatch_wake_prompt sender fresh)))).

(** ** lifecycle.rs *)

Definition resolve_lifecycle_target (target_name : string)
  : Run LifecycleError (World F T) ResolvedLifecycleTarget := fun w =>
  let target_name := trim target_name in
  if is_empty target_name then Some (Err TargetRequired, w) else
  match load_dispatch_desired_state w with
  | None => None
  | Some (Err e, w) => Some (Err (LifecycleDispatch e), w)
  | Some (Ok desired, w) =>
      match ds_workspaces desired !! target_name, ds_orchestrators desired !! target_name with
      | Some _, Some _ => Some (Err (AmbiguousTarget target_name (clean_path config_path)), w)
      | Some ws, None =>
          Some (Ok (mkResolvedLifecycleTarget
                      (mkLifecycleTarget (dw_name ws) TargetWorkspace true) (inl ws)), w)
      | None, Some o =>
          Some (Ok (mkResolvedLifecycleTarget
                      (mkLifecycleTarget (do_name o) TargetOrchestrator (do_managed_session o))
                      (inr o)), w)
      | None, None => Some (Err (TargetNotDefined target_name (clean_path config_path)), w)
      end
  end.

Definition stop_session_target (target : LifecycleTarget) : Act LifecycleError (World F T) unit :=
  running ← gets (fun w => session_exists (lt_name target) (tmux w));
  if negb running
  then act_throw (NotRunning (lifecycle_kind_name (lt_kind target)) (lt_name target))
  else act_map_err DestroySession (on_tmux (destroy_session (lt_name target))).

(** The guards of [Start]: not running, and room below the cap. *)
Definition start_guard (target : LifecycleTarget) : Run LifecycleError (World F T) unit :=
  running ← run_act (gets (fun w => session_exists (lt_name target) (tmux w)));
  if running : bool
  then throw (AlreadyRunning (lifecycle_kind_name (lt_kind target)) (lt_name target)) else
  fun w => match load_dispatch_desired_state w with
           | None => None
           | Some (Err e, w) => Some (Err (LifecycleDispatch e), w)
           | Some (Ok desired, w) =>
               Some (map_err LifecycleDispatch
                       (enforce_capacity_cap (ds_max_concurrent_agents desired) (tmux w)), w)
           end.

Definition control_workspace_target (target : LifecycleTarget) (ws : DesiredWorkspace)
    (action : LifecycleAction) : Run LifecycleError (World F T) unit :=
  match action with
  | Start =>
      _ ← start_guard target;
      run_act (act_map_err LifecycleWorkspace (manager_create manager (lt_name target) (dw_workspace ws)))
  | Stop => run_act (stop_session_target target)
  | Restart =>
      run_act (act_map_err LifecycleWorkspace (manager_restart manager (lt_name target) (dw_workspace ws)))
  end.

Definition start_named_orchestrator (o : DesiredOrchestrator) : Act LifecycleError (World F T) unit :=
  act_map_err LifecycleOrchestrator
    (ensure_orchestrator env (do_node o) (do_parent_name o) socket_path (Some config_path) ax_bin true).

Definition control_orchestrator_target (target : LifecycleTarget) (o : DesiredOrchestrator)
    (action : LifecycleAction) : Run LifecycleError (World F T) unit :=
  if negb (lt_managed_session target)
  then throw (UnsupportedManagedSession "orchestrator" (lt_name target) (lifecycle_action_name action))
  else
  match action with
  | Start =>
      _ ← start_guard target;
      run_act (start_named_orchestrator o)
  | Stop => run_act (stop_session_target target)
  | Restart =>
      run_act (_ ← act_map_err LifecycleOrchestrator
                     (cleanup_orchestrator_state (lt_name target) (do_artifact_dir o));
               start_named_orchestrator o)
  end.

Definition control_named_target (target_name : string) (action : LifecycleAction)
  : Run LifecycleError (World F T) LifecycleTarget :=
  resolved ← resolve_lifecycle_target target_name;
  _ ← match rl_entry resolved with
      | inl ws => control_workspace_target (rl_target resolved) ws action
      | inr o => control_orchestrator_target (rl_target resolved) o action
      end;
  mret (rl_target resolved).
End dispatch.
