(* ===== verification/DispatchFacts.v ===== *)
(** * Starting, stopping and dispatching single targets.

    Theorems about [Dispatch]: target names are never ambiguous, a lifecycle request
    refines the state machine of one session, and spawning respects the cap on
    concurrent agents. *)

From stdpp Require Import prelude strings list gmap fin_maps.
From S2P Require Import Prelude Act RustStr RustText Proto Wake SessionManager.
From S2P Require Import Paths ConfigSchema ConfigTree ConfigFacts.
From S2P Require Import Tmux Artifacts WorkspaceManager Reconcile ReconcileFacts.
From S2P Require Import Dispatch.

(** ** The desired state mirrors the configuration *)

Section desired.
Context {F : Type} `{!Prompts F}.
Context (hash_text : string -> string) (env : Env).

Lemma orchestrator_name_session p : orchestrator_name p = orchestrator_session_name p.
Proof. reflexivity. Qed.

Lemma orchestrator_name_root p : String.eqb (orchestrator_name p) "orchestrator" = is_empty p.
Proof.
  unfold orchestrator_name. destruct (is_empty p) eqn:Ep; [done|].
  apply is_empty_false in Ep. apply String.eqb_neq. intros E%(f_equal String.length).
  rewrite string_length_cat in E. destruct p; [done|]. cbn in E. lia.
Qed.

Definition entry_ok (n : string) (e : DesiredOrchestrator) : Prop :=
  do_name e = n /\ orchestrator_name (pn_prefix (do_node e)) = n
  /\ do_root e = is_empty (pn_prefix (do_node e)) /\ do_managed_session e = negb (do_root e).

(** [d'] is [d] with the orchestrators [names] added. *)
Record appended (names : list string) (d d' : DesiredState) : Prop := {
  ap_workspaces : ds_workspaces d' = ds_workspaces d;
  ap_cap : ds_max_concurrent_agents d' = ds_max_concurrent_agents d;
  ap_keys n : is_Some (ds_orchestrators d' !! n) <-> is_Some (ds_orchestrators d !! n) \/ n ∈ names;
  ap_entries n e : ds_orchestrators d' !! n = Some e -> ds_orchestrators d !! n = Some e \/ entry_ok n e;
}.

Lemma appended_refl d : appended [] d d.
Proof. split; [done..| |by left]. intros n. split; [by left|]. by intros [?|?%not_elem_of_nil]. Qed.

Lemma appended_trans n1 n2 d1 d2 d3 :
  appended n1 d1 d2 -> appended n2 d2 d3 -> appended (n1 ++ n2) d1 d3.
Proof.
  intros [W1 C1 K1 E1] [W2 C2 K2 E2]. split; [congruence..| |].
  - intros n. rewrite K2, K1, elem_of_app. tauto.
  - intros n e He. apply E2 in He as [He|]; [|by right]. by apply E1.
Qed.

Lemma appended_self node parent_name runtime entry d :
  desired_orchestrator hash_text env node parent_name runtime = Ok entry ->
  appended [orchestrator_name (pn_prefix node)] d
    (d <| ds_orchestrators := <[orchestrator_name (pn_prefix node) := entry]> (ds_orchestrators d) |>).
Proof.
  unfold desired_orchestrator. destruct (orchestrator_dir_for_node env node) as [dir|]; [|done].
  cbn [mbind result_bind]. intros [= <-]. split; fsimpl; [done..| |].
  - intros n. rewrite list_elem_of_singleton. destruct (decide (n = orchestrator_name (pn_prefix node))) as [->|Hne].
    + rewrite lookup_insert_eq. split; [by right|]. by eexists.
    + rewrite lookup_insert_ne by done. tauto.
  - intros n e. destruct (decide (n = orchestrator_name (pn_prefix node))) as [->|Hne].
    + rewrite lookup_insert_eq. intros [= <-]. right. done.
    + rewrite lookup_insert_ne by done. by left.
Qed.

Definition subtree_names (node : ProjectNode) (include_self : bool) : list string :=
  (if include_self then [orchestrator_name (pn_prefix node)] else [])
  ++ (orchestrator_name <$> node_prefixes node).

Lemma append_desired_spec : forall node parent_name include_self d d',
  append_desired_orchestrators hash_text env node parent_name include_self d = Ok d' ->
  appended (subtree_names node include_self) d d'.
Proof.
  fix IH 1. intros [nm al pre dir rt dis ws cs] parent_name include_self d d'.
  cbn [append_desired_orchestrators pn_prefix pn_children].
  destruct (orchestrator_runtime_of _) as [runtime|]; [|done]. cbn [mbind result_bind].
  set (self := orchestrator_name pre). set (cp := if include_self then self else parent_name).
  intros H. unfold subtree_names. cbn [pn_prefix].
  assert (forall d1, (fix children (l : list ProjectNode) (desired : DesiredState)
       : result OrchestratorError DesiredState :=
     match l with
     | [] => Ok desired
     | child :: l =>
         desired ← append_desired_orchestrators hash_text env child cp true desired;
         children l desired
     end) cs d1 = Ok d' ->
     appended (orchestrator_name <$> flat_map (fun c => pn_prefix c :: node_prefixes c) cs) d1 d') as Hcs.
  { clear H. induction cs as [|c cs IHcs]; intros d1 H1.
    - injection H1 as <-. apply appended_refl.
    - destruct (append_desired_orchestrators hash_text env c cp true d1) as [d2|] eqn:E2; [|done].
      cbn [mbind result_bind] in H1. cbn [flat_map]. rewrite fmap_app.
      eapply appended_trans; [|by apply IHcs]. apply IH in E2.
      unfold subtree_names in E2. exact E2. }
  change (node_prefixes (mkProjectNode nm al pre dir rt dis ws cs))
    with (flat_map (fun c => pn_prefix c :: node_prefixes c) cs).
  destruct include_self.
  - destruct (desired_orchestrator _ _ _ _ _) as [entry|] eqn:Ee; [|done]. cbn [mbind result_bind] in H.
    eapply appended_trans; [exact (appended_self _ _ _ _ d Ee)|by apply Hcs].
  - cbn [app mbind result_bind] in *. by apply Hcs.
Qed.

Lemma build_desired_spec cfg tree socket_path config_path include_root d :
  build_desired_state_with_tree hash_text env cfg tree socket_path config_path include_root = Ok d ->
  desired_ok d
  /\ (forall n, ds_workspaces d !! n = mkDesiredWorkspace n <$> workspaces cfg !! n)
  /\ (forall n e, ds_orchestrators d !! n = Some e -> entry_ok n e)
  /\ (forall n, is_Some (ds_orchestrators d !! n) <-> n ∈ subtree_names tree include_root)
  /\ ds_max_concurrent_agents d = max_concurrent_agents cfg.
Proof.
  intros H%append_desired_spec. destruct H as [Hw Hc Hk He].
  assert (forall n e, ds_orchestrators d !! n = Some e -> entry_ok n e) as Hent.
  { intros n e Hn. apply He in Hn as [Hn|]; [|done]. cbn in Hn. by rewrite lookup_empty in Hn. }
  split_and!.
  - intros n e Hn. by apply Hent in Hn as (_ & ? & ? & ?).
  - intros n. rewrite Hw. cbn. rewrite map_lookup_imap. by destruct (workspaces cfg !! n).
  - done.
  - intros n. rewrite Hk. cbn. rewrite lookup_empty. split; [|by right]. by intros [[? ?]|?].
  - by rewrite Hc.
Qed.
End desired.

(** ** Targets *)

(** A [Run] computation has enough fuel and its outcome satisfies [Q]. *)
Definition wpt {E S A} (m : Run E S A) (Q : result E A -> S -> Prop) (s : S) : Prop :=
  match m s with Some (r, s') => Q r s' | None => False end.

Section targets.
Context {F T : Type} `{!FileSystem F} `{!ArtifactFs F} `{!JsonCodec McpConfig}.
Context `{!YamlCodec Config} `{!YamlCodec ManagedOverlay} `{!TextOps}.
Context `{!CodexHome F} `{!Prompts F} `{!Tmux T} `{!TmuxOk T}.
Context (env : Env) (hash_text : string -> string) (fuel : nat).
Context (socket_path config_path ax_bin : string).
Implicit Types (w : World F T) (t : T).

Abbreviation load_desired := (load_dispatch_desired_state (T := T) env hash_text fuel socket_path config_path).
Abbreviation resolve := (resolve_lifecycle_target (T := T) env hash_text fuel socket_path config_path).
Abbreviation control := (control_named_target (T := T) env hash_text fuel socket_path config_path ax_bin).
Abbreviation ensure := (ensure_dispatch_target (T := T) env hash_text fuel socket_path config_path ax_bin).

(** The configuration loads, to the tree [tree] and the desired state [d]. *)
Definition loads w (tree : ProjectNode) (d : DesiredState) : Prop :=
  exists cfg, load env (files w) fuel config_path = Some (Ok cfg)
    /\ load_tree env (files w) fuel config_path = Some (Ok tree)
    /\ desired_state_of env hash_text socket_path config_path cfg tree = Ok d.

Lemma loads_desired w tree d : loads w tree d -> load_desired w = Some (Ok d, w).
Proof. intros (cfg & E1 & E2 & E3). unfold load_dispatch_desired_state. by rewrite E1, E2, E3. Qed.

Lemma loads_spec w tree d :
  loads w tree d ->
  desired_ok d
  /\ (forall n ws, ds_workspaces d !! n = Some ws -> dw_name ws = n)
  /\ (forall n e, ds_orchestrators d !! n = Some e -> entry_ok n e)
  /\ (forall n, is_Some (ds_orchestrators d !! n) <-> n ∈ node_orchestrators tree)
  /\ (named_children env (files w) ->
      forall n, is_Some (ds_workspaces d !! n) <-> n ∈ node_workspaces tree).
Proof.
  intros (cfg & E1 & E2 & E3). unfold desired_state_of in E3.
  destruct (build_desired_state_with_tree _ _ _ _ _ _ _) as [d'|] eqn:Eb; [|done].
  injection E3 as <-. apply build_desired_spec in Eb as (Hok & Hw & He & Hk & _). split_and!; try done.
  - intros n ws. rewrite Hw. by destruct (workspaces cfg !! n); intros [= <-].
  - intros n. rewrite Hk. unfold subtree_names, node_orchestrators.
    rewrite (load_tree_prefix _ _ _ _ _ E2). by destruct (pn_disable_root_orchestrator tree).
  - intros Hnamed n. pose proof (flat_and_tree env (files w) fuel config_path Hnamed) as Hag.
    rewrite E1, E2 in Hag. rewrite (Hag n), Hw, fmap_is_Some. naive_solver.
Qed.

(** A target name means one thing.  When the configuration loads, a trimmed name
    resolves to the workspace or to the orchestrator of that name, whichever the tree
    has, and is refused as undefined otherwise: the two never coincide, so the error for
    ambiguous names cannot occur. *)
Theorem targets_resolve_uniquely abs w tree d name :
  env_ok env -> named_children env (files w) -> countable_children env (files w) ->
  absolutize env config_path = Ok abs -> is_Some (parent abs) ->
  loads w tree d -> trim name <> "" ->
  let n := trim name in
  (n ∈ node_workspaces tree /\ ~ n ∈ node_orchestrators tree
     /\ exists ws, resolve name w
        = Some (Ok (mkResolvedLifecycleTarget (mkLifecycleTarget n TargetWorkspace true) (inl ws)), w))
  \/ (~ n ∈ node_workspaces tree /\ n ∈ node_orchestrators tree
     /\ exists o, resolve name w
        = Some (Ok (mkResolvedLifecycleTarget
                      (mkLifecycleTarget n TargetOrchestrator (negb (String.eqb n "orchestrator"))) (inr o)), w))
  \/ (~ n ∈ node_workspaces tree /\ ~ n ∈ node_orchestrators tree
     /\ resolve name w = Some (Err (TargetNotDefined n (clean_path config_path)), w)).
Proof.
  intros Henv Hnamed Hcount Habs Hpar Hloads Hne n.
  pose proof (loads_spec _ _ _ Hloads) as (_ & Hwn & He & Hko & Hkw). specialize (Hkw Hnamed).
  assert (forall m, m ∈ node_workspaces tree -> m ∉ node_orchestrators tree) as Hdis.
  { destruct Hloads as (cfg & _ & E2 & _). by eapply tree_sessions_unique. }
  unfold resolve_lifecycle_target. fold n. rewrite (proj2 (is_empty_false n) Hne).
  rewrite (loads_desired _ _ _ Hloads).
  destruct (ds_workspaces d !! n) as [ws|] eqn:Ew.
  - assert (n ∈ node_workspaces tree) as Hin by (apply Hkw; by eexists).
    pose proof (Hdis n Hin) as Hnot. left. split_and!; [done..|]. exists ws.
    destruct (ds_orchestrators d !! n) eqn:Eo; [exfalso; apply Hnot, Hko; by eexists|].
    by rewrite (Hwn n ws Ew).
  - assert (n ∉ node_workspaces tree) as Hnin.
    { rewrite <-Hkw, Ew. by intros [? ?]. }
    right. destruct (ds_orchestrators d !! n) as [o|] eqn:Eo.
    + left. split_and!; [done|apply Hko; by eexists|]. exists o.
      destruct (He n o Eo) as (-> & En & Er & ->).
      by rewrite Er, <-En, (orchestrator_name_root (pn_prefix (do_node o))).
    + right. split_and!; [done| |done]. rewrite <-Hko, Eo. by intros [? ?].
Qed.

(** ** One session as a state machine *)

Lemma wpt_bind {E S A B} (m : Run E S A) (f : A -> Run E S B) Q s :
  wpt m (fun r s' => match r with Ok a => wpt (f a) Q s' | Err e => Q (Err e) s' end) s ->
  wpt (m ≫= f) Q s.
Proof. unfold wpt, mbind, Run_bind. by destruct (m s) as [[[a|e] s']|]. Qed.
Lemma wpt_act {E S A} (m : Act E S A) Q s : wp m Q s -> wpt (run_act m) Q s.
Proof. unfold wpt, run_act, wp. by destruct (m s). Qed.
Lemma wpt_mono {E S A} (m : Run E S A) (Q Q' : result E A -> S -> Prop) s :
  wpt m Q s -> (forall r s', Q r s' -> Q' r s') -> wpt m Q' s.
Proof. unfold wpt. destruct (m s) as [[r s']|]; auto. Qed.

(** The session of a managed target is either running or not; a request is a transition,
    or refused. *)
Definition lifecycle_effect (action : LifecycleAction) (running : bool) : option bool :=
  match action, running with
  | Start, false | Restart, _ => Some true
  | Stop, true => Some false
  | Start, true | Stop, false => None
  end.
Definition running (n : string) t : bool := bool_decide (is_Some (session n t)).

(** [n] is a workspace or a managed orchestrator of [d], and not both. *)
Definition managed (d : DesiredState) (n : string) : Prop :=
  (is_Some (ds_workspaces d !! n) /\ ds_orchestrators d !! n = None)
  \/ (ds_workspaces d !! n = None
      /\ exists o, ds_orchestrators d !! n = Some o /\ do_managed_session o = true).

(** The outcome of a request about [n]: the session alone is touched, success is the
    transition, and a refused transition changes nothing. *)
Definition refines_one_session {E A} action n w (r : result E A) (w' : World F T) : Prop :=
  trace (about n) (tmux w) (tmux w')
  /\ (is_ok r = true -> lifecycle_effect action (running n (tmux w)) = Some (running n (tmux w')))
  /\ (lifecycle_effect action (running n (tmux w)) = None -> is_ok r = false /\ w' = w).

Lemma refines_err {E A} action n w (e : E) :
  refines_one_session (A := A) action n w (Err e) w.
Proof. split_and!; [apply trace_refl|done|done]. Qed.

Lemma refines_restart {E A} action n w (r : result E A) w' :
  lifecycle_effect action (running n (tmux w)) = Some true ->
  restarts n (tmux w) r (tmux w') -> refines_one_session action n w r w'.
Proof.
  intros He [Ht Hok]. split_and!; [done| |by rewrite He]. intros Hr. rewrite He. f_equal.
  symmetry. apply bool_decide_eq_true. auto.
Qed.

Lemma refines_ok {E1 E2 A B} action n w (r : result E1 A) (r' : result E2 B) w' :
  is_ok r = is_ok r' -> refines_one_session action n w r w' -> refines_one_session action n w r' w'.
Proof. unfold refines_one_session. by intros ->. Qed.

Lemma wp_stop_session target n w :
  clear {[n]} (tmux w) -> lt_name target = n ->
  wp (stop_session_target target) (fun r w' => refines_one_session Stop n w r w') w.
Proof.
  intros Hc <-. assert (lt_name target ∈ ({[lt_name target]} : gset string)) as Hn by set_solver.
  unfold stop_session_target. apply wp_bind, wp_gets.
  rewrite (session_exists_clear {[lt_name target]}) by done. fold (running (lt_name target) (tmux w)).
  destruct (running (lt_name target) (tmux w)) eqn:Er; cbn [negb]; [|apply wp_throw, refines_err].
  apply wp_map_err, wp_tmux. apply (wp_destroy_session {[lt_name target]}); [done..| |].
  - intros e t' El Eg. split_and!; [by apply trace_nil|done|by rewrite Er].
  - intros t' Hs El Eg. split_and!; [|intros _|by rewrite Er].
    + eapply trace_kill; [done|exact Hs|done|done|apply trace_refl].
    + rewrite Er. cbn [tmux lifecycle_effect]. f_equal. symmetry. apply bool_decide_eq_false.
      unfold session. rewrite El, lookup_delete_eq. by intros [? ?].
Qed.

Lemma wpt_start_guard target n w tree d (Q : result LifecycleError unit -> World F T -> Prop) :
  clear {[n]} (tmux w) -> loads w tree d -> lt_name target = n ->
  (forall e, Q (Err e) w) ->
  (running n (tmux w) = false ->
     enforce_capacity_cap (ds_max_concurrent_agents d) (tmux w) = Ok tt -> Q (Ok tt) w) ->
  wpt (start_guard env hash_text fuel socket_path config_path target) Q w.
Proof.
  intros Hc Hl <- HE HO. assert (lt_name target ∈ ({[lt_name target]} : gset string)) as Hn by set_solver.
  apply wpt_bind, wpt_act, wp_gets. rewrite (session_exists_clear {[lt_name target]}) by done.
  fold (running (lt_name target) (tmux w)).
  destruct (running (lt_name target) (tmux w)); [apply HE|].
  unfold wpt. rewrite (loads_desired _ _ _ Hl).
  destruct (enforce_capacity_cap _ _) as [[]|e]; [by apply HO|apply HE].
Qed.

(** ** Requests *)

(** What a request does, with the check of the cap before a start. *)
Definition controlled {E A} d action n w (r : result E A) (w' : World F T) : Prop :=
  refines_one_session action n w r w'
  /\ (action = Start -> enforce_capacity_cap (ds_max_concurrent_agents d) (tmux w) = Ok tt \/ w' = w).

Lemma controlled_ok {E1 E2 A B} d action n w (r : result E1 A) (r' : result E2 B) w' :
  is_ok r = is_ok r' -> controlled d action n w r w' -> controlled d action n w r' w'.
Proof. intros E [Hr Hc]. split; [by eapply refines_ok|done]. Qed.

Lemma controlled_other {E A} d action n w (r : result E A) w' :
  action <> Start -> refines_one_session action n w r w' -> controlled d action n w r w'.
Proof. by split. Qed.

Lemma controlled_start target (m : Act LifecycleError (World F T) unit) n w tree d :
  clear {[n]} (tmux w) -> loads w tree d -> lt_name target = n ->
  wp m (fun r w' => restarts n (tmux w) r (tmux w')) w ->
  wpt (_ ← start_guard env hash_text fuel socket_path config_path target; run_act m)
      (controlled d Start n w) w.
Proof.
  intros Hc Hl Ht Hwp. apply wpt_bind. eapply wpt_start_guard; [done..| |].
  - intros e. split; [apply refines_err|by right].
  - intros Er Hcap. apply wpt_act. eapply wp_mono; [exact Hwp|]; cbv beta. intros r w' Hr.
    split; [|by left]. apply refines_restart; [by rewrite Er|done].
Qed.

Lemma restarts_map_err {E1 E2 A} (f : E1 -> E2) n t (r : result E1 A) t' :
  restarts n t r t' -> restarts n t (map_err f r) t'.
Proof. unfold restarts. by rewrite is_ok_map_err. Qed.

Lemma control_workspace_spec target ws action n w tree d :
  clear {[n]} (tmux w) -> loads w tree d -> lt_name target = n ->
  wpt (control_workspace_target env hash_text fuel socket_path config_path ax_bin target ws action)
      (controlled d action n w) w.
Proof.
  intros Hc Hl Ht. assert (n ∈ ({[n]} : gset string)) as Hn by set_solver.
  unfold control_workspace_target. rewrite Ht. destruct action.
  - eapply controlled_start; [done..|]. apply wp_map_err.
    eapply wp_mono; [by apply (wp_create_inner _ {[n]})|]; cbv beta. intros r w' Hr.
    by apply restarts_map_err, creates_restarts.
  - apply wpt_act. eapply wp_mono; [by apply wp_stop_session|]; cbv beta. intros r w'.
    by apply controlled_other.
  - apply wpt_act, wp_map_err. eapply wp_mono; [by apply (wp_manager_restart _ {[n]})|]; cbv beta.
    intros r w' Hr. apply controlled_other, refines_restart; [done..|]. by apply restarts_map_err.
Qed.

Lemma control_orchestrator_spec target o action n w tree d :
  clear {[n]} (tmux w) -> loads w tree d -> lt_name target = n -> entry_ok n o ->
  lt_managed_session target = true -> do_managed_session o = true ->
  wpt (control_orchestrator_target env hash_text fuel socket_path config_path ax_bin target o action)
      (controlled d action n w) w.
Proof.
  intros Hc Hl Ht (_ & En & Er & Em) Hmt Hman. assert (n ∈ ({[n]} : gset string)) as Hn by set_solver.
  assert (is_empty (pn_prefix (do_node o)) = false) as Hp.
  { rewrite Hman, Er in Em. by destruct (is_empty (pn_prefix (do_node o))). }
  unfold control_orchestrator_target. rewrite Hmt, Ht. cbn [negb]. destruct action.
  - eapply controlled_start; [done..|]. apply wp_map_err.
    eapply wp_mono; [apply (wp_start_managed env {[n]}); rewrite ?En; done|]; cbv beta. rewrite En.
    intros r w'. apply restarts_map_err.
  - apply wpt_act. eapply wp_mono; [by apply wp_stop_session|]; cbv beta. intros r w'.
    by apply controlled_other.
  - apply wpt_act. unfold start_named_orchestrator.
    assert (forall m1 m2 : Act OrchestratorError (World F T) unit,
      wp (_ ← m1; m2) (fun r w' => restarts n (tmux w) r (tmux w')) w ->
      wp (_ ← act_map_err LifecycleOrchestrator m1; act_map_err LifecycleOrchestrator m2)
        (fun r w' => restarts n (tmux w) r (tmux w')) w) as Hmap.
    { intros m1 m2. unfold wp, mbind, Act_bind, act_map_err.
      destruct (m1 w) as [[[]|e] w1]; cbn; [|done]. by destruct (m2 w1) as [[[]|e] w2]. }
    eapply wp_mono; [apply Hmap; rewrite <-En; apply (wp_restart_orchestrator env {[n]}); rewrite ?En; done|].
    cbv beta. intros r w' Hr. apply controlled_other, refines_restart; done.
Qed.

Lemma control_spec w tree d name action :
  loads w tree d -> trim name <> "" -> managed d (trim name) -> clear {[trim name]} (tmux w) ->
  wpt (control name action) (fun r w' => controlled d action (trim name) w r w'
    /\ forall target, r = Ok target -> lt_name target = trim name) w.
Proof.
  intros Hl Hne Hm Hc. set (n := trim name) in *.
  pose proof (loads_spec _ _ _ Hl) as (_ & Hwn & He & _).
  assert (forall target (m : Run LifecycleError (World F T) unit), lt_name target = n ->
    wpt m (controlled d action n w) w ->
    wpt (_ ← m; mret target) (fun r w' => controlled d action n w r w'
      /\ forall tg, r = Ok tg -> lt_name tg = n) w) as Hret.
  { intros target m Ht Hwp. apply wpt_bind. eapply wpt_mono; [exact Hwp|]; cbv beta.
    intros [[]|e] w' Hr; [|by split]. unfold wpt. cbn. split; [|by intros tg [= <-]].
    by eapply controlled_ok, Hr. }
  unfold control_named_target. apply wpt_bind. unfold wpt at 1, resolve_lifecycle_target. fold n.
  rewrite (proj2 (is_empty_false n) Hne), (loads_desired _ _ _ Hl).
  destruct Hm as [[[ws Ew] Eo]|[Ew (o & Eo & Hman)]]; rewrite Ew, Eo; cbn [rl_entry rl_target].
  - rewrite (Hwn _ _ Ew). apply Hret; [done|]. by eapply control_workspace_spec.
  - rewrite (proj1 (He _ _ Eo)).
    apply Hret; [done|]. eapply control_orchestrator_spec; [done..|by apply He|done|done].
Qed.

(** *** Whatever other sessions there are *)

Lemma wpt_reaches {E A} n (m : Act E (World F T) A) w :
  moves (aimed_at n) m -> wpt (run_act m) (fun _ w' => aimed_at n w w') w.
Proof. intros Hm. apply wpt_act. apply Hm. Qed.

Lemma wpt_start_guard_same target w tree d :
  loads w tree d ->
  wpt (start_guard env hash_text fuel socket_path config_path target) (fun _ w' => w' = w) w.
Proof.
  intros Hl. apply wpt_bind, wpt_act, wp_gets. destruct (session_exists _ _); [done|].
  unfold wpt. by rewrite (loads_desired _ _ _ Hl).
Qed.

Lemma wpt_then_reaches {E A B} n (m : Run E (World F T) A) (f : A -> Act E (World F T) B) w :
  wpt m (fun _ w' => w' = w) w -> (forall a, moves (aimed_at n) (f a)) ->
  wpt (a ← m; run_act (f a)) (fun _ w' => aimed_at n w w') w.
Proof.
  intros Hm Hf. apply wpt_bind. eapply wpt_mono; [exact Hm|]; cbv beta.
  intros [a|e] w' ->; [apply wpt_reaches, Hf|apply trace_refl].
Qed.

Lemma stop_reaches n target :
  plain (session_name n) -> lt_name target = n -> moves (aimed_at n) (stop_session_target (F := F) target).
Proof.
  intros Hp <-. unfold stop_session_target. moves_tac. by apply reaches_tmux, aims_destroy.
Qed.

Lemma control_workspace_reaches target ws action n w tree d :
  plain (session_name n) -> loads w tree d -> lt_name target = n ->
  wpt (control_workspace_target env hash_text fuel socket_path config_path ax_bin target ws action)
      (fun _ w' => aimed_at n w w') w.
Proof.
  intros Hp Hl Ht. unfold control_workspace_target. destruct action.
  - apply wpt_then_reaches; [by eapply wpt_start_guard_same|]. intros _.
    apply moves_map_err. rewrite Ht. by apply reaches_create_inner.
  - by apply wpt_reaches, stop_reaches.
  - apply wpt_reaches, moves_map_err. rewrite Ht. by apply reaches_restart.
Qed.

Lemma control_orchestrator_reaches target o action n w tree d :
  plain (session_name n) -> loads w tree d -> lt_name target = n -> entry_ok n o ->
  wpt (control_orchestrator_target env hash_text fuel socket_path config_path ax_bin target o action)
      (fun _ w' => aimed_at n w w') w.
Proof.
  intros Hp Hl Ht (_ & En & _). unfold control_orchestrator_target.
  destruct (negb _); [apply trace_refl|].
  assert (moves (aimed_at n) (start_named_orchestrator env socket_path config_path ax_bin o)) as Hstart.
  { apply moves_map_err. by apply reaches_ensure_orchestrator. }
  destruct action.
  - apply wpt_then_reaches; [by eapply wpt_start_guard_same|done].
  - by apply wpt_reaches, stop_reaches.
  - apply wpt_reaches. apply moves_bind; [apply _| |done].
    apply moves_map_err. rewrite Ht. by apply reaches_cleanup_orchestrator.
Qed.

Lemma control_reaches w tree d name action :
  loads w tree d -> plain (session_name (trim name)) ->
  wpt (control name action) (fun _ w' => aimed_at (trim name) w w') w.
Proof.
  intros Hl Hp. set (n := trim name) in *. pose proof (loads_spec _ _ _ Hl) as (_ & Hwn & He & _).
  unfold control_named_target. apply wpt_bind. unfold wpt at 1, resolve_lifecycle_target. fold n.
  destruct (is_empty n); [apply trace_refl|]. rewrite (loads_desired _ _ _ Hl).
  assert (forall target (m : Run LifecycleError (World F T) unit),
    wpt m (fun _ w' => aimed_at n w w') w -> wpt (_ ← m; mret target)
      (fun (_ : result LifecycleError LifecycleTarget) w' => aimed_at n w w') w) as Hret.
  { intros target m Hm. apply wpt_bind. eapply wpt_mono; [exact Hm|]. by intros [[]|e] w' Hw. }
  destruct (ds_workspaces d !! n) as [ws|] eqn:Ew, (ds_orchestrators d !! n) as [o|] eqn:Eo;
    try apply trace_refl; cbn [rl_entry rl_target]; apply Hret.
  - eapply control_workspace_reaches; [done..|]. by apply Hwn.
  - eapply control_orchestrator_reaches; [done..| |by apply He]. by apply He.
Qed.

(** C36: Starting, stopping and restarting a managed target refines the two-state machine of
    its session.  Once the configuration is loaded the request always returns.  Whatever
    other sessions there are, it creates at most the session of the target and kills only
    sessions whose names begin with the target's session name (tmux takes a target that
    is no session's name for the start of one: [stop_kills_a_longer_name]).  When no other
    live session's name begins with the target's ([clear], which also asks for a target
    without [_] and live sessions without white space in their names), the request touches
    the target's session alone; success is exactly the transition of the machine (start
    only when stopped, stop only when running, restart always ends running); and a request
    the machine refuses fails and changes neither sessions nor files. *)
Theorem control_refines_one_session w tree d name action :
  loads w tree d -> trim name <> "" -> managed d (trim name) -> plain (session_name (trim name)) ->
  exists r w', control name action w = Some (r, w')
    /\ trace (aimed (trim name)) (tmux w) (tmux w')
    /\ (clear {[trim name]} (tmux w) ->
        refines_one_session action (trim name) w r w'
        /\ forall target, r = Ok target -> lt_name target = trim name).
Proof.
  intros Hl Hne Hm Hp. pose proof (control_reaches w tree d name action Hl Hp) as Ht.
  pose proof (control_spec w tree d name action Hl Hne Hm) as Hs.
  unfold wpt in Hs, Ht. destruct (control name action w) as [[r w']|]; [|done].
  exists r, w'. split; [done|]. split; [done|]. intros Hc. by destruct (Hs Hc) as [[Hr _] Hn].
Qed.

(** ** The cap on concurrent agents *)

(** The live sessions of ax, as [list_sessions] counts them. *)
Definition ax_rows (m : gmap string SessionRow) : nat := length (omap row_info (map_to_list m)).
Definition ax_count t : nat := ax_rows (live t).

Lemma row_info_cons nr l :
  length (omap row_info (nr :: l)) = length (option_list (row_info nr)) + length (omap row_info l).
Proof. cbn. by destruct (row_info nr). Qed.

Lemma ax_rows_delete m s :
  ax_rows m = match m !! s with
              | Some row => length (option_list (row_info (s, row))) + ax_rows (delete s m)
              | None => ax_rows (delete s m)
              end.
Proof.
  unfold ax_rows. destruct (m !! s) as [row|] eqn:Es.
  - rewrite <-(map_to_list_delete m s row Es). apply row_info_cons.
  - by rewrite delete_id.
Qed.

Lemma row_info_session n row : is_Some (row_info (session_name n, row)).
Proof. unfold row_info, session_name. cbn [fst]. rewrite strip_prefix_cat. by eexists. Qed.

Lemma ax_rows_session m n :
  ax_rows m = (if decide (is_Some (m !! session_name n)) then 1 else 0) + ax_rows (delete (session_name n) m).
Proof.
  rewrite (ax_rows_delete m (session_name n)) at 1. destruct (m !! session_name n) as [row|].
  - destruct (row_info_session n row) as [i ->]. by rewrite decide_True by (by eexists).
  - rewrite decide_False; [done|]. by intros [? ?].
Qed.

(** Touching one session changes the count by at most one. *)
Lemma ax_count_touched n t t' :
  trace (about n) t t' ->
  ax_count t' <= ax_count t + 1 /\ (is_Some (session n t) -> ax_count t' <= ax_count t).
Proof.
  intros Ht. unfold ax_count. rewrite (ax_rows_session (live t) n), (ax_rows_session (live t') n).
  assert (delete (session_name n) (live t') = delete (session_name n) (live t)) as ->.
  { apply map_eq. intros s. destruct (decide (s = session_name n)) as [->|Hne].
    { by rewrite !lookup_delete_eq. }
    rewrite !lookup_delete_ne by done. destruct (live t !! s) eqn:E.
    - eapply trace_keeps; [exact Ht|done|exact E].
    - eapply trace_absent; [exact Ht|done|exact E]. }
  unfold session. repeat case_decide; split; try lia; tauto.
Qed.

Lemma cap_leaves_room cap t n :
  clear {[n]} t -> (0 < cap)%Z -> (Z.of_nat (ax_count t) < 2 ^ 32)%Z ->
  enforce_capacity_cap cap t = Ok tt -> (Z.of_nat (ax_count t) < cap)%Z.
Proof.
  intros Hc Hcap Hsmall. unfold enforce_capacity_cap.
  destruct (Z.eqb_spec cap 0); [lia|]. destruct (list_sessions t) as [l|] eqn:El; [|done].
  apply list_sessions_rows in El as (rows & Hp & ->); [|apply Hc].
  assert (length (omap row_info rows) = ax_count t) as ->.
  { unfold ax_count, ax_rows. by rewrite Hp. }
  unfold u32_wrap. rewrite Z.mod_small by lia.
  destruct (Z.leb_spec cap (Z.of_nat (ax_count t))); [done|lia].
Qed.

(** After an operation on [n] that checked the cap if the session was away, the sessions
    are within the cap, or no more than before. *)
Lemma capped cap n t t' :
  clear {[n]} t -> (0 < cap)%Z -> (Z.of_nat (ax_count t) < 2 ^ 32)%Z ->
  trace (about n) t t' ->
  (session n t = None -> enforce_capacity_cap cap t = Ok tt \/ ax_count t' = ax_count t) ->
  (Z.of_nat (ax_count t') <= Z.max cap (Z.of_nat (ax_count t)))%Z.
Proof.
  intros Hc Hcap Hsmall Ht Hroom. destruct (ax_count_touched n t t' Ht) as [H1 H2].
  destruct (session n t) as [row|] eqn:Es; [specialize (H2 ltac:(by eexists)); lia|].
  destruct (Hroom eq_refl) as [Hr| ->]; [|lia].
  pose proof (cap_leaves_room cap t n Hc Hcap Hsmall Hr). lia.
Qed.

Lemma ensure_workspace_touches entry fresh n w :
  clear {[n]} (tmux w) -> dw_name entry = n ->
  wp (ensure_workspace_dispatch_target socket_path config_path ax_bin entry fresh)
     (fun r w' => restarts n (tmux w) r (tmux w')) w.
Proof.
  intros Hc <-. assert (dw_name entry ∈ ({[dw_name entry]} : gset string)) as Hn by set_solver.
  unfold ensure_workspace_dispatch_target. destruct fresh.
  - apply wp_map_err. eapply wp_mono; [by apply (wp_manager_restart _ {[dw_name entry]})|]; cbv beta.
    intros r w' Hr. unfold restarts. by rewrite is_ok_map_err.
  - apply wp_bind, wp_gets. rewrite (session_exists_clear {[dw_name entry]}) by done.
    case_bool_decide; [by apply wp_ret; split; [apply trace_refl|]|].
    apply wp_map_err. eapply wp_mono; [by apply (wp_create_inner _ {[dw_name entry]})|]; cbv beta.
    intros r w' Hr%creates_restarts. unfold restarts. by rewrite is_ok_map_err.
Qed.

Lemma ensure_orchestrator_touches entry fresh n w :
  clear {[n]} (tmux w) -> entry_ok n entry ->
  wp (ensure_orchestrator_dispatch_target env socket_path config_path ax_bin entry fresh)
     (fun r w' => restarts n (tmux w) r (tmux w')) w.
Proof.
  intros Hc (En & Ep & Er & Em). assert (n ∈ ({[n]} : gset string)) as Hn by set_solver.
  unfold ensure_orchestrator_dispatch_target. rewrite En.
  destruct (do_managed_session entry) eqn:Eman; cbn [negb].
  2: { destruct fresh; [apply wp_throw; by split; [apply trace_refl|]|].
       apply wp_bind, wp_gets. rewrite (session_exists_clear {[n]}) by done.
       case_bool_decide; [apply wp_ret|apply wp_throw]; by split; [apply trace_refl|]. }
  assert (is_empty (pn_prefix (do_node entry)) = false) as Hp.
  { rewrite Er in Em. by destruct (is_empty (pn_prefix (do_node entry))). }
  apply wp_bind.
  assert (wp (if fresh then act_map_err DispatchOrchestrator
                (cleanup_orchestrator_state n (do_artifact_dir entry)) else mret tt)
    (fun _ w' => trace (about n) (tmux w) (tmux w')) w) as Hstop.
  { destruct fresh; [|apply wp_ret, trace_refl]. apply wp_map_err.
    eapply wp_mono; [by apply (wp_cleanup_orchestrator_state {[n]})|]; cbv beta.
    intros r w'. apply stops_about. }
  eapply wp_mono; [exact Hstop|]; cbv beta. intros [[]|e] w1 H1; [|by split].
  assert (clear {[n]} (tmux w1)) as Hc1 by (by eapply clear_about).
  apply wp_bind, wp_gets. rewrite (session_exists_clear {[n]}) by done.
  case_bool_decide; [by apply wp_ret; split|].
  apply wp_map_err. eapply wp_mono; [apply (wp_start_managed env {[n]}); rewrite ?Ep; done|]; cbv beta.
  rewrite Ep. intros r w' [H2 Hok]. split; [by etrans|]. by rewrite is_ok_map_err.
Qed.

Lemma ensure_desired_capped d n fresh w :
  clear {[n]} (tmux w) ->
  (forall ws, ds_workspaces d !! n = Some ws -> dw_name ws = n) ->
  (forall o, ds_orchestrators d !! n = Some o -> entry_ok n o) ->
  wp (ensure_desired_target env socket_path config_path ax_bin d n fresh)
     (fun _ w' => trace (about n) (tmux w) (tmux w')
        /\ (session n (tmux w) = None ->
             enforce_capacity_cap (ds_max_concurrent_agents d) (tmux w) = Ok tt
             \/ ax_count (tmux w') = ax_count (tmux w))) w.
Proof.
  intros Hc Hw Ho. assert (n ∈ ({[n]} : gset string)) as Hn by set_solver.
  unfold ensure_desired_target. apply wp_bind, wp_gets, wp_bind, wp_lift.
  rewrite (session_exists_clear {[n]}) by done.
  assert (forall (r : result DispatchError unit), r = (if bool_decide (is_Some (session n (tmux w))) then Ok tt
      else enforce_capacity_cap (ds_max_concurrent_agents d) (tmux w)) ->
    match r with
    | Ok _ => session n (tmux w) = None -> enforce_capacity_cap (ds_max_concurrent_agents d) (tmux w) = Ok tt
    | Err _ => True end) as Hroom.
  { intros r ->. case_bool_decide as Hs; [by intros E; rewrite E in Hs; destruct Hs|].
    destruct (enforce_capacity_cap _ _) as [[]|]; done. }
  specialize (Hroom _ eq_refl).
  destruct (if bool_decide _ then _ else _) as [[]|e]; [|by split; [apply trace_refl|right]].
  destruct (ds_workspaces d !! n) as [ws|] eqn:Ew.
  { eapply wp_mono; [by apply (ensure_workspace_touches ws fresh n); [|apply Hw]|]; cbv beta.
    intros r w' [Ht _]. split; [done|]. by left; apply Hroom. }
  destruct (ds_orchestrators d !! n) as [o|] eqn:Eo.
  { eapply wp_mono; [by apply (ensure_orchestrator_touches o fresh n); [|apply Ho]|]; cbv beta.
    intros r w' [Ht _]. split; [done|]. by left; apply Hroom. }
  apply wp_bind, wp_gets. destruct (negb fresh && _); [apply wp_ret|apply wp_throw];
    (split; [apply trace_refl|by right]).
Qed.

(** At most the cap, or no more than before. *)
Definition within_cap d w w' : Prop :=
  (Z.of_nat (ax_count (tmux w'))
   <= Z.max (ds_max_concurrent_agents d) (Z.of_nat (ax_count (tmux w))))%Z.

(** C37: Spawning respects the cap.  Dispatching work to a target, freshly or not, and
    starting a managed target always return once the configuration is loaded, and leave
    at most [max_concurrent_agents] live ax sessions, or no more than there were. *)
Theorem spawns_respect_the_cap w tree d name fresh :
  loads w tree d -> trim name <> "" -> clear {[trim name]} (tmux w) ->
  (0 < ds_max_concurrent_agents d)%Z -> (Z.of_nat (ax_count (tmux w)) < 2 ^ 32)%Z ->
  (exists r w', ensure name fresh w = Some (r, w') /\ within_cap d w w')
  /\ (managed d (trim name) ->
      exists r w', control name Start w = Some (r, w') /\ within_cap d w w').
Proof.
  intros Hl Hne Hc Hcap Hsmall. pose proof (loads_spec _ _ _ Hl) as (_ & Hwn & He & _). split.
  - enough (wpt (ensure name fresh) (fun _ w' => within_cap d w w') w) as Hgoal.
    { unfold wpt in Hgoal. destruct (ensure name fresh w) as [[r w']|]; [|done]. by exists r, w'. }
    unfold ensure_dispatch_target. rewrite (proj2 (is_empty_false _) Hne).
    apply wpt_bind, wpt_act, wp_gets. destruct (negb fresh && _).
    { unfold wpt, within_cap. cbn. lia. }
    apply wpt_bind. unfold wpt at 1. rewrite (loads_desired _ _ _ Hl). apply wpt_act.
    eapply wp_mono; [apply ensure_desired_capped; [done|by apply Hwn|by apply He]|]; cbv beta.
    intros r w' [Ht Hroom]. by eapply capped.
  - intros Hm. pose proof (control_spec w tree d name Start Hl Hne Hm Hc) as Hs.
    unfold wpt in Hs. destruct (control name Start w) as [[r w']|]; [|done].
    destruct Hs as [[[Ht _] Hroom] _]. exists r, w'. split; [done|].
    eapply capped; [done..|]. intros _. destruct (Hroom eq_refl) as [?| ->]; [by left|by right].
Qed.
End targets.
