(* ===== verification/ErrorText.v ===== *)
(** * The texts of the errors of ax-config, ax-tmux and ax-workspace.

    One [Display] instance per error type, from the [#[error(...)]] attributes.  The
    texts of [std::io::Error] and [serde_json::Error] are arguments ([SysText]). *)

From stdpp Require Import prelude strings.
From S2P Require Import Prelude RustStr Proto TaskHelpers.
From S2P Require Import Paths ConfigSchema ConfigTree Tmux Artifacts WorkspaceManager Dispatch.

Class SysText := {
  io_error_text : IoError -> string;
  json_error_text : string;
}.

Class Display (A : Type) := to_string : A -> string.

Section display.
Context `{!TextOps} `{!SysText}.

#[export] Instance IoError_display : Display IoError := io_error_text.

#[export] Instance LoadError_display : Display LoadError := fun e =>
  match e with
  | LoadRead path source => "read config " +:+ path +:+ ": " +:+ to_string source
  | LoadParse path source => "parse config " +:+ path +:+ ": " +:+ source
  | LoadSerialize source => "serialize config: " +:+ source
  | LoadWrite path source => "write config " +:+ path +:+ ": " +:+ to_string source
  end.

#[export] Instance ValidationError_display : Display ValidationError := fun e =>
  match e with
  | DuplicateChildPrefix prefix first_name first_path first_dir second_name second_path second_dir =>
      "duplicate ax child prefix " +:+ debug_str prefix +:+ ": child " +:+ debug_str first_name
      +:+ " in " +:+ first_path +:+ " -> " +:+ first_dir +:+ " conflicts with child "
      +:+ debug_str second_name +:+ " in " +:+ second_path +:+ " -> " +:+ second_dir
  | ReservedNameForWorkspace merged name path existing =>
      "reserved ax session name collision " +:+ debug_str merged +:+ ": workspace " +:+ debug_str name
      +:+ " in " +:+ path +:+ " conflicts with " +:+ existing
  | ReservedNameForChild session_ child_name path child_dir prefix ws_name ws_path =>
      "reserved ax session name collision " +:+ debug_str session_ +:+ ": child " +:+ debug_str child_name
      +:+ " in " +:+ path +:+ " -> " +:+ child_dir +:+ " (prefix " +:+ debug_str prefix
      +:+ ") conflicts with workspace " +:+ debug_str ws_name +:+ " in " +:+ ws_path
  | OrchestratorDepthExceeded depth cap path =>
      "ax orchestrator tree depth " +:+ show_Z depth +:+ " at " +:+ path
      +:+ " exceeds max_orchestrator_depth " +:+ show_Z cap +:+ "; raise the cap or split the project"
  | ChildrenPerNodeExceeded count cap path =>
      "ax config at " +:+ path +:+ " declares " +:+ show_Z count
      +:+ " children, exceeding max_children_per_node " +:+ show_Z cap
      +:+ "; raise the cap or collapse children"
  end.

Fixpoint tree_error_text (e : TreeError) : string :=
  match e with
  | TreeLoad e => to_string e
  | Cycle path => "cyclic ax children reference at " +:+ path
  | ChildError name dir source => "load child " +:+ name +:+ " at " +:+ dir +:+ ": " +:+ tree_error_text source
  | Validation e => to_string e
  end.
#[export] Instance TreeError_display : Display TreeError := tree_error_text.

#[export] Instance TmuxError_display : Display TmuxError := fun e =>
  match e with
  | TmuxCommand op message => "tmux " +:+ op +:+ ": " +:+ message
  | SessionNotFound workspace => "tmux session for workspace " +:+ debug_str workspace +:+ " not found"
  | TmuxParse message => "parse tmux output: " +:+ message
  | TmuxIo e => "tmux exec: " +:+ to_string e
  end.

#[export] Instance McpConfigError_display : Display McpConfigError := fun e =>
  match e with
  | McpRead path e => "read " +:+ debug_str path +:+ ": " +:+ to_string e
  | McpWrite path e => "write " +:+ debug_str path +:+ ": " +:+ to_string e
  | McpEncode => "encode mcp config: " +:+ json_error_text
  end.

#[export] Instance InstructionsError_display : Display InstructionsError := fun e =>
  match e with
  | UnknownRuntime name => "unknown runtime " +:+ debug_str name
  | InstrRead path e => "read " +:+ debug_str path +:+ ": " +:+ to_string e
  | InstrWrite path e => "write " +:+ debug_str path +:+ ": " +:+ to_string e
  end.

#[export] Instance CodexHomeError_display : Display CodexHomeError := fun e =>
  match e with
  | CodexHomeUnset => "resolve home dir (HOME unset)"
  | CodexCreateDir path e => "create codex home " +:+ path +:+ ": " +:+ to_string e
  | CodexReadBaseConfig path e => "read base codex config " +:+ path +:+ ": " +:+ to_string e
  | CodexLink src dst e => "link " +:+ dst +:+ " -> " +:+ src +:+ ": " +:+ to_string e
  | CodexWriteConfig path e => "write codex config " +:+ path +:+ ": " +:+ to_string e
  | CodexRemove path e => "remove codex home " +:+ path +:+ ": " +:+ to_string e
  end.

#[export] Instance WorkspaceError_display : Display WorkspaceError := fun e =>
  match e with
  | UnsupportedRuntime name => "unsupported runtime " +:+ debug_str name
  | WsCreateDir path e => "create workspace dir " +:+ path +:+ ": " +:+ to_string e
  | SessionExists session_ => "tmux session " +:+ debug_str session_ +:+ " already exists"
  | WsTmux e => to_string e
  | WsMcpConfig e => to_string e
  | WsInstructions e => to_string e
  | WsCodexHome e => to_string e
  end.

#[export] Instance OrchestratorPromptError_display : Display OrchestratorPromptError := fun e =>
  match e with
  | PromptUnknownRuntime name => "unknown runtime " +:+ debug_str name
  | RemoveStalePrompt path e => "remove stale orchestrator prompt " +:+ path +:+ ": " +:+ to_string e
  | WritePrompt path e => "write orchestrator prompt " +:+ path +:+ ": " +:+ to_string e
  end.

#[export] Instance OrchestratorError_display : Display OrchestratorError := fun e =>
  match e with
  | HomeUnset => "resolve home dir (HOME unset)"
  | NilProjectNode => "nil project node"
  | InvalidRuntime name runtime => "invalid orchestrator runtime for " +:+ name +:+ ": " +:+ runtime
  | OrchCreateDir path e => "create orchestrator dir " +:+ path +:+ ": " +:+ to_string e
  | OrchCreateClaudeDir path e => "create orchestrator claude dir " +:+ path +:+ ": " +:+ to_string e
  | OrchMcpConfig e => to_string e
  | OrchTmux e => to_string e
  | OrchCodexHome e => to_string e
  | OrchWritePrompt e => to_string e
  | RemoveInstruction path e => "remove orchestrator instruction " +:+ path +:+ ": " +:+ to_string e
  | RemoveClaudeDir path e => "remove orchestrator .claude dir " +:+ path +:+ ": " +:+ to_string e
  | OrchReadDir path e => "read orchestrator dir " +:+ path +:+ ": " +:+ to_string e
  | RemoveDir path e => "remove empty orchestrator dir " +:+ path +:+ ": " +:+ to_string e
  end.

#[export] Instance DispatchError_display : Display DispatchError := fun e =>
  match e with
  | DispatchTargetRequired => "dispatch target is required"
  | SenderRequired => "dispatch sender is required"
  | LoadConfig e => "load config: " +:+ to_string e
  | LoadTree e => "load config tree: " +:+ to_string e
  | BuildDesired e => "build desired dispatch state: " +:+ to_string e
  | DispatchTargetNotDefined target config =>
      "dispatch target " +:+ debug_str target +:+ " is not defined in " +:+ config
  | FreshRestartUnsupported target =>
      "orchestrator " +:+ debug_str target
      +:+ " does not support fresh restart because it is not a managed session"
  | UnmanagedTargetNotRunning target =>
      "orchestrator " +:+ debug_str target +:+ " is not running and is not a managed session"
  | DispatchWorkspace e => to_string e
  | DispatchOrchestrator e => to_string e
  | DispatchWake target e => "wake " +:+ debug_str target +:+ ": " +:+ to_string e
  | ConcurrentCapReached count cap =>
      "max_concurrent_agents cap reached: " +:+ show_Z count +:+ " live ax sessions vs cap "
      +:+ show_Z cap +:+ "; stop an agent or raise max_concurrent_agents"
  | CapacityQuery e => "query tmux sessions for capacity check: " +:+ to_string e
  end.

#[export] Instance LifecycleError_display : Display LifecycleError := fun e =>
  match e with
  | TargetRequired => "target name is required"
  | LifecycleDispatch e => to_string e
  | AmbiguousTarget target config =>
      "target " +:+ debug_str target +:+ " is ambiguous in " +:+ config
      +:+ " because it matches both a workspace and an orchestrator"
  | TargetNotDefined target config => "target " +:+ debug_str target +:+ " is not defined in " +:+ config
  | AlreadyRunning kind name => kind +:+ " " +:+ debug_str name +:+ " is already running"
  | NotRunning kind name => kind +:+ " " +:+ debug_str name +:+ " is not running"
  | UnsupportedManagedSession kind name action =>
      kind +:+ " " +:+ debug_str name +:+ " does not support targeted " +:+ action
      +:+ " because it is not a managed session"
  | DestroySession e => "destroy tmux session: " +:+ to_string e
  | LifecycleWorkspace e => to_string e
  | LifecycleOrchestrator e => to_string e
  end.
End display.
