(* ===== verification/GitStatus.v ===== *)
(** * Git status of workspace directories (crates/ax-daemon/src/git_status.rs).

    What the daemon shows of the repository a workspace lives in: counts from [git status],
    the size of the changes from [git diff], and a cache that asks at most every five
    seconds.  The git program and the file system are the interface [GitHost]; its commands
    only read the repository but may see it change.  Text that is decoded is UTF-8, so that
    [from_utf8_lossy] is the identity; the porcelain output is parsed as bytes. *)

From Stdlib Require Import Ascii.
From stdpp Require Import prelude strings list gmap.
From S2P Require Import Prelude RustStr Proto Paths ConfigSchema Tmux ErrorText RustText.

(** [git_metadata] tells whether the path is a directory; [git_run] runs git with
    [GIT_OPTIONAL_LOCKS=0] and the arguments. *)
Class GitHost (G : Type) := {
  git_metadata : string -> G -> result IoError bool * G;
  git_run : list string -> G -> result IoError Output * G;
}.

Definition GIT_STATUS_CACHE_TTL : Z := secs 5.

Record CachedGitStatus := mkCachedGitStatus {
  checked_at : Z;
  cached_status : WorkspaceGitStatus;
}.
Abbreviation GitStatusCache := (gmap string CachedGitStatus).

Record StatusCounts := mkStatusCounts {
  sc_modified : Z;
  sc_added : Z;
  sc_deleted : Z;
  sc_untracked : Z;
}.
#[export] Instance StatusCounts_eta : Updatable StatusCounts := fun c =>
  mkStatusCounts (sc_modified c) (sc_added c) (sc_deleted c) (sc_untracked c).
Definition no_counts : StatusCounts := mkStatusCounts 0 0 0 0.

Record DiffStat := mkDiffStat {
  ds_files : gset string;
  ds_insertions : Z;
  ds_deletions : Z;
}.
#[export] Instance DiffStat_eta : Updatable DiffStat := fun d =>
  mkDiffStat (ds_files d) (ds_insertions d) (ds_deletions d).

(** ** Texts *)

Definition unavailable (state message : string) : WorkspaceGitStatus :=
  mkWorkspaceGitStatus state 0 0 0 0 0 0 0 message.

Definition command_message (out : Output) : string :=
  let stderr := trim (out_stderr out) in
  if is_empty stderr then trim (out_stdout out) else stderr.

Definition is_not_git_message (message : string) : bool :=
  contains message "not a git repository" || contains message "not a git directory".

(** ** git status --porcelain=v1 -z *)

Definition nul : ascii := Ascii.ascii_of_nat 0.

(** The bytes up to the next NUL, and those behind it. *)
Fixpoint until_nul (l : list ascii) : list ascii * list ascii :=
  match l with
  | [] => ([], [])
  | a :: r =>
      if decide (a = nul) then ([], r)
      else let '(e, rest) := until_nul r in (a :: e, rest)
  end.

Definition letter (s : string) : ascii := default nul (head (bytes s)).
Definition is_letter (s : string) (a : ascii) : bool := bool_decide (a = letter s).

Definition count_entry (x y : ascii) (c : StatusCounts) : StatusCounts :=
  if is_letter "?" x && is_letter "?" y then c <| sc_untracked := (sc_untracked c + 1)%Z |>
  else if is_letter "!" x && is_letter "!" y then c
  else if is_letter "D" x || is_letter "D" y then c <| sc_deleted := (sc_deleted c + 1)%Z |>
  else if is_letter "A" x || is_letter "A" y then c <| sc_added := (sc_added c + 1)%Z |>
  else c <| sc_modified := (sc_modified c + 1)%Z |>.

(** A renamed or copied entry is followed by the path it came from (an untracked or ignored
    entry, which leaves the loop before, is neither). *)
Definition names_origin (x : ascii) : bool := is_letter "R" x || is_letter "C" x.

(** Every pass takes at least one byte: the number of bytes bounds the passes. *)
Fixpoint parse_entries (fuel : nat) (l : list ascii) (c : StatusCounts) : StatusCounts :=
  match fuel, l with
  | S fuel, _ :: _ =>
      let '(entry, rest) := until_nul l in
      match entry with
      | x :: y :: _ =>
          let c := count_entry x y c in
          let rest := if names_origin x then (until_nul rest).2 else rest in
          parse_entries fuel rest c
      | _ => parse_entries fuel rest c
      end
  | _, _ => c
  end.
Definition parse_status_porcelain_z (l : list ascii) : StatusCounts :=
  parse_entries (length l) l no_counts.

(** ** git diff --numstat *)

Definition saturating_add (a b : Z) : Z := Z.max i64_min (Z.min i64_max (a + b)).

Definition tab : ascii := Ascii.ascii_of_nat 9.
(** [line.splitn(3, '\t')] with all three parts. *)
Definition numstat_parts (line : string) : option (string * string * string) :=
  match split_char tab line with
  | added :: deleted :: p :: ps => Some (added, deleted, String.concat (String tab "") (p :: ps))
  | _ => None
  end.

Definition add_line (d : DiffStat) (line : string) : DiffStat :=
  match numstat_parts line with
  | Some (added, deleted, path) =>
      let d := d <| ds_files := {[path]} ∪ ds_files d |> in
      let d := match parse_i64 added with
               | Some v => d <| ds_insertions := saturating_add (ds_insertions d) v |>
               | None => d
               end in
      match parse_i64 deleted with
      | Some v => d <| ds_deletions := saturating_add (ds_deletions d) v |>
      | None => d
      end
  | None => d
  end.

Section status.
Context {G : Type} `{!GitHost G} `{!SysText}.

Definition git_output (dir : string) (args : list string) : G -> result IoError Output * G :=
  git_run (["-C"; dir] ++ args).

Definition collect_diffstat (dir : string) (args : list string) (d : DiffStat) (g : G)
    : DiffStat * G :=
  let '(r, g) := git_output dir args g in
  match r with
  | Ok out => (if out_success out then foldl add_line d (lines (out_stdout out)) else d, g)
  | Err _ => (d, g)
  end.

Definition add_diffstat (dir : string) (status : WorkspaceGitStatus) (g : G)
    : WorkspaceGitStatus * G :=
  let '(d, g) := collect_diffstat dir ["diff"; "--numstat"; "--no-renames"; "--"]
                   (mkDiffStat ∅ 0 0) g in
  let '(d, g) := collect_diffstat dir ["diff"; "--cached"; "--numstat"; "--no-renames"; "--"] d g in
  (status <| gs_files_changed := i64_saturate (Z.of_nat (size (ds_files d))) |>
          <| gs_insertions := ds_insertions d |>
          <| gs_deletions := ds_deletions d |>, g).

(** The status for counts, before the size of the changes is known. *)
Definition is_dirty (c : StatusCounts) : bool :=
  ((sc_modified c >? 0) || (sc_added c >? 0) || (sc_deleted c >? 0) || (sc_untracked c >? 0))%Z.
Definition counted_status (c : StatusCounts) : WorkspaceGitStatus :=
  mkWorkspaceGitStatus (if is_dirty c then "dirty" else "clean") (sc_modified c) (sc_added c)
    (sc_deleted c) (sc_untracked c) 0 0 0 "".

(** The second half of [collect_git_status]: inside a work tree. *)
Definition collect_in_work_tree (dir : string) (g : G) : WorkspaceGitStatus * G :=
  let '(r, g) := git_output dir ["status"; "--porcelain=v1"; "-z"; "--untracked-files=all"] g in
  match r with
  | Ok out =>
      if out_success out then
        let counts := parse_status_porcelain_z (bytes (out_stdout out)) in
        let status := counted_status counts in
        if is_dirty counts then add_diffstat dir status g else (status, g)
      else (unavailable "error" (command_message out), g)
  | Err e => (unavailable "error" ("run git status: " +:+ to_string e), g)
  end.

Definition collect_git_status (dir : string) (g : G) : WorkspaceGitStatus * G :=
  if is_empty (trim dir) then (unavailable "inaccessible" "workspace dir is empty", g) else
  let '(meta, g) := git_metadata dir g in
  match meta with
  | Err e => (unavailable "inaccessible" ("workspace dir is not accessible: " +:+ to_string e), g)
  | Ok false => (unavailable "inaccessible" "workspace dir is not a directory", g)
  | Ok true =>
      let '(r, g) := git_output dir ["rev-parse"; "--is-inside-work-tree"] g in
      match r with
      | Ok out =>
          if out_success out then
            if String.eqb (trim (out_stdout out)) "true" then collect_in_work_tree dir g
            else (unavailable "non_git" "not inside a git work tree", g)
          else
            let message := command_message out in
            (unavailable (if is_not_git_message message then "non_git" else "error") message, g)
      | Err e => (unavailable "error" ("run git: " +:+ to_string e), g)
      end
  end.

(** [checked_at.elapsed() <= TTL]; [elapsed] is zero for a time that is still to come. *)
Definition lookup_fresh (dir : string) (now : Z) (cache : GitStatusCache)
    : option WorkspaceGitStatus :=
  match cache !! dir with
  | Some cached =>
      if (Z.max 0 (now - checked_at cached) <=? GIT_STATUS_CACHE_TTL)%Z
      then Some (cached_status cached) else None
  | None => None
  end.

(** [now] is read when the cache is looked up, [later] after git has run. *)
Definition status_for (dir : string) (now later : Z) (cache : GitStatusCache) (g : G)
    : WorkspaceGitStatus * GitStatusCache * G :=
  match lookup_fresh dir now cache with
  | Some status => (status, cache, g)
  | None =>
      let '(status, g) := collect_git_status dir g in
      (status, <[dir := mkCachedGitStatus later status]> cache, g)
  end.
End status.

(** ** The porcelain format

    An entry is two status letters, a space and a path; renames and copies, in the index or
    in the work tree, are followed by the path they came from.  Every path ends with a NUL. *)

Record GitEntry := mkGitEntry {
  ge_x : ascii;
  ge_y : ascii;
  ge_path : list ascii;
  ge_origin : option (list ascii);
}.

Definition encode_entry (e : GitEntry) : list ascii :=
  [ge_x e; ge_y e; sp] ++ ge_path e ++ [nul]
  ++ match ge_origin e with Some o => o ++ [nul] | None => [] end.

Definition renamed (a : ascii) : bool := bool_decide (a = letter "R" \/ a = letter "C").

(** The origin is given exactly when one of the letters says renamed or copied. *)
Definition entry_ok (e : GitEntry) : Prop :=
  ge_x e <> nul /\ ge_y e <> nul /\ (nul ∉ ge_path e)
  /\ match ge_origin e with
     | Some o => (nul ∉ o) /\ renamed (ge_x e) || renamed (ge_y e) = true
     | None => renamed (ge_x e) || renamed (ge_y e) = false
     end.

(** What the code takes for one more entry: the origin, of two bytes or more, of an entry
    that is renamed or copied in the work tree alone. *)
Definition phantom (e : GitEntry) : list GitEntry :=
  match ge_origin e with
  | Some (x :: y :: p) => if renamed (ge_x e) then [] else [mkGitEntry x y p None]
  | _ => []
  end.
Definition entries_read (es : list GitEntry) : list GitEntry :=
  concat ((fun e => e :: phantom e) <$> es).

(** Such an origin begins with neither [R] nor [C] (it would take the next path with it). *)
Definition tame (e : GitEntry) : Prop :=
  Forall (fun f => renamed (ge_x f) = false) (phantom e).

(** The entry is not renamed or copied in the work tree alone. *)
Definition renamed_in_index (e : GitEntry) : Prop :=
  renamed (ge_y e) = true -> renamed (ge_x e) = true.

Inductive GitKind := KUntracked | KIgnored | KDeleted | KAdded | KModified.
#[export] Instance GitKind_eq_dec : EqDecision GitKind.
Proof. solve_decision. Defined.

Definition kind_of (e : GitEntry) : GitKind :=
  let has s := bool_decide (ge_x e = letter s \/ ge_y e = letter s) in
  if bool_decide (ge_x e = letter "?" /\ ge_y e = letter "?") then KUntracked
  else if bool_decide (ge_x e = letter "!" /\ ge_y e = letter "!") then KIgnored
  else if has "D" then KDeleted else if has "A" then KAdded else KModified.

Definition tally (k : GitKind) (es : list GitEntry) : Z :=
  Z.of_nat (length (filter (fun e => kind_of e = k) es)).
Definition tallies (es : list GitEntry) : StatusCounts :=
  mkStatusCounts (tally KModified es) (tally KAdded es) (tally KDeleted es) (tally KUntracked es).

Lemma until_nul_app l r : nul ∉ l -> until_nul (l ++ nul :: r) = (l, r).
Proof.
  induction l as [|a l IH]; intros Hl; cbn; [done|].
  apply not_elem_of_cons in Hl as [Ha Hl]. rewrite decide_False by done. by rewrite IH.
Qed.

Lemma count_entry_kind e c :
  count_entry (ge_x e) (ge_y e) c
  = match kind_of e with
    | KUntracked => c <| sc_untracked := (sc_untracked c + 1)%Z |>
    | KIgnored => c
    | KDeleted => c <| sc_deleted := (sc_deleted c + 1)%Z |>
    | KAdded => c <| sc_added := (sc_added c + 1)%Z |>
    | KModified => c <| sc_modified := (sc_modified c + 1)%Z |>
    end.
Proof.
  unfold count_entry, kind_of, is_letter. rewrite !bool_decide_and, !bool_decide_or.
  by repeat case_match.
Qed.

Definition add_counts (a b : StatusCounts) : StatusCounts :=
  mkStatusCounts (sc_modified a + sc_modified b) (sc_added a + sc_added b)
    (sc_deleted a + sc_deleted b) (sc_untracked a + sc_untracked b).

Lemma tally_cons k e es :
  tally k (e :: es) = ((if decide (kind_of e = k) then 1 else 0) + tally k es)%Z.
Proof.
  unfold tally. rewrite filter_cons. repeat case_decide; try done; cbn [length]; lia.
Qed.

Lemma add_tallies_cons c e es :
  add_counts (count_entry (ge_x e) (ge_y e) c) (tallies es) = add_counts c (tallies (e :: es)).
Proof.
  rewrite count_entry_kind. unfold add_counts, tallies. cbn [sc_modified sc_added sc_deleted sc_untracked].
  rewrite !tally_cons.
  destruct (kind_of e); repeat case_decide; try done; fsimpl; f_equal; lia.
Qed.

Lemma names_origin_renamed a : names_origin a = renamed a.
Proof. unfold names_origin, renamed, is_letter. by rewrite bool_decide_or. Qed.

Lemma parse_one x y p rest fuel c :
  x <> nul -> y <> nul -> nul ∉ p ->
  parse_entries (S fuel) ((x :: y :: p) ++ nul :: rest) c
  = parse_entries fuel (if renamed x then (until_nul rest).2 else rest) (count_entry x y c).
Proof.
  intros Hx Hy Hp. cbn [parse_entries app]. change (x :: y :: p ++ ?r) with ((x :: y :: p) ++ r).
  rewrite until_nul_app by (rewrite !not_elem_of_cons; split_and!; done). by rewrite names_origin_renamed.
Qed.

(** An origin that is not skipped. *)
Lemma parse_origin e o rest fuel c :
  ge_origin e = Some o -> renamed (ge_x e) = false -> nul ∉ o -> tame e ->
  parse_entries (S fuel) (o ++ nul :: rest) c
  = parse_entries fuel rest (foldl (fun c f => count_entry (ge_x f) (ge_y f) c) c (phantom e)).
Proof.
  intros Eo Hx Ho Ht. unfold tame, phantom in *. rewrite Eo, Hx in *.
  destruct o as [|x [|y o]]; cbn [app foldl].
  - cbn [parse_entries until_nul]. by rewrite decide_True.
  - apply not_elem_of_cons in Ho as [Hn _].
    cbn [parse_entries until_nul]. rewrite decide_False by done. by rewrite decide_True.
  - rewrite !not_elem_of_cons in Ho. destruct Ho as (Hnx & Hny & Hno).
    assert (renamed x = false) as Hno' by (by inversion Ht).
    change (x :: y :: o ++ ?r) with ((x :: y :: o) ++ r). rewrite parse_one by done. by rewrite Hno'.
Qed.

Lemma add_tallies_phantom c e es :
  add_counts (foldl (fun c f => count_entry (ge_x f) (ge_y f) c) c (phantom e)) (tallies es)
  = add_counts c (tallies (phantom e ++ es)).
Proof.
  unfold phantom. destruct (ge_origin e) as [[|x [|y p]]|]; try done.
  destruct (renamed (ge_x e)); [done|]. cbn [foldl app].
  exact (add_tallies_cons c (mkGitEntry x y p None) es).
Qed.

Lemma parse_encoded es fuel c :
  Forall entry_ok es -> Forall tame es -> length (concat (encode_entry <$> es)) <= fuel ->
  parse_entries fuel (concat (encode_entry <$> es)) c = add_counts c (tallies (entries_read es)).
Proof.
  intros Hok Ht. revert fuel c. induction Hok as [|e es He Hes IH]; intros fuel c Hf.
  - destruct c as [m a d u]. unfold add_counts, tallies, tally. cbn. rewrite !Z.add_0_r. by destruct fuel.
  - apply Forall_cons in Ht as [Hte Ht]. specialize (IH Ht).
    destruct He as (Hx & Hy & Hp & Ho). unfold entries_read. cbn [fmap list_fmap concat] in *.
    fold (entries_read es). rewrite length_app in Hf.
    assert (encode_entry e ++ concat (encode_entry <$> es)
            = (ge_x e :: ge_y e :: sp :: ge_path e) ++ nul
                :: (match ge_origin e with Some o => o ++ [nul] | None => [] end)
                ++ concat (encode_entry <$> es)) as E.
    { unfold encode_entry. cbn. by rewrite <-!app_assoc. }
    assert (length (encode_entry e) = 4 + length (ge_path e)
            + match ge_origin e with Some o => length o + 1 | None => 0 end) as Hlen.
    { unfold encode_entry. destruct (ge_origin e); rewrite !length_app; cbn; rewrite ?length_app; cbn; lia. }
    destruct fuel as [|fuel]; [lia|]. cbn [app].
    rewrite E, parse_one, <-add_tallies_cons, <-add_tallies_phantom
      by (try done; apply not_elem_of_cons; by split).
    destruct (ge_origin e) as [o|] eqn:Eo.
    + destruct Ho as [Ho Hr]. rewrite <-app_assoc. cbn [app].
      destruct (renamed (ge_x e)) eqn:Enx.
      * rewrite until_nul_app by done. unfold phantom. rewrite Eo, Enx.
        assert (match o with x :: y :: p => [] | _ => [] end = @nil GitEntry) as -> by by repeat case_match.
        cbn [foldl]. apply IH. lia.
      * destruct fuel as [|fuel]; [lia|]. rewrite (parse_origin e) by done. apply IH. lia.
    + apply orb_false_iff in Ho as [-> _]. unfold phantom. rewrite Eo. cbn [app foldl]. apply IH. lia.
Qed.

Lemma entries_read_index es : Forall renamed_in_index es -> Forall entry_ok es -> entries_read es = es.
Proof.
  intros Hi Hok. induction Hok as [|e es (_ & _ & _ & Ho) Hok IH]; [done|].
  apply Forall_cons in Hi as [He Hi]. unfold entries_read. cbn [fmap list_fmap concat app].
  fold (entries_read es). rewrite (IH Hi). f_equal. unfold phantom.
  destruct (ge_origin e) as [[|x [|y p]]|]; try done. destruct Ho as [_ Ho].
  unfold renamed_in_index in He. destruct (renamed (ge_x e)); [done|].
  cbn [orb] in Ho. by specialize (He Ho).
Qed.

(** An entry with an origin is not an ignored one, so phantoms make nothing dirty. *)
Lemma phantom_dirty e : entry_ok e -> kind_of e = KIgnored -> phantom e = [].
Proof.
  intros (_ & _ & _ & Ho) Hk. unfold phantom. destruct (ge_origin e) as [o|]; [|done].
  destruct Ho as [_ Ho]. exfalso. unfold kind_of in Hk. revert Hk.
  destruct (bool_decide (_ /\ _)); [done|].
  destruct (bool_decide (_ /\ _)) eqn:Ei; [|by repeat case_match].
  apply bool_decide_eq_true in Ei as [E1 E2]. rewrite E1, E2 in Ho. by vm_compute in Ho.
Qed.

Lemma ignored_read es :
  Forall entry_ok es ->
  (exists e, e ∈ entries_read es /\ kind_of e <> KIgnored) <-> exists e, e ∈ es /\ kind_of e <> KIgnored.
Proof.
  intros Hok. split.
  - intros (f & Hf & Hk). unfold entries_read in Hf.
    apply list_elem_of_In, in_concat in Hf as (l & Hl & Hf). apply list_elem_of_In, list_elem_of_fmap in Hl
      as (e & -> & He). apply list_elem_of_In in Hf.
    destruct (decide (kind_of e = KIgnored)) as [Hi|Hi]; [|by exists e].
    rewrite Forall_forall in Hok. rewrite (phantom_dirty e) in Hf by auto.
    apply list_elem_of_singleton in Hf as ->. done.
  - intros (e & He & Hk). exists e. split; [|done]. apply list_elem_of_In, in_concat.
    exists (e :: phantom e). split; [|by left]. apply list_elem_of_In, list_elem_of_fmap. by exists e.
Qed.

Lemma tally_misses k es :
  (tally k es < Z.of_nat (length es))%Z <-> exists e, e ∈ es /\ kind_of e <> k.
Proof.
  assert (tally k es <= Z.of_nat (length es))%Z as Hle.
  { unfold tally. pose proof (length_filter (fun e => kind_of e = k) es). lia. }
  revert Hle. induction es as [|e es IH]; intros Hle.
  { split; [intros Hlt; by vm_compute in Hlt|]. intros (e & He & _). by apply not_elem_of_nil in He. }
  assert (tally k es <= Z.of_nat (length es))%Z as Hle'.
  { unfold tally. pose proof (length_filter (fun e => kind_of e = k) es). lia. }
  rewrite tally_cons in *. cbn [length] in *. case_decide as Hk.
  - transitivity (tally k es < Z.of_nat (length es))%Z; [lia|]. rewrite (IH Hle').
    setoid_rewrite elem_of_cons. naive_solver.
  - split; [intros _|lia]. exists e. split; [left|done].
Qed.

Lemma tallies_sum es :
  (sc_modified (tallies es) + sc_added (tallies es) + sc_deleted (tallies es)
   + sc_untracked (tallies es) + tally KIgnored es = Z.of_nat (length es))%Z.
Proof.
  unfold tallies. cbn [sc_modified sc_added sc_deleted sc_untracked].
  induction es as [|e es IH]; [done|]. rewrite !tally_cons.
  destruct (kind_of e); repeat case_decide; try done; cbn [length]; lia.
Qed.

Lemma porcelain_counts_the_entries es :
  Forall entry_ok es -> Forall tame es ->
  parse_status_porcelain_z (concat (encode_entry <$> es)) = tallies (entries_read es)
  /\ (is_dirty (parse_status_porcelain_z (concat (encode_entry <$> es))) = true
      <-> exists e, e ∈ es /\ kind_of e <> KIgnored).
Proof.
  intros Hok Ht. unfold parse_status_porcelain_z. rewrite parse_encoded by done.
  assert (add_counts no_counts (tallies (entries_read es)) = tallies (entries_read es)) as -> by done.
  split; [done|]. rewrite <-ignored_read by done. set (rs := entries_read es).
  pose proof (tallies_sum rs) as Hsum.
  assert (forall k, 0 <= tally k rs)%Z as Hnn by (unfold tally; lia).
  pose proof (Hnn KModified). pose proof (Hnn KAdded). pose proof (Hnn KDeleted). pose proof (Hnn KUntracked).
  transitivity (tally KIgnored rs < Z.of_nat (length rs))%Z.
  - unfold is_dirty, tallies in *. cbn [sc_modified sc_added sc_deleted sc_untracked] in *.
    rewrite !orb_true_iff, !Z.gtb_lt. lia.
  - apply tally_misses.
Qed.

Section collected.
Context {G : Type} `{!GitHost G} `{!SysText}.

Lemma add_diffstat_counts dir status (g : G) :
  let s := (add_diffstat dir status g).1 in
  (gs_state s, gs_modified s, gs_added s, gs_deleted s, gs_untracked s)
  = (gs_state status, gs_modified status, gs_added status, gs_deleted status, gs_untracked status).
Proof.
  cbv zeta. unfold add_diffstat.
  destruct (collect_diffstat _ _ _ g) as [d1 g1], (collect_diffstat _ _ _ g1) as [d2 g2].
  destruct status. reflexivity.
Qed.

(** C21: For a directory inside a work tree and any list of entries git writes for it, renames
    and copies with their origin in the index or in the work tree: as long as renames and
    copies are in the index, the status counts exactly the entries, each once and under its
    kind, and no origin is taken for an entry.  The origin of an entry renamed or copied in
    the work tree alone is counted as one more entry, under the kind of its first two bytes
    ([phantom], [work_tree_rename_counts_twice]); where such an origin begins with [R] or
    [C] nothing is said.  The status says clean exactly when every entry is ignored. *)
Theorem git_status_counts_the_entries dir (g g1 g2 g3 : G) tree status es :
  trim dir <> "" ->
  git_metadata dir g = (Ok true, g1) ->
  git_output dir ["rev-parse"; "--is-inside-work-tree"] g1 = (Ok tree, g2) ->
  out_success tree = true -> trim (out_stdout tree) = "true" ->
  git_output dir ["status"; "--porcelain=v1"; "-z"; "--untracked-files=all"] g2 = (Ok status, g3) ->
  out_success status = true -> bytes (out_stdout status) = concat (encode_entry <$> es) ->
  Forall entry_ok es -> Forall tame es ->
  let s := (collect_git_status dir g).1 in
  let read := entries_read es in
  (gs_modified s, gs_added s, gs_deleted s, gs_untracked s)
    = (tally KModified read, tally KAdded read, tally KDeleted read, tally KUntracked read)
  /\ (gs_modified s + gs_added s + gs_deleted s + gs_untracked s + tally KIgnored read
      = Z.of_nat (length read))%Z
  /\ (Forall renamed_in_index es -> read = es)
  /\ gs_state s = (if bool_decide (Forall (fun e => kind_of e = KIgnored) es) then "clean" else "dirty").
Proof.
  intros Hdir Hm Ht Hts Htrue Hs Hss Hbytes Hok Htame.
  destruct (porcelain_counts_the_entries es Hok Htame) as (Hparse & Hdirty).
  pose proof (tallies_sum (entries_read es)) as Hsum. cbv zeta.
  pose proof (fun H => entries_read_index es H Hok) as Hindex.
  revert Hparse Hdirty Hsum Hindex. generalize (entries_read es). intros rs Hparse Hdirty Hsum Hindex.
  assert (is_dirty (tallies rs)
          = negb (bool_decide (Forall (fun e => kind_of e = KIgnored) es))) as Hd.
  { rewrite Hparse in Hdirty. apply eq_true_iff_eq. rewrite Hdirty, negb_true_iff, bool_decide_eq_false.
    split.
    - intros (e & He & Hk) Hall. rewrite Forall_forall in Hall. by apply Hk, Hall.
    - intros Hno. apply not_Forall_Exists in Hno; [|apply _]. by apply Exists_exists in Hno. }
  assert (let s := (collect_git_status dir g).1 in
    (gs_state s, gs_modified s, gs_added s, gs_deleted s, gs_untracked s)
    = (if is_dirty (tallies rs) then "dirty" else "clean", tally KModified rs, tally KAdded rs,
       tally KDeleted rs, tally KUntracked rs)) as Heq.
  { cbv zeta. unfold collect_git_status. rewrite (proj2 (is_empty_false (trim dir))) by done.
    rewrite Hm, Ht, Hts, Htrue. change (String.eqb "true" "true") with true. cbv iota.
    unfold collect_in_work_tree. rewrite Hs, Hss, Hbytes, Hparse.
    destruct (is_dirty (tallies rs)) eqn:Ed.
    - rewrite add_diffstat_counts. unfold counted_status. by rewrite Ed.
    - unfold counted_status. by rewrite Ed. }
  cbv zeta in Heq. revert Heq.
  generalize ((collect_git_status dir g).1). intros s [= -> -> -> -> ->].
  split; [done|]. split; [exact Hsum|]. split; [done|]. rewrite Hd. by destruct (bool_decide _).
Qed.
End collected.

(** A rename in the work tree (after [git add --intent-to-add]) has its letter second, and
    git names its origin too; the code does not skip it, and counts the path [Data] as a
    deleted file. *)
Example work_tree_rename_counts_twice :
  parse_status_porcelain_z (encode_entry (mkGitEntry sp (letter "R") (bytes "new") (Some (bytes "Data"))))
  = mkStatusCounts 1 0 1 0.
Proof. vm_compute. reflexivity. Qed.

(** ** Sizes of changes *)

(** What a line of [git diff --numstat] says: its path, and the lines added and deleted
    (binary files have none). *)
Definition line_path (line : string) : option string := (fun p => p.2) <$> numstat_parts line.
Definition line_added (line : string) : option Z := p ← numstat_parts line; parse_i64 p.1.1.
Definition line_deleted (line : string) : option Z := p ← numstat_parts line; parse_i64 p.1.2.
Definition total (vs : list Z) : Z := foldr Z.add 0%Z vs.

Lemma saturating_total a vs :
  (0 <= a)%Z -> Forall (Z.le 0) vs ->
  foldl saturating_add (Z.min i64_max a) vs = Z.min i64_max (a + total vs).
Proof.
  intros Ha Hvs. revert a Ha. induction Hvs as [|v vs Hv Hvs IH]; intros a Ha; cbn [foldl].
  - by rewrite Z.add_0_r.
  - assert (saturating_add (Z.min i64_max a) v = Z.min i64_max (a + v)) as ->.
    { unfold saturating_add, i64_min, i64_max. lia. }
    rewrite IH by lia. unfold total. cbn [foldr]. f_equal. lia.
Qed.

Lemma add_line_fields d line :
  ds_files (add_line d line) = match line_path line with Some p => {[p]} ∪ ds_files d | None => ds_files d end
  /\ ds_insertions (add_line d line) = foldl saturating_add (ds_insertions d) (option_list (line_added line))
  /\ ds_deletions (add_line d line) = foldl saturating_add (ds_deletions d) (option_list (line_deleted line)).
Proof.
  unfold add_line, line_path, line_added, line_deleted.
  destruct (numstat_parts line) as [[[a b] p]|]; [|done]. cbn [fmap option_fmap option_map mbind option_bind fst snd].
  destruct (parse_i64 a), (parse_i64 b); fsimpl; done.
Qed.

Lemma add_lines_fields d ls :
  ds_files (foldl add_line d ls) = list_to_set (omap line_path ls) ∪ ds_files d
  /\ ds_insertions (foldl add_line d ls) = foldl saturating_add (ds_insertions d) (omap line_added ls)
  /\ ds_deletions (foldl add_line d ls) = foldl saturating_add (ds_deletions d) (omap line_deleted ls).
Proof.
  revert d. induction ls as [|l ls IH]; intros d; cbn [foldl].
  { split; [|done]. cbn. set_solver. }
  destruct (IH (add_line d l)) as (-> & -> & ->).
  destruct (add_line_fields d l) as (-> & -> & ->). cbn [omap list_omap].
  destruct (line_path l), (line_added l), (line_deleted l); cbn [option_list foldl list_to_set];
    split_and!; try done; set_solver.
Qed.

(** The size of a change over the two diffs: every path counts once, and the lines added and
    deleted are the sums of the rows, held at the largest [i64] instead of wrapping. *)
Theorem diffstat_is_the_saturated_sum unstaged staged :
  Forall (Z.le 0) (omap line_added (unstaged ++ staged)) ->
  Forall (Z.le 0) (omap line_deleted (unstaged ++ staged)) ->
  let d := foldl add_line (foldl add_line (mkDiffStat ∅ 0 0) unstaged) staged in
  ds_files d = list_to_set (omap line_path (unstaged ++ staged))
  /\ ds_insertions d = Z.min i64_max (total (omap line_added (unstaged ++ staged)))
  /\ ds_deletions d = Z.min i64_max (total (omap line_deleted (unstaged ++ staged))).
Proof.
  intros Ha Hd d. unfold d. rewrite <-foldl_app.
  destruct (add_lines_fields (mkDiffStat ∅ 0 0) (unstaged ++ staged)) as (-> & -> & ->).
  cbn [ds_files ds_insertions ds_deletions]. split; [set_solver|].
  change 0%Z with (Z.min i64_max 0). by rewrite !saturating_total.
Qed.

(** ** The cache *)

Section cache.
Context {G : Type} `{!GitHost G} `{!SysText}.

(** What git said and when its answer was in: directory, time, status. *)
Definition git_answer : Type := string * Z * WorkspaceGitStatus.

(** A run of lookups, each with its own times; one that asks git adds to the answers. *)
Inductive cache_run : list git_answer -> GitStatusCache -> G -> Prop :=
| run_start g : cache_run [] ∅ g
| run_lookup log cache g dir now later status cache' g' :
    cache_run log cache g ->
    status_for dir now later cache g = (status, cache', g') ->
    cache_run (match lookup_fresh dir now cache with
               | Some _ => log
               | None => (dir, later, (collect_git_status dir g).1) :: log
               end) cache' g'.

Lemma cached_was_answered log cache g dir c :
  cache_run log cache g -> cache !! dir = Some c -> (dir, checked_at c, cached_status c) ∈ log.
Proof.
  intros Hrun. revert dir c.
  induction Hrun as [g|log cache g dir now later status cache' g' Hrun IH Hst]; intros dir' c Hc; [done|].
  unfold status_for in Hst. destruct (lookup_fresh dir now cache) as [s|].
  - simplify_eq. by apply IH.
  - destruct (collect_git_status dir g) as [s g2]. simplify_eq. apply elem_of_cons.
    destruct (decide (dir' = dir)) as [->|Hne].
    + rewrite lookup_insert_eq in Hc. injection Hc as <-. by left.
    + rewrite lookup_insert_ne in Hc by done. right. by apply IH.
Qed.

(** In any run of the cache a lookup gives an answer of git about that very directory that is
    at most five seconds old, without asking again; or it asks, gives the new answer and
    remembers it for the next five seconds. *)
Theorem git_status_is_recent log cache g dir now later status cache' g' :
  cache_run log cache g ->
  status_for dir now later cache g = (status, cache', g') ->
  (exists t, (dir, t, status) ∈ log /\ (now - t <= secs 5)%Z /\ cache' = cache /\ g' = g)
  \/ ((status, g') = collect_git_status dir g
      /\ forall soon, (soon - later <= secs 5)%Z -> lookup_fresh dir soon cache' = Some status).
Proof.
  intros Hrun Hst. unfold status_for in Hst.
  destruct (lookup_fresh dir now cache) as [s|] eqn:Ef.
  - left. simplify_eq. unfold lookup_fresh in Ef.
    destruct (cache' !! dir) as [c|] eqn:Ec; [|done]. case_match eqn:Ett; [|done]. injection Ef as <-.
    exists (checked_at c). split; [by apply (cached_was_answered _ _ _ _ _ Hrun Ec)|].
    apply Z.leb_le in Ett. unfold GIT_STATUS_CACHE_TTL in Ett. split; [lia|done].
  - right. destruct (collect_git_status dir g) as [s g2]. simplify_eq. split; [done|].
    intros soon Hs. unfold lookup_fresh. rewrite lookup_insert_eq. cbn [checked_at cached_status].
    rewrite (proj2 (Z.leb_le _ _)); [done|]. unfold GIT_STATUS_CACHE_TTL, secs, nanos in *. lia.
Qed.
End cache.

(** ** A repository with one renamed, one new and one ignored file *)

Definition demo_entries : list GitEntry :=
  [mkGitEntry (letter "R") sp (bytes "b.rs") (Some (bytes "a.rs"));
   mkGitEntry (letter "?") (letter "?") (bytes "c") None;
   mkGitEntry (letter "!") (letter "!") (bytes "target/") None].

Definition demo_git (args : list string) : Output :=
  if decide ("rev-parse" ∈ args) then mkOutput true ("true" +:+ newline) ""
  else if decide ("status" ∈ args)
  then mkOutput true (of_bytes (concat (encode_entry <$> demo_entries))) ""
  else if decide ("--cached" ∈ args)
  then mkOutput true ("2" +:+ String tab ("1" +:+ String tab ("b.rs" +:+ newline))) ""
  else mkOutput true "" "".
#[local] Instance DemoGit : GitHost unit := {|
  git_metadata _ g := (Ok true, g);
  git_run args g := (Ok (demo_git args), g);
|}.
#[local] Instance DemoText : SysText := {|
  io_error_text _ := "io error";
  json_error_text := "json error";
|}.

Example demo_status :
  (collect_git_status "/w" tt).1 = mkWorkspaceGitStatus "dirty" 1 0 0 1 1 2 1 "".
Proof. vm_compute. reflexivity. Qed.

Lemma git_status_counts_the_entries_witness :
  gs_state (collect_git_status "/w" tt).1 = "dirty"
  /\ (gs_modified (collect_git_status "/w" tt).1 + gs_added (collect_git_status "/w" tt).1
      + gs_deleted (collect_git_status "/w" tt).1 + gs_untracked (collect_git_status "/w" tt).1
      + tally KIgnored demo_entries = 3)%Z.
Proof.
  pose proof (git_status_counts_the_entries "/w" tt tt tt tt
    (mkOutput true ("true" +:+ newline) "")
    (mkOutput true (of_bytes (concat (encode_entry <$> demo_entries))) "") demo_entries
    ltac:(done) eq_refl eq_refl eq_refl eq_refl eq_refl eq_refl eq_refl
    ltac:(repeat constructor; apply (bool_decide_unpack _); by vm_compute)
    ltac:(repeat constructor)) as (_ & Hsum & Hread & Hstate).
  split; [exact Hstate|]. rewrite (Hread ltac:(repeat (apply List.Forall_cons; [by vm_compute|]); apply List.Forall_nil)) in Hsum. exact Hsum.
Defined.

Lemma diffstat_is_the_saturated_sum_witness :
  let big := "9223372036854775807" +:+ String tab ("0" +:+ String tab "a") in
  let one := "1" +:+ String tab ("-" +:+ String tab "a") in
  ds_insertions (foldl add_line (foldl add_line (mkDiffStat ∅ 0 0) [big]) [one]) = i64_max.
Proof.
  intros big one.
  destruct (diffstat_is_the_saturated_sum [big] [one]
    ltac:(apply (bool_decide_unpack _); by vm_compute)
    ltac:(apply (bool_decide_unpack _); by vm_compute)) as (_ & Hins & _).
  rewrite Hins. by vm_compute.
Defined.

Lemma git_status_is_recent_witness :
  exists log cache status, cache_run log cache tt
  /\ status_for "/w" (secs 12) (secs 13) cache tt = (status, cache, tt)
  /\ exists t, ("/w", t, status) ∈ log /\ (secs 12 - t <= secs 5)%Z.
Proof.
  set (s := (collect_git_status "/w" tt).1).
  set (cache := {["/w" := mkCachedGitStatus (secs 8) s]} : GitStatusCache).
  assert (cache_run [("/w", secs 8, s)] cache tt) as Hrun.
  { exact (run_lookup [] ∅ tt "/w" (secs 7) (secs 8) s cache tt (run_start tt) eq_refl). }
  exists [("/w", secs 8, s)], cache, s. split; [exact Hrun|].
  assert (status_for "/w" (secs 12) (secs 13) cache tt = (s, cache, tt)) as Hst by done.
  split; [exact Hst|].
  destruct (git_status_is_recent _ _ _ _ _ _ _ _ _ Hrun Hst) as [(t & Hin & Hle & _)|[_ Hsoon]].
  - exists t. split; [exact Hin|exact Hle].
  - exists (secs 8). split; [apply list_elem_of_here|]. unfold secs, nanos. lia.
Defined.
