(* ===== verification/SessionWorld.v ===== *)
(** * The daemon's sessions, implemented by ax-workspace and ax-tmux.

    Agent-lifecycle requests (crates/ax-daemon/src/handlers.rs,
    [resolve_agent_lifecycle_target] and [apply_agent_lifecycle_action]), and
    [WorldSessions], which implements the interface [SessionBackend] of the daemon with
    the definitions of [Tmux] and [Dispatch] over files and tmux. *)

From stdpp Require Import prelude strings list gmap fin_maps.
From S2P Require Import Prelude Act RustStr RustText Proto TaskHelpers TaskStore Queue Registry Wake SessionManager.
From S2P Require Import Paths ConfigSchema ConfigTree ConfigFacts.
From S2P Require Import Tmux Artifacts WorkspaceManager Reconcile ReconcileFacts.
From S2P Require Import Dispatch DispatchFacts ErrorText.

(** [workspace] and [orchestrator] are never both set; [kind] names the one that is. *)
Record ResolvedAgentLifecycleTarget := mkResolvedAgentLifecycleTarget {
  ra_name : string;
  ra_managed_session : bool;
  ra_entry : DesiredWorkspace + DesiredOrchestrator;
  ra_limit : option string;
}.
Definition ra_kind (target : ResolvedAgentLifecycleTarget) : string :=
  match ra_entry target with inl _ => "workspace" | inr _ => "orchestrator" end.

Section session_world.
Context {F T : Type} `{!FileSystem F} `{!ArtifactFs F} `{!JsonCodec McpConfig}.
Context `{!YamlCodec Config} `{!YamlCodec ManagedOverlay} `{!TextOps} `{!SysText}.
Context `{!CodexHome F} `{!Prompts F} `{!Tmux T}.
Context (env : Env) (hash_text : string -> string) (socket_path ax_bin : string).

(** ** Agent lifecycle *)

Definition resolve_agent_lifecycle_target (fuel : nat) (config_path name : string)
  : Run string (World F T) ResolvedAgentLifecycleTarget := fun w =>
  let name := trim name in
  if is_empty name then Some (Err "name is required", w) else
  match load_dispatch_desired_state env hash_text fuel socket_path config_path w with
  | None => None
  | Some (Err e, w) => Some (Err (to_string e), w)
  | Some (Ok desired, w) =>
      match ds_workspaces desired !! name with
      | Some entry =>
          Some (Ok (mkResolvedAgentLifecycleTarget (dw_name entry) true (inl entry) None), w)
      | None =>
      match ds_orchestrators desired !! name with
      | Some entry =>
          Some (Ok (mkResolvedAgentLifecycleTarget (do_name entry) (do_managed_session entry) (inr entry)
            (if do_root entry || negb (do_managed_session entry)
             then Some "root orchestrator lifecycle is not supported here because it is not a daemon-managed session"
             else None)), w)
      | None =>
          Some (Err ("Agent " +:+ debug_str name +:+ " is not defined exactly in " +:+ config_path
                     +:+ "; use list_agents for exact configured names"), w)
      end end
  end.

(** [start workspace "name": error] and the like. *)
Definition lifecycle_context {E} `{!Display E} (what name : string) (e : E) : string :=
  what +:+ " " +:+ debug_str name +:+ ": " +:+ to_string e.

Definition stopped_status (existed_before : bool) : string :=
  if existed_before then "stopped" else "already_stopped".

Definition apply_workspace_action (config_path name : string) (ws : DesiredWorkspace)
    (action : LifecycleAction) (existed_before : bool) : Act string (World F T) string :=
  let manager := mkManager socket_path (Some config_path) ax_bin in
  match action with
  | Start =>
      if existed_before then mret "already_running" else
      _ ← act_map_err (lifecycle_context "start workspace" name)
            (manager_create manager name (dw_workspace ws));
      mret "started"
  | Stop =>
      _ ← act_map_err (lifecycle_context "stop workspace" name)
            (manager_destroy name (w_dir (dw_workspace ws)));
      mret (stopped_status existed_before)
  | Restart =>
      _ ← act_map_err (lifecycle_context "restart workspace" name)
            (manager_restart manager name (dw_workspace ws));
      mret "restarted"
  end.

Definition apply_orchestrator_action (config_path name : string) (o : DesiredOrchestrator)
    (action : LifecycleAction) (existed_before : bool) : Act string (World F T) string :=
  let start := ensure_orchestrator env (do_node o) (do_parent_name o) socket_path
                 (Some config_path) ax_bin true in
  match action with
  | Start =>
      if existed_before then mret "already_running" else
      _ ← act_map_err (lifecycle_context "start orchestrator" name) start;
      mret "started"
  | Stop =>
      _ ← act_map_err (lifecycle_context "stop orchestrator" name)
            (cleanup_orchestrator_state name (do_artifact_dir o));
      mret (stopped_status existed_before)
  | Restart =>
      _ ← act_map_err (lifecycle_context "restart orchestrator" name)
            (cleanup_orchestrator_state name (do_artifact_dir o));
      _ ← act_map_err (lifecycle_context "restart orchestrator" name) start;
      mret "restarted"
  end.

(** The session must be where the action leaves it. *)
Definition check_after (action : LifecycleAction) (name : string) (after : bool)
  : Act string (World F T) unit :=
  match action with
  | Start | Restart =>
      if negb after
      then act_throw (lifecycle_action_name action +:+ " " +:+ debug_str name
                      +:+ " completed without leaving a running session")
      else mret tt
  | Stop =>
      if after
      then act_throw ("stop " +:+ debug_str name +:+ " completed but the session is still running")
      else mret tt
  end.

Definition apply_agent_lifecycle_action (config_path : string) (target : ResolvedAgentLifecycleTarget)
    (action : LifecycleAction) : Act string (World F T) AgentLifecycleResponse :=
  let name := ra_name target in
  match ra_limit target with
  | Some limit =>
      act_throw ("Agent " +:+ debug_str name +:+ " does not support "
                 +:+ lifecycle_action_name action +:+ ": " +:+ limit)
  | None =>
      existed_before ← gets (fun w => session_exists name (tmux w));
      status ← match ra_entry target with
               | inl ws => apply_workspace_action config_path name ws action existed_before
               | inr o => apply_orchestrator_action config_path name o action existed_before
               end;
      after ← gets (fun w => session_exists name (tmux w));
      _ ← check_after action name after;
      mret (mkAgentLifecycleResponse name (lifecycle_action_name action) (ra_kind target)
              (ra_managed_session target) true status existed_before after)
  end.

Definition agent_lifecycle_request (fuel : nat) (config_path name : string) (action : LifecycleAction)
  : Run string (World F T) AgentLifecycleResponse :=
  target ← resolve_agent_lifecycle_target fuel config_path name;
  run_act (apply_agent_lifecycle_action config_path target action).

(** ** The backend *)

(** Running out of fuel stands for the stack overflow of a load without a depth cap. *)
Definition settled_run {E A} `{!Display E} (m : Run E (World F T) A) (w : World F T)
  : result string A * World F T :=
  match m w with
  | Some (r, w') => (map_err to_string r, w')
  | None => (Err "stack overflow", w)
  end.
#[local] Instance string_display : Display string := fun s => s.

Definition named_target (action : LifecycleAction) (config_path name : string) (w : World F T)
  : result string LifecycleTarget * World F T :=
  settled_run (control_named_target env hash_text (load_fuel env (files w) config_path)
                 socket_path config_path ax_bin name action) w.

Definition WorldSessions : SessionBackend (World F T) := {|
  tmux_session_exists name w := session_exists name (tmux w);
  tmux_is_idle name w := is_idle name (tmux w);
  tmux_wake_workspace name prompt :=
    act_map_err to_string (on_tmux (Tmux.wake_workspace name prompt));
  tmux_interrupt_workspace name := act_map_err to_string (on_tmux (interrupt_workspace name));
  dispatch_runnable_work config_path target sender fresh w :=
    settled_run (dispatch_runnable_work_with_options env hash_text (load_fuel env (files w) config_path)
                   socket_path config_path ax_bin target sender fresh) w;
  start_named_target := named_target Start;
  stop_named_target := named_target Stop;
  restart_named_target := named_target Restart;
  agent_lifecycle config_path name action w :=
    settled_run (agent_lifecycle_request (load_fuel env (files w) config_path) config_path name action) w;
|}.
End session_world.

(** ** The daemon over real sessions.

    Theorems about [SessionWorld]: agent-lifecycle requests answer truthfully, and the
    daemon's idle pass, run on the implementation of its session interface, touches no
    agent that has something to do. *)

Section facts.
Context {F T : Type} `{!FileSystem F} `{!ArtifactFs F} `{!JsonCodec McpConfig}.
Context `{!YamlCodec Config} `{!YamlCodec ManagedOverlay} `{!TextOps} `{!SysText}.
Context `{!CodexHome F} `{!Prompts F} `{!Tmux T} `{!TmuxOk T}.
Context (env : Env) (hash_text : string -> string) (socket_path ax_bin : string).
Implicit Types (w : World F T) (t : T).

(** ** Agent lifecycle *)

(** The word the answer has for what was done. *)
Definition lifecycle_status (action : LifecycleAction) (before : bool) : string :=
  match action with
  | Start => if before then "already_running" else "started"
  | Stop => if before then "stopped" else "already_stopped"
  | Restart => "restarted"
  end.

(** What carrying out an action on [n] does: it touches that session alone, and starting
    a running one is no action. *)
Definition acted (action : LifecycleAction) (before : bool) n w (r : result string string)
    (w' : World F T) : Prop :=
  trace (about n) (tmux w) (tmux w')
  /\ (forall s, r = Ok s -> s = lifecycle_status action before)
  /\ (action = Start -> before = true -> is_ok r = true /\ w' = w).

Lemma wp_acted {E} `{!Display E} (m : Act E (World F T) unit) (f : E -> string) action before n w :
  (action = Start -> before = false) ->
  wp m (fun _ w' => trace (about n) (tmux w) (tmux w')) w ->
  wp (_ ← act_map_err f m; mret (lifecycle_status action before)) (acted action before n w) w.
Proof.
  intros Hb Hm. apply wp_bind, wp_map_err. eapply wp_mono; [exact Hm|]; cbv beta.
  intros [[]|e] w' Ht; cbn [map_err].
  - apply wp_ret. split_and!; [done|by intros s [= <-]|]. intros Ha Hbt. rewrite Hb in Hbt; done.
  - split_and!; [done..|]. intros Ha Hbt. rewrite Hb in Hbt; done.
Qed.

Lemma acted_running n w : wp (mret "already_running") (acted Start true n w) w.
Proof. apply wp_ret. split_and!; [apply trace_refl|by intros s [= <-]|done]. Qed.

Lemma apply_workspace_acted config_path n ws action w before :
  clear {[n]} (tmux w) ->
  wp (apply_workspace_action socket_path ax_bin config_path n ws action before)
     (acted action before n w) w.
Proof.
  intros Hc. assert (n ∈ ({[n]} : gset string)) as Hn by set_solver.
  unfold apply_workspace_action. destruct action.
  - destruct before; [apply acted_running|]. apply (wp_acted _ _ Start false); [done|].
    eapply wp_mono; [by apply (wp_create_inner _ {[n]})|]; cbv beta.
    by intros r w' [? _]%creates_restarts.
  - apply (wp_acted _ _ Stop); [done|].
    unfold manager_destroy. destruct (is_empty _).
    + apply wp_bind. eapply wp_mono; [by apply (wp_destroy_if_exists _ {[n]})|]; cbv beta.
      by intros [[]|e] w' [_ ?%stops_about].
    + eapply wp_mono; [by apply (wp_stop_then_files _ _ {[n]})|]; cbv beta.
      intros r w'. apply stops_about.
  - apply (wp_acted _ _ Restart before); [done|].
    eapply wp_mono; [by apply (wp_manager_restart _ {[n]})|]; cbv beta. by intros r w' [? _].
Qed.

Lemma apply_orchestrator_acted config_path n o action w before :
  clear {[n]} (tmux w) -> orchestrator_name (pn_prefix (do_node o)) = n ->
  is_empty (pn_prefix (do_node o)) = false ->
  wp (apply_orchestrator_action env socket_path ax_bin config_path n o action before)
     (acted action before n w) w.
Proof.
  intros Hc En Hp. assert (n ∈ ({[n]} : gset string)) as Hn by set_solver.
  unfold apply_orchestrator_action. cbv zeta. destruct action.
  - destruct before; [apply acted_running|]. apply (wp_acted _ _ Start false); [done|].
    eapply wp_mono; [apply (wp_start_managed env {[n]}); by rewrite ?En|]; cbv beta.
    rewrite En. by intros r w' [? _].
  - apply (wp_acted _ _ Stop); [done|].
    eapply wp_mono; [by apply (wp_cleanup_orchestrator_state {[n]})|]; cbv beta.
    intros r w'. apply stops_about.
  - apply wp_bind, wp_map_err.
    eapply wp_mono; [by apply (wp_cleanup_orchestrator_state {[n]})|]; cbv beta.
    intros [[]|e] w1 H1%stops_about; cbn [map_err]; [|by split_and!].
    eapply wp_mono; [apply (wp_acted _ _ Restart before n w1); [done|]|]; cbv beta.
    + eapply wp_mono; [apply (wp_start_managed env {[n]}); rewrite ?En; [by eapply clear_about|done..]|].
      cbv beta. rewrite En. by intros r w' [? _].
    + intros r w' (H2 & Hs & _). split_and!; [by etrans|done..].
Qed.

Abbreviation request := (agent_lifecycle_request (T := T) env hash_text socket_path ax_bin).

(** An answer about [n]: which session it names, what it says of it before and after,
    and what it calls the change. *)
Definition truthful (action : LifecycleAction) n w (resp : AgentLifecycleResponse) (w' : World F T) : Prop :=
  al_name resp = n
  /\ al_session_exists_before resp = running n (tmux w)
  /\ al_session_exists_after resp = running n (tmux w')
  /\ running n (tmux w') = match action with Stop => false | _ => true end
  /\ al_status resp = lifecycle_status action (running n (tmux w)).

Lemma apply_action_truthful config_path target action n w :
  clear {[n]} (tmux w) -> ra_name target = n -> ra_limit target = None ->
  match ra_entry target with
  | inl _ => True
  | inr o => orchestrator_name (pn_prefix (do_node o)) = n /\ is_empty (pn_prefix (do_node o)) = false
  end ->
  wp (apply_agent_lifecycle_action env socket_path ax_bin config_path target action)
     (fun r w' => trace (about n) (tmux w) (tmux w')
        /\ (forall resp, r = Ok resp -> truthful action n w resp w')
        /\ (action = Start -> running n (tmux w) = true -> is_ok r = true /\ w' = w)) w.
Proof.
  intros Hc Hname Hlim Hentry. assert (n ∈ ({[n]} : gset string)) as Hn by set_solver.
  unfold apply_agent_lifecycle_action. rewrite Hlim, Hname. apply wp_bind, wp_gets.
  rewrite (session_exists_clear {[n]}) by done. fold (running n (tmux w)).
  apply wp_bind. eapply wp_mono with (Q := acted action (running n (tmux w)) n w); [|cbv beta].
  { destruct (ra_entry target); [by apply apply_workspace_acted|]. destruct Hentry. by apply apply_orchestrator_acted. }
  intros [s|e] w' (Ht & Hs & Hrun);
    [|split_and!; [done|done|]; intros Ha Hb; by destruct (Hrun Ha Hb)].
  assert (clear {[n]} (tmux w')) as Hc' by (by eapply clear_about).
  apply wp_bind, wp_gets. rewrite (session_exists_clear {[n]}) by done.
  fold (running n (tmux w')). apply wp_bind. rewrite (Hs s eq_refl).
  assert (forall e, action = Start -> running n (tmux w) = true -> running n (tmux w') = false ->
    is_ok (Err e : result string AgentLifecycleResponse) = true /\ w' = w) as Hno.
  { intros e Ha Hb Hf. destruct (Hrun Ha Hb) as [_ ->]. congruence. }
  unfold check_after. destruct action; destruct (running n (tmux w')) eqn:Er; cbn [negb];
    first [apply wp_throw; split_and!; [done|done|intros; by apply Hno]
          |apply wp_ret, wp_ret; split_and!; [done| |intros; split; [done|by apply Hrun]];
           intros resp [= <-]; by repeat split].
Qed.

(** Agent-lifecycle requests answer truthfully.  For a managed target the request touches
    no other session; an answer says which session it is about, whether it ran before and
    whether it runs now, and the session is where the action should leave it; starting
    what runs succeeds and changes nothing.  A name that is not a managed target is
    refused and nothing changes. *)
Theorem agent_lifecycle_is_truthful fuel config_path w tree d name action :
  loads env hash_text fuel socket_path config_path w tree d ->
  trim name <> "" -> clear {[trim name]} (tmux w) ->
  let n := trim name in
  (managed d n -> exists r w', request fuel config_path name action w = Some (r, w')
     /\ trace (about n) (tmux w) (tmux w')
     /\ (forall resp, r = Ok resp -> truthful action n w resp w')
     /\ (action = Start -> running n (tmux w) = true -> is_ok r = true /\ w' = w))
  /\ (ds_workspaces d !! n = None ->
      (forall o, ds_orchestrators d !! n = Some o -> do_managed_session o = false) ->
      exists e, request fuel config_path name action w = Some (Err e, w)).
Proof.
  intros Hl Hne Hc n. pose proof (loads_spec _ _ _ _ _ _ _ _ Hl) as (_ & Hwn & He & _).
  assert (forall r, resolve_agent_lifecycle_target env hash_text socket_path fuel config_path name w
      = Some (r, w) -> request fuel config_path name action w
      = match r with
        | Ok tg => Some (apply_agent_lifecycle_action env socket_path ax_bin config_path tg action w)
        | Err e => Some (Err e, w)
        end) as Hreq.
  { intros r Hr. unfold agent_lifecycle_request, mbind, Run_bind. rewrite Hr. by destruct r. }
  revert Hreq. unfold resolve_agent_lifecycle_target. fold n. rewrite (proj2 (is_empty_false n) Hne).
  rewrite (loads_desired _ _ _ _ _ _ _ _ Hl). intros Hreq.
  assert (forall tg, ra_name tg = n -> ra_limit tg = None ->
    match ra_entry tg with
    | inl _ => True
    | inr o => orchestrator_name (pn_prefix (do_node o)) = n /\ is_empty (pn_prefix (do_node o)) = false
    end -> exists r w', Some (apply_agent_lifecycle_action env socket_path ax_bin config_path tg action w)
       = Some (r, w') /\ trace (about n) (tmux w) (tmux w')
     /\ (forall resp, r = Ok resp -> truthful action n w resp w')
     /\ (action = Start -> running n (tmux w) = true -> is_ok r = true /\ w' = w)) as Hdo.
  { intros tg H1 H2 H3. pose proof (apply_action_truthful config_path tg action n w Hc H1 H2 H3) as Hw.
    unfold wp in Hw. destruct (apply_agent_lifecycle_action _ _ _ _ _ _ w) as [r w'].
    by exists r, w'. }
  split.
  - intros [[[ws Ew] _]|[Ew (o & Eo & Hm)]]; rewrite Ew in Hreq.
    + rewrite (Hreq _ eq_refl). apply Hdo; [by apply Hwn|done|done].
    + destruct (He n o Eo) as (En & Eon & Er & Em). rewrite Eo in Hreq. rewrite (Hreq _ eq_refl).
      rewrite Hm in Em. assert (do_root o = false) as Hr by (by destruct (do_root o)).
      apply Hdo; cbn [ra_name ra_limit ra_entry]; [done|by rewrite Hm, Hr|].
      split; [done|by rewrite <-Er].
  - intros Ew Hun. rewrite Ew in Hreq. destruct (ds_orchestrators d !! n) as [o|] eqn:Eo.
    + rewrite (Hreq _ eq_refl). unfold apply_agent_lifecycle_action. cbn [ra_limit].
      rewrite (Hun o eq_refl), orb_true_r. by eexists.
    + rewrite (Hreq _ eq_refl). by eexists.
Qed.

(** ** The idle pass over real sessions *)

(** A request by name creates its session alone and kills only sessions whose names begin
    with its name, whatever its configuration is like. *)
Lemma control_aimed fuel config_path name action w r w' :
  plain (session_name (trim name)) ->
  control_named_target env hash_text fuel socket_path config_path ax_bin name action w = Some (r, w') ->
  aimed_at (trim name) w w'.
Proof.
  intros Hp Hr.
  destruct (load_dispatch_desired_state env hash_text fuel socket_path config_path w)
    as [[[d|e] w1]|] eqn:El.
  - assert (exists tree, loads env hash_text fuel socket_path config_path w tree d) as [tree Hl].
    { revert El. unfold load_dispatch_desired_state, loads. destruct (load _ _ _ _) as [[cfg|]|]; [|done..].
      destruct (load_tree _ _ _ _) as [[tree|]|]; [|done..]. intros [= Hd ->]. eauto 10. }
    pose proof (control_reaches env hash_text fuel socket_path config_path ax_bin w tree d name action Hl Hp)
      as Hw. unfold wpt in Hw. by rewrite Hr in Hw.
  - assert (w1 = w) as ->.
    { revert El. unfold load_dispatch_desired_state. repeat case_match; naive_solver. }
    revert Hr. unfold control_named_target, mbind, Run_bind, resolve_lifecycle_target. rewrite El.
    destruct (is_empty (trim name)); intros [= <- <-]; apply trace_refl.
  - revert Hr. unfold control_named_target, mbind, Run_bind, resolve_lifecycle_target. rewrite El.
    destruct (is_empty (trim name)); [|done]. intros [= <- <-]. apply trace_refl.
Qed.

Definition Backend : SessionBackend (World F T) := WorldSessions env hash_text socket_path ax_bin.
#[local] Existing Instance Backend.

Definition snapshot_names (registry : Registry) : gset string :=
  list_to_set ((fun r => trim (wi_name (rw_info r))) <$> registry_snapshot registry).

Lemma stop_aimed config_path name w :
  plain (session_name (trim name)) ->
  aimed_at (trim name) w (stop_named_target config_path name w).2.
Proof.
  intros Hp. cbn [stop_named_target Backend WorldSessions]. unfold named_target, settled_run.
  destruct (control_named_target _ _ _ _ _ _ _ _ w) as [[r w']|] eqn:E; [|apply trace_refl].
  by eapply control_aimed.
Qed.

(** The events of a pass: aimed at registered workspaces that have nothing to do. *)
Definition quiet_event registry queue wakes tasks (e : Event) : Prop :=
  exists n, n ∈ snapshot_names registry /\ aimed n e /\ nothing_to_do n queue wakes tasks.

(** What tmux takes for a name: letters, digits, [-], [_] and [.]. *)
Definition plain_names registry : Prop :=
  forall n, n ∈ snapshot_names registry -> plain (session_name n).

Lemma stop_idle_trace now clock queue wakes tasks registry w :
  plain_names registry ->
  trace (quiet_event registry queue wakes tasks)
    (tmux w) (tmux (stop_idle now clock queue wakes tasks registry w).2).
Proof.
  intros Hp. unfold stop_idle.
  assert (forall rest acc, (forall r, r ∈ rest -> r ∈ registry_snapshot registry) ->
    trace (quiet_event registry queue wakes tasks) (tmux w) (tmux acc.2) ->
    trace (quiet_event registry queue wakes tasks) (tmux w)
      (tmux (foldl (stop_idle_one now clock queue wakes tasks) acc rest).2)) as Hfold.
  2: { apply Hfold; [done|]. apply trace_refl. }
  induction rest as [|reg rest IH]; intros [[stopped rg] w1] Hin Ht; [done|].
  cbn [foldl]. apply IH; [intros r Hr; apply Hin; by right|].
  unfold stop_idle_one. destruct (should_sleep reg now queue wakes tasks w1) eqn:Es; cbn [negb]; [|done].
  apply should_sleep_quiet in Es as [Hne Hq]. set (n := trim (wi_name (rw_info reg))) in *.
  assert (n ∈ snapshot_names registry) as Hn.
  { apply elem_of_list_to_set, list_elem_of_fmap. exists reg. split; [done|]. apply Hin. by left. }
  pose proof (stop_aimed (rw_config_path reg) (wi_name (rw_info reg)) w1 (Hp n Hn)) as Hs. fold n in Hs.
  assert (trace (quiet_event registry queue wakes tasks) (tmux w)
    (tmux (control (rw_config_path reg) (wi_name (rw_info reg)) Stop w1).2)) as Hgoal.
  { etrans; [exact Ht|]. eapply trace_mono, Hs. intros e Ha. by exists n. }
  by destruct (control _ _ Stop w1) as [[tg|e] w2].
Qed.

(** C38: The idle pass spares agents with something to do.  Take an agent that is an
    orchestrator, has a message in its inbox, a wake pending or an open task assigned, or
    is not registered, and whose session name begins with that of no other registered
    agent ([api-v2] would begin with that of [api], and tmux takes [-t ax-api] for
    [ax-api-v2] when [api] has no session).  The daemon's pass over its registered
    workspaces, run on real sessions, leaves its session exactly as it is, whatever the
    configurations say and wherever a stop fails.  In any case the pass does nothing to
    sessions but what is aimed at registered agents that have nothing to do: it kills only
    sessions whose names begin with the session name of one of them. *)
Theorem idle_pass_spares_the_busy now clock queue wakes tasks registry w n :
  plain_names registry ->
  let w' := (stop_idle now clock queue wakes tasks registry w).2 in
  ((forall m, m ∈ snapshot_names registry -> m <> n ->
      starts_with (session_name n) (session_name m) = false) ->
   is_always_on_target n = true
   \/ inbox queue n <> []
   \/ (exists p, wakes = Some p /\ is_Some (p !! n))
   \/ (exists k task, inner tasks !! k = Some task /\ t_assignee task = n /\ t_removed_at task = None
         /\ is_open_status (t_status task) = true)
   \/ n ∉ snapshot_names registry ->
   session n (tmux w') = session n (tmux w))
  /\ exists es, log (tmux w') = log (tmux w) ++ es
     /\ Forall (quiet_event registry queue wakes tasks) es.
Proof.
  intros Hp w'. pose proof (stop_idle_trace now clock queue wakes tasks registry w Hp) as Ht.
  fold w' in Ht. split; [|by apply trace_log].
  intros Hapart Hbusy. assert (forall e, about n e -> ~ quiet_event registry queue wakes tasks e) as Hno.
  { intros e Ha (m & Hm & Hae & Haw & Hi & Hwk & Htk).
    assert (m = n) as ->.
    { destruct (decide (m = n)) as [|Hne]; [done|]. specialize (Hapart m Hm Hne).
      destruct e as [s|s]; cbn in Ha, Hae; subst s; [rewrite Hae, starts_with_self in Hapart|]; congruence. }
    destruct Hbusy as [Hb|[Hb|[(p & Ep & Hpn)|[(k & task & Hk & Hta & Hr & Ho)|Hb]]]]; [congruence|done| | |done].
    - rewrite (Hwk p Ep) in Hpn. by destruct Hpn.
    - rewrite (Htk k task Hk Hta Hr) in Ho. done. }
  unfold session. destruct (live (tmux w) !! session_name n) as [row|] eqn:El.
  - eapply trace_keeps; [exact Ht|by apply Hno|done].
  - eapply trace_absent; [exact Ht|by apply Hno|done].
Qed.
End facts.
