(* ===== verification/TeamReconfigure.v ===== *)
(** * Team reconfiguration (crates/ax-daemon/src/team_reconfigure.rs and
    team_state_store.rs, with the team types of ax-proto).

    A team is a base config plus an overlay of changes.  [plan] computes the next state
    of a team, [begin_apply] commits it under a lease, [finish_apply] reports the outcome
    and releases the lease.  SHA-1 ([short_team_hash]) is a parameter; the file system
    and YAML are those of [ConfigSchema]. *)

From stdpp Require Import prelude strings list gmap fin_maps sorting.
From S2P Require Import Prelude RustStr Proto SharedValues.
From S2P Require Import Paths ConfigSchema ConfigTree.

(** ** Team types *)

Definition EXPERIMENTAL_MCP_TEAM_RECONFIGURE_FLAG_KEY : string :=
  "experimental_mcp_team_reconfigure".

Inductive TeamEntryKind := KWorkspace | KChild | KRootOrchestrator.
Inductive TeamChangeOp := OpAdd | OpRemove | OpEnable | OpDisable.
Inductive TeamReconcileMode := ArtifactsOnly | StartMissing.

Record TeamWorkspaceSpec := mkTeamWorkspaceSpec {
  tw_dir : string;
  tw_description : string;
  tw_shell : string;
  tw_runtime : string;
  tw_agent_provider : string;
  tw_codex_model_reasoning_effort : string;
  tw_agent : string;
  tw_instructions : string;
  tw_env : gmap string string;
}.
#[export] Instance TeamWorkspaceSpec_eta : Updatable TeamWorkspaceSpec := fun w =>
  mkTeamWorkspaceSpec (tw_dir w) (tw_description w) (tw_shell w) (tw_runtime w)
    (tw_agent_provider w) (tw_codex_model_reasoning_effort w) (tw_agent w)
    (tw_instructions w) (tw_env w).

Record TeamChildSpec := mkTeamChildSpec { tch_dir : string; tch_prefix : string }.
#[export] Instance TeamChildSpec_eta : Updatable TeamChildSpec := fun c =>
  mkTeamChildSpec (tch_dir c) (tch_prefix c).

Record TeamReconfigureChange := mkChange {
  chg_op : TeamChangeOp;
  chg_kind : TeamEntryKind;
  chg_name : string;
  chg_workspace : option TeamWorkspaceSpec;
  chg_child : option TeamChildSpec;
}.

Record TeamOverlay := mkTeamOverlay {
  ov_disable_root : option bool;
  added_workspaces : gmap string TeamWorkspaceSpec;
  removed_workspaces : gmap string bool;
  disabled_workspaces : gmap string bool;
  added_children : gmap string TeamChildSpec;
  removed_children : gmap string bool;
  disabled_children : gmap string bool;
}.
#[export] Instance TeamOverlay_eta : Updatable TeamOverlay := fun o =>
  mkTeamOverlay (ov_disable_root o) (added_workspaces o) (removed_workspaces o)
    (disabled_workspaces o) (added_children o) (removed_children o) (disabled_children o).
Definition empty_team_overlay : TeamOverlay := mkTeamOverlay None ∅ ∅ ∅ ∅ ∅ ∅.

Record TeamConfiguredState := mkTeamConfiguredState {
  root_orchestrator_enabled : bool;
  cs_workspaces : list string;
  cs_children : list string;
  cs_orchestrators : list string;
}.

Record TeamReconfigureAction := mkAction {
  act_action : string;
  act_kind : TeamEntryKind;
  act_name : string;
  act_dir : string;
  act_detail : string;
}.

Record TeamApplyReport := mkTeamApplyReport {
  rep_started_at : Z;
  rep_finished_at : option Z;
  rep_success : bool;
  rep_error : string;
  rep_reconcile_mode : option TeamReconcileMode;
  rep_actions : list TeamReconfigureAction;
}.

Record TeamReconfigureState := mkTeamState {
  team_id : string;
  base_config_path : string;
  effective_config_path : string;
  feature_enabled : bool;
  revision : Z;
  overlay : TeamOverlay;
  desired : TeamConfiguredState;
  last_apply : option TeamApplyReport;
}.
#[export] Instance TeamReconfigureState_eta : Updatable TeamReconfigureState := fun s =>
  mkTeamState (team_id s) (base_config_path s) (effective_config_path s)
    (feature_enabled s) (revision s) (overlay s) (desired s) (last_apply s).

Record TeamReconfigurePlan := mkTeamPlan {
  plan_state : TeamReconfigureState;
  plan_expected_revision : Z;
  plan_changes : list TeamReconfigureChange;
  plan_actions : list TeamReconfigureAction;
  plan_warnings : list string;
}.
#[export] Instance TeamReconfigurePlan_eta : Updatable TeamReconfigurePlan := fun p =>
  mkTeamPlan (plan_state p) (plan_expected_revision p) (plan_changes p) (plan_actions p)
    (plan_warnings p).

Record TeamApplyTicket := mkTeamTicket {
  tk_token : string;
  tk_plan : TeamReconfigurePlan;
  tk_reconcile_mode : TeamReconcileMode;
}.

(** ** team_state_store.rs *)

Inductive TeamStateError :=
| TeamStateRead (path source : string)
| TeamStateDecode (path : string)
| TeamStateEncode
| TeamStatePersist (e : string).

Record TeamStateStore := mkTeamStateStore {
  ts_path : option string;
  ts_inner : gmap string TeamReconfigureState;
  ts_file : option string;
}.
#[export] Instance TeamStateStore_eta : Updatable TeamStateStore := fun s =>
  mkTeamStateStore (ts_path s) (ts_inner s) (ts_file s).

Section team_state_store.
Context `{!JsonCodec (list TeamReconfigureState)}.

Definition team_store_in_memory : TeamStateStore := mkTeamStateStore None ∅ None.

(** Later entries of the file win, as in [collect] into a map. *)
Definition team_store_load (path : string) (content : option (result string string))
  : result TeamStateError TeamStateStore :=
  map ← match content with
        | None => Ok ∅
        | Some (Err e) => Err (TeamStateRead path e)
        | Some (Ok bytes) =>
            if is_empty bytes then Ok ∅ else
            match from_slice (A := list TeamReconfigureState) bytes with
            | None => Err (TeamStateDecode path)
            | Some entries => Ok (foldl (fun m s => <[team_id s := s]> m) ∅ entries)
            end
        end;
  Ok (mkTeamStateStore (Some path) map
        (match content with Some (Ok b) => Some b | _ => None end)).

Definition team_store_get (id : string) (s : TeamStateStore) : option TeamReconfigureState :=
  ts_inner s !! id.

(** [put] inserts first; an error is reported after the map has changed. *)
Definition team_store_put (state : TeamReconfigureState) (fault : option string)
    (s : TeamStateStore) : result TeamStateError unit * TeamStateStore :=
  let s := s <| ts_inner := <[team_id state := state]> (ts_inner s) |> in
  match ts_path s with
  | None => (Ok tt, s)
  | Some _ =>
      match to_vec (btree_values (ts_inner s)) with
      | None => (Err TeamStateEncode, s)
      | Some bytes =>
          match fault with
          | Some e => (Err (TeamStatePersist e), s)
          | None => (Ok tt, s <| ts_file := Some bytes |>)
          end
      end
  end.
End team_state_store.

(** ** team_reconfigure.rs *)

Definition TEAM_APPLY_LEASE_TTL : Z := secs 120.
Definition MANAGED_TEAMS_DIR : string := "managed-teams".

Inductive TeamError :=
| ConfigPathRequired
| ResolveConfigPath (path : string) (source : IoError)
| RevisionMismatch (expected got : Z)
| FeatureDisabled (key : string)
| InvalidReconcileMode (mode : string)
| ApplyInProgress (id : string)
| TokenNotFound (token : string)
| StateNotFound (id : string)
| WorkspaceNameRequired
| WorkspaceSpecRequired
| WorkspaceAlreadyExists (name : string)
| UnsupportedWorkspaceOp (op : TeamChangeOp)
| ChildNameRequired
| ChildSpecRequired
| ChildAlreadyExists (name : string)
| ChildDirRequired
| UnsupportedChildOp (op : TeamChangeOp)
| RootOrchestratorOpUnsupported
| UnsupportedKind (kind : TeamEntryKind)
| LoadConfig (path : string) (source : TreeError)
| ReadRaw (path : string) (source : LoadError)
| SaveConfig (path : string) (source : LoadError)
| MkState (path : string) (source : IoError)
| PersistTeam (e : TeamStateError).

Record TeamApplyLease := mkLease {
  lease_team_id : string;
  lease_token : string;
  lease_started_at : Z;
  lease_expiry : Z;
  lease_reconcile_mode : TeamReconcileMode;
}.

Record TeamController := mkTeamController {
  tc_state_dir : string;
  tc_store : TeamStateStore;
  tc_leases : gmap string TeamApplyLease;
}.
#[export] Instance TeamController_eta : Updatable TeamController := fun c =>
  mkTeamController (tc_state_dir c) (tc_store c) (tc_leases c).

Definition team_controller_new (state_dir : string) (store : TeamStateStore)
  : TeamController := mkTeamController state_dir store ∅.

Definition parse_bool_flag (value : string) : bool :=
  let v := to_ascii_lowercase (trim value) in
  String.eqb v "1" || String.eqb v "true" || String.eqb v "yes" || String.eqb v "on"
  || String.eqb v "enabled".

(** [feature_enabled()] of the controller. *)
Definition team_feature_enabled (shared : SharedValues) : bool :=
  match shared_get EXPERIMENTAL_MCP_TEAM_RECONFIGURE_FLAG_KEY shared with
  | Some v => parse_bool_flag v
  | None => false
  end.

Definition overlay_has_changes (o : TeamOverlay) : bool :=
  match ov_disable_root o with Some _ => true | None => false end
  || negb (bool_decide (added_workspaces o = ∅))
  || negb (bool_decide (removed_workspaces o = ∅))
  || negb (bool_decide (disabled_workspaces o = ∅))
  || negb (bool_decide (added_children o = ∅))
  || negb (bool_decide (removed_children o = ∅))
  || negb (bool_decide (disabled_children o = ∅)).

(** [normalize_overlay] replaces empty maps by empty maps. *)
Definition normalize_overlay (o : TeamOverlay) : TeamOverlay :=
  let norm {V} (m : gmap string V) : gmap string V := if decide (m = ∅) then ∅ else m in
  o <| added_workspaces := norm (added_workspaces o) |>
    <| removed_workspaces := norm (removed_workspaces o) |>
    <| disabled_workspaces := norm (disabled_workspaces o) |>
    <| added_children := norm (added_children o) |>
    <| removed_children := norm (removed_children o) |>
    <| disabled_children := norm (disabled_children o) |>.

Definition remove_keys {V W} (keys : gmap string W) (m : gmap string V) : gmap string V :=
  foldl (fun m (kv : string * W) => delete kv.1 m) m (btree_to_list keys).

Section team.
Context {F : Type} `{!FileSystem F} `{!YamlCodec Config} `{!YamlCodec ManagedOverlay}.
Context `{!TextOps} `{!JsonCodec (list TeamReconfigureState)}.
Context (short_team_hash : string -> string) (env : Env) (fuel : nat).

Definition resolve_overlay_dir (base_dir value : string) : string :=
  let v := trim value in
  let v := if is_empty v then "." else v in
  match strip_prefix v "~/", home env with
  | Some rest, Some h => join h rest
  | _, _ => if is_absolute v then v else join base_dir v
  end.

Definition canonical_config_path (config_path : string) : result TeamError string :=
  let trimmed := trim config_path in
  if is_empty trimmed then Err ConfigPathRequired
  else map_err (ResolveConfigPath trimmed) (absolute (cwd env) trimmed).

(** *** Raw config *)

Definition workspace_of_spec (root : string) (spec : TeamWorkspaceSpec) : Workspace :=
  mkWorkspace (resolve_overlay_dir root (tw_dir spec)) (tw_description spec) (tw_shell spec)
    (tw_runtime spec) (tw_agent_provider spec) (tw_codex_model_reasoning_effort spec)
    (tw_agent spec) (tw_instructions spec) (tw_env spec).
Definition child_of_spec (root : string) (spec : TeamChildSpec) : Child :=
  mkChild (resolve_overlay_dir root (tch_dir spec)) (tch_prefix spec).

Definition overlay_raw (base : string) (o : TeamOverlay) (raw : Config) : Config :=
  let root := from_config_path base in
  let ws := (fun w => w <| w_dir := resolve_overlay_dir root (w_dir w) |>) <$> workspaces raw in
  let cs := (fun c => c <| ch_dir := resolve_overlay_dir root (ch_dir c) |>) <$> children raw in
  let raw := match ov_disable_root o with
             | Some flag => raw <| disable_root_orchestrator := flag |>
             | None => raw
             end in
  raw
    <| workspaces :=
         foldl (fun m kv => <[kv.1 := workspace_of_spec root kv.2]> m)
           (remove_keys (disabled_workspaces o) (remove_keys (removed_workspaces o) ws))
           (btree_to_list (added_workspaces o)) |>
    <| children :=
         foldl (fun m kv => <[kv.1 := child_of_spec root kv.2]> m)
           (remove_keys (disabled_children o) (remove_keys (removed_children o) cs))
           (btree_to_list (added_children o)) |>.

Definition load_raw_config (fs : F) (path : string) : result TeamError Config :=
  map_err (ReadRaw path) (read_local fs path).

Definition materialize_raw_config (fs : F) (base : string) (o : TeamOverlay)
  : result TeamError Config :=
  raw ← load_raw_config fs base;
  Ok (overlay_raw base o raw).

(** *** Changes *)

Definition apply_workspace_change (base : string) (current_raw : Config)
    (change : TeamReconfigureChange) (o : TeamOverlay) (warnings : list string)
  : result TeamError (TeamOverlay * list string) :=
  let name := trim (chg_name change) in
  if is_empty name then Err WorkspaceNameRequired else
  let exists_ := match workspaces current_raw !! name with Some _ => true | None => false end in
  match chg_op change with
  | OpAdd =>
      match chg_workspace change with
      | None => Err WorkspaceSpecRequired
      | Some spec =>
          if exists_ then Err (WorkspaceAlreadyExists name) else
          let spec := spec <| tw_dir := resolve_overlay_dir (from_config_path base) (tw_dir spec) |> in
          Ok (o <| added_workspaces := <[name := spec]> (added_workspaces o) |>
                <| removed_workspaces := delete name (removed_workspaces o) |>
                <| disabled_workspaces := delete name (disabled_workspaces o) |>, warnings)
      end
  | OpRemove =>
      if negb exists_
      then Ok (o, warnings ++ ["workspace " +:+ debug_str name +:+ " is already absent"])
      else Ok (o <| added_workspaces := delete name (added_workspaces o) |>
                 <| removed_workspaces := <[name := true]> (removed_workspaces o) |>
                 <| disabled_workspaces := delete name (disabled_workspaces o) |>, warnings)
  | OpDisable =>
      if negb exists_
      then Ok (o, warnings ++ ["workspace " +:+ debug_str name +:+ " is already absent/disabled"])
      else Ok (o <| disabled_workspaces := <[name := true]> (disabled_workspaces o) |>
                 <| removed_workspaces := delete name (removed_workspaces o) |>, warnings)
  | OpEnable =>
      match removed_workspaces o !! name, disabled_workspaces o !! name with
      | Some _, _ =>
          Ok (o <| removed_workspaces := delete name (removed_workspaces o) |>, warnings)
      | None, Some _ =>
          Ok (o <| disabled_workspaces := delete name (disabled_workspaces o) |>, warnings)
      | None, None =>
          Ok (o, warnings ++ ["workspace " +:+ debug_str name +:+ " is already enabled"])
      end
  end.

Definition apply_child_change (base : string) (current_raw : Config)
    (change : TeamReconfigureChange) (o : TeamOverlay) (warnings : list string)
  : result TeamError (TeamOverlay * list string) :=
  let name := trim (chg_name change) in
  if is_empty name then Err ChildNameRequired else
  let exists_ := match children current_raw !! name with Some _ => true | None => false end in
  match chg_op change with
  | OpAdd =>
      match chg_child change with
      | None => Err ChildSpecRequired
      | Some spec =>
          if exists_ then Err (ChildAlreadyExists name) else
          let spec := spec <| tch_dir := resolve_overlay_dir (from_config_path base) (tch_dir spec) |> in
          if is_empty (trim (tch_dir spec)) then Err ChildDirRequired else
          Ok (o <| added_children := <[name := spec]> (added_children o) |>
                <| removed_children := delete name (removed_children o) |>
                <| disabled_children := delete name (disabled_children o) |>, warnings)
      end
  | OpRemove =>
      if negb exists_
      then Ok (o, warnings ++ ["child " +:+ debug_str name +:+ " is already absent"])
      else Ok (o <| added_children := delete name (added_children o) |>
                 <| removed_children := <[name := true]> (removed_children o) |>
                 <| disabled_children := delete name (disabled_children o) |>, warnings)
  | OpDisable =>
      if negb exists_
      then Ok (o, warnings ++ ["child " +:+ debug_str name +:+ " is already absent/disabled"])
      else Ok (o <| disabled_children := <[name := true]> (disabled_children o) |>
                 <| removed_children := delete name (removed_children o) |>, warnings)
  | OpEnable =>
      match removed_children o !! name, disabled_children o !! name with
      | Some _, _ =>
          Ok (o <| removed_children := delete name (removed_children o) |>, warnings)
      | None, Some _ =>
          Ok (o <| disabled_children := delete name (disabled_children o) |>, warnings)
      | None, None =>
          Ok (o, warnings ++ ["child " +:+ debug_str name +:+ " is already enabled"])
      end
  end.

Definition apply_root_orchestrator_change (change : TeamReconfigureChange) (o : TeamOverlay)
    (warnings : list string) : result TeamError (TeamOverlay * list string) :=
  match chg_op change with
  | OpDisable => Ok (o <| ov_disable_root := Some true |>, warnings)
  | OpEnable => Ok (o <| ov_disable_root := Some false |>, warnings)
  | _ => Err RootOrchestratorOpUnsupported
  end.

Definition apply_single_change (base : string) (current_raw : Config)
    (change : TeamReconfigureChange) (o : TeamOverlay) (warnings : list string)
  : result TeamError (TeamOverlay * list string) :=
  match chg_kind change with
  | KWorkspace => apply_workspace_change base current_raw change o warnings
  | KChild => apply_child_change base current_raw change o warnings
  | KRootOrchestrator => apply_root_orchestrator_change change o warnings
  end.

Fixpoint apply_each (fs : F) (base : string) (changes : list TeamReconfigureChange)
    (o : TeamOverlay) (warnings : list string) (current_raw : Config)
  : result TeamError (TeamOverlay * list string) :=
  match changes with
  | [] => Ok (o, warnings)
  | change :: changes =>
      '(o, warnings) ← apply_single_change base current_raw change o warnings;
      current_raw ← materialize_raw_config fs base o;
      apply_each fs base changes o warnings current_raw
  end.

Definition apply_changes (fs : F) (base : string) (o : TeamOverlay)
    (changes : list TeamReconfigureChange) : result TeamError (TeamOverlay * list string) :=
  current_raw ← materialize_raw_config fs base o;
  '(o, warnings) ← apply_each fs base changes o [] current_raw;
  Ok (normalize_overlay o, warnings).

(** *** Orchestrators, the desired summary and the diff *)

Definition replace_dots (s : string) : string :=
  of_bytes ((fun a => if decide (a = dot) then Ascii.ascii_of_nat 95 else a) <$> bytes s).

(** [None] when the root needs a home directory and there is none. *)
Definition orchestrator_dir_for_node (node : ProjectNode) : option string :=
  if is_empty (pn_prefix node)
  then h ← home env; Some (join (join h ".ax") "orchestrator")
  else Some (join (join (pn_dir node) ".ax")
                ("orchestrator-" +:+ replace_dots (pn_prefix node))).

Fixpoint walk_tree (node : ProjectNode) (out : gmap string string) : gmap string string :=
  match node with
  | mkProjectNode _ _ prefix _ _ disabled _ cs =>
      let out :=
        if is_empty prefix && disabled then out
        else match orchestrator_dir_for_node node with
             | Some dir => <[orchestrator_session_name prefix := dir]> out
             | None => out
             end in
      foldl (fun out child => walk_tree child out) out cs
  end.
Definition collect_orchestrator_info (tree : ProjectNode) : gmap string string :=
  walk_tree tree ∅.

Definition build_desired_summary (raw loaded : Config) (tree : ProjectNode)
  : TeamConfiguredState :=
  mkTeamConfiguredState (negb (pn_disable_root_orchestrator tree))
    (btree_keys (workspaces loaded)) (btree_keys (children raw))
    (btree_keys (collect_orchestrator_info tree)).

Definition kind_rank (k : TeamEntryKind) : nat :=
  match k with KChild => 0 | KRootOrchestrator => 1 | KWorkspace => 2 end.

(** The order of [sort_by]: kind, then name, then action. *)
Definition action_le (a b : TeamReconfigureAction) : Prop :=
  kind_rank (act_kind a) < kind_rank (act_kind b)
  \/ kind_rank (act_kind a) = kind_rank (act_kind b)
     /\ (act_name a <> act_name b /\ String.le (act_name a) (act_name b)
         \/ act_name a = act_name b /\ String.le (act_action a) (act_action b)).
#[global] Instance action_le_dec : RelDecision action_le.
Proof. intros a b. unfold action_le. apply _. Defined.

(** One of the four loops of the diff: the entries of [m] that [other] lacks. *)
Definition missing_actions {V W} (action : string) (kind : TeamEntryKind) (dir_of : V -> string)
    (m : gmap string V) (other : gmap string W) : list TeamReconfigureAction :=
  (fun kv => mkAction action kind kv.1 (dir_of kv.2) "")
    <$> filter (fun kv : string * V => other !! kv.1 = None) (btree_to_list m).

Definition diff_team_actions (current_cfg : Config) (current_tree : ProjectNode)
    (next_cfg : Config) (next_tree : ProjectNode) : list TeamReconfigureAction :=
  let current_orchs := collect_orchestrator_info current_tree in
  let next_orchs := collect_orchestrator_info next_tree in
  merge_sort action_le
    (missing_actions "destroy" KWorkspace w_dir (workspaces current_cfg) (workspaces next_cfg)
     ++ missing_actions "ensure" KWorkspace w_dir (workspaces next_cfg) (workspaces current_cfg)
     ++ missing_actions "destroy" KRootOrchestrator id current_orchs next_orchs
     ++ missing_actions "ensure" KRootOrchestrator id next_orchs current_orchs).

(** *** The controller.  Its state is threaded with the file system. *)

Definition Team (A : Type) : Type := Run TeamError (TeamController * F) A.

Definition reading {A} (f : F -> option (result TeamError A)) : Team A := fun s =>
  match f s.2 with Some r => Some (r, s) | None => None end.
Definition writing (f : F -> result TeamError F) : Team unit := fun s =>
  match f s.2 with
  | Ok fs => Some (Ok tt, (s.1, fs))
  | Err e => Some (Err e, s)
  end.
Definition controller : Team TeamController := fun s => Some (Ok s.1, s).
Definition set_leases (f : gmap string TeamApplyLease -> gmap string TeamApplyLease) : Team unit :=
  fun s => Some (Ok tt, (s.1 <| tc_leases := f (tc_leases s.1) |>, s.2)).
Definition put_state (state : TeamReconfigureState) (fault : option string) : Team unit :=
  fun s => let '(r, store) := team_store_put state fault (tc_store s.1) in
           Some (map_err PersistTeam r, (s.1 <| tc_store := store |>, s.2)).

Definition load_config (path : string) : Team Config :=
  reading (fun fs => map_err (LoadConfig path) <$> load env fs fuel path).
Definition load_team_tree (path : string) : Team ProjectNode :=
  reading (fun fs => map_err (LoadConfig path) <$> load_tree env fs fuel path).
Definition load_raw (path : string) : Team Config :=
  reading (fun fs => Some (load_raw_config fs path)).

Definition summarize_current_desired (base : string) : Team TeamConfiguredState :=
  cfg ← load_config base;
  tree ← load_team_tree base;
  raw ← load_raw base;
  mret (build_desired_summary raw cfg tree).

(** [timestamp_nanos_opt().unwrap_or(0)]. *)
Definition timestamp_nanos (now : Z) : Z :=
  if decide (in_i64 now) then now else 0.

Definition team_effective_config_path (base : string) (persist : bool) (now : Z)
  : Team string :=
  c ← controller;
  let dir := join (tc_state_dir c) MANAGED_TEAMS_DIR in
  _ ← writing (fun fs => map_err (MkState dir) (fs_create_dir_all fs dir));
  let hash := short_team_hash base in
  mret (if persist then join dir (hash +:+ ".yaml")
        else join dir (hash +:+ "-plan-" +:+ show_Z (timestamp_nanos now) +:+ ".yaml")).

Definition materialize_state (base : string) (state : TeamReconfigureState) (persist : bool)
    (now : Z) : Team (string * TeamConfiguredState * Config * ProjectNode) :=
  if negb (overlay_has_changes (overlay state)) then
    cfg ← load_config base;
    tree ← load_team_tree base;
    raw ← load_raw base;
    mret (base, build_desired_summary raw cfg tree, cfg, tree)
  else
    raw_cfg ← reading (fun fs => Some (materialize_raw_config fs base (overlay state)));
    path ← team_effective_config_path base persist now;
    _ ← writing (fun fs => map_err (SaveConfig path) (save raw_cfg path fs));
    cfg ← load_config path;
    tree ← load_team_tree path;
    mret (path, build_desired_summary raw_cfg cfg tree, cfg, tree).

Definition current_state (base : string) (feature : bool) : Team TeamReconfigureState :=
  c ← controller;
  match team_store_get base (tc_store c) with
  | Some state =>
      let state := state <| feature_enabled := feature |> in
      let state := if is_empty (trim (base_config_path state))
                   then state <| base_config_path := base |> else state in
      mret (if is_empty (trim (effective_config_path state))
            then state <| effective_config_path := base |> else state)
  | None =>
      desired ← summarize_current_desired base;
      mret (mkTeamState base base base feature 0 empty_team_overlay desired None)
  end.

Definition get_state (shared : SharedValues) (config_path : string)
  : Team TeamReconfigureState :=
  base ← lift (canonical_config_path config_path);
  current_state base (team_feature_enabled shared).

Definition plan_inner (config_path : string) (expected_revision : option Z)
    (changes : list TeamReconfigureChange) (feature : bool) (now : Z)
  : Team TeamReconfigurePlan :=
  base ← lift (canonical_config_path config_path);
  current ← current_state base feature;
  match expected_revision with
  | Some want =>
      if (revision current =? want)%Z then mret tt
      else throw (RevisionMismatch want (revision current))
  | None => mret tt
  end;;
  let current_cfg_path := if is_empty (trim (effective_config_path current))
                          then base_config_path current else effective_config_path current in
  current_cfg ← load_config current_cfg_path;
  current_tree ← load_team_tree current_cfg_path;
  '(next_overlay, warnings) ←
    reading (fun fs => Some (apply_changes fs base (overlay current) changes));
  let next := current <| revision := i64_succ (revision current) |>
                      <| overlay := next_overlay |> in
  '(effective_path, desired_, next_cfg, next_tree) ← materialize_state base next false now;
  mret (mkTeamPlan
          (next <| effective_config_path := effective_path |>
                <| desired := desired_ |> <| feature_enabled := feature |>)
          (revision current) changes
          (diff_team_actions current_cfg current_tree next_cfg next_tree) warnings).

Definition plan (shared : SharedValues) (config_path : string) (expected_revision : option Z)
    (changes : list TeamReconfigureChange) (now : Z) : Team TeamReconfigurePlan :=
  let feature := team_feature_enabled shared in
  if negb feature then throw (FeatureDisabled EXPERIMENTAL_MCP_TEAM_RECONFIGURE_FLAG_KEY)
  else plan_inner config_path expected_revision changes feature now.

Definition ticket_token (id : string) (now : Z) : string :=
  short_team_hash id +:+ "-" +:+ show_Z (timestamp_nanos now).

Definition check_lease (id : string) (now : Z) : Team unit :=
  c ← controller;
  match tc_leases c !! id with
  | Some active => if (lease_expiry active >? now)%Z then throw (ApplyInProgress id) else mret tt
  | None => mret tt
  end.

(** The part of [begin_apply] that holds the lock of the leases. *)
Definition commit_plan (p : TeamReconfigurePlan) (feature : bool) (mode : TeamReconcileMode)
    (now : Z) (fault : option string) : Team TeamApplyTicket :=
  _ ← check_lease (team_id (plan_state p)) now;
  '(effective_path, desired_, _, _) ←
    materialize_state (base_config_path (plan_state p)) (plan_state p) true now;
  let persisted := (plan_state p) <| effective_config_path := effective_path |>
                     <| desired := desired_ |> <| feature_enabled := feature |> in
  _ ← put_state persisted fault;
  let token := ticket_token (team_id persisted) now in
  _ ← set_leases (insert (team_id persisted)
        (mkLease (team_id persisted) token now (now + TEAM_APPLY_LEASE_TTL) mode));
  mret (mkTeamTicket token (p <| plan_state := persisted |>) mode).

(** [planned_at] and [now] are the clock readings of the two halves. *)
Definition begin_apply (shared : SharedValues) (config_path : string)
    (expected_revision : option Z) (changes : list TeamReconfigureChange)
    (mode : option TeamReconcileMode) (planned_at now : Z) (fault : option string)
  : Team TeamApplyTicket :=
  let feature := team_feature_enabled shared in
  if negb feature then throw (FeatureDisabled EXPERIMENTAL_MCP_TEAM_RECONFIGURE_FLAG_KEY)
  else
    p ← plan_inner config_path expected_revision changes feature planned_at;
    commit_plan p feature (default ArtifactsOnly mode) now fault.

(** [finish_apply] holds the lock of the leases only while it takes its lease away; the
    state of the team is read and written afterwards, each under the store's own lock. *)
Definition take_lease (token : string) : Team TeamApplyLease :=
  c ← controller;
  match List.find (fun kv => String.eqb (lease_token kv.2) token) (btree_to_list (tc_leases c)) with
  | None => throw (TokenNotFound token)
  | Some (id, lease) => _ ← set_leases (delete id); mret lease
  end.

Definition read_leased_team (lease : TeamApplyLease) : Team TeamReconfigureState :=
  c ← controller;
  match team_store_get (lease_team_id lease) (tc_store c) with
  | None => throw (StateNotFound (lease_team_id lease))
  | Some state => mret state
  end.

Definition apply_report (lease : TeamApplyLease) (now : Z) (success : bool) (err_text : string)
    (actions : list TeamReconfigureAction) : TeamApplyReport :=
  mkTeamApplyReport (lease_started_at lease) (Some now) success (trim err_text)
    (Some (lease_reconcile_mode lease)) actions.

Definition reported (feature : bool) (report : TeamApplyReport) (state : TeamReconfigureState)
  : TeamReconfigureState :=
  state <| feature_enabled := feature |> <| last_apply := Some report |>.

(** [now] is the clock reading under the lock of the leases. *)
Definition finish_apply (shared : SharedValues) (token : string) (success : bool)
    (err_text : string) (actions : list TeamReconfigureAction) (now : Z)
    (fault : option string) : Team TeamReconfigureState :=
  let feature := team_feature_enabled shared in
  lease ← take_lease token;
  state ← read_leased_team lease;
  let state := reported feature (apply_report lease now success err_text actions) state in
  _ ← put_state state fault;
  mret state.
End team.
