(* ===== verification/TeamFacts.v ===== *)
(** * What team reconfiguration guarantees: the effect of every change on the materialised
    config, the completeness of the action diff, and what a lease protects. *)

From stdpp Require Import prelude strings list gmap fin_maps sorting.
From S2P Require Import Prelude RustStr Proto SharedValues.
From S2P Require Import Paths ConfigSchema ConfigTree ConfigFacts TeamReconfigure.

(** ** Overlays, entry by entry *)

(** What an overlay makes of one entry: an added one wins, a removed or disabled one is
    masked, any other is the base's. *)
Definition entry {S V} (of_spec : S -> V) (added : gmap string S)
    (removed disabled : gmap string bool) (base : gmap string V) (n : string) : option V :=
  match added !! n with
  | Some spec => Some (of_spec spec)
  | None => match removed !! n, disabled !! n with
            | None, None => base !! n
            | _, _ => None
            end
  end.

Lemma remove_keys_lookup {V W} (keys : gmap string W) (m : gmap string V) n :
  remove_keys keys m !! n = match keys !! n with Some _ => None | None => m !! n end.
Proof.
  apply (foldl_own_key _ (fun _ _ => None)). intros m' [k w] k'. cbn [fst snd].
  destruct (decide (k' = k)) as [->|]; by simplify_map_eq.
Qed.

Lemma overlay_entry {S V} (of_spec : S -> V) added removed disabled base n :
  foldl (fun m kv => <[kv.1 := of_spec kv.2]> m)
    (remove_keys disabled (remove_keys removed base)) (btree_to_list added) !! n
  = entry of_spec added removed disabled base n.
Proof.
  rewrite (foldl_own_key _ (fun s _ => Some (of_spec s))).
  - unfold entry. destruct (added !! n); [done|]. rewrite !remove_keys_lookup.
    by destruct (removed !! n), (disabled !! n).
  - intros m [k s] k'. cbn [fst snd]. destruct (decide (k' = k)) as [->|]; by simplify_map_eq.
Qed.

(** The masks of one kind of entry: what is added is not removed, and nothing is both
    removed and disabled. *)
Definition masks_ok {S} (added : gmap string S) (removed disabled : gmap string bool) : Prop :=
  forall n, (is_Some (removed !! n) -> added !! n = None)
            /\ (is_Some (removed !! n) -> disabled !! n = None).

Definition overlay_ok (o : TeamOverlay) : Prop :=
  masks_ok (added_workspaces o) (removed_workspaces o) (disabled_workspaces o)
  /\ masks_ok (added_children o) (removed_children o) (disabled_children o).

Lemma empty_overlay_ok : overlay_ok empty_team_overlay.
Proof. split; intros n; split; by intros [? ?]. Qed.

(** The effect of an accepted change on the three maps of its kind. *)
Inductive edit {S} (n : string) (op : TeamChangeOp) (present : bool) (new : option S)
    (a : gmap string S) (r d : gmap string bool)
  : gmap string S -> gmap string bool -> gmap string bool -> Prop :=
| edit_add spec : op = OpAdd -> present = false -> new = Some spec ->
    edit n op present new a r d (<[n := spec]> a) (delete n r) (delete n d)
| edit_remove : op = OpRemove -> present = true ->
    edit n op present new a r d (delete n a) (<[n := true]> r) (delete n d)
| edit_disable : op = OpDisable -> present = true ->
    edit n op present new a r d a (delete n r) (<[n := true]> d)
| edit_absent : op = OpRemove \/ op = OpDisable -> present = false -> edit n op present new a r d a r d
| edit_enable_removed : op = OpEnable -> is_Some (r !! n) ->
    edit n op present new a r d a (delete n r) d
| edit_enable_disabled : op = OpEnable -> r !! n = None -> is_Some (d !! n) ->
    edit n op present new a r d a r (delete n d)
| edit_enabled : op = OpEnable -> r !! n = None -> d !! n = None -> edit n op present new a r d a r d.

Lemma edit_masks_ok {S} n op present new (a : gmap string S) r d a' r' d' :
  edit n op present new a r d a' r' d' -> masks_ok a r d -> masks_ok a' r' d'.
Proof.
  intros He Hok m. specialize (Hok m) as [H1 H2].
  destruct He; destruct (decide (m = n)) as [->|]; simplify_map_eq; split; naive_solver.
Qed.

(** Other entries are untouched; the changed one is as the operation says. *)
Lemma edit_entry {S V} (of_spec : S -> V) base n op new a r d a' r' d' :
  let view a r d := entry of_spec a r d base in
  edit n op (bool_decide (is_Some (view a r d n))) new a r d a' r' d' ->
  masks_ok a r d ->
  (forall m, m <> n -> view a' r' d' m = view a r d m)
  /\ match op with
     | OpAdd => view a r d n = None /\ is_Some new /\ view a' r' d' n = of_spec <$> new
     | OpRemove => view a' r' d' n = None
     | OpDisable => view a' r' d' n = match a !! n with
                                      | Some _ => view a r d n
                                      | None => None
                                      end
     | OpEnable => view a' r' d' n = match a !! n with
                                     | Some spec => Some (of_spec spec)
                                     | None => base !! n
                                     end
     end.
Proof.
  intros view He Hok. specialize (Hok n) as [Hra Hrd].
  assert (bool_decide (is_Some (view a r d n)) = false -> view a r d n = None) as Habs.
  { intros E%bool_decide_eq_false. by apply eq_None_not_Some. }
  split.
  - intros m Hm. unfold view, entry. destruct He; by simplify_map_eq.
  - destruct He as [spec -> Hp ->| -> Hp| -> Hp|Ho Hp| -> Hr| -> Hr Hd| -> Hr Hd];
      try specialize (Habs Hp).
    + split_and!; [done|by eexists|]. unfold view, entry. by simplify_map_eq.
    + unfold view, entry. by simplify_map_eq.
    + unfold view, entry. rewrite lookup_insert_eq.
      by destruct (a !! n), (delete n r !! n).
    + destruct Ho as [->| ->]; [done|]. rewrite Habs. by destruct (a !! n).
    + unfold view, entry. rewrite Hra, Hrd by done. by simplify_map_eq.
    + unfold view, entry. simplify_map_eq. by destruct (a !! n).
    + unfold view, entry. simplify_map_eq. by destruct (a !! n).
Qed.

(** What an operation on entry [n] promises of the config before and after it. *)
Definition op_effect {S V} (of_spec : S -> V) (added : gmap string S) (base : gmap string V)
    (n : string) (op : TeamChangeOp) (new : option S) (before after : gmap string V) : Prop :=
  (forall m, m <> n -> after !! m = before !! m)
  /\ match op with
     | OpAdd => before !! n = None /\ is_Some new /\ after !! n = of_spec <$> new
     | OpRemove => after !! n = None
     | OpDisable => after !! n = match added !! n with Some _ => before !! n | None => None end
     | OpEnable => after !! n = match added !! n with
                                | Some spec => Some (of_spec spec)
                                | None => base !! n
                                end
     end.

Section team_facts.
Context {F : Type} `{!FileSystem F} `{!YamlCodec Config} `{!YamlCodec ManagedOverlay}.
Context `{!TextOps} `{!JsonCodec (list TeamReconfigureState)}.
Context (hash : string -> string) (env : Env) (fuel : nat).

(** The entries of the base with their directories resolved. *)
Definition base_workspaces (base : string) (raw : Config) : gmap string Workspace :=
  (fun w => w <| w_dir := resolve_overlay_dir env (from_config_path base) (w_dir w) |>)
    <$> workspaces raw.
Definition base_children (base : string) (raw : Config) : gmap string Child :=
  (fun c => c <| ch_dir := resolve_overlay_dir env (from_config_path base) (ch_dir c) |>)
    <$> children raw.

(** The specs a change carries, as the overlay records them. *)
Definition new_workspace (base : string) (change : TeamReconfigureChange)
  : option TeamWorkspaceSpec :=
  (fun s => s <| tw_dir := resolve_overlay_dir env (from_config_path base) (tw_dir s) |>)
    <$> chg_workspace change.
Definition new_child (base : string) (change : TeamReconfigureChange) : option TeamChildSpec :=
  (fun s => s <| tch_dir := resolve_overlay_dir env (from_config_path base) (tch_dir s) |>)
    <$> chg_child change.

Lemma overlay_raw_workspaces base o raw n :
  workspaces (overlay_raw env base o raw) !! n
  = entry (workspace_of_spec env (from_config_path base)) (added_workspaces o)
      (removed_workspaces o) (disabled_workspaces o) (base_workspaces base raw) n.
Proof. unfold overlay_raw. destruct (ov_disable_root o); fsimpl; apply overlay_entry. Qed.

Lemma overlay_raw_children base o raw n :
  children (overlay_raw env base o raw) !! n
  = entry (child_of_spec env (from_config_path base)) (added_children o)
      (removed_children o) (disabled_children o) (base_children base raw) n.
Proof. unfold overlay_raw. destruct (ov_disable_root o); fsimpl; apply overlay_entry. Qed.

Lemma overlay_raw_root base o raw :
  disable_root_orchestrator (overlay_raw env base o raw)
  = default (disable_root_orchestrator raw) (ov_disable_root o).
Proof. unfold overlay_raw. by destruct (ov_disable_root o). Qed.

Lemma bool_decide_is_Some {A} (x : option A) :
  (match x with Some _ => true | None => false end) = bool_decide (is_Some x).
Proof. by destruct x. Qed.

Lemma apply_workspace_change_edit base cur change o w o' w' :
  apply_workspace_change env base cur change o w = Ok (o', w') ->
  let n := trim (chg_name change) in
  edit n (chg_op change) (bool_decide (is_Some (workspaces cur !! n)))
    (new_workspace base change)
    (added_workspaces o) (removed_workspaces o) (disabled_workspaces o)
    (added_workspaces o') (removed_workspaces o') (disabled_workspaces o')
  /\ added_children o' = added_children o /\ removed_children o' = removed_children o
  /\ disabled_children o' = disabled_children o /\ ov_disable_root o' = ov_disable_root o.
Proof.
  unfold apply_workspace_change, new_workspace. cbv zeta. set (n := trim (chg_name change)).
  destruct (is_empty n); [done|].
  rewrite bool_decide_is_Some. set (present := bool_decide _).
  destruct (chg_op change).
  - destruct (chg_workspace change) as [spec|]; [|done].
    destruct present eqn:Ep; [done|]. intros [= <- <-]. fsimpl. split; [by apply edit_add|done].
  - destruct present eqn:Ep; intros [= <- <-]; fsimpl;
      (split; [|done]); [by apply edit_remove|apply edit_absent; by auto].
  - destruct (removed_workspaces o !! n) eqn:Er; [|destruct (disabled_workspaces o !! n) eqn:Ed];
      intros [= <- <-]; fsimpl; (split; [|done]);
      [apply edit_enable_removed|apply edit_enable_disabled|apply edit_enabled]; done.
  - destruct present eqn:Ep; intros [= <- <-]; fsimpl;
      (split; [|done]); [by apply edit_disable|apply edit_absent; by auto].
Qed.

Lemma apply_child_change_edit base cur change o w o' w' :
  apply_child_change env base cur change o w = Ok (o', w') ->
  let n := trim (chg_name change) in
  edit n (chg_op change) (bool_decide (is_Some (children cur !! n)))
    (new_child base change)
    (added_children o) (removed_children o) (disabled_children o)
    (added_children o') (removed_children o') (disabled_children o')
  /\ added_workspaces o' = added_workspaces o /\ removed_workspaces o' = removed_workspaces o
  /\ disabled_workspaces o' = disabled_workspaces o /\ ov_disable_root o' = ov_disable_root o.
Proof.
  unfold apply_child_change, new_child. cbv zeta. set (n := trim (chg_name change)).
  destruct (is_empty n); [done|].
  rewrite bool_decide_is_Some. set (present := bool_decide _).
  destruct (chg_op change).
  - destruct (chg_child change) as [spec|]; [|done]. destruct present eqn:Ep; [done|].
    destruct (is_empty _); [done|]. intros [= <- <-]. fsimpl. split; [by apply edit_add|done].
  - destruct present eqn:Ep; intros [= <- <-]; fsimpl;
      (split; [|done]); [by apply edit_remove|apply edit_absent; by auto].
  - destruct (removed_children o !! n) eqn:Er; [|destruct (disabled_children o !! n) eqn:Ed];
      intros [= <- <-]; fsimpl; (split; [|done]);
      [apply edit_enable_removed|apply edit_enable_disabled|apply edit_enabled]; done.
  - destruct present eqn:Ep; intros [= <- <-]; fsimpl;
      (split; [|done]); [by apply edit_disable|apply edit_absent; by auto].
Qed.

Lemma same_entries {S V} (of_spec : S -> V) (m m' : gmap string V) a r d base a' r' d' :
  (forall n, m !! n = entry of_spec a r d base n) ->
  (forall n, m' !! n = entry of_spec a' r' d' base n) ->
  a' = a -> r' = r -> d' = d -> m' = m.
Proof. intros H1 H2 -> -> ->. apply map_eq. intros n. by rewrite H1, H2. Qed.

Lemma edit_op_effect {S V} (of_spec : S -> V) (m m' base : gmap string V) n op new a r d a' r' d' :
  (forall n, m !! n = entry of_spec a r d base n) ->
  (forall n, m' !! n = entry of_spec a' r' d' base n) ->
  edit n op (bool_decide (is_Some (m !! n))) new a r d a' r' d' -> masks_ok a r d ->
  op_effect of_spec a base n op new m m'.
Proof.
  intros Hm Hm' He Hok. rewrite Hm in He. pose proof (edit_entry _ _ _ _ _ _ _ _ _ _ _ He Hok)
    as [Hother Hop]. split; [intros k Hk; rewrite Hm, Hm'; by apply Hother|].
  rewrite Hm, Hm'. done.
Qed.

(** C33: An accepted change of a well-formed overlay has this effect on the configuration
    materialised from base and overlay, and touches no other entry: an added entry was
    absent before and is then the one given; a removed one is gone; an enabled one is the
    entry the overlay added under that name, if there is one, and else that of the base;
    a disabled one is gone, but only if the overlay did not add it - an added entry stays
    as it was ([disabling_an_added_workspace_has_no_effect]).  Changes of workspaces,
    children and the root orchestrator's toggle do not concern each other, and the
    overlay stays well formed. *)
Theorem change_has_its_effect base raw change o w o' w' :
  overlay_ok o ->
  apply_single_change env base (overlay_raw env base o raw) change o w = Ok (o', w') ->
  let before := overlay_raw env base o raw in
  let after := overlay_raw env base o' raw in
  let n := trim (chg_name change) in
  overlay_ok o'
  /\ match chg_kind change with
     | KWorkspace =>
         op_effect (workspace_of_spec env (from_config_path base)) (added_workspaces o)
           (base_workspaces base raw) n (chg_op change) (new_workspace base change)
           (workspaces before) (workspaces after)
         /\ children after = children before
         /\ disable_root_orchestrator after = disable_root_orchestrator before
     | KChild =>
         op_effect (child_of_spec env (from_config_path base)) (added_children o)
           (base_children base raw) n (chg_op change) (new_child base change)
           (children before) (children after)
         /\ workspaces after = workspaces before
         /\ disable_root_orchestrator after = disable_root_orchestrator before
     | KRootOrchestrator =>
         (chg_op change = OpDisable /\ disable_root_orchestrator after = true
          \/ chg_op change = OpEnable /\ disable_root_orchestrator after = false)
         /\ workspaces after = workspaces before /\ children after = children before
     end.
Proof.
  intros [Hws Hcs] Hrun. cbv zeta. unfold apply_single_change in Hrun.
  destruct (chg_kind change).
  - apply apply_workspace_change_edit in Hrun as (He & Ha & Hr & Hd & Hroot). split_and!.
    + split; [by eapply edit_masks_ok|]. by rewrite Ha, Hr, Hd.
    + eapply edit_op_effect; [apply overlay_raw_workspaces..|done|done].
    + eapply same_entries; [apply overlay_raw_children..| | |]; done.
    + by rewrite !overlay_raw_root, Hroot.
  - apply apply_child_change_edit in Hrun as (He & Ha & Hr & Hd & Hroot). split_and!.
    + split; [by rewrite Ha, Hr, Hd|]. by eapply edit_masks_ok.
    + eapply edit_op_effect; [apply overlay_raw_children..|done|done].
    + eapply same_entries; [apply overlay_raw_workspaces..| | |]; done.
    + by rewrite !overlay_raw_root, Hroot.
  - unfold apply_root_orchestrator_change in Hrun.
    destruct (chg_op change); try done; injection Hrun as <- <-;
      (split; [done|split; [|done]]); rewrite overlay_raw_root; auto.
Qed.

Lemma normalize_overlay_id o : normalize_overlay o = o.
Proof.
  unfold normalize_overlay. cbv zeta.
  repeat case_decide; destruct o; cbn in *; by subst.
Qed.

(** ** The diff *)

#[local] Instance action_le_trans : Transitive action_le.
Proof.
  intros a b c. unfold action_le.
  intros [?|(Ek & [[Hn Hl]|[En Hl]])] [?|(Ek' & [[Hn' Hl']|[En' Hl']])]; try (left; lia);
    right; (split; [lia|]).
  - left. split; [|by etransitivity]. intros E. rewrite E in Hl. apply Hn'.
    by apply (anti_symm String.le).
  - left. rewrite <-En'. done.
  - left. rewrite En. done.
  - right. split; [congruence|]. by etransitivity.
Qed.
#[local] Instance action_le_total : Total action_le.
Proof.
  intros a b. unfold action_le.
  destruct (Nat.lt_trichotomy (kind_rank (act_kind a)) (kind_rank (act_kind b))) as [?|[?|?]];
    [by left; left| |by right; left].
  destruct (decide (act_name a = act_name b)) as [En|En].
  - destruct (total String.le (act_action a) (act_action b)); [left|right]; right; auto.
  - destruct (total String.le (act_name a) (act_name b)); [left|right]; right; auto.
Qed.

Lemma elem_of_missing_actions {V W} action kind (dir_of : V -> string)
    (m : gmap string V) (other : gmap string W) x :
  x ∈ missing_actions action kind dir_of m other
  <-> exists v, m !! act_name x = Some v /\ other !! act_name x = None
        /\ x = mkAction action kind (act_name x) (dir_of v) "".
Proof.
  unfold missing_actions. rewrite list_elem_of_fmap. split.
  - intros ([n v] & -> & [Ho Hin]%list_elem_of_filter). exists v.
    by apply elem_of_btree_to_list in Hin.
  - intros (v & Hm & Ho & E). exists (act_name x, v). split; [done|].
    apply list_elem_of_filter. by rewrite elem_of_btree_to_list.
Qed.

(** The action list of a plan is the exact difference of the two configurations: it
    destroys the workspaces and orchestrators that disappear and ensures those that
    appear, each with its directory, nothing else, sorted by kind, name and action. *)
Theorem diff_is_exact cfg tree cfg' tree' :
  let actions := diff_team_actions env cfg tree cfg' tree' in
  let orchs := collect_orchestrator_info env tree in
  let orchs' := collect_orchestrator_info env tree' in
  StronglySorted action_le actions
  /\ forall x, x ∈ actions <->
     (exists w, act_kind x = KWorkspace /\ act_detail x = "" /\ act_dir x = w_dir w
        /\ (act_action x = "destroy" /\ workspaces cfg !! act_name x = Some w
              /\ workspaces cfg' !! act_name x = None
            \/ act_action x = "ensure" /\ workspaces cfg' !! act_name x = Some w
              /\ workspaces cfg !! act_name x = None))
     \/ (act_kind x = KRootOrchestrator /\ act_detail x = ""
        /\ (act_action x = "destroy" /\ orchs !! act_name x = Some (act_dir x)
              /\ orchs' !! act_name x = None
            \/ act_action x = "ensure" /\ orchs' !! act_name x = Some (act_dir x)
              /\ orchs !! act_name x = None)).
Proof.
  cbv zeta. unfold diff_team_actions. cbv zeta. split.
  - apply StronglySorted_merge_sort; apply _.
  - intros x. rewrite merge_sort_Permutation, !elem_of_app, !elem_of_missing_actions.
    destruct x as [a k n dir det]. cbn [act_action act_kind act_name act_dir act_detail].
    split.
    + intros [(w & Hm & Ho & E)|[(w & Hm & Ho & E)|[(w & Hm & Ho & E)|(w & Hm & Ho & E)]]];
        injection E as -> -> -> ->; [left; exists w; split_and!; auto..| |];
        right; split_and!; auto.
    + intros [(w & -> & -> & -> & [(-> & Hm & Ho)|(-> & Hm & Ho)])
             |(-> & -> & [(-> & Hm & Ho)|(-> & Hm & Ho)])]; naive_solver.
Qed.

(** ** The controller *)

(** [m] moves the state only along [R]: a computation that only reads is [preserves eq],
    one that may write files but not the controller is [preserves same_controller]. *)
Definition preserves (R : relation (TeamController * F)) {A} (m : Team (F := F) A) : Prop :=
  forall s r s', m s = Some (r, s') -> R s s'.
Definition same_controller (s s' : TeamController * F) : Prop := s'.1 = s.1.
#[local] Instance same_controller_preorder : PreOrder same_controller.
Proof. split; [done|]. unfold same_controller. intros ???. congruence. Qed.

Section preserves.
Context (R : relation (TeamController * F)) `{!PreOrder R}.

Lemma preserves_bind {A B} (m : Team (F := F) A) (f : A -> Team B) :
  preserves R m -> (forall a, preserves R (f a)) -> preserves R (m ≫= f).
Proof.
  intros Hm Hf s r s'. run_step. destruct (m s) as [[[a|e] s1]|] eqn:E; [| |done].
  - intros Hr%Hf. apply Hm in E. by etransitivity.
  - intros [= <- <-]. by apply Hm in E.
Qed.
Lemma preserves_lift {A} (r : result TeamError A) : preserves R (lift r).
Proof. by intros s r' s' [= <- <-]. Qed.
Lemma preserves_throw {A} (e : TeamError) : preserves R (throw (A := A) e).
Proof. apply preserves_lift. Qed.
Lemma preserves_ret {A} (a : A) : preserves R (mret a).
Proof. by intros s r' s' [= <- <-]. Qed.
Lemma preserves_reading {A} (f : F -> option (result TeamError A)) : preserves R (reading f).
Proof. intros s r s'. unfold reading. destruct (f s.2); [|done]. by intros [= <- <-]. Qed.
Lemma preserves_controller : preserves R (controller (F := F)).
Proof. by intros s r s' [= <- <-]. Qed.
End preserves.

Lemma preserves_writing (f : F -> result TeamError F) : preserves same_controller (writing f).
Proof. intros s r s'. unfold writing. destruct (f s.2); by intros [= <- <-]. Qed.

Create HintDb team.
#[local] Hint Resolve preserves_lift preserves_throw preserves_ret preserves_reading
  preserves_controller preserves_writing : team.

Ltac preserves_tac :=
  repeat (first
    [ progress (eauto with team typeclass_instances)
    | apply preserves_bind; [apply _| |intros ?]
    | match goal with |- preserves _ (match ?x with _ => _ end) => destruct x end
    | progress cbv zeta ]).

Lemma current_state_preserves R `{!PreOrder R} base feature :
  preserves R (current_state env fuel base feature).
Proof.
  unfold current_state, summarize_current_desired, load_config, load_team_tree, load_raw.
  preserves_tac.
Qed.
#[local] Hint Resolve current_state_preserves : team.

Lemma materialize_state_preserves base st persist now :
  preserves same_controller (materialize_state hash env fuel base st persist now).
Proof.
  unfold materialize_state, team_effective_config_path, load_config, load_team_tree, load_raw.
  preserves_tac.
Qed.
#[local] Hint Resolve materialize_state_preserves : team.

Lemma plan_inner_preserves path rev changes feature now :
  preserves same_controller (plan_inner hash env fuel path rev changes feature now).
Proof. unfold plan_inner, load_config, load_team_tree. preserves_tac. Qed.

Lemma put_inner st fault s :
  ts_inner (team_store_put st fault s).2 = <[team_id st := st]> (ts_inner s).
Proof. unfold team_store_put. cbv zeta. by repeat case_match. Qed.

Lemma check_lease_cases id now c (fs : F) :
  check_lease id now (c, fs) = Some (Err (ApplyInProgress id), (c, fs))
  \/ check_lease id now (c, fs) = Some (Ok (), (c, fs))
     /\ forall l, tc_leases c !! id = Some l -> (lease_expiry l <= now)%Z.
Proof.
  unfold check_lease, controller. run_step. cbn [fst].
  destruct (tc_leases c !! id) as [l|]; [|right; by split].
  destruct (lease_expiry l >? now)%Z eqn:E; [by left|right].
  split; [done|]. intros l' [= <-]. lia.
Qed.

(** The possible outcomes of the locked half of [begin_apply]. *)
Lemma commit_plan_cases p feature mode now fault c fs r c' fs' :
  commit_plan hash env fuel p feature mode now fault (c, fs) = Some (r, (c', fs')) ->
  let id := team_id (plan_state p) in
  (c' = c /\ is_ok r = false)
  \/ ((forall l, tc_leases c !! id = Some l -> (lease_expiry l <= now)%Z)
      /\ exists st, team_id st = id /\ revision st = revision (plan_state p)
         /\ overlay st = overlay (plan_state p)
         /\ tc_state_dir c' = tc_state_dir c
         /\ ts_inner (tc_store c') = <[id := st]> (ts_inner (tc_store c))
         /\ ((is_ok r = false /\ tc_leases c' = tc_leases c)
             \/ let token := ticket_token hash id now in
                r = Ok (mkTeamTicket token (p <| plan_state := st |>) mode)
                /\ tc_leases c' = <[id := mkLease id token now (now + TEAM_APPLY_LEASE_TTL) mode]>
                                    (tc_leases c))).
Proof.
  cbv zeta. unfold commit_plan. cbv zeta. run_step.
  destruct (check_lease_cases (team_id (plan_state p)) now c fs) as [-> |[-> Hfree]];
    [intros [= <- <- <-]; by left|].
  destruct (materialize_state hash env fuel _ _ true now (c, fs)) as [[[m|e] [c1 fs1]]|] eqn:Em;
    [| |done]; apply materialize_state_preserves in Em; unfold same_controller in Em; cbn in Em; subst c1.
  2: { intros [= <- <- <-]. by left. }
  destruct m as [[[path des] cfg] tree]. unfold put_state, set_leases. cbn [fst snd].
  set (st := (plan_state p) <| effective_config_path := path |> <| desired := des |>
               <| feature_enabled := feature |>).
  pose proof (put_inner st fault (tc_store c)) as Hput.
  destruct (team_store_put st fault (tc_store c)) as [rp store]. cbn [snd] in Hput.
  destruct rp as [[]|e]; cbn [map_err fst snd]; intros [= <- <- <-]; right;
    (split; [done|]); exists st; fsimpl; rewrite Hput; split_and!; try done; auto.
Qed.

(** Taking a lease: the token of a live one takes that one away, any other is refused. *)
Lemma take_lease_cases token c (fs : F) r c' fs' :
  take_lease token (c, fs) = Some (r, (c', fs')) ->
  tc_store c' = tc_store c
  /\ ((c' = c /\ r = Err (TokenNotFound token)
       /\ forall id l, tc_leases c !! id = Some l -> lease_token l <> token)
      \/ exists id l, tc_leases c !! id = Some l /\ lease_token l = token
          /\ tc_leases c' = delete id (tc_leases c) /\ r = Ok l).
Proof.
  unfold take_lease, controller. run_step. cbn [fst].
  destruct (List.find _ _) as [[id l]|] eqn:Ef.
  - apply List.find_some in Ef as [Hin Htok]. apply String.eqb_eq in Htok.
    apply list_elem_of_In, elem_of_btree_to_list in Hin. cbn [snd] in Htok.
    unfold set_leases. cbn [fst snd]. intros [= <- <- <-]. fsimpl. split; [done|right].
    by exists id, l.
  - intros [= <- <- <-]. split; [done|left]. split_and!; [done..|]. intros id l Hl Ht.
    apply elem_of_btree_to_list in Hl. apply list_elem_of_In in Hl.
    pose proof (List.find_none _ _ Ef _ Hl) as Hn. cbn in Hn. by apply String.eqb_neq in Hn.
Qed.

Lemma read_leased_team_cases l c (fs : F) r s' :
  read_leased_team l (c, fs) = Some (r, s') ->
  s' = (c, fs)
  /\ match ts_inner (tc_store c) !! lease_team_id l with
     | Some st => r = Ok st
     | None => r = Err (StateNotFound (lease_team_id l))
     end.
Proof.
  unfold read_leased_team, controller, team_store_get. run_step. cbn [fst].
  destruct (ts_inner (tc_store c) !! lease_team_id l); by intros [= <- <-].
Qed.

Lemma put_state_cases st fault c (fs : F) r c' fs' :
  put_state st fault (c, fs) = Some (r, (c', fs')) ->
  tc_leases c' = tc_leases c
  /\ ts_inner (tc_store c') = <[team_id st := st]> (ts_inner (tc_store c))
  /\ (r = Ok () \/ exists e, r = Err (PersistTeam e)).
Proof.
  unfold put_state. cbn [fst snd]. pose proof (put_inner st fault (tc_store c)) as Hput.
  destruct (team_store_put st fault (tc_store c)) as [rp store]. cbn [snd] in Hput.
  intros [= <- <- <-]. fsimpl. split_and!; try done. destruct rp as [[]|e]; eauto.
Qed.

Lemma reported_id feature report st : team_id (reported feature report st) = team_id st.
Proof. done. Qed.

(** The possible outcomes of [finish_apply]. *)
Lemma finish_apply_cases shared token success err actions now fault c fs r c' fs' :
  finish_apply shared token success err actions now fault (c, fs) = Some (r, (c', fs' : F)) ->
  (c' = c /\ r = Err (TokenNotFound token)
   /\ forall id l, tc_leases c !! id = Some l -> lease_token l <> token)
  \/ exists id l, tc_leases c !! id = Some l /\ lease_token l = token
     /\ tc_leases c' = delete id (tc_leases c)
     /\ ((tc_store c' = tc_store c /\ ts_inner (tc_store c) !! lease_team_id l = None
          /\ r = Err (StateNotFound (lease_team_id l)))
         \/ exists st, ts_inner (tc_store c) !! lease_team_id l = Some st
            /\ let st' := reported (team_feature_enabled shared)
                            (apply_report l now success err actions) st in
               ts_inner (tc_store c') = <[team_id st := st']> (ts_inner (tc_store c))
               /\ (r = Ok st' \/ exists e, r = Err (PersistTeam e))).
Proof.
  unfold finish_apply. cbv zeta. run_step.
  destruct (take_lease token (c, fs)) as [[rl [c1 fs1]]|] eqn:Et; [|done].
  apply take_lease_cases in Et as [Hstore [(-> & -> & Hno)|(id & l & Hl & Htok & Hdel & ->)]].
  { intros [= <- <- <-]. by left. }
  destruct (read_leased_team l (c1, fs1)) as [[rr s2]|] eqn:Er; [|done].
  apply read_leased_team_cases in Er as [-> Hr]. rewrite Hstore in Hr.
  intros Hrun. right. exists id, l. split; [done|]. split; [done|]. revert Hrun.
  destruct (ts_inner (tc_store c) !! lease_team_id l) as [st|] eqn:Est; subst rr.
  2: { intros [= <- <- <-]. auto. }
  set (st' := reported _ _ st).
  destruct (put_state st' fault (c1, fs1)) as [[rp [c2 fs2]]|] eqn:Ep; [|done].
  apply put_state_cases in Ep as (Hle & Hput & Hrp). rewrite Hstore in Hput.
  intros Hrun. assert (c2 = c') as -> by (destruct rp; by injection Hrun).
  rewrite Hle. split; [done|]. right. exists st. split; [done|]. split; [done|].
  destruct Hrp as [->|[e ->]]; injection Hrun as <- _; eauto.
Qed.

(** *** Interleaved requests.

    [begin_apply] plans without the lock of the leases and commits under it, so another
    request can run in between: a request that has planned waits in [sys_plans].
    [finish_apply] takes its lease under that lock and then reads and writes the state of
    the team without it, so a request that has taken its lease waits in [sys_reports],
    with the state it has read.  Other processes may change the files at any time. *)

Record FinishRequest := mkFinish {
  fin_lease : TeamApplyLease;
  fin_feature : bool;
  fin_report : TeamApplyReport;
  fin_state : option TeamReconfigureState;
}.

Record TeamSys := mkSys {
  sys_controller : TeamController;
  sys_files : F;
  sys_plans : list (TeamReconfigurePlan * bool * TeamReconcileMode);
  sys_reports : list FinishRequest;
}.

Inductive team_event :=
| EvPlan
| EvFiles
| EvCommit (id : string) (now : Z)
| EvTake (token : string)
| EvRead
| EvReport.

Inductive team_step : team_event -> TeamSys -> TeamSys -> Prop :=
| step_plan path rev changes feature mode now c fs ps qs r c' fs'
    (Hrun : plan_inner hash env fuel path rev changes feature now (c, fs) = Some (r, (c', fs'))) :
    team_step EvPlan (mkSys c fs ps qs)
      (mkSys c' fs' (match r with Ok p => (p, feature, mode) :: ps | Err _ => ps end) qs)
| step_commit ps1 p feature mode ps2 qs now fault c fs r c' fs'
    (Hrun : commit_plan hash env fuel p feature mode now fault (c, fs) = Some (r, (c', fs'))) :
    team_step (EvCommit (team_id (plan_state p)) now) (mkSys c fs (ps1 ++ (p, feature, mode) :: ps2) qs)
      (mkSys c' fs' (ps1 ++ ps2) qs)
| step_take feature token success err actions now c fs ps qs r c' fs'
    (Hrun : take_lease token (c, fs) = Some (r, (c', fs'))) :
    team_step (EvTake token) (mkSys c fs ps qs)
      (mkSys c' fs' ps (match r with
        | Ok l => mkFinish l feature (apply_report l now success err actions) None :: qs
        | Err _ => qs
        end))
| step_read qs1 l feature report qs2 c fs ps r c' fs'
    (Hrun : read_leased_team l (c, fs) = Some (r, (c', fs'))) :
    team_step EvRead (mkSys c fs ps (qs1 ++ mkFinish l feature report None :: qs2))
      (mkSys c' fs' ps (match r with
        | Ok st => qs1 ++ mkFinish l feature report (Some st) :: qs2
        | Err _ => qs1 ++ qs2
        end))
| step_report qs1 l feature report st qs2 fault c fs ps r c' fs'
    (Hrun : put_state (reported feature report st) fault (c, fs) = Some (r, (c', fs'))) :
    team_step EvReport (mkSys c fs ps (qs1 ++ mkFinish l feature report (Some st) :: qs2))
      (mkSys c' fs' ps (qs1 ++ qs2))
| step_files c fs ps qs fs' :
    team_step EvFiles (mkSys c fs ps qs) (mkSys c fs' ps qs).

Inductive team_steps : list team_event -> TeamSys -> TeamSys -> Prop :=
| steps_nil s : team_steps [] s s
| steps_cons e es s1 s2 s3 :
    team_step e s1 s2 -> team_steps es s2 s3 -> team_steps (e :: es) s1 s3.

(** A [finish_apply] that nothing interrupts is a sequence of these steps. *)
Lemma finish_apply_steps shared token success err actions now fault c fs ps qs r c' fs' :
  finish_apply shared token success err actions now fault (c, fs) = Some (r, (c', fs')) ->
  exists es, team_steps es (mkSys c fs ps qs) (mkSys c' fs' ps qs).
Proof.
  unfold finish_apply. cbv zeta. run_step.
  destruct (take_lease token (c, fs)) as [[rl [c1 fs1]]|] eqn:Et; [|done].
  pose proof (step_take (team_feature_enabled shared) token success err actions now
    c fs ps qs rl c1 fs1 Et) as Htake.
  destruct rl as [l|e]; [|intros [= <- <- <-]; eexists; by econstructor; [|constructor]].
  destruct (read_leased_team l (c1, fs1)) as [[rr [c2 fs2]]|] eqn:Er; [|done].
  pose proof (step_read [] l (team_feature_enabled shared)
    (apply_report l now success err actions) qs c1 fs1 ps rr c2 fs2 Er) as Hread.
  destruct rr as [st|e]; cbn [app] in Hread;
    [|intros [= <- <- <-]; eexists; econstructor; [done|]; by econstructor; [|constructor]].
  destruct (put_state _ fault (c2, fs2)) as [[rp [c3 fs3]]|] eqn:Ep; [|done].
  pose proof (step_report [] l (team_feature_enabled shared)
    (apply_report l now success err actions) st qs fault c2 fs2 ps rp c3 fs3 Ep) as Hput.
  cbn [app] in Hput. intros Hrun. assert (c3 = c' /\ fs3 = fs') as [-> ->].
  { destruct rp; by injection Hrun. }
  eexists. do 3 (econstructor; [done|]). constructor.
Qed.

(** Leases, stored states and the states that reports have read sit under the id of their
    team. *)
Definition controller_ok (c : TeamController) : Prop :=
  (forall id l, tc_leases c !! id = Some l -> lease_team_id l = id)
  /\ (forall id st, ts_inner (tc_store c) !! id = Some st -> team_id st = id).
Definition report_ok (q : FinishRequest) : Prop :=
  forall st, fin_state q = Some st -> team_id st = lease_team_id (fin_lease q).
Definition sys_ok (s : TeamSys) : Prop :=
  controller_ok (sys_controller s) /\ Forall report_ok (sys_reports s).

Lemma insert_keyed {A} (key : A -> string) (m : gmap string A) x :
  (forall k y, m !! k = Some y -> key y = k) ->
  forall k y, <[key x := x]> m !! k = Some y -> key y = k.
Proof. intros Hm k y [[<- <-]|[_ ?]]%lookup_insert_Some; auto. Qed.

Lemma Forall_middle {A} (P : A -> Prop) xs x ys :
  Forall P (xs ++ x :: ys) <-> P x /\ Forall P (xs ++ ys).
Proof. rewrite !Forall_app, Forall_cons. tauto. Qed.

Lemma team_step_ok e s s' : team_step e s s' -> sys_ok s -> sys_ok s'.
Proof.
  intros Hstep [[Hl Hs] Hq]. destruct Hstep; unfold sys_ok; cbn [sys_controller sys_reports] in *;
    [| | | | |done].
  - apply plan_inner_preserves in Hrun. unfold same_controller in Hrun. cbn in Hrun. by subst.
  - apply commit_plan_cases in Hrun as [[-> _]|(_ & st & Hid & _ & _ & _ & Hst & Hle)]; [done|].
    split; [|done]. split; [|rewrite Hst, <-Hid; by apply insert_keyed].
    destruct Hle as [[_ ->]|[_ ->]]; [done|].
    intros id l [[<- <-]|[_ ?]]%lookup_insert_Some; auto.
  - apply take_lease_cases in Hrun as [Hst [(-> & -> & _)|(id & l & _ & _ & Hdel & ->)]]; [done|].
    split; [|by constructor]. split; [|by rewrite Hst].
    rewrite Hdel. intros k l' [_ ?]%lookup_delete_Some. auto.
  - apply read_leased_team_cases in Hrun as [[= -> ->] Hr]. split; [done|].
    apply Forall_middle in Hq as [_ Hq].
    destruct (ts_inner (tc_store c) !! lease_team_id l) as [st|] eqn:Est; subst r; [|done].
    apply Forall_middle. split; [|done]. intros st' [= <-]. by apply Hs.
  - apply put_state_cases in Hrun as (Hle & Hput & _). apply Forall_middle in Hq as [_ Hq].
    split; [|done]. split; [by rewrite Hle|]. rewrite Hput. by apply insert_keyed.
Qed.

Lemma team_steps_ok es s s' : team_steps es s s' -> sys_ok s -> sys_ok s'.
Proof. induction 1 as [|e es s1 s2 s3 Hs _ IH]; [done|]. intros Hok. by eapply IH, team_step_ok. Qed.

(** The event cannot end the lease: it is no commit for its team at or after the expiry,
    and no report of it. *)
Definition within (l : TeamApplyLease) (e : team_event) : Prop :=
  match e with
  | EvCommit id now => id = lease_team_id l -> (now < lease_expiry l)%Z
  | EvTake token => token <> lease_token l
  | _ => True
  end.

Definition stored (id : string) (s : TeamSys) : option TeamReconfigureState :=
  ts_inner (tc_store (sys_controller s)) !! id.

(** A stored state without what reports write. *)
Definition committed (st : TeamReconfigureState) : TeamReconfigureState :=
  st <| feature_enabled := false |> <| last_apply := None |>.

(** No report of the team is under way. *)
Definition no_report (id : string) (s : TeamSys) : Prop :=
  Forall (fun q => lease_team_id (fin_lease q) <> id) (sys_reports s).

(** No report of the team has read a state that a commit has replaced since. *)
Definition up_to_date (id : string) (s : TeamSys) : Prop :=
  Forall (fun q => lease_team_id (fin_lease q) = id ->
    forall st, fin_state q = Some st -> Some (committed st) = committed <$> stored id s)
    (sys_reports s).

Lemma step_within id l e s s' :
  sys_ok s -> tc_leases (sys_controller s) !! id = Some l -> team_step e s s' -> within l e ->
  tc_leases (sys_controller s') !! id = Some l
  /\ (up_to_date id s -> up_to_date id s' /\ committed <$> stored id s' = committed <$> stored id s)
  /\ (no_report id s -> no_report id s' /\ stored id s' = stored id s).
Proof.
  intros [[Hkeyed Hstored] Hq] Hl Hstep Hin. unfold up_to_date, no_report, stored.
  destruct Hstep; cbn [sys_controller sys_reports within] in *; [| | | | |done].
  - apply plan_inner_preserves in Hrun. unfold same_controller in Hrun. cbn in Hrun. by subst.
  - apply commit_plan_cases in Hrun as [[-> _]|(Hfree & st & Hid & _ & _ & _ & -> & Hle)]; [done|].
    assert (id <> team_id (plan_state p)) as Hne.
    { intros ->. specialize (Hfree _ Hl). specialize (Hin (eq_sym (Hkeyed _ _ Hl))). lia. }
    rewrite lookup_insert_ne by done. split; [|done].
    destruct Hle as [[_ ->]|[_ ->]]; [done|]. by rewrite lookup_insert_ne.
  - apply take_lease_cases in Hrun as [-> [(-> & -> & _)|(k & l' & Hk & Htok & Hdel & ->)]]; [done|].
    assert (id <> k) as Hne by (intros ->; congruence).
    rewrite Hdel, lookup_delete_ne by done. split; [done|].
    rewrite !Forall_cons. cbn [fin_lease fin_state]. rewrite (Hkeyed _ _ Hk). naive_solver.
  - apply read_leased_team_cases in Hrun as [[= -> ->] Hr]. split; [done|].
    rewrite !Forall_middle. cbn [fin_lease fin_state].
    destruct (ts_inner (tc_store c) !! lease_team_id l0) as [st|] eqn:Est; subst r;
      rewrite ?Forall_middle; cbn [fin_lease fin_state]; [|naive_solver].
    split; [|done]. intros [_ Hup]. split; [|done]. split; [|done].
    intros <- st' [= <-]. by rewrite Est.
  - apply put_state_cases in Hrun as (-> & -> & _). split; [done|].
    rewrite !Forall_middle, reported_id. cbn [fin_lease fin_state].
    apply Forall_middle in Hq as [Hid%(fun H => H st eq_refl) _]. cbn [fin_lease] in Hid.
    rewrite Hid. destruct (decide (lease_team_id l0 = id)) as [->|Hne].
    + rewrite lookup_insert_eq. split; [|naive_solver]. intros [Hst Hup].
      specialize (Hst eq_refl st eq_refl).
      change (committed <$> Some (reported feature report st)) with (Some (committed st)).
      rewrite Hst. done.
    + rewrite lookup_insert_ne by done. naive_solver.
Qed.

(** C12: While a lease is alive - until it is reported finished or, once it has expired,
    another apply of its team commits - it stays the lease of its team whatever requests
    for any teams plan, commit, take their leases, read and write the store, in any
    interleaving of these steps, and whatever happens to the files.  The stored state of
    the team stays exactly as it is unless a report of an earlier lease of the team, which
    writes after it has given the lock of the leases back, is still under way; such a
    report changes nothing but the outcome it records and the feature flag, provided it
    had not read the state before the lease's commit.  (One that had puts the replaced
    state back: [late_report_reverts_the_next_apply].) *)
Theorem lease_protects_the_team dir store fs0 es0 s id l es s' :
  (forall k st, ts_inner store !! k = Some st -> team_id st = k) ->
  team_steps es0 (mkSys (team_controller_new dir store) fs0 [] []) s ->
  tc_leases (sys_controller s) !! id = Some l ->
  team_steps es s s' -> Forall (within l) es ->
  tc_leases (sys_controller s') !! id = Some l
  /\ (no_report id s -> stored id s' = stored id s)
  /\ (up_to_date id s -> committed <$> stored id s' = committed <$> stored id s).
Proof.
  intros Hstore Hreach Hl Hsteps Hin.
  assert (sys_ok s) as Hok by (eapply team_steps_ok; [done|]; by repeat split).
  clear Hreach. induction Hsteps as [|e es s1 s2 s3 Hs _ IH]; [done|].
  apply Forall_cons in Hin as [He Hin].
  destruct (step_within _ _ _ _ _ Hok Hl Hs He) as (Hl2 & Hup & Hno).
  destruct (IH Hl2 Hin (team_step_ok _ _ _ Hs Hok)) as (Hl3 & Hno3 & Hup3).
  split; [done|]. split.
  - intros [Hn <-]%Hno. by apply Hno3.
  - intros [Hu <-]%Hup. by apply Hup3.
Qed.

(** *** One request at a time *)

Definition stored_revision (base : string) (c : TeamController) : Z :=
  from_option revision 0%Z (ts_inner (tc_store c) !! base).
Definition stored_overlay (base : string) (c : TeamController) : TeamOverlay :=
  from_option overlay empty_team_overlay (ts_inner (tc_store c) !! base).

Lemma current_state_spec base feature c fs st s' :
  (forall k st, ts_inner (tc_store c) !! k = Some st -> team_id st = k) ->
  current_state env fuel base feature (c, fs) = Some (Ok st, s') ->
  s' = (c, fs) /\ team_id st = base /\ revision st = stored_revision base c
  /\ overlay st = stored_overlay base c.
Proof.
  intros Hkeyed Hrun. split.
  { by apply (current_state_preserves eq) in Hrun. }
  unfold current_state, stored_revision, stored_overlay in *. revert Hrun. run_step.
  unfold controller, team_store_get. cbn [fst].
  destruct (ts_inner (tc_store c) !! base) as [st0|] eqn:E.
  - specialize (Hkeyed _ _ E). intros [= <- _]. fsimpl.
    repeat case_match; fsimpl; by rewrite ?Hkeyed.
  - destruct (summarize_current_desired _ _ _ _) as [[[d|e] s1]|]; [|done..].
    by intros [= <- _].
Qed.

Lemma plan_inner_spec path rev changes feature now c fs p s' :
  (forall k st, ts_inner (tc_store c) !! k = Some st -> team_id st = k) ->
  plan_inner hash env fuel path rev changes feature now (c, fs) = Some (Ok p, s') ->
  exists base, canonical_config_path env path = Ok base
    /\ team_id (plan_state p) = base
    /\ (forall want, rev = Some want -> stored_revision base c = want)
    /\ plan_expected_revision p = stored_revision base c
    /\ revision (plan_state p) = i64_succ (stored_revision base c)
    /\ (exists w, apply_changes env fs base (stored_overlay base c) changes
                  = Ok (overlay (plan_state p), w))
    /\ s'.1 = c.
Proof.
  intros Hkeyed Hrun. pose proof (plan_inner_preserves _ _ _ _ _ _ _ _ Hrun) as Hsame.
  unfold same_controller in Hsame. cbn [fst] in Hsame. revert Hrun.
  unfold plan_inner. run_step.
  destruct (canonical_config_path env path) as [base|e]; [|done].
  destruct (current_state env fuel base feature (c, fs)) as [[[cur|e] s1]|] eqn:Ec; [|done..].
  apply current_state_spec in Ec as (-> & Hid & Hrev & Hov); [|done].
  match goal with |- match ?m with _ => _ end = _ -> _ =>
    assert (m = Some (Ok (), (c, fs)) /\ (forall want, rev = Some want -> revision cur = want)
            \/ exists e, m = Some (Err e, (c, fs))) as Hguard end.
  { destruct rev as [want|]; [|by left].
    destruct (revision cur =? want)%Z eqn:E; [left|right; by eexists].
    split; [done|]. intros want' [= <-]. lia. }
  destruct Hguard as [[-> Hwant]|[e ->]]; [|done].
  unfold load_config, load_team_tree, reading. cbn [snd].
  destruct (load env fs fuel _) as [[cfg|e]|]; [|done..].
  cbn [fmap option_fmap option_map map_err snd].
  destruct (load_tree env fs fuel _) as [[tree|e]|]; [|done..].
  cbn [fmap option_fmap option_map map_err snd].
  destruct (apply_changes env fs base (overlay cur) changes) as [[ov w]|e] eqn:Ea; [|done].
  destruct (materialize_state _ _ _ _ _ _ _ _) as [[[[[[ep de] nc] nt]|e] s2]|]; [|done..].
  intros [= <- ->]. exists base. cbn [plan_state plan_expected_revision]. fsimpl.
  rewrite <-Hrev, <-Hov. split_and!; try done. by exists w.
Qed.

(** A committed reconfiguration is exactly one step of its team: the feature flag is on,
    the expected revision was the stored one, no lease was alive, the changes applied to
    the stored overlay give the new one, the revision is the next one, only this team's
    state changes, the ticket carries what was stored and its lease lasts two minutes. *)
Theorem apply_is_one_revision shared path rev changes mode t0 now fault c fs tk c' fs' :
  controller_ok c ->
  begin_apply hash env fuel shared path rev changes mode t0 now fault (c, fs)
    = Some (Ok tk, (c', fs')) ->
  exists base, canonical_config_path env path = Ok base
  /\ let st := plan_state (tk_plan tk) in
     team_feature_enabled shared = true
     /\ (forall want, rev = Some want -> stored_revision base c = want)
     /\ (forall l, tc_leases c !! base = Some l -> (lease_expiry l <= now)%Z)
     /\ (exists w, apply_changes env fs base (stored_overlay base c) changes = Ok (overlay st, w))
     /\ revision st = i64_succ (stored_revision base c)
     /\ ts_inner (tc_store c') = <[base := st]> (ts_inner (tc_store c))
     /\ tk_reconcile_mode tk = default ArtifactsOnly mode
     /\ tc_leases c' = <[base := mkLease base (tk_token tk) now (now + TEAM_APPLY_LEASE_TTL)
                                   (tk_reconcile_mode tk)]> (tc_leases c).
Proof.
  intros [_ Hkeyed]. unfold begin_apply. cbv zeta.
  destruct (team_feature_enabled shared); [|done]. cbn [negb]. run_step.
  destruct (plan_inner _ _ _ _ _ _ _ _ _) as [[[p|e] [c1 fs1]]|] eqn:Ep; [|done..].
  apply plan_inner_spec in Ep as (base & Hb & Hid & Hwant & _ & Hrev & Hov & Hc); [|done].
  cbn [fst] in Hc. subst c1. intros Hrun. exists base. split; [done|].
  apply commit_plan_cases in Hrun as [[_ Hno]|(Hfree & st & Est & Erev & Eov & _ & Hst & Hle)];
    [done|]. rewrite Hid in *.
  destruct Hle as [[Hno _]|[Etk Hle]]; [done|]. injection Etk as ->.
  cbn [tk_plan tk_token tk_reconcile_mode]. fsimpl.
  split_and!; try done; [by rewrite Eov|by rewrite Erev].
Qed.

(** Reporting a reconfiguration releases its lease and records the report of that lease
    on the stored state, whose revision and overlay it keeps; a token that is no live
    lease's changes nothing; other teams are never touched. *)
Theorem finish_reports_the_lease shared token success err actions now fault c fs r c' fs' :
  controller_ok c ->
  finish_apply shared token success err actions now fault (c, fs : F) = Some (r, (c', fs')) ->
  ((forall id l, tc_leases c !! id = Some l -> lease_token l <> token)
   /\ r = Err (TokenNotFound token) /\ c' = c)
  \/ exists id l, tc_leases c !! id = Some l /\ lease_token l = token
     /\ tc_leases c' = delete id (tc_leases c)
     /\ (forall k, k <> id -> ts_inner (tc_store c') !! k = ts_inner (tc_store c) !! k)
     /\ stored_revision id c' = stored_revision id c
     /\ stored_overlay id c' = stored_overlay id c
     /\ (forall st, r = Ok st ->
           ts_inner (tc_store c') !! id = Some st
           /\ last_apply st = Some (apply_report l now success err actions)).
Proof.
  intros [Hkeyed Hstored] Hrun.
  apply finish_apply_cases in Hrun as [(-> & -> & Hno)|(id & l & Hl & Htok & Hdel & Hst)];
    [by left|right].
  exists id, l. rewrite (Hkeyed _ _ Hl) in Hst. unfold stored_revision, stored_overlay.
  destruct Hst as [(-> & _ & ->)|(st & Est & -> & Hr)]; [by split_and!|].
  rewrite (Hstored _ _ Est), lookup_insert_eq, Est. split_and!; try done.
  - intros k Hk. by rewrite lookup_insert_ne.
  - intros st' ->. destruct Hr as [[= ->]|[e ?]]; done.
Qed.

(** ** The file of the team states *)

Context `{!JsonCodecOk (list TeamReconfigureState)}.

Lemma foldl_insert_keyed (l : list TeamReconfigureState) (m : gmap string TeamReconfigureState) k :
  foldl (fun m s => <[team_id s := s]> m) m l !! k
  = match last (filter (fun s => team_id s = k) l) with Some s => Some s | None => m !! k end.
Proof.
  revert m. induction l as [|s l IH] using rev_ind; intros m; [done|].
  rewrite foldl_app, filter_app. cbn [foldl]. rewrite filter_cons, filter_nil.
  case_decide as Hk.
  - rewrite last_snoc, Hk. apply lookup_insert_eq.
  - rewrite app_nil_r, lookup_insert_ne by done. apply IH.
Qed.

Lemma reload_values (m : gmap string TeamReconfigureState) :
  (forall k st, m !! k = Some st -> team_id st = k) ->
  foldl (fun m s => <[team_id s := s]> m) ∅ (btree_values m) = m.
Proof.
  intros Hm. apply map_eq. intros k. rewrite foldl_insert_keyed.
  destruct (last _) as [s|] eqn:El.
  - apply last_Some_elem_of, list_elem_of_filter in El as [<- [k Hk]%elem_of_btree_values].
    by rewrite (Hm _ _ Hk).
  - rewrite lookup_empty. symmetry. apply eq_None_not_Some. intros [s Hs].
    apply last_None in El. assert (s ∈ filter (fun s => team_id s = k) (btree_values m)) as Hin.
    { apply list_elem_of_filter. split; [by apply Hm|]. apply elem_of_btree_values. eauto. }
    rewrite El in Hin. by apply not_elem_of_nil in Hin.
Qed.

(** A state that was put is read back, other teams keep theirs, and after a successful
    put a restart loads exactly the current states. *)
Theorem team_states_survive_restart st fault s :
  (forall k st, ts_inner s !! k = Some st -> team_id st = k) ->
  let r := (team_store_put st fault s).1 in
  let s' := (team_store_put st fault s).2 in
  team_store_get (team_id st) s' = Some st
  /\ (forall k, k <> team_id st -> team_store_get k s' = team_store_get k s)
  /\ (forall path, ts_path s = Some path -> r = Ok tt ->
        team_store_load path (Ok <$> ts_file s') = Ok s').
Proof.
  intros Hkeyed. cbv zeta. unfold team_store_get. rewrite put_inner.
  split_and!; [apply lookup_insert_eq|intros k Hk; by rewrite lookup_insert_ne|].
  intros path Hp. unfold team_store_put. cbv zeta. fsimpl. rewrite Hp.
  destruct (to_vec _) as [b|] eqn:Eb; [|done]. destruct fault; [done|]. intros _.
  cbn [snd]. unfold team_store_load. fsimpl. cbn [fmap option_fmap option_map].
  rewrite (proj2 (is_empty_false b) (to_vec_nonempty _ _ Eb)), (from_slice_to_vec _ _ Eb).
  rewrite reload_values by (by apply insert_keyed). cbn. by destruct s; cbn in *; rewrite Hp.
Qed.
End team_facts.
