(* ===== verification/WorkspaceExamples.v ===== *)
(** * Reconciling, dispatching and writing artifacts on concrete runs.

    The theorems of [ReconcileFacts], [DispatchFacts] and [Artifacts] on the file
    system of [ConfigFacts] and the server of [MemTmux], and the runs that show what
    the code does where their hypotheses fail. *)

From stdpp Require Import prelude strings list gmap fin_maps pretty.
From S2P Require Import TaskStore Queue Registry ErrorText SessionWorld TaskHelpers CodexFiles CodexFacts.
From S2P Require Import Prelude Act RustStr RustText Proto Concrete Wake SessionManager.
From S2P Require Import Paths ConfigSchema ConfigTree ConfigFacts.
From S2P Require Import Tmux Artifacts WorkspaceManager.
From S2P Require Import Reconcile ReconcileFacts Dispatch DispatchFacts.

(** ** A tmux server in memory, which keeps the contract [TmuxOk].

    The table of sessions, their history, and the set of sessions whose pane shows a
    prompt.  [clearb] decides [clear] on it. *)

Record MemTmux := mkMemTmux {
  mt_live : gmap string SessionRow;
  mt_log : list Event;
  mt_prompts : list string;
}.

Definition mt_names (t : MemTmux) : list string := (map_to_list (mt_live t)).*1.
Definition done_output : Output := mkOutput true "" "".
Definition failed_output : Output := mkOutput false "" "failed".

Definition mem_query (args : list string) (t : MemTmux) : result IoError Output :=
  match args with
  | "has-session" :: "-t" :: n :: _ =>
      Ok (mkOutput (bool_decide (is_Some (find_target (mt_names t) n))) "" "")
  | "list-sessions" :: _ => Ok (mkOutput true (rows_text (map_to_list (mt_live t))) "")
  | "capture-pane" :: "-t" :: n :: _ =>
      Ok (mkOutput true (if bool_decide (n ∈ mt_prompts t) then "$" else "working") "")
  | _ => Ok failed_output
  end.

Definition mem_run (args : list string) (t : MemTmux) : result IoError Output * MemTmux :=
  match args with
  | "new-session" :: "-d" :: "-s" :: n :: "-c" :: _ =>
      match mt_live t !! n with
      | Some _ => (Ok failed_output, t)
      | None => (Ok done_output,
                 mkMemTmux (<[n := mkSessionRow 0 1]> (mt_live t)) (mt_log t ++ [Created n]) (mt_prompts t))
      end
  | "kill-session" :: "-t" :: n :: _ =>
      match find_target (mt_names t) n with
      | None => (Ok failed_output, t)
      | Some s => (Ok done_output,
                   mkMemTmux (delete s (mt_live t)) (mt_log t ++ [Killed s]) (mt_prompts t))
      end
  | _ => (Ok done_output, t)
  end.

#[global] Instance MemTmux_ops : Tmux MemTmux := {| tmux_query := mem_query; tmux_run := mem_run |}.

#[global] Instance MemTmux_ok : TmuxOk MemTmux.
Proof.
  refine {| live := mt_live; log := mt_log |}.
  - intros t n _. reflexivity.
  - intros t out [= <-]. cbn [out_success]. by exists (map_to_list (mt_live t)).
  - intros t n dir rest r t' _. cbn [tmux_run MemTmux_ops new_session_args app mem_run].
    destruct (mt_live t !! n) eqn:E; intros [= <- <-]; [done|]. cbn [ran out_success done_output].
    split_and!; [done..|]. by exists 1%N.
  - intros t n r t' _. cbn [tmux_run MemTmux_ops mem_run]. fold (mt_names t).
    destruct (find_target (mt_names t) n) as [s|] eqn:E; intros [= <- <-]; [|done]. by exists s.
  - intros t n o v r t'. cbn [tmux_run MemTmux_ops mem_run]. by intros [= <- <-].
  - intros t n keys r t'. cbn [tmux_run MemTmux_ops mem_run send_keys_args app]. by intros [= <- <-].
Defined.

(** ** Deciding [clear] *)

Definition seen_names (names : list string) (t : MemTmux) : list string :=
  mt_names t ++ (session_name <$> names).

Definition tidyb (s : string) : bool :=
  negb (is_empty s) && forallb (fun a => bool_decide (graphic a) && negb (bool_decide (a = dot))) (bytes s).

Definition clearb (names : list string) (t : MemTmux) : bool :=
  forallb (fun n => bool_decide (ws_name n)) names
  && forallb tidyb (mt_names t)
  && forallb (fun n => forallb (fun s => negb (starts_with s (session_name n)) || String.eqb s (session_name n))
                         (seen_names names t)) names.

Lemma clearb_sound names t : clearb names t = true -> clear (list_to_set names) t.
Proof.
  unfold clearb. rewrite !andb_true_iff, !forallb_forall. intros [[Hn Hv] Hc].
  assert (forall s, is_Some (live t !! s) -> List.In s (mt_names t)) as Hin.
  { intros s Hs. apply list_elem_of_In. exact (proj2 (elem_of_live_names t s) Hs). }
  split_and!.
  - intros n Hs. apply elem_of_list_to_set, list_elem_of_In in Hs. apply Hn in Hs.
    by apply bool_decide_eq_true in Hs.
  - intros s Hs. apply Hin, Hv in Hs. unfold tidyb in Hs. apply andb_true_iff in Hs as [H1 H2].
    rewrite forallb_forall in H2. repeat split.
    + intros ->. done.
    + apply Forall_forall. intros a Ha. apply list_elem_of_In, H2, andb_true_iff in Ha as [Ha _].
      by apply bool_decide_eq_true in Ha.
    + intros Hd. apply list_elem_of_In, H2, andb_true_iff in Hd as [_ Hd].
      by rewrite bool_decide_true in Hd.
  - intros n s Hs Hlive Hp. apply elem_of_list_to_set, list_elem_of_In in Hs.
    specialize (Hc n Hs). rewrite forallb_forall in Hc.
    assert (List.In s (seen_names names t)) as Hseen.
    { apply in_or_app. destruct Hlive as [Hl|(m & Hm & ->)]; [left; by apply Hin|right].
      apply in_map. by apply list_elem_of_In, (elem_of_list_to_set (C := gset string)). }
    apply Hc in Hseen. rewrite Hp in Hseen. by apply String.eqb_eq.
Qed.

(** ** The outside world *)

#[global] Instance MemFs_artifacts : ArtifactFs MemFs := {
  fs_read_to_string := fs_read;
  fs_remove_file fs path :=
    match mem_lookup fs path with
    | Some _ => Ok (List.filter (fun kv => negb (bool_decide (kv.1 = components path))) fs)
    | None => Err IoNotFound
    end;
  fs_remove_dir_all fs _ := Err IoNotFound;
  fs_remove_dir fs _ := Err IoNotFound;
  fs_read_dir_count fs _ := Err IoNotFound;
}.

Lemma mem_lookup_filter fs path :
  mem_lookup (List.filter (fun kv => negb (bool_decide (kv.1 = components path))) fs) path = None.
Proof.
  unfold mem_lookup. induction fs as [|kv fs IH]; [done|]. cbn [List.filter].
  destruct (bool_decide (kv.1 = components path)) eqn:E; cbn [negb]; [done|].
  cbn [List.find]. by rewrite E.
Qed.

#[global] Instance MemFs_artifacts_ok : ArtifactFsOk MemFs.
Proof.
  split.
  - intros fs path text fs'. apply fs_read_write.
  - intros fs path fs'. cbn [fs_remove_file MemFs_artifacts fs_read_to_string fs_read MemFs_ops].
    destruct (mem_lookup fs path); [|done]. intros [= <-]. by rewrite mem_lookup_filter.
  - intros fs path. cbn [fs_remove_file MemFs_artifacts fs_read_to_string fs_read MemFs_ops].
    by destruct (mem_lookup fs path).
Qed.

#[global] Instance MemFs_codex : CodexHome MemFs := {
  prepare_codex_home name _ _ _ _ := mret name;
  remove_codex_home _ _ := mret tt;
}.
#[global] Instance MemFs_prompts : Prompts MemFs := {
  orchestrator_prompt node prefix parent := "prompt of " +:+ prefix;
  prompt_text _ node prefix parent _ := "prompt of " +:+ prefix;
}.
(** The text of [.mcp.json] does not matter to the sessions. *)
Definition OpaqueMcp : JsonCodec McpConfig := {| to_vec _ := Some "{}"; from_slice _ := None |}.

Definition plain_hash (s : string) : string := s.

(** ** A state to reconcile *)

Definition kid_node : ProjectNode := mkProjectNode "kid" "kid" "kid" "/p/kid" "" false [] [].
Definition demo_tree : ProjectNode := mkProjectNode "demo" "" "" "/p" "" false [] [kid_node].
Definition alpha_beta : Config :=
  default_config <| workspaces := {[ "alpha" := ws "/p/alpha"; "beta" := ws "/p/beta" ]} |>.

Definition ok_or {E A} (d : A) (r : result E A) : A := match r with Ok a => a | Err _ => d end.
Definition no_desired : DesiredState := mkDesiredState "" "" ∅ ∅ ∅ 0.
Definition demo_desired : DesiredState :=
  ok_or no_desired (build_desired_state_with_tree plain_hash demo_env alpha_beta demo_tree
                      "/run/ax.sock" root_path true).

Definition demo_self : Reconciler := mkReconciler "/run/ax.sock" root_path "/bin/ax".
Definition all_allowed : ReconcileOptions := mkReconcileOptions true true.

(** The records of the examples by name, as for the configs. *)
Definition demo_settled : RuntimeState := settled plain_hash demo_desired.
Definition record_table : list (string * RuntimeState) := [("settled", demo_settled)].
#[global] Instance RuntimeState_eq_dec : EqDecision RuntimeState.
Proof. solve_decision. Defined.
Definition DemoRecords : JsonCodec RuntimeState := {|
  to_vec r := fst <$> List.find (fun e => bool_decide (e.2 = r)) record_table;
  from_slice s := snd <$> List.find (fun e => String.eqb (e.1 +:+ newline) s) record_table;
|}.
#[local] Existing Instances OpaqueMcp DemoRecords.

#[global] Instance DemoRecordsOk : JsonFileOk RuntimeState.
Proof.
  split. intros a s Hs. change (fst <$> List.find (fun e => bool_decide (e.2 = a)) record_table = Some s) in Hs.
  change (snd <$> List.find (fun e => String.eqb (e.1 +:+ newline) (s +:+ newline)) record_table = Some a).
  destruct (List.find _ record_table) as [e|] eqn:E; [|done].
  cbn [fmap option_fmap option_map] in Hs. injection Hs as <-.
  apply List.find_some in E as [Hin Ha]. apply bool_decide_eq_true in Ha as <-.
  destruct Hin as [<-|[]]. cbn [List.find record_table fst snd]. by rewrite String.eqb_refl.
Qed.

(** [alpha] is attached and busy, [beta] idle, the others away. *)
Definition busy_tmux : MemTmux :=
  mkMemTmux {[ "ax-alpha" := mkSessionRow 1 1; "ax-beta" := mkSessionRow 0 1; "mail" := mkSessionRow 1 3 ]}
    [] ["ax-beta"].
Definition busy_world : World MemFs MemTmux := mkWorld [] busy_tmux.
Definition calm_world : World MemFs MemTmux := mkWorld [] (mkMemTmux ∅ [] []).

Definition demo_names : list string := ["alpha"; "beta"; "orchestrator"; "kid.orchestrator"].

Lemma names_of previous (t : MemTmux) :
  bool_decide (desired_session_names previous demo_desired ⊆ list_to_set demo_names) = true ->
  clearb demo_names t = true -> clear (desired_session_names previous demo_desired) t.
Proof.
  intros Hs%bool_decide_eq_true Hc%clearb_sound. by eapply clear_subset.
Qed.

Lemma demo_desired_ok : desired_ok demo_desired.
Proof.
  unfold demo_desired. destruct (build_desired_state_with_tree _ _ _ _ _ _ _) as [d|err] eqn:E.
  - by apply build_desired_spec in E as [? _].
  - intros n e He. cbn in He. by rewrite lookup_empty in He.
Qed.

Definition is_none {A} (o : option A) : bool := match o with None => true | Some _ => false end.
Lemma separateb_sound desired previous :
  forallb (fun n => is_none (ds_orchestrators desired !! n) && is_none (rs_orchestrators previous !! n))
    (btree_keys (ds_workspaces desired)) = true -> separate desired previous.
Proof.
  intros Hall n Hn. rewrite forallb_forall in Hall.
  apply elem_of_btree_keys, list_elem_of_In, Hall, andb_true_iff in Hn as [H1 H2].
  by destruct (ds_orchestrators desired !! n), (rs_orchestrators previous !! n).
Qed.

Lemma reconcile_spares_sessions_witness :
  let w' := (reconcile_desired_state demo_env plain_hash demo_self demo_desired all_allowed busy_world).2 in
  log (tmux w') = [Killed "ax-beta"; Created "ax-beta"; Created "ax-kid_orchestrator"]
  /\ session "alpha" (tmux w') = Some (mkSessionRow 1 1).
Proof.
  split; [vm_compute; reflexivity|].
  destruct (reconcile_spares_sessions demo_env plain_hash demo_self demo_desired all_allowed
    new_runtime_state busy_world) as [_ Hkeep].
  - vm_compute. reflexivity.
  - apply names_of; vm_compute; reflexivity.
  - exact demo_desired_ok.
  - apply Hkeep; [vm_compute; reflexivity|reflexivity|by right; left].
Defined.

Lemma reconcile_starts_everything_witness :
  exists report w',
    reconcile_desired_state demo_env plain_hash demo_self demo_desired all_allowed calm_world = (Ok report, w')
    /\ is_Some (session "alpha" (tmux w')) /\ is_Some (session "kid.orchestrator" (tmux w')).
Proof.
  set (out := reconcile_desired_state demo_env plain_hash demo_self demo_desired all_allowed calm_world).
  assert (is_ok out.1 = true) as Hok by (vm_compute; reflexivity).
  destruct out as [[report|e] w'] eqn:E; [|discriminate Hok]. exists report, w'. split; [reflexivity|].
  destruct (reconcile_starts_everything demo_env plain_hash demo_self demo_desired all_allowed
    new_runtime_state calm_world report w') as [Ho Hw].
  - vm_compute. reflexivity.
  - apply names_of; vm_compute; reflexivity.
  - exact demo_desired_ok.
  - reflexivity.
  - exact E.
  - split.
    + apply Hw; [|vm_compute; by eexists]. apply separateb_sound. vm_compute. reflexivity.
    + destruct (ds_orchestrators demo_desired !! "kid.orchestrator") as [entry|] eqn:Ee; [|vm_compute in Ee; discriminate Ee].
      apply (Ho _ entry Ee). vm_compute in Ee. injection Ee as <-. reflexivity.
Defined.

Lemma reconcile_settles_witness :
  exists report w',
    reconcile_desired_state demo_env plain_hash demo_self demo_desired all_allowed calm_world = (Ok report, w')
    /\ let out := reconcile_desired_state demo_env plain_hash demo_self demo_desired all_allowed w' in
       is_ok out.1 = true /\ log (tmux out.2) = log (tmux w')
       /\ forall report2, out.1 = Ok report2 -> report2 = empty_report.
Proof.
  set (out1 := reconcile_desired_state demo_env plain_hash demo_self demo_desired all_allowed calm_world).
  assert (is_ok out1.1 = true) as Hok by (vm_compute; reflexivity).
  assert (is_ok (reconcile_desired_state demo_env plain_hash demo_self demo_desired all_allowed out1.2).1
    = true) as Hok2 by (vm_compute; reflexivity).
  assert (forallb (fun a => negb (starts_with (ra_operation a) "blocked_"))
    (actions (ok_or empty_report out1.1)) = true) as Hq by (vm_compute; reflexivity).
  destruct out1 as [[report|e] w'] eqn:E; [|discriminate Hok]. exists report, w'. split; [reflexivity|].
  cbn [fst snd ok_or] in Hok2, Hq.
  destruct (reconcile_settles demo_env plain_hash demo_self demo_desired all_allowed
    new_runtime_state calm_world report w') as (_ & Hlog & Hrep).
  - vm_compute. reflexivity.
  - apply names_of; vm_compute; reflexivity.
  - exact demo_desired_ok.
  - apply separateb_sound. vm_compute. reflexivity.
  - exact E.
  - apply Forall_forall. intros a Ha. rewrite forallb_forall in Hq.
    apply list_elem_of_In, Hq, negb_true_iff in Ha. exact Ha.
  - split; [exact Hok2|]. split; [exact Hlog|exact Hrep].
Defined.

(** ** Lifecycle requests and dispatch on a project that loads *)

Definition demo_fuel : nat := 5.
Definition live_world (t : MemTmux) : World MemFs MemTmux := mkWorld demo_fs t.

Definition loaded_tree : ProjectNode :=
  match load_tree demo_env demo_fs demo_fuel root_path with Some (Ok t) => t | _ => demo_tree end.
Definition loaded_config : Config :=
  match load demo_env demo_fs demo_fuel root_path with Some (Ok c) => c | _ => default_config end.
Definition loaded_desired : DesiredState :=
  ok_or no_desired (desired_state_of demo_env plain_hash "/run/ax.sock" root_path loaded_config loaded_tree).

Lemma demo_loads t :
  loads demo_env plain_hash demo_fuel "/run/ax.sock" root_path (live_world t) loaded_tree loaded_desired.
Proof.
  exists loaded_config. split; [|split].
  - change (files (live_world t)) with demo_fs. vm_compute. reflexivity.
  - change (files (live_world t)) with demo_fs. vm_compute. reflexivity.
  - vm_compute. reflexivity.
Qed.

Lemma clear_one n (t : MemTmux) : clearb [n] t = true -> clear {[n]} t.
Proof. intros H%clearb_sound. eapply clear_subset, H. set_solver. Qed.

Lemma targets_resolve_uniquely_witness :
  exists ws, resolve_lifecycle_target demo_env plain_hash demo_fuel "/run/ax.sock" root_path " kid.w "
               (live_world busy_tmux)
    = Some (Ok (mkResolvedLifecycleTarget (mkLifecycleTarget "kid.w" TargetWorkspace true) (inl ws)),
            live_world busy_tmux).
Proof.
  destruct (targets_resolve_uniquely (T := MemTmux) demo_env plain_hash demo_fuel "/run/ax.sock" root_path
    root_path (live_world busy_tmux) loaded_tree loaded_desired " kid.w ")
    as [(_ & _ & Hws)|[(Hno & _)|(Hno & _)]].
  - exact demo_env_ok.
  - exact demo_named.
  - exact demo_countable.
  - reflexivity.
  - by eexists.
  - apply demo_loads.
  - vm_compute. discriminate.
  - exact Hws.
  - exfalso. apply Hno. apply (bool_decide_unpack _). vm_compute. exact I.
  - exfalso. apply Hno. apply (bool_decide_unpack _). vm_compute. exact I.
Defined.

Lemma control_refines_one_session_witness :
  exists r w', control_named_target demo_env plain_hash demo_fuel "/run/ax.sock" root_path "/bin/ax" "beta" Stop
                 (live_world busy_tmux) = Some (r, w')
    /\ is_ok r = true /\ running "beta" (tmux w') = false /\ trace (about "beta") busy_tmux (tmux w')
    /\ trace (aimed "beta") busy_tmux (tmux w').
Proof.
  destruct (control_refines_one_session (T := MemTmux) demo_env plain_hash demo_fuel "/run/ax.sock" root_path
    "/bin/ax" (live_world busy_tmux) loaded_tree loaded_desired "beta" Stop)
    as (r & w' & E & Haimed & Hone).
  - apply demo_loads.
  - vm_compute. discriminate.
  - left. split; [vm_compute; by eexists|vm_compute; reflexivity].
  - apply (bool_decide_unpack _). vm_compute. exact I.
  - destruct (Hone ltac:(apply clear_one; vm_compute; reflexivity)) as [(Htrace & Hok & _) _].
    exists r, w'. split; [exact E|].
    assert (is_ok r = true) as Hr.
    { assert (match control_named_target demo_env plain_hash demo_fuel "/run/ax.sock" root_path "/bin/ax"
        "beta" Stop (live_world busy_tmux) with Some (r, _) => is_ok r | None => false end = true) as Hc
        by (vm_compute; reflexivity).
      rewrite E in Hc. exact Hc. }
    split; [exact Hr|]. split; [|split; [exact Htrace|exact Haimed]].
    specialize (Hok Hr). assert (running "beta" busy_tmux = true) as Hrun by (vm_compute; reflexivity).
    change (tmux (live_world busy_tmux)) with busy_tmux in Hok.
    change (trim "beta") with "beta" in Hok. rewrite Hrun in Hok. cbn in Hok. congruence.
Defined.

Lemma spawns_respect_the_cap_witness :
  (exists r w', ensure_dispatch_target demo_env plain_hash demo_fuel "/run/ax.sock" root_path "/bin/ax"
                  "kid.w" false (live_world busy_tmux) = Some (r, w')
     /\ within_cap loaded_desired (live_world busy_tmux) w' /\ ax_count (tmux w') = 3)
  /\ exists r w', control_named_target demo_env plain_hash demo_fuel "/run/ax.sock" root_path "/bin/ax"
                  "kid.w" Start (live_world busy_tmux) = Some (r, w')
     /\ within_cap loaded_desired (live_world busy_tmux) w'.
Proof.
  destruct (spawns_respect_the_cap (T := MemTmux) demo_env plain_hash demo_fuel "/run/ax.sock" root_path
    "/bin/ax" (live_world busy_tmux) loaded_tree loaded_desired "kid.w" false) as [Hd Hc].
  - apply demo_loads.
  - vm_compute. discriminate.
  - apply clear_one. vm_compute. reflexivity.
  - vm_compute. reflexivity.
  - vm_compute. reflexivity.
  - split.
    + destruct Hd as (r & w' & E & Hw). exists r, w'. split; [exact E|]. split; [exact Hw|].
      assert (match ensure_dispatch_target demo_env plain_hash demo_fuel "/run/ax.sock" root_path "/bin/ax"
        "kid.w" false (live_world busy_tmux) with Some (_, w) => ax_count (tmux w) | None => 0 end = 3) as Hn
        by (vm_compute; reflexivity).
      rewrite E in Hn. exact Hn.
    + apply Hc. left. split; [vm_compute; by eexists|vm_compute; reflexivity].
Defined.

(** ** Where the hypotheses fail *)

(** The encoding of names is not reversible: the session of a workspace with an
    underscore is listed under another name, so a pass takes it for missing and kills it
    although it is attached. *)
Definition underscore_desired : DesiredState :=
  build_desired_state plain_hash (default_config <| workspaces := {[ "my_ws" := ws "/p/my" ]} |>)
    "/run/ax.sock" root_path.
Definition underscore_tmux : MemTmux := mkMemTmux {[ "ax-my_ws" := mkSessionRow 1 1 ]} [] [].

Example underscore_session_is_killed :
  load_session_snapshots {["my_ws"]} underscore_tmux = Ok ∅
  /\ log (tmux (reconcile_desired_state demo_env plain_hash demo_self underscore_desired all_allowed
                  (mkWorld [] underscore_tmux)).2)
     = [Killed "ax-my_ws"; Created "ax-my_ws"].
Proof. split; vm_compute; reflexivity. Qed.

(** tmux takes a prefix for a target: stopping a workspace that does not run kills the
    session of another whose name it begins. *)
Example stop_kills_a_longer_name :
  (fun out => (is_ok out.1, log (tmux out.2))) <$>
    control_named_target demo_env plain_hash demo_fuel "/run/ax.sock" root_path "/bin/ax" "beta" Stop
      (live_world (mkMemTmux {[ "ax-betamax" := mkSessionRow 1 1 ]} [] []))
  = Some (true, [Killed "ax-betamax"]).
Proof. vm_compute. reflexivity. Qed.

(** The column tmux prints is the number of clients. *)
Example two_clients_count_as_detached :
  si_attached <$> parse_session_row "ax-alpha 2 1" = Some false.
Proof. vm_compute. reflexivity. Qed.

(** Restarting a target that does not run opens a session without asking for room. *)
Definition full_tmux : MemTmux :=
  mkMemTmux (list_to_map ((fun n : N => ("ax-s" +:+ pretty n, mkSessionRow 0 1))
    <$> (N.of_nat <$> seq 0 (Z.to_nat (ds_max_concurrent_agents loaded_desired))))) [] [].
Example restart_ignores_the_cap :
  Z.of_nat (ax_count full_tmux) = ds_max_concurrent_agents loaded_desired
  /\ (fun out => (is_ok out.1, Z.of_nat (ax_count (tmux out.2)))) <$>
       control_named_target demo_env plain_hash demo_fuel "/run/ax.sock" root_path "/bin/ax" "kid.w" Restart
         (live_world full_tmux)
     = Some (true, (ds_max_concurrent_agents loaded_desired + 1)%Z).
Proof. split; vm_compute; reflexivity. Qed.

(** A workspace that takes the name of an orchestrator of the previous pass is started
    by the first loop and killed by the last. *)
Definition renamed_previous : RuntimeState :=
  new_runtime_state <| rs_orchestrators := {[ "old" := mkOrchestratorState "old" "/p/.ax/orchestrator" "claude" "" "" true false ]} |>.
Definition renamed_desired : DesiredState :=
  build_desired_state plain_hash (default_config <| workspaces := {[ "old" := ws "/p/old" ]} |>)
    "/run/ax.sock" root_path.
Example reused_name_ends_stopped :
  let out := run_pass demo_env plain_hash demo_self renamed_desired all_allowed renamed_previous ∅ false
               (first_record renamed_desired, empty_report) calm_world in
  is_ok out.1 = true /\ log (tmux out.2) = [Created "ax-old"; Killed "ax-old"].
Proof. split; vm_compute; reflexivity. Qed.

(** Two steps up are no steps. *)
Example double_parent_is_here : normalize_path "../.." = "." /\ normalize_path "../../x" = "x".
Proof. split; vm_compute; reflexivity. Qed.

(** The suffixes that end in a blank are compared with a trimmed line. *)
Example shell_prompt_is_not_idle :
  pane_looks_idle "me@host:~$ " = false /\ pane_looks_idle "$ " = true.
Proof. split; vm_compute; reflexivity. Qed.

(** ** Generated files on concrete texts: the theorems of [Artifacts], and what happens
    to a file with a stray marker or an unreadable table of servers. *)

(** ** Instructions *)

Definition notes_path : string := "/p/alpha/CLAUDE.md".
Definition notes_fs : MemFs := [(components notes_path, "My notes." +:+ newline)].

Lemma demo_section_ok name : is_section (AX_MARKER_START +:+ newline +:+ name +:+ newline +:+ AX_MARKER_END) \/ ~ unmarked name.
Proof.
  destruct (find name AX_MARKER_END) eqn:E; [right; intros [_ ?]; congruence|left].
  exists (newline +:+ name +:+ newline). split; [by rewrite !string_cat_assoc|].
  destruct AX_MARKER_END as [|a p] eqn:Em; [done|].
  rewrite find_pass by (injection Em as <- _; apply (bool_decide_unpack _); vm_compute; exact I).
  assert (seam (String a p) newline = true) as Hs by (rewrite <-Em; vm_compute; reflexivity).
  pose proof (find_seam (String a p) newline name "" Hs E) as Hf.
  change (newline +:+ "") with newline in Hf. rewrite Hf, <-Em. reflexivity.
Qed.

(** The section the code renders is one, whatever its length. *)
Lemma rendered_section_ok : is_section (ax_section "alpha" "Be brief.").
Proof.
  exists (newline +:+ "## ax workspace: " +:+ "alpha" +:+ newline +:+ newline
          +:+ managed_workspace_instructions "Be brief." +:+ newline).
  split; [unfold ax_section; by rewrite !string_cat_assoc|]. vm_compute. reflexivity.
Qed.

Lemma instructions_round_trip_witness :
  exists fs1 fs2,
    write_section notes_path (ax_section "alpha" "Be brief.") notes_fs = (Ok tt, fs1)
    /\ strip_managed_section notes_path fs1 = (Ok tt, fs2)
    /\ fs_read_to_string fs2 notes_path = Ok ("My notes." +:+ newline).
Proof.
  set (out1 := write_section notes_path (ax_section "alpha" "Be brief.") notes_fs).
  set (out2 := strip_managed_section notes_path out1.2).
  assert (is_ok out1.1 = true) as Hok1 by (vm_compute; reflexivity).
  assert (is_ok out2.1 = true) as Hok2 by (vm_compute; reflexivity).
  destruct out1 as [[[]|e] fs1] eqn:E1; [|discriminate Hok1]. cbn [snd] in out2.
  destruct out2 as [[[]|e] fs2] eqn:E2; [|discriminate Hok2].
  exists fs1, fs2. split; [reflexivity|]. split; [exact E2|].
  destruct (instructions_round_trip notes_path (ax_section "alpha" "Be brief.")
    (ax_section "alpha" "Be brief.") notes_fs fs1) as [_ Hstrip].
  - split; vm_compute; reflexivity.
  - exact rendered_section_ok.
  - exact rendered_section_ok.
  - exact E1.
  - rewrite (Hstrip fs2 E2). vm_compute. reflexivity.
Defined.

(** ** Servers *)

Definition mail_servers : McpConfig :=
  mkMcpConfig {[ "mail" := mkMcpServerEntry "mail-mcp" [] ]}.
Definition with_ax : McpConfig :=
  mkMcpConfig (<[AX_SERVER_KEY := mkMcpServerEntry "/bin/ax" (mcp_server_args "alpha" "/run/ax.sock" None)]>
    (mcp_servers mail_servers)).
Definition only_ax : McpConfig :=
  mkMcpConfig (<[AX_SERVER_KEY := mkMcpServerEntry "/bin/ax" (mcp_server_args "alpha" "/run/ax.sock" None)]> ∅).
Definition server_table : list (string * McpConfig) :=
  [("mail", mail_servers); ("mail and ax", with_ax); ("ax", only_ax)].

#[global] Instance McpServerEntry_eq_dec : EqDecision McpServerEntry.
Proof. solve_decision. Defined.
#[global] Instance McpConfig_eq_dec : EqDecision McpConfig.
Proof. solve_decision. Defined.

Definition TableMcp : JsonCodec McpConfig := {|
  to_vec c := fst <$> List.find (fun e => bool_decide (e.2 = c)) server_table;
  from_slice s := snd <$> List.find (fun e => String.eqb (e.1 +:+ newline) s) server_table;
|}.
#[local] Existing Instance TableMcp.
#[global] Instance TableMcpOk : JsonFileOk McpConfig.
Proof.
  split. intros c s Hs. change (fst <$> List.find (fun e => bool_decide (e.2 = c)) server_table = Some s) in Hs.
  change (snd <$> List.find (fun e => String.eqb (e.1 +:+ newline) (s +:+ newline)) server_table = Some c).
  destruct (List.find (fun e => bool_decide (e.2 = c)) server_table) as [e|] eqn:E; [|done].
  cbn [fmap option_fmap option_map] in Hs. injection Hs as <-.
  apply List.find_some in E as [Hin Hc]. apply bool_decide_eq_true in Hc as <-.
  destruct Hin as [<-|[<-|[<-|[]]]]; reflexivity.
Qed.

Definition servers_fs : MemFs := [(components "/p/alpha/.mcp.json", "mail" +:+ newline)].

Lemma mcp_servers_survive_witness :
  exists fs1 fs2,
    write_mcp_config "/p/alpha" "alpha" "/run/ax.sock" None "/bin/ax" servers_fs = (Ok tt, fs1)
    /\ remove_mcp_config "/p/alpha" fs1 = (Ok tt, fs2)
    /\ servers_of fs2 "/p/alpha" = mcp_servers mail_servers.
Proof.
  set (out1 := write_mcp_config "/p/alpha" "alpha" "/run/ax.sock" None "/bin/ax" servers_fs).
  set (out2 := remove_mcp_config "/p/alpha" out1.2).
  assert (is_ok out1.1 = true) as Hok1 by (vm_compute; reflexivity).
  assert (is_ok out2.1 = true) as Hok2 by (vm_compute; reflexivity).
  destruct out1 as [[[]|e] fs1] eqn:E1; [|discriminate Hok1]. cbn [snd] in out2.
  destruct out2 as [[[]|e] fs2] eqn:E2; [|discriminate Hok2].
  exists fs1, fs2. split; [reflexivity|]. split; [exact E2|].
  destruct (mcp_servers_survive "/p/alpha" "alpha" "/run/ax.sock" None "/bin/ax" servers_fs fs1 E1) as [_ Hrem].
  destruct (Hrem fs2 E2) as [-> _]. vm_compute. reflexivity.
Defined.

(** ** Stray markers and unreadable servers *)

(** A start marker without its end: the first write appends a section, the second
    replaces everything from the stray marker on, the user's text included. *)
Example stray_start_marker_loses_text :
  let file := AX_MARKER_START +:+ " kept by the user" in
  let section := AX_MARKER_START +:+ "s" +:+ AX_MARKER_END in
  splice_managed_section (splice_managed_section file section) section = section +:+ newline.
Proof. vm_compute. reflexivity. Qed.

(** An end marker before the start: every write repeats the text between them. *)
Example reversed_markers_grow :
  let file := AX_MARKER_END +:+ "text" +:+ AX_MARKER_START in
  let section := AX_MARKER_START +:+ "s" +:+ AX_MARKER_END in
  splice_managed_section file section
  = AX_MARKER_END +:+ "text" +:+ section +:+ "text" +:+ AX_MARKER_START.
Proof. vm_compute. reflexivity. Qed.

(** A table the code cannot read, such as one with a server that has a URL and no
    command, is replaced by one with the [ax] server alone. *)
Example unreadable_servers_are_replaced :
  let fs := [(components "/p/alpha/.mcp.json", "a table with a URL server")] in
  match write_mcp_config "/p/alpha" "alpha" "/run/ax.sock" None "/bin/ax" fs with
  | (Ok _, fs1) => fs_read fs1 "/p/alpha/.mcp.json" = Ok ("ax" +:+ newline)
  | _ => False
  end.
Proof. vm_compute. reflexivity. Qed.

(** ** The daemon's session interface on concrete runs.

    The theorems of [SessionWorld] on the project of [ConfigFacts] and the tmux
    server of [MemTmux]. *)

#[global] Instance DemoSysText : SysText := {|
  io_error_text e := match e with IoNotFound => "not found" | IoOther msg => msg end;
  json_error_text := "json";
|}.
#[local] Existing Instance OpaqueMcp.

Lemma agent_lifecycle_is_truthful_witness :
  (exists r w', agent_lifecycle_request demo_env plain_hash "/run/ax.sock" "/bin/ax" demo_fuel root_path
                  " beta " Stop (live_world busy_tmux) = Some (r, w')
     /\ exists resp, r = Ok resp /\ truthful Stop "beta" (live_world busy_tmux) resp w')
  /\ exists e, agent_lifecycle_request demo_env plain_hash "/run/ax.sock" "/bin/ax" demo_fuel root_path
                 "orchestrator" Stop (live_world busy_tmux) = Some (Err e, live_world busy_tmux).
Proof.
  split.
  - destruct (agent_lifecycle_is_truthful (T := MemTmux) demo_env plain_hash "/run/ax.sock" "/bin/ax"
      demo_fuel root_path (live_world busy_tmux) loaded_tree loaded_desired " beta " Stop) as [Hm _].
    + apply demo_loads.
    + vm_compute. discriminate.
    + apply clear_one. vm_compute. reflexivity.
    + destruct Hm as (r & w' & E & _ & Hr & _).
      * left. split; [vm_compute; by eexists|vm_compute; reflexivity].
      * exists r, w'. split; [exact E|].
        assert (match agent_lifecycle_request demo_env plain_hash "/run/ax.sock" "/bin/ax" demo_fuel
          root_path " beta " Stop (live_world busy_tmux) with Some (r, _) => is_ok r | None => false end
          = true) as Hok by (vm_compute; reflexivity).
        rewrite E in Hok. destruct r as [resp|e]; [|discriminate Hok].
        exists resp. split; [reflexivity|]. exact (Hr resp eq_refl).
  - destruct (agent_lifecycle_is_truthful (T := MemTmux) demo_env plain_hash "/run/ax.sock" "/bin/ax"
      demo_fuel root_path (live_world busy_tmux) loaded_tree loaded_desired "orchestrator" Stop) as [_ Hu].
    + apply demo_loads.
    + vm_compute. discriminate.
    + apply clear_one. vm_compute. reflexivity.
    + apply Hu; [vm_compute; reflexivity|]. intros o Ho. vm_compute in Ho. injection Ho as <-. reflexivity.
Defined.

(** [beta] and [alpha] are registered and past their timeout; [alpha] has a message. *)
Definition idle_registry : Registry :=
  (register_with_idle "beta" "/p/beta" "" root_path (secs 60) (secs 1)
    (register_with_idle "alpha" "/p/alpha" "" root_path (secs 60) (secs 1) registry_new).2).2.
Definition alpha_mail : MessageQueue :=
  (enqueue (mkMessage "m1" "beta" "alpha" "hello" "" (secs 2)) "u1" (secs 2) queue_new).2.
Definition quiet_tmux : MemTmux :=
  mkMemTmux {[ "ax-alpha" := mkSessionRow 0 1; "ax-beta" := mkSessionRow 0 1 ]} [] ["ax-alpha"; "ax-beta"].

Definition idle_pass : nat * Registry * World MemFs MemTmux :=
  stop_idle (SessionBackend0 := Backend demo_env plain_hash "/run/ax.sock" "/bin/ax")
    (secs 100) (secs 100) alpha_mail None TaskStore.in_memory idle_registry (live_world quiet_tmux).

Lemma idle_pass_spares_the_busy_witness :
  log (tmux idle_pass.2) = [Killed "ax-beta"]
  /\ session "alpha" (tmux idle_pass.2) = Some (mkSessionRow 0 1).
Proof.
  split; [vm_compute; reflexivity|].
  destruct (idle_pass_spares_the_busy (T := MemTmux) demo_env plain_hash "/run/ax.sock" "/bin/ax"
    (secs 100) (secs 100) alpha_mail None TaskStore.in_memory idle_registry (live_world quiet_tmux) "alpha")
    as [Hs _].
  - intros m Hm%elem_of_list_to_set. revert m Hm. apply Forall_forall.
    apply (bool_decide_unpack _). vm_compute. exact I.
  - etrans; [apply Hs; [|right; left; vm_compute; discriminate]|reflexivity].
    intros m Hm%elem_of_list_to_set. revert m Hm.
    apply (Forall_forall (fun m => m <> "alpha" -> starts_with (session_name "alpha") (session_name m) = false)).
    apply (bool_decide_unpack _). vm_compute. exact I.
Defined.

(** An agent-lifecycle start opens a session without asking for room. *)
Example agent_start_ignores_the_cap :
  (fun out => (is_ok out.1, Z.of_nat (ax_count (tmux out.2)))) <$>
    agent_lifecycle_request demo_env plain_hash "/run/ax.sock" "/bin/ax" demo_fuel root_path "kid.w" Start
      (live_world full_tmux)
  = Some (true, (ds_max_concurrent_agents loaded_desired + 1)%Z).
Proof. vm_compute. reflexivity. Qed.

(** ** Preparing a Codex home on a concrete file system. *)

#[global] Instance DemoDebugOk : DebugOk.
Proof.
  split. intros s. exists (mjoin (escape_char <$> bytes s)). split.
  - change (bytes (debug_str s))
      with (quote_char :: bytes (of_bytes (mjoin (escape_char <$> bytes s)) +:+ String quote_char "")).
    by rewrite bytes_cat, bytes_of_bytes.
  - intros Hin. apply list_elem_of_join in Hin as (l & Hl & (a & -> & _)%list_elem_of_fmap).
    revert Hl. destruct a as [[] [] [] [] [] [] [] []]; apply (bool_decide_unpack _); vm_compute; exact I.
Qed.

(** Files without links. *)
#[global] Instance MemFs_links : LinkFs MemFs := {|
  fs_symlink_metadata _ _ := None;
  fs_read_link _ _ := None;
  fs_symlink fs _ _ := Ok fs;
|}.

Definition quoted (s : string) : string := String quote_char (s +:+ String quote_char "").
Definition user_toml : string :=
  join_with newline ["model_reasoning_effort = " +:+ quoted "low"; "theme=1"; "";
    "[mcp_servers.ax]"; "timeout = 5"; "command = " +:+ quoted "old"; ""; "[tools]"; "args = 3"].
Definition codex_fs : MemFs := [(components "/home/u/.codex/config.toml", user_toml)].

Lemma prepared_home_keeps_the_config_witness :
  exists path fs' text,
    prepare_home demo_env plain_hash "alpha" "/p/alpha" "/run/ax.sock" "/bin/ax" None codex_fs = (Ok path, fs')
    /\ fs_read_to_string fs' (join path "config.toml") = Ok text
    /\ get_slot (Top "theme") (toml_lines text) = Some "theme=1"
    /\ get_slot (In "[mcp_servers.ax]" "timeout") (toml_lines text) = Some "timeout = 5"
    /\ get_slot (In "[mcp_servers.ax]" "command") (toml_lines text) = Some ("command = " +:+ quoted "/bin/ax").
Proof.
  set (out := prepare_home demo_env plain_hash "alpha" "/p/alpha" "/run/ax.sock" "/bin/ax" None codex_fs).
  assert (is_ok out.1 = true) as Hok by (vm_compute; reflexivity).
  destruct out as [[path|e] fs'] eqn:E; [|discriminate Hok].
  destruct (prepared_home_keeps_the_config demo_env plain_hash "alpha" "/p/alpha" "/run/ax.sock" "/bin/ax"
    None codex_fs fs' path E) as (h & fs1 & base & text & Eh & _ & Hready & Hbase & Hread & Hslots).
  injection Eh as <-.
  assert (base = user_toml) as ->.
  { vm_compute in Hready. injection Hready as <-. vm_compute in Hbase. injection Hbase as <-. reflexivity. }
  exists path, fs', text. split; [reflexivity|]. split; [exact Hread|]. split; [|split].
  - rewrite Hslots by (apply top_ok; vm_compute; reflexivity). vm_compute. reflexivity.
  - rewrite Hslots by (apply in_ok; [apply ax_header|vm_compute; reflexivity]). vm_compute. reflexivity.
  - rewrite Hslots by (apply in_ok; [apply ax_header|vm_compute; reflexivity]). vm_compute. reflexivity.
Defined.

Lemma codex_key_names_the_place_witness :
  codex_home_key demo_env plain_hash "alpha" "/p/./x/../alpha/"
  = codex_home_key demo_env plain_hash "alpha" "/p//alpha".
Proof.
  destruct (codex_key_names_the_place demo_env plain_hash "/p/./x/../alpha/" "/p//alpha") as (_ & Hk & _).
  - reflexivity.
  - reflexivity.
  - apply Hk. vm_compute. reflexivity.
Defined.

(** A key commented out, or the key of a longer name, is not taken for the key. *)
Example similar_keys_are_kept :
  toml_lines (upsert_top_level_key (join_with newline ["model_x = 1"; "# model = 2"]) "model" "3")
  = ["model_x = 1"; "# model = 2"; "model = 3"].
Proof. vm_compute. reflexivity. Qed.

(** The edits do not know values that span lines: a header inside one is taken for a
    table, and the key is set inside the value. *)
Example multi_line_value_is_broken :
  toml_lines (upsert_top_level_key (join_with newline ["notes = '''"; "[draft]"; "'''"; "model = 1"]) "model" "3")
  = ["notes = '''"; "model = 3"; "[draft]"; "'''"; "model = 1"].
Proof. vm_compute. reflexivity. Qed.
