(* ===== verification/Usage.v ===== *)
(** * Token usage: records, transcript lines and their aggregation

    ax-proto/src/usage.rs and, of ax-usage, parse.rs, aggregator.rs and the line
    classification of codex.rs.  A transcript is a file of JSON lines; [parse_line]
    turns one into a [ParsedRecord], and an [Aggregator] folds records into totals,
    counting the revisions of one assistant request once.  Counters are [i64] and wrap.

    serde is the interface [TranscriptJson]: it decodes a line into the structs the
    source declares ([RawRecord], [RawCodexRecord]), whose shape is modelled here. *)

From stdpp Require Import prelude gmap strings list fin_maps sorting.
From S2P Require Import Prelude.
From S2P Require Import RustStr.
From S2P Require Import RustText.

Open Scope Z_scope.
Open Scope ax_scope.

(** ** Counters of tokens (usage.rs) *)

Record Tokens := mkTokens {
  tk_input : Z;
  tk_output : Z;
  tk_cache_read : Z;
  tk_cache_creation : Z;
}.
#[export] Instance Tokens_eq_dec : EqDecision Tokens.
Proof. solve_decision. Defined.
Definition no_tokens : Tokens := mkTokens 0 0 0 0.

Definition tokens_total (t : Tokens) : Z :=
  i64_wrap (tk_input t + tk_output t + tk_cache_read t + tk_cache_creation t).

Definition tokens_add (a b : Tokens) : Tokens := {|
  tk_input := i64_wrap (tk_input a + tk_input b);
  tk_output := i64_wrap (tk_output a + tk_output b);
  tk_cache_read := i64_wrap (tk_cache_read a + tk_cache_read b);
  tk_cache_creation := i64_wrap (tk_cache_creation a + tk_cache_creation b);
|}.

Definition tokens_sub (a b : Tokens) : Tokens := {|
  tk_input := i64_wrap (tk_input a - tk_input b);
  tk_output := i64_wrap (tk_output a - tk_output b);
  tk_cache_read := i64_wrap (tk_cache_read a - tk_cache_read b);
  tk_cache_creation := i64_wrap (tk_cache_creation a - tk_cache_creation b);
|}.

Record MCPProxyMetrics := mkMCPProxyMetrics {
  mcp_total : Z;
  mcp_prompt_tokens : Z;
  mcp_prompt_signals : Z;
  mcp_tool_use_tokens : Z;
  mcp_tool_use_turns : Z;
}.
#[export] Instance MCPProxyMetrics_eq_dec : EqDecision MCPProxyMetrics.
Proof. solve_decision. Defined.
Definition no_mcp : MCPProxyMetrics := mkMCPProxyMetrics 0 0 0 0 0.

Definition add_mcp (a b : MCPProxyMetrics) : MCPProxyMetrics := {|
  mcp_total := i64_wrap (mcp_total a + mcp_total b);
  mcp_prompt_tokens := i64_wrap (mcp_prompt_tokens a + mcp_prompt_tokens b);
  mcp_prompt_signals := i64_wrap (mcp_prompt_signals a + mcp_prompt_signals b);
  mcp_tool_use_tokens := i64_wrap (mcp_tool_use_tokens a + mcp_tool_use_tokens b);
  mcp_tool_use_turns := i64_wrap (mcp_tool_use_turns a + mcp_tool_use_turns b);
|}.

Definition sub_mcp (a b : MCPProxyMetrics) : MCPProxyMetrics := {|
  mcp_total := i64_wrap (mcp_total a - mcp_total b);
  mcp_prompt_tokens := i64_wrap (mcp_prompt_tokens a - mcp_prompt_tokens b);
  mcp_prompt_signals := i64_wrap (mcp_prompt_signals a - mcp_prompt_signals b);
  mcp_tool_use_tokens := i64_wrap (mcp_tool_use_tokens a - mcp_tool_use_tokens b);
  mcp_tool_use_turns := i64_wrap (mcp_tool_use_turns a - mcp_tool_use_turns b);
|}.

Record ModelTotals := mkModelTotals {
  mt_model : string;
  mt_turns : Z;
  mt_totals : Tokens;
}.

(** ** The Claude line parser (parse.rs) *)

(** [serde_json::Value]. *)
Inductive Json :=
| JNull
| JBool (b : bool)
| JNumber (text : string)
| JString (s : string)
| JArray (items : list Json)
| JObject (fields : list (string * Json)).

Definition as_str (v : Json) : option string := match v with JString s => Some s | _ => None end.
Definition as_array (v : Json) : option (list Json) :=
  match v with JArray l => Some l | _ => None end.
Definition as_object (v : Json) : option (list (string * Json)) :=
  match v with JObject o => Some o | _ => None end.
Fixpoint obj_get (key : string) (o : list (string * Json)) : option Json :=
  match o with
  | [] => None
  | (k, v) :: o => if String.eqb k key then Some v else obj_get key o
  end.

Record RawUsage := mkRawUsage {
  ru_input_tokens : Z;
  ru_output_tokens : Z;
  ru_cache_read_input_tokens : Z;
  ru_cache_creation_input_tokens : Z;
}.
Record RawMessage := mkRawMessage {
  rm_id : string;
  rm_model : string;
  rm_usage : option RawUsage;
  rm_content : option Json;
}.
Record RawAttachment := mkRawAttachment {
  att_type : string;
  added_blocks : list string;
  added_names : list string;
  added_lines : list string;
  att_content : string;
}.
Record RawRecord := mkRawRecord {
  raw_timestamp : option Z;
  raw_session_id : string;
  raw_cwd : string;
  raw_agent_id : string;
  raw_request_id : string;
  raw_attachment : option RawAttachment;
  raw_message : option RawMessage;
}.

Record ParsedRecord := mkParsedRecord {
  pr_session_id : string;
  pr_cwd : string;
  pr_timestamp : option Z;
  pr_agent_id : string;
  pr_request_id : string;
  pr_message_id : string;
  pr_model : string;
  pr_tokens : Tokens;
  pr_mcp_proxy : MCPProxyMetrics;
  pr_has_usage : bool;
  pr_workspace_hint : string;
}.

Definition request_key (r : ParsedRecord) : string :=
  if negb (is_empty (pr_request_id r)) then "request:" +:+ pr_request_id r
  else if negb (is_empty (pr_message_id r)) then "message:" +:+ pr_message_id r
  else "".

Definition is_mcp_tool_reference (name : string) : bool :=
  let trimmed := trim name in
  if is_empty trimmed then false
  else starts_with trimmed "mcp__"
       || String.eqb trimmed "ListMcpResourcesTool"
       || String.eqb trimmed "ReadMcpResourceTool".

(** [n.div_ceil(4) as i64] of the number of characters. *)
Definition estimate_proxy_tokens (text : string) : Z :=
  let n := Z.of_nat (length (chars (trim text))) in
  if n =? 0 then 0 else i64_wrap ((n + 3) / 4).

Definition join_non_empty (parts : list string) (sep : string) : string :=
  String.concat sep (filter (fun s => is_empty s = false) (trim <$> parts)).

Definition prompt_signal (text : string) : MCPProxyMetrics :=
  let est := estimate_proxy_tokens text in mkMCPProxyMetrics est est 1 0 0.

Definition attachment_mcp_proxy (att : option RawAttachment) : MCPProxyMetrics :=
  match att with
  | None => no_mcp
  | Some att =>
      if String.eqb (att_type att) "mcp_instructions_delta" then
        let text := join_non_empty (added_blocks att) newline in
        let text := if is_empty (trim text) then trim (att_content att) else text in
        if is_empty text then no_mcp else prompt_signal text
      else if String.eqb (att_type att) "deferred_tools_delta" then
        let lines := match added_lines att with [] => added_names att | l => l end in
        let filtered := filter (fun l => is_mcp_tool_reference l = true) (trim <$> lines) in
        match filtered with
        | [] => no_mcp
        | _ => prompt_signal (String.concat newline filtered)
        end
      else no_mcp
  end.

(** [str::split_once]. *)
Definition split_once (s sep : string) : option (string * string) :=
  i ← find s sep;
  Some (take_bytes i s, drop_bytes (i + String.length sep) s).

Definition quote : string := String (Ascii.ascii_of_nat 34) "".
Definition HINT_PREFIX : string := "You are the " +:+ quote.
Definition HINT_SUFFIX : string := quote +:+ " workspace agent in an ax multi-agent environment.".

Definition extract_workspace_hint (text : string) : option string :=
  '(_, after_prefix) ← split_once text HINT_PREFIX;
  '(name, _) ← split_once after_prefix HINT_SUFFIX;
  Some name.

Fixpoint first_hint (blocks : list string) : string :=
  match blocks with
  | [] => ""
  | b :: rest =>
      match extract_workspace_hint b with Some name => trim name | None => first_hint rest end
  end.

Definition workspace_hint_from_attachment (att : option RawAttachment) : string :=
  match att with
  | None => ""
  | Some att =>
      if negb (String.eqb (att_type att) "mcp_instructions_delta") then ""
      else first_hint (added_blocks att)
  end.

(** ** Codex lines (codex.rs) *)

Definition CODEX_AGENT_NAME : string := "codex".

Record RawCodexRecord := mkRawCodexRecord {
  rc_timestamp : option Z;
  rc_line_type : string;
  rc_payload : Json;
}.
Record RawSessionMetaPayload := mkRawSessionMetaPayload { sm_id : string; sm_cwd : string }.
Record RawCodexUsage := mkRawCodexUsage {
  cu_input_tokens : Z;
  cu_cached_input_tokens : Z;
  cu_output_tokens : Z;
}.
Record RawTokenInfo := mkRawTokenInfo {
  total_token_usage : RawCodexUsage;
  last_token_usage : RawCodexUsage;
}.
Record RawEventPayload := mkRawEventPayload {
  event_type : string;
  info : option RawTokenInfo;
}.

Inductive CodexLine :=
| SessionMeta (session_id cwd : string) (timestamp : option Z)
| TokenCount (timestamp : option Z) (cumulative delta : Tokens)
| OtherLine.

(** serde at the structs above; an error carries its text. *)
Class TranscriptJson := {
  record_from_slice : string -> result string RawRecord;
  codex_from_slice : string -> result string RawCodexRecord;
  meta_from_value : Json -> result string RawSessionMetaPayload;
  event_from_value : Json -> result string RawEventPayload;
  value_to_string : Json -> string;
}.

Section parser.
Context `{!TranscriptJson}.

Definition block_uses_mcp (block : Json) : bool :=
  match as_object block with
  | None => false
  | Some obj =>
      let block_type := default "" (obj_get "type" obj ≫= as_str) in
      if negb (String.eqb block_type "tool_use") then false
      else
        let name := default "" (obj_get "name" obj ≫= as_str) in
        if is_mcp_tool_reference name then true
        else if String.eqb name "ToolSearch" then
          match (obj_get "input" obj ≫= as_object) ≫= obj_get "query" with
          | None => false
          | Some query =>
              let text := value_to_string query in
              contains text "mcp__" || contains text "ListMcpResourcesTool"
              || contains text "ReadMcpResourceTool"
          end
        else false
  end.

Definition message_uses_mcp_tool (content : Json) : bool :=
  match as_array content with
  | None => false
  | Some blocks => existsb block_uses_mcp blocks
  end.

(** The proxy of a turn that used an MCP tool: all its tokens. *)
Definition tool_use (t : Tokens) : MCPProxyMetrics :=
  mkMCPProxyMetrics (tokens_total t) 0 0 (tokens_total t) 1.

Definition message_mcp_proxy (msg : RawMessage) (tokens : Tokens) (has_usage : bool)
  : MCPProxyMetrics :=
  if negb has_usage then no_mcp
  else match rm_content msg with
       | None => no_mcp
       | Some content => if negb (message_uses_mcp_tool content) then no_mcp else tool_use tokens
       end.

Definition usage_tokens (u : RawUsage) : Tokens := {|
  tk_input := ru_input_tokens u;
  tk_output := ru_output_tokens u;
  tk_cache_read := ru_cache_read_input_tokens u;
  tk_cache_creation := ru_cache_creation_input_tokens u;
|}.

Definition parsed_from_raw (raw : RawRecord) : ParsedRecord :=
  let proxy := attachment_mcp_proxy (raw_attachment raw) in
  let rec message_id model tokens has_usage proxy := {|
    pr_session_id := raw_session_id raw;
    pr_cwd := raw_cwd raw;
    pr_timestamp := raw_timestamp raw;
    pr_agent_id := raw_agent_id raw;
    pr_request_id := raw_request_id raw;
    pr_message_id := message_id;
    pr_model := model;
    pr_tokens := tokens;
    pr_mcp_proxy := proxy;
    pr_has_usage := has_usage;
    pr_workspace_hint := workspace_hint_from_attachment (raw_attachment raw);
  |} in
  match raw_message raw with
  | None => rec "" "" no_tokens false proxy
  | Some msg =>
      match rm_usage msg with
      | Some u =>
          let tokens := usage_tokens u in
          rec (rm_id msg) (rm_model msg) tokens true
              (add_mcp proxy (message_mcp_proxy msg tokens true))
      | None =>
          rec "" "" no_tokens false (add_mcp proxy (message_mcp_proxy msg no_tokens false))
      end
  end.

Definition parse_line (data : string) : result string ParsedRecord :=
  raw ← record_from_slice data; Ok (parsed_from_raw raw).

Definition to_tokens (u : RawCodexUsage) : Tokens :=
  let input := Z.max (i64_wrap (cu_input_tokens u - cu_cached_input_tokens u)) 0 in
  mkTokens input (cu_output_tokens u) (cu_cached_input_tokens u) 0.

Definition unwrap_or {E A} (d : A) (r : result E A) : A :=
  match r with Ok a => a | Err _ => d end.

Definition classify (raw : RawCodexRecord) : CodexLine :=
  if String.eqb (rc_line_type raw) "session_meta" then
    let meta := unwrap_or (mkRawSessionMetaPayload "" "") (meta_from_value (rc_payload raw)) in
    SessionMeta (sm_id meta) (sm_cwd meta) (rc_timestamp raw)
  else if String.eqb (rc_line_type raw) "event_msg" then
    let ev := unwrap_or (mkRawEventPayload "" None) (event_from_value (rc_payload raw)) in
    if negb (String.eqb (event_type ev) "token_count") then OtherLine
    else match info ev with
         | None => OtherLine
         | Some info =>
             let delta := to_tokens (last_token_usage info) in
             if decide (delta = no_tokens) then OtherLine
             else TokenCount (rc_timestamp raw) (to_tokens (total_token_usage info)) delta
         end
  else OtherLine.

Definition parse_codex_line (data : string) : result string CodexLine :=
  raw ← codex_from_slice data; Ok (classify raw).

End parser.

Definition parsed_record_from_codex (session_id cwd : string) (timestamp : option Z)
    (delta : Tokens) : ParsedRecord := {|
  pr_session_id := session_id;
  pr_cwd := cwd;
  pr_timestamp := timestamp;
  pr_agent_id := "";
  pr_request_id := "";
  pr_message_id := "";
  pr_model := CODEX_AGENT_NAME;
  pr_tokens := delta;
  pr_mcp_proxy := no_mcp;
  pr_has_usage := true;
  pr_workspace_hint := "";
|}.

(** ** The aggregator (aggregator.rs) *)

Record AssistantRequestState := mkAssistantRequestState {
  rs_model : string;
  rs_tokens : Tokens;
  rs_uses_mcp : bool;
  rs_mcp_proxy : MCPProxyMetrics;
}.
Definition no_request : AssistantRequestState := mkAssistantRequestState "" no_tokens false no_mcp.

Record IngestResult := mkIngestResult {
  usage_observed : bool;
  tokens_delta : Tokens;
  mcp_delta : MCPProxyMetrics;
  turn_delta : Z;
}.

Record Aggregator := mkAggregator {
  ag_session_id : string;
  ag_session_start : option Z;
  ag_last_activity : option Z;
  ag_cumulative : Tokens;
  ag_cumulative_mcp : MCPProxyMetrics;
  ag_by_model : gmap string ModelTotals;
  ag_current_tokens : Tokens;
  ag_current_mcp : MCPProxyMetrics;
  ag_current_model : string;
  ag_turns : Z;
  ag_parse_errors : Z;
  ag_requests : gmap string AssistantRequestState;
}.
#[export] Instance Aggregator_eta : Updatable Aggregator := fun a =>
  mkAggregator (ag_session_id a) (ag_session_start a) (ag_last_activity a) (ag_cumulative a)
    (ag_cumulative_mcp a) (ag_by_model a) (ag_current_tokens a) (ag_current_mcp a)
    (ag_current_model a) (ag_turns a) (ag_parse_errors a) (ag_requests a).

Definition new_aggregator : Aggregator :=
  mkAggregator "" None None no_tokens no_mcp ∅ no_tokens no_mcp "" 0 0 ∅.

(** [ensure_model] followed by the change [f] of the entry it returns. *)
Definition on_model (model : string) (f : ModelTotals -> ModelTotals)
    (by_model : gmap string ModelTotals) : gmap string ModelTotals :=
  <[model := f (default (mkModelTotals model 0 no_tokens) (by_model !! model))]> by_model.

Definition credit (tokens : Tokens) (turns : Z) (mt : ModelTotals) : ModelTotals :=
  mkModelTotals (mt_model mt) (i64_wrap (mt_turns mt + turns)) (tokens_add (mt_totals mt) tokens).
Definition debit (tokens : Tokens) (turns : Z) (mt : ModelTotals) : ModelTotals :=
  mkModelTotals (mt_model mt) (i64_wrap (mt_turns mt - turns)) (tokens_sub (mt_totals mt) tokens).

(** The share of the previous model is taken out, and an empty row is dropped. *)
Definition debit_model (model : string) (tokens : Tokens) (by_model : gmap string ModelTotals)
  : gmap string ModelTotals :=
  let by_model := on_model model (debit tokens 1) by_model in
  match by_model !! model with
  | Some prev =>
      if bool_decide (mt_turns prev = 0) && bool_decide (mt_totals prev = no_tokens)
      then delete model by_model else by_model
  | None => by_model
  end.

Definition apply_usage_delta (prev_model : string) (prev_tokens : Tokens) (next_model : string)
    (next_tokens : Tokens) (turn_delta : Z) (a : Aggregator) : Aggregator :=
  let by_model :=
    if is_empty prev_model || String.eqb prev_model next_model then
      on_model next_model (credit (tokens_sub next_tokens prev_tokens) turn_delta) (ag_by_model a)
    else
      on_model next_model (credit next_tokens 1) (debit_model prev_model prev_tokens (ag_by_model a)) in
  a <| ag_cumulative := tokens_add (ag_cumulative a) (tokens_sub next_tokens prev_tokens) |>
    <| ag_turns := i64_wrap (ag_turns a + turn_delta) |>
    <| ag_by_model := by_model |>.

(** [if delta != default { cumulative_mcp += delta; current_mcp = shown }] *)
Definition note_mcp (delta shown : MCPProxyMetrics) (a : Aggregator) : Aggregator :=
  if decide (delta = no_mcp) then a
  else a <| ag_cumulative_mcp := add_mcp (ag_cumulative_mcp a) delta |>
         <| ag_current_mcp := shown |>.

(** The state of a request after a revision. *)
Definition revise (rec : ParsedRecord) (state : AssistantRequestState) : AssistantRequestState :=
  let uses := rs_uses_mcp state || (0 <? mcp_tool_use_turns (pr_mcp_proxy rec)) in
  mkAssistantRequestState (pr_model rec) (pr_tokens rec) uses
    (if uses then tool_use (pr_tokens rec) else no_mcp).

(** The part of [ingest] before the usage is looked at. *)
Definition note_session (rec : ParsedRecord) (a : Aggregator) : Aggregator :=
  let a := if is_empty (pr_session_id rec) then a else a <| ag_session_id := pr_session_id rec |> in
  match pr_timestamp rec with
  | None => a
  | Some ts =>
      let a := match ag_session_start a with
               | None => a <| ag_session_start := Some ts |>
               | Some _ => a
               end in
      a <| ag_last_activity := Some ts |>
  end.

Definition ingest_keyed (key : string) (rec : ParsedRecord) (a : Aggregator)
  : IngestResult * Aggregator :=
  let turn_delta := if decide (is_Some (ag_requests a !! key)) then 0 else 1 in
  let prev := default no_request (ag_requests a !! key) in
  let next := revise rec prev in
  let a := a <| ag_requests := <[key := next]> (ag_requests a) |> in
  let a := apply_usage_delta (rs_model prev) (rs_tokens prev) (pr_model rec) (pr_tokens rec)
             turn_delta a in
  let mcp := sub_mcp (rs_mcp_proxy next) (rs_mcp_proxy prev) in
  (mkIngestResult (pr_has_usage rec) (tokens_sub (pr_tokens rec) (rs_tokens prev)) mcp turn_delta,
   note_mcp mcp (rs_mcp_proxy next) a).

Definition ingest (rec : ParsedRecord) (a : Aggregator) : IngestResult * Aggregator :=
  let a := note_session rec a in
  let mcp := pr_mcp_proxy rec in
  if negb (pr_has_usage rec) then
    (mkIngestResult (pr_has_usage rec) no_tokens mcp 0, note_mcp mcp mcp a)
  else
    let a := a <| ag_current_tokens := pr_tokens rec |> <| ag_current_model := pr_model rec |> in
    let key := request_key rec in
    if is_empty key then
      (mkIngestResult (pr_has_usage rec) (pr_tokens rec) mcp 1,
       note_mcp mcp mcp (apply_usage_delta "" no_tokens (pr_model rec) (pr_tokens rec) 1 a))
    else ingest_keyed key rec a.

Definition ingest_line `{!TranscriptJson} (line : string) (a : Aggregator) : bool * Aggregator :=
  match parse_line line with
  | Ok rec => let '(effect, a) := ingest rec a in (usage_observed effect, a)
  | Err _ => (false, a <| ag_parse_errors := i64_wrap (ag_parse_errors a + 1) |>)
  end.

Record UsageSnapshot := mkUsageSnapshot {
  us_session_id : string;
  us_transcript_path : string;
  us_session_start : option Z;
  us_last_activity : option Z;
  us_cumulative_totals : Tokens;
  us_cumulative_mcp : MCPProxyMetrics;
  us_by_model : list ModelTotals;
  us_current_context : Tokens;
  us_current_mcp : MCPProxyMetrics;
  us_current_model : string;
  us_turns : Z;
  us_available : bool;
}.

Definition model_le (a b : ModelTotals) : Prop := String.le (mt_model a) (mt_model b).
#[export] Instance model_le_dec : RelDecision model_le := fun a b => decide (String.le _ _).

Definition snapshot (transcript_path : string) (a : Aggregator) : UsageSnapshot := {|
  us_session_id := ag_session_id a;
  us_transcript_path := transcript_path;
  us_session_start := ag_session_start a;
  us_last_activity := ag_last_activity a;
  us_cumulative_totals := ag_cumulative a;
  us_cumulative_mcp := ag_cumulative_mcp a;
  us_by_model := merge_sort model_le (btree_values (ag_by_model a));
  us_current_context := ag_current_tokens a;
  us_current_mcp := ag_current_mcp a;
  us_current_model := ag_current_model a;
  us_turns := ag_turns a;
  us_available := (0 <? ag_turns a) || negb (is_empty (ag_session_id a));
|}.
