(* ===== verification/UsageFacts.v ===== *)
(** * What the aggregator counts

    [counted] is the reference: of a list of records, those with usage that no later
    record revises.  The totals of the aggregator are the sums over them, in [i64], and
    the rows per model share these totals out. *)

From stdpp Require Import prelude gmap strings list fin_maps sorting.
From S2P Require Import Prelude.
From S2P Require Import RustStr.
From S2P Require Import Usage.

Open Scope Z_scope.
Open Scope ax_scope.

(** ** Vectors of [i64] counters

    [vplus] is the exact sum, [vadd] and [vsub] are the operations of the code, which
    wrap, and [vwrap] wraps an exact value. *)

Class I64Vec (T : Type) := {
  vzero : T;
  vplus : T -> T -> T;
  vwrap : T -> T;
  vadd : T -> T -> T;
  vsub : T -> T -> T;
}.
Class I64VecOk (T : Type) `{!I64Vec T} : Prop := {
  vplus_assoc (a b c : T) : vplus a (vplus b c) = vplus (vplus a b) c;
  vplus_comm (a b : T) : vplus a b = vplus b a;
  vplus_zero (a : T) : vplus vzero a = a;
  vwrap_zero : vwrap vzero = vzero;
  vwrap_plus (a b : T) : vwrap (vplus (vwrap a) (vwrap b)) = vwrap (vplus a b);
  vadd_def (a b : T) : vadd a b = vwrap (vplus a b);
  vadd_wrap (a b : T) : vadd (vwrap a) b = vwrap (vplus a b);
  vadd_sub (a b n p : T) : vplus a n = vplus b p -> vadd (vwrap a) (vsub n p) = vwrap b;
  vsub_wrap (a p b : T) : a = vplus b p -> vsub (vwrap a) p = vwrap b;
}.

#[export] Instance Z_vec : I64Vec Z := {|
  vzero := 0; vplus := Z.add; vwrap := i64_wrap;
  vadd a b := i64_wrap (a + b); vsub a b := i64_wrap (a - b);
|}.
#[export] Instance Tokens_vec : I64Vec Tokens := {|
  vzero := no_tokens;
  vplus a b := mkTokens (tk_input a + tk_input b) (tk_output a + tk_output b)
                 (tk_cache_read a + tk_cache_read b) (tk_cache_creation a + tk_cache_creation b);
  vwrap a := mkTokens (i64_wrap (tk_input a)) (i64_wrap (tk_output a))
               (i64_wrap (tk_cache_read a)) (i64_wrap (tk_cache_creation a));
  vadd := tokens_add; vsub := tokens_sub;
|}.
#[export] Instance Mcp_vec : I64Vec MCPProxyMetrics := {|
  vzero := no_mcp;
  vplus a b := mkMCPProxyMetrics (mcp_total a + mcp_total b)
                 (mcp_prompt_tokens a + mcp_prompt_tokens b)
                 (mcp_prompt_signals a + mcp_prompt_signals b)
                 (mcp_tool_use_tokens a + mcp_tool_use_tokens b)
                 (mcp_tool_use_turns a + mcp_tool_use_turns b);
  vwrap a := mkMCPProxyMetrics (i64_wrap (mcp_total a)) (i64_wrap (mcp_prompt_tokens a))
               (i64_wrap (mcp_prompt_signals a)) (i64_wrap (mcp_tool_use_tokens a))
               (i64_wrap (mcp_tool_use_turns a));
  vadd := add_mcp; vsub := sub_mcp;
|}.

Ltac vec_law :=
  intros; repeat match goal with x : Tokens |- _ => destruct x | x : MCPProxyMetrics |- _ => destruct x end;
  cbn [vzero vplus vwrap vadd vsub Z_vec Tokens_vec Mcp_vec] in *;
  unfold tokens_add, tokens_sub, add_mcp, sub_mcp, no_tokens, no_mcp in *;
  cbn [tk_input tk_output tk_cache_read tk_cache_creation mcp_total mcp_prompt_tokens
       mcp_prompt_signals mcp_tool_use_tokens mcp_tool_use_turns] in *;
  simplify_eq; try done;
  lazymatch goal with
  | |- mkTokens _ _ _ _ = _ => f_equal
  | |- mkMCPProxyMetrics _ _ _ _ _ = _ => f_equal
  | _ => idtac
  end; first [lia | i64_eq].

#[export] Instance Z_vec_ok : I64VecOk Z.
Proof. split; vec_law. Qed.
#[export] Instance Tokens_vec_ok : I64VecOk Tokens.
Proof. split; vec_law. Qed.
#[export] Instance Mcp_vec_ok : I64VecOk MCPProxyMetrics.
Proof. split; vec_law. Qed.

(** Counters side by side. *)
#[export] Instance prod_vec {A B} `{!I64Vec A} `{!I64Vec B} : I64Vec (A * B) := {|
  vzero := (vzero, vzero);
  vplus p q := (vplus p.1 q.1, vplus p.2 q.2);
  vwrap p := (vwrap p.1, vwrap p.2);
  vadd p q := (vadd p.1 q.1, vadd p.2 q.2);
  vsub p q := (vsub p.1 q.1, vsub p.2 q.2);
|}.
#[export] Instance prod_vec_ok {A B} `{!I64Vec A} `{!I64VecOk A} `{!I64Vec B} `{!I64VecOk B} :
  I64VecOk (A * B).
Proof.
  split; simpl.
  - intros. by rewrite !vplus_assoc.
  - intros. f_equal; apply vplus_comm.
  - intros []. by rewrite !vplus_zero.
  - by rewrite !vwrap_zero.
  - intros. by rewrite !vwrap_plus.
  - intros. by rewrite !vadd_def.
  - intros. by rewrite !vadd_wrap.
  - intros ? ? ? ? [= ? ?]. f_equal; by apply vadd_sub.
  - intros [] [] [] [= -> ->]. simpl. f_equal; by apply vsub_wrap.
Qed.

Arguments vzero {T _} : simpl never.
Arguments vplus {T _} _ _ : simpl never.
Arguments vwrap {T _} _ : simpl never.
Arguments vadd {T _} _ _ : simpl never.
Arguments vsub {T _} _ _ : simpl never.

Section sums.
Context {T : Type} `{!I64Vec T} `{!I64VecOk T}.
Implicit Types (l : list T) (a b : T).

Definition vsum (l : list T) : T := foldr vplus vzero l.

Lemma vplus_zero_r a : vplus a vzero = a.
Proof. rewrite vplus_comm. apply vplus_zero. Qed.
Lemma vwrap_wrap a : vwrap (vwrap a) = vwrap a.
Proof. rewrite <-(vplus_zero_r (vwrap a)), <-vwrap_zero at 1. by rewrite vwrap_plus, vplus_zero_r. Qed.
Lemma vadd_zero a : vadd (vwrap a) vzero = vwrap a.
Proof. by rewrite vadd_wrap, vplus_zero_r. Qed.

(** The orders in which a replaced value appears. *)
Lemma vplus_rot a b c : vplus (vplus a b) c = vplus (vplus b c) a.
Proof. rewrite <-vplus_assoc. apply vplus_comm. Qed.
Lemma vplus_rot_in p a b c : vplus (vplus p (vplus a b)) c = vplus (vplus p (vplus b c)) a.
Proof. rewrite <-!vplus_assoc. f_equal. rewrite !vplus_assoc. apply vplus_rot. Qed.

Lemma vsum_app l k : vsum (l ++ k) = vplus (vsum l) (vsum k).
Proof.
  induction l as [|x l IH]; simpl; [by rewrite vplus_zero|].
  rewrite IH. apply vplus_assoc.
Qed.
#[export] Instance vsum_perm : Proper (Permutation ==> eq) vsum.
Proof.
  induction 1 as [|x l k _ IH|x y l|l k m _ IH1 _ IH2]; simpl; try congruence.
  rewrite !vplus_assoc. f_equal. apply vplus_comm.
Qed.
Lemma vsum_zeros {A} (f : A -> T) (l : list A) :
  (forall x, x ∈ l -> f x = vzero) -> vsum (f <$> l) = vzero.
Proof.
  induction l as [|x l IH]; simpl; intros Hz; [done|].
  rewrite Hz by left. rewrite vplus_zero. apply IH. intros. apply Hz. by right.
Qed.
End sums.

(** ** The records that count *)

(** [r'] is a later revision of the request of [r]. *)
Definition revises (r r' : ParsedRecord) : bool :=
  pr_has_usage r' && negb (is_empty (request_key r)) && String.eqb (request_key r') (request_key r).

Fixpoint counted (rs : list ParsedRecord) : list ParsedRecord :=
  match rs with
  | [] => []
  | r :: rest =>
      if pr_has_usage r && negb (existsb (revises r) rest) then r :: counted rest else counted rest
  end.

Definition ingest_all (rs : list ParsedRecord) : Aggregator :=
  foldl (fun a r => (ingest r a).2) new_aggregator rs.

Definition keyed (k : string) (r : ParsedRecord) : Prop := request_key r = k.
#[export] Instance keyed_dec k r : Decision (keyed k r) := decide (request_key r = k).

Lemma counted_snoc rs r :
  counted (rs ++ [r]) =
  filter (fun x => revises x r = false) (counted rs) ++ (if pr_has_usage r then [r] else []).
Proof.
  induction rs as [|x rs IH]; simpl; [by destruct (pr_has_usage r)|].
  rewrite existsb_app. simpl. rewrite orb_false_r, IH.
  destruct (pr_has_usage x), (existsb (revises x) rs); simpl; try done.
  destruct (revises x r) eqn:Hr; simpl.
  - rewrite filter_cons_False by congruence. done.
  - rewrite filter_cons_True by done. done.
Qed.

Lemma counted_no_usage rs r : pr_has_usage r = false -> counted (rs ++ [r]) = counted rs.
Proof.
  intros Hu. rewrite counted_snoc, Hu, app_nil_r.
  induction (counted rs) as [|x l IH]; [done|].
  rewrite filter_cons_True by (unfold revises; by rewrite Hu). by rewrite IH.
Qed.

Lemma counted_keyless rs r :
  pr_has_usage r = true -> request_key r = "" -> counted (rs ++ [r]) = counted rs ++ [r].
Proof.
  intros Hu Hk. rewrite counted_snoc, Hu. f_equal.
  induction (counted rs) as [|x l IH]; [done|].
  rewrite filter_cons_True; [by rewrite IH|]. unfold revises. rewrite Hu, Hk.
  destruct (is_empty (request_key x)) eqn:He; [done|]. apply is_empty_false in He. simpl.
  by destruct (request_key x).
Qed.

Lemma counted_keyed rs r :
  pr_has_usage r = true -> request_key r <> "" ->
  counted (rs ++ [r]) = filter (fun x => ~ keyed (request_key r) x) (counted rs) ++ [r].
Proof.
  intros Hu Hk. rewrite counted_snoc, Hu. f_equal.
  apply list_filter_iff. intros x. unfold revises, keyed. rewrite Hu. simpl.
  destruct (is_empty (request_key x)) eqn:He; simpl.
  - apply is_empty_true in He. split; [intros _; congruence|done].
  - rewrite String.eqb_neq. split; congruence.
Qed.

Lemma elem_of_counted rs r : r ∈ counted rs -> r ∈ rs /\ pr_has_usage r = true.
Proof.
  induction rs as [|x rs IH]; simpl; [by intros ?%elem_of_nil|].
  destruct (pr_has_usage x) eqn:Hu, (existsb (revises x) rs); simpl;
    try (intros [? ?]%IH; split; [by right|done]).
  intros [->|[? ?]%IH]%elem_of_cons; (split; [|done]); [by left|by right].
Qed.

Lemma filter_filter_le {A} (P Q : A -> Prop) `{!forall x, Decision (P x)} `{!forall x, Decision (Q x)}
    (l : list A) : (length (filter P (filter Q l)) <= length (filter P l))%nat.
Proof.
  induction l as [|x l IH]; [done|].
  rewrite (filter_cons Q), (filter_cons P). repeat case_decide; simpl; rewrite ?filter_cons;
    repeat case_decide; simpl; try done; lia.
Qed.

(** A request is counted at most once. *)
Lemma counted_once rs k : k <> "" -> (length (filter (keyed k) (counted rs)) <= 1)%nat.
Proof.
  intros Hk. induction rs as [|r rs IH] using rev_ind; [simpl; lia|].
  rewrite counted_snoc, filter_app, length_app.
  pose proof (filter_filter_le (keyed k) (fun x => revises x r = false) (counted rs)).
  destruct (pr_has_usage r) eqn:Hu; [|simpl; lia].
  rewrite (filter_cons _ r). case_decide as Hr; simpl; [|lia].
  enough (filter (keyed k) (filter (fun x => revises x r = false) (counted rs)) = []) as ->; [done|].
  apply filter_nil_iff. intros x Hx Hkx. apply list_elem_of_filter in Hx as [Hx _].
  unfold revises in Hx. unfold keyed in *. rewrite Hu, Hkx, Hr, String.eqb_refl in Hx.
  destruct (is_empty k) eqn:He; [by apply is_empty_true in He|done].
Qed.

(** The record of a request that counts, and the state the aggregator keeps for it. *)
Definition latest (k : string) (rs : list ParsedRecord) : option ParsedRecord :=
  head (filter (keyed k) (counted rs)).
Definition used_mcp (k : string) (rs : list ParsedRecord) : bool :=
  existsb (fun r => pr_has_usage r && String.eqb (request_key r) k
                    && (0 <? mcp_tool_use_turns (pr_mcp_proxy r))) rs.
Definition turn_proxy (used : bool) (t : Tokens) : MCPProxyMetrics :=
  if used then tool_use t else no_mcp.
Definition request_of (k : string) (rs : list ParsedRecord) : option AssistantRequestState :=
  (fun r => mkAssistantRequestState (pr_model r) (pr_tokens r) (used_mcp k rs)
              (turn_proxy (used_mcp k rs) (pr_tokens r))) <$> latest k rs.

(** What a counted record adds to the MCP proxy. *)
Definition proxy_of (rs : list ParsedRecord) (r : ParsedRecord) : MCPProxyMetrics :=
  if is_empty (request_key r) then pr_mcp_proxy r
  else turn_proxy (used_mcp (request_key r) rs) (pr_tokens r).
Definition plain (rs : list ParsedRecord) : list ParsedRecord :=
  filter (fun r => pr_has_usage r = false) rs.

Definition total_tokens (rs : list ParsedRecord) : Tokens := vsum (pr_tokens <$> counted rs).
Definition total_proxy (rs : list ParsedRecord) : MCPProxyMetrics :=
  vplus (vsum (pr_mcp_proxy <$> plain rs)) (vsum (proxy_of rs <$> counted rs)).

Definition others (r : ParsedRecord) (rs : list ParsedRecord) : list ParsedRecord :=
  filter (fun x => ~ keyed (request_key r) x) (counted rs).

(** The counted records are the latest of one request and the others. *)
Lemma counted_split rs k :
  k <> "" ->
  counted rs ≡ₚ option_list (latest k rs) ++ filter (fun x => ~ keyed k x) (counted rs).
Proof.
  intros Hk. pose proof (counted_once rs k Hk) as Hone. unfold latest.
  rewrite <-(filter_app_complement (keyed k) (counted rs)) at 1.
  destruct (filter (keyed k) (counted rs)) as [|x [|y l]]; simpl in *; [done|done|lia].
Qed.

(** ** The invariant of the aggregator *)

Record agg_counts (rs : list ParsedRecord) (a : Aggregator) : Prop := {
  ac_requests k : k <> "" -> ag_requests a !! k = request_of k rs;
  ac_cumulative : ag_cumulative a = vwrap (total_tokens rs);
  ac_turns : ag_turns a = i64_wrap (Z.of_nat (length (counted rs)));
  ac_mcp : ag_cumulative_mcp a = vwrap (total_proxy rs);
}.

Lemma note_session_frame rec a :
  let b := note_session rec a in
  ag_requests b = ag_requests a /\ ag_cumulative b = ag_cumulative a /\ ag_turns b = ag_turns a /\
  ag_cumulative_mcp b = ag_cumulative_mcp a /\ ag_by_model b = ag_by_model a.
Proof.
  unfold note_session. destruct (is_empty _), (pr_timestamp rec), a as [? [] ?]; by fsimpl.
Qed.

Lemma note_mcp_frame d s a :
  let b := note_mcp d s a in
  ag_requests b = ag_requests a /\ ag_cumulative b = ag_cumulative a /\ ag_turns b = ag_turns a /\
  ag_by_model b = ag_by_model a.
Proof. unfold note_mcp. case_decide; by fsimpl. Qed.

Lemma note_mcp_total d s a p :
  ag_cumulative_mcp a = vwrap p -> ag_cumulative_mcp (note_mcp d s a) = vadd (vwrap p) d.
Proof.
  intros Hp. unfold note_mcp. case_decide as Hd; fsimpl; rewrite Hp; [|done].
  subst d. symmetry. exact (vadd_zero p).
Qed.

(** Appending a record changes which requests used MCP tools only for its own key. *)
Lemma used_mcp_snoc k rs r :
  used_mcp k (rs ++ [r]) =
  used_mcp k rs || (pr_has_usage r && String.eqb (request_key r) k
                    && (0 <? mcp_tool_use_turns (pr_mcp_proxy r))).
Proof. unfold used_mcp. rewrite existsb_app. simpl. by rewrite orb_false_r. Qed.
Lemma used_mcp_other k rs r :
  pr_has_usage r = false \/ request_key r <> k -> used_mcp k (rs ++ [r]) = used_mcp k rs.
Proof.
  intros Hr. rewrite used_mcp_snoc.
  destruct Hr as [->|Hr]; [by rewrite orb_false_r|].
  apply String.eqb_neq in Hr as ->. by rewrite andb_false_r, orb_false_r.
Qed.

Lemma proxy_of_others rs r x :
  pr_has_usage r = false \/ request_key r = "" \/ ~ keyed (request_key r) x ->
  proxy_of (rs ++ [r]) x = proxy_of rs x.
Proof.
  intros Hr. unfold proxy_of. destruct (is_empty (request_key x)) eqn:He; [done|].
  apply is_empty_false in He. rewrite used_mcp_other; [done|].
  unfold keyed in Hr. destruct Hr as [Hr|[Hr|Hr]]; [by left| |]; right; congruence.
Qed.

Lemma sum_proxy_frame rs r (l : list ParsedRecord) :
  (forall x, x ∈ l -> pr_has_usage r = false \/ request_key r = "" \/ ~ keyed (request_key r) x) ->
  proxy_of (rs ++ [r]) <$> l = proxy_of rs <$> l.
Proof. intros Hl. apply list_fmap_ext. intros i x Hx%list_elem_of_lookup_2. by apply proxy_of_others, Hl. Qed.

Lemma plain_snoc rs r : plain (rs ++ [r]) = plain rs ++ (if pr_has_usage r then [] else [r]).
Proof.
  unfold plain. rewrite filter_app. f_equal. rewrite filter_cons, filter_nil.
  by destruct (pr_has_usage r).
Qed.

Lemma request_of_frame k rs r :
  k <> "" -> pr_has_usage r = false \/ request_key r <> k -> request_of k (rs ++ [r]) = request_of k rs.
Proof.
  intros Hk Hr. unfold request_of. rewrite used_mcp_other by done. f_equal.
  unfold latest. destruct (pr_has_usage r) eqn:Hu; [|by rewrite counted_no_usage].
  destruct Hr as [|Hr]; [done|]. destruct (decide (request_key r = "")) as [He|He].
  - rewrite counted_keyless, filter_app by done. rewrite (filter_cons_False _ r) by done.
    by rewrite filter_nil, app_nil_r.
  - rewrite counted_keyed, filter_app by done. rewrite (filter_cons_False _ r) by done.
    rewrite filter_nil, app_nil_r, list_filter_filter_l; [done|].
    intros x Hx. unfold keyed in *. congruence.
Qed.

Lemma latest_own rs r :
  pr_has_usage r = true -> request_key r <> "" -> latest (request_key r) (rs ++ [r]) = Some r.
Proof.
  intros Hu Hk. unfold latest. rewrite counted_keyed, filter_app by done.
  rewrite (filter_cons_True _ r) by done. rewrite filter_nil.
  enough (filter (keyed (request_key r)) (filter (fun x => ~ keyed (request_key r) x) (counted rs)) = [])
    as ->; [done|].
  apply filter_nil_iff. intros x Hx ?. by apply list_elem_of_filter in Hx as [? _].
Qed.

Lemma agg_counts_no_usage rs a r :
  pr_has_usage r = false -> agg_counts rs a -> agg_counts (rs ++ [r]) (ingest r a).2.
Proof.
  intros Hu [Hreq Hcum Hturns Hmcp]. unfold ingest. rewrite Hu. simpl.
  destruct (note_session_frame r a) as (Hs1 & Hs2 & Hs3 & Hs4 & _).
  destruct (note_mcp_frame (pr_mcp_proxy r) (pr_mcp_proxy r) (note_session r a)) as (Hn1 & Hn2 & Hn3 & _).
  split; [intros k Hk|..].
  - rewrite Hn1, Hs1, request_of_frame by auto. by apply Hreq.
  - unfold total_tokens. by rewrite Hn2, Hs2, counted_no_usage.
  - by rewrite Hn3, Hs3, counted_no_usage.
  - rewrite (note_mcp_total _ _ _ (total_proxy rs)) by congruence. rewrite vadd_wrap. f_equal.
    unfold total_proxy. rewrite counted_no_usage, plain_snoc, Hu by done.
    rewrite fmap_app, vsum_app, sum_proxy_frame by auto. simpl. rewrite vplus_zero_r.
    rewrite <-!vplus_assoc. f_equal. apply vplus_comm.
Qed.

(** The laws at the operations of the code. *)
Lemma tokens_add_sub (a b n p : Tokens) :
  vplus a n = vplus b p -> tokens_add (vwrap a) (tokens_sub n p) = vwrap b.
Proof. exact (vadd_sub a b n p). Qed.
Lemma tokens_add_wrap (a b : Tokens) : tokens_add (vwrap a) b = vwrap (vplus a b).
Proof. exact (vadd_wrap a b). Qed.
Lemma tokens_sub_wrap (b p : Tokens) : tokens_sub (vwrap (vplus p b)) p = vwrap b.
Proof. exact (vsub_wrap (vplus p b) p b (vplus_comm p b)). Qed.
Lemma mcp_add_sub (a b n p : MCPProxyMetrics) :
  vplus a n = vplus b p -> vadd (vwrap a) (sub_mcp n p) = vwrap b.
Proof. exact (vadd_sub a b n p). Qed.

(** What the aggregator knew of the request of a record. *)
Definition previous (r : ParsedRecord) (a : Aggregator) : AssistantRequestState :=
  if is_empty (request_key r) then no_request else default no_request (ag_requests a !! request_key r).
Definition new_turn (r : ParsedRecord) (a : Aggregator) : Z :=
  if is_empty (request_key r) then 1
  else if decide (is_Some (ag_requests a !! request_key r)) then 0 else 1.
Definition next_models (r : ParsedRecord) (a : Aggregator) : gmap string ModelTotals :=
  let prev := previous r a in
  if is_empty (rs_model prev) || String.eqb (rs_model prev) (pr_model r) then
    on_model (pr_model r) (credit (tokens_sub (pr_tokens r) (rs_tokens prev)) (new_turn r a)) (ag_by_model a)
  else
    on_model (pr_model r) (credit (pr_tokens r) 1)
      (debit_model (rs_model prev) (rs_tokens prev) (ag_by_model a)).

Lemma ingest_usage_fields r a :
  pr_has_usage r = true ->
  let b := (ingest r a).2 in let prev := previous r a in
  ag_requests b =
    (if is_empty (request_key r) then ag_requests a
     else <[request_key r := revise r prev]> (ag_requests a)) /\
  ag_cumulative b = tokens_add (ag_cumulative a) (tokens_sub (pr_tokens r) (rs_tokens prev)) /\
  ag_turns b = i64_wrap (ag_turns a + new_turn r a) /\
  ag_by_model b = next_models r a.
Proof.
  intros Hu. unfold ingest, next_models, new_turn, previous. rewrite Hu.
  destruct (note_session_frame r a) as (Hs1 & Hs2 & Hs3 & _ & Hs5).
  destruct (is_empty (request_key r)); cbn [negb]; cbv zeta.
  - match goal with |- context [note_mcp ?d ?s ?b] =>
      destruct (note_mcp_frame d s b) as (Hn1 & Hn2 & Hn3 & Hn4) end.
    cbn [snd]. rewrite Hn1, Hn2, Hn3, Hn4. unfold apply_usage_delta. fsimpl.
    by rewrite Hs1, Hs2, Hs3, Hs5.
  - unfold ingest_keyed. match goal with |- context [note_mcp ?d ?s ?b] =>
      destruct (note_mcp_frame d s b) as (Hn1 & Hn2 & Hn3 & Hn4) end.
    cbn [snd]. rewrite Hn1, Hn2, Hn3, Hn4. unfold apply_usage_delta. fsimpl.
    by rewrite Hs1, Hs2, Hs3, Hs5.
Qed.

Lemma ingest_usage_mcp r a p :
  pr_has_usage r = true -> ag_cumulative_mcp a = vwrap p ->
  ag_cumulative_mcp (ingest r a).2 =
  vadd (vwrap p)
    (if is_empty (request_key r) then pr_mcp_proxy r
     else sub_mcp (rs_mcp_proxy (revise r (previous r a))) (rs_mcp_proxy (previous r a))).
Proof.
  intros Hu Hp. unfold ingest, previous. rewrite Hu.
  destruct (note_session_frame r a) as (Hs1 & _ & _ & Hs4 & _).
  destruct (is_empty (request_key r)); cbn [negb]; cbv zeta; [|unfold ingest_keyed]; cbn [snd];
    rewrite (note_mcp_total _ _ _ p); unfold apply_usage_delta; fsimpl; rewrite ?Hs1; congruence.
Qed.

(** The record that a new one replaces, and the effect on the counted ones. *)
Definition superseded (r : ParsedRecord) (rs : list ParsedRecord) : option ParsedRecord :=
  if is_empty (request_key r) then None else latest (request_key r) rs.

Lemma counted_replace rs r :
  pr_has_usage r = true ->
  exists rest, counted rs ≡ₚ option_list (superseded r rs) ++ rest /\
    counted (rs ++ [r]) = rest ++ [r] /\
    Forall (fun x => request_key r = "" \/ ~ keyed (request_key r) x) rest.
Proof.
  intros Hu. unfold superseded. destruct (is_empty (request_key r)) eqn:He.
  - apply is_empty_true in He. exists (counted rs). rewrite counted_keyless by done.
    split; [done|]. split; [done|]. apply Forall_true. auto.
  - apply is_empty_false in He. eexists. rewrite counted_keyed by done.
    split; [by apply counted_split|]. split; [done|]. apply Forall_forall. intros x Hx.
    apply list_elem_of_filter in Hx as [? _]. auto.
Qed.

(** The state kept for the request, or nothing, as a record of zeroes. *)
Definition state_of (rs : list ParsedRecord) (r : ParsedRecord) : AssistantRequestState :=
  match superseded r rs with
  | None => no_request
  | Some x => mkAssistantRequestState (pr_model x) (pr_tokens x) (used_mcp (request_key r) rs)
                (turn_proxy (used_mcp (request_key r) rs) (pr_tokens x))
  end.

Lemma previous_state rs a r : agg_counts rs a -> previous r a = state_of rs r.
Proof.
  intros [Hreq _ _ _]. unfold previous, state_of, superseded.
  destruct (is_empty (request_key r)) eqn:He; [done|]. apply is_empty_false in He.
  rewrite Hreq by done. unfold request_of. by destruct (latest _ rs).
Qed.
Lemma new_turn_state rs a r :
  agg_counts rs a -> new_turn r a = match superseded r rs with None => 1 | Some _ => 0 end.
Proof.
  intros [Hreq _ _ _]. unfold new_turn, superseded.
  destruct (is_empty (request_key r)) eqn:He; [done|]. apply is_empty_false in He.
  rewrite Hreq by done. unfold request_of. by destruct (latest _ rs).
Qed.

Lemma superseded_key r rs x :
  superseded r rs = Some x -> request_key r <> "" /\ request_key x = request_key r.
Proof.
  unfold superseded, latest. destruct (is_empty (request_key r)) eqn:He; [done|].
  apply is_empty_false in He. intros Hx. split; [done|].
  assert (x ∈ filter (keyed (request_key r)) (counted rs)) as [Hk _]%list_elem_of_filter; [|done].
  destruct (filter _ (counted rs)); simplify_eq/=. left.
Qed.

(** No request used an MCP tool before its first record. *)
Lemma used_mcp_counted k rs : k <> "" -> latest k rs = None -> used_mcp k rs = false.
Proof.
  intros Hk. induction rs as [|r rs IH] using rev_ind; [done|]. intros Hl.
  destruct (decide (pr_has_usage r = true /\ request_key r = k)) as [[Hu <-]|Hr].
  { by rewrite latest_own in Hl. }
  assert (pr_has_usage r = false \/ request_key r <> k) as Hr'.
  { destruct (pr_has_usage r); [right|by left]. naive_solver. }
  rewrite used_mcp_other by done. apply IH.
  pose proof (request_of_frame k rs r Hk Hr') as Hf. unfold request_of in Hf.
  rewrite Hl in Hf. simpl in Hf. by destruct (latest k rs).
Qed.

(** The state after the revision is that of the new record. *)
Lemma revise_state rs r :
  pr_has_usage r = true -> request_key r <> "" ->
  revise r (state_of rs r) =
  mkAssistantRequestState (pr_model r) (pr_tokens r) (used_mcp (request_key r) (rs ++ [r]))
    (turn_proxy (used_mcp (request_key r) (rs ++ [r])) (pr_tokens r)).
Proof.
  intros Hu Hk. rewrite used_mcp_snoc, Hu, String.eqb_refl. simpl. unfold revise, turn_proxy.
  assert (rs_uses_mcp (state_of rs r) = used_mcp (request_key r) rs) as ->; [|done].
  unfold state_of. destruct (superseded r rs) eqn:Hs; [done|]. symmetry.
  apply used_mcp_counted; [done|]. unfold superseded in Hs.
  by rewrite (proj2 (is_empty_false _) Hk) in Hs.
Qed.

Lemma proxy_superseded rs r rest :
  Forall (fun x => request_key r = "" \/ ~ keyed (request_key r) x) rest ->
  counted rs ≡ₚ option_list (superseded r rs) ++ rest ->
  vsum (proxy_of rs <$> counted rs) =
  vplus (rs_mcp_proxy (state_of rs r)) (vsum (proxy_of (rs ++ [r]) <$> rest)).
Proof.
  intros Hrest Hperm. rewrite sum_proxy_frame
    by (intros x Hx; right; by apply (proj1 (Forall_forall _ _) Hrest)).
  rewrite Hperm, fmap_app, vsum_app. f_equal. unfold state_of.
  destruct (superseded r rs) as [x|] eqn:Hs; [|done]. simpl. rewrite vplus_zero_r.
  apply superseded_key in Hs as [Hk Hx]. unfold proxy_of.
  by rewrite Hx, (proj2 (is_empty_false _) Hk).
Qed.

Lemma agg_counts_usage rs a r :
  pr_has_usage r = true -> agg_counts rs a -> agg_counts (rs ++ [r]) (ingest r a).2.
Proof.
  intros Hu Ha. pose proof (previous_state rs a r Ha) as Hprev.
  pose proof (new_turn_state rs a r Ha) as Hturn.
  destruct (ingest_usage_fields r a Hu) as (Hf1 & Hf2 & Hf3 & _).
  pose proof (ingest_usage_mcp r a _ Hu (ac_mcp _ _ Ha)) as Hf4.
  destruct (counted_replace rs r Hu) as (rest & Hperm & Hnew & Hrest).
  destruct Ha as [Hreq Hcum Hturns _]. rewrite Hprev in *. split; [intros k Hk|..].
  - rewrite Hf1. destruct (decide (request_key r = k)) as [<-|Hne].
    + rewrite (proj2 (is_empty_false _) Hk), lookup_insert_eq, revise_state by done.
      unfold request_of. by rewrite latest_own.
    + rewrite request_of_frame by auto.
      destruct (is_empty (request_key r)); [|rewrite lookup_insert_ne by done]; by apply Hreq.
  - rewrite Hf2, Hcum. apply tokens_add_sub. unfold total_tokens.
    rewrite Hnew, Hperm, !fmap_app, !vsum_app. unfold state_of.
    destruct (superseded r rs); simpl; rewrite ?(vplus_zero_r (pr_tokens _)); apply vplus_rot.
  - rewrite Hf3, Hturns, Hturn, Hnew, Hperm, !length_app. destruct (superseded r rs); simpl; i64_eq.
  - rewrite Hf4. unfold total_proxy. rewrite Hnew, plain_snoc, Hu, app_nil_r.
    rewrite (proxy_superseded rs r rest), fmap_app, vsum_app by done.
    cbn [fmap list_fmap vsum foldr]. rewrite vplus_zero_r.
    destruct (is_empty (request_key r)) eqn:He.
    + rewrite vadd_wrap. f_equal. unfold state_of, superseded, proxy_of. rewrite He. simpl.
      change no_mcp with (vzero : MCPProxyMetrics). rewrite vplus_zero. by rewrite vplus_assoc.
    + apply is_empty_false in He. rewrite revise_state by done. apply mcp_add_sub. simpl.
      unfold proxy_of at 3. rewrite (proj2 (is_empty_false _) He).
      apply vplus_rot_in.
Qed.

Lemma ingest_all_snoc rs r : ingest_all (rs ++ [r]) = (ingest r (ingest_all rs)).2.
Proof. unfold ingest_all. by rewrite foldl_app. Qed.

Lemma ingest_all_counts rs : agg_counts rs (ingest_all rs).
Proof.
  induction rs as [|r rs IH] using rev_ind; [split; done|]. rewrite ingest_all_snoc.
  destruct (pr_has_usage r) eqn:Hu; [by apply agg_counts_usage|by apply agg_counts_no_usage].
Qed.

#[export] Instance model_le_trans : Transitive model_le.
Proof. intros a b c. unfold model_le. apply transitivity. Qed.
#[export] Instance model_le_total : Total model_le.
Proof. intros a b. unfold model_le. apply (total String.le). Qed.

(** ** The rows per model *)

(** The row of a list of records with one model. *)
Definition row (m : string) (l : list ParsedRecord) : option ModelTotals :=
  match l with
  | [] => None
  | _ => Some (mkModelTotals m (i64_wrap (Z.of_nat (length l))) (vwrap (vsum (pr_tokens <$> l))))
  end.
Definition of_model (m : string) (rs : list ParsedRecord) : list ParsedRecord :=
  filter (fun r => pr_model r = m) rs.

#[export] Instance row_perm m : Proper (Permutation ==> eq) (row m).
Proof.
  intros l k Hp. unfold row. pose proof (Permutation_length Hp) as Hl.
  destruct l, k; simpl in Hl; try done. by rewrite Hp.
Qed.

Lemma row_default m l :
  default (mkModelTotals m 0 no_tokens) (row m l) =
  mkModelTotals m (i64_wrap (Z.of_nat (length l))) (vwrap (vsum (pr_tokens <$> l))).
Proof. by destruct l. Qed.

Lemma credit_row m l r bm :
  bm !! m = row m l -> on_model m (credit (pr_tokens r) 1) bm !! m = row m (r :: l).
Proof.
  intros Hm. unfold on_model. rewrite lookup_insert_eq, Hm, row_default. unfold credit, row. simpl.
  do 2 f_equal; [i64_eq|]. rewrite tokens_add_wrap. f_equal. apply vplus_comm.
Qed.

Lemma debit_one m r l :
  debit (pr_tokens r) 1 (default (mkModelTotals m 0 no_tokens) (row m (r :: l))) =
  default (mkModelTotals m 0 no_tokens) (row m l).
Proof.
  rewrite !row_default. unfold debit. simpl. f_equal; [i64_eq|]. apply tokens_sub_wrap.
Qed.

Lemma debit_row m l r bm :
  (Z.of_nat (length l) < 2 ^ 63) ->
  bm !! m = row m (r :: l) -> debit_model m (pr_tokens r) bm !! m = row m l.
Proof.
  intros Hlen Hm. unfold debit_model, on_model. rewrite lookup_insert_eq, Hm, debit_one.
  destruct l as [|x l]; [by apply lookup_delete_eq|]. cbn [default from_option row id mt_turns].
  rewrite bool_decide_false; [apply lookup_insert_eq|].
  rewrite i64_wrap_small by (unfold in_i64, i64_min, i64_max; lia). simpl. lia.
Qed.

Lemma on_model_other m m' f bm : m <> m' -> on_model m f bm !! m' = bm !! m'.
Proof. intros. unfold on_model. by rewrite lookup_insert_ne. Qed.
Lemma debit_model_other m m' t bm : m <> m' -> debit_model m t bm !! m' = bm !! m'.
Proof.
  intros. unfold debit_model. destruct (on_model _ _ _ !! m); [case_match|];
    rewrite ?lookup_delete_ne by done; by apply on_model_other.
Qed.

Lemma credit_from_zero m t n bm :
  on_model m (credit (tokens_sub t no_tokens) n) bm = on_model m (credit t n) bm.
Proof.
  unfold on_model. f_equal. unfold credit, tokens_add, tokens_sub. f_equal.
  destruct t, (mt_totals (default _ _)); simpl. f_equal; i64_eq.
Qed.

Lemma counted_length rs : (length (counted rs) <= length rs)%nat.
Proof. induction rs; simpl; [done|]. case_match; simpl; lia. Qed.
Lemma of_model_length m l : (length (of_model m l) <= length l)%nat.
Proof. apply length_filter. Qed.

(** The row of model [m] after a record replaced [x] (or nothing) by [r]. *)
Lemma on_model_same m l x r bm :
  bm !! m = row m (x :: l) ->
  on_model m (credit (tokens_sub (pr_tokens r) (pr_tokens x)) 0) bm !! m = row m (r :: l).
Proof.
  intros Hm. unfold on_model. rewrite lookup_insert_eq, Hm, row_default. unfold credit, row. simpl.
  do 2 f_equal; [i64_eq|]. apply tokens_add_sub. rewrite !(vplus_comm (pr_tokens _) (vsum _)).
  rewrite <-!vplus_assoc. f_equal. apply vplus_comm.
Qed.

Definition named (rs : list ParsedRecord) : Prop :=
  Forall (fun r => pr_has_usage r = true -> pr_model r <> "") rs.
#[export] Instance named_dec rs : Decision (named rs) := _.

Lemma of_model_cons m r l :
  of_model m (r :: l) = if decide (pr_model r = m) then r :: of_model m l else of_model m l.
Proof. unfold of_model. by rewrite filter_cons. Qed.
#[export] Instance of_model_perm m : Proper (Permutation ==> Permutation) (of_model m).
Proof. unfold of_model. solve_proper. Qed.

Lemma next_models_rows rs a r m :
  named (rs ++ [r]) -> Z.of_nat (length rs) < 2 ^ 63 -> pr_has_usage r = true ->
  agg_counts rs a -> (forall m, ag_by_model a !! m = row m (of_model m (counted rs))) ->
  next_models r a !! m = row m (of_model m (counted (rs ++ [r]))).
Proof.
  intros Hnamed Hlen Hu Ha Hrows.
  assert (pr_model r <> "") as Hr.
  { apply (proj1 (Forall_forall _ _) Hnamed); [|done]. apply elem_of_app. right. by left. }
  destruct (counted_replace rs r Hu) as (rest & Hperm & -> & _).
  rewrite (Permutation_app_comm rest [r]). simpl. rewrite of_model_cons.
  unfold next_models. rewrite (previous_state rs a r Ha), (new_turn_state rs a r Ha). unfold state_of.
  destruct (superseded r rs) as [x|] eqn:Hs; cbn [option_list app rs_model rs_tokens no_request] in *.
  - assert (pr_model x <> "") as Hx.
    { assert (x ∈ counted rs) as [Hin Hux]%elem_of_counted by (rewrite Hperm; left).
      apply Forall_app in Hnamed as [Hnamed _]. by apply (proj1 (Forall_forall _ _) Hnamed). }
    rewrite (proj2 (is_empty_false _) Hx). simpl.
    assert (forall m, ag_by_model a !! m = row m (of_model m (x :: rest))) as Hrow.
    { intros m'. by rewrite Hrows, Hperm. }
    assert (Z.of_nat (length (of_model (pr_model x) rest)) < 2 ^ 63) as Hshort.
    { pose proof (of_model_length (pr_model x) rest). pose proof (counted_length rs) as Hc.
      rewrite Hperm in Hc. simpl in Hc. lia. }
    destruct (String.eqb_spec (pr_model x) (pr_model r)) as [Heq|Hne].
    + case_decide as Hm.
      * subst m. apply (on_model_same _ _ x). by rewrite Hrow, of_model_cons, decide_True.
      * rewrite on_model_other by done. rewrite Hrow, of_model_cons, decide_False by congruence. done.
    + case_decide as Hm.
      * subst m. apply credit_row. rewrite debit_model_other, Hrow by done.
        by rewrite of_model_cons, decide_False.
      * rewrite on_model_other by done. destruct (decide (pr_model x = m)) as [<-|Hxm].
        -- apply debit_row; [done|]. by rewrite Hrow, of_model_cons, decide_True.
        -- rewrite debit_model_other, Hrow by done. by rewrite of_model_cons, decide_False.
  - simpl. rewrite credit_from_zero. case_decide as Hm.
    + subst m. apply credit_row. by rewrite Hrows, Hperm.
    + rewrite on_model_other by done. by rewrite Hrows, Hperm.
Qed.

Lemma model_rows rs m :
  named rs -> Z.of_nat (length rs) <= 2 ^ 63 ->
  ag_by_model (ingest_all rs) !! m = row m (of_model m (counted rs)).
Proof.
  revert m. induction rs as [|r rs IH] using rev_ind; intros m Hnamed Hlen; [done|].
  rewrite length_app in Hlen. simpl in Hlen. rewrite ingest_all_snoc.
  pose proof (proj1 (Forall_app _ _ _) Hnamed) as [Hn _].
  destruct (pr_has_usage r) eqn:Hu.
  - destruct (ingest_usage_fields r (ingest_all rs) Hu) as (_ & _ & _ & ->).
    apply next_models_rows; try done; [lia|apply ingest_all_counts|].
    intros m'. apply IH; [done|lia].
  - rewrite counted_no_usage, <-IH by (done || lia). unfold ingest. rewrite Hu. simpl.
    destruct (note_session_frame r (ingest_all rs)) as (_ & _ & _ & _ & Hs).
    destruct (note_mcp_frame (pr_mcp_proxy r) (pr_mcp_proxy r) (note_session r (ingest_all rs)))
      as (_ & _ & _ & ->). by rewrite Hs.
Qed.

(** ** The rows share out the totals, whatever the names of the models *)

(** A counter of a row: its turns or one kind of tokens. *)
Inductive counter := Turns | Input | Output | CacheRead | CacheCreation.
Definition of_tokens (c : counter) (t : Tokens) : Z :=
  match c with
  | Turns => 0 | Input => tk_input t | Output => tk_output t
  | CacheRead => tk_cache_read t | CacheCreation => tk_cache_creation t
  end.
Definition of_row (c : counter) (mt : ModelTotals) : Z :=
  match c with Turns => mt_turns mt | _ => of_tokens c (mt_totals mt) end.
Definition turns_in (c : counter) (n : Z) : Z := match c with Turns => n | _ => 0 end.

Definition rows_sum (c : counter) (bm : gmap string ModelTotals) : Z :=
  map_fold (fun _ mt n => of_row c mt + n) 0 bm.

Definition row_or_zero (m : string) (bm : gmap string ModelTotals) : ModelTotals :=
  default (mkModelTotals m 0 no_tokens) (bm !! m).

Lemma rows_sum_delete c m bm :
  rows_sum c bm = of_row c (row_or_zero m bm) + rows_sum c (delete m bm).
Proof.
  unfold row_or_zero. destruct (bm !! m) as [mt|] eqn:Hm; simpl.
  - unfold rows_sum. rewrite (map_fold_delete_L _ _ m mt bm); [done| |done]. intros. lia.
  - rewrite delete_id by done. by destruct c.
Qed.
Lemma rows_sum_insert c m mt bm :
  rows_sum c (<[m := mt]> bm) = of_row c mt + rows_sum c (delete m bm).
Proof.
  rewrite (rows_sum_delete c m). unfold row_or_zero. rewrite lookup_insert_eq. simpl.
  by rewrite delete_insert_eq.
Qed.

Definition same (a b : Z) : Prop := i64_wrap a = i64_wrap b.

Lemma rows_sum_on_model c m f bm n :
  (forall mt, same (of_row c (f mt)) (of_row c mt + n)) ->
  same (rows_sum c (on_model m f bm)) (rows_sum c bm + n).
Proof.
  intros Hf. unfold on_model. rewrite rows_sum_insert, (rows_sum_delete c m bm).
  fold (row_or_zero m bm). unfold same in *.
  rewrite <-(wrap_add_l (of_row c (f _))), Hf. i64_eq.
Qed.

Lemma of_row_credit c t n mt : same (of_row c (credit t n mt)) (of_row c mt + (of_tokens c t + turns_in c n)).
Proof. unfold same. destruct c, mt as [? ? []], t; simpl; i64_eq. Qed.
Lemma of_row_debit c t n mt : same (of_row c (debit t n mt)) (of_row c mt + - (of_tokens c t + turns_in c n)).
Proof. unfold same. destruct c, mt as [? ? []], t; simpl; i64_eq. Qed.

Lemma rows_sum_debit c m t bm :
  same (rows_sum c (debit_model m t bm)) (rows_sum c bm + - (of_tokens c t + turns_in c 1)).
Proof.
  etrans; [|apply (rows_sum_on_model c m (debit t 1)); intros; apply of_row_debit].
  unfold debit_model. destruct (on_model m (debit t 1) bm !! m) as [mt|] eqn:Hm; [|done].
  case_match eqn:Hz; [|done]. apply andb_true_iff in Hz as [Hz1%bool_decide_eq_true Hz2%bool_decide_eq_true].
  rewrite (rows_sum_delete c m (on_model _ _ _)). unfold row_or_zero. rewrite Hm. simpl.
  unfold same. f_equal. destruct c; simpl; rewrite ?Hz1, ?Hz2; simpl; lia.
Qed.

Lemma rows_sum_next c rs a r :
  agg_counts rs a ->
  same (rows_sum c (next_models r a))
       (rows_sum c (ag_by_model a)
        + (of_tokens c (pr_tokens r) - of_tokens c (rs_tokens (previous r a)) + turns_in c (new_turn r a))).
Proof.
  intros Ha. unfold next_models. rewrite (previous_state rs a r Ha), (new_turn_state rs a r Ha).
  case_match eqn:Hsame.
  - etrans; [apply rows_sum_on_model; intros; apply of_row_credit|]. unfold same.
    destruct c, (pr_tokens r), (rs_tokens (state_of rs r)); simpl; rewrite ?Z.add_0_r; i64_eq.
  - unfold state_of in *. destruct (superseded r rs) as [x|]; [|done].
    etrans; [apply rows_sum_on_model; intros; apply of_row_credit|]. unfold same. simpl.
    rewrite <-wrap_add_l, rows_sum_debit. destruct c; simpl; i64_eq.
Qed.

Lemma rows_share_totals c rs :
  same (rows_sum c (ag_by_model (ingest_all rs)))
       (of_tokens c (ag_cumulative (ingest_all rs)) + turns_in c (ag_turns (ingest_all rs))).
Proof.
  induction rs as [|r rs IH] using rev_ind; [by destruct c|]. rewrite ingest_all_snoc.
  pose proof (ingest_all_counts rs) as Ha. set (a := ingest_all rs) in *. unfold same in *.
  destruct (pr_has_usage r) eqn:Hu.
  - destruct (ingest_usage_fields r a Hu) as (_ & -> & -> & ->).
    rewrite (rows_sum_next c rs a r Ha), <-wrap_add_l, IH.
    destruct c, (ag_cumulative a), (pr_tokens r), (rs_tokens (previous r a)); simpl;
      rewrite ?Z.add_0_r; i64_eq.
  - unfold ingest. rewrite Hu. simpl.
    destruct (note_session_frame r a) as (_ & Hs2 & Hs3 & _ & Hs5).
    destruct (note_mcp_frame (pr_mcp_proxy r) (pr_mcp_proxy r) (note_session r a)) as (_ & -> & -> & ->).
    by rewrite Hs2, Hs3, Hs5.
Qed.

Lemma row_names_NoDup (bm : gmap string ModelTotals) :
  (forall k mt, bm !! k = Some mt -> mt_model mt = k) -> NoDup (mt_model <$> btree_values bm).
Proof.
  intros Hkey. enough (mt_model <$> btree_values bm = btree_keys bm) as -> by apply btree_keys_NoDup.
  unfold btree_values, btree_keys. rewrite <-list_fmap_compose. apply list_fmap_ext.
  intros i [k mt] Hi%list_elem_of_lookup_2%elem_of_btree_to_list. simpl. by apply Hkey.
Qed.

(** C30: Request-level deduplication is exact.  After any list of records, the totals of
    the aggregator are the sums (in [i64]) over the records that count, those with
    usage that no later record with the same request key revises: tokens, one turn per
    counted record, and the MCP proxy, which a request keeps once a revision of it used
    an MCP tool.  A request key is counted at most once. *)
Theorem usage_counts_each_request_once rs :
  let a := ingest_all rs in
  ag_cumulative a = vwrap (vsum (pr_tokens <$> counted rs)) /\
  ag_turns a = i64_wrap (Z.of_nat (length (counted rs))) /\
  ag_cumulative_mcp a = vwrap (vplus (vsum (pr_mcp_proxy <$> plain rs))
                                     (vsum (proxy_of rs <$> counted rs))) /\
  forall k, k <> "" -> (length (filter (keyed k) (counted rs)) <= 1)%nat.
Proof.
  destruct (ingest_all_counts rs) as [_ Hc Ht Hm]. repeat split; try done.
  intros k Hk. by apply counted_once.
Qed.

(** Per-model accounting is exact.  If every record with usage names its model, the
    snapshot has a row for exactly the models of the counted records, in the order of
    their names, and each row holds the turns and the tokens of its records: revisions
    that change the model move their share, and emptied rows disappear. *)
Theorem model_rows_are_exact rs path :
  named rs -> Z.of_nat (length rs) <= 2 ^ 63 ->
  let rows := us_by_model (snapshot path (ingest_all rs)) in
  (forall mt, mt ∈ rows <-> row (mt_model mt) (of_model (mt_model mt) (counted rs)) = Some mt) /\
  StronglySorted model_le rows /\ NoDup (mt_model <$> rows).
Proof.
  intros Hnamed Hlen rows.
  assert (rows ≡ₚ btree_values (ag_by_model (ingest_all rs))) as Hperm by apply merge_sort_Permutation.
  assert (forall k mt, ag_by_model (ingest_all rs) !! k = Some mt -> mt_model mt = k) as Hkey.
  { intros k mt. rewrite model_rows by done. unfold row. case_match; by intros [= <-]. }
  split; [|split].
  - intros mt. rewrite Hperm, elem_of_btree_values. split.
    + intros [k Hk]. rewrite (Hkey _ _ Hk). by rewrite <-model_rows.
    + intros Hk. exists (mt_model mt). by rewrite model_rows.
  - apply (StronglySorted_merge_sort model_le).
  - rewrite Hperm. apply (row_names_NoDup _ Hkey).
Qed.

(** The rows per model share out the totals of a transcript: for turns and for each
    kind of tokens, they add up (in [i64]) to the total, also when models change between
    revisions or have no name. *)
Theorem models_share_the_totals c rs :
  i64_wrap (rows_sum c (ag_by_model (ingest_all rs))) =
  i64_wrap (of_tokens c (ag_cumulative (ingest_all rs)) + turns_in c (ag_turns (ingest_all rs))).
Proof. apply rows_share_totals. Qed.
