(* ===== verification/UsageHistory.v ===== *)
(** * Usage history: transcripts, buckets and their attribution to workspaces

    history.rs of ax-usage with the session scan of codex.rs.  Transcript files are
    scanned into series of time buckets, series are attributed to the workspaces asked
    for, and rolled up per agent and per workspace.

    Files are the interface [TranscriptFs]; a directory is a finite tree, read once.
    chrono panics when a date leaves its range: [Panic] is a fault beside the errors the
    functions return. *)

From stdpp Require Import prelude gmap strings list fin_maps sorting.
From S2P Require Import Prelude.
From S2P Require Import Paths ConfigSchema.
From S2P Require Import RustStr.
From S2P Require Import RustText.
From S2P Require Import Usage.

Open Scope Z_scope.
Open Scope ax_scope.

(** ** Dates and durations

    A [std::time::Duration] is a count of nanoseconds, its seconds are a [u64].  chrono's
    durations hold at most [i64::MAX] milliseconds, its dates lie in the years -262143
    to 262142. *)

Definition as_secs (d : Z) : Z := d / nanos.
Definition chrono_from_std (d : Z) : option Z :=
  if d <=? i64_max * 1000000 then Some d else None.
Definition DATE_MIN : Z := secs (-8334601228800).
Definition DATE_MAX : Z := secs 8210266876799 + 999999999.
Definition date_ok (t : Z) : bool := (DATE_MIN <=? t) && (t <=? DATE_MAX).

Inductive HistoryError :=
| HistoryRead (path : string) (source : IoError)
| HistoryParse (source : string).

Inductive Fault :=
| Raised (e : HistoryError)
| Panic.

Definition date_add (t d : Z) : result Fault Z := if date_ok (t + d) then Ok (t + d) else Err Panic.

Definition DEFAULT_HISTORY_WINDOW : Z := secs (3 * 60 * 60).
Definition DEFAULT_BUCKET_SIZE : Z := secs (5 * 60).

Record HistoryQuery := mkHistoryQuery {
  q_since : Z;
  q_until : Z;
  q_bucket_size : Z;
}.

Definition normalized (q : HistoryQuery) (now : Z) : result Fault HistoryQuery :=
  let bucket := if as_secs (q_bucket_size q) =? 0 then DEFAULT_BUCKET_SIZE else q_bucket_size q in
  let until := if timestamp (q_until q) =? 0 then now else q_until q in
  since ← (if (timestamp (q_since q) =? 0) || (until <=? q_since q)
           then date_add until (- DEFAULT_HISTORY_WINDOW) else Ok (q_since q));
  Ok (mkHistoryQuery since until bucket).

(** [epoch - epoch.rem_euclid(secs)]; the number of seconds is cast from [u64]. *)
Definition truncate_to_bucket (ts bucket : Z) : Z :=
  let secs_ := i64_wrap (as_secs bucket) in
  if secs_ =? 0 then ts
  else
    let epoch := timestamp ts in
    let truncated := secs (epoch - epoch `mod` Z.abs secs_) in
    if date_ok truncated then truncated else ts.

(** ** Data *)

Record Bucket := mkBucket {
  bk_start : Z;
  bk_end : Z;
  bk_tokens : Tokens;
  bk_total : Z;
  bk_mcp_proxy : MCPProxyMetrics;
  bk_turns : Z;
}.

Record CurrentSnapshot := mkCurrentSnapshot {
  cs_last_activity : option Z;
  cs_current_context : Tokens;
  cs_current_total : Z;
  cs_current_mcp_proxy : MCPProxyMetrics;
  cs_current_model : string;
  cs_cumulative_totals : Tokens;
  cs_cumulative_total : Z;
  cs_cumulative_mcp_proxy : MCPProxyMetrics;
  cs_turns : Z;
}.
Definition no_snapshot : CurrentSnapshot :=
  mkCurrentSnapshot None no_tokens 0 no_mcp "" no_tokens 0 no_mcp 0.

Record AgentHistory := mkAgentHistory {
  ah_agent : string;
  ah_available : bool;
  ah_latest_session_id : string;
  ah_latest_transcript : string;
  ah_current_snapshot : CurrentSnapshot;
  ah_recent_buckets : list Bucket;
  ah_source_transcript_count : Z;
}.

Record WorkspaceHistory := mkWorkspaceHistory {
  wh_workspace : string;
  wh_dir : string;
  wh_available : bool;
  wh_unavailable_reason : string;
  wh_current_snapshot : CurrentSnapshot;
  wh_recent_buckets : list Bucket;
  wh_agents : list AgentHistory;
}.

Record TranscriptSeries := mkTranscriptSeries {
  se_cwd : string;
  se_session_id : string;
  se_agent : string;
  se_workspace_hint : string;
  se_transcript : string;
  se_current : CurrentSnapshot;
  se_buckets : list Bucket;
}.
#[export] Instance TranscriptSeries_eta : Updatable TranscriptSeries := fun s =>
  mkTranscriptSeries (se_cwd s) (se_session_id s) (se_agent s) (se_workspace_hint s)
    (se_transcript s) (se_current s) (se_buckets s).

Record WorkspaceBinding := mkWorkspaceBinding {
  wb_name : string;
  wb_dir : string;
  wb_claude_project_dir : option string;
  wb_codex_homes : list string;
}.

Record HistoryResponse := mkHistoryResponse {
  hr_since : Z;
  hr_until : Z;
  hr_bucket_minutes : Z;
  hr_workspaces : list WorkspaceHistory;
}.

Record DirScanState := mkDirScanState {
  project_exists : bool;
  transcripts_found : bool;
  ds_series : list TranscriptSeries;
}.

Record CodexScanResult := mkCodexScanResult {
  home_exists : bool;
  sessions_found : bool;
  cr_series : list TranscriptSeries;
}.

(** ** Files *)

(** What [read_dir] gives: entries until the end or until an error. *)
Inductive Dir :=
| Unreadable (e : IoError)
| Readable (es : Entries)
with Entries :=
| NoMore
| EntryError (e : IoError)
| UntypedEntry (name : string) (e : IoError)
| SubDir (name : string) (d : Dir) (rest : Entries)
| OtherEntry (name : string) (rest : Entries).

Class TranscriptFs (F : Type) := {
  tf_exists : F -> string -> bool;
  tf_dir : F -> string -> Dir;
  tf_lines : F -> string -> result IoError (list (result IoError string));
  tf_modified : F -> string -> option Z;
  (** the names in a directory whose entries could be read, if it could be opened *)
  tf_names : F -> string -> option (list string);
}.

(** [Path::extension] of a file with this name. *)
Fixpoint before_dot (r : list Ascii.ascii) : option (list Ascii.ascii * list Ascii.ascii) :=
  match r with
  | [] => None
  | a :: r =>
      if decide (a = dot) then Some ([], r)
      else '(ext, stem) ← before_dot r; Some (a :: ext, stem)
  end.
Definition extension (name : string) : option string :=
  match before_dot (rev (bytes name)) with
  | Some (ext, _ :: _) => Some (of_bytes (rev ext))
  | _ => None
  end.
Definition is_jsonl (name : string) : bool := bool_decide (extension name = Some "jsonl").

(** [PathBuf] is ordered by components. *)
Fixpoint components_le (a b : list string) : Prop :=
  match a, b with
  | [], _ => True
  | _ :: _, [] => False
  | x :: a, y :: b => if decide (x = y) then components_le a b else String.le x y
  end.
#[export] Instance components_le_dec a b : Decision (components_le a b).
Proof.
  revert b. induction a as [|x a IH]; intros [|y b]; simpl; try apply _. case_decide; apply _.
Defined.
Definition path_le (p q : string) : Prop := components_le (components p) (components q).
#[export] Instance path_le_dec : RelDecision path_le := fun p q => components_le_dec _ _.

Fixpoint walk (dir : string) (d : Dir) (out : list string) : result IoError (list string) :=
  match d with
  | Unreadable e => Err e
  | Readable es => walk_entries dir es out
  end
with walk_entries (dir : string) (es : Entries) (out : list string)
  : result IoError (list string) :=
  match es with
  | NoMore => Ok out
  | EntryError e | UntypedEntry _ e => Err e
  | SubDir name d rest =>
      match walk (join dir name) d out with
      | Ok out => walk_entries dir rest out
      | Err e => Err e
      end
  | OtherEntry name rest =>
      walk_entries dir rest (if is_jsonl name then out ++ [join dir name] else out)
  end.

(** ** Small helpers *)

Definition ends_strip (s suffix : string) : option string :=
  if ends_with s suffix then Some (take_bytes (String.length s - String.length suffix) s) else None.

Definition agent_from_transcript_path (path : string) : string :=
  match file_name path with
  | None => "main"
  | Some base =>
      match strip_prefix base "agent-" ≫= fun s => ends_strip s ".jsonl" with
      | Some stripped => stripped
      | None => "main"
      end
  end.

Definition clean_path (path : string) : string := trim path.

Definition newer_snapshot (candidate current : option Z) : bool :=
  match candidate, current with
  | None, _ => false
  | Some _, None => true
  | Some c, Some cur => cur <? c
  end.

Definition merge_series_metadata (s : TranscriptSeries) (rec : ParsedRecord) : TranscriptSeries :=
  let s := if is_empty (se_session_id s) && negb (is_empty (pr_session_id rec))
           then s <| se_session_id := pr_session_id rec |> else s in
  let s := if is_empty (se_cwd s) && negb (is_empty (pr_cwd rec))
           then s <| se_cwd := clean_path (pr_cwd rec) |> else s in
  let s := if negb (is_empty (pr_agent_id rec)) then s <| se_agent := pr_agent_id rec |> else s in
  if is_empty (se_workspace_hint s) && negb (is_empty (pr_workspace_hint rec))
  then s <| se_workspace_hint := pr_workspace_hint rec |> else s.

(** [BTreeMap<DateTime<Utc>, V>::into_values]. *)
Definition time_le {V} (p q : Z * V) : Prop := p.1 <= q.1.
#[export] Instance time_le_dec {V} : RelDecision (@time_le V) := fun p q => decide (p.1 <= q.1).
Definition into_values {V} (m : gmap Z V) : list V :=
  (merge_sort time_le (map_to_list m)).*2.

(** A fold that stops at the first error, as a [for] loop with [?]. *)
Fixpoint try_fold {E S A} (f : S -> A -> result E S) (s : S) (l : list A) : result E S :=
  match l with
  | [] => Ok s
  | x :: l => match f s x with Ok s => try_fold f s l | Err e => Err e end
  end.

(** ** Scanning one transcript *)

Section scan.
Context {F : Type} `{!TranscriptFs F} `{!TranscriptJson}.
Context (q : HistoryQuery).

Definition bucket_duration (size : Z) : Z := default 0 (chrono_from_std size).

(** [buckets.entry(start).or_insert_with(..)]: the end is computed for a new bucket. *)
Definition bucket_entry (buckets : gmap Z Bucket) (start : Z) : result Fault Bucket :=
  match buckets !! start with
  | Some b => Ok b
  | None =>
      end_ ← date_add start (bucket_duration (q_bucket_size q));
      Ok (mkBucket start end_ no_tokens 0 no_mcp 0)
  end.

(** The conditional updates of a bucket. *)
Definition add_turn (e : IngestResult) (b : Bucket) : Bucket :=
  let b := if decide (tokens_delta e = no_tokens) then b
           else mkBucket (bk_start b) (bk_end b) (tokens_add (bk_tokens b) (tokens_delta e))
                  (i64_wrap (bk_total b + tokens_total (tokens_delta e))) (bk_mcp_proxy b) (bk_turns b) in
  if turn_delta e =? 0 then b
  else mkBucket (bk_start b) (bk_end b) (bk_tokens b) (bk_total b) (bk_mcp_proxy b)
         (i64_wrap (bk_turns b + turn_delta e)).
Definition add_effect (e : IngestResult) (b : Bucket) : Bucket :=
  let b := add_turn e b in
  if decide (mcp_delta e = no_mcp) then b
  else mkBucket (bk_start b) (bk_end b) (bk_tokens b) (bk_total b)
         (add_mcp (bk_mcp_proxy b) (mcp_delta e)) (bk_turns b).

Definition in_window (ts : Z) : bool := negb ((ts <? q_since q) || (q_until q <=? ts)).

Definition idle_effect (e : IngestResult) : bool :=
  (turn_delta e =? 0) && bool_decide (tokens_delta e = no_tokens)
  && bool_decide (mcp_delta e = no_mcp).

Definition bucket_effect (buckets : gmap Z Bucket) (timestamp : option Z) (e : IngestResult)
  : result Fault (gmap Z Bucket) :=
  match timestamp with
  | None => Ok buckets
  | Some ts =>
      if negb (in_window ts) then Ok buckets
      else if idle_effect e then Ok buckets
      else
        let start := truncate_to_bucket ts (q_bucket_size q) in
        b ← bucket_entry buckets start;
        Ok (<[start := add_effect e b]> buckets)
  end.

Record ScanState := mkScanState {
  sc_series : TranscriptSeries;
  sc_agg : Aggregator;
  sc_buckets : gmap Z Bucket;
}.

Definition current_of (snap : UsageSnapshot) : CurrentSnapshot := {|
  cs_last_activity := us_last_activity snap;
  cs_current_context := us_current_context snap;
  cs_current_total := tokens_total (us_current_context snap);
  cs_current_mcp_proxy := us_current_mcp snap;
  cs_current_model := us_current_model snap;
  cs_cumulative_totals := us_cumulative_totals snap;
  cs_cumulative_total := tokens_total (us_cumulative_totals snap);
  cs_cumulative_mcp_proxy := us_cumulative_mcp snap;
  cs_turns := us_turns snap;
|}.

(** A line that was read: a line that does not parse is skipped. *)
Definition scan_record (st : ScanState) (rec : ParsedRecord) : result Fault ScanState :=
  let series := merge_series_metadata (sc_series st) rec in
  let '(effect, agg) := ingest rec (sc_agg st) in
  buckets ← bucket_effect (sc_buckets st) (pr_timestamp rec) effect;
  Ok (mkScanState series agg buckets).

Definition read_line (path : string) (line : result IoError string) : result Fault string :=
  match line with Ok l => Ok l | Err e => Err (Raised (HistoryRead path e)) end.

Definition scan_line (path : string) (st : ScanState) (line : result IoError string)
  : result Fault ScanState :=
  line ← read_line path line;
  match parse_line line with
  | Err _ => Ok st
  | Ok rec => scan_record st rec
  end.

Definition open_lines (fs : F) (path : string) : result Fault (list (result IoError string)) :=
  match tf_lines fs path with Ok l => Ok l | Err e => Err (Raised (HistoryRead path e)) end.

Definition new_series (agent path : string) : TranscriptSeries :=
  mkTranscriptSeries "" "" agent "" path no_snapshot [].

Definition finish_transcript (st : ScanState) : option TranscriptSeries :=
  let series := sc_series st in
  let series := if is_empty (se_agent series) then series <| se_agent := "main" |> else series in
  let snap := snapshot (se_transcript series) (sc_agg st) in
  if negb (us_available snap) && is_empty (se_workspace_hint series)
     && is_empty (se_session_id series) && is_empty (se_cwd series)
  then None
  else Some (series <| se_current := current_of snap |> <| se_buckets := into_values (sc_buckets st) |>).

Definition scan_transcript (fs : F) (path : string) : result Fault (option TranscriptSeries) :=
  lines ← open_lines fs path;
  st ← try_fold (scan_line path)
         (mkScanState (new_series (agent_from_transcript_path path) path) new_aggregator ∅) lines;
  Ok (finish_transcript st).

Definition discover_transcripts (fs : F) (project_dir : string) : result Fault (list string) :=
  match walk project_dir (tf_dir fs project_dir) [] with
  | Ok paths => Ok (merge_sort path_le paths)
  | Err e => Err (Raised (HistoryRead project_dir e))
  end.

(** ** Codex sessions *)

Definition codex_session_kept (fs : F) (since : Z) (path : string) : bool :=
  if 0 <? timestamp since then
    match tf_modified fs path with
    | None => false
    | Some modified => negb (modified <? since)
    end
  else true.

Fixpoint walk_sessions (fs : F) (since : Z) (dir : string) (d : Dir) (out : list string)
  : result Fault (list string) :=
  match d with
  | Unreadable IoNotFound => Ok out
  | Unreadable e => Err (Raised (HistoryRead dir e))
  | Readable es => walk_session_entries fs since dir es out
  end
with walk_session_entries (fs : F) (since : Z) (dir : string) (es : Entries) (out : list string)
  : result Fault (list string) :=
  match es with
  | NoMore => Ok out
  | EntryError e => Err (Raised (HistoryRead dir e))
  | UntypedEntry name e => Err (Raised (HistoryRead (join dir name) e))
  | SubDir name d rest =>
      match walk_sessions fs since (join dir name) d out with
      | Ok out => walk_session_entries fs since dir rest out
      | Err e => Err e
      end
  | OtherEntry name rest =>
      let path := join dir name in
      walk_session_entries fs since dir rest
        (if is_jsonl name && codex_session_kept fs since path then out ++ [path] else out)
  end.

Definition discover_codex_sessions (fs : F) (sessions_dir : string) : result Fault (list string) :=
  if negb (tf_exists fs sessions_dir) then Ok []
  else out ← walk_sessions fs (q_since q) sessions_dir (tf_dir fs sessions_dir) [];
       Ok (merge_sort path_le out).

Definition codex_bucket_effect (buckets : gmap Z Bucket) (timestamp : option Z) (e : IngestResult)
  : result Fault (gmap Z Bucket) :=
  match timestamp with
  | None => Ok buckets
  | Some ts =>
      if negb (in_window ts) then Ok buckets
      else if (turn_delta e =? 0) && bool_decide (tokens_delta e = no_tokens) then Ok buckets
      else
        let start := truncate_to_bucket ts (q_bucket_size q) in
        b ← bucket_entry buckets start;
        Ok (<[start := add_turn e b]> buckets)
  end.

Definition scan_codex_line (path : string) (st : ScanState) (line : result IoError string)
  : result Fault ScanState :=
  line ← read_line path line;
  match parse_codex_line line with
  | Err _ => Ok st
  | Ok (SessionMeta session_id cwd _) =>
      let s := sc_series st in
      let s := if is_empty (se_session_id s) && negb (is_empty session_id)
               then s <| se_session_id := session_id |> else s in
      let s := if is_empty (se_cwd s) && negb (is_empty cwd) then s <| se_cwd := cwd |> else s in
      Ok (mkScanState s (sc_agg st) (sc_buckets st))
  | Ok (TokenCount ts _ delta) =>
      let s := sc_series st in
      let rec := parsed_record_from_codex (se_session_id s) (se_cwd s) ts delta in
      let '(effect, agg) := ingest rec (sc_agg st) in
      buckets ← codex_bucket_effect (sc_buckets st) ts effect;
      Ok (mkScanState s agg buckets)
  | Ok OtherLine => Ok st
  end.

Definition scan_codex_transcript (fs : F) (path : string) : result Fault (option TranscriptSeries) :=
  lines ← open_lines fs path;
  st ← try_fold (scan_codex_line path)
         (mkScanState (new_series CODEX_AGENT_NAME path) new_aggregator ∅) lines;
  let series := sc_series st in
  let snap := snapshot (se_transcript series) (sc_agg st) in
  if negb (us_available snap) && is_empty (se_session_id series) then Ok None
  else Ok (Some (series <| se_current := current_of snap |>
                        <| se_buckets := into_values (sc_buckets st) |>)).

(** [for path in paths { if let Some(s) = scan(&path)? { series.push(s) } }] *)
Definition scan_all (scan : string -> result Fault (option TranscriptSeries)) (paths : list string)
  : result Fault (list TranscriptSeries) :=
  try_fold (fun acc path =>
    s ← scan path; Ok (match s with Some s => acc ++ [s] | None => acc end)) [] paths.

Definition scan_codex_for_binding (fs : F) (home_dir : string) : result Fault CodexScanResult :=
  if negb (tf_exists fs home_dir) then Ok (mkCodexScanResult false false [])
  else
    paths ← discover_codex_sessions fs (join home_dir "sessions");
    match paths with
    | [] => Ok (mkCodexScanResult true false [])
    | _ => series ← scan_all (scan_codex_transcript fs) paths;
           Ok (mkCodexScanResult true true series)
    end.
End scan.

(** ** Roll-ups *)

Definition merge_bucket (entry bucket : Bucket) : Bucket := {|
  bk_start := bk_start entry;
  bk_end := bk_end entry;
  bk_tokens := tokens_add (bk_tokens entry) (bk_tokens bucket);
  bk_total := i64_wrap (bk_total entry + bk_total bucket);
  bk_mcp_proxy := add_mcp (bk_mcp_proxy entry) (bk_mcp_proxy bucket);
  bk_turns := i64_wrap (bk_turns entry + bk_turns bucket);
|}.

Definition with_end (duration : Z) (b : Bucket) : result Fault Bucket :=
  if timestamp (bk_end b) =? 0 then
    end_ ← date_add (bk_start b) duration;
    Ok (mkBucket (bk_start b) end_ (bk_tokens b) (bk_total b) (bk_mcp_proxy b) (bk_turns b))
  else Ok b.

Definition aggregate_step (duration : Z) (by_start : gmap Z Bucket) (bucket : Bucket)
  : result Fault (gmap Z Bucket) :=
  match by_start !! bk_start bucket with
  | Some entry => Ok (<[bk_start bucket := merge_bucket entry bucket]> by_start)
  | None => copy ← with_end duration bucket; Ok (<[bk_start bucket := copy]> by_start)
  end.

Definition aggregate_buckets (all : list (list Bucket)) (bucket_size : Z)
  : result Fault (list Bucket) :=
  by_start ← try_fold (aggregate_step (bucket_duration bucket_size)) ∅ (concat all);
  Ok (into_values by_start).

Definition add_snapshot (current snap : CurrentSnapshot) : CurrentSnapshot :=
  let newer := newer_snapshot (cs_last_activity snap) (cs_last_activity current) in {|
  cs_last_activity := if newer then cs_last_activity snap else cs_last_activity current;
  cs_current_context := tokens_add (cs_current_context current) (cs_current_context snap);
  cs_current_total := i64_wrap (cs_current_total current + cs_current_total snap);
  cs_current_mcp_proxy := add_mcp (cs_current_mcp_proxy current) (cs_current_mcp_proxy snap);
  cs_current_model := if newer then cs_current_model snap else cs_current_model current;
  cs_cumulative_totals := tokens_add (cs_cumulative_totals current) (cs_cumulative_totals snap);
  cs_cumulative_total := i64_wrap (cs_cumulative_total current + cs_cumulative_total snap);
  cs_cumulative_mcp_proxy := add_mcp (cs_cumulative_mcp_proxy current) (cs_cumulative_mcp_proxy snap);
  cs_turns := i64_wrap (cs_turns current + cs_turns snap);
|}.
Definition aggregate_snapshots (snaps : list CurrentSnapshot) : CurrentSnapshot :=
  foldl add_snapshot no_snapshot snaps.

Record Accumulator := mkAccumulator {
  acc_current : CurrentSnapshot;
  acc_buckets : list Bucket;
  acc_latest_session : string;
  acc_latest_path : string;
  acc_source_count : Z;
}.
Definition new_accumulator : Accumulator := mkAccumulator no_snapshot [] "" "" 0.

Definition accumulate (bucket_size : Z) (acc : gmap string Accumulator) (s : TranscriptSeries)
  : result Fault (gmap string Accumulator) :=
  let entry := default new_accumulator (acc !! se_agent s) in
  buckets ← aggregate_buckets [acc_buckets entry; se_buckets s] bucket_size;
  let count := i64_wrap (acc_source_count entry + 1) in
  let entry :=
    if newer_snapshot (cs_last_activity (se_current s)) (cs_last_activity (acc_current entry))
    then mkAccumulator (se_current s) buckets (se_session_id s) (se_transcript s) count
    else mkAccumulator (acc_current entry) buckets (acc_latest_session entry)
           (acc_latest_path entry) count in
  Ok (<[se_agent s := entry]> acc).

(** [main] comes first, then the names in their order. *)
Definition agent_le (a b : AgentHistory) : Prop :=
  if decide (ah_agent a = "main") then True
  else if decide (ah_agent b = "main") then False
  else String.le (ah_agent a) (ah_agent b).
#[export] Instance agent_le_dec : RelDecision agent_le.
Proof. intros a b. unfold agent_le. repeat case_decide; apply _. Defined.

Definition agent_history (p : string * Accumulator) : AgentHistory :=
  let '(name, a) := p in {|
  ah_agent := name;
  ah_available := true;
  ah_latest_session_id := acc_latest_session a;
  ah_latest_transcript := acc_latest_path a;
  ah_current_snapshot := acc_current a;
  ah_recent_buckets := acc_buckets a;
  ah_source_transcript_count := acc_source_count a;
|}.

Definition build_agent_histories (series : list TranscriptSeries) (bucket_size : Z)
  : result Fault (list AgentHistory) :=
  acc ← try_fold (accumulate bucket_size) ∅ series;
  Ok (merge_sort agent_le (agent_history <$> btree_to_list acc)).

(** ** Attribution *)

Definition unavailable_reason_for (dir : string)
    (project_exists transcripts_found codex_home_exists codex_sessions_found : bool) : string :=
  if is_empty dir then "missing_workspace_dir"
  else if negb project_exists && negb codex_home_exists then "no_project_transcripts"
  else if negb transcripts_found && negb codex_sessions_found then "no_transcripts"
  else "workspace_unattributed".

(** The directories: one that two names share is marked with the empty name. *)
Definition note_dir (unique_by_dir : gmap string string) (b : WorkspaceBinding)
  : gmap string string :=
  let dir := clean_path (wb_dir b) in
  if is_empty dir then unique_by_dir
  else match unique_by_dir !! dir with
       | Some existing => if String.eqb existing (wb_name b) then unique_by_dir
                          else <[dir := ""]> unique_by_dir
       | None => <[dir := wb_name b]> unique_by_dir
       end.

Definition push_series (assignments : gmap string (list TranscriptSeries)) (name : string)
    (s : TranscriptSeries) : gmap string (list TranscriptSeries) :=
  <[name := default [] (assignments !! name) ++ [s]]> assignments.

(** The workspace a hint names, unless its directory contradicts the series. *)
Definition hinted (binding_by_name : gmap string WorkspaceBinding) (s : TranscriptSeries)
  : option string :=
  if is_empty (se_workspace_hint s) then None
  else
    b ← binding_by_name !! se_workspace_hint s;
    if negb (is_empty (wb_dir b)) && negb (is_empty (se_cwd s))
       && negb (String.eqb (clean_path (wb_dir b)) (clean_path (se_cwd s)))
    then None else Some (wb_name b).

Definition hint_step (binding_by_name : gmap string WorkspaceBinding)
    (st : gmap string (list TranscriptSeries) * gmap string string) (s : TranscriptSeries)
  : gmap string (list TranscriptSeries) * gmap string string :=
  let '(assignments, session_workspace) := st in
  match hinted binding_by_name s with
  | None => st
  | Some name =>
      (push_series assignments name s,
       if is_empty (se_session_id s) then session_workspace
       else <[se_session_id s := name]> session_workspace)
  end.

(** Without a hint: the workspace of the session, else of the directory. *)
Definition unhinted (session_workspace unique_by_dir : gmap string string) (s : TranscriptSeries)
  : string :=
  let workspace :=
    if is_empty (se_session_id s) then ""
    else default "" (session_workspace !! se_session_id s) in
  if is_empty workspace && negb (is_empty (se_cwd s)) then
    default "" (unique_by_dir !! clean_path (se_cwd s))
  else workspace.

Definition unhinted_step (session_workspace unique_by_dir : gmap string string)
    (assignments : gmap string (list TranscriptSeries)) (s : TranscriptSeries)
  : gmap string (list TranscriptSeries) :=
  if negb (is_empty (se_workspace_hint s)) then assignments
  else
    let workspace := unhinted session_workspace unique_by_dir s in
    if is_empty workspace then assignments else push_series assignments workspace s.

Definition assign_series (bindings : list WorkspaceBinding) (series : list TranscriptSeries)
  : gmap string (list TranscriptSeries) :=
  let binding_by_name := foldl (fun m b => <[wb_name b := b]> m) ∅ bindings in
  let unique_by_dir := foldl note_dir ∅ bindings in
  let '(assignments, session_workspace) := foldl (hint_step binding_by_name) (∅, ∅) series in
  foldl (unhinted_step session_workspace unique_by_dir) assignments series.

(** ** Queries *)

Definition workspace_le (a b : WorkspaceHistory) : Prop := String.le (wh_workspace a) (wh_workspace b).
#[export] Instance workspace_le_dec : RelDecision workspace_le := fun a b => decide (String.le _ _).

Definition empty_history (workspace dir reason : string) : WorkspaceHistory :=
  mkWorkspaceHistory workspace dir false reason no_snapshot [] [].

(** The roll-up of the series of one workspace. *)
Definition available_history (workspace dir : string) (series : list TranscriptSeries)
    (bucket_size : Z) : result Fault WorkspaceHistory :=
  agents ← build_agent_histories series bucket_size;
  recent ← aggregate_buckets (ah_recent_buckets <$> agents) bucket_size;
  Ok (mkWorkspaceHistory workspace dir true ""
        (aggregate_snapshots (ah_current_snapshot <$> agents)) recent agents).

Section query.
Context {F : Type} `{!TranscriptFs F} `{!TranscriptJson}.
Context (q : HistoryQuery) (fs : F).

Definition scan_workspace_from_project_dir (workspace dir project_dir : string)
  : result Fault WorkspaceHistory :=
  if is_empty dir then Ok (empty_history workspace dir "missing_workspace_dir")
  else if negb (tf_exists fs project_dir) then
    Ok (empty_history workspace dir "no_project_transcripts")
  else
    paths ← discover_transcripts fs project_dir;
    match paths with
    | [] => Ok (empty_history workspace dir "no_transcripts")
    | _ =>
        series ← scan_all (scan_transcript q fs) paths;
        match series with
        | [] => Ok (empty_history workspace dir "workspace_unattributed")
        | _ => available_history workspace dir series (q_bucket_size q)
        end
    end.

(** The Claude scan: each directory once. *)
Definition scan_dir (project_dir : string) : result Fault DirScanState :=
  if negb (tf_exists fs project_dir) then Ok (mkDirScanState false false [])
  else
    paths ← discover_transcripts fs project_dir;
    match paths with
    | [] => Ok (mkDirScanState true false [])
    | _ => series ← scan_all (scan_transcript q fs) paths; Ok (mkDirScanState true true series)
    end.

Definition scan_binding_dir (seen : gmap string DirScanState) (b : WorkspaceBinding)
  : result Fault (gmap string DirScanState) :=
  match seen !! wb_dir b, wb_claude_project_dir b with
  | None, Some project_dir => state ← scan_dir project_dir; Ok (<[wb_dir b := state]> seen)
  | _, _ => Ok seen
  end.

(** The Codex scan: every home of a binding. *)
Definition merge_scan (acc res : CodexScanResult) : CodexScanResult :=
  mkCodexScanResult (home_exists acc || home_exists res) (sessions_found acc || sessions_found res)
    (cr_series acc ++ cr_series res).

Definition CodexScans : Type := gmap string (list TranscriptSeries) * gmap string (bool * bool).

Definition scan_binding_codex (st : CodexScans) (b : WorkspaceBinding) : result Fault CodexScans :=
  let '(codex_by_binding, codex_flags) := st in
  match wb_codex_homes b with
  | [] => Ok st
  | homes =>
      merged ← try_fold (fun acc home =>
                 res ← scan_codex_for_binding q fs home; Ok (merge_scan acc res))
                 (mkCodexScanResult false false []) homes;
      let codex_flags := <[wb_name b := (home_exists merged, sessions_found merged)]> codex_flags in
      Ok (match cr_series merged with
          | [] => codex_by_binding
          | series => <[wb_name b := series]> codex_by_binding
          end, codex_flags)
  end.

(** One workspace of the answer; its Codex series are taken out of the map. *)
Definition compose_binding (seen : gmap string DirScanState)
    (assignments : gmap string (list TranscriptSeries)) (codex_flags : gmap string (bool * bool))
    (st : gmap string (list TranscriptSeries) * list WorkspaceHistory) (b : WorkspaceBinding)
  : result Fault (gmap string (list TranscriptSeries) * list WorkspaceHistory) :=
  let '(codex_by_binding, out) := st in
  let series := default [] (assignments !! wb_name b) ++ default [] (codex_by_binding !! wb_name b) in
  let codex_by_binding := delete (wb_name b) codex_by_binding in
  match series with
  | [] =>
      let state := default (mkDirScanState false false []) (seen !! wb_dir b) in
      let '(codex_home_exists, codex_sessions_found) :=
        default (false, false) (codex_flags !! wb_name b) in
      Ok (codex_by_binding,
          out ++ [empty_history (wb_name b) (wb_dir b)
                    (unavailable_reason_for (wb_dir b) (project_exists state)
                       (transcripts_found state) codex_home_exists codex_sessions_found)])
  | _ =>
      ws ← available_history (wb_name b) (wb_dir b) series (q_bucket_size q);
      Ok (codex_by_binding, out ++ [ws])
  end.

Definition query_history (bindings : list WorkspaceBinding) : result Fault HistoryResponse :=
  let bucket_minutes := i64_wrap (as_secs (q_bucket_size q) / 60) in
  let resp := mkHistoryResponse (q_since q) (q_until q) bucket_minutes in
  match bindings with
  | [] => Ok (resp [])
  | _ =>
      seen ← try_fold scan_binding_dir ∅ bindings;
      '(codex_by_binding, codex_flags) ← try_fold scan_binding_codex (∅, ∅) bindings;
      let all_claude := concat (ds_series <$> btree_values seen) in
      let assignments := assign_series bindings all_claude in
      '(_, out) ← try_fold (compose_binding seen assignments codex_flags) (codex_by_binding, []) bindings;
      Ok (resp (merge_sort workspace_le out))
  end.
End query.
