(* ===== verification/UsageHistoryFacts.v ===== *)
(** * Usage histories: attribution and roll-ups

    [attribution] is the rule by which a series belongs to a workspace, stated without
    the passes and maps of the code.  Bucket lists are compared by [bequiv]: for every
    start, the counters of the buckets with that start add up to the same [i64] values.
    Merging and rolling up keep it. *)

From stdpp Require Import prelude gmap strings list fin_maps sorting.
From S2P Require Import Prelude.
From S2P Require Import RustStr.
From S2P Require Import Usage UsageFacts UsageHistory.
From S2P Require Import ConfigSchema.

Open Scope Z_scope.
Open Scope ax_scope.

(** ** Attribution *)

(** The workspace a hint names: the last binding of that name, unless both directories
    are known and differ. *)
Definition hint_target (bindings : list WorkspaceBinding) (s : TranscriptSeries) : option string :=
  b ← last (filter (fun b => wb_name b = se_workspace_hint s) bindings);
  if negb (is_empty (wb_dir b)) && negb (is_empty (se_cwd s))
     && negb (String.eqb (clean_path (wb_dir b)) (clean_path (se_cwd s)))
  then None else Some (wb_name b).

(** The workspace of a session: that of the last series with a hint in this session. *)
Definition session_target (bindings : list WorkspaceBinding) (series : list TranscriptSeries)
    (sid : string) : option string :=
  last (omap (fun s => if is_empty (se_workspace_hint s) then None
                       else if String.eqb (se_session_id s) sid then hint_target bindings s else None)
             series).

(** The only workspace with a directory. *)
Definition dir_owner (bindings : list WorkspaceBinding) (dir : string) : option string :=
  match wb_name <$> filter (fun b => clean_path (wb_dir b) = dir) bindings with
  | [] => None
  | n :: ns => if decide (Forall (eq n) ns) then Some n else None
  end.

Definition named_target (o : option string) : option string :=
  n ← o; if is_empty n then None else Some n.

Definition attribution (bindings : list WorkspaceBinding) (series : list TranscriptSeries)
    (s : TranscriptSeries) : option string :=
  if is_empty (se_workspace_hint s) then
    match (if is_empty (se_session_id s) then None
           else named_target (session_target bindings series (se_session_id s))) with
    | Some name => Some name
    | None =>
        if is_empty (clean_path (se_cwd s)) then None
        else named_target (dir_owner bindings (clean_path (se_cwd s)))
    end
  else hint_target bindings s.

Lemma binding_by_name_last bindings name (m : gmap string WorkspaceBinding) :
  foldl (fun m b => <[wb_name b := b]> m) m bindings !! name =
  match last (filter (fun b => wb_name b = name) bindings) with
  | Some b => Some b
  | None => m !! name
  end.
Proof.
  induction bindings as [|b bs IH] using rev_ind; [done|].
  rewrite foldl_app, filter_app, last_app. simpl. rewrite filter_cons, filter_nil.
  case_decide as Hb; simpl.
  - subst name. by rewrite lookup_insert_eq.
  - by rewrite lookup_insert_ne.
Qed.

Lemma hinted_target bindings s :
  hinted (foldl (fun m b => <[wb_name b := b]> m) ∅ bindings) s =
  if is_empty (se_workspace_hint s) then None else hint_target bindings s.
Proof.
  unfold hinted, hint_target. destruct (is_empty _); [done|].
  rewrite binding_by_name_last. by destruct (last _).
Qed.

Lemma note_dir_owner bindings dir :
  dir <> "" ->
  foldl note_dir ∅ bindings !! dir =
  match wb_name <$> filter (fun b => clean_path (wb_dir b) = dir) bindings with
  | [] => None
  | n :: ns => Some (if decide (Forall (eq n) ns) then n else "")
  end.
Proof.
  intros Hdir. induction bindings as [|b bs IH] using rev_ind; [done|].
  rewrite foldl_app, filter_app, fmap_app. simpl. rewrite filter_cons, filter_nil.
  unfold note_dir at 1. case_decide as Hb.
  - subst dir. rewrite (proj2 (is_empty_false _) Hdir), IH. simpl.
    destruct (wb_name <$> filter _ bs) as [|n ns]; simpl; [by rewrite lookup_insert_eq|].
    destruct (decide (Forall (eq n) ns)) as [Hn|Hn].
    + destruct (String.eqb_spec n (wb_name b)) as [<-|Hne].
      * rewrite IH, decide_True; [done|]. apply Forall_app. by rewrite Forall_singleton.
      * rewrite lookup_insert_eq, decide_False; [done|]. rewrite Forall_app, Forall_singleton. tauto.
    + rewrite decide_False by (rewrite Forall_app; tauto).
      case_match; [by rewrite IH|by rewrite lookup_insert_eq].
  - rewrite app_nil_r, <-IH.
    repeat case_match; try done; by rewrite lookup_insert_ne.
Qed.

Lemma lookup_note_dir bindings dir :
  dir <> "" -> default "" (foldl note_dir ∅ bindings !! dir) = default "" (dir_owner bindings dir).
Proof.
  intros Hdir. rewrite note_dir_owner by done. unfold dir_owner.
  destruct (wb_name <$> _) as [|n ns]; [done|]. by case_decide.
Qed.

Lemma note_dir_empty bindings : foldl note_dir ∅ bindings !! "" = None.
Proof.
  induction bindings as [|b bs IH] using rev_ind; [done|]. rewrite foldl_app. simpl.
  unfold note_dir at 1. destruct (is_empty _) eqn:He; [done|]. apply is_empty_false in He.
  repeat case_match; try done; by rewrite lookup_insert_ne.
Qed.

Lemma hint_pass bindings series name sid :
  let st := foldl (hint_step (foldl (fun m b => <[wb_name b := b]> m) ∅ bindings)) (∅, ∅) series in
  default [] (st.1 !! name) =
    filter (fun s => is_empty (se_workspace_hint s) = false /\ hint_target bindings s = Some name) series /\
  (sid <> "" -> st.2 !! sid = session_target bindings series sid).
Proof.
  induction series as [|s series IH] using rev_ind; [done|].
  unfold session_target in *. rewrite foldl_app, filter_app, omap_app, last_app. simpl.
  destruct (foldl (hint_step _) (∅, ∅) series) as [asg sess]. simpl in IH. destruct IH as [IH1 IH2].
  unfold hint_step. rewrite hinted_target, filter_cons, filter_nil.
  destruct (is_empty (se_workspace_hint s)) eqn:He; simpl.
  { by rewrite app_nil_r. }
  destruct (hint_target bindings s) as [n|] eqn:Ht; simpl.
  - split.
    + unfold push_series. case_decide as Hn.
      * destruct Hn as [_ [= ->]]. by rewrite lookup_insert_eq, IH1.
      * rewrite app_nil_r, lookup_insert_ne by naive_solver. done.
    + intros Hsid. destruct (String.eqb_spec (se_session_id s) sid) as [<-|Hne]; simpl.
      * rewrite (proj2 (is_empty_false _) Hsid). by rewrite lookup_insert_eq.
      * rewrite <-IH2 by done. destruct (is_empty (se_session_id s)); [done|]. by rewrite lookup_insert_ne.
  - rewrite app_nil_r. split; [done|].
    destruct (String.eqb _ _); by apply IH2.
Qed.

Lemma unhinted_target bindings series sess s :
  (forall sid, sid <> "" -> sess !! sid = session_target bindings series sid) ->
  is_empty (se_workspace_hint s) = true ->
  named_target (Some (unhinted sess (foldl note_dir ∅ bindings) s)) = attribution bindings series s.
Proof.
  intros Hsess He. unfold unhinted, attribution. rewrite He.
  assert ((if is_empty (se_session_id s) then "" else default "" (sess !! se_session_id s)) =
          default "" (if is_empty (se_session_id s) then None
                      else named_target (session_target bindings series (se_session_id s)))) as ->.
  { destruct (is_empty (se_session_id s)) eqn:Hsid; [done|]. apply is_empty_false in Hsid.
    rewrite Hsess by done. destruct (session_target _ _ _) as [n|]; [|done]. simpl.
    destruct (is_empty n) eqn:Hn; [|done]. by apply is_empty_true in Hn as ->. }
  destruct (if is_empty (se_session_id s) then None else _) as [n|] eqn:Ho; simpl.
  - assert (is_empty n = false) as Hn.
    { destruct (is_empty (se_session_id s)); [done|].
      destruct (session_target _ _ _) as [n'|]; simpl in Ho; [|done].
      destruct (is_empty n') eqn:Hn; by simplify_eq. }
    rewrite Hn. simpl. by rewrite Hn.
  - destruct (is_empty (clean_path (se_cwd s))) eqn:Hc.
    { apply is_empty_true in Hc. rewrite Hc, note_dir_empty. by destruct (is_empty (se_cwd s)). }
    assert (is_empty (se_cwd s) = false) as ->.
    { apply is_empty_false. intros Hcwd. by rewrite Hcwd in Hc. }
    simpl. apply is_empty_false in Hc. rewrite lookup_note_dir by done. unfold named_target.
    by destruct (dir_owner _ _).
Qed.

Lemma unhinted_pass bindings series all sess asg name :
  name <> "" ->
  (forall sid, sid <> "" -> sess !! sid = session_target bindings all sid) ->
  default [] (foldl (unhinted_step sess (foldl note_dir ∅ bindings)) asg series !! name) =
  default [] (asg !! name) ++
    filter (fun s => is_empty (se_workspace_hint s) = true /\ attribution bindings all s = Some name) series.
Proof.
  intros Hname Hsess. induction series as [|s series IH] using rev_ind; [by rewrite app_nil_r|].
  rewrite foldl_app, filter_app, app_assoc. simpl. rewrite <-IH, filter_cons, filter_nil.
  set (asg' := foldl _ asg series). unfold unhinted_step.
  destruct (is_empty (se_workspace_hint s)) eqn:He; simpl.
  - rewrite <-(unhinted_target bindings all sess s) by done. simpl.
    destruct (is_empty (unhinted _ _ _)) eqn:Hn; simpl; [by rewrite app_nil_r|].
    unfold push_series. case_decide as Hd.
    + destruct Hd as [_ [= ->]]. by rewrite lookup_insert_eq.
    + rewrite lookup_insert_ne by naive_solver. by rewrite app_nil_r.
  - by rewrite app_nil_r.
Qed.

Lemma assign_series_lists bindings series name :
  name <> "" ->
  default [] (assign_series bindings series !! name) =
  filter (fun s => is_empty (se_workspace_hint s) = false /\ attribution bindings series s = Some name) series
  ++ filter (fun s => is_empty (se_workspace_hint s) = true /\ attribution bindings series s = Some name) series.
Proof.
  intros Hname. unfold assign_series.
  destruct (foldl (hint_step _) (∅, ∅) series) as [asg sess] eqn:Hst.
  pose proof (fun sid => hint_pass bindings series name sid) as Hp. rewrite Hst in Hp. simpl in Hp.
  rewrite (unhinted_pass bindings series series); [|done|intros sid; apply Hp].
  f_equal. rewrite (proj1 (Hp "")). apply list_filter_iff. intros s. unfold attribution.
  destruct (is_empty (se_workspace_hint s)); naive_solver.
Qed.

Lemma filter_split_perm {A} (P : A -> bool) (Q : A -> Prop) `{!forall x, Decision (Q x)} (l : list A) :
  filter (fun x => P x = false /\ Q x) l ++ filter (fun x => P x = true /\ Q x) l ≡ₚ filter Q l.
Proof.
  induction l as [|x l IH]; [done|]. rewrite !filter_cons.
  destruct (P x); repeat case_decide; try (destruct_and?; tauto || done); simpl;
    rewrite <-?Permutation_middle; by rewrite IH.
Qed.

(** C31: Each transcript series is attributed to at most one workspace, by the documented
    rule: the series of a named workspace are exactly those whose attribution is that
    name, each as often as it was found.  A hint decides alone; without one the session
    decides, and then the directory if a single workspace has it. *)
Theorem series_are_attributed_once bindings series name :
  name <> "" ->
  default [] (assign_series bindings series !! name) ≡ₚ
  filter (fun s => attribution bindings series s = Some name) series.
Proof. intros Hname. rewrite assign_series_lists by done. apply filter_split_perm. Qed.

(** ** Buckets, up to how they are merged *)

(** All counters of a bucket. *)
Definition counts (b : Bucket) : Tokens * Z * MCPProxyMetrics * Z :=
  (bk_tokens b, bk_total b, bk_mcp_proxy b, bk_turns b).
Definition at_start (t : Z) (l : list Bucket) : list Bucket := filter (fun b => bk_start b = t) l.
Definition usage_at (t : Z) (l : list Bucket) : Tokens * Z * MCPProxyMetrics * Z :=
  vsum (counts <$> at_start t l).
Definition usage_of (l : list Bucket) : Tokens * Z * MCPProxyMetrics * Z := vsum (counts <$> l).

Definition bequiv (l k : list Bucket) : Prop := forall t, vwrap (usage_at t l) = vwrap (usage_at t k).
#[export] Instance bequiv_equivalence : Equivalence bequiv.
Proof. split; [by intros l t|intros l k H t; by rewrite (H t)|intros l k m H1 H2 t; by rewrite (H1 t)]. Qed.

#[export] Instance bequiv_perm : subrelation Permutation bequiv.
Proof. intros l k Hp t. unfold usage_at, at_start. by rewrite Hp. Qed.

Lemma usage_at_app t l k : usage_at t (l ++ k) = vplus (usage_at t l) (usage_at t k).
Proof. unfold usage_at, at_start. by rewrite filter_app, fmap_app, vsum_app. Qed.

#[export] Instance app_bequiv : Proper (bequiv ==> bequiv ==> bequiv) app.
Proof.
  intros l1 l2 Hl k1 k2 Hk t. rewrite !usage_at_app, <-(vwrap_plus (usage_at t l1)), Hl, Hk.
  apply vwrap_plus.
Qed.

Lemma counts_merge a b : counts (merge_bucket a b) = vadd (counts a) (counts b).
Proof. done. Qed.
Lemma with_end_counts d b b' : with_end d b = Ok b' -> counts b' = counts b /\ bk_start b' = bk_start b.
Proof. unfold with_end, date_add. by repeat case_match; intros; simplify_eq/=. Qed.

(** The merged map holds, per start, the sum of what went in. *)
Record merged (m : gmap Z Bucket) (l : list Bucket) : Prop := {
  merged_key t b : m !! t = Some b -> bk_start b = t;
  merged_sum t b : m !! t = Some b -> vwrap (counts b) = vwrap (usage_at t l);
  merged_none t : m !! t = None -> at_start t l = [];
}.

Lemma at_start_snoc t l b :
  at_start t (l ++ [b]) = at_start t l ++ (if decide (bk_start b = t) then [b] else []).
Proof. unfold at_start. by rewrite filter_app, filter_cons, filter_nil. Qed.

Lemma merged_insert m l b c :
  merged m l -> bk_start c = bk_start b ->
  vwrap (counts c) = vwrap (vplus (usage_at (bk_start b) l) (counts b)) ->
  merged (<[bk_start b := c]> m) (l ++ [b]).
Proof.
  intros [Hk Hs Hn] Hc Hsum. split.
  - intros t x [[<- <-]|[? Hx]]%lookup_insert_Some; [done|by apply Hk].
  - intros t x. unfold usage_at. rewrite at_start_snoc, fmap_app, vsum_app.
    intros [[<- <-]|[Hne Hx]]%lookup_insert_Some.
    + rewrite decide_True by done. simpl. by rewrite vplus_zero_r.
    + rewrite decide_False by done. simpl. rewrite vplus_zero_r. by apply Hs.
  - intros t [Hx Hne]%lookup_insert_None. rewrite at_start_snoc, decide_False by done.
    by rewrite Hn.
Qed.

Lemma aggregate_step_merged d m l b m' :
  merged m l -> aggregate_step d m b = Ok m' -> merged m' (l ++ [b]).
Proof.
  intros Hm. unfold aggregate_step. destruct (m !! bk_start b) as [e|] eqn:He.
  - intros [= <-]. pose proof (merged_key _ _ Hm _ _ He) as Hst.
    apply merged_insert; [done|done|]. rewrite counts_merge, vadd_def, vwrap_wrap.
    rewrite <-vwrap_plus, (merged_sum _ _ Hm _ _ He). apply vwrap_plus.
  - destruct (with_end d b) as [c|] eqn:Hw; simpl; [|done]. intros [= <-].
    apply with_end_counts in Hw as [Hc Hst]. apply merged_insert; [done|done|].
    unfold usage_at. rewrite (merged_none _ _ Hm _ He), Hc. simpl. by rewrite vplus_zero.
Qed.

(** A loop that stops at errors keeps an invariant of what it has seen. *)
Lemma try_fold_ind {E S A} (f : S -> A -> result E S) (P : S -> list A -> Prop) s l s' :
  P s [] -> (forall s k x s', P s k -> f s x = Ok s' -> P s' (k ++ [x])) ->
  try_fold f s l = Ok s' -> P s' l.
Proof.
  intros H0 Hstep. enough (forall k s, P s k -> try_fold f s l = Ok s' -> P s' (k ++ l)) as Hgen.
  { intros Hl. exact (Hgen [] s H0 Hl). }
  induction l as [|x l IH]; simpl; intros k s1 Hk.
  - intros [= <-]. by rewrite app_nil_r.
  - destruct (f s1 x) as [s2|] eqn:Hf; [|done]. intros Hl.
    rewrite cons_middle, app_assoc. eapply IH; [|done]. by eapply Hstep.
Qed.

(** Maps by time, in order. *)
#[export] Instance time_le_trans {V} : Transitive (@time_le V).
Proof. intros p q r. unfold time_le. lia. Qed.
#[export] Instance time_le_total {V} : Total (@time_le V).
Proof. intros p q. unfold time_le. lia. Qed.

Lemma into_values_perm {V} (m : gmap Z V) : into_values m ≡ₚ (map_to_list m).*2.
Proof. unfold into_values. by rewrite merge_sort_Permutation. Qed.

Definition in_order (l : list Bucket) : Prop := StronglySorted Z.lt (bk_start <$> l).

Lemma sorted_keys {V} (l : list (Z * V)) :
  StronglySorted time_le l -> NoDup l.*1 -> StronglySorted Z.lt l.*1.
Proof.
  induction 1 as [|p l Hl IH Hp]; simpl; [constructor|]. intros [Hp' Hnd]%NoDup_cons.
  constructor; [by apply IH|]. apply Forall_fmap. rewrite !Forall_forall in *. intros x Hx. simpl.
  specialize (Hp x Hx). unfold time_le in Hp.
  assert (p.1 <> x.1); [|lia]. intros Heq. apply Hp'. rewrite Heq. by apply list_elem_of_fmap_2.
Qed.

Lemma into_values_order (m : gmap Z Bucket) :
  (forall t b, m !! t = Some b -> bk_start b = t) -> in_order (into_values m).
Proof.
  intros Hk. unfold in_order, into_values. rewrite <-list_fmap_compose.
  enough (bk_start ∘ snd <$> merge_sort time_le (map_to_list m) = (merge_sort time_le (map_to_list m)).*1)
    as ->.
  { apply sorted_keys; [apply (StronglySorted_merge_sort time_le)|].
    rewrite merge_sort_Permutation. apply NoDup_fst_map_to_list. }
  apply list_fmap_ext. intros i [t b] Hi%list_elem_of_lookup_2. simpl.
  rewrite merge_sort_Permutation in Hi. by apply Hk, elem_of_map_to_list.
Qed.

Lemma at_start_values m t :
  (forall t b, m !! t = Some b -> bk_start b = t) ->
  at_start t (into_values m) ≡ₚ option_list (m !! t).
Proof.
  intros Hk. unfold at_start. rewrite into_values_perm.
  induction m as [|k b m Hm IH] using map_ind; [done|].
  rewrite map_to_list_insert by done. simpl. rewrite filter_cons.
  assert (bk_start b = k) as Hb by (apply Hk; by rewrite lookup_insert_eq).
  assert (forall t b, m !! t = Some b -> bk_start b = t) as Hk'.
  { intros t' b' Hm'. apply Hk. rewrite lookup_insert_ne; [done|]. congruence. }
  case_decide as Ht; rewrite (IH Hk').
  - assert (k = t) as -> by congruence. by rewrite lookup_insert_eq, Hm.
  - rewrite lookup_insert_ne by congruence. done.
Qed.

Lemma merged_values m l : merged m l -> bequiv (into_values m) l /\ in_order (into_values m).
Proof.
  intros Hm. split; [|apply into_values_order, Hm]. intros t. unfold usage_at at 1.
  rewrite at_start_values by apply Hm. destruct (m !! t) as [b|] eqn:Hb; simpl.
  - rewrite vplus_zero_r. by apply (merged_sum _ _ Hm).
  - unfold usage_at. by rewrite (merged_none _ _ Hm _ Hb).
Qed.

Lemma aggregate_buckets_spec all size out :
  aggregate_buckets all size = Ok out -> bequiv out (concat all) /\ in_order out.
Proof.
  unfold aggregate_buckets. destruct (try_fold _ _ _) as [m|] eqn:Hm; simpl; [|done]. intros [= <-].
  apply (try_fold_ind _ merged) in Hm; [|split; [done|done|done]|intros; by eapply aggregate_step_merged].
  by apply merged_values.
Qed.

(** ** Roll-ups *)

Definition buckets_of (series : list TranscriptSeries) : list Bucket := concat (se_buckets <$> series).
Definition of_agent (name : string) (series : list TranscriptSeries) : list TranscriptSeries :=
  filter (fun s => se_agent s = name) series.
Definition all_buckets (acc : gmap string Accumulator) : list Bucket :=
  concat ((fun p => acc_buckets p.2) <$> map_to_list acc).

Record accumulated (acc : gmap string Accumulator) (series : list TranscriptSeries) : Prop := {
  ac_agent name e : acc !! name = Some e ->
    of_agent name series <> [] /\ bequiv (acc_buckets e) (buckets_of (of_agent name series)) /\ in_order (acc_buckets e) /\
    acc_source_count e = i64_wrap (Z.of_nat (length (of_agent name series)));
  ac_absent name : acc !! name = None -> of_agent name series = [];
  ac_all : bequiv (all_buckets acc) (buckets_of series);
}.

Lemma buckets_of_app l k : buckets_of (l ++ k) = buckets_of l ++ buckets_of k.
Proof. unfold buckets_of. by rewrite fmap_app, concat_app. Qed.
Lemma of_agent_snoc name series s :
  of_agent name (series ++ [s]) = of_agent name series ++ (if decide (se_agent s = name) then [s] else []).
Proof. unfold of_agent. by rewrite filter_app, filter_cons, filter_nil. Qed.

#[export] Instance concat_perm {A} : Proper (Permutation ==> Permutation) (@concat A).
Proof.
  induction 1; simpl; [done|by f_equiv| |by etrans]. rewrite !app_assoc. by rewrite (Permutation_app_comm y).
Qed.

(** The buckets of all agents, with one agent taken out. *)
Lemma all_buckets_split acc name :
  all_buckets acc ≡ₚ acc_buckets (default new_accumulator (acc !! name)) ++ all_buckets (delete name acc).
Proof.
  unfold all_buckets. destruct (acc !! name) as [e|] eqn:He; simpl.
  - by rewrite <-(map_to_list_delete acc name e He).
  - by rewrite delete_id.
Qed.
Lemma all_buckets_insert acc name e :
  all_buckets (<[name := e]> acc) ≡ₚ acc_buckets e ++ all_buckets (delete name acc).
Proof.
  rewrite (all_buckets_split _ name), lookup_insert_eq. simpl. by rewrite delete_insert_eq.
Qed.

Lemma accumulate_step size acc series s acc' :
  accumulated acc series -> accumulate size acc s = Ok acc' -> accumulated acc' (series ++ [s]).
Proof.
  intros [Hag Habs Hall]. unfold accumulate. set (entry := default new_accumulator (acc !! se_agent s)).
  assert (bequiv (acc_buckets entry) (buckets_of (of_agent (se_agent s) series)) /\
          acc_source_count entry = i64_wrap (Z.of_nat (length (of_agent (se_agent s) series)))) as [He Hcount].
  { unfold entry. destruct (acc !! se_agent s) as [e|] eqn:Hl; simpl.
    - destruct (Hag _ _ Hl) as (_ & ? & _ & ?). done.
    - by rewrite (Habs _ Hl). }
  destruct (aggregate_buckets _ size) as [bs|] eqn:Hb; simpl; [|done].
  apply aggregate_buckets_spec in Hb as [Hb Hord]. simpl in Hb. rewrite app_nil_r in Hb.
  set (e' := if newer_snapshot _ _ then _ else _). intros [= <-].
  assert (acc_buckets e' = bs /\ acc_source_count e' = i64_wrap (acc_source_count entry + 1)) as [He1 He2].
  { unfold e'. by destruct (newer_snapshot _ _). }
  split.
  - intros name e. rewrite of_agent_snoc. intros [[<- <-]|[Hne Hl]]%lookup_insert_Some.
    + rewrite decide_True by done. rewrite He1, He2, Hcount, buckets_of_app, length_app.
      split; [by intros [_ ?]%app_eq_nil|]. split; [|split; [done|simpl; i64_eq]].
      unfold buckets_of at 2. simpl.
      by rewrite app_nil_r, Hb, He.
    + rewrite decide_False, app_nil_r by done. by apply Hag.
  - intros name [Hl Hne]%lookup_insert_None. by rewrite of_agent_snoc, decide_False, (Habs _ Hl).
  - rewrite all_buckets_insert, buckets_of_app, He1, Hb, <-Hall, (all_buckets_split acc (se_agent s)).
    fold entry. unfold buckets_of. simpl. rewrite app_nil_r, <-!app_assoc.
    by rewrite (Permutation_app_comm (se_buckets s)).
Qed.

Lemma accumulated_all size series acc :
  try_fold (accumulate size) ∅ series = Ok acc -> accumulated acc series.
Proof.
  apply (try_fold_ind _ accumulated); [|intros; by eapply accumulate_step].
  split; [done|done|done].
Qed.

(** Equal usage per start is equal usage in total. *)
Lemma usage_by_start (starts : list Z) l :
  NoDup starts -> (forall b, b ∈ l -> bk_start b ∈ starts) ->
  usage_of l = vsum ((fun t => usage_at t l) <$> starts).
Proof.
  intros Hnd. induction l as [|b l IH]; intros Hin.
  { unfold usage_of, usage_at. simpl. symmetry. by apply vsum_zeros. }
  assert (bk_start b ∈ starts) as Hb by (apply Hin; left).
  apply elem_of_Permutation in Hb as [rest Hrest].
  assert (bk_start b ∉ rest) as Hnot by (rewrite Hrest in Hnd; by apply NoDup_cons in Hnd as [? _]).
  change (usage_of (b :: l)) with (vplus (counts b) (usage_of l)). rewrite IH by (intros; apply Hin; by right).
  rewrite Hrest. simpl. unfold usage_at at 3. unfold at_start. rewrite filter_cons_True by done.
  change (vsum (counts <$> b :: filter _ l)) with (vplus (counts b) (usage_at (bk_start b) l)).
  rewrite vplus_assoc. f_equal. f_equal. apply list_fmap_ext. intros i t Hi%list_elem_of_lookup_2.
  unfold usage_at, at_start. rewrite filter_cons_False; [done|]. congruence.
Qed.

Lemma vwrap_vsum {T} `{!I64Vec T} `{!I64VecOk T} (l : list T) : vwrap (vsum (vwrap <$> l)) = vwrap (vsum l).
Proof.
  induction l as [|x l IH]; [done|]. csimpl. rewrite <-(vwrap_plus (vwrap x)), IH, vwrap_wrap.
  apply vwrap_plus.
Qed.

Lemma bequiv_total l k : bequiv l k -> vwrap (usage_of l) = vwrap (usage_of k).
Proof.
  intros He. set (starts := remove_dups (bk_start <$> l ++ k)).
  assert (NoDup starts) as Hnd by apply NoDup_remove_dups.
  assert (forall b, b ∈ l ++ k -> bk_start b ∈ starts) as Hin.
  { intros b Hb. apply elem_of_remove_dups. by apply list_elem_of_fmap_2. }
  rewrite (usage_by_start starts l), (usage_by_start starts k) by
    (try done; intros; apply Hin, elem_of_app; auto).
  rewrite <-vwrap_vsum, <-(vwrap_vsum (_ <$> starts)), <-!list_fmap_compose. f_equal. f_equal.
  apply list_fmap_ext. intros i t _. apply He.
Qed.

#[export] Instance agent_le_trans : Transitive agent_le.
Proof.
  intros a b c. unfold agent_le. repeat case_decide; try done. apply transitivity.
Qed.
#[export] Instance agent_le_total : Total agent_le.
Proof.
  intros a b. unfold agent_le. repeat case_decide; auto. apply (total String.le).
Qed.

Lemma build_agents_spec series size agents :
  build_agent_histories series size = Ok agents ->
  (forall a, a ∈ agents -> let own := of_agent (ah_agent a) series in
     own <> [] /\ bequiv (ah_recent_buckets a) (buckets_of own) /\
     ah_source_transcript_count a = i64_wrap (Z.of_nat (length own))) /\
  (forall s, s ∈ series -> se_agent s ∈ ah_agent <$> agents) /\
  NoDup (ah_agent <$> agents) /\ StronglySorted agent_le agents /\
  bequiv (concat (ah_recent_buckets <$> agents)) (buckets_of series).
Proof.
  unfold build_agent_histories. destruct (try_fold _ _ _) as [acc|] eqn:Hacc; simpl; [|done].
  apply accumulated_all in Hacc as [Hag Habs Hall]. intros [= <-].
  assert (merge_sort agent_le (agent_history <$> btree_to_list acc) ≡ₚ agent_history <$> map_to_list acc)
    as Hperm by (rewrite merge_sort_Permutation; f_equiv; apply btree_to_list_perm).
  split; [|split; [|split; [|split]]].
  - intros a. rewrite Hperm. intros ([name e] & -> & He%elem_of_map_to_list)%list_elem_of_fmap. simpl.
    destruct (Hag _ _ He) as (Hne & Hb & _ & Hc). done.
  - intros s Hs. rewrite Hperm, <-list_fmap_compose.
    destruct (acc !! se_agent s) as [e|] eqn:He.
    + apply list_elem_of_fmap. exists (se_agent s, e). split; [done|]. by apply elem_of_map_to_list.
    + apply Habs in He. assert (s ∈ of_agent (se_agent s) series) as Hs'.
      { by apply list_elem_of_filter. }
      rewrite He in Hs'. by apply elem_of_nil in Hs'.
  - rewrite Hperm, <-list_fmap_compose.
    enough (ah_agent ∘ agent_history <$> map_to_list acc = (map_to_list acc).*1) as ->
      by apply NoDup_fst_map_to_list.
    apply list_fmap_ext. by intros i [name e] _.
  - apply (StronglySorted_merge_sort agent_le).
  - rewrite Hperm, <-list_fmap_compose, <-Hall. unfold all_buckets.
    enough (ah_recent_buckets ∘ agent_history <$> map_to_list acc = (fun p => acc_buckets p.2) <$> map_to_list acc)
      as -> by done.
    apply list_fmap_ext. by intros i [name e] _.
Qed.

(** Rolling up loses and invents nothing.  The buckets of a workspace are in order
    of time, one per start, and for every start their counters are the [i64] sums of the
    counters of its series; so are the totals.  The same holds for each agent and its own
    series, every series belongs to exactly one listed agent, and [main] comes first. *)
Theorem roll_up_keeps_usage name dir series size h :
  available_history name dir series size = Ok h ->
  bequiv (wh_recent_buckets h) (buckets_of series) /\ in_order (wh_recent_buckets h) /\
  vwrap (usage_of (wh_recent_buckets h)) = vwrap (usage_of (buckets_of series)) /\
  (forall a, a ∈ wh_agents h -> let own := of_agent (ah_agent a) series in
     own <> [] /\ bequiv (ah_recent_buckets a) (buckets_of own) /\
     ah_source_transcript_count a = i64_wrap (Z.of_nat (length own))) /\
  (forall s, s ∈ series -> se_agent s ∈ ah_agent <$> wh_agents h) /\
  NoDup (ah_agent <$> wh_agents h) /\ StronglySorted agent_le (wh_agents h).
Proof.
  unfold available_history. destruct (build_agent_histories series size) as [agents|] eqn:Ha; [|done].
  simpl. destruct (aggregate_buckets _ size) as [recent|] eqn:Hr; [|done]. intros [= <-]. simpl.
  apply build_agents_spec in Ha as (Hown & Hin & Hnd & Hsort & Hall).
  apply aggregate_buckets_spec in Hr as [Hr Hord]. rewrite Hall in Hr.
  pose proof (bequiv_total _ _ Hr). done.
Qed.

(** ** Scanning transcripts

    What a scan puts into the buckets of a series, as a list with one bucket per record
    in the window ([window_buckets]), and that it adds up to the totals of the
    transcript when the window contains it. *)

(** ** The effect of one record *)

(** The effect of a record as a bucket of its own. *)
Definition effect_bucket (size ts : Z) (e : IngestResult) : Bucket :=
  mkBucket (truncate_to_bucket ts size) 0 (tokens_delta e) (tokens_total (tokens_delta e))
    (mcp_delta e) (turn_delta e).
Definition window_bucket (q : HistoryQuery) (ts : option Z) (e : IngestResult) : list Bucket :=
  match ts with
  | Some ts => if in_window q ts && negb (idle_effect e) then [effect_bucket (q_bucket_size q) ts e] else []
  | None => []
  end.

(** The effects of a list of records, in order. *)
Fixpoint effects (a : Aggregator) (rs : list ParsedRecord) : list (option Z * IngestResult) :=
  match rs with
  | [] => []
  | r :: rs => (pr_timestamp r, (ingest r a).1) :: effects (ingest r a).2 rs
  end.
Definition window_buckets (q : HistoryQuery) (rs : list ParsedRecord) : list Bucket :=
  concat ((fun p => window_bucket q p.1 p.2) <$> effects new_aggregator rs).

Lemma effects_snoc a rs r :
  effects a (rs ++ [r]) =
  effects a rs ++ [(pr_timestamp r, (ingest r (foldl (fun a r => (ingest r a).2) a rs)).1)].
Proof. revert a. induction rs as [|x rs IH]; intros a; simpl; [done|]. by rewrite IH. Qed.
Lemma window_buckets_snoc q rs r :
  window_buckets q (rs ++ [r]) =
  window_buckets q rs ++ window_bucket q (pr_timestamp r) (ingest r (ingest_all rs)).1.
Proof.
  unfold window_buckets, ingest_all. rewrite effects_snoc, fmap_app, concat_app. simpl. by rewrite app_nil_r.
Qed.

Definition effect_counts (e : IngestResult) : Tokens * Z * MCPProxyMetrics * Z :=
  (tokens_delta e, tokens_total (tokens_delta e), mcp_delta e, turn_delta e).

(** Adding a delta only if it is not zero. *)
Definition add_unless_zero {T} `{!I64Vec T} `{!EqDecision T} (d x : T) : T :=
  if decide (d = vzero) then x else vadd x d.
Lemma add_unless_zero_wrap {T} `{!I64Vec T} `{!I64VecOk T} `{!EqDecision T} (d x : T) :
  vwrap (add_unless_zero d x) = vwrap (vplus x d).
Proof.
  unfold add_unless_zero. case_decide as Hd; [by rewrite Hd, vplus_zero_r|].
  by rewrite vadd_def, vwrap_wrap.
Qed.

Lemma add_turn_fields e b :
  add_turn e b =
  mkBucket (bk_start b) (bk_end b) (add_unless_zero (tokens_delta e) (bk_tokens b))
    (if decide (tokens_delta e = no_tokens) then bk_total b
     else i64_wrap (bk_total b + tokens_total (tokens_delta e)))
    (bk_mcp_proxy b) (add_unless_zero (turn_delta e) (bk_turns b)).
Proof.
  unfold add_turn, add_unless_zero. destruct b.
  destruct (decide (tokens_delta e = no_tokens)) as [->|]; destruct (Z.eqb_spec (turn_delta e) 0) as [->|];
    simpl; repeat case_decide; done.
Qed.
Lemma add_effect_fields e b :
  add_effect e b =
  let b' := add_turn e b in
  mkBucket (bk_start b') (bk_end b') (bk_tokens b') (bk_total b')
    (add_unless_zero (mcp_delta e) (bk_mcp_proxy b')) (bk_turns b').
Proof. unfold add_effect, add_unless_zero. simpl. destruct (add_turn e b). by repeat case_decide. Qed.

Lemma total_wrap e n :
  i64_wrap (if decide (tokens_delta e = no_tokens) then n
            else i64_wrap (n + tokens_total (tokens_delta e))) =
  i64_wrap (n + tokens_total (tokens_delta e)).
Proof. case_decide as Hd; [rewrite Hd; simpl; by rewrite Z.add_0_r|by rewrite wrap_wrap]. Qed.

Lemma add_effect_counts e b :
  vwrap (counts (add_effect e b)) = vwrap (vplus (counts b) (effect_counts e)).
Proof.
  rewrite add_effect_fields, add_turn_fields. unfold counts, effect_counts. simpl.
  change (vwrap (?a, ?b, ?c, ?d)) with (vwrap a, vwrap b, vwrap c, vwrap d).
  rewrite !add_unless_zero_wrap. change (vwrap (T:=Z)) with i64_wrap. by rewrite total_wrap.
Qed.
Lemma add_turn_counts e b :
  mcp_delta e = no_mcp -> vwrap (counts (add_turn e b)) = vwrap (vplus (counts b) (effect_counts e)).
Proof.
  intros Hm. rewrite <-add_effect_counts, add_effect_fields, Hm. unfold add_unless_zero.
  by rewrite decide_True.
Qed.

Lemma bucket_entry_counts q m t b :
  bucket_entry q m t = Ok b -> m !! t = Some b \/ m !! t = None /\ counts b = vzero /\ bk_start b = t.
Proof.
  unfold bucket_entry. destruct (m !! t); [intros [= ->]; by left|]. unfold date_add.
  case_match; simpl; intros; simplify_eq. by right.
Qed.

(** One step of the buckets, in the manner of [merged]. *)
Lemma bucket_step_merged q (f : Bucket -> Bucket) size ts e m l b :
  (forall b, vwrap (counts (f b)) = vwrap (vplus (counts b) (effect_counts e))) ->
  (forall b, bk_start (f b) = bk_start b) ->
  merged m l -> bucket_entry q m (truncate_to_bucket ts size) = Ok b ->
  merged (<[truncate_to_bucket ts size := f b]> m) (l ++ [effect_bucket size ts e]).
Proof.
  intros Hf Hst Hm Hb. set (x := effect_bucket size ts e).
  change (truncate_to_bucket ts size) with (bk_start x) in *.
  apply merged_insert; [done| |].
  - rewrite Hst. apply bucket_entry_counts in Hb as [Hb|(_ & _ & ?)]; [|done].
    by apply (merged_key _ _ Hm).
  - rewrite Hf. apply bucket_entry_counts in Hb as [Hb|(Hn & Hz & _)].
    + rewrite <-vwrap_plus, (merged_sum _ _ Hm _ _ Hb). apply vwrap_plus.
    + unfold usage_at. rewrite (merged_none _ _ Hm _ Hn), Hz. done.
Qed.

Lemma bucket_effect_merged q m l ts e m' :
  merged m l -> bucket_effect q m ts e = Ok m' -> merged m' (l ++ window_bucket q ts e).
Proof.
  intros Hm. unfold bucket_effect, window_bucket. destruct ts as [ts|].
  2: { intros [= <-]. by rewrite app_nil_r. }
  destruct (in_window q ts); simpl; [|intros [= <-]; by rewrite app_nil_r].
  destruct (idle_effect e); simpl; [intros [= <-]; by rewrite app_nil_r|].
  destruct (bucket_entry _ _ _) as [b|] eqn:Hb; simpl; [|done]. intros [= <-].
  eapply bucket_step_merged; [intros; apply add_effect_counts| |done|done].
  intros. rewrite add_effect_fields, add_turn_fields. done.
Qed.

(** ** Effects add up to totals *)

Definition totals (a : Aggregator) : Tokens * Z * MCPProxyMetrics * Z :=
  (ag_cumulative a, tokens_total (ag_cumulative a), ag_cumulative_mcp a, ag_turns a).

Lemma tokens_total_wrap t : tokens_total (vwrap t) = tokens_total t.
Proof.
  destruct t as [a b c d]. unfold tokens_total. simpl.
  destruct (i64_wrap_off a) as [i Hi], (i64_wrap_off b) as [j Hj], (i64_wrap_off c) as [k Hk],
    (i64_wrap_off d) as [l Hl].
  apply (i64_wrap_congr _ _ (i + j + k + l)). unfold vwrap. simpl. lia.
Qed.
Lemma tokens_total_plus a b : tokens_total (vplus a b) = i64_wrap (tokens_total a + tokens_total b).
Proof.
  destruct a, b. unfold tokens_total, vplus. simpl. autorewrite with i64_norm. f_equal. lia.
Qed.

Lemma totals_step cum tot mcp turns a :
  vwrap (ag_cumulative a) = vwrap cum -> tot = tokens_total cum ->
  vwrap (ag_cumulative_mcp a) = vwrap mcp -> vwrap (ag_turns a) = vwrap turns ->
  vwrap (totals a) = vwrap (cum, tot, mcp, turns).
Proof.
  intros Hc -> Hm Ht. unfold totals.
  change (vwrap (?a, ?b, ?c, ?d)) with (vwrap a, vwrap b, vwrap c, vwrap d).
  rewrite Hc, Hm, Ht. do 3 f_equal. rewrite <-tokens_total_wrap, Hc. by rewrite tokens_total_wrap.
Qed.

Lemma note_mcp_wrap d s a :
  vwrap (ag_cumulative_mcp (note_mcp d s a)) = vwrap (vplus (ag_cumulative_mcp a) d).
Proof.
  unfold note_mcp. case_decide as Hd; fsimpl.
  - rewrite Hd. change no_mcp with (vzero : MCPProxyMetrics). by rewrite vplus_zero_r.
  - change add_mcp with (vadd (T:=MCPProxyMetrics)). by rewrite vadd_def, vwrap_wrap.
Qed.

(** The result of [ingest] tells how its totals change. *)
Lemma ingest_totals r a :
  let '(e, b) := ingest r a in vwrap (totals b) = vwrap (vplus (totals a) (effect_counts e)).
Proof.
  destruct (ingest r a) as [e b] eqn:Hi.
  change (vplus (totals a) (effect_counts e)) with
    (vplus (ag_cumulative a) (tokens_delta e),
     tokens_total (ag_cumulative a) + tokens_total (tokens_delta e),
     vplus (ag_cumulative_mcp a) (mcp_delta e), ag_turns a + turn_delta e).
  enough (vwrap (ag_cumulative b) = vwrap (vplus (ag_cumulative a) (tokens_delta e)) /\
          vwrap (ag_cumulative_mcp b) = vwrap (vplus (ag_cumulative_mcp a) (mcp_delta e)) /\
          i64_wrap (ag_turns b) = i64_wrap (ag_turns a + turn_delta e)) as (Hc & Hm & Ht).
  { etrans; [by apply (totals_step (vplus (ag_cumulative a) (tokens_delta e)))|].
    change (vwrap (?a, ?b, ?c, ?d)) with (vwrap a, vwrap b, vwrap c, vwrap d).
    do 3 f_equal. change (vwrap (T:=Z)) with i64_wrap. rewrite tokens_total_plus. apply wrap_wrap. }
  assert (forall x y d : Tokens, vwrap (tokens_add x (tokens_sub y d)) = vwrap (vplus x (tokens_sub y d))) as Hadd.
  { intros. change tokens_add with (vadd (T:=Tokens)). by rewrite vadd_def, vwrap_wrap. }
  assert (forall x y : Tokens, vwrap (tokens_add x (tokens_sub y no_tokens)) = vwrap (vplus x y)) as Hadd0.
  { intros [] []. unfold vwrap, vplus, tokens_add, tokens_sub. simpl. f_equal; i64_eq. }
  destruct (note_session_frame r a) as (_ & Hs2 & Hs3 & Hs4 & _).
  unfold ingest in Hi. destruct (pr_has_usage r) eqn:Hu; simpl in Hi.
  - destruct (is_empty (request_key r)).
    + injection Hi as <- <-. simpl. rewrite note_mcp_wrap.
      match goal with |- context [note_mcp ?d ?s ?b] => destruct (note_mcp_frame d s b) as (_ & -> & -> & _) end.
      unfold apply_usage_delta. fsimpl. rewrite Hs2, Hs3, Hs4. split; [apply Hadd0|]. split; [done|i64_eq].
    + injection Hi as <- <-. simpl. rewrite note_mcp_wrap.
      match goal with |- context [note_mcp ?d ?s ?b] => destruct (note_mcp_frame d s b) as (_ & -> & -> & _) end.
      unfold apply_usage_delta. fsimpl. rewrite Hs2, Hs3, Hs4. split; [apply Hadd|]. split; [done|i64_eq].
  - injection Hi as <- <-. simpl. rewrite note_mcp_wrap.
    match goal with |- context [note_mcp ?d ?s ?b] => destruct (note_mcp_frame d s b) as (_ & -> & -> & _) end.
    rewrite Hs2, Hs3, Hs4. split; [|split; [done|by rewrite Z.add_0_r]].
    change no_tokens with (vzero : Tokens). by rewrite vplus_zero_r.
Qed.

Lemma usage_of_app l k : usage_of (l ++ k) = vplus (usage_of l) (usage_of k).
Proof. unfold usage_of. by rewrite fmap_app, vsum_app. Qed.

Definition covered (q : HistoryQuery) (rs : list ParsedRecord) : Prop :=
  Forall (fun r => match pr_timestamp r with Some ts => in_window q ts = true | None => False end) rs.

Lemma window_bucket_usage q ts e :
  in_window q ts = true -> usage_of (window_bucket q (Some ts) e) = effect_counts e.
Proof.
  intros Hw. unfold window_bucket. rewrite Hw. destruct (idle_effect e) eqn:He; simpl.
  - unfold idle_effect in He.
    apply andb_true_iff in He as [[Ht%Z.eqb_eq Hd%bool_decide_eq_true]%andb_true_iff Hm%bool_decide_eq_true].
    unfold effect_counts. by rewrite Ht, Hd, Hm.
  - unfold usage_of. simpl. by rewrite vplus_zero_r.
Qed.

Lemma window_total q rs :
  covered q rs -> vwrap (usage_of (window_buckets q rs)) = vwrap (totals (ingest_all rs)).
Proof.
  induction rs as [|r rs IH] using rev_ind; [done|]. intros [Hrs Hr]%Forall_app.
  rewrite window_buckets_snoc, usage_of_app, ingest_all_snoc.
  pose proof (ingest_totals r (ingest_all rs)) as Hi. destruct (ingest r (ingest_all rs)) as [e b]. simpl in *.
  rewrite Hi, <-vwrap_plus, (IH Hrs), vwrap_plus. do 2 f_equal.
  apply Forall_cons in Hr as [Hr _]. destruct (pr_timestamp r) as [ts|]; [|done].
  by apply window_bucket_usage.
Qed.

(** ** Whole transcripts *)

(** A bucket that spans the time of a record in the window. *)
Definition spans (q : HistoryQuery) (b : Bucket) : Prop :=
  exists ts, in_window q ts = true /\ bk_start b = truncate_to_bucket ts (q_bucket_size q) /\
    bk_end b = bk_start b + bucket_duration (q_bucket_size q).

Lemma bucket_entry_spans q m ts b :
  map_Forall (fun _ => spans q) m -> in_window q ts = true ->
  bucket_entry q m (truncate_to_bucket ts (q_bucket_size q)) = Ok b -> spans q b.
Proof.
  intros Hm Hw. unfold bucket_entry. destruct (m !! _) as [b'|] eqn:Hb.
  - intros [= <-]. by apply (Hm _ _ Hb).
  - unfold date_add. case_match; simpl; intros; simplify_eq. by exists ts.
Qed.

Lemma spans_update q b b' : bk_start b' = bk_start b -> bk_end b' = bk_end b -> spans q b -> spans q b'.
Proof. unfold spans. by intros -> ->. Qed.

Lemma bucket_effect_spans q m ts e m' :
  map_Forall (fun _ => spans q) m -> bucket_effect q m ts e = Ok m' -> map_Forall (fun _ => spans q) m'.
Proof.
  intros Hm. unfold bucket_effect. destruct ts as [ts|]; [|by intros [= <-]].
  destruct (in_window q ts) eqn:Hw; simpl; [|by intros [= <-]].
  destruct (idle_effect e); simpl; [by intros [= <-]|].
  destruct (bucket_entry _ _ _) as [b|] eqn:Hb; simpl; [|done]. intros [= <-].
  apply map_Forall_insert_2; [|done]. apply (spans_update q b).
  - by rewrite add_effect_fields, add_turn_fields.
  - by rewrite add_effect_fields, add_turn_fields.
  - by eapply bucket_entry_spans.
Qed.

(** With a bucket size of whole seconds that chrono can represent, a bucket contains the
    time it spans. *)
Definition usable_size (size : Z) : Prop := exists n, 0 < n /\ size = secs n /\ size <= i64_max * 1000000.

Lemma truncate_contains size ts :
  usable_size size ->
  truncate_to_bucket ts size <= ts < truncate_to_bucket ts size + bucket_duration size.
Proof.
  intros (n & Hn & -> & Hmax). unfold bucket_duration, chrono_from_std.
  rewrite (proj2 (Z.leb_le _ _) Hmax). cbn [default from_option id].
  unfold truncate_to_bucket. assert (as_secs (secs n) = n) as -> by (unfold as_secs, secs; by rewrite Z.div_mul).
  assert (i64_wrap n = n) as ->.
  { apply i64_wrap_small. unfold in_i64, i64_min, i64_max, secs, nanos in *. lia. }
  destruct (Z.eqb_spec n 0) as [|_]; [lia|]. rewrite Z.abs_eq by lia. unfold timestamp, secs, nanos in *.
  pose proof (Z.mod_pos_bound (ts `div` 1000000000) n Hn).
  pose proof (Z.mod_pos_bound ts 1000000000 ltac:(done)).
  pose proof (Z.div_mod ts 1000000000 ltac:(done)). case_match; lia.
Qed.

Lemma spans_contains q b :
  usable_size (q_bucket_size q) -> spans q b ->
  exists ts, in_window q ts = true /\ bk_start b <= ts < bk_end b.
Proof.
  intros Hs (ts & Hw & Hst & He). exists ts. split; [done|]. rewrite He, Hst. by apply truncate_contains.
Qed.

Section transcripts.
Context {F : Type} `{!TranscriptFs F} `{!TranscriptJson}.

(** The records of the lines that parse. *)
Definition records (lines : list (result IoError string)) : list ParsedRecord :=
  omap (fun l => match l with
                 | Ok l => match parse_line l with Ok r => Some r | Err _ => None end
                 | Err _ => None
                 end) lines.

Definition scanned (q : HistoryQuery) (path : string) (st : ScanState)
    (lines : list (result IoError string)) : Prop :=
  sc_agg st = ingest_all (records lines) /\
  merged (sc_buckets st) (window_buckets q (records lines)) /\
  map_Forall (fun _ => spans q) (sc_buckets st) /\ se_transcript (sc_series st) = path.

Lemma merge_metadata_path s r : se_transcript (merge_series_metadata s r) = se_transcript s.
Proof. unfold merge_series_metadata. repeat case_match; by fsimpl. Qed.

Lemma scan_line_scanned q path st lines line st' :
  scanned q path st lines -> scan_line q path st line = Ok st' -> scanned q path st' (lines ++ [line]).
Proof.
  intros (Ha & Hm & Hsp & Hp). unfold scanned, records, scan_line, read_line. rewrite omap_app. simpl.
  destruct line as [line|]; simpl; [|done]. destruct (parse_line line) as [r|]; simpl.
  2: { intros [= <-]. rewrite app_nil_r. done. }
  unfold scan_record. destruct (ingest r (sc_agg st)) as [e a'] eqn:Hi.
  destruct (bucket_effect _ _ _ _) as [m'|] eqn:Hb; simpl; [|done]. intros [= <-]. simpl.
  rewrite ingest_all_snoc, window_buckets_snoc. fold (records lines). rewrite Ha in Hi.
  rewrite Hi, merge_metadata_path. split; [done|]. split; [by eapply bucket_effect_merged|].
  split; [by eapply bucket_effect_spans|done].
Qed.

Lemma scan_lines_spec q path lines st :
  try_fold (scan_line q path)
    (mkScanState (new_series (agent_from_transcript_path path) path) new_aggregator ∅) lines = Ok st ->
  scanned q path st lines.
Proof.
  apply (try_fold_ind _ (scanned q path)); [|intros; by eapply scan_line_scanned].
  split; [done|]. split; [by split|]. split; [by apply map_Forall_empty|done].
Qed.

(** A scan accounts for exactly the records of the transcript.  The current snapshot
    of the series is the aggregate of all records; the buckets, in order of time, hold
    per bucket start the sum of what the records in the window added, each bucket spans
    the time of such a record, and if the window covers every record the buckets add up
    to the totals of the transcript: tokens, turns and MCP proxy. *)
Theorem scan_accounts_for_every_record (fs : F) q path s :
  scan_transcript q fs path = Ok (Some s) -> usable_size (q_bucket_size q) ->
  exists lines, tf_lines fs path = Ok lines /\ let rs := records lines in
    se_current s = current_of (snapshot path (ingest_all rs)) /\
    bequiv (se_buckets s) (window_buckets q rs) /\ in_order (se_buckets s) /\
    (forall b, b ∈ se_buckets s -> exists ts, in_window q ts = true /\ bk_start b <= ts < bk_end b) /\
    (covered q rs -> vwrap (usage_of (se_buckets s)) = vwrap (totals (ingest_all rs))).
Proof.
  unfold scan_transcript, open_lines. destruct (tf_lines fs path) as [lines|]; simpl; [|done].
  destruct (try_fold _ _ _) as [st|] eqn:Hst; simpl; [|done]. intros [= Hfin] Hsize. exists lines. split; [done|].
  apply scan_lines_spec in Hst as (Ha & Hm & Hsp & Hp).
  unfold finish_transcript in Hfin.
  assert (forall s0, se_transcript (if is_empty (se_agent s0) then s0 <| se_agent := "main" |> else s0)
                     = se_transcript s0) as Htr by (intros s0; destruct (is_empty (se_agent s0)); fsimpl; reflexivity).
  rewrite Htr, Hp, Ha in Hfin. case_match; [done|]. injection Hfin as <-. fsimpl.
  apply merged_values in Hm as [Hb Ho]. split; [done|]. split; [done|]. split; [done|]. split.
  - intros b Hin. rewrite into_values_perm in Hin. apply list_elem_of_fmap in Hin as ([k b'] & -> & Hin).
    apply elem_of_map_to_list in Hin. apply spans_contains; [done|]. by apply (Hsp k).
  - intros Hcov. rewrite <-(window_total q) by done. by apply bequiv_total.
Qed.

(** The token counts of a Codex session. *)
Definition codex_turns (lines : list (result IoError string)) : list (option Z * Tokens) :=
  omap (fun l => match l with
                 | Ok l => match parse_codex_line l with
                           | Ok (TokenCount ts _ delta) => Some (ts, delta)
                           | _ => None
                           end
                 | Err _ => None
                 end) lines.
Definition codex_window (q : HistoryQuery) (turns : list (option Z * Tokens)) : list Bucket :=
  concat ((fun p : option Z * Tokens =>
             match p.1 with
             | Some ts => if in_window q ts
                          then [mkBucket (truncate_to_bucket ts (q_bucket_size q)) 0 p.2
                                  (tokens_total p.2) no_mcp 1] else []
             | None => []
             end) <$> turns).

Lemma ingest_codex sid cwd ts d a :
  (ingest (parsed_record_from_codex sid cwd ts d) a).1 = mkIngestResult true d no_mcp 1.
Proof. done. Qed.

Lemma codex_bucket_effect_eq q m ts d :
  codex_bucket_effect q m ts (mkIngestResult true d no_mcp 1) =
  bucket_effect q m ts (mkIngestResult true d no_mcp 1).
Proof. by destruct ts. Qed.

Definition codex_record (r : ParsedRecord) : Prop :=
  exists sid cwd ts d, r = parsed_record_from_codex sid cwd ts d.

Definition codex_scanned (q : HistoryQuery) (st : ScanState) (lines : list (result IoError string)) : Prop :=
  exists rs, sc_agg st = ingest_all rs /\ merged (sc_buckets st) (window_buckets q rs) /\
    Forall codex_record rs /\ (fun r => (pr_timestamp r, pr_tokens r)) <$> rs = codex_turns lines.

Lemma scan_codex_line_scanned q path st lines line st' :
  codex_scanned q st lines -> scan_codex_line q path st line = Ok st' ->
  codex_scanned q st' (lines ++ [line]).
Proof.
  intros (rs & Ha & Hm & Hrs & Ht). unfold codex_scanned, codex_turns, scan_codex_line, read_line.
  rewrite omap_app. fold (codex_turns lines). destruct line as [line|]; [|done].
  cbn [mbind result_bind omap list_omap]. destruct (parse_codex_line line) as [[sid cwd ts|ts c d|]|].
  - intros [= <-]. exists rs. by rewrite app_nil_r.
  - cbv zeta. destruct (ingest _ (sc_agg st)) as [e a'] eqn:Hi.
    assert (e = mkIngestResult true d no_mcp 1) as -> by (by injection Hi).
    rewrite codex_bucket_effect_eq. destruct (bucket_effect _ _ _ _) as [m'|] eqn:Hb; simpl; [|done].
    intros [= <-]. set (r := parsed_record_from_codex (se_session_id (sc_series st)) (se_cwd (sc_series st)) ts d).
    exists (rs ++ [r]). simpl. rewrite ingest_all_snoc, window_buckets_snoc, <-Ha.
    fold r in Hi. rewrite Hi. split; [done|]. split; [by eapply bucket_effect_merged|].
    split; [|by rewrite fmap_app, Ht]. apply Forall_app. split; [done|]. apply Forall_singleton. repeat eexists.
  - intros [= <-]. exists rs. by rewrite app_nil_r.
  - intros [= <-]. exists rs. by rewrite app_nil_r.
Qed.

Lemma codex_counted rs : Forall codex_record rs -> counted rs = rs.
Proof.
  induction 1 as [|r rs (sid & cwd & ts & d & ->) _ IH]; [done|]. simpl.
  rewrite IH. enough (existsb (revises _) rs = false) as -> by done.
  clear IH. induction rs as [|x rs IH]; [done|]. cbn [existsb]. rewrite IH.
  unfold revises. simpl. by rewrite andb_false_r.
Qed.

Lemma codex_window_eq q rs :
  Forall codex_record rs ->
  window_buckets q rs = codex_window q ((fun r => (pr_timestamp r, pr_tokens r)) <$> rs).
Proof.
  unfold window_buckets, codex_window. rewrite <-list_fmap_compose. generalize new_aggregator.
  intros a Hrs. revert a. induction Hrs as [|r rs (sid & cwd & ts & d & ->) _ IH]; intros a; [done|].
  simpl. rewrite IH. f_equal. unfold window_bucket. destruct ts as [ts|]; simpl; [|done].
  by rewrite andb_true_r.
Qed.

(** Every token count of a Codex session is one turn.  The totals of the series are
    the sums over all token counts of the file, and the buckets hold those whose time
    lies in the window. *)
Theorem codex_turns_are_counted (fs : F) q path s :
  scan_codex_transcript q fs path = Ok (Some s) ->
  exists lines, tf_lines fs path = Ok lines /\ let turns := codex_turns lines in
    cs_cumulative_totals (se_current s) = vwrap (vsum turns.*2) /\
    cs_turns (se_current s) = i64_wrap (Z.of_nat (length turns)) /\
    bequiv (se_buckets s) (codex_window q turns) /\ in_order (se_buckets s).
Proof.
  unfold scan_codex_transcript, open_lines. destruct (tf_lines fs path) as [lines|]; simpl; [|done].
  destruct (try_fold _ _ _) as [st|] eqn:Hst; simpl; [|done]. intros Hfin. exists lines. split; [done|].
  apply (try_fold_ind _ (codex_scanned q)) in Hst; [|by exists []|intros; by eapply scan_codex_line_scanned].
  destruct Hst as (rs & Ha & Hm & Hrs & Ht). rewrite Ha in Hfin. case_match; [done|].
  injection Hfin as <-. fsimpl. apply merged_values in Hm as [Hb Ho].
  destruct (ingest_all_counts rs) as [_ Hc Hn _]. unfold total_tokens in Hc.
  rewrite codex_counted in Hc, Hn by done. rewrite codex_window_eq, Ht in Hb by done.
  rewrite <-Ht at 1 2. rewrite <-list_fmap_compose, length_fmap. done.
Qed.
End transcripts.
