(* ===== verification/UsageTrends.v ===== *)
(** * Usage trends: the wire shape of a history and the request that asks for it

    The second half of history.rs (ax-usage), usage_trends.rs (ax-daemon), claude.rs and
    the search for Codex homes of codex.rs (ax-agent). *)

From stdpp Require Import prelude gmap strings list fin_maps sorting.
From S2P Require Import Prelude.
From S2P Require Import Paths ConfigSchema WorkspaceManager CodexFiles ErrorText.
From S2P Require Import RustStr.
From S2P Require Import RustText.
From S2P Require Import Usage UsageHistory.
From S2P Require Import UsageFacts UsageHistoryFacts.

Open Scope Z_scope.
Open Scope ax_scope.

Record UsageBucket := mkUsageBucket {
  ub_start : Z;
  ub_end : Z;
  ub_totals : Tokens;
  ub_mcp_proxy : MCPProxyMetrics;
  ub_turns : Z;
}.

Record AgentTrend := mkAgentTrend {
  at_agent : string;
  at_available : bool;
  at_latest_session_id : string;
  at_latest_transcript_path : string;
  at_buckets : list UsageBucket;
  at_total : Tokens;
  at_mcp_proxy : MCPProxyMetrics;
  at_last_activity : option Z;
  at_latest_tokens : Tokens;
  at_latest_mcp_proxy : MCPProxyMetrics;
  at_latest_model : string;
}.

Record WorkspaceTrend := mkWorkspaceTrend {
  wt_workspace : string;
  wt_cwd : string;
  wt_available : bool;
  wt_error : string;
  wt_unavailable_reason : string;
  wt_window_start : Z;
  wt_window_end : Z;
  wt_bucket_minutes : Z;
  wt_buckets : list UsageBucket;
  wt_total : Tokens;
  wt_mcp_proxy : MCPProxyMetrics;
  wt_last_activity : option Z;
  wt_latest_tokens : Tokens;
  wt_latest_mcp_proxy : MCPProxyMetrics;
  wt_latest_model : string;
  wt_agents : list AgentTrend;
}.

(** ** Reshaping a history *)

(** [chrono::Duration::minutes] panics beyond [i64::MAX] milliseconds. *)
Definition chrono_minutes (m : Z) : result Fault Z :=
  if Z.abs (m * 60) <=? i64_max / 1000 then Ok (secs (m * 60)) else Err Panic.

Definition make_usage_bucket (duration : Z) (b : Bucket) : result Fault UsageBucket :=
  end_ ← (if timestamp (bk_end b) =? 0 then date_add (bk_start b) duration else Ok (bk_end b));
  Ok (mkUsageBucket (bk_start b) end_ (bk_tokens b) (bk_mcp_proxy b) (bk_turns b)).
Definition make_usage_buckets (buckets : list Bucket) (duration : Z)
  : result Fault (list UsageBucket) := mapM (make_usage_bucket duration) buckets.

Definition sum_bucket_totals (buckets : list UsageBucket) : Tokens :=
  foldl (fun total b => tokens_add total (ub_totals b)) no_tokens buckets.
Definition sum_bucket_mcp (buckets : list UsageBucket) : MCPProxyMetrics :=
  foldl (fun total b => add_mcp total (ub_mcp_proxy b)) no_mcp buckets.

Definition make_agent_trend (duration : Z) (a : AgentHistory) : result Fault AgentTrend :=
  buckets ← make_usage_buckets (ah_recent_buckets a) duration;
  Ok {|
    at_agent := ah_agent a;
    at_available := ah_available a;
    at_latest_session_id := ah_latest_session_id a;
    at_latest_transcript_path := ah_latest_transcript a;
    at_buckets := buckets;
    at_total := sum_bucket_totals buckets;
    at_mcp_proxy := sum_bucket_mcp buckets;
    at_last_activity := cs_last_activity (ah_current_snapshot a);
    at_latest_tokens := cs_current_context (ah_current_snapshot a);
    at_latest_mcp_proxy := cs_current_mcp_proxy (ah_current_snapshot a);
    at_latest_model := cs_current_model (ah_current_snapshot a);
  |}.
Definition make_agent_trends (agents : list AgentHistory) (duration : Z)
  : result Fault (list AgentTrend) := mapM (make_agent_trend duration) agents.

Definition workspace_trend (resp : HistoryResponse) (duration : Z) (ws : WorkspaceHistory)
  : result Fault WorkspaceTrend :=
  let trend error buckets last_activity tokens mcp model agents := {|
    wt_workspace := wh_workspace ws;
    wt_cwd := wh_dir ws;
    wt_available := wh_available ws;
    wt_error := error;
    wt_unavailable_reason := wh_unavailable_reason ws;
    wt_window_start := hr_since resp;
    wt_window_end := hr_until resp;
    wt_bucket_minutes := hr_bucket_minutes resp;
    wt_buckets := buckets;
    wt_total := sum_bucket_totals buckets;
    wt_mcp_proxy := sum_bucket_mcp buckets;
    wt_last_activity := last_activity;
    wt_latest_tokens := tokens;
    wt_latest_mcp_proxy := mcp;
    wt_latest_model := model;
    wt_agents := agents;
  |} in
  if negb (wh_available ws) then
    Ok (trend (wh_unavailable_reason ws) [] None no_tokens no_mcp "" [])
  else
    buckets ← make_usage_buckets (wh_recent_buckets ws) duration;
    agents ← make_agent_trends (wh_agents ws) duration;
    let current := wh_current_snapshot ws in
    Ok (trend "" buckets (cs_last_activity current) (cs_current_context current)
          (cs_current_mcp_proxy current) (cs_current_model current) agents).

Definition query_workspace_trends (resp : HistoryResponse) : result Fault (list WorkspaceTrend) :=
  duration ← chrono_minutes (hr_bucket_minutes resp);
  mapM (workspace_trend resp duration) (hr_workspaces resp).

(** ** The Claude project directory (claude.rs) *)

Definition normalize_segment (absolute : bool) (parts : list string) (segment : string)
  : list string :=
  if is_empty segment || String.eqb segment "." then parts
  else if String.eqb segment ".." then
    match parts with
    | [] => if absolute then [] else [".."]
    | _ => removelast parts
    end
  else parts ++ [segment].

Definition normalize_project_path (path : string) : string :=
  let trimmed := trim path in
  let absolute := starts_with trimmed "/" in
  let parts := foldl (normalize_segment absolute) [] (raw_components trimmed) in
  match parts with
  | [] => if absolute then "/" else "."
  | _ => let joined := String.concat "/" parts in if absolute then "/" +:+ joined else joined
  end.

Definition dash : Ascii.ascii := Ascii.ascii_of_nat 45.
Definition encode_project_key (dir : string) : string :=
  of_bytes ((fun a => if decide (a = slash \/ a = dot) then dash else a) <$> bytes dir).

Inductive ClaudeProjectError := ClaudeHomeUnset.

Definition claude_project_path (env : Env) (dir : string) : result ClaudeProjectError string :=
  match home env with
  | None => Err ClaudeHomeUnset
  | Some h =>
      let encoded := encode_project_key (normalize_project_path dir) in
      Ok (join (join (join h ".claude") "projects") encoded)
  end.

(** ** Codex homes (codex.rs) *)

Definition is_hexdigit (a : Ascii.ascii) : bool :=
  let c := code a in
  ((48 <=? c) && (c <=? 57))%N || ((65 <=? c) && (c <=? 70))%N || ((97 <=? c) && (c <=? 102))%N.

(** An entry [<workspace>-<12 hex digits>] of the directory of homes. *)
Definition names_home (workspace name : string) : bool :=
  match strip_prefix name (workspace +:+ "-") with
  | None => false
  | Some suffix => (String.length suffix =? 12)%nat && forallb is_hexdigit (bytes suffix)
  end.

Section requests.
Context {F : Type} `{!TranscriptFs F} `{!TranscriptJson} `{!SysText}.
Context (env : Env) (short_hash : string -> string) (fs : F).

Definition discover_codex_home_candidates (workspace dir : string)
  : result CodexHomeError (list string) :=
  root ← codex_homes_root env;
  let canonical := join root (codex_home_key env short_hash workspace dir) in
  match tf_names fs root with
  | None => Ok [canonical]
  | Some names =>
      let paths := join root <$> filter (fun n => names_home workspace n = true) names in
      let extras := filter (fun p => components p <> components canonical) paths in
      Ok (canonical :: merge_sort path_le extras)
  end.

Definition build_binding (workspace cwd : string) : WorkspaceBinding := {|
  wb_name := workspace;
  wb_dir := cwd;
  wb_claude_project_dir :=
    if is_empty cwd then None
    else match claude_project_path env cwd with Ok p => Some p | Err _ => None end;
  wb_codex_homes :=
    if is_empty cwd then [] else unwrap_or [] (discover_codex_home_candidates workspace cwd);
|}.

Definition query_workspace_trends_for (bindings : list WorkspaceBinding) (now since bucket : Z)
  : result Fault (list WorkspaceTrend) :=
  let since := if as_secs since =? 0 then DEFAULT_HISTORY_WINDOW else since in
  let bucket := if as_secs bucket =? 0 then DEFAULT_BUCKET_SIZE else bucket in
  let window := default 0 (chrono_from_std since) in
  start ← date_add now (- window);
  resp ← query_history (mkHistoryQuery start now bucket) fs bindings;
  query_workspace_trends resp.

Record UsageTrendWorkspace := mkUsageTrendWorkspace { utw_workspace : string; utw_cwd : string }.
Record UsageTrendsPayload := mkUsageTrendsPayload {
  ut_workspaces : list UsageTrendWorkspace;
  ut_since_minutes : Z;
  ut_bucket_minutes : Z;
}.

Definition u64_max : Z := 2 ^ 64 - 1.
(** [Duration::from_secs((minutes.max(0) as u64).saturating_mul(60))] *)
Definition minutes_duration (minutes : Z) : Z := secs (Z.min (Z.max minutes 0 * 60) u64_max).

Definition history_error_text (e : HistoryError) : string :=
  match e with
  | HistoryRead path source => "read transcript " +:+ path +:+ ": " +:+ to_string source
  | HistoryParse source => "parse transcript line: " +:+ source
  end.

(** The answer is the trends or the text of a [HandlerError::Logic]; [None] is a panic. *)
Definition handle_usage_trends (now : Z) (payload : UsageTrendsPayload)
  : option (result string (list WorkspaceTrend)) :=
  let since := minutes_duration (ut_since_minutes payload) in
  let bucket := minutes_duration (ut_bucket_minutes payload) in
  let bindings := (fun r => build_binding (utw_workspace r) (utw_cwd r)) <$> ut_workspaces payload in
  match query_workspace_trends_for bindings now since bucket with
  | Ok trends => Some (Ok trends)
  | Err (Raised e) => Some (Err ("query usage_trends: " +:+ history_error_text e))
  | Err Panic => None
  end.
End requests.

(** ** Usage requests are answered

    [safe r P]: the computation [r] does not panic, and if it returns, its value
    satisfies [P].  The rules follow the loops of the code; the theorem at the end says
    for which requests the daemon answers, and that it answers for every workspace. *)


Definition safe {A} (r : result Fault A) (P : A -> Prop) : Prop :=
  match r with
  | Ok a => P a
  | Err (Raised _) => True
  | Err Panic => False
  end.

Lemma safe_bind {A B} (m : result Fault A) (f : A -> result Fault B) P Q :
  safe m P -> (forall a, P a -> safe (f a) Q) -> safe (m ≫= f) Q.
Proof. destruct m as [a|[]]; simpl; auto. Qed.
Lemma safe_mono {A} (m : result Fault A) (P Q : A -> Prop) :
  safe m P -> (forall a, P a -> Q a) -> safe m Q.
Proof. destruct m as [a|[]]; simpl; auto. Qed.

Lemma safe_try_fold {S A} (f : S -> A -> result Fault S) (P : list A -> S -> Prop) (Q : A -> Prop) l s :
  P [] s -> Forall Q l -> (forall k s x, P k s -> Q x -> safe (f s x) (P (k ++ [x]))) ->
  safe (try_fold f s l) (P l).
Proof.
  intros H0 Hl Hf. enough (forall k s, P k s -> safe (try_fold f s l) (P (k ++ l))) as Hgen.
  { exact (Hgen [] s H0). }
  clear s H0. induction Hl as [|x l Hx Hl IH]; simpl; intros k s Hk.
  - by rewrite app_nil_r.
  - specialize (Hf k s x Hk Hx). destruct (f s x) as [s'|[]]; simpl in *; try done.
    rewrite cons_middle, app_assoc. by apply IH.
Qed.

Lemma safe_mapM {A B} (f : A -> result Fault B) (P : A -> Prop) (R : A -> B -> Prop) l :
  Forall P l -> (forall x, P x -> safe (f x) (R x)) -> safe (mapM f l) (Forall2 R l).
Proof.
  intros Hl Hf. induction Hl as [|x l Hx Hl IH]; simpl; [constructor|].
  eapply safe_bind; [by apply Hf|]. intros y Hy. eapply safe_bind; [exact IH|]. intros k Hk. by constructor.
Qed.

#[export] Instance workspace_le_trans : Transitive workspace_le.
Proof. intros a b c. unfold workspace_le. apply transitivity. Qed.
#[export] Instance workspace_le_total : Total workspace_le.
Proof. intros a b. unfold workspace_le. apply (total String.le). Qed.

(** ** Dates stay in range *)

Section fit.
Context (size : Z).

(** A bucket whose end is a date. *)
Definition fit (b : Bucket) : Prop := DATE_MIN <= bk_start b /\ bk_start b + size <= DATE_MAX.
Definition fits (l : list Bucket) : Prop := Forall fit l.

Definition sane_query (q : HistoryQuery) : Prop :=
  q_bucket_size q = size /\ usable_size size /\ DATE_MIN <= q_since q /\ q_until q + size <= DATE_MAX.

Lemma usable_duration : usable_size size -> bucket_duration size = size /\ 0 <= size.
Proof.
  intros (n & Hn & Hs & Hm). unfold bucket_duration, chrono_from_std.
  rewrite (proj2 (Z.leb_le _ _) Hm). unfold secs, nanos in Hs. simpl. lia.
Qed.

Lemma safe_date_add t d :
  DATE_MIN <= t -> 0 <= d <= size -> t + size <= DATE_MAX -> safe (date_add t d) (fun e => e = t + d).
Proof.
  intros Ht Hd Hm. unfold date_add. enough (date_ok (t + d) = true) as -> by done.
  unfold date_ok. apply andb_true_iff. rewrite !Z.leb_le. lia.
Qed.

Lemma truncate_date q ts :
  sane_query q -> in_window q ts = true ->
  DATE_MIN <= truncate_to_bucket ts size /\ truncate_to_bucket ts size + size <= DATE_MAX.
Proof.
  intros (_ & Hu & Hs & He) Hw. pose proof (truncate_contains size ts Hu) as Hc.
  destruct (usable_duration Hu) as [Hd Hpos]. rewrite Hd in Hc.
  unfold in_window in Hw. apply negb_true_iff, orb_false_iff in Hw as [Hlo%Z.ltb_ge Hhi%Z.leb_gt].
  split; [|lia]. unfold truncate_to_bucket in *. case_match; [lia|]. case_match eqn:Hok; [|lia].
  unfold date_ok in Hok. apply andb_true_iff in Hok as [?%Z.leb_le _]. done.
Qed.

Definition fit_map (m : gmap Z Bucket) : Prop := map_Forall (fun _ => fit) m.

Lemma fit_values m : fit_map m -> fits (into_values m).
Proof.
  intros Hm. unfold fits. rewrite into_values_perm.
  apply Forall_fmap. apply map_Forall_to_list in Hm. eapply Forall_impl; [exact Hm|]. by intros [].
Qed.

Lemma safe_bucket_entry q m ts :
  sane_query q -> in_window q ts = true -> fit_map m ->
  safe (bucket_entry q m (truncate_to_bucket ts (q_bucket_size q))) fit.
Proof.
  intros Hq Hw Hm. destruct (truncate_date q ts Hq Hw) as [Hlo Hhi]. destruct Hq as (Hs & Hu & _).
  unfold bucket_entry. rewrite Hs. destruct (m !! _) as [b|] eqn:Hb; [by apply (Hm _ _ Hb)|].
  destruct (usable_duration Hu) as [-> Hpos].
  eapply safe_bind; [apply safe_date_add; lia|]. intros e _. by split.
Qed.

Lemma fit_update b b' : bk_start b' = bk_start b -> fit b -> fit b'.
Proof. unfold fit. by intros ->. Qed.

Lemma safe_bucket_effect q m ts e :
  sane_query q -> fit_map m -> safe (bucket_effect q m ts e) fit_map.
Proof.
  intros Hq Hm. unfold bucket_effect. destruct ts as [ts|]; [|done].
  destruct (in_window q ts) eqn:Hw; simpl; [|done]. destruct (idle_effect e); [done|].
  eapply safe_bind; [by apply safe_bucket_entry|]. intros b Hb. apply map_Forall_insert_2; [|done].
  apply (fit_update b); [|done]. by rewrite add_effect_fields, add_turn_fields.
Qed.
Lemma safe_codex_bucket_effect q m ts e :
  sane_query q -> fit_map m -> safe (codex_bucket_effect q m ts e) fit_map.
Proof.
  intros Hq Hm. unfold codex_bucket_effect. destruct ts as [ts|]; [|done].
  destruct (in_window q ts) eqn:Hw; simpl; [|done]. case_match; [done|].
  eapply safe_bind; [by apply safe_bucket_entry|]. intros b Hb. apply map_Forall_insert_2; [|done].
  apply (fit_update b); [|done]. by rewrite add_turn_fields.
Qed.

(** ** Roll-ups *)

Lemma safe_aggregate all :
  usable_size size -> Forall fits all -> safe (aggregate_buckets all size) fits.
Proof.
  intros Hu Hall. unfold aggregate_buckets. destruct (usable_duration Hu) as [-> Hpos].
  eapply safe_bind.
  - apply (safe_try_fold _ (fun _ => fit_map) fit); [by apply map_Forall_empty|by apply Forall_concat|].
    intros _ m b Hm Hb. unfold aggregate_step. destruct (m !! _) as [e|] eqn:He.
    + apply map_Forall_insert_2; [|done]. apply (fit_update e); [done|]. by apply (Hm _ _ He).
    + eapply safe_bind; [|intros c Hc; by apply map_Forall_insert_2]. unfold with_end. case_match; [|done].
      destruct Hb. eapply safe_bind; [apply safe_date_add; lia|]. intros x _. by split.
  - intros m Hm. by apply fit_values.
Qed.

Definition series_fits (s : TranscriptSeries) : Prop := fits (se_buckets s).
Definition agent_fits (a : AgentHistory) : Prop := fits (ah_recent_buckets a).
Definition history_fits (h : WorkspaceHistory) : Prop :=
  fits (wh_recent_buckets h) /\ Forall agent_fits (wh_agents h).

Lemma safe_agents series :
  usable_size size -> Forall series_fits series ->
  safe (build_agent_histories series size) (Forall agent_fits).
Proof.
  intros Hu Hs. unfold build_agent_histories. eapply safe_bind.
  - apply (safe_try_fold _ (fun _ => map_Forall (fun (_ : string) a => fits (acc_buckets a))) series_fits);
      [by apply map_Forall_empty|done|].
    intros _ acc s Hacc Hs'. unfold accumulate. eapply safe_bind.
    + apply safe_aggregate; [done|]. apply Forall_cons. split; [|by apply Forall_singleton].
      destruct (acc !! se_agent s) as [e|] eqn:He; [by apply (Hacc _ _ He)|constructor].
    + intros bs Hbs. apply map_Forall_insert_2; [|done]. by case_match.
  - intros acc Hacc. simpl. rewrite merge_sort_Permutation, btree_to_list_perm. apply Forall_fmap.
    apply map_Forall_to_list in Hacc. eapply Forall_impl; [exact Hacc|]. by intros [].
Qed.

Lemma safe_available name dir series :
  usable_size size -> Forall series_fits series ->
  safe (available_history name dir series size) (fun h => history_fits h /\ wh_workspace h = name).
Proof.
  intros Hu Hs. unfold available_history. eapply safe_bind; [by apply safe_agents|]. intros agents Ha.
  eapply safe_bind; [apply safe_aggregate; [done|by apply Forall_fmap]|]. intros recent Hr. by repeat split.
Qed.

(** ** Scans *)

Section scans.
Context {F : Type} `{!TranscriptFs F} `{!TranscriptJson} (fs : F) (q : HistoryQuery).
Hypothesis Hq : sane_query q.

Lemma safe_read_line path line : safe (read_line path line) (fun _ => True).
Proof. by destruct line. Qed.
Lemma safe_open path : safe (open_lines fs path) (fun _ => True).
Proof. unfold open_lines. by destruct (tf_lines fs path). Qed.

Definition state_fits (st : ScanState) : Prop := fit_map (sc_buckets st).

Lemma safe_scan_line path st line : state_fits st -> safe (scan_line q path st line) state_fits.
Proof.
  intros Hst. eapply safe_bind; [apply safe_read_line|]. intros l _. destruct (parse_line l); [|done].
  unfold scan_record. destruct (ingest _ _) as [e a'].
  eapply safe_bind; [by apply safe_bucket_effect|]. by intros m Hm.
Qed.
Lemma safe_scan_codex_line path st line : state_fits st -> safe (scan_codex_line q path st line) state_fits.
Proof.
  intros Hst. eapply safe_bind; [apply safe_read_line|]. intros l _.
  destruct (parse_codex_line l) as [[]|]; try done. cbv zeta. destruct (ingest _ _) as [e a'].
  eapply safe_bind; [by apply safe_codex_bucket_effect|]. by intros m Hm.
Qed.

Definition scan_fits (o : option TranscriptSeries) : Prop := forall s, o = Some s -> series_fits s.

Lemma safe_scan_transcript path : safe (scan_transcript q fs path) scan_fits.
Proof.
  eapply safe_bind; [apply safe_open|]. intros lines _. eapply safe_bind.
  - apply (safe_try_fold _ (fun _ => state_fits) (fun _ => True)); [by apply map_Forall_empty|by apply Forall_true|].
    intros _ st l Hst _. by apply safe_scan_line.
  - intros st Hst s. unfold finish_transcript. case_match; [done|]. intros [= <-].
    unfold series_fits. fsimpl. by apply fit_values.
Qed.
Lemma safe_scan_codex path : safe (scan_codex_transcript q fs path) scan_fits.
Proof.
  eapply safe_bind; [apply safe_open|]. intros lines _. eapply safe_bind.
  - apply (safe_try_fold _ (fun _ => state_fits) (fun _ => True)); [by apply map_Forall_empty|by apply Forall_true|].
    intros _ st l Hst _. by apply safe_scan_codex_line.
  - intros st Hst. cbv zeta. case_match; intros s; [done|]. intros [= <-].
    unfold series_fits. fsimpl. by apply fit_values.
Qed.

Lemma safe_scan_all scan paths :
  (forall p, safe (scan p) scan_fits) -> safe (scan_all scan paths) (Forall series_fits).
Proof.
  intros Hscan. apply (safe_try_fold _ (fun _ => Forall series_fits) (fun _ => True));
    [constructor|by apply Forall_true|].
  intros _ acc p Hacc _. eapply safe_bind; [apply Hscan|]. intros [s|] Hs; [|done]. simpl.
  apply Forall_app. split; [done|]. apply Forall_singleton. by apply Hs.
Qed.

Lemma safe_discover dir : safe (discover_transcripts fs dir) (fun _ => True).
Proof. unfold discover_transcripts. by destruct (walk _ _ _). Qed.

Scheme Dir_rec2 := Induction for Dir Sort Prop
with Entries_rec2 := Induction for Entries Sort Prop.
Combined Scheme Dir_Entries_ind from Dir_rec2, Entries_rec2.

Lemma safe_walk since :
  (forall d dir out, safe (walk_sessions fs since dir d out) (fun _ => True)) /\
  (forall es dir out, safe (walk_session_entries fs since dir es out) (fun _ => True)).
Proof.
  apply Dir_Entries_ind; simpl; try done.
  - intros e dir out. by destruct e.
  - intros name d IHd rest IHr dir out. specialize (IHd (join dir name) out).
    by destruct (walk_sessions _ _ _ _ _) as [|[]].
Qed.

Lemma safe_discover_codex dir : safe (discover_codex_sessions q fs dir) (fun _ => True).
Proof.
  unfold discover_codex_sessions. case_match; [done|]. eapply safe_bind; [apply safe_walk|]. done.
Qed.

Lemma safe_codex_binding home :
  safe (scan_codex_for_binding q fs home) (fun r => Forall series_fits (cr_series r)).
Proof.
  unfold scan_codex_for_binding. case_match; [constructor|].
  eapply safe_bind; [apply safe_discover_codex|]. intros [|p paths] _; [constructor|].
  eapply safe_bind; [apply safe_scan_all, safe_scan_codex|]. done.
Qed.

Lemma safe_scan_dir dir : safe (scan_dir q fs dir) (fun s => Forall series_fits (ds_series s)).
Proof.
  unfold scan_dir. case_match; [constructor|]. eapply safe_bind; [apply safe_discover|].
  intros [|p paths] _; [constructor|]. eapply safe_bind; [apply safe_scan_all, safe_scan_transcript|]. done.
Qed.

(** ** Queries *)

Lemma assigned_fit bindings series name :
  Forall series_fits series ->
  Forall series_fits (default [] (assign_series bindings series !! name)).
Proof.
  intros Hs. unfold assign_series.
  assert (forall asg n s, (forall m, Forall series_fits (default [] (asg !! m))) -> series_fits s ->
            forall m, Forall series_fits (default [] (push_series asg n s !! m))) as Hpush.
  { intros asg n s Hasg Hn m. unfold push_series. destruct (decide (n = m)) as [->|].
    - rewrite lookup_insert_eq. apply Forall_app. split; [done|]. by apply Forall_singleton.
    - by rewrite lookup_insert_ne. }
  destruct (foldl (hint_step _) (∅, ∅) series) as [asg sess] eqn:Hst.
  assert (forall m, Forall series_fits (default [] (asg !! m))) as Hasg.
  { replace asg with (foldl (hint_step (foldl (fun m b => <[wb_name b := b]> m) ∅ bindings)) (∅, ∅) series).1
      by (by rewrite Hst).
    clear Hst. induction series as [|s series IH] using rev_ind; [done|]. apply Forall_app in Hs as [Hs Hs1].
    rewrite foldl_app. simpl. apply (proj1 (Forall_singleton _ _)) in Hs1. destruct (foldl _ _ series) as [a b]. simpl in *.
    destruct (hinted _ s); [|by apply IH]. simpl. apply Hpush; [by apply IH|done]. }
  clear Hst. revert name. induction series as [|s series IH] using rev_ind; [done|].
  apply Forall_app in Hs as [Hs Hs1]. apply (proj1 (Forall_singleton _ _)) in Hs1. rewrite foldl_app. simpl.
  unfold unhinted_step at 1. repeat case_match; try (by apply IH). apply Hpush; [by apply IH|done].
Qed.

Lemma safe_dirs bindings :
  safe (try_fold (scan_binding_dir q fs) ∅ bindings)
    (map_Forall (fun (_ : string) s => Forall series_fits (ds_series s))).
Proof.
  apply (safe_try_fold _ (fun _ => map_Forall (fun _ s => Forall series_fits (ds_series s))) (fun _ => True));
    [by apply map_Forall_empty|by apply Forall_true|].
  intros _ seen b Hseen _. unfold scan_binding_dir.
  destruct (seen !! wb_dir b), (wb_claude_project_dir b) as [p|]; try done.
  eapply safe_bind; [apply safe_scan_dir|]. intros s Hs. by apply map_Forall_insert_2.
Qed.

Lemma safe_codexes bindings :
  safe (try_fold (scan_binding_codex q fs) (∅, ∅) bindings)
    (fun st => map_Forall (fun (_ : string) => Forall series_fits) st.1).
Proof.
  apply (safe_try_fold _ (fun _ st => map_Forall (fun _ => Forall series_fits) st.1) (fun _ => True));
    [by apply map_Forall_empty|by apply Forall_true|].
  intros _ [by_name flags] b Hst _. unfold scan_binding_codex. destruct (wb_codex_homes b) as [|h hs]; [done|].
  eapply safe_bind.
  - apply (safe_try_fold _ (fun _ r => Forall series_fits (cr_series r)) (fun _ => True));
      [constructor|by apply Forall_true|].
    intros _ acc home Hacc _. eapply safe_bind; [apply safe_codex_binding|]. intros r Hr. simpl.
    by apply Forall_app.
  - intros r Hr. simpl. destruct (cr_series r) eqn:Hc; simpl; [done|]. apply map_Forall_insert_2; [|done].
    by rewrite <-Hc.
Qed.

Lemma safe_compose seen asg flags codex bindings :
  (forall name, Forall series_fits (default [] (asg !! name))) ->
  map_Forall (fun (_ : string) => Forall series_fits) codex ->
  safe (try_fold (compose_binding q seen asg flags) (codex, []) bindings)
    (fun st => Forall history_fits st.2 /\ wh_workspace <$> st.2 = wb_name <$> bindings).
Proof.
  intros Hasg Hcodex. eapply safe_mono.
  - apply (safe_try_fold _ (fun k st => map_Forall (fun (_ : string) => Forall series_fits) st.1 /\
             Forall history_fits st.2 /\ wh_workspace <$> st.2 = wb_name <$> k) (fun _ => True));
      [done|by apply Forall_true|].
    intros k [cx out] b (Hcx & Hout & Hnames) _. unfold compose_binding. simpl in *.
    assert (map_Forall (fun _ => Forall series_fits) (delete (wb_name b) cx)) as Hcx' by (by apply map_Forall_delete).
    assert (Forall series_fits (default [] (asg !! wb_name b) ++ default [] (cx !! wb_name b))) as Hseries.
    { apply Forall_app. split; [apply Hasg|]. destruct (cx !! _) as [l|] eqn:Hl; [by apply (Hcx _ _ Hl)|constructor]. }
    destruct (default [] (asg !! _) ++ _) as [|s ss].
    + destruct (default (false, false) _). simpl. rewrite !fmap_app, Hnames. split; [done|]. split; [|done].
      apply Forall_app. split; [done|]. apply Forall_singleton. by repeat constructor.
    + destruct Hq as (-> & Hu & _). eapply safe_bind; [by apply safe_available|]. intros h [Hh Hn]. simpl.
      rewrite !fmap_app, Hnames. simpl. rewrite Hn. split; [done|]. split; [|done].
      apply Forall_app. split; [done|]. by apply Forall_singleton.
  - by intros st (_ & ? & ?).
Qed.

Lemma safe_query bindings :
  safe (query_history q fs bindings)
    (fun r => Forall history_fits (hr_workspaces r) /\
              wh_workspace <$> hr_workspaces r ≡ₚ wb_name <$> bindings /\
              StronglySorted workspace_le (hr_workspaces r) /\
              hr_bucket_minutes r = i64_wrap (as_secs size / 60)).
Proof.
  destruct Hq as (Hs & _). unfold query_history. destruct bindings as [|b bs].
  { simpl. rewrite Hs. by repeat constructor. }
  eapply safe_bind; [apply safe_dirs|]. intros seen Hseen.
  eapply safe_bind; [apply safe_codexes|]. intros [codex flags] Hcodex.
  eapply safe_bind.
  - apply safe_compose; [|done]. intros name. apply assigned_fit.
    apply Forall_concat, Forall_fmap. apply Forall_forall. intros s Hin.
    apply elem_of_btree_values in Hin as [k Hk]. by apply (Hseen _ _ Hk).
  - intros [cx out] [Hout Hnames]. simpl in *. rewrite Hs. split; [by rewrite merge_sort_Permutation|].
    split; [by rewrite merge_sort_Permutation, Hnames|]. split; [|done].
    apply (StronglySorted_merge_sort workspace_le).
Qed.
End scans.
End fit.

(** ** Trends *)

Lemma safe_make_buckets size duration l :
  0 <= duration <= size -> fits size l -> safe (make_usage_buckets l duration) (fun _ => True).
Proof.
  intros Hd Hl. eapply safe_mono; [|done].
  apply (safe_mapM _ (fit size) (fun _ _ => True)); [done|]. intros b [Hlo Hhi]. unfold make_usage_bucket.
  case_match; [|done]. eapply safe_bind; [apply (safe_date_add size); lia|]. done.
Qed.

Lemma safe_workspace_trend size duration resp h :
  0 <= duration <= size -> history_fits size h ->
  safe (workspace_trend resp duration h) (fun t => wt_workspace t = wh_workspace h).
Proof.
  intros Hd [Hb Ha]. unfold workspace_trend. case_match; [done|].
  eapply safe_bind; [by apply (safe_make_buckets size)|]. intros bs _. eapply safe_bind; [|done].
  eapply safe_mono; [|done]. apply (safe_mapM _ (agent_fits size) (fun _ _ => True)); [done|].
  intros a Hfit. eapply safe_bind; [by apply (safe_make_buckets size)|]. done.
Qed.

Lemma Forall2_names (ws : list WorkspaceHistory) (ts : list WorkspaceTrend) :
  Forall2 (fun h t => wt_workspace t = wh_workspace h) ws ts -> wt_workspace <$> ts = wh_workspace <$> ws.
Proof. induction 1 as [|h t ws ts Ht _ IH]; csimpl; [done|]. by rewrite Ht, IH. Qed.

Lemma sorted_names (ws : list WorkspaceHistory) :
  StronglySorted workspace_le ws -> StronglySorted String.le (wh_workspace <$> ws).
Proof. induction 1; simpl; constructor; [done|]. by apply Forall_fmap. Qed.

Lemma minutes_below size :
  usable_size size ->
  exists d, chrono_minutes (i64_wrap (as_secs size / 60)) = Ok d /\ 0 <= d <= size.
Proof.
  intros (n & Hn & -> & Hm). unfold as_secs, secs in *. rewrite Z.div_mul by done.
  pose proof (Z.div_pos n 60 ltac:(lia) ltac:(done)). pose proof (Z.mul_div_le n 60 ltac:(done)).
  rewrite i64_wrap_small by (unfold in_i64, i64_min, i64_max, nanos in *; lia).
  unfold chrono_minutes. exists (secs (n / 60 * 60)). unfold secs, nanos, i64_max in *.
  rewrite (proj2 (Z.leb_le _ _)); [split; [done|lia]|].
  apply Z.div_le_lower_bound; [done|]. lia.
Qed.

(** The duration of at most 10^9 minutes, or the default, as seconds. *)
Lemma minutes_window m d :
  m <= 10 ^ 9 -> (exists n, d = secs n /\ 0 < n <= 6 * 10 ^ 10) ->
  exists n, (if as_secs (minutes_duration m) =? 0 then d else minutes_duration m) = secs n /\
    0 < n /\ n <= 6 * 10 ^ 10.
Proof.
  intros Hm (k & -> & Hk). unfold minutes_duration. rewrite Z.min_l by (unfold u64_max; lia).
  unfold as_secs, secs. rewrite Z.div_mul by done. case_match eqn:Hz; [exists k; lia|].
  apply Z.eqb_neq in Hz. exists (Z.max m 0 * 60). lia.
Qed.

Section requests.
Context {F : Type} `{!TranscriptFs F} `{!TranscriptJson} `{!SysText}.
Context (env : Env) (short_hash : string -> string) (fs : F).

Lemma safe_trends_for bindings now since bucket :
  let window := if as_secs since =? 0 then DEFAULT_HISTORY_WINDOW else since in
  let size := if as_secs bucket =? 0 then DEFAULT_BUCKET_SIZE else bucket in
  usable_size size -> 0 <= window <= i64_max * 1000000 ->
  DATE_MIN <= now - window -> now + size <= DATE_MAX ->
  safe (query_workspace_trends_for fs bindings now since bucket)
    (fun ts => wt_workspace <$> ts ≡ₚ wb_name <$> bindings /\ StronglySorted String.le (wt_workspace <$> ts)).
Proof.
  intros window size Hu Hw Hlo Hhi. unfold query_workspace_trends_for. fold window. fold size.
  unfold chrono_from_std. rewrite (proj2 (Z.leb_le window _)) by lia. cbn [default from_option id].
  assert (0 <= size) by (by apply usable_duration).
  apply (safe_bind _ _ (fun start => start = now - window)).
  { unfold date_add. rewrite Z.add_opp_r. enough (date_ok (now - window) = true) as -> by done.
    unfold date_ok. apply andb_true_iff. rewrite !Z.leb_le. lia. }
  intros start ->. assert (sane_query size (mkHistoryQuery (now - window) now size)) as Hq by done.
  eapply safe_bind; [by apply (safe_query size)|]. intros resp (Hfit & Hnames & Hsort & Hmin).
  destruct (minutes_below size Hu) as (d & Hd & Hle). unfold query_workspace_trends. rewrite Hmin, Hd.
  cbn [mbind result_bind]. eapply safe_mono.
  { eapply (safe_mapM _ (history_fits size)); [done|]. intros h Hh. by apply (safe_workspace_trend size). }
  intros ts Hts%Forall2_names. rewrite Hts. split; [done|]. by apply sorted_names.
Qed.

(** A usage request is answered for every workspace it names.  For a look-back and a
    bucket of at most 10^9 minutes (zero or less means the default), and a clock within
    chrono's range, the request does not panic; unless a file cannot be read it returns
    one trend per requested workspace, sorted by name. *)
Theorem usage_requests_are_answered now payload :
  ut_since_minutes payload <= 10 ^ 9 -> ut_bucket_minutes payload <= 10 ^ 9 ->
  0 <= now <= secs (8 * 10 ^ 12) ->
  match handle_usage_trends env short_hash fs now payload with
  | Some (Ok trends) =>
      wt_workspace <$> trends ≡ₚ utw_workspace <$> ut_workspaces payload /\
      StronglySorted String.le (wt_workspace <$> trends)
  | Some (Err _) => True
  | None => False
  end.
Proof.
  intros Hsince Hbucket Hnow. unfold handle_usage_trends.
  set (bindings := _ <$> ut_workspaces payload).
  assert (wb_name <$> bindings = utw_workspace <$> ut_workspaces payload) as Hnames.
  { unfold bindings. rewrite <-list_fmap_compose. by apply list_fmap_ext. }
  pose proof (minutes_window (ut_since_minutes payload) DEFAULT_HISTORY_WINDOW Hsince) as Hw.
  pose proof (minutes_window (ut_bucket_minutes payload) DEFAULT_BUCKET_SIZE Hbucket) as Hb.
  destruct Hw as (w & Hw & Hw1 & Hw2); [by exists 10800|].
  destruct Hb as (b & Hb & Hb1 & Hb2); [by exists 300|].
  pose proof (safe_trends_for bindings now (minutes_duration (ut_since_minutes payload))
                (minutes_duration (ut_bucket_minutes payload))) as Hsafe.
  cbv zeta in Hsafe. rewrite Hw, Hb, Hnames in Hsafe.
  unfold safe in Hsafe. destruct (query_workspace_trends_for _ _ _ _ _) as [ts|[]]; [|done|].
  - apply Hsafe; unfold DATE_MIN, DATE_MAX, i64_max, secs, nanos in *;
      [exists b; unfold secs, nanos, i64_max in *|..]; lia.
  - apply Hsafe; unfold DATE_MIN, DATE_MAX, i64_max, secs, nanos in *;
      [exists b; unfold secs, nanos, i64_max in *|..]; lia.
Qed.
End requests.
