(* ===== verification/UsageExamples.v ===== *)
(** * Usage accounting on concrete transcripts

    A disk with one Claude project and one Codex home, two transcripts of a few lines,
    and the theorems of the usage files applied to them; at the end, what the code does
    outside their hypotheses. *)

From stdpp Require Import prelude gmap strings list fin_maps sorting.
From S2P Require Import Prelude.
From S2P Require Import Paths ConfigSchema CodexFiles ErrorText.
From S2P Require Import RustStr.
From S2P Require Import Usage UsageFacts UsageHistory UsageHistoryFacts UsageTrends.

Open Scope Z_scope.

#[local] Instance PlainSysText : SysText := {|
  io_error_text e := match e with IoNotFound => "not found" | IoOther msg => msg end;
  json_error_text := "json";
|}.

(** ** Lines and files *)

Definition usage_line (ts : Z) (request model : string) (input output : Z) : RawRecord :=
  mkRawRecord (Some (secs ts)) "s1" "/work" "" request None
    (Some (mkRawMessage "m" model (Some (mkRawUsage input output 0 0)) None)).

(** Two revisions of the request [q1], with different models, and a request [q2]. *)
Definition line_q1 : RawRecord := usage_line 60 "q1" "opus" 10 5.
Definition line_q1' : RawRecord := usage_line 90 "q1" "sonnet" 12 7.
Definition line_q2 : RawRecord := usage_line 400 "q2" "opus" 1 1.

#[local] Instance TableJson : TranscriptJson := {|
  record_from_slice line :=
    if String.eqb line "q1" then Ok line_q1
    else if String.eqb line "q1'" then Ok line_q1'
    else if String.eqb line "q2" then Ok line_q2 else Err "syntax";
  codex_from_slice line :=
    if String.eqb line "meta" then Ok (mkRawCodexRecord (Some (secs 50)) "session_meta" JNull)
    else if String.eqb line "count" then Ok (mkRawCodexRecord (Some (secs 70)) "event_msg" JNull)
    else Err "syntax";
  meta_from_value _ := Ok (mkRawSessionMetaPayload "c1" "/work");
  event_from_value _ :=
    Ok (mkRawEventPayload "token_count"
          (Some (mkRawTokenInfo (mkRawCodexUsage 100 40 8) (mkRawCodexUsage 30 20 4))));
  value_to_string _ := "";
|}.

Record Disk := mkDisk { disk_dirs : list (string * Dir); disk_files : list (string * list string) }.
Fixpoint assoc {A} (key : string) (l : list (string * A)) : option A :=
  match l with [] => None | (k, v) :: l => if String.eqb k key then Some v else assoc key l end.
Fixpoint entry_names (es : Entries) : list string :=
  match es with
  | NoMore | EntryError _ => []
  | UntypedEntry name _ => [name]
  | SubDir name _ rest | OtherEntry name rest => name :: entry_names rest
  end.
#[local] Instance DiskFs : TranscriptFs Disk := {|
  tf_exists d path := bool_decide (is_Some (assoc path (disk_dirs d)));
  tf_dir d path := default (Unreadable IoNotFound) (assoc path (disk_dirs d));
  tf_lines d path := match assoc path (disk_files d) with Some l => Ok (Ok <$> l) | None => Err IoNotFound end;
  tf_modified d path := Some (secs 1000);
  tf_names d path := match assoc path (disk_dirs d) with
                     | Some (Readable es) => Some (entry_names es)
                     | _ => None
                     end;
|}.

Definition claude_file : string := "/home/u/.claude/projects/-work/a.jsonl".
Definition codex_home : string := "/home/u/.ax/codex/web-0123456789ab".
Definition codex_file : string := "/home/u/.ax/codex/web-0123456789ab/sessions/r.jsonl".
Definition demo_disk : Disk := mkDisk
  [("/home/u/.claude/projects/-work", Readable (OtherEntry "a.jsonl" (OtherEntry "notes.txt" NoMore)));
   (codex_home, Readable (SubDir "sessions" (Readable (OtherEntry "r.jsonl" NoMore)) NoMore));
   ("/home/u/.ax/codex/web-0123456789ab/sessions", Readable (OtherEntry "r.jsonl" NoMore))]
  [(claude_file, ["q1"; "not json"; "q1'"; "q2"]); (codex_file, ["meta"; "count"; "count"])].

Definition demo_query : HistoryQuery := mkHistoryQuery 0 (secs 600) (secs 300).
Definition demo_env : Env := mkEnv (Some "/home/u") (Ok "/").
Definition demo_hash (s : string) : string := "0123456789ab".

Lemma demo_size : usable_size (q_bucket_size demo_query).
Proof. by exists 300. Qed.

(** ** The aggregator *)

Definition demo_records : list ParsedRecord := parsed_from_raw <$> [line_q1; line_q1'; line_q2].

(** The first revision does not count, and its share moves to the new model. *)
Example demo_aggregate :
  let a := ingest_all demo_records in
  (ag_cumulative a, ag_turns a) = (mkTokens 13 8 0 0, 2) /\
  us_by_model (snapshot "t" a) =
    [mkModelTotals "opus" 1 (mkTokens 1 1 0 0); mkModelTotals "sonnet" 1 (mkTokens 12 7 0 0)].
Proof. vm_compute. done. Qed.

Lemma model_rows_are_exact_witness :
  let rows := us_by_model (snapshot "t" (ingest_all demo_records)) in
  (forall mt, mt ∈ rows <->
     row (mt_model mt) (of_model (mt_model mt) (counted demo_records)) = Some mt) /\
  StronglySorted model_le rows /\ NoDup (mt_model <$> rows).
Proof.
  apply (model_rows_are_exact demo_records "t").
  - apply (bool_decide_unpack _). vm_compute. exact I.
  - vm_compute. discriminate.
Defined.

(** ** Scans *)

Lemma scan_accounts_for_every_record_witness :
  exists s, scan_transcript demo_query demo_disk claude_file = Ok (Some s) /\
    vwrap (usage_of (se_buckets s)) = (mkTokens 13 8 0 0, 21, no_mcp, 2).
Proof.
  destruct (scan_transcript demo_query demo_disk claude_file) as [[s|]|] eqn:E;
    [|vm_compute in E; discriminate E|vm_compute in E; discriminate E].
  exists s. split; [reflexivity|].
  destruct (scan_accounts_for_every_record demo_disk demo_query claude_file s E demo_size)
    as (lines & Hl & _ & _ & _ & _ & Hcov).
  injection Hl as <-. rewrite Hcov.
  - vm_compute. reflexivity.
  - apply Forall_cons. split; [vm_compute; reflexivity|].
    apply Forall_cons. split; [vm_compute; reflexivity|].
    apply Forall_cons. split; [vm_compute; reflexivity|constructor].
Defined.

(** A Codex session: input tokens without the cached ones, one turn per token count. *)
Example demo_codex :
  match scan_codex_transcript demo_query demo_disk codex_file with
  | Ok (Some s) => se_session_id s = "c1" /\ cs_turns (se_current s) = 2 /\
                   cs_cumulative_totals (se_current s) = mkTokens 20 8 40 0 /\
                   counts <$> se_buckets s = [(mkTokens 20 8 40 0, 68, no_mcp, 2)]
  | _ => False
  end.
Proof. vm_compute. done. Qed.

(** ** Attribution and roll-ups *)

Definition demo_series (cwd session hint agent : string) (start : Z) : TranscriptSeries :=
  mkTranscriptSeries cwd session agent hint "t" no_snapshot
    [mkBucket start (start + secs 300) (mkTokens 1 2 0 0) 3 no_mcp 1].
Definition series_hinted := demo_series "/work" "s1" "web" "main" 0.
Definition series_session := demo_series "/elsewhere" "s1" "" "helper" 0.
Definition series_shared := demo_series "/work" "" "" "main" (secs 300).
Definition demo_bindings : list WorkspaceBinding :=
  [mkWorkspaceBinding "web" "/work" None []; mkWorkspaceBinding "api" "/work" None []].

Lemma series_are_attributed_once_witness :
  default [] (assign_series demo_bindings [series_session; series_hinted; series_shared] !! "web")
  ≡ₚ [series_session; series_hinted].
Proof.
  rewrite (series_are_attributed_once demo_bindings [series_session; series_hinted; series_shared] "web").
  - vm_compute. reflexivity.
  - discriminate.
Defined.

Lemma roll_up_keeps_usage_witness :
  exists h, available_history "web" "/work" [series_hinted; series_session; series_shared] (secs 300) = Ok h
    /\ vwrap (usage_of (wh_recent_buckets h)) = (mkTokens 3 6 0 0, 9, no_mcp, 3)
    /\ ah_agent <$> wh_agents h = ["main"; "helper"].
Proof.
  destruct (available_history "web" "/work" [series_hinted; series_session; series_shared] (secs 300))
    as [h|] eqn:E; [|vm_compute in E; discriminate E].
  exists h. split; [reflexivity|].
  destruct (roll_up_keeps_usage _ _ _ _ _ E) as (_ & _ & Hsum & _). rewrite Hsum.
  split; [vm_compute; reflexivity|]. vm_compute in E. injection E as <-. reflexivity.
Defined.

(** ** Requests *)

Definition demo_payload : UsageTrendsPayload :=
  mkUsageTrendsPayload [mkUsageTrendWorkspace "web" "/work"; mkUsageTrendWorkspace "api" ""] 0 0.

Lemma usage_requests_are_answered_witness :
  exists trends, handle_usage_trends demo_env demo_hash demo_disk (secs 600) demo_payload = Some (Ok trends)
    /\ wt_workspace <$> trends ≡ₚ ["web"; "api"].
Proof.
  pose proof (usage_requests_are_answered demo_env demo_hash demo_disk (secs 600) demo_payload) as Ha.
  destruct (handle_usage_trends demo_env demo_hash demo_disk (secs 600) demo_payload) as [[trends|e]|] eqn:E.
  - exists trends. split; [reflexivity|]. apply Ha; vm_compute; [discriminate|discriminate|].
    split; discriminate.
  - vm_compute in E. discriminate E.
  - vm_compute in E. discriminate E.
Defined.

(** The answer counts the Claude transcript and the Codex session of the workspace. *)
Example demo_request :
  match handle_usage_trends demo_env demo_hash demo_disk (secs 600) demo_payload with
  | Some (Ok trends) =>
      (fun t => (wt_workspace t, wt_available t, wt_error t, wt_total t)) <$> trends =
      [("api", false, "missing_workspace_dir", no_tokens); ("web", true, "", mkTokens 33 16 40 0)]
  | _ => False
  end.
Proof. vm_compute. done. Qed.

(** ** Outside the hypotheses *)

(** A look-back of 2 * 10^11 minutes, or a bucket of 2 * 10^14, panics. *)
Example long_windows_panic :
  handle_usage_trends demo_env demo_hash demo_disk (secs 600)
    (mkUsageTrendsPayload [mkUsageTrendWorkspace "web" "/work"] (2 * 10 ^ 11) 0) = None /\
  handle_usage_trends demo_env demo_hash demo_disk (secs 600)
    (mkUsageTrendsPayload [] 0 (2 * 10 ^ 14)) = None.
Proof. vm_compute. done. Qed.

(** If the first revision of a request has no model, its tokens and its turn stay in a
    row without a name, and the row of the model has only the difference. *)
Example unnamed_model_keeps_its_share :
  us_by_model (snapshot "t" (ingest_all
    (parsed_from_raw <$> [usage_line 60 "q1" "" 10 5; usage_line 90 "q1" "opus" 12 7]))) =
  [mkModelTotals "" 1 (mkTokens 10 5 0 0); mkModelTotals "opus" 0 (mkTokens 2 2 0 0)].
Proof. vm_compute. done. Qed.

(** Two projects have a workspace [web]: each takes the other's Codex home for a former
    home of its own, and counts its sessions. *)
Definition dir_hash (s : string) : string :=
  if String.eqb s "/work" then "0123456789ab" else "fedcba987654".
Definition two_homes : Disk := mkDisk
  [("/home/u/.ax/codex", Readable (SubDir "web-0123456789ab" (Readable NoMore)
                            (SubDir "web-fedcba987654" (Readable NoMore) NoMore)))] [].
Example homes_of_other_projects_are_found :
  discover_codex_home_candidates demo_env dir_hash two_homes "web" "/work" =
    Ok ["/home/u/.ax/codex/web-0123456789ab"; "/home/u/.ax/codex/web-fedcba987654"] /\
  discover_codex_home_candidates demo_env dir_hash two_homes "web" "/other" =
    Ok ["/home/u/.ax/codex/web-fedcba987654"; "/home/u/.ax/codex/web-0123456789ab"].
Proof. vm_compute. done. Qed.
