(* ===== verification/TeamHandlers.v ===== *)
(** * The team requests of the daemon (crates/ax-daemon/src/handlers.rs).

    The four handlers hand their payload to the controller of [TeamReconfigure] and turn
    its errors into texts. *)

From stdpp Require Import prelude strings list gmap.
From S2P Require Import Prelude RustStr Proto SharedValues Daemon.
From S2P Require Import Paths ConfigSchema ConfigTree ErrorText TeamReconfigure.

Record TeamReconfigurePayload := mkTeamPayload {
  tp_config_path : string;
  tp_expected_revision : option Z;
  tp_changes : list TeamReconfigureChange;
  tp_reconcile_mode : option TeamReconcileMode;
}.

Record FinishTeamReconfigurePayload := mkFinishPayload {
  fp_token : string;
  fp_success : bool;
  fp_error : string;
  fp_actions : list TeamReconfigureAction;
}.

Section texts.
Context `{!TextOps} `{!SysText}.

(** [{:?}] of the two enums. *)
Definition op_debug (op : TeamChangeOp) : string :=
  match op with OpAdd => "Add" | OpRemove => "Remove" | OpEnable => "Enable" | OpDisable => "Disable" end.
Definition kind_debug (kind : TeamEntryKind) : string :=
  match kind with
  | KWorkspace => "Workspace"
  | KChild => "Child"
  | KRootOrchestrator => "RootOrchestrator"
  end.

#[export] Instance TeamStateError_display : Display TeamStateError := fun e =>
  match e with
  | TeamStateRead path source => "read " +:+ debug_str path +:+ ": " +:+ source
  | TeamStateDecode path => "decode " +:+ debug_str path +:+ ": " +:+ json_error_text
  | TeamStateEncode => "encode team state: " +:+ json_error_text
  | TeamStatePersist e => "persist team state: " +:+ e
  end.

#[export] Instance TeamError_display : Display TeamError := fun e =>
  match e with
  | ConfigPathRequired => "config_path is required"
  | ResolveConfigPath path source => "resolve config path " +:+ debug_str path +:+ ": " +:+ to_string source
  | RevisionMismatch expected got =>
      "team revision mismatch: expected " +:+ show_Z expected +:+ ", got " +:+ show_Z got
  | FeatureDisabled key => "feature flag " +:+ debug_str key +:+ " is disabled"
  | InvalidReconcileMode mode => "invalid reconcile mode " +:+ debug_str mode
  | ApplyInProgress id => "team reconfiguration already in progress for " +:+ id
  | TokenNotFound token => "team reconfigure token " +:+ debug_str token +:+ " not found"
  | StateNotFound id => "team state " +:+ debug_str id +:+ " not found"
  | WorkspaceNameRequired => "workspace change requires name"
  | WorkspaceSpecRequired => "workspace add requires workspace spec"
  | WorkspaceAlreadyExists name => "workspace " +:+ debug_str name +:+ " already exists"
  | UnsupportedWorkspaceOp op => "unsupported workspace op " +:+ op_debug op
  | ChildNameRequired => "child change requires name"
  | ChildSpecRequired => "child add requires child spec"
  | ChildAlreadyExists name => "child " +:+ debug_str name +:+ " already exists"
  | ChildDirRequired => "child add requires dir"
  | UnsupportedChildOp op => "unsupported child op " +:+ op_debug op
  | RootOrchestratorOpUnsupported => "root orchestrator supports enable/disable only"
  | UnsupportedKind kind => "unsupported change kind " +:+ kind_debug kind
  | LoadConfig path source => "load config " +:+ debug_str path +:+ ": " +:+ to_string source
  | ReadRaw path source => "read raw config " +:+ debug_str path +:+ ": " +:+ to_string source
  | SaveConfig path source => "save effective config " +:+ debug_str path +:+ ": " +:+ to_string source
  | MkState path source => "create managed-teams dir " +:+ debug_str path +:+ ": " +:+ to_string source
  | PersistTeam e => "persist team state: " +:+ to_string e
  end.
End texts.

Section handlers.
Context {F : Type} `{!FileSystem F} `{!YamlCodec Config} `{!YamlCodec ManagedOverlay}.
Context `{!TextOps} `{!SysText} `{!JsonCodec (list TeamReconfigureState)}.
Context (short_team_hash : string -> string) (env : Env) (fuel : nat) (shared : SharedValues).

(** The error of the controller as the message of [HandlerError::Logic]. *)
Definition team_logic {A} (m : Run TeamError (TeamController * F) A)
  : Run HandlerError (TeamController * F) A := fun s =>
  match m s with
  | Some (r, s) => Some (map_err (fun e => Logic (to_string e)) r, s)
  | None => None
  end.

Definition handle_get_team_state (config_path : string)
  : Run HandlerError (TeamController * F) TeamReconfigureState :=
  team_logic (get_state env fuel shared config_path).

Definition handle_dry_run_team_reconfigure (p : TeamReconfigurePayload) (now : Z)
  : Run HandlerError (TeamController * F) TeamReconfigurePlan :=
  team_logic (plan short_team_hash env fuel shared (tp_config_path p) (tp_expected_revision p)
                (tp_changes p) now).

Definition handle_apply_team_reconfigure (p : TeamReconfigurePayload) (planned_at now : Z)
    (fault : option string) : Run HandlerError (TeamController * F) TeamApplyTicket :=
  team_logic (begin_apply short_team_hash env fuel shared (tp_config_path p)
                (tp_expected_revision p) (tp_changes p) (tp_reconcile_mode p) planned_at now fault).

Definition handle_finish_team_reconfigure (p : FinishTeamReconfigurePayload) (now : Z)
    (fault : option string) : Run HandlerError (TeamController * F) TeamReconfigureState :=
  team_logic (finish_apply shared (fp_token p) (fp_success p) (fp_error p) (fp_actions p) now fault).
End handlers.
