(* ===== verification/McpScope.v ===== *)
(** * Memory scopes (crates/ax-mcp-server/src/memory_scope.rs).

    The agent-side resolver of scope selectors: the aliases [workspace], [project] and
    [global], and explicit selectors such as [task:<id>].  [scope_form] is the shape of
    the scopes it hands to the daemon. *)

From stdpp Require Import prelude strings list gmap.
From S2P Require Import Prelude RustStr Proto TaskHelpers Memory.
From S2P Require Import Paths ConfigSchema ConfigTree Tmux Artifacts WorkspaceManager ErrorText.
From S2P Require Import RustText.

Definition GLOBAL_SCOPE : string := "global".

Inductive ScopeError :=
| ScopeInvalid (raw : string)
| ScopeConfigNotFound
| ScopeLoadTree (path : string) (source : TreeError)
| WorkspaceNotInTree (workspace path : string).

#[export] Instance ScopeError_display `{!TextOps} `{!SysText} : Display ScopeError := fun e =>
  match e with
  | ScopeInvalid raw =>
      "invalid memory scope " +:+ debug_str raw
      +:+ "; use `workspace`, `project`, `global`, or an explicit selector"
  | ScopeConfigNotFound => "config file not found when resolving project scope"
  | ScopeLoadTree path source => "load config tree " +:+ path +:+ ": " +:+ to_string source
  | WorkspaceNotInTree workspace path =>
      "workspace " +:+ debug_str workspace +:+ " not found in config tree " +:+ path
  end.

Definition workspace_scope (workspace : string) : string := "workspace:" +:+ trim workspace.

Definition project_scope (prefix : string) : string :=
  let trimmed := trim prefix in
  if is_empty trimmed then "project:root" else "project:" +:+ trimmed.

(** The loop over the prefixes; [None] when none matches. *)
Fixpoint prefixed_scope (prefixes : list string) (trimmed : string) : option string :=
  match prefixes with
  | [] => None
  | prefix :: rest =>
      let lower := to_ascii_lowercase trimmed in
      if starts_with lower prefix then
        let value := trim (drop_bytes (String.length prefix) trimmed) in
        Some (if String.eqb prefix "project:" then
                let v := if is_empty value then "root" else value in
                "project:" +:+ v
              else if is_empty value then ""
              else prefix +:+ value)
      else prefixed_scope rest trimmed
  end.

Definition SCOPE_PREFIXES : list string := ["project:"; "workspace:"; "task:"].

Definition normalize_scope (raw : string) : string :=
  let trimmed := trim raw in
  if is_empty trimmed then "" else
  if eq_ignore_ascii_case trimmed "global" then GLOBAL_SCOPE else
  default trimmed (prefixed_scope SCOPE_PREFIXES trimmed).

Fixpoint find_project_prefix (node : ProjectNode) (target : string) : option string :=
  if String.eqb (orchestrator_name (pn_prefix node)) target then Some (pn_prefix node)
  else if existsb (fun ws => String.eqb (wr_merged_name ws) target) (pn_workspaces node)
  then Some (pn_prefix node)
  else (fix first (children : list ProjectNode) : option string :=
          match children with
          | [] => None
          | child :: rest => match find_project_prefix child target with
                             | Some prefix => Some prefix
                             | None => first rest
                             end
          end) (pn_children node).

Section resolve.
Context {F : Type} `{!FileSystem F} `{!YamlCodec Config} `{!YamlCodec ManagedOverlay} `{!TextOps}.
Context (env : Env) (fs : F).

(** [find_config_file(std::env::current_dir().ok()?)]; the walk has the length of the
    directory as fuel. *)
Definition config_above_cwd : option string :=
  match cwd env with
  | Ok dir => mjoin (find_config_file (fs_is_file fs) (home env) (S (length (bytes dir))) dir)
  | Err _ => None
  end.

Definition find_effective_config (configured : option string) : option string :=
  match configured with
  | Some path => Some path
  | None => config_above_cwd
  end.

(** [fuel] is that of [load_tree]. *)
Definition resolve_project (fuel : nat) (workspace : string) (effective_config : option string)
  : option (result ScopeError string) :=
  match (match effective_config with Some path => Some path | None => config_above_cwd end) with
  | None => Some (Err ScopeConfigNotFound)
  | Some path =>
      match load_tree env fs fuel path with
      | None => None
      | Some (Err source) => Some (Err (ScopeLoadTree path source))
      | Some (Ok tree) =>
          Some (match find_project_prefix tree workspace with
                | Some prefix => Ok (project_scope prefix)
                | None => Err (WorkspaceNotInTree workspace path)
                end)
      end
  end.

Definition resolve (fuel : nat) (raw workspace : string) (effective_config : option string)
  : option (result ScopeError string) :=
  let trimmed := trim raw in
  if is_empty trimmed || eq_ignore_ascii_case trimmed "workspace"
  then Some (Ok (workspace_scope workspace)) else
  if eq_ignore_ascii_case trimmed "global" then Some (Ok GLOBAL_SCOPE) else
  if eq_ignore_ascii_case trimmed "project"
  then resolve_project fuel workspace effective_config else
  let scope := normalize_scope trimmed in
  if String.eqb scope GLOBAL_SCOPE || starts_with scope "project:"
     || starts_with scope "workspace:" || starts_with scope "task:"
  then Some (Ok scope)
  else Some (Err (ScopeInvalid raw)).

(** One pass of the loop of [resolve_many]. *)
Fixpoint resolve_each (fuel : nat) (raws : list string) (workspace : string)
    (effective_config : option string) (out : list string)
  : option (result ScopeError (list string)) :=
  match raws with
  | [] => Some (Ok out)
  | raw :: rest =>
      match resolve fuel raw workspace effective_config with
      | None => None
      | Some (Err e) => Some (Err e)
      | Some (Ok resolved) =>
          resolve_each fuel rest workspace effective_config
            (if bool_decide (resolved ∈ out) then out else out ++ [resolved])
      end
  end.

Definition resolve_many (fuel : nat) (scopes : list string) (workspace : string)
    (effective_config : option string) : option (result ScopeError (list string)) :=
  resolve_each fuel (if decide (scopes = []) then ["global"; "project"; "workspace"] else scopes)
    workspace effective_config [].
End resolve.

(** ** Specification *)

(** The scopes of the daemon's memories: [global], or a known prefix with a trimmed and
    non-empty value. *)
Inductive scope_form : string -> Prop :=
| scope_global : scope_form "global"
| scope_of prefix value :
    prefix ∈ SCOPE_PREFIXES -> trim value = value -> value <> "" ->
    scope_form (prefix +:+ value).

(** The prefixes of the projects of a tree that own a name, the parent before its
    children. *)
Fixpoint owners (target : string) (node : ProjectNode) : list string :=
  match node with
  | mkProjectNode _ _ prefix _ _ _ ws cs =>
      (if String.eqb (orchestrator_name prefix) target
          || existsb (fun w => String.eqb (wr_merged_name w) target) ws
       then [prefix] else [])
      ++ flat_map (owners target) cs
  end.

(** ** Facts *)

Lemma prefixed_scope_daemon prefixes s :
  prefixed_scope prefixes s = Memory.scope_with_prefix prefixes s.
Proof.
  induction prefixes as [|p ps IH]; [done|]. cbn [prefixed_scope Memory.scope_with_prefix].
  rewrite IH. by repeat case_match.
Qed.

(** Client and daemon normalise alike. *)
Lemma normalize_scope_daemon raw : normalize_scope raw = Memory.normalize_scope raw.
Proof.
  unfold normalize_scope, Memory.normalize_scope. rewrite prefixed_scope_daemon. unfold GLOBAL_SCOPE, SCOPE_PREFIXES.
  cbv zeta. do 2 (case_match; [done|]). by destruct (Memory.scope_with_prefix _ _).
Qed.

(** White space at the end of [k ++ a :: l] is white space at the end of [k]. *)
Lemma rev_head_ws k a l :
  graphic a -> k <> [] ->
  head_ws ws1 (fun b a => ws2 a b) (fun c b a => ws3 a b c) k = false ->
  head_ws ws1 (fun b a => ws2 a b) (fun c b a => ws3 a b c) (k ++ a :: l) = false.
Proof.
  intros Ha Hk. destruct k as [|x [|y [|z k]]]; [done| | |done]; cbn.
  - intros ->. destruct l as [|b l]; cbn; rewrite (graphic_ws2 _ _ Ha); [done|].
    cbn. unfold ws3. assert (code a < 128)%N by (unfold graphic in Ha; lia).
    destruct (N.eqb_spec (code a) 154), (N.eqb_spec (code a) 128), (N.eqb_spec (code a) 129); lia.
  - intros ->. cbn. by rewrite graphic_ws3.
Qed.

Lemma trim_end_keeps l : trim_end_bytes l = l ->
  head_ws ws1 (fun b a => ws2 a b) (fun c b a => ws3 a b c) (rev l) = false.
Proof.
  unfold trim_end_bytes. intros E. apply (f_equal (@rev _)) in E. rewrite rev_involutive in E.
  rewrite <-E. apply drop_ws_spec.
Qed.

(** A trimmed value stays trimmed behind a visible prefix. *)
Lemma trim_value a p b v :
  graphic a -> graphic b -> trim v = v -> v <> "" ->
  trim (of_bytes (a :: p ++ [b]) +:+ v) = of_bytes (a :: p ++ [b]) +:+ v.
Proof.
  intros Ha Hb Ht Hv. apply bytes_inj. unfold trim. rewrite bytes_of_bytes, bytes_cat, bytes_of_bytes.
  cbn [app]. rewrite trim_start_graphic by done.
  assert (trim_end_bytes (bytes v) = bytes v) as He.
  { apply (f_equal bytes) in Ht. unfold trim in Ht. rewrite bytes_of_bytes in Ht.
    destruct (drop_ws_spec ws1 ws2 ws3 (bytes v)) as [_ [q Hq]].
    destruct (trim_end_prefix (trim_start_bytes (bytes v))) as [x Hx].
    unfold trim_start_bytes in *. rewrite Ht in Hx. rewrite Hx in Hq.
    apply (f_equal length) in Hq. rewrite !length_app in Hq.
    destruct x; [|cbn in Hq; lia]. rewrite app_nil_r in Hx. by rewrite Hx in Ht. }
  unfold trim_end_bytes. rewrite drop_ws_id; [by rewrite rev_involutive|].
  rewrite <-app_assoc. change (a :: p ++ [b] ++ bytes v) with ((a :: p) ++ b :: bytes v).
  rewrite rev_app_distr. cbn [rev]. rewrite <-app_assoc. cbn [app].
  apply rev_head_ws; [done| |by apply trim_end_keeps].
  intros E. apply (f_equal (@rev _)) in E. rewrite rev_involutive in E.
  apply Hv, bytes_inj. done.
Qed.

Definition colon : Ascii.ascii := Ascii.ascii_of_nat 58.
Lemma trim_prefix prefix v :
  prefix ∈ SCOPE_PREFIXES -> trim v = v -> v <> "" -> trim (prefix +:+ v) = prefix +:+ v.
Proof.
  intros Hp. unfold SCOPE_PREFIXES in Hp. rewrite !elem_of_cons, elem_of_nil in Hp.
  destruct Hp as [->|[->|[->|[]]]].
  - apply (trim_value (Ascii.ascii_of_nat 112) (bytes "roject") colon); by vm_compute.
  - apply (trim_value (Ascii.ascii_of_nat 119) (bytes "orkspace") colon); by vm_compute.
  - apply (trim_value (Ascii.ascii_of_nat 116) (bytes "ask") colon); by vm_compute.
Qed.

Lemma lowercase_cat a b : to_ascii_lowercase (a +:+ b) = to_ascii_lowercase a +:+ to_ascii_lowercase b.
Proof.
  unfold to_ascii_lowercase. by rewrite bytes_cat, fmap_app, of_bytes_cat.
Qed.

(** What the tests of [resolve] see of a scope with a prefix. *)
Lemma prefix_tests prefix v :
  prefix ∈ SCOPE_PREFIXES -> v <> "" ->
  is_empty (prefix +:+ v) = false
  /\ eq_ignore_ascii_case (prefix +:+ v) "workspace" = false
  /\ eq_ignore_ascii_case (prefix +:+ v) "global" = false
  /\ eq_ignore_ascii_case (prefix +:+ v) "project" = false
  /\ prefixed_scope SCOPE_PREFIXES (prefix +:+ v)
     = Some (if is_empty (trim v)
             then (if String.eqb prefix "project:" then "project:root" else "")
             else prefix +:+ trim v).
Proof.
  intros Hp Hv. unfold SCOPE_PREFIXES in Hp. rewrite !elem_of_cons, elem_of_nil in Hp.
  unfold eq_ignore_ascii_case, SCOPE_PREFIXES. cbn [prefixed_scope]. rewrite !lowercase_cat.
  destruct Hp as [->|[->|[->|[]]]]; split_and!; try reflexivity.
  all: repeat match goal with
       | |- context [to_ascii_lowercase ?p +:+ _] => change (to_ascii_lowercase p) with p
       | |- context [starts_with (?p +:+ ?w) ?q] =>
           first [ rewrite (starts_with_app q w), (drop_bytes_cat q v)
                 | change (starts_with (p +:+ w) q) with false ]
       end; cbv beta iota zeta.
  all: rewrite ?(proj2 (String.eqb_neq _ "project:")) by done; rewrite ?String.eqb_refl.
  all: by destruct (is_empty (trim v)).
Qed.

Lemma scope_form_fixed s : scope_form s -> normalize_scope s = s.
Proof.
  intros [|prefix v Hp Ht Hv]; [done|].
  destruct (prefix_tests prefix v Hp Hv) as (He & _ & Hg & _ & Hs).
  unfold normalize_scope. cbv zeta. rewrite trim_prefix, He, Hg, Hs, Ht by done.
  cbn [default]. apply is_empty_false in Hv. by rewrite Hv.
Qed.

Lemma prefixed_scope_form prefixes s r :
  prefixes ⊆ SCOPE_PREFIXES -> prefixed_scope prefixes s = Some r -> r = "" \/ scope_form r.
Proof.
  induction prefixes as [|p ps IH]; intros Hsub; [done|]. cbn [prefixed_scope].
  destruct (starts_with _ p); [|apply IH; set_solver].
  set (v := trim (drop_bytes _ s)). assert (trim v = v) as Hv by apply trim_idemp.
  intros [= <-]. destruct (String.eqb_spec p "project:") as [->|]; destruct (is_empty v) eqn:Ee.
  - right. by apply scope_of; [set_solver| |].
  - apply is_empty_false in Ee. right. by apply scope_of; [set_solver| |].
  - by left.
  - apply is_empty_false in Ee. right. by apply scope_of; [set_solver| |].
Qed.

Lemma starts_with_lower s p :
  starts_with s p = true -> starts_with (to_ascii_lowercase s) (to_ascii_lowercase p) = true.
Proof. intros [r ->]%starts_with_spec. rewrite lowercase_cat. apply starts_with_app. Qed.

Lemma prefixed_scope_None prefixes s p :
  p ∈ prefixes -> to_ascii_lowercase p = p -> prefixed_scope prefixes s = None ->
  starts_with s p = false.
Proof.
  intros Hin Hp. induction prefixes as [|q ps IH]; [by apply not_elem_of_nil in Hin|].
  cbn [prefixed_scope]. destruct (starts_with (to_ascii_lowercase s) q) eqn:E; [done|].
  apply elem_of_cons in Hin as [<-|Hin]; [|by apply IH].
  intros _. destruct (starts_with s p) eqn:E'; [|done].
  apply starts_with_lower in E'. congruence.
Qed.

(** What passes the last test of [resolve] is a scope. *)
Lemma accepted_form s :
  let scope := normalize_scope s in
  String.eqb scope GLOBAL_SCOPE || starts_with scope "project:"
  || starts_with scope "workspace:" || starts_with scope "task:" = true -> scope_form scope.
Proof.
  cbv zeta. unfold normalize_scope. cbv zeta.
  destruct (is_empty (trim s)); [done|].
  destruct (eq_ignore_ascii_case _ _); [intros _; apply scope_global|].
  destruct (prefixed_scope _ _) as [r|] eqn:E; cbn [default].
  - destruct (prefixed_scope_form _ _ _ (reflexivity _) E) as [->|]; [done|auto].
  - destruct (String.eqb_spec (trim s) GLOBAL_SCOPE) as [->|_]; [intros _; apply scope_global|].
    assert (forall p, p ∈ SCOPE_PREFIXES -> to_ascii_lowercase p = p -> starts_with (trim s) p = false)
      as Hn by (intros; by eapply prefixed_scope_None).
    by rewrite !Hn by first [done | unfold SCOPE_PREFIXES; set_solver].
Qed.

Lemma workspace_scope_form workspace : trim workspace <> "" -> scope_form (workspace_scope workspace).
Proof.
  intros Hw. apply scope_of; [unfold SCOPE_PREFIXES; set_solver|apply trim_idemp|done].
Qed.

Lemma project_scope_form prefix : scope_form (project_scope prefix).
Proof.
  unfold project_scope. cbv zeta. destruct (is_empty (trim prefix)) eqn:E.
  - by apply (scope_of "project:" "root"); [unfold SCOPE_PREFIXES; set_solver| |].
  - apply is_empty_false in E.
    by apply scope_of; [unfold SCOPE_PREFIXES; set_solver|apply trim_idemp|].
Qed.

Section resolve_facts.
Context {F : Type} `{!FileSystem F} `{!YamlCodec Config} `{!YamlCodec ManagedOverlay} `{!TextOps}.
Context (env : Env) (fs : F).
Implicit Types (raw workspace s : string) (cfg : option string).
Abbreviation resolve := (McpScope.resolve env fs).

Lemma resolve_form fuel raw workspace cfg s :
  trim workspace <> "" -> resolve fuel raw workspace cfg = Some (Ok s) -> scope_form s.
Proof.
  intros Hw. unfold McpScope.resolve. cbv zeta.
  destruct (is_empty (trim raw) || _); [intros [= <-]; by apply workspace_scope_form|].
  destruct (eq_ignore_ascii_case _ "global"); [intros [= <-]; apply scope_global|].
  destruct (eq_ignore_ascii_case _ "project").
  { unfold resolve_project. intros Hr. repeat case_match; simplify_eq; apply project_scope_form. }
  pose proof (accepted_form (trim raw)) as Hf. cbv zeta in Hf.
  destruct (String.eqb _ _ || _ || _ || _); [|done]. intros [= <-]. by apply Hf.
Qed.

Lemma resolve_form_fixed fuel s workspace cfg :
  scope_form s -> resolve fuel s workspace cfg = Some (Ok s).
Proof.
  intros Hs. pose proof (scope_form_fixed s Hs) as Hn.
  destruct Hs as [|prefix v Hp Ht Hv]; [done|].
  destruct (prefix_tests prefix v Hp Hv) as (He & Hw & Hg & Hpr & _).
  unfold McpScope.resolve. cbv zeta. rewrite trim_prefix by done.
  rewrite He, Hw, Hg, Hpr, Hn. cbn [orb].
  unfold SCOPE_PREFIXES in Hp. rewrite !elem_of_cons, elem_of_nil in Hp.
  destruct Hp as [->|[->|[->|[]]]]; rewrite starts_with_app; by rewrite ?orb_true_r.
Qed.

(** The loop keeps what it has and adds each new scope once. *)
Lemma resolve_each_spec fuel raws workspace cfg out l :
  NoDup out -> resolve_each env fs fuel raws workspace cfg out = Some (Ok l) ->
  NoDup l /\ out `prefix_of` l
  /\ (forall s, s ∈ l <-> s ∈ out \/ exists raw, raw ∈ raws /\ resolve fuel raw workspace cfg = Some (Ok s))
  /\ Forall (fun raw => exists s, resolve fuel raw workspace cfg = Some (Ok s)) raws.
Proof.
  revert out. induction raws as [|raw raws IH]; intros out Hd; cbn [resolve_each].
  { intros [= <-]. split_and!; [done..| |constructor]. set_solver. }
  destruct (McpScope.resolve _ _ _ raw _ _) as [[r|]|] eqn:E; [|done..].
  assert (NoDup (if bool_decide (r ∈ out) then out else out ++ [r])) as Hd'.
  { case_bool_decide; [done|]. apply NoDup_app. split_and!; [done| |apply NoDup_singleton].
    set_solver. }
  intros (Hl & Hpre & Hin & Hall)%IH; [|done]. split_and!.
  - done.
  - etrans; [|exact Hpre]. case_bool_decide; [done|by eexists].
  - intros s. rewrite Hin. case_bool_decide; set_solver.
  - constructor; [by eexists|done].
Qed.

(** The project of a name is the first in the tree that owns it. *)
Lemma find_project_prefix_owner node target : find_project_prefix node target = head (owners target node).
Proof.
  revert node. fix IH 1. intros [name alias prefix dir rt dis ws cs]. cbn [find_project_prefix owners].
  cbn [pn_prefix pn_workspaces pn_children].
  destruct (String.eqb _ target); [done|]. destruct (existsb _ ws); [done|]. cbn [orb app].
  induction cs as [|c cs IHcs]; [done|]. cbn [flat_map]. rewrite head_app, IHcs, (IH c).
  by destruct (head (owners target c)).
Qed.
End resolve_facts.

(** C26: The scopes a memory query sends are canonical: each one is [global] or a known prefix
    with a trimmed value, is stored by the daemon as it is, and resolves to itself for
    any caller; none is repeated, and each selector of the query is represented. *)
Theorem memory_scopes_are_canonical {F : Type} `{!FileSystem F} `{!YamlCodec Config}
    `{!YamlCodec ManagedOverlay} `{!TextOps} (env : Env) (fs : F) fuel raws workspace cfg l :
  trim workspace <> "" ->
  resolve_many env fs fuel raws workspace cfg = Some (Ok l) ->
  NoDup l
  /\ (forall s, s ∈ l ->
        scope_form s /\ Memory.normalize_scope s = s
        /\ forall fuel' workspace' cfg', resolve env fs fuel' s workspace' cfg' = Some (Ok s))
  /\ (forall raw, raw ∈ raws -> exists s, s ∈ l /\ resolve env fs fuel raw workspace cfg = Some (Ok s)).
Proof.
  intros Hw (Hd & _ & Hin & Hall)%resolve_each_spec; [|constructor]. split_and!; [done| |].
  - intros s [Hs|(raw & _ & Hr)]%Hin; [by apply not_elem_of_nil in Hs|].
    apply resolve_form in Hr; [|done].
    rewrite <-normalize_scope_daemon. split_and!; [done|by apply scope_form_fixed|].
    intros. by apply resolve_form_fixed.
  - intros raw Hraw. rewrite decide_False in Hin, Hall by (intros ->; by apply not_elem_of_nil in Hraw).
    rewrite Forall_forall in Hall. destruct (Hall raw Hraw) as [s Hs].
    exists s. split; [|done]. apply Hin. right. by exists raw.
Qed.
