(* ===== verification/McpPlanner.v ===== *)
(** * The project surveyor (crates/ax-mcp-server/src/planner.rs).

    What the planning tools read from a project directory and from its configuration
    file.  Directories are read through the interface [SurveyFs]. *)

From stdpp Require Import prelude strings list gmap sorting.
From S2P Require Import Prelude RustStr Paths ConfigSchema Act Artifacts CodexFiles RustText.

(** An entry of [std::fs::read_dir]: its name (lossy), its path, and its type, which does
    not follow links. *)
Record DirEntry := mkDirEntry {
  de_name : string;
  de_path : string;
  de_type : result IoError EntryKind;
}.

Definition is_file (k : EntryKind) : bool := match k with IsFile => true | _ => false end.
Definition is_dir (k : EntryKind) : bool := match k with IsDir => true | _ => false end.

Class SurveyFs (F : Type) := {
  sv_read_dir : F -> string -> result IoError (list (result IoError DirEntry));
  sv_exists : F -> string -> bool;
}.

Definition MANIFEST_HINTS : list string :=
  ["package.json"; "pnpm-workspace.yaml"; "tsconfig.json"; "go.mod"; "go.sum"; "Cargo.toml";
   "pyproject.toml"; "requirements.txt"; "Gemfile"; "pom.xml"; "build.gradle"; "build.gradle.kts";
   "main.tf"; "terragrunt.hcl"; "Dockerfile"; "docker-compose.yml"; "docker-compose.yaml"].

Definition ROLE_NAMES : list string :=
  ["frontend"; "backend"; "api"; "web"; "ui"; "client"; "server"; "cli"; "infra";
   "infrastructure"; "platform"; "devops"; "ops"; "docs"; "qa"; "testing"; "mobile"].

Definition IGNORED_DIRS : list string :=
  [".git"; ".ax"; ".github"; ".vscode"; ".idea"; ".venv"; "venv"; "node_modules"; "target";
   "dist"; "build"; "out"; ".next"; "__pycache__"; ".pytest_cache"; ".mypy_cache";
   ".ruff_cache"; ".terraform"].

Record DirSummary := mkDirSummary {
  ds_name : string;
  ds_file_count : nat;
  ds_manifests : list string;
  ds_has_readme : bool;
  ds_looks_role_like : bool;
}.

Record WorkspaceSummary := mkWorkspaceSummary {
  ws_name : string;
  ws_dir : string;
  ws_description : string;
  ws_exists : bool;
  ws_non_empty : bool;
}.

Record InitialTeamPlan := mkInitialTeamPlan {
  ip_project_dir : string;
  ip_suggested_axis : string;
  ip_axis_signals : list string;
  ip_toplevel_dirs : list DirSummary;
  ip_readme_excerpt : option string;
}.

Record ReconfigureTeamPlan := mkReconfigureTeamPlan {
  rp_project_dir : string;
  rp_current_axis : option string;
  rp_current_rationale : option string;
  rp_current_workspaces : list WorkspaceSummary;
  rp_toplevel_dirs : list DirSummary;
  rp_orphan_dirs : list string;
  rp_empty_workspaces : list string;
}.

(** ** Directories *)

(** The counters of the loop over the entries of one directory. *)
Record ScanCounts := mkScanCounts {
  sc_files : nat;
  sc_manifests : list string;
  sc_readme : bool;
}.

Definition count_entry (c : ScanCounts) (child : result IoError DirEntry) : ScanCounts :=
  match child with
  | Ok child =>
      if match de_type child with Ok ft => is_file ft | Err _ => false end then
        let lower := to_ascii_lowercase (de_name child) in
        mkScanCounts (S (sc_files c))
          (if existsb (fun m => String.eqb m (de_name child)) MANIFEST_HINTS
           then sc_manifests c ++ [de_name child] else sc_manifests c)
          (sc_readme c || String.eqb lower "readme.md" || String.eqb lower "readme")
      else c
  | Err _ => c
  end.

Definition dir_le (a b : DirSummary) : Prop := String.le (ds_name a) (ds_name b).
#[export] Instance dir_le_dec : RelDecision dir_le := fun a b => decide (String.le _ _).

Definition looks_role_like (name : string) : bool :=
  existsb (fun r => eq_ignore_ascii_case r name) ROLE_NAMES.

(** Names that are never a workspace candidate. *)
Definition skipped_name (name : string) : bool :=
  starts_with name "." || existsb (fun i => String.eqb i name) IGNORED_DIRS.

Section survey.
Context {F : Type} `{!FileSystem F} `{!ArtifactFs F} `{!SurveyFs F}.
Context (fs : F).

Definition summarize_dir (entry : DirEntry) : DirSummary :=
  let c := match sv_read_dir fs (de_path entry) with
           | Ok read => foldl count_entry (mkScanCounts 0 [] false) read
           | Err _ => mkScanCounts 0 [] false
           end in
  mkDirSummary (de_name entry) (sc_files c) (sc_manifests c) (sc_readme c)
    (looks_role_like (de_name entry)).

(** The loop of [scan_toplevel]; the first entry or type that cannot be read ends it. *)
Fixpoint scan_entries (entries : list (result IoError DirEntry)) (out : list DirSummary)
  : result IoError (list DirSummary) :=
  match entries with
  | [] => Ok out
  | entry :: rest =>
      entry ← entry;
      file_type ← de_type entry;
      if negb (is_dir file_type) then scan_entries rest out
      else if skipped_name (de_name entry) then scan_entries rest out
      else scan_entries rest (out ++ [summarize_dir entry])
  end.

Definition scan_toplevel (dir : string) : result IoError (list DirSummary) :=
  entries ← sv_read_dir fs dir;
  out ← scan_entries entries [];
  Ok (merge_sort dir_le out).

Definition directory_non_empty (dir : string) : bool :=
  match sv_read_dir fs dir with
  | Ok read => existsb (fun e => match e with
                                 | Ok e => negb (starts_with (de_name e) ".")
                                 | Err _ => false
                                 end) read
  | Err _ => false
  end.

(** ** Excerpts *)

(** [str::is_char_boundary]. *)
Definition is_char_boundary (s : string) (i : nat) : bool :=
  (i =? 0) || match bytes s !! i with
              | Some b => negb ((128 <=? code b) && (code b <? 192))%N
              | None => i =? String.length s
              end.

Fixpoint cut_back (s : string) (cut : nat) : nat :=
  match cut with
  | O => O
  | S cut' => if is_char_boundary s cut then cut else cut_back s cut'
  end.

(** U+2026. *)
Definition ellipsis : string := of_bytes (Ascii.ascii_of_nat <$> [226; 128; 166]).

Definition read_excerpt (path : string) (max_bytes : nat) : option string :=
  match fs_read_to_string fs path with
  | Err _ => None
  | Ok body =>
      let trimmed := trim body in
      if is_empty trimmed then None
      else if String.length trimmed <=? max_bytes then Some trimmed
      else Some (take_bytes (cut_back trimmed max_bytes) trimmed +:+ ellipsis)
  end.
End survey.

(** ** Axes *)

Definition infer_axis (dirs : list DirSummary) : string * list string :=
  let role_hits := length (List.filter ds_looks_role_like dirs) in
  let non_role := length (List.filter (fun d => negb (ds_looks_role_like d)) dirs) in
  let with_readme := length (List.filter ds_has_readme dirs) in
  let show n := show_Z (Z.of_nat n) in
  if (2 <=? role_hits) && (non_role <=? role_hits) then
    ("role", [show role_hits +:+ " top-level directory name(s) match known role labels"])
  else if (2 <=? non_role) && (2 <=? with_readme) && (role_hits =? 0) then
    ("domain", [show with_readme +:+ " top-level non-role directories carry their own README (bounded-context shape)"])
  else if (1 <=? role_hits) && (2 <=? non_role) then
    ("hybrid", ["mix of " +:+ show role_hits +:+ " role-shaped and " +:+ show non_role
                +:+ " non-role directories suggests hybrid"])
  else ("domain", ["no strong axis signal from directory layout; default to domain with explicit rationale"]).

Definition read_header (found : option string * option string) (line : string)
  : option string * option string :=
  let '(axis, rationale) := found in
  match strip_prefix line "#" with
  | None => found
  | Some body =>
      let trimmed := trim body in
      let lower := to_ascii_lowercase trimmed in
      match (match axis with None => strip_prefix lower "axis:" | Some _ => None end) with
      | Some rest => (head (split_whitespace rest), rationale)
      | None =>
          if bool_decide (rationale = None) && starts_with lower "rationale:" then
            let original_body := trim (drop_bytes (String.length "rationale:") trimmed) in
            (axis, if is_empty original_body then rationale else Some original_body)
          else found
      end
  end.

Definition parse_axis_headers (yaml : string) : option string * option string :=
  foldl read_header (None, None) (take 15 (lines yaml)).

(** ** Workspaces *)

Definition resolve_workspace_dir (project_dir ws_dir : string) : string :=
  let raw := trim ws_dir in
  if is_empty raw then project_dir
  else if is_absolute raw then raw
  else join project_dir raw.

(** [trim_start_matches("./")]. *)
Fixpoint strip_dot_slash (l : list Ascii.ascii) : list Ascii.ascii :=
  match l with
  | a :: (b :: r) as l' => if decide (a = dot /\ b = slash) then strip_dot_slash r else l
  | _ => l
  end.

Definition first_path_component (ws_dir : string) : option string :=
  let stripped := of_bytes (strip_dot_slash (bytes (trim ws_dir))) in
  first ← head (raw_components stripped);
  if is_empty first || String.eqb first "." then None else Some first.

(** ** The plans *)

Section plans.
Context {F : Type} `{!FileSystem F} `{!ArtifactFs F} `{!SurveyFs F} `{!YamlCodec Config}.
Context (fs : F).

Definition plan_initial_team (project_dir : string) : result IoError InitialTeamPlan :=
  toplevel ← scan_toplevel fs project_dir;
  let '(suggested_axis, axis_signals) := infer_axis toplevel in
  let readme_excerpt := read_excerpt fs (join project_dir "README.md") 400 in
  Ok (mkInitialTeamPlan project_dir suggested_axis axis_signals toplevel readme_excerpt).

Definition summarize_workspace (project_dir : string) (entry : string * Workspace)
  : WorkspaceSummary :=
  let '(name, ws) := entry in
  let resolved := resolve_workspace_dir project_dir (w_dir ws) in
  let ex := sv_exists fs resolved in
  mkWorkspaceSummary name (w_dir ws) (w_description ws) ex (ex && directory_non_empty fs resolved).

Definition plan_team_reconfigure (project_dir config_path : string)
  : result IoError ReconfigureTeamPlan :=
  cfg_body ← fs_read_to_string fs config_path;
  let '(current_axis, current_rationale) := parse_axis_headers cfg_body in
  cfg ← map_err (fun e => IoOther ("parse config: " +:+ e)) (from_yaml (A := Config) cfg_body);
  toplevel ← scan_toplevel fs project_dir;
  let entries := btree_to_list (workspaces cfg) in
  let summaries := summarize_workspace project_dir <$> entries in
  let covered_dirs := omap (fun e => first_path_component (w_dir e.2)) entries in
  let orphan_dirs :=
    ds_name <$> List.filter (fun d => negb (existsb (fun c => String.eqb c (ds_name d)) covered_dirs))
                  toplevel in
  let empty_workspaces :=
    ws_name <$> List.filter (fun w => negb (ws_exists w) || negb (ws_non_empty w)) summaries in
  Ok (mkReconfigureTeamPlan project_dir current_axis current_rationale summaries toplevel
        orphan_dirs empty_workspaces).
End plans.

(** ** What the surveys report.

    Excerpts end between characters; the drift report names exactly the directories
    without a workspace and the workspaces without content. *)

(** ** Excerpts *)

Definition continuation (b : Ascii.ascii) : Prop := (128 <= code b < 192)%N.

(** The bytes of one character: one that starts a character, then at most three that
    continue it. *)
Definition utf8_char (c : list Ascii.ascii) : Prop :=
  exists a l, c = a :: l /\ ~ continuation a /\ Forall continuation l /\ length l <= 3.

Lemma boundary_byte s i b :
  bytes s !! i = Some b -> is_char_boundary s i = true <-> i = 0 \/ ~ continuation b.
Proof.
  intros Hb. unfold is_char_boundary, continuation. rewrite Hb, orb_true_iff, Nat.eqb_eq, negb_true_iff.
  rewrite andb_false_iff, N.leb_gt, N.ltb_ge. lia.
Qed.

Lemma string_length_bytes s : String.length s = length (bytes s).
Proof. unfold bytes. induction s; cbn; auto. Qed.

(** The inside of a character has no boundary. *)
Lemma inside_char cs i b :
  Forall utf8_char cs -> mjoin cs !! i = Some b -> ~ continuation b ->
  exists k, i = length (mjoin (take k cs)).
Proof.
  intros Hcs. revert i. induction Hcs as [|c cs (a & l & -> & Ha & Hl & Hn) _ IH]; intros i Hi Hb.
  { done. }
  change (mjoin ((a :: l) :: cs)) with ((a :: l) ++ mjoin cs) in Hi.
  destruct (decide (i < length (a :: l))) as [Hlt|Hge].
  - destruct i as [|i]; [by exists 0|]. rewrite lookup_app_l in Hi by done. cbn in Hi.
    by apply (Forall_lookup_1 _ _ _ _ Hl) in Hi.
  - rewrite lookup_app_r in Hi by lia. destruct (IH _ Hi Hb) as [k Hk].
    exists (S k). cbn [take]. change (mjoin ((a :: l) :: ?r)) with ((a :: l) ++ mjoin r).
    rewrite length_app. lia.
Qed.

(** Among four consecutive positions one is a boundary. *)
Lemma boundary_near cs i :
  Forall utf8_char cs -> i <= length (mjoin cs) ->
  exists k, i <= length (mjoin (take k cs)) + 3 /\ length (mjoin (take k cs)) <= i.
Proof.
  intros Hcs. revert i. induction Hcs as [|c cs (a & l & -> & Ha & Hl & Hn) _ IH]; intros i Hi.
  { exists 0. cbn in *. lia. }
  destruct (decide (i < length (a :: l))) as [Hlt|Hge].
  - exists 0. cbn in *. lia.
  - change (mjoin ((a :: l) :: cs)) with ((a :: l) ++ mjoin cs) in Hi. rewrite length_app in Hi.
    destruct (IH (i - length (a :: l))) as (k & Hk1 & Hk2); [lia|]. exists (S k). cbn [take].
    change (mjoin ((a :: l) :: ?r)) with ((a :: l) ++ mjoin r). rewrite length_app. lia.
Qed.

Lemma join_take_drop {A} k (ls : list (list A)) : mjoin ls = mjoin (take k ls) ++ mjoin (drop k ls).
Proof. by rewrite <-join_app, take_drop. Qed.

(** A prefix of whole characters ends at a boundary. *)
Lemma whole_chars_boundary s cs k :
  bytes s = mjoin cs -> Forall utf8_char cs ->
  is_char_boundary s (length (mjoin (take k cs))) = true.
Proof.
  intros Hs Hcs. destruct (bytes s !! length (mjoin (take k cs))) as [b|] eqn:Hb.
  - apply (boundary_byte _ _ _ Hb). right. rewrite Hs in Hb.
    rewrite (join_take_drop k cs), lookup_app_r, Nat.sub_diag in Hb by lia.
    rewrite <-(take_drop k cs) in Hcs. apply Forall_app in Hcs as [_ Hcs].
    destruct Hcs as [|c cs' (a & l & -> & Ha & _) _]; [done|]. cbn in Hb. by injection Hb as <-.
  - unfold is_char_boundary. rewrite Hb. apply lookup_ge_None in Hb.
    rewrite string_length_bytes, orb_true_iff, !Nat.eqb_eq. right. apply Nat.le_antisymm; [|done].
    rewrite Hs, (join_take_drop k cs), length_app. lia.
Qed.

Lemma cut_back_spec s n :
  is_char_boundary s (cut_back s n) = true /\ cut_back s n <= n
  /\ forall i, i <= n -> is_char_boundary s i = true -> i <= cut_back s n.
Proof.
  induction n as [|n (Hb & Hle & Hmax)]; cbn [cut_back].
  { split_and!; [done..|]. lia. }
  destruct (is_char_boundary s (S n)) eqn:E; [by split_and!|].
  split_and!; [done|lia|]. intros i Hi Hbi. apply Hmax; [|done].
  destruct (decide (i = S n)) as [->|]; [congruence|lia].
Qed.

Lemma cut_back_chars s cs n :
  bytes s = mjoin cs -> Forall utf8_char cs -> n < String.length s ->
  exists k, bytes (take_bytes (cut_back s n) s) = mjoin (take k cs)
            /\ length (mjoin (take k cs)) <= n <= length (mjoin (take k cs)) + 3.
Proof.
  intros Hs Hcs Hn. rewrite string_length_bytes in Hn.
  destruct (cut_back_spec s n) as (Hb & Hle & Hmax).
  assert (exists k, cut_back s n = length (mjoin (take k cs))) as [k Hk].
  { destruct (lookup_lt_is_Some_2 (bytes s) (cut_back s n)) as [b Hl]; [lia|].
    apply (boundary_byte _ _ _ Hl) in Hb as [->|Hc]; [by exists 0|].
    rewrite Hs in Hl. by eapply inside_char. }
  exists k. unfold take_bytes. rewrite bytes_of_bytes, Hs, Hk.
  rewrite (join_take_drop k cs) at 1. rewrite take_app_length. split_and!; [done|lia|].
  destruct (boundary_near cs n) as (k' & H1 & H2); [done|by rewrite <-Hs; lia|].
  pose proof (Hmax _ H2 (whole_chars_boundary s cs k' Hs Hcs)). lia.
Qed.

(** ** Paths of workspaces *)

Fixpoint doubled_slash (l : list Ascii.ascii) : bool :=
  match l with
  | a :: (b :: _) as r => bool_decide (a = slash /\ b = slash) || doubled_slash r
  | _ => false
  end.

(** A relative path without doubled slashes. *)
Definition plain_path (p : string) : Prop := is_absolute p = false /\ doubled_slash (bytes p) = false.

(** The first component is the whole path up to the first slash. *)
Lemma split_slash_cons a l :
  a <> slash -> exists c cs, split_slash (a :: l) = (a :: c) :: cs
                            /\ (c = [] -> (l = [] /\ cs = []) \/ exists r, l = slash :: r).
Proof.
  intros Ha. cbn. rewrite decide_False by done. destruct l as [|b r]; [by exists [], []; auto|].
  cbn. destruct (decide (b = slash)) as [->|Hb].
  - exists [], (split_slash r). eauto.
  - destruct (split_slash r) as [|c cs]; [by exists [b], []|by exists (b :: c), cs].
Qed.

Lemma first_component_bytes n l :
  length l <= n -> is_absolute (of_bytes l) = false -> doubled_slash l = false ->
  (first ← head (raw_components (of_bytes (strip_dot_slash l)));
   if is_empty first || String.eqb first "." then None else Some first)
  = head (normal_components (of_bytes l)).
Proof.
  revert l. induction n as [|n IH]; intros l Hn Habs Hd.
  { destruct l; [done|cbn in Hn; lia]. }
  destruct l as [|a l]; [done|].
  assert (a <> slash) as Ha.
  { intros ->. assert (is_absolute (of_bytes (slash :: l)) = true); [|congruence].
    apply is_absolute_spec. rewrite bytes_of_bytes. eauto. }
  assert ((a = dot /\ exists r, l = slash :: r) \/ ~ (a = dot /\ exists r, l = slash :: r))
    as [[-> [r ->]]|Hne].
  { destruct l as [|b r]; [right; naive_solver|].
    destruct (decide (a = dot /\ b = slash)); [left|right]; naive_solver. }
  - cbn [strip_dot_slash]. rewrite decide_True by done.
    unfold normal_components. unfold raw_components at 2. rewrite bytes_of_bytes.
    change (split_slash (dot :: slash :: r)) with ([dot] :: split_slash r).
    cbn [fmap list_fmap List.filter]. change (kept (of_bytes [dot])) with false. cbv iota.
    replace (of_bytes <$> split_slash r) with (raw_components (of_bytes r))
      by (unfold raw_components; by rewrite bytes_of_bytes).
    cbn [doubled_slash] in Hd. apply orb_false_iff in Hd as [_ Hd].
    apply IH; [cbn in Hn; lia| |].
    + destruct r as [|b r]; [done|]. cbn [doubled_slash] in Hd. apply orb_false_iff in Hd as [Hd _].
      apply bool_decide_eq_false in Hd. destruct (is_absolute (of_bytes (b :: r))) eqn:E; [|done].
      apply is_absolute_spec in E as [k E]. rewrite bytes_of_bytes in E. naive_solver.
    + destruct r; [done|]. cbn [doubled_slash] in Hd. by apply orb_false_iff in Hd as [_ Hd].
  - assert (strip_dot_slash (a :: l) = a :: l) as ->.
    { destruct l as [|b r]; [done|]. cbn [strip_dot_slash]. rewrite decide_False; [done|naive_solver]. }
    unfold normal_components, raw_components. rewrite bytes_of_bytes.
    destruct (split_slash_cons a l Ha) as (c & cs & -> & Hc). cbn [fmap list_fmap head mbind option_bind List.filter].
    unfold kept at 1. destruct (is_empty _ || _) eqn:E; [|done]. cbn [negb].
    apply orb_true_iff in E as [E|E]; [done|].
    apply String.eqb_eq, (f_equal bytes) in E. rewrite bytes_of_bytes in E.
    injection E as -> ->. destruct (Hc eq_refl) as [[-> ->]|[r ->]]; [done|naive_solver].
Qed.

Lemma first_path_component_spec dir :
  plain_path (trim dir) -> first_path_component dir = head (normal_components (trim dir)).
Proof.
  intros [Ha Hd]. unfold first_path_component. cbv zeta.
  rewrite <-(of_bytes_bytes (trim dir)) in Ha.
  rewrite (first_component_bytes _ _ (le_n _) Ha Hd). by rewrite of_bytes_bytes.
Qed.

(** ** The directories of a project *)

Section survey_facts.
Context {F : Type} `{!FileSystem F} `{!ArtifactFs F} `{!SurveyFs F} `{!YamlCodec Config}.
Context (fs : F).
Implicit Types (e : DirEntry) (d : DirSummary).

(** The entries that count as top-level directories. *)
Definition candidate e : Prop := de_type e = Ok IsDir /\ skipped_name (de_name e) = false.
Definition as_candidate (r : result IoError DirEntry) : option DirEntry :=
  match r with
  | Ok e => match de_type e with
            | Ok IsDir => if skipped_name (de_name e) then None else Some e
            | _ => None
            end
  | Err _ => None
  end.

Lemma as_candidate_spec r e : as_candidate r = Some e <-> r = Ok e /\ candidate e.
Proof.
  unfold candidate. destruct r as [e'|]; cbn; [|by split; [|intros [? _]]].
  split.
  - repeat case_match; intros [= <-]. by rewrite H.
  - by intros [[= ->] [-> ->]].
Qed.

Lemma scan_entries_spec entries out l :
  scan_entries fs entries out = Ok l -> l = out ++ (summarize_dir fs <$> omap as_candidate entries).
Proof.
  revert out. induction entries as [|[e|err] entries IH]; intros out; cbn [scan_entries]; [|cbn|done].
  { intros [= <-]. by rewrite app_nil_r. }
  destruct (de_type e) as [[]|]; [|by intros ->%IH..|done]. cbn.
  destruct (skipped_name (de_name e)); intros ->%IH; [done|]. by rewrite <-app_assoc.
Qed.

Lemma scan_toplevel_spec dir l :
  scan_toplevel fs dir = Ok l ->
  StronglySorted dir_le l
  /\ exists entries, sv_read_dir fs dir = Ok entries
     /\ forall d, d ∈ l <-> exists e, Ok e ∈ entries /\ candidate e /\ d = summarize_dir fs e.
Proof.
  unfold scan_toplevel. destruct (sv_read_dir fs dir) as [entries|]; [|done]. cbn [mbind result_bind].
  destruct (scan_entries fs entries []) as [out|] eqn:E; [|done]. cbn [mbind result_bind].
  intros [= <-]. split.
  - apply StronglySorted_merge_sort; [intros a b c; apply (transitivity (R := String.le))|].
    intros a b. apply (total String.le).
  - exists entries. split; [done|]. intros d. rewrite merge_sort_Permutation, (scan_entries_spec _ _ _ E).
    rewrite app_nil_l, list_elem_of_fmap. setoid_rewrite list_elem_of_omap.
    setoid_rewrite as_candidate_spec. naive_solver.
Qed.
End survey_facts.

(** The excerpt of a README is the trimmed text, or its longest prefix of whole characters
    that fits into the limit, at most three bytes short of it, followed by an ellipsis;
    there is none only when the file cannot be read or is blank. *)
Theorem excerpts_end_between_characters {F : Type} `{!FileSystem F} `{!ArtifactFs F} (fs : F)
    path max body cs :
  fs_read_to_string fs path = Ok body ->
  bytes (trim body) = mjoin cs -> Forall utf8_char cs -> cs <> [] ->
  exists k, read_excerpt fs path max
            = Some (of_bytes (mjoin (take k cs)) +:+ (if decide (length (mjoin cs) <= max) then "" else ellipsis))
    /\ length (mjoin (take k cs)) <= max
    /\ (max < length (mjoin cs) -> max <= length (mjoin (take k cs)) + 3)
    /\ (length (mjoin cs) <= max -> take k cs = cs).
Proof.
  intros Hr Hb Hcs Hne. unfold read_excerpt. rewrite Hr. cbv zeta.
  assert (is_empty (trim body) = false) as ->.
  { apply is_empty_false. intros E. rewrite E in Hb. destruct Hcs as [|c ? (a & l & -> & _) _]; done. }
  rewrite string_length_bytes, Hb. destruct (Nat.leb_spec (length (mjoin cs)) max) as [Hle|Hlt].
  - rewrite decide_True by done. exists (length cs). rewrite firstn_all, <-Hb, of_bytes_bytes.
    assert (trim body +:+ "" = trim body) as -> by (apply bytes_inj; by rewrite bytes_cat, app_nil_r).
    rewrite Hb. split_and!; [done|done|lia|done].
  - rewrite decide_False by lia.
    destruct (cut_back_chars (trim body) cs max) as (k & Ht & H1 & H2);
      [done..|by rewrite string_length_bytes, Hb|].
    exists k. rewrite <-Ht, of_bytes_bytes, Ht. split_and!; [done|done|lia|lia].
Qed.

(** The drift report is exact: the orphans are the visible top-level directories that are
    the first component of no workspace's directory, and the empty workspaces are those
    whose directory is missing or has no visible entry. *)
Theorem drift_report_is_exact {F : Type} `{!FileSystem F} `{!ArtifactFs F} `{!SurveyFs F}
    `{!YamlCodec Config} (fs : F) project_dir config_path body cfg plan :
  fs_read_to_string fs config_path = Ok body -> from_yaml body = Ok cfg ->
  (forall n ws, workspaces cfg !! n = Some ws -> plain_path (trim (w_dir ws))) ->
  plan_team_reconfigure fs project_dir config_path = Ok plan ->
  (exists entries, sv_read_dir fs project_dir = Ok entries
     /\ forall d, d ∈ rp_orphan_dirs plan <->
          (exists e, Ok e ∈ entries /\ candidate e /\ d = de_name e)
          /\ forall n ws, workspaces cfg !! n = Some ws ->
               head (normal_components (trim (w_dir ws))) <> Some d)
  /\ forall n, n ∈ rp_empty_workspaces plan <->
       exists ws, workspaces cfg !! n = Some ws
         /\ let dir := resolve_workspace_dir project_dir (w_dir ws) in
            sv_exists fs dir && directory_non_empty fs dir = false.
Proof.
  intros Hr Hy Hplain. unfold plan_team_reconfigure. rewrite Hr. cbn [mbind result_bind].
  destruct (parse_axis_headers body) as [axis rationale]. rewrite Hy. cbn [mbind result_bind map_err].
  destruct (scan_toplevel fs project_dir) as [top|] eqn:Et; [|done]. cbn [mbind result_bind].
  intros [= <-]. cbn [rp_orphan_dirs rp_empty_workspaces].
  destruct (scan_toplevel_spec _ _ _ Et) as (_ & entries & Hre & Hin). split.
  - exists entries. split; [done|]. intros d.
    rewrite list_elem_of_fmap. setoid_rewrite list_elem_of_In. setoid_rewrite filter_In.
    setoid_rewrite <-list_elem_of_In. setoid_rewrite Hin. setoid_rewrite negb_true_iff. split.
    + intros (ds & -> & (e & He & Hc & ->) & Hno). split; [by exists e|].
      intros n ws Hws Hh. rewrite <-not_true_iff_false in Hno. apply Hno, existsb_exists.
      exists (de_name e). split; [|apply String.eqb_refl]. apply list_elem_of_In, list_elem_of_omap.
      exists (n, ws). rewrite elem_of_btree_to_list. split; [done|].
      rewrite first_path_component_spec by eauto. done.
    + intros ((e & He & Hc & ->) & Hno). exists (summarize_dir fs e). split; [done|].
      split; [by exists e|]. apply not_true_iff_false. intros (c & Hcov & Heq%String.eqb_eq)%existsb_exists.
      apply list_elem_of_In, list_elem_of_omap in Hcov as ([n ws] & Hws & Hf).
      apply elem_of_btree_to_list in Hws. rewrite first_path_component_spec in Hf by eauto.
      cbn in Hf, Heq. rewrite Heq in Hf. by eapply Hno.
  - intros n. rewrite list_elem_of_fmap. setoid_rewrite list_elem_of_In. setoid_rewrite filter_In.
    setoid_rewrite <-list_elem_of_In. setoid_rewrite list_elem_of_fmap. split.
    + intros (w & -> & ([m ws] & -> & Hws%elem_of_btree_to_list) & Hc). exists ws. split; [done|].
      cbn in *. by destruct (sv_exists _ _), (directory_non_empty _ _).
    + intros (ws & Hws & Hc). exists (summarize_workspace fs project_dir (n, ws)). split; [done|].
      split; [exists (n, ws); split; [done|by apply elem_of_btree_to_list]|].
      cbn in *. by destruct (sv_exists _ _), (directory_non_empty _ _).
Qed.
