(* ===== verification/McpClient.v ===== *)
(** * The daemon client (crates/ax-mcp-server/src/daemon_client.rs).

    One connection is shared by concurrent requests: each waits on a slot of its own,
    a single reader routes the envelopes that arrive by their id, and messages the daemon
    pushes are kept aside.  [Client] is the shared state, one definition per atomic
    piece of the code; [client_step] interleaves them in any order. *)

From stdpp Require Import prelude strings list gmap fin_maps.
From S2P Require Import Prelude RustStr Proto ConfigSchema ErrorText Handlers RustText.

(** ** Errors *)

(** [kind] and [elapsed] of a timeout are their [Debug] texts. *)
Inductive DaemonClientError :=
| CConnect (path : string) (source : IoError)
| CDisconnected
| CTimeout (kind elapsed : string)
| CDaemon (message : string)
| CEncode (source : string)
| CWrite (source : IoError)
| CRegister (message : string).

#[export] Instance DaemonClientError_display `{!TextOps} `{!SysText} : Display DaemonClientError := fun e =>
  match e with
  | CConnect path source => "connect to daemon " +:+ debug_str path +:+ ": " +:+ to_string source
  | CDisconnected => "daemon connection closed"
  | CTimeout kind elapsed => "request " +:+ kind +:+ " timed out after " +:+ elapsed
  | CDaemon message => "daemon error: " +:+ message
  | CEncode source => "encode envelope: " +:+ source
  | CWrite source => "write envelope: " +:+ to_string source
  | CRegister message => "register: " +:+ message
  end.

(** ** Envelopes *)

Inductive EnvType := EnvPush | EnvResponse | EnvError | EnvOther (kind : string).

Record Envelope := mkEnvelope {
  en_id : string;
  en_type : EnvType;
  en_payload : string;
}.

(** serde_json at the types the reader decodes. *)
Class WireText := {
  decode_envelope : string -> option Envelope;
  decode_push : string -> option Message;
  decode_error : string -> result string string;
}.

(** ** State *)

Inductive RequestResult := ROk (env : Envelope) | RDisconnected.

(** Where a request is: its bytes are being written, or it waits for its slot. *)
Inductive Phase := Writing | Waiting.

Record Client := mkClient {
  (** ids with a sender in [pending] *)
  cl_pending : gset string;
  (** values the waiters have not taken yet *)
  cl_slots : gmap string RequestResult;
  cl_calls : gmap string Phase;
  cl_results : gmap string (result DaemonClientError Envelope);
  cl_pushes : list Message;
  (** the reader task runs *)
  cl_reading : bool;
}.
#[export] Instance Client_eta : Updatable Client := fun c =>
  mkClient (cl_pending c) (cl_slots c) (cl_calls c) (cl_results c) (cl_pushes c) (cl_reading c).

Definition client_new : Client := mkClient ∅ ∅ ∅ ∅ [] true.

Section client.
Context `{!WireText}.
Implicit Types (c : Client) (id : string).

(** ** [request_raw] *)

Definition begin_request id c : Client :=
  c <| cl_pending := {[id]} ∪ cl_pending c |> <| cl_calls := <[id := Writing]> (cl_calls c) |>.

(** The call returns and its receiver is dropped. *)
Definition finish_call id (r : result DaemonClientError Envelope) c : Client :=
  c <| cl_calls := delete id (cl_calls c) |> <| cl_slots := delete id (cl_slots c) |>
    <| cl_results := <[id := r]> (cl_results c) |>.

Definition write_done id (outcome : result IoError unit) c : Client :=
  match outcome with
  | Ok _ => c <| cl_calls := <[id := Waiting]> (cl_calls c) |>
  | Err e => finish_call id (Err (CWrite e)) (c <| cl_pending := cl_pending c ∖ {[id]} |>)
  end.

(** The envelope in the slot, as the result of the request. *)
Definition interpret (r : RequestResult) : result DaemonClientError Envelope :=
  match r with
  | ROk env =>
      match en_type env with
      | EnvError => match decode_error (en_payload env) with
                    | Ok message => Err (CDaemon message)
                    | Err e => Err (CEncode e)
                    end
      | _ => Ok env
      end
  | RDisconnected => Err CDisconnected
  end.

Definition resume id (r : RequestResult) c : Client :=
  finish_call id (interpret r) c.

Definition timed_out id (kind elapsed : string) c : Client :=
  finish_call id (Err (CTimeout kind elapsed)) (c <| cl_pending := cl_pending c ∖ {[id]} |>).

(** ** The reader *)

Definition deliver id (r : RequestResult) c : Client :=
  if decide (id ∈ cl_pending c) then
    c <| cl_pending := cl_pending c ∖ {[id]} |> <| cl_slots := <[id := r]> (cl_slots c) |>
  else c.

(** [trim_end_matches(['\n', '\r'])]. *)
Fixpoint drop_eol (l : list Ascii.ascii) : list Ascii.ascii :=
  match l with
  | a :: r => if decide (a = nl \/ a = cr) then drop_eol r else l
  | [] => []
  end.
Definition trim_eol (s : string) : string := of_bytes (rev (drop_eol (rev (bytes s)))).

Definition on_line (line : string) c : Client :=
  let trimmed := trim_eol line in
  if is_empty trimmed then c else
  match decode_envelope trimmed with
  | None => c
  | Some env =>
      match en_type env with
      | EnvPush => match decode_push (en_payload env) with
                   | Some msg => c <| cl_pushes := cl_pushes c ++ [msg] |>
                   | None => c
                   end
      | EnvResponse | EnvError => deliver (en_id env) (ROk env) c
      | EnvOther _ => c
      end
  end.

(** Every waiter is told that the connection is gone. *)
Definition drain_pending c : Client :=
  c <| cl_slots := gset_to_gmap RDisconnected (cl_pending c) ∪ cl_slots c |> <| cl_pending := ∅ |>.

Definition reader_end c : Client := drain_pending (c <| cl_reading := false |>).
Definition close c : Client := (drain_pending c) <| cl_reading := false |>.

Definition take_push_messages c : list Message * Client :=
  (cl_pushes c, c <| cl_pushes := [] |>).

(** ** Registration *)

Record Registration := mkRegistration {
  rg_dir : string;
  rg_description : string;
  rg_config_path : string;
  rg_idle_timeout_secs : Z;
}.

(** The request [connect] sends; a [u64] number of seconds is cast to [i64]. *)
Definition register_request (workspace : string) (reg : Registration) (cwd : result IoError string)
  : Request :=
  let dir := if is_empty (rg_dir reg)
             then match cwd with Ok p => p | Err _ => "" end
             else rg_dir reg in
  Register workspace dir (rg_description reg) (rg_config_path reg) (i64_wrap (rg_idle_timeout_secs reg)).

Definition register_error `{!TextOps} `{!SysText} (e : DaemonClientError) : DaemonClientError :=
  CRegister (to_string e).

(** ** The client as a transition system *)

Inductive client_event :=
| CBegin (id : string)
| CWrote (id : string) (outcome : result IoError unit)
| CLine (line : string)
| CEof
| CTimedOut (id kind elapsed : string)
| CResume (id : string)
| CTake
| CClose.

(** Ids are fresh [Uuid]s; a timeout fires only while the slot is empty, since the waiter
    looks at the slot first. *)
Inductive client_step : client_event -> Client -> Client -> Prop :=
| step_begin id c :
    cl_calls c !! id = None -> cl_results c !! id = None ->
    client_step (CBegin id) c (begin_request id c)
| step_wrote id outcome c :
    cl_calls c !! id = Some Writing -> client_step (CWrote id outcome) c (write_done id outcome c)
| step_line line c : cl_reading c = true -> client_step (CLine line) c (on_line line c)
| step_eof c : cl_reading c = true -> client_step CEof c (reader_end c)
| step_timeout id kind elapsed c :
    cl_calls c !! id = Some Waiting -> cl_slots c !! id = None ->
    client_step (CTimedOut id kind elapsed) c (timed_out id kind elapsed c)
| step_resume id r c :
    cl_calls c !! id = Some Waiting -> cl_slots c !! id = Some r ->
    client_step (CResume id) c (resume id r c)
| step_take c : client_step CTake c (snd (take_push_messages c))
| step_close c : client_step CClose c (close c).

(** A run with the events it was made of. *)
Inductive client_run : list client_event -> Client -> Prop :=
| run_start : client_run [] client_new
| run_next es e c c' : client_run es c -> client_step e c c' -> client_run (es ++ [e]) c'.

(** ** Specification *)

(** The response the daemon sent for an id, read from the lines that arrived. *)
Definition response_line (id line : string) (env : Envelope) : Prop :=
  decode_envelope (trim_eol line) = Some env /\ en_id env = id
  /\ (en_type env = EnvResponse \/ en_type env = EnvError).

Definition answered_by (es : list client_event) (id : string) (r : RequestResult) : Prop :=
  match r with
  | ROk env => exists line, CLine line ∈ es /\ response_line id line env
  | RDisconnected => CEof ∈ es \/ CClose ∈ es
  end.

(** What a finished request may return, and why. *)
Definition justified (es : list client_event) (id : string) (r : result DaemonClientError Envelope)
  : Prop :=
  match r with
  | Ok env => exists line, CLine line ∈ es /\ response_line id line env /\ en_type env = EnvResponse
  | Err (CDaemon message) =>
      exists line env, CLine line ∈ es /\ response_line id line env /\ en_type env = EnvError
                       /\ decode_error (en_payload env) = Ok message
  | Err (CEncode source) =>
      exists line env, CLine line ∈ es /\ response_line id line env /\ en_type env = EnvError
                       /\ decode_error (en_payload env) = Err source
  | Err CDisconnected => CEof ∈ es \/ CClose ∈ es
  | Err (CTimeout kind elapsed) => CTimedOut id kind elapsed ∈ es
  | Err (CWrite source) => CWrote id (Err source) ∈ es
  | Err (CConnect _ _) | Err (CRegister _) => False
  end.

(** The messages pushed since they were last taken. *)
Definition push_of (line : string) : list Message :=
  match (if is_empty (trim_eol line) then None else decode_envelope (trim_eol line)) with
  | Some env => match en_type env with
                | EnvPush => option_list (decode_push (en_payload env))
                | _ => []
                end
  | None => []
  end.
Definition note_push (acc : list Message) (e : client_event) : list Message :=
  match e with
  | CLine line => acc ++ push_of line
  | CTake => []
  | _ => acc
  end.

Record client_inv (es : list client_event) (c : Client) : Prop := {
  ci_waiting id : is_Some (cl_calls c !! id) <-> id ∈ cl_pending c \/ is_Some (cl_slots c !! id);
  ci_once id : id ∈ cl_pending c -> cl_slots c !! id = None;
  ci_open id : is_Some (cl_calls c !! id) -> cl_results c !! id = None;
  ci_slots id r : cl_slots c !! id = Some r -> answered_by es id r;
  ci_results id r : cl_results c !! id = Some r -> justified es id r;
  ci_pushes : cl_pushes c = foldl note_push [] es;
}.

Lemma answered_by_snoc es e id r : answered_by es id r -> answered_by (es ++ [e]) id r.
Proof. destruct r; cbn; set_solver. Qed.
Lemma justified_snoc es e id r : justified es id r -> justified (es ++ [e]) id r.
Proof. destruct r as [|[]]; cbn; set_solver. Qed.

Lemma interpret_justified es id r : answered_by es id r -> justified es id (interpret r).
Proof.
  destruct r as [env|]; cbn; [|done]. intros (line & Hl & Hr). pose proof Hr as (_ & _ & Ht).
  destruct (en_type env) eqn:E; [naive_solver|cbn; eauto| |naive_solver].
  destruct (decode_error _) eqn:Ed; cbn; eauto 8.
Qed.

(** The history grows by an event that pushes nothing. *)
Lemma inv_snoc es e c :
  client_inv es c -> note_push (foldl note_push [] es) e = foldl note_push [] es ->
  client_inv (es ++ [e]) c.
Proof.
  intros [Hw Ho Hc Hs Hr Hp] He. split; [done..| | |].
  - intros id r Hl%Hs. by apply answered_by_snoc.
  - intros id r Hl%Hr. by apply justified_snoc.
  - by rewrite foldl_app, Hp.
Qed.

Lemma inv_begin es id c :
  client_inv es c -> cl_calls c !! id = None -> cl_results c !! id = None ->
  client_inv es (begin_request id c).
Proof.
  intros [Hw Ho Hc Hs Hr Hp] Hcall Hres. unfold begin_request.
  assert ((id ∉ cl_pending c) /\ cl_slots c !! id = None) as [Hnp Hns].
  { specialize (Hw id). rewrite Hcall in Hw. split; [naive_solver|].
    apply eq_None_not_Some. naive_solver. }
  split; fsimpl; try done.
  - intros i. rewrite elem_of_union, elem_of_singleton. destruct (decide (i = id)) as [->|].
    + rewrite lookup_insert_eq. naive_solver.
    + rewrite lookup_insert_ne by done. rewrite Hw. naive_solver.
  - intros i [->%elem_of_singleton|Hi]%elem_of_union; [done|by apply Ho].
  - intros i. destruct (decide (i = id)) as [->|]; [done|]. rewrite lookup_insert_ne by done. apply Hc.
Qed.

(** A call ends with a justified result, whether or not the reader knows it. *)
Lemma inv_finish es id r c :
  client_inv es c -> justified es id r ->
  client_inv es (finish_call id r (c <| cl_pending := cl_pending c ∖ {[id]} |>)).
Proof.
  intros [Hw Ho Hc Hs Hr Hp] Hj. unfold finish_call. split; fsimpl; try done.
  - intros i. rewrite elem_of_difference, elem_of_singleton. destruct (decide (i = id)) as [->|].
    + rewrite !lookup_delete_eq. split; [by intros []|intros [[_ []]|[]]; done].
    + rewrite !lookup_delete_ne by done. rewrite Hw. naive_solver.
  - intros i [Hi Hne]%elem_of_difference. rewrite lookup_delete_ne by set_solver. by apply Ho.
  - intros i. destruct (decide (i = id)) as [->|]; [rewrite lookup_delete_eq; by intros []|].
    rewrite lookup_delete_ne, lookup_insert_ne by done. apply Hc.
  - intros i r'. destruct (decide (i = id)) as [->|]; [by rewrite lookup_delete_eq|].
    rewrite lookup_delete_ne by done. apply Hs.
  - intros i r'. destruct (decide (i = id)) as [->|]; [rewrite lookup_insert_eq; by intros [= <-]|].
    rewrite lookup_insert_ne by done. apply Hr.
Qed.

Lemma inv_deliver es id r c : client_inv es c -> answered_by es id r -> client_inv es (deliver id r c).
Proof.
  intros Hinv Ha. unfold deliver. destruct (decide _) as [Hin|]; [|done].
  destruct Hinv as [Hw Ho Hc Hs Hr Hp]. split; fsimpl; try done.
  - intros i. rewrite elem_of_difference, elem_of_singleton. destruct (decide (i = id)) as [->|].
    + rewrite lookup_insert_eq, Hw. naive_solver.
    + rewrite lookup_insert_ne by done. rewrite Hw. naive_solver.
  - intros i [Hi Hne]%elem_of_difference. rewrite lookup_insert_ne by set_solver. by apply Ho.
  - intros i r'. destruct (decide (i = id)) as [->|]; [rewrite lookup_insert_eq; by intros [= <-]|].
    rewrite lookup_insert_ne by done. apply Hs.
Qed.

Lemma inv_drain es c :
  client_inv es c -> answered_by es "" RDisconnected -> client_inv es (drain_pending c).
Proof.
  intros [Hw Ho Hc Hs Hr Hp] Ha. unfold drain_pending. split; fsimpl; try done.
  - intros i. rewrite Hw, lookup_union_is_Some. split.
    + intros [Hi|Hi]; right; [left|by right]. exists RDisconnected. by apply lookup_gset_to_gmap_Some.
    + intros [Hi|[[r' [Hi _]%lookup_gset_to_gmap_Some]|Hi]]; [by apply not_elem_of_empty in Hi|auto..].
  - intros i r' [Hl|[_ Hl]]%lookup_union_Some_raw; [|by apply Hs].
    apply lookup_gset_to_gmap_Some in Hl as [_ <-]. done.
Qed.

Lemma inv_reading es b c : client_inv es c -> client_inv es (c <| cl_reading := b |>).
Proof. intros []. by split. Qed.

Lemma inv_line es line c : client_inv es c -> client_inv (es ++ [CLine line]) (on_line line c).
Proof.
  intros Hinv. unfold on_line. cbv zeta.
  assert (push_of line = [] -> client_inv (es ++ [CLine line]) c) as Hskip.
  { intros E. apply inv_snoc; [done|]. cbn. by rewrite E, app_nil_r. }
  unfold push_of in Hskip. destruct (is_empty (trim_eol line)) eqn:Ee; [by apply Hskip|].
  destruct (decode_envelope (trim_eol line)) as [env|] eqn:Ed; [|by apply Hskip].
  assert (en_type env = EnvResponse \/ en_type env = EnvError ->
          answered_by (es ++ [CLine line]) (en_id env) (ROk env)) as Hans.
  { intros Ht. exists line. split; [set_solver|done]. }
  destruct (en_type env) eqn:Et; [|apply inv_deliver; [by apply Hskip|by apply Hans; auto]..|by apply Hskip].
  destruct (decode_push (en_payload env)) as [msg|] eqn:Em; [|by apply Hskip].
  destruct Hinv as [Hw Ho Hc Hs Hr Hp]. split; fsimpl; try done.
  - intros id r Hl%Hs. by apply answered_by_snoc.
  - intros id r Hl%Hr. by apply justified_snoc.
  - rewrite foldl_app, Hp. cbn. unfold push_of. by rewrite Ee, Ed, Et, Em.
Qed.

Lemma inv_resume es id r c :
  client_inv es c -> cl_slots c !! id = Some r -> client_inv es (resume id r c).
Proof.
  intros Hinv Hs. unfold resume.
  replace c with (c <| cl_pending := cl_pending c ∖ {[id]} |>) at 1.
  - apply inv_finish; [done|]. apply interpret_justified. by apply Hinv.
  - assert (id ∉ cl_pending c) as Hn by (intros Hin%(ci_once _ _ Hinv); congruence).
    assert (cl_pending c ∖ {[id]} = cl_pending c) as -> by set_solver. by destruct c.
Qed.

Lemma client_inv_step es e c c' :
  client_inv es c -> client_step e c c' -> client_inv (es ++ [e]) c'.
Proof.
  intros Hinv Hstep. destruct Hstep as [id c Hc Hr|id outcome c Hc|line c|c|id kind elapsed c Hc Hs
    |id r c Hc Hs|c|c].
  - apply inv_begin; [by apply inv_snoc|done..].
  - destruct outcome as [[]|e]; cbn [write_done].
    + pose proof (inv_snoc _ (CWrote id (Ok tt)) _ Hinv eq_refl) as [Hw Ho Ho' Hs Hr Hp].
      split; fsimpl; try done; intros i; destruct (decide (i = id)) as [->|];
        rewrite ?lookup_insert_eq, ?lookup_insert_ne by done; [|apply Hw| |apply Ho'].
      * rewrite <-Hw, Hc. naive_solver.
      * intros _. apply Ho'. by rewrite Hc.
    + apply inv_finish; [by apply inv_snoc|]. cbn. set_solver.
  - by apply inv_line.
  - apply inv_drain; [by apply inv_reading, inv_snoc|cbn; set_solver].
  - apply inv_finish; [by apply inv_snoc|]. cbn. set_solver.
  - apply inv_resume; [by apply inv_snoc|done].
  - destruct Hinv as [Hw Ho Hc Hs Hr Hp]. split; fsimpl; try done.
    + intros id r Hl%Hs. by apply answered_by_snoc.
    + intros id r Hl%Hr. by apply justified_snoc.
    + by rewrite foldl_app.
  - apply inv_reading, inv_drain; [by apply inv_snoc|cbn; set_solver].
Qed.

Lemma client_run_inv es c : client_run es c -> client_inv es c.
Proof.
  induction 1 as [|es e c c' _ IH Hstep]; [|by eapply client_inv_step].
  split; cbn; try done. intros id. rewrite lookup_empty. split; [by intros []|].
  intros [Hi%not_elem_of_empty|[]]; done.
Qed.

(** C25: Requests that share a connection never see each other's answers: however they
    interleave with lines, timeouts, failed writes and the end of the connection, a result
    is an answer that arrived under the id of its request, the daemon's error for that id,
    or a timeout, a write error or a disconnect that happened; a request still open is
    known to the reader or has its answer waiting, and then the next answer for its id
    reaches it; pushed messages are kept in their order until they are taken. *)
Theorem answers_reach_their_requests es c :
  client_run es c ->
  (forall id r, cl_results c !! id = Some r -> justified es id r /\ cl_calls c !! id = None)
  /\ (forall id, is_Some (cl_calls c !! id) <-> id ∈ cl_pending c \/ is_Some (cl_slots c !! id))
  /\ (forall id line env, id ∈ cl_pending c -> trim_eol line <> "" -> response_line id line env ->
        cl_slots (on_line line c) !! id = Some (ROk env))
  /\ cl_pushes c = foldl note_push [] es.
Proof.
  intros Hinv%client_run_inv. split_and!; [|apply Hinv| |apply Hinv].
  - intros id r Hr. split; [by apply Hinv|]. apply eq_None_not_Some. intros Hc.
    by rewrite (ci_open _ _ Hinv _ Hc) in Hr.
  - intros id line env Hin Hne (Hd & <- & Ht). unfold on_line. cbv zeta.
    apply is_empty_false in Hne. rewrite Hne, Hd. unfold deliver.
    destruct Ht as [-> | ->]; rewrite decide_True by done; fsimpl; by rewrite lookup_insert_eq.
Qed.
End client.
