(* ===== verification/McpHost.v ===== *)
(** * What the agent-side tools stand on (crates/ax-mcp-server/src/server.rs).

    The requests a tool may send over the daemon connection ([DaemonLink]), the results it
    returns, and the pure helpers of server.rs: parsers of options, texts of errors and
    records of calls.  The tools themselves are in [McpTools]. *)

From stdpp Require Import prelude strings list gmap.
From S2P Require Import Prelude Act RustStr Proto TaskHelpers Memory Registry SessionManager.
From S2P Require Import Handlers Paths ConfigSchema ConfigTree Tmux Artifacts WorkspaceManager.
From S2P Require Import Reconcile Dispatch ErrorText TeamReconfigure Usage UsageHistory UsageTrends.
From S2P Require Import TeamHandlers McpClient McpPlanner RustText.

(** ** Requests and answers *)

Inductive Ask :=
| AskDaemon (req : Request)
| AskTeamState (config_path : string)
| AskDryRunTeam (payload : TeamReconfigurePayload)
| AskApplyTeam (payload : TeamReconfigurePayload)
| AskFinishTeam (payload : FinishTeamReconfigurePayload)
| AskUsageTrends (payload : UsageTrendsPayload).

Inductive Answer :=
| AnsDaemon (resp : Response)
| AnsTeamState (state : TeamReconfigureState)
| AnsTeamPlan (plan : TeamReconfigurePlan)
| AnsTicket (ticket : TeamApplyTicket)
| AnsTrends (trends : list WorkspaceTrend).

(** The connection and the clock, over the state [S] of everything a tool can reach.
    Whatever other clients do between two requests is part of the transition. *)
Class DaemonLink (S : Type) := {
  link_request : Ask -> S -> result DaemonClientError Answer * S;
  (** [Instant::now], in nanoseconds *)
  link_now : S -> Z;
  link_sleep : Z -> S -> S;
}.

(** Time does not run backwards, and a sleep takes its time. *)
Class LinkClock (S : Type) `{!DaemonLink S} : Prop := {
  link_request_now a s : (link_now s <= link_now (link_request a s).2)%Z;
  link_sleep_now d s : (link_now s + d <= link_now (link_sleep d s))%Z;
}.

(** The files and the tmux server of the machine, which the daemon shares. *)
Class Machine (S F T : Type) := {
  machine : S -> World F T;
  set_machine : World F T -> S -> S;
}.

(** serde_json and chrono: JSON of the wire types, its text, and times as text;
    [mismatch_text] is the error of decoding an answer of another shape. *)
Class ToolText := {
  json_pretty : Json -> string;
  json_compact : Json -> string;
  task_json : Task -> Json;
  memory_json : Memory -> Json;
  workspace_json : WorkspaceInfo -> Json;
  started_json : Task -> string -> string -> Json;
  intervened_json : Task -> string -> string -> string -> Json;
  lifecycle_json : AgentLifecycleResponse -> Json;
  team_state_json : TeamReconfigureState -> Json;
  team_plan_json : TeamReconfigurePlan -> Json;
  ticket_json : TeamApplyTicket -> Json;
  report_json : ReconcileReport -> Json;
  trend_json : WorkspaceTrend -> Json;
  initial_plan_json : InitialTeamPlan -> Json;
  reconfigure_plan_json : ReconfigureTeamPlan -> Json;
  hms : Z -> string;
  rfc3339 : Z -> string;
  mismatch_text : string;
}.

(** ** Results of tools *)

(** The error codes of rmcp. *)
Inductive ErrorCode :=
| RESOURCE_NOT_FOUND | INVALID_REQUEST | METHOD_NOT_FOUND | INVALID_PARAMS
| INTERNAL_ERROR | PARSE_ERROR | URL_ELICITATION_REQUIRED | OtherCode (code : Z).

Record ErrorData := mkErrorData { ed_code : ErrorCode; ed_message : string }.
Definition invalid_params (message : string) : ErrorData := mkErrorData INVALID_PARAMS message.
Definition internal_error (message : string) : ErrorData := mkErrorData INTERNAL_ERROR message.

Record CallToolResult := mkCallToolResult {
  ct_content : list string;
  ct_is_error : option bool;
}.
Definition success (text : string) : CallToolResult := mkCallToolResult [text] (Some false).
Definition tool_execution_error (message : string) : CallToolResult :=
  mkCallToolResult [message] (Some true).

(** A tool fails with an error for the client, or panics. *)
Inductive ToolFailure := ToolErr (e : ErrorData) | ToolPanic.

Definition dq : string := String (Ascii.ascii_of_nat 34) "".
Definition quoted (s : string) : string := dq +:+ s +:+ dq.
Definition show_len {A} (l : list A) : string := show_Z (Z.of_nat (length l)).
Definition jnum (z : Z) : Json := JNumber (show_Z z).
Definition jlen {A} (l : list A) : Json := JNumber (show_len l).

Section helpers.
Context `{!TextOps} `{!SysText}.

Definition tool_error (e : DaemonClientError) : ToolFailure := ToolErr (internal_error (to_string e)).
Definition daemon_tool_execution_error (e : DaemonClientError) : CallToolResult :=
  tool_execution_error (to_string e).

#[export] Instance ReconcileError_display : Display ReconcileError := fun e =>
  match e with
  | ReadState path e => "read reconcile state " +:+ path +:+ ": " +:+ to_string e
  | ParseState path => "parse reconcile state " +:+ path +:+ ": " +:+ json_error_text
  | EncodeState => "encode reconcile state: " +:+ json_error_text
  | WriteState path e => "write reconcile state " +:+ path +:+ ": " +:+ to_string e
  | RecWorkspace e => to_string e
  | RecOrchestrator e => to_string e
  | RecTmux e => to_string e
  end.

(** ** Parsing of options *)

Definition one_of (v : string) (allowed : list string) : bool := existsb (String.eqb v) allowed.

Definition check_option (value : option string) (allowed : list string) (what must : string)
  : result ErrorData unit :=
  match value with
  | Some raw =>
      let v := trim raw in
      if one_of v allowed then Ok tt
      else Err (invalid_params ("invalid " +:+ what +:+ " " +:+ debug_str v +:+ " (must be " +:+ must +:+ ")"))
  | None => Ok tt
  end.

Definition validate_lifecycle_options (start_mode workflow_mode priority : option string)
    (stale_after_seconds : option Z) : result ErrorData unit :=
  _ ← match stale_after_seconds with
      | Some s => if (s <? 0)%Z then Err (invalid_params "stale_after_seconds must be >= 0") else Ok tt
      | None => Ok tt
      end;
  _ ← check_option start_mode [""; "default"; "fresh"] "start_mode" "default or fresh";
  _ ← check_option workflow_mode [""; "parallel"; "serial"] "workflow_mode" "parallel or serial";
  check_option priority [""; "low"; "normal"; "high"; "urgent"] "priority" "low, normal, high, or urgent".

Definition parse_update_status (raw : string) : result string TaskStatus :=
  if String.eqb raw "pending" then Ok Pending
  else if String.eqb raw "in_progress" then Ok InProgress
  else if String.eqb raw "completed" then Ok Completed
  else if String.eqb raw "failed" then Ok Failed
  else Err ("invalid status " +:+ debug_str raw
            +:+ " (must be pending, in_progress, completed, or failed)").

Definition non_blank (raw : option string) : option string :=
  match raw with
  | Some raw => let v := trim raw in if is_empty v then None else Some v
  | None => None
  end.

Definition parse_list_status (raw : option string) : result string (option TaskStatus) :=
  match non_blank raw with
  | None => Ok None
  | Some value =>
      if String.eqb value "pending" then Ok (Some Pending)
      else if String.eqb value "in_progress" then Ok (Some InProgress)
      else if String.eqb value "completed" then Ok (Some Completed)
      else if String.eqb value "failed" then Ok (Some Failed)
      else if String.eqb value "cancelled" then Ok (Some Cancelled)
      else Err ("invalid status filter " +:+ debug_str value)
  end.

Definition status_rename (status : TaskStatus) : string :=
  match status with
  | Pending => "pending"
  | InProgress => "in_progress"
  | Blocked => "blocked"
  | Completed => "completed"
  | Failed => "failed"
  | Cancelled => "cancelled"
  end.

Inductive WorkspaceView := ViewAssigned | ViewCreated | ViewBoth.
Definition view_as_str (v : WorkspaceView) : string :=
  match v with ViewAssigned => "assigned" | ViewCreated => "created" | ViewBoth => "both" end.

Definition parse_workspace_view (raw : option string) : result string WorkspaceView :=
  let v := default "" (trim <$> raw) in
  if one_of v [""; "both"] then Ok ViewBoth
  else if String.eqb v "assigned" then Ok ViewAssigned
  else if String.eqb v "created" then Ok ViewCreated
  else Err ("invalid view " +:+ debug_str v +:+ " (must be assigned, created, or both)").

Definition parse_reconcile_mode (raw : option string) : result string (option TeamReconcileMode) :=
  let v := default "" (trim <$> raw) in
  if is_empty v then Ok None
  else if String.eqb v "artifacts_only" then Ok (Some ArtifactsOnly)
  else if String.eqb v "start_missing" then Ok (Some StartMissing)
  else Err ("invalid reconcile_mode " +:+ debug_str v +:+ " (must be artifacts_only or start_missing)").

(** ** Changes of teams *)

Record TeamWorkspaceSpecInput := mkWorkspaceInput {
  wsi_dir : string;
  wsi_description : option string;
  wsi_shell : option string;
  wsi_runtime : option string;
  wsi_agent_provider : option string;
  wsi_codex_model_reasoning_effort : option string;
  wsi_agent : option string;
  wsi_instructions : option string;
  wsi_env : option (gmap string string);
}.
Record TeamChildSpecInput := mkChildInput { csi_dir : string; csi_prefix : option string }.
Record TeamReconfigureChangeInput := mkChangeInput {
  chi_op : string;
  chi_kind : string;
  chi_name : option string;
  chi_workspace : option TeamWorkspaceSpecInput;
  chi_child : option TeamChildSpecInput;
}.

Definition workspace_into_spec (i : TeamWorkspaceSpecInput) : TeamWorkspaceSpec :=
  mkTeamWorkspaceSpec (wsi_dir i) (default "" (wsi_description i)) (default "" (wsi_shell i))
    (default "" (wsi_runtime i)) (default "" (wsi_agent_provider i))
    (default "" (wsi_codex_model_reasoning_effort i)) (default "" (wsi_agent i))
    (default "" (wsi_instructions i)) (default ∅ (wsi_env i)).
Definition child_into_spec (i : TeamChildSpecInput) : TeamChildSpec :=
  mkTeamChildSpec (csi_dir i) (default "" (csi_prefix i)).

Definition convert_op (raw : string) : result string TeamChangeOp :=
  let v := trim raw in
  if String.eqb v "add" then Ok OpAdd
  else if String.eqb v "remove" then Ok OpRemove
  else if String.eqb v "enable" then Ok OpEnable
  else if String.eqb v "disable" then Ok OpDisable
  else Err ("invalid change op " +:+ debug_str v).
Definition convert_kind (raw : string) : result string TeamEntryKind :=
  let v := trim raw in
  if String.eqb v "workspace" then Ok KWorkspace
  else if String.eqb v "child" then Ok KChild
  else if String.eqb v "root_orchestrator" then Ok KRootOrchestrator
  else Err ("invalid change kind " +:+ debug_str v).

Definition convert_change (input : TeamReconfigureChangeInput) : result string TeamReconfigureChange :=
  op ← convert_op (chi_op input);
  kind ← convert_kind (chi_kind input);
  Ok (mkChange op kind (default "" (chi_name input)) (workspace_into_spec <$> chi_workspace input)
        (child_into_spec <$> chi_child input)).

Fixpoint convert_changes (inputs : list TeamReconfigureChangeInput)
  : result string (list TeamReconfigureChange) :=
  match inputs with
  | [] => Ok []
  | input :: rest =>
      change ← convert_change input;
      changes ← convert_changes rest;
      Ok (change :: changes)
  end.

(** ** Reports of reconcile passes *)

Definition reconcile_action_kind (value : string) : option TeamEntryKind :=
  let v := trim value in
  if String.eqb v "workspace" then Some KWorkspace
  else if String.eqb v "orchestrator" then Some KRootOrchestrator
  else None.

Definition team_actions_from_reconcile_report (report : ReconcileReport) : list TeamReconfigureAction :=
  omap (fun action =>
          kind ← reconcile_action_kind (ra_kind action);
          Some (mkAction (ra_operation action) kind (ra_name action) "" (ra_details action)))
    (actions report)
  ++ (if root_manual_restart_required report
      then [mkAction "manual_restart_required" KRootOrchestrator "orchestrator" ""
              (String.concat "; " (root_manual_restart_reasons report))]
      else []).

(** ** Project directories *)

Definition resolve_project_dir (env : Env) (project_dir config_hint : option string)
  : result string string :=
  match project_dir with
  | Some raw =>
      if is_absolute raw then Ok raw
      else Err ("project_dir must be absolute, got " +:+ debug_str raw)
  | None =>
      match (cfg ← config_hint; up ← parent cfg; parent up) with
      | Some root => Ok root
      | None => map_err (fun e => "resolve current_dir: " +:+ to_string e) (cwd env)
      end
  end.

(** ** Records of calls *)

Definition call_tool_result_error_text (result : CallToolResult) : string :=
  let text := String.concat newline (ct_content result) in
  if is_empty (trim text) then "tool returned isError=true" else text.

Definition mcp_error_kind (err : ErrorData) : string :=
  match ed_code err with
  | RESOURCE_NOT_FOUND => "RESOURCE_NOT_FOUND"
  | INVALID_REQUEST => "INVALID_REQUEST"
  | METHOD_NOT_FOUND => "METHOD_NOT_FOUND"
  | INVALID_PARAMS => "INVALID_PARAMS"
  | INTERNAL_ERROR => "INTERNAL_ERROR"
  | PARSE_ERROR => "PARSE_ERROR"
  | URL_ELICITATION_REQUIRED => "URL_ELICITATION_REQUIRED"
  | OtherCode code => "ERROR_CODE_" +:+ show_Z code
  end.

Record TelemetryEvent := mkTelemetryEvent {
  te_ts : Z;
  te_workspace : string;
  te_tool : string;
  te_ok : bool;
  te_duration_ms : Z;
  te_err_kind : string;
}.

(** What [call_tool] records of a call: its telemetry event, and the activity request it
    sends in the background.  [duration_ms] is a [u64]. *)
Definition call_outcome (result : result ErrorData CallToolResult) : bool * string * string :=
  match result with
  | Ok tool_result =>
      if bool_decide (ct_is_error tool_result = Some true)
      then (false, call_tool_result_error_text tool_result, "TOOL_ERROR")
      else (true, "", "")
  | Err e => (false, ed_message e, mcp_error_kind e)
  end.

Definition mcp_tool_activity (tool : string) (ok : bool) (duration_ms : Z) (err_kind : string) : Request :=
  RecordMcpToolActivity (sanitize_mcp_activity_field tool) ""
    (if ok then ActivityOk else ActivityError)
    (if ok then "" else sanitize_mcp_activity_field err_kind)
    (Z.min duration_ms i64_max).

Definition call_records (workspace tool : string) (now duration_ms : Z)
    (result : result ErrorData CallToolResult) : TelemetryEvent * Request :=
  let '(ok, telemetry_err_kind, activity_err_kind) := call_outcome result in
  (mkTelemetryEvent now workspace tool ok duration_ms telemetry_err_kind,
   mcp_tool_activity tool ok duration_ms activity_err_kind).

(** ** Agents in a list *)

Definition instruction_preview (instructions : string) : string :=
  let trimmed := trim instructions in
  if is_empty trimmed then ""
  else String.concat " " (take 24 (split_whitespace trimmed)).

Definition AGENT_QUERY_FIELDS : list string :=
  ["name"; "dir"; "description"; "runtime"; "agent_provider"; "model"; "base_url"; "web_search";
   "command"; "state"; "instructions_preview"; "status_text"].

Definition field (key : string) (info : list (string * Json)) : option Json :=
  snd <$> List.find (fun kv => String.eqb kv.1 key) info.

Definition matches_agent_query (info : list (string * Json)) (query : string) : bool :=
  existsb (fun f => match field f info ≫= Usage.as_str with
                    | Some text => contains (to_ascii_lowercase text) query
                    | None => false
                    end) AGENT_QUERY_FIELDS.
End helpers.

(** ** The blocking clients of the socket: the terminal interface, the launcher and the
    command line *)

(** The Unix socket: [connect] with its two timeouts, [write_all] with [flush], and
    [read_line], which gives the empty text at the end of the stream. *)
Class Socket (W : Type) := {
  sock_connect : string -> W -> result IoError unit * W;
  sock_read_timeout : W -> result IoError unit * W;
  sock_write_timeout : W -> result IoError unit * W;
  sock_write : string -> W -> result IoError unit * W;
  sock_read_line : W -> result IoError string * W;
}.

Definition sock_configure {W} `{!Socket W} (w : W) : result IoError unit * W :=
  match sock_read_timeout w with
  | (Ok _, w) => sock_write_timeout w
  | e => e
  end.

(** serde_json at the types of the conversation; errors are their texts. *)
Class WatchWire := {
  wire_request : string -> Ask -> result string string;
  wire_envelope : string -> result string Envelope;
  wire_response : string -> result string string;
  wire_error : string -> result string string;
  wire_answer : Ask -> string -> result string Answer;
  wire_mismatch : string;
}.

Definition trim_end (s : string) : string := of_bytes (trim_end_bytes (bytes s)).
(** [{:?}] of a [MessageType]. *)
Definition env_type_debug (t : EnvType) : string :=
  match t with
  | EnvPush => "PushMessage" | EnvResponse => "Response" | EnvError => "Error" | EnvOther kind => kind
  end.
