(* ===== verification/Agent.v ===== *)
(** * The launcher of agents and its status reports (crates/ax-agent/src/launch.rs, status.rs
    and shell.rs).

    [ax run-agent] starts Claude or Codex in a workspace and, while the program runs, tells
    the daemon and the tmux window how full its context is.  The numbers come from the newest
    transcript of the runtime ([AgentFs], [AgentJson]); the program, the clocks and tmux are
    the interface [LaunchHost], the connection is [Socket].  [AgentFacts] has the theorems. *)

From Stdlib Require Import Ascii Floats.SpecFloat.
From stdpp Require Import prelude strings list gmap.
From S2P Require Import Prelude Act RustStr Proto TaskHelpers Handlers Paths ConfigSchema ConfigTree Tmux.
From S2P Require Import Artifacts WorkspaceManager Reconcile CodexFiles ErrorText Usage UsageHistory UsageTrends.
From S2P Require Import McpClient McpHost RustText.

Local Close Scope Z_scope.

(** ** shell.rs *)

Definition squote : ascii := Ascii.ascii_of_nat 39.
Definition backslash : ascii := Ascii.ascii_of_nat 92.

(** A quote never occurs inside a longer UTF-8 character, so that bytes do for [chars]. *)
Definition quote_byte (a : ascii) : list ascii :=
  if decide (a = squote) then [squote; backslash; squote; squote] else [a].
Definition shell_quote (value : string) : string :=
  if is_empty value then of_bytes [squote; squote]
  else of_bytes ([squote] ++ concat (quote_byte <$> bytes value) ++ [squote]).

(** ** status.rs: snapshots *)

Definition STATUS_REFRESH_INTERVAL : Z := secs 5.
Definition CHILD_POLL_INTERVAL : Z := 200000000.
Definition TMUX_STATUS_OPTION : string := "@ax-status-title".

Record RuntimeMetricSnapshot := mkSnapshot {
  rs_session_id : string;
  rs_context_tokens : option Z;
  rs_context_window : option Z;
  rs_usage_ratio : option f64;
  rs_last_activity_at : option Z;
  rs_compact_eligible : option bool;
}.
#[export] Instance RuntimeMetricSnapshot_eta : Updatable RuntimeMetricSnapshot := fun s =>
  mkSnapshot (rs_session_id s) (rs_context_tokens s) (rs_context_window s) (rs_usage_ratio s)
    (rs_last_activity_at s) (rs_compact_eligible s).
Definition default_snapshot : RuntimeMetricSnapshot := mkSnapshot "" None None None None None.

(** [Option::filter]. *)
Definition option_keep {A} (p : A -> bool) (o : option A) : option A :=
  match o with Some a => if p a then Some a else None | None => None end.

Definition non_negative (value : option Z) : option Z := option_keep (fun v => 0 <=? v)%Z value.
Definition positive (value : option Z) : option Z := option_keep (fun v => 0 <? v)%Z value.
Definition valid_ratio (value : option f64) : option f64 :=
  option_keep (fun v => is_finite v && (f64_nonneg v && SFleb v f64_one)) value.

Definition sanitized (s : RuntimeMetricSnapshot) : RuntimeMetricSnapshot :=
  mkSnapshot (trim (rs_session_id s)) (non_negative (rs_context_tokens s))
    (positive (rs_context_window s)) (valid_ratio (rs_usage_ratio s))
    (rs_last_activity_at s) (rs_compact_eligible s).

(** The derived [PartialEq]; [==] of [f64] holds for the two zeros and for no NaN. *)
Definition option_eqb {A} (eqb : A -> A -> bool) (a b : option A) : bool :=
  match a, b with
  | Some a, Some b => eqb a b
  | None, None => true
  | _, _ => false
  end.
Definition snapshot_eqb (a b : RuntimeMetricSnapshot) : bool :=
  String.eqb (rs_session_id a) (rs_session_id b)
  && option_eqb Z.eqb (rs_context_tokens a) (rs_context_tokens b)
  && option_eqb Z.eqb (rs_context_window a) (rs_context_window b)
  && option_eqb SFeqb (rs_usage_ratio a) (rs_usage_ratio b)
  && option_eqb Z.eqb (rs_last_activity_at a) (rs_last_activity_at b)
  && option_eqb Bool.eqb (rs_compact_eligible a) (rs_compact_eligible b).

(** ** status.rs: the newest transcript *)

(** What [read_dir] gives; entries that cannot be read are skipped, those without a type
    too.  A file has its modification time when [metadata] gives one. *)
Inductive Listing :=
| Closed
| Opened (es : Listed)
with Listed :=
| ListEnd
| ListBroken (rest : Listed)
| ListUntyped (name : string) (rest : Listed)
| ListDir (name : string) (d : Listing) (rest : Listed)
| ListFile (name : string) (modified : option Z) (rest : Listed).

(** [path < prev_path] on [PathBuf]s. *)
Definition path_ltb (p q : string) : bool := negb (bool_decide (path_le q p)).

Definition take_newer (latest : option (Z * string)) (modified : Z) (path : string)
    : option (Z * string) :=
  match latest with
  | None => Some (modified, path)
  | Some (prev, prev_path) =>
      if ((prev <? modified) || (modified =? prev) && path_ltb path prev_path)%Z
      then Some (modified, path) else latest
  end.

Fixpoint collect_latest_jsonl (dir : string) (d : Listing) (latest : option (Z * string))
    : option (Z * string) :=
  match d with
  | Closed => latest
  | Opened es => collect_listed dir es latest
  end
with collect_listed (dir : string) (es : Listed) (latest : option (Z * string))
    : option (Z * string) :=
  match es with
  | ListEnd => latest
  | ListBroken rest | ListUntyped _ rest => collect_listed dir rest latest
  | ListDir name d rest => collect_listed dir rest (collect_latest_jsonl (join dir name) d latest)
  | ListFile name modified rest =>
      collect_listed dir rest
        (if is_jsonl name then take_newer latest (default 0%Z modified) (join dir name) else latest)
  end.

Class AgentFs (F : Type) := {
  af_listing : F -> string -> Listing;
  (** [File::open] with [BufRead::lines] *)
  af_lines : F -> string -> result IoError (list (result IoError string));
}.

(** ** status.rs: reading a transcript *)

(** Addition in [i64] that fails on a negative summand or an overflow. *)
Definition checked_non_negative_sum (values : list Z) : option Z :=
  option_keep (fun total => 0 <=? total)%Z
    (foldl (fun acc v =>
       acc ← acc;
       if (v <? 0)%Z then None
       else if (acc + v <=? i64_max)%Z then Some (acc + v)%Z else None) (Some 0%Z) values).

Record ClaudeUsage := mkClaudeUsage {
  cu_input_tokens : Z;
  cu_output_tokens : Z;
  cu_cache_read_input_tokens : Z;
  cu_cache_creation_input_tokens : Z;
}.
Definition claude_context_tokens (u : ClaudeUsage) : option Z :=
  checked_non_negative_sum
    [cu_input_tokens u; cu_output_tokens u; cu_cache_read_input_tokens u; cu_cache_creation_input_tokens u].

(** The message of a record is its usage, if any. *)
Record ClaudeTranscriptRecord := mkClaudeTranscriptRecord {
  ct_session_id : string;
  ct_timestamp : option Z;
  ct_usage : option ClaudeUsage;
}.

Record CodexTokenUsage := mkCodexTokenUsage {
  tu_input_tokens : Z;
  tu_cached_input_tokens : Z;
  tu_output_tokens : Z;
  tu_reasoning_output_tokens : Z;
  tu_total_tokens : Z;
}.
Definition codex_context_tokens (u : CodexTokenUsage) : option Z :=
  if (0 <? tu_total_tokens u)%Z then Some (tu_total_tokens u) else
  option_keep (fun total => 0 <? total)%Z
    (checked_non_negative_sum
       [tu_input_tokens u; tu_cached_input_tokens u; tu_output_tokens u; tu_reasoning_output_tokens u]).

Record CodexRecord := mkCodexRecord {
  cx_timestamp : option Z;
  cx_line_type : string;
  cx_payload : Json;
}.
(** [info] of a token count is its [total_token_usage]. *)
Record CodexEvent := mkCodexEvent {
  ce_event_type : string;
  ce_info : option CodexTokenUsage;
}.
Definition default_event : CodexEvent := mkCodexEvent "" None.

(** serde_json at the record types. *)
Class AgentJson := {
  decode_claude_record : string -> option ClaudeTranscriptRecord;
  decode_codex_record : string -> option CodexRecord;
  decode_session_meta : Json -> option string;
  decode_codex_event : Json -> option CodexEvent;
}.

(** [lines().map_while(Result::ok)]. *)
Fixpoint readable_lines (l : list (result IoError string)) : list string :=
  match l with
  | Ok line :: l => line :: readable_lines l
  | _ => []
  end.

Section scan.
Context {F : Type} `{!AgentFs F} `{!AgentJson}.

Definition claude_line (snapshot : RuntimeMetricSnapshot) (line : string) : RuntimeMetricSnapshot :=
  match decode_claude_record line with
  | None => snapshot
  | Some record =>
      let snapshot := if is_empty (ct_session_id record) then snapshot
                      else snapshot <| rs_session_id := ct_session_id record |> in
      let snapshot := match ct_timestamp record with
                      | Some ts => snapshot <| rs_last_activity_at := Some ts |>
                      | None => snapshot
                      end in
      match ct_usage record with
      | Some usage => snapshot <| rs_context_tokens := claude_context_tokens usage |>
      | None => snapshot
      end
  end.

Definition codex_line (snapshot : RuntimeMetricSnapshot) (line : string) : RuntimeMetricSnapshot :=
  match decode_codex_record line with
  | None => snapshot
  | Some record =>
      let snapshot := match cx_timestamp record with
                      | Some ts => snapshot <| rs_last_activity_at := Some ts |>
                      | None => snapshot
                      end in
      if String.eqb (cx_line_type record) "session_meta" then
        let id := default "" (decode_session_meta (cx_payload record)) in
        if is_empty id then snapshot else snapshot <| rs_session_id := id |>
      else if String.eqb (cx_line_type record) "event_msg" then
        let event := default default_event (decode_codex_event (cx_payload record)) in
        if negb (String.eqb (ce_event_type event) "token_count") then snapshot else
        match ce_info event with
        | Some usage => snapshot <| rs_context_tokens := codex_context_tokens usage |>
        | None => snapshot
        end
      else snapshot
  end.

(** [scan_claude_transcript] and [scan_codex_session], by the step for a line. *)
Definition scan_lines (step : RuntimeMetricSnapshot -> string -> RuntimeMetricSnapshot)
    (fs : F) (path : string) : result IoError RuntimeMetricSnapshot :=
  ls ← af_lines fs path;
  Ok (foldl step default_snapshot (readable_lines ls)).
Definition scan_claude_transcript : F -> string -> result IoError RuntimeMetricSnapshot :=
  scan_lines claude_line.
Definition scan_codex_session : F -> string -> result IoError RuntimeMetricSnapshot :=
  scan_lines codex_line.

Definition latest_jsonl_under (fs : F) (root : string) : option string :=
  snd <$> collect_latest_jsonl root (af_listing fs root) None.

Inductive MetricSource := ClaudeMetricSource (project_dir : option string) | CodexMetricSource (codex_home : string).

Definition claude_source (env : Env) (dir : string) : MetricSource :=
  ClaudeMetricSource (match claude_project_path env dir with Ok p => Some p | Err _ => None end).

(** [unwrap_or_default] of a scan. *)
Definition or_default (r : result IoError RuntimeMetricSnapshot) : RuntimeMetricSnapshot :=
  match r with Ok s => s | Err _ => default_snapshot end.

Definition snapshot (source : MetricSource) (fs : F) : RuntimeMetricSnapshot :=
  match source with
  | ClaudeMetricSource None => default_snapshot
  | ClaudeMetricSource (Some dir) =>
      match latest_jsonl_under fs dir with
      | None => default_snapshot
      | Some path => or_default (scan_claude_transcript fs path)
      end
  | CodexMetricSource home =>
      match latest_jsonl_under fs (join home "sessions") with
      | None => default_snapshot
      | Some path => or_default (scan_codex_session fs path)
      end
  end.
End scan.

(** ** status.rs: the reporter *)

Inductive StatusReporterError :=
| SConnect (socket_path : string) (source : IoError)
| SEncodeEnvelope (text : string)
| SWrite (e : IoError)
| SRead (e : IoError)
| SConnectionClosed
| SDaemon (message : string)
| SUnexpectedEnvelope (t : EnvType)
| STmuxCommand (op message : string)
| STmuxIo (e : IoError).

#[export] Instance StatusReporterError_display `{!SysText} : Display StatusReporterError := fun e =>
  match e with
  | SConnect socket_path source => "connect " +:+ socket_path +:+ ": " +:+ to_string source
  | SEncodeEnvelope text => "encode envelope: " +:+ text
  | SWrite e => "write request: " +:+ to_string e
  | SRead e => "read response: " +:+ to_string e
  | SConnectionClosed => "connection closed before response arrived"
  | SDaemon message => "daemon error: " +:+ message
  | SUnexpectedEnvelope t => "unexpected envelope " +:+ env_type_debug t
  | STmuxCommand op message => "tmux " +:+ op +:+ ": " +:+ message
  | STmuxIo e => "tmux exec: " +:+ to_string e
  end.

(** The two traits, over the world [W]; [None] is a lack of fuel of the reader. *)
Class StatusMetricsClient (C W : Type) := {
  update_agent_status_metrics :
    AgentStatusMetrics -> C -> W -> option (result StatusReporterError AgentStatusMetrics * C * W);
}.
Class TmuxTitleUpdater (W : Type) := {
  set_status_title : string -> string -> W -> result StatusReporterError unit * W;
}.

Record EmittedMetricState := mkEmitted {
  em_work_state : AgentWorkState;
  em_snapshot : RuntimeMetricSnapshot;
}.
Definition work_state_eqb (a b : AgentWorkState) : bool :=
  match a, b with
  | WorkUnknown, WorkUnknown | Busy, Busy | Idle, Idle => true
  | _, _ => false
  end.
Definition emitted_eqb (a b : EmittedMetricState) : bool :=
  work_state_eqb (em_work_state a) (em_work_state b) && snapshot_eqb (em_snapshot a) (em_snapshot b).

Record Reporter (C : Type) := mkReporter {
  rp_runtime : Runtime;
  rp_workspace : string;
  rp_client : option C;
  rp_last_emitted : option EmittedMetricState;
}.
Arguments mkReporter {C} _ _ _ _.
Arguments rp_runtime {C} _.
Arguments rp_workspace {C} _.
Arguments rp_client {C} _.
Arguments rp_last_emitted {C} _.

Definition runtime_display_name (r : Runtime) : string :=
  match r with Claude => "Claude" | Codex => "Codex" end.

(** The payload has the fields of [AgentStatusMetrics] without time and title. *)
Definition payload_for {C} (r : Reporter C) (work_state : AgentWorkState)
    (s : RuntimeMetricSnapshot) (now : Z) : AgentStatusMetrics :=
  mkAgentStatusMetrics (rp_workspace r) (rp_workspace r) (Artifacts.as_str (rp_runtime r))
    (runtime_display_name (rp_runtime r)) (rs_session_id s) (rs_context_tokens s)
    (rs_context_window s) (rs_usage_ratio s)
    (Some (default now (rs_last_activity_at s))) work_state (rs_compact_eligible s)
    Fresh Proto.Runtime None "".

Definition local_status_title {C} (r : Reporter C) (p : AgentStatusMetrics) : string :=
  formatted_status_title
    (mkAgentStatusMetrics (rp_workspace r) (sm_agent p) (sm_runtime_id p) (sm_runtime_name p)
       (sm_session_id p) (sm_context_tokens p) (sm_context_window p) (sm_usage_ratio p)
       (sm_last_activity_at p) (sm_work_state p) (sm_compact_eligible p) (sm_freshness p)
       (sm_source_quality p) None "").

Section emit.
Context {C W : Type} `{!StatusMetricsClient C W} `{!TmuxTitleUpdater W}.

(** The title for the window: the daemon's when the update succeeds, else the local one. *)
Definition ask_title (r : Reporter C) (payload : AgentStatusMetrics) (w : W)
    : option (string * option C * W) :=
  match rp_client r with
  | None => Some (local_status_title r payload, None, w)
  | Some c =>
      match update_agent_status_metrics payload c w with
      | None => None
      | Some (Ok metrics, c, w) => Some (sm_status_title metrics, Some c, w)
      | Some (Err _, c, w) => Some (local_status_title r payload, Some c, w)
      end
  end.

(** [now] is [Utc::now()], read when the snapshot has no time of its own. *)
Definition emit (work_state : AgentWorkState) (s : RuntimeMetricSnapshot) (force : bool) (now : Z)
    (r : Reporter C) (w : W) : option (Reporter C * W) :=
  let s := sanitized s in
  let state := mkEmitted work_state s in
  if negb force && match rp_last_emitted r with Some last => emitted_eqb last state | None => false end
  then Some (r, w) else
  let payload := payload_for r work_state s now in
  '(title, client, w) ← ask_title r payload w;
  let '(_, w) := set_status_title (rp_workspace r) title w in
  Some (mkReporter (rp_runtime r) (rp_workspace r) client (Some state), w).
End emit.

(** ** status.rs: the connection *)

Section client.
Context {W : Type} `{!Socket W} `{!WatchWire}.
(** [fuel] bounds the lines read for one answer. *)
Context (fuel : nat).

Definition interpret_status_envelope (a : Ask) (e : Envelope) : result StatusReporterError Answer :=
  match en_type e with
  | EnvResponse => data ← map_err SEncodeEnvelope (wire_response (en_payload e));
                   map_err SEncodeEnvelope (wire_answer a data)
  | EnvError => message ← map_err SEncodeEnvelope (wire_error (en_payload e));
                Err (SDaemon message)
  | t => Err (SUnexpectedEnvelope t)
  end.

Fixpoint read_status_answer (fuel : nat) (id : string) (a : Ask)
    : Run StatusReporterError W Answer := fun w =>
  match fuel with
  | O => None
  | S fuel =>
      match sock_read_line w with
      | (Err e, w) => Some (Err (SRead e), w)
      | (Ok line, w) =>
          if is_empty line then Some (Err SConnectionClosed, w) else
          match wire_envelope (trim_end line) with
          | Err text => Some (Err (SEncodeEnvelope text), w)
          | Ok e => if String.eqb (en_id e) id then Some (interpret_status_envelope a e, w)
                    else read_status_answer fuel id a w
          end
      end
  end.

(** The client is the number of its next request. *)
Definition status_request {A} (shape : Answer -> option A) (next_id : Z) (a : Ask)
    : Run StatusReporterError W A :=
  let id := "agent-status-" +:+ show_Z next_id in
  text ← lift (map_err SEncodeEnvelope (wire_request id a));
  _ ← (fun w => let '(r, w) := sock_write (text +:+ newline) w in Some (map_err SWrite r, w));
  ans ← read_status_answer fuel id a;
  lift (match shape ans with Some v => Ok v | None => Err (SEncodeEnvelope wire_mismatch) end).

Definition registered_status (ans : Answer) : option string :=
  match ans with AnsDaemon (RStatus s) => Some s | _ => None end.
Definition answered_metrics (ans : Answer) : option AgentStatusMetrics :=
  match ans with AnsDaemon (RMetrics m _) => Some m | _ => None end.

(** Returns the number of the next request. *)
Definition status_connect (runtime : Runtime) (socket_path workspace dir : string)
    (config_path : option string) : Run StatusReporterError W Z := fun w =>
  match sock_connect socket_path w with
  | (Err e, w) => Some (Err (SConnect socket_path e), w)
  | (Ok _, w) =>
      (_ ← (fun w => let '(r, w) := sock_read_timeout w in Some (map_err SRead r, w));
       _ ← (fun w => let '(r, w) := sock_write_timeout w in Some (map_err SWrite r, w));
       _ ← status_request registered_status 1
             (AskDaemon (Register workspace dir (runtime_display_name runtime +:+ " runtime launcher")
                           (default "" config_path) 0));
       mret 2%Z) w
  end.

Definition DaemonStatusClient : StatusMetricsClient Z W := {|
  update_agent_status_metrics payload next_id w :=
    match status_request answered_metrics next_id (AskDaemon (UpdateAgentStatusMetrics payload)) w with
    | None => None
    | Some (r, w) => Some (r, (next_id + 1)%Z, w)
    end;
|}.

(** [RuntimeStatusReporter::new]: without a connection only the window is updated. *)
Definition new_reporter (runtime : Runtime) (workspace dir socket_path : string)
    (config_path : option string) (w : W) : option (Reporter Z * W) :=
  match status_connect runtime socket_path workspace dir config_path w with
  | None => None
  | Some (r, w) =>
      Some (mkReporter runtime workspace (match r with Ok c => Some c | Err _ => None end) None, w)
  end.
End client.

(** ** The machine of the launcher *)

Record Command := mkCommand {
  cmd_program : string;
  cmd_dir : option string;
  cmd_args : list string;
  cmd_env : list (string * string);
}.

(** [ExitStatus]: its code, or a signal. *)
Definition ExitStatus : Type := option Z.
Definition exit_success (s : ExitStatus) : bool :=
  match s with Some c => (c =? 0)%Z | None => false end.

(** The child, the clocks, tmux and the files. *)
Class LaunchHost (W F : Type) := {
  host_spawn : Command -> W -> result IoError unit * W;
  host_try_wait : W -> result IoError (option ExitStatus) * W;
  host_instant : W -> Z * W;
  host_utc : W -> Z;
  host_sleep : Z -> W -> W;
  host_tmux : list string -> W -> result IoError Output * W;
  host_files : W -> F;
  host_put_files : F -> W -> W;
}.

Section host.
Context {W F : Type} `{!LaunchHost W F} `{!AgentFs F} `{!AgentJson}.

Definition run_tmux (op : string) (args : list string) : Act StatusReporterError W unit := fun w =>
  match host_tmux args w with
  | (Err e, w) => (Err (STmuxIo e), w)
  | (Ok out, w) =>
      if out_success out then (Ok tt, w)
      else (Err (STmuxCommand op (trim (out_stdout out +:+ out_stderr out))), w)
  end.

#[export] Instance TmuxStatusTitle : TmuxTitleUpdater W := {|
  set_status_title workspace title :=
    let session := session_name workspace in
    _ ← run_tmux "rename-window" ["rename-window"; "-t"; session; title];
    run_tmux "set-option status title" ["set-option"; "-q"; "-t"; session; TMUX_STATUS_OPTION; title];
|}.

Context {C : Type} `{!StatusMetricsClient C W}.

Definition emit_now (work_state : AgentWorkState) (source : MetricSource) (force : bool)
    (r : Reporter C) (w : W) : option (Reporter C * W) :=
  emit work_state (snapshot source (host_files w)) force (host_utc w) r w.

(** The loop of [run_command_with_status]; [polls] bounds the times the child is asked. *)
Fixpoint watch_child (polls : nat) (next_refresh : Z) (source : MetricSource) (r : Reporter C) (w : W)
    : option (result IoError ExitStatus * Reporter C * W) :=
  match polls with
  | O => None
  | S polls =>
      match host_try_wait w with
      | (Err e, w) => Some (Err e, r, w)
      | (Ok (Some status), w) => Some (Ok status, r, w)
      | (Ok None, w) =>
          let '(now, w) := host_instant w in
          if (next_refresh <=? now)%Z then
            '(r, w) ← emit_now Busy source false r w;
            watch_child polls (now + STATUS_REFRESH_INTERVAL)%Z source r (host_sleep CHILD_POLL_INTERVAL w)
          else watch_child polls next_refresh source r (host_sleep CHILD_POLL_INTERVAL w)
      end
  end.

Definition run_command_with_status (polls : nat) (cmd : Command) (source : MetricSource)
    (r : Reporter C) (w : W) : option (result IoError ExitStatus * Reporter C * W) :=
  match host_spawn cmd w with
  | (Err e, w) => Some (Err e, r, w)
  | (Ok _, w) =>
      '(r, w) ← emit_now Busy source true r w;
      let '(now, w) := host_instant w in
      '(res, r, w) ← watch_child polls (now + STATUS_REFRESH_INTERVAL)%Z source r w;
      match res with
      | Err e => Some (Err e, r, w)
      | Ok status =>
          '(r, w) ← emit_now Idle source true r w;
          Some (Ok status, r, w)
      end
  end.
End host.

(** ** launch.rs *)

Definition CLAUDE_PROMPT_SUGGESTION_ENV : string := "CLAUDE_CODE_ENABLE_PROMPT_SUGGESTION".
Definition CLAUDE_PROMPT_SUGGESTION_DISABLED : string := "false".

Record LaunchOptions := mkLaunchOptions {
  extra_args : list string;
  fresh_start : bool;
}.

Inductive LaunchError :=
| LUnsupportedRuntime (name : string)
| LResolveCwd (e : IoError)
| LReadInstructions (path : string) (source : IoError)
| LRemoveClaudeState (path : string) (source : IoError)
| LClaudeProject (e : ClaudeProjectError)
| LCodexHome (e : CodexHomeError)
| LLaunch (program : string) (source : IoError).
#[export] Instance LaunchError_display `{!TextOps} `{!SysText} : Display LaunchError := fun e =>
  match e with
  | LUnsupportedRuntime name => "unsupported runtime " +:+ debug_str name
  | LResolveCwd e => "resolve cwd: " +:+ to_string e
  | LReadInstructions path source => "read instructions " +:+ path +:+ ": " +:+ to_string source
  | LRemoveClaudeState path source => "remove claude project state " +:+ path +:+ ": " +:+ to_string source
  | LClaudeProject ClaudeHomeUnset => "resolve home dir (HOME unset)"
  | LCodexHome e => to_string e
  | LLaunch program source => "launch " +:+ program +:+ ": " +:+ to_string source
  end.

Definition codex_command_args (dir : string) (extra : list string) : list string :=
  ["--dangerously-bypass-approvals-and-sandbox"; "--no-alt-screen"; "-C"; dir] ++ extra.

Section launch.
Context {W F : Type} `{!FileSystem F} `{!ArtifactFs F} `{!LinkFs F} `{!TextOps}.
Context `{!YamlCodec Config} `{!YamlCodec ManagedOverlay}.
Context `{!LaunchHost W F} `{!AgentFs F} `{!AgentJson} `{!Socket W} `{!WatchWire}.
(** [lines_fuel] bounds the lines read for one answer, [polls] the times the child is asked
    whether it has ended. *)
Context (env : Env) (short_hash : string -> string) (lines_fuel polls : nat).
Abbreviation Launched := (Run LaunchError W).

Definition load_instructions_file (dir name : string) (fs : F) : result LaunchError (option string) :=
  let path := join dir name in
  match fs_read_to_string fs path with
  | Ok content => Ok (Some content)
  | Err IoNotFound => Ok None
  | Err source => Err (LReadInstructions path source)
  end.

Definition prepare_claude_launch (dir : string) (fresh : bool) : Act LaunchError F unit :=
  if negb fresh then mret tt else
  project_path ← act_lift (map_err LClaudeProject (claude_project_path env dir));
  remove_if_present (LRemoveClaudeState project_path) (fun fs => fs_remove_dir_all fs project_path).

Definition claude_command_args (dir : string) (continue_session : bool) (extra : list string) (fs : F)
    : result LaunchError (list string) :=
  system_prompt ← load_instructions_file dir "CLAUDE.md" fs;
  Ok (["--dangerously-skip-permissions"]
      ++ match system_prompt with Some p => ["--append-system-prompt"; p] | None => [] end
      ++ (if continue_session then ["--continue"] else []) ++ extra).

(** An action on the files of the machine. *)
Definition on_host_files {E A} (m : Act E F A) : Run E W A := fun w =>
  let '(r, fs) := m (host_files w) in Some (r, host_put_files fs w).

(** The reporter is carried from one run of the program to the next. *)
Definition run_reported (program : string) (cmd : Command) (source : MetricSource) (r : Reporter Z)
    : Launched (ExitStatus * Reporter Z) := fun w =>
  match @run_command_with_status W F _ _ _ Z (DaemonStatusClient lines_fuel) polls cmd source r w with
  | None => None
  | Some (Ok status, r, w) => Some (Ok (status, r), w)
  | Some (Err e, _, w) => Some (Err (LLaunch program e), w)
  end.

Definition spawn_claude (dir : string) (continue_session : bool) (extra : list string)
    (source : MetricSource) (r : Reporter Z) : Launched (ExitStatus * Reporter Z) :=
  args ← (fun w => Some (claude_command_args dir continue_session extra (host_files w), w));
  run_reported "claude"
    (mkCommand "claude" (Some dir) args [(CLAUDE_PROMPT_SUGGESTION_ENV, CLAUDE_PROMPT_SUGGESTION_DISABLED)])
    source r.

Definition start_reporter (runtime : Runtime) (workspace dir socket_path : string)
    (config_path : option string) : Launched (Reporter Z) := fun w =>
  match new_reporter lines_fuel runtime workspace dir socket_path config_path w with
  | None => None
  | Some (r, w) => Some (Ok r, w)
  end.

Definition run_claude (dir workspace socket_path : string) (config_path : option string)
    (options : LaunchOptions) : Launched ExitStatus :=
  _ ← on_host_files (prepare_claude_launch dir (fresh_start options));
  r ← start_reporter Claude workspace dir socket_path config_path;
  let source := claude_source env dir in
  match extra_args options with
  | _ :: _ => s ← spawn_claude dir false (extra_args options) source r; mret s.1
  | [] =>
      if fresh_start options then s ← spawn_claude dir false [] source r; mret s.1 else
      '(primary, r) ← spawn_claude dir true (extra_args options) source r;
      if exit_success primary then mret primary else
      s ← spawn_claude dir false [] source r; mret s.1
  end.

Definition run_codex (dir workspace socket_path ax_bin : string) (config_path : option string)
    (options : LaunchOptions) : Launched ExitStatus :=
  codex_home ← on_host_files (act_map_err LCodexHome
    (prepare_home_for_launch env short_hash workspace dir socket_path ax_bin config_path (fresh_start options)));
  r ← start_reporter Codex workspace dir socket_path config_path;
  s ← run_reported "codex"
        (mkCommand "codex" None (codex_command_args dir (extra_args options)) [("CODEX_HOME", codex_home)])
        (CodexMetricSource codex_home) r;
  mret s.1.

Definition run_in_dir_with_options (runtime_name dir workspace socket_path ax_bin : string)
    (config_path : option string) (options : LaunchOptions) : Launched ExitStatus :=
  match normalize runtime_name with
  | None => throw (LUnsupportedRuntime runtime_name)
  | Some Claude => run_claude dir workspace socket_path config_path options
  | Some Codex => run_codex dir workspace socket_path ax_bin config_path options
  end.

Definition run_with_options (runtime_name workspace socket_path ax_bin : string)
    (config_path : option string) (options : LaunchOptions) : Launched ExitStatus :=
  dir ← lift (map_err LResolveCwd (cwd env));
  run_in_dir_with_options runtime_name dir workspace socket_path ax_bin config_path options.
End launch.
