(* ===== verification/AgentFacts.v ===== *)
(** * Quoting, transcripts and reports of the launcher.

    The theorems about [Agent]: quoted arguments survive a POSIX shell, context sizes are
    exact, the transcript read is the newest, and every report is one the daemon of [Server]
    accepts. *)

From Stdlib Require Import Ascii Floats.SpecFloat.
From stdpp Require Import prelude strings list gmap.
From S2P Require Import Prelude RustStr Proto Concrete TaskHelpers Memory History Registry SessionManager Daemon Handlers Server ServerExamples.
From S2P Require Import Paths ConfigSchema Tmux Artifacts CodexFiles ErrorText UsageHistory UsageTrends McpHost RustText Agent.

Local Close Scope Z_scope.

(** ** Quoting: what a POSIX shell makes of it

    The words of a command line with single quotes and backslashes, as the shell command
    language defines them; any other character that is not a letter or a digit may mean
    something to the shell and is refused outside quotes. *)

Definition plain_char (a : ascii) : bool :=
  let n := code a in
  ((48 <=? n) && (n <=? 57) || (65 <=? n) && (n <=? 90) || (97 <=? n) && (n <=? 122))%N.

Definition end_word (cur : option (list ascii)) : list (list ascii) :=
  match cur with Some w => [w] | None => [] end.

Fixpoint shell_words (quoted : bool) (cur : option (list ascii)) (l : list ascii)
    : option (list (list ascii)) :=
  match l with
  | [] => if quoted then None else Some (end_word cur)
  | a :: r =>
      if quoted then
        if decide (a = squote) then shell_words false cur r
        else shell_words true (Some (default [] cur ++ [a])) r
      else if decide (a = squote) then shell_words true (Some (default [] cur)) r
      else if decide (a = backslash) then
        match r with
        | b :: r => if decide (b = nl) then None else shell_words false (Some (default [] cur ++ [b])) r
        | [] => None
        end
      else if decide (a = sp) then
        ws ← shell_words false None r;
        Some (end_word cur ++ ws)
      else if plain_char a then shell_words false (Some (default [] cur ++ [a])) r
      else None
  end.

(** The arguments a shell passes on. *)
Definition shell_argv (line : string) : option (list string) :=
  fmap (M := list) of_bytes <$> shell_words false None (bytes line).

Lemma bytes_shell_quote v :
  bytes (shell_quote v) = squote :: concat (quote_byte <$> bytes v) ++ [squote].
Proof.
  unfold shell_quote. destruct (is_empty v) eqn:E; [|by rewrite bytes_of_bytes].
  by apply is_empty_true in E as ->.
Qed.

Lemma shell_words_quoted l cur k :
  shell_words true (Some cur) (concat (quote_byte <$> l) ++ squote :: k)
  = shell_words false (Some (cur ++ l)) k.
Proof.
  revert cur. induction l as [|a l IH]; intros cur; cbn [fmap list_fmap concat app].
  - rewrite app_nil_r. cbn [shell_words]. by rewrite decide_True.
  - unfold quote_byte at 1. destruct (decide (a = squote)) as [->|Ha].
    + cbn [app shell_words]. rewrite decide_True by done.
      rewrite (decide_False (P := backslash = squote)) by done.
      rewrite (decide_True (P := backslash = backslash)) by done.
      rewrite (decide_False (P := squote = nl)) by done.
      rewrite (decide_True (P := squote = squote)) by done. cbn [default].
      rewrite IH. unfold id. by rewrite <-app_assoc.
    + cbn [app shell_words]. rewrite decide_False by done. cbn [default].
      rewrite IH. unfold id. by rewrite <-app_assoc.
Qed.

Lemma shell_words_quote v k :
  shell_words false None (bytes (shell_quote v) ++ k) = shell_words false (Some (bytes v)) k.
Proof.
  rewrite bytes_shell_quote. cbn [app shell_words]. rewrite decide_True by done.
  cbn [default]. rewrite <-app_assoc. apply (shell_words_quoted (bytes v) []).
Qed.

(** C22: Arguments quoted one by one and joined with spaces reach the program unchanged, whatever
    characters they hold and empty ones included. *)
Theorem shell_quote_roundtrip args :
  shell_argv (String.concat " " (shell_quote <$> args)) = Some args.
Proof.
  enough (shell_words false None (bytes (String.concat " " (shell_quote <$> args)))
          = Some (bytes <$> args)) as H.
  { unfold shell_argv. rewrite H. cbn. f_equal. rewrite <-list_fmap_compose.
    rewrite <-(list_fmap_id args) at 2. apply list_fmap_ext. intros i s _. apply of_bytes_bytes. }
  induction args as [|v args IH]; [done|].
  destruct args as [|v2 args].
  - change (String.concat " " (shell_quote <$> [v])) with (shell_quote v).
    by rewrite <-(app_nil_r (bytes (shell_quote v))), shell_words_quote.
  - change (String.concat " " (shell_quote <$> v :: v2 :: args))
      with (shell_quote v +:+ " " +:+ String.concat " " (shell_quote <$> v2 :: args)).
    rewrite !bytes_cat, shell_words_quote.
    change (bytes " ") with [sp]. cbn [app shell_words].
    rewrite (decide_False (P := sp = squote)), (decide_False (P := sp = backslash)) by done.
    rewrite (decide_True (P := sp = sp)) by done. rewrite IH. done.
Qed.

(** ** Sums of token counts *)

Lemma sum_stops vs : foldl (fun acc v =>
       acc ← acc;
       if (v <? 0)%Z then None
       else if (acc + v <=? i64_max)%Z then Some (acc + v)%Z else None) (None : option Z) vs = None.
Proof. by induction vs. Qed.

Lemma checked_sum_from a vs :
  (0 <= a <= i64_max)%Z ->
  foldl (fun acc v =>
       acc ← acc;
       if (v <? 0)%Z then None
       else if (acc + v <=? i64_max)%Z then Some (acc + v)%Z else None) (Some a) vs
  = if bool_decide (Forall (Z.le 0) vs) && (a + foldr Z.add 0 vs <=? i64_max)%Z
    then Some (a + foldr Z.add 0 vs)%Z else None.
Proof.
  revert a. induction vs as [|v vs IH]; intros a Ha.
  - cbn [foldl foldr]. rewrite Z.add_0_r, (proj2 (Z.leb_le a i64_max)) by lia.
    by rewrite bool_decide_true.
  - cbn [foldl foldr mbind option_bind]. destruct (Z.ltb_spec v 0) as [Hv|Hv].
    { rewrite sum_stops. rewrite bool_decide_false; [done|].
      intros Hall. apply Forall_inv in Hall. lia. }
    destruct (Z.leb_spec (a + v) i64_max) as [Hle|Hgt].
    + rewrite IH by lia. rewrite Z.add_assoc.
      rewrite (bool_decide_ext (Forall (Z.le 0) vs) (Forall (Z.le 0) (v :: vs))); [reflexivity|].
      rewrite Forall_cons. split; [intros; by split|by intros [_ ?]].
    + clear IH. rewrite sum_stops. case_bool_decide as Hall; [|reflexivity].
      apply Forall_cons in Hall as [_ Hall].
      assert (0 <= foldr Z.add 0 vs)%Z by (induction Hall; cbn [foldr]; lia).
      rewrite (proj2 (Z.leb_gt _ _)); [done|lia].
Qed.

(** The context size is the exact sum of the counters when none is negative and the sum fits
    an [i64], and otherwise unknown; it is never a wrapped number. *)
Theorem context_sum_is_exact vs :
  checked_non_negative_sum vs
  = if bool_decide (Forall (Z.le 0) vs) && (foldr Z.add 0 vs <=? i64_max)%Z
    then Some (foldr Z.add 0%Z vs) else None.
Proof.
  unfold checked_non_negative_sum. rewrite checked_sum_from by (unfold i64_max; lia).
  rewrite !Z.add_0_l. destruct (bool_decide _ && _) eqn:E; [|done]. cbn [option_keep].
  apply andb_true_iff in E as [Hall%bool_decide_eq_true _].
  rewrite (proj2 (Z.leb_le _ _)); [done|]. induction Hall; cbn [foldr]; lia.
Qed.

(** ** The newest transcript *)

Lemma components_le_total a b : components_le a b \/ components_le b a.
Proof.
  revert b. induction a as [|x a IH]; intros [|y b]; cbn; [tauto..|].
  destruct (decide (x = y)) as [->|Hne].
  - rewrite decide_True by done. apply IH.
  - rewrite decide_False by done. apply (total String.le).
Qed.
Lemma components_le_refl a : components_le a a.
Proof. by destruct (components_le_total a a). Qed.
Lemma components_le_trans a b c : components_le a b -> components_le b c -> components_le a c.
Proof.
  revert b c. induction a as [|x a IH]; intros [|y b] [|z c]; cbn; try done.
  destruct (decide (x = y)) as [->|Hxy], (decide (y = z)) as [->|Hyz]; try done.
  - by apply IH.
  - by rewrite decide_False by done.
  - intros H1 H2. destruct (decide (x = z)) as [->|Hxz]; [|by etrans].
    destruct Hyz. by apply (anti_symm String.le).
Qed.

(** The transcripts below a directory, with their times. *)
Fixpoint jsonl_files (dir : string) (d : Listing) : list (Z * string) :=
  match d with
  | Closed => []
  | Opened es => jsonl_listed dir es
  end
with jsonl_listed (dir : string) (es : Listed) : list (Z * string) :=
  match es with
  | ListEnd => []
  | ListBroken rest | ListUntyped _ rest => jsonl_listed dir rest
  | ListDir name d rest => jsonl_files (join dir name) d ++ jsonl_listed dir rest
  | ListFile name modified rest =>
      (if is_jsonl name then [(default 0%Z modified, join dir name)] else []) ++ jsonl_listed dir rest
  end.

(** Newer, or as new and first by path. *)
Definition beats (f g : Z * string) : Prop :=
  (g.1 < f.1)%Z \/ g.1 = f.1 /\ path_le f.2 g.2.
Lemma beats_trans f g h : beats f g -> beats g h -> beats f h.
Proof.
  unfold beats. intros [H1|[H1 H2]] [H3|[H3 H4]]; [left; lia..|right].
  split; [lia|]. unfold path_le in *. by eapply components_le_trans.
Qed.

Definition is_newest (files : list (Z * string)) (latest : option (Z * string)) : Prop :=
  match latest with
  | None => files = []
  | Some f => f ∈ files /\ forall g, g ∈ files -> beats f g
  end.

Lemma take_newer_spec files latest m p :
  is_newest files latest -> is_newest (files ++ [(m, p)]) (take_newer latest m p).
Proof.
  destruct latest as [[m0 p0]|]; cbn [is_newest take_newer].
  2: { intros ->. cbn. split; [by left|]. intros g [->|Hg]%elem_of_cons.
       - right. split; [done|apply components_le_refl].
       - by apply not_elem_of_nil in Hg. }
  intros [Hin Hmax]. unfold path_ltb.
  assert (forall b, b = ((m0 <? m) || (m =? m0) && negb (bool_decide (path_le p0 p)))%Z ->
    if b then beats (m, p) (m0, p0) else beats (m0, p0) (m, p)) as Hb.
  { intros b ->. destruct (Z.ltb_spec m0 m) as [Hlt|Hge]; cbn [orb]; [by left|].
    destruct (Z.eqb_spec m m0) as [->|Hne]; cbn [andb].
    - case_bool_decide as Hp; cbn [negb].
      + by right.
      + right. split; [done|]. destruct (components_le_total (components p) (components p0)); [done|].
        by destruct Hp.
    - left. cbn. lia. }
  specialize (Hb _ eq_refl). destruct (_ || _); cbn [is_newest].
  - split; [apply elem_of_app; right; by left|]. intros g [Hg|Hg]%elem_of_app.
    + eapply beats_trans; [exact Hb|by apply Hmax].
    + apply list_elem_of_singleton in Hg as ->. right. split; [done|apply components_le_refl].
  - split; [apply elem_of_app; by left|]. intros g [Hg|Hg]%elem_of_app; [by apply Hmax|].
    by apply list_elem_of_singleton in Hg as ->.
Qed.

Scheme Listing_mind := Induction for Listing Sort Prop
with Listed_mind := Induction for Listed Sort Prop.
Combined Scheme listing_ind from Listing_mind, Listed_mind.

Lemma collect_newest :
  (forall d dir files latest, is_newest files latest ->
     is_newest (files ++ jsonl_files dir d) (collect_latest_jsonl dir d latest))
  /\ (forall es dir files latest, is_newest files latest ->
     is_newest (files ++ jsonl_listed dir es) (collect_listed dir es latest)).
Proof.
  apply listing_ind; cbn [collect_latest_jsonl collect_listed jsonl_files jsonl_listed].
  - intros dir files latest Hn. by rewrite app_nil_r.
  - intros es IH dir files latest Hn. by apply IH.
  - intros dir files latest Hn. by rewrite app_nil_r.
  - intros rest IH dir files latest Hn. by apply IH.
  - intros name rest IH dir files latest Hn. by apply IH.
  - intros name d IHd rest IH dir files latest Hn. rewrite app_assoc. by apply IH, IHd.
  - intros name modified rest IH dir files latest Hn. destruct (is_jsonl name).
    + rewrite app_assoc. by apply IH, take_newer_spec.
    + by apply IH.
Qed.

(** The transcript a snapshot is read from is, of all the [.jsonl] files below the
    directory, one with the latest modification time, and of those the first by path;
    there is none exactly when there are no such files. *)
Theorem snapshot_reads_the_newest_transcript {F} `{!AgentFs F} (fs : F) root :
  let files := jsonl_files root (af_listing fs root) in
  match latest_jsonl_under fs root with
  | None => files = []
  | Some path => exists m, (m, path) ∈ files /\ forall g, g ∈ files -> beats (m, path) g
  end.
Proof.
  cbv zeta. pose proof (proj1 collect_newest (af_listing fs root) root [] None eq_refl) as Hn.
  unfold latest_jsonl_under. cbn [app] in Hn.
  destruct (collect_latest_jsonl root (af_listing fs root) None) as [[m p]|]; cbn in *; eauto.
Qed.

(** ** Reports and the daemon *)

Lemma sanitized_payload_valid {C} (r : Reporter C) state s now :
  validate_agent_status_metrics_payload (payload_for r state (sanitized s) now) = Ok tt.
Proof.
  unfold validate_agent_status_metrics_payload, payload_for, sanitized.
  cbn [sm_context_tokens sm_context_window sm_usage_ratio rs_context_tokens rs_context_window rs_usage_ratio].
  unfold non_negative, positive, valid_ratio, option_keep.
  destruct (rs_context_tokens s) as [t|]; [destruct (Z.leb_spec 0 t)|];
    [rewrite (proj2 (Z.ltb_ge t 0)) by lia| |];
  (destruct (rs_context_window s) as [v|]; [destruct (Z.ltb_spec 0 v)|];
    [rewrite (proj2 (Z.leb_gt v 0)) by lia| |]);
  (destruct (rs_usage_ratio s) as [q|]; [|done]);
  (destruct (is_finite q) eqn:E1; cbn [andb]; [|done]);
  (destruct (f64_nonneg q && SFleb q f64_one) eqn:E2; [|done]);
  by rewrite E1, E2.
Qed.

(** A title is made of seven fields. *)
Lemma title_ext m m' :
  (sm_agent m, sm_workspace m, sm_compact_eligible m, sm_context_tokens m, sm_context_window m,
   sm_usage_ratio m, sm_work_state m)
  = (sm_agent m', sm_workspace m', sm_compact_eligible m', sm_context_tokens m', sm_context_window m',
     sm_usage_ratio m', sm_work_state m') ->
  formatted_status_title m = formatted_status_title m'.
Proof.
  intros [= H1 H2 H3 H4 H5 H6 H7]. unfold formatted_status_title, effective_usage_ratio.
  by rewrite H1, H2, H3, H4, H5, H6, H7.
Qed.

Lemma updated_title ws m now reg e :
  entries reg !! ws = Some e -> sm_agent m <> "" ->
  exists m' reg', update_status_metrics_at ws m now reg = (Some m', reg')
  /\ sm_status_title m' = formatted_status_title (m <| sm_workspace := ws |>)
  /\ (wi_status_text ∘ e_info) <$> entries reg' !! ws = Some (sm_status_title m').
Proof.
  intros He Hag. unfold update_status_metrics_at. rewrite He. cbv zeta. fsimpl.
  rewrite (proj2 (is_empty_false _) Hag). eexists _, _. split; [reflexivity|]. split.
  - fsimpl. by apply title_ext.
  - fsimpl. rewrite lookup_insert_eq. done.
Qed.

Section accepted.
Context {T : Type} `{!TextOps} `{!JsonCodec (list Task)} `{!JsonCodec HistoryEntry}
        `{!JsonCodec (list Memory)} `{!JsonCodec (gmap string string)} `{!SessionBackend T}.

(** C19: Whatever a transcript says (negative or absurd counts, ratios that are no numbers), the
    report made of it passes the daemon's validation, is stored for the workspace of the
    launcher, and the title the daemon gives back is the one the launcher would have shown
    by itself: a window title does not depend on the daemon being reachable. *)
Theorem status_reports_are_accepted {C} (r : Reporter C) state s now inp gs (d : Daemon T) :
  trim (rp_workspace r) = rp_workspace r -> rp_workspace r <> "" ->
  is_Some (entries (d_registry d) !! rp_workspace r) ->
  let p := payload_for r state (sanitized s) now in
  exists m d', handle_request inp gs (rp_workspace r) (UpdateAgentStatusMetrics p) d = (Ok (RMetrics m true), d')
  /\ sm_status_title m = local_status_title r p
  /\ (wi_status_text ∘ e_info) <$> entries (d_registry d') !! rp_workspace r
     = Some (local_status_title r p).
Proof.
  intros Htrim Hne [e He] p. cbn [handle_request].
  unfold handle_update_agent_status_metrics, require_registered.
  rewrite (proj2 (is_empty_false _) Hne). 
  assert (validate_agent_status_metrics_payload p = Ok tt) as -> by apply sanitized_payload_valid.
  unfold status_metrics_target_workspace.
  change (sm_workspace p) with (rp_workspace r). rewrite Htrim, (proj2 (is_empty_false _) Hne), String.eqb_refl.
  repeat (unfold mbind, Daemon.M_bind, mret, Daemon.M_ret, Daemon.lift, with_state; cbv beta iota).
  cbn [negb]. cbv beta iota zeta.
  match goal with |- context [update_status_metrics_at _ ?m0 _ _] => set (m := m0) end.
  assert (sm_agent m = rp_workspace r) as Hag by exact Htrim.
  destruct (updated_title (rp_workspace r) m (i_now inp) (d_registry d) e He) as (m' & reg' & -> & Htitle & Htext).
  { by rewrite Hag. }
  assert (formatted_status_title (m <| sm_workspace := rp_workspace r |>) = local_status_title r p) as Heq.
  { apply title_ext. change (sm_agent (m <| sm_workspace := rp_workspace r |>)) with (sm_agent m).
    by rewrite Hag. }
  rewrite Heq in Htitle. rewrite Htitle in Htext.
  eexists _, _. split; [reflexivity|]. split; [exact Htitle|exact Htext].
Qed.
End accepted.

(** ** The launcher ends with its child *)

(** A child that ends by itself: [polls_left] counts the sleeps until it has, and nothing the
    launcher does in between, reports included, holds it up. *)
Class EndingChild (W F C : Type) `{!LaunchHost W F} `{!StatusMetricsClient C W} := {
  polls_left : W -> nat;
  child_status : ExitStatus;
  child_running w n : polls_left w = S n ->
    exists w', host_try_wait w = (Ok None, w') /\ polls_left w' = S n;
  child_ended w : polls_left w = 0 -> exists w', host_try_wait w = (Ok (Some child_status), w') /\ polls_left w' = 0;
  child_instant w : polls_left (host_instant w).2 = polls_left w;
  child_sleep n w : polls_left (host_sleep n w) = pred (polls_left w);
  child_tmux args w : polls_left (host_tmux args w).2 = polls_left w;
  child_client p c w : exists r c' w',
    update_agent_status_metrics p c w = Some (r, c', w') /\ polls_left w' = polls_left w;
}.

Section ending.
Context {W F C : Type} `{!LaunchHost W F} `{!AgentFs F} `{!AgentJson} `{!StatusMetricsClient C W}.
Context `{!EndingChild W F C}.
Implicit Types (r : Reporter C) (w : W).

Lemma run_tmux_polls op args w : polls_left (run_tmux op args w).2 = polls_left w.
Proof.
  unfold run_tmux. pose proof (child_tmux args w) as Hp.
  destruct (host_tmux args w) as [[out|e] w']; cbn in *; [|done]. by destruct (out_success out).
Qed.
Lemma set_title_polls ws title w : polls_left (set_status_title ws title w).2 = polls_left w.
Proof.
  cbn [set_status_title TmuxStatusTitle]. unfold mbind, Act.Act_bind.
  pose proof (run_tmux_polls "rename-window" ["rename-window"; "-t"; session_name ws; title] w) as Hp.
  destruct (run_tmux _ _ w) as [[[]|e] w']; cbn [snd] in *; [|done]. by rewrite run_tmux_polls.
Qed.

Lemma emit_polls state s force now r w :
  exists r' w', emit state s force now r w = Some (r', w') /\ polls_left w' = polls_left w
  /\ (force = true -> rp_last_emitted r' = Some (mkEmitted state (sanitized s))).
Proof.
  unfold emit. destruct (negb force && _) eqn:Eskip.
  { exists r, w. split; [done|]. split; [done|]. by intros ->. }
  assert (exists title c w', ask_title r (payload_for r state (sanitized s) now) w = Some (title, c, w')
            /\ polls_left w' = polls_left w) as (title & c & w1 & -> & Hw1).
  { unfold ask_title. destruct (rp_client r) as [c|]; [|by eauto].
    destruct (child_client (payload_for r state (sanitized s) now) c w) as (res & c' & w' & -> & Hw).
    destruct res; eauto. }
  cbn [mbind option_bind]. pose proof (set_title_polls (rp_workspace r) title w1) as Hw2.
  destruct (set_status_title (rp_workspace r) title w1) as [res w2]. cbn [snd] in Hw2.
  eexists _, _. split; [reflexivity|]. split; [congruence|]. intros _. done.
Qed.

Lemma watch_child_ends polls next source r w :
  polls_left w < polls ->
  exists r' w', watch_child polls next source r w = Some (Ok child_status, r', w').
Proof.
  revert next r w. induction polls as [|polls IH]; intros next r w Hlt; [lia|]. cbn [watch_child].
  destruct (polls_left w) as [|n] eqn:En.
  { destruct (child_ended w En) as (w' & -> & _). eauto. }
  destruct (child_running w n En) as (w1 & -> & Hw1).
  pose proof (child_instant w1) as Hi. destruct (host_instant w1) as [now w2]. cbn [snd] in Hi.
  destruct (Z.leb next now).
  - unfold emit_now. destruct (emit_polls Busy (snapshot source (host_files w2)) false (host_utc w2) r w2)
      as (r' & w3 & -> & Hw3 & _). cbn [mbind option_bind].
    apply IH. rewrite child_sleep. lia.
  - apply IH. rewrite child_sleep. lia.
Qed.

(** C20: The launcher ends when its child has ended, with the child's exit status, whether or not
    the daemon answers and tmux obeys; its last report then says that the agent is idle. *)
Theorem launcher_ends_with_its_child polls cmd source r w w1 :
  host_spawn cmd w = (Ok tt, w1) -> polls_left w1 < polls ->
  exists r' w2 w', run_command_with_status polls cmd source r w = Some (Ok child_status, r', w')
  /\ rp_last_emitted r' = Some (mkEmitted Idle (sanitized (snapshot source (host_files w2)))).
Proof.
  intros Hspawn Hlt. unfold run_command_with_status. rewrite Hspawn. unfold emit_now.
  destruct (emit_polls Busy (snapshot source (host_files w1)) true (host_utc w1) r w1)
    as (r1 & w2 & -> & Hw2 & _). cbn [mbind option_bind].
  pose proof (child_instant w2) as Hi. destruct (host_instant w2) as [now w3]. cbn [snd] in Hi.
  destruct (watch_child_ends polls (now + STATUS_REFRESH_INTERVAL)%Z source r1 w3) as (r2 & w4 & ->); [lia|].
  cbn [mbind option_bind].
  destruct (emit_polls Idle (snapshot source (host_files w4)) true (host_utc w4) r2 w4)
    as (r3 & w5 & -> & _ & Hlast). cbn [mbind option_bind].
  eexists _, w4, _. split; [reflexivity|]. by apply Hlast.
Qed.
End ending.

(** ** Concrete launches *)

#[local] Existing Instances QuickTasks QuickMemories QuickHistory.

(** A transcript with counts no daemon would take. *)
Definition odd_snapshot : RuntimeMetricSnapshot :=
  mkSnapshot " s1 " (Some (-1)%Z) (Some 200000%Z) (Some S754_nan) None (Some true).
Definition bob_reporter : Reporter Z := mkReporter Codex "bob" None None.

Lemma status_reports_are_accepted_witness :
  exists m d',
    handle_request (demo_inputs 7) no_git "bob"
      (UpdateAgentStatusMetrics (payload_for bob_reporter Busy (sanitized odd_snapshot) (secs 7)))
      (sv_daemon run4) = (Ok (RMetrics m true), d')
    /\ sm_status_title m = "ax:bob ctx=?/200k ?% busy compact=eligible".
Proof.
  destruct (status_reports_are_accepted bob_reporter Busy odd_snapshot (secs 7) (demo_inputs 7) no_git
    (sv_daemon run4) ltac:(by vm_compute) ltac:(done) ltac:(apply (bool_decide_unpack _); by vm_compute))
    as (m & d' & Hok & Htitle & _).
  exists m, d'. split; [exact Hok|]. rewrite Htitle. by vm_compute.
Defined.

(** A machine whose child ends after the given number of sleeps; the log keeps the tmux
    commands, the newest first. *)
Record MiniHost := mkMiniHost {
  mh_left : nat;
  mh_clock : Z;
  mh_log : list (list string);
}.
#[local] Instance MiniHost_launch : LaunchHost MiniHost Listing := {|
  host_spawn _ w := (Ok tt, w);
  host_try_wait w := (Ok (match mh_left w with O => Some (Some 0%Z) | S _ => None end), w);
  host_instant w := (mh_clock w, w);
  host_utc w := mh_clock w;
  host_sleep n w := mkMiniHost (pred (mh_left w)) (mh_clock w + n) (mh_log w);
  host_tmux args w := (Ok (mkOutput true "" ""), mkMiniHost (mh_left w) (mh_clock w) (args :: mh_log w));
  host_files _ := Opened (ListFile "a.jsonl" (Some 1%Z) (ListFile "b.jsonl" (Some 2%Z) ListEnd));
  host_put_files _ w := w;
|}.
#[local] Instance MiniFs : AgentFs Listing := {|
  af_listing fs _ := fs;
  af_lines _ path := Ok [Ok path];
|}.
#[local] Instance MiniJson : AgentJson := {|
  decode_claude_record line := Some (mkClaudeTranscriptRecord line (Some 5%Z) (Some (mkClaudeUsage 1000 200 30 40)));
  decode_codex_record _ := None;
  decode_session_meta _ := None;
  decode_codex_event _ := None;
|}.
(** A daemon that refuses. *)
#[local] Instance MiniClient : StatusMetricsClient Z MiniHost := {|
  update_agent_status_metrics _ c w := Some (Err (SDaemon "no"), c, w);
|}.
#[local] Instance MiniHost_ending : EndingChild MiniHost Listing Z.
Proof.
  refine {| polls_left := mh_left; child_status := Some 0%Z |}; try done.
  - intros w n Hn. exists w. cbn. by rewrite Hn.
  - intros w Hn. exists w. cbn. by rewrite Hn.
  - intros p c w. by exists (Err (SDaemon "no")), c, w.
Defined.

Definition mini_command : Command := mkCommand "claude" (Some "/w") [] [].
Definition mini_reporter : Reporter Z := mkReporter Claude "w" (Some 2%Z) None.

Example newest_transcript_is_read :
  rs_session_id (snapshot (ClaudeMetricSource (Some "/p")) (host_files (mkMiniHost 0 0 []))) = "/p/b.jsonl"
  /\ rs_context_tokens (snapshot (ClaudeMetricSource (Some "/p")) (host_files (mkMiniHost 0 0 [])))
     = Some 1270%Z.
Proof. by vm_compute. Qed.

Lemma launcher_ends_with_its_child_witness :
  exists r' w2 w', run_command_with_status 31 mini_command (ClaudeMetricSource (Some "/p")) mini_reporter
                     (mkMiniHost 30 0 []) = Some (Ok (Some 0%Z), r', w')
  /\ rp_last_emitted r'
     = Some (mkEmitted Idle (sanitized (snapshot (ClaudeMetricSource (Some "/p")) (host_files (W := MiniHost) w2)))).
Proof.
  assert (host_spawn mini_command (mkMiniHost 30 0 []) = (Ok tt, mkMiniHost 30 0 [])) as Hspawn by reflexivity.
  assert (polls_left (mkMiniHost 30 0 []) < 31) as Hleft by (cbn; lia).
  destruct (launcher_ends_with_its_child 31 mini_command (ClaudeMetricSource (Some "/p")) mini_reporter
              (mkMiniHost 30 0 []) _ Hspawn Hleft) as (r' & w2 & w' & Hrun & Hlast).
  exists r', w2, w'. split; [exact Hrun|exact Hlast].
Defined.

(** A run of six seconds sets the title twice: the refresh after five found nothing new. *)
Example mini_run_titles :
  (fun x => length (mh_log x.2)) <$>
    run_command_with_status 31 mini_command (ClaudeMetricSource (Some "/p")) mini_reporter (mkMiniHost 30 0 [])
  = Some 4.
Proof. by vm_compute. Qed.
