(* ===== verification/McpTools.v ===== *)
(** * The tools of the agent-side server (crates/ax-mcp-server/src/server.rs).

    One definition per tool.  A tool is a computation over a state with a daemon link
    ([DaemonLink]) and the files and tmux of the machine ([Machine]); recursion through
    configuration files and the polling loop have fuel. *)

From stdpp Require Import prelude strings list gmap sorting.
From S2P Require Import Prelude Act RustStr Proto TaskHelpers Memory Registry SessionManager.
From S2P Require Import Handlers Paths ConfigSchema ConfigTree Tmux Artifacts WorkspaceManager.
From S2P Require Import Reconcile Dispatch ErrorText TeamReconfigure Usage UsageHistory UsageTrends.
From S2P Require Import TeamHandlers McpClient McpScope McpPlanner McpHost RustText.

Definition run_map_err {E E' S A} (f : E -> E') (m : Run E S A) : Run E' S A := fun s =>
  match m s with
  | Some (r, s) => Some (map_err f r, s)
  | None => None
  end.
(** [match m { Ok(v) => .., Err(e) => .. }]: the error becomes a value. *)
Definition run_try {E E' S A} (m : Run E S A) : Run E' S (result E A) := fun s =>
  match m s with
  | Some (r, s) => Some (Ok r, s)
  | None => None
  end.

(** A computation that needs no fuel. *)
Definition act_run {E S A} (m : Act E S A) : Run E S A := fun s => Some (m s).

(** ** Requests of tools *)

Record CreateTaskRequest := mkCreateTaskRequest {
  ctq_title : string;
  ctq_description : option string;
  ctq_assignee : string;
  ctq_parent_task_id : option string;
  ctq_start_mode : option string;
  ctq_workflow_mode : option string;
  ctq_priority : option string;
  ctq_stale_after_seconds : option Z;
}.

Record RememberMemoryRequest := mkRememberMemoryRequest {
  rmq_content : string;
  rmq_scope : option string;
  rmq_kind : option string;
  rmq_subject : option string;
  rmq_tags : list string;
  rmq_supersedes_ids : list string;
}.

Record MemoryQueryRequest := mkMemoryQueryRequest {
  mqr_scopes : list string;
  mqr_kind : option string;
  mqr_tags : list string;
  mqr_include_superseded : bool;
  mqr_limit : Z;
}.

Section tools.
Context {S F T : Type} `{!DaemonLink S} `{!Machine S F T} `{!FileSystem F} `{!ArtifactFs F} `{!SurveyFs F}.
Context `{!JsonCodec McpConfig} `{!JsonCodec RuntimeState}.
Context `{!YamlCodec Config} `{!YamlCodec ManagedOverlay} `{!TextOps} `{!SysText} `{!ToolText}.
Context `{!CodexHome F} `{!Prompts F} `{!Tmux T}.
(** [workspace] is the caller, [config_path] the base config of the server. *)
Context (env : Env) (hash_text : string -> string) (socket_path ax_bin : string).
Context (workspace : string) (config_path : option string) (fuel : nat).

Definition Tool (A : Type) : Type := Run ToolFailure S A.

Definition request (a : Ask) : Run DaemonClientError S Answer := fun h =>
  Some (link_request a h).

(** [request::<_, R>]: an answer of another shape does not decode. *)
Definition request_as {A} (shape : Answer -> option A) (a : Ask) : Run DaemonClientError S A :=
  ans ← request a;
  lift (match shape ans with
        | Some v => Ok v
        | None => Err (CEncode mismatch_text)
        end).
Definition ask {A} (shape : Answer -> option A) (a : Ask) : Tool A :=
  run_map_err tool_error (request_as shape a).

Definition as_status (a : Answer) : option string :=
  match a with AnsDaemon (RStatus s) => Some s | _ => None end.
Definition as_task (a : Answer) : option Task :=
  match a with AnsDaemon (RTask t) => Some t | _ => None end.
Definition as_tasks (a : Answer) : option (list Task) :=
  match a with AnsDaemon (RTasks l) => Some l | _ => None end.
Definition as_memory (a : Answer) : option Memory :=
  match a with AnsDaemon (RMemory m) => Some m | _ => None end.
Definition as_memories (a : Answer) : option (list Memory) :=
  match a with AnsDaemon (RMemories l) => Some l | _ => None end.
Definition as_workspaces (a : Answer) : option (list WorkspaceInfo) :=
  match a with AnsDaemon (RWorkspaces l) => Some l | _ => None end.
Definition as_sent (a : Answer) : option string :=
  match a with AnsDaemon (RSent id _) => Some id | _ => None end.
Definition as_messages (a : Answer) : option (list Message) :=
  match a with AnsDaemon (RMessages l) => Some l | _ => None end.
Definition as_team_state (a : Answer) : option TeamReconfigureState :=
  match a with AnsTeamState s => Some s | _ => None end.

Definition bad_params {A} (message : string) : Tool A := throw (ToolErr (invalid_params message)).
Definition bad_state {A} (message : string) : Tool A := throw (ToolErr (internal_error message)).
Definition params {A} (r : result string A) : Tool A :=
  lift (map_err (fun e => ToolErr (invalid_params e)) r).
Definition of_world {A} (f : World F T -> A) : Tool A := fun h => Some (Ok (f (machine h)), h).
Definition reply (text : string) : Tool CallToolResult := mret (success text).
Definition reply_json (v : Json) : Tool CallToolResult := reply (json_pretty v).

(** ** Shared values and status *)

Definition set_shared_value (key value : string) : Tool CallToolResult :=
  _ ← ask as_status (AskDaemon (SetShared key value));
  reply (json_compact (JObject [("ok", JBool true); ("key", JString key)])).

Definition get_shared_value (key : string) : Tool CallToolResult :=
  '(key, value, found) ←
    ask (fun a => match a with AnsDaemon (RShared k v f) => Some (k, v, f) | _ => None end)
      (AskDaemon (GetShared key));
  reply_json (JObject [("key", JString key); ("value", JString value); ("found", JBool found)]).

Definition list_shared_values : Tool CallToolResult :=
  values ← ask (fun a => match a with AnsDaemon (RSharedList l) => Some l | _ => None end)
             (AskDaemon ListShared);
  reply_json (JObject (prod_map id JString <$> values)).

Definition list_workspaces : Tool CallToolResult :=
  active ← ask as_workspaces (AskDaemon ListWorkspaces);
  reply_json (JObject [("workspace", JString workspace); ("count", jlen active);
                       ("workspaces", JArray (workspace_json <$> active))]).

Definition set_status (status : string) : Tool CallToolResult :=
  _ ← ask as_status (AskDaemon (SetStatus status));
  reply (json_compact (JObject [("ok", JBool true); ("status", JString status)])).

(** ** Memories *)

Definition scope_error {A} (m : World F T -> option (result ScopeError A)) : Tool A := fun h =>
  match m (machine h) with
  | Some r => Some (map_err (fun e => ToolErr (invalid_params (to_string e))) r, h)
  | None => None
  end.

Definition remember_memory (req : RememberMemoryRequest) : Tool CallToolResult :=
  let scope_raw := default "workspace" (rmq_scope req) in
  scope ← scope_error (fun w => resolve env (files w) fuel scope_raw workspace config_path);
  memory ← ask as_memory (AskDaemon (RememberMemory scope (default "" (rmq_kind req))
             (default "" (rmq_subject req)) (rmq_content req) (rmq_tags req) (rmq_supersedes_ids req)));
  reply_json (memory_json memory).

Definition supersede_memory (req : RememberMemoryRequest) : Tool CallToolResult :=
  if decide (rmq_supersedes_ids req = [])
  then bad_params "supersedes_ids must contain at least one memory ID"
  else remember_memory req.

Definition memory_query (req : MemoryQueryRequest) : Tool CallToolResult :=
  scopes ← scope_error (fun w => resolve_many env (files w) fuel (mqr_scopes req) workspace config_path);
  memories ← ask as_memories (AskDaemon (RecallMemories
               (mkQuery scopes (default "" (mqr_kind req)) (mqr_tags req)
                  (mqr_include_superseded req) (mqr_limit req))));
  reply_json (JObject [("scopes", JArray (JString <$> scopes)); ("count", jlen memories);
                       ("memories", JArray (memory_json <$> memories))]).

Definition recall_memories (req : MemoryQueryRequest) : Tool CallToolResult := memory_query req.
Definition list_memories (req : MemoryQueryRequest) : Tool CallToolResult := memory_query req.

(** ** Messages *)

Definition dispatch_path : string := default "" config_path.

Definition send_message (to message : string) : Tool CallToolResult :=
  message_id ← ask as_sent (AskDaemon (SendMessage to message dispatch_path));
  reply ("Message sent to " +:+ debug_str to +:+ " (id: " +:+ message_id +:+ ")").

Definition no_pending_messages_text : string :=
  "No pending messages." +:+ newline +:+ newline
  +:+ "[ax] Message inbox and task store are separate. Before reporting no work, check assigned pending tasks with list_workspace_tasks(workspace="
  +:+ quoted workspace +:+ ", view=" +:+ quoted "assigned" +:+ ", status=" +:+ quoted "pending"
  +:+ ") or list_tasks(assignee=" +:+ quoted workspace +:+ ", status=" +:+ quoted "pending" +:+ ").".

Definition message_text (msg : Message) : string :=
  "From: " +:+ m_from msg +:+ newline +:+ "Time: " +:+ hms (m_created_at msg) +:+ newline
  +:+ m_content msg +:+ newline +:+ newline +:+ "---" +:+ newline +:+ newline.

Definition read_messages (limit : option Z) (from : option string) : Tool CallToolResult :=
  messages ← ask as_messages (AskDaemon (ReadMessages (default 10%Z limit) (default "" from)));
  match messages with
  | [] => reply no_pending_messages_text
  | _ => reply (show_len messages +:+ " message(s):" +:+ newline +:+ newline
                +:+ String.concat "" (message_text <$> messages))
  end.

Definition broadcast_message (message : string) : Tool CallToolResult :=
  recipients ← ask (fun a => match a with AnsDaemon (RBroadcast l _) => Some l | _ => None end)
                 (AskDaemon (Broadcast message dispatch_path));
  match recipients with
  | [] => reply "No other workspaces to broadcast to."
  | _ => reply ("Broadcast sent to " +:+ show_len recipients +:+ " workspace(s): "
                +:+ String.concat ", " recipients)
  end.

(** ** Tasks *)

Definition create_payload (req : CreateTaskRequest) : CreateTaskPayload :=
  mkCreateTaskPayload (ctq_title req) (default "" (ctq_description req)) (ctq_assignee req)
    (default "" (ctq_parent_task_id req)) (default "" (ctq_start_mode req))
    (default "" (ctq_workflow_mode req)) (default "" (ctq_priority req))
    (default 0%Z (ctq_stale_after_seconds req)).

Definition check_lifecycle (req : CreateTaskRequest) : Tool unit :=
  lift (map_err ToolErr (validate_lifecycle_options (ctq_start_mode req) (ctq_workflow_mode req)
                           (ctq_priority req) (ctq_stale_after_seconds req))).

Definition create_task (req : CreateTaskRequest) : Tool CallToolResult :=
  _ ← check_lifecycle req;
  task ← ask as_task (AskDaemon (CreateTask (create_payload req)));
  reply_json (task_json task).

Definition start_task (req : CreateTaskRequest) (message : string) : Tool CallToolResult :=
  _ ← check_lifecycle req;
  resp ← run_try (request_as (fun a => match a with
                                       | AnsDaemon (RStarted t id st) => Some (t, id, st)
                                       | _ => None
                                       end) (AskDaemon (StartTask (create_payload req) message)));
  match resp with
  | Ok (task, message_id, status) => reply_json (started_json task message_id status)
  | Err e => mret (daemon_tool_execution_error e)
  end.

Definition non_empty_text (s : option string) : option string :=
  s ← s; if is_empty s then None else Some s.

Definition update_task (id : string) (status result log : option string) (confirm : option bool)
  : Tool CallToolResult :=
  status ← match non_blank status with
           | None => mret None
           | Some s => params (Some <$> parse_update_status s)
           end;
  task ← ask as_task (AskDaemon (UpdateTask id status (non_empty_text result) (non_empty_text log) confirm));
  reply_json (task_json task).

Definition report_task_progress (id note : string) : Tool CallToolResult :=
  let note := trim note in
  if is_empty note then bad_params "note is required" else
  current ← ask as_task (AskDaemon (GetTask id));
  let target_status := match t_status current with Pending => Some InProgress | _ => None end in
  task ← ask as_task (AskDaemon (UpdateTask id target_status None (Some note) None));
  reply_json (task_json task).

Definition report_task_failed (id reason : string) : Tool CallToolResult :=
  let reason := trim reason in
  if is_empty reason then bad_params "reason is required" else
  task ← ask as_task (AskDaemon (UpdateTask id (Some Failed) (Some ("failed: " +:+ reason))
                                   (Some ("failed: " +:+ reason)) None));
  reply_json (task_json task).

Definition report_task_blocked (id reason : string) (needs_help_from : option string)
  : Tool CallToolResult :=
  let reason := trim reason in
  if is_empty reason then bad_params "reason is required" else
  task ← ask as_task (AskDaemon (UpdateTask id (Some Blocked) None (Some ("blocked: " +:+ reason)) None));
  _ ← match non_blank needs_help_from with
      | Some peer =>
          let help_content := "[task-blocked-help] Task ID: " +:+ id +:+ " — blocked by: " +:+ reason in
          _ ← ask as_sent (AskDaemon (SendMessage peer help_content dispatch_path));
          mret tt
      | None => mret tt
      end;
  reply_json (task_json task).

(** The Completion Reporting Contract marker. *)
Definition completion_marker (dirty_files : list string) (residual_scope : option string)
  : result ErrorData string :=
  let clean_files := List.filter (fun s => negb (is_empty s)) (trim <$> dirty_files) in
  match clean_files with
  | [] => Ok "remaining owned dirty files=<none>"
  | _ =>
      match non_blank residual_scope with
      | Some residual =>
          Ok ("remaining owned dirty files=" +:+ String.concat ", " clean_files
              +:+ "; residual scope=" +:+ residual)
      | None => Err (invalid_params "residual_scope is required when dirty_files is non-empty")
      end
  end.

Definition report_task_completion (id summary : string) (dirty_files : list string)
    (residual_scope : option string) : Tool CallToolResult :=
  let summary := trim summary in
  if is_empty summary then bad_params "summary is required" else
  marker ← lift (map_err ToolErr (completion_marker dirty_files residual_scope));
  let result := summary +:+ newline +:+ newline +:+ marker in
  task ← ask as_task (AskDaemon (UpdateTask id (Some Completed) (Some result) None (Some true)));
  reply_json (task_json task).

Definition get_task (id : string) : Tool CallToolResult :=
  task ← ask as_task (AskDaemon (GetTask id));
  reply_json (task_json task).

Definition tasks_block (tasks : list Task) : Json :=
  JObject [("count", jlen tasks); ("tasks", JArray (task_json <$> tasks))].

Definition list_tasks (assignee created_by status : option string) : Tool CallToolResult :=
  status ← params (parse_list_status status);
  tasks ← ask as_tasks (AskDaemon (ListTasks (default "" assignee) (default "" created_by) status));
  match tasks with
  | [] => reply "No tasks found."
  | _ => reply_json (tasks_block tasks)
  end.

Definition list_workspace_tasks (ws : string) (view status : option string) : Tool CallToolResult :=
  let ws := trim ws in
  if is_empty ws then bad_params "workspace is required" else
  view ← params (parse_workspace_view view);
  status ← params (parse_list_status status);
  assigned ← match view with
             | ViewAssigned | ViewBoth =>
                 tasks ← ask as_tasks (AskDaemon (ListTasks ws "" status)); mret (Some tasks)
             | ViewCreated => mret None
             end;
  created ← match view with
            | ViewCreated | ViewBoth =>
                tasks ← ask as_tasks (AskDaemon (ListTasks "" ws status)); mret (Some tasks)
            | ViewAssigned => mret None
            end;
  let unique_ids : gset string :=
    list_to_set (t_id <$> (default [] assigned ++ default [] created)) in
  let status_label := default "" (status_rename <$> status) in
  reply_json (JObject
    ([("workspace", JString ws); ("view", JString (view_as_str view));
      ("unique_task_count", jnum (Z.of_nat (size unique_ids)))]
     ++ (if is_empty status_label then [] else [("status", JString status_label)])
     ++ match assigned with Some l => [("assigned", tasks_block l)] | None => [] end
     ++ match created with Some l => [("created", tasks_block l)] | None => [] end)).

Definition cancel_task (id : string) (reason : option string) (expected_version : option Z)
  : Tool CallToolResult :=
  task ← ask as_task (AskDaemon (CancelTask id (default "" reason) expected_version));
  reply_json (task_json task).

Definition remove_task (id : string) (reason : option string) (expected_version : option Z)
  : Tool CallToolResult :=
  task ← ask as_task (AskDaemon (RemoveTask id (default "" reason) expected_version));
  reply_json (task_json task).

Definition intervene_task (id action : string) (note : option string) (expected_version : option Z)
  : Tool CallToolResult :=
  '(task, action, status, message_id) ←
    ask (fun a => match a with AnsDaemon (RIntervened t a s i) => Some (t, a, s, i) | _ => None end)
      (AskDaemon (InterveneTask id action (default "" note) expected_version));
  reply_json (intervened_json task action status message_id).

(** ** Configuration *)

Definition resolve_base_config_path : Tool string := fun h =>
  match config_path with
  | Some path => Some (Ok path, h)
  | None =>
      match find_effective_config env (files (machine h)) None with
      | Some path => Some (Ok path, h)
      | None => Some (Err (ToolErr (internal_error "ax config file not found")), h)
      end
  end.

(** The overlay's effective config when the daemon reports one. *)
Definition resolve_tool_config_path : Tool string :=
  base ← resolve_base_config_path;
  resp ← run_try (request_as as_team_state (AskTeamState base));
  mret (match resp with
        | Ok state =>
            if feature_enabled state && negb (is_empty (trim (effective_config_path state)))
            then effective_config_path state else base
        | Err _ => base
        end).

Definition load_ax_config (context path : string) : Tool Config := fun h =>
  match load env (files (machine h)) fuel path with
  | Some r => Some (map_err (fun e => ToolErr (internal_error (context +:+ to_string e))) r, h)
  | None => None
  end.

(** ** Agents *)

Definition opt_field (key value : string) : list (string * Json) :=
  if is_empty value then [] else [(key, JString value)].
Definition some_field (key : string) (value : option string) : list (string * Json) :=
  match value with Some v => [(key, JString v)] | None => [] end.

Definition provider_fields (cfg : Config) (ws : Workspace) : list (string * Json) :=
  let name := trim (w_agent_provider ws) in
  if is_empty name then []
  else ("agent_provider", JString name)
       :: match agent_providers cfg !! name with
          | Some p => opt_field "model" (trim (ap_model p)) ++ opt_field "base_url" (trim (ap_base_url p))
                      ++ opt_field "web_search" (trim (ap_web_search p))
          | None => []
          end.

Definition agent_status_str (s : AgentStatus) : string :=
  match s with Online => "online" | Offline => "offline" | Disconnected => "disconnected" end.

Definition activity_fields (info : WorkspaceInfo) : list (string * Json) :=
  [("status", JString (agent_status_str (wi_status info)))]
  ++ opt_field "status_text" (wi_status_text info)
  ++ some_field "connected_at" (rfc3339 <$> wi_connected_at info)
  ++ some_field "last_activity_at" (rfc3339 <$> wi_last_activity_at info)
  ++ (if (0 <? wi_active_task_count info)%Z
      then [("active_task_count", jnum (wi_active_task_count info))] else [])
  ++ some_field "current_task_id" (wi_current_task_id info).

(** The entry of one configured agent; [idle] is what tmux says of its pane. *)
Definition agent_info (cfg : Config) (active : gmap string WorkspaceInfo) (idle : string -> bool)
    (name : string) (ws : Workspace) : list (string * Json) :=
  let manual := String.eqb (w_agent ws) "none" in
  let custom := negb manual && negb (is_empty (trim (w_agent ws))) in
  let launch_mode := if manual then "manual" else if custom then "custom" else "runtime" in
  let runtime_name := match normalize (w_runtime ws) with
                      | Some r => Artifacts.as_str r
                      | None => w_runtime ws
                      end in
  let entry := active !! name in
  let state := match entry with
               | Some _ => if idle name then "idle" else "running"
               | None => "offline"
               end in
  [("name", JString name); ("dir", JString (w_dir ws))]
  ++ opt_field "description" (w_description ws)
  ++ (if manual || custom then [] else [("runtime", JString runtime_name)])
  ++ provider_fields cfg ws
  ++ [("launch_mode", JString launch_mode)]
  ++ (if custom then [("command", JString (w_agent ws))] else [])
  ++ [("active", JBool (bool_decide (is_Some entry))); ("state", JString state)]
  ++ match entry with Some info => activity_fields info | None => [] end
  ++ (if manual || custom then []
      else some_field "instruction_file" (instruction_file <$> normalize (w_runtime ws)))
  ++ opt_field "instructions_preview" (instruction_preview (w_instructions ws)).

Definition by_name (active : list WorkspaceInfo) : gmap string WorkspaceInfo :=
  foldl (fun m ws => <[wi_name ws := ws]> m) ∅ active.

Definition json_name (fields : list (string * Json)) : string :=
  default "" (field "name" fields ≫= Usage.as_str).
Definition name_le (a b : list (string * Json)) : Prop := String.le (json_name a) (json_name b).
#[local] Instance name_le_dec : RelDecision name_le := fun a b => decide (String.le _ _).

Definition listed (active : gmap string WorkspaceInfo) (active_only : bool) (query name : string)
    (info : list (string * Json)) : bool :=
  negb (active_only && negb (bool_decide (is_Some (active !! name))))
  && (is_empty query || matches_agent_query info query).

Definition agent_entries (cfg : Config) (active : gmap string WorkspaceInfo) (idle : string -> bool)
    (active_only : bool) (query : string) : list (list (string * Json)) :=
  omap (fun '(name, ws) =>
          let info := agent_info cfg active idle name ws in
          if listed active active_only query name info then Some info else None)
    (btree_to_list (workspaces cfg)).

Definition list_agents (query : option string) (active_only : bool) : Tool CallToolResult :=
  cfg_path ← resolve_tool_config_path;
  cfg ← load_ax_config "load ax config: " cfg_path;
  active ← ask as_workspaces (AskDaemon ListWorkspaces);
  let query := default "" ((fun s => to_ascii_lowercase (trim s)) <$> query) in
  idle ← of_world (fun w name => is_idle name (tmux w));
  let agents := merge_sort name_le (agent_entries cfg (by_name active) idle active_only query) in
  reply_json (JObject
    [("project", JString (project cfg)); ("config_path", JString cfg_path);
     ("agent_count", jlen agents); ("active_count", jlen active);
     ("agents", JArray (JObject <$> agents))]).

Definition agent_lifecycle (name : string) (action : LifecycleAction) : Tool CallToolResult :=
  cfg_path ← resolve_tool_config_path;
  resp ← ask (fun a => match a with AnsDaemon (RAgentLifecycle r) => Some r | _ => None end)
           (AskDaemon (AgentLifecycle cfg_path name action));
  reply_json (lifecycle_json resp).

Definition start_agent (name : string) : Tool CallToolResult := agent_lifecycle name Start.
Definition stop_agent (name : string) : Tool CallToolResult := agent_lifecycle name Stop.
Definition restart_agent (name : string) : Tool CallToolResult := agent_lifecycle name Restart.

(** A tmux command on behalf of the tool. *)
Definition tmux_act (m : Act TmuxError T unit) (context : string) : Tool unit := fun h =>
  let '(r, t) := m (tmux (machine h)) in
  Some (map_err (fun e => ToolErr (internal_error (context +:+ to_string e))) r,
        set_machine (mkWorld (files (machine h)) t) h).

Definition interrupt_agent (name : string) : Tool CallToolResult :=
  let name := trim name in
  if is_empty name then bad_params "name is required" else
  running ← of_world (fun w => session_exists name (tmux w));
  if negb running then bad_state ("Workspace " +:+ debug_str name +:+ " is not running") else
  _ ← tmux_act (interrupt_workspace name) ("Failed to interrupt " +:+ debug_str name +:+ ": ");
  reply ("Interrupt sent to " +:+ debug_str name).

Definition send_keys_tool (ws : string) (keys : list string) : Tool CallToolResult :=
  let ws := trim ws in
  if is_empty ws then bad_params "workspace is required" else
  if decide (keys = []) then bad_params "keys must contain at least one entry" else
  running ← of_world (fun w => session_exists ws (tmux w));
  if negb running then bad_state ("Workspace " +:+ debug_str ws +:+ " is not running") else
  _ ← tmux_act (send_keys ws keys) ("Failed to send keys to " +:+ debug_str ws +:+ ": ");
  reply ("Sent " +:+ show_len keys +:+ " key(s) to " +:+ debug_str ws +:+ ": " +:+ String.concat " " keys).

(** ** Planning and teams *)

Definition get_team_state : Tool CallToolResult :=
  cfg_path ← resolve_base_config_path;
  state ← ask as_team_state (AskTeamState cfg_path);
  reply_json (team_state_json state).

Definition survey {A} (context : string) (f : F -> result IoError A) : Tool A := fun h =>
  Some (map_err (fun e => ToolErr (internal_error (context +:+ to_string e))) (f (files (machine h))), h).

Definition plan_initial_team_tool (project_dir : option string) : Tool CallToolResult :=
  project_dir ← params (resolve_project_dir env project_dir None);
  plan ← survey "plan_initial_team: " (fun fs => plan_initial_team fs project_dir);
  reply_json (initial_plan_json plan).

Definition plan_team_reconfigure_tool (project_dir : option string) : Tool CallToolResult :=
  cfg_path ← resolve_base_config_path;
  project_dir ← params (resolve_project_dir env project_dir (Some cfg_path));
  plan ← survey "plan_team_reconfigure: " (fun fs => plan_team_reconfigure fs project_dir cfg_path);
  reply_json (reconfigure_plan_json plan).

Definition dry_run_team_reconfigure (expected_revision : option Z)
    (changes : list TeamReconfigureChangeInput) : Tool CallToolResult :=
  if decide (length changes = 0%nat) then bad_params "changes must contain at least one entry" else
  cfg_path ← resolve_base_config_path;
  changes ← params (convert_changes changes);
  plan ← ask (fun a => match a with AnsTeamPlan p => Some p | _ => None end)
           (AskDryRunTeam (mkTeamPayload cfg_path expected_revision changes None));
  reply_json (team_plan_json plan).

Definition load_world {A} (context : string) (m : F -> option (result TreeError A))
  : Run string (World F T) A := fun w =>
  match m (files w) with
  | Some r => Some (map_err (fun e => context +:+ to_string e) r, w)
  | None => None
  end.

(** The reconcile pass of an applied change, in this process. *)
Definition reconcile_applied_team (ticket : TeamApplyTicket) : Run string (World F T) ReconcileReport :=
  let state := plan_state (tk_plan ticket) in
  let effective := trim (effective_config_path state) in
  let base := trim (base_config_path state) in
  effective_path ← lift (if negb (is_empty effective) then Ok effective
                         else if negb (is_empty base) then Ok base
                         else Err "team apply ticket is missing an effective config path");
  cfg ← load_world "load effective config: " (fun fs => load env fs fuel effective_path);
  tree ← load_world "load effective config tree: " (fun fs => load_tree env fs fuel effective_path);
  let include_root := negb (pn_disable_root_orchestrator tree) in
  desired ← lift (map_err (fun e => "build desired runtime state: " +:+ to_string e)
                    (build_desired_state_with_tree hash_text env cfg tree socket_path effective_path
                       include_root));
  let start := match tk_reconcile_mode ticket with StartMissing => true | ArtifactsOnly => false end in
  run_map_err to_string
    (act_run (reconcile_desired_state env hash_text (mkReconciler socket_path effective_path ax_bin)
                desired (mkReconcileOptions start start))).

(** A pass over the machine's files and sessions, its error as a value. *)
Definition on_world {E A} (m : Run E (World F T) A) : Tool (result E A) := fun h =>
  match m (machine h) with
  | Some (r, w) => Some (Ok r, set_machine w h)
  | None => None
  end.

Definition finish_team (p : FinishTeamReconfigurePayload)
  : Run DaemonClientError S TeamReconfigureState := request_as as_team_state (AskFinishTeam p).

(** From the ticket on: the reconcile pass and the report of its outcome. *)
Definition settle_team (ticket : TeamApplyTicket) : Tool CallToolResult :=
  reconcile ← on_world (reconcile_applied_team ticket);
  match reconcile with
  | Err err =>
      let actions := team_actions_from_reconcile_report empty_report in
      finalize ← run_try (finish_team (mkFinishPayload (tk_token ticket) false err actions));
      bad_state ("Team reconfiguration " +:+ debug_str (tk_token ticket)
                 +:+ " failed during reconcile: " +:+ err
                 +:+ match finalize with
                     | Err e => " (finalize error: " +:+ to_string e +:+ ")"
                     | Ok _ => ""
                     end)
  | Ok report =>
      let actions := team_actions_from_reconcile_report report in
      state ← run_map_err (fun e => ToolErr (internal_error
                ("Failed to finalize team reconfiguration " +:+ debug_str (tk_token ticket)
                 +:+ ": " +:+ to_string e)))
                (finish_team (mkFinishPayload (tk_token ticket) true "" actions));
      reply_json (JObject [("ticket", ticket_json ticket); ("state", team_state_json state);
                           ("reconcile", report_json report)])
  end.

Definition as_ticket (a : Answer) : option TeamApplyTicket :=
  match a with AnsTicket t => Some t | _ => None end.

Definition apply_team_reconfigure (expected_revision : option Z)
    (changes : list TeamReconfigureChangeInput) (reconcile_mode : option string)
  : Tool CallToolResult :=
  if decide (length changes = 0%nat) then bad_params "changes must contain at least one entry" else
  mode ← params (parse_reconcile_mode reconcile_mode);
  let mode := default ArtifactsOnly mode in
  cfg_path ← resolve_base_config_path;
  changes ← params (convert_changes changes);
  ticket ← ask as_ticket (AskApplyTeam (mkTeamPayload cfg_path expected_revision changes (Some mode)));
  settle_team ticket.

(** ** Synchronous requests *)

Definition send_workspace_message (target message path : string)
  : Run DaemonClientError S string :=
  request_as as_sent (AskDaemon (SendMessage target message path)).

Definition NANOS : Z := 1000000000.

(** The loop of [poll_for_reply]; each pass but the last sleeps three seconds.  The error
    is the text of the timeout or of a failed read. *)
Fixpoint poll_loop (passes : nat) (from : string) (timeout_secs deadline : Z)
  : Run string S string :=
  match passes with
  | O => fun _ => None
  | Datatypes.S passes =>
      now ← (fun h => Some (Ok (link_now h), h));
      if (deadline <=? now)%Z
      then throw ("Timeout: no reply from " +:+ debug_str from +:+ " within " +:+ show_Z timeout_secs +:+ "s")
      else
        messages ← run_map_err (fun e => "read_messages: " +:+ to_string e)
                     (request_as as_messages (AskDaemon (ReadMessages 10 from)));
        match messages with
        | [] => _ ← (fun h => Some (Ok tt, link_sleep (3 * NANOS) h));
                poll_loop passes from timeout_secs deadline
        | _ => mret (trim (String.concat "" ((fun m => m_content m +:+ newline) <$> messages)))
        end
  end.

(** [Instant::now() + Duration::from_secs(..)] panics when the seconds leave [i64]. *)
Definition poll_for_reply (passes : nat) (from : string) (timeout_secs : Z)
  : Tool (result string string) := fun h =>
  let secs := Z.max timeout_secs 1 in
  let now := link_now h in
  if (i64_max <? now / NANOS + secs)%Z then Some (Err ToolPanic, h)
  else run_try (poll_loop passes from timeout_secs (now + secs * NANOS)) h.

Definition DEFAULT_INSPECT_QUESTION : string := "현재 운영 상태를 간단히 요약해줘. 담당 역할, 최근 작업, 대기 중인 이슈, 핵심 지표나 리스크가 있으면 함께 알려줘. 포트폴리오 개발팀을 맡고 있다면 담당 서비스나 기능, 최근 변경사항, 남은 개발 과제, 배포 또는 운영 리스크를 짧게 포함해줘.".

Definition poll_timeout (timeout : option Z) : Z := Z.max (default 120 timeout) 1.

Definition inspect_agent (passes : nat) (name : string) (question : option string) (timeout : option Z)
  : Tool CallToolResult :=
  cfg_path ← resolve_tool_config_path;
  cfg ← load_ax_config "load ax config: " cfg_path;
  match workspaces cfg !! name with
  | None => bad_params ("Agent " +:+ debug_str name +:+ " is not defined in " +:+ cfg_path)
  | Some ws =>
      let question := default DEFAULT_INSPECT_QUESTION (non_blank question) in
      let timeout := poll_timeout timeout in
      active ← ask as_workspaces (AskDaemon ListWorkspaces);
      if negb (existsb (fun w => String.eqb (wi_name w) name) active) then
        mret (tool_execution_error ("Target agent " +:+ debug_str name
          +:+ " is configured but is not currently registered with the daemon. Start the workspace first (e.g. via start_agent) or call inspect_agent after the peer has connected; no reply can arrive until then."))
      else
        let full_message := question +:+ newline +:+ newline
          +:+ "[ax] 작업 완료 후 반드시 send_message(to=" +:+ quoted workspace +:+ ") 로 결과를 보내주세요." in
        sent ← run_try (send_workspace_message name full_message cfg_path);
        match sent with
        | Err e => mret (tool_execution_error ("Failed to send message: " +:+ to_string e))
        | Ok message_id =>
            if is_empty message_id then
              reply ("Inspection request to " +:+ debug_str name
                     +:+ " was suppressed as a duplicate no-op/status update.")
            else
              answer ← poll_for_reply passes name timeout;
              match answer with
              | Err e => mret (tool_execution_error e)
              | Ok text =>
                  reply_json (JObject [("agent", JString name);
                    ("description", JString (w_description ws)); ("question", JString question);
                    ("status_reply", JString text)])
              end
        end
  end.

(** The timeout of a request says when the target was last active. *)
Definition explain_timeout (to e : string) : Tool string :=
  active ← run_try (request_as as_workspaces (AskDaemon ListWorkspaces));
  mret (match active with
        | Err _ => e
        | Ok active =>
            match List.find (fun w => String.eqb (wi_name w) to) active ≫= wi_last_activity_at with
            | Some ts => e +:+ " (target last active at " +:+ rfc3339 ts +:+ ")"
            | None => e +:+ " (target " +:+ debug_str to +:+ " is not currently registered)"
            end
        end).

Definition request_message (passes : nat) (to message : string) (timeout : option Z)
  : Tool CallToolResult :=
  cfg_path ← resolve_tool_config_path;
  let timeout := poll_timeout timeout in
  let full_message := message +:+ newline +:+ newline
    +:+ "[ax/request] 이 메시지는 동기 요청입니다. `" +:+ workspace
    +:+ "`가 당신의 응답을 기다리고 있습니다. 작업이 끝나면 즉시 `send_message(to=" +:+ quoted workspace
    +:+ ")`로 결과를 회신하세요. 하위 워크스페이스에 위임할 때는 `request`가 아닌 `send_message`를 병렬로 사용한 뒤 `read_messages`로 수집하세요." in
  sent ← run_try (send_workspace_message to full_message cfg_path);
  match sent with
  | Err e => mret (tool_execution_error ("Failed to send message: " +:+ to_string e))
  | Ok message_id =>
      if is_empty message_id then
        mret (tool_execution_error ("Request to " +:+ debug_str to
                +:+ " was suppressed as a duplicate no-op/status update"))
      else
        answer ← poll_for_reply passes to timeout;
        match answer with
        | Ok text => reply text
        | Err e => e ← explain_timeout to e; mret (tool_execution_error e)
        end
  end.

(** ** Usage *)

Definition one_trend (name : string) (dir : option string) : option (list UsageTrendWorkspace) :=
  dir ← dir;
  if is_empty (trim dir) then None else Some [mkUsageTrendWorkspace name (trim dir)].

Definition trend_step (acc : gset string * list UsageTrendWorkspace) (ws : WorkspaceInfo)
  : gset string * list UsageTrendWorkspace :=
  let '(seen, requests) := acc in
  if decide (wi_name ws ∈ seen) then acc
  else ({[wi_name ws]} ∪ seen,
        if is_empty (trim (wi_dir ws)) then requests
        else requests ++ [mkUsageTrendWorkspace (wi_name ws) (trim (wi_dir ws))]).

Definition trend_le (a b : UsageTrendWorkspace) : Prop := String.le (utw_workspace a) (utw_workspace b).
#[local] Instance trend_le_dec : RelDecision trend_le := fun a b => decide (String.le _ _).

Definition all_trends (active : list WorkspaceInfo) : list UsageTrendWorkspace :=
  merge_sort trend_le (foldl trend_step (∅, []) active).2.

Definition build_usage_trend_requests (name : string) : Tool (list UsageTrendWorkspace) :=
  active ← run_map_err (fun e => ToolErr (internal_error ("list active workspaces: " +:+ to_string e)))
             (request_as as_workspaces (AskDaemon ListWorkspaces));
  if is_empty name then mret (all_trends active) else
  match one_trend name (wi_dir <$> by_name active !! name) with
  | Some l => mret l
  | None =>
      cfg_path ← resolve_tool_config_path;
      cfg ← load_ax_config ("load ax config for workspace " +:+ debug_str name +:+ ": ") cfg_path;
      match one_trend name (w_dir <$> workspaces cfg !! name) with
      | Some l => mret l
      | None => bad_state ("workspace " +:+ debug_str name +:+ " not found in active registry or " +:+ cfg_path)
      end
  end.

Definition positive_or (d : Z) (v : option Z) : Z :=
  match v with Some z => if (0 <? z)%Z then z else d | None => d end.

Definition get_usage_trends (ws : option string) (since_minutes bucket_minutes : option Z)
  : Tool CallToolResult :=
  let ws := default "" (trim <$> ws) in
  let since_minutes := positive_or 180 since_minutes in
  let bucket_minutes := positive_or 5 bucket_minutes in
  requests ← build_usage_trend_requests ws;
  trends ← ask (fun a => match a with AnsTrends l => Some l | _ => None end)
             (AskUsageTrends (mkUsageTrendsPayload requests since_minutes bucket_minutes));
  reply_json (JObject [("workspace", JString ws); ("since_minutes", jnum since_minutes);
                       ("bucket_minutes", jnum bucket_minutes);
                       ("trends", JArray (trend_json <$> trends))]).
End tools.
