(* ===== verification/McpToolFacts.v ===== *)
(** * What the tools ask of the daemon.

    [Logged] records the requests of a run with their answers, over any link: the theorems
    hold whatever the daemon answers and whatever happens between two requests. *)

From stdpp Require Import prelude strings list gmap sorting.
From S2P Require Import Prelude Act RustStr Proto TaskHelpers TaskStore TaskEdits TaskEffects TaskPersist.
From S2P Require Import Queue Memory SharedValues History Registry Wake SessionManager Daemon.
From S2P Require Import Handlers Server HandlerFacts Paths ConfigSchema ConfigTree Tmux Artifacts WorkspaceManager.
From S2P Require Import Reconcile Dispatch ErrorText TeamReconfigure Usage UsageHistory UsageTrends.
From S2P Require Import TeamHandlers McpClient McpScope McpPlanner McpHost McpTools RustText.

Definition Log : Type := list (Ask * result DaemonClientError Answer).
Definition Logged (S : Type) : Type := S * Log.

#[export] Instance Logged_link {S} `{!DaemonLink S} : DaemonLink (Logged S) := {|
  link_request a s := let '(r, s') := link_request a s.1 in (r, (s', s.2 ++ [(a, r)]));
  link_now s := link_now s.1;
  link_sleep d s := (link_sleep d s.1, s.2);
|}.
#[export] Instance Logged_machine {S F T} `{!Machine S F T} : Machine (Logged S) F T := {|
  machine s := machine s.1;
  set_machine w s := (set_machine w s.1, s.2);
|}.
#[export] Instance Logged_clock {S} `{!DaemonLink S} `{!LinkClock S} : LinkClock (Logged S).
Proof.
  split; intros x [s log]; cbn.
  - pose proof (link_request_now x s). by destruct (link_request x s).
  - apply link_sleep_now.
Qed.

Section facts.
Context {S F T : Type} `{!DaemonLink S} `{!Machine S F T} `{!FileSystem F} `{!ArtifactFs F} `{!SurveyFs F}.
Context `{!JsonCodec McpConfig} `{!JsonCodec RuntimeState}.
Context `{!YamlCodec Config} `{!YamlCodec ManagedOverlay} `{!TextOps} `{!SysText} `{!ToolText}.
Context `{!CodexHome F} `{!Prompts F} `{!Tmux T}.
Context (env : Env) (hash_text : string -> string) (socket_path ax_bin : string).
Context (workspace : string) (config_path : option string) (fuel : nat).

Definition decoded {A} (shape : Answer -> option A) (r : result DaemonClientError Answer)
  : result DaemonClientError A :=
  match r with
  | Ok ans => match shape ans with Some v => Ok v | None => Err (CEncode mismatch_text) end
  | Err e => Err e
  end.

Lemma request_as_logged {A} (shape : Answer -> option A) a (s : S) log :
  request_as (S := Logged S) shape a (s, log)
  = Some (decoded shape (link_request a s).1,
          ((link_request a s).2, log ++ [(a, (link_request a s).1)])).
Proof.
  unfold request_as, request, decoded. run_step. cbn.
  destruct (link_request a s) as [[ans|e] s']; cbn; [|done]. by destruct (shape ans).
Qed.

Lemma ask_logged {A} (shape : Answer -> option A) a (s : S) log :
  ask (S := Logged S) shape a (s, log)
  = Some (map_err tool_error (decoded shape (link_request a s).1),
          ((link_request a s).2, log ++ [(a, (link_request a s).1)])).
Proof. unfold ask, run_map_err. by rewrite request_as_logged. Qed.

(** What is sent of the outcome of a pass. *)
Definition finish_payload (ticket : TeamApplyTicket) (outcome : result string ReconcileReport)
  : FinishTeamReconfigurePayload :=
  match outcome with
  | Ok report => mkFinishPayload (tk_token ticket) true "" (team_actions_from_reconcile_report report)
  | Err err => mkFinishPayload (tk_token ticket) false err []
  end.

(** The requests of a run of [apply_team_reconfigure] and its result. *)
Inductive apply_run (s s' : S) (r : result ToolFailure CallToolResult) : Log -> Prop :=
| apply_refused : s' = s -> is_ok r = false -> apply_run s s' r []
| apply_denied payload resp :
    is_ok r = false -> (forall ticket, resp <> Ok (AnsTicket ticket)) ->
    apply_run s s' r [(AskApplyTeam payload, resp)]
| apply_finished payload ticket outcome w finish :
    (let s1 := (link_request (AskApplyTeam payload) s).2 in
     reconcile_applied_team env hash_text socket_path ax_bin fuel ticket (machine s1) = Some (outcome, w)
     /\ link_request (AskFinishTeam (finish_payload ticket outcome)) (set_machine w s1) = (finish, s')) ->
    is_ok r = is_ok outcome && is_ok (decoded as_team_state finish) ->
    apply_run s s' r
      [(AskApplyTeam payload, Ok (AnsTicket ticket)); (AskFinishTeam (finish_payload ticket outcome), finish)].

Lemma settle_team_run payload ticket (s s' : S) r log :
  settle_team (S := Logged S) env hash_text socket_path ax_bin fuel ticket
    ((link_request (AskApplyTeam payload) s).2, [(AskApplyTeam payload, Ok (AnsTicket ticket))])
  = Some (r, (s', log)) ->
  apply_run s s' r log.
Proof.
  unfold settle_team, on_world. run_step. cbn [machine Logged_machine fst].
  destruct (reconcile_applied_team _ _ _ _ _ _ _) as [[outcome w]|] eqn:Er; [|done].
  assert (forall fin s'', link_request (AskFinishTeam (finish_payload ticket outcome))
            (set_machine w (link_request (AskApplyTeam payload) s).2) = (fin, s'') ->
          forall r, is_ok r = is_ok outcome && is_ok (decoded as_team_state fin) ->
          apply_run s s'' r [(AskApplyTeam payload, Ok (AnsTicket ticket));
                             (AskFinishTeam (finish_payload ticket outcome), fin)]) as Hdone.
  { intros fin s'' Hf r' Hr. by eapply apply_finished. }
  destruct outcome as [report|err]; cbn [set_machine Logged_machine fst snd].
  - unfold run_map_err, finish_team. rewrite request_as_logged. cbn [app].
    destruct (link_request (AskFinishTeam _) _) as [fin s''] eqn:Ef. cbn [fst snd].
    specialize (Hdone _ _ eq_refl). destruct (decoded as_team_state fin) eqn:Ed; cbn [map_err].
    + unfold reply_json, reply, mret, Run_ret. intros [= <- <- <-]. by apply Hdone.
    + intros [= <- <- <-]. by apply Hdone.
  - unfold run_try, finish_team, bad_state. rewrite request_as_logged. cbn [app].
    change (team_actions_from_reconcile_report empty_report) with (@nil TeamReconfigureAction).
    destruct (link_request (AskFinishTeam _) _) as [fin s''] eqn:Ef. cbn [fst snd].
    intros [= <- <- <-]. by apply (Hdone _ _ eq_refl).
Qed.

Lemma base_config_reads (h : S) :
  exists r, resolve_base_config_path (S := S) env config_path h = Some (r, h).
Proof. unfold resolve_base_config_path. repeat case_match; by eexists. Qed.
End facts.

Section theorems.
Context {S F T : Type} `{!DaemonLink S} `{!Machine S F T} `{!FileSystem F} `{!ArtifactFs F} `{!SurveyFs F}.
Context `{!JsonCodec McpConfig} `{!JsonCodec RuntimeState}.
Context `{!YamlCodec Config} `{!YamlCodec ManagedOverlay} `{!TextOps} `{!SysText} `{!ToolText}.
Context `{!CodexHome F} `{!Prompts F} `{!Tmux T}.
Context (env : Env) (hash_text : string -> string) (socket_path ax_bin : string).
Context (workspace : string) (config_path : option string) (fuel : nat).

(** C24: Every ticket is given back: a run of [apply_team_reconfigure] that obtained one runs
    the reconcile pass and then reports its outcome under the ticket's token, exactly once,
    and succeeds exactly when both did; a run without a ticket sends nothing else. *)
Theorem tickets_are_given_back expected_revision changes mode (s s' : S) r log :
  apply_team_reconfigure (S := Logged S) env hash_text socket_path ax_bin config_path fuel
    expected_revision changes mode (s, []) = Some (r, (s', log)) ->
  apply_run env hash_text socket_path ax_bin fuel s s' r log.
Proof.
  unfold apply_team_reconfigure. destruct (decide _).
  { intros [= <- <- <-]. by apply apply_refused. }
  unfold params. destruct (parse_reconcile_mode mode) as [m|e]; run_step; cbn [map_err];
    [|intros [= <- <- <-]; by apply apply_refused].
  destruct (base_config_reads (S := Logged S) env config_path (s, [])) as [[path|e] ->];
    [|intros [= <- <- <-]; by apply apply_refused].
  destruct (convert_changes changes) as [cs|e]; cbn [map_err];
    [|intros [= <- <- <-]; by apply apply_refused].
  rewrite ask_logged. cbn [app].
  destruct (link_request (AskApplyTeam _) s) as [resp s1] eqn:Ea. cbn [fst snd].
  destruct (decoded as_ticket resp) as [ticket|e] eqn:Ed; cbn [map_err].
  - destruct resp as [[]|]; try done. cbn in Ed. injection Ed as ->. intros Hr.
    eapply settle_team_run. rewrite Ea. exact Hr.
  - intros [= <- <- <-]. apply apply_denied; [done|]. intros ticket ->. done.
Qed.
End theorems.

(** ** Polling for a reply *)

Section polling.
Context {S : Type} `{!DaemonLink S} `{!TextOps} `{!SysText} `{!ToolText}.
Open Scope Z_scope.

Definition read_from (from : string) : Ask := AskDaemon (ReadMessages 10 from).
Definition empty_read (from : string) (e : Ask * result DaemonClientError Answer) : Prop :=
  e = (read_from from, Ok (AnsDaemon (RMessages []))).

(** How polling may end, with the reads it made and the time it ended. *)
Inductive polled (from : string) (timeout deadline : Z) : Log -> result string string -> Z -> Prop :=
| polled_timeout reads now :
    Forall (empty_read from) reads -> deadline <= now ->
    polled from timeout deadline reads
      (Err ("Timeout: no reply from " +:+ debug_str from +:+ " within " +:+ show_Z timeout +:+ "s")) now
| polled_reply reads messages now :
    Forall (empty_read from) reads -> messages <> [] ->
    polled from timeout deadline (reads ++ [(read_from from, Ok (AnsDaemon (RMessages messages)))])
      (Ok (trim (String.concat "" ((fun m => m_content m +:+ newline) <$> messages)))) now
| polled_failed reads resp e now :
    Forall (empty_read from) reads -> decoded as_messages resp = Err e ->
    polled from timeout deadline (reads ++ [(read_from from, resp)])
      (Err ("read_messages: " +:+ to_string e)) now.

Lemma polled_again from timeout deadline log r now :
  polled from timeout deadline log r now ->
  polled from timeout deadline ((read_from from, Ok (AnsDaemon (RMessages []))) :: log) r now.
Proof.
  intros [reads now' Hr Ht|reads msgs now' Hr Hm|reads resp e now' Hr He]; [|rewrite app_comm_cons..];
    constructor; try done; by constructor.
Qed.

Lemma poll_loop_ends `{!LinkClock S} p n from timeout deadline (s : S) log :
  (p <= n)%nat -> deadline <= link_now s + 3 * NANOS * Z.of_nat p ->
  exists r s' reads,
    poll_loop (S := Logged S) (Datatypes.S n) from timeout deadline (s, log) = Some (r, (s', log ++ reads))
    /\ polled from timeout deadline reads r (link_now s') /\ (length reads <= p)%nat.
Proof.
  revert p s log. induction n as [|n IH]; intros p s log Hp Hd;
    [|remember (Datatypes.S n) as k eqn:Ek]; cbn [poll_loop]; try subst k; run_step;
    cbn [link_now Logged_link fst]; destruct (Z.leb_spec deadline (link_now s)) as [Hle|Hgt].
  1,3: eexists _, s, []; rewrite app_nil_r; split_and!; [done|by constructor|cbn; lia].
  { unfold NANOS in *. lia. }
  unfold run_map_err. rewrite request_as_logged. fold (read_from from).
  pose proof (link_request_now (read_from from) s) as Hq.
  destruct (link_request (read_from from) s) as [resp s1]. cbn [fst snd] in *.
  destruct (decoded as_messages resp) as [msgs|e] eqn:Ed; cbn [map_err].
  2: { eexists _, s1, [(read_from from, resp)]. split_and!; [done|by apply (polled_failed _ _ _ [])|].
       destruct p; [unfold NANOS in *; lia|cbn; lia]. }
  assert (resp = Ok (AnsDaemon (RMessages msgs))) as ->.
  { destruct resp as [[[]| | | |]|]; try done; cbn in Ed; congruence. }
  destruct p as [|p]; [unfold NANOS in *; lia|]. destruct msgs as [|m msgs].
  - pose proof (link_sleep_now (3 * NANOS) s1) as Hs. cbn [link_sleep Logged_link fst snd].
    destruct (IH p (link_sleep (3 * NANOS) s1) (log ++ [(read_from from, Ok (AnsDaemon (RMessages [])))]))
      as (r & s' & reads & Hrun & Hpolled & Hlen); [lia|unfold NANOS in *; lia|].
    exists r, s', ((read_from from, Ok (AnsDaemon (RMessages []))) :: reads). split_and!.
    + rewrite <-app_assoc in Hrun. exact Hrun.
    + by apply polled_again.
    + cbn. lia.
  - eexists _, s1, [(read_from from, Ok (AnsDaemon (RMessages (m :: msgs))))].
    split_and!; [done|by apply (polled_reply _ _ _ [])|cbn; lia].
Qed.

(** Polling ends: with a clock that does not run backwards, a timeout that fits the clock
    needs at most a pass for every three seconds and one more, and returns the messages of
    the first read that has any, the first error, or, not before the deadline, a timeout. *)
Theorem polling_ends `{!LinkClock S} passes from timeout (s : S) :
  1 <= timeout -> link_now s / NANOS + timeout <= i64_max ->
  (Z.to_nat ((timeout + 2) / 3) < passes)%nat ->
  exists r s' reads,
    poll_for_reply (S := Logged S) passes from timeout (s, []) = Some (Ok r, (s', reads))
    /\ polled from timeout (link_now s + timeout * NANOS) reads r (link_now s')
    /\ Z.of_nat (length reads) <= (timeout + 2) / 3.
Proof.
  intros Ht Hfit Hp. unfold poll_for_reply. cbn [link_now Logged_link fst]. cbv zeta.
  rewrite Z.max_l by lia. destruct (Z.ltb_spec i64_max (link_now s / NANOS + timeout)); [lia|].
  destruct passes as [|n]; [lia|].
  destruct (poll_loop_ends (Z.to_nat ((timeout + 2) / 3)) n from timeout (link_now s + timeout * NANOS) s [])
    as (r & s' & reads & Hrun & Hpolled & Hlen).
  - lia.
  - rewrite Z2Nat.id by (apply Z.div_pos; lia). unfold NANOS.
    pose proof (Z.div_mod (timeout + 2) 3). pose proof (Z.mod_pos_bound (timeout + 2) 3). lia.
  - exists r, s', reads. split_and!; [|done|].
    + exact (f_equal (fun x => match x with Some (r, s) => Some (Ok r, s) | None => None end) Hrun).
    + assert (0 <= (timeout + 2) / 3) by (apply Z.div_pos; lia). lia.
Qed.
End polling.

(** ** The reports of agents and the daemon that receives them.

    The four report tools are run over any link; the updates they send are then given to
    the daemon of [Handlers], which accepts them for every open task of the caller. *)

Local Close Scope Z_scope.

(** ** Reports *)

Inductive Report :=
| ReportProgress (note : string)
| ReportFailed (reason : string)
| ReportBlocked (reason : string) (needs_help_from : option string)
| ReportCompletion (summary : string) (dirty_files : list string) (residual_scope : option string).

(** The update a report stands for, if it is well formed; the status of a progress report
    depends on the task it read. *)
Inductive report_update (id : string) : Report -> Request -> Prop :=
| progress_update note status :
    trim note <> "" -> status = None \/ status = Some InProgress ->
    report_update id (ReportProgress note) (UpdateTask id status None (Some (trim note)) None)
| failed_update reason :
    trim reason <> "" ->
    report_update id (ReportFailed reason)
      (UpdateTask id (Some Failed) (Some ("failed: " +:+ trim reason)) (Some ("failed: " +:+ trim reason)) None)
| blocked_update reason help :
    trim reason <> "" ->
    report_update id (ReportBlocked reason help)
      (UpdateTask id (Some Blocked) None (Some ("blocked: " +:+ trim reason)) None)
| completion_update summary dirty residual marker :
    trim summary <> "" -> completion_marker dirty residual = Ok marker ->
    report_update id (ReportCompletion summary dirty residual)
      (UpdateTask id (Some Completed) (Some (trim summary +:+ newline +:+ newline +:+ marker)) None (Some true)).

(** The status and the result a report leaves. *)
Definition reported_status (rep : Report) (before : TaskStatus) : list TaskStatus :=
  match rep with
  | ReportProgress _ => [before; InProgress]
  | ReportFailed _ => [Failed]
  | ReportBlocked _ _ => [Blocked]
  | ReportCompletion _ _ _ => [Completed]
  end.

Lemma contains_cat a p b : contains (a +:+ p +:+ b) p = true.
Proof.
  induction a as [|c a IH]; cbn [contains String.append].
  - change ("" +:+ p +:+ b) with (p +:+ b). destruct (p +:+ b) eqn:E; cbn [contains]; rewrite <-E, starts_with_app; done.
  - change (String c a +:+ p +:+ b) with (String c (a +:+ p +:+ b)). cbn [contains]. by rewrite IH, orb_true_r.
Qed.

(** Whatever the files and the residual scope are, the marker is a declaration. *)
Lemma marker_declares summary dirty residual marker :
  completion_marker dirty residual = Ok marker ->
  has_leftover_scope_declaration (summary +:+ newline +:+ newline +:+ marker) = true.
Proof.
  unfold completion_marker, has_leftover_scope_declaration. intros Hm.
  assert (exists rest, marker = MARKER +:+ rest) as [rest ->].
  { cbv zeta in Hm. destruct (List.filter _ _) as [|f fs]; [injection Hm as <-; by exists "<none>"|].
    destruct (non_blank residual); [|done]. injection Hm as <-. by eexists. }
  assert (summary +:+ newline +:+ newline +:+ MARKER +:+ rest
          = (summary +:+ newline +:+ newline) +:+ MARKER +:+ rest) as ->.
  { apply bytes_inj. by rewrite !bytes_cat, !app_assoc. }
  apply contains_cat.
Qed.

(** An update of an open task by its assignee that carries its evidence is allowed. *)
Lemma report_allowed id rep status result log confirm t ws :
  report_update id rep (UpdateTask id status result log confirm) ->
  t_removed_at t = None -> t_assignee t = ws -> is_open_status (t_status t) = true ->
  update_allowed t status result confirm ws
  /\ default (t_status t) status ∈ reported_status rep (t_status t).
Proof.
  intros Hrep Hrem Hws Hopen. inversion Hrep; subst; unfold update_allowed, status_allowed, completion_gate.
  1: match goal with Hs : _ \/ _ |- _ => destruct Hs as [->| ->] end.
  all: cbn [reported_status default]; split; [|set_solver].
  all: split_and!; [done|by left|naive_solver|].
  all: intros n Hn; simplify_eq.
  all: split_and!; [by left|by destruct (t_status t)|try done].
  intros _ _. split; [|done]. by eapply marker_declares.
Qed.

Section reports.
Context {S F T : Type} `{!DaemonLink S} `{!Machine S F T} `{!TextOps} `{!SysText} `{!ToolText}.
Context {B : Type} `{!JsonCodec (list Task)} `{!JsonCodec HistoryEntry} `{!JsonCodec (list Memory)}.
Context `{!JsonCodec (gmap string string)} `{!SessionBackend B}.
Context (workspace : string) (config_path : option string).

Lemma accepted_update st id t status result log confirm ws now fault :
  inner st !! id = Some t -> update_allowed t status result confirm ws ->
  match (update_with_confirm id status result log confirm ws now fault st).1 with
  | Ok t' => t_status t' = default (t_status t) status /\ t_result t' = default (t_result t) result
  | Err e => is_persist_error e = true
  end.
Proof.
  intros Ht Ha%validate_task_update_ok. unfold update_with_confirm. rewrite Ht, Ha.
  pose proof (update_edits_status t status result log ws now) as [Hs Hr].
  destruct (update_edits _ _ _ _ _ _) as [t' changed]. cbn [fst] in *. destruct changed; cbv zeta.
  - destruct (refresh_lookup_Some (<[id := bump_version t' <| t_updated_at := now |>]> (inner st))
      (t_parent_task_id t') now id _ (lookup_insert_eq _ _ _)) as (t'' & Hl & Hf & _).
    apply refreshed_life, life_eq in Hf as (_ & _ & _ & Hs' & Hr').
    destruct (commit_outcome fault st _ id t'' Hl) as [_ Hc].
    destruct (commit _ _ _ _).1; [|done]. subst. rewrite Hs', Hr'. unfold bump_version. by fsimpl.
  - fsimpl. rewrite lookup_insert_eq. by cbn.
Qed.

(** The daemon's answer to a report of the assignee. *)
Lemma daemon_accepts inp gs (d : Daemon B) t id rep req :
  report_update id rep req -> workspace <> "" ->
  inner (d_tasks d) !! id = Some t -> t_removed_at t = None -> t_assignee t = workspace ->
  is_open_status (t_status t) = true ->
  match (handle_request inp gs workspace req d).1 with
  | Ok (RTask t') => t_status t' ∈ reported_status rep (t_status t)
  | Ok _ => False
  | Err (Logic e) => exists err, is_persist_error err = true /\ e = task_store_error_to_string err
  end.
Proof.
  intros Hrep Hws Ht Hrem Has Hopen.
  assert (exists status result log confirm, req = UpdateTask id status result log confirm)
    as (status & result & log & confirm & ->) by (inversion Hrep; eauto).
  destruct (report_allowed _ _ _ _ _ _ _ _ Hrep Hrem Has Hopen) as [Hall Hst].
  pose proof (accepted_update (d_tasks d) id t status result log confirm workspace (i_now inp)
    (i_task_fault inp) Ht Hall) as Hup.
  cbn [handle_request]. unfold handle_update_task, require_registered.
  apply is_empty_false in Hws. rewrite Hws. unfold with_state, modify, mbind, M_bind, mret, M_ret. cbv beta iota.
  destruct (update_with_confirm _ _ _ _ _ _ _ _ _) as [[t'|e] ts]; cbn in *.
  - destruct Hup as [Hup _]. rewrite <-Hup in Hst. exact Hst.
  - eauto.
Qed.

Definition report_tool (id : string) (rep : Report) : Tool (S := Logged S) CallToolResult :=
  match rep with
  | ReportProgress note => report_task_progress id note
  | ReportFailed reason => report_task_failed id reason
  | ReportBlocked reason help => report_task_blocked config_path id reason help
  | ReportCompletion summary dirty residual => report_task_completion id summary dirty residual
  end.

Definition is_update (e : Ask * result DaemonClientError Answer) : bool :=
  match e.1 with AskDaemon (UpdateTask _ _ _ _ _) => true | _ => false end.

(** What a report may ask of the daemon. *)
Definition report_entry (id : string) (rep : Report) (e : Ask * result DaemonClientError Answer) : Prop :=
  match e.1 with
  | AskDaemon req =>
      report_update id rep req
      \/ (req = GetTask id /\ exists note, rep = ReportProgress note)
      \/ (exists reason help text, rep = ReportBlocked reason (Some help)
                                    /\ req = SendMessage (trim help) text (default "" config_path))
  | _ => False
  end.

(** The shape of a run: at most one update, and one when it succeeds. *)
Definition report_log (id : string) (rep : Report) (r : result ToolFailure CallToolResult) (log : Log) : Prop :=
  Forall (report_entry id rep) log
  /\ length (List.filter is_update log) <= 1
  /\ (is_ok r = true -> length (List.filter is_update log) = 1)
  /\ ((forall req, ~ report_update id rep req) ->
      log = [] /\ exists message, r = Err (ToolErr (invalid_params message))).

Lemma report_log_refused id rep message :
  report_log id rep (Err (ToolErr (invalid_params message))) [].
Proof. split_and!; [constructor|cbn; lia|done|]. eauto. Qed.

(** A run that starts with its update. *)
Lemma report_log_sent id rep req resp rest r :
  report_update id rep req -> Forall (report_entry id rep) rest ->
  List.filter is_update rest = [] -> report_log id rep r ((AskDaemon req, resp) :: rest).
Proof.
  intros Hup Hrest Hnone. assert (is_update (AskDaemon req, resp) = true) as Hu by (by inversion Hup).
  split_and!; [constructor; [by left|done]|cbn [List.filter]; rewrite Hu, Hnone; cbn; lia..|].
  intros Hno. by destruct (Hno req).
Qed.

(** The guard that all reports share. *)
Ltac report_guard x :=
  let E := fresh "En" in
  cbv zeta; destruct (is_empty (trim x)) eqn:E;
  [by intros [= <- <- <-]; apply report_log_refused|]; apply is_empty_false in E; run_step.

Lemma progress_runs id note (s s' : S) r log :
  report_tool id (ReportProgress note) (s, []) = Some (r, (s', log)) ->
  report_log id (ReportProgress note) r log.
Proof.
  cbn [report_tool]. unfold report_task_progress. report_guard note. rewrite ask_logged. cbn [app].
  assert (forall resp, report_entry id (ReportProgress note) (AskDaemon (GetTask id), resp)) as Hget.
  { intros resp. right; left. eauto. }
  assert (forall status, status = None \/ status = Some InProgress ->
    report_update id (ReportProgress note) (UpdateTask id status None (Some (trim note)) None)) as Hup.
  { intros status Hs. by constructor. }
  destruct (decoded as_task _) as [t|e] eqn:Ed; cbn [map_err].
  - rewrite ask_logged. cbn [app].
    set (status := match t_status t with Pending => Some InProgress | _ => None end).
    assert (status = None \/ status = Some InProgress) as Hs
      by (unfold status; destruct (t_status t); auto).
    destruct (decoded as_task (link_request _ (link_request _ s).2).1); cbn [map_err];
      intros [= <- <- <-]; (split_and!; [|cbn; lia|done|]).
    1,3: (constructor; [done|]; constructor; [|constructor]; left; by apply Hup).
    all: intros Hno; by destruct (Hno _ (Hup _ Hs)).
  - intros [= <- <- <-]. split_and!; [by constructor|cbn; lia|done|].
    intros Hno. destruct (Hno _ (Hup None (or_introl eq_refl))).
Qed.

Lemma failed_runs id reason (s s' : S) r log :
  report_tool id (ReportFailed reason) (s, []) = Some (r, (s', log)) ->
  report_log id (ReportFailed reason) r log.
Proof.
  cbn [report_tool]. unfold report_task_failed. report_guard reason. rewrite ask_logged. cbn [app].
  destruct (decoded as_task _); cbn [map_err]; intros [= <- <- <-];
    (apply report_log_sent; [by constructor|constructor|done]).
Qed.

Lemma blocked_runs id reason help (s s' : S) r log :
  report_tool id (ReportBlocked reason help) (s, []) = Some (r, (s', log)) ->
  report_log id (ReportBlocked reason help) r log.
Proof.
  cbn [report_tool]. unfold report_task_blocked. report_guard reason. rewrite ask_logged. cbn [app].
  assert (forall r resp rest, Forall (report_entry id (ReportBlocked reason help)) rest ->
    List.filter is_update rest = [] ->
    report_log id (ReportBlocked reason help) r ((AskDaemon (UpdateTask id (Some Blocked) None
      (Some ("blocked: " +:+ trim reason)) None), resp) :: rest)) as Hsent.
  { intros. by apply report_log_sent; [constructor|..]. }
  destruct (decoded as_task _); cbn [map_err]; [|by intros [= <- <- <-]; apply Hsent].
  unfold non_blank. destruct help as [peer|]; cbv zeta; [|by intros [= <- <- <-]; apply Hsent].
  destruct (is_empty (trim peer)); [by intros [= <- <- <-]; apply Hsent|].
  rewrite ask_logged. cbn [app].
  destruct (decoded as_sent _); cbn [map_err]; intros [= <- <- <-];
    (apply Hsent; [|done]; constructor; [|constructor]; right; right; unfold dispatch_path; eauto).
Qed.

Lemma completion_runs id summary dirty residual (s s' : S) r log :
  report_tool id (ReportCompletion summary dirty residual) (s, []) = Some (r, (s', log)) ->
  report_log id (ReportCompletion summary dirty residual) r log.
Proof.
  cbn [report_tool]. unfold report_task_completion. report_guard summary.
  destruct (completion_marker dirty residual) as [marker|e] eqn:Em; cbn [map_err].
  - rewrite ask_logged. cbn [app].
    destruct (decoded as_task _); cbn [map_err]; intros [= <- <- <-];
      (apply report_log_sent; [by constructor|constructor|done]).
  - intros [= <- <- <-]. unfold completion_marker in Em. cbv zeta in Em.
    repeat case_match; simplify_eq. apply report_log_refused.
Qed.
End reports.

(** C23: Reports reach the task: a report tool sends nothing when its fields are blank or the
    residual scope is missing, and otherwise at most one update, exactly one when it
    succeeds; and the daemon, given that update by the assignee of an open task in whatever
    state it is, sets the status the report stands for unless its file cannot be
    written. *)
Theorem reports_are_accepted {S F T B : Type} `{!DaemonLink S} `{!Machine S F T} `{!TextOps} `{!SysText}
    `{!ToolText} `{!JsonCodec (list Task)} `{!JsonCodec HistoryEntry} `{!JsonCodec (list Memory)}
    `{!JsonCodec (gmap string string)} `{!SessionBackend B}
    (workspace : string) (config_path : option string) id rep (s s' : S) r log :
  report_tool config_path id rep (s, []) = Some (r, (s', log)) -> workspace <> "" ->
  report_log config_path id rep r log
  /\ forall req resp inp gs (d : Daemon B) t,
       (AskDaemon req, resp) ∈ log -> is_update (AskDaemon req, resp) = true ->
       inner (d_tasks d) !! id = Some t -> t_removed_at t = None -> t_assignee t = workspace ->
       is_open_status (t_status t) = true ->
       match (handle_request inp gs workspace req d).1 with
       | Ok (RTask t') => t_status t' ∈ reported_status rep (t_status t)
       | Ok _ => False
       | Err (Logic e) => exists err, is_persist_error err = true /\ e = task_store_error_to_string err
       end.
Proof.
  intros Hrun Hws.
  assert (report_log config_path id rep r log) as Hlog.
  { destruct rep; [eapply progress_runs|eapply failed_runs|eapply blocked_runs|eapply completion_runs];
      exact Hrun. }
  split; [done|]. intros req resp inp gs d t Hin Hu. destruct Hlog as [Hall _].
  rewrite Forall_forall in Hall. apply Hall in Hin as [Hup|[[-> _]|(? & ? & ? & _ & ->)]]; [|done..].
  by apply daemon_accepts.
Qed.
