(* ===== verification/McpExamples.v ===== *)
(** * The agent-side server on concrete runs.

    Instances of the interfaces of [McpClient], [McpPlanner] and [McpHost], the theorems
    of the tools applied to them, and runs that show what the code does outside their
    hypotheses. *)

From stdpp Require Import prelude strings list gmap fin_maps.
From S2P Require Import Prelude Act RustStr Proto Concrete TaskHelpers TaskStore TaskPersist Memory.
From S2P Require Import SharedValues History Queue Registry Wake SessionManager Daemon Handlers Server.
From S2P Require Import Paths ConfigSchema ConfigTree ConfigFacts Tmux Artifacts.
From S2P Require Import CodexFiles WorkspaceManager Reconcile ErrorText TeamReconfigure TeamHandlers.
From S2P Require Import WorkspaceExamples ServerExamples Usage UsageTrends.
From S2P Require Import McpClient McpScope McpPlanner McpHost McpTools McpToolFacts.
From S2P Require Import RustText.

#[local] Existing Instances OpaqueMcp DemoRecords QuickTasks QuickMemories QuickHistory.

(** ** Texts *)

#[global] Instance DemoTool : ToolText := {|
  json_pretty _ := "json"; json_compact _ := "json"; task_json _ := JNull; memory_json _ := JNull;
  workspace_json _ := JNull; started_json _ _ _ := JNull; intervened_json _ _ _ _ := JNull;
  lifecycle_json _ := JNull; team_state_json _ := JNull; team_plan_json _ := JNull;
  ticket_json _ := JNull; report_json _ := JNull; trend_json _ := JNull;
  initial_plan_json _ := JNull; reconfigure_plan_json _ := JNull;
  hms _ := "00:00:00"; rfc3339 _ := "1970-01-01T00:00:00Z"; mismatch_text := "mismatch";
|}.

(** ** Scopes *)

Lemma memory_scopes_are_canonical_witness :
  exists l, resolve_many demo_env demo_fs 5 ["global"; " Task: 7 "; "workspace"; "project"; "GLOBAL"]
              "kid.w" (Some root_path) = Some (Ok l)
    /\ NoDup l /\ "task:7" ∈ l /\ Memory.normalize_scope "project:kid" = "project:kid".
Proof.
  exists ["global"; "task:7"; "workspace:kid.w"; "project:kid"].
  assert (resolve_many demo_env demo_fs 5 ["global"; " Task: 7 "; "workspace"; "project"; "GLOBAL"]
            "kid.w" (Some root_path) = Some (Ok ["global"; "task:7"; "workspace:kid.w"; "project:kid"])) as E
    by (vm_compute; reflexivity).
  destruct (memory_scopes_are_canonical demo_env demo_fs 5 _ "kid.w" (Some root_path) _
    ltac:(vm_compute; discriminate) E) as (Hd & Hs & _).
  split_and!; [exact E|exact Hd|right; left|]. apply Hs. right; right; right; left.
Defined.

(** ** Surveys *)

(** The entries of a directory of [MemFs]: a path below it makes a directory, a path in it
    a file. *)
Definition entry_below (dir : string) (kv : list string * string) : option (string * bool) :=
  let n := length (components dir) in
  if bool_decide (take n kv.1 = components dir) then
    match drop n kv.1 with
    | [] => None
    | [name] => Some (name, false)
    | name :: _ => Some (name, true)
    end
  else None.

#[global] Instance MemFs_survey : SurveyFs MemFs := {|
  sv_read_dir fs dir :=
    match remove_dups (omap (entry_below dir) fs) with
    | [] => Err IoNotFound
    | l => Ok ((fun '(name, is_dir) => Ok (mkDirEntry name (join dir name)
                 (Ok (if is_dir : bool then IsDir else IsFile)))) <$> l)
    end;
  sv_exists fs dir := bool_decide (omap (entry_below dir) fs <> []);
|}.

Definition survey_fs (config : string) : MemFs :=
  [(components root_path, config); (components "/p/docs/README.md", "docs");
   (components "/p/alpha/src/a.rs", "a"); (components "/p/alpha/Cargo.toml", "c");
   (components "/p/node_modules/x/y", "n"); (components "/p/notes.txt", "t")].

(** [alpha] has a workspace, [docs] has none, and the directory of [beta] is missing. *)
Example relative_dirs_are_covered :
  match plan_team_reconfigure (survey_fs "root") "/p" root_path with
  | Ok plan => (ds_name <$> rp_toplevel_dirs plan, rp_orphan_dirs plan, rp_empty_workspaces plan)
               = (["alpha"; "docs"], ["docs"], ["beta"])
  | Err _ => False
  end.
Proof. vm_compute. reflexivity. Qed.

(** The same project with its directories written as absolute paths: [alpha] is reported
    as a directory no workspace owns, although its workspace is found to have content. *)
Example absolute_dirs_are_orphans :
  match plan_team_reconfigure (survey_fs "less beta") "/p" root_path with
  | Ok plan => (rp_orphan_dirs plan, rp_empty_workspaces plan) = (["alpha"; "docs"], [])
  | Err _ => False
  end.
Proof. vm_compute. reflexivity. Qed.

Lemma drift_report_is_exact_witness :
  exists plan, plan_team_reconfigure (survey_fs "root") "/p" root_path = Ok plan
    /\ "docs" ∈ rp_orphan_dirs plan /\ "beta" ∈ rp_empty_workspaces plan.
Proof.
  destruct (plan_team_reconfigure (survey_fs "root") "/p" root_path) as [plan|e] eqn:E;
    [|vm_compute in E; discriminate E].
  exists plan. split; [reflexivity|].
  destruct (drift_report_is_exact (survey_fs "root") "/p" root_path "root" root_config plan)
    as [(entries & He & Ho) Hw]; [reflexivity|reflexivity| |exact E|].
  - intros n w Hws. assert (w = ws "./alpha" \/ w = ws "./beta") as [-> | ->].
    { unfold root_config in Hws. fsimpl. apply lookup_insert_Some in Hws as [[_ <-]|[_ Hws]]; [by left|].
      apply lookup_singleton_Some in Hws as [_ <-]. by right. }
    all: split; vm_compute; reflexivity.
  - split.
    + apply Ho. vm_compute in He. injection He as <-. split.
      * exists (mkDirEntry "docs" "/p/docs" (Ok IsDir)). split; [vm_compute; right; left|].
        split; [split; reflexivity|reflexivity].
      * intros n w Hws. unfold root_config in Hws. fsimpl.
        apply lookup_insert_Some in Hws as [[_ <-]|[_ Hws]]; [vm_compute; discriminate|].
        apply lookup_singleton_Some in Hws as [_ <-]. vm_compute. discriminate.
    + apply Hw. exists (ws "./beta"). split; vm_compute; reflexivity.
Defined.

(** ** The connection *)

#[global] Instance DemoWire : WireText := {|
  decode_envelope line :=
    match strip_prefix line "response ", strip_prefix line "error ", strip_prefix line "push " with
    | Some id, _, _ => Some (mkEnvelope id EnvResponse "{}")
    | _, Some id, _ => Some (mkEnvelope id EnvError "no such task")
    | _, _, Some text => Some (mkEnvelope "" EnvPush text)
    | _, _, _ => None
    end;
  decode_push text := Some (mkMessage "m" "bob" "amy" text "" 0);
  decode_error text := Ok text;
|}.

(** Two requests share the connection; the second is answered first, a message is pushed
    in between, and the first gets an error. *)
Definition shared_events : list client_event :=
  [CBegin "a"; CBegin "b"; CWrote "a" (Ok tt); CWrote "b" (Ok tt); CLine ("response b" +:+ newline);
   CLine ("push hello" +:+ newline); CLine ("error a" +:+ newline); CResume "b"; CResume "a"].
Definition shared_client : Client :=
  resume "a" (ROk (mkEnvelope "a" EnvError "no such task"))
    (resume "b" (ROk (mkEnvelope "b" EnvResponse "{}"))
      (on_line ("error a" +:+ newline) (on_line ("push hello" +:+ newline)
        (on_line ("response b" +:+ newline)
          (write_done "b" (Ok tt) (write_done "a" (Ok tt)
            (begin_request "b" (begin_request "a" client_new)))))))).

Lemma shared_run : client_run shared_events shared_client.
Proof.
  unfold shared_events.
  eapply (run_next [_; _; _; _; _; _; _; _] (CResume "a")).
  eapply (run_next [_; _; _; _; _; _; _] (CResume "b")).
  eapply (run_next [_; _; _; _; _; _] (CLine _)).
  eapply (run_next [_; _; _; _; _] (CLine _)).
  eapply (run_next [_; _; _; _] (CLine _)).
  eapply (run_next [_; _; _] (CWrote "b" _)).
  eapply (run_next [_; _] (CWrote "a" _)).
  eapply (run_next [_] (CBegin "b")).
  eapply (run_next [] (CBegin "a")).
  - apply run_start.
  - by apply step_begin.
  - by apply step_begin.
  - by apply step_wrote.
  - by apply step_wrote.
  - by apply step_line.
  - by apply step_line.
  - by apply step_line.
  - eapply step_resume; vm_compute; reflexivity.
  - eapply step_resume; vm_compute; reflexivity.
Qed.

Lemma answers_reach_their_requests_witness :
  justified shared_events "a" (Err (CDaemon "no such task"))
  /\ cl_pushes shared_client = foldl note_push [] shared_events.
Proof.
  destruct (answers_reach_their_requests shared_events shared_client shared_run) as (Hr & _ & _ & Hp).
  split; [|exact Hp]. apply Hr. vm_compute. reflexivity.
Defined.

(** ** A daemon that answers by script *)

Record Script := mkScript {
  sc_answers : list (result DaemonClientError Answer);
  sc_now : Z;
  sc_world : World MemFs MemTmux;
}.
#[global] Instance Script_link : DaemonLink Script := {|
  link_request a s := match sc_answers s with
                      | r :: rest => (r, mkScript rest (sc_now s) (sc_world s))
                      | [] => (Err CDisconnected, s)
                      end;
  link_now := sc_now;
  link_sleep d s := mkScript (sc_answers s) (sc_now s + d) (sc_world s);
|}.
#[global] Instance Script_clock : LinkClock Script.
Proof. split; intros x [answers now w]; [by destruct answers|done]. Qed.
#[global] Instance Script_machine : Machine Script MemFs MemTmux := {|
  machine := sc_world;
  set_machine w s := mkScript (sc_answers s) (sc_now s) w;
|}.

(** ** Teams *)

Definition demo_ticket : TeamApplyTicket :=
  mkTeamTicket "token" (mkTeamPlan (mkTeamState root_path root_path "/p/.ax/missing.yaml" true 1
    empty_team_overlay (mkTeamConfiguredState true [] [] []) None) 0 [] [] []) ArtifactsOnly.
Definition demo_change : TeamReconfigureChangeInput :=
  mkChangeInput "remove" "workspace" (Some "beta") None None.
Definition apply_script : Script :=
  mkScript [Ok (AnsTicket demo_ticket); Err CDisconnected] 0 (mkWorld demo_fs busy_tmux).
Definition apply_run_of (s : Script) :=
  apply_team_reconfigure (S := Logged Script) demo_env plain_hash "/run/ax.sock" "/bin/ax"
    (Some root_path) 5 None [demo_change] None (s, []).

(** The effective config cannot be read: the ticket is still given back, as a failure. *)
Lemma tickets_are_given_back_witness :
  exists r s' log, apply_run_of apply_script = Some (r, (s', log)) /\ length log = 2%nat
    /\ McpToolFacts.apply_run demo_env plain_hash "/run/ax.sock" "/bin/ax" 5 apply_script s' r log.
Proof.
  destruct (apply_run_of apply_script) as [[r [s' log]]|] eqn:E; [|vm_compute in E; discriminate E].
  exists r, s', log. split; [reflexivity|]. split.
  - vm_compute in E. injection E as _ _ <-. reflexivity.
  - exact (tickets_are_given_back demo_env plain_hash "/run/ax.sock" "/bin/ax" (Some root_path) 5 None
      [demo_change] None apply_script s' r log E).
Defined.

(** ** Reports *)

Definition report_script : Script :=
  mkScript [Ok (AnsDaemon (RTask (task_of run5)))] 0 (mkWorld [] busy_tmux).
Definition completion : Report := ReportCompletion " done " ["src/a.rs"; " "] (Some "tests").
Definition completion_request : Request :=
  UpdateTask uuid_a (Some Completed)
    (Some ("done" +:+ newline +:+ newline
           +:+ "remaining owned dirty files=src/a.rs; residual scope=tests")) None (Some true).
Definition completion_answer : result DaemonClientError Answer := Ok (AnsDaemon (RTask (task_of run5))).
Definition completion_log : Log := [(AskDaemon completion_request, completion_answer)].

Lemma completion_run :
  report_tool None uuid_a completion (report_script, [])
  = Some (Ok (success "json"), (mkScript [] 0 (mkWorld [] busy_tmux), completion_log)).
Proof. vm_compute. reflexivity. Qed.

Lemma bobs_task : inner (d_tasks (sv_daemon run4)) !! uuid_a = Some (task_of run4).
Proof. vm_compute. reflexivity. Qed.
Lemma bobs_task_open :
  t_removed_at (task_of run4) = None /\ t_assignee (task_of run4) = "bob"
  /\ is_open_status (t_status (task_of run4)) = true.
Proof. vm_compute. split_and!; reflexivity. Qed.

(** [bob] reports his task done; his daemon, in the state of [run4], completes it. *)
Lemma reports_are_accepted_witness :
  report_log None uuid_a completion (Ok (success "json")) completion_log
  /\ match (handle_request (demo_inputs 6) no_git "bob" completion_request (sv_daemon run4)).1 with
     | Ok (RTask t') => t_status t' ∈ reported_status completion (t_status (task_of run4))
     | Ok _ => False
     | Err (Logic e) => exists err, is_persist_error err = true /\ e = task_store_error_to_string err
     end.
Proof.
  destruct (reports_are_accepted (B := list string) "bob" None uuid_a completion report_script _ _ _
    completion_run ltac:(discriminate)) as [Hlog Hacc].
  split; [exact Hlog|]. destruct bobs_task_open as (H1 & H2 & H3).
  exact (Hacc completion_request completion_answer (demo_inputs 6) no_git (sv_daemon run4) (task_of run4)
    (list_elem_of_here _ _) eq_refl bobs_task H1 H2 H3).
Defined.

(** ** Polling *)

Definition quiet_script : Script :=
  mkScript [Ok (AnsDaemon (RMessages [])); Ok (AnsDaemon (RMessages [mkMessage "m" "bob" "amy" " hi " "" 0]))]
    (5 * NANOS) (mkWorld [] busy_tmux).

Lemma polling_ends_witness :
  exists r s' reads, poll_for_reply (S := Logged Script) 3 "bob" 4 (quiet_script, []) = Some (Ok r, (s', reads))
    /\ polled "bob" 4 (9 * NANOS) reads r (link_now s') /\ r = Ok "hi".
Proof.
  destruct (polling_ends 3 "bob" 4 quiet_script) as (r & s' & reads & E & Hp & _);
    [lia|vm_compute; discriminate|vm_compute; lia|].
  exists r, s', reads. split; [exact E|]. split; [exact Hp|].
  vm_compute in E. injection E as <- _ _. reflexivity.
Defined.

(** A timeout that does not fit the clock panics, after the message was sent. *)
Example huge_timeouts_panic :
  match request_message (S := Logged Script) demo_env "amy" (Some root_path) 3 "bob" "status?" (Some i64_max)
          (mkScript [Err (CDaemon "no team"); Ok (AnsDaemon (RSent "m1" "sent"))] (5 * NANOS)
             (mkWorld [] busy_tmux), []) with
  | Some (r, (_, log)) => r = Err ToolPanic /\ length log = 2%nat
  | None => False
  end.
Proof. vm_compute. split; reflexivity. Qed.

(** ** The real daemon behind the tools *)

(** The handlers of the daemon answer; team requests are refused. *)
Record DaemonHost := mkDaemonHost {
  dh_caller : string;
  dh_now : Z;
  dh_daemon : Daemon (list string);
}.
#[global] Instance DaemonHost_link : DaemonLink DaemonHost := {|
  link_request a h :=
    match a with
    | AskDaemon req =>
        let '(r, d) := handle_request (demo_inputs (dh_now h / NANOS)) no_git (dh_caller h) req (dh_daemon h) in
        (match r with Ok resp => Ok (AnsDaemon resp) | Err (Logic e) => Err (CDaemon e) end,
         mkDaemonHost (dh_caller h) (dh_now h) d)
    | _ => (Err (CDaemon "team state is not available"), h)
    end;
  link_now := dh_now;
  link_sleep d h := mkDaemonHost (dh_caller h) (dh_now h + d) (dh_daemon h);
|}.
#[global] Instance DaemonHost_machine : Machine DaemonHost MemFs MemTmux := {|
  machine _ := mkWorld [] busy_tmux;
  set_machine _ h := h;
|}.

(** [bob]'s task is completed in [run5]; a progress report on it is accepted and changes
    the finished task. *)
Example progress_on_finished_tasks_is_accepted :
  match report_task_progress (S := DaemonHost) uuid_a "still here" (mkDaemonHost "bob" (9 * NANOS) (sv_daemon run5)) with
  | Some (r, h) =>
      is_ok r = true
      /\ (t_status <$> inner (d_tasks (dh_daemon h)) !! uuid_a) = Some Completed
      /\ (t_version <$> inner (d_tasks (dh_daemon h)) !! uuid_a)
         = Some (t_version (task_of run5) + 1)
  | None => False
  end.
Proof. vm_compute. split_and!; reflexivity. Qed.

(** [bob] sent [amy] a message before she asks him; the request returns that message as
    his answer, although he has not seen the question. *)
Definition earlier_message : Daemon (list string) :=
  (handle_request (demo_inputs 7) no_git "bob" (SendMessage "amy" "lunch?" "")
     (sv_daemon run5) <| d_queue := queue_new |>).2.
Example stale_messages_answer_requests :
  match request_message (S := DaemonHost) demo_env "amy" (Some root_path) 3 "bob" "is the build green?" (Some 10)
          (mkDaemonHost "amy" (9 * NANOS) earlier_message) with
  | Some (r, h) =>
      r = Ok (success "lunch?")
      /\ length (inbox (d_queue (dh_daemon h)) "bob") = 1%nat
  | None => False
  end.
Proof. vm_compute. split; reflexivity. Qed.
