(* ===== verification/TeamExamples.v ===== *)
(** * Team reconfiguration on the project of [ConfigFacts]: the theorems of
    [TeamFacts] at work, a lost update between two requests, and a disable that has no
    effect. *)

From stdpp Require Import prelude strings list gmap fin_maps countable.
From S2P Require Import Prelude RustStr Proto SharedValues Concrete.
From S2P Require Import Paths ConfigSchema ConfigTree ConfigFacts.
From S2P Require Import TeamReconfigure TeamFacts.

(** ** A text for team states *)

#[global] Instance TeamEntryKind_eq_dec : EqDecision TeamEntryKind.
Proof. solve_decision. Defined.
#[global] Instance TeamEntryKind_countable : Countable TeamEntryKind.
Proof.
  refine (inj_countable'
    (fun k => match k with KWorkspace => 0 | KChild => 1 | KRootOrchestrator => 2 end)
    (fun n => match n with 0 => KWorkspace | 1 => KChild | _ => KRootOrchestrator end) _).
  by intros [].
Defined.
#[global] Instance TeamReconcileMode_eq_dec : EqDecision TeamReconcileMode.
Proof. solve_decision. Defined.
#[global] Instance TeamReconcileMode_countable : Countable TeamReconcileMode.
Proof.
  refine (inj_countable' (fun m => match m with ArtifactsOnly => true | StartMissing => false end)
    (fun b : bool => if b then ArtifactsOnly else StartMissing) _).
  by intros [].
Defined.
#[global] Instance TeamWorkspaceSpec_eq_dec : EqDecision TeamWorkspaceSpec.
Proof. solve_decision. Defined.
#[global] Instance TeamWorkspaceSpec_countable : Countable TeamWorkspaceSpec.
Proof.
  refine (inj_countable'
    (fun w => ((tw_dir w, tw_description w, tw_shell w, tw_runtime w),
               (tw_agent_provider w, tw_codex_model_reasoning_effort w),
               (tw_agent w, tw_instructions w, tw_env w)))
    (fun '((a, b, c, d), (e, f), (g, h, i)) => mkTeamWorkspaceSpec a b c d e f g h i) _).
  by intros [].
Defined.
#[global] Instance TeamChildSpec_eq_dec : EqDecision TeamChildSpec.
Proof. solve_decision. Defined.
#[global] Instance TeamChildSpec_countable : Countable TeamChildSpec.
Proof.
  refine (inj_countable' (fun c => (tch_dir c, tch_prefix c))
    (fun '(a, b) => mkTeamChildSpec a b) _).
  by intros [].
Defined.
#[global] Instance TeamOverlay_eq_dec : EqDecision TeamOverlay.
Proof. solve_decision. Defined.
#[global] Instance TeamOverlay_countable : Countable TeamOverlay.
Proof.
  refine (inj_countable'
    (fun o => (ov_disable_root o,
               (added_workspaces o, removed_workspaces o, disabled_workspaces o),
               (added_children o, removed_children o, disabled_children o)))
    (fun '(a, (b, c, d), (e, f, g)) => mkTeamOverlay a b c d e f g) _).
  by intros [].
Defined.
#[global] Instance TeamConfiguredState_eq_dec : EqDecision TeamConfiguredState.
Proof. solve_decision. Defined.
#[global] Instance TeamConfiguredState_countable : Countable TeamConfiguredState.
Proof.
  refine (inj_countable'
    (fun s => (root_orchestrator_enabled s, cs_workspaces s, cs_children s, cs_orchestrators s))
    (fun '(a, b, c, d) => mkTeamConfiguredState a b c d) _).
  by intros [].
Defined.
#[global] Instance TeamReconfigureAction_eq_dec : EqDecision TeamReconfigureAction.
Proof. solve_decision. Defined.
#[global] Instance TeamReconfigureAction_countable : Countable TeamReconfigureAction.
Proof.
  refine (inj_countable'
    (fun a => (act_action a, act_kind a, act_name a, act_dir a, act_detail a))
    (fun '(a, b, c, d, e) => mkAction a b c d e) _).
  by intros [].
Defined.
#[global] Instance TeamApplyReport_eq_dec : EqDecision TeamApplyReport.
Proof. solve_decision. Defined.
#[global] Instance TeamApplyReport_countable : Countable TeamApplyReport.
Proof.
  refine (inj_countable'
    (fun r => ((rep_started_at r, rep_finished_at r, rep_success r),
               (rep_error r, rep_reconcile_mode r, rep_actions r)))
    (fun '((a, b, c), (d, e, f)) => mkTeamApplyReport a b c d e f) _).
  by intros [].
Defined.
#[global] Instance TeamReconfigureState_eq_dec : EqDecision TeamReconfigureState.
Proof. solve_decision. Defined.
#[global] Instance TeamReconfigureState_countable : Countable TeamReconfigureState.
Proof.
  refine (inj_countable'
    (fun s => ((team_id s, base_config_path s, effective_config_path s, feature_enabled s),
               (revision s, overlay s, desired s, last_apply s)))
    (fun '((a, b, c, d), (e, f, g, h)) => mkTeamState a b c d e f g h) _).
  by intros [].
Defined.
#[global] Instance DemoTeamCodec : JsonCodec (list TeamReconfigureState) :=
  demo_codec (list TeamReconfigureState).
#[global] Instance DemoTeamCodecOk : JsonCodecOk (list TeamReconfigureState) :=
  demo_codec_ok (list TeamReconfigureState).

(** ** Requests *)

Definition demo_hash (s : string) : string := "abc123".
Definition flag_on : SharedValues :=
  mkSharedValues None {[ EXPERIMENTAL_MCP_TEAM_RECONFIGURE_FLAG_KEY := "true" ]} None.
Definition ctl : TeamController := team_controller_new "/state" team_store_in_memory.

Definition spec (dir : string) : TeamWorkspaceSpec :=
  mkTeamWorkspaceSpec dir "" "" "claude" "" "" "" "" ∅.
Definition add_gamma : TeamReconfigureChange :=
  mkChange OpAdd KWorkspace " gamma " (Some (spec "./gamma")) None.
Definition remove_beta : TeamReconfigureChange := mkChange OpRemove KWorkspace "beta" None None.
Definition disable_gamma : TeamReconfigureChange := mkChange OpDisable KWorkspace "gamma" None None.

Definition demo_begin (rev : option Z) (changes : list TeamReconfigureChange) (now : Z) :=
  begin_apply (F := MemFs) demo_hash demo_env 6 flag_on root_path rev changes
    (Some StartMissing) now now None.

(** The committed state and the lease after one apply. *)
Example apply_once :
  match demo_begin (Some 0%Z) [add_gamma; remove_beta] (secs 10) (ctl, demo_fs) with
  | Some (Ok tk, (c, _)) =>
      revision (plan_state (tk_plan tk)) = 1%Z
      /\ cs_workspaces (desired (plan_state (tk_plan tk))) = ["alpha"; "gamma"; "kid.w"]
      /\ (fun a => (act_action a, act_name a)) <$> plan_actions (tk_plan tk)
         = [("destroy", "beta"); ("ensure", "gamma")]
      /\ (lease_expiry <$> tc_leases c !! root_path) = Some (secs 130)
      /\ effective_config_path (plan_state (tk_plan tk)) = "/state/managed-teams/abc123.yaml"
  | _ => False
  end.
Proof. vm_compute. repeat split. Qed.

Definition after_gamma : TeamOverlay :=
  empty_team_overlay <| added_workspaces := {[ "gamma" := spec "/p/./gamma" ]} |>.

Lemma after_gamma_ok : overlay_ok after_gamma.
Proof. split; intros n; split; intros [? Hn]; by vm_compute in Hn. Qed.

Lemma change_has_its_effect_witness :
  let before := overlay_raw demo_env root_path empty_team_overlay root_config in
  let after := overlay_raw demo_env root_path after_gamma root_config in
  overlay_ok after_gamma
  /\ op_effect (workspace_of_spec demo_env "/p") ∅ (base_workspaces demo_env root_path root_config)
       "gamma" OpAdd (Some (spec "/p/./gamma")) (workspaces before) (workspaces after)
  /\ children after = children before
  /\ disable_root_orchestrator after = disable_root_orchestrator before.
Proof.
  exact (change_has_its_effect demo_env root_path root_config add_gamma empty_team_overlay []
           after_gamma [] empty_overlay_ok ltac:(vm_compute; reflexivity)).
Defined.

(** Disabling a workspace the overlay added is accepted without a warning and has no
    effect: the workspace is still there. *)
Example disabling_an_added_workspace_has_no_effect :
  match apply_changes demo_env demo_fs root_path empty_team_overlay [add_gamma; disable_gamma] with
  | Ok (o, warnings) =>
      warnings = []
      /\ is_Some (workspaces (overlay_raw demo_env root_path o root_config) !! "gamma")
  | Err _ => False
  end.
Proof. vm_compute. split; [done|]. by eexists. Qed.

(** ** One request at a time *)

Lemma ctl_ok : controller_ok ctl.
Proof.
  split; intros id x; [change (tc_leases ctl) with (∅ : gmap string TeamApplyLease)
    |change (ts_inner (tc_store ctl)) with (∅ : gmap string TeamReconfigureState)];
    by rewrite lookup_empty.
Qed.

Definition out_of {A} (r : option (result TeamError A * (TeamController * MemFs)))
  : TeamController * MemFs := default (ctl, demo_fs) (snd <$> r).
Definition value_of {A} (d : A) (r : option (result TeamError A * (TeamController * MemFs))) : A :=
  match r with Some (Ok a, _) => a | _ => d end.

Definition first_apply := demo_begin (Some 0%Z) [add_gamma] (secs 10) (ctl, demo_fs).

Definition succeeded {A} (r : option (result TeamError A * (TeamController * MemFs))) : bool :=
  match r with Some (Ok _, _) => true | _ => false end.

Lemma succeeded_inv {A} (r : option (result TeamError A * (TeamController * MemFs))) :
  succeeded r = true -> exists a c fs, r = Some (Ok a, (c, fs)).
Proof. destruct r as [[[a|e] [c fs]]|]; [|done..]. intros _. by exists a, c, fs. Qed.

Lemma succeeded_value {A} (d : A) r :
  succeeded r = true -> r = Some (Ok (value_of d r), ((out_of r).1, (out_of r).2)).
Proof. by destruct r as [[[a|e] [c fs]]|]. Qed.

Lemma apply_is_one_revision_witness :
  exists tk c' fs', first_apply = Some (Ok tk, (c', fs'))
  /\ exists base, canonical_config_path demo_env root_path = Ok base
     /\ revision (plan_state (tk_plan tk)) = i64_succ (stored_revision base ctl)
     /\ ts_inner (tc_store c') = <[base := plan_state (tk_plan tk)]> (ts_inner (tc_store ctl)).
Proof.
  destruct (succeeded_inv first_apply ltac:(vm_compute; reflexivity)) as (tk & c' & fs' & E).
  exists tk, c', fs'. split; [exact E|].
  destruct (apply_is_one_revision demo_hash demo_env 6 flag_on root_path (Some 0%Z) [add_gamma]
    (Some StartMissing) (secs 10) (secs 10) None ctl demo_fs tk c' fs' ctl_ok E)
    as (base & Hb & _ & _ & _ & _ & Hrev & Hst & _).
  exists base. split; [exact Hb|]. split; [exact Hrev|exact Hst].
Defined.

Definition leased : TeamController := (out_of first_apply).1.

Definition demo_token : string := "abc123-10000000000".
Definition demo_lease : TeamApplyLease :=
  mkLease root_path demo_token (secs 10) (secs 130) StartMissing.
Definition leased_state : TeamReconfigureState :=
  default (mkTeamState "" "" "" true 0 empty_team_overlay
             (mkTeamConfiguredState true [] [] []) None)
    (ts_inner (tc_store leased) !! root_path).

Lemma leased_leases : tc_leases leased = {[root_path := demo_lease]}.
Proof. vm_compute. reflexivity. Qed.
Lemma leased_states : ts_inner (tc_store leased) = {[root_path := leased_state]}.
Proof. vm_compute. reflexivity. Qed.

Lemma leased_ok : controller_ok leased.
Proof.
  split; rewrite ?leased_leases, ?leased_states; intros id x [<- <-]%lookup_singleton_Some;
    vm_compute; reflexivity.
Qed.

Lemma finish_reports_the_lease_witness :
  exists st c' fs',
    finish_apply flag_on demo_token true " ok " [] (secs 20) None (leased, demo_fs)
      = Some (Ok st, (c', fs'))
    /\ stored_revision root_path c' = stored_revision root_path leased
    /\ tc_leases c' !! root_path = None.
Proof.
  destruct (succeeded_inv
    (finish_apply flag_on demo_token true " ok " [] (secs 20) None (leased, demo_fs))
    ltac:(vm_compute; reflexivity)) as (st & c' & fs' & E).
  exists st, c', fs'. split; [exact E|].
  destruct (finish_reports_the_lease flag_on demo_token true " ok " [] (secs 20) None leased
    demo_fs (Ok st) c' fs' leased_ok E) as [(_ & Hne & _)|(id & l & Hl & _ & Hdel & _ & Hrev & _)];
    [discriminate Hne|].
  assert (id = root_path) as ->.
  { revert Hl. rewrite leased_leases. intros Hs.
    apply lookup_singleton_Some in Hs as [<- _]. reflexivity. }
  split; [exact Hrev|]. rewrite Hdel. apply lookup_delete_eq.
Defined.

Lemma team_states_survive_restart_witness :
  let st := mkTeamState "t" "t" "t" true 1 empty_team_overlay
              (mkTeamConfiguredState true [] [] []) None in
  let s' := (team_store_put st None (mkTeamStateStore (Some "f") ∅ None)).2 in
  team_store_get "t" s' = Some st /\ team_store_load "f" (Ok <$> ts_file s') = Ok s'.
Proof.
  intros st s'.
  destruct (team_states_survive_restart st None (mkTeamStateStore (Some "f") ∅ None))
    as (Hget & _ & Hload).
  { intros k x. change (ts_inner _) with (∅ : gmap string TeamReconfigureState).
    by rewrite lookup_empty. }
  split; [exact Hget|]. exact (Hload "f" eq_refl ltac:(vm_compute; reflexivity)).
Defined.

(** ** Interleaved requests *)

Definition sys0 : TeamSys (F := MemFs) := mkSys ctl demo_fs [] [].

Definition team_plan (changes : list TeamReconfigureChange) (now : Z) :=
  plan_inner (F := MemFs) demo_hash demo_env 6 root_path (Some 0%Z) changes true now.
Definition team_commit (p : TeamReconfigurePlan) (now : Z) :=
  commit_plan (F := MemFs) demo_hash demo_env 6 p true ArtifactsOnly now None.

Definition no_plan : TeamReconfigurePlan := mkTeamPlan leased_state 0 [] [] [].
Definition plan_run := team_plan [add_gamma] (secs 9) (ctl, demo_fs).
Definition p0 : TeamReconfigurePlan := value_of no_plan plan_run.
Definition c0 : TeamController := (out_of plan_run).1.
Definition fs0 : MemFs := (out_of plan_run).2.
Definition commit_run := team_commit p0 (secs 10) (c0, fs0).
Definition c1 : TeamController := (out_of commit_run).1.
Definition fs1 : MemFs := (out_of commit_run).2.
Definition tk1 : TeamApplyTicket := value_of (mkTeamTicket "" no_plan ArtifactsOnly) commit_run.
Definition sys1 : TeamSys (F := MemFs) := mkSys c1 fs1 [] [].
Definition lease1 : TeamApplyLease :=
  mkLease root_path demo_token (secs 10) (secs 130) ArtifactsOnly.

(** Two requests plan at revision 0; the first commits and finishes before the second
    commits.  The second commit succeeds although the revision it expected is gone: the
    stored revision is 1 again and the workspace the first request added is lost. *)
Example a_finished_apply_is_overwritten :
  match team_plan [remove_beta] (secs 9) (ctl, demo_fs) with
  | Some (Ok p2, (c, fs)) =>
      match team_plan [add_gamma] (secs 9) (c, fs) with
      | Some (Ok p1, s) =>
          match team_commit p1 (secs 10) s with
          | Some (Ok tk, s) =>
              match finish_apply flag_on (tk_token tk) true "" [] (secs 11) None s with
              | Some (Ok st1, s) =>
                  match team_commit p2 (secs 12) s with
                  | Some (Ok tk2, (c, _)) =>
                      revision st1 = 1%Z
                      /\ is_Some (added_workspaces (overlay st1) !! "gamma")
                      /\ plan_expected_revision p2 = 0%Z
                      /\ stored_revision root_path c = 1%Z
                      /\ added_workspaces (stored_overlay root_path c) !! "gamma" = None
                  | _ => False
                  end
              | _ => False
              end
          | _ => False
          end
      | _ => False
      end
  | _ => False
  end.
Proof. vm_compute. split_and!; first [reflexivity|by eexists]. Qed.

Lemma plan_succeeds : succeeded plan_run = true.
Proof. vm_compute. reflexivity. Qed.
Lemma plan_runs :
  plan_inner demo_hash demo_env 6 root_path (Some 0%Z) [add_gamma] true (secs 9) (ctl, demo_fs)
  = Some (Ok p0, (c0, fs0)).
Proof.
  pose proof (succeeded_value no_plan _ plan_succeeds) as Hrun.
  fold p0 c0 fs0 in Hrun. unfold plan_run, team_plan in Hrun. exact Hrun.
Qed.
Lemma commit_succeeds : succeeded commit_run = true.
Proof. vm_compute. reflexivity. Qed.
Lemma commit_runs :
  commit_plan demo_hash demo_env 6 p0 true ArtifactsOnly (secs 10) None (c0, fs0)
  = Some (Ok tk1, (c1, fs1)).
Proof.
  pose proof (succeeded_value (mkTeamTicket "" no_plan ArtifactsOnly) _ commit_succeeds) as Hrun.
  fold tk1 c1 fs1 in Hrun. unfold commit_run, team_commit in Hrun. exact Hrun.
Qed.

Lemma reach_sys1 : team_steps demo_hash demo_env 6 [EvPlan; EvCommit (team_id (plan_state p0)) (secs 10)] sys0 sys1.
Proof.
  exact (steps_cons _ _ _ EvPlan [EvCommit (team_id (plan_state p0)) (secs 10)] sys0
    (mkSys c0 fs0 [(p0, true, ArtifactsOnly)] []) sys1
    (step_plan demo_hash demo_env 6 root_path (Some 0%Z) [add_gamma] true ArtifactsOnly (secs 9)
       ctl demo_fs [] [] (Ok p0) c0 fs0 plan_runs)
    (steps_cons _ _ _ (EvCommit (team_id (plan_state p0)) (secs 10)) [] (mkSys c0 fs0 [(p0, true, ArtifactsOnly)] []) sys1 sys1
       (step_commit demo_hash demo_env 6 [] p0 true ArtifactsOnly [] [] (secs 10) None
          c0 fs0 (Ok tk1) c1 fs1 commit_runs)
       (steps_nil _ _ _ sys1))).
Qed.

Lemma lease_protects_the_team_witness :
  exists l s', tc_leases (sys_controller sys1) !! root_path = Some l
  /\ team_steps demo_hash demo_env 6 [EvFiles; EvTake "other"] sys1 s'
  /\ tc_leases (sys_controller s') !! root_path = Some l
  /\ stored root_path s' = stored root_path sys1
  /\ committed <$> stored root_path s' = committed <$> stored root_path sys1.
Proof.
  exists lease1.
  eexists (mkSys (sys_controller sys1) [] [] []).
  assert (tc_leases (sys_controller sys1) !! root_path = Some lease1) as Hl
    by (vm_compute; reflexivity).
  assert (team_steps demo_hash demo_env 6 [EvFiles; EvTake "other"] sys1
            (mkSys (sys_controller sys1) [] [] [])) as Hs.
  { eapply steps_cons; [apply step_files|]. eapply steps_cons; [|apply steps_nil].
    eapply (step_take _ _ _ true "other" true "" [] (secs 20) _ _ _ [] (Err (TokenNotFound "other"))).
    vm_compute. reflexivity. }
  destruct (lease_protects_the_team demo_hash demo_env 6 "/state" team_store_in_memory demo_fs
           [EvPlan; EvCommit (team_id (plan_state p0)) (secs 10)] sys1 root_path lease1 [EvFiles; EvTake "other"]
           (mkSys (sys_controller sys1) [] [] [])) as (Hl' & Hno & Hup);
    [|apply reach_sys1|exact Hl|exact Hs| |].
  - intros k st. change (ts_inner _) with (∅ : gmap string TeamReconfigureState).
    by rewrite lookup_empty.
  - repeat constructor. discriminate.
  - split; [exact Hl|]. split; [exact Hs|]. split; [exact Hl'|].
    split; [apply Hno|apply Hup]; constructor.
Defined.

(** A report takes its lease and reads the state of revision 1; before it writes, the next
    apply commits revision 2.  Its write puts the state of revision 1 back while the lease
    of the second apply is alive. *)
Example late_report_reverts_the_next_apply :
  match take_lease (F := MemFs) demo_token (leased, (out_of first_apply).2) with
  | Some (Ok l1, s) =>
      match read_leased_team l1 s with
      | Some (Ok st1, s) =>
          match begin_apply demo_hash demo_env 6 flag_on root_path (Some 1%Z) [remove_beta]
                  None (secs 20) (secs 20) None s with
          | Some (Ok tk2, (c2, fs2)) =>
              match put_state (reported true (apply_report l1 (secs 19) true "" []) st1) None
                      (c2, fs2) with
              | Some (Ok _, (c3, _)) =>
                  stored_revision root_path c2 = 2%Z
                  /\ removed_workspaces (stored_overlay root_path c2) !! "beta" = Some true
                  /\ stored_revision root_path c3 = 1%Z
                  /\ removed_workspaces (stored_overlay root_path c3) !! "beta" = None
                  /\ (lease_token <$> tc_leases c3 !! root_path) = Some (tk_token tk2)
              | _ => False
              end
          | _ => False
          end
      | _ => False
      end
  | _ => False
  end.
Proof. vm_compute. repeat split. Qed.
