(* ===== verification/TuiData.v ===== *)
(** * What the terminal interface shows
    (crates/ax-tui/src/agents.rs, tasks.rs, stream.rs and captures.rs).

    The rows of the agents panel, the task list and its filters, the timeline of a task,
    the snapshots of the daemon's files and the cache of tmux captures.  [now] is the
    clock; the readings one call takes are equal. *)

From Stdlib Require Import Ascii.
From stdpp Require Import prelude strings list gmap sorting.
From S2P Require Import Prelude RustStr Proto History Paths ConfigSchema ConfigTree Tmux ErrorText RustText.

(** ** Library: [sort_by] (stable), [str::split], [str::replace] *)

Section sort_by.
Context {A : Type} (cmp : A -> A -> comparison).

Fixpoint insert_by (x : A) (l : list A) : list A :=
  match l with
  | [] => [x]
  | y :: r => match cmp x y with
              | Gt => y :: insert_by x r
              | _ => x :: l
              end
  end.
Definition sort_by (l : list A) : list A := foldr insert_by [] l.

Lemma insert_by_perm x l : insert_by x l ≡ₚ x :: l.
Proof.
  induction l as [|y l IH]; cbn [insert_by]; [done|].
  destruct (cmp x y); [done..|]. rewrite IH. apply Permutation_swap.
Qed.
Lemma sort_by_perm l : sort_by l ≡ₚ l.
Proof. induction l as [|x l IH]; cbn; [done|]. by rewrite insert_by_perm, IH. Qed.

Context (cmp_total : forall x y, cmp x y = Gt -> cmp y x <> Gt).
Context (cmp_trans : forall x y z, cmp x y <> Gt -> cmp y z <> Gt -> cmp x z <> Gt).

Lemma insert_by_sorted x l :
  StronglySorted (fun a b => cmp a b <> Gt) l -> StronglySorted (fun a b => cmp a b <> Gt) (insert_by x l).
Proof.
  induction 1 as [|y l Hs IH Hall]; cbn [insert_by]; [repeat constructor|].
  assert (cmp x y <> Gt -> StronglySorted (fun a b => cmp a b <> Gt) (x :: y :: l)) as Hfront.
  { intros Hxy. constructor; [by constructor|]. constructor; [done|].
    eapply Forall_impl; [exact Hall|]. intros z. by apply cmp_trans. }
  destruct (cmp x y) eqn:E; [by apply Hfront..|].
  constructor; [done|]. rewrite insert_by_perm. constructor; [by apply cmp_total|done].
Qed.
Lemma sort_by_sorted l : StronglySorted (fun a b => cmp a b <> Gt) (sort_by l).
Proof. induction l as [|x l IH]; cbn; [constructor|by apply insert_by_sorted]. Qed.
End sort_by.

(** [str::replace] of a pattern that is not empty. *)
Fixpoint replace_from (p r : string) (skip : nat) (s : string) : string :=
  match s with
  | "" => ""
  | String a rest =>
      match skip with
      | S k => replace_from p r k rest
      | 0 => if starts_with s p then r +:+ replace_from p r (String.length p - 1) rest
             else String a (replace_from p r 0 rest)
      end
  end.

(** [chars().take(n)], collected. *)
Definition take_chars (n : nat) (s : string) : string := of_bytes (mjoin (take n (chars s))).

(** ** agents.rs *)

Record AgentEntry := mkAgentEntry {
  ae_label : string;
  ae_workspace : string;
  ae_session_index : option nat;
  ae_level : nat;
  ae_group : bool;
  ae_reconcile : string;
}.
Definition entry_group (label : string) (level : nat) : AgentEntry :=
  mkAgentEntry label "" None level true "".
Definition entry_leaf (label workspace : string) (session_index : option nat) (level : nat)
    (reconcile : string) : AgentEntry :=
  mkAgentEntry label workspace session_index level false reconcile.

Definition root_orchestrator_visible (node : ProjectNode) : bool :=
  negb (is_empty (pn_prefix node) && pn_disable_root_orchestrator node).
Definition config_orchestrator_name (prefix : string) : string :=
  if is_empty prefix then "orchestrator" else prefix +:+ ".orchestrator".
Definition runtime_only_group_label (enabled : bool) : string :=
  if enabled then "▾ runtime-only (not in config tree)" else "▾ unregistered (not in config tree)".

Definition reconfigure_agent_state (name : string) (desired : gmap string bool)
    (has_session has_agent : bool) : string :=
  if bool_decide (desired = ∅) then "" else
  match bool_decide (is_Some (desired !! name)), has_session || has_agent with
  | true, false => "desired"
  | false, true => if starts_with name "_" then "" else "runtime-only"
  | _, _ => ""
  end.

(** [iter().enumerate()]. *)
Definition enumerate {A} (l : list A) : list (nat * A) := zip (seq 0 (length l)) l.
Lemma enumerate_spec {A} (l : list A) i x : (i, x) ∈ enumerate l <-> l !! i = Some x.
Proof.
  unfold enumerate. rewrite list_elem_of_lookup. split.
  - intros [k [Hk1 Hk2]%lookup_zip_Some]. cbn in *. by apply lookup_seq in Hk1 as [-> _].
  - intros Hi. exists i. apply lookup_zip_Some. split; [|done]. cbn. apply lookup_seq. split; [lia|].
    by apply lookup_lt_Some in Hi.
Qed.

(** The last session of a name wins. *)
Definition session_by_workspace (sessions : list SessionInfo) : gmap string nat :=
  foldl (fun m p => <[si_workspace p.2 := p.1]> m) ∅ (enumerate sessions).

(** The names [collect_known] inserts, in its order. *)
Fixpoint known_names (node : ProjectNode) : list string :=
  (if root_orchestrator_visible node then [config_orchestrator_name (pn_prefix node)] else [])
  ++ (wr_merged_name <$> pn_workspaces node)
  ++ mjoin (known_names <$> pn_children node).
Definition collect_known (node : ProjectNode) (known : gmap string bool) : gmap string bool :=
  foldl (fun m n => <[n := true]> m) known (known_names node).

Definition orchestrator_row (by_ws : gmap string nat) (desired : gmap string bool) (level : nat)
    (node : ProjectNode) : list AgentEntry :=
  if root_orchestrator_visible node then
    let orch_name := config_orchestrator_name (pn_prefix node) in
    let is_root_orch := is_empty (pn_prefix node) && String.eqb orch_name "orchestrator" in
    let session_idx := by_ws !! orch_name in
    let reconcile_offline :=
      if is_root_orch then "" else reconfigure_agent_state orch_name desired false false in
    let reconcile :=
      match session_idx with
      | Some _ => reconfigure_agent_state orch_name desired true false
      | None => reconcile_offline
      end in
    [entry_leaf "◆ orchestrator" orch_name session_idx (S level) reconcile]
  else [].

Definition workspace_row (by_ws : gmap string nat) (desired : gmap string bool) (level : nat)
    (ws : WorkspaceRef) : AgentEntry :=
  let session_idx := by_ws !! wr_merged_name ws in
  entry_leaf (wr_name ws) (wr_merged_name ws) session_idx (S level)
    (reconfigure_agent_state (wr_merged_name ws) desired (bool_decide (is_Some session_idx)) false).

(** [append_project] pushes these rows. *)
Fixpoint append_project (by_ws : gmap string nat) (desired : gmap string bool) (level : nat)
    (node : ProjectNode) : list AgentEntry :=
  entry_group ("▾ " +:+ display_name node) level
  :: orchestrator_row by_ws desired level node
  ++ (workspace_row by_ws desired level <$> pn_workspaces node)
  ++ mjoin (append_project by_ws desired (S level) <$> pn_children node).

Definition unregistered_row (desired : gmap string bool) (p : nat * SessionInfo) : AgentEntry :=
  entry_leaf (si_workspace p.2) (si_workspace p.2) (Some p.1) 1
    (reconfigure_agent_state (si_workspace p.2) desired true false).

Definition build_from_tree (root : ProjectNode) (sessions : list SessionInfo)
    (reconfigure_enabled : bool) (desired : gmap string bool) : list AgentEntry :=
  let by_ws := session_by_workspace sessions in
  let known := collect_known root ∅ in
  let entries := append_project by_ws desired 0 root in
  let unregistered :=
    List.filter (fun p => negb (bool_decide (is_Some (known !! si_workspace p.2)))) (enumerate sessions) in
  match unregistered with
  | [] => entries
  | _ => entries ++ entry_group (runtime_only_group_label reconfigure_enabled) 0
                    :: (unregistered_row desired <$> unregistered)
  end.

(** The tree of name parts; [nd_children] is a [BTreeMap], in the order of its keys. *)
Inductive Node := mkNode {
  nd_name : string;
  nd_session_index : option nat;
  nd_children : list (string * Node);
}.

Definition split_workspace_path (workspace : string) : list string :=
  if contains workspace "." then split_char dot workspace
  else if 2 <=? length (List.filter (Ascii.eqb underscore) (bytes workspace))
  then split_char underscore workspace
  else [workspace].

(** [children.entry(key).or_insert_with(fresh)], then [f] on the child. *)
Fixpoint entry_update (key : string) (fresh : Node) (f : Node -> Node) (children : list (string * Node))
  : list (string * Node) :=
  match children with
  | [] => [(key, f fresh)]
  | (k, n) :: r =>
      match String.compare key k with
      | Lt => (key, f fresh) :: children
      | Eq => (k, f n) :: r
      | Gt => (k, n) :: entry_update key fresh f r
      end
  end.

(** The walk down the parts of one session's name. *)
Fixpoint insert_path (i : nat) (parts : list string) (node : Node) : Node :=
  match parts with
  | [] => node
  | part :: rest =>
      mkNode (nd_name node) (nd_session_index node)
        (entry_update part (mkNode part None [])
           (fun child =>
              insert_path i rest
                (match rest with
                 | [] => mkNode (nd_name child) (Some i) (nd_children child)
                 | _ => child
                 end)) (nd_children node))
  end.

Definition child_rows (walk : nat -> Node -> list AgentEntry) (level : nat) (child : Node)
  : list AgentEntry :=
  let has_children := negb (bool_decide (length (nd_children child) = 0)) in
  (if has_children then [entry_group ("▾ " +:+ nd_name child) level] else [])
  ++ match nd_session_index child with
     | Some idx => [entry_leaf (nd_name child) (nd_name child) (Some idx) level ""]
     | None => []
     end
  ++ (if has_children then walk (S level) child else []).
Fixpoint walk_fallback (level : nat) (node : Node) : list AgentEntry :=
  mjoin ((fun kc => child_rows walk_fallback level kc.2) <$> nd_children node).

Definition build_fallback (sessions : list SessionInfo) : list AgentEntry :=
  walk_fallback 0
    (foldl (fun root p => insert_path p.1 (split_workspace_path (si_workspace p.2)) root)
       (mkNode "" None []) (enumerate sessions)).

Definition build_entries (sessions : list SessionInfo) (tree : option ProjectNode)
    (reconfigure_enabled : bool) (desired : gmap string bool) : list AgentEntry :=
  match tree with
  | Some node => build_from_tree node sessions reconfigure_enabled desired
  | None => build_fallback sessions
  end.

(** ** tasks.rs *)

Inductive SnapshotRead (A : Type) := Loaded (v : A) | Missing | SnapshotError (message : string).
Arguments Loaded {A} _.
Arguments Missing {A}.
Arguments SnapshotError {A} _.

Inductive TaskFilterMode := FilterActive | FilterStale | FilterDone | FilterAll.
#[export] Instance TaskFilterMode_eq_dec : EqDecision TaskFilterMode.
Proof. solve_decision. Defined.
Definition filter_label (m : TaskFilterMode) : string :=
  match m with
  | FilterActive => "active" | FilterStale => "stale" | FilterDone => "done" | FilterAll => "all"
  end.
Definition filter_next (m : TaskFilterMode) : TaskFilterMode :=
  match m with
  | FilterActive => FilterStale | FilterStale => FilterDone
  | FilterDone => FilterAll | FilterAll => FilterActive
  end.

Definition is_active (s : TaskStatus) : bool :=
  match s with Pending | InProgress | Blocked => true | _ => false end.
Definition is_finished (s : TaskStatus) : bool :=
  match s with Completed | Failed | Cancelled => true | _ => false end.

Definition task_is_stale (now : Z) (task : Task) : bool :=
  match t_stale_info task with
  | Some info => is_stale info
  | None => false
  end
  || match t_status task with
     | Pending | InProgress =>
         (0 <? t_stale_after_seconds task)%Z
         && (t_stale_after_seconds task <=? Z.quot (now - t_updated_at task) nanos)%Z
     | _ => false
     end.

Definition task_status_str (s : TaskStatus) : string :=
  match s with
  | Pending => "pending" | InProgress => "in_progress" | Blocked => "blocked"
  | Completed => "completed" | Failed => "failed" | Cancelled => "cancelled"
  end.
Definition task_status_label (now : Z) (task : Task) : string :=
  let base := task_status_str (t_status task) in
  if task_is_stale now task && negb (is_finished (t_status task)) then base +:+ " stale" else base.

Definition task_priority_label (p : option TaskPriority) : string :=
  match p with
  | Some Urgent => "urgent" | Some High => "high" | Some Low => "low" | Some Normal | None => "normal"
  end.
Definition task_priority_order (p : option TaskPriority) : Z :=
  match p with Some Urgent => 0 | Some High => 1 | None | Some Normal => 2 | Some Low => 3 end.
Definition task_sort_order (s : TaskStatus) : Z :=
  match s with
  | InProgress => 0 | Pending => 1 | Blocked => 2 | Failed => 3 | Cancelled => 4 | Completed => 5
  end.

(** The comparison of [sort_tasks_for_display]. *)
Definition display_cmp (a b : Task) : comparison :=
  let oa := task_sort_order (t_status a) in
  let ob := task_sort_order (t_status b) in
  if negb (oa =? ob)%Z then (oa ?= ob)%Z else
  let pa := task_priority_order (t_priority a) in
  let pb := task_priority_order (t_priority b) in
  if negb (pa =? pb)%Z then (pa ?= pb)%Z else
  if negb (t_updated_at a =? t_updated_at b)%Z then (t_updated_at b ?= t_updated_at a)%Z else
  if negb (t_created_at a =? t_created_at b)%Z then (t_created_at b ?= t_created_at a)%Z else
  String.compare (t_id a) (t_id b).
Definition sort_tasks_for_display : list Task -> list Task := sort_by display_cmp.

Definition shown_by (now : Z) (mode : TaskFilterMode) (task : Task) : bool :=
  match mode with
  | FilterActive => is_active (t_status task)
  | FilterStale => task_is_stale now task
  | FilterDone => is_finished (t_status task)
  | FilterAll => true
  end.
Definition filter_tasks (now : Z) (tasks : list Task) (mode : TaskFilterMode) : list Task :=
  sort_tasks_for_display (List.filter (shown_by now mode) tasks).

Record TaskSummary := mkTaskSummary {
  sm_total : nat;
  sm_pending : nat;
  sm_in_progress : nat;
  sm_blocked : nat;
  sm_completed : nat;
  sm_failed : nat;
  sm_cancelled : nat;
  sm_stale : nat;
  sm_diverged : nat;
  sm_queued_messages : Z;
  sm_urgent_or_high : nat;
}.
#[export] Instance TaskSummary_eta : Updatable TaskSummary := fun s =>
  mkTaskSummary (sm_total s) (sm_pending s) (sm_in_progress s) (sm_blocked s) (sm_completed s)
    (sm_failed s) (sm_cancelled s) (sm_stale s) (sm_diverged s) (sm_queued_messages s)
    (sm_urgent_or_high s).

(** One pass of the loop of [summarize_tasks]. *)
Definition summary_step (now : Z) (s : TaskSummary) (task : Task) : TaskSummary :=
  let s := match t_status task with
           | Pending => s <| sm_pending := S (sm_pending s) |>
           | InProgress => s <| sm_in_progress := S (sm_in_progress s) |>
           | Blocked => s <| sm_blocked := S (sm_blocked s) |>
           | Completed => s <| sm_completed := S (sm_completed s) |>
           | Failed => s <| sm_failed := S (sm_failed s) |>
           | Cancelled => s <| sm_cancelled := S (sm_cancelled s) |>
           end in
  let s := match t_priority task with
           | Some Urgent | Some High => s <| sm_urgent_or_high := S (sm_urgent_or_high s) |>
           | _ => s
           end in
  let s := if task_is_stale now task then s <| sm_stale := S (sm_stale s) |> else s in
  match t_stale_info task with
  | Some info =>
      let s := s <| sm_queued_messages := i64_wrap (sm_queued_messages s + pending_messages info) |> in
      if state_divergence info then s <| sm_diverged := S (sm_diverged s) |> else s
  | None => s
  end.
Definition summarize_tasks (now : Z) (tasks : list Task) : TaskSummary :=
  foldl (summary_step now) (mkTaskSummary (length tasks) 0 0 0 0 0 0 0 0 0 0) tasks.

Definition show_nat (n : nat) : string := show_Z (Z.of_nat n).
Definition format_task_summary (s : TaskSummary) : string :=
  "total=" +:+ show_nat (sm_total s) +:+ "  pending=" +:+ show_nat (sm_pending s)
  +:+ "  in_progress=" +:+ show_nat (sm_in_progress s) +:+ "  blocked=" +:+ show_nat (sm_blocked s)
  +:+ "  stale=" +:+ show_nat (sm_stale s) +:+ "  diverged=" +:+ show_nat (sm_diverged s)
  +:+ "  queued_msgs=" +:+ show_Z (sm_queued_messages s)
  +:+ (if 0 <? sm_cancelled s then "  cancelled=" +:+ show_nat (sm_cancelled s) else "")
  +:+ (if 0 <? sm_urgent_or_high s then "  high_pri=" +:+ show_nat (sm_urgent_or_high s) else "").

Definition short_task_id (id : string) : string :=
  if 8 <? length (chars id) then take_chars 8 id else id.

Definition format_task_age (now : Z) (task : Task) : string :=
  let secs := Z.max (Z.quot (now - t_updated_at task) nanos) 0 in
  if (secs <? 60)%Z then show_Z secs +:+ "s"
  else if (secs <? 3600)%Z then show_Z (secs / 60) +:+ "m"
  else if (secs <? 86400)%Z then show_Z (secs / 3600) +:+ "h"
  else show_Z (secs / 86400) +:+ "d".

Definition truncate (s : string) (limit : nat) : string :=
  if limit =? 0 then "" else
  if length (chars s) <=? limit then s else
  if limit =? 1 then "…" else take_chars (limit - 1) s +:+ "…".

Inductive TaskActivityKind := ActLifecycle | ActLog | ActMessage.
Definition activity_label (k : TaskActivityKind) : string :=
  match k with ActLifecycle => "lifecycle" | ActLog => "log" | ActMessage => "message" end.
Definition activity_rank (k : TaskActivityKind) : Z :=
  match k with ActLifecycle => 0 | ActLog => 1 | ActMessage => 2 end.

Record TaskActivityEntry := mkTaskActivityEntry {
  ta_timestamp : Z;
  ta_kind : TaskActivityKind;
  ta_actor : string;
  ta_summary : string;
}.

Definition related_task_messages (task : Task) (history : list HistoryEntry) : list HistoryEntry :=
  List.filter (fun e => String.eqb (h_task_id e) (t_id task)
                        || contains (h_content e) (t_id task)
                        || String.eqb (h_from e) (t_assignee task)
                        || String.eqb (h_to e) (t_assignee task)
                        || String.eqb (h_from e) (t_created_by task)
                        || String.eqb (h_to e) (t_created_by task)) history.

(** The event of the status, unless a finished task has no result. *)
Definition status_activity (task : Task) : list TaskActivityEntry :=
  let event summary :=
    [mkTaskActivityEntry (t_updated_at task) ActLifecycle (t_assignee task) summary] in
  match t_status task with
  | Completed => if is_empty (t_result task) then [] else event "completed task"
  | Failed => if is_empty (t_result task) then [] else event "failed task"
  | Cancelled => if is_empty (t_result task) then [] else event "cancelled task"
  | InProgress => event "task in progress"
  | _ => []
  end.

Definition message_activity (task : Task) (msg : HistoryEntry) : TaskActivityEntry :=
  let summary := replace_char nl sp (h_content msg) in
  let summary :=
    if contains summary (t_id task) && negb (is_empty (t_id task))
    then replace_from (t_id task) (short_task_id (t_id task)) 0 summary else summary in
  mkTaskActivityEntry (h_timestamp msg) ActMessage (h_from msg +:+ "->" +:+ h_to msg) summary.

Definition activity_cmp (a b : TaskActivityEntry) : comparison :=
  match (ta_timestamp a ?= ta_timestamp b)%Z with
  | Eq => (activity_rank (ta_kind a) ?= activity_rank (ta_kind b))%Z
  | c => c
  end.

Definition activity_entries (task : Task) (history : list HistoryEntry) : list TaskActivityEntry :=
  [mkTaskActivityEntry (t_created_at task) ActLifecycle (t_created_by task)
     ("created task for " +:+ t_assignee task)]
  ++ status_activity task
  ++ match t_removed_at task with
     | Some ts =>
         [mkTaskActivityEntry ts ActLifecycle
            (if is_empty (t_removed_by task) then t_created_by task else t_removed_by task) "removed task"]
     | None => []
     end
  ++ ((fun log => mkTaskActivityEntry (log_timestamp log) ActLog (log_workspace log) (log_message log))
        <$> t_logs task)
  ++ (message_activity task <$> related_task_messages task history).

Definition build_task_activity (task : Task) (history : list HistoryEntry) (limit : nat)
  : list TaskActivityEntry :=
  let entries := sort_by activity_cmp (activity_entries task history) in
  if (0 <? limit) && (limit <? length entries) then drop (length entries - limit) entries else entries.

(** ** Snapshots of the daemon's files (tasks.rs, stream.rs; socket_path.rs of ax-daemon) *)

(** [env::var_os("HOME")], an empty value being none. *)
Definition home_dir (home : option string) : option string :=
  match home with
  | Some h => if is_empty h then None else Some h
  | None => None
  end.
Definition expand_socket_path (home : option string) (path : string) : string :=
  if String.eqb path "~" then default "~" (home_dir home) else
  match strip_prefix path "~/" with
  | Some rest => match home_dir home with
                 | Some h => join h rest
                 | None => path
                 end
  | None => path
  end.

Definition TASKS_FILE_NAME : string := "tasks-state.json".
Definition LEGACY_TASKS_FILE_NAME : string := "tasks.json".
Definition HISTORY_FILE_NAME : string := "message_history.jsonl".

Definition beside_socket (home : option string) (socket_path name : string) : string :=
  join (default name (parent (expand_socket_path home socket_path))) name.
Definition tasks_file_path (home : option string) (socket_path : string) : string :=
  beside_socket home socket_path TASKS_FILE_NAME.
Definition history_file_path (home : option string) (socket_path : string) : string :=
  beside_socket home socket_path HISTORY_FILE_NAME.

(** [Path::with_file_name] of a path that has a file name. *)
Definition with_file_name (path name : string) : string :=
  match parent path with
  | Some dir => join dir name
  | None => name
  end.

(** What a JSON parser says of a text it refuses. *)
Class ParseText := { parse_error_text : string -> string }.

Section snapshots.
Context {F : Type} `{!FileSystem F} `{!TextOps} `{!SysText} `{!ParseText}.
Context `{!JsonCodec (list Task)} `{!JsonCodec HistoryEntry}.
Context (fs : F).

Definition read_tasks_snapshot_file (path : string) : SnapshotRead (list Task) :=
  match fs_read fs path with
  | Err IoNotFound => Missing
  | Err e => SnapshotError ("tasks snapshot read " +:+ path +:+ ": " +:+ to_string e)
  | Ok data =>
      match from_slice data with
      | None => SnapshotError ("tasks snapshot parse " +:+ path +:+ ": " +:+ parse_error_text data)
      | Some tasks => Loaded (sort_tasks_for_display tasks)
      end
  end.

Definition read_tasks_snapshot (path : string) : SnapshotRead (list Task) :=
  match read_tasks_snapshot_file path with
  | Missing =>
      if bool_decide (file_name path = Some TASKS_FILE_NAME)
      then read_tasks_snapshot_file (with_file_name path LEGACY_TASKS_FILE_NAME)
      else Missing
  | r => r
  end.

Definition read_tasks (path : string) : list Task :=
  match read_tasks_snapshot path with
  | Loaded tasks => tasks
  | Missing | SnapshotError _ => []
  end.

(** The loop over the lines; [idx] is the number of lines before. *)
Fixpoint parse_history (path : string) (idx : nat) (ls : list string) (entries : list HistoryEntry)
  : SnapshotRead (list HistoryEntry) :=
  match ls with
  | [] => Loaded entries
  | line :: rest =>
      if is_empty line then parse_history path (S idx) rest entries else
      match from_slice line with
      | Some entry => parse_history path (S idx) rest (entries ++ [entry])
      | None => SnapshotError ("history snapshot parse " +:+ path +:+ " line " +:+ show_nat (S idx)
                               +:+ ": " +:+ parse_error_text line)
      end
  end.

Definition read_history_snapshot (path : string) (max_entries : nat) : SnapshotRead (list HistoryEntry) :=
  match fs_read fs path with
  | Err IoNotFound => Missing
  | Err e => SnapshotError ("history snapshot read " +:+ path +:+ ": " +:+ to_string e)
  | Ok data =>
      match parse_history path 0 (lines data) [] with
      | Loaded entries =>
          Loaded (if max_entries <? length entries
                  then drop (length entries - max_entries) entries else entries)
      | r => r
      end
  end.

Definition read_history (path : string) (max_entries : nat) : list HistoryEntry :=
  match read_history_snapshot path max_entries with
  | Loaded entries => entries
  | Missing | SnapshotError _ => []
  end.
End snapshots.

(** ** captures.rs *)

Definition BACKGROUND_MAX_AGE : Z := 2 * nanos.
Definition BACKGROUND_BATCH_SIZE : nat := 2.
Definition RUNNING_WINDOW : Z := 3 * nanos.

Record CaptureEntry := mkCaptureEntry {
  ce_content : string;
  ce_captured_at : Z;
  ce_last_changed_at : Z;
}.
Record CaptureCache := mkCaptureCache {
  cc_entries : gmap string CaptureEntry;
  cc_cursor : nat;
}.
#[export] Instance CaptureCache_eta : Updatable CaptureCache := fun c =>
  mkCaptureCache (cc_entries c) (cc_cursor c).

(** [saturating_duration_since]. *)
Definition since (now t : Z) : Z := Z.max 0 (now - t).

Section captures.
Context {T : Type} `{!Tmux T}.
Context (t : T) (now : Z).

Definition capture_into (session : SessionInfo) (c : CaptureCache) : CaptureCache :=
  match capture_pane (si_workspace session) false t with
  | Err _ => c
  | Ok content =>
      let last_changed_at :=
        match cc_entries c !! si_workspace session with
        | Some prev => if String.eqb (ce_content prev) content then ce_last_changed_at prev else now
        | None => now
        end in
      c <| cc_entries := <[si_workspace session := mkCaptureEntry content now last_changed_at]>
                           (cc_entries c) |>
  end.

Definition needs_capture (focused : option string) (c : CaptureCache) (s : SessionInfo) : bool :=
  negb (bool_decide (focused = Some (si_workspace s)))
  && match cc_entries c !! si_workspace s with
     | None => true
     | Some entry => (BACKGROUND_MAX_AGE <=? since now (ce_captured_at entry))%Z
     end.

(** [batch] sessions of [background] from the cursor on; an index is never past the end. *)
Definition next_batch (cursor batch : nat) (background : list SessionInfo) : list SessionInfo :=
  omap (fun i => background !! ((cursor + i) `mod` length background)) (seq 0 batch).

Definition captures_refresh (sessions : list SessionInfo) (focused : option string) (c : CaptureCache)
  : list string * CaptureCache :=
  match sessions with
  | [] => ([], c)
  | _ =>
      let hot := match focused with
                 | Some name => List.find (fun s => String.eqb (si_workspace s) name) sessions
                 | None => None
                 end in
      let '(refreshed, c) :=
        match hot with
        | Some session => ([si_workspace session], capture_into session c)
        | None => ([], c)
        end in
      let background := List.filter (needs_capture focused c) sessions in
      match background with
      | [] => (refreshed, c)
      | _ =>
          let batch := Nat.min BACKGROUND_BATCH_SIZE (length background) in
          let turn := next_batch (cc_cursor c) batch background in
          (refreshed ++ (si_workspace <$> turn),
           (foldl (fun c s => capture_into s c) c turn)
             <| cc_cursor := (cc_cursor c + batch) `mod` length background |>)
      end
  end.
End captures.

Definition is_recently_active (c : CaptureCache) (workspace : string) (now : Z) : bool :=
  match cc_entries c !! workspace with
  | Some entry => (since now (ce_last_changed_at entry) <? RUNNING_WINDOW)%Z
  | None => false
  end.

Definition prune (sessions : list SessionInfo) (c : CaptureCache) : CaptureCache :=
  c <| cc_entries := filter (fun kv => kv.1 ∈ (si_workspace <$> sessions)) (cc_entries c) |>.

(** *** Fitting a capture to the pane *)

Definition char_in (c : list ascii) (lo hi : N) : bool :=
  match c with
  | [a] => ((lo <=? code a) && (code a <=? hi))%N
  | _ => false
  end.
Definition tab : ascii := Ascii.ascii_of_nat 9.

(** [char::is_control]: U+0000 to U+001F and U+007F to U+009F. *)
Definition is_control (c : list ascii) : bool :=
  char_in c 0 31 || char_in c 127 127
  || match c with
     | [a; b] => ((code a =? 194) && (128 <=? code b) && (code b <=? 159))%N
     | _ => false
     end.

Inductive CsiState := CsiText | CsiEscape | CsiCsi.
Fixpoint strip_csi (state : CsiState) (cs : list (list ascii)) : list (list ascii) :=
  match cs with
  | [] => []
  | ch :: cs =>
      match state with
      | CsiText => if char_in ch 27 27 then strip_csi CsiEscape cs else ch :: strip_csi CsiText cs
      | CsiEscape => if char_in ch 91 91 then strip_csi CsiCsi cs else ch :: strip_csi CsiText cs
      | CsiCsi => if char_in ch 64 126 then strip_csi CsiText cs else strip_csi CsiCsi cs
      end
  end.

(** The characters left of a line, a tab being two spaces. *)
Definition sanitize_capture_line (line : string) : list (list ascii) :=
  mjoin ((fun c => if bool_decide (c = [tab]) then [[sp]; [sp]] else [c])
           <$> List.filter (fun c => negb (is_control c) || bool_decide (c = [tab]))
                 (strip_csi CsiText (chars line))).

(** [chunks(width)]. *)
Fixpoint chunks (fuel width : nat) {A} (l : list A) : list (list A) :=
  match fuel, l with
  | S fuel, _ :: _ => take width l :: chunks fuel width (drop width l)
  | _, _ => []
  end.
Definition wrap_capture_line (line : string) (width : nat) : list (list (list ascii)) :=
  let clean := sanitize_capture_line line in
  match clean with
  | [] => [[]]
  | _ => chunks (length clean) width clean
  end.

Fixpoint skip_blank (ls : list string) : list string :=
  match ls with
  | l :: r => if is_empty (trim l) then skip_blank r else ls
  | [] => []
  end.
(** The rows, each a list of characters. *)
Definition wrapped_rows (capture : string) (width : nat) : list (list (list ascii)) :=
  if width =? 0 then [] else
  mjoin ((fun line => wrap_capture_line line width) <$> rev (skip_blank (rev (lines capture)))).
Definition wrapped_lines (capture : string) (width : nat) : list string :=
  (fun row => of_bytes (mjoin row)) <$> wrapped_rows capture width.
Definition recent_wrapped_lines (capture : string) (rows width : nat) : list string :=
  if (rows =? 0) || (width =? 0) then [] else
  let visual_lines := wrapped_lines capture width in
  drop (length visual_lines - rows) visual_lines.
