(* ===== verification/TuiApp.v ===== *)
(** * The state of the terminal interface and its reaction to keys
    (crates/ax-tui/src/state.rs, actions.rs and input.rs, and what render.rs changes).

    [App] is the struct of the source without the animation; the panels' cursors are
    [usize] in [Z], moved with [i32] arithmetic.  A key event takes one reading of each
    clock.  Only the quick action "interrupt" reaches tmux. *)

From Stdlib Require Import Ascii.
From stdpp Require Import prelude strings list gmap.
From S2P Require Import Prelude Act RustStr Proto History Registry Paths ConfigSchema ConfigTree.
From S2P Require Import Tmux ErrorText Usage UsageHistory UsageTrends RustText TuiData.

(** ** 32-bit positions *)

Definition i32_max : Z := 2 ^ 31 - 1.
Definition i32_wrap (z : Z) : Z := (z + 2 ^ 31) `mod` 2 ^ 32 - 2 ^ 31.
Definition i32_saturate (z : Z) : Z := Z.max (- 2 ^ 31) (Z.min i32_max z).

(** [Ord::clamp], which asserts [lo <= hi]. *)
Definition clamp_to (lo hi x : Z) : Z :=
  if (x <? lo)%Z then lo else if (hi <? x)%Z then hi else x.

Definition position {A} (f : A -> bool) (l : list A) : option nat := fst <$> list_find (fun x => f x = true) l.

(** [(current as i32 + delta).rem_euclid(n) as usize]. *)
Definition cycle_index (current : nat) (delta : Z) (n : nat) : nat :=
  Z.to_nat (i32_wrap (i32_wrap (Z.of_nat current) + delta) `mod` Z.of_nat n).
(** One step in a fixed order: the index is below the length, so the default is not used. *)
Definition cycle {A} (order : list A) (is_current : A -> bool) (delta : Z) (old : A) : A :=
  default old (order !! cycle_index (default 0%nat (position is_current order)) delta (length order)).

(** ** Forms *)

Inductive CreateTaskField := FieldAssignee | FieldTitle | FieldDescription.
#[export] Instance CreateTaskField_eq_dec : EqDecision CreateTaskField.
Proof. solve_decision. Defined.
Definition FIELD_ORDER : list CreateTaskField := [FieldAssignee; FieldTitle; FieldDescription].

Record CreateTaskDraft := mkCreateTaskDraft {
  cd_assignee : string;
  cd_title : string;
  cd_description : string;
}.
Record CreateTaskForm := mkCreateTaskForm {
  cf_field : CreateTaskField;
  cf_assignee : string;
  cf_title : string;
  cf_description : string;
  cf_error : option string;
  cf_submitting : bool;
}.
#[export] Instance CreateTaskForm_eta : Updatable CreateTaskForm := fun f =>
  mkCreateTaskForm (cf_field f) (cf_assignee f) (cf_title f) (cf_description f) (cf_error f)
    (cf_submitting f).

Definition create_task_form_new (default_assignee : string) : CreateTaskForm :=
  mkCreateTaskForm FieldTitle default_assignee "" "" None false.
Definition step_field (delta : Z) (f : CreateTaskForm) : CreateTaskForm :=
  f <| cf_field := cycle FIELD_ORDER (fun x => bool_decide (x = cf_field f)) delta (cf_field f) |>
    <| cf_error := None |>.
(** A change through [active_value_mut], which also clears the error. *)
Definition edit_active (g : string -> string) (f : CreateTaskForm) : CreateTaskForm :=
  match cf_field f with
  | FieldAssignee => f <| cf_assignee := g (cf_assignee f) |>
  | FieldTitle => f <| cf_title := g (cf_title f) |>
  | FieldDescription => f <| cf_description := g (cf_description f) |>
  end <| cf_error := None |>.

Record OrchestratorMessageForm := mkMessageForm {
  mf_message : string;
  mf_error : option string;
  mf_submitting : bool;
}.
#[export] Instance MessageForm_eta : Updatable OrchestratorMessageForm := fun f =>
  mkMessageForm (mf_message f) (mf_error f) (mf_submitting f).
Definition message_form_new : OrchestratorMessageForm := mkMessageForm "" None false.
Definition edit_message (g : string -> string) (f : OrchestratorMessageForm) : OrchestratorMessageForm :=
  f <| mf_message := g (mf_message f) |> <| mf_error := None |>.

Definition validate_create_task_form (form : CreateTaskForm) (known_assignees : list string)
  : result string CreateTaskDraft :=
  let assignee := trim (cf_assignee form) in
  if is_empty assignee then Err "assignee is required" else
  if negb (bool_decide (known_assignees = [])) && negb (existsb (String.eqb assignee) known_assignees)
  then Err ("unknown assignee " +:+ assignee) else
  let title := trim (cf_title form) in
  if is_empty title then Err "title is required" else
  Ok (mkCreateTaskDraft assignee title (trim (cf_description form))).
Definition validate_orchestrator_message_form (form : OrchestratorMessageForm) : result string string :=
  let message := trim (mf_message form) in
  if is_empty message then Err "message is required" else Ok message.

(** ** Views, focus and cursors *)

Inductive StreamView := ViewAgents | ViewMessages | ViewTasks | ViewTokens | ViewStream.
#[export] Instance StreamView_eq_dec : EqDecision StreamView.
Proof. solve_decision. Defined.
Definition tab_label (v : StreamView) : string :=
  match v with
  | ViewAgents => "agents" | ViewMessages => "messages" | ViewTasks => "tasks"
  | ViewTokens => "tokens" | ViewStream => "stream"
  end.
Definition DEFAULT_TABS : list StreamView := [ViewAgents; ViewMessages; ViewTasks; ViewTokens].
Definition ALL_TABS : list StreamView := [ViewAgents; ViewMessages; ViewTasks; ViewTokens; ViewStream].
Definition tabs (stream_pinned : bool) : list StreamView :=
  if stream_pinned then ALL_TABS else DEFAULT_TABS.

Inductive Focus := FocusList | FocusDetail.
#[export] Instance Focus_eq_dec : EqDecision Focus.
Proof. solve_decision. Defined.
Definition FOCUS_ORDER : list Focus := [FocusList; FocusDetail].

Inductive AgentDetailTab := TabOverview | TabTasks | TabMessages | TabInstructions | TabActivity.
#[export] Instance AgentDetailTab_eq_dec : EqDecision AgentDetailTab.
Proof. solve_decision. Defined.
Definition DETAIL_TABS : list AgentDetailTab :=
  [TabOverview; TabTasks; TabMessages; TabInstructions; TabActivity].

Inductive RefreshNoticeSource := NoticeTmux | NoticeDaemon | NoticeUsage.
#[export] Instance RefreshNoticeSource_eq_dec : EqDecision RefreshNoticeSource.
Proof. solve_decision. Defined.
Record RefreshNotice := mkRefreshNotice { rn_source : RefreshNoticeSource; rn_text : string }.

(** [PaneCursor] is its index. *)
Definition shift (delta index : Z) : Z := Z.max (i32_saturate (i32_wrap index + delta)) 0.
Definition clamp (ceiling index : Z) : Z := if (ceiling <? index)%Z then ceiling else index.

(** ** Quick actions *)

Inductive QuickActionId :=
| StreamTmux | ShowTasks | ShowMessages | Interrupt | QRestart | QStop
| TaskWake | TaskInterrupt | TaskRetry | TaskCancel.
#[export] Instance QuickActionId_eq_dec : EqDecision QuickActionId.
Proof. solve_decision. Defined.

Definition action_label (a : QuickActionId) : string :=
  match a with
  | StreamTmux => "Stream tmux" | ShowTasks => "Open tasks" | ShowMessages => "Open messages"
  | Interrupt => "Interrupt" | QRestart => "Restart" | QStop => "Stop"
  | TaskWake => "Wake task" | TaskInterrupt => "Interrupt assignee" | TaskRetry => "Retry task"
  | TaskCancel => "Cancel task"
  end.
Definition requires_confirmation (a : QuickActionId) : bool :=
  match a with QRestart | QStop | TaskCancel => true | _ => false end.
Definition confirm_prompt (a : QuickActionId) (target : string) : string :=
  match a with
  | QRestart => "confirm restart " +:+ target +:+ "?"
  | QStop => "confirm stop " +:+ target +:+ "?"
  | TaskCancel => "confirm cancel task " +:+ target +:+ "?"
  | _ => ""
  end.
Definition is_task_action (a : QuickActionId) : bool :=
  match a with TaskWake | TaskInterrupt | TaskRetry | TaskCancel => true | _ => false end.

Definition contextual_actions (has_session : bool) : list QuickActionId :=
  List.filter (fun a => has_session || match a with StreamTmux | Interrupt | QStop => false | _ => true end)
    [StreamTmux; ShowTasks; ShowMessages; Interrupt; QRestart; QStop].
Definition task_actions (task : Task) : list QuickActionId :=
  if negb (is_active (t_status task)) then [] else
  List.filter (fun a => negb (bool_decide (a = TaskInterrupt)) || negb (is_empty (t_assignee task)))
    [TaskWake; TaskInterrupt; TaskRetry; TaskCancel].

Record QuickActionState := mkQuickActionState {
  qa_open : bool;
  qa_actions : list QuickActionId;
  qa_selected : nat;
  qa_confirm : bool;
  qa_target_workspace : string;
  qa_target_task_id : string;
  qa_target_task_version : Z;
}.
#[export] Instance QuickActionState_eta : Updatable QuickActionState := fun q =>
  mkQuickActionState (qa_open q) (qa_actions q) (qa_selected q) (qa_confirm q) (qa_target_workspace q)
    (qa_target_task_id q) (qa_target_task_version q).
Definition quick_actions_default : QuickActionState := mkQuickActionState false [] 0 false "" "" 0.
Definition qa_current (q : QuickActionState) : option QuickActionId := qa_actions q !! qa_selected q.

Definition move_overlay_selection (delta : Z) (q : QuickActionState) : QuickActionState :=
  match qa_actions q with
  | [] => q <| qa_selected := 0%nat |>
  | _ =>
      let n := i32_wrap (Z.of_nat (length (qa_actions q))) in
      let next := Z.to_nat (clamp_to 0 (n - 1) (i32_wrap (i32_wrap (Z.of_nat (qa_selected q)) + delta))) in
      q <| qa_selected := next |> <| qa_confirm := false |>
  end.

Definition NOTICE_TTL : Z := 3 * nanos.
Record Notice := mkNotice { no_text : string; no_error : bool; no_expires_at : Z }.

Inductive ActionOutcome :=
| NeedsConfirm
| ShowNotice (text : string) (error : bool)
| ChangeStream (view : StreamView)
| StartStreaming (workspace : string)
| CloseOverlay.

Record PendingLifecycle := mkPendingLifecycle { pl_action : QuickActionId; pl_workspace : string }.
Record PendingTaskAction := mkPendingTaskAction {
  pa_action : QuickActionId;
  pa_task_id : string;
  pa_expected_version : Z;
}.

(** ** The application *)

Record App := mkApp {
  sessions : list SessionInfo;
  workspace_infos : gmap string WorkspaceInfo;
  tree : option ProjectNode;
  reconfigure_enabled : bool;
  desired : gmap string bool;
  agent_entries : list AgentEntry;
  selected_entry : nat;
  focus : Focus;
  stream : StreamView;
  agent_detail_tab : AgentDetailTab;
  messages : list HistoryEntry;
  messages_snapshot_error : option string;
  messages_cursor : Z;
  messages_follow_tail : bool;
  tasks : list Task;
  task_snapshot_error : option string;
  task_cursor : Z;
  task_filter : TaskFilterMode;
  tokens_cursor : Z;
  detail_scroll : Z;
  agent_detail_follow_tail : bool;
  quick_actions : QuickActionState;
  quick_notice : option Notice;
  help_open : bool;
  pending_lifecycle : option PendingLifecycle;
  pending_task_action : option PendingTaskAction;
  create_task_form : option CreateTaskForm;
  pending_task_create : option CreateTaskDraft;
  orchestrator_message_form : option OrchestratorMessageForm;
  pending_orchestrator_message : option string;
  captures : CaptureCache;
  usage_trends : gmap string WorkspaceTrend;
  last_usage_refresh : option Z;
  workspace_dirs : gmap string string;
  streamed_workspace : option string;
  stream_cursor : Z;
  stream_follow_tail : bool;
  force_refresh : bool;
  last_refresh : option Z;
  daemon_running : bool;
  notice : option RefreshNotice;
  quit : bool;
}.
#[export] Instance App_eta : Updatable App := fun a =>
  mkApp (sessions a) (workspace_infos a) (tree a) (reconfigure_enabled a) (desired a) (agent_entries a)
    (selected_entry a) (focus a) (stream a) (agent_detail_tab a) (messages a)
    (messages_snapshot_error a) (messages_cursor a) (messages_follow_tail a) (tasks a)
    (task_snapshot_error a) (task_cursor a) (task_filter a) (tokens_cursor a) (detail_scroll a)
    (agent_detail_follow_tail a) (quick_actions a) (quick_notice a) (help_open a)
    (pending_lifecycle a) (pending_task_action a) (create_task_form a) (pending_task_create a)
    (orchestrator_message_form a) (pending_orchestrator_message a) (captures a) (usage_trends a)
    (last_usage_refresh a) (workspace_dirs a) (streamed_workspace a) (stream_cursor a)
    (stream_follow_tail a) (force_refresh a) (last_refresh a) (daemon_running a) (notice a) (quit a).

Definition app_new : App :=
  mkApp [] ∅ None false ∅ [] 0 FocusList ViewAgents TabOverview [] None 0 true [] None 0 FilterActive
    0 0 true quick_actions_default None false None None None None None None (mkCaptureCache ∅ 0) ∅ None
    ∅ None 0 true false None false None false.

(** The readings of the two clocks: [Utc::now] and [Instant::now]. *)
Record Clock := mkClock { utc_now : Z; instant_now : Z }.

Definition set_notice (clk : Clock) (text : string) (error : bool) (app : App) : App :=
  app <| quick_notice := Some (mkNotice text error (instant_now clk + NOTICE_TTL)) |>.

Definition zlen {A} (l : list A) : Z := Z.of_nat (length l).

(** *** Selections *)

Definition reset_detail (app : App) : App :=
  app <| detail_scroll := 0 |> <| agent_detail_follow_tail := true |>.

Definition selected_workspace (app : App) : option string :=
  match agent_entries app !! selected_entry app with
  | Some e => if ae_group e then None else Some (ae_workspace e)
  | None => None
  end.

Definition selectable_entry_positions (entries : list AgentEntry) : list nat :=
  omap (fun p => if ae_group p.2 then None else Some p.1) (enumerate entries).

Definition filtered_tasks (now : Z) (app : App) : list Task := filter_tasks now (tasks app) (task_filter app).
Definition selected_task (now : Z) (app : App) : option Task :=
  filtered_tasks now app !! Z.to_nat (task_cursor app).

Definition clamp_task_selection (now : Z) (app : App) : App :=
  match filtered_tasks now app with
  | [] => app <| task_cursor := 0 |>
  | l => app <| task_cursor := clamp (zlen l - 1) (task_cursor app) |>
  end.
Definition move_task_selection (now delta : Z) (app : App) : App :=
  match filtered_tasks now app with
  | [] => app <| task_cursor := 0 |>
  | l => app <| task_cursor := clamp (zlen l - 1) (shift delta (task_cursor app)) |>
  end.
Definition cycle_task_filter (now : Z) (app : App) : App :=
  clamp_task_selection now (app <| task_filter := filter_next (task_filter app) |>).

(** [Tokens::total] is in [Usage]. *)
Definition token_row_count (app : App) : nat :=
  length (List.filter (fun t => wt_available t && (0 <? tokens_total (wt_total t))%Z)
            (btree_values (usage_trends app))).
Definition clamp_token_selection (app : App) : App :=
  let n := Z.of_nat (token_row_count app) in
  if (n =? 0)%Z then app <| tokens_cursor := 0 |>
  else app <| tokens_cursor := clamp (n - 1) (tokens_cursor app) |>.
Definition scroll_tokens (delta : Z) (app : App) : App :=
  let n := Z.of_nat (token_row_count app) in
  if (n =? 0)%Z then app <| tokens_cursor := 0 |>
  else app <| tokens_cursor := clamp (n - 1) (shift delta (tokens_cursor app)) |>.
Definition tokens_to_head (app : App) : App := app <| tokens_cursor := 0 |>.
Definition tokens_to_tail (app : App) : App :=
  let n := Z.of_nat (token_row_count app) in
  if (n =? 0)%Z then app <| tokens_cursor := 0 |> else app <| tokens_cursor := (n - 1)%Z |>.

Definition scroll_messages (delta : Z) (app : App) : App :=
  match messages app with
  | [] => app <| messages_cursor := 0 |> <| messages_follow_tail := true |>
  | l =>
      let n := i32_wrap (zlen l) in
      let next := clamp_to 0 (n - 1) (i32_wrap (i32_wrap (messages_cursor app) + delta)) in
      app <| messages_cursor := next |> <| messages_follow_tail := (next + 1 =? zlen l)%Z |>
  end.
Definition messages_to_tail (app : App) : App :=
  match messages app with
  | [] => app <| messages_follow_tail := true |> <| messages_cursor := 0 |>
  | l => app <| messages_follow_tail := true |> <| messages_cursor := (zlen l - 1)%Z |>
  end.
Definition messages_to_head (app : App) : App :=
  app <| messages_follow_tail := false |> <| messages_cursor := 0 |>.
Definition reconcile_message_cursor (app : App) : App :=
  match messages app with
  | [] => app <| messages_cursor := 0 |> <| messages_follow_tail := true |>
  | l =>
      if messages_follow_tail app then app <| messages_cursor := (zlen l - 1)%Z |>
      else app <| messages_cursor := clamp (zlen l - 1) (messages_cursor app) |>
  end.

Definition scroll_stream (delta : Z) (app : App) : App :=
  (if (delta <? 0)%Z then app <| stream_follow_tail := false |> else app)
    <| stream_cursor := shift delta (stream_cursor app) |>.
Definition stream_to_head (app : App) : App :=
  app <| stream_follow_tail := false |> <| stream_cursor := 0 |>.
Definition stream_to_tail (app : App) : App :=
  app <| stream_follow_tail := true |> <| stream_cursor := 0 |>.

Definition move_selection (delta : Z) (app : App) : App :=
  let selectable := selectable_entry_positions (agent_entries app) in
  match selectable with
  | [] => app <| selected_entry := 0%nat |>
  | _ =>
      let current_pos := default 0%nat (position (Nat.eqb (selected_entry app)) selectable) in
      let next := Z.to_nat (clamp_to 0 (i32_wrap (zlen selectable) - 1)
                              (i32_wrap (i32_wrap (Z.of_nat current_pos) + delta))) in
      (* [selectable[next]] is in range *)
      let next_entry := default (selected_entry app) (selectable !! next) in
      if Nat.eqb next_entry (selected_entry app) then app
      else reset_detail (app <| selected_entry := next_entry |>)
  end.

(** The row that is selected after the rows have changed. *)
Definition next_selection (entries : list AgentEntry) (selectable : list nat)
    (previous_workspace : option string) (previous_index : nat) : nat :=
  let kept :=
    match previous_workspace with
    | Some ws => List.find (fun idx => match entries !! idx with
                                       | Some e => String.eqb (ae_workspace e) ws
                                       | None => false
                                       end) selectable
    | None => None
    end in
  match kept with
  | Some idx => idx
  | None =>
      match List.find (fun idx => previous_index <=? idx)%nat selectable with
      | Some idx => idx
      | None => default 0%nat (last selectable)
      end
  end.

Definition rebuild_agents (app : App) : App :=
  let previous_workspace := selected_workspace app in
  let previous_index := selected_entry app in
  let app := app <| agent_entries :=
                   build_entries (sessions app) (tree app) (reconfigure_enabled app) (desired app) |> in
  let selectable := selectable_entry_positions (agent_entries app) in
  match selectable with
  | [] =>
      let app := app <| selected_entry := 0%nat |> in
      match previous_workspace with Some _ => reset_detail app | None => app end
  | _ =>
      let app := app <| selected_entry :=
                       next_selection (agent_entries app) selectable previous_workspace previous_index |> in
      match previous_workspace with
      | Some ws => if bool_decide (selected_workspace app = Some ws) then app else reset_detail app
      | None => app
      end
  end.

(** *** Tabs and focus *)

Definition stream_tab_views (app : App) : list StreamView :=
  tabs (bool_decide (is_Some (streamed_workspace app))).
Definition ensure_stream_view_visible (app : App) : App :=
  if bool_decide (stream app = ViewStream /\ streamed_workspace app = None)
  then reset_detail (app <| stream := ViewAgents |> <| stream_cursor := 0 |> <| stream_follow_tail := true |>)
  else app.

(** What both ways of switching the tab end with. *)
Definition switch_stream (now : Z) (view : StreamView) (app : App) : App :=
  clamp_token_selection (clamp_task_selection now (reset_detail (app <| stream := view |>))).
Definition step_stream (now delta : Z) (app : App) : App :=
  let app := ensure_stream_view_visible app in
  switch_stream now
    (cycle (stream_tab_views app) (fun v => bool_decide (v = stream app)) delta (stream app)) app.
Definition select_stream (now : Z) (idx : nat) (app : App) : App :=
  let app := ensure_stream_view_visible app in
  match stream_tab_views app !! idx with
  | Some view => switch_stream now view app
  | None => app
  end.
Definition cycle_focus (delta : Z) (app : App) : App :=
  app <| focus := cycle FOCUS_ORDER (fun f => bool_decide (f = focus app)) delta (focus app) |>.
Definition step_agent_detail_tab (delta : Z) (app : App) : App :=
  reset_detail (app <| agent_detail_tab :=
    cycle DETAIL_TABS (fun t => bool_decide (t = agent_detail_tab app)) delta (agent_detail_tab app) |>).

(** *** Forms of the application *)

Definition known_assignees (app : App) : list string :=
  btree_keys (list_to_map (M := gmap string unit) ((fun n => (n, tt)) <$>
    (btree_keys (workspace_dirs app) ++ btree_keys (workspace_infos app)
     ++ omap (fun e => if negb (ae_group e) && negb (is_empty (trim (ae_workspace e)))
                       then Some (ae_workspace e) else None) (agent_entries app)
     ++ omap (fun t => if negb (is_empty (trim (t_assignee t))) then Some (t_assignee t) else None)
          (tasks app)))).

Definition or_else {A} (a b : option A) : option A := match a with Some _ => a | None => b end.
Definition default_task_assignee (now : Z) (app : App) : string :=
  default ""
    (or_else (t ← selected_task now app;
              if negb (is_empty (trim (t_assignee t))) then Some (t_assignee t) else None)
    (or_else (selected_workspace app) (head (known_assignees app)))).

Definition close_overlay (app : App) : App :=
  app <| quick_actions := ((quick_actions app) <| qa_open := false |> <| qa_confirm := false |>) |>.

Definition open_create_task_form (now : Z) (app : App) : App :=
  let app := close_overlay app in
  let app := app <| pending_task_create := None |> <| orchestrator_message_form := None |>
                 <| pending_orchestrator_message := None |> in
  app <| create_task_form := Some (create_task_form_new (default_task_assignee now app)) |>
      <| quick_notice := None |>.
Definition cancel_create_task_form (clk : Clock) (app : App) : App :=
  set_notice clk "task creation cancelled" false
    (app <| create_task_form := None |> <| pending_task_create := None |>).
Definition submit_create_task_form (clk : Clock) (app : App) : App :=
  match create_task_form app with
  | None => app
  | Some form =>
      match validate_create_task_form form (known_assignees app) with
      | Ok draft =>
          set_notice clk "creating task..." false
            (app <| create_task_form := Some (form <| cf_error := None |> <| cf_submitting := true |>) |>
                 <| pending_task_create := Some draft |>)
      | Err error =>
          set_notice clk error true
            (app <| create_task_form := Some (form <| cf_error := Some error |>) |>)
      end
  end.

Definition ROOT_ORCHESTRATOR_WORKSPACE : string := "orchestrator".
Definition open_orchestrator_message_form (app : App) : App :=
  (close_overlay app) <| create_task_form := None |> <| pending_task_create := None |>
    <| pending_orchestrator_message := None |> <| orchestrator_message_form := Some message_form_new |>
    <| quick_notice := None |>.
Definition cancel_orchestrator_message_form (clk : Clock) (app : App) : App :=
  set_notice clk "message cancelled" false
    (app <| orchestrator_message_form := None |> <| pending_orchestrator_message := None |>).
Definition submit_orchestrator_message_form (clk : Clock) (app : App) : App :=
  match orchestrator_message_form app with
  | None => app
  | Some form =>
      match validate_orchestrator_message_form form with
      | Ok message =>
          set_notice clk ("sending message to " +:+ ROOT_ORCHESTRATOR_WORKSPACE +:+ "...") false
            (app <| orchestrator_message_form := Some (form <| mf_error := None |> <| mf_submitting := true |>) |>
                 <| pending_orchestrator_message := Some message |>)
      | Err error =>
          set_notice clk error true
            (app <| orchestrator_message_form := Some (form <| mf_error := Some error |>) |>)
      end
  end.

(** *** Notices *)

Definition set_refresh_notice (source : RefreshNoticeSource) (text : string) (app : App) : App :=
  app <| notice := Some (mkRefreshNotice source text) |>.
Definition clear_refresh_notice (source : RefreshNoticeSource) (app : App) : App :=
  match notice app with
  | Some n => if bool_decide (rn_source n = source) then app <| notice := None |> else app
  | None => app
  end.
Definition expire_notice (clk : Clock) (app : App) : App :=
  match quick_notice app with
  | Some n => if (no_expires_at n <=? instant_now clk)%Z then app <| quick_notice := None |> else app
  | None => app
  end.

(** ** What drawing changes (render.rs: [draw_stream], [apply_tail_detail_scroll])

    [max_scroll] is the number of rows above the last page. *)
Definition draw_stream_scroll (max_scroll : Z) (app : App) : App :=
  if stream_follow_tail app then app <| stream_cursor := max_scroll |>
  else
    let index := clamp max_scroll (stream_cursor app) in
    (app <| stream_cursor := index |>)
      <| stream_follow_tail := (index =? max_scroll)%Z |>.
Definition apply_tail_detail_scroll (max_scroll : Z) (app : App) : App :=
  if agent_detail_follow_tail app then app <| detail_scroll := max_scroll |>
  else
    let index := clamp max_scroll (detail_scroll app) in
    (app <| detail_scroll := index |>)
      <| agent_detail_follow_tail := (index =? max_scroll)%Z |>.

(** ** Applying outcomes (actions.rs) *)

Definition apply_outcome (clk : Clock) (app : App) (outcome : ActionOutcome) : App :=
  match outcome with
  | NeedsConfirm => app
  | ShowNotice text error => set_notice clk text error app
  | ChangeStream view => app <| stream := view |>
  | StartStreaming workspace => app <| streamed_workspace := Some workspace |>
  | CloseOverlay =>
      app <| quick_actions :=
        mkQuickActionState false (qa_actions (quick_actions app)) 0 false "" "" 0 |>
  end.
Definition needs_confirm (outcomes : list ActionOutcome) : bool :=
  existsb (fun o => match o with NeedsConfirm => true | _ => false end) outcomes.
(** [need_confirm] is noted during the loop and applied after it. *)
Definition apply_outcomes (clk : Clock) (outcomes : list ActionOutcome) (app : App) : App :=
  let app := foldl (apply_outcome clk) app outcomes in
  if needs_confirm outcomes
  then app <| quick_actions := ((quick_actions app) <| qa_confirm := true |>) |> else app.

Definition open_overlay (clk : Clock) (app : App) : App :=
  match selected_workspace app with
  | None => set_notice clk "No workspace selected" true app
  | Some workspace =>
      let has_session := match agent_entries app !! selected_entry app with
                         | Some e => bool_decide (is_Some (ae_session_index e))
                         | None => false
                         end in
      app <| quick_notice := None |>
          <| quick_actions :=
               mkQuickActionState true (contextual_actions has_session) 0 false workspace "" 0 |>
  end.

Definition open_task_overlay (clk : Clock) (app : App) : App :=
  match selected_task (utc_now clk) app with
  | None => set_notice clk "No task selected" true app
  | Some task =>
      match task_actions task with
      | [] => set_notice clk ("No remediation actions for task " +:+ short_task_id (t_id task)) true app
      | actions =>
          app <| quick_actions := mkQuickActionState true actions 0 false "" (t_id task) (t_version task) |>
              <| quick_notice := None |>
      end
  end.

(** ** Keys (input.rs)

    The codes of crossterm the handlers name; a character is its UTF-8 text. *)

Inductive KeyCode :=
| KChar (c : string) | KEnter | KEsc | KUp | KDown | KTab | KBackTab | KPageUp | KPageDown
| KHome | KEnd | KBackspace | KDelete | KOther.
Inductive KeyEventKind := KeyPress | KeyRepeat | KeyRelease.
Record KeyEvent := mkKeyEvent {
  ke_code : KeyCode;
  ke_control : bool;
  ke_alt : bool;
  ke_kind : KeyEventKind;
}.
Definition is_char (c : string) (k : KeyCode) : bool :=
  match k with KChar d => String.eqb c d | _ => false end.

(** The keys that move in a list: arrows, pages, ends and their letters. *)
Inductive Move := MoveUp | MoveDown | MovePageUp | MovePageDown | MoveHome | MoveEnd.
Definition move_of (k : KeyCode) : option Move :=
  match k with
  | KUp => Some MoveUp | KDown => Some MoveDown | KPageUp => Some MovePageUp
  | KPageDown => Some MovePageDown | KHome => Some MoveHome | KEnd => Some MoveEnd
  | KChar c => if String.eqb c "k" then Some MoveUp else if String.eqb c "j" then Some MoveDown
               else if String.eqb c "g" then Some MoveHome else if String.eqb c "G" then Some MoveEnd
               else None
  | _ => None
  end.
Definition is_enter (k : KeyCode) : bool := match k with KEnter => true | _ => false end.

(** [String::push] and [String::pop]. *)
Definition push_char (c s : string) : string := s +:+ c.
Definition pop_char (s : string) : string := of_bytes (mjoin (removelast (chars s))).

(** What a key does to the text of a form. *)
Inductive TextEdit := EditPop | EditClear | EditPush (c : string).
Definition text_edit (ev : KeyEvent) : option TextEdit :=
  match ke_code ev with
  | KBackspace => Some EditPop
  | KDelete => Some EditClear
  | KChar c => if String.eqb c "u" && ke_control ev then Some EditClear
               else if ke_control ev || ke_alt ev then None else Some (EditPush c)
  | _ => None
  end.
Definition run_edit (e : TextEdit) (s : string) : string :=
  match e with EditPop => pop_char s | EditClear => "" | EditPush c => push_char c s end.

Definition handle_create_task_form_key (clk : Clock) (ev : KeyEvent) (app : App) : App :=
  match create_task_form app with
  | None => app
  | Some form =>
      if cf_submitting form then app else
      match ke_code ev with
      | KEsc => cancel_create_task_form clk app
      | KTab | KDown => app <| create_task_form := Some (step_field 1 form) |>
      | KBackTab | KUp => app <| create_task_form := Some (step_field (-1) form) |>
      | KEnter => submit_create_task_form clk app
      | _ => match text_edit ev with
             | Some e => app <| create_task_form := Some (edit_active (run_edit e) form) |>
             | None => app
             end
      end
  end.

Definition handle_orchestrator_message_form_key (clk : Clock) (ev : KeyEvent) (app : App) : App :=
  match orchestrator_message_form app with
  | None => app
  | Some form =>
      if mf_submitting form then app else
      match ke_code ev with
      | KEsc => cancel_orchestrator_message_form clk app
      | KEnter => submit_orchestrator_message_form clk app
      | _ => match text_edit ev with
             | Some e => app <| orchestrator_message_form := Some (edit_message (run_edit e) form) |>
             | None => app
             end
      end
  end.

Definition handle_bracket_tab (now delta : Z) (app : App) : App :=
  if bool_decide (focus app = FocusDetail /\ stream app = ViewAgents)
  then step_agent_detail_tab delta app else step_stream now delta app.

Definition handle_list_key (clk : Clock) (k : KeyCode) (app : App) : App :=
  let now := utc_now clk in
  match stream app with
  | ViewAgents =>
      if is_enter k then open_overlay clk app else
      match move_of k with
      | Some MoveUp => move_selection (-1) app
      | Some MoveDown => move_selection 1 app
      | _ => app
      end
  | ViewTasks =>
      if is_char "n" k then open_create_task_form now app else
      if is_enter k then open_task_overlay clk app else
      match move_of k with
      | Some MoveUp => move_task_selection now (-1) app
      | Some MoveDown => move_task_selection now 1 app
      | _ => app
      end
  | ViewMessages =>
      match move_of k with
      | Some MoveUp => scroll_messages (-1) app
      | Some MoveDown => scroll_messages 1 app
      | Some MovePageUp => scroll_messages (-10) app
      | Some MovePageDown => scroll_messages 10 app
      | Some MoveHome => messages_to_head app
      | Some MoveEnd => messages_to_tail app
      | None => app
      end
  | ViewTokens =>
      match move_of k with
      | Some MoveUp => scroll_tokens (-1) app
      | Some MoveDown => scroll_tokens 1 app
      | Some MovePageUp => scroll_tokens (-10) app
      | Some MovePageDown => scroll_tokens 10 app
      | Some MoveHome => tokens_to_head app
      | Some MoveEnd => tokens_to_tail app
      | None => app
      end
  | ViewStream =>
      match move_of k with
      | Some MoveUp => scroll_stream (-1) app
      | Some MoveDown => scroll_stream 1 app
      | Some MovePageUp => scroll_stream (-10) app
      | Some MovePageDown => scroll_stream 10 app
      | Some MoveHome => stream_to_head app
      | Some MoveEnd => stream_to_tail app
      | None => app
      end
  end.

Definition scroll_detail (delta : Z) (app : App) : App :=
  app <| detail_scroll := shift delta (detail_scroll app) |>.
Definition leave_tail (app : App) : App := app <| agent_detail_follow_tail := false |>.

(** The tabs that follow the newest entry. *)
Definition handle_tail_tab_key (k : KeyCode) (app : App) : App :=
  match k, move_of k with
  | KEsc, _ => app <| focus := FocusList |>
  | _, Some MoveUp => scroll_detail (-1) (leave_tail app)
  | _, Some MoveDown => scroll_detail 1 app
  | _, Some MovePageUp => scroll_detail (-10) (leave_tail app)
  | _, Some MovePageDown => scroll_detail 10 app
  | _, Some MoveHome => (leave_tail app) <| detail_scroll := 0 |>
  | _, Some MoveEnd => app <| agent_detail_follow_tail := true |>
  | _, None => app
  end.
Definition handle_plain_detail_key (k : KeyCode) (app : App) : App :=
  match k, move_of k with
  | KEsc, _ => app <| focus := FocusList |>
  | _, Some MoveUp => scroll_detail (-1) app
  | _, Some MoveDown => scroll_detail 1 app
  | _, Some MovePageUp => scroll_detail (-10) app
  | _, Some MovePageDown => scroll_detail 10 app
  | _, Some MoveHome => app <| detail_scroll := 0 |>
  | _, _ => app
  end.
Definition handle_detail_key (k : KeyCode) (app : App) : App :=
  match stream app with
  | ViewAgents =>
      if is_char "h" k then step_agent_detail_tab (-1) app else
      if is_char "l" k then step_agent_detail_tab 1 app else
      match agent_detail_tab app with
      | TabMessages | TabActivity => handle_tail_tab_key k app
      | _ => handle_plain_detail_key k app
      end
  | _ => handle_plain_detail_key k app
  end.

Definition handle_scroll (now direction : Z) (app : App) : App :=
  if qa_open (quick_actions app) || help_open app then app else
  let app := ensure_stream_view_visible app in
  match focus app with
  | FocusList =>
      match stream app with
      | ViewAgents => move_selection direction app
      | ViewTasks => move_task_selection now direction app
      | ViewMessages => scroll_messages direction app
      | ViewTokens => scroll_tokens direction app
      | ViewStream => scroll_stream direction app
      end
  | FocusDetail => scroll_detail direction app
  end.

(** The bindings that are active in every panel. *)
Definition digit_of (k : KeyCode) : option nat :=
  match k with
  | KChar c => if String.eqb c "1" then Some 0%nat else if String.eqb c "2" then Some 1%nat
               else if String.eqb c "3" then Some 2%nat else if String.eqb c "4" then Some 3%nat
               else if String.eqb c "5" then Some 4%nat else None
  | _ => None
  end.
Definition handle_panel_key (clk : Clock) (k : KeyCode) (app : App) : App :=
  let now := utc_now clk in
  match k, digit_of k with
  | KTab, _ => cycle_focus 1 app
  | KBackTab, _ => cycle_focus (-1) app
  | _, Some idx => select_stream now idx app
  | _, None =>
      if is_char "[" k then handle_bracket_tab now (-1) app else
      if is_char "]" k then handle_bracket_tab now 1 app else
      if is_char "f" k then cycle_task_filter now app else
      if is_char "m" k then open_orchestrator_message_form app else
      if is_char "r" k then set_notice clk "refresh requested" false (app <| force_refresh := true |>) else
      match focus app with
      | FocusList => handle_list_key clk k app
      | FocusDetail => handle_detail_key k app
      end
  end.

Section keys.
Context {T : Type} `{!Tmux T} `{!TextOps} `{!SysText}.
Context (clk : Clock).

Definition run_selected (state : QuickActionState) (target : string) (t : T) : list ActionOutcome * T :=
  match qa_current state with
  | None => ([CloseOverlay], t)
  | Some action =>
      if requires_confirmation action && negb (qa_confirm state) then ([NeedsConfirm], t) else
      match action with
      | StreamTmux => ([ChangeStream ViewStream; StartStreaming target; CloseOverlay], t)
      | ShowTasks => ([ChangeStream ViewTasks; CloseOverlay], t)
      | ShowMessages => ([ChangeStream ViewMessages; CloseOverlay], t)
      | Interrupt =>
          match interrupt_workspace target t with
          | (Ok _, t) => ([ShowNotice ("Interrupted " +:+ target) false; CloseOverlay], t)
          | (Err e, t) => ([ShowNotice (to_string e) true], t)
          end
      | QRestart | QStop =>
          ([ShowNotice ("Lifecycle (" +:+ action_label action +:+ ") needs --config context") true], t)
      | TaskWake | TaskInterrupt | TaskRetry | TaskCancel => ([CloseOverlay], t)
      end
  end.

Definition request_task_action (action : QuickActionId) (app : App) : App :=
  let q := quick_actions app in
  if is_empty (qa_target_task_id q) then app <| quick_actions := (q <| qa_open := false |>) |> else
  set_notice clk (action_label action +:+ " requested for " +:+ short_task_id (qa_target_task_id q)) false
    (app <| pending_task_action :=
              Some (mkPendingTaskAction action (qa_target_task_id q) (qa_target_task_version q)) |>
         <| quick_actions := (q <| qa_open := false |> <| qa_confirm := false |>) |>).

Definition request_lifecycle (action : QuickActionId) (target : string) (app : App) : App :=
  close_overlay
    (set_notice clk (action_label action +:+ " requested for " +:+ target) false
       (app <| pending_lifecycle := Some (mkPendingLifecycle action target) |>)).

Definition is_lifecycle (a : QuickActionId) : bool := match a with QRestart | QStop => true | _ => false end.

Definition activate_overlay (app : App) (t : T) : App * T :=
  let q := quick_actions app in
  match qa_current q with
  | None => (app, t)
  | Some action =>
      if is_task_action action then
        if requires_confirmation action && negb (qa_confirm q)
        then (apply_outcomes clk [NeedsConfirm] app, t)
        else (request_task_action action app, t)
      else
      match selected_workspace app with
      | None => (app <| quick_actions := (q <| qa_open := false |>) |>, t)
      | Some target =>
          if is_lifecycle action then
            if negb (qa_confirm q) then (apply_outcomes clk [NeedsConfirm] app, t)
            else (request_lifecycle action target app, t)
          else
          let '(outcomes, t) := run_selected q target t in
          (apply_outcomes clk outcomes app, t)
      end
  end.

Definition handle_overlay_key (k : KeyCode) (app : App) (t : T) : App * T :=
  if is_enter k then activate_overlay app t else
  let q := quick_actions app in
  (match k, move_of k with
   | KEsc, _ => app <| quick_actions := (q <| qa_open := false |> <| qa_confirm := false |>
                                           <| qa_selected := 0%nat |>) |>
   | _, Some MoveUp => app <| quick_actions := move_overlay_selection (-1) q |>
   | _, Some MoveDown => app <| quick_actions := move_overlay_selection 1 q |>
   | _, _ => app
   end, t).

Definition handle_key (ev : KeyEvent) (app : App) (t : T) : App * T :=
  match ke_kind ev with
  | KeyRelease => (app, t)
  | _ =>
      let k := ke_code ev in
      if is_char "c" k && ke_control ev then (app <| quit := true |>, t) else
      if bool_decide (is_Some (orchestrator_message_form app))
      then (handle_orchestrator_message_form_key clk ev app, t) else
      if bool_decide (is_Some (create_task_form app)) then (handle_create_task_form_key clk ev app, t) else
      if is_char "q" k then (app <| quit := true |>, t) else
      if help_open app then
        (if is_char "?" k || match k with KEsc => true | _ => false end
         then app <| help_open := false |> else app, t) else
      if qa_open (quick_actions app) then handle_overlay_key k app t else
      let app := ensure_stream_view_visible app in
      if is_char "?" k then (app <| help_open := true |>, t) else
      (handle_panel_key clk k app, t)
  end.
End keys.
