(* ===== verification/TuiLoop.v ===== *)
(** * The loop of the terminal interface and its daemon client
    (crates/ax-tui/src/app.rs and daemon.rs).

    A turn of the loop draws, handles at most one event, drains what the keys have
    queued, and refreshes.  The world [W] holds the files, tmux ([Machine]) and the
    socket ([Socket]); what others do to it between two turns is arbitrary.  A worker
    thread is the request it was given; [JobPoll] is what [try_recv] finds. *)

From stdpp Require Import prelude strings list gmap.
From S2P Require Import Prelude Act RustStr Proto History Registry SessionManager Handlers.
From S2P Require Import Paths ConfigSchema ConfigTree Tmux Artifacts WorkspaceManager Dispatch ErrorText.
From S2P Require Import Usage UsageHistory UsageTrends McpClient McpScope McpHost McpTools.
From S2P Require Import RustText TuiData TuiApp.

(** ** daemon.rs *)

Inductive WatchError :=
| WConnect (path : string) (source : IoError)
| WIo (e : IoError)
| WEncode (text : string)
| WDecode (text : string)
| WDaemon (message : string)
| WClosed.

#[export] Instance WatchError_display `{!SysText} : Display WatchError := fun e =>
  match e with
  | WConnect path source => "connect " +:+ path +:+ ": " +:+ to_string source
  | WIo e => "io: " +:+ to_string e
  | WEncode text => "encode envelope: " +:+ text
  | WDecode text => "decode response: " +:+ text
  | WDaemon message => "daemon error: " +:+ message
  | WClosed => "connection closed before response arrived"
  end.

Section client.
Context {W : Type} `{!Socket W} `{!WatchWire} `{!SysText}.
(** [fuel] bounds the lines read for one answer. *)
Context (env : Env) (socket_path : string) (fuel : nat).

(** What an envelope with the id of the request says. *)
Definition interpret_envelope (a : Ask) (e : Envelope) : result WatchError Answer :=
  match en_type e with
  | EnvResponse => data ← map_err WDecode (wire_response (en_payload e));
                   map_err WDecode (wire_answer a data)
  | EnvError => match wire_error (en_payload e) with
                | Ok message => Err (WDaemon message)
                | Err text => Err (WDecode text)
                end
  | t => Err (WDaemon ("unexpected envelope " +:+ env_type_debug t))
  end.

(** The loop of [request]. *)
Fixpoint read_answer (fuel : nat) (id : string) (a : Ask) : Run WatchError W Answer := fun w =>
  match fuel with
  | O => None
  | S fuel =>
      match sock_read_line w with
      | (Err e, w) => Some (Err (WIo e), w)
      | (Ok line, w) =>
          if is_empty line then Some (Err WClosed, w) else
          match wire_envelope (trim_end line) with
          | Err text => Some (Err (WDecode text), w)
          | Ok e => if String.eqb (en_id e) id then Some (interpret_envelope a e, w)
                    else read_answer fuel id a w
          end
      end
  end.

Definition sock {A} (m : W -> result IoError A * W) : Run WatchError W A := fun w =>
  let '(r, w) := m w in Some (map_err WIo r, w).

(** The client is the number of its next request, a [u64]. *)
Definition request_id (next_id : Z) : string := "watch-" +:+ show_Z next_id.
Definition request (next_id : Z) (a : Ask) : Run WatchError W Answer :=
  let id := request_id next_id in
  text ← lift (map_err WEncode (wire_request id a));
  _ ← sock (sock_write (text +:+ newline));
  read_answer fuel id a.
Definition request_as {A} (shape : Answer -> option A) (next_id : Z) (a : Ask) : Run WatchError W A :=
  ans ← request next_id a;
  lift (match shape ans with Some v => Ok v | None => Err (WDecode wire_mismatch) end).

Definition answer_status (ans : Answer) : option string :=
  match ans with AnsDaemon (RStatus s) => Some s | _ => None end.
Definition answer_workspaces (ans : Answer) : option (list WorkspaceInfo) :=
  match ans with AnsDaemon (RWorkspaces l) => Some l | _ => None end.
Definition answer_trends (ans : Answer) : option (list WorkspaceTrend) :=
  match ans with AnsTrends l => Some l | _ => None end.
Definition answer_task (ans : Answer) : option Task :=
  match ans with AnsDaemon (RTask t) => Some t | _ => None end.
Definition answer_sent (ans : Answer) : option (string * string) :=
  match ans with AnsDaemon (RSent id status) => Some (id, status) | _ => None end.
Definition answer_intervened (ans : Answer) : option (Task * string * string * string) :=
  match ans with
  | AnsDaemon (RIntervened task action status message_id) => Some (task, action, status, message_id)
  | _ => None
  end.

(** Returns the number of the first request after the registration. *)
Definition connect_as (workspace : string) : Run WatchError W Z := fun w =>
  match sock_connect socket_path w with
  | (Err e, w) => Some (Err (WConnect socket_path e), w)
  | (Ok _, w) =>
      (_ ← sock sock_configure;
       let dir := match cwd env with Ok d => d | Err _ => "" end in
       _ ← request_as answer_status 1 (AskDaemon (Register workspace dir "" "" 0));
       mret 2%Z) w
  end.
Definition connect : Run WatchError W Z := connect_as "_watch".

Definition list_workspaces (c : Z) : Run WatchError W (list WorkspaceInfo) :=
  request_as answer_workspaces c (AskDaemon ListWorkspaces).
Definition client_usage_trends (c : Z) (bindings : list (string * string))
    (since_minutes bucket_minutes : Z) : Run WatchError W (list WorkspaceTrend) :=
  request_as answer_trends c
    (AskUsageTrends (mkUsageTrendsPayload ((fun b => mkUsageTrendWorkspace b.1 b.2) <$> bindings)
                       since_minutes bucket_minutes)).
Definition client_cancel_task (c : Z) (id reason : string) (expected_version : option Z)
  : Run WatchError W Task :=
  request_as answer_task c (AskDaemon (CancelTask id reason expected_version)).
Definition client_create_task (c : Z) (title description assignee : string) : Run WatchError W Task :=
  request_as answer_task c
    (AskDaemon (CreateTask (mkCreateTaskPayload title description assignee "" "" "" "" 0))).
Definition client_send_message (c : Z) (to message : string) (config_path : option string)
  : Run WatchError W (string * string) :=
  request_as answer_sent c (AskDaemon (SendMessage to message (default "" config_path))).
Definition client_intervene_task (c : Z) (id action note : string) (expected_version : option Z)
  : Run WatchError W (Task * string * string * string) :=
  request_as answer_intervened c (AskDaemon (InterveneTask id action note expected_version)).
End client.

(** ** app.rs *)

Definition REFRESH_INTERVAL : Z := 250000000.
Definition USAGE_REFRESH_INTERVAL : Z := 5 * nanos.
Definition USAGE_WINDOW_MINUTES : Z := 24 * 60.
Definition USAGE_BUCKET_MINUTES : Z := 5.
Definition MESSAGE_HISTORY_BUFFER : nat := 500.

(** The names [walk_desired] inserts, in its order. *)
Fixpoint desired_names (node : ProjectNode) : list string :=
  (if negb (is_empty (pn_prefix node) && pn_disable_root_orchestrator node)
   then [if is_empty (pn_prefix node) then "orchestrator" else pn_prefix node +:+ ".orchestrator"] else [])
  ++ (wr_merged_name <$> pn_workspaces node)
  ++ mjoin (desired_names <$> pn_children node).
Definition build_desired_set (node : ProjectNode) (enabled : bool) : gmap string bool :=
  if enabled then foldl (fun m n => <[n := true]> m) ∅ (desired_names node) else ∅.

(** [t.is_none_or(|t| t.elapsed() >= interval)]. *)
Definition elapsed_at_least (interval now : Z) (last : option Z) : bool :=
  match last with
  | None => true
  | Some t => (interval <=? since now t)%Z
  end.

Definition format_intervention_notice (r : Task * string * string * string) : string :=
  let '(task, action, status, message_id) := r in
  action +:+ " task " +:+ short_task_id (t_id task) +:+ " · " +:+ status
  +:+ (if is_empty message_id then "" else " · message queued").

Inductive JobPoll := PollEmpty | PollReady | PollDisconnected.

(** What the loop holds: the application and the worker threads, each as its request. *)
Record Watch := mkWatch {
  wa_app : App;
  wa_task_job : option PendingTaskAction;
  wa_message_job : option string;
}.

Inductive Event := EvKey (ev : KeyEvent) | EvScrollUp | EvScrollDown | EvOther.

(** The input of one turn.  [tu_stream] and [tu_detail] are the last scroll positions of
    the stream and of the detail pane, when they were drawn. *)
Record Turn := mkTurn {
  tu_clock : Clock;
  tu_stream : option Z;
  tu_detail : option Z;
  tu_event : option Event;
  tu_task_poll : JobPoll;
  tu_message_poll : JobPoll;
}.

Section loop.
Context {W F T : Type} `{!Machine W F T} `{!Socket W} `{!WatchWire}.
Context `{!FileSystem F} `{!ArtifactFs F} `{!JsonCodec McpConfig} `{!JsonCodec (list Task)}.
Context `{!JsonCodec HistoryEntry} `{!YamlCodec Config} `{!YamlCodec ManagedOverlay}.
Context `{!TextOps} `{!SysText} `{!ParseText} `{!CodexHome F} `{!Prompts F} `{!Tmux T}.
(** [ax_bin] is [current_exe], or ["ax"]. *)
Context (env : Env) (hash_text : string -> string) (fuel : nat) (socket_path ax_bin : string).

Definition file_state (w : W) : F := files (machine w).
Definition tmux_state (w : W) : T := tmux (machine w).
Definition on_machine {E A} (m : Run E (World F T) A) : Run E W A := fun w =>
  match m (machine w) with
  | Some (r, x) => Some (r, set_machine x w)
  | None => None
  end.

(** *** Requests of worker threads and of the loop *)

Definition run_pending_task_create (draft : CreateTaskDraft) : Run WatchError W Task :=
  c ← connect_as env socket_path fuel "_cli";
  client_create_task fuel c (cd_title draft) (cd_description draft) (cd_assignee draft).

Definition run_pending_orchestrator_message (message : string) : Run WatchError W string := fun w =>
  let config_path := config_above_cwd env (file_state w) in
  (c ← connect_as env socket_path fuel "_cli";
   r ← client_send_message fuel c ROOT_ORCHESTRATOR_WORKSPACE message config_path;
   mret (if is_empty r.1 then "message to " +:+ ROOT_ORCHESTRATOR_WORKSPACE +:+ " suppressed"
         else "sent message to " +:+ ROOT_ORCHESTRATOR_WORKSPACE +:+ " · " +:+ r.1)) w.

Definition intervene (action : string) (p : PendingTaskAction) (expected : option Z) (c : Z)
  : Run WatchError W string :=
  r ← client_intervene_task fuel c (pa_task_id p) action "requested from ax watch tasks tab" expected;
  mret (format_intervention_notice r).

Definition run_pending_task_action (now : Z) (p : PendingTaskAction) : Run WatchError W string :=
  c ← connect_as env socket_path fuel "_cli";
  let expected := if (0 <? pa_expected_version p)%Z then Some (pa_expected_version p) else None in
  match pa_action p with
  | TaskWake => intervene "wake" p expected c
  | TaskInterrupt => intervene "interrupt" p expected c
  | TaskRetry => intervene "retry" p expected c
  | TaskCancel =>
      task ← client_cancel_task fuel c (pa_task_id p) "cancelled from ax watch tasks tab" expected;
      mret ("cancelled task " +:+ short_task_id (t_id task) +:+ " · " +:+ task_status_label now task)
  | _ => mret "task action ignored"
  end.

Definition apply_lifecycle (action : QuickActionId) (target config_path : string) (w : W)
  : option (list ActionOutcome * W) :=
  let control a prefix :=
    match on_machine (control_named_target env hash_text fuel socket_path config_path ax_bin target a) w with
    | None => None
    | Some (Ok resolved, w) =>
        Some ([ShowNotice (prefix +:+ lt_name resolved) false; CloseOverlay], w)
    | Some (Err e, w) => Some ([ShowNotice (to_string e) true], w)
    end in
  match action with
  | QRestart => control Restart "Restart requested for "
  | QStop => control Stop "Stopped "
  | _ => Some ([CloseOverlay], w)
  end.

(** *** Refreshing *)

Definition refresh_messages (w : W) (app : App) : App :=
  reconcile_message_cursor
    match read_history_snapshot (file_state w) (history_file_path (home env) socket_path)
            MESSAGE_HISTORY_BUFFER with
    | Loaded l => app <| messages := l |> <| messages_snapshot_error := None |>
    | Missing => app <| messages := [] |> <| messages_snapshot_error := None |>
    | SnapshotError e => app <| messages_snapshot_error := Some e |>
    end.

Definition refresh_tasks (now : Z) (w : W) (app : App) : App :=
  clamp_task_selection now
    match read_tasks_snapshot (file_state w) (tasks_file_path (home env) socket_path) with
    | Loaded l => app <| tasks := l |> <| task_snapshot_error := None |>
    | Missing => app <| tasks := [] |> <| task_snapshot_error := None |>
    | SnapshotError e => app <| task_snapshot_error := Some e |>
    end.

Definition no_tree (app : App) : App :=
  app <| tree := None |> <| desired := ∅ |> <| reconfigure_enabled := false |> <| workspace_dirs := ∅ |>.
Definition refresh_tree (w : W) (app : App) : option App :=
  match config_above_cwd env (file_state w) with
  | None => Some (no_tree app)
  | Some cfg_path =>
      tree_result ← load_tree env (file_state w) fuel cfg_path;
      flat_result ← load env (file_state w) fuel cfg_path;
      let loaded := match tree_result with Ok n => Some n | Err _ => None end in
      let reconfigure := match flat_result with
                         | Ok cfg => experimental_mcp_team_reconfigure cfg
                         | Err _ => false
                         end in
      Some (app <| reconfigure_enabled := reconfigure |>
                <| desired := match loaded with Some n => build_desired_set n reconfigure | None => ∅ end |>
                <| workspace_dirs := match flat_result with
                                     | Ok cfg => w_dir <$> workspaces cfg
                                     | Err _ => ∅
                                     end |>
                <| tree := loaded |>)
  end.

Definition refresh_captures (now : Z) (w : W) (app : App) : App :=
  let focused := or_else (streamed_workspace app) (selected_workspace app) in
  let '(_, c) := captures_refresh (tmux_state w) now (sessions app) focused (captures app) in
  app <| captures := prune (sessions app) c |>.

Definition by_workspace (trends : list WorkspaceTrend) : gmap string WorkspaceTrend :=
  foldl (fun m t => <[wt_workspace t := t]> m) ∅ trends.
Definition refresh_usage (now : Z) (app : App) (w : W) : option (App * W) :=
  if negb (daemon_running app) || bool_decide (workspace_dirs app = ∅) then Some (app, w) else
  if negb (elapsed_at_least USAGE_REFRESH_INTERVAL now (last_usage_refresh app)) then Some (app, w) else
  match connect env socket_path fuel w with
  | None => None
  | Some (Err _, w) => Some (app, w)
  | Some (Ok c, w) =>
      match client_usage_trends fuel c (btree_to_list (workspace_dirs app)) USAGE_WINDOW_MINUTES
              USAGE_BUCKET_MINUTES w with
      | None => None
      | Some (Ok trends, w) =>
          Some (clear_refresh_notice NoticeUsage
                  ((clamp_token_selection (app <| usage_trends := by_workspace trends |>))
                     <| last_usage_refresh := Some now |>), w)
      | Some (Err e, w) => Some (set_refresh_notice NoticeUsage ("usage_trends: " +:+ to_string e) app, w)
      end
  end.

Definition refresh_sessions (w : W) (app : App) : App :=
  match list_sessions (tmux_state w) with
  | Ok l => clear_refresh_notice NoticeTmux (app <| sessions := l |>)
  | Err e => set_refresh_notice NoticeTmux ("tmux list-sessions: " +:+ to_string e) app
  end.

Definition by_name (infos : list WorkspaceInfo) : gmap string WorkspaceInfo :=
  foldl (fun m i => <[wi_name i := i]> m) ∅ infos.
Definition refresh_workspaces (app : App) (w : W) : option (App * W) :=
  match connect env socket_path fuel w with
  | None => None
  | Some (Err _, w) => Some (app <| daemon_running := false |> <| workspace_infos := ∅ |>, w)
  | Some (Ok c, w) =>
      let app := app <| daemon_running := true |> in
      match list_workspaces fuel c w with
      | None => None
      | Some (Ok infos, w) => Some (clear_refresh_notice NoticeDaemon (app <| workspace_infos := by_name infos |>), w)
      | Some (Err e, w) => Some (set_refresh_notice NoticeDaemon ("daemon: " +:+ to_string e) app, w)
      end
  end.

Definition refresh (clk : Clock) (app : App) (w : W) : option (App * W) :=
  '(app, w) ← refresh_workspaces (refresh_sessions w app) w;
  app ← refresh_tree w app;
  let app := rebuild_agents app in
  let app := refresh_tasks (utc_now clk) w (refresh_messages w app) in
  let app := refresh_captures (instant_now clk) w app in
  '(app, w) ← refresh_usage (instant_now clk) app w;
  Some (app <| last_refresh := Some (instant_now clk) |>, w).

(** *** Draining *)

Definition drain_pending_lifecycle (clk : Clock) (app : App) (w : W) : option (App * W) :=
  match pending_lifecycle app with
  | None => Some (app, w)
  | Some p =>
      let app := app <| pending_lifecycle := None |> in
      match cwd env with
      | Err _ => Some (set_notice clk "resolve cwd failed" true app, w)
      | Ok _ =>
          match config_above_cwd env (file_state w) with
          | None => Some (set_notice clk "no .ax/config.yaml found" true app, w)
          | Some cfg_path =>
              '(outcomes, w) ← apply_lifecycle (pl_action p) (pl_workspace p) cfg_path w;
              Some (apply_outcomes clk outcomes app, w)
          end
      end
  end.

(** The result of a worker; [None] when it has none yet. *)
Definition poll_job (poll : JobPoll) (name : string) (run : Run WatchError W string) (w : W)
  : option (option (result string string) * W) :=
  match poll with
  | PollEmpty => Some (None, w)
  | PollDisconnected => Some (Some (Err (name +:+ " worker disconnected")), w)
  | PollReady => match run w with
                 | None => None
                 | Some (r, w) => Some (Some (map_err to_string r), w)
                 end
  end.

Definition task_action_done (clk : Clock) (r : result string string) (w : W) (app : App) : App :=
  match r with
  | Ok text => refresh_tasks (utc_now clk) w (set_notice clk text false app)
  | Err e => set_notice clk ("task action failed: " +:+ e) true app
  end.
Definition drain_pending_task_action (clk : Clock) (poll : JobPoll) (s : Watch) (w : W)
  : option (Watch * W) :=
  let '(mkWatch app job message_job) := s in
  match job with
  | Some p =>
      '(r, w) ← poll_job poll "task action" (run_pending_task_action (utc_now clk) p) w;
      Some (match r with
            | None => s
            | Some r => mkWatch (task_action_done clk r w app) None message_job
            end, w)
  | None =>
      Some (match pending_task_action app with
            | None => s
            | Some p => mkWatch (app <| pending_task_action := None |>) (Some p) message_job
            end, w)
  end.

Definition task_create_done (clk : Clock) (r : result WatchError Task) (w : W) (app : App) : App :=
  match r with
  | Ok task =>
      refresh_tasks (utc_now clk) w
        (set_notice clk ("created task " +:+ short_task_id (t_id task) +:+ " · " +:+ t_assignee task) false
           (app <| create_task_form := None |> <| stream := ViewTasks |> <| force_refresh := true |>))
  | Err e =>
      let text := "create task failed: " +:+ to_string e in
      set_notice clk text true
        match create_task_form app with
        | Some form =>
            app <| create_task_form := Some (form <| cf_submitting := false |> <| cf_error := Some text |>) |>
        | None => app
        end
  end.
Definition drain_pending_task_create (clk : Clock) (app : App) (w : W) : option (App * W) :=
  match pending_task_create app with
  | None => Some (app, w)
  | Some draft =>
      '(r, w) ← run_pending_task_create draft w;
      Some (task_create_done clk r w (app <| pending_task_create := None |>), w)
  end.

Definition message_send_done (clk : Clock) (r : result string string) (w : W) (app : App) : App :=
  match r with
  | Ok text =>
      refresh_messages w
        ((set_notice clk text false (app <| orchestrator_message_form := None |>)) <| force_refresh := true |>)
  | Err e =>
      let text := "send message failed: " +:+ e in
      set_notice clk text true
        match orchestrator_message_form app with
        | Some form =>
            app <| orchestrator_message_form :=
                     Some (form <| mf_submitting := false |> <| mf_error := Some text |>) |>
        | None => app
        end
  end.
Definition drain_pending_orchestrator_message (clk : Clock) (poll : JobPoll) (s : Watch) (w : W)
  : option (Watch * W) :=
  let '(mkWatch app task_job job) := s in
  match job with
  | Some message =>
      '(r, w) ← poll_job poll "message send" (run_pending_orchestrator_message message) w;
      Some (match r with
            | None => s
            | Some r => mkWatch (message_send_done clk r w app) task_job None
            end, w)
  | None =>
      Some (match pending_orchestrator_message app with
            | None => s
            | Some m => mkWatch (app <| pending_orchestrator_message := None |>) task_job (Some m)
            end, w)
  end.

(** *** The loop *)

Definition draw (turn : Turn) (app : App) : App :=
  let app := match tu_stream turn with Some m => draw_stream_scroll m app | None => app end in
  match tu_detail turn with Some m => apply_tail_detail_scroll m app | None => app end.

Definition handle_event (clk : Clock) (ev : option Event) (app : App) (w : W) : App * W :=
  match ev with
  | Some (EvKey key) =>
      let '(app, t) := handle_key clk key app (tmux_state w) in
      (app, set_machine (mkWorld (file_state w) t) w)
  | Some EvScrollUp => (handle_scroll (utc_now clk) (-1) app, w)
  | Some EvScrollDown => (handle_scroll (utc_now clk) 1 app, w)
  | Some EvOther | None => (app, w)
  end.

Definition refresh_if_due (clk : Clock) (app : App) (w : W) : option (App * W) :=
  if force_refresh app || elapsed_at_least REFRESH_INTERVAL (instant_now clk) (last_refresh app)
  then refresh clk (app <| force_refresh := false |>) w
  else Some (app, w).

(** The state after the event of a turn, before anything is drained. *)
Definition react (turn : Turn) (s : Watch) (w : W) : Watch * W :=
  let '(app, w) := handle_event (tu_clock turn) (tu_event turn) (draw turn (wa_app s)) w in
  (mkWatch app (wa_task_job s) (wa_message_job s), w).

Definition settle (turn : Turn) (s : Watch) (w : W) : option (Watch * W) :=
  let clk := tu_clock turn in
  '(app, w) ← drain_pending_lifecycle clk (wa_app s) w;
  '(s, w) ← drain_pending_task_action clk (tu_task_poll turn) (mkWatch app (wa_task_job s) (wa_message_job s)) w;
  '(app, w) ← drain_pending_task_create clk (wa_app s) w;
  '(s, w) ← drain_pending_orchestrator_message clk (tu_message_poll turn)
              (mkWatch app (wa_task_job s) (wa_message_job s)) w;
  '(app, w) ← refresh_if_due clk (expire_notice clk (wa_app s)) w;
  Some (mkWatch app (wa_task_job s) (wa_message_job s), w).

Definition run_turn (turn : Turn) (s : Watch) (w : W) : option (Watch * W) :=
  let '(s, w) := react turn s w in
  if quit (wa_app s) then Some (s, w) else settle turn s w.

Definition start (clk : Clock) (w : W) : option (Watch * W) :=
  '(app, w) ← refresh clk app_new w;
  Some (mkWatch app None None, w).

(** Runs of the loop, the turns and the states they led to, newest first. *)
Inductive watching : list (Turn * Watch) -> Watch -> Prop :=
| watching_start clk w s w' : start clk w = Some (s, w') -> watching [] s
| watching_turn turn tr s w s' w' :
    watching tr s -> quit (wa_app s) = false -> run_turn turn s w = Some (s', w') ->
    watching ((turn, s) :: tr) s'.
End loop.
