(* ===== verification/CliArgs.v ===== *)
(** * The command line of ax (crates/ax-cli/src/main.rs): its grammar.

    [parse_args] turns an argument vector into a [ParsedCommand] or an error.  Each command
    has its own loop over the arguments in the source; here a loop is [scan] over a step that
    says what one argument does.  Arguments are UTF-8, so that [to_string_lossy] is the
    identity.  What the parsers look at in the world (files, the daemon's process) are
    arguments of the sections. *)

From Stdlib Require Import Ascii.
From stdpp Require Import prelude strings list gmap.
From S2P Require Import Prelude RustStr Proto TaskHelpers SessionManager Paths ConfigSchema ConfigTree Tmux.
From S2P Require Import Artifacts WorkspaceManager Dispatch ErrorText TuiData Agent RustText.

(** ** Options and commands *)

Record CommonOptions := mkCommonOptions {
  co_socket_path : string;
  co_config_path : string;
  co_ax_bin : string;
}.

Inductive DaemonAction := DaemonStart | DaemonStop | DaemonStatusAction.

(** tasks.rs *)
Inductive TasksCommand :=
| TasksList (assignee created_by : string) (status : option TaskStatus) (only_stale : bool)
| TasksShow (id : string) (log_limit : Z)
| TasksCancel (id reason : string) (expected_version : option Z)
| TasksRemove (id reason : string) (expected_version : option Z)
| TasksRecover (id : string)
| TasksIntervene (id action note : string) (expected_version : option Z)
| TasksRetry (id note : string) (expected_version : option Z)
| TasksActivity (id : option string) (assignee created_by : string) (status : option TaskStatus)
    (only_stale : bool) (limit : Z).

(** refresh.rs *)
Record RefreshOptions := mkRefreshOptions {
  ro_restart : bool;
  ro_start_missing : bool;
}.

(** init.rs *)
Inductive Axis := AxisAuto | AxisRole | AxisDomain.
Definition axis_parse (raw : string) : option Axis :=
  let v := to_ascii_lowercase (trim raw) in
  if String.eqb v "auto" then Some AxisAuto
  else if String.eqb v "role" || String.eqb v "role-first" then Some AxisRole
  else if String.eqb v "domain" || String.eqb v "domain-first" then Some AxisDomain
  else None.
Record InitOptions := mkInitOptions {
  in_global : bool;
  in_no_setup : bool;
  in_no_refresh : bool;
  in_runtime : string;
  in_socket_path : string;
  in_daemon_running : bool;
  in_axis : Axis;
  in_reconfigure : bool;
}.

Inductive ParsedCommand :=
| PHelp
| PDaemon (action : DaemonAction) (socket_path : string)
| PUp (options : CommonOptions)
| PDown (options : CommonOptions)
| PRootOrchestrator (runtime : string) (passthrough_args : list string) (options : CommonOptions)
| PSend (to message socket_path config_path : string)
| PMessages (from : string) (limit : Z) (wait history : bool) (timeout_seconds : Z)
    (json_output : bool) (socket_path : string)
| PLifecycle (action : LifecycleAction) (target : string) (options : CommonOptions)
| PRunAgent (runtime workspace socket_path : string) (config_path : option string) (fresh : bool)
    (extra_args : list string)
| PDispatch (target sender : string) (fresh : bool) (options : CommonOptions)
| PMcpServer (workspace socket_path : string) (config_path : option string)
| PStatus (socket_path : string) (config_path : option string)
| PRefresh (options : CommonOptions) (refresh : RefreshOptions)
| PTasks (socket_path : string) (command : TasksCommand)
| PInit (options : InitOptions)
| PWatch (socket_path : string)
| PWorkspaceCreate (name : string) (dir : option string) (options : CommonOptions)
| PWorkspaceDestroy (name : string) (options : CommonOptions)
| PWorkspaceList (socket_path : string) (config_path : option string) (include_internal : bool)
| PWorkspaceAttach (name : string)
| PWorkspaceInterrupt (name : string).

(** ** Errors of parsing

    [Usage] carries its text; the others are the errors parsing can meet: the value of
    [--status] (tasks.rs) and the daemon's pid file.  A [DaemonError] is its text. *)

Inductive DaemonCliError :=
| DMissingStateDir (socket_path : string)
| DBuildRuntime (source : IoError)
| DLoadState (state_dir text : string)
| DBind (text : string)
| DSignalSetup (source : IoError)
| DSignalWait (source : IoError)
| DWritePid (path : string) (source : IoError)
| DReadPid (path : string) (source : IoError)
| DMissingPidFile
| DInvalidPidFile
| DSignalCommand (signal : string) (source : IoError)
| DSignalFailed (signal stderr : string).

Inductive ParseError :=
| Usage (message : string)
| InvalidStatus (value : string)
| DaemonProblem (e : DaemonCliError).

#[export] Instance DaemonCliError_display `{!SysText} : Display DaemonCliError := fun e =>
  match e with
  | DMissingStateDir socket_path => "resolve daemon state dir from socket " +:+ socket_path
  | DBuildRuntime source => "build tokio runtime: " +:+ to_string source
  | DLoadState state_dir text => "load daemon state from " +:+ state_dir +:+ ": " +:+ text
  | DBind text => text
  | DSignalSetup source => "install shutdown signal handler: " +:+ to_string source
  | DSignalWait source => "wait for shutdown signal: " +:+ to_string source
  | DWritePid path source => "write pid file " +:+ path +:+ ": " +:+ to_string source
  | DReadPid path source => "read pid file " +:+ path +:+ ": " +:+ to_string source
  | DMissingPidFile => "daemon not running (no pid file)"
  | DInvalidPidFile => "invalid pid file"
  | DSignalCommand signal source => "signal " +:+ signal +:+ ": " +:+ to_string source
  | DSignalFailed signal stderr =>
      if is_empty stderr then "signal " +:+ signal +:+ " failed"
      else "signal " +:+ signal +:+ " failed: " +:+ stderr
  end.
#[export] Instance ParseError_display `{!SysText} `{!TextOps} : Display ParseError := fun e =>
  match e with
  | Usage message => message
  | InvalidStatus value => "invalid --status " +:+ debug_str value
  | DaemonProblem e => to_string e
  end.

(** ** Texts *)

Definition USAGE : string :=
"ax — multi-agent LLM workspace manager built on tmux

Usage:
  ax daemon start [--socket PATH]
  ax daemon stop [--socket PATH]
  ax daemon status [--socket PATH]
  ax up [--config PATH] [--socket PATH] [--ax-bin PATH]
  ax down [--config PATH] [--socket PATH] [--ax-bin PATH]
  ax claude [claude args...]
  ax codex [codex args...]
  ax send [--config PATH] [--socket PATH] <workspace> <message...>
  ax messages [--history] [--from NAME] [--limit N] [--wait] [--timeout SECONDS] [--json] [--socket PATH]
  ax start <target> [--config PATH] [--socket PATH] [--ax-bin PATH]
  ax stop <target> [--config PATH] [--socket PATH] [--ax-bin PATH]
  ax restart <target> [--config PATH] [--socket PATH] [--ax-bin PATH]
  ax dispatch <target> --sender NAME [--fresh] [--config PATH] [--socket PATH] [--ax-bin PATH]
  ax run-agent --workspace NAME [--runtime RUNTIME] [--socket PATH] [--config PATH] [--fresh] [-- ...]
  ax mcp-server --workspace NAME [--socket PATH] [--config PATH]
  ax status [--socket PATH] [--config PATH]
  ax refresh [--restart] [--start-missing] [--socket PATH] [--config PATH] [--ax-bin PATH]
  ax tasks [--assignee N] [--created-by N] [--status S] [--stale] [--socket PATH]
  ax tasks show <id> [--logs N] [--socket PATH]
  ax tasks cancel <id> [--reason STR] [--expected-version N] [--socket PATH]
  ax tasks remove <id> [--reason STR] [--expected-version N] [--socket PATH]
  ax tasks recover <id> [--socket PATH]
  ax tasks intervene <id> --action wake|interrupt|retry [--note STR] [--expected-version N] [--socket PATH]
  ax tasks retry <id> [--note STR] [--expected-version N] [--socket PATH]
  ax tasks activity [task-id] [--assignee N] [--created-by N] [--status S] [--stale] [--limit N] [--socket PATH]
  ax init [--global] [--no-setup] [--no-refresh] [--axis auto|role|domain] [--codex|--claude] [--socket PATH]
  ax init --reconfigure [--no-refresh] [--codex|--claude] [--socket PATH]
  ax top [--socket PATH]
  ax watch [--socket PATH]
  ax workspace create <name> [--dir PATH] [--socket PATH] [--config PATH] [--ax-bin PATH]
  ax workspace destroy <name> [--socket PATH] [--config PATH] [--ax-bin PATH]
  ax workspace list [--internal] [--socket PATH] [--config PATH]
  ax workspace attach <name>
  ax workspace interrupt <name>

Notes:
  --config defaults to the discovered ax config (.ax/config.yaml or ax.yaml)
  --socket defaults to ~/.local/state/ax/daemon.sock
  --ax-bin defaults to the current ax executable
  ax messages reads the synthetic _cli inbox; _cli is not an ax send/send_message target
  ax messages --history shows recent global message history without draining inboxes
".

Definition DEFAULT_SOCKET_PATH : string := "~/.local/state/ax/daemon.sock".
Definition CLI_INBOX_WORKSPACE : string := "_cli".

(** A message followed by the usage. *)
Definition usage {A} (message : string) : result ParseError A :=
  Err (Usage (message +:+ newline +:+ newline +:+ USAGE)).

(** ** Loops over arguments *)

(** What one argument does: it asks for help, is refused, sets something, takes the next
    argument as its value, or takes all the arguments behind it. *)
Inductive Arg (A : Type) :=
| AskHelp
| Refuse (e : ParseError)
| Next (a : A)
| Value (k : option string -> result ParseError A)
| Rest (k : list string -> A).
Arguments AskHelp {A}.
Arguments Refuse {A} e.
Arguments Next {A} a.
Arguments Value {A} k.
Arguments Rest {A} k.

(** [None] is a call for help. *)
Fixpoint scan {A} (step : string -> A -> Arg A) (a : A) (argv : list string)
    : result ParseError (option A) :=
  match argv with
  | [] => Ok (Some a)
  | arg :: rest =>
      match step arg a with
      | AskHelp => Ok None
      | Refuse e => Err e
      | Next a => scan step a rest
      | Value k =>
          match rest with
          | v :: rest => match k (Some v) with Ok a => scan step a rest | Err e => Err e end
          | [] => match k None with Ok a => Ok (Some a) | Err e => Err e end
          end
      | Rest k => Ok (Some (k rest))
      end
  end.

(** The command an accepted state stands for. *)
Definition command_of {A} (r : result ParseError (option A)) (k : A -> result ParseError ParsedCommand)
    : result ParseError ParsedCommand :=
  match r with
  | Ok (Some a) => k a
  | Ok None => Ok PHelp
  | Err e => Err e
  end.

Definition is_help (arg : string) : bool := String.eqb arg "-h" || String.eqb arg "--help".
Definition is_flag (arg : string) : bool := starts_with arg "-".

Section parsers.
Context `{!TextOps}.

Definition unknown_flag {A} (arg : string) : result ParseError A := usage ("unknown flag " +:+ debug_str arg).
Definition unexpected {A} (arg : string) : result ParseError A :=
  usage ("unexpected extra argument " +:+ debug_str arg).
Definition refuse {A} (r : result ParseError A) : Arg A :=
  match r with Err e => Refuse e | Ok a => Next a end.
(** The last arms of most loops: a flag is unknown, anything else is one too many. *)
Definition no_more {A} (arg : string) : Arg A :=
  if is_flag arg then refuse (unknown_flag arg) else refuse (unexpected arg).

(** ** Values of flags *)

Definition parse_string_arg (flag : string) (value : option string) : result ParseError string :=
  match value with
  | Some v => Ok v
  | None => usage (flag +:+ " requires a value")
  end.
Definition parse_i64_arg (flag : string) (value : option string) : result ParseError Z :=
  raw ← parse_string_arg flag value;
  match parse_i64 raw with Some v => Ok v | None => usage (flag +:+ " requires an integer value") end.
Definition parse_u64_arg (flag : string) (value : option string) : result ParseError Z :=
  raw ← parse_string_arg flag value;
  match parse_u64 raw with
  | Some v => Ok v
  | None => usage (flag +:+ " requires a non-negative integer value")
  end.
Definition parse_usize_arg (flag : string) (value : option string) : result ParseError Z :=
  text ← parse_string_arg flag value;
  match parse_u64 text with
  | Some v => Ok v
  | None => Err (Usage (flag +:+ " expects a non-negative integer"))
  end.

(** tasks.rs: the historical values of [--status]. *)
Definition parse_task_status_flag (raw : string) : result ParseError (option TaskStatus) :=
  let trimmed := trim raw in
  if is_empty trimmed then Ok None
  else if String.eqb trimmed "pending" then Ok (Some Pending)
  else if String.eqb trimmed "in_progress" then Ok (Some InProgress)
  else if String.eqb trimmed "completed" then Ok (Some Completed)
  else if String.eqb trimmed "failed" then Ok (Some Failed)
  else if String.eqb trimmed "cancelled" then Ok (Some Cancelled)
  else Err (InvalidStatus trimmed).

Context (home : option string) (cwd current_exe : string) (is_file : string -> bool).

Definition default_socket : string := expand_socket_path home DEFAULT_SOCKET_PATH.

Definition parse_path_arg (flag : string) (value : option string) : result ParseError string :=
  v ← parse_string_arg flag value;
  Ok (if is_absolute v then v else join cwd v).
Definition parse_socket_path (flag : string) (value : option string) : result ParseError string :=
  v ← parse_string_arg flag value;
  Ok (expand_socket_path home v).

(** [find_config_file] walks at most as many steps as the path is long. *)
Definition resolve_config_path (config_override : option string) : result ParseError string :=
  match config_override with
  | Some path => Ok path
  | None =>
      match mjoin (find_config_file is_file home (S (length (bytes cwd))) cwd) with
      | Some path => Ok path
      | None => usage ("no ax config found from " +:+ cwd)
      end
  end.

(** The three overrides most commands accept. *)
Record Overrides := mkOverrides {
  ov_socket : option string;
  ov_config : option string;
  ov_ax_bin : option string;
}.
Definition no_overrides : Overrides := mkOverrides None None None.

Definition override_flag (arg : string) (o : Overrides) : option (Arg Overrides) :=
  if String.eqb arg "--socket" then
    Some (Value (fun v => s ← parse_socket_path "--socket" v; Ok (mkOverrides (Some s) (ov_config o) (ov_ax_bin o))))
  else if String.eqb arg "--config" then
    Some (Value (fun v => c ← parse_path_arg "--config" v; Ok (mkOverrides (ov_socket o) (Some c) (ov_ax_bin o))))
  else if String.eqb arg "--ax-bin" then
    Some (Value (fun v => b ← parse_path_arg "--ax-bin" v; Ok (mkOverrides (ov_socket o) (ov_config o) (Some b))))
  else None.

Definition common_options (o : Overrides) : result ParseError CommonOptions :=
  config ← resolve_config_path (ov_config o);
  Ok (mkCommonOptions (default default_socket (ov_socket o)) config (default current_exe (ov_ax_bin o))).

(** ** ax daemon, up, down *)

Definition daemon_step (arg : string) (socket_path : string) : Arg string :=
  if is_help arg then AskHelp
  else if String.eqb arg "--socket" then Value (parse_socket_path "--socket")
  else no_more arg.
Definition parse_daemon_args (argv : list string) : result ParseError ParsedCommand :=
  match argv with
  | _ :: sub :: rest =>
      let with_action action :=
        command_of (scan daemon_step default_socket rest) (fun socket => Ok (PDaemon action socket)) in
      if is_help sub then Ok PHelp
      else if String.eqb sub "start" then with_action DaemonStart
      else if String.eqb sub "stop" then with_action DaemonStop
      else if String.eqb sub "status" then with_action DaemonStatusAction
      else usage ("unknown daemon command " +:+ debug_str sub)
  | _ => Ok PHelp
  end.

Definition overrides_step (arg : string) (o : Overrides) : Arg Overrides :=
  if is_help arg then AskHelp
  else match override_flag arg o with Some a => a | None => no_more arg end.
Definition parse_up_args (argv : list string) : result ParseError ParsedCommand :=
  command_of (scan overrides_step no_overrides (drop 1 argv)) (fun o => PUp <$> common_options o).
Definition parse_down_args (argv : list string) : result ParseError ParsedCommand :=
  command_of (scan overrides_step no_overrides (drop 1 argv)) (fun o => PDown <$> common_options o).

(** ** ax claude and ax codex *)

Definition normalize_claude_passthrough_args (args : list string) : list string :=
  match args with
  | first :: rest =>
      (if String.eqb first "resume" then "--resume"
       else if String.eqb first "continue" then "--continue" else first) :: rest
  | [] => []
  end.
Definition parse_root_orchestrator_args (command : string) (argv : list string)
    : result ParseError ParsedCommand :=
  let passthrough := drop 1 argv in
  let passthrough := if String.eqb command "claude"
                     then normalize_claude_passthrough_args passthrough else passthrough in
  config ← resolve_config_path None;
  Ok (PRootOrchestrator command passthrough (mkCommonOptions default_socket config current_exe)).

(** ** ax send and ax messages *)

Definition reject_cli_inbox_send_target (to : string) : result ParseError unit :=
  if negb (String.eqb (trim to) CLI_INBOX_WORKSPACE) then Ok tt
  else usage ("`" +:+ CLI_INBOX_WORKSPACE +:+ "` is the CLI inbox name, not an addressable workspace. Use `ax messages` to read it, or send to a real workspace/orchestrator.").

Record SendArgs := mkSendArgs {
  sa_socket : string;
  sa_config : option string;
  sa_to : option string;
  sa_message_parts : list string;
}.
Definition send_step (arg : string) (a : SendArgs) : Arg SendArgs :=
  match sa_to a with
  | Some _ => Next (mkSendArgs (sa_socket a) (sa_config a) (sa_to a) (sa_message_parts a ++ [arg]))
  | None =>
      if is_help arg then AskHelp
      else if String.eqb arg "--socket" then
        Value (fun v => s ← parse_socket_path "--socket" v;
                        Ok (mkSendArgs s (sa_config a) (sa_to a) (sa_message_parts a)))
      else if String.eqb arg "--config" then
        Value (fun v => c ← parse_path_arg "--config" v;
                        Ok (mkSendArgs (sa_socket a) (Some c) (sa_to a) (sa_message_parts a)))
      else if is_flag arg then refuse (unknown_flag arg)
      else Next (mkSendArgs (sa_socket a) (sa_config a) (Some arg) (sa_message_parts a))
  end.
Definition parse_send_args (argv : list string) : result ParseError ParsedCommand :=
  command_of (scan send_step (mkSendArgs default_socket None None []) (drop 1 argv)) (fun a =>
    to ← match sa_to a with Some to => Ok to | None => usage "send requires a workspace target" end;
    _ ← reject_cli_inbox_send_target to;
    match sa_message_parts a with
    | [] => usage "send requires a message body"
    | parts =>
        config ← resolve_config_path (sa_config a);
        Ok (PSend to (String.concat " " parts) (sa_socket a) config)
    end).

Record MessagesArgs := mkMessagesArgs {
  ma_socket : string;
  ma_from : string;
  ma_limit : Z;
  ma_wait : bool;
  ma_history : bool;
  ma_timeout : Z;
  ma_json : bool;
}.
#[local] Instance MessagesArgs_eta : Updatable MessagesArgs := fun a =>
  mkMessagesArgs (ma_socket a) (ma_from a) (ma_limit a) (ma_wait a) (ma_history a) (ma_timeout a) (ma_json a).
Definition messages_step (arg : string) (a : MessagesArgs) : Arg MessagesArgs :=
  if is_help arg then AskHelp
  else if String.eqb arg "--socket" then
    Value (fun v => s ← parse_socket_path "--socket" v; Ok (a <| ma_socket := s |>))
  else if String.eqb arg "--from" then
    Value (fun v => s ← parse_string_arg "--from" v; Ok (a <| ma_from := s |>))
  else if String.eqb arg "--limit" then
    Value (fun v => n ← parse_i64_arg "--limit" v; Ok (a <| ma_limit := n |>))
  else if String.eqb arg "--wait" then Next (a <| ma_wait := true |>)
  else if String.eqb arg "--history" then Next (a <| ma_history := true |>)
  else if String.eqb arg "--timeout" then
    Value (fun v => n ← parse_u64_arg "--timeout" v; Ok (a <| ma_timeout := n |>))
  else if String.eqb arg "--json" then Next (a <| ma_json := true |>)
  else no_more arg.
Definition parse_messages_args (argv : list string) (force_json : bool) : result ParseError ParsedCommand :=
  command_of (scan messages_step (mkMessagesArgs default_socket "" 10 false false 120 force_json) (drop 1 argv))
    (fun a =>
      if ma_history a && ma_wait a then usage "messages --history cannot be combined with --wait"
      else Ok (PMessages (ma_from a) (ma_limit a) (ma_wait a) (ma_history a) (ma_timeout a) (ma_json a)
                 (ma_socket a))).

(** ** ax run-agent and ax mcp-server *)

Record RunAgentArgs := mkRunAgentArgs {
  ra_runtime : string;
  ra_workspace : option string;
  ra_socket : string;
  ra_config : option string;
  ra_fresh : bool;
  ra_extra : list string;
}.
#[local] Instance RunAgentArgs_eta : Updatable RunAgentArgs := fun a =>
  mkRunAgentArgs (ra_runtime a) (ra_workspace a) (ra_socket a) (ra_config a) (ra_fresh a) (ra_extra a).
Definition run_agent_step (arg : string) (a : RunAgentArgs) : Arg RunAgentArgs :=
  if is_help arg then AskHelp
  else if String.eqb arg "--" then Rest (fun rest => a <| ra_extra := rest |>)
  else if String.eqb arg "--runtime" then
    Value (fun v => s ← parse_string_arg "--runtime" v; Ok (a <| ra_runtime := s |>))
  else if String.eqb arg "--workspace" then
    Value (fun v => s ← parse_string_arg "--workspace" v; Ok (a <| ra_workspace := Some s |>))
  else if String.eqb arg "--socket" then
    Value (fun v => s ← parse_socket_path "--socket" v; Ok (a <| ra_socket := s |>))
  else if String.eqb arg "--config" then
    Value (fun v => c ← parse_path_arg "--config" v; Ok (a <| ra_config := Some c |>))
  else if String.eqb arg "--fresh" then Next (a <| ra_fresh := true |>)
  else if is_flag arg then refuse (unknown_flag arg)
  else refuse (usage ("unexpected extra argument " +:+ debug_str arg +:+ "; use `--` before runtime args")).
Definition parse_run_agent_args (argv : list string) : result ParseError ParsedCommand :=
  command_of (scan run_agent_step (mkRunAgentArgs "claude" None default_socket None false []) (drop 1 argv))
    (fun a => match ra_workspace a with
              | Some ws => Ok (PRunAgent (ra_runtime a) ws (ra_socket a) (ra_config a) (ra_fresh a) (ra_extra a))
              | None => usage "--workspace is required"
              end).

Record McpArgs := mkMcpArgs {
  mc_workspace : option string;
  mc_socket : string;
  mc_config : option string;
}.
Definition mcp_step (arg : string) (a : McpArgs) : Arg McpArgs :=
  if is_help arg then AskHelp
  else if String.eqb arg "--workspace" then
    Value (fun v => s ← parse_string_arg "--workspace" v; Ok (mkMcpArgs (Some s) (mc_socket a) (mc_config a)))
  else if String.eqb arg "--socket" then
    Value (fun v => s ← parse_socket_path "--socket" v; Ok (mkMcpArgs (mc_workspace a) s (mc_config a)))
  else if String.eqb arg "--config" then
    Value (fun v => c ← parse_path_arg "--config" v; Ok (mkMcpArgs (mc_workspace a) (mc_socket a) (Some c)))
  else refuse (unknown_flag arg).
Definition parse_mcp_server_args (argv : list string) : result ParseError ParsedCommand :=
  command_of (scan mcp_step (mkMcpArgs None default_socket None) (drop 1 argv)) (fun a =>
    match mc_workspace a with
    | Some ws => Ok (PMcpServer ws (mc_socket a) (mc_config a))
    | None => usage "--workspace is required"
    end).

(** ** ax status, ax refresh, ax watch *)

Definition status_step (arg : string) (a : string * option string) : Arg (string * option string) :=
  if is_help arg then AskHelp
  else if String.eqb arg "--socket" then Value (fun v => s ← parse_socket_path "--socket" v; Ok (s, a.2))
  else if String.eqb arg "--config" then Value (fun v => c ← parse_path_arg "--config" v; Ok (a.1, Some c))
  else refuse (unknown_flag arg).
Definition parse_status_args (argv : list string) : result ParseError ParsedCommand :=
  command_of (scan status_step (default_socket, None) (drop 1 argv)) (fun a => Ok (PStatus a.1 a.2)).

Definition lift_arg {A B} (put : A -> B) (x : Arg A) : Arg B :=
  match x with
  | AskHelp => AskHelp
  | Refuse e => Refuse e
  | Next a => Next (put a)
  | Value k => Value (fun v => a ← k v; Ok (put a))
  | Rest k => Rest (fun r => put (k r))
  end.

Definition refresh_step (arg : string) (a : Overrides * RefreshOptions) : Arg (Overrides * RefreshOptions) :=
  if is_help arg then AskHelp
  else if String.eqb arg "--restart" then Next (a.1, mkRefreshOptions true (ro_start_missing a.2))
  else if String.eqb arg "--start-missing" then Next (a.1, mkRefreshOptions (ro_restart a.2) true)
  else match override_flag arg a.1 with
       | Some x => lift_arg (fun o => (o, a.2)) x
       | None => refuse (unknown_flag arg)
       end.
Definition parse_refresh_args (argv : list string) : result ParseError ParsedCommand :=
  command_of (scan refresh_step (no_overrides, mkRefreshOptions false false) (drop 1 argv)) (fun a =>
    options ← common_options a.1; Ok (PRefresh options a.2)).

Definition watch_step (arg : string) (socket_path : string) : Arg string :=
  if is_help arg then AskHelp
  else if String.eqb arg "--socket" then Value (parse_socket_path "--socket")
  else refuse (unknown_flag arg).
Definition parse_watch_args (argv : list string) : result ParseError ParsedCommand :=
  command_of (scan watch_step default_socket (drop 1 argv)) (fun s => Ok (PWatch s)).

(** ** ax workspace *)

Definition workspace_list_step (arg : string) (a : string * option string * bool)
    : Arg (string * option string * bool) :=
  let '(socket, config, internal) := a in
  if is_help arg then AskHelp
  else if String.eqb arg "--internal" then Next (socket, config, true)
  else if String.eqb arg "--socket" then
    Value (fun v => s ← parse_socket_path "--socket" v; Ok (s, config, internal))
  else if String.eqb arg "--config" then
    Value (fun v => c ← parse_path_arg "--config" v; Ok (socket, Some c, internal))
  else refuse (unknown_flag arg).
Definition parse_workspace_list (argv : list string) : result ParseError ParsedCommand :=
  command_of (scan workspace_list_step (default_socket, None, false) argv)
    (fun '(socket, config, internal) => Ok (PWorkspaceList socket config internal)).

(** The loop of [expect_single_name] is over all arguments; help is an error here. *)
Definition single_name_step (cmd_label : string) (name : result ParseError (option string)) (arg : string)
    : result ParseError (option string) :=
  name ← name;
  if is_help arg then usage (cmd_label +:+ " requires a name")
  else if is_flag arg then unknown_flag arg
  else match name with
       | Some _ => usage (cmd_label +:+ " accepts a single name")
       | None => Ok (Some arg)
       end.
Definition expect_single_name (argv : list string) (cmd_label : string) : result ParseError string :=
  name ← foldl (single_name_step cmd_label) (Ok None) argv;
  match name with
  | Some n => Ok n
  | None => usage (cmd_label +:+ " requires a name")
  end.
Definition parse_workspace_attach (argv : list string) : result ParseError ParsedCommand :=
  PWorkspaceAttach <$> expect_single_name argv "workspace attach".
Definition parse_workspace_interrupt (argv : list string) : result ParseError ParsedCommand :=
  PWorkspaceInterrupt <$> expect_single_name argv "workspace interrupt".

(** The name, the directory and the overrides. *)
Definition CreateArgs : Type := option string * option string * Overrides.
Definition create_step (arg : string) (a : CreateArgs) : Arg CreateArgs :=
  let '(name, dir, o) := a in
  if is_help arg then AskHelp
  else if String.eqb arg "--dir" then
    Value (fun v => d ← parse_path_arg "--dir" v; Ok (name, Some d, o))
  else match override_flag arg o with
       | Some x => lift_arg (fun o => (name, dir, o)) x
       | None =>
           if is_flag arg then refuse (unknown_flag arg) else
           match name with
           | Some _ => refuse (usage "workspace create accepts a single name")
           | None => Next (Some arg, dir, o)
           end
       end.
Definition parse_workspace_create (argv : list string) : result ParseError ParsedCommand :=
  command_of (scan create_step (None, None, no_overrides) argv) (fun '(name, dir, o) =>
    name ← match name with Some n => Ok n | None => usage "name is required" end;
    options ← common_options o;
    Ok (PWorkspaceCreate name dir options)).

Definition destroy_step (arg : string) (a : option string * Overrides) : Arg (option string * Overrides) :=
  if is_help arg then AskHelp
  else match override_flag arg a.2 with
       | Some x => lift_arg (fun o => (a.1, o)) x
       | None =>
           if is_flag arg then refuse (unknown_flag arg) else
           match a.1 with
           | Some _ => refuse (usage "workspace destroy accepts a single name")
           | None => Next (Some arg, a.2)
           end
       end.
Definition parse_workspace_destroy (argv : list string) : result ParseError ParsedCommand :=
  command_of (scan destroy_step (None, no_overrides) argv) (fun a =>
    name ← match a.1 with Some n => Ok n | None => usage "name is required" end;
    options ← common_options a.2;
    Ok (PWorkspaceDestroy name options)).

Definition parse_workspace_args (argv : list string) : result ParseError ParsedCommand :=
  match argv with
  | _ :: sub :: rest =>
      if String.eqb sub "list" then parse_workspace_list rest
      else if String.eqb sub "attach" then parse_workspace_attach rest
      else if String.eqb sub "interrupt" then parse_workspace_interrupt rest
      else if String.eqb sub "create" then parse_workspace_create rest
      else if String.eqb sub "destroy" then parse_workspace_destroy rest
      else usage ("unknown workspace subcommand " +:+ debug_str sub)
  | _ => usage "workspace requires a subcommand"
  end.

(** ** ax tasks *)

(** The one argument that is no flag, and the flags with the argument behind each. *)
Fixpoint pop_positional (label : string) (argv : list string) (positional : option string)
    (flags : list string) : result ParseError (option string * list string) :=
  match argv with
  | [] => Ok (positional, flags)
  | arg :: rest =>
      if is_help arg then usage (label +:+ " requires a task ID")
      else if is_flag arg then
        match rest with
        | next :: rest => pop_positional label rest positional (flags ++ [arg; next])
        | [] => Ok (positional, flags ++ [arg])
        end
      else match positional with
           | Some _ => usage (label +:+ " accepts a single task ID")
           | None => pop_positional label rest (Some arg) flags
           end
  end.
Definition pop_single_positional (argv : list string) (label : string)
    : result ParseError (string * list string) :=
  '(positional, flags) ← pop_positional label argv None [];
  match positional with
  | Some id => Ok (id, flags)
  | None => usage (label +:+ " requires a task ID")
  end.

(** The flags of the subcommands: which ones a command knows is [known]. *)
Record TaskFlags := mkTaskFlags {
  tf_socket : string;
  tf_logs : Z;
  tf_reason : string;
  tf_action : string;
  tf_note : string;
  tf_expected : option Z;
}.
#[local] Instance TaskFlags_eta : Updatable TaskFlags := fun f =>
  mkTaskFlags (tf_socket f) (tf_logs f) (tf_reason f) (tf_action f) (tf_note f) (tf_expected f).
Definition default_task_flags : TaskFlags := mkTaskFlags default_socket 8 "" "" "" None.
Definition task_flag_step (known : list string) (arg : string) (f : TaskFlags) : Arg TaskFlags :=
  if negb (existsb (String.eqb arg) known) then refuse (unknown_flag arg)
  else if String.eqb arg "--socket" then
    Value (fun v => s ← parse_socket_path "--socket" v; Ok (f <| tf_socket := s |>))
  else if String.eqb arg "--logs" then
    Value (fun v => n ← parse_usize_arg "--logs" v; Ok (f <| tf_logs := n |>))
  else if String.eqb arg "--reason" then
    Value (fun v => s ← parse_string_arg "--reason" v; Ok (f <| tf_reason := s |>))
  else if String.eqb arg "--action" then
    Value (fun v => s ← parse_string_arg "--action" v; Ok (f <| tf_action := s |>))
  else if String.eqb arg "--note" then
    Value (fun v => s ← parse_string_arg "--note" v; Ok (f <| tf_note := s |>))
  else if String.eqb arg "--expected-version" then
    Value (fun v => n ← parse_i64_arg "--expected-version" v; Ok (f <| tf_expected := Some n |>))
  else refuse (unknown_flag arg).

Definition tasks_on_id (label : string) (known : list string) (argv : list string)
    (k : string -> TaskFlags -> result ParseError TasksCommand) : result ParseError ParsedCommand :=
  '(id, flags) ← pop_single_positional argv label;
  command_of (scan (task_flag_step known) default_task_flags flags) (fun f =>
    command ← k id f; Ok (PTasks (tf_socket f) command)).

Definition parse_tasks_show (argv : list string) : result ParseError ParsedCommand :=
  tasks_on_id "tasks show" ["--logs"; "--socket"] argv (fun id f => Ok (TasksShow id (tf_logs f))).
Inductive ControlKind := ControlCancel | ControlRemove.
Definition parse_tasks_control (argv : list string) (kind : ControlKind) : result ParseError ParsedCommand :=
  tasks_on_id (match kind with ControlCancel => "tasks cancel" | ControlRemove => "tasks remove" end)
    ["--reason"; "--expected-version"; "--socket"] argv (fun id f =>
      Ok (match kind with
          | ControlCancel => TasksCancel id (tf_reason f) (tf_expected f)
          | ControlRemove => TasksRemove id (tf_reason f) (tf_expected f)
          end)).
Definition parse_tasks_recover (argv : list string) : result ParseError ParsedCommand :=
  tasks_on_id "tasks recover" ["--socket"] argv (fun id _ => Ok (TasksRecover id)).
Definition parse_tasks_intervene (argv : list string) : result ParseError ParsedCommand :=
  tasks_on_id "tasks intervene" ["--action"; "--note"; "--expected-version"; "--socket"] argv (fun id f =>
    if is_empty (trim (tf_action f)) then usage "tasks intervene requires --action"
    else Ok (TasksIntervene id (tf_action f) (tf_note f) (tf_expected f))).
Definition parse_tasks_retry (argv : list string) : result ParseError ParsedCommand :=
  tasks_on_id "tasks retry" ["--note"; "--expected-version"; "--socket"] argv (fun id f =>
    Ok (TasksRetry id (tf_note f) (tf_expected f))).

(** [ax tasks] and [ax tasks activity] filter the list. *)
Record FilterArgs := mkFilterArgs {
  fa_socket : string;
  fa_positional : option string;
  fa_assignee : string;
  fa_created_by : string;
  fa_status : option string;
  fa_stale : bool;
  fa_limit : Z;
}.
#[local] Instance FilterArgs_eta : Updatable FilterArgs := fun f =>
  mkFilterArgs (fa_socket f) (fa_positional f) (fa_assignee f) (fa_created_by f) (fa_status f) (fa_stale f)
    (fa_limit f).
Definition default_filter : FilterArgs := mkFilterArgs default_socket None "" "" None false 20.
Definition filter_flag (arg : string) (f : FilterArgs) : option (Arg FilterArgs) :=
  if is_help arg then Some AskHelp
  else if String.eqb arg "--assignee" then
    Some (Value (fun v => s ← parse_string_arg "--assignee" v; Ok (f <| fa_assignee := s |>)))
  else if String.eqb arg "--created-by" then
    Some (Value (fun v => s ← parse_string_arg "--created-by" v; Ok (f <| fa_created_by := s |>)))
  else if String.eqb arg "--status" then
    Some (Value (fun v => s ← parse_string_arg "--status" v; Ok (f <| fa_status := Some s |>)))
  else if String.eqb arg "--stale" then Some (Next (f <| fa_stale := true |>))
  else if String.eqb arg "--socket" then
    Some (Value (fun v => s ← parse_socket_path "--socket" v; Ok (f <| fa_socket := s |>)))
  else None.

Definition list_step (arg : string) (f : FilterArgs) : Arg FilterArgs :=
  match filter_flag arg f with Some a => a | None => refuse (unknown_flag arg) end.
Definition parse_tasks_list (argv : list string) : result ParseError ParsedCommand :=
  command_of (scan list_step default_filter argv) (fun f =>
    status ← parse_task_status_flag (default "" (fa_status f));
    Ok (PTasks (fa_socket f) (TasksList (fa_assignee f) (fa_created_by f) status (fa_stale f)))).

Definition activity_step (arg : string) (f : FilterArgs) : Arg FilterArgs :=
  match filter_flag arg f with
  | Some a => a
  | None =>
      if String.eqb arg "--limit" then
        Value (fun v => n ← parse_usize_arg "--limit" v; Ok (f <| fa_limit := n |>))
      else if is_flag arg then refuse (unknown_flag arg)
      else match fa_positional f with
           | Some _ => refuse (usage "tasks activity accepts at most one task ID")
           | None => Next (f <| fa_positional := Some arg |>)
           end
  end.
Definition parse_tasks_activity (argv : list string) : result ParseError ParsedCommand :=
  command_of (scan activity_step default_filter argv) (fun f =>
    status ← parse_task_status_flag (default "" (fa_status f));
    Ok (PTasks (fa_socket f)
          (TasksActivity (fa_positional f) (fa_assignee f) (fa_created_by f) status (fa_stale f) (fa_limit f)))).

Definition parse_tasks_args (argv : list string) : result ParseError ParsedCommand :=
  let sub := default "" (argv !! 1) in
  let has_subcommand := String.eqb sub "list" || negb (is_empty sub) && negb (is_flag sub) in
  let tail := drop (if has_subcommand then 2 else 1) argv in
  if String.eqb sub "show" then parse_tasks_show tail
  else if String.eqb sub "cancel" then parse_tasks_control tail ControlCancel
  else if String.eqb sub "remove" then parse_tasks_control tail ControlRemove
  else if String.eqb sub "recover" then parse_tasks_recover tail
  else if String.eqb sub "intervene" then parse_tasks_intervene tail
  else if String.eqb sub "retry" then parse_tasks_retry tail
  else if String.eqb sub "activity" then parse_tasks_activity tail
  else if is_empty sub || String.eqb sub "list" then parse_tasks_list tail
  else if is_flag sub then parse_tasks_list (drop 1 argv)
  else usage ("unknown tasks subcommand " +:+ debug_str sub).

(** ** The daemon's process *)

Inductive DaemonState := Running (pid : Z) | NotRunning | StalePid.

Definition daemon_state_dir (socket_path : string) : result DaemonCliError string :=
  match parent socket_path with Some d => Ok d | None => Err (DMissingStateDir socket_path) end.
Definition daemon_pid_path (socket_path : string) : result DaemonCliError string :=
  d ← daemon_state_dir socket_path; Ok (join d "daemon.pid").

(** [parse::<i32>] of the trimmed text, above zero. *)
Definition parse_pid (raw : string) : option Z :=
  pid ← parse_i64 (trim raw);
  if ((0 <? pid) && (pid <? 2 ^ 31))%Z then Some pid else None.

(** The file with the process id, and [kill] with a signal and a process. *)
Context (read_to_string : string -> result IoError string).
Context (kill : string -> Z -> result IoError Output).

Definition send_signal (pid : Z) (signal : string) : result DaemonCliError bool :=
  match kill signal pid with
  | Err e => Err (DSignalCommand signal e)
  | Ok out =>
      if out_success out then Ok true
      else if String.eqb signal "-0" then Ok false
      else Err (DSignalFailed signal (trim (out_stderr out)))
  end.

Definition daemon_status (socket_path : string) : result DaemonCliError DaemonState :=
  pid_path ← daemon_pid_path socket_path;
  match read_to_string pid_path with
  | Err IoNotFound => Ok NotRunning
  | Err e => Err (DReadPid pid_path e)
  | Ok data =>
      match parse_pid data with
      | None => Ok StalePid
      | Some pid =>
          alive ← send_signal pid "-0";
          Ok (if (alive : bool) then Running pid else StalePid)
      end
  end.

Definition read_daemon_pid (socket_path : string) : result DaemonCliError Z :=
  pid_path ← daemon_pid_path socket_path;
  match read_to_string pid_path with
  | Err IoNotFound => Err DMissingPidFile
  | Err e => Err (DReadPid pid_path e)
  | Ok data => match parse_pid data with Some pid => Ok pid | None => Err DInvalidPidFile end
  end.

Definition is_running (s : DaemonState) : bool := match s with Running _ => true | _ => false end.

(** ** ax init *)

Record InitArgs := mkInitArgs {
  ia_socket : string;
  ia_global : bool;
  ia_no_setup : bool;
  ia_no_refresh : bool;
  ia_codex : bool;
  ia_claude : bool;
  ia_axis : Axis;
  ia_reconfigure : bool;
}.
#[local] Instance InitArgs_eta : Updatable InitArgs := fun a =>
  mkInitArgs (ia_socket a) (ia_global a) (ia_no_setup a) (ia_no_refresh a) (ia_codex a) (ia_claude a)
    (ia_axis a) (ia_reconfigure a).
Definition init_step (arg : string) (a : InitArgs) : Arg InitArgs :=
  if is_help arg then AskHelp
  else if String.eqb arg "-g" || String.eqb arg "--global" then Next (a <| ia_global := true |>)
  else if String.eqb arg "--no-setup" then Next (a <| ia_no_setup := true |>)
  else if String.eqb arg "--no-refresh" then Next (a <| ia_no_refresh := true |>)
  else if String.eqb arg "--reconfigure" then Next (a <| ia_reconfigure := true |>)
  else if String.eqb arg "--codex" then Next (a <| ia_codex := true |>)
  else if String.eqb arg "--claude" then Next (a <| ia_claude := true |>)
  else if String.eqb arg "--socket" then
    Value (fun v => s ← parse_socket_path "--socket" v; Ok (a <| ia_socket := s |>))
  else if String.eqb arg "--axis" then
    Value (fun v =>
      match v with
      | None => Err (Usage ("--axis requires a value: auto|role|domain" +:+ newline))
      | Some raw =>
          match axis_parse raw with
          | Some x => Ok (a <| ia_axis := x |>)
          | None => Err (Usage ("invalid --axis value " +:+ debug_str raw
                                +:+ " (expected auto|role|domain)" +:+ newline))
          end
      end)
  else refuse (unknown_flag arg).
Definition parse_init_args (argv : list string) : result ParseError ParsedCommand :=
  command_of (scan init_step (mkInitArgs default_socket false false false false false AxisAuto false) (drop 1 argv))
    (fun a =>
      if ia_codex a && ia_claude a
      then Err (Usage ("--codex and --claude cannot be used together" +:+ newline)) else
      running ← map_err DaemonProblem (daemon_status (ia_socket a));
      Ok (PInit (mkInitOptions (ia_global a) (ia_no_setup a) (ia_no_refresh a)
                   (if ia_codex a then "codex" else "claude") (ia_socket a) (is_running running)
                   (ia_axis a) (ia_reconfigure a)))).

(** ** start, stop, restart, dispatch *)

Record TargetArgs := mkTargetArgs {
  ta_target : option string;
  ta_sender : option string;
  ta_fresh : bool;
  ta_overrides : Overrides;
}.
(** [action] is [None] for dispatch. *)
Definition target_step (action : option LifecycleAction) (arg : string) (a : TargetArgs) : Arg TargetArgs :=
  let only_dispatch (x : Arg TargetArgs) :=
    match action with
    | Some _ => refuse (usage (arg +:+ " is only supported by dispatch"))
    | None => x
    end in
  if is_help arg then AskHelp
  else match override_flag arg (ta_overrides a) with
       | Some x => lift_arg (fun o => mkTargetArgs (ta_target a) (ta_sender a) (ta_fresh a) o) x
       | None =>
           if String.eqb arg "--sender" then
             only_dispatch (Value (fun v => s ← parse_string_arg "--sender" v;
                                            Ok (mkTargetArgs (ta_target a) (Some s) (ta_fresh a) (ta_overrides a))))
           else if String.eqb arg "--fresh" then
             only_dispatch (Next (mkTargetArgs (ta_target a) (ta_sender a) true (ta_overrides a)))
           else if is_flag arg then refuse (unknown_flag arg)
           else match ta_target a with
                | Some _ => refuse (unexpected arg)
                | None => Next (mkTargetArgs (Some arg) (ta_sender a) (ta_fresh a) (ta_overrides a))
                end
       end.
Definition parse_target_args (action : option LifecycleAction) (argv : list string)
    : result ParseError ParsedCommand :=
  command_of (scan (target_step action) (mkTargetArgs None None false no_overrides) (drop 1 argv)) (fun a =>
    target ← match ta_target a with Some t => Ok t | None => usage "target is required" end;
    options ← common_options (ta_overrides a);
    match action with
    | Some action => Ok (PLifecycle action target options)
    | None =>
        sender ← match ta_sender a with Some s => Ok s | None => usage "dispatch requires --sender" end;
        Ok (PDispatch target sender (ta_fresh a) options)
    end).

(** ** All commands; [args] starts with the name of the program. *)

Definition parse_args (args : list string) : result ParseError ParsedCommand :=
  let tail := drop 1 args in
  match tail with
  | [] => Ok PHelp
  | command :: _ =>
      let says := String.eqb command in
      if says "-h" || says "--help" || says "help" then Ok PHelp
      else if says "daemon" then parse_daemon_args tail
      else if says "up" then parse_up_args tail
      else if says "down" then parse_down_args tail
      else if says "claude" || says "codex" then parse_root_orchestrator_args command tail
      else if says "send" then parse_send_args tail
      else if says "messages" || says "messages-json" || says "msg"
      then parse_messages_args tail (says "messages-json")
      else if says "run-agent" then parse_run_agent_args tail
      else if says "mcp-server" then parse_mcp_server_args tail
      else if says "status" then parse_status_args tail
      else if says "refresh" then parse_refresh_args tail
      else if says "tasks" then parse_tasks_args tail
      else if says "init" then parse_init_args tail
      else if says "watch" || says "top" then parse_watch_args tail
      else if says "workspace" || says "ws" then parse_workspace_args tail
      else if says "start" then parse_target_args (Some Start) tail
      else if says "stop" then parse_target_args (Some SessionManager.Stop) tail
      else if says "restart" then parse_target_args (Some Restart) tail
      else if says "dispatch" then parse_target_args None tail
      else usage ("unknown command " +:+ debug_str command)
  end.
End parsers.
