(* ===== verification/CliTasks.v ===== *)
(** * [ax status] and [ax tasks] (crates/ax-cli: daemon_client.rs, status.rs, tasks.rs).

    The command line's own connection to the daemon, and the reports it prints.  Helpers of
    status.rs and tasks.rs that are copies of ones in ax-tui ([task_is_stale],
    [task_status_label], [task_priority_label], [task_priority_order], [short_task_id],
    [root_orchestrator_visible], [config_orchestrator_name], [runtime_only_group_label] and
    the paths beside the socket) are the definitions of [TuiData].  [now] is
    [Utc::now()], read once for a report.  The texts of times are chrono's. *)

From Stdlib Require Import Ascii.
From stdpp Require Import prelude strings list gmap.
From S2P Require Import Prelude RustStr Proto TaskHelpers History Registry Handlers Paths ConfigSchema ConfigTree.
From S2P Require Import Tmux Artifacts ErrorText McpClient McpHost TuiData TuiLoop CliArgs RustText.

(** ** daemon_client.rs *)

Inductive DaemonClientError :=
| CConnect (socket_path : string) (source : IoError)
| CResolveCurrentDir (source : IoError)
| CEncodeEnvelope (text : string)
| CWrite (source : IoError)
| CRead (source : IoError)
| CConnectionClosed
| CDecodeEnvelope (text : string)
| CDecodeResponse (text : string)
| CDaemon (message : string)
| CUnexpectedEnvelope (kind : EnvType).

#[export] Instance DaemonClientError_display `{!SysText} : Display DaemonClientError := fun e =>
  match e with
  | CConnect socket_path source => "connect " +:+ socket_path +:+ ": " +:+ to_string source
  | CResolveCurrentDir source => "resolve current dir: " +:+ to_string source
  | CEncodeEnvelope text => "encode envelope: " +:+ text
  | CWrite source => "write request: " +:+ to_string source
  | CRead source => "read response: " +:+ to_string source
  | CConnectionClosed => "connection closed before response arrived"
  | CDecodeEnvelope text => "decode envelope: " +:+ text
  | CDecodeResponse text => "decode response: " +:+ text
  | CDaemon message => "daemon error: " +:+ message
  | CUnexpectedEnvelope kind => "unexpected envelope " +:+ env_type_debug kind
  end.

Section client.
Context {W : Type} `{!Socket W} `{!WatchWire}.
(** [fuel] bounds the lines read for one answer. *)
Context (env : Env) (fuel : nat).

Definition on_sock {A} (wrap : IoError -> DaemonClientError) (m : W -> result IoError A * W)
    : Run DaemonClientError W A := fun w =>
  let '(r, w) := m w in Some (map_err wrap r, w).

Definition interpret_cli_envelope (a : Ask) (e : Envelope) : result DaemonClientError Answer :=
  match en_type e with
  | EnvResponse => data ← map_err CDecodeResponse (wire_response (en_payload e));
                   map_err CDecodeResponse (wire_answer a data)
  | EnvError => message ← map_err CDecodeResponse (wire_error (en_payload e)); Err (CDaemon message)
  | t => Err (CUnexpectedEnvelope t)
  end.

Fixpoint read_cli_answer (fuel : nat) (id : string) (a : Ask) : Run DaemonClientError W Answer :=
  match fuel with
  | O => fun _ => None
  | S fuel =>
      line ← on_sock CRead sock_read_line;
      if is_empty line then throw CConnectionClosed else
      e ← lift (map_err CDecodeEnvelope (wire_envelope (trim_end line)));
      if String.eqb (en_id e) id then lift (interpret_cli_envelope a e) else read_cli_answer fuel id a
  end.

(** The client is the number of its next request. *)
Definition cli_request {A} (shape : Answer -> option A) (next_id : Z) (a : Ask)
    : Run DaemonClientError W A :=
  let id := "cli-" +:+ show_Z next_id in
  text ← lift (map_err CEncodeEnvelope (wire_request id a));
  _ ← on_sock CWrite (sock_write (text +:+ newline));
  ans ← read_cli_answer fuel id a;
  lift (match shape ans with Some v => Ok v | None => Err (CDecodeResponse wire_mismatch) end).

(** Returns the number of the first request after the registration. *)
Definition cli_connect (socket_path workspace : string) : Run DaemonClientError W Z :=
  _ ← on_sock (CConnect socket_path) (sock_connect socket_path);
  _ ← on_sock CRead sock_read_timeout;
  _ ← on_sock CWrite sock_write_timeout;
  dir ← lift (map_err CResolveCurrentDir (cwd env));
  _ ← cli_request answer_status 1 (AskDaemon (Register workspace dir "" "" 0));
  mret 2%Z.

Definition answer_tasks (ans : Answer) : option (list Task) :=
  match ans with AnsDaemon (RTasks l) => Some l | _ => None end.
Definition answer_messages (ans : Answer) : option (list Message) :=
  match ans with AnsDaemon (RMessages l) => Some l | _ => None end.

Definition cli_send_message (c : Z) (to message : string) (config_path : option string) :=
  cli_request answer_sent c (AskDaemon (SendMessage to message (default "" config_path))).
Definition cli_read_messages (c : Z) (limit : Z) (from : string) :=
  cli_request answer_messages c (AskDaemon (ReadMessages limit from)).
Definition cli_list_workspaces (c : Z) := cli_request answer_workspaces c (AskDaemon ListWorkspaces).
Definition cli_list_tasks (c : Z) (assignee created_by : string) (status : option TaskStatus) :=
  cli_request answer_tasks c (AskDaemon (ListTasks assignee created_by status)).
Definition cli_get_task (c : Z) (id : string) := cli_request answer_task c (AskDaemon (GetTask id)).
Definition cli_cancel_task (c : Z) (id reason : string) (expected_version : option Z) :=
  cli_request answer_task c (AskDaemon (CancelTask id reason expected_version)).
Definition cli_remove_task (c : Z) (id reason : string) (expected_version : option Z) :=
  cli_request answer_task c (AskDaemon (RemoveTask id reason expected_version)).
Definition cli_intervene_task (c : Z) (id action note : string) (expected_version : option Z) :=
  cli_request answer_intervened c (AskDaemon (InterveneTask id action note expected_version)).
End client.

(** ** Texts *)

(** [{:<n}]. *)
Definition pad (n : nat) (s : string) : string :=
  s +:+ of_bytes (replicate (n - length (chars s)) sp).
Definition line (s : string) : string := s +:+ newline.
Definition truncate_str (s : string) (n : nat) : string :=
  if n =? 0 then "" else
  if length (chars s) <=? n then s else take_chars n s +:+ "…".

(** [DateTime::format] with ["%Y-%m-%d %H:%M:%S"] and with ["%H:%M:%S"]. *)
Class TimeText := {
  format_datetime : Z -> string;
  format_time : Z -> string;
}.

(** ** status.rs: the summary of the tasks *)

Record TaskSummary := mkTaskSummary {
  sum_total : Z;
  sum_pending : Z;
  sum_in_progress : Z;
  sum_completed : Z;
  sum_failed : Z;
  sum_cancelled : Z;
  sum_stale : Z;
  sum_diverged : Z;
  sum_queued_messages : Z;
  sum_urgent_or_high : Z;
  sum_recoverable : Z;
  sum_top_attention_ids : list string;
}.
#[export] Instance CliTaskSummary_eta : Updatable TaskSummary := fun s =>
  mkTaskSummary (sum_total s) (sum_pending s) (sum_in_progress s) (sum_completed s) (sum_failed s)
    (sum_cancelled s) (sum_stale s) (sum_diverged s) (sum_queued_messages s) (sum_urgent_or_high s)
    (sum_recoverable s) (sum_top_attention_ids s).
Definition no_tasks : TaskSummary := mkTaskSummary 0 0 0 0 0 0 0 0 0 0 0 [].

(** [recoverable]: what the loop collects. *)
Definition needs_attention (task : Task) : bool :=
  match t_stale_info task with
  | Some info => is_stale info || state_divergence info
  | None => false
  end.
Definition is_urgent_or_high (task : Task) : bool :=
  match t_priority task with Some Urgent | Some High => true | _ => false end.

Definition count_status (s : TaskSummary) (status : TaskStatus) : TaskSummary :=
  match status with
  | Pending => s <| sum_pending := (sum_pending s + 1)%Z |>
  | InProgress => s <| sum_in_progress := (sum_in_progress s + 1)%Z |>
  | Completed => s <| sum_completed := (sum_completed s + 1)%Z |>
  | Failed => s <| sum_failed := (sum_failed s + 1)%Z |>
  | Cancelled => s <| sum_cancelled := (sum_cancelled s + 1)%Z |>
  | Blocked => s
  end.
Definition count_info (task : Task) (s : TaskSummary) : TaskSummary :=
  match t_stale_info task with
  | None => s
  | Some info =>
      let s := s <| sum_queued_messages := (sum_queued_messages s + pending_messages info)%Z |> in
      let s := if state_divergence info then s <| sum_diverged := (sum_diverged s + 1)%Z |> else s in
      if is_stale info || state_divergence info
      then s <| sum_recoverable := (sum_recoverable s + 1)%Z |> else s
  end.
Definition count_task (now : Z) (s : TaskSummary) (task : Task) : TaskSummary :=
  let s := count_status s (t_status task) in
  let s := if is_urgent_or_high task then s <| sum_urgent_or_high := (sum_urgent_or_high s + 1)%Z |> else s in
  let s := if task_is_stale now task then s <| sum_stale := (sum_stale s + 1)%Z |> else s in
  count_info task s.

Definition bool_compare (a b : bool) : comparison :=
  match a, b with false, true => Lt | true, false => Gt | _, _ => Eq end.
Definition attention_cmp (now : Z) (a b : Task) : comparison :=
  match (task_priority_order (t_priority a) ?= task_priority_order (t_priority b))%Z with
  | Eq => match bool_compare (task_is_stale now b) (task_is_stale now a) with
          | Eq => (t_updated_at a ?= t_updated_at b)%Z
          | c => c
          end
  | c => c
  end.

Definition summarize_tasks (now : Z) (tasks : list Task) : TaskSummary :=
  let s := foldl (count_task now) (no_tasks <| sum_total := Z.of_nat (length tasks) |>) tasks in
  let top := take 3 (sort_by (attention_cmp now) (List.filter needs_attention tasks)) in
  s <| sum_top_attention_ids := (fun t => short_task_id (t_id t)) <$> top |>.

Definition when_positive (n : Z) (text : string) : list string := if (0 <? n)%Z then [text] else [].

Definition format_task_summary (s : TaskSummary) : string :=
  String.concat "  "
    (["total=" +:+ show_Z (sum_total s);
      "pending=" +:+ show_Z (sum_pending s);
      "in_progress=" +:+ show_Z (sum_in_progress s);
      "stale=" +:+ show_Z (sum_stale s);
      "diverged=" +:+ show_Z (sum_diverged s);
      "queued_msgs=" +:+ show_Z (sum_queued_messages s)]
     ++ when_positive (sum_cancelled s) ("cancelled=" +:+ show_Z (sum_cancelled s))
     ++ when_positive (sum_urgent_or_high s) ("high_pri=" +:+ show_Z (sum_urgent_or_high s))
     ++ match sum_top_attention_ids s with
        | [] => []
        | ids => ["attention=" +:+ String.concat "," ids]
        end).

Definition task_attention_hint (s : TaskSummary) : option string :=
  match when_positive (sum_diverged s) (show_Z (sum_diverged s) +:+ " diverged")
        ++ when_positive (sum_stale s) (show_Z (sum_stale s) +:+ " stale")
        ++ when_positive (sum_queued_messages s) (show_Z (sum_queued_messages s) +:+ " queued message(s)") with
  | [] => None
  | parts =>
      Some ("Attention: " +:+ String.concat ", " parts
            +:+ ". Inspect with ax tasks --stale, ax tasks show <id>, or ax workspace list.")
  end.

(** ** status.rs: workspaces *)

Abbreviation Infos := (gmap string WorkspaceInfo).
Definition workspace_info_map (workspaces : list WorkspaceInfo) : Infos :=
  foldl (fun m ws => <[wi_name ws := ws]> m) ∅ workspaces.

Definition workspace_agent_status (workspaces : Infos) (name : string) : string :=
  match wi_status <$> workspaces !! name with
  | Some Online => "online"
  | Some Disconnected => "disconnected"
  | Some Offline | None => "offline"
  end.

Definition workspace_status_preview (workspaces : Infos) (name : string) (limit : nat) : string :=
  match workspaces !! name with
  | None => ""
  | Some info =>
      let trimmed := trim (wi_status_text info) in
      if is_empty trimmed then "" else truncate_str trimmed limit
  end.

Definition normalized_git_state (git : WorkspaceGitStatus) : string :=
  let state := trim (gs_state git) in
  if negb (is_empty state) then state
  else if (0 <? gs_modified git + gs_added git + gs_deleted git + gs_untracked git)%Z then "dirty"
  else "clean".
Definition git_message (prefix : string) (git : WorkspaceGitStatus) : string :=
  if is_empty (trim (gs_message git)) then prefix else prefix +:+ ": " +:+ trim (gs_message git).
Definition format_git_status (git : WorkspaceGitStatus) : string :=
  let state := normalized_git_state git in
  if String.eqb state "non_git" then git_message "git non-git" git
  else if String.eqb state "inaccessible" then git_message "git inaccessible" git
  else if String.eqb state "error" then git_message "git error" git
  else
    "git " +:+ state +:+ " M" +:+ show_Z (gs_modified git) +:+ " A" +:+ show_Z (gs_added git)
    +:+ " D" +:+ show_Z (gs_deleted git) +:+ " ?" +:+ show_Z (gs_untracked git)
    +:+ (if ((0 <? gs_files_changed git) || (0 <? gs_insertions git) || (0 <? gs_deletions git))%Z
         then " · " +:+ show_Z (gs_files_changed git) +:+ " files +" +:+ show_Z (gs_insertions git)
              +:+ " -" +:+ show_Z (gs_deletions git)
         else "").
Definition workspace_git_status_preview (workspaces : Infos) (name : string) (limit : nat) : string :=
  match workspaces !! name ≫= wi_git_status with
  | None => ""
  | Some git => truncate_str (format_git_status git) limit
  end.

Definition collect_known_workspaces (node : ProjectNode) (known : gset string) : gset string :=
  foldl (fun known n => {[ n ]} ∪ known) known (known_names node).

Definition reconfigure_tmux_state (agent_status : string) (enabled : bool) : string :=
  if enabled && String.eqb agent_status "offline" then "desired"
  else if negb (String.eqb agent_status "offline") then "no-session"
  else "offline".

Definition attached_word (s : SessionInfo) : string := if si_attached s then "attached" else "detached".
Definition when_text (before s : string) : string := if is_empty s then "" else before +:+ s.

Section tree.
Context (sessions : gmap string SessionInfo) (workspaces : Infos) (reconfigure_enabled : bool).

Definition print_leaf (level : nat) (label merged_name : string) (allow_desired : bool) : string :=
  let indent := String.concat "" (replicate level "  ") in
  let agent_status := workspace_agent_status workspaces merged_name in
  let git_status := workspace_git_status_preview workspaces merged_name 72 in
  let status_text := workspace_status_preview workspaces merged_name 72 in
  match sessions !! merged_name with
  | Some session =>
      line (indent +:+ "● " +:+ pad 26 label +:+ " " +:+ pad 10 (attached_word session) +:+ " "
            +:+ pad 8 agent_status +:+ " " +:+ si_name session
            +:+ when_text " | " git_status +:+ when_text " | " status_text)
  | None =>
      line (indent +:+ "○ " +:+ pad 26 label +:+ " "
            +:+ pad 10 (reconfigure_tmux_state agent_status (reconfigure_enabled && allow_desired)) +:+ " "
            +:+ pad 8 agent_status
            +:+ when_text " " git_status +:+ when_text " " status_text)
  end.

Fixpoint print_project_tree (level : nat) (node : ProjectNode) : string :=
  line (String.concat "" (replicate level "  ") +:+ "▾ " +:+ display_name node)
  +:+ (if root_orchestrator_visible node then
         let name := config_orchestrator_name (pn_prefix node) in
         print_leaf (S level) "◆ orchestrator" name
           (negb (is_empty (pn_prefix node) && String.eqb name "orchestrator"))
       else "")
  +:+ String.concat "" ((fun ws => print_leaf (S level) (wr_name ws) (wr_merged_name ws) true)
                          <$> pn_workspaces node)
  +:+ String.concat "" (print_project_tree (S level) <$> pn_children node).
End tree.

Definition print_unregistered (workspaces : Infos) (session : SessionInfo) : string :=
  line ("  ● " +:+ pad 26 (si_workspace session) +:+ " " +:+ pad 10 (attached_word session) +:+ " "
        +:+ pad 8 (workspace_agent_status workspaces (si_workspace session)) +:+ " " +:+ si_name session
        +:+ when_text " | " (workspace_git_status_preview workspaces (si_workspace session) 72)
        +:+ when_text " | " (workspace_status_preview workspaces (si_workspace session) 72)).

Definition table_row (a b c d e : string) : string :=
  line (pad 24 a +:+ " " +:+ pad 10 b +:+ " " +:+ pad 8 c +:+ " " +:+ pad 18 d +:+ " " +:+ e).
Definition print_session (workspaces : Infos) (session : SessionInfo) : string :=
  let git_status := workspace_git_status_preview workspaces (si_workspace session) 48 in
  let status_text := workspace_status_preview workspaces (si_workspace session) 64 in
  let info := if is_empty git_status then status_text
              else git_status +:+ when_text " | " status_text in
  table_row (si_workspace session) (attached_word session)
    (workspace_agent_status workspaces (si_workspace session)) (si_name session) info.

(** The part of the report below the list of sessions, when a config tree loads. *)
Definition status_with_tree (path : string) (tree : ProjectNode) (reconfigure_enabled : bool)
    (sessions : list SessionInfo) (workspaces : Infos) : string :=
  let known := collect_known_workspaces tree ∅ in
  let by_ws := foldl (fun m s => <[si_workspace s := s]> m) ∅ sessions in
  (if reconfigure_enabled then
     line ("Reconfigure: desired-only entries are configured but not running; runtime-only entries are outside "
           +:+ path) +:+ newline
   else "")
  +:+ print_project_tree by_ws workspaces reconfigure_enabled 0 tree
  +:+ match List.filter (fun s => negb (bool_decide (si_workspace s ∈ known))) sessions with
      | [] => ""
      | unregistered =>
          newline +:+ line (runtime_only_group_label reconfigure_enabled)
          +:+ String.concat "" (print_unregistered workspaces <$> unregistered)
          +:+ newline
          +:+ (if reconfigure_enabled
               then line "Review runtime-only leftovers before treating the reconfiguration as reconciled."
               else line "Run 'ax init' in the project directory to register these.")
      end.
Definition status_without_tree (sessions : list SessionInfo) (workspaces : Infos) : string :=
  match sessions with
  | [] => ""
  | _ => table_row "NAME" "TMUX" "AGENT" "SESSION" "INFO"
         +:+ table_row "----" "----" "-----" "-------" "-----------"
         +:+ String.concat "" (print_session workspaces <$> sessions)
  end.

Inductive StatusError := StatusTmux (e : TmuxError).
#[export] Instance StatusError_display `{!TextOps} `{!SysText} : Display StatusError := fun e =>
  match e with StatusTmux e => "list tmux sessions: " +:+ to_string e end.

(** A request whose error is printed. *)
Definition answered {W A} (m : Run DaemonClientError W A) : Run StatusError W (result DaemonClientError A) :=
  fun w => match m w with Some (r, w) => Some (Ok r, w) | None => None end.

Section render.
Context {W F T : Type} `{!Socket W} `{!WatchWire} `{!FileSystem F} `{!Tmux T} `{!TextOps} `{!SysText}.
Context `{!YamlCodec Config} `{!YamlCodec ManagedOverlay}.
Context (env : Env) (fuel : nat) (now : Z).

(** What a running daemon adds: the text, and the workspaces it knows. *)
Definition daemon_report (socket_path : string) : Run StatusError W (string * Infos) :=
  client ← answered (cli_connect env fuel socket_path "_cli");
  match client with
  | Err e => mret (line ("Tasks: unavailable (" +:+ to_string e +:+ ")")
                   +:+ line ("Agents: unavailable (" +:+ to_string e +:+ ")"), ∅)
  | Ok c =>
      tasks ← answered (cli_list_tasks fuel c "" "" None);
      let '(summary, tasks_line) :=
        match tasks with
        | Ok tasks => let s := summarize_tasks now tasks in (s, "Tasks: " +:+ format_task_summary s)
        | Err e => (no_tasks, "Tasks: unavailable (" +:+ to_string e +:+ ")")
        end in
      workspaces ← answered (cli_list_workspaces fuel (c + 1)%Z);
      let '(infos, agents_line) :=
        match workspaces with
        | Ok l => let infos := workspace_info_map l in
                  (infos, "Agents: " +:+ show_nat (size infos) +:+ " online")
        | Err e => (∅, "Agents: unavailable (" +:+ to_string e +:+ ")")
        end in
      mret (line tasks_line +:+ line agents_line
            +:+ match task_attention_hint summary with Some text => line text | None => "" end, infos)
  end.

Definition status_config_path (fs : F) (configured : option string) : option string :=
  match configured with
  | Some path => Some path
  | None => match cwd env with
            | Ok dir => mjoin (find_config_file (fs_is_file fs) (home env) (S (length (bytes dir))) dir)
            | Err _ => None
            end
  end.

(** The tree of the config, and whether it allows reconfiguration; [config_fuel] bounds its
    depth. *)
Definition status_tree (fs : F) (config_fuel : nat) (configured : option string)
    : Run StatusError W (option (string * ProjectNode * bool)) := fun w =>
  match status_config_path fs configured with
  | None => Some (Ok None, w)
  | Some path =>
      match load_tree env fs config_fuel path, load env fs config_fuel path with
      | Some (Ok tree), Some cfg =>
          Some (Ok (Some (path, tree, match cfg with
                                      | Ok cfg => experimental_mcp_team_reconfigure cfg
                                      | Err _ => false
                                      end)), w)
      | Some (Err _), _ => Some (Ok None, w)
      | _, _ => None
      end
  end.

Definition render_status (fs : F) (t : T) (config_fuel : nat) (socket_path : string)
    (config_path_override : option string) (daemon_running : bool) : Run StatusError W string :=
  report ← (if daemon_running then daemon_report socket_path else mret ("", ∅));
  sessions ← lift (map_err StatusTmux (list_sessions t));
  let infos : Infos := report.2 in
  let out := line ("Daemon: " +:+ if daemon_running then "running" else "stopped")
    +:+ report.1 +:+ newline +:+ "Workspaces: " +:+ show_nat (length sessions) +:+ " active"
    +:+ (if daemon_running && negb (bool_decide (infos = ∅))
         then " (" +:+ show_nat (size infos) +:+ " agent connection(s) online)" else "")
    +:+ newline +:+ newline in
  tree ← status_tree fs config_fuel config_path_override;
  mret (out +:+ match tree with
                | Some (path, tree, enabled) => status_with_tree path tree enabled sessions infos
                | None => status_without_tree sessions infos
                end).
End render.

(** ** tasks.rs: lists and lines *)

Inductive TasksError :=
| TConnect (e : DaemonClientError)
| TRequest (e : DaemonClientError)
| TInvalidStatus (s : string)
| TInvalidAction (s : string).
#[export] Instance TasksError_display `{!TextOps} `{!SysText} : Display TasksError := fun e =>
  match e with
  | TConnect e => "connect to daemon: " +:+ to_string e +:+ " (is daemon running?)"
  | TRequest e => to_string e
  | TInvalidStatus s => "invalid --status " +:+ debug_str s
  | TInvalidAction s => "invalid --action " +:+ debug_str s +:+ " (must be wake, interrupt, or retry)"
  end.

Definition start_mode_label (mode : TaskStartMode) : string :=
  match mode with StartDefault => "default" | StartFresh => "fresh" end.

(** Here a blocked task comes last. *)
Definition task_sort_order (s : TaskStatus) : Z :=
  match s with
  | InProgress => 0 | Pending => 1 | Failed => 2 | Cancelled => 3 | Completed => 4 | Blocked => 5
  end.
Definition display_cmp (a b : Task) : comparison :=
  let oa := task_sort_order (t_status a) in
  let ob := task_sort_order (t_status b) in
  if negb (oa =? ob)%Z then (oa ?= ob)%Z else
  let pa := task_priority_order (t_priority a) in
  let pb := task_priority_order (t_priority b) in
  if negb (pa =? pb)%Z then (pa ?= pb)%Z else
  if negb (t_updated_at a =? t_updated_at b)%Z then (t_updated_at b ?= t_updated_at a)%Z else
  if negb (t_created_at a =? t_created_at b)%Z then (t_created_at b ?= t_created_at a)%Z else
  String.compare (t_id a) (t_id b).
Definition sort_tasks_for_display : list Task -> list Task := sort_by display_cmp.

Definition format_age_seconds (seconds : Z) : string :=
  let d := Z.max seconds 0 in
  if (d <? 60)%Z then show_Z d +:+ "s"
  else if (d <? 3600)%Z then show_Z (d / 60) +:+ "m"
  else if (d <? 86400)%Z then show_Z (d / 3600) +:+ "h"
  else show_Z (d / 86400) +:+ "d".
Definition task_age_seconds (now : Z) (task : Task) : Z := Z.max (Z.quot (now - t_updated_at task) nanos) 0.
Definition format_task_age (now : Z) (task : Task) : string := format_age_seconds (task_age_seconds now task).

Definition task_last_update_preview (task : Task) : string :=
  match last (t_logs task) with
  | Some log => log_message log
  | None => if negb (is_empty (t_result task)) then t_result task else t_description task
  end.
Definition update_or_wait (task : Task) : string :=
  let preview := task_last_update_preview task in
  if is_empty preview then "awaiting next progress update" else preview.
Definition task_operator_hint (task : Task) : string :=
  match t_stale_info task with
  | None => update_or_wait task
  | Some info =>
      if is_stale info && negb (is_empty (recommended_action info)) then recommended_action info
      else if state_divergence info then state_divergence_note info
      else if (0 <? pending_messages info)%Z
      then show_Z (pending_messages info) +:+ " pending message(s) queued"
      else update_or_wait task
  end.

Definition task_expected_version_arg (version : Z) : string :=
  if (version <=? 0)%Z then "" else " --expected-version " +:+ show_Z version.

Definition recent_task_logs (task : Task) (limit : nat) : list TaskLog :=
  if (limit =? 0) || (length (t_logs task) <=? limit) then t_logs task
  else drop (length (t_logs task) - limit) (t_logs task).

(** The last [limit] messages in the order of the file; all of them, sorted, for 0. *)
Definition related_task_messages (task : Task) (history : list HistoryEntry) (limit : nat)
    : list HistoryEntry :=
  let related := TuiData.related_task_messages task history in
  if limit =? 0 then sort_by (fun a b => (h_timestamp a ?= h_timestamp b)%Z) related
  else drop (length related - limit) related.

(** ** tasks.rs: activity *)

Record TaskActivityEntry := mkTaskActivityEntry {
  ae_timestamp : Z;
  ae_kind : TaskActivityKind;
  ae_actor : string;
  ae_summary : string;
  ae_detail : string;
}.

Definition finished_activity (task : Task) : list TaskActivityEntry :=
  let event summary detail :=
    [mkTaskActivityEntry (t_updated_at task) ActLifecycle (t_assignee task) summary detail] in
  let with_result summary := if is_empty (t_result task) then [] else event summary (t_result task) in
  match t_status task with
  | Completed => with_result "completed task"
  | Failed => with_result "failed task"
  | Cancelled => with_result "cancelled task"
  | InProgress => event "task in progress" ""
  | _ => []
  end.
Definition removed_activity (task : Task) : list TaskActivityEntry :=
  match t_removed_at task with
  | Some ts =>
      [mkTaskActivityEntry ts ActLifecycle
         (if is_empty (t_removed_by task) then t_created_by task else t_removed_by task)
         "removed task" (t_remove_reason task)]
  | None => []
  end.
(** The text of a message is shown as in the terminal interface. *)
Definition message_entry (task : Task) (msg : HistoryEntry) : TaskActivityEntry :=
  let e := message_activity task msg in
  mkTaskActivityEntry (ta_timestamp e) (ta_kind e) (ta_actor e) (ta_summary e) "".

Definition activity_entries (task : Task) (history : list HistoryEntry) : list TaskActivityEntry :=
  [mkTaskActivityEntry (t_created_at task) ActLifecycle (t_created_by task)
     ("created task for " +:+ t_assignee task) (t_description task)]
  ++ finished_activity task
  ++ removed_activity task
  ++ ((fun log => mkTaskActivityEntry (log_timestamp log) ActLog (log_workspace log) (log_message log) "")
        <$> t_logs task)
  ++ (message_entry task <$> related_task_messages task history 0).

Definition activity_cmp (a b : TaskActivityEntry) : comparison :=
  if (ae_timestamp a =? ae_timestamp b)%Z
  then (activity_rank (ae_kind a) ?= activity_rank (ae_kind b))%Z
  else (ae_timestamp a ?= ae_timestamp b)%Z.
Definition build_task_activity (task : Task) (history : list HistoryEntry) (limit : nat)
    : list TaskActivityEntry :=
  let entries := sort_by activity_cmp (activity_entries task history) in
  if (0 <? limit) && (limit <? length entries) then drop (length entries - limit) entries else entries.

(** ** tasks.rs: the preview of a recovery *)

Section preview.
Context `{!TimeText} (now : Z).

Definition when_line (cond : bool) (text : string) : list string := if cond then [text] else [].
Definition unless_empty (label s : string) : list string := when_line (negb (is_empty s)) (label +:+ s).

Definition signal_lines (info : TaskStaleInfo) : list string :=
  ["" ; "Signals:"]
  ++ unless_empty "- reason: " (stale_reason info)
  ++ unless_empty "- daemon hint: " (recommended_action info)
  ++ when_line (0 <? pending_messages info)%Z ("- pending_messages: " +:+ show_Z (pending_messages info))
  ++ when_line (wake_pending info)
       ("- wake_retry: attempt " +:+ show_Z (wake_attempts info) +:+ " pending"
        +:+ match next_wake_retry_at info with Some ts => " until " +:+ format_datetime ts | None => "" end)
  ++ when_line (state_divergence info) ("- divergence: " +:+ state_divergence_note info).

Definition preview_head (task : Task) : list string :=
  ["Task: " +:+ t_title task;
   "ID: " +:+ t_id task;
   "Status: " +:+ task_status_label now task;
   "Version: " +:+ show_Z (t_version task);
   "Assignee: " +:+ t_assignee task;
   "Created By: " +:+ t_created_by task;
   "Updated: " +:+ format_task_age now task +:+ " ago"].

Definition next_steps (task : Task) : list string :=
  let version_arg := task_expected_version_arg (t_version task) in
  match t_status task with
  | Pending | InProgress =>
      ["- ax tasks intervene " +:+ t_id task +:+ " --action wake" +:+ version_arg;
       "- ax tasks intervene " +:+ t_id task +:+ " --action interrupt" +:+ version_arg;
       "- ax tasks retry " +:+ t_id task +:+ version_arg;
       "  retry queues a standardized follow-up message on the same task ID";
       "- ax tasks cancel " +:+ t_id task +:+ version_arg]
  | Blocked => ["- task is terminal; intervene/retry is unavailable"]
  | Completed | Failed | Cancelled =>
      ["- task is terminal; intervene/retry is unavailable";
       "- ax tasks remove " +:+ t_id task +:+ version_arg]
  end.

Definition task_recovery_preview_lines (task : Task) : list string :=
  preview_head task
  ++ match t_removed_at task with
     | Some ts =>
         ["Removed: " +:+ format_datetime ts +:+ " by " +:+ truncate_str (t_removed_by task) 24]
         ++ unless_empty "Remove Reason: " (t_remove_reason task)
         ++ [""; "Semantics:";
             "- recover is preview-only and this task is already archived/removed from list results"]
     | None =>
         match t_stale_info task with Some info => signal_lines info | None => [] end
         ++ [""; "Semantics:";
             "- recover is preview-only; use intervene/retry/cancel/remove to mutate the task";
             ""; "Next steps:"]
         ++ next_steps task
     end.
End preview.

(** ** tasks.rs: the commands *)

Definition one_line (s : string) : string := replace_char nl sp s.

Section format.
Context `{!TimeText} (now : Z).

Definition list_row (id pri status age assignee created_by title signal : string) : string :=
  line (pad 8 id +:+ " " +:+ pad 8 pri +:+ " " +:+ pad 18 status +:+ " " +:+ pad 6 age +:+ " "
        +:+ pad 16 assignee +:+ " " +:+ pad 16 created_by +:+ " " +:+ pad 24 title +:+ " " +:+ signal).
Definition task_row (task : Task) : string :=
  list_row (short_task_id (t_id task))
    (truncate_str (task_priority_label (t_priority task)) 8)
    (truncate_str (task_status_label now task) 18)
    (format_task_age now task)
    (truncate_str (t_assignee task) 16) (truncate_str (t_created_by task) 16)
    (truncate_str (t_title task) 24)
    (truncate_str (one_line (task_operator_hint task)) 72).
Definition format_task_list (tasks : list Task) : string :=
  match sort_tasks_for_display tasks with
  | [] => "No tasks found." +:+ newline
  | tasks =>
      line ("Summary: " +:+ format_task_summary (summarize_tasks now tasks) +:+ newline)
      +:+ list_row "ID" "PRI" "STATUS" "AGE" "ASSIGNEE" "CREATED BY" "TITLE" "NEXT SIGNAL"
      +:+ String.concat "" (task_row <$> tasks)
  end.

Definition text_lines (ls : list string) : string := String.concat "" (line <$> ls).

Definition removal_lines (task : Task) : list string :=
  match t_removed_at task with
  | Some ts =>
      ["Removed: " +:+ format_datetime ts]
      ++ unless_empty "Removed By: " (t_removed_by task)
      ++ unless_empty "Remove Reason: " (t_remove_reason task)
  | None => []
  end.
Definition stale_lines (info : TaskStaleInfo) : list string :=
  [""; "Stale Info:";
   "- is_stale: " +:+ (if is_stale info then "true" else "false");
   "- age: " +:+ format_age_seconds (age_seconds info)]
  ++ unless_empty "- reason: " (stale_reason info)
  ++ unless_empty "- action: " (recommended_action info)
  ++ when_line (0 <? pending_messages info)%Z ("- pending_messages: " +:+ show_Z (pending_messages info))
  ++ when_line (state_divergence info) ("- divergence: " +:+ state_divergence_note info)
  ++ match last_message_at info with
     | Some ts => ["- last_message: " +:+ format_datetime ts]
     | None => []
     end
  ++ (if wake_pending info then
        ["- wake_pending: true"]
        ++ when_line (0 <? wake_attempts info)%Z ("- wake_attempts: " +:+ show_Z (wake_attempts info))
        ++ match next_wake_retry_at info with
           | Some ts => ["- next_wake_retry: " +:+ format_datetime ts]
           | None => []
           end
      else []).
Definition none_or (ls : list string) : list string := match ls with [] => ["(none)"] | _ => ls end.
Definition log_line (log : TaskLog) : string :=
  "- " +:+ format_time (log_timestamp log) +:+ " " +:+ log_workspace log +:+ ": " +:+ log_message log.
Definition message_line (msg : HistoryEntry) : string :=
  "- " +:+ format_time (h_timestamp msg) +:+ " " +:+ h_from msg +:+ " -> " +:+ h_to msg +:+ ": "
  +:+ truncate_str (one_line (h_content msg)) 120.

Definition show_lines (task : Task) (log_limit : nat) (history : list HistoryEntry) : list string :=
  ["Task: " +:+ t_title task;
   "ID: " +:+ t_id task;
   "Status: " +:+ task_status_label now task;
   "Version: " +:+ show_Z (t_version task);
   "Assignee: " +:+ t_assignee task;
   "Created By: " +:+ t_created_by task;
   "Priority: " +:+ task_priority_label (t_priority task);
   "Updated: " +:+ format_task_age now task +:+ " ago (" +:+ format_datetime (t_updated_at task) +:+ ")";
   "Created: " +:+ format_datetime (t_created_at task);
   "Start Mode: " +:+ start_mode_label (t_start_mode task)]
  ++ removal_lines task
  ++ when_line (0 <? t_stale_after_seconds task)%Z
       ("Stale After: " +:+ show_Z (t_stale_after_seconds task) +:+ "s")
  ++ (if is_empty (t_description task) then [] else [""; "Description:"; t_description task])
  ++ (if is_empty (t_result task) then [] else [""; "Result:"; t_result task])
  ++ match t_stale_info task with Some info => stale_lines info | None => [] end
  ++ [""; "Operator Hint:"; task_operator_hint task; ""; "Recent Logs:"]
  ++ none_or (log_line <$> recent_task_logs task log_limit)
  ++ [""; "Related Messages:"]
  ++ none_or (message_line <$> related_task_messages task history 6).

Definition activity_row (e : TaskActivityEntry) (summary : string) : string :=
  format_datetime (ae_timestamp e) +:+ " " +:+ pad 12 (activity_label (ae_kind e)) +:+ " "
  +:+ pad 22 (truncate_str (ae_actor e) 22) +:+ " " +:+ summary.
Definition activity_lines (task : Task) (history : list HistoryEntry) (limit : nat) : list string :=
  ["Activity: " +:+ t_title task +:+ " (" +:+ t_id task +:+ ")"; ""]
  ++ match build_task_activity task history limit with
     | [] => ["(no activity)"]
     | entries =>
         mjoin ((fun e => [activity_row e (ae_summary e)]
                          ++ (if is_empty (ae_detail e) then []
                              else ["  " +:+ truncate_str (one_line (ae_detail e)) 140])) <$> entries)
     end.

(** The activity of several tasks, the newest first. *)
Definition tasks_activity (tasks : list Task) (history : list HistoryEntry) (limit : nat)
    : list TaskActivityEntry :=
  let entries := mjoin ((fun task =>
    (fun e => mkTaskActivityEntry (ae_timestamp e) (ae_kind e) (ae_actor e) (ae_summary e)
                (short_task_id (t_id task) +:+ " " +:+ t_title task))
      <$> build_task_activity task history 0) <$> tasks) in
  let entries := sort_by (fun a b => (ae_timestamp b ?= ae_timestamp a)%Z) entries in
  if (0 <? limit) && (limit <? length entries) then take limit entries else entries.
Definition tasks_activity_lines (tasks : list Task) (history : list HistoryEntry) (limit : nat)
    : list string :=
  (fun e => activity_row e (truncate_str (ae_summary e) 88)
            +:+ (if is_empty (ae_detail e) then "" else "  [" +:+ truncate_str (ae_detail e) 48 +:+ "]"))
    <$> tasks_activity tasks history limit.

Definition format_mutation (action : string) (task : Task) : string :=
  text_lines
    ([action +:+ " task " +:+ t_id task;
      "Status: " +:+ task_status_label now task;
      "Version: " +:+ show_Z (t_version task);
      "Assignee: " +:+ t_assignee task]
     ++ unless_empty "Result: " (t_result task)
     ++ removal_lines task).
Definition format_intervention (r : Task * string * string * string) : string :=
  let '(task, action, status, message_id) := r in
  text_lines
    (["Intervened task " +:+ t_id task;
      "Action: " +:+ action;
      "Status: " +:+ status;
      "Task Status: " +:+ task_status_label now task;
      "Version: " +:+ show_Z (t_version task)]
     ++ unless_empty "Message ID: " message_id
     ++ when_line (String.eqb action "retry")
          "Retry semantics: queued a standardized follow-up message on the same task ID.").
End format.

Section run.
Context {W F : Type} `{!Socket W} `{!WatchWire} `{!FileSystem F} `{!TimeText} `{!JsonCodec HistoryEntry}.
Context (env : Env) (fuel : nat) (now : Z) (fs : F).

(** Lines that do not decode are skipped. *)
Definition read_history_file (path : string) (max_entries : nat) : list HistoryEntry :=
  match fs_read fs path with
  | Err _ => []
  | Ok data =>
      let entries := omap from_slice (List.filter (fun l => negb (is_empty l)) (lines data)) in
      drop (length entries - max_entries) entries
  end.

Definition asked {A} (m : Run DaemonClientError W A) : Run TasksError W A := fun w =>
  match m w with Some (r, w) => Some (map_err TRequest r, w) | None => None end.

Definition only_stale_tasks (only_stale : bool) (tasks : list Task) : list Task :=
  if only_stale then List.filter (task_is_stale now) tasks else tasks.

Definition run_list (c : Z) (assignee created_by : string) (status : option TaskStatus)
    (only_stale : bool) : Run TasksError W string :=
  tasks ← asked (cli_list_tasks fuel c assignee created_by status);
  mret (format_task_list now (only_stale_tasks only_stale tasks)).

Definition run_show (c : Z) (socket_path id : string) (log_limit : Z) : Run TasksError W string :=
  task ← asked (cli_get_task fuel c id);
  mret (text_lines (show_lines now task (Z.to_nat log_limit)
                      (read_history_file (history_file_path (home env) socket_path) 200))).

Definition run_activity (c : Z) (socket_path : string) (id : option string)
    (assignee created_by : string) (status : option TaskStatus) (only_stale : bool) (limit : Z)
    : Run TasksError W string :=
  let history := read_history_file (history_file_path (home env) socket_path) 500 in
  match id with
  | Some id =>
      task ← asked (cli_get_task fuel c id);
      mret (text_lines (activity_lines task history (Z.to_nat limit)))
  | None =>
      tasks ← asked (cli_list_tasks fuel c assignee created_by status);
      mret (match only_stale_tasks only_stale tasks with
            | [] => "No tasks found." +:+ newline
            | tasks => text_lines (tasks_activity_lines tasks history (Z.to_nat limit))
            end)
  end.

Definition intervene (c : Z) (id action note : string) (expected_version : option Z)
    : Run TasksError W string :=
  r ← asked (cli_intervene_task fuel c id action (trim note) expected_version);
  mret (format_intervention now r).

Definition tasks_run (socket_path : string) (command : TasksCommand) : Run TasksError W string :=
  c ← (fun w => match cli_connect env fuel socket_path "_cli" w with
                | Some (r, w) => Some (map_err TConnect r, w)
                | None => None
                end);
  match command with
  | TasksList assignee created_by status only_stale => run_list c assignee created_by status only_stale
  | TasksShow id log_limit => run_show c socket_path id log_limit
  | TasksCancel id reason expected_version =>
      task ← asked (cli_cancel_task fuel c id reason expected_version);
      mret (format_mutation now "Cancelled" task)
  | TasksRemove id reason expected_version =>
      task ← asked (cli_remove_task fuel c id reason expected_version);
      mret (format_mutation now "Removed" task)
  | TasksRecover id =>
      task ← asked (cli_get_task fuel c id);
      mret (String.concat newline (task_recovery_preview_lines now task) +:+ newline)
  | TasksIntervene id action note expected_version =>
      let action := trim action in
      if existsb (String.eqb action) ["wake"; "interrupt"; "retry"]
      then intervene c id action note expected_version
      else throw (TInvalidAction action)
  | TasksRetry id note expected_version => intervene c id "retry" note expected_version
  | TasksActivity id assignee created_by status only_stale limit =>
      run_activity c socket_path id assignee created_by status only_stale limit
  end.
End run.
