(* ===== verification/CliRun.v ===== *)
(** * The commands of ax (crates/ax-cli: main.rs, workspace.rs, refresh.rs, init.rs).

    What a parsed command does: starting and stopping the daemon, bringing the workspaces of
    a configuration up and down, sending and reading messages, listing, refreshing,
    scaffolding.  The world [W] holds the daemon's socket, the machine of [LaunchHost], tmux
    and the terminal.  [ax mcp-server], [ax top] and the setup agent of [ax init] take the
    terminal over and are not part of this file. *)

From Stdlib Require Import Ascii.
From stdpp Require Import prelude strings list gmap.
From S2P Require Import Prelude Act RustStr Proto TaskHelpers History Registry Handlers Wake SessionManager Paths ConfigSchema ConfigTree.
From S2P Require Import Tmux Artifacts WorkspaceManager CodexFiles Reconcile Dispatch ErrorText McpClient McpHost TuiData Agent.
From S2P Require Import TuiLoop CliArgs CliTasks RustText.

(** ** The terminal and the processes *)

Class PathExists (F : Type) := path_exists : F -> string -> bool.

(** tmux as the other crates see it, [print!], [kill], and a [tmux] command that takes the
    terminal: whether it succeeded, and its status as a text. *)
Class CliHost (W T : Type) := {
  cli_tmux : W -> T;
  cli_put_tmux : T -> W -> W;
  cli_print : string -> W -> W;
  cli_kill : string -> Z -> W -> result IoError Output * W;
  cli_inside_tmux : W -> bool;
  cli_terminal : list string -> W -> result IoError (bool * string) * W;
}.

(** ** Errors *)

Inductive UpCliError :=
| UpLoadConfig (e : TreeError)
| UpLoadTree (e : TreeError)
| UpPrepareWorkspace (name : string) (e : WorkspaceError)
| UpPrepareOrchestrators (e : OrchestratorError)
| UpStartDaemonProcess (e : IoError)
| UpPollDaemonProcess (e : IoError)
| UpDaemonDidNotStart (socket_path : string).
Inductive DownCliError :=
| DownLoadConfig (e : TreeError)
| DownStopWorkspace (name : string) (e : WorkspaceError)
| DownStopOrchestrator (name : string) (e : TmuxError)
| DownCleanupRootOrchestrator (e : OrchestratorError)
| DownRemoveConfigMcp (e : McpConfigError).
Inductive RootOrchestratorCliError :=
| RootUnsupportedRuntime (name : string)
| RootLoadTree (e : TreeError)
| RootPrepareOrchestrators (e : OrchestratorError)
| RootResolveRootDir (e : OrchestratorError)
| RootStartDaemon (text : string)
| RootCreateSession (e : TmuxError)
| RootAttachSession (e : TmuxError).
Inductive SendCliError :=
| SendConnect (e : DaemonClientError)
| SendRequest (e : DaemonClientError).
Inductive MessagesCliError :=
| MsgConnect (e : DaemonClientError)
| MsgRead (e : DaemonClientError)
| MsgReadHistory (path : string) (e : IoError)
| MsgParseHistory (path : string) (line : nat)
| MsgFormatJson (text : string).
Inductive WorkspaceCliError :=
| WsCliCwd (e : IoError)
| WsCliTmux (e : TmuxError)
| WsCliWorkspace (e : WorkspaceError)
| WsCliNotFound (name expected_session orchestrator orchestrator_session : string)
| WsCliInterruptMissing (name expected_session : string).
Inductive RefreshError :=
| RefreshLoadConfig (e : TreeError)
| RefreshLoadTree (e : TreeError)
| RefreshWorkspace (text : string)
| RefreshReconcile (text : string)
| RefreshOrchestrator (e : OrchestratorError).

Inductive InitError :=
| InitHomeDir
| InitCwd (e : IoError)
| InitIo (e : IoError)
| InitSaveConfig (e : LoadError)
| InitSpawnAgent (e : IoError)
| InitAgentExit (runtime : string) (code : option Z)
| InitLegacyConfigConflict (path : string)
| InitReconfigureMissingConfig (path : string)
| InitReconfigureAxisSwitchUnsupported
| InitReconfigureGlobalUnsupported.

(** An error of the MCP server or of the terminal interface is its text. *)
Inductive CliError :=
| CliParse (e : ParseError)
| CliDaemon (e : DaemonCliError)
| CliUp (e : UpCliError)
| CliDown (e : DownCliError)
| CliRootOrchestrator (e : RootOrchestratorCliError)
| CliSend (e : SendCliError)
| CliMessages (e : MessagesCliError)
| CliLifecycle (e : LifecycleError)
| CliDispatch (e : DispatchError)
| CliRunAgent (e : LaunchError)
| CliStatus (text : string)
| CliRefresh (e : RefreshError)
| CliTasks (e : TasksError)
| CliWorkspace (e : WorkspaceCliError)
| CliMcpServer (text : string)
| CliInit (e : InitError)
| CliWatch (text : string).

Section display.
Context `{!TextOps} `{!SysText}.

#[export] Instance UpCliError_display : Display UpCliError := fun e =>
  match e with
  | UpLoadConfig e => to_string e
  | UpLoadTree e => "load config tree: " +:+ to_string e
  | UpPrepareWorkspace name e => "prepare workspace " +:+ debug_str name +:+ ": " +:+ to_string e
  | UpPrepareOrchestrators e => to_string e
  | UpStartDaemonProcess e => "start daemon process: " +:+ to_string e
  | UpPollDaemonProcess e => "poll daemon process: " +:+ to_string e
  | UpDaemonDidNotStart socket_path => "daemon did not start within 3s (" +:+ socket_path +:+ ")"
  end.
#[export] Instance DownCliError_display : Display DownCliError := fun e =>
  match e with
  | DownLoadConfig e => to_string e
  | DownStopWorkspace name e => "destroy workspace " +:+ debug_str name +:+ ": " +:+ to_string e
  | DownStopOrchestrator name e => "destroy orchestrator session " +:+ debug_str name +:+ ": " +:+ to_string e
  | DownCleanupRootOrchestrator e => to_string e
  | DownRemoveConfigMcp e => to_string e
  end.
#[export] Instance RootOrchestratorCliError_display : Display RootOrchestratorCliError := fun e =>
  match e with
  | RootUnsupportedRuntime name => "unsupported runtime " +:+ debug_str name
  | RootLoadTree e => "load config tree: " +:+ to_string e
  | RootPrepareOrchestrators e | RootResolveRootDir e => to_string e
  | RootStartDaemon text => "start daemon: " +:+ text
  | RootCreateSession e => "create orchestrator session: " +:+ to_string e
  | RootAttachSession e => to_string e
  end.
#[export] Instance SendCliError_display : Display SendCliError := fun e =>
  match e with
  | SendConnect e => "connect to daemon: " +:+ to_string e +:+ " (is daemon running?)"
  | SendRequest e => "send: " +:+ to_string e
  end.
#[export] Instance MessagesCliError_display : Display MessagesCliError := fun e =>
  match e with
  | MsgConnect e => "connect to daemon: " +:+ to_string e +:+ " (is daemon running?)"
  | MsgRead e => "read messages: " +:+ to_string e
  | MsgReadHistory path e => "read message history " +:+ path +:+ ": " +:+ to_string e
  | MsgParseHistory path n =>
      "parse message history " +:+ path +:+ " line " +:+ show_nat n +:+ ": " +:+ json_error_text
  | MsgFormatJson text => "format messages as json: " +:+ text
  end.
#[export] Instance WorkspaceCliError_display : Display WorkspaceCliError := fun e =>
  match e with
  | WsCliCwd e => "resolve current dir: " +:+ to_string e
  | WsCliTmux e => to_string e
  | WsCliWorkspace e => to_string e
  | WsCliNotFound name expected orchestrator orchestrator_session =>
      "workspace " +:+ debug_str name +:+ " not found (no tmux session " +:+ expected
      +:+ "; tried project orchestrator " +:+ debug_str orchestrator +:+ " -> " +:+ orchestrator_session +:+ ")"
  | WsCliInterruptMissing name expected =>
      "workspace " +:+ debug_str name +:+ " not found (no tmux session " +:+ expected +:+ ")"
  end.
#[export] Instance RefreshError_display : Display RefreshError := fun e =>
  match e with
  | RefreshLoadConfig e => "load ax config: " +:+ to_string e
  | RefreshLoadTree e => "load config tree: " +:+ to_string e
  | RefreshWorkspace text => text
  | RefreshReconcile text => "reconcile: " +:+ text
  | RefreshOrchestrator e => to_string e
  end.
#[export] Instance InitError_display : Display InitError := fun e =>
  match e with
  | InitHomeDir => "resolve home directory: HOME not set"
  | InitCwd e => "resolve current directory: " +:+ to_string e
  | InitIo e => to_string e
  | InitSaveConfig e => to_string e
  | InitSpawnAgent e => "spawn setup agent: " +:+ to_string e
  | InitAgentExit runtime code =>
      runtime +:+ " setup agent exited with status "
      +:+ match code with Some c => show_Z c | None => "signal" end
  | InitLegacyConfigConflict path => "legacy config already exists at " +:+ path
  | InitReconfigureMissingConfig path =>
      "no config at " +:+ path +:+ " — run `ax init` first before `--reconfigure`"
  | InitReconfigureAxisSwitchUnsupported =>
      "--axis together with --reconfigure is not supported yet; axis switching changes workspace names + directories and needs a manual plan. Edit config.yaml directly if you want to switch axes."
  | InitReconfigureGlobalUnsupported => "--reconfigure does not apply to --global configs"
  end.
#[export] Instance CliError_display : Display CliError := fun e =>
  match e with
  | CliParse e => to_string e
  | CliDaemon e => to_string e
  | CliUp e => to_string e
  | CliDown e => to_string e
  | CliRootOrchestrator e => to_string e
  | CliSend e => to_string e
  | CliMessages e => to_string e
  | CliLifecycle e => to_string e
  | CliDispatch e => to_string e
  | CliRunAgent e => to_string e
  | CliMcpServer text | CliStatus text => text
  | CliRefresh e => to_string e
  | CliTasks e => to_string e
  | CliInit e => to_string e
  | CliWatch text => text
  | CliWorkspace e => to_string e
  end.
End display.

(** ** Messages *)

Definition CLI_INBOX_REPLY_GUIDANCE : string :=
  "`_cli` is a local CLI inbox, not an addressable agent; reply to the sender or a supported parent path.".

Definition normalized_message_limit (limit : Z) : nat :=
  if (limit <=? 0)%Z then 10 else Z.to_nat limit.

(** [to_string_pretty] of serde_json. *)
Class PrettyJson := {
  pretty_messages : list Message -> result string string;
  pretty_history : list HistoryEntry -> result string string;
}.

Section messages.
Context `{!TimeText} `{!PrettyJson}.

Definition format_messages_output (messages : list Message) (json_output : bool) : result string string :=
  if json_output then text ← pretty_messages messages; Ok (text +:+ newline) else
  match messages with
  | [] => Ok (line ("No pending messages in `" +:+ CLI_INBOX_WORKSPACE +:+ "` inbox.")
              +:+ line CLI_INBOX_REPLY_GUIDANCE
              +:+ line "Use `ax messages --history` for recent global message history without draining inboxes.")
  | _ =>
      Ok (line ("Drained " +:+ show_nat (length messages) +:+ " pending message(s) from `" +:+ CLI_INBOX_WORKSPACE
                +:+ "` inbox; they are now removed from the queue.")
          +:+ line CLI_INBOX_REPLY_GUIDANCE
          +:+ String.concat "" ((fun m => line ("── [" +:+ format_time (m_created_at m) +:+ "] from " +:+ m_from m
                                                +:+ " ──") +:+ line (m_content m) +:+ newline) <$> messages))
  end.

Definition format_message_history_output (entries : list HistoryEntry) (json_output : bool)
    : result string string :=
  if json_output then text ← pretty_history entries; Ok (text +:+ newline) else
  match entries with
  | [] => Ok (line "No message history.")
  | _ =>
      Ok (line "Recent global message history (non-destructive; does not drain inboxes)."
          +:+ String.concat "" ((fun e => line ("── [" +:+ format_time (h_timestamp e) +:+ "] " +:+ h_from e
                                                +:+ " -> " +:+ h_to e +:+ " ──")
                                          +:+ line (h_content e) +:+ newline) <$> entries))
  end.

Definition timeout_messages_output (json_output : bool) : string :=
  if json_output then line "[]"
  else line "No pending messages received in `_cli` inbox within timeout." +:+ line CLI_INBOX_REPLY_GUIDANCE.
End messages.

Section history.
Context {F : Type} `{!ArtifactFs F} `{!JsonCodec HistoryEntry}.

(** The lines are numbered from 1; the first that does not decode is an error. *)
Fixpoint parse_message_history (path : string) (number : nat) (ls : list string)
    : result MessagesCliError (list HistoryEntry) :=
  match ls with
  | [] => Ok []
  | l :: ls =>
      if is_empty l then parse_message_history path (S number) ls else
      match from_slice l with
      | None => Err (MsgParseHistory path number)
      | Some e => es ← parse_message_history path (S number) ls; Ok (e :: es)
      end
  end.
Definition read_message_history (fs : F) (path : string) (limit : Z) (from : string)
    : result MessagesCliError (list HistoryEntry) :=
  match fs_read_to_string fs path with
  | Err IoNotFound => Ok []
  | Err e => Err (MsgReadHistory path e)
  | Ok data =>
      entries ← parse_message_history path 1 (lines data);
      let entries := List.filter (fun e => is_empty from || String.eqb (h_from e) from) entries in
      Ok (drop (length entries - normalized_message_limit limit) entries)
  end.
End history.

(** ** workspace.rs: the list *)

Record WorkspaceListRow := mkWorkspaceListRow {
  lr_name : string;
  lr_reconcile : string;
  lr_tmux : string;
  lr_agent : string;
  lr_status_text : string;
  lr_description : string;
}.
Record WorkspaceListView := mkWorkspaceListView {
  lv_reconfigure_enabled : bool;
  lv_rows : list WorkspaceListRow;
  lv_hidden_internal : list string;
}.

Definition is_internal_name (name : string) : bool := starts_with name "_".

Definition reconfigure_row_state (name : string) (desired : gset string) (has_session has_agent : bool) : string :=
  if bool_decide (desired = ∅) then ""
  else if bool_decide (name ∈ desired) && negb has_session && negb has_agent then "desired-only"
  else if negb (bool_decide (name ∈ desired)) && (has_session || has_agent) && negb (is_internal_name name)
  then "runtime-only"
  else "configured".

Definition is_internal_daemon_only_row (row : WorkspaceListRow) : bool :=
  String.eqb (lr_tmux row) "no-session" && is_internal_name (lr_name row).

Section rows.
Context (sessions : list SessionInfo) (workspaces : Infos) (descriptions : gmap string string).
Context (desired : gset string).

Definition session_map : gmap string SessionInfo := foldl (fun m s => <[si_workspace s := s]> m) ∅ sessions.
(** The keys of the [BTreeSet], in its order. *)
Definition row_names : list string :=
  btree_keys (set_to_map (fun n => (n, tt)) (dom session_map ∪ dom workspaces ∪ desired) : gmap string unit).

Definition list_row_of (name : string) : WorkspaceListRow :=
  let session := session_map !! name in
  let has_agent := bool_decide (is_Some (workspaces !! name)) in
  let has_session := bool_decide (is_Some session) in
  mkWorkspaceListRow name
    (reconfigure_row_state name desired has_session has_agent)
    (match session with Some s => attached_word s | None => "no-session" end)
    (if has_session && negb has_agent then "no-agent" else workspace_agent_status workspaces name)
    (workspace_status_preview workspaces name 40)
    (default "" (descriptions !! name)).
Definition marked_internal (row : WorkspaceListRow) : WorkspaceListRow :=
  mkWorkspaceListRow (lr_name row) (lr_reconcile row) (lr_tmux row) (lr_agent row) (lr_status_text row)
    (if is_empty (lr_description row) then "internal daemon identity" else lr_description row +:+ " (internal)").

Definition add_list_row (include_internal : bool) (view : WorkspaceListView) (name : string) : WorkspaceListView :=
  let row := list_row_of name in
  let with_row row := mkWorkspaceListView (lv_reconfigure_enabled view) (lv_rows view ++ [row])
                        (lv_hidden_internal view) in
  if is_internal_daemon_only_row row then
    if include_internal then with_row (marked_internal row)
    else mkWorkspaceListView (lv_reconfigure_enabled view) (lv_rows view) (lv_hidden_internal view ++ [name])
  else with_row row.
Definition build_workspace_list_rows (reconfigure_enabled include_internal : bool) : WorkspaceListView :=
  foldl (add_list_row include_internal) (mkWorkspaceListView reconfigure_enabled [] []) row_names.
End rows.

Definition format_hidden_internal_note (names : list string) : string :=
  match names with
  | [] => ""
  | _ =>
      let one := length names =? 1 in
      "Hidden " +:+ show_nat (length names) +:+ " internal daemon-only "
      +:+ (if one then "workspace" else "workspaces") +:+ ": " +:+ String.concat ", " names
      +:+ ". Use --internal to show " +:+ (if one then "it" else "them") +:+ "."
  end.

Definition list_line (enabled : bool) (a b c d e f : string) : string :=
  line (pad 22 a +:+ " " +:+ (if enabled then pad 14 b +:+ " " else "") +:+ pad 10 c +:+ " " +:+ pad 8 d +:+ " "
        +:+ pad 40 e +:+ " " +:+ f).
Definition format_list (view : WorkspaceListView) : string :=
  let note := format_hidden_internal_note (lv_hidden_internal view) in
  let enabled := lv_reconfigure_enabled view in
  match lv_rows view with
  | [] => line "No workspaces found." +:+ (if is_empty note then "" else line note)
  | rows =>
      list_line enabled "WORKSPACE" "RECONCILE" "TMUX" "AGENT" "STATUS TEXT" "DESCRIPTION"
      +:+ list_line enabled "---------" "---------" "----" "-----" "-----------" "-----------"
      +:+ String.concat "" ((fun r => list_line enabled (lr_name r) (lr_reconcile r) (lr_tmux r) (lr_agent r)
                                        (lr_status_text r) (lr_description r)) <$> rows)
      +:+ (if enabled then newline +:+ line "Reconcile state is relative to the active config tree." else "")
      +:+ (if is_empty note then "" else newline +:+ line note)
  end.

(** What the config says of the list: the descriptions, the desired names, and whether
    reconfiguration is on. *)
Definition list_config (cfg : option Config) (tree : option ProjectNode)
    : gmap string string * gset string * bool :=
  match cfg with
  | None => (∅, ∅, false)
  | Some cfg =>
      let enabled := experimental_mcp_team_reconfigure cfg in
      (w_description <$> workspaces cfg,
       match tree with
       | Some tree => if enabled then collect_known_workspaces tree ∅ else dom (workspaces cfg)
       | None => dom (workspaces cfg)
       end, enabled)
  end.

(** ** The commands *)

(** The command tmux runs in the session of the root orchestrator: the script keeps the
    window open when the command fails. *)
Definition quoted_status : string := dquote +:+ "$status" +:+ dquote.
Definition ROOT_ORCHESTRATOR_FAILURE_HOLD_SCRIPT : string :=
  dquote +:+ "$@" +:+ dquote +:+ newline
  +:+ "status=$?" +:+ newline
  +:+ "if [ " +:+ quoted_status +:+ " -ne 0 ] && [ " +:+ quoted_status +:+ " -ne 130 ] && [ "
  +:+ quoted_status +:+ " -ne 143 ]; then" +:+ newline
  +:+ "  printf '\n[ax] Root orchestrator process exited unexpectedly with status %s.\n' " +:+ quoted_status +:+ newline
  +:+ "  printf '[ax] Common causes: runtime binary not found, auth/config issues, or a CLI crash.\n'" +:+ newline
  +:+ "  printf '[ax] Press Enter to close this tmux session.\n'" +:+ newline
  +:+ "  IFS= read -r _" +:+ newline
  +:+ "fi" +:+ newline
  +:+ "exit " +:+ quoted_status.

Definition wrap_root_orchestrator_ephemeral_argv (argv : list string) : list string :=
  match argv with
  | [] => []
  | _ => ["sh"; "-lc"; ROOT_ORCHESTRATOR_FAILURE_HOLD_SCRIPT; "ax-root-orchestrator"] ++ argv
  end.

Definition root_orchestrator_args (ax_bin : string) (runtime : Runtime) (self_name socket_path config_path : string)
    (passthrough_args : list string) : list string :=
  [ax_bin; "run-agent"; "--runtime"; as_str runtime; "--workspace"; self_name;
   "--socket"; socket_path; "--config"; config_path]
  ++ match passthrough_args with [] => [] | _ => "--" :: passthrough_args end.

Definition daemon_start_args (socket_path : string) : list string :=
  ["daemon"; "start"; "--socket"; socket_path].

Fixpoint run_each {E S X} (f : X -> Run E S unit) (xs : list X) : Run E S unit :=
  match xs with
  | [] => mret tt
  | x :: xs => _ ← f x; run_each f xs
  end.
Definition run_map_err {E E' S A} (f : E -> E') (m : Run E S A) : Run E' S A := fun s =>
  match m s with Some (r, s) => Some (map_err f r, s) | None => None end.

(** A call whose error is not propagated. *)
Definition attempted {E E' S A} (m : Run E S A) : Run E' S (result E A) := fun s =>
  match m s with Some (r, s) => Some (Ok r, s) | None => None end.

Definition millis : Z := 1000000.

Section commands.
Context {W F T : Type} `{!LaunchHost W F} `{!CliHost W T} `{!Socket W} `{!WatchWire}.
Context `{!FileSystem F} `{!ArtifactFs F} `{!LinkFs F} `{!PathExists F} `{!CodexHome F} `{!Prompts F} `{!AgentFs F}.
Context `{!Tmux T} `{!TextOps} `{!SysText} `{!TimeText} `{!PrettyJson} `{!AgentJson}.
Context `{!JsonCodec McpConfig} `{!JsonCodec HistoryEntry} `{!JsonCodec RuntimeState}.
Context `{!YamlCodec Config} `{!YamlCodec ManagedOverlay}.
(** The bounds: the lines read for one answer, the depth of the config tree, the polls of a
    launched program and the turns of a wait for messages. *)
Context (env : Env) (current_exe : string) (hash_text short_hash : string -> string).
Context (lines_fuel tree_fuel polls turns : nat).

Definition say {E} (text : string) : Run E W unit := fun w => Some (Ok tt, cli_print (line text) w).
Definition say_text {E} (text : string) : Run E W unit := fun w => Some (Ok tt, cli_print text w).
Definition observe {E A} (f : W -> A) : Run E W A := fun w => Some (Ok (f w), w).

Definition read_clock {E} : Run E W Z := fun w => let '(now, w) := host_instant w in Some (Ok now, w).
Definition pause {E} (d : Z) : Run E W unit := fun w => Some (Ok tt, host_sleep d w).

(** An action on the files and tmux. *)
Definition on_machine {E A} (m : Act E (World F T) A) : Run E W A := fun w =>
  let '(r, x) := m (mkWorld (host_files w) (cli_tmux w)) in
  Some (r, cli_put_tmux (tmux x) (host_put_files (files x) w)).
Definition on_machine_run {E A} (m : Run E (World F T) A) : Run E W A := fun w =>
  match m (mkWorld (host_files w) (cli_tmux w)) with
  | Some (r, x) => Some (r, cli_put_tmux (tmux x) (host_put_files (files x) w))
  | None => None
  end.

Definition load_config {E} (wrap : TreeError -> E) (path : string) : Run E W Config := fun w =>
  match load env (host_files w) tree_fuel path with
  | Some r => Some (map_err wrap r, w)
  | None => None
  end.
Definition load_config_tree {E} (wrap : TreeError -> E) (path : string) : Run E W ProjectNode := fun w =>
  match load_tree env (host_files w) tree_fuel path with
  | Some r => Some (map_err wrap r, w)
  | None => None
  end.

Definition exists_session (name : string) (w : W) : bool := session_exists name (cli_tmux w).

(** *** The daemon *)

Definition daemon_state (socket_path : string) (w : W) : result DaemonCliError DaemonState :=
  daemon_status (fs_read_to_string (host_files w)) (fun signal pid => (cli_kill signal pid w).1) socket_path.

Definition terminate (pid : Z) : Run DaemonCliError W bool := fun w =>
  let '(out, w) := cli_kill "-TERM" pid w in Some (send_signal (fun _ _ => out) pid "-TERM", w).

Definition daemon_did_not_start (socket_path : string) : Run (DaemonCliError + UpCliError) W unit :=
  throw (inr (UpDaemonDidNotStart socket_path)).

(** The loop over [0..30]: a pass looks for the socket, then for the end of the child. *)
Fixpoint await_socket (passes : nat) (socket_path : string) : Run (DaemonCliError + UpCliError) W unit :=
  match passes with
  | O => daemon_did_not_start socket_path
  | S passes => fun w =>
      if path_exists (host_files w) socket_path then Some (Ok tt, w) else
      match host_try_wait w with
      | (Err e, w) => Some (Err (inr (UpPollDaemonProcess e)), w)
      | (Ok (Some _), w) => daemon_did_not_start socket_path w
      | (Ok None, w) => await_socket passes socket_path (host_sleep (100 * millis) w)
      end
  end.
Definition ensure_daemon_running (socket_path : string) : Run (DaemonCliError + UpCliError) W unit := fun w =>
  match daemon_state socket_path w with
  | Err e => Some (Err (inl e), w)
  | Ok (Running _) => Some (Ok tt, w)
  | Ok _ =>
      match host_spawn (mkCommand current_exe None (daemon_start_args socket_path) []) w with
      | (Err e, w) => Some (Err (inr (UpStartDaemonProcess e)), w)
      | (Ok _, w) => await_socket 30 socket_path w
      end
  end.
Definition start_error_text (e : DaemonCliError + UpCliError) : string :=
  match e with inl e => to_string e | inr e => to_string e end.
Definition start_error (e : DaemonCliError + UpCliError) : CliError :=
  match e with inl e => CliDaemon e | inr e => CliUp e end.

Definition run_daemon_stop (socket_path : string) : Run DaemonCliError W unit :=
  pid ← (fun w => Some (read_daemon_pid (fs_read_to_string (host_files w)) socket_path, w));
  _ ← terminate pid;
  say ("Sent SIGTERM to daemon (pid " +:+ show_Z pid +:+ ")").
Definition run_daemon_status (socket_path : string) : Run DaemonCliError W unit :=
  state ← (fun w => Some (daemon_state socket_path w, w));
  match state with
  | Running pid => _ ← say ("Daemon: running (pid " +:+ show_Z pid +:+ ")"); say ("Socket: " +:+ socket_path)
  | NotRunning => say "Daemon: not running"
  | StalePid => say "Daemon: not running (stale pid)"
  end.

(** *** Up and down *)

(** A disabled root orchestrator is torn down; says whether it is disabled. *)
Definition reconcile_root (disabled : bool) : Run OrchestratorError W bool :=
  if negb disabled then mret false else
  orch_dir ← lift (root_orchestrator_dir env);
  _ ← on_machine (cleanup_orchestrator_state (orchestrator_name "") orch_dir);
  mret true.

Definition prepare_workspace (options : CommonOptions) (entry : string * Workspace) : Run CliError W unit :=
  let '(name, ws) := entry in
  _ ← run_map_err (fun e => CliUp (UpPrepareWorkspace name e))
        (on_machine (on_files (ensure_artifacts name ws (co_socket_path options)
                                 (Some (co_config_path options)) (co_ax_bin options))));
  say ("  " +:+ name +:+ ": ready (on-demand, dir: " +:+ w_dir ws +:+ ")").

Definition run_up (options : CommonOptions) : Run CliError W unit :=
  cfg ← load_config (fun e => CliUp (UpLoadConfig e)) (co_config_path options);
  tree ← load_config_tree (fun e => CliUp (UpLoadTree e)) (co_config_path options);
  _ ← say ("Project: " +:+ project cfg +:+ newline);
  _ ← run_map_err start_error (ensure_daemon_running (co_socket_path options));
  _ ← say ("Daemon: running" +:+ newline +:+ newline +:+ "Workspaces:");
  _ ← run_each (prepare_workspace options) (btree_to_list (workspaces cfg));
  _ ← say (newline +:+ "Orchestrators:");
  skip_root ← run_map_err (fun e => CliUp (UpPrepareOrchestrators e))
                (reconcile_root (pn_disable_root_orchestrator tree));
  _ ← run_map_err (fun e => CliUp (UpPrepareOrchestrators e))
        (on_machine (ensure_orchestrator_tree env tree (co_socket_path options) (Some (co_config_path options))
                       (co_ax_bin options) false skip_root));
  _ ← say ("  tree: ready (on-demand)" +:+ newline);
  if skip_root : bool then
    say ("Managed root orchestrator state is disabled by config." +:+ newline
         +:+ "Workspace and child/project orchestrator agents will start on demand when work is dispatched." +:+ newline
         +:+ "Run 'ax claude' or 'ax codex' to launch a foreground root orchestrator manually.")
  else
    say ("Run 'ax claude' or 'ax codex' to launch the root orchestrator CLI." +:+ newline
         +:+ "Workspace and child/project orchestrator agents will start on demand when messages or tasks are dispatched.").

Definition stop_workspace (entry : string * Workspace) : Run CliError W unit :=
  let '(name, ws) := entry in
  running ← observe (exists_session name);
  if negb running then say ("  " +:+ name +:+ ": not running (skipped)") else
  _ ← run_map_err (fun e => CliDown (DownStopWorkspace name e)) (on_machine (manager_destroy name (w_dir ws)));
  say ("  " +:+ name +:+ ": stopped").

(** The children first. *)
Fixpoint stop_orchestrator_sessions (tree : ProjectNode) : Run CliError W unit :=
  _ ← run_each stop_orchestrator_sessions (pn_children tree);
  let name := orchestrator_name (pn_prefix tree) in
  running ← observe (exists_session name);
  if negb running then mret tt else
  _ ← run_map_err (fun e => CliDown (DownStopOrchestrator name e)) (on_machine (on_tmux (destroy_session name)));
  say ("  " +:+ name +:+ ": stopped").

Definition stop_daemon (socket_path : string) : Run CliError W unit :=
  state ← run_map_err CliDaemon (fun w => Some (daemon_state socket_path w, w));
  match state with
  | Running pid => _ ← run_map_err CliDaemon (terminate pid); say "Daemon: stopped"
  | NotRunning | StalePid => say "Daemon: not running"
  end.

Definition run_down (options : CommonOptions) : Run CliError W unit :=
  cfg ← load_config (fun e => CliDown (DownLoadConfig e)) (co_config_path options);
  _ ← say "Stopping workspaces:";
  _ ← run_each stop_workspace (btree_to_list (workspaces cfg));
  tree ← attempted (load_config_tree id (co_config_path options));
  _ ← match tree with
      | Err _ => mret tt
      | Ok tree =>
          _ ← say (newline +:+ "Stopping orchestrators:");
          _ ← stop_orchestrator_sessions tree;
          _ ← run_map_err (fun e => CliDown (DownCleanupRootOrchestrator e))
                (reconcile_root (pn_disable_root_orchestrator tree));
          mret tt
      end;
  _ ← match parent (co_config_path options) with
      | Some config_dir =>
          run_map_err (fun e => CliDown (DownRemoveConfigMcp e)) (on_machine (on_files (remove_mcp_config config_dir)))
      | None => mret tt
      end;
  _ ← say "";
  stop_daemon (co_socket_path options).

(** *** The root orchestrator *)

(** sessions.rs of ax-tmux. *)
Definition attach_session (workspace : string) : Run TmuxError W unit := fun w =>
  let op := if cli_inside_tmux w then "switch-client" else "attach-session" in
  match cli_terminal [op; "-t"; session_name workspace] w with
  | (Err e, w) => Some (Err (TmuxIo e), w)
  | (Ok (true, _), w) => Some (Ok tt, w)
  | (Ok (false, status), w) => Some (Err (TmuxCommand op ("exit status " +:+ status)), w)
  end.

Definition run_root_orchestrator (runtime_name : string) (passthrough_args : list string)
    (options : CommonOptions) : Run RootOrchestratorCliError W unit :=
  runtime ← lift (match normalize runtime_name with
                  | Some r => Ok r
                  | None => Err (RootUnsupportedRuntime runtime_name)
                  end);
  tree ← load_config_tree RootLoadTree (co_config_path options);
  _ ← run_map_err RootPrepareOrchestrators (reconcile_root (pn_disable_root_orchestrator tree));
  let tree := tree <| pn_orchestrator_runtime := as_str runtime |> in
  _ ← run_map_err (fun e => RootStartDaemon (start_error_text e)) (ensure_daemon_running (co_socket_path options));
  _ ← run_map_err RootPrepareOrchestrators
        (on_machine (ensure_orchestrator_tree env tree (co_socket_path options) (Some (co_config_path options))
                       (co_ax_bin options) true false));
  let self_name := orchestrator_name (pn_prefix tree) in
  running ← observe (exists_session self_name);
  if running : bool then run_map_err RootAttachSession (attach_session self_name) else
  orch_dir ← lift (map_err RootResolveRootDir (root_orchestrator_dir env));
  let argv := wrap_root_orchestrator_ephemeral_argv
                (root_orchestrator_args (co_ax_bin options) runtime self_name (co_socket_path options)
                   (co_config_path options) passthrough_args) in
  _ ← run_map_err RootCreateSession (on_machine (on_tmux (create_ephemeral_session self_name orch_dir argv)));
  run_map_err RootAttachSession (attach_session self_name).

(** *** Messages *)

Definition run_send (to message socket_path config_path : string) : Run CliError W unit :=
  _ ← lift (map_err CliParse (reject_cli_inbox_send_target to));
  c ← run_map_err (fun e => CliSend (SendConnect e)) (cli_connect env lines_fuel socket_path "orchestrator");
  sent ← run_map_err (fun e => CliSend (SendRequest e)) (cli_send_message lines_fuel c to message (Some config_path));
  _ ← say ("Message sent to " +:+ debug_str to +:+ " (id: " +:+ sent.1 +:+ ")");
  say ("Agent " +:+ debug_str to +:+ " readied for queued work.").

Definition say_messages (messages : list Message) (json_output : bool) : Run MessagesCliError W unit :=
  text ← lift (map_err MsgFormatJson (format_messages_output messages json_output));
  say_text text.

(** [while Instant::now() < deadline]: ask, and sleep two seconds between two questions. *)
Fixpoint wait_for_messages (turns : nat) (c : Z) (limit : Z) (from : string) (deadline : Z) (json_output : bool)
    : Run MessagesCliError W unit :=
  match turns with
  | O => fun _ => None
  | S turns =>
      now ← read_clock;
      if negb (now <? deadline)%Z then say_text (timeout_messages_output json_output) else
      messages ← run_map_err MsgRead (cli_read_messages lines_fuel c limit from);
      match messages with
      | [] => _ ← pause (2 * nanos); wait_for_messages turns (c + 1)%Z limit from deadline json_output
      | _ => say_messages messages json_output
      end
  end.

Definition run_messages (from : string) (limit : Z) (wait history : bool) (timeout_seconds : Z)
    (json_output : bool) (socket_path : string) : Run MessagesCliError W unit :=
  if history then
    entries ← (fun w => Some (read_message_history (host_files w) (history_file_path (home env) socket_path) limit from, w));
    text ← lift (map_err MsgFormatJson (format_message_history_output entries json_output));
    say_text text
  else
  c ← run_map_err MsgConnect (cli_connect env lines_fuel socket_path CLI_INBOX_WORKSPACE);
  if negb wait then
    messages ← run_map_err MsgRead (cli_read_messages lines_fuel c limit from);
    say_messages messages json_output
  else
  _ ← say ("Waiting for pending messages in `" +:+ CLI_INBOX_WORKSPACE
           +:+ "` inbox; received messages are drained from the queue... (Ctrl+C to stop)");
  now ← read_clock;
  wait_for_messages turns c limit from (now + timeout_seconds * nanos)%Z json_output.

(** *** Workspaces *)

Definition create_workspace (options : CommonOptions) (name : string) (dir : option string)
    : Run WorkspaceCliError W string :=
  dir ← lift (match dir with Some d => Ok d | None => map_err WsCliCwd (cwd env) end);
  _ ← run_map_err WsCliWorkspace
        (on_machine (manager_create (manager (co_socket_path options) (co_config_path options) (co_ax_bin options))
                       name (default_workspace <| w_dir := dir |>)));
  mret (line ("Workspace " +:+ debug_str name +:+ " created (session: " +:+ session_name name +:+ ", dir: " +:+ dir +:+ ")")
        +:+ line ("Attach with: ax workspace attach " +:+ name)).
Definition destroy_workspace (name : string) : Run WorkspaceCliError W string :=
  _ ← run_map_err WsCliWorkspace (on_machine (manager_destroy name ""));
  mret (line ("Workspace " +:+ debug_str name +:+ " destroyed")).

Definition resolve_attach_target (name : string) (w : W) : option string :=
  let trimmed := trim name in
  if is_empty trimmed then None
  else if exists_session trimmed w then Some trimmed
  else
    let orch := orchestrator_name trimmed in
    if negb (String.eqb orch trimmed) && exists_session orch w then Some orch else None.
Definition attach (name : string) : Run WorkspaceCliError W unit :=
  target ← observe (resolve_attach_target name);
  match target with
  | None =>
      let orch := orchestrator_name (trim name) in
      throw (WsCliNotFound name (session_name name) orch (session_name orch))
  | Some target => run_map_err WsCliTmux (attach_session target)
  end.
Definition interrupt (name : string) : Run WorkspaceCliError W string :=
  running ← observe (exists_session name);
  if negb running then throw (WsCliInterruptMissing name (session_name name)) else
  _ ← run_map_err WsCliTmux (on_machine (on_tmux (interrupt_workspace name)));
  mret (line ("Workspace " +:+ debug_str name +:+ " interrupted")).

(** Errors of the config and of the daemon leave the list without their part. *)
Definition render_list (socket_path : string) (configured : option string) (daemon_running include_internal : bool)
    : Run WorkspaceCliError W string :=
  sessions ← (fun w => Some (map_err WsCliTmux (list_sessions (cli_tmux w)), w));
  config ← observe (fun w => status_config_path env (host_files w) configured);
  says ← match config with
         | None => mret (list_config None None)
         | Some path =>
             cfg ← attempted (load_config id path);
             tree ← attempted (load_config_tree id path);
             mret (list_config (match cfg with Ok c => Some c | Err _ => None end)
                     (match tree with Ok t => Some t | Err _ => None end))
         end;
  let '(descriptions, desired, enabled) := says in
  infos ← (if daemon_running then
             r ← attempted (c ← cli_connect env lines_fuel socket_path "_cli"; cli_list_workspaces lines_fuel c);
             mret (match r with Ok l => workspace_info_map l | Err _ => ∅ end)
           else mret ∅);
  mret (format_list (build_workspace_list_rows sessions infos descriptions desired enabled include_internal)).
End commands.

(** ** refresh.rs *)

Definition reconcile_report_text (report : ReconcileReport) : string :=
  newline +:+ line "Experimental Runtime Reconcile:"
  +:+ match actions report with
      | [] => line "  no runtime/workspace/orchestrator changes"
      | acts => String.concat "" ((fun a =>
          line ("  " +:+ ra_kind a +:+ " " +:+ ra_name a +:+ ": " +:+ ra_operation a
                +:+ (if is_empty (ra_details a) then "" else " (" +:+ ra_details a +:+ ")"))) <$> acts)
      end
  +:+ (if root_manual_restart_required report
       then newline +:+ line "Note: root foreground orchestrator requires manual relaunch to pick up artifact changes."
       else "").

Section refresh.
Context {W F T : Type} `{!LaunchHost W F} `{!CliHost W T}.
Context `{!FileSystem F} `{!ArtifactFs F} `{!CodexHome F} `{!Prompts F}.
Context `{!Tmux T} `{!TextOps} `{!SysText}.
Context `{!JsonCodec McpConfig} `{!JsonCodec RuntimeState}.
Context `{!YamlCodec Config} `{!YamlCodec ManagedOverlay}.
Context (env : Env) (hash_text : string -> string) (tree_fuel : nat).
Context (options : CommonOptions) (daemon_running : bool) (opts : RefreshOptions).

Definition workspace_step (verb name : string) (m : Act WorkspaceError (World F T) unit)
    : Run RefreshError W unit :=
  run_map_err (fun e => RefreshWorkspace (verb +:+ " workspace " +:+ debug_str name +:+ ": " +:+ to_string e))
    (on_machine m).

(** One workspace; the end of its line says what happened. *)
Definition refresh_workspace (name : string) (ws : Workspace) : Run RefreshError W string :=
  let mgr := manager (co_socket_path options) (co_config_path options) (co_ax_bin options) in
  _ ← workspace_step "refresh" name
        (on_files (ensure_artifacts name ws (co_socket_path options) (Some (co_config_path options))
                     (co_ax_bin options)));
  exists_ ← observe (exists_session name);
  if ro_restart opts && exists_ then
    _ ← workspace_step "restart" name (manager_destroy name (w_dir ws));
    _ ← workspace_step "restart" name (manager_create mgr name ws);
    mret "session restarted"
  else if ro_start_missing opts && daemon_running && negb exists_ then
    _ ← workspace_step "start" name (manager_create mgr name ws);
    mret "session started"
  else mret (if exists_ then "session unchanged" else "session offline").
Fixpoint refresh_workspaces (entries : list (string * Workspace)) : Run RefreshError W string :=
  match entries with
  | [] => mret ""
  | (name, ws) :: entries =>
      what ← refresh_workspace name ws;
      rest ← refresh_workspaces entries;
      mret (line ("  " +:+ name +:+ ": artifacts refreshed, " +:+ what) +:+ rest)
  end.

(** A session that does not die is reported as stopped all the same. *)
Fixpoint destroy_orchestrator_sessions (tree : ProjectNode) : Run RefreshError W string :=
  texts ← (fix each (children : list ProjectNode) : Run RefreshError W string :=
             match children with
             | [] => mret ""
             | child :: children => a ← destroy_orchestrator_sessions child; b ← each children; mret (a +:+ b)
             end) (pn_children tree);
  let name := orchestrator_name (pn_prefix tree) in
  running ← observe (exists_session name);
  if negb running then mret texts else
  _ ← attempted (on_machine (on_tmux (destroy_session name)));
  mret (texts +:+ line ("  " +:+ name +:+ ": stopped")).

Definition refresh_orchestrators (tree : ProjectNode) (skip_root : bool) : Run RefreshError W string :=
  let ensure (start_sessions : bool) : Run RefreshError W unit :=
    run_map_err RefreshOrchestrator
      (on_machine (ensure_orchestrator_tree env tree (co_socket_path options) (Some (co_config_path options))
                     (co_ax_bin options) start_sessions skip_root)) in
  if ro_restart opts then
    stopped ← destroy_orchestrator_sessions tree;
    _ ← ensure daemon_running;
    mret (stopped +:+ line "  tree: artifacts refreshed, running orchestrators restarted")
  else if ro_start_missing opts && daemon_running then
    _ ← ensure true;
    mret (line "  tree: artifacts refreshed, missing orchestrators started")
  else
    _ ← ensure false;
    mret (line "  tree: artifacts refreshed, sessions unchanged").

Definition reconcile_all (cfg : Config) (tree : ProjectNode) : Run RefreshError W string :=
  skip_root ← run_map_err RefreshOrchestrator (reconcile_root env (disable_root_orchestrator cfg));
  desired ← lift (map_err (fun e => RefreshReconcile (to_string e))
                    (build_desired_state_with_tree hash_text env cfg tree (co_socket_path options)
                       (co_config_path options) (negb skip_root)));
  report ← run_map_err (fun e => RefreshReconcile (to_string e))
             (on_machine (reconcile_desired_state env hash_text
                (mkReconciler (co_socket_path options) (co_config_path options) (co_ax_bin options)) desired
                (mkReconcileOptions daemon_running true)));
  mret (reconcile_report_text report).

Definition refresh_run : Run RefreshError W string :=
  cfg ← load_config env tree_fuel RefreshLoadConfig (co_config_path options);
  tree ← load_config_tree env tree_fuel RefreshLoadTree (co_config_path options);
  let head := line ("Config: " +:+ co_config_path options)
              +:+ line ("Daemon: " +:+ if daemon_running then "running" else "stopped") in
  if experimental_mcp_team_reconfigure cfg then
    text ← reconcile_all cfg tree; mret (head +:+ text)
  else
  ws_text ← refresh_workspaces (btree_to_list (workspaces cfg));
  skip_root ← run_map_err RefreshOrchestrator (reconcile_root env (disable_root_orchestrator cfg));
  orch_text ← refresh_orchestrators tree skip_root;
  mret (head +:+ newline +:+ line "Workspaces:" +:+ ws_text
        +:+ newline +:+ line "Orchestrators:" +:+ orch_text
        +:+ (if ro_restart opts then "" else
             newline +:+ line "Note: running sessions keep their current agent process. Use --restart to apply runtime changes immediately.")).
End refresh.

(** ** init.rs: registration and scaffolding *)

(** The components of [path] below [base]. *)
Fixpoint strip_components (base path : list string) : option (list string) :=
  match base, path with
  | [], path => Some path
  | b :: base, p :: path => if String.eqb b p then strip_components base path else None
  | _ :: _, [] => None
  end.
Definition pathdiff_rel (base path : string) : option string :=
  rest ← strip_components (components base) (components path);
  Some (match rest with [] => "." | _ => String.concat "/" rest end).

(** The first ten lines as far as they are comments. *)
Fixpoint axis_in (ls : list string) : option string :=
  match ls with
  | [] => None
  | l :: ls =>
      body ← strip_prefix l "#";
      match strip_prefix (to_ascii_lowercase (trim body)) "axis:" with
      | Some rest => head (split_whitespace rest)
      | None => axis_in ls
      end
  end.
Definition extract_axis_comment (yaml : string) : option string := axis_in (take 10 (lines yaml)).

(** [child_name], [child_name-2], [child_name-3], ... *)
Fixpoint unique_key (fuel : nat) (taken : gmap string Child) (child_name : string) (i : Z) (key : string)
    : option string :=
  match fuel with
  | O => None
  | S fuel => if bool_decide (is_Some (taken !! key))
              then unique_key fuel taken child_name (i + 1) (child_name +:+ "-" +:+ show_Z i)
              else Some key
  end.

Section init.
Context {F : Type} `{!FileSystem F} `{!ArtifactFs F} `{!PathExists F} `{!YamlCodec Config} `{!TextOps}.

Definition find_config_in_dir (fs : F) (dir : string) : option string :=
  config_path_in_dir (path_exists fs) dir.
(** [config_path_conflict] has the same body. *)
Definition config_path_conflict (fs : F) (dir : string) : option string := find_config_in_dir fs dir.

(** The loop over the ancestors: the last hit is the topmost. *)
Fixpoint topmost_config (fs : F) (fuel : nat) (cur : option string) (top : option (string * string))
    : option (option (string * string)) :=
  match fuel with
  | O => None
  | S fuel =>
      match cur with
      | None => Some top
      | Some d =>
          let top := match find_config_in_dir fs d with Some path => Some (path, d) | None => top end in
          match parent d with
          | Some up => if decide (components up = components d) then Some top
                       else topmost_config fs fuel (Some up) top
          | None => topmost_config fs fuel None top
          end
      end
  end.

Definition child_dir_of (parent_dir : string) (entry : Child) : string :=
  if is_absolute (ch_dir entry) then ch_dir entry else join parent_dir (ch_dir entry).
Definition stale_children (fs : F) (parent_dir : string) (cfg : Config) : list (string * Child) :=
  List.filter (fun e => match find_config_in_dir fs (child_dir_of parent_dir e.2) with
                        | Some _ => false
                        | None => true
                        end) (btree_to_list (children cfg)).
Definition pruned_line (e : string * Child) : string :=
  line ("Pruned stale child " +:+ debug_str e.1 +:+ " -> " +:+ ch_dir e.2).

Definition save_config (cfg : Config) (path : string) (fs : F) : result InitError F :=
  map_err InitSaveConfig (save cfg path fs).

(** Whether the child was added, the log and the files. *)
Definition add_child_to_config (parent_config_path parent_dir child_dir child_name : string) (fs : F)
    : result InitError (bool * string * F) :=
  cfg ← map_err InitSaveConfig (read_local fs parent_config_path);
  let rel_dir := default child_dir (pathdiff_rel parent_dir child_dir) in
  let stale := stale_children fs parent_dir cfg in
  let log := String.concat "" (pruned_line <$> stale) in
  let kids := foldl (fun m e => delete e.1 m) (children cfg) stale in
  if existsb (fun e => String.eqb (ch_dir e.2) rel_dir) (btree_to_list kids) then
    fs ← match stale with
         | [] => Ok fs
         | _ => save_config (cfg <| children := kids |>) parent_config_path fs
         end;
    Ok (false, log, fs)
  else
  let key := default child_name (unique_key (S (size kids)) kids child_name 2 child_name) in
  fs ← save_config (cfg <| children := <[key := default_child <| ch_dir := rel_dir |>]> kids |>)
         parent_config_path fs;
  Ok (true, log, fs).

(** The config the child was registered in, if it was not there before; a config in the
    home directory goes before the ancestors' ones. *)
Definition register_as_child_with_home (child_dir name : string) (home : option string) (fs : F)
    : result InitError (option string * string * F) :=
  let above := default None (topmost_config fs (S (length (bytes child_dir))) (parent child_dir) None) in
  let top := match home with
             | Some h => match find_config_in_dir fs h with Some path => Some (path, h) | None => above end
             | None => above
             end in
  match top with
  | None => Ok (None, "", fs)
  | Some (cfg_path, parent_dir) =>
      r ← add_child_to_config cfg_path parent_dir child_dir name fs;
      let '(added, log, fs) := r in
      Ok (if (added : bool) then Some cfg_path else None, log, fs)
  end.

(** Whether the pattern was added. *)
Definition ensure_gitignore (dir pattern : string) : Act IoError F bool := fun fs =>
  let gitignore := join dir ".gitignore" in
  let add (data : string) : result IoError bool * F :=
    if existsb (fun l => String.eqb (trim l) pattern) (lines data) then (Ok false, fs) else
    let content := data +:+ (if is_empty data || ends_with data newline then "" else newline)
                   +:+ pattern +:+ newline in
    match fs_write fs gitignore content with
    | Ok fs => (Ok true, fs)
    | Err e => (Err e, fs)
    end in
  match fs_read_to_string fs gitignore with
  | Ok text => add text
  | Err IoNotFound => if path_exists fs (join dir ".git") then add "" else (Ok false, fs)
  | Err e => (Err e, fs)
  end.
End init.

Section scaffold.
Context {W F T : Type} `{!LaunchHost W F} `{!CliHost W T} `{!Socket W} `{!WatchWire}.
Context `{!FileSystem F} `{!ArtifactFs F} `{!PathExists F} `{!CodexHome F} `{!Prompts F}.
Context `{!Tmux T} `{!TextOps} `{!SysText}.
Context `{!JsonCodec McpConfig} `{!YamlCodec Config} `{!YamlCodec ManagedOverlay}.
Context (env : Env) (current_exe : string) (lines_fuel tree_fuel : nat).

Definition text_error {E A} `{!Display E} (r : result E A) : result string A := map_err to_string r.

(** The new child is announced to the root orchestrator; what goes wrong with the message
    is ignored. *)
Definition announce_child (socket_path root_name new_child_name : string) : Run string W unit :=
  let msg := "New sub-project `" +:+ new_child_name
             +:+ "` registered. Run list_agents/list_workspaces to see its workspaces and sub-orchestrator." in
  running ← observe (exists_session root_name);
  if negb running then mret tt else
  _ ← attempted (c ← cli_connect env lines_fuel socket_path "cli";
                 cli_send_message lines_fuel c root_name msg None);
  mret tt.

Definition refresh_orchestrator_tree (opts : InitOptions) (new_child_name : string) : Run string W unit :=
  dir ← lift (text_error (cwd env));
  found ← observe (fun w => mjoin (find_config_file (fs_is_file (host_files w)) (home env)
                                     (S (length (bytes dir))) dir));
  match found with
  | None => mret tt
  | Some cfg_path =>
      cfg ← load_config env tree_fuel (fun e => to_string e) cfg_path;
      tree ← load_config_tree env tree_fuel (fun e => to_string e) cfg_path;
      _ ← run_map_err to_string
            (on_machine (ensure_orchestrator_tree env tree (in_socket_path opts) (Some cfg_path) current_exe
                           (in_daemon_running opts) (disable_root_orchestrator cfg)));
      if in_daemon_running opts
      then announce_child (in_socket_path opts) (orchestrator_name (pn_prefix tree)) new_child_name
      else mret tt
  end.

(** What [run] does before it launches an agent: its text, and whether it goes on to
    launch one. *)
Definition run_reconfigure (opts : InitOptions) (path : string) : Run InitError W (string * bool) :=
  if in_global opts then throw InitReconfigureGlobalUnsupported else
  match in_axis opts with
  | AxisRole | AxisDomain => throw InitReconfigureAxisSwitchUnsupported
  | AxisAuto =>
      there ← observe (fun w => path_exists (host_files w) path);
      if negb there then throw (InitReconfigureMissingConfig path) else
      current_yaml ← (fun w => Some (map_err InitIo (fs_read_to_string (host_files w) path), w));
      let banner :=
        match extract_axis_comment current_yaml with
        | Some a => line ("Detected axis from existing config: `" +:+ a +:+ "` — preserving.")
        | None => line "No `# axis:` comment in existing config — treating as unlabelled; the reconfigure agent will infer from workspace names and record the inferred axis on rewrite."
        end in
      if in_no_setup opts
      then mret (banner +:+ line "--no-setup set; aborting before launching the reconfigure agent.", false)
      else mret (banner +:+ newline +:+ line ("Launching reconfigure agent (" +:+ in_runtime opts +:+ ")...")
                 +:+ line "The agent will read the current config, compare it to the repo, and rewrite workspaces in place."
                 +:+ newline, true)
  end.

(** Files only. *)
Definition on_init_files {A} (m : F -> result InitError (A * F)) : Run InitError W A := fun w =>
  match m (host_files w) with
  | Ok (a, fs) => Some (Ok a, host_put_files fs w)
  | Err e => Some (Err e, w)
  end.

Definition create_config (opts : InitOptions) (dir path project_name : string) : Run InitError W (string * bool) :=
  there ← observe (fun w => path_exists (host_files w) path);
  if there : bool then mret (line (path +:+ " already exists — skipping creation"), true) else
  conflict ← observe (fun w => if in_global opts then None else config_path_conflict (host_files w) dir);
  match conflict with
  | Some c => throw (InitLegacyConfigConflict c)
  | None =>
      _ ← on_init_files (fun fs =>
            fs ← save_config (default_for_runtime project_name (in_runtime opts)) path fs; Ok (tt, fs));
      mret (line ("Created " +:+ path), false)
  end.

Definition register_project (opts : InitOptions) (dir project_name : string) : Run InitError W string :=
  if in_global opts then mret "" else
  r ← on_init_files (fun fs => r ← register_as_child_with_home dir project_name (home env) fs;
                               Ok (r.1.1, r.1.2, r.2));
  let '(registered, log) := r in
  refreshed ← (if in_no_refresh opts then mret (line "note: orchestrator tree refresh skipped (--no-refresh)")
               else r ← attempted (refresh_orchestrator_tree opts project_name);
                    mret (match r with
                          | Ok _ => ""
                          | Err e => line ("note: orchestrator tree refresh skipped: " +:+ e)
                          end));
  mret (log +:+ match registered with
                | Some parent_path => line ("Registered as child of " +:+ parent_path)
                | None => ""
                end +:+ refreshed).

Definition ignore_mcp_json (opts : InitOptions) (dir : string) : Run InitError W string := fun w =>
  if in_global opts then Some (Ok "", w) else
  let '(r, fs) := ensure_gitignore dir ".mcp.json" (host_files w) in
  Some (map_err InitIo ((fun added => if (added : bool) then line "Added .mcp.json to .gitignore" else "") <$> r),
        host_put_files fs w).

Definition init_scaffold (opts : InitOptions) : Run InitError W (string * bool) :=
  dir ← lift (if in_global opts
              then match home env with Some h => Ok h | None => Err InitHomeDir end
              else map_err InitCwd (cwd env));
  let path := default_config_path dir in
  let project_name := if in_global opts then "global" else default "" (file_name dir) in
  if in_reconfigure opts then run_reconfigure opts path else
  created ← create_config opts dir path project_name;
  registered ← register_project opts dir project_name;
  ignored ← ignore_mcp_json opts dir;
  let out := created.1 +:+ registered +:+ ignored in
  if created.2 || in_no_setup opts
  then mret (out +:+ (if created.2 then "" else line "Edit it to define your workspaces, then run: ax up"), false)
  else mret (out +:+ newline +:+ line ("Launching setup agent (" +:+ in_runtime opts +:+ ")...")
             +:+ line "The agent will analyze your project and help define workspaces." +:+ newline, true).
End scaffold.

(** ** main.rs: one command *)

Section run.
Context {W F T : Type} `{!LaunchHost W F} `{!CliHost W T} `{!Socket W} `{!WatchWire}.
Context `{!FileSystem F} `{!ArtifactFs F} `{!LinkFs F} `{!PathExists F} `{!CodexHome F} `{!Prompts F} `{!AgentFs F}.
Context `{!Tmux T} `{!TextOps} `{!SysText} `{!TimeText} `{!PrettyJson} `{!AgentJson}.
Context `{!JsonCodec McpConfig} `{!JsonCodec HistoryEntry} `{!JsonCodec RuntimeState}.
Context `{!YamlCodec Config} `{!YamlCodec ManagedOverlay}.
Context (env : Env) (current_exe : string) (hash_text short_hash : string -> string).
Context (lines_fuel tree_fuel polls turns : nat).
(** [ax daemon start], [ax mcp-server], [ax top] and the setup agent. *)
Context (elsewhere : ParsedCommand -> Run CliError W Z).

Definition printed {E} (wrap : E -> CliError) (m : Run E W string) : Run CliError W Z :=
  body ← run_map_err wrap m; _ ← say_text body; mret 0%Z.
Definition silent {E} (wrap : E -> CliError) (m : Run E W unit) : Run CliError W Z :=
  _ ← run_map_err wrap m; mret 0%Z.
Definition with_daemon_state {E} (wrap : E -> CliError) (socket_path : string) (m : bool -> Run E W string)
    : Run CliError W Z :=
  state ← (fun w => Some (map_err CliDaemon (daemon_state socket_path w), w));
  printed wrap (m (is_running state)).

(** The status report is in the error type of its own text. *)
Definition run_status (socket_path : string) (config_path : option string) (running : bool) : Run StatusError W string :=
  fun w => render_status env lines_fuel (host_utc w) (host_files w) (cli_tmux w) tree_fuel socket_path config_path running w.

Definition lifecycle_done (action : LifecycleAction) : string :=
  match action with Start => "started" | Stop => "stopped" | Restart => "restarted" end.

Definition on_target {E A} (wrap : E -> CliError) (m : Run E (World F T) A) (text : A -> string)
    : Run CliError W Z :=
  a ← run_map_err wrap (on_machine_run m); _ ← say (text a); mret 0%Z.

(** The code of the process. *)
Definition run_command (command : ParsedCommand) : Run CliError W Z :=
  match command with
  | PHelp => _ ← say_text USAGE; mret 0%Z
  | PDaemon DaemonStop socket => silent CliDaemon (run_daemon_stop socket)
  | PDaemon DaemonStatusAction socket => silent CliDaemon (run_daemon_status socket)
  | PUp options => silent id (run_up env current_exe tree_fuel options)
  | PDown options => silent id (run_down env tree_fuel options)
  | PRootOrchestrator runtime passthrough options =>
      silent CliRootOrchestrator (run_root_orchestrator env current_exe tree_fuel runtime passthrough options)
  | PSend to message socket config => silent id (run_send env lines_fuel to message socket config)
  | PMessages from limit wait history timeout json socket =>
      silent CliMessages (run_messages env lines_fuel turns from limit wait history timeout json socket)
  | PLifecycle action target options =>
      on_target CliLifecycle
        (control_named_target env hash_text tree_fuel (co_socket_path options) (co_config_path options)
           (co_ax_bin options) target action)
        (fun resolved => lifecycle_done action +:+ " " +:+ debug_str (lt_name resolved))
  | PDispatch target sender fresh options =>
      on_target CliDispatch
        (dispatch_runnable_work_with_options env hash_text tree_fuel (co_socket_path options)
           (co_config_path options) (co_ax_bin options) target sender fresh)
        (fun _ => "dispatched " +:+ debug_str target +:+ " from " +:+ debug_str sender)
  | PRunAgent runtime workspace socket config fresh extra =>
      status ← run_map_err CliRunAgent
                 (run_with_options env short_hash lines_fuel polls runtime workspace socket current_exe config
                    (mkLaunchOptions extra fresh));
      mret (Z.land (default 1%Z status) 255)
  | PStatus socket config =>
      with_daemon_state (fun e => CliStatus (to_string (e : StatusError))) socket (run_status socket config)
  | PRefresh options opts =>
      with_daemon_state CliRefresh (co_socket_path options)
        (fun running => refresh_run env hash_text tree_fuel options running opts)
  | PTasks socket command =>
      fun w => printed CliTasks (tasks_run env lines_fuel (host_utc w) (host_files w) socket command) w
  | PWorkspaceCreate name dir options => printed CliWorkspace (create_workspace env options name dir)
  | PWorkspaceDestroy name options => printed CliWorkspace (destroy_workspace name)
  | PWorkspaceList socket config include_internal =>
      with_daemon_state CliWorkspace socket
        (fun running => render_list env lines_fuel tree_fuel socket config running include_internal)
  | PWorkspaceAttach name => silent CliWorkspace (attach name)
  | PWorkspaceInterrupt name => printed CliWorkspace (interrupt name)
  | PDaemon DaemonStart _ | PMcpServer _ _ _ | PWatch _ | PInit _ => elsewhere command
  end.

(** [run]: the current directory has to be known. *)
Definition cli_run (args : list string) (dir : string) : Run CliError W Z := fun w =>
  (command ← lift (map_err CliParse
     (parse_args (home env) dir current_exe (fs_is_file (host_files w)) (fs_read_to_string (host_files w))
        (fun signal pid => (cli_kill signal pid w).1) args));
   run_command command) w.
End run.
