(* ===== verification/CliFacts.v ===== *)
(** * The command line on the commands ax writes itself.

    ax types ax commands: the managed sessions run [ax run-agent], the runtimes start
    [ax mcp-server], an absent daemon is started by [ax daemon start], and the preview of a
    recovery suggests [ax tasks] commands to the operator.  The grammar of [CliArgs] gives
    each of them the meaning its writer had in mind, and the task store carries the
    suggested ones out. *)

From Stdlib Require Import Ascii.
From stdpp Require Import prelude strings list gmap pretty.
From S2P Require Import Prelude RustStr Proto TaskHelpers TaskStore TaskEdits TaskMachine TaskEffects TaskPersist.
From S2P Require Import Act SessionManager Paths ConfigSchema ConfigTree Tmux Artifacts WorkspaceManager CodexFiles CodexFacts.
From S2P Require Import Dispatch ErrorText TuiData Agent CliArgs CliTasks CliRun RustText.

(** ** Numbers *)

Definition digit_step (acc : option Z) (a : ascii) : option Z := v ← acc; d ← digit a; Some (v * 10 + d)%Z.

Lemma digit_of_N (d : N) : (d < 10)%N -> digit (pretty_N_char d) = Some (Z.of_N d).
Proof.
  intros Hd. destruct d as [|p]; [done|]. do 4 (destruct p as [p|p|]; try done; try lia).
Qed.

Lemma fold_pretty_go x s :
  foldl digit_step (Some 0%Z) (bytes (pretty_N_go x s)) = foldl digit_step (Some (Z.of_N x)) (bytes s).
Proof.
  revert s. induction (N.lt_wf_0 x) as [x _ IH]. intros s.
  destruct (decide (x = 0)%N) as [->|Hx]; [done|].
  rewrite pretty_N_go_step by lia. rewrite IH by (apply N.div_lt; lia).
  cbn -[N.div N.modulo digit]. rewrite digit_of_N by (apply N.mod_lt; lia). cbn -[N.div N.modulo].
  do 2 f_equal. pose proof (N.div_mod x 10). lia.
Qed.

Lemma digits_value_pretty (x : N) : digits_value (bytes (pretty x)) = Some (Z.of_N x).
Proof.
  unfold pretty, pretty_N. destruct (decide (x = 0)%N) as [->|Hx]; [done|].
  assert (pretty_N_go x "" <> "") as Hne.
  { pose proof (pretty_N_visible x) as [Hv _]. unfold pretty, pretty_N in Hv.
    by destruct (decide (x = 0)%N). }
  unfold digits_value. destruct (bytes (pretty_N_go x "")) as [|a l] eqn:E.
  - by destruct (pretty_N_go x "").
  - rewrite <- E. exact (fold_pretty_go x "").
Qed.

Lemma digits_value_head a l v : digits_value (a :: l) = Some v -> is_Some (digit a).
Proof.
  cbn. destruct (digit a) as [d|]; [by eauto|]. cbn. intros Hv. exfalso.
  induction l as [|b l IH]; [done|exact (IH Hv)].
Qed.

Lemma pretty_nonneg z : (0 <= z)%Z -> pretty z = pretty (Z.to_N z).
Proof. by destruct z. Qed.

(** A non-negative number in range reads back. *)
Lemma parse_i64_show z : (0 <= z <= i64_max)%Z -> parse_i64 (show_Z z) = Some z.
Proof.
  intros Hz. unfold parse_i64, show_Z.
  rewrite pretty_nonneg by lia.
  pose proof (digits_value_pretty (Z.to_N z)) as Hv. rewrite Z2N.id in Hv by lia.
  destruct (bytes (pretty (Z.to_N z))) as [|a l] eqn:E; [done|].
  destruct (digits_value_head _ _ _ Hv) as [d Hd].
  rewrite decide_False by (intros ->; done). rewrite decide_False by (intros ->; done).
  rewrite Hv. cbn. unfold i64_min in *.
  by replace ((- 2 ^ 63 <=? z) && (z <=? i64_max))%Z with true by
    (symmetry; apply andb_true_iff; rewrite !Z.leb_le; lia).
Qed.

(** ** Words *)

Definition one_word (s : string) : Prop := sp ∉ bytes s.
Ltac literal_word := apply (bool_decide_unpack _); vm_compute; exact I.

Lemma split_on_cons l : exists p ps, split_on sp l = p :: ps.
Proof. induction l as [|a l (p & ps & E)]; cbn; [eauto|]. rewrite E. case_decide; eauto. Qed.
Lemma split_on_word l k :
  sp ∉ l -> split_on sp (l ++ k) = match split_on sp k with p :: ps => (l ++ p) :: ps | [] => [] end.
Proof.
  induction l as [|a l IH]; intros Hs.
  - cbn. by destruct (split_on_cons k) as (p & ps & ->).
  - apply not_elem_of_cons in Hs as [Ha Hl]. cbn -[sp]. rewrite IH by done.
    destruct (split_on_cons k) as (p & ps & ->). by rewrite decide_False by congruence.
Qed.
Lemma split_char_last s : one_word s -> split_char sp s = [s].
Proof.
  intros Hs. unfold split_char. rewrite <- (app_nil_r (bytes s)), split_on_word by done. cbn.
  by rewrite app_nil_r, of_bytes_bytes.
Qed.
Lemma split_char_word s r : one_word s -> split_char sp (s +:+ String sp r) = s :: split_char sp r.
Proof.
  intros Hs. unfold split_char. rewrite bytes_cat, split_on_word by done.
  change (bytes (String sp r)) with (sp :: bytes r). cbn [split_on].
  destruct (split_on_cons (bytes r)) as (p & ps & ->). destruct (decide (sp = sp)) as [_|]; [|done].
  cbn. by rewrite app_nil_r, of_bytes_bytes.
Qed.
Lemma show_one_word z : (0 <= z)%Z -> one_word (show_Z z).
Proof.
  intros Hz. unfold one_word, show_Z. rewrite pretty_nonneg by lia.
  destruct (pretty_N_visible (Z.to_N z)) as [_ Hg]. rewrite Forall_forall in Hg.
  intros Hin. apply Hg in Hin. unfold graphic in Hin. by vm_compute in Hin; destruct Hin.
Qed.

(** Parsing a literal vector: the tests on literal arguments compute. *)
Ltac parse_words :=
  repeat (progress cbn -[USAGE default_socket is_help is_flag trim parse_i64 show_Z]
          || match goal with
             | |- context [is_flag ?s] =>
                 let b := eval vm_compute in (is_flag s) in
                 match b with true => idtac | false => idtac end; change (is_flag s) with b
             | |- context [is_help ?s] =>
                 let b := eval vm_compute in (is_help s) in
                 match b with true => idtac | false => idtac end; change (is_help s) with b
             | |- context [trim ?s] =>
                 let t := eval vm_compute in (trim s) in change (trim s) with t
             end).

(** ** What a recovery suggests *)

Definition version_words (v : Z) : list string :=
  if (v <=? 0)%Z then [] else ["--expected-version"; show_Z v].
Definition version_value (v : Z) : option Z := if (v <=? 0)%Z then None else Some v.

Lemma words_of_id id v :
  one_word id -> split_char sp (id +:+ task_expected_version_arg v) = id :: version_words v.
Proof.
  intros Hid. unfold task_expected_version_arg, version_words. destruct (Z.leb_spec v 0).
  - replace (id +:+ "") with id; [by apply split_char_last|].
    apply bytes_inj. by rewrite bytes_cat, app_nil_r.
  - etrans; [exact (split_char_word id ("--expected-version " +:+ show_Z v) Hid)|]. f_equal.
    etrans; [exact (split_char_word "--expected-version" (show_Z v) ltac:(literal_word))|]. f_equal.
    apply split_char_last, show_one_word. lia.
Qed.
Lemma words_of_suggestion verb id rest ws :
  one_word verb -> split_char sp (id +:+ rest) = ws ->
  split_char sp ("ax tasks " +:+ verb +:+ String sp (id +:+ rest)) = ["ax"; "tasks"; verb] ++ ws.
Proof.
  intros Hv <-. cbn [app].
  etrans; [exact (split_char_word "ax" ("tasks " +:+ verb +:+ String sp (id +:+ rest)) ltac:(literal_word))|].
  f_equal. etrans; [exact (split_char_word "tasks" (verb +:+ String sp (id +:+ rest)) ltac:(literal_word))|].
  f_equal. by rewrite split_char_word.
Qed.

Section recovery.
Context `{!TextOps} `{!JsonCodec (list Task)} `{!TimeText}.
Context (home : option string) (cwd current_exe : string) (is_file : string -> bool).
Context (read_to_string : string -> result IoError string) (kill : string -> Z -> result IoError Output).
Let parse := parse_args home cwd current_exe is_file read_to_string kill.

Definition not_refused {A} (r : result TaskStoreError A) : Prop :=
  match r with Ok _ => True | Err e => is_persist_error e = true end.

(** What the daemon's handlers ask of the store for a command of the operator, and what has
    to become of the task.  Only the writing of the file can fail. *)
Definition carried_out (command : TasksCommand) (task : Task) (now : Z) (fault : option string)
    (st : TaskStore) : Prop :=
  let becomes (id : string) (r : result TaskStoreError Task * TaskStore) (P : Task -> Prop) :=
    not_refused r.1 /\ exists t, inner r.2 !! id = Some t /\ P t in
  match command with
  | TasksCancel id reason v =>
      becomes id (cancel id reason CLI_INBOX_WORKSPACE v now fault st) (fun t => t_status t = Cancelled)
  | TasksRemove id reason v =>
      becomes id (remove id reason CLI_INBOX_WORKSPACE v now fault st)
        (fun t => t_removed_at t = Some now)
  | TasksRetry id note v =>
      get_for_intervention id CLI_INBOX_WORKSPACE v st = Ok task
      /\ becomes id (retry id note CLI_INBOX_WORKSPACE v now fault st) (fun t => t_status t = Pending)
  | TasksIntervene id action note v =>
      action ∈ ["wake"; "interrupt"] /\ get_for_intervention id CLI_INBOX_WORKSPACE v st = Ok task
  | _ => False
  end.

Lemma operator_controls task v allow :
  t_removed_at task = None -> v = version_value (t_version task) ->
  validate_task_control task CLI_INBOX_WORKSPACE v allow = Ok tt.
Proof.
  intros Hr ->. unfold validate_task_control, version_value. rewrite Hr. cbn.
  destruct (t_version task <=? 0)%Z; [done|]. by rewrite Z.eqb_refl.
Qed.

Lemma commit_keeps fault st id t p now (P : Task -> Prop) :
  (forall t', life t' = life t -> P t') ->
  let r := commit fault st (refresh_parent_rollup (<[id := t]> (inner st)) p now) id in
  not_refused r.1 /\ exists t', inner r.2 !! id = Some t' /\ P t'.
Proof.
  intros HP. cbv zeta.
  destruct (refresh_lookup_Some (<[id := t]> (inner st)) p now id t) as (t' & E & Hr & _);
    [apply lookup_insert_eq|].
  destruct (commit_outcome fault st _ id t' E) as [Hc Ho]. split.
  - unfold not_refused. destruct (commit _ _ _ _).1; [done|exact Ho].
  - exists t'. rewrite Hc, inner_persist. split; [exact E|]. apply HP. by eapply refreshed_life.
Qed.

(** The commands behind the suggestions for a task. *)
Definition suggested (task : Task) : list (list string * TasksCommand) :=
  let id := t_id task in
  let ws := version_words (t_version task) in
  let v := version_value (t_version task) in
  match t_status task with
  | Pending | InProgress =>
      [(["ax"; "tasks"; "intervene"; id; "--action"; "wake"] ++ ws, TasksIntervene id "wake" "" v);
       (["ax"; "tasks"; "intervene"; id; "--action"; "interrupt"] ++ ws, TasksIntervene id "interrupt" "" v);
       (["ax"; "tasks"; "retry"; id] ++ ws, TasksRetry id "" v);
       (["ax"; "tasks"; "cancel"; id] ++ ws, TasksCancel id "" v)]
  | Blocked => []
  | Completed | Failed | Cancelled => [(["ax"; "tasks"; "remove"; id] ++ ws, TasksRemove id "" v)]
  end.

Lemma suggested_parse task words c :
  is_flag (t_id task) = false -> in_i64 (t_version task) ->
  (words, c) ∈ suggested task -> parse words = Ok (PTasks (default_socket home) c).
Proof.
  intros Hid [_ Hv] Hin. unfold suggested, version_words, version_value in Hin.
  assert (is_help (t_id task) = false) as Hh.
  { unfold is_help. destruct (String.eqb_spec (t_id task) "-h") as [E|_]; [by rewrite E in Hid|].
    destruct (String.eqb_spec (t_id task) "--help") as [E|_]; [by rewrite E in Hid|done]. }
  destruct (Z.leb_spec (t_version task) 0) as [|Hpos];
    [|pose proof (parse_i64_show (t_version task) ltac:(lia)) as Hshow].
  all: destruct (t_status task); cbn [app] in Hin; apply list_elem_of_In in Hin; cbn [List.In] in Hin;
    destruct_or? Hin; try done; injection Hin as <- <-.
  all: unfold parse; parse_words; rewrite Hh, Hid; parse_words; rewrite ?Hshow; reflexivity.
Qed.

Lemma suggested_carried_out task words c now fault st :
  t_removed_at task = None -> inner st !! t_id task = Some task ->
  (words, c) ∈ suggested task -> carried_out c task now fault st.
Proof.
  intros Hr Hst Hin. unfold suggested in Hin.
  assert (forall allow, validate_task_control task CLI_INBOX_WORKSPACE (version_value (t_version task)) allow
                        = Ok tt) as Hok by (intros; by apply operator_controls).
  destruct (t_status task) eqn:Es; apply list_elem_of_In in Hin; cbn [List.In] in Hin; destruct_or? Hin; try done;
    injection Hin as <- <-; unfold carried_out, get_for_intervention, cancel, retry, remove;
    rewrite Hst, Hok, Es; rewrite ?Hr; cbn [is_terminal_status is_open_status negb is_some].
  all: try (split; [apply list_elem_of_In; cbn; tauto|reflexivity]).
  all: try (split; [reflexivity|]).
  all: apply commit_keeps; intros t' (_ & _ & Hrem & Hs & _)%life_eq.
  all: first [rewrite Hs; apply retried_task_facts | rewrite Hs; apply cancelled_task_facts
             | rewrite Hrem; apply removed_task_facts].
Qed.

Definition is_command (l : string) : bool := starts_with l "- ax ".

Lemma words_of_control verb task :
  one_word (t_id task) -> one_word verb ->
  split_char sp (drop_bytes 2 ("- ax tasks " +:+ verb +:+ String sp (t_id task +:+ task_expected_version_arg (t_version task))))
  = ["ax"; "tasks"; verb; t_id task] ++ version_words (t_version task).
Proof.
  intros Hid Hv.
  exact (words_of_suggestion verb (t_id task) _ _ Hv (words_of_id (t_id task) (t_version task) Hid)).
Qed.
Lemma words_of_action action task :
  one_word (t_id task) -> one_word action ->
  split_char sp (drop_bytes 2 ("- ax tasks intervene " +:+ t_id task +:+ " --action " +:+ action
                               +:+ task_expected_version_arg (t_version task)))
  = ["ax"; "tasks"; "intervene"; t_id task; "--action"; action] ++ version_words (t_version task).
Proof.
  intros Hid Ha.
  apply (words_of_suggestion "intervene" (t_id task)
           (" --action " +:+ action +:+ task_expected_version_arg (t_version task))
           (t_id task :: "--action" :: action :: version_words (t_version task))); [literal_word|].
  etrans; [exact (split_char_word (t_id task)
                    ("--action " +:+ action +:+ task_expected_version_arg (t_version task)) Hid)|].
  f_equal. etrans; [exact (split_char_word "--action"
                      (action +:+ task_expected_version_arg (t_version task)) ltac:(literal_word))|].
  f_equal. by apply words_of_id.
Qed.

Lemma preview_commands now task :
  one_word (t_id task) ->
  Forall (fun l => is_command l = true ->
                   t_removed_at task = None
                   /\ exists c, (split_char sp (drop_bytes 2 l), c) ∈ suggested task)
    (task_recovery_preview_lines now task).
Proof.
  intros Hid. unfold task_recovery_preview_lines.
  apply Forall_app; split; [by repeat constructor|].
  destruct (t_removed_at task) eqn:Er.
  { unfold unless_empty, when_line. apply Forall_app; split; [by repeat constructor|].
    apply Forall_app; split; [by case_match; repeat constructor|by repeat constructor]. }
  apply Forall_app; split.
  { destruct (t_stale_info task); [|constructor]. unfold signal_lines, unless_empty, when_line.
    repeat (apply Forall_app; split); by repeat case_match; repeat constructor. }
  apply Forall_app; split; [by repeat constructor|].
  unfold next_steps, suggested.
  pose proof (words_of_control "retry" task Hid ltac:(literal_word)) as Hr.
  pose proof (words_of_control "cancel" task Hid ltac:(literal_word)) as Hc.
  pose proof (words_of_control "remove" task Hid ltac:(literal_word)) as Hm.
  pose proof (words_of_action "wake" task Hid ltac:(literal_word)) as Hw.
  pose proof (words_of_action "interrupt" task Hid ltac:(literal_word)) as Hi.
  cbn [app] in *.
  destruct (t_status task); repeat (apply Forall_cons; split); try apply Forall_nil; try done;
    intros _; (split; [done|]); eexists; apply list_elem_of_In; cbn [List.In];
    first [left; f_equal; symmetry; first [exact Hw|exact Hm]
          |right; left; f_equal; symmetry; exact Hi
          |right; right; left; f_equal; symmetry; exact Hr
          |right; right; right; left; f_equal; symmetry; exact Hc].
Qed.

(** C15: Every command the preview of a recovery suggests, typed as the words of a line, parses to
    a command on that task, and the store carries that command out for the operator: what
    the preview says can be done can be done, at the version it was printed for.  Only the
    writing of the tasks file can fail. *)
Theorem recovery_suggestions_work now now' fault st task l :
  one_word (t_id task) -> is_flag (t_id task) = false -> in_i64 (t_version task) ->
  inner st !! t_id task = Some task ->
  List.In l (task_recovery_preview_lines now task) -> is_command l = true ->
  exists command,
    parse_args home cwd current_exe is_file read_to_string kill (split_char sp (drop_bytes 2 l))
    = Ok (PTasks (default_socket home) command)
    /\ carried_out command task now' fault st.
Proof.
  intros Hw Hid Hv Hst Hl Hc. pose proof (preview_commands now task Hw) as Hall.
  rewrite Forall_forall in Hall. apply list_elem_of_In in Hl.
  destruct (Hall l Hl Hc) as (Hr & c & Hs). exists c. split.
  - by eapply suggested_parse.
  - by eapply suggested_carried_out.
Qed.
End recovery.

(** ** The commands ax starts *)

Lemma expand_plain home p : starts_with p "~" = false -> expand_socket_path home p = p.
Proof.
  intros Hp. unfold expand_socket_path. destruct (String.eqb_spec p "~") as [->|_]; [done|].
  destruct (strip_prefix p "~/") as [r|] eqn:E; [|done].
  apply strip_prefix_Some in E as ->. done.
Qed.

Section self_commands.
Context `{!TextOps} (home : option string) (cwd current_exe : string) (is_file : string -> bool).
Context (read_to_string : string -> result IoError string) (kill : string -> Z -> result IoError Output).
Let parse := parse_args home cwd current_exe is_file read_to_string kill.

(** C16: The four commands ax hands to tmux, to the configurations of the runtimes and to the
    operating system mean, to ax itself, what they were made from: the workspace, the socket,
    the config, the runtime and, behind [--], the arguments of the user, whatever these
    look like.  The socket is a path without [~] and the config an absolute path. *)
Theorem ax_understands_its_commands ax_bin rt workspace sock cfg fresh passthrough :
  starts_with sock "~" = false -> is_absolute cfg = true ->
  parse_args home cwd current_exe is_file read_to_string kill
    (managed_run_agent_args ax_bin rt workspace sock (Some cfg) fresh)
  = Ok (PRunAgent (as_str rt) workspace sock (Some cfg) fresh [])
  /\ parse_args home cwd current_exe is_file read_to_string kill
       (managed_run_agent_args ax_bin rt workspace sock None fresh)
     = Ok (PRunAgent (as_str rt) workspace sock None fresh [])
  /\ parse_args home cwd current_exe is_file read_to_string kill
       (root_orchestrator_args ax_bin rt workspace sock cfg passthrough)
     = Ok (PRunAgent (as_str rt) workspace sock (Some cfg) false passthrough)
  /\ parse_args home cwd current_exe is_file read_to_string kill
       (ax_bin :: mcp_server_args workspace sock (Some cfg))
     = Ok (PMcpServer workspace sock (Some cfg))
  /\ parse_args home cwd current_exe is_file read_to_string kill (ax_bin :: daemon_start_args sock)
     = Ok (PDaemon DaemonStart sock).
Proof.
  intros Hs Hc.
  assert (is_empty cfg = false) as He by (destruct cfg; [by vm_compute in Hc|done]).
  split_and!; [destruct fresh|destruct fresh| | |].
  all: unfold managed_run_agent_args, root_orchestrator_args, mcp_server_args, daemon_start_args; rewrite ?He.
  5: destruct passthrough.
  all: cbn -[USAGE default_socket expand_socket_path is_absolute].
  all: rewrite ?(expand_plain home sock Hs), ?Hc; reflexivity.
Qed.

(** ** Sending *)

Lemma scan_send_words socket config to parts words :
  scan (send_step home cwd) (mkSendArgs socket config (Some to) parts) words
  = Ok (Some (mkSendArgs socket config (Some to) (parts ++ words))).
Proof.
  revert parts. induction words as [|w words IH]; intros parts; [by rewrite app_nil_r|].
  etrans; [exact (IH (parts ++ [w]))|]. by rewrite <- app_assoc.
Qed.

(** [ax send]: behind the target every argument is a word of the message, also one that
    looks like a flag; the message is the words joined by blanks, and it goes to the
    target.  The inbox of the command line is refused as a target. *)
Theorem send_takes_the_words_verbatim to words cfg :
  is_flag to = false -> words <> [] ->
  resolve_config_path home cwd is_file None = Ok cfg ->
  parse_args home cwd current_exe is_file read_to_string kill ("ax" :: "send" :: to :: words)
  = match reject_cli_inbox_send_target to with
    | Ok _ => Ok (PSend to (String.concat " " words) (default_socket home) cfg)
    | Err e => Err e
    end.
Proof.
  intros Hf Hw Hc. unfold parse_args, parse_send_args.
  cbn -[USAGE default_socket send_step scan reject_cli_inbox_send_target resolve_config_path].
  assert (is_help to = false /\ String.eqb to "--socket" = false /\ String.eqb to "--config" = false)
    as (Hh & H1 & H2).
  { unfold is_help. destruct (String.eqb_spec to "-h"), (String.eqb_spec to "--help"),
      (String.eqb_spec to "--socket"), (String.eqb_spec to "--config"); subst; done. }
  cbn [scan]. unfold send_step at 1. cbn [sa_to]. rewrite Hh, H1, H2, Hf.
  rewrite scan_send_words. cbn [command_of sa_to sa_message_parts app].
  change (Ok to ≫= ?f) with (f to). cbv beta.
  destruct (reject_cli_inbox_send_target to) as [?|e]; [|reflexivity].
  destruct words as [|w words]; [done|]. cbn [mbind result_bind sa_config sa_socket].
  by rewrite Hc.
Qed.
End self_commands.

(** ** ax workspace list *)

Section listing.
Context (sessions : list SessionInfo) (workspaces : Infos) (descriptions : gmap string string).
Context (desired : gset string) (enabled include_internal : bool).

Definition hidden (name : string) : bool :=
  negb include_internal && is_internal_name name && negb (bool_decide (is_Some (session_map sessions !! name))).
Definition listed_row (name : string) : WorkspaceListRow :=
  let row := list_row_of sessions workspaces descriptions desired name in
  if is_internal_daemon_only_row row then marked_internal row else row.

Lemma session_map_dom s0 m n :
  n ∈ dom (foldl (fun m s => <[si_workspace s := s]> m) (m : gmap string SessionInfo) s0)
  <-> n ∈ dom m \/ exists s, List.In s s0 /\ si_workspace s = n.
Proof.
  revert m. induction s0 as [|s s0 IH]; intros m; cbn [foldl].
  - split; [by left|]. intros [?|(? & [] & _)]. done.
  - rewrite IH, dom_insert, elem_of_union, elem_of_singleton. cbn [List.In]. naive_solver.
Qed.

Lemma internal_row name :
  is_internal_daemon_only_row (list_row_of sessions workspaces descriptions desired name)
  = is_internal_name name && negb (bool_decide (is_Some (session_map sessions !! name))).
Proof.
  unfold is_internal_daemon_only_row, list_row_of. cbn [lr_tmux lr_name].
  destruct (session_map sessions !! name) as [s|].
  - rewrite bool_decide_eq_true_2 by eauto. rewrite andb_false_r. unfold attached_word.
    by destruct (si_attached s).
  - rewrite bool_decide_eq_false_2 by (intros [? [=]]). by rewrite andb_true_r.
Qed.

Lemma rows_fold names rows hid :
  foldl (add_list_row sessions workspaces descriptions desired include_internal)
    (mkWorkspaceListView enabled rows hid) names
  = mkWorkspaceListView enabled (rows ++ (listed_row <$> List.filter (fun n => negb (hidden n)) names))
      (hid ++ List.filter hidden names).
Proof.
  revert rows hid. induction names as [|n names IH]; intros rows hid; [by rewrite !app_nil_r|].
  assert (listed_row n
          = if is_internal_name n && negb (bool_decide (is_Some (session_map sessions !! n)))
            then marked_internal (list_row_of sessions workspaces descriptions desired n)
            else list_row_of sessions workspaces descriptions desired n) as Hl
    by (unfold listed_row; by rewrite internal_row).
  cbn [foldl List.filter]. unfold add_list_row at 2. rewrite internal_row.
  assert (hidden n = negb include_internal
                     && (is_internal_name n && negb (bool_decide (is_Some (session_map sessions !! n))))) as Hh
    by (unfold hidden; by rewrite andb_assoc).
  rewrite Hh.
  destruct (is_internal_name n && negb (bool_decide (is_Some (session_map sessions !! n)))), include_internal;
    cbn [negb andb lv_reconfigure_enabled lv_rows lv_hidden_internal]; rewrite IH;
    cbn [fmap list_fmap]; rewrite ?Hl, <- ?app_assoc; reflexivity.
Qed.

(** [ax workspace list] shows every workspace once: the names that have a session, are
    known to the daemon or are configured, in the order of their bytes; each has its row or,
    unless [--internal] is given, is counted among the hidden ones, and hidden are only
    internal identities without a session. *)
Theorem list_shows_every_workspace :
  let view := build_workspace_list_rows sessions workspaces descriptions desired enabled include_internal in
  let names := row_names sessions workspaces desired in
  NoDup names
  /\ (forall n, n ∈ names <-> (exists s, List.In s sessions /\ si_workspace s = n)
                             \/ is_Some (workspaces !! n) \/ n ∈ desired)
  /\ lr_name <$> lv_rows view = List.filter (fun n => negb (hidden n)) names
  /\ lv_hidden_internal view = List.filter hidden names
  /\ Forall (fun n => is_internal_name n = true /\ ~ exists s, List.In s sessions /\ si_workspace s = n)
       (lv_hidden_internal view).
Proof.
  cbv zeta. unfold build_workspace_list_rows. rewrite rows_fold.
  cbn [lv_rows lv_hidden_internal app]. split_and!.
  - apply btree_keys_NoDup.
  - intros n. unfold row_names. rewrite elem_of_btree_keys. unfold is_Some.
    setoid_rewrite lookup_set_to_map; [|done].
    assert (n ∈ dom (session_map sessions) <-> exists s, List.In s sessions /\ si_workspace s = n) as Hs
      by (unfold session_map; rewrite session_map_dom, dom_empty; set_solver).
    pose proof (elem_of_dom workspaces n) as Hw. unfold is_Some in Hw. rewrite <- Hs, <- Hw.
    set_unfold. naive_solver.
  - rewrite <- list_fmap_compose. etrans; [|apply list_fmap_id]. apply list_fmap_ext. intros i n _.
    unfold compose, listed_row. by case_match.
  - done.
  - apply Forall_forall. intros n Hn%list_elem_of_In%filter_In. destruct Hn as [_ Hh].
    unfold hidden in Hh. apply andb_true_iff in Hh as [[_ Hi]%andb_true_iff Hs]. split; [done|].
    intros Hex. apply negb_true_iff, bool_decide_eq_false in Hs. apply Hs, elem_of_dom.
    unfold session_map. apply session_map_dom. by right.
Qed.
End listing.

(** ** .gitignore *)

Lemma lines_of_app d k : lines_of (d ++ nl :: k) = lines_of (d ++ [nl]) ++ lines_of k.
Proof.
  induction d as [|a d IH]; [done|]. cbn [app lines_of].
  destruct (decide (a = nl)); [by rewrite IH|].
  assert (forall k', head (d ++ nl :: k') = head (d ++ [nl])) as Hh by (by destruct d).
  rewrite Hh. destruct (decide _); [exact IH|]. rewrite IH.
  assert (lines_of (d ++ [nl]) <> []) as Hne.
  { destruct d as [|b d]; [done|]. cbn [app lines_of]. destruct (decide (b = nl)); [done|].
    destruct (decide _) as [[_ Hn]|]; [|by destruct (lines_of (d ++ [nl]))].
    destruct d as [|c d]; [done|]. cbn in Hn. injection Hn as ->. done. }
  destruct (lines_of (d ++ [nl])) eqn:E; [contradiction|reflexivity].
Qed.

(** A text that is empty or ends a line. *)
Definition whole_lines (s : string) : Prop := s = "" \/ exists d, bytes s = d ++ [nl].
Lemma lines_app s t : whole_lines s -> lines (s +:+ t) = lines s ++ lines t.
Proof.
  unfold lines. rewrite bytes_cat. intros [->|[d ->]]; [done|].
  rewrite <- fmap_app, <- lines_of_app, <- app_assoc. reflexivity.
Qed.
Lemma lines_word p : visible p -> lines (p +:+ newline) = [p].
Proof.
  intros [_ Hp]. unfold lines. rewrite bytes_cat. change (bytes newline) with [nl].
  rewrite lines_of_row by (eapply Forall_impl; [exact Hp|by left]). cbn. by rewrite of_bytes_bytes.
Qed.
Lemma gap_whole data :
  whole_lines (data +:+ (if is_empty data || ends_with data newline then "" else newline)).
Proof.
  unfold whole_lines. destruct (is_empty data) eqn:He; [apply is_empty_true in He as ->; by left|].
  right. cbn [orb]. rewrite bytes_cat. destruct (ends_with data newline) eqn:Hd; [|by eexists].
  cbn [bytes]. rewrite app_nil_r. unfold ends_with in Hd.
  apply starts_with_spec in Hd as [r Hr]. apply (f_equal bytes) in Hr.
  rewrite bytes_cat, !bytes_of_bytes in Hr. change (rev (bytes newline)) with [nl] in Hr.
  apply (f_equal (@rev _)) in Hr. rewrite rev_involutive in Hr. exists (rev (bytes r)).
  rewrite Hr. reflexivity.
Qed.

Section gitignore.
Context {F : Type} `{!FileSystem F} `{!ArtifactFs F} `{!ArtifactFsOk F} `{!PathExists F}.

Lemma listed_is_settled dir pattern data (fs : F) :
  fs_read_to_string fs (join dir ".gitignore") = Ok data ->
  existsb (fun l => String.eqb (trim l) pattern) (lines data) = true ->
  ensure_gitignore dir pattern fs = (Ok false, fs).
Proof. intros Hr He. unfold ensure_gitignore. by rewrite Hr, He. Qed.

Lemma extended dir pattern data (fs fs' : F) added :
  visible pattern -> trim pattern = pattern ->
  fs_read_to_string fs (join dir ".gitignore") = Ok data
  \/ fs_read_to_string fs (join dir ".gitignore") = Err IoNotFound /\ data = "" ->
  existsb (fun l => String.eqb (trim l) pattern) (lines data) = false ->
  match fs_write fs (join dir ".gitignore")
          (data +:+ (if is_empty data || ends_with data newline then "" else newline) +:+ pattern +:+ newline) with
  | Ok fs => (Ok true, fs)
  | Err e => (Err e, fs)
  end = (Ok added, fs') ->
  ensure_gitignore dir pattern fs' = (Ok false, fs') /\ added = true
  /\ exists old gap,
       (fs_read_to_string fs (join dir ".gitignore") = Ok old
        \/ fs_read_to_string fs (join dir ".gitignore") = Err IoNotFound /\ old = "")
       /\ fs_read_to_string fs' (join dir ".gitignore") = Ok (old +:+ gap +:+ pattern +:+ newline)
       /\ ~ List.In pattern (trim <$> lines old)
       /\ lines (old +:+ gap +:+ pattern +:+ newline) = lines (old +:+ gap) ++ [pattern].
Proof.
  intros Hv Ht Hold Hno Hrun.
  destruct (fs_write _ _ _) as [fs1|] eqn:Hw; [|done]. injection Hrun as <- <-.
  apply fs_read_to_string_write in Hw.
  set (gap := if is_empty data || ends_with data newline then "" else newline) in *.
  assert (lines (data +:+ gap +:+ pattern +:+ newline) = lines (data +:+ gap) ++ [pattern]) as Hl.
  { rewrite <- (lines_word pattern Hv), <- lines_app by apply gap_whole. f_equal.
    apply bytes_inj. by rewrite !bytes_cat, app_assoc. }
  split; [|split; [done|]].
  - eapply listed_is_settled; [exact Hw|]. rewrite Hl, existsb_app. cbn [existsb].
    by rewrite Ht, String.eqb_refl, orb_true_r.
  - exists data, gap. split_and!; try done. intros Hin. apply list_elem_of_In, list_elem_of_fmap in Hin.
    destruct Hin as (l & Hp & Hin%list_elem_of_In).
    assert (existsb (fun l => String.eqb (trim l) pattern) (lines data) = true) as Ht'; [|congruence].
    apply existsb_exists. exists l. split; [done|]. by rewrite <- Hp, String.eqb_refl.
Qed.

(** [ax init] adds [.mcp.json] to [.gitignore] at most once: it adds a line of its own
    behind the text that was there, of which nothing is lost, and only if no line says it
    yet; a second run changes nothing. *)
Theorem gitignore_is_extended_once dir pattern (fs fs' : F) added :
  visible pattern -> trim pattern = pattern ->
  ensure_gitignore dir pattern fs = (Ok added, fs') ->
  ensure_gitignore dir pattern fs' = (Ok false, fs')
  /\ if added
     then exists old gap,
       (fs_read_to_string fs (join dir ".gitignore") = Ok old
        \/ fs_read_to_string fs (join dir ".gitignore") = Err IoNotFound /\ old = "")
       /\ fs_read_to_string fs' (join dir ".gitignore") = Ok (old +:+ gap +:+ pattern +:+ newline)
       /\ ~ List.In pattern (trim <$> lines old)
       /\ lines (old +:+ gap +:+ pattern +:+ newline) = lines (old +:+ gap) ++ [pattern]
     else fs' = fs.
Proof.
  intros Hv Ht Hrun. unfold ensure_gitignore in Hrun.
  destruct (fs_read_to_string fs (join dir ".gitignore")) as [data|e] eqn:Hr.
  - destruct (existsb _ _) eqn:He; [injection Hrun as <- <-; split; [by eapply listed_is_settled|done]|].
    eapply (extended dir pattern data) in Hrun as (H1 & -> & H2); try done; [|by left].
    rewrite Hr in H2. by split.
  - destruct e; try discriminate Hrun. destruct (path_exists fs (join dir ".git")) eqn:Hg.
    + eapply (extended dir pattern "") in Hrun as (H1 & -> & H2); try done; [|by right].
      rewrite Hr in H2. by split.
    + injection Hrun as <- <-. split; [|done]. unfold ensure_gitignore. by rewrite Hr, Hg.
Qed.
End gitignore.

(** ** Paths of children *)

Lemma split_slash_app l r : split_slash (l ++ slash :: r) = split_slash l ++ split_slash r.
Proof.
  induction l as [|a l IH]; [cbn [app split_slash]; by rewrite decide_True|].
  cbn [app split_slash]. destruct (decide (a = slash)); rewrite IH; [done|].
  destruct (split_slash l) as [|c cs] eqn:E; [|done]. exfalso.
  destruct l as [|b l]; [done|]. cbn [split_slash] in E. case_decide; [done|]. by destruct (split_slash l).
Qed.
Lemma normal_components_slash p r :
  normal_components (p +:+ "/" +:+ r) = normal_components p ++ normal_components r.
Proof.
  unfold normal_components, raw_components. rewrite !bytes_cat.
  change (bytes "/" ++ bytes r) with (slash :: bytes r).
  by rewrite split_slash_app, fmap_app, List.filter_app.
Qed.
Lemma normal_components_join p r :
  p <> "" -> is_absolute r = false -> normal_components (join p r) = normal_components p ++ normal_components r.
Proof.
  intros Hp Hr. unfold join. rewrite Hr. apply is_empty_false in Hp. rewrite Hp.
  destruct (ends_with p "/") eqn:E; [|apply normal_components_slash].
  apply ends_with_slash in E as [l E]. set (q := of_bytes l).
  assert (p = q +:+ "/" +:+ "") as -> by (apply bytes_inj; unfold q; by rewrite E, bytes_cat, bytes_of_bytes).
  replace ((q +:+ "/" +:+ "") +:+ r) with (q +:+ "/" +:+ r)
    by (apply bytes_inj; by rewrite !bytes_cat, app_nil_r, <- app_assoc).
  rewrite !normal_components_slash. by rewrite app_nil_r.
Qed.

Lemma is_absolute_front c t : c <> "" -> is_absolute (c +:+ t) = is_absolute c.
Proof.
  destruct c as [|a c]; [done|]. intros _. unfold is_absolute. apply eq_iff_eq_true.
  rewrite !starts_with_spec. split; intros [r Hr].
  - change (String a (c +:+ t) = String slash r) in Hr. injection Hr as -> _. by exists c.
  - change (String a c = String slash r) in Hr. injection Hr as -> _. by exists (c +:+ t).
Qed.

Definition plain_name (c : string) : Prop := name_ok c /\ c <> ".".
Lemma normal_components_name c : plain_name c -> normal_components c = [c].
Proof.
  intros [[Hne Hs] Hd]. unfold normal_components, raw_components. rewrite split_slash_end by done.
  cbn. rewrite of_bytes_bytes. unfold kept. apply is_empty_false in Hne. rewrite Hne.
  by destruct (String.eqb_spec c ".").
Qed.
Lemma plain_relative c : plain_name c -> is_absolute c = false.
Proof.
  intros [[_ Hs] _]. unfold is_absolute. destruct (starts_with c "/") eqn:E; [|done].
  apply starts_with_spec in E as [r ->]. exfalso. apply Hs. rewrite bytes_cat. by left.
Qed.
Lemma concat_names names :
  Forall plain_name names -> names <> [] ->
  normal_components (String.concat "/" names) = names /\ is_absolute (String.concat "/" names) = false.
Proof.
  intros Hn Hne. destruct names as [|c names]; [done|]. clear Hne.
  apply Forall_cons in Hn as [Hc Hn]. revert c Hc. induction Hn as [|d names Hd Hn IH]; intros c Hc.
  - split; [by apply normal_components_name|by apply plain_relative].
  - destruct (IH d Hd) as [IH1 _]. change (String.concat "/" (c :: d :: names)) with
      (c +:+ "/" +:+ String.concat "/" (d :: names)). split.
    + by rewrite normal_components_slash, normal_components_name, IH1.
    + rewrite is_absolute_front by apply Hc. by apply plain_relative.
Qed.

Lemma strip_components_Some base path rest :
  strip_components base path = Some rest -> path = base ++ rest.
Proof.
  revert path. induction base as [|b base IH]; intros path; [by intros [= ->]|].
  destruct path as [|p path]; cbn; [done|]. destruct (String.eqb_spec b p) as [->|]; [|done].
  intros H%IH. by rewrite H.
Qed.

(** The relative path of [pathdiff_rel] leads back. *)
Lemma pathdiff_leads_back base path rel :
  is_absolute base = true -> is_absolute path = true -> pathdiff_rel base path = Some rel ->
  is_absolute rel = false /\ components (join base rel) = components path.
Proof.
  intros Hb Hp. unfold pathdiff_rel. intros Hd. apply bind_Some in Hd as (rest & Hs & [= <-]).
  apply strip_components_Some in Hs. unfold components in Hs. rewrite Hb, Hp in Hs.
  injection Hs as Hs. pose proof (normal_components_ok path) as Hok. rewrite Hs in Hok.
  apply Forall_app in Hok as [_ Hok].
  assert (base <> "") as Hne by (by intros ->).
  assert (forall r, is_absolute r = false -> normal_components r = rest ->
                    components (join base r) = components path) as Hjoin.
  { intros r Hr Hn. unfold components. rewrite Hp.
    assert (is_absolute (join base r) = true) as ->.
    { unfold join. rewrite Hr. apply is_empty_false in Hne as He. rewrite He.
      destruct (ends_with _ _); by rewrite is_absolute_front. }
    by rewrite normal_components_join, Hn, Hs. }
  destruct rest as [|c rest]; [split; [done|]; by apply Hjoin|].
  destruct (concat_names (c :: rest) Hok) as [Hc Ha]; [done|]. split; [done|]. by apply Hjoin.
Qed.

(** ** Registering a project *)

Lemma unique_key_step taken name f i key :
  unique_key (S f) taken name i key
  = if bool_decide (is_Some (taken !! key)) then unique_key f taken name (i + 1) (name +:+ "-" +:+ show_Z i)
    else Some key.
Proof. reflexivity. Qed.

Lemma unique_key_none taken name f i key :
  unique_key f taken name i key = None ->
  Forall (fun k => is_Some (taken !! k))
    (take f (key :: ((fun j => name +:+ "-" +:+ show_Z j) <$> seqZ i (Z.of_nat (pred f))))).
Proof.
  revert i key. induction f as [|f IH]; intros i key; [constructor|].
  rewrite unique_key_step. case_bool_decide as Hk; [|done]. intros Hn%IH. cbn [take pred]. constructor; [done|].
  destruct f as [|f]; [constructor|]. rewrite Nat2Z.inj_succ, seqZ_cons by lia.
  rewrite fmap_cons. replace (Z.pred (Z.succ (Z.of_nat f))) with (Z.of_nat f) by lia.
  cbn [pred] in Hn. by replace (Z.succ i) with (i + 1)%Z by lia.
Qed.
Lemma unique_key_free taken name i key f k : unique_key f taken name i key = Some k -> taken !! k = None.
Proof.
  revert i key. induction f as [|f IH]; intros i key; [done|]. rewrite unique_key_step.
  case_bool_decide as Hk; [apply IH|]. intros [= <-]. by apply eq_None_not_Some.
Qed.
(** Among one more candidate than there are keys, one is free. *)
Lemma unique_key_ends taken name : exists k, unique_key (S (size taken)) taken name 2 name = Some k.
Proof.
  destruct (unique_key _ _ _ _ _) as [k|] eqn:E; [eauto|]. exfalso.
  apply unique_key_none in E. cbn [pred] in E.
  set (keys := (fun j => name +:+ "-" +:+ show_Z j) <$> seqZ 2 (Z.of_nat (size taken))) in *.
  assert (length keys = size taken) as Hlen by (unfold keys; rewrite length_fmap, length_seqZ; lia).
  cbn [take] in E. rewrite firstn_all2 in E by lia.
  assert (NoDup (name :: keys)) as Hnd.
  { constructor.
    - intros (j & Hj & _)%list_elem_of_fmap. apply (f_equal (fun s => length (bytes s))) in Hj.
      rewrite !bytes_cat, !length_app in Hj. cbn in Hj. lia.
    - apply NoDup_fmap; [|apply NoDup_seqZ]. intros x y Hxy. apply (f_equal bytes) in Hxy.
      rewrite !bytes_cat in Hxy. apply app_inv_head in Hxy. injection Hxy as Hxy.
      apply bytes_inj in Hxy. by apply (inj pretty). }
  assert (length (name :: keys) <= length (map_to_list taken).*1) as Hle.
  { apply NoDup_incl_length; [by apply NoDup_ListNoDup|]. intros k Hk%list_elem_of_In.
    rewrite Forall_forall in E. destruct (E k Hk) as [c Hc]. apply list_elem_of_In, list_elem_of_fmap.
    exists (k, c). split; [done|]. by apply elem_of_map_to_list. }
  rewrite length_fmap, length_map_to_list in Hle. cbn in Hle. lia.
Qed.

Section registration.
Context {F : Type} `{!FileSystem F} `{!FileSystemOk F} `{!ArtifactFs F} `{!PathExists F} `{!TextOps}.
Context `{!YamlCodec Config} `{!YamlCodecOk Config}.

Definition is_stale_child (fs : F) (parent_dir : string) (c : Child) : bool :=
  match find_config_in_dir fs (child_dir_of parent_dir c) with Some _ => false | None => true end.

Lemma deleted_lookup (stale : list (string * Child)) (m : gmap string Child) k :
  (k ∈ stale.*1 -> foldl (fun m e => delete e.1 m) m stale !! k = None)
  /\ (k ∉ stale.*1 -> foldl (fun m e => delete e.1 m) m stale !! k = m !! k).
Proof.
  revert m. induction stale as [|[k' c] stale IH]; intros m; [by split; [set_solver|]|]. cbn [foldl fst].
  destruct (IH (delete k' m)) as [IH1 IH2]. destruct (decide (k ∈ stale.*1)) as [Hin|Hin].
  - split; [by intros _; apply IH1|]. intros Hn. exfalso. apply Hn. by right.
  - split; intros Hk; rewrite IH2 by done.
    + apply elem_of_cons in Hk as [->|]; [apply lookup_delete_eq|done].
    + apply lookup_delete_ne. intros ->. apply Hk. by left.
Qed.

(** The children that stay. *)
Definition live_child (fs : F) (parent_dir : string) (c : option Child) : option Child :=
  c ← c; if is_stale_child fs parent_dir c then None else Some c.

Lemma live_lookup (fs : F) parent_dir cfg k :
  foldl (fun m e => delete e.1 m) (children cfg) (stale_children fs parent_dir cfg) !! k
  = live_child fs parent_dir (children cfg !! k).
Proof.
  destruct (deleted_lookup (stale_children fs parent_dir cfg) (children cfg) k) as [H1 H2].
  assert (k ∈ (stale_children fs parent_dir cfg).*1
          <-> exists c, children cfg !! k = Some c /\ is_stale_child fs parent_dir c = true) as Hk.
  { unfold stale_children. rewrite list_elem_of_fmap. split.
    - intros ([k' c] & -> & Hin%list_elem_of_In%filter_In). destruct Hin as [Hin Hs].
      apply list_elem_of_In, elem_of_btree_to_list in Hin. exists c. by split.
    - intros (c & Hc & Hs). exists (k, c). split; [done|]. apply list_elem_of_In, filter_In. split; [|done].
      by apply list_elem_of_In, elem_of_btree_to_list. }
  unfold live_child. destruct (children cfg !! k) as [c|] eqn:E; cbn.
  - destruct (is_stale_child fs parent_dir c) eqn:Es; [apply H1, Hk; eauto|]. rewrite H2; [done|].
    intros Hin. apply Hk in Hin as (c' & Hc & Hs). simplify_eq. congruence.
  - destruct (decide (k ∈ (stale_children fs parent_dir cfg).*1)) as [Hin|Hin]; [by apply H1|by apply H2].
Qed.

(** C18: A project that [ax init] registers is a child of the configuration above: under a key of
    its own, with a directory that leads to the project and that no other child has.  The
    other children stay as they are unless they have no configuration any more, and nothing
    else of the configuration changes. *)
Theorem project_is_registered cfg_path parent_dir child_dir name (fs fs' : F) log :
  is_absolute parent_dir = true -> is_absolute child_dir = true ->
  add_child_to_config cfg_path parent_dir child_dir name fs = Ok (true, log, fs') ->
  exists cfg cfg' key child,
    read_local fs cfg_path = Ok cfg /\ read_local fs' cfg_path = Ok cfg'
    /\ cfg' = cfg <| children := children cfg' |>
    /\ live_child fs parent_dir (children cfg !! key) = None
    /\ children cfg' !! key = Some child
    /\ components (child_dir_of parent_dir child) = components child_dir
    /\ (forall k, k <> key -> children cfg' !! k = live_child fs parent_dir (children cfg !! k))
    /\ (forall k c, children cfg' !! k = Some c -> ch_dir c = ch_dir child -> k = key).
Proof.
  intros Hp Hc. unfold add_child_to_config, save_config.
  destruct (read_local fs cfg_path) as [cfg|] eqn:Hr; [|done]. cbn [mbind result_bind map_err].
  set (rel := default child_dir (pathdiff_rel parent_dir child_dir)).
  pose proof (live_lookup fs parent_dir cfg) as Hlive.
  set (kids := foldl _ _ _) in *. destruct (existsb _ _) eqn:He.
  { destruct (stale_children fs parent_dir cfg); [done|]. by destruct (save _ _ _). }
  destruct (unique_key_ends kids name) as [key Hkey]. rewrite Hkey. cbn [default].
  destruct (save _ _ _) as [fs1|] eqn:Hs; [|done]. intros [= <- <-].
  apply save_read_local in Hs. apply unique_key_free in Hkey.
  eexists cfg, _, key, _. split_and!; [done|exact Hs|..]; fsimpl.
  - by destruct cfg.
  - by rewrite <- Hlive.
  - apply lookup_insert_eq.
  - change (components (if is_absolute rel then rel else join parent_dir rel) = components child_dir).
    subst rel. destruct (pathdiff_rel parent_dir child_dir) as [rel|] eqn:Hd; cbn [from_option id].
    + destruct (pathdiff_leads_back _ _ _ Hp Hc Hd) as [Ha Hj]. by rewrite Ha.
    + by rewrite Hc.
  - intros k Hk. by rewrite lookup_insert_ne, Hlive.
  - intros k c Hk Hdir. destruct (decide (k = key)) as [|Hne]; [done|].
    rewrite lookup_insert_ne in Hk by done. exfalso.
    assert (existsb (fun e => String.eqb (ch_dir e.2) rel) (btree_to_list kids) = true) as Hx; [|congruence].
    apply existsb_exists. exists (k, c). split; [by apply list_elem_of_In, elem_of_btree_to_list|].
    apply String.eqb_eq. cbn. by rewrite Hdir.
Qed.
End registration.

(** ** ax down *)

(** The parts of the world do not disturb each other: writing files, printing and signals
    leave tmux alone. *)
Class CliHostOk (W F T : Type) `{!LaunchHost W F} `{!CliHost W T} : Prop := {
  cli_tmux_put t w : cli_tmux (cli_put_tmux t w) = t;
  cli_tmux_files f (w : W) : cli_tmux (T := T) (host_put_files f w) = cli_tmux w;
  cli_tmux_print s (w : W) : cli_tmux (T := T) (cli_print s w) = cli_tmux w;
}.

Section down.
Context {W F T : Type} `{!LaunchHost W F} `{!CliHost W T} `{!CliHostOk W F T}.
Context `{!FileSystem F} `{!ArtifactFs F} `{!JsonCodec McpConfig} `{!CodexHome F} `{!Prompts F}.
Context `{!Tmux T} `{!TmuxOk T}.
Implicit Types (names : gset string) (w : W).

(** Only sessions are killed whose names begin with the session name of one of [names], and
    none is made. *)
Definition kills_towards names (e : Event) : Prop :=
  match e with
  | Killed s => exists n, n ∈ names /\ starts_with s (session_name n) = true
  | Created _ => False
  end.
(** Sessions of [names] are killed, and none is made. *)
Definition kills names (e : Event) : Prop :=
  match e with Killed s => exists n, n ∈ names /\ s = session_name n | Created _ => False end.
Lemma kills_gone names t t' n : trace (kills_towards names) t t' -> session n t = None -> session n t' = None.
Proof. intros Ht. apply (trace_absent _ _ _ _ Ht). by intros []. Qed.
Lemma kills_clear names t t' :
  clear names t -> trace (kills_towards names) t t' -> trace (kills names) t t'.
Proof.
  intros Hc Ht. eapply trace_mono; [|eapply (aimed_clear names), Ht; [|done]].
  - by intros [s|s] [].
  - by intros [s|s]; [|intros (n & ? & ?); exists n].
Qed.

(** A run only kills, and when it succeeds the sessions of [goals] are gone. *)
Definition stopping names {E A} (goals : list string) (m : Run E W A) : Prop :=
  forall w r w', m w = Some (r, w') ->
  trace (kills_towards names) (cli_tmux w) (cli_tmux w')
  /\ (is_ok r = true -> Forall (fun n => session n (cli_tmux w') = None) goals).

Lemma stopping_ret names {E A} (a : A) : stopping names (E := E) [] (mret a).
Proof. intros w r w' [= <- <-]. split; [apply trace_refl|by constructor]. Qed.
Lemma stopping_say names {E} text : stopping names (E := E) [] (say text).
Proof. intros w r w' [= <- <-]. rewrite cli_tmux_print. split; [apply trace_refl|by constructor]. Qed.
Lemma stopping_bind names {E A B} g1 g2 (m : Run E W A) (f : A -> Run E W B) :
  stopping names g1 m -> (forall a, stopping names g2 (f a)) -> stopping names (g1 ++ g2) (m ≫= f).
Proof.
  intros Hm Hf w r w'. run_step. destruct (m w) as [[[a|e] w1]|] eqn:E1; [| |done].
  - intros E2. destruct (Hm _ _ _ E1) as [H1 G1]. destruct (Hf a _ _ _ E2) as [H2 G2].
    split; [exact (trace_trans _ _ _ _ H1 H2)|]. intros Hok. apply Forall_app. split; [|by apply G2].
    eapply Forall_impl; [exact (G1 eq_refl)|]. intros n. exact (kills_gone _ _ _ n H2).
  - intros [= <- <-]. destruct (Hm _ _ _ E1) as [H1 _]. split; [exact H1|discriminate].
Qed.
Lemma stopping_each names {E X} (f : X -> Run E W unit) (goal : X -> list string) xs :
  Forall (fun x => stopping names (goal x) (f x)) xs -> stopping names (mjoin (goal <$> xs)) (run_each f xs).
Proof.
  induction 1 as [|x xs Hx _ IH]; [apply stopping_ret|]. cbn [run_each fmap list_fmap mjoin list_join].
  by apply stopping_bind.
Qed.
Lemma stopping_map_err names {E E' A} (g : E -> E') goals (m : Run E W A) :
  stopping names goals m -> stopping names goals (run_map_err g m).
Proof.
  intros Hm w r w'. unfold run_map_err. destruct (m w) as [[r1 w1]|] eqn:E1; [|done].
  intros [= <- <-]. destruct (Hm _ _ _ E1) as [H1 G1]. split; [done|]. by destruct r1.
Qed.

(** On the machine: one kill, of the session itself when it is there. *)
Definition destroys n {E A} (m : Act E (World F T) A) : Prop :=
  forall x, trace (kills_towards {[n]}) (tmux x) (tmux (m x).2)
            /\ (is_ok (m x).1 = true -> session n (tmux (m x).2) = None).

Lemma stopping_machine names {E A} n (m : Act E (World F T) A) :
  n ∈ names -> destroys n m -> stopping names [n] (on_machine m).
Proof.
  intros Hn Hm w r w'. unfold on_machine. specialize (Hm (mkWorld (host_files w) (cli_tmux w))).
  destruct (m _) as [r1 x]. cbn in Hm. destruct Hm as [Ht Hg]. intros [= <- <-]. rewrite cli_tmux_put. split.
  - eapply trace_mono, Ht. intros [s|s]; [done|]. intros (k & ->%elem_of_singleton & Hs). by exists n.
  - intros Hok. constructor; [by apply Hg|constructor].
Qed.

Lemma destroys_session n : plain (session_name n) -> destroys n (on_tmux (F := F) (destroy_session n)).
Proof.
  intros Hp x. unfold on_tmux, act_on. destruct (destroy_session n (tmux x)) as [r t'] eqn:E. cbn [fst snd tmux].
  split; [|by apply (destroyed n _ _ _ Hp E)]. revert E. unfold destroy_session, mbind, Act_bind, run_combined.
  destruct (tmux_run _ (tmux x)) as [r1 t1] eqn:E1. apply kill_session_spec in E1; [|done]. unfold ran in E1.
  assert (trace (kills_towards {[n]}) (tmux x) t1) as Ht.
  { destruct r1 as [out|e]; [destruct (out_success out)|]; try (by destruct E1; apply trace_nil).
    destruct E1 as (s & Et & Eg & El). eapply trace_kill; [|by eapply find_target_live|done..|apply trace_refl].
    exists n. split; [set_solver|by eapply find_target_prefix]. }
  destruct r1 as [out|e]; [destruct (out_success out)|]; by intros [= <- <-].
Qed.
Lemma destroys_if_exists {E} (wrap : TmuxError -> E) n :
  plain (session_name n) -> destroys n (destroy_if_exists (F := F) wrap n).
Proof.
  intros Hp x. unfold destroy_if_exists, mbind, Act_bind, gets.
  destruct (session_exists n (tmux x)) eqn:Es.
  - pose proof (destroys_session n Hp x) as [Ht Hg]. unfold act_map_err.
    destruct (on_tmux (destroy_session n) x) as [r x']. cbn in *. split; [done|]. by destruct r.
  - split; [apply trace_refl|]. intros _. by apply not_there.
Qed.
Lemma destroys_then_files {E A B} n (m : Act E (World F T) A) (f : A -> Act E F B) :
  destroys n m -> destroys n (a ← m; on_files (f a)).
Proof.
  intros Hm x. specialize (Hm x). unfold mbind, Act_bind, on_files, act_on.
  destruct (m x) as [[a|e] x']; cbn in *; [|done]. destruct (f a (files x')) as [r fs]. cbn.
  destruct Hm as [Ht Hg]. split; [done|]. intros _. by apply Hg.
Qed.
Lemma destroys_manager n dir : plain (session_name n) -> destroys n (manager_destroy n dir).
Proof.
  intros Hp. unfold manager_destroy. destruct (is_empty (trim dir)).
  - pose proof (destroys_if_exists WsTmux n Hp) as Hm. intros x. specialize (Hm x).
    unfold mbind, Act_bind. destruct (destroy_if_exists _ _ _) as [[[]|e] x1]; exact Hm.
  - apply destroys_then_files. by apply destroys_if_exists.
Qed.

Context `{!TextOps} `{!SysText}.

(** With a session to look for: nothing, or its end. *)
Lemma stopping_if_exists names {E} n (m : Run E W unit) :
  plain (session_name n) -> stopping names [n] m ->
  stopping names [n] (running ← observe (exists_session n); if negb running then mret tt else m).
Proof.
  intros Hp Hm w r w'. run_step. unfold observe, exists_session.
  destruct (session_exists n (cli_tmux w)) eqn:Es; cbn [negb]; [by apply Hm|].
  intros [= <- <-]. split; [apply trace_refl|]. intros _. constructor; [|constructor]. by apply not_there.
Qed.

Lemma stopping_workspace names entry :
  entry.1 ∈ names -> plain (session_name entry.1) -> stopping names [entry.1] (stop_workspace entry).
Proof.
  destruct entry as [n ws]. cbn [fst]. intros Hn Hp w r w'. unfold stop_workspace, observe, exists_session. run_step.
  destruct (session_exists n (cli_tmux w)) eqn:Es; cbn [negb].
  - apply (stopping_bind names [n] []); [|intros; apply stopping_say].
    apply stopping_map_err, stopping_machine; [done|]. by apply destroys_manager.
  - intros [= <- <-]. rewrite cli_tmux_print. split; [apply trace_refl|]. intros _.
    constructor; [by apply not_there|constructor].
Qed.

(** The orchestrators of a tree, in the order in which they are stopped. *)
Fixpoint tree_orchestrators (tree : ProjectNode) : list string :=
  mjoin (tree_orchestrators <$> pn_children tree) ++ [orchestrator_name (pn_prefix tree)].

Lemma stopping_orchestrators names tree :
  (forall n, n ∈ names -> plain (session_name n)) ->
  Forall (fun n => n ∈ names) (tree_orchestrators tree) ->
  stopping names (tree_orchestrators tree) (stop_orchestrator_sessions tree).
Proof.
  intros Hp. revert tree. fix IH 1. intros tree Hn.
  destruct tree as [nm al pf dir rt dis wss cs]. cbn [tree_orchestrators pn_children pn_prefix] in *.
  apply Forall_app in Hn as [Hcs [Ho _]%Forall_cons].
  cbn [stop_orchestrator_sessions pn_children pn_prefix].
  apply stopping_bind.
  - apply stopping_each. clear -IH Hcs. induction cs as [|c cs IHcs]; [constructor|].
    cbn [fmap list_fmap mjoin list_join] in Hcs. apply Forall_app in Hcs as [Hc Hcs].
    constructor; [by apply IH|by apply IHcs].
  - intros _. apply stopping_if_exists; [by apply Hp|].
    apply (stopping_bind names [orchestrator_name pf] []); [|intros; apply stopping_say].
    apply stopping_map_err, stopping_machine; [done|]. by apply destroys_session, Hp.
Qed.

(** C17: [ax down] leaves no session of the project behind: when it has stopped the workspaces
    of the configuration and the orchestrators of the tree (names of letters, digits, [-],
    [_] and [.]), none of their sessions is left and no session was made, whatever other
    sessions there are.  It kills only sessions whose names begin with the session name of
    one of the project's - also a longer name, of a session that is not the project's,
    when the project's own is not there ([stop_kills_a_longer_name]) - and none but the
    project's when no live session's name extends one of the project's ([clear]). *)
Theorem down_leaves_no_session cfg tree names w w1 w2 :
  (forall n, n ∈ names -> plain (session_name n)) ->
  (forall n, is_Some (workspaces cfg !! n) -> n ∈ names) ->
  Forall (fun n => n ∈ names) (tree_orchestrators tree) ->
  run_each stop_workspace (btree_to_list (workspaces cfg)) w = Some (Ok tt, w1) ->
  stop_orchestrator_sessions tree w1 = Some (Ok tt, w2) ->
  (forall n, is_Some (workspaces cfg !! n) \/ List.In n (tree_orchestrators tree) ->
             session n (cli_tmux w2) = None)
  /\ exists events, log (cli_tmux w2) = log (cli_tmux w) ++ events
     /\ Forall (kills_towards names) events
     /\ (clear names (cli_tmux w) -> Forall (kills names) events).
Proof.
  intros Hp Hws Ho H1 H2.
  assert (stopping names (mjoin ((fun e => [e.1]) <$> btree_to_list (workspaces cfg)) ++ tree_orchestrators tree)
            (_ ← run_each stop_workspace (btree_to_list (workspaces cfg)); stop_orchestrator_sessions tree)) as Hs.
  { apply stopping_bind; [|intros; by apply stopping_orchestrators]. apply stopping_each, Forall_forall.
    intros [n ws] Hin%elem_of_btree_to_list.
    assert (n ∈ names) as Hn by (apply Hws; by exists ws). by apply stopping_workspace, Hp. }
  destruct (Hs w (Ok tt) w2) as [Ht Hg]; [by run_step; rewrite H1|]. split.
  - specialize (Hg eq_refl). rewrite Forall_forall in Hg. intros n Hn. apply Hg, elem_of_app.
    destruct Hn as [[ws Hw]|Hn]; [left|right; by apply list_elem_of_In].
    apply list_elem_of_join. exists [n]. split; [by left|]. apply list_elem_of_fmap. exists (n, ws).
    split; [done|]. by apply elem_of_btree_to_list.
  - pose proof (trace_log _ _ _ Ht) as (es & Ees & Hes). exists es. split; [done|]. split; [done|].
    intros Hc. pose proof (trace_log _ _ _ (kills_clear _ _ _ Hc Ht)) as (es' & Ees' & Hes').
    rewrite Ees in Ees'. by apply app_inv_head in Ees' as ->.
Qed.
End down.
