(* ===== verification/TuiFacts.v ===== *)
(** * The terminal interface keeps its state consistent.

    [app_ok] is the invariant of the application: every cursor is on a row, the tab shown
    is one of the tabs, an armed confirmation belongs to the highlighted action.  It holds
    after every turn of the loop, whatever the keys, the files, tmux and the daemon do. *)

From stdpp Require Import prelude strings list gmap sorting.
From S2P Require Import Prelude Act RustStr Proto History Registry SessionManager Handlers.
From S2P Require Import Paths ConfigSchema ConfigTree Tmux Artifacts WorkspaceManager Dispatch ErrorText.
From S2P Require Import Usage UsageHistory UsageTrends McpClient McpScope McpHost McpTools.
From S2P Require Import RustText TuiData TuiApp TuiLoop.
Local Close Scope Z_scope.

(** ** The invariant *)

(** The selected row is no group header, unless there are only headers. *)
Definition entry_ok (entries : list AgentEntry) (selected : nat) : Prop :=
  (exists e, entries !! selected = Some e /\ ae_group e = false)
  \/ Forall (fun e => ae_group e = true) entries /\ selected = 0.

Definition messages_ok (l : list HistoryEntry) (cursor : Z) (follow : bool) : Prop :=
  length l <= MESSAGE_HISTORY_BUFFER
  /\ match l with
     | [] => cursor = 0%Z
     | _ => (0 <= cursor < zlen l)%Z /\ (follow = true -> cursor = zlen l - 1)%Z
     end.

(** The last row, or the first when there is none. *)
Definition within (cursor rows : Z) : Prop := (0 <= cursor <= Z.max 0 (rows - 1))%Z.

Definition stream_ok (view : StreamView) (pinned : option string) : Prop :=
  view = ViewStream -> is_Some pinned.

Definition overlay_ok (q : QuickActionState) : Prop :=
  qa_open q = true ->
  exists a, qa_current q = Some a /\ (qa_confirm q = true -> requires_confirmation a = true).

(** The cursor is on a row of the tasks the filter shows.  What the stale filter shows
    depends on the clock, hence "at some time": when the cursor was last moved. *)
Definition tasks_ok (app : App) : Prop :=
  exists now, within (task_cursor app) (zlen (filtered_tasks now app)).

Record app_ok (app : App) : Prop := {
  ok_entry : entry_ok (agent_entries app) (selected_entry app);
  ok_messages : messages_ok (messages app) (messages_cursor app) (messages_follow_tail app);
  ok_tasks : tasks_ok app;
  ok_tokens : within (tokens_cursor app) (Z.of_nat (token_row_count app));
  ok_stream : stream_ok (stream app) (streamed_workspace app);
  ok_overlay : overlay_ok (quick_actions app);
}.

(** The fields [app_ok] reads: a change of others keeps it. *)
Definition app_view (app : App) :=
  (agent_entries app, selected_entry app,
   (messages app, messages_cursor app, messages_follow_tail app),
   (tasks app, task_filter app, task_cursor app), (usage_trends app, tokens_cursor app),
   (stream app, streamed_workspace app), quick_actions app).

Lemma app_ok_view app app' : app_view app' = app_view app -> app_ok app -> app_ok app'.
Proof.
  unfold app_view. intros [= E1 E2 E3 E4 E5 E6 E7 E8 E9 E10 E11 E12 E13] [].
  unfold token_row_count, tasks_ok, filtered_tasks in *.
  split; unfold token_row_count, tasks_ok, filtered_tasks;
    rewrite ?E1, ?E2, ?E3, ?E4, ?E5, ?E6, ?E7, ?E8, ?E9, ?E10, ?E11, ?E12, ?E13; assumption.
Qed.

Create HintDb app discriminated.
Ltac app_fields :=
  lazy [app_view set_field agent_entries selected_entry messages messages_cursor messages_follow_tail tasks
        task_filter task_cursor usage_trends tokens_cursor stream streamed_workspace quick_actions].
Ltac app_frame_of H := refine (app_ok_view _ _ _ H); app_fields; reflexivity.
Ltac app_frame := match goal with H : app_ok _ |- app_ok _ => app_frame_of H end.

(** ** Cursors *)

Lemma shift_nonneg d i : (0 <= shift d i)%Z.
Proof. unfold shift. lia. Qed.

Lemma clamp_within i rows : (0 <= i)%Z -> within (clamp (rows - 1) i) rows \/ (rows <= 0)%Z.
Proof. unfold clamp, within. intros. destruct (Z.ltb_spec (rows - 1) i); lia. Qed.

Lemma within_zero rows : within 0 rows.
Proof. unfold within. lia. Qed.

Lemma within_grow i rows rows' : (rows <= rows')%Z -> within i rows -> within i rows'.
Proof. unfold within. lia. Qed.

Lemma clamp_rows {A} (l : list A) x i :
  (0 <= i)%Z -> within (clamp (zlen (x :: l) - 1) i) (zlen (x :: l)).
Proof.
  intros Hi. destruct (clamp_within i (zlen (x :: l)) Hi) as [|H]; [done|].
  unfold zlen in H. cbn in H. lia.
Qed.

Lemma i32_wrap_small z : (- 2 ^ 31 <= z < 2 ^ 31)%Z -> i32_wrap z = z.
Proof. intros. unfold i32_wrap. rewrite Z.mod_small; lia. Qed.

Lemma clamp_to_range lo hi x : (lo <= hi)%Z -> (lo <= clamp_to lo hi x <= hi)%Z.
Proof. unfold clamp_to. intros. destruct (Z.ltb_spec x lo), (Z.ltb_spec hi x); lia. Qed.

(** ** Rows that can be selected *)

Lemma selectable_spec entries i :
  i ∈ selectable_entry_positions entries <-> exists e, entries !! i = Some e /\ ae_group e = false.
Proof.
  unfold selectable_entry_positions. rewrite list_elem_of_omap. split.
  - intros ([j e] & Hin%enumerate_spec & Hs). cbn in Hs. destruct (ae_group e) eqn:Eg; [done|].
    injection Hs as ->. by exists e.
  - intros (e & He & Eg). exists (i, e). cbn. rewrite Eg. split; [by apply enumerate_spec|done].
Qed.

Lemma entry_ok_selectable entries i :
  i ∈ selectable_entry_positions entries \/ selectable_entry_positions entries = [] /\ i = 0 ->
  entry_ok entries i.
Proof.
  intros [Hi%selectable_spec|[Hn ->]]; [by left|right]. split; [|done]. apply Forall_lookup. intros j e Hj.
  destruct (ae_group e) eqn:Eg; [done|].
  assert (j ∈ selectable_entry_positions entries) as Hs by (apply selectable_spec; eauto).
  rewrite Hn in Hs. by apply elem_of_nil in Hs.
Qed.

Lemma find_some {A} (f : A -> bool) l x : List.find f l = Some x -> x ∈ l /\ f x = true.
Proof. intros H. apply List.find_some in H as [H1 H2]. split; [by apply list_elem_of_In|done]. Qed.

Lemma next_selection_in entries selectable ws i :
  selectable <> [] -> next_selection entries selectable ws i ∈ selectable.
Proof.
  intros Hne. unfold next_selection.
  assert (default 0 (match List.find (fun idx => i <=? idx) selectable with
                     | Some idx => Some idx | None => last selectable end) ∈ selectable) as Hfall.
  { destruct (List.find _ _) eqn:E; [by apply find_some in E as []|].
    destruct (last selectable) eqn:El; [by apply last_Some_elem_of in El|].
    by apply last_None in El. }
  destruct ws as [ws|]; [destruct (List.find (fun idx => match _ with Some _ => _ | None => _ end) _) eqn:E|].
  - by apply find_some in E as [].
  - by destruct (List.find (fun idx => i <=? idx) selectable).
  - by destruct (List.find (fun idx => i <=? idx) selectable).
Qed.

(** ** Every operation keeps the invariant *)

(** Split the invariant of a changed application; what did not change is solved. *)
Ltac ok_split :=
  match goal with H : app_ok ?a |- app_ok _ => destruct H end;
  unfold token_row_count, tasks_ok, filtered_tasks in *; split; fsimpl; try assumption;
  fold token_row_count in *.

Section ops.
Implicit Types (app : App).

Lemma reset_detail_ok app : app_ok app -> app_ok (reset_detail app).
Proof. intros. unfold reset_detail. app_frame. Qed.
Lemma set_notice_ok clk text err app : app_ok app -> app_ok (set_notice clk text err app).
Proof. intros. unfold set_notice. app_frame. Qed.
(** A new cursor, whatever the tasks, their filter and the cursor were before. *)
Lemma task_rows_set app now l e m c :
  app_ok app -> within c (zlen (filter_tasks now l m)) ->
  app_ok (app <| tasks := l |> <| task_snapshot_error := e |> <| task_filter := m |> <| task_cursor := c |>).
Proof. intros Hok Hc. ok_split. by exists now. Qed.
Lemma tokens_cursor_ok app c :
  within c (Z.of_nat (token_row_count app)) -> app_ok app -> app_ok (app <| tokens_cursor := c |>).
Proof. intros. ok_split. Qed.
Lemma stream_view_ok app v :
  stream_ok v (streamed_workspace app) -> app_ok app -> app_ok (app <| stream := v |>).
Proof. intros. ok_split. Qed.
Lemma overlay_set_ok app q : overlay_ok q -> app_ok app -> app_ok (app <| quick_actions := q |>).
Proof. intros. ok_split. Qed.
Lemma messages_set_ok app c f :
  messages_ok (messages app) c f -> app_ok app ->
  app_ok (app <| messages_cursor := c |> <| messages_follow_tail := f |>).
Proof. intros. ok_split. Qed.
Lemma selected_ok app i : i ∈ selectable_entry_positions (agent_entries app) -> app_ok app ->
  app_ok (app <| selected_entry := i |>).
Proof. intros. ok_split. apply entry_ok_selectable. by left. Qed.

(** Tasks and tokens. *)
Lemma task_rows_ok now app l e m c :
  (0 <= c)%Z -> app_ok app ->
  let app1 := app <| tasks := l |> <| task_snapshot_error := e |> <| task_filter := m |> in
  app_ok match filtered_tasks now app1 with
         | [] => app1 <| task_cursor := 0%Z |>
         | l => app1 <| task_cursor := clamp (zlen l - 1) c |>
         end.
Proof.
  intros Hc Hok app1. change (filtered_tasks now app1) with (filter_tasks now l m).
  destruct (filter_tasks now l m) as [|x r] eqn:E; apply (task_rows_set _ now); rewrite ?E; try done.
  by apply clamp_rows.
Qed.
Lemma task_cursor_nonneg app : app_ok app -> (0 <= task_cursor app)%Z.
Proof. by intros [_ _ [now []] _ _ _]. Qed.
Lemma clamp_task_selection_ok now app : app_ok app -> app_ok (clamp_task_selection now app).
Proof.
  intros H. refine (app_ok_view _ _ _ (task_rows_ok now app (tasks app) (task_snapshot_error app)
    (task_filter app) (task_cursor app) (task_cursor_nonneg _ H) H)).
  unfold clamp_task_selection, filtered_tasks. fsimpl. by destruct (filter_tasks _ _ _).
Qed.
Lemma move_task_selection_ok now d app : app_ok app -> app_ok (move_task_selection now d app).
Proof.
  intros H. refine (app_ok_view _ _ _ (task_rows_ok now app (tasks app) (task_snapshot_error app)
    (task_filter app) (shift d (task_cursor app)) (shift_nonneg _ _) H)).
  unfold move_task_selection, filtered_tasks. fsimpl. by destruct (filter_tasks _ _ _).
Qed.
Lemma cycle_task_filter_ok now app : app_ok app -> app_ok (cycle_task_filter now app).
Proof.
  intros H. refine (app_ok_view _ _ _ (task_rows_ok now app (tasks app) (task_snapshot_error app)
    (filter_next (task_filter app)) (task_cursor app) (task_cursor_nonneg _ H) H)).
  unfold cycle_task_filter, clamp_task_selection, filtered_tasks. fsimpl. by destruct (filter_tasks _ _ _).
Qed.

Lemma token_rows_ok app c :
  (0 <= c)%Z -> app_ok app ->
  app_ok (let n := Z.of_nat (token_row_count app) in
          if (n =? 0)%Z then app <| tokens_cursor := 0%Z |>
          else app <| tokens_cursor := clamp (n - 1) c |>).
Proof.
  intros Hc Hok. cbv zeta. destruct (Z.eqb_spec (Z.of_nat (token_row_count app)) 0);
    apply tokens_cursor_ok; try done; [apply within_zero|].
  destruct (clamp_within c (Z.of_nat (token_row_count app)) Hc); [done|lia].
Qed.
Lemma clamp_token_selection_ok app : app_ok app -> app_ok (clamp_token_selection app).
Proof. intros H. apply token_rows_ok; [|done]. destruct H as [_ _ _ [] _ _]. done. Qed.
Lemma scroll_tokens_ok d app : app_ok app -> app_ok (scroll_tokens d app).
Proof. intros H. apply token_rows_ok; [apply shift_nonneg|done]. Qed.
Lemma tokens_to_head_ok app : app_ok app -> app_ok (tokens_to_head app).
Proof. intros. apply tokens_cursor_ok; [apply within_zero|done]. Qed.
Lemma tokens_to_tail_ok app : app_ok app -> app_ok (tokens_to_tail app).
Proof.
  intros. unfold tokens_to_tail. cbv zeta.
  destruct (Z.eqb_spec (Z.of_nat (token_row_count app)) 0); apply tokens_cursor_ok; try done;
    unfold within; lia.
Qed.

(** Messages. *)
Lemma scroll_messages_ok d app : app_ok app -> app_ok (scroll_messages d app).
Proof.
  intros Hok. pose proof (ok_messages _ Hok) as [Hlen Hm]. unfold scroll_messages.
  destruct (messages app) as [|x l] eqn:E; (apply messages_set_ok; [rewrite E; split; [done|]|done]); [done|].
  cbv zeta. unfold zlen in *. unfold MESSAGE_HISTORY_BUFFER in Hlen. cbn [length] in *.
  rewrite (i32_wrap_small (Z.of_nat (S (length l)))) by lia.
  pose proof (clamp_to_range 0 (Z.of_nat (S (length l)) - 1)
                (i32_wrap (i32_wrap (messages_cursor app) + d)) ltac:(lia)).
  split; [lia|]. intros He. apply Z.eqb_eq in He. lia.
Qed.
Lemma messages_to_tail_ok app : app_ok app -> app_ok (messages_to_tail app).
Proof.
  intros Hok. pose proof (ok_messages _ Hok) as [Hlen _]. unfold messages_to_tail.
  destruct (messages app) as [|x l] eqn:E; ok_split; rewrite E; (split; [done|]); [done|].
  unfold zlen. cbn [length]. split; lia.
Qed.
Lemma messages_to_head_ok app : app_ok app -> app_ok (messages_to_head app).
Proof.
  intros Hok. pose proof (ok_messages _ Hok) as [Hlen Hm]. unfold messages_to_head. ok_split.
  split; [done|]. destruct (messages app); [done|]. unfold zlen. cbn [length]. split; [lia|done].
Qed.
(** After a refresh the cursor is on a row again, whatever was loaded. *)
Lemma reconcile_message_cursor_ok app app0 :
  app_ok app0 ->
  (agent_entries app, selected_entry app, (tasks app, task_filter app, task_cursor app), (usage_trends app, tokens_cursor app),
   (stream app, streamed_workspace app), quick_actions app, messages_cursor app)
  = (agent_entries app0, selected_entry app0, (tasks app0, task_filter app0, task_cursor app0),
     (usage_trends app0, tokens_cursor app0), (stream app0, streamed_workspace app0), quick_actions app0,
     messages_cursor app0) ->
  length (messages app) <= MESSAGE_HISTORY_BUFFER ->
  app_ok (reconcile_message_cursor app).
Proof.
  intros [He [_ Hm] Ht Hk Hs Hq] [= E1 E2 E3 E4 E5 E6 E7 E8 E9 E10 E11] Hlen.
  assert (0 <= messages_cursor app)%Z as Hc.
  { rewrite E11. destruct (messages app0); [rewrite Hm; done|]. by destruct Hm as [[] _]. }
  unfold reconcile_message_cursor, token_row_count, tasks_ok, filtered_tasks in *.
  destruct (messages app) as [|x l] eqn:E; [|destruct (messages_follow_tail app) eqn:Ef]; split;
    unfold token_row_count, tasks_ok, filtered_tasks; fsimpl; rewrite ?E1, ?E2, ?E3, ?E4, ?E5, ?E6, ?E7, ?E8, ?E9, ?E10; try assumption;
    rewrite ?E; (split; [done|]); try done; rewrite ?Ef.
  - unfold zlen. cbn [length]. lia.
  - pose proof (clamp_rows l x _ Hc) as [H1 H2]. unfold zlen in *. cbn [length] in *. split; [lia|done].
Qed.

(** The agents panel. *)
Lemma move_selection_ok d app : app_ok app -> app_ok (move_selection d app).
Proof.
  intros Hok. pose proof (ok_entry _ Hok) as He. unfold move_selection. cbv zeta.
  destruct (selectable_entry_positions (agent_entries app)) as [|i0 sel] eqn:E.
  { ok_split. apply entry_ok_selectable. by right. }
  case_match eqn:En; [done|]. apply reset_detail_ok, selected_ok; [|done]. rewrite E.
  destruct ((i0 :: sel) !! _) eqn:El; cbn [default from_option id] in *.
  - by eapply list_elem_of_lookup_2.
  - by rewrite Nat.eqb_refl in En.
Qed.
Lemma rebuild_agents_ok app : app_ok app -> app_ok (rebuild_agents app).
Proof.
  intros Hok. unfold rebuild_agents. cbv zeta. fsimpl.
  set (entries := build_entries _ _ _ _).
  destruct (selectable_entry_positions entries) as [|i0 sel] eqn:E.
  - assert (app_ok ((app <| agent_entries := entries |>) <| selected_entry := 0 |>)) by (ok_split; apply entry_ok_selectable; by right).
    destruct (selected_workspace app); [by apply reset_detail_ok|done].
  - set (i := next_selection _ _ _ _).
    assert (app_ok ((app <| agent_entries := entries |>) <| selected_entry := i |>)).
    { ok_split. apply entry_ok_selectable. left. rewrite E. by apply next_selection_in. }
    destruct (selected_workspace app); [|done]. case_match; [done|by apply reset_detail_ok].
Qed.
End ops.

(** ** Tabs *)

Lemma cycle_in {A} (order : list A) f d old : order <> [] -> cycle order f d old ∈ order.
Proof.
  intros Hne. unfold cycle. set (i := cycle_index _ _ _).
  assert (i < length order) as Hi.
  { unfold i, cycle_index. destruct order; [done|]. cbn [length].
    pose proof (Z.mod_pos_bound (i32_wrap (i32_wrap (Z.of_nat (default 0 (position f (a :: order)))) + d))
                  (Z.of_nat (S (length order))) ltac:(lia)). lia. }
  destruct (lookup_lt_is_Some_2 _ _ Hi) as [x Hx]. rewrite Hx. by eapply list_elem_of_lookup_2.
Qed.

Lemma tab_visible app v :
  v ∈ stream_tab_views app -> stream_ok v (streamed_workspace app).
Proof.
  unfold stream_tab_views, stream_ok, tabs, DEFAULT_TABS. intros Hv ->.
  destruct (streamed_workspace app); [done|]. cbn in Hv. set_solver.
Qed.

Section ops2.
Implicit Types (app : App).

Lemma ensure_visible_id app : app_ok app -> ensure_stream_view_visible app = app.
Proof.
  intros Hok. unfold ensure_stream_view_visible. case_bool_decide as H; [|done].
  destruct H as [Hv Hn]. destruct (ok_stream _ Hok Hv) as [x Hx]. congruence.
Qed.
Lemma switch_stream_ok now v app :
  v ∈ stream_tab_views app -> app_ok app -> app_ok (switch_stream now v app).
Proof.
  intros Hv Hok. apply clamp_token_selection_ok, clamp_task_selection_ok, reset_detail_ok, stream_view_ok; [|done].
  by apply tab_visible.
Qed.
Lemma step_stream_ok now d app : app_ok app -> app_ok (step_stream now d app).
Proof.
  intros Hok. unfold step_stream. rewrite ensure_visible_id by done. cbv zeta.
  apply switch_stream_ok; [|done]. apply cycle_in. unfold stream_tab_views, tabs. by case_match.
Qed.
Lemma select_stream_ok now i app : app_ok app -> app_ok (select_stream now i app).
Proof.
  intros Hok. unfold select_stream. rewrite ensure_visible_id by done. cbv zeta.
  case_match eqn:E; [|done]. apply switch_stream_ok; [by eapply list_elem_of_lookup_2|done].
Qed.
Lemma step_agent_detail_tab_ok d app : app_ok app -> app_ok (step_agent_detail_tab d app).
Proof. intros. unfold step_agent_detail_tab. apply reset_detail_ok. app_frame. Qed.
Lemma handle_bracket_tab_ok now d app : app_ok app -> app_ok (handle_bracket_tab now d app).
Proof.
  intros. unfold handle_bracket_tab. case_match; [by apply step_agent_detail_tab_ok|by apply step_stream_ok].
Qed.

(** ** The overlay and the forms *)

Lemma closed_overlay_ok q : qa_open q = false -> overlay_ok q.
Proof. intros H H'. congruence. Qed.
Lemma close_overlay_ok app : app_ok app -> app_ok (close_overlay app).
Proof. intros. apply overlay_set_ok; [by apply closed_overlay_ok|done]. Qed.

Lemma forms_set_ok app pc mf pm cf n :
  app_ok app ->
  app_ok (app <| pending_task_create := pc |> <| orchestrator_message_form := mf |>
              <| pending_orchestrator_message := pm |> <| create_task_form := cf |> <| quick_notice := n |>).
Proof. intros. app_frame. Qed.
Lemma open_create_task_form_ok now app : app_ok app -> app_ok (open_create_task_form now app).
Proof. intros H%close_overlay_ok. unfold open_create_task_form. cbv zeta. by apply forms_set_ok. Qed.
Lemma open_message_form_ok app : app_ok app -> app_ok (open_orchestrator_message_form app).
Proof. intros H%close_overlay_ok. unfold open_orchestrator_message_form. app_frame. Qed.
Lemma create_form_key_ok clk ev app : app_ok app -> app_ok (handle_create_task_form_key clk ev app).
Proof.
  intros. unfold handle_create_task_form_key, cancel_create_task_form, submit_create_task_form, set_notice.
  repeat case_match; try done; app_frame.
Qed.
Lemma message_form_key_ok clk ev app : app_ok app -> app_ok (handle_orchestrator_message_form_key clk ev app).
Proof.
  intros. unfold handle_orchestrator_message_form_key, cancel_orchestrator_message_form,
    submit_orchestrator_message_form, set_notice.
  repeat case_match; try done; app_frame.
Qed.

Lemma move_overlay_ok d q : qa_open q = true -> overlay_ok q -> overlay_ok (move_overlay_selection d q).
Proof.
  intros Ho Hq. specialize (Hq Ho) as (a & Ha & _). unfold move_overlay_selection.
  destruct (qa_actions q) as [|a0 l] eqn:E; [unfold qa_current in Ha; by rewrite E in Ha|]. cbv zeta.
  intros _. unfold qa_current. fsimpl. rewrite E.
  set (n := Z.to_nat _). assert (n < length (a0 :: l)) as Hn.
  { unfold n. destruct (Z.le_gt_cases 0 (i32_wrap (Z.of_nat (length (a0 :: l))) - 1)) as [Hle|Hgt].
    - pose proof (clamp_to_range 0 _ (i32_wrap (i32_wrap (Z.of_nat (qa_selected q)) + d)) Hle).
      assert (i32_wrap (Z.of_nat (length (a0 :: l))) <= Z.of_nat (length (a0 :: l)))%Z; [|cbn [length] in *; lia].
      unfold i32_wrap. pose proof (Z.mod_le (Z.of_nat (length (a0 :: l)) + 2 ^ 31) (2 ^ 32) ltac:(lia) ltac:(lia)). lia.
    - unfold clamp_to. cbn [length] in *. case_match; [lia|]. case_match; lia. }
  destruct (lookup_lt_is_Some_2 _ _ Hn) as [x Hx]. exists x. split; [exact Hx|done].
Qed.

Lemma contextual_actions_first b : exists a, contextual_actions b !! 0 = Some a /\ requires_confirmation a = false.
Proof. destruct b; vm_compute; eauto. Qed.

Lemma open_overlay_ok clk app : app_ok app -> app_ok (open_overlay clk app).
Proof.
  intros Hok. unfold open_overlay. case_match; [|by apply set_notice_ok].
  apply overlay_set_ok; [|app_frame]. intros _. unfold qa_current. cbn.
  destruct (contextual_actions_first (match agent_entries app !! selected_entry app with
    | Some e => bool_decide (is_Some (ae_session_index e)) | None => false end)) as (a & Ha & _).
  exists a. by split.
Qed.
Lemma open_task_overlay_ok clk app : app_ok app -> app_ok (open_task_overlay clk app).
Proof.
  intros Hok. unfold open_task_overlay. case_match; [|by apply set_notice_ok].
  case_match; [by apply set_notice_ok|].
  match goal with |- app_ok (set_field _ _ (set_field _ (fun _ => ?q) app)) =>
    assert (app_ok (app <| quick_actions := q |>)) by (apply overlay_set_ok; [|done]; intros _; eexists; split; [reflexivity|done]) end.
  app_frame.
Qed.

(** A streamed workspace is pinned by the same outcomes that show it. *)
Definition outcomes_ok (os : list ActionOutcome) : Prop :=
  In (ChangeStream ViewStream) os -> exists ws rest, os = ChangeStream ViewStream :: StartStreaming ws :: rest
    /\ ~ In (ChangeStream ViewStream) rest.

Lemma stream_outcome_dec os : In (ChangeStream ViewStream) os \/ ~ In (ChangeStream ViewStream) os.
Proof.
  induction os as [|o os [H|H]]; [right; by intros []|by left; right|].
  destruct o as [| |[]| |]; first [by left; left|right; by intros [?|?]].
Qed.

Lemma apply_outcome_ok clk app o :
  o <> ChangeStream ViewStream -> app_ok app -> app_ok (apply_outcome clk app o).
Proof.
  intros Ho Hok. destruct o; cbn [apply_outcome]; [done|by apply set_notice_ok|..].
  - apply stream_view_ok; [|done]. intros ->. done.
  - ok_split. intros Hv. by eexists.
  - apply overlay_set_ok; [by apply closed_overlay_ok|done].
Qed.
Lemma fold_outcomes_ok clk os app :
  ~ In (ChangeStream ViewStream) os -> app_ok app -> app_ok (foldl (apply_outcome clk) app os).
Proof.
  revert app. induction os as [|o os IH]; intros app Hn Hok; [done|]. cbn [foldl].
  apply IH; [by intros ?; apply Hn; right|]. apply apply_outcome_ok; [|done]. intros ->. apply Hn. by left.
Qed.
Lemma outcomes_fold_ok clk os app :
  outcomes_ok os -> app_ok app -> app_ok (foldl (apply_outcome clk) app os).
Proof.
  intros Hos Hok. destruct (stream_outcome_dec os) as [Hin|Hn]; [|by apply fold_outcomes_ok].
  destruct (Hos Hin) as (ws & rest & -> & Hn). cbn [foldl apply_outcome]. apply fold_outcomes_ok; [done|].
  ok_split. intros _. by eexists.
Qed.
End ops2.

(** ** Keys *)

Lemma apply_outcomes_ok clk os app :
  needs_confirm os = false -> outcomes_ok os -> app_ok app -> app_ok (apply_outcomes clk os app).
Proof. intros Hn Hos Hok. unfold apply_outcomes. cbv zeta. rewrite Hn. by apply outcomes_fold_ok. Qed.

Lemma arm_ok clk app a :
  qa_current (quick_actions app) = Some a -> requires_confirmation a = true -> app_ok app ->
  app_ok (apply_outcomes clk [NeedsConfirm] app).
Proof.
  intros Ha Hr Hok. apply overlay_set_ok; [|done]. intros Ho. exists a. split; [exact Ha|done].
Qed.

Section key_facts.
Context {T : Type} `{!Tmux T} `{!TextOps} `{!SysText}.
Implicit Types (app : App) (t : T).

Lemma run_selected_outcomes q target t a :
  qa_current q = Some a -> is_task_action a = false -> is_lifecycle a = false ->
  needs_confirm (run_selected q target t).1 = false /\ outcomes_ok (run_selected q target t).1.
Proof.
  intros Ha Ht Hl. unfold run_selected. rewrite Ha.
  destruct a; try done; cbn [requires_confirmation andb]; repeat case_match; cbn [fst];
    (split; [reflexivity|]); intros Hin; cbn in Hin; destruct_or?; try done.
  eexists _, _. split; [reflexivity|]. cbn. by intros [?|?].
Qed.

Lemma activate_overlay_ok clk app t : app_ok app -> app_ok (activate_overlay clk app t).1.
Proof.
  intros Hok. unfold activate_overlay. cbv zeta.
  destruct (qa_current (quick_actions app)) as [a|] eqn:Ea; [|done].
  destruct (is_task_action a) eqn:Et.
  - destruct (requires_confirmation a && _) eqn:Er.
    + apply andb_true_iff in Er as [Er _]. by eapply arm_ok.
    + cbn [fst]. unfold request_task_action. cbv zeta. case_match.
      * apply overlay_set_ok; [by apply closed_overlay_ok|done].
      * apply set_notice_ok, overlay_set_ok; [by apply closed_overlay_ok|]. app_frame.
  - destruct (selected_workspace app) as [target|].
    2: { apply overlay_set_ok; [by apply closed_overlay_ok|done]. }
    destruct (is_lifecycle a) eqn:El.
    + case_match; cbn [fst]; [eapply arm_ok; [done| |done]; by destruct a|].
      apply close_overlay_ok, set_notice_ok. app_frame.
    + destruct (run_selected_outcomes _ target t a Ea Et El) as [Hn Ho].
      destruct (run_selected _ _ _) as [os t']. by apply apply_outcomes_ok.
Qed.

Lemma handle_overlay_key_ok clk k app t :
  qa_open (quick_actions app) = true -> app_ok app -> app_ok (handle_overlay_key clk k app t).1.
Proof.
  intros Ho Hok. unfold handle_overlay_key. destruct (is_enter k); [by apply activate_overlay_ok|].
  cbv zeta. cbn [fst].
  assert (app_ok (app <| quick_actions := (quick_actions app) <| qa_open := false |>
                     <| qa_confirm := false |> <| qa_selected := 0 |> |>)).
  { apply overlay_set_ok; [by apply closed_overlay_ok|done]. }
  assert (forall d, app_ok (app <| quick_actions := move_overlay_selection d (quick_actions app) |>)).
  { intros d. apply overlay_set_ok; [|done]. apply move_overlay_ok; [done|by destruct Hok]. }
  destruct k; try done; destruct (move_of _) as [[]|]; auto.
Qed.
End key_facts.

Lemma detail_ok app d b : app_ok app -> app_ok (app <| detail_scroll := d |> <| agent_detail_follow_tail := b |>).
Proof. intros. app_frame. Qed.
Lemma scroll_detail_ok d app : app_ok app -> app_ok (scroll_detail d app).
Proof. intros. unfold scroll_detail. app_frame. Qed.
Lemma leave_tail_ok app : app_ok app -> app_ok (leave_tail app).
Proof. intros. unfold leave_tail. app_frame. Qed.
Lemma focus_ok app f : app_ok app -> app_ok (app <| focus := f |>).
Proof. intros. app_frame. Qed.
Lemma scroll_stream_ok d app : app_ok app -> app_ok (scroll_stream d app).
Proof. intros. unfold scroll_stream. case_match; app_frame. Qed.
Lemma stream_to_head_ok app : app_ok app -> app_ok (stream_to_head app).
Proof. intros. unfold stream_to_head. app_frame. Qed.
Lemma stream_to_tail_ok app : app_ok app -> app_ok (stream_to_tail app).
Proof. intros. unfold stream_to_tail. app_frame. Qed.

#[export] Hint Resolve scroll_detail_ok leave_tail_ok focus_ok scroll_stream_ok stream_to_head_ok stream_to_tail_ok
  move_selection_ok move_task_selection_ok scroll_messages_ok messages_to_head_ok messages_to_tail_ok
  scroll_tokens_ok tokens_to_head_ok tokens_to_tail_ok open_overlay_ok open_task_overlay_ok
  open_create_task_form_ok open_message_form_ok step_agent_detail_tab_ok handle_bracket_tab_ok
  select_stream_ok cycle_task_filter_ok set_notice_ok clamp_task_selection_ok clamp_token_selection_ok
  reset_detail_ok rebuild_agents_ok create_form_key_ok message_form_key_ok : app.

Lemma handle_list_key_ok clk k app : app_ok app -> app_ok (handle_list_key clk k app).
Proof. intros. unfold handle_list_key. repeat case_match; auto with app. Qed.

Lemma handle_detail_key_ok k app : app_ok app -> app_ok (handle_detail_key k app).
Proof.
  intros Hok. unfold handle_detail_key, handle_tail_tab_key, handle_plain_detail_key.
  assert (app_ok (app <| agent_detail_follow_tail := true |>)) by app_frame.
  assert (app_ok (app <| detail_scroll := 0%Z |>)) by app_frame.
  assert (app_ok ((leave_tail app) <| detail_scroll := 0%Z |>)) by (unfold leave_tail; app_frame).
  repeat case_match; auto with app.
Qed.

Lemma handle_panel_key_ok clk k app : app_ok app -> app_ok (handle_panel_key clk k app).
Proof.
  intros Hok. unfold handle_panel_key. cbv zeta.
  assert (forall d, app_ok (cycle_focus d app)) by (intros; unfold cycle_focus; app_frame).
  assert (app_ok (app <| force_refresh := true |>)) by app_frame.
  repeat case_match; auto using handle_list_key_ok, handle_detail_key_ok with app.
Qed.

Lemma handle_scroll_ok now d app : app_ok app -> app_ok (handle_scroll now d app).
Proof.
  intros Hok. unfold handle_scroll. case_match; [done|]. rewrite ensure_visible_id by done. cbv zeta.
  repeat case_match; auto with app.
Qed.

Lemma handle_key_ok {T} `{!Tmux T} `{!TextOps} `{!SysText} clk ev app (t : T) :
  app_ok app -> app_ok (handle_key clk ev app t).1.
Proof.
  intros Hok. unfold handle_key.
  assert (app_ok (app <| quit := true |>)) by app_frame.
  assert (forall b, app_ok (app <| help_open := b |>)) by (intros; app_frame).
  rewrite ensure_visible_id by done. cbv zeta.
  repeat case_match; cbn [fst]; auto using handle_panel_key_ok, handle_overlay_key_ok with app.
Qed.

(** ** Refreshing *)

Lemma loaded_tasks_ok now app l e :
  app_ok app -> app_ok (clamp_task_selection now (app <| tasks := l |> <| task_snapshot_error := e |>)).
Proof.
  intros H. refine (app_ok_view _ _ _ (task_rows_ok now app l e (task_filter app) (task_cursor app)
    (task_cursor_nonneg _ H) H)).
  unfold clamp_task_selection, filtered_tasks. fsimpl. by destruct (filter_tasks _ _ _).
Qed.

Lemma loaded_trends_ok app m :
  app_ok app -> app_ok (clamp_token_selection (app <| usage_trends := m |>)).
Proof.
  intros [He Hm Ht [Hk _] Hs Hq]. unfold clamp_token_selection. cbv zeta.
  set (app1 := app <| usage_trends := m |>).
  destruct (Z.eqb_spec (Z.of_nat (token_row_count app1)) 0); (split; try assumption).
  - apply within_zero.
  - change (within (clamp (Z.of_nat (token_row_count app1) - 1) (tokens_cursor app))
              (Z.of_nat (token_row_count app1))).
    destruct (clamp_within (tokens_cursor app) (Z.of_nat (token_row_count app1)) Hk); [done|lia].
Qed.

Section loop_facts.
Context {W F T : Type} `{!Machine W F T} `{!Socket W} `{!WatchWire}.
Context `{!FileSystem F} `{!ArtifactFs F} `{!JsonCodec McpConfig} `{!JsonCodec (list Task)}.
Context `{!JsonCodec HistoryEntry} `{!YamlCodec Config} `{!YamlCodec ManagedOverlay}.
Context `{!TextOps} `{!SysText} `{!ParseText} `{!CodexHome F} `{!Prompts F} `{!Tmux T}.
Context (env : Env) (hash_text : string -> string) (fuel : nat) (socket_path ax_bin : string).
Implicit Types (app : App) (w : W) (s : Watch).

Lemma read_history_length (fs : F) path n l :
  read_history_snapshot fs path n = Loaded l -> length l <= n.
Proof.
  unfold read_history_snapshot. destruct (fs_read fs path) as [data|[]]; [|done..].
  destruct (parse_history _ _ _ _) as [es| |]; [|done..]. intros [= <-].
  destruct (Nat.ltb_spec n (length es)); [rewrite length_drop|]; lia.
Qed.

Lemma refresh_messages_ok w app : app_ok app -> app_ok (refresh_messages env socket_path w app).
Proof.
  intros Hok. unfold refresh_messages. destruct (read_history_snapshot _ _ _) as [l| |e] eqn:E;
    eapply reconcile_message_cursor_ok; try exact Hok; try reflexivity.
  - by eapply read_history_length.
  - fsimpl. apply Nat.le_0_l.
  - exact (proj1 (ok_messages _ Hok)).
Qed.

Lemma refresh_tasks_ok now w app : app_ok app -> app_ok (refresh_tasks env socket_path now w app).
Proof.
  intros Hok. unfold refresh_tasks. case_match; [by apply loaded_tasks_ok..|].
  apply clamp_task_selection_ok. app_frame.
Qed.

Lemma notices_ok app n : app_ok app -> app_ok (app <| notice := n |>).
Proof. intros. app_frame. Qed.
Lemma clear_notice_ok src app : app_ok app -> app_ok (clear_refresh_notice src app).
Proof. intros. unfold clear_refresh_notice. repeat case_match; auto using notices_ok. Qed.
Lemma expire_notice_ok clk app : app_ok app -> app_ok (expire_notice clk app).
Proof. intros. unfold expire_notice. repeat case_match; try done. app_frame. Qed.

Lemma refresh_sessions_ok w app : app_ok app -> app_ok (refresh_sessions w app).
Proof.
  intros. unfold refresh_sessions, set_refresh_notice. case_match; [apply clear_notice_ok|]; app_frame.
Qed.
Lemma refresh_workspaces_ok app w app' w' :
  refresh_workspaces env fuel socket_path app w = Some (app', w') -> app_ok app -> app_ok app'.
Proof.
  intros Hr Hok. unfold refresh_workspaces, set_refresh_notice in Hr.
  repeat case_match; simplify_eq; try apply clear_notice_ok; app_frame.
Qed.
Lemma refresh_tree_ok w app app' : refresh_tree env fuel w app = Some app' -> app_ok app -> app_ok app'.
Proof.
  unfold refresh_tree, no_tree. destruct (config_above_cwd _ _); [|intros [= <-] ?; app_frame].
  destruct (load_tree _ _ _ _); [|done]. cbn [mbind option_bind].
  destruct (load _ _ _ _); [|done]. cbn [mbind option_bind]. intros [= <-] ?. app_frame.
Qed.
Lemma refresh_captures_ok now w app : app_ok app -> app_ok (refresh_captures now w app).
Proof. intros. unfold refresh_captures. cbv zeta. case_match. app_frame. Qed.
Lemma refresh_usage_ok now app w app' w' :
  refresh_usage env fuel socket_path now app w = Some (app', w') -> app_ok app -> app_ok app'.
Proof.
  intros Hr Hok. unfold refresh_usage, set_refresh_notice in Hr. repeat case_match; simplify_eq; try done.
  - apply clear_notice_ok. match goal with |- context [by_workspace ?l] =>
      pose proof (loaded_trends_ok app (by_workspace l) Hok); clear Hok end. app_frame.
  - app_frame.
Qed.

Lemma refresh_ok clk app w app' w' :
  refresh env fuel socket_path clk app w = Some (app', w') -> app_ok app -> app_ok app'.
Proof.
  intros Hr Hok. unfold refresh in Hr.
  destruct (refresh_workspaces _ _ _ _ _) as [[app1 w1]|] eqn:E1; [|done]. cbn [mbind option_bind] in Hr.
  apply refresh_workspaces_ok in E1; [|by apply refresh_sessions_ok].
  destruct (refresh_tree _ _ _ _) as [app2|] eqn:E2; [|done]. cbn [mbind option_bind] in Hr.
  apply refresh_tree_ok in E2; [|done].
  destruct (refresh_usage _ _ _ _ _ _) as [[app3 w3]|] eqn:E3; [|done]. cbn [mbind option_bind] in Hr.
  injection Hr as <- <-. apply refresh_usage_ok in E3.
  - app_frame.
  - by apply refresh_captures_ok, refresh_tasks_ok, refresh_messages_ok, rebuild_agents_ok.
Qed.
End loop_facts.
