(* ===== verification/TuiQueue.v ===== *)
(** * What the terminal interface asks for.

    The forms and the quick actions queue work that the loop carries out: destructive
    actions are queued only after a second Enter on the same entry, a task action names
    the version that was on the screen, and a form that waits has work under way. *)

From stdpp Require Import prelude strings list gmap.
From S2P Require Import Prelude Act RustStr Proto History Registry SessionManager Handlers.
From S2P Require Import Paths ConfigSchema ConfigTree Tmux Artifacts WorkspaceManager Dispatch ErrorText.
From S2P Require Import Usage UsageHistory UsageTrends McpClient McpScope McpHost McpTools.
From S2P Require Import RustText TuiData TuiApp TuiLoop TuiFacts.
Local Close Scope Z_scope.

(** ** What is queued

    [queue_view] is what the forms and the quick actions have queued for the loop. *)

Definition queue_view (app : App) :=
  (create_task_form app, pending_task_create app,
   (orchestrator_message_form app, pending_orchestrator_message app),
   (pending_lifecycle app, pending_task_action app)).
Ltac queue_fields :=
  lazy [queue_view set_field create_task_form pending_task_create orchestrator_message_form
        pending_orchestrator_message pending_lifecycle pending_task_action].
Ltac queue_frame := repeat case_match; queue_fields; reflexivity.

Section queue.
Implicit Types (app : App).

Lemma queue_reset_detail app : queue_view (reset_detail app) = queue_view app.
Proof. unfold reset_detail. queue_frame. Qed.
Lemma queue_set_notice clk text err app : queue_view (set_notice clk text err app) = queue_view app.
Proof. unfold set_notice. queue_frame. Qed.
Lemma queue_clamp_task now app : queue_view (clamp_task_selection now app) = queue_view app.
Proof. unfold clamp_task_selection. queue_frame. Qed.
Lemma queue_move_task now d app : queue_view (move_task_selection now d app) = queue_view app.
Proof. unfold move_task_selection. queue_frame. Qed.
Lemma queue_clamp_token app : queue_view (clamp_token_selection app) = queue_view app.
Proof. unfold clamp_token_selection. queue_frame. Qed.
Lemma queue_stream_view app v : queue_view (app <| stream := v |>) = queue_view app.
Proof. queue_frame. Qed.
Lemma queue_cycle_filter now app : queue_view (cycle_task_filter now app) = queue_view app.
Proof. unfold cycle_task_filter. rewrite queue_clamp_task. queue_frame. Qed.
Lemma queue_scroll_tokens d app : queue_view (scroll_tokens d app) = queue_view app.
Proof. unfold scroll_tokens. queue_frame. Qed.
Lemma queue_tokens_head app : queue_view (tokens_to_head app) = queue_view app.
Proof. unfold tokens_to_head. queue_frame. Qed.
Lemma queue_tokens_tail app : queue_view (tokens_to_tail app) = queue_view app.
Proof. unfold tokens_to_tail. queue_frame. Qed.
Lemma queue_scroll_messages d app : queue_view (scroll_messages d app) = queue_view app.
Proof. unfold scroll_messages. queue_frame. Qed.
Lemma queue_messages_head app : queue_view (messages_to_head app) = queue_view app.
Proof. unfold messages_to_head. queue_frame. Qed.
Lemma queue_messages_tail app : queue_view (messages_to_tail app) = queue_view app.
Proof. unfold messages_to_tail. queue_frame. Qed.
Lemma queue_reconcile app : queue_view (reconcile_message_cursor app) = queue_view app.
Proof. unfold reconcile_message_cursor. queue_frame. Qed.
Lemma queue_scroll_stream d app : queue_view (scroll_stream d app) = queue_view app.
Proof. unfold scroll_stream. queue_frame. Qed.
Lemma queue_stream_head app : queue_view (stream_to_head app) = queue_view app.
Proof. unfold stream_to_head. queue_frame. Qed.
Lemma queue_stream_tail app : queue_view (stream_to_tail app) = queue_view app.
Proof. unfold stream_to_tail. queue_frame. Qed.
Lemma queue_move_selection d app : queue_view (move_selection d app) = queue_view app.
Proof. unfold move_selection. repeat case_match; rewrite ?queue_reset_detail; queue_frame. Qed.
Lemma queue_rebuild app : queue_view (rebuild_agents app) = queue_view app.
Proof. unfold rebuild_agents. repeat case_match; rewrite ?queue_reset_detail; queue_frame. Qed.
Lemma queue_visible app : queue_view (ensure_stream_view_visible app) = queue_view app.
Proof. unfold ensure_stream_view_visible. case_match; rewrite ?queue_reset_detail; queue_frame. Qed.
Lemma queue_switch now v app : queue_view (switch_stream now v app) = queue_view app.
Proof. unfold switch_stream. by rewrite queue_clamp_token, queue_clamp_task, queue_reset_detail, queue_stream_view. Qed.
Lemma queue_step_stream now d app : queue_view (step_stream now d app) = queue_view app.
Proof. unfold step_stream. cbv zeta. by rewrite queue_switch, queue_visible. Qed.
Lemma queue_select_stream now i app : queue_view (select_stream now i app) = queue_view app.
Proof. unfold select_stream. cbv zeta. case_match; by rewrite ?queue_switch, queue_visible. Qed.
Lemma queue_focus app f : queue_view (app <| focus := f |>) = queue_view app.
Proof. queue_frame. Qed.
Lemma queue_cycle_focus d app : queue_view (cycle_focus d app) = queue_view app.
Proof. unfold cycle_focus. queue_frame. Qed.
Lemma queue_detail_tab d app : queue_view (step_agent_detail_tab d app) = queue_view app.
Proof. unfold step_agent_detail_tab. rewrite queue_reset_detail. queue_frame. Qed.
Lemma queue_overlay_set app q : queue_view (app <| quick_actions := q |>) = queue_view app.
Proof. queue_frame. Qed.
Lemma queue_close app : queue_view (close_overlay app) = queue_view app.
Proof. apply queue_overlay_set. Qed.
Lemma queue_open_overlay clk app : queue_view (open_overlay clk app) = queue_view app.
Proof. unfold open_overlay. case_match; rewrite ?queue_set_notice; queue_frame. Qed.
Lemma queue_open_task_overlay clk app : queue_view (open_task_overlay clk app) = queue_view app.
Proof. unfold open_task_overlay. repeat case_match; rewrite ?queue_set_notice; queue_frame. Qed.
Lemma queue_outcome clk app o : queue_view (apply_outcome clk app o) = queue_view app.
Proof. destruct o; cbn [apply_outcome]; rewrite ?queue_set_notice; queue_frame. Qed.
Lemma queue_outcomes clk os app : queue_view (apply_outcomes clk os app) = queue_view app.
Proof.
  unfold apply_outcomes. cbv zeta.
  assert (queue_view (foldl (apply_outcome clk) app os) = queue_view app) as <-.
  { revert app. induction os as [|o os IH]; intros; cbn [foldl]; [done|]. by rewrite IH, queue_outcome. }
  case_match; rewrite ?queue_overlay_set; done.
Qed.
Lemma queue_detail app d : queue_view (app <| detail_scroll := d |>) = queue_view app.
Proof. queue_frame. Qed.
Lemma queue_follow app b : queue_view (app <| agent_detail_follow_tail := b |>) = queue_view app.
Proof. queue_frame. Qed.
Lemma queue_force app b : queue_view (app <| force_refresh := b |>) = queue_view app.
Proof. queue_frame. Qed.
Lemma queue_help app b : queue_view (app <| help_open := b |>) = queue_view app.
Proof. queue_frame. Qed.
Lemma queue_quit app b : queue_view (app <| quit := b |>) = queue_view app.
Proof. queue_frame. Qed.
Lemma queue_bracket now d app : queue_view (handle_bracket_tab now d app) = queue_view app.
Proof. unfold handle_bracket_tab. case_match; [apply queue_detail_tab|apply queue_step_stream]. Qed.
Lemma queue_detail_key k app : queue_view (handle_detail_key k app) = queue_view app.
Proof.
  unfold handle_detail_key, handle_tail_tab_key, handle_plain_detail_key, scroll_detail, leave_tail.
  repeat case_match; rewrite ?queue_detail_tab, ?queue_detail, ?queue_follow, ?queue_focus; done.
Qed.
Lemma queue_draw turn app : queue_view (draw turn app) = queue_view app.
Proof. unfold draw, draw_stream_scroll, apply_tail_detail_scroll. queue_frame. Qed.
End queue.


Create Rewrite HintDb queue.
#[export] Hint Rewrite queue_reset_detail queue_set_notice queue_clamp_task queue_move_task queue_clamp_token
  queue_stream_view queue_cycle_filter queue_scroll_tokens queue_tokens_head queue_tokens_tail
  queue_scroll_messages queue_messages_head queue_messages_tail queue_reconcile queue_scroll_stream
  queue_stream_head queue_stream_tail queue_move_selection queue_rebuild queue_visible queue_switch
  queue_step_stream queue_select_stream queue_focus queue_cycle_focus queue_detail_tab queue_overlay_set
  queue_close queue_open_overlay queue_open_task_overlay queue_outcomes queue_detail queue_follow
  queue_force queue_help queue_quit queue_bracket queue_detail_key queue_draw : queue.

(** ** Forms

    A form that is being submitted has its draft queued or, for messages, a worker. *)
Definition creating (app : App) : Prop :=
  exists f, create_task_form app = Some f /\ cf_submitting f = true.
Definition sending (app : App) : Prop :=
  exists f, orchestrator_message_form app = Some f /\ mf_submitting f = true.

Record forms_ok (app : App) (job : option string) : Prop := {
  forms_apart : create_task_form app = None \/ orchestrator_message_form app = None;
  forms_create : is_Some (pending_task_create app) <-> creating app;
  forms_send : is_Some (pending_orchestrator_message app) \/ is_Some job <-> sending app;
  forms_once : pending_orchestrator_message app = None \/ job = None;
}.

Definition forms_view (app : App) :=
  (create_task_form app, pending_task_create app, orchestrator_message_form app,
   pending_orchestrator_message app).
Lemma forms_ok_forms app app' job :
  forms_view app' = forms_view app -> forms_ok app job -> forms_ok app' job.
Proof.
  intros [= E1 E2 E3 E4] [H1 H2 H3 H4]. unfold creating, sending in *.
  split; unfold creating, sending; rewrite ?E1, ?E2, ?E3, ?E4; assumption.
Qed.
Lemma forms_ok_view app app' job :
  queue_view app' = queue_view app -> forms_ok app job -> forms_ok app' job.
Proof. intros [= E1 E2 E3 E4 E5 E6]. apply forms_ok_forms. unfold forms_view. congruence. Qed.

(** No form is open: nothing is queued by one. *)
Lemma forms_idle app job :
  forms_ok app job -> create_task_form app = None -> orchestrator_message_form app = None ->
  pending_task_create app = None /\ pending_orchestrator_message app = None /\ job = None.
Proof.
  intros [_ [H2 _] [H3 _] _] Ec Em. unfold creating, sending in *.
  destruct (pending_task_create app); [destruct H2 as (? & ? & _); [done|congruence]|].
  destruct (pending_orchestrator_message app); [destruct H3 as (? & ? & _); [by left|congruence]|].
  destruct job; [destruct H3 as (? & ? & _); [by right|congruence]|done].
Qed.

Ltac forms_fields :=
  lazy [set_field create_task_form pending_task_create orchestrator_message_form pending_orchestrator_message
        cf_submitting mf_submitting].
(** The forms of an application given field by field. *)
Lemma forms_make app job cf pc mf pm :
  create_task_form app = cf -> pending_task_create app = pc ->
  orchestrator_message_form app = mf -> pending_orchestrator_message app = pm ->
  (cf = None \/ mf = None) -> (is_Some pc <-> exists f, cf = Some f /\ cf_submitting f = true) ->
  (is_Some pm \/ is_Some job <-> exists f, mf = Some f /\ mf_submitting f = true) ->
  (pm = None \/ job = None) -> forms_ok app job.
Proof. intros <- <- <- <- ????. by split. Qed.

Section forms.
Implicit Types (app : App).

Lemma create_key_forms clk ev app job :
  is_Some (create_task_form app) -> forms_ok app job ->
  forms_ok (handle_create_task_form_key clk ev app) job.
Proof.
  intros [f Ef] Hok. pose proof Hok as [Ha [Hc Hc'] Hs Ho].
  assert (orchestrator_message_form app = None) as Em by (destruct Ha; congruence).
  unfold sending in Hs. rewrite Em in Hs.
  unfold handle_create_task_form_key. rewrite Ef. destruct (cf_submitting f) eqn:Esub; [done|].
  assert (pending_task_create app = None) as Ep.
  { destruct (pending_task_create app); [|done]. destruct Hc as (f' & Ef' & Hf'); [done|]. congruence. }
  assert (forall g, cf_submitting g = false -> forms_ok (app <| create_task_form := Some g |>) job) as Hset.
  { intros g Hg. eapply forms_make; [reflexivity|exact Ep|exact Em|reflexivity|by right| |exact Hs|exact Ho].
    split; [by intros []|]. intros (f' & [= <-] & Hf'). congruence. }
  assert (forms_ok (cancel_create_task_form clk app) job).
  { unfold cancel_create_task_form. eapply forms_ok_view; [apply queue_set_notice|].
    eapply forms_make; [reflexivity|reflexivity|exact Em|reflexivity|by left| |exact Hs|exact Ho].
    split; [by intros []|]. by intros (? & ? & _). }
  assert (forms_ok (submit_create_task_form clk app) job).
  { unfold submit_create_task_form. rewrite Ef. destruct (validate_create_task_form f _).
    - eapply forms_ok_view; [apply queue_set_notice|].
      eapply forms_make; [reflexivity|reflexivity|exact Em|reflexivity|by right| |exact Hs|exact Ho].
      split; [|done]. intros _. eexists. by split.
    - eapply forms_ok_view; [apply queue_set_notice|]. by apply Hset. }
  destruct (ke_code ev); try done; try (by apply Hset);
    (destruct (text_edit ev); [|done]); apply Hset; unfold edit_active; by destruct (cf_field f).
Qed.

Lemma message_key_forms clk ev app job :
  is_Some (orchestrator_message_form app) -> forms_ok app job ->
  forms_ok (handle_orchestrator_message_form_key clk ev app) job.
Proof.
  intros [f Ef] Hok. pose proof Hok as [Ha Hc [Hs Hs'] Ho].
  assert (create_task_form app = None) as Em by (destruct Ha; congruence).
  unfold creating in Hc. rewrite Em in Hc.
  unfold handle_orchestrator_message_form_key. rewrite Ef. destruct (mf_submitting f) eqn:Esub; [done|].
  assert (~ (is_Some (pending_orchestrator_message app) \/ is_Some job)) as Hno.
  { intros Hx. destruct (Hs Hx) as (f' & Ef' & Hf'). congruence. }
  assert (pending_orchestrator_message app = None) as Ep.
  { destruct (pending_orchestrator_message app); [|done]. destruct Hno. by left. }
  assert (job = None) as -> by (destruct job; [destruct Hno; by right|done]).
  assert (forall g, mf_submitting g = false -> forms_ok (app <| orchestrator_message_form := Some g |>) None) as Hset.
  { intros g Hg. eapply forms_make; [exact Em|reflexivity|reflexivity|exact Ep|by left|exact Hc| |by left].
    split; [by intros [[]|[]]|]. intros (f' & [= <-] & Hf'). congruence. }
  assert (forms_ok (cancel_orchestrator_message_form clk app) None).
  { unfold cancel_orchestrator_message_form. eapply forms_ok_view; [apply queue_set_notice|].
    eapply forms_make; [exact Em|reflexivity..|by right|exact Hc| |by left].
    split; [by intros [[]|[]]|]. by intros (? & ? & _). }
  assert (forms_ok (submit_orchestrator_message_form clk app) None).
  { unfold submit_orchestrator_message_form. rewrite Ef. destruct (validate_orchestrator_message_form f).
    - eapply forms_ok_view; [apply queue_set_notice|].
      eapply forms_make; [exact Em|reflexivity..|by left|exact Hc| |by right].
      split; [|intros _; left; done]. intros _. eexists. by split.
    - eapply forms_ok_view; [apply queue_set_notice|]. by apply Hset. }
  destruct (ke_code ev); try done; (destruct (text_edit ev); [|done]); by apply Hset.
Qed.
End forms.

(** ** Keys *)

Lemma panel_queue clk k app :
  queue_view (handle_panel_key clk k app) = queue_view app
  \/ handle_panel_key clk k app = open_create_task_form (utc_now clk) app
     /\ stream app = ViewTasks
  \/ handle_panel_key clk k app = open_orchestrator_message_form app.
Proof.
  unfold handle_panel_key, handle_list_key. cbv zeta.
  repeat case_match; autorewrite with queue; auto.
Qed.

Section key_queue.
Context {T : Type} `{!Tmux T} `{!TextOps} `{!SysText}.
Implicit Types (app : App) (t : T).

(** What Enter on the overlay queues. *)
Lemma activate_queue clk app t :
  let app' := (activate_overlay clk app t).1 in
  let q := quick_actions app in
  forms_view app' = forms_view app
  /\ (pending_lifecycle app' = pending_lifecycle app
      \/ exists a ws, qa_current q = Some a /\ requires_confirmation a = true /\ qa_confirm q = true
          /\ selected_workspace app = Some ws /\ pending_lifecycle app' = Some (mkPendingLifecycle a ws))
  /\ (pending_task_action app' = pending_task_action app
      \/ exists a, qa_current q = Some a /\ is_task_action a = true
          /\ (requires_confirmation a = true -> qa_confirm q = true)
          /\ pending_task_action app'
             = Some (mkPendingTaskAction a (qa_target_task_id q) (qa_target_task_version q))).
Proof.
  cbv zeta. unfold activate_overlay. cbv zeta.
  assert (forall app', queue_view app' = queue_view app ->
    forms_view app' = forms_view app /\ pending_lifecycle app' = pending_lifecycle app
    /\ pending_task_action app' = pending_task_action app) as Hsame.
  { intros app' [= E1 E2 E3 E4 E5 E6]. unfold forms_view. rewrite E1, E2, E3, E4. by split. }
  destruct (qa_current (quick_actions app)) as [a|] eqn:Ea.
  2: { cbn [fst]. split; [done|]. split; by left. }
  destruct (is_task_action a) eqn:Et.
  { destruct (requires_confirmation a && negb (qa_confirm (quick_actions app))) eqn:Er; cbn [fst].
    { destruct (Hsame (apply_outcomes clk [NeedsConfirm] app)) as (?&?&?); [apply queue_outcomes|auto]. }
    unfold request_task_action. cbv zeta. case_match.
    { destruct (Hsame (app <| quick_actions := (quick_actions app) <| qa_open := false |> |>)) as (?&?&?);
        [apply queue_overlay_set|auto]. }
    split; [reflexivity|]. split; [by left|]. right. exists a. split; [done|]. split; [done|]. split; [|reflexivity].
    intros Hr. rewrite Hr in Er. by destruct (qa_confirm _). }
  destruct (selected_workspace app) as [target|] eqn:Es.
  2: { destruct (Hsame (app <| quick_actions := (quick_actions app) <| qa_open := false |> |>)) as (?&?&?);
         [apply queue_overlay_set|auto]. }
  destruct (is_lifecycle a) eqn:El.
  { destruct (qa_confirm (quick_actions app)) eqn:Ec; cbn [fst negb].
    - unfold request_lifecycle. split; [reflexivity|]. split; [|by left]. right.
      exists a, target. split; [done|]. split; [by destruct a|]. by repeat split.
    - destruct (Hsame (apply_outcomes clk [NeedsConfirm] app)) as (?&?&?); [apply queue_outcomes|auto]. }
  destruct (run_selected _ _ _) as [os t']. cbn [fst].
  destruct (Hsame (apply_outcomes clk os app)) as (?&?&?); [apply queue_outcomes|auto].
Qed.

Lemma overlay_key_queue clk k app t :
  is_enter k = false -> queue_view (handle_overlay_key clk k app t).1 = queue_view app.
Proof.
  intros Hk. unfold handle_overlay_key. rewrite Hk. cbn [fst].
  repeat case_match; autorewrite with queue; reflexivity.
Qed.

Lemma open_create_forms now app :
  forms_ok (open_create_task_form now app) None.
Proof.
  unfold open_create_task_form. cbv zeta. eapply forms_make; [reflexivity..|by right| | |by left].
  - split; [by intros []|]. by intros (f & [= <-] & Hf).
  - split; [by intros [[]|[]]|]. by intros (f & [=] & _).
Qed.
Lemma open_message_forms app :
  forms_ok (open_orchestrator_message_form app) None.
Proof.
  unfold open_orchestrator_message_form. eapply forms_make; [reflexivity..|by left| | |by left].
  - split; [by intros []|]. by intros (f & [=] & _).
  - split; [by intros [[]|[]]|]. by intros (f & [= <-] & Hf).
Qed.

Lemma handle_panel_key_forms clk k app job :
  forms_ok app job -> create_task_form app = None -> orchestrator_message_form app = None ->
  forms_ok (handle_panel_key clk k app) job.
Proof.
  intros Hok Hc Hm. destruct (forms_idle _ _ Hok Hc Hm) as (_ & _ & ->).
  destruct (panel_queue clk k app) as [Hv|[[-> _]| ->]].
  - by eapply forms_ok_view.
  - apply open_create_forms.
  - apply open_message_forms.
Qed.

Lemma handle_overlay_key_forms clk k app t job :
  forms_ok app job -> forms_ok (handle_overlay_key clk k app t).1 job.
Proof.
  intros Hok. destruct (is_enter k) eqn:Ek.
  - unfold handle_overlay_key. rewrite Ek. apply (forms_ok_forms app); [apply activate_queue|done].
  - apply (forms_ok_view app); [by apply overlay_key_queue|done].
Qed.

Lemma handle_key_forms clk ev app t job :
  forms_ok app job -> forms_ok (handle_key clk ev app t).1 job.
Proof.
  intros Hok. unfold handle_key.
  assert (forall b, forms_ok (app <| quit := b |>) job) by (intros; by apply (forms_ok_view app); [apply queue_quit|]).
  assert (forall b, forms_ok (app <| help_open := b |>) job) by (intros; by apply (forms_ok_view app); [apply queue_help|]).
  pose proof (forms_ok_view _ _ _ (queue_visible app) Hok) as Hv.
  pose proof (queue_visible app) as [= E1 E2 E3 E4 E5 E6].
  assert (forall b, forms_ok ((ensure_stream_view_visible app) <| help_open := b |>) job)
    by (intros; by eapply forms_ok_view; [apply queue_help|]).
  cbv zeta. repeat case_match; cbn [fst]; auto using handle_overlay_key_forms;
    repeat match goal with Hb : bool_decide (is_Some ?x) = _ |- _ =>
      first [apply bool_decide_eq_true in Hb|apply bool_decide_eq_false, eq_None_not_Some in Hb] end;
    auto using message_key_forms, create_key_forms; apply handle_panel_key_forms; congruence || done.
Qed.
End key_queue.

(** ** How the overlay changes

    [overlay_step enter app q] says what one key may make of the overlay [quick_actions
    app]; [enter] is whether the key was Enter. *)
Inductive overlay_step (enter : bool) (app : App) : QuickActionState -> Prop :=
| os_same : overlay_step enter app (quick_actions app)
| os_closed q : qa_open q = false -> overlay_step enter app q
| os_moved q :
    qa_open (quick_actions app) = true -> qa_confirm q = false -> qa_actions q = qa_actions (quick_actions app) ->
    qa_target_task_id q = qa_target_task_id (quick_actions app) ->
    qa_target_task_version q = qa_target_task_version (quick_actions app) -> overlay_step enter app q
| os_armed :
    enter = true -> qa_open (quick_actions app) = true -> qa_confirm (quick_actions app) = false ->
    overlay_step enter app ((quick_actions app) <| qa_confirm := true |>)
| os_workspace q :
    qa_confirm q = false -> Forall (fun a => is_task_action a = false) (qa_actions q) -> overlay_step enter app q
| os_task q t :
    qa_confirm q = false -> t ∈ tasks app -> qa_target_task_id q = t_id t ->
    qa_target_task_version q = t_version t -> overlay_step enter app q.

Lemma overlay_same enter app app' :
  quick_actions app' = quick_actions app -> overlay_step enter app (quick_actions app').
Proof. intros ->. constructor. Qed.

Lemma filter_tasks_in now l mode t : t ∈ filter_tasks now l mode -> t ∈ l.
Proof.
  unfold filter_tasks, sort_tasks_for_display. rewrite sort_by_perm. rewrite !list_elem_of_In. intros H%filter_In.
  by destruct H.
Qed.

Lemma open_overlay_step enter clk app : overlay_step enter app (quick_actions (open_overlay clk app)).
Proof.
  unfold open_overlay. case_match; [|by apply overlay_same]. fsimpl. apply os_workspace; [done|].
  cbn [qa_actions]. destruct (match agent_entries app !! selected_entry app with Some _ => _ | None => _ end);
    apply (bool_decide_unpack _); vm_compute; exact I.
Qed.
Lemma open_task_overlay_step enter clk app : overlay_step enter app (quick_actions (open_task_overlay clk app)).
Proof.
  unfold open_task_overlay. destruct (selected_task _ _) as [t|] eqn:Et; [|by apply overlay_same].
  destruct (task_actions t); [by apply overlay_same|]. fsimpl. apply (os_task _ _ _ t); try done.
  eapply filter_tasks_in, list_elem_of_lookup_2. exact Et.
Qed.
Lemma close_overlay_step enter app : overlay_step enter app (quick_actions (close_overlay app)).
Proof. by apply os_closed. Qed.

(** The operations that leave the overlay alone. *)
Ltac overlay_frame := lazy [set_field quick_actions]; reflexivity.
Lemma overlay_of_reset app : quick_actions (reset_detail app) = quick_actions app.
Proof. overlay_frame. Qed.
Lemma overlay_of_clamp_task now app : quick_actions (clamp_task_selection now app) = quick_actions app.
Proof. unfold clamp_task_selection. case_match; overlay_frame. Qed.
Lemma overlay_of_clamp_token app : quick_actions (clamp_token_selection app) = quick_actions app.
Proof. unfold clamp_token_selection. case_match; overlay_frame. Qed.
Lemma overlay_of_visible app : quick_actions (ensure_stream_view_visible app) = quick_actions app.
Proof. unfold ensure_stream_view_visible. case_match; overlay_frame. Qed.
Lemma overlay_of_switch now v app : quick_actions (switch_stream now v app) = quick_actions app.
Proof. unfold switch_stream. rewrite overlay_of_clamp_token, overlay_of_clamp_task. overlay_frame. Qed.
Lemma overlay_of_move_selection d app : quick_actions (move_selection d app) = quick_actions app.
Proof. unfold move_selection. repeat case_match; rewrite ?overlay_of_reset; overlay_frame. Qed.
Lemma overlay_of_bracket now d app : quick_actions (handle_bracket_tab now d app) = quick_actions app.
Proof.
  unfold handle_bracket_tab, step_agent_detail_tab, step_stream. cbv zeta.
  case_match; [overlay_frame|by rewrite overlay_of_switch, overlay_of_visible].
Qed.
Lemma overlay_of_select now i app : quick_actions (select_stream now i app) = quick_actions app.
Proof. unfold select_stream. cbv zeta. case_match; by rewrite ?overlay_of_switch, overlay_of_visible. Qed.
Lemma overlay_of_filter now app : quick_actions (cycle_task_filter now app) = quick_actions app.
Proof. unfold cycle_task_filter. rewrite overlay_of_clamp_task. overlay_frame. Qed.
Lemma overlay_of_detail_key k app : quick_actions (handle_detail_key k app) = quick_actions app.
Proof.
  unfold handle_detail_key, handle_tail_tab_key, handle_plain_detail_key, scroll_detail, leave_tail,
    step_agent_detail_tab, reset_detail. repeat case_match; overlay_frame.
Qed.

Lemma list_key_step enter clk k app : overlay_step enter app (quick_actions (handle_list_key clk k app)).
Proof.
  unfold handle_list_key. cbv zeta.
  unfold move_task_selection, scroll_messages, messages_to_head, messages_to_tail, scroll_tokens, tokens_to_head,
    tokens_to_tail, scroll_stream, stream_to_head, stream_to_tail.
  repeat case_match;
    first [apply open_overlay_step|apply open_task_overlay_step|apply overlay_same, overlay_of_move_selection
          |apply overlay_same; overlay_frame|unfold open_create_task_form; by apply os_closed].
Qed.
Lemma panel_key_step enter clk k app : overlay_step enter app (quick_actions (handle_panel_key clk k app)).
Proof.
  unfold handle_panel_key, cycle_focus. cbv zeta.
  repeat case_match;
    first [apply list_key_step|apply overlay_same, overlay_of_detail_key|apply overlay_same, overlay_of_bracket
          |apply overlay_same, overlay_of_select|apply overlay_same, overlay_of_filter
          |unfold open_orchestrator_message_form; by apply os_closed|apply overlay_same; overlay_frame].
Qed.

Lemma outcomes_overlay clk os app :
  needs_confirm os = false ->
  quick_actions (apply_outcomes clk os app) = quick_actions app
  \/ qa_open (quick_actions (apply_outcomes clk os app)) = false.
Proof.
  intros Hn. unfold apply_outcomes. cbv zeta. rewrite Hn. clear Hn.
  enough (forall app0, quick_actions app0 = quick_actions app \/ qa_open (quick_actions app0) = false ->
    quick_actions (foldl (apply_outcome clk) app0 os) = quick_actions app
    \/ qa_open (quick_actions (foldl (apply_outcome clk) app0 os)) = false) as H by (apply H; by left).
  induction os as [|o os IH]; intros app0 H0; [done|]. cbn [foldl]. apply IH.
  destruct o; cbn [apply_outcome]; [exact H0..|]. by right.
Qed.

Section overlay_keys.
Context {T : Type} `{!Tmux T} `{!TextOps} `{!SysText}.
Implicit Types (app : App) (t : T).

Lemma activate_step clk app t :
  qa_open (quick_actions app) = true ->
  overlay_step true app (quick_actions (activate_overlay clk app t).1).
Proof.
  intros Ho. unfold activate_overlay. cbv zeta.
  destruct (qa_current (quick_actions app)) as [a|] eqn:Ea; [|apply os_same].
  destruct (is_task_action a) eqn:Et.
  { destruct (requires_confirmation a && negb (qa_confirm (quick_actions app))) eqn:Er; cbn [fst].
    - apply andb_true_iff in Er as [_ Er%negb_true_iff]. by apply os_armed.
    - unfold request_task_action. cbv zeta. case_match; by apply os_closed. }
  destruct (selected_workspace app) as [target|]; [|by apply os_closed].
  destruct (is_lifecycle a) eqn:El.
  { destruct (qa_confirm (quick_actions app)) eqn:Ec; cbn [fst negb]; [by apply os_closed|by apply os_armed]. }
  destruct (run_selected_outcomes _ target t a Ea Et El) as [Hn _].
  destruct (run_selected _ _ _) as [os t']. cbn [fst] in *.
  destruct (outcomes_overlay clk os app Hn) as [->|]; [apply os_same|by apply os_closed].
Qed.

Lemma overlay_key_step clk k app t :
  qa_open (quick_actions app) = true -> overlay_ok (quick_actions app) ->
  overlay_step (is_enter k) app (quick_actions (handle_overlay_key clk k app t).1).
Proof.
  intros Ho Hq. unfold handle_overlay_key. destruct (is_enter k); [by apply activate_step|]. cbn [fst].
  assert (forall d, overlay_step false app (move_overlay_selection d (quick_actions app))) as Hmove.
  { intros d. unfold move_overlay_selection. destruct (Hq Ho) as (a & Ha & _).
    destruct (qa_actions (quick_actions app)) eqn:E; [unfold qa_current in Ha; by rewrite E in Ha|].
    by apply os_moved. }
  repeat case_match; first [by apply os_closed|apply Hmove|apply os_same].
Qed.

Definition presses_enter (ev : KeyEvent) : bool :=
  is_enter (ke_code ev) && match ke_kind ev with KeyRelease => false | _ => true end.

Lemma form_key_overlay clk ev app :
  quick_actions (handle_create_task_form_key clk ev app) = quick_actions app
  /\ quick_actions (handle_orchestrator_message_form_key clk ev app) = quick_actions app.
Proof.
  unfold handle_create_task_form_key, handle_orchestrator_message_form_key, cancel_create_task_form,
    submit_create_task_form, cancel_orchestrator_message_form, submit_orchestrator_message_form, set_notice.
  split; repeat case_match; overlay_frame.
Qed.

Lemma tasks_of_visible app : tasks (ensure_stream_view_visible app) = tasks app.
Proof. unfold ensure_stream_view_visible. case_match; reflexivity. Qed.

Lemma handle_key_step clk ev app t :
  app_ok app -> overlay_step (presses_enter ev) app (quick_actions (handle_key clk ev app t).1).
Proof.
  intros Hok. unfold handle_key, presses_enter. rewrite ensure_visible_id by done. cbv zeta.
  destruct (form_key_overlay clk ev app) as [Ec Em].
  destruct (ke_kind ev); rewrite ?andb_false_r, ?andb_true_r; [..|apply os_same].
  all: repeat case_match; cbn [fst];
    first [by apply overlay_same|apply overlay_key_step; [done|apply Hok]|apply panel_key_step
          |apply overlay_same; overlay_frame].
Qed.

(** Keys other than Enter queue no action. *)
Lemma handle_key_queue clk ev app t :
  app_ok app ->
  let app' := (handle_key clk ev app t).1 in
  pending_lifecycle app' = pending_lifecycle app /\ pending_task_action app' = pending_task_action app
  \/ presses_enter ev = true /\ qa_open (quick_actions app) = true
     /\ app' = (activate_overlay clk app t).1.
Proof.
  intros Hok. cbv zeta. unfold handle_key, presses_enter. rewrite ensure_visible_id by done. cbv zeta.
  assert (forall app', queue_view app' = queue_view app ->
    pending_lifecycle app' = pending_lifecycle app /\ pending_task_action app' = pending_task_action app) as Hsame.
  { by intros app' [= E1 E2 E3 E4 E5 E6]. }
  assert (pending_lifecycle (handle_panel_key clk (ke_code ev) app) = pending_lifecycle app
    /\ pending_task_action (handle_panel_key clk (ke_code ev) app) = pending_task_action app) as Hpanel.
  { destruct (panel_queue clk (ke_code ev) app) as [Hv|[[-> _]| ->]]; [by apply Hsame|..];
      split; reflexivity. }
  assert (pending_lifecycle (handle_create_task_form_key clk ev app) = pending_lifecycle app
    /\ pending_task_action (handle_create_task_form_key clk ev app) = pending_task_action app) as Hcreate.
  { unfold handle_create_task_form_key, cancel_create_task_form, submit_create_task_form, set_notice.
    split; repeat case_match; reflexivity. }
  assert (pending_lifecycle (handle_orchestrator_message_form_key clk ev app) = pending_lifecycle app
    /\ pending_task_action (handle_orchestrator_message_form_key clk ev app) = pending_task_action app) as Hmsg.
  { unfold handle_orchestrator_message_form_key, cancel_orchestrator_message_form,
      submit_orchestrator_message_form, set_notice. split; repeat case_match; reflexivity. }
  pose proof (Hsame _ (queue_quit app true)). pose proof (fun b => Hsame _ (queue_help app b)).
  destruct (ke_kind ev); [..|by left]; rewrite ?andb_true_r.
  all: repeat case_match; cbn [fst]; auto.
  all: destruct (is_enter (ke_code ev)) eqn:Ek; [right; unfold handle_overlay_key; by rewrite Ek|left].
  all: by apply Hsame, overlay_key_queue.
Qed.
End overlay_keys.

(** ** Turns of the loop *)

Section turns.
Context {W F T : Type} `{!Machine W F T} `{!Socket W} `{!WatchWire}.
Context `{!FileSystem F} `{!ArtifactFs F} `{!JsonCodec McpConfig} `{!JsonCodec (list Task)}.
Context `{!JsonCodec HistoryEntry} `{!YamlCodec Config} `{!YamlCodec ManagedOverlay}.
Context `{!TextOps} `{!SysText} `{!ParseText} `{!CodexHome F} `{!Prompts F} `{!Tmux T}.
Context (env : Env) (hash_text : string -> string) (fuel : nat) (socket_path ax_bin : string).
Implicit Types (app : App) (w : W) (s : Watch).

Lemma draw_ok turn app : app_ok app -> app_ok (draw turn app).
Proof.
  intros Hok. unfold draw, draw_stream_scroll, apply_tail_detail_scroll. repeat case_match; app_frame_of Hok || exact Hok.
Qed.
Lemma draw_overlay turn app :
  quick_actions (draw turn app) = quick_actions app /\ tasks (draw turn app) = tasks app.
Proof. unfold draw, draw_stream_scroll, apply_tail_detail_scroll. split; repeat case_match; reflexivity. Qed.

Lemma handle_scroll_frame now d app :
  queue_view (handle_scroll now d app) = queue_view app
  /\ quick_actions (handle_scroll now d app) = quick_actions app.
Proof.
  unfold handle_scroll, scroll_detail. cbv zeta. split.
  - repeat case_match; autorewrite with queue; reflexivity.
  - unfold move_task_selection, scroll_messages, scroll_tokens, scroll_stream.
    repeat case_match; rewrite ?overlay_of_move_selection; try reflexivity;
      etransitivity; try apply overlay_of_visible; overlay_frame.
Qed.

Definition event_enter (turn : Turn) : bool :=
  match tu_event turn with Some (EvKey ev) => presses_enter ev | _ => false end.

(** The event of a turn: the invariants, the overlay and what is queued. *)
Lemma react_facts turn s w :
  app_ok (wa_app s) ->
  let app' := wa_app (react turn s w).1 in
  app_ok app'
  /\ (forms_ok (wa_app s) (wa_message_job s) -> forms_ok app' (wa_message_job s))
  /\ overlay_step (event_enter turn) (wa_app s) (quick_actions app')
  /\ (pending_lifecycle app' = pending_lifecycle (wa_app s)
      /\ pending_task_action app' = pending_task_action (wa_app s)
      \/ event_enter turn = true /\ qa_open (quick_actions (wa_app s)) = true
         /\ exists t : T, app' = (activate_overlay (tu_clock turn) (draw turn (wa_app s)) t).1).
Proof.
  intros Hok. cbv zeta. unfold react, handle_event, event_enter.
  pose proof (draw_ok turn _ Hok) as Hd. pose proof (draw_overlay turn (wa_app s)) as [Eq Et].
  pose proof (queue_draw turn (wa_app s)) as Hv. pose proof Hv as [= E1 E2 E3 E4 E5 E6].
  assert (forall app', queue_view app' = queue_view (draw turn (wa_app s)) ->
    quick_actions app' = quick_actions (draw turn (wa_app s)) -> app_ok app' ->
    app_ok app' /\ (forms_ok (wa_app s) (wa_message_job s) -> forms_ok app' (wa_message_job s))
    /\ overlay_step (event_enter turn) (wa_app s) (quick_actions app')
    /\ (pending_lifecycle app' = pending_lifecycle (wa_app s)
        /\ pending_task_action app' = pending_task_action (wa_app s)
        \/ event_enter turn = true /\ qa_open (quick_actions (wa_app s)) = true
           /\ exists t : T, app' = (activate_overlay (tu_clock turn) (draw turn (wa_app s)) t).1)) as Hquiet.
  { intros app' Hq Ho Ha. split; [done|]. split; [intros; by eapply forms_ok_view; [etransitivity|]|].
    split; [by apply overlay_same; rewrite Ho|]. left. rewrite <-Hq in Hv. by injection Hv as ?????. }
  unfold event_enter in Hquiet.
  destruct (tu_event turn) as [[ev| | |]|]; [|try (by apply Hquiet)..].
  2, 3: destruct (handle_scroll_frame (utc_now (tu_clock turn)) (-1) (draw turn (wa_app s))),
    (handle_scroll_frame (utc_now (tu_clock turn)) 1 (draw turn (wa_app s)));
    cbn [fst wa_app]; apply Hquiet; auto using handle_scroll_ok.
  pose proof (handle_key_ok (tu_clock turn) ev _ (tmux_state w) Hd) as K1.
  pose proof (fun job => handle_key_forms (tu_clock turn) ev (draw turn (wa_app s)) (tmux_state w) job) as K2.
  pose proof (handle_key_step (tu_clock turn) ev _ (tmux_state w) Hd) as K3.
  pose proof (handle_key_queue (tu_clock turn) ev _ (tmux_state w) Hd) as K4.
  destruct (handle_key _ ev _ _) as [app' t'] eqn:Ek. cbn [fst wa_app] in *.
  split; [done|]. split; [intros Hf; by apply K2; eapply forms_ok_view|]. split.
  { inversion K3; [by apply overlay_same|..].
    - by apply os_closed.
    - apply os_moved; by rewrite <-?Eq.
    - rewrite Eq. by apply os_armed; rewrite <-?Eq.
    - by apply os_workspace.
    - eapply os_task; eauto. by rewrite <-Et. }
  destruct K4 as [[K4 K5]|(K4 & K5 & K6)]; [left; by rewrite K4, K5|].
  right. split; [done|]. split; [by rewrite <-Eq|]. by exists (tmux_state w).
Qed.

(** *** Settling *)

Lemma frames_trans app app' app'' :
  queue_view app'' = queue_view app' /\ quick_actions app'' = quick_actions app' ->
  queue_view app' = queue_view app /\ quick_actions app' = quick_actions app ->
  queue_view app'' = queue_view app /\ quick_actions app'' = quick_actions app.
Proof. intros [-> ->]. done. Qed.

Lemma refresh_tasks_frame now w app :
  queue_view (refresh_tasks env socket_path now w app) = queue_view app
  /\ quick_actions (refresh_tasks env socket_path now w app) = quick_actions app.
Proof.
  unfold refresh_tasks. rewrite queue_clamp_task, overlay_of_clamp_task. split; queue_frame || (case_match; reflexivity).
Qed.
Lemma refresh_messages_frame w app :
  queue_view (refresh_messages env socket_path w app) = queue_view app
  /\ quick_actions (refresh_messages env socket_path w app) = quick_actions app.
Proof.
  unfold refresh_messages. rewrite queue_reconcile. split; [queue_frame|].
  unfold reconcile_message_cursor. repeat case_match; overlay_frame.
Qed.

Lemma rebuild_overlay app : quick_actions (rebuild_agents app) = quick_actions app.
Proof. unfold rebuild_agents. repeat case_match; rewrite ?overlay_of_reset; overlay_frame. Qed.

Lemma clear_notice_frame src app :
  queue_view (clear_refresh_notice src app) = queue_view app
  /\ quick_actions (clear_refresh_notice src app) = quick_actions app.
Proof. unfold clear_refresh_notice. split; [queue_frame|repeat case_match; overlay_frame]. Qed.

Lemma refresh_captures_frame now w app :
  queue_view (refresh_captures now w app) = queue_view app
  /\ quick_actions (refresh_captures now w app) = quick_actions app.
Proof. unfold refresh_captures. cbv zeta. case_match. split; [queue_fields|lazy [set_field quick_actions]]; reflexivity. Qed.

Lemma refresh_frame clk app w app' w' :
  refresh env fuel socket_path clk app w = Some (app', w') ->
  queue_view app' = queue_view app /\ quick_actions app' = quick_actions app.
Proof.
  intros Hr. unfold refresh in Hr.
  destruct (refresh_workspaces _ _ _ _ _) as [[app1 w1]|] eqn:E1; [|done]. cbn [mbind option_bind] in Hr.
  destruct (refresh_tree _ _ _ _) as [app2|] eqn:E2; [|done]. cbn [mbind option_bind] in Hr.
  destruct (refresh_usage _ _ _ _ _ _) as [[app3 w3]|] eqn:E3; [|done]. cbn [mbind option_bind] in Hr.
  injection Hr as <- <-.
  eapply (frames_trans _ app3); [split; reflexivity|].
  set (mid := refresh_captures _ _ _) in E3. eapply (frames_trans _ mid).
  { unfold refresh_usage, set_refresh_notice in E3. repeat case_match; simplify_eq; try (split; reflexivity).
    eapply frames_trans; [apply clear_notice_frame|]. split.
    - match goal with |- queue_view (set_field _ _ ?x) = _ => change (queue_view x = queue_view mid) end.
      by rewrite queue_clamp_token.
    - match goal with |- _ (set_field _ _ ?x) = _ => change (quick_actions x = quick_actions mid) end.
      by rewrite overlay_of_clamp_token. }
  unfold mid. eapply frames_trans; [apply refresh_captures_frame|].
  eapply frames_trans; [apply refresh_tasks_frame|]. eapply frames_trans; [apply refresh_messages_frame|].
  eapply frames_trans; [split; [apply queue_rebuild|apply rebuild_overlay]|].
  eapply (frames_trans _ app1).
  { unfold refresh_tree, no_tree in E2. destruct (config_above_cwd _ _); [|simplify_eq; split; reflexivity].
    destruct (load_tree _ _ _ _); [|done]. cbn [mbind option_bind] in E2.
    destruct (load _ _ _ _); [|done]. cbn [mbind option_bind] in E2. simplify_eq. split; reflexivity. }
  eapply (frames_trans _ (refresh_sessions w app)).
  { unfold refresh_workspaces, set_refresh_notice in E1. repeat case_match; simplify_eq; try (split; reflexivity).
    eapply frames_trans; [apply clear_notice_frame|split; reflexivity]. }
  unfold refresh_sessions, set_refresh_notice. case_match; [|split; reflexivity].
  eapply frames_trans; [apply clear_notice_frame|split; reflexivity].
Qed.

Definition overlay_kept (app app' : App) : Prop :=
  quick_actions app' = quick_actions app \/ qa_open (quick_actions app') = false.
Lemma overlay_kept_trans app app' app'' :
  overlay_kept app app' -> quick_actions app'' = quick_actions app' -> overlay_kept app app''.
Proof. unfold overlay_kept. by intros ? ->. Qed.

Lemma lifecycle_outcomes action target cfg w os w' :
  apply_lifecycle env hash_text fuel socket_path ax_bin action target cfg w = Some (os, w') ->
  needs_confirm os = false /\ outcomes_ok os.
Proof.
  unfold apply_lifecycle. cbv zeta. intros Hr.
  destruct action; repeat case_match; simplify_eq; (split; [reflexivity|]); intros Hin; cbn in Hin; naive_solver.
Qed.

Lemma drain_lifecycle_facts clk app w app' w' :
  drain_pending_lifecycle env hash_text fuel socket_path ax_bin clk app w = Some (app', w') ->
  app_ok app ->
  app_ok app' /\ forms_view app' = forms_view app /\ pending_lifecycle app' = None
  /\ pending_task_action app' = pending_task_action app /\ overlay_kept app app'.
Proof.
  unfold drain_pending_lifecycle. intros Hr Hok.
  destruct (pending_lifecycle app) as [p|] eqn:Ep; [|simplify_eq; split; [done|]; repeat split; [done|by left]].
  set (app0 := app <| pending_lifecycle := None |>) in Hr.
  assert (app_ok app0) as Hok0 by app_frame_of Hok.
  assert (forall text, app_ok (set_notice clk text true app0) /\ forms_view (set_notice clk text true app0) = forms_view app
    /\ pending_lifecycle (set_notice clk text true app0) = None
    /\ pending_task_action (set_notice clk text true app0) = pending_task_action app
    /\ overlay_kept app (set_notice clk text true app0)) as Hnote.
  { intros text. split; [by apply set_notice_ok|]. repeat split. by left. }
  destruct (cwd env); [|simplify_eq; apply Hnote].
  destruct (config_above_cwd env (file_state w)) as [cfg|]; [|simplify_eq; apply Hnote].
  destruct (apply_lifecycle _ _ _ _ _ _ _ _ _) as [[os w1]|] eqn:El; [|done].
  cbn [mbind option_bind] in Hr. injection Hr as <- <-.
  apply lifecycle_outcomes in El as [Hn Ho].
  pose proof (queue_outcomes clk os app0) as [= E1 E2 E3 E4 E5 E6].
  split; [by apply apply_outcomes_ok|]. unfold forms_view. rewrite E1, E2, E3, E4, E5, E6.
  repeat split. exact (outcomes_overlay clk os app0 Hn).
Qed.

Lemma done_frame clk r w app :
  queue_view (task_action_done env socket_path clk r w app) = queue_view app
  /\ quick_actions (task_action_done env socket_path clk r w app) = quick_actions app.
Proof.
  destruct r; cbn [task_action_done].
  - eapply frames_trans; [apply refresh_tasks_frame|]. split; [apply queue_set_notice|reflexivity].
  - split; [apply queue_set_notice|reflexivity].
Qed.
Lemma task_action_done_ok clk r w app : app_ok app -> app_ok (task_action_done env socket_path clk r w app).
Proof. intros. destruct r; cbn [task_action_done]; [apply refresh_tasks_ok|]; by apply set_notice_ok. Qed.

(** A queued task action starts unless another one is running; then it waits, and the
    running one goes on or ends. *)
Definition task_action_step (s s' : Watch) : Prop :=
  match wa_task_job s with
  | None => wa_task_job s' = pending_task_action (wa_app s) /\ pending_task_action (wa_app s') = None
  | Some p => (wa_task_job s' = Some p \/ wa_task_job s' = None)
              /\ pending_task_action (wa_app s') = pending_task_action (wa_app s)
  end.

Lemma drain_task_action_facts clk poll s w s' w' :
  drain_pending_task_action env fuel socket_path clk poll s w = Some (s', w') ->
  app_ok (wa_app s) ->
  app_ok (wa_app s') /\ forms_view (wa_app s') = forms_view (wa_app s)
  /\ pending_lifecycle (wa_app s') = pending_lifecycle (wa_app s)
  /\ task_action_step s s'
  /\ quick_actions (wa_app s') = quick_actions (wa_app s) /\ wa_message_job s' = wa_message_job s.
Proof.
  unfold task_action_step. destruct s as [app job mj]. cbn [drain_pending_task_action wa_app wa_message_job wa_task_job]. intros Hr Hok.
  destruct job as [p|].
  - destruct (poll_job _ _ _ _) as [[r w1]|]; [|done]. cbn [mbind option_bind] in Hr. injection Hr as <- <-.
    destruct r as [r|]; cbn [wa_app wa_message_job wa_task_job]; [|by auto 10].
    destruct (done_frame clk r w1 app) as [[= E1 E2 E3 E4 E5 E6] Eq].
    split; [by apply task_action_done_ok|]. unfold forms_view. rewrite E1, E2, E3, E4, E5, E6, Eq. by auto 10.
  - injection Hr as <- <-. destruct (pending_task_action app) eqn:E; cbn [wa_app wa_message_job wa_task_job]; [|by auto 10].
    split; [app_frame_of Hok|]. by repeat split.
Qed.

Lemma task_create_done_ok clk r w app : app_ok app -> app_ok (task_create_done env socket_path clk r w app).
Proof.
  intros Hok. destruct r; cbn [task_create_done].
  - apply refresh_tasks_ok, set_notice_ok.
    assert (app_ok (app <| stream := ViewTasks |>)) as H' by (apply stream_view_ok; [by intros [=]|done]).
    app_frame_of H'.
  - apply set_notice_ok. case_match; [app_frame_of Hok|done].
Qed.
Lemma task_create_done_forms clk r w app :
  orchestrator_message_form (task_create_done env socket_path clk r w app) = orchestrator_message_form app
  /\ pending_orchestrator_message (task_create_done env socket_path clk r w app) = pending_orchestrator_message app
  /\ pending_task_create (task_create_done env socket_path clk r w app) = pending_task_create app
  /\ pending_lifecycle (task_create_done env socket_path clk r w app) = pending_lifecycle app
  /\ pending_task_action (task_create_done env socket_path clk r w app) = pending_task_action app
  /\ quick_actions (task_create_done env socket_path clk r w app) = quick_actions app
  /\ ~ creating (task_create_done env socket_path clk r w app)
  /\ (create_task_form (task_create_done env socket_path clk r w app) = None
      \/ is_Some (create_task_form app)).
Proof.
  destruct r as [task|e]; cbn [task_create_done].
  - set (app1 := set_notice _ _ _ _).
    destruct (refresh_tasks_frame (utc_now clk) w app1) as [[= E1 E2 E3 E4 E5 E6] Eq].
    unfold creating. rewrite E1, E2, E3, E4, E5, E6, Eq. repeat split; [|by left].
    by intros (f & [=] & _).
  - unfold creating. destruct (create_task_form app) as [f|] eqn:Ef.
    + repeat split; [|by right]. by intros (f' & [= <-] & Hf).
    + repeat split; [|by left]. intros (f' & Hf' & _). revert Hf'. lazy [set_notice set_field create_task_form].
      change (create_task_form app = Some f' -> False). congruence.
Qed.

Lemma drain_task_create_facts clk app w app' w' job :
  drain_pending_task_create env fuel socket_path clk app w = Some (app', w') ->
  app_ok app -> forms_ok app job ->
  app_ok app' /\ forms_ok app' job /\ pending_task_create app' = None
  /\ pending_lifecycle app' = pending_lifecycle app /\ pending_task_action app' = pending_task_action app
  /\ quick_actions app' = quick_actions app.
Proof.
  unfold drain_pending_task_create. intros Hr Hok Hf.
  destruct (pending_task_create app) as [d|] eqn:Ep; [|simplify_eq; by auto 10].
  destruct (run_pending_task_create _ _ _ _ _) as [[r w1]|]; [|done].
  cbn [mbind option_bind] in Hr. injection Hr as <- <-.
  set (app0 := app <| pending_task_create := None |>).
  destruct (task_create_done_forms clk r w1 app0) as (E1 & E2 & E3 & E4 & E5 & E6 & Hn & Hc).
  assert (app_ok app0) as Hok0 by app_frame_of Hok.
  split; [by apply task_create_done_ok|]. rewrite E3, E4, E5, E6. split; [|by auto 10].
  destruct Hf as [Ha Hcr Hs Ho]. split.
  - rewrite E1. destruct Ha as [Ha|Ha]; [|by right]. destruct Hc as [Hc|[f Hc]]; [by left|].
    change (create_task_form app = Some f) in Hc. congruence.
  - rewrite E3. split; [by intros []|done].
  - unfold sending. rewrite E1, E2. exact Hs.
  - rewrite E2. exact Ho.
Qed.

Lemma message_send_done_ok clk r w app : app_ok app -> app_ok (message_send_done env socket_path clk r w app).
Proof.
  intros Hok. destruct r; cbn [message_send_done].
  - apply refresh_messages_ok. unfold set_notice. app_frame_of Hok.
  - apply set_notice_ok. case_match; [app_frame_of Hok|done].
Qed.
Lemma message_send_done_forms clk r w app :
  create_task_form (message_send_done env socket_path clk r w app) = create_task_form app
  /\ pending_orchestrator_message (message_send_done env socket_path clk r w app) = pending_orchestrator_message app
  /\ pending_task_create (message_send_done env socket_path clk r w app) = pending_task_create app
  /\ pending_lifecycle (message_send_done env socket_path clk r w app) = pending_lifecycle app
  /\ pending_task_action (message_send_done env socket_path clk r w app) = pending_task_action app
  /\ quick_actions (message_send_done env socket_path clk r w app) = quick_actions app
  /\ ~ sending (message_send_done env socket_path clk r w app)
  /\ (orchestrator_message_form (message_send_done env socket_path clk r w app) = None
      \/ is_Some (orchestrator_message_form app)).
Proof.
  destruct r as [text|e]; cbn [message_send_done].
  - set (app1 := set_field force_refresh _ _).
    destruct (refresh_messages_frame w app1) as [[= E1 E2 E3 E4 E5 E6] Eq].
    unfold sending. rewrite E1, E2, E3, E4, E5, E6, Eq. repeat split; [|by left].
    by intros (f & [=] & _).
  - unfold sending. destruct (orchestrator_message_form app) as [f|] eqn:Ef.
    + repeat split; [|by right]. by intros (f' & [= <-] & Hf).
    + repeat split; [|by left]. intros (f' & Hf' & _). revert Hf'.
      lazy [set_notice set_field orchestrator_message_form].
      change (orchestrator_message_form app = Some f' -> False). congruence.
Qed.

Lemma drain_message_facts clk poll s w s' w' :
  drain_pending_orchestrator_message env fuel socket_path clk poll s w = Some (s', w') ->
  app_ok (wa_app s) -> forms_ok (wa_app s) (wa_message_job s) ->
  app_ok (wa_app s') /\ forms_ok (wa_app s') (wa_message_job s')
  /\ pending_orchestrator_message (wa_app s') = None
  /\ pending_task_create (wa_app s') = pending_task_create (wa_app s)
  /\ pending_lifecycle (wa_app s') = pending_lifecycle (wa_app s)
  /\ pending_task_action (wa_app s') = pending_task_action (wa_app s)
  /\ quick_actions (wa_app s') = quick_actions (wa_app s) /\ wa_task_job s' = wa_task_job s.
Proof.
  destruct s as [app tj job]. cbn [drain_pending_orchestrator_message wa_app wa_message_job wa_task_job]. intros Hr Hok Hf.
  pose proof Hf as [Ha Hc Hs Ho]. destruct job as [m|].
  - assert (pending_orchestrator_message app = None) as Ep by (by destruct Ho).
    destruct (poll_job _ _ _ _) as [[r w1]|]; [|done]. cbn [mbind option_bind] in Hr. injection Hr as <- <-.
    destruct r as [r|]; cbn [wa_app wa_message_job wa_task_job]; [|by auto 12].
    destruct (message_send_done_forms clk r w1 app) as (E1 & E2 & E3 & E4 & E5 & E6 & Hn & Hm).
    split; [by apply message_send_done_ok|]. rewrite E2, E3, E4, E5, E6. split; [|by auto 12]. split.
    + rewrite E1. destruct Ha as [Ha|Ha]; [by left|]. destruct Hm as [Hm|[f Hm]]; [by right|congruence].
    + unfold creating. rewrite E1, E3. exact Hc.
    + rewrite E2, Ep. split; [by intros [[]|[]]|done].
    + rewrite E2. by left.
  - injection Hr as <- <-. destruct (pending_orchestrator_message app) as [m|] eqn:E; cbn [wa_app wa_message_job wa_task_job];
      [|by auto 12].
    split; [app_frame_of Hok|]. split; [|by repeat split].
    eapply forms_make; [reflexivity..|exact Ha|exact Hc| |by left].
    etransitivity; [|exact Hs]. split; [by left|by right].
Qed.

(** What a turn leaves queued when it does not quit. *)
Record settled (s : Watch) : Prop := {
  settled_forms : forms_ok (wa_app s) (wa_message_job s);
  settled_lifecycle : pending_lifecycle (wa_app s) = None;
  settled_create : pending_task_create (wa_app s) = None;
  settled_message : pending_orchestrator_message (wa_app s) = None;
}.

Lemma settle_facts turn s w s' w' :
  settle env hash_text fuel socket_path ax_bin turn s w = Some (s', w') ->
  app_ok (wa_app s) -> forms_ok (wa_app s) (wa_message_job s) ->
  app_ok (wa_app s') /\ settled s'
  /\ task_action_step s s'
  /\ overlay_kept (wa_app s) (wa_app s').
Proof.
  unfold settle. cbv zeta. intros Hr Hok Hf.
  destruct (drain_pending_lifecycle _ _ _ _ _ _ _ _) as [[app1 w1]|] eqn:D1; [|done]. cbn [mbind option_bind] in Hr.
  destruct (drain_pending_task_action _ _ _ _ _ _ _) as [[s2 w2]|] eqn:D2; [|done]. cbn [mbind option_bind] in Hr.
  destruct (drain_pending_task_create _ _ _ _ _ _) as [[app3 w3]|] eqn:D3; [|done]. cbn [mbind option_bind] in Hr.
  destruct (drain_pending_orchestrator_message _ _ _ _ _ _ _) as [[s4 w4]|] eqn:D4; [|done].
  cbn [mbind option_bind] in Hr.
  apply drain_lifecycle_facts in D1 as (K1 & V1 & L1 & A1 & Q1); [|done].
  apply drain_task_action_facts in D2 as (K2 & V2 & L2 & A2 & Q2 & J2); [|done]. cbn [wa_app wa_message_job wa_task_job] in *.
  assert (forms_ok (wa_app s2) (wa_message_job s)) as F2.
  { apply (forms_ok_forms app1); [done|]. by apply (forms_ok_forms (wa_app s)). }
  apply (drain_task_create_facts _ _ _ _ _ (wa_message_job s)) in D3 as (K3 & F3 & C3 & L3 & A3 & Q3); [|done..].
  apply drain_message_facts in D4 as (K4 & F4 & M4 & C4 & L4 & A4 & Q4 & J4); [|done|by rewrite <-J2 in F3]. cbn [wa_app wa_task_job] in *.
  assert (queue_view (expire_notice (tu_clock turn) (wa_app s4)) = queue_view (wa_app s4)
    /\ quick_actions (expire_notice (tu_clock turn) (wa_app s4)) = quick_actions (wa_app s4)) as He.
  { unfold expire_notice. split; [queue_frame|repeat case_match; reflexivity]. }
  destruct (refresh_if_due _ _ _ _ _ _) as [[app5 w5]|] eqn:D5; [|done]. cbn [mbind option_bind] in Hr.
  injection Hr as <- <-. cbn [wa_app wa_message_job].
  assert (app_ok app5 /\ queue_view app5 = queue_view (wa_app s4)
    /\ quick_actions app5 = quick_actions (wa_app s4)) as (K5 & Hv5 & Q5).
  { unfold refresh_if_due in D5. pose proof (expire_notice_ok (tu_clock turn) _ K4) as K4'. case_match.
    - assert (app_ok ((expire_notice (tu_clock turn) (wa_app s4)) <| force_refresh := false |>)) as K4''
        by app_frame_of K4'.
      split; [by eapply refresh_ok|]. eapply frames_trans; [by eapply refresh_frame|].
      eapply frames_trans; [split; [apply queue_force|reflexivity]|exact He].
    - simplify_eq. by split. }
  pose proof Hv5 as [= E1 E2 E3 E4 E5 E6].
  split; [done|]. split; [split; cbn [wa_app wa_message_job]|].
  - by eapply forms_ok_view.
  - congruence.
  - congruence.
  - congruence.
  - split; [unfold task_action_step in *; cbn [wa_app wa_task_job] in *;
            by rewrite J4, E6, A4, A3, <-A1|].
    apply (overlay_kept_trans _ app1); [done|]. congruence.
Qed.

(** ** Runs *)

Abbreviation watching := (watching env hash_text fuel socket_path ax_bin).

Lemma app_new_ok : app_ok app_new.
Proof.
  split; try done.
  - by right.
  - split; [apply Nat.le_0_l|done].
  - by exists 0%Z.
Qed.
Lemma app_new_forms : forms_ok app_new None.
Proof.
  eapply forms_make; [reflexivity..|by left| | |by left].
  - split; [by intros []|]. by intros (f & [=] & _).
  - split; [by intros [[]|[]]|]. by intros (f & [=] & _).
Qed.

Lemma start_facts clk w s w' :
  start env fuel socket_path clk w = Some (s, w') ->
  app_ok (wa_app s) /\ settled s /\ qa_open (quick_actions (wa_app s)) = false
  /\ wa_task_job s = None /\ pending_task_action (wa_app s) = None.
Proof.
  unfold start. intros Hr. destruct (refresh _ _ _ _ _ _) as [[app1 w1]|] eqn:E; [|done].
  cbn [mbind option_bind] in Hr. injection Hr as <- <-. cbn [wa_app].
  split; [eapply refresh_ok; [exact E|apply app_new_ok]|].
  apply refresh_frame in E as [Hv Hq]. rewrite Hq.
  pose proof Hv as [= E1 E2 E3 E4 E5 E6]. split; [|done]. split; try done. eapply forms_ok_view; [exact Hv|apply app_new_forms].
Qed.

Lemma run_turn_facts turn s w s' w' :
  run_turn env hash_text fuel socket_path ax_bin turn s w = Some (s', w') ->
  app_ok (wa_app s) -> forms_ok (wa_app s) (wa_message_job s) ->
  app_ok (wa_app s')
  /\ (quit (wa_app s') = false -> settled s' /\ task_action_step (react turn s w).1 s')
  /\ overlay_kept (wa_app (react turn s w).1) (wa_app s').
Proof.
  unfold run_turn. intros Hr Hok Hf. destruct (react_facts turn s w Hok) as (K & Kf & _).
  assert (wa_message_job (react turn s w).1 = wa_message_job s) as Ej.
  { unfold react. by destruct (handle_event _ _ _ _). }
  destruct (react turn s w) as [s1 w1]. cbn [fst] in *.
  destruct (quit (wa_app s1)) eqn:Eq.
  - simplify_eq. split; [done|]. split; [congruence|]. by left.
  - apply settle_facts in Hr as (H1' & H2' & H3' & H4'); [by auto| |rewrite Ej; by apply Kf]. done.
Qed.

(** The overlay [q] was armed by an earlier Enter on its highlighted entry and has not
    changed since. *)
Definition armed (tr : list (Turn * Watch)) (q : QuickActionState) : Prop :=
  exists later turn s0 earlier,
    tr = later ++ (turn, s0) :: earlier
    /\ Forall (fun p => quick_actions (wa_app p.2) = q) later
    /\ event_enter turn = true
    /\ qa_open (quick_actions (wa_app s0)) = true /\ qa_confirm (quick_actions (wa_app s0)) = false
    /\ q = (quick_actions (wa_app s0)) <| qa_confirm := true |>.

(** A task with this version was in the task list. *)
Definition shown (tr : list (Turn * Watch)) (id : string) (version : Z) : Prop :=
  exists turn s0 t, (turn, s0) ∈ tr /\ t ∈ tasks (wa_app s0) /\ t_id t = id /\ t_version t = version.

Lemma armed_later tr q turn s :
  quick_actions (wa_app s) = q -> armed tr q -> armed ((turn, s) :: tr) q.
Proof.
  intros Hq (later & turn0 & s0 & earlier & -> & Hl & H'). exists ((turn, s) :: later), turn0, s0, earlier.
  split; [done|]. split; [by constructor|done].
Qed.
Lemma shown_later tr x id v : shown tr id v -> shown (x :: tr) id v.
Proof. intros (turn & s0 & t & Hin & H'). exists turn, s0, t. split; [by right|done]. Qed.

(** What the last turn made of the task action its event left queued. *)
Definition last_action_step (tr : list (Turn * Watch)) (s : Watch) : Prop :=
  match tr with
  | [] => wa_task_job s = None /\ pending_task_action (wa_app s) = None
  | (turn, s0) :: _ => exists w, task_action_step (react turn s0 w).1 s
  end.

Lemma watching_inv tr s :
  watching tr s ->
  app_ok (wa_app s) /\ (quit (wa_app s) = false -> settled s /\ last_action_step tr s).
Proof.
  induction 1 as [clk w s w' Hs|turn tr s w s' w' _ [IHok IHs] Hq Hr].
  - apply start_facts in Hs as (Hok & Hst & _ & Hidle). split; [done|]. intros _. split; [exact Hst|exact Hidle].
  - destruct (IHs Hq) as [[Hf _ _ _] _]. apply run_turn_facts in Hr as (Hok & Hst & _); [|done..].
    split; [done|]. intros [Hs Ha]%Hst. split; [done|]. by exists w.
Qed.

Lemma overlay_history tr s :
  watching tr s -> qa_open (quick_actions (wa_app s)) = true ->
  (qa_confirm (quick_actions (wa_app s)) = true -> armed tr (quick_actions (wa_app s)))
  /\ (Forall (fun a => is_task_action a = false) (qa_actions (quick_actions (wa_app s)))
      \/ shown tr (qa_target_task_id (quick_actions (wa_app s))) (qa_target_task_version (quick_actions (wa_app s)))).
Proof.
  induction 1 as [clk w s w' Hs|turn tr s w s' w' Hw IH Hq Hr]; intros Ho.
  { apply start_facts in Hs as (_ & _ & Hs & _). congruence. }
  destruct (watching_inv _ _ Hw) as [Hok Hst]. destruct (Hst Hq) as [[Hf _ _ _] _].
  apply run_turn_facts in Hr as (_ & _ & Hk); [|done..].
  destruct (react_facts turn s w Hok) as (_ & _ & Hstep & _).
  destruct Hk as [Hk|Hk]; [|congruence]. rewrite <-Hk in Hstep. clear Hk.
  revert Hstep Ho. generalize (quick_actions (wa_app s')). intros q' Hstep Ho.
  assert (qa_open (quick_actions (wa_app s)) = true -> forall q,
    qa_actions q = qa_actions (quick_actions (wa_app s)) ->
    qa_target_task_id q = qa_target_task_id (quick_actions (wa_app s)) ->
    qa_target_task_version q = qa_target_task_version (quick_actions (wa_app s)) ->
    Forall (fun a => is_task_action a = false) (qa_actions q)
    \/ shown ((turn, s) :: tr) (qa_target_task_id q) (qa_target_task_version q)) as Hshown.
  { intros Hos q -> -> ->. destruct (IH Hos) as [_ [?|?]]; [by left|right; by apply shown_later]. }
  destruct Hstep as [|q Hc|q Hos Hc Ea Et Ev|He Hos Hc|q Hc Hall|q t Hc Hin Et Ev].
  - split; [|by apply Hshown]. intros Hc. apply armed_later; [done|]. by apply (IH Ho).
  - congruence.
  - split; [congruence|by apply Hshown].
  - split; [|by apply Hshown]. intros _. exists [], turn, s, tr. by repeat split.
  - split; [congruence|by left].
  - split; [congruence|]. right. exists turn, s, t. split; [by left|]. done.
Qed.

Lemma draw_selected turn app : selected_workspace (draw turn app) = selected_workspace app.
Proof.
  assert (agent_entries (draw turn app) = agent_entries app /\ selected_entry (draw turn app) = selected_entry app)
    as [Ha Hs].
  { unfold draw, draw_stream_scroll, apply_tail_detail_scroll. split; repeat case_match; reflexivity. }
  unfold selected_workspace. by rewrite Ha, Hs.
Qed.

(** C27: The terminal interface never shows an impossible state: after every turn of its
    loop, whatever keys were pressed and whatever tmux, the files and the daemon answered,
    each cursor is on a row of its list (the selected agent is no group header, the
    message cursor is on the newest message in follow mode, the task cursor is on one of
    the tasks the current filter shows - for the stale filter, whose rows depend on the
    clock, at some time), the tab shown is one of the tabs, a highlighted action exists whenever the
    overlay is open, and an armed confirmation belongs to an action that needs one.  As
    long as the loop runs, no lifecycle action, task draft or message is left queued; a
    form that waits for its submission has a worker under way, and at most one form is
    open; and the task action queued when a turn has handled its event is started in that
    turn, unless one was running, behind which it waits ([task_action_step]). *)
Theorem watch_stays_consistent tr s :
  watching tr s ->
  app_ok (wa_app s) /\ (quit (wa_app s) = false -> settled s /\ last_action_step tr s).
Proof. apply watching_inv. Qed.

(** C28: A destructive quick action is confirmed, and a task action means what was on the
    screen.  The event of a turn queues a restart or a stop only when it is an Enter on
    that entry of an overlay that an earlier Enter on the same entry has armed and that
    has not changed since; the workspace is the selected one.  It queues a task action
    only for the highlighted entry (a cancellation only when armed in the same way), and
    the task and the version it names are those of a task that was in the list shown. *)
Theorem destructive_actions_are_confirmed tr s turn w s' w' :
  watching tr s -> quit (wa_app s) = false -> react turn s w = (s', w') ->
  (forall p, pending_lifecycle (wa_app s') = Some p ->
     event_enter turn = true
     /\ qa_current (quick_actions (wa_app s)) = Some (pl_action p)
     /\ armed tr (quick_actions (wa_app s))
     /\ selected_workspace (wa_app s) = Some (pl_workspace p))
  /\ (forall p, pending_task_action (wa_app s') = Some p -> pending_task_action (wa_app s) <> Some p ->
        event_enter turn = true
        /\ qa_current (quick_actions (wa_app s)) = Some (pa_action p)
        /\ (requires_confirmation (pa_action p) = true -> armed tr (quick_actions (wa_app s)))
        /\ shown tr (pa_task_id p) (pa_expected_version p)).
Proof.
  intros Hw Hq Hr. destruct (watching_inv _ _ Hw) as [Hok Hst]. destruct (Hst Hq) as [[_ Hl _ _] _].
  destruct (react_facts turn s w Hok) as (_ & _ & _ & Hp). rewrite Hr in Hp. cbn [fst] in Hp.
  destruct Hp as [[Hp1 Hp2]|(He & Ho & t & Ht)]; [split; intros p Hp; congruence|].
  destruct (overlay_history _ _ Hw Ho) as [Harm Hshow].
  destruct (activate_queue (tu_clock turn) (draw turn (wa_app s)) t) as (_ & Ha & Hb). rewrite <-Ht in Ha, Hb.
  pose proof (draw_overlay turn (wa_app s)) as [Eq _]. rewrite Eq in Ha, Hb. rewrite draw_selected in Ha.
  pose proof (queue_draw turn (wa_app s)) as [= _ _ _ _ E5 E6]. rewrite E5, E6 in *.
  split; intros p Hp.
  - destruct Ha as [Ha|(a & ws & Hc & Hr' & Hconf & Hsel & Ha)]; [congruence|]. rewrite Ha in Hp.
    injection Hp as <-. by auto.
  - intros Hnew. destruct Hb as [Hb|(a & Hc & Hta & Hconf & Hb)]; [congruence|]. rewrite Hb in Hp.
    injection Hp as <-. cbn [pa_action pa_task_id pa_expected_version]. split; [done|]. split; [done|].
    split; [by auto|]. destruct Hshow as [Hall|Hshow]; [|done]. unfold qa_current in Hc.
    eapply Forall_lookup_1 in Hall; [|exact Hc]. cbn in Hall. congruence.
Qed.
End turns.
