(* ===== verification/TuiShown.v ===== *)
(** * What the lists of the terminal interface show.

    The task list is the daemon's store in one order; the message list is what the daemon
    itself would load; the agents panel has a row for every session. *)

From stdpp Require Import prelude strings list gmap sorting.
From S2P Require Import Prelude RustStr Proto TaskHelpers TaskStore TaskEdits TaskMachine TaskEffects TaskForest.
From S2P Require Import TaskPersist History Paths ConfigSchema ConfigTree Tmux ErrorText RustText TuiData.

(** ** The order of tasks *)

Lemma string_compare_le a b : String.compare a b <> Gt <-> String.le a b.
Proof. unfold String.le, String.leb. destruct (String.compare a b); naive_solver. Qed.

Lemma display_cmp_le a b :
  display_cmp a b <> Gt <->
  (task_sort_order (t_status a) < task_sort_order (t_status b)
   \/ task_sort_order (t_status a) = task_sort_order (t_status b)
      /\ (task_priority_order (t_priority a) < task_priority_order (t_priority b)
          \/ task_priority_order (t_priority a) = task_priority_order (t_priority b)
             /\ (t_updated_at b < t_updated_at a
                 \/ t_updated_at a = t_updated_at b
                    /\ (t_created_at b < t_created_at a
                        \/ t_created_at a = t_created_at b /\ String.le (t_id a) (t_id b)))))%Z.
Proof.
  unfold display_cmp. cbv zeta. rewrite <-string_compare_le.
  generalize (String.compare (t_id a) (t_id b)). intros c.
  repeat match goal with |- context [Z.eqb ?x ?y] => destruct (Z.eqb_spec x y); cbn [negb] end;
    rewrite ?Z.compare_gt_iff; intuition lia.
Qed.

Lemma display_total a b : display_cmp a b = Gt -> display_cmp b a <> Gt.
Proof.
  assert (display_cmp b a = CompOpp (display_cmp a b)) as ->; [|by intros ->].
  unfold display_cmp. cbv zeta.
  rewrite (Z.eqb_sym (task_sort_order (t_status b))), (Z.eqb_sym (task_priority_order (t_priority b))),
    (Z.eqb_sym (t_updated_at b)), (Z.eqb_sym (t_created_at b)).
  repeat case_match; first [apply Z.compare_antisym|apply String.compare_antisym].
Qed.

Lemma display_trans a b c : display_cmp a b <> Gt -> display_cmp b c <> Gt -> display_cmp a c <> Gt.
Proof.
  rewrite !display_cmp_le. intros H1 H2.
  assert (String.le (t_id a) (t_id b) -> String.le (t_id b) (t_id c) -> String.le (t_id a) (t_id c)) as Ht
    by (intros; by etransitivity).
  revert Ht H1 H2. generalize (String.le (t_id a) (t_id b)), (String.le (t_id b) (t_id c)), (String.le (t_id a) (t_id c)).
  intros. intuition lia.
Qed.

Definition displayed (l : list Task) : Prop := StronglySorted (fun a b => display_cmp a b <> Gt) l.

(** The list shown depends on the tasks alone, not on the order they came in. *)
Lemma displayed_unique l l' :
  NoDup (t_id <$> l) -> l ≡ₚ l' -> displayed l -> displayed l' -> l = l'.
Proof.
  intros Hnd Hp Hs Hs'. eapply StronglySorted_unique_strong; [|exact Hs|exact Hs'|exact Hp].
  intros a b Ha Hb Hab Hba. rewrite <-Hp in Hb. rewrite display_cmp_le in Hab, Hba.
  assert (t_id a = t_id b) as Hid.
  { apply (anti_symm String.le); revert Hab Hba.
    - generalize (String.le (t_id a) (t_id b)), (String.le (t_id b) (t_id a)). intros. intuition lia.
    - generalize (String.le (t_id a) (t_id b)), (String.le (t_id b) (t_id a)). intros. intuition lia. }
  apply list_elem_of_lookup in Ha as [i Hi], Hb as [j Hj].
  assert (i = j) as ->; [|congruence]. eapply (NoDup_lookup _ i j); [exact Hnd|..]; rewrite list_lookup_fmap.
  - by rewrite Hi.
  - rewrite Hj. cbn. by rewrite Hid.
Qed.

Lemma filter_tasks_displayed now l mode : displayed (filter_tasks now l mode).
Proof. apply sort_by_sorted; [apply display_total|apply display_trans]. Qed.

(** ** The task list is the store *)

Lemma filter_perm {A} (f : A -> bool) l l' : l ≡ₚ l' -> List.filter f l ≡ₚ List.filter f l'.
Proof.
  induction 1 as [|x l l' _ IH|x y l|l l' l'' _ IH1 _ IH2]; cbn [List.filter]; [done|..].
  - destruct (f x); [by rewrite IH|done].
  - destruct (f x), (f y); try done. apply Permutation_swap.
  - by rewrite IH1.
Qed.
Lemma filter_fmap_NoDup {A B} (f : A -> bool) (g : A -> B) l : NoDup (g <$> l) -> NoDup (g <$> List.filter f l).
Proof.
  induction l as [|x l IH]; cbn; [done|]. rewrite NoDup_cons. intros [Hx Hl]. destruct (f x); [|by apply IH].
  cbn. rewrite NoDup_cons. split; [|by apply IH]. intros (y & Hy & Hin)%list_elem_of_fmap. apply Hx.
  apply list_elem_of_fmap. exists y. split; [done|]. rewrite list_elem_of_In in *. by apply filter_In in Hin as [].
Qed.

Section store.
Context {F : Type} `{!FileSystem F} `{!TextOps} `{!SysText} `{!ParseText}.
Context `{!JsonCodec (list Task)} `{!JsonCodecOk (list Task)}.

(** What the file of a store holds when no write has failed. *)
Lemma clean_file path st :
  (forall l : list Task, is_Some (to_vec l)) -> reachable_clean path st ->
  file st = None /\ inner st = ∅
  \/ exists b, file st = Some b /\ to_vec (persisted_tasks (inner st)) = Some b.
Proof.
  intros Henc Hr. induction Hr as [|st op now Hr IH Hop]; [by left|].
  destruct (oc_state _ _ _ _ (run_op_outcome op now None st Hop)) as [->|[m ->]]; [done|].
  destruct (clean_invariant path st Henc Hr) as (Hp & _).
  right. destruct (Henc (persisted_tasks m)) as [b Hb]. exists b.
  unfold persist_locked. fsimpl. rewrite Hp. cbv zeta. fold (persisted_tasks m). rewrite Hb. done.
Qed.

Lemma persisted_perm m : underived m -> persisted_tasks m ≡ₚ btree_values m.
Proof.
  intros Hund. unfold persisted_tasks. rewrite merge_sort_Permutation.
  assert (clear_derived_fields <$> btree_values m = btree_values m) as ->; [|done].
  rewrite <-(list_fmap_id (btree_values m)) at 2. apply list_fmap_ext.
  intros i t [k Hk]%list_elem_of_lookup_2%elem_of_btree_values.
  destruct (Hund _ _ Hk). by apply clear_derived_id.
Qed.

Lemma store_ids path st :
  reachable_clean path st -> NoDup (t_id <$> btree_values (inner st)).
Proof.
  intros Hr. pose proof (reachable_is_forest _ (clean_reachable _ _ Hr)) as Hf.
  rewrite btree_values_ids; [apply btree_keys_NoDup|].
  intros k t E. by apply (forest_key _ Hf) in E as [? _].
Qed.

(** C29: The task list is the daemon's store.  When every write of the daemon succeeded
    and the file system holds its file, the snapshot the terminal interface takes loads,
    and under each filter it shows exactly the tasks of the store that pass it, each once,
    in display order; any list with these properties is the one shown.  A store that was
    never written reads as missing. *)
Theorem task_list_is_the_store path st (fs : F) now mode :
  (forall l : list Task, is_Some (to_vec l)) -> reachable_clean path st ->
  fs_read fs path = match file st with Some b => Ok b | None => Err IoNotFound end ->
  fs_read fs (with_file_name path LEGACY_TASKS_FILE_NAME) = Err IoNotFound ->
  file st = None /\ inner st = ∅ /\ read_tasks_snapshot fs path = Missing
  \/ exists l, read_tasks_snapshot fs path = Loaded l
     /\ forall shown, shown = filter_tasks now l mode
        <-> shown ≡ₚ List.filter (shown_by now mode) (btree_values (inner st)) /\ displayed shown.
Proof.
  intros Henc Hr Hfs Hold. pose proof (store_ids _ _ Hr) as Hnd.
  destruct (clean_invariant path st Henc Hr) as (_ & Hund & _).
  unfold read_tasks_snapshot, read_tasks_snapshot_file. rewrite Hfs, Hold.
  destruct (clean_file path st Henc Hr) as [[-> Hi]|(b & -> & Hb)].
  { left. split_and!; [done..|]. by destruct (bool_decide _). }
  right. rewrite (from_slice_to_vec _ _ Hb). eexists. split; [reflexivity|]. intros shown.
  assert (filter_tasks now (sort_tasks_for_display (persisted_tasks (inner st))) mode
    ≡ₚ List.filter (shown_by now mode) (btree_values (inner st))) as Hp.
  { unfold filter_tasks, sort_tasks_for_display. rewrite sort_by_perm. apply filter_perm.
    by rewrite sort_by_perm, persisted_perm. }
  split; [intros ->; split; [exact Hp|apply filter_tasks_displayed]|].
  intros [Hs Hd]. apply displayed_unique; [|by rewrite Hs, Hp|done|apply filter_tasks_displayed].
  rewrite Hs. by apply filter_fmap_NoDup.
Qed.
End store.

(** ** The message list is what the daemon would load *)

Section history.
Context {F : Type} `{!FileSystem F} `{!TextOps} `{!SysText} `{!ParseText} `{!JsonCodec HistoryEntry}.

Lemma parse_history_load path n idx ls es :
  0 < n ->
  match parse_history path idx ls es with
  | Loaded es' => load_lines path n ls (last_n n es) = Ok (last_n n es')
  | SnapshotError _ => load_lines path n ls (last_n n es) = Err (HDecode path)
  | Missing => False
  end.
Proof.
  intros Hn. revert idx es. induction ls as [|line ls IH]; intros idx es; cbn [parse_history load_lines]; [done|].
  destruct (is_empty line); [apply IH|]. destruct (from_slice line) as [e|]; [|done].
  rewrite ring_push_last by done. apply IH.
Qed.

(** What [history_load] gets from the file system. *)
Definition history_content (fs : F) (path : string) : option (result string (list string)) :=
  match fs_read fs path with
  | Ok data => Some (Ok (lines data))
  | Err IoNotFound => None
  | Err e => Some (Err (to_string e))
  end.

(** The message list is the daemon's history: over any file, readable or not, the
    terminal interface's reader (collect every line, then drop the oldest) and the
    daemon's loader (a ring buffer) agree.  Both give the same newest entries, an empty
    history when there is no file, or both fail. *)
Theorem history_readers_agree (fs : F) path n :
  0 < n ->
  match read_history_snapshot fs path n, history_load path n (history_content fs path) with
  | Loaded l, Ok h => l = h_buffer h
  | Missing, Ok h => h_buffer h = []
  | SnapshotError _, Err _ => True
  | _, _ => False
  end.
Proof.
  intros Hn. unfold read_history_snapshot, history_load, history_content.
  destruct (fs_read fs path) as [data|[]]; [|done..]. rewrite (Nat.max_l n 1) by lia.
  pose proof (parse_history_load path n 0 (lines data) [] Hn) as Hp. cbn [last_n length] in Hp.
  change (last_n n []) with (drop (0 - n) ([] : list HistoryEntry)) in Hp. rewrite drop_nil in Hp.
  destruct (parse_history _ _ _ _) as [es| |e]; [|done|by rewrite Hp].
  rewrite Hp. cbn [mbind result_bind h_buffer]. unfold last_n. destruct (Nat.ltb_spec n (length es)); [reflexivity|].
  by replace (length es - n) with 0 by lia.
Qed.
End history.

(** ** The agents panel has a row for every session *)

Lemma session_by_workspace_spec sessions ws i :
  session_by_workspace sessions !! ws = Some i ->
  exists s, sessions !! i = Some s /\ si_workspace s = ws.
Proof.
  unfold session_by_workspace.
  assert (forall l m, (forall ws i, m !! ws = Some i -> exists s, sessions !! i = Some s /\ si_workspace s = ws) ->
    Forall (fun p => sessions !! p.1 = Some p.2) l ->
    forall ws i, foldl (fun (m : gmap string nat) p => <[si_workspace p.2 := p.1]> m) m l !! ws = Some i ->
    exists s, sessions !! i = Some s /\ si_workspace s = ws) as Hfold.
  { induction l as [|p l IH]; intros m Hm Hl; [exact Hm|]. inversion_clear Hl. cbn [foldl]. apply IH; [|done].
    intros ws' i' [[<- <-]|[_ ?]]%lookup_insert_Some; eauto. }
  apply Hfold; [by intros ?? ?%lookup_empty_Some|]. apply Forall_forall. intros [j s]. by rewrite enumerate_spec.
Qed.

Lemma session_known sessions s : s ∈ sessions -> is_Some (session_by_workspace sessions !! si_workspace s).
Proof.
  unfold session_by_workspace. intros Hin.
  assert (forall l (m : gmap string nat),
    (is_Some (m !! si_workspace s) \/ exists p, p ∈ l /\ si_workspace p.2 = si_workspace s) ->
    is_Some (foldl (fun (m : gmap string nat) p => <[si_workspace p.2 := p.1]> m) m l !! si_workspace s)) as Hfold.
  { induction l as [|p l IH]; intros m [Hm|(q & Hq & Es)]; cbn [foldl]; [done|by inversion Hq|..]; apply IH.
    - left. destruct (decide (si_workspace p.2 = si_workspace s)) as [->|]; [by rewrite lookup_insert_eq|].
      by rewrite lookup_insert_ne.
    - apply elem_of_cons in Hq as [->|Hq]; [left; rewrite Es; by rewrite lookup_insert_eq|right; eauto]. }
  apply Hfold. right. apply list_elem_of_lookup in Hin as [i Hi]. exists (i, s). split; [|done].
  by apply enumerate_spec.
Qed.

Lemma session_by_workspace_iff sessions ws i :
  NoDup (si_workspace <$> sessions) ->
  session_by_workspace sessions !! ws = Some i <-> exists s, sessions !! i = Some s /\ si_workspace s = ws.
Proof.
  intros Hnd. split; [apply session_by_workspace_spec|]. intros (s & Hi & <-).
  destruct (session_known sessions s) as [j Hj]; [by eapply list_elem_of_lookup_2|]. rewrite Hj. f_equal.
  apply session_by_workspace_spec in Hj as (s' & Hs' & Es).
  eapply (NoDup_lookup _ j i); [exact Hnd|..]; rewrite list_lookup_fmap.
  - by rewrite Hs'.
  - rewrite Hi. cbn. by rewrite Es.
Qed.

(** Induction through the lists of children. *)
Lemma ProjectNode_nested (P : ProjectNode -> Prop) :
  (forall nm al pf dir rt dis wss children,
     Forall P children -> P (mkProjectNode nm al pf dir rt dis wss children)) -> forall n, P n.
Proof.
  intros Hstep. fix IH 1. intros [nm al pf dir rt dis wss children]. apply Hstep.
  induction children as [|c cs IHc]; constructor; [apply IH|exact IHc].
Qed.

(** The rows of a project: each looks its session up by name, and each known name has one. *)
Definition row_looks_up (by_ws : gmap string nat) (e : AgentEntry) : Prop :=
  ae_group e = true \/ ae_session_index e = by_ws !! ae_workspace e.

Lemma project_rows by_ws desired node level :
  Forall (row_looks_up by_ws) (append_project by_ws desired level node)
  /\ forall name, name ∈ known_names node ->
     exists e, e ∈ append_project by_ws desired level node /\ ae_group e = false /\ ae_workspace e = name.
Proof.
  revert level. induction node as [nm al pf dir rt dis wss children IH] using ProjectNode_nested. intros level.
  cbn [append_project known_names pn_children pn_workspaces]. set (node := mkProjectNode _ _ _ _ _ _ _ _).
  assert (Forall (row_looks_up by_ws) (orchestrator_row by_ws desired level node)) as Ho.
  { unfold orchestrator_row. case_match; [|constructor]. constructor; [|constructor]. by right. }
  assert (Forall (row_looks_up by_ws) (workspace_row by_ws desired level <$> wss)) as Hw.
  { apply Forall_fmap, Forall_true. intros ws. by right. }
  split.
  - constructor; [by left|]. apply Forall_app. split; [exact Ho|]. apply Forall_app. split; [exact Hw|].
    apply Forall_join, Forall_fmap. eapply Forall_impl; [exact IH|]. intros c Hc. apply Hc.
  - intros name. rewrite !elem_of_app. intros [Hn|[Hn|Hn]].
    + revert Hn. unfold orchestrator_row. destruct (root_orchestrator_visible node) eqn:Ev; [|by intros ?%elem_of_nil].
      intros ->%list_elem_of_singleton. eexists. split; [right; by left|]. done.
    + apply list_elem_of_fmap in Hn as (ws & -> & Hin). exists (workspace_row by_ws desired level ws). split; [|done].
      right. apply elem_of_app. right. apply elem_of_app. left. apply list_elem_of_fmap. eauto.
    + apply list_elem_of_join in Hn as (l & Hl & (c & -> & Hc)%list_elem_of_fmap).
      rewrite Forall_forall in IH. destruct (IH c Hc (S level)) as [_ Hname]. destruct (Hname name Hl) as (e & He & Hg & Hws).
      exists e. split; [|done]. right. apply elem_of_app. right. apply elem_of_app. right.
      apply list_elem_of_join. eexists. split; [exact He|]. apply list_elem_of_fmap. eauto.
Qed.

Lemma collect_known_spec node name : is_Some (collect_known node ∅ !! name) -> name ∈ known_names node.
Proof.
  unfold collect_known.
  assert (forall l (m : gmap string bool),
    is_Some (foldl (fun m n => <[n := true]> m) m l !! name) -> is_Some (m !! name) \/ name ∈ l) as Hfold.
  { induction l as [|n l IH]; intros m Hm; [by left|]. destruct (IH _ Hm) as [Hi|]; [|right; by right].
    destruct (decide (n = name)) as [->|]; [right; by left|]. rewrite lookup_insert_ne in Hi by done. by left. }
  intros Hk. destruct (Hfold _ _ Hk) as [Hi|]; [|done]. rewrite lookup_empty in Hi. by destruct Hi.
Qed.

(** With a configuration tree the agents panel is faithful to tmux: if the sessions
    have different workspaces, every session has a row, under its own workspace name and
    with its own index, whether or not the tree knows it; and a row carries a session
    index exactly when that session is the one of its workspace.  So an action on a row
    reaches the session the row shows. *)
Theorem every_session_has_a_row root sessions enabled desired :
  NoDup (si_workspace <$> sessions) ->
  (forall i s, sessions !! i = Some s ->
     exists e, e ∈ build_from_tree root sessions enabled desired /\ ae_group e = false
       /\ ae_workspace e = si_workspace s /\ ae_session_index e = Some i)
  /\ (forall e i, e ∈ build_from_tree root sessions enabled desired -> ae_group e = false ->
        ae_session_index e = Some i <-> exists s, sessions !! i = Some s /\ si_workspace s = ae_workspace e).
Proof.
  intros Hnd. unfold build_from_tree. cbv zeta. set (by_ws := session_by_workspace sessions).
  set (known := collect_known root ∅). set (un := List.filter _ (enumerate sessions)).
  destruct (project_rows by_ws desired root 0) as [Hlook Hname]. rewrite Forall_forall in Hlook.
  set (rows := append_project by_ws desired 0 root) in *.
  set (tail := entry_group (runtime_only_group_label enabled) 0 :: (unregistered_row desired <$> un)).
  assert (forall e, e ∈ match un with [] => rows | _ => rows ++ tail end -> e ∈ rows \/ e ∈ tail) as Hin.
  { intros e. destruct un; [by left|]. by rewrite elem_of_app. }
  assert (forall e, e ∈ rows -> e ∈ match un with [] => rows | _ => rows ++ tail end) as Hrows.
  { intros e. destruct un; [done|]. rewrite elem_of_app. by left. }
  assert (forall p, p ∈ un -> sessions !! p.1 = Some p.2 /\ known !! si_workspace p.2 = None) as Hun.
  { intros [i s] Hp. unfold un in Hp. rewrite list_elem_of_In in Hp. apply filter_In in Hp as [Hp Hk].
    rewrite <-list_elem_of_In, enumerate_spec in Hp. split; [done|]. apply negb_true_iff, bool_decide_eq_false in Hk.
    by apply eq_None_not_Some. }
  split.
  - intros i s Hi. destruct (known !! si_workspace s) eqn:Ek.
    + destruct (Hname (si_workspace s)) as (e & He & Hg & Hws); [apply collect_known_spec; unfold known in Ek; eauto|].
      exists e. split; [by apply Hrows|]. split_and!; [done..|].
      destruct (Hlook e He) as [?|Hl]; [congruence|]. rewrite Hl, Hws. apply session_by_workspace_iff; eauto.
    + assert ((i, s) ∈ un) as Hp.
      { unfold un. rewrite list_elem_of_In. apply filter_In. rewrite <-list_elem_of_In, enumerate_spec. split; [done|].
        apply negb_true_iff, bool_decide_eq_false. cbn. rewrite Ek. by intros []. }
      exists (unregistered_row desired (i, s)). split; [|done].
      assert (unregistered_row desired (i, s) ∈ tail) by (right; apply list_elem_of_fmap; eauto).
      destruct un; [by inversion Hp|]. rewrite elem_of_app. by right.
  - intros e i He Hg. apply Hin in He as [He|He].
    + destruct (Hlook e He) as [?|Hl]; [congruence|]. rewrite Hl. by apply session_by_workspace_iff.
    + apply elem_of_cons in He as [->|He]; [done|]. apply list_elem_of_fmap in He as ([j s] & -> & Hp).
      apply Hun in Hp as [Hj _]. cbn in *. split; [intros [= <-]; eauto|]. intros (s' & Hi & Es). f_equal.
      eapply (NoDup_lookup _ j i); [exact Hnd|..]; rewrite list_lookup_fmap; [by rewrite Hj|rewrite Hi; cbn; by rewrite Es].
Qed.
