(* ===== verification/TuiExamples.v ===== *)
(** * The terminal interface on concrete runs.

    The theorems of [TuiQueue] and [TuiShown] applied to small worlds, and runs that show
    what the code does outside their scope. *)

From stdpp Require Import prelude strings list gmap fin_maps.
From S2P Require Import Prelude Act RustStr Proto Concrete TaskHelpers TaskStore TaskMachine TaskEffects TaskPersist TaskExamples.
From S2P Require Import History Registry Paths ConfigSchema ConfigTree Tmux Artifacts ConfigFacts.
From S2P Require Import WorkspaceManager WorkspaceExamples ServerExamples ErrorText.
From S2P Require Import Usage UsageTrends McpClient McpHost McpTools RustText.
From S2P Require Import TuiData TuiApp TuiLoop TuiFacts TuiQueue TuiShown.
Local Close Scope Z_scope.

(** ** A machine without a daemon *)

Abbreviation Host := (World MemFs MemTmux).
#[local] Instance Host_machine : Machine Host MemFs MemTmux := {|
  machine w := w;
  set_machine w _ := w;
|}.
#[local] Instance Host_socket : Socket Host := {|
  sock_connect _ w := (Err IoNotFound, w);
  sock_read_timeout w := (Ok tt, w);
  sock_write_timeout w := (Ok tt, w);
  sock_write _ w := (Ok tt, w);
  sock_read_line w := (Err IoNotFound, w);
|}.
#[local] Instance DemoWatchWire : WatchWire := {|
  wire_request id _ := Ok id;
  wire_envelope _ := Err "not an envelope";
  wire_response _ := Err "not a response";
  wire_error _ := Err "not an error";
  wire_answer _ _ := Err "not an answer";
  wire_mismatch := "mismatch";
|}.
#[local] Instance DemoParse : ParseText := {| parse_error_text _ := "expected value" |}.
#[local] Existing Instances OpaqueMcp QuickHistory.

(** ** Runs by execution *)

Definition bare_env : Env := mkEnv None (Err IoNotFound).
Abbreviation demo_turn := (run_turn bare_env plain_hash 5 "/run/ax.sock" "/bin/ax").
Abbreviation demo_watching := (TuiLoop.watching bare_env plain_hash 5 "/run/ax.sock" "/bin/ax").

(** The turns one after another, each from the world the last one left. *)
Fixpoint play (turns : list Turn) (tr : list (Turn * Watch)) (s : Watch) (w : Host)
  : option (list (Turn * Watch) * Watch * Host) :=
  match turns with
  | [] => Some (tr, s, w)
  | turn :: turns =>
      if quit (wa_app s) then None else
      match demo_turn turn s w with
      | Some (s', w') => play turns ((turn, s) :: tr) s' w'
      | None => None
      end
  end.

Lemma play_watching turns tr s w tr' s' w' :
  demo_watching tr s -> play turns tr s w = Some (tr', s', w') -> demo_watching tr' s'.
Proof.
  revert tr s w. induction turns as [|turn turns IH]; intros tr s w Hw; cbn [play]; [by intros [= <- <- <-]|].
  destruct (quit (wa_app s)) eqn:Eq; [done|]. destruct (demo_turn turn s w) as [[s1 w1]|] eqn:Et; [|done].
  apply IH. by eapply watching_turn.
Qed.

Definition key (k : KeyCode) : Turn :=
  mkTurn (mkClock 0 0) None None (Some (EvKey (mkKeyEvent k false false KeyPress))) PollEmpty PollEmpty.
Definition one_session : MemTmux := mkMemTmux {[ "ax-alpha" := mkSessionRow 0 1 ]} [] [].
Definition one_world : Host := mkWorld [] one_session.
Definition started : Watch * Host :=
  default (mkWatch app_new None None, one_world) (start bare_env 5 "/run/ax.sock" (mkClock 0 0) one_world).

(** Enter opens the overlay, four steps down is "Restart", Enter arms it. *)
Definition arming : list Turn := key KEnter :: replicate 4 (key KDown) ++ [key KEnter].
Definition armed_run : option (list (Turn * Watch) * Watch * Host) :=
  play arming [] started.1 started.2.

Lemma armed_watching tr s w : armed_run = Some (tr, s, w) -> demo_watching tr s.
Proof.
  unfold armed_run. apply play_watching.
  apply (watching_start _ _ _ _ _ (mkClock 0 0) one_world started.1 started.2). vm_compute. reflexivity.
Qed.

Lemma watch_stays_consistent_witness :
  exists tr s w, armed_run = Some (tr, s, w) /\ app_ok (wa_app s) /\ settled s
  /\ last_action_step tr s.
Proof.
  destruct armed_run as [[[tr s] w]|] eqn:E; [|vm_compute in E; discriminate E].
  exists tr, s, w. split; [reflexivity|].
  pose proof (armed_watching tr s w E) as Hw.
  destruct (watch_stays_consistent bare_env plain_hash 5 "/run/ax.sock" "/bin/ax" tr s Hw) as [Hok Hs].
  split; [exact Hok|]. apply Hs. vm_compute in E. injection E as _ <- _. reflexivity.
Defined.

Lemma destructive_actions_are_confirmed_witness :
  exists tr s w p, armed_run = Some (tr, s, w)
    /\ pending_lifecycle (wa_app (react (key KEnter) s w).1) = Some p
    /\ pl_action p = QRestart /\ pl_workspace p = "alpha" /\ armed tr (quick_actions (wa_app s)).
Proof.
  destruct armed_run as [[[tr s] w]|] eqn:E; [|vm_compute in E; discriminate E].
  pose proof (armed_watching tr s w E) as Hw.
  assert (quit (wa_app s) = false
    /\ pending_lifecycle (wa_app (react (key KEnter) s w).1) = Some (mkPendingLifecycle QRestart "alpha")) as [Hq Hp].
  { vm_compute in E. injection E as _ <- <-. split; vm_compute; reflexivity. }
  exists tr, s, w, (mkPendingLifecycle QRestart "alpha"). split; [reflexivity|]. split; [exact Hp|].
  destruct (react (key KEnter) s w) as [s' w'] eqn:Er.
  destruct (destructive_actions_are_confirmed bare_env plain_hash 5 "/run/ax.sock" "/bin/ax" tr s (key KEnter) w s' w'
    Hw Hq Er) as [Hl _].
  destruct (Hl _ Hp) as (_ & _ & Harm & _). split; [reflexivity|]. split; [reflexivity|exact Harm].
Defined.

(** ** The lists *)

Definition tasks_path : string := "/tasks-state.json".
Definition written : TaskStore := run_op op_parent (at_ 1) None (mkTaskStore (Some tasks_path) ∅ None).
Definition store_fs : MemFs := [(components tasks_path, default "" (file written))].

Lemma written_clean : reachable_clean tasks_path written.
Proof. apply clean_step; [constructor|fresh_op]. Qed.
Lemma written_file : exists b, file written = Some b.
Proof.
  destruct (clean_file tasks_path written ltac:(by intros l; eexists) written_clean) as [[_ Hi]|(b & Hb & _)]; [|eauto].
  unfold written, op_parent in Hi. rewrite inner_create in Hi by (vm_compute; (reflexivity || discriminate)).
  apply (f_equal (fun m : gmap string Task => m !! uuid_a)) in Hi. vm_compute in Hi. discriminate Hi.
Qed.
Lemma store_fs_reads : fs_read store_fs tasks_path = match file written with Some b => Ok b | None => Err IoNotFound end.
Proof.
  unfold store_fs. destruct written_file as [b ->]. cbn [default from_option id fs_read MemFs_ops]. unfold mem_lookup.
  cbn [List.find fst]. by rewrite bool_decide_true.
Qed.

Lemma task_list_is_the_store_witness :
  exists l, read_tasks_snapshot store_fs tasks_path = Loaded l
    /\ filter_tasks (at_ 2) l FilterActive ≡ₚ List.filter (shown_by (at_ 2) FilterActive) (btree_values (inner written))
    /\ displayed (filter_tasks (at_ 2) l FilterActive).
Proof.
  destruct (task_list_is_the_store tasks_path written store_fs (at_ 2) FilterActive
    ltac:(by intros l; eexists) written_clean store_fs_reads) as [(Hn & _)|(l & Hl & Hs)].
  - unfold store_fs. cbn [fs_read MemFs_ops]. unfold mem_lookup. cbn [List.find fst]. rewrite bool_decide_false; [done|].
    intros Heq. vm_compute in Heq. discriminate Heq.
  - destruct written_file as [b Hb]. congruence.
  - exists l. split; [exact Hl|]. by apply Hs.
Defined.

(** Entries of a file by name. *)
Definition entry (n : string) : HistoryEntry := mkHistoryEntry 0 "alpha" "beta" n "".
Definition NameHistory : JsonCodec HistoryEntry := {|
  to_vec e := Some (h_content e);
  from_slice s := if String.eqb s "?" then None else Some (entry s);
|}.
#[local] Existing Instance NameHistory.
Definition log_fs (text : list string) : MemFs := [(components "/log", String.concat newline text)].

Lemma history_readers_agree_witness :
  exists l h, read_history_snapshot (log_fs ["a"; "b"; ""; "c"]) "/log" 2 = Loaded l
    /\ history_load "/log" 2 (history_content (log_fs ["a"; "b"; ""; "c"]) "/log") = Ok h
    /\ l = [entry "b"; entry "c"] /\ l = h_buffer h.
Proof.
  pose proof (history_readers_agree (log_fs ["a"; "b"; ""; "c"]) "/log" 2 ltac:(lia)) as Ha.
  assert (read_history_snapshot (log_fs ["a"; "b"; ""; "c"]) "/log" 2
          = Loaded [entry "b"; entry "c"]) as E by (vm_compute; reflexivity).
  rewrite E in Ha. destruct (history_load _ _ _) as [h|] eqn:Eh; [|destruct Ha].
  exists [entry "b"; entry "c"], h. split; [exact E|]. split; [reflexivity|]. split; [reflexivity|exact Ha].
Defined.

Definition session (ws : string) : SessionInfo := mkSessionInfo ("ax-" +:+ ws) ws false 1.

Lemma every_session_has_a_row_witness :
  exists e, e ∈ build_from_tree loaded_tree [session "beta"; session "ghost"] false ∅ /\ ae_group e = false
    /\ ae_workspace e = "ghost" /\ ae_session_index e = Some 1.
Proof.
  destruct (every_session_has_a_row loaded_tree [session "beta"; session "ghost"] false ∅
    ltac:(by apply (bool_decide_unpack _))) as [Hrow _].
  apply (Hrow 1 (session "ghost")). reflexivity.
Defined.

(** ** Outside the theorems *)

(** Without a tree a session of a dotted name gets a row under the last part of its name,
    and an action on the row goes there. *)
Example fallback_rows_lose_their_workspace :
  (ae_workspace <$> build_fallback [session "team.backend"; session "ops.backend"]) = [""; "backend"; ""; "backend"].
Proof. vm_compute. reflexivity. Qed.

(** The overlay was opened on [alpha] and asks to confirm the restart of [alpha]; [alpha]
    leaves the panel; Enter restarts [beta]. *)
Definition press (k : KeyCode) (app : App) : App :=
  (handle_key (T := MemTmux) (mkClock 0 0) (mkKeyEvent k false false KeyPress) app one_session).1.
Definition two_agents : App := rebuild_agents (app_new <| sessions := [session "alpha"; session "beta"] |>).
Definition asking : App :=
  press KEnter (press KDown (press KDown (press KDown (press KDown (press KEnter two_agents))))).
Definition alpha_gone : App := rebuild_agents (asking <| sessions := [session "beta"] |>).

Example confirmation_hits_another_workspace :
  qa_target_workspace (quick_actions asking) = "alpha"
  /\ (confirm_prompt QRestart <$> Some (qa_target_workspace (quick_actions alpha_gone)))
     = Some "confirm restart alpha?"
  /\ pending_lifecycle (press KEnter alpha_gone) = Some (mkPendingLifecycle QRestart "beta").
Proof. split_and!; vm_compute; reflexivity. Qed.

(** A message list at its cap: one more message arrives, the parked cursor stays where it
    is and the selected message is another one. *)
Example parked_selection_drifts app m m0 l :
  messages app = m0 :: l -> messages_follow_tail app = false -> (0 <= messages_cursor app < zlen l)%Z ->
  let app' := reconcile_message_cursor (app <| messages := l ++ [m] |>) in
  messages_cursor app' = messages_cursor app
  /\ messages app' !! Z.to_nat (messages_cursor app') = messages app !! S (Z.to_nat (messages_cursor app)).
Proof.
  intros Em Ef Hc. cbv zeta. unfold reconcile_message_cursor. fsimpl. rewrite Ef, Em.
  unfold zlen in *. destruct (l ++ [m]) as [|x r] eqn:E; [by destruct l|]. fsimpl.
  assert (length (x :: r) = S (length l)) as El by (rewrite <-E, length_app; cbn; lia).
  unfold clamp. rewrite El. destruct (Z.ltb_spec (Z.of_nat (S (length l)) - 1) (messages_cursor app)); [lia|].
  split; [done|]. rewrite <-E. cbn [lookup list_lookup]. rewrite lookup_app_l by lia. done.
Qed.

(** While a task action is under way the next one waits in one slot, and the one after it
    takes the slot: the second request is announced and never sent. *)
Definition waiting : App :=
  app_new <| pending_task_action := Some (mkPendingTaskAction TaskRetry "first" 1) |>
          <| quick_actions := mkQuickActionState true [TaskWake] 0 false "" "second" 4 |>.
Example waiting_request_is_lost :
  pending_task_action (press KEnter waiting) = Some (mkPendingTaskAction TaskWake "second" 4).
Proof. vm_compute. reflexivity. Qed.

(** Thirty sessions, a tick every 250 ms for ten seconds. The cursor counts positions of
    the list of stale sessions, which shrinks under it: fourteen sessions are never
    captured, the others are captured again and again. *)
Definition crew : list SessionInfo :=
  (fun i => session (String (Ascii.ascii_of_nat (65 + i)) "")) <$> seq 0 30.
Fixpoint tick (n : nat) (now : Z) (c : CaptureCache) : CaptureCache :=
  match n with
  | O => c
  | S n => tick n (now + 250000000)%Z (captures_refresh one_session now crew None c).2
  end.
Definition captured (c : CaptureCache) : list bool :=
  (fun s => bool_decide (is_Some (cc_entries c !! si_workspace s))) <$> crew.
Example capture_rotation_starves :
  let never := [2; 3; 6; 7; 10; 11; 14; 15; 18; 19; 22; 23; 26; 27] in
  captured (tick 16 0%Z (mkCaptureCache ∅ 0)) = (fun i => negb (bool_decide (i ∈ never))) <$> seq 0 30
  /\ captured (tick 40 0%Z (mkCaptureCache ∅ 0)) = (fun i => negb (bool_decide (i ∈ never))) <$> seq 0 30.
Proof. split; vm_compute; reflexivity. Qed.
