(* ===== verification/CliExamples.v ===== *)
(** * The command line on concrete runs.

    The theorems of [CliFacts] applied to small worlds, and runs that show what the code does
    where one might expect something else. *)

From Stdlib Require Import Ascii.
From stdpp Require Import prelude strings list gmap fin_maps.
From S2P Require Import Prelude Act RustStr Proto Concrete TaskHelpers TaskStore TaskMachine TaskExamples.
From S2P Require Import Paths ConfigSchema ConfigTree Tmux Artifacts ConfigFacts SessionManager WorkspaceManager WorkspaceExamples.
From S2P Require Import Wake CodexFiles ErrorText TuiData Agent CliArgs CliTasks CliRun CliFacts RustText.

(** ** A machine with a terminal *)

(** Files, tmux and what was printed; a launched program ends at once, and no process can be
    signalled. *)
Record Desk := mkDesk { desk_files : MemFs; desk_tmux : MemTmux; desk_text : list string }.

#[local] Instance Desk_launch : LaunchHost Desk MemFs := {|
  host_spawn _ w := (Ok tt, w);
  host_try_wait w := (Ok (Some (Some 1%Z)), w);
  host_instant w := (0%Z, w);
  host_utc _ := 0%Z;
  host_sleep _ w := w;
  host_tmux _ w := (Err IoNotFound, w);
  host_files := desk_files;
  host_put_files f w := mkDesk f (desk_tmux w) (desk_text w);
|}.
#[local] Instance Desk_cli : CliHost Desk MemTmux := {|
  cli_tmux := desk_tmux;
  cli_put_tmux t w := mkDesk (desk_files w) t (desk_text w);
  cli_print s w := mkDesk (desk_files w) (desk_tmux w) (desk_text w ++ [s]);
  cli_kill _ _ w := (Err IoNotFound, w);
  cli_inside_tmux _ := false;
  cli_terminal _ w := (Err IoNotFound, w);
|}.
#[local] Instance Desk_ok : CliHostOk Desk MemFs MemTmux.
Proof. by split. Qed.
#[local] Instance MemFs_exists : PathExists MemFs := fun fs path => is_ok (fs_read fs path).
#[local] Instance DemoTimes : TimeText := {| format_datetime _ := "today"; format_time _ := "now" |}.
#[local] Existing Instance OpaqueMcp.

Definition no_file (path : string) : result IoError string := Err IoNotFound.
Definition no_kill (signal : string) (pid : Z) : result IoError Output := Err IoNotFound.
Abbreviation demo_parse := (parse_args (Some "/home/u") "/p" "/bin/ax" (fun _ => false) no_file no_kill).

(** ** Commands *)

Definition blank_free (s : string) : bool := forallb (fun a => negb (bool_decide (a = sp))) (bytes s).
Lemma blank_free_one_word s : blank_free s = true -> one_word s.
Proof.
  intros Hs Hin%list_elem_of_In. unfold blank_free in Hs. rewrite forallb_forall in Hs. apply Hs in Hin.
  by rewrite bool_decide_true in Hin.
Qed.

Definition retry_line : string :=
  "- ax tasks retry " +:+ uuid_b +:+ " --expected-version " +:+ show_Z (t_version (task_in demo3 uuid_b)).

Lemma recovery_suggestions_work_witness :
  exists command,
    demo_parse (split_char sp (drop_bytes 2 retry_line)) = Ok (PTasks "/home/u/.local/state/ax/daemon.sock" command)
    /\ carried_out command (task_in demo3 uuid_b) (at_ 9) None demo3.
Proof.
  destruct (recovery_suggestions_work (Some "/home/u") "/p" "/bin/ax" (fun _ => false) no_file no_kill
    (at_ 8) (at_ 9) None demo3 (task_in demo3 uuid_b) retry_line) as (c & Hp & Hc).
  - apply blank_free_one_word. vm_compute. reflexivity.
  - vm_compute. reflexivity.
  - vm_compute. split; discriminate.
  - vm_compute. reflexivity.
  - vm_compute. tauto.
  - vm_compute. reflexivity.
  - exists c. split; [|exact Hc]. rewrite Hp. reflexivity.
Defined.

Lemma ax_understands_its_commands_witness :
  demo_parse (managed_run_agent_args "/bin/ax" Codex "alpha" "/run/ax.sock" (Some "/p/.ax/config.yaml") true)
  = Ok (PRunAgent "codex" "alpha" "/run/ax.sock" (Some "/p/.ax/config.yaml") true [])
  /\ demo_parse (root_orchestrator_args "/bin/ax" Codex "orchestrator" "/run/ax.sock" "/p/.ax/config.yaml" ["--help"])
     = Ok (PRunAgent "codex" "orchestrator" "/run/ax.sock" (Some "/p/.ax/config.yaml") false ["--help"]).
Proof.
  destruct (ax_understands_its_commands (Some "/home/u") "/p" "/bin/ax" (fun _ => false) no_file no_kill
    "/bin/ax" Codex "alpha" "/run/ax.sock" "/p/.ax/config.yaml" true []) as [H1 _]; [vm_compute; reflexivity..|].
  destruct (ax_understands_its_commands (Some "/home/u") "/p" "/bin/ax" (fun _ => false) no_file no_kill
    "/bin/ax" Codex "orchestrator" "/run/ax.sock" "/p/.ax/config.yaml" true ["--help"]) as (_ & _ & H2 & _);
    [vm_compute; reflexivity..|].
  split; [exact H1|exact H2].
Defined.

Definition has_config (path : string) : bool := String.eqb path "/p/.ax/config.yaml".
Lemma send_takes_the_words_verbatim_witness :
  parse_args (Some "/home/u") "/p" "/bin/ax" has_config no_file no_kill
    ["ax"; "send"; "alpha"; "run"; "--socket"; "tests"; "--help"]
  = Ok (PSend "alpha" "run --socket tests --help" (default_socket (Some "/home/u")) "/p/.ax/config.yaml").
Proof.
  rewrite (send_takes_the_words_verbatim (Some "/home/u") "/p" "/bin/ax" has_config no_file no_kill
    "alpha" ["run"; "--socket"; "tests"; "--help"] "/p/.ax/config.yaml");
    [reflexivity|vm_compute; reflexivity|discriminate|vm_compute; reflexivity].
Defined.

(** ** ax init *)

Definition ignore_fs : MemFs := [(components "/p/.gitignore", "target")].
Definition ignore_run : result IoError bool * MemFs := ensure_gitignore "/p" ".mcp.json" ignore_fs.
Lemma mcp_json_visible : visible ".mcp.json".
Proof. split; [discriminate|]. repeat constructor; unfold graphic; cbn; lia. Qed.

(** The text had no last newline. *)
Lemma gitignore_is_extended_once_witness :
  ignore_run.1 = Ok true
  /\ fs_read ignore_run.2 "/p/.gitignore" = Ok ("target" +:+ newline +:+ ".mcp.json" +:+ newline)
  /\ ensure_gitignore "/p" ".mcp.json" ignore_run.2 = (Ok false, ignore_run.2).
Proof.
  split; [vm_compute; reflexivity|]. split; [vm_compute; reflexivity|].
  apply (gitignore_is_extended_once "/p" ".mcp.json" ignore_fs ignore_run.2 true).
  - exact mcp_json_visible.
  - vm_compute. reflexivity.
  - vm_compute. reflexivity.
Defined.

Definition projects_fs : MemFs :=
  [(components root_path, "top"); (components "/p/proj/.ax/config.yaml", "kid")].
Definition registration : result InitError (bool * string * MemFs) :=
  add_child_to_config root_path "/p" "/p/proj" "proj" projects_fs.
Definition registered_fs : MemFs := match registration with Ok (_, fs) => fs | Err _ => [] end.
Definition registered_log : string := match registration with Ok (_, log, _) => log | Err _ => "" end.

(** The child [old], whose configuration is gone, is dropped. *)
Lemma project_is_registered_witness :
  exists cfg cfg' key child,
    read_local projects_fs root_path = Ok cfg /\ read_local registered_fs root_path = Ok cfg'
    /\ children cfg' !! key = Some child /\ components (child_dir_of "/p" child) = components "/p/proj"
    /\ children cfg' = {[ "proj" := mkChild "proj" "" ]}.
Proof.
  destruct (project_is_registered root_path "/p" "/p/proj" "proj" projects_fs registered_fs registered_log)
    as (cfg & cfg' & key & child & H1 & H2 & _ & _ & H3 & H4 & _).
  - vm_compute. reflexivity.
  - vm_compute. reflexivity.
  - vm_compute. reflexivity.
  - exists cfg, cfg', key, child. split; [exact H1|]. split; [exact H2|]. split; [exact H3|]. split; [exact H4|].
    assert (read_local registered_fs root_path = Ok top_with_proj) as E by (vm_compute; reflexivity).
    rewrite E in H2. injection H2 as <-. vm_compute. reflexivity.
Defined.

(** ** ax down *)

Definition family : ProjectNode :=
  mkProjectNode "p" "p" "" "/p" "claude" false [] [mkProjectNode "kid" "kid" "kid" "/p/kid" "claude" false [] []].
Definition family_config : Config :=
  default_config <| workspaces := {[ "alpha" := default_workspace; "beta" := default_workspace ]} |>.
Definition family_names : list string := ["alpha"; "beta"; "orchestrator"; "kid.orchestrator"].
Definition family_desk : Desk :=
  mkDesk [] (mkMemTmux {[ "ax-alpha" := mkSessionRow 0 1; "ax-kid_orchestrator" := mkSessionRow 0 1;
                          "mail" := mkSessionRow 1 3 ]} [] []) [].
Definition down_workspaces : option (result CliError unit * Desk) :=
  run_each stop_workspace (btree_to_list (workspaces family_config)) family_desk.
Definition after_workspaces : Desk := match down_workspaces with Some (_, w) => w | None => family_desk end.
Definition down_orchestrators : option (result CliError unit * Desk) :=
  stop_orchestrator_sessions family after_workspaces.
Definition after_down : Desk := match down_orchestrators with Some (_, w) => w | None => family_desk end.

Lemma keys_listed {A} (m : gmap string A) n : is_Some (m !! n) -> List.In n (map_to_list m).*1.
Proof.
  intros [x Hx]. apply list_elem_of_In, list_elem_of_fmap. exists (n, x). split; [reflexivity|].
  by apply elem_of_map_to_list.
Qed.
Lemma names_listed (names : list string) n : List.In n names -> n ∈ (list_to_set names : gset string).
Proof. intros Hn%list_elem_of_In. by apply elem_of_list_to_set. Qed.

Lemma down_leaves_no_session_witness :
  (forall n, List.In n family_names -> session n (cli_tmux after_down) = None)
  /\ log (cli_tmux after_down) = [Killed "ax-alpha"; Killed "ax-kid_orchestrator"]
  /\ mt_names (desk_tmux after_down) = ["mail"].
Proof.
  split.
  - destruct (down_leaves_no_session family_config family (list_to_set family_names) family_desk after_workspaces
      after_down) as [Hgone _].
    + intros n Hn%elem_of_list_to_set. revert n Hn. apply Forall_forall.
      apply (bool_decide_unpack _). vm_compute. exact I.
    + intros n Hn%keys_listed. apply names_listed. vm_compute in Hn. vm_compute. tauto.
    + apply Forall_forall. intros n Hn%list_elem_of_In. apply names_listed. vm_compute in Hn. vm_compute. tauto.
    + vm_compute. reflexivity.
    + vm_compute. reflexivity.
    + intros n Hn. apply Hgone. vm_compute in Hn.
      destruct Hn as [<-|[<-|[<-|[<-|[]]]]].
      * left. vm_compute. eexists. reflexivity.
      * left. vm_compute. eexists. reflexivity.
      * right. vm_compute. tauto.
      * right. vm_compute. tauto.
  - split; vm_compute; reflexivity.
Defined.

(** ** What one might not expect *)

(** The daemon that was started dies at once.  A socket file that an earlier one left behind
    passes for the daemon's. *)
Definition desk_with (fs : MemFs) : Desk := mkDesk fs (mkMemTmux ∅ [] []) [].
Definition ensured (w : Desk) : option (result (DaemonCliError + UpCliError) unit) :=
  fst <$> ensure_daemon_running "/bin/ax" "/run/ax.sock" w.
Example dead_daemon_is_noticed :
  ensured (desk_with []) = Some (Err (inr (UpDaemonDidNotStart "/run/ax.sock"))).
Proof. vm_compute. reflexivity. Qed.
Example stale_socket_passes_for_a_daemon :
  ensured (desk_with [(components "/run/ax.sock", "")]) = Some (Ok tt).
Proof. vm_compute. reflexivity. Qed.

(** The preview calls a blocked task terminal and offers no way out, while the store would
    cancel it; and the status cannot be asked for. *)
Definition op_block : store_op := OpUpdate uuid_b (Some Blocked) None None None "worker".
Definition demo_blocked : TaskStore := run_op op_block (at_ 4) None demo3.
Example blocked_is_not_terminal :
  t_status (task_in demo_blocked uuid_b) = Blocked
  /\ is_terminal_status Blocked = false
  /\ next_steps (task_in demo_blocked uuid_b) = ["- task is terminal; intervene/retry is unavailable"]
  /\ is_ok (cancel uuid_b "" CLI_INBOX_WORKSPACE None (at_ 9) None demo_blocked).1 = true.
Proof. split_and!; vm_compute; reflexivity. Qed.
Example blocked_cannot_be_listed :
  demo_parse ["ax"; "tasks"; "list"; "--status"; "blocked"] = Err (InvalidStatus "blocked").
Proof. vm_compute. reflexivity. Qed.

(** Some commands take [--help] for a flag they do not know. *)
Example show_has_no_help :
  is_ok (demo_parse ["ax"; "tasks"; "list"; "--help"]) = true
  /\ is_ok (demo_parse ["ax"; "tasks"; "show"; "--help"]) = false.
Proof. split; vm_compute; reflexivity. Qed.

(** [ax init] where the home directory is the project registers the project in itself: the
    configuration cannot be loaded any more. *)
Definition home_path : string := "/home/u/.ax/config.yaml".
Definition home_fs : MemFs := [(components home_path, "home")].
Definition self_registration : result InitError (option string * string * MemFs) :=
  register_as_child_with_home "/home/u" "u" (Some "/home/u") home_fs.
Definition self_registered_fs : MemFs := match self_registration with Ok (_, fs) => fs | Err _ => [] end.
Example home_project_registers_itself :
  read_local self_registered_fs home_path = Ok home_within_itself
  /\ match load_tree demo_env home_fs 9 home_path with Some (Ok _) => True | _ => False end
  /\ match load_tree demo_env self_registered_fs 9 home_path with Some (Err (ChildError _ _ (Cycle _))) => True | _ => False end.
Proof. split_and!; vm_compute; done. Qed.
